(* ===== verification/_CoqProject ===== *)
-Q . S2P
Prelude.v
ListHead.v
Timer.v
MaapAddr.v
Maap.v
MaapSpec.v
MrpSm.v
MrpPdu.v
Mrp.v
MrpTx.v
MrpSpec.v
MrpRequests.v
MrpJoin.v
MrpEvents.v
MrpInit.v
MrpProps.v
Mvrp.v
MvrpSpec.v
MvrpEvents.v
MvrpRun.v
MvrpProps.v
MvrpExample.v
GptpBmca.v
Gptp.v
GptpSpec.v
GptpElect.v
GptpSelect.v
GptpSettle.v
GptpEvents.v
GptpRun.v
GptpInit.v
GptpConfig.v
GptpPeers.v
GptpProps.v
GptpExample.v
Milan.v
MilanSm.v
MilanListener.v
MilanSpec.v
MilanTable.v
MilanRefine.v
MilanEvents.v
MilanLive.v
MilanHandlers.v
MilanInputs.v
MilanRequests.v
MilanRun.v
MilanInit.v
MilanSession.v
MilanProps.v
MilanExample.v
Tracked.v
MilanTalker.v
MilanSource.v
MilanSourceSpec.v
MilanUpdate.v
MilanSourceRun.v
MilanTalkerRun.v
MilanTalkerInit.v
MilanTalkerSession.v
MilanTalkerProps.v
MilanPair.v
MaapTalker.v
MilanTalkerExample.v
