(* ===== verification/Prelude.v ===== *)
(** * GenAVB/TSN stack: verification of its protocol core

    This library models, as executable Rocq functions, components of the
    GenAVB/TSN stack and proves what they promise.  Paths below are relative to
    src/.

    ** The program

    A component (MAAP, MRP/MVRP, MSRP, gPTP, AVDECC, ...) is a set of handlers that
    the platform calls one at a time: frames from the network, messages from
    the media stack (IPC), link status, expiries of timers.  The handlers run
    to completion on the component's own context, and call the platform for
    memory, timers, frames, messages and random numbers.  The components share
    intrusive lists (common/list.h) and a multiplexer of software timers
    (common/timer.c).  MVRP is written against the generic MRP machinery
    (srp/mrp.c), which calls it back through the function pointers of
    [struct mrp_application].  An instance of gPTP (gptp/) elects a grandmaster
    with the systems around it: its ports receive Announce messages, keep the
    best priority vector that they have heard, and the selection of the port
    states compares them with the vector of the system.  The machines of the
    ports and of the instance are functions that call each other.  An AVDECC
    entity (avdecc/) in Milan mode has stream inputs, called sinks, that
    controllers bind to the streams of talkers; a sink waits for its talker to
    be discovered (ADP), asks it for the parameters of the stream by a command
    that is sent again when no answer comes (ACMP), connects the stream in the
    media stack and in SRP, and starts again when the stream is not registered.
    The stream outputs of the entity, called sources, get their addresses from
    MAAP, are declared in SRP while a listener wants them, and streamed by the
    media stack while a listener is ready.

    ** The model

    [Prelude.v] defines the monad of handlers [M C X]: a function from a
    [world] (state [X], clock, trace of platform calls of type [C] with their
    answers) to a result, a fault (NULL dereference, use after free, access out
    of bounds, broken list) or a lack of fuel.  The class [Platform] gives the
    answer to the n-th call and is arbitrary: a theorem holds for every
    behaviour of the platform, failures included, unless a hypothesis restricts
    it.  [wp c Q w] says that [c] terminates from [w] without undefined
    behaviour in a world that satisfies [Q]; every specification is stated with
    it, so termination and safety are part of all of them.

    - [ListHead.v]: common/list.h on a heap of [prev]/[next] pointers, and its
      refinement to lists of addresses.  All other files use lists.
    - [Timer.v]: common/timer.c, with callbacks that may use the timers
      again, and the abstract timer [soft_timer] that replaces [struct timer]
      in the other files; the refinement theorem justifies the replacement.
    - [MaapAddr.v], [Maap.v], [MaapSpec.v]: common/random.c, maap/maap.c and
      maap/maap.h; addresses and PDUs, the handlers, and the abstract
      automaton of a range with the invariant of the context.
    - [MrpSm.v]: the applicant and registrar tables of srp/mrp.c as functions.
    - [MrpPdu.v]: the construction of MRP PDUs by writes through pointers into
      a descriptor, and the layout of a finished PDU.
    - [Mrp.v]: the rest of srp/mrp.c, function by function.  [MrpOps] and
      [MrpInd] are the constants and callbacks of [struct mrp_application].
    - [MrpTx.v], [MrpSpec.v], [MrpRequests.v], [MrpJoin.v], [MrpEvents.v],
      [MrpInit.v], [MrpProps.v]: specifications of [Mrp.v] against classes of
      laws that a protocol has to satisfy: [MrpLaws] (transmission),
      [MrpIndLaws] (indications) and [MrpRxLaws] (reception).
    - [Mvrp.v]: srp/mvrp.c and srp/mvrp_map.c.  [MvrpSpec.v] relates the map to
      the applications, [MvrpEvents.v] discharges the laws of MRP and specifies
      each handler, [MvrpRun.v] treats initialisation, sessions and exit,
      [MvrpProps.v] has the properties and [MvrpExample.v] an endpoint with two
      ports on which all of them are instantiated.
    - [GptpBmca.v]: gptp/bmca.c, the vectors, their comparisons and the layout
      of the Announce message.  [Gptp.v]: the Announce machines of
      gptp/port_fsm.c, the selection of gptp/site_fsm.c, the message of
      gptp/md_fsm_802_3.c and the handlers of gptp/gptp.c that run them.
      [GptpConfig.v]: from the configuration to [gptp_instance_init].
    - [GptpSpec.v]: the transmission and information machines, and a port that
      is brought to rest.  [GptpElect.v]: the abstract algorithm, an election
      as a function of what the ports know ([elect]), and its events
      ([bmca_step]).  [GptpSelect.v] and [GptpSettle.v]: the selection computes
      [elect] and terminates with the instance at rest ([settled]).
      [GptpEvents.v] and [GptpRun.v]: each handler is one [bmca_step].
      [GptpInit.v]: the first run of the machines.  [GptpPeers.v]: what one
      system reads of what another one says.  [GptpProps.v] has the
      properties, [GptpExample.v] two systems on which they are instantiated
      and behaviours of the code that the standard does not ask for.
    - [Milan.v], [MilanSm.v], [MilanListener.v]: the listener of
      avdecc/acmp_milan.c with the frames and inflight commands of
      avdecc/acmp.c and avdecc/avdecc.c that it uses and the discovery machine
      of avdecc/adp_milan.c: data, commands and binding; the sink state
      machine, a function for each case of its [switch]; SRP, discovery,
      timeouts, requests, entry points ([milan_handle]), initialisation and
      exit.
    - [MilanTable.v]: the abstract sink ([asink]) and its table ([astep]).
      [MilanSpec.v] specifies the operations of [Milan.v], [MilanRefine.v] the
      sink state machine in every state and for every event.  [MilanEvents.v]
      and [MilanLive.v] have the invariants: the timers and parameters of a
      sink, and the sinks that wait against the commands in flight.
      [MilanHandlers.v], [MilanInputs.v], [MilanRequests.v] and [MilanRun.v]:
      each handler and each event as steps of the table.  [MilanInit.v]:
      initialisation and exit; [MilanSession.v]: sessions.  [MilanProps.v] has
      the properties, [MilanExample.v] an entity with two sinks.
    - [MilanTalker.v], [MilanSource.v]: the talker of avdecc/acmp_milan.c with
      the IPC and the answers of avdecc/acmp.c: data and messages; the update
      of a source (a function for each of its parts), commands, SRP and MAAP
      indications, timers, entry points ([talker_handle]), initialisation and
      exit.
    - [Tracked.v]: a world seen as its state and what was sent.
      [MilanSourceSpec.v]: the abstract source ([asource]), what an update makes
      of it ([settle]) and what it says ([changes]).  [MilanUpdate.v]: the
      update computes [settle].  [MilanSourceRun.v] and [MilanTalkerRun.v]: each
      handler and each event as one [source_step].  [MilanTalkerInit.v]:
      initialisation and exit; [MilanTalkerSession.v]: sessions, and what SRP
      and the media stack were told last.  [MilanTalkerProps.v] has the
      properties, [MilanPair.v] the listener and the talker together,
      [MaapTalker.v] MAAP and the talker; [MilanTalkerExample.v] an entity with
      two sources.

    A function of the model has the name of the C function.  A loop body or a
    case of a large [switch] that is a function of its own has the name of the
    C function with a suffix ([mrp_process_vector], [maap_sm_rprobe]).
    Pointers to objects are numbers into a heap (a [gmap]); an object that is
    freed is deleted, so a use after free is a fault.  Integers are [Z] with
    [u8], [u16] and [u32] where the code stores or computes in that width.

    ** The theorems

    - Functional refinement: list operations refine lists, the timer API refines
      the abstract timers, ranges refine the automaton of MAAP, requests to MRP
      refine a set of declarations, events of gPTP refine [bmca_step], events
      of a Milan listener refine [astep] ([milan_event_refines]), those of a
      talker [source_step] ([talker_event_refines]).
    - Safety and invariants over whole sessions, from zeroed memory to exit:
      [maap_lifecycle_safe], [mvrp_session_safe], [mvrp_vlan_bounds],
      [mvrp_exit_releases], [timer_service_safe], [milan_lifecycle_safe],
      [talker_lifecycle_safe].  Two of them exclude what the code does not
      survive: a command to MAAP for a port whose initialisation failed
      ([create_on_failed_port], [delete_on_failed_port]), and MVRP on a bridge
      ([bridge_leave_uses_freed_vlan]) or without timers.
    - Propagation: [mvrp_propagation] characterises the declarations of every
      port at every point of every session (802.1Q 10.3).
    - Election: [gptp_session_settles] (from the configuration, every sequence
      of events leaves the instance at rest), [grandmaster_is_best],
      [port_roles] and [incapable_never_grandmaster] (what rest means, and
      where the code departs from the rules that its comments quote),
      [announce_transfer], [transmit_opportunity] and [better_master_wins]
      (systems that hear each other agree), [message_ignored] and
      [long_path_lost] (messages without effect), [priority_order].
    - Streams: [milan_probes_match] (waiting sinks and commands in flight match
      one to one), [milan_streams_connected] (a sink is connected exactly while
      it is settled, and no two sinks have the same talker stream),
      [milan_probes_again] (a sink never waits for ever), except
      [milan_bind_zero_stuck]; [milan_commands_answered].  [talker_streams] (a
      source is declared and streamed exactly when it should be, with its
      address), [talker_waits] (nothing else is declared for two LeaveAll
      periods after a withdrawal).
    - Composition: [probe_settles_sink] (the talker's answer settles the sink
      that has probed it, or sends it back to wait), [maap_statuses_orderly] (what the talker relies on
      is what MAAP does).
    - Handlers: for each command, frame, link change and timer the effect on
      the state and the frames and messages sent, errors included.
    - Robustness: [packet_processing_terminates], for packets of any content.
    - Encodings: round trips of packed events, headers and PDUs; bounds of the
      random intervals.

    ** Bounds and fuel

    Loops over lists are structural on a list that is read first, or have its
    length as fuel ([list_each], [list_walk], [mrp_join_loop]); the specifications
    prove that it suffices when the body changes the list.  Packets have their
    length as fuel: every vector and message is at least two bytes long.
    [mrp_transmit_new] makes at most three passes (one unit per [goto new]),
    which suffices when a vector with one event fits into the MTU
    ([platform_ok]).  [mvrp_indications] has depth 1: an indication makes
    requests, whose fresh registrars indicate nothing.  The machines of gPTP
    loop while their state changes: at most 8 passes of the information
    machine, 5 of the transmit machine, 2 of the others.  The selection runs
    the information machine of a port, which may ask for the selection again;
    depth 2 suffices, since the machine of a port that is brought up to date
    asks for nothing.

    ** Assumptions

    - The host is little-endian with 64-bit pointers; [os_log] has no effect.
    - At most 16 ports, the width of the port masks of MVRP.
    - The platform keeps its calling conventions: handlers are not called
      concurrently, timers call back only while they are running.
    - [platform_ok], [timers_ok], [plenty] and [healthy] state what a platform
      that works answers (MTU of at least one vector, timers can be created,
      memory, descriptors); each theorem names those that it needs, and the
      examples satisfy them.
    - An instance of gPTP has at most 15 ports (its masks are 16 bits wide), the
      standard profile where a theorem starts from a configuration, and timers
      that could be created.  Its theorems see the Announce machines; the
      handlers also run the synchronisation machines, which read but do not
      write the state of the election.  Peer delay decides whether a port is
      [asCapable]; that decision is an event.
    - An AVDECC context with one entity, a listener in Milan mode that is ready;
      the descriptors of its sinks and interfaces exist.  Frames that the
      entity sends are looped back to it; when they are for a talker or a
      controller, their handlers are calls of the platform, which do not call
      the listener back.  [EvLock] and [EvGrandmaster] stand for what AECP and
      gPTP write into the descriptors that the listener reads.
    - [healthy] for a Milan listener says that the platform has memory for
      frames and messages.  [milan_event_refines] and [milan_commands_answered]
      assume it; [milan_lifecycle_safe] does not, except for the streams.  The properties of
      a [session] also assume fewer sinks than inflight entries, and peers that
      play by the rules ([peers]): the sequence number of a new probe is not
      one of a probe in flight, an answer to a probe is addressed to the sink
      that sent it, a bind command does not name talker stream 0 of entity 0,
      and a binding is restored only on an unbound sink and for
      a talker stream of its own ([saved_exclusive]).
    - The same for a talker entity; its descriptors have the order of their
      indices, at most 65536 of them, and its interfaces have MAC addresses of
      six bytes.  [EvSetStreamInfo] stands for what AECP writes.  [talker_healthy]
      says that the platform has memory and that its queues accept messages;
      [talker_lifecycle_safe] needs it only for the streams.  [talker_session]
      also asks that MAAP takes an address back before it gives another one
      ([orderly]), which [maap_statuses_orderly] proves of the MAAP of this
      program.
    - Memory that the code does not initialise has arbitrary contents
      ([MrpMemory]).  The buffer of a received MRP packet extends at least two
      bytes beyond the packet, where the code looks for the last end mark.

    ** Not modelled

    Of gPTP, the machines of sync, follow-up, peer delay, gPTP capable and the
    clocks are not modelled, nor are its managed objects: they compute with
    floating point and hardware timestamps.  Of AVDECC, the controllers, the
    entity model (AECP), the IEEE 1722.1 mode and the ADP advertiser are not
    modelled, nor is the table of discovered entities of
    avdecc/adp.c, which only controllers read in Milan mode.  MSRP, HSR and AVTP
    are not modelled.  Management, the
    public API and the platform layers (rtos/, linux/) move messages between
    queues and drivers; the components see them as platform calls.  The
    applications under apps/ are examples and generated code.  srp/mmrp.c has
    only stubs. *)

From Stdlib Require Import ZArith Lia.
From stdpp Require Export base gmap list numbers option.

#[export] Set Default Goal Selector "!".

(** ** Record field update

    [r <| f := v |>] and [r <| f ::= g |>] for any record with an [Eta]
    instance listing its fields; [simpl] reduces a projection of an update. *)

Class Eta (R : Type) := eta : R → R.
Class Field {R E : Type} (proj : R → E) := over_field : (E → E) → R → R.

Ltac derive_field :=
  match goal with
  | |- @Field ?R ?E ?proj =>
    let e := constr:(eta (R:=R)) in
    let body := eval hnf in e in
    match eval pattern proj in body with
    | ?f _ =>
      let r := eval cbv beta in (fun (g : E → E) => f (fun x => g (proj x))) in
      exact r
    end
  end.
#[export] Hint Extern 1 (Field _) => derive_field : typeclass_instances.

Definition over {R E} (proj : R → E) `{!Field proj} (g : E → E) (r : R) : R :=
  over_field g r.

Declare Scope genavb_scope.
Delimit Scope genavb_scope with genavb.
Notation "r <| f ::= g |>" := (over f g r)
  (at level 1, left associativity) : genavb_scope.
Notation "r <| f := v |>" := (over f (λ _, v) r)
  (at level 1, left associativity) : genavb_scope.
Open Scope genavb_scope.
Open Scope Z_scope.

(** ** Machine integers

    A value of an unsigned C type of width [w] is a [Z] in [0, 2^w); the
    conversion to the type is reduction modulo [2^w], written out where the
    code performs it. *)

Definition u8 (z : Z) : Z := z mod 2 ^ 8.
Definition u16 (z : Z) : Z := z mod 2 ^ 16.
Definition u32 (z : Z) : Z := z mod 2 ^ 32.
Definition u64 (z : Z) : Z := z mod 2 ^ 64.

(** Conversion to [int] (two's complement, 32 bits). *)
Definition s32 (z : Z) : Z := (z + 2 ^ 31) mod 2 ^ 32 - 2 ^ 31.

Lemma u8_range z : 0 ≤ u8 z < 2 ^ 8.
Proof. apply Z.mod_pos_bound; lia. Qed.
Lemma u16_range z : 0 ≤ u16 z < 2 ^ 16.
Proof. apply Z.mod_pos_bound; lia. Qed.
Lemma u32_range z : 0 ≤ u32 z < 2 ^ 32.
Proof. apply Z.mod_pos_bound; lia. Qed.
Lemma u8_small z : 0 ≤ z < 256 → u8 z = z.
Proof. intros; apply Z.mod_small; lia. Qed.
Lemma u16_small z : 0 ≤ z < 65536 → u16 z = z.
Proof. intros; apply Z.mod_small; lia. Qed.
Lemma u32_small z : 0 ≤ z < 2 ^ 32 → u32 z = z.
Proof. intros; apply Z.mod_small; lia. Qed.
Lemma u64_small z : 0 ≤ z < 2 ^ 64 → u64 z = z.
Proof. intros; apply Z.mod_small; lia. Qed.
Lemma s32_small z : - 2 ^ 31 ≤ z < 2 ^ 31 → s32 z = z.
Proof. intros. unfold s32. rewrite Z.mod_small; lia. Qed.

(** Network byte order, on a little-endian host: the two bytes swapped. *)
Definition htons (z : Z) : Z := Z.lor (Z.shiftl (Z.land z 255) 8) (Z.land (Z.shiftr z 8) 255).
Definition ntohs (z : Z) : Z := htons z.

(** The bytes of an [u16] in memory. *)
Definition u16_bytes (z : Z) : list Z := [z mod 256; z / 256].

(** Port bit masks ([x |= 1 << p], [x &= ~(1 << p)], [x & (1 << p)]). *)
Definition bit_set (x : Z) (p : nat) : Z := Z.lor x (Z.shiftl 1 (Z.of_nat p)).
Definition bit_clear (x : Z) (p : nat) : Z := Z.land x (Z.lnot (Z.shiftl 1 (Z.of_nat p))).
Definition bit_test (x : Z) (p : nat) : bool := negb (Z.land x (Z.shiftl 1 (Z.of_nat p)) =? 0).

Lemma htons_bytes a b : 0 ≤ a < 256 → 0 ≤ b < 256 → htons (a + 256 * b) = 256 * a + b.
Proof.
  intros Ha Hb. unfold htons.
  rewrite (Z.land_ones _ 8), (Z.land_ones _ 8) by lia.
  change (2 ^ 8) with 256.
  replace ((a + 256 * b) mod 256) with a by (Z.div_mod_to_equations; lia).
  replace (Z.shiftr (a + 256 * b) 8) with b.
  2:{ rewrite Z.shiftr_div_pow2 by lia. change (2 ^ 8) with 256.
      Z.div_mod_to_equations; lia. }
  rewrite (Z.mod_small b) by lia.
  rewrite Z.shiftl_mul_pow2 by lia. change (2 ^ 8) with 256.
  assert (Z.land (a * 256) b = 0) as Hl.
  { apply Z.bits_inj'. intros n Hn. rewrite Z.bits_0, Z.land_spec.
    destruct (Z.lt_ge_cases n 8).
    - change 256 with (2 ^ 8). rewrite Z.mul_pow2_bits_low by lia. done.
    - rewrite (Z.bits_above_log2 b n), andb_false_r; [done|lia|].
      destruct (decide (b = 0)) as [->|]; [simpl; lia|].
      apply Z.log2_lt_pow2; [lia|].
      assert (2 ^ 8 ≤ 2 ^ n) by (apply Z.pow_le_mono_r; lia). lia. }
  pose proof (Z.add_lor_land (a * 256) b). lia.
Qed.

Lemma htons_be z : 0 ≤ z < 65536 → htons z = 256 * (z mod 256) + z / 256.
Proof.
  intros Hz.
  rewrite (Z.div_mod z 256) at 1 by lia.
  rewrite Z.add_comm, htons_bytes; [lia|apply Z.mod_pos_bound; lia|].
  Z.div_mod_to_equations; lia.
Qed.

Lemma htons_range z : 0 ≤ z < 65536 → 0 ≤ htons z < 65536.
Proof. intros. rewrite htons_be by done. Z.div_mod_to_equations; lia. Qed.

Lemma htons_involutive z : 0 ≤ z < 65536 → htons (htons z) = z.
Proof.
  intros Hz. rewrite (htons_be z) by done. rewrite Z.add_comm.
  rewrite htons_bytes; Z.div_mod_to_equations; lia.
Qed.

Lemma bit_test_testbit x p : bit_test x p = Z.testbit x (Z.of_nat p).
Proof.
  unfold bit_test.
  destruct (Z.testbit x (Z.of_nat p)) eqn:E.
  - apply negb_true_iff, Z.eqb_neq. intros H.
    assert (Hb : Z.testbit (Z.land x (Z.shiftl 1 (Z.of_nat p))) (Z.of_nat p) = false)
      by (rewrite H; apply Z.bits_0).
    rewrite Z.land_spec, E, Z.shiftl_spec, Z.sub_diag in Hb by lia. done.
  - apply negb_false_iff, Z.eqb_eq. apply Z.bits_inj'. intros n Hn.
    rewrite Z.bits_0, Z.land_spec, Z.shiftl_spec by lia.
    destruct (decide (n = Z.of_nat p)) as [->|]; [by rewrite E|].
    replace (Z.testbit 1 (n - Z.of_nat p)) with false; [apply andb_false_r|].
    symmetry. destruct (Z.lt_ge_cases n (Z.of_nat p)).
    + apply Z.testbit_neg_r; lia.
    + apply Z.bits_above_log2; simpl; lia.
Qed.

Lemma one_shift_testbit p n :
  0 ≤ n → Z.testbit (Z.shiftl 1 (Z.of_nat p)) n = bool_decide (n = Z.of_nat p).
Proof.
  intros. rewrite Z.shiftl_spec by lia. case_bool_decide as D.
  - by rewrite D, Z.sub_diag.
  - destruct (Z.lt_ge_cases n (Z.of_nat p)).
    + apply Z.testbit_neg_r; lia.
    + apply Z.bits_above_log2; simpl; lia.
Qed.

Lemma bit_set_test x p q : bit_test (bit_set x p) q = bool_decide (q = p) || bit_test x q.
Proof.
  rewrite !bit_test_testbit. unfold bit_set.
  rewrite Z.lor_spec, one_shift_testbit by lia.
  rewrite orb_comm. f_equal. apply bool_decide_ext. lia.
Qed.

Lemma bit_clear_test x p q : bit_test (bit_clear x p) q = negb (bool_decide (q = p)) && bit_test x q.
Proof.
  rewrite !bit_test_testbit. unfold bit_clear.
  rewrite Z.land_spec, Z.lnot_spec, one_shift_testbit by lia.
  rewrite andb_comm. f_equal. f_equal. apply bool_decide_ext. lia.
Qed.

(** A mask is zero exactly when no port's bit is set. *)
Lemma mask_zero_iff x : 0 ≤ x → (x = 0 ↔ ∀ p, bit_test x p = false).
Proof.
  intros Hx. split.
  - intros -> p. rewrite bit_test_testbit. apply Z.bits_0.
  - intros H. apply Z.bits_inj'. intros n Hn. rewrite Z.bits_0.
    specialize (H (Z.to_nat n)). rewrite bit_test_testbit, Z2Nat.id in H by lia. done.
Qed.

Lemma bit_set_nonneg x p : 0 ≤ x → 0 ≤ bit_set x p.
Proof. intros. apply Z.lor_nonneg. split; [done|]. apply Z.shiftl_nonneg. lia. Qed.
Lemma bit_clear_nonneg x p : 0 ≤ x → 0 ≤ bit_clear x p.
Proof. intros. apply Z.land_nonneg. by left. Qed.

Create HintDb genavb.
Create Rewrite HintDb genavb_rw.
#[export] Hint Rewrite bit_set_test bit_clear_test : genavb_rw.
#[export] Hint Resolve bit_set_nonneg bit_clear_nonneg u8_range u16_range u32_range : genavb.

(** ** Effects

    The code calls into the platform (memory, random numbers, network and IPC
    queues, OS timers).  Those calls are a type [C] of the component; their
    answers are an oracle indexed by the number of the call, so every
    behaviour of the platform is some [Platform] and a property quantifies over
    all of them.  A computation also meets undefined behaviour of C, which is a
    [Fault] here, and a loop that exhausts its fuel, [NoFuel]. *)

Class Platform (C : Type) := answer : nat → C → Z.

Inductive fault := NullDeref | UseAfterFree | OutOfBounds | BadList.

Inductive outcome (A : Type) :=
| Done (a : A)
| Fault (f : fault)
| NoFuel.
Arguments Done {A} a.
Arguments Fault {A} f.
Arguments NoFuel {A}.

(** The world: the component's state, the number of platform calls made so
    far and the calls themselves with their answers, newest first. *)
Record world (C X : Type) := World {
  w_st : X;
  w_clock : nat;
  w_trace : list (C * Z);
}.
Arguments World {C X} w_st w_clock w_trace.
Arguments w_st {C X} w.
Arguments w_clock {C X} w.
Arguments w_trace {C X} w.

Section monad.
Context {C X : Type}.

Definition M (A : Type) : Type := world C X → outcome (A * world C X).

Definition ret {A} (a : A) : M A := λ w, Done (a, w).
Definition bind {A B} (m : M A) (k : A → M B) : M B := λ w,
  match m w with
  | Done (a, w') => k a w'
  | Fault f => Fault f
  | NoFuel => NoFuel
  end.
Definition crash {A} (f : fault) : M A := λ _, Fault f.
Definition starve {A} : M A := λ _, NoFuel.
Definition gets {A} (f : X → A) : M A := λ w, Done (f (w_st w), w).
Definition modify (f : X → X) : M unit := λ w,
  Done (tt, World (f (w_st w)) (w_clock w) (w_trace w)).
Definition perform `{!Platform C} (c : C) : M Z := λ w,
  let r := answer (w_clock w) c in
  Done (r, World (w_st w) (S (w_clock w)) ((c, r) :: w_trace w)).
(** Number of platform calls made so far. *)
Definition now : M nat := λ w, Done (w_clock w, w).

(** A pointer read through [o]: [None] is a null or dangling pointer. *)
Definition deref {A} (f : fault) (o : option A) : M A :=
  match o with Some a => ret a | None => crash f end.

Definition when (b : bool) (m : M unit) : M unit := if b then m else ret tt.

(** A loop over a range fixed before it starts. *)
Fixpoint for_each {A} (l : list A) (body : A → M unit) : M unit :=
  match l with
  | [] => ret tt
  | a :: l => bind (body a) (λ _, for_each l body)
  end.

(** Total correctness: [c] terminates without undefined behaviour, and [Q]
    holds of its result. *)
Definition wp {A} (c : M A) (Q : A → world C X → Prop) (w : world C X) : Prop :=
  match c w with
  | Done (a, w') => Q a w'
  | _ => False
  end.
End monad.
Arguments M C X A : clear implicits.
#[global] Arguments wp : simpl never.

Notation "'let!' x := m 'in' k" := (bind m (λ x, k))
  (at level 10, x binder, m at level 100, k at level 200) : genavb_scope.
Notation "m ;; k" := (bind m (λ _, k))
  (at level 100, k at level 200, right associativity) : genavb_scope.

Section wp_rules.
Context {C X : Type}.
Implicit Types (w : world C X).

Lemma wp_ret {A} (a : A) Q w : wp (ret a) Q w ↔ Q a w.
Proof. done. Qed.
Lemma wp_bind {A B} (m : M C X A) (k : A → M C X B) Q w :
  wp (bind m k) Q w ↔ wp m (λ a w', wp (k a) Q w') w.
Proof. unfold wp, bind. by destruct (m w) as [[]| |]. Qed.
Lemma wp_bind_assoc {A B D} (m : M C X A) (k1 : A → M C X B) (k2 : B → M C X D) Q w :
  wp (bind (bind m k1) k2) Q w → wp (bind m (λ x, bind (k1 x) k2)) Q w.
Proof. unfold wp, bind. by destruct (m w) as [[]| |]. Qed.
Lemma wp_gets {A} (f : X → A) Q w : wp (gets f) Q w ↔ Q (f (w_st w)) w.
Proof. done. Qed.
Lemma wp_modify (f : X → X) Q w :
  wp (modify f) Q w ↔ Q tt (World (f (w_st w)) (w_clock w) (w_trace w)).
Proof. done. Qed.
Lemma wp_perform `{!Platform C} c Q w :
  wp (perform c) Q w ↔
  Q (answer (w_clock w) c)
    (World (w_st w) (S (w_clock w)) ((c, answer (w_clock w) c) :: w_trace w)).
Proof. done. Qed.
Lemma wp_now Q w : wp now Q w ↔ Q (w_clock w) w.
Proof. done. Qed.
Lemma wp_deref {A} f (o : option A) Q w :
  wp (deref f o) Q w ↔ ∃ a, o = Some a ∧ Q a w.
Proof. destruct o; cbn; [|by split; [done|intros (?&?&?)]]. split; [by eauto|]. by intros (?&[= <-]&?). Qed.
Lemma wp_when b m Q w :
  wp (when b m) Q w ↔ if b then wp m Q w else Q tt w.
Proof. by destruct b. Qed.

Lemma wp_mono {A} (m : M C X A) (P Q : A → world C X → Prop) w :
  wp m P w → (∀ a w', P a w' → Q a w') → wp m Q w.
Proof. unfold wp. destruct (m w) as [[]| |]; eauto. Qed.
Lemma wp_and {A} (m : M C X A) (P Q : A → world C X → Prop) w :
  wp m P w → wp m Q w → wp m (λ a w', P a w' ∧ Q a w') w.
Proof. unfold wp. destruct (m w) as [[]| |]; eauto. Qed.
Lemma wp_done {A} (m : M C X A) (Q : A → world C X → Prop) w :
  wp m Q w ↔ ∃ a w', m w = Done (a, w') ∧ Q a w'.
Proof.
  unfold wp. destruct (m w) as [[a w']| |]; split; try done.
  - by eauto.
  - by intros (?&?&[= <- <-]&?).
  - by intros (?&?&?&?).
  - by intros (?&?&?&?).
Qed.

(** A computation has one result, so a family of specifications holds of it at
    once. *)
Lemma wp_forall {A Z} (P : Z → Prop) (m : M C X A) (Q : Z → A → world C X → Prop) w :
  (∃ z, P z) → (∀ z, P z → wp m (Q z) w) → wp m (λ a w', ∀ z, P z → Q z a w') w.
Proof.
  intros [z0 H0] H. pose proof (H z0 H0) as Hz. unfold wp in *.
  destruct (m w) as [[a w']| |]; [|done..]. intros z Hz1. by apply H.
Qed.

Lemma wp_result {A} (m : M C X A) (Q : A → world C X → Prop) w a w' :
  wp m Q w → m w = Done (a, w') → Q a w'.
Proof. unfold wp. intros H E. by rewrite E in H. Qed.

(** Loop rule: an invariant indexed by what is left to visit. *)
Lemma wp_for_each {A} (I : list A → world C X → Prop) (body : A → M C X unit) l w :
  I l w →
  (∀ a l' w', I (a :: l') w' → wp (body a) (λ _, I l') w') →
  wp (for_each l body) (λ _, I []) w.
Proof.
  intros HI Hbody. revert w HI. induction l as [|a l IH]; intros w HI; [done|].
  cbn [for_each]. apply wp_bind. eapply wp_mono; [by apply Hbody|]. naive_solver.
Qed.

Lemma for_each_app {A} (l k : list A) (body : A → M C X unit) w :
  for_each (l ++ k) body w = bind (for_each l body) (λ _, for_each k body) w.
Proof.
  revert w. induction l as [|a l IH]; intros w; [done|].
  unfold bind in *. cbn. unfold bind. destruct (body a w) as [[]| |]; [|done..]. apply IH.
Qed.

Lemma bind_Done {A B} (m : M C X A) (k : A → M C X B) w a w' :
  m w = Done (a, w') → bind m k w = k a w'.
Proof. unfold bind. by intros ->. Qed.
End wp_rules.

Create Rewrite HintDb wp_rw.
#[export] Hint Rewrite @wp_ret @wp_bind @wp_gets @wp_modify @wp_perform @wp_now @wp_deref : wp_rw.

(** Symbolic execution of a computation: push [wp] through the primitives. *)
Ltac wp_step :=
  repeat first
    [ progress autorewrite with wp_rw
    | progress cbn [w_st w_clock w_trace]
    | progress cbv beta match ].
Ltac wp_apply lem := eapply wp_mono; [eapply lem|].

(** ** Intrusive lists

    A [struct list_head] list is the list of the addresses of its entries, in
    order; [ListHead.v] proves that the pointer operations of
    common/list.h implement the operations used here. *)

(** [list_next(entry)]: [None] when [entry] is not linked in the list (its
    pointers are NULL), [Some None] when it is the last one (its successor is
    the head), [Some (Some e)] otherwise. *)
Fixpoint list_next (x : nat) (l : list nat) : option (option nat) :=
  match l with
  | [] => None
  | y :: l' => if decide (x = y) then Some (head l') else list_next x l'
  end.

Definition list_remove (x : nat) (l : list nat) : list nat := filter (λ y, y ≠ x) l.

Lemma elem_of_list_remove x y l : y ∈ list_remove x l ↔ y ≠ x ∧ y ∈ l.
Proof. unfold list_remove. by rewrite list_elem_of_filter. Qed.
Lemma NoDup_list_remove x l : NoDup l → NoDup (list_remove x l).
Proof. apply list.NoDup_filter. Qed.
Lemma list_remove_notin x l : x ∉ l → list_remove x l = l.
Proof.
  intros Hx. induction l as [|y l IH]; [done|].
  unfold list_remove in *. rewrite filter_cons. case_decide as D.
  - f_equal. apply IH. set_solver.
  - set_solver.
Qed.
Lemma list_remove_mid x l k : x ∉ l → x ∉ k → list_remove x (l ++ x :: k) = l ++ k.
Proof.
  intros. unfold list_remove. rewrite list.filter_app, filter_cons_False by naive_solver.
  f_equal; by apply list_remove_notin.
Qed.
Lemma length_list_remove x l : NoDup l → x ∈ l → S (length (list_remove x l)) = length l.
Proof.
  intros Hnd [l1 [l2 ->]]%list_elem_of_split.
  rewrite list_remove_mid; [rewrite !length_app; simpl; lia|..].
  all: apply list.NoDup_app in Hnd as (?&?&[??]%list.NoDup_cons); set_solver.
Qed.
Lemma list_next_Some x l : x ∈ l ↔ is_Some (list_next x l).
Proof.
  induction l as [|y l IH]; simpl; [split; [set_solver|by intros []]|].
  case_decide; set_solver.
Qed.
Lemma list_next_mid x l k : x ∉ l → list_next x (l ++ x :: k) = Some (head k).
Proof. induction l as [|y l IH]; simpl; intros; case_decide; set_solver. Qed.

#[export] Hint Resolve NoDup_list_remove : genavb.
#[export] Hint Rewrite elem_of_list_remove : genavb_rw.

(** ** Counting *)

Lemma alter_as_insert {A} (f : A → A) (k : nat) (m : gmap nat A) a :
  m !! k = Some a → alter f k m = <[k := f a]> m.
Proof.
  intros H. apply map_eq. intros j. destruct (decide (j = k)) as [->|].
  - by rewrite lookup_alter_eq, lookup_insert_eq, H.
  - by rewrite lookup_alter_ne, lookup_insert_ne.
Qed.

Section counting.
Context {A : Type} (P : A → bool).

(** Number of bindings of a map whose value satisfies [P]. *)
Definition map_count (m : gmap nat A) : nat := size (filter (λ kv, P kv.2 = true) m).

Lemma map_count_insert_new m k a :
  m !! k = None → map_count (<[k := a]> m) = (Nat.b2n (P a) + map_count m)%nat.
Proof.
  intros Hk. unfold map_count. destruct (P a) eqn:E.
  - rewrite map_filter_insert_True by done. rewrite map_size_insert_None; [done|].
    apply map_lookup_filter_None. by left.
  - rewrite map_filter_insert_False by (simpl; congruence).
    by rewrite delete_id.
Qed.

Lemma map_count_update m k a b :
  m !! k = Some a →
  (Nat.b2n (P a) + map_count (<[k := b]> m) = Nat.b2n (P b) + map_count m)%nat.
Proof.
  intros Hk. rewrite <- (insert_delete_id m k a) at 2 by done.
  rewrite <- insert_delete_eq.
  rewrite !map_count_insert_new by apply lookup_delete_eq. lia.
Qed.

Lemma map_count_pos m k a : m !! k = Some a → P a = true → (0 < map_count m)%nat.
Proof.
  intros Hk Ha. pose proof (map_count_update m k a a Hk) as H.
  rewrite <- (insert_delete_id m k a) by done.
  rewrite map_count_insert_new by apply lookup_delete_eq. rewrite Ha. simpl. lia.
Qed.

Lemma map_count_le m : (map_count m ≤ size m)%nat.
Proof. apply map_subseteq_size, map_filter_subseteq. Qed.

(** Number of elements of a list that satisfy [P]. *)
Fixpoint list_count (l : list A) : nat :=
  match l with [] => 0 | a :: l => Nat.b2n (P a) + list_count l end.

Lemma list_count_alter (f : A → A) i l a :
  l !! i = Some a →
  (Nat.b2n (P a) + list_count (alter f i l) = Nat.b2n (P (f a)) + list_count l)%nat.
Proof.
  revert i. induction l as [|b l IH]; intros [|i] H; try done; simpl in *.
  - injection H as ->. lia.
  - specialize (IH _ H). unfold alter in *. lia.
Qed.
Lemma list_count_le l : (list_count l ≤ length l)%nat.
Proof. induction l as [|a l IH]; simpl; [lia|]. destruct (P a); simpl; lia. Qed.
Lemma list_count_full l : (∀ a, a ∈ l → P a = true) → list_count l = length l.
Proof.
  induction l as [|a l IH]; simpl; intros H; [done|].
  rewrite (H a) by set_solver. simpl. rewrite IH; [done|]. set_solver.
Qed.
End counting.
#[global] Arguments list_remove : simpl never.

Lemma list_count_pos {A} (P : A → bool) l i a :
  l !! i = Some a → P a = true → (0 < list_count P l)%nat.
Proof.
  revert i. induction l as [|b l IH]; intros [|i] H HP; try done; simpl in *.
  - injection H as ->. rewrite HP. simpl. lia.
  - specialize (IH _ H HP). lia.
Qed.
Lemma list_count_lt {A} (P : A → bool) l :
  (list_count P l < length l)%nat → ∃ a, a ∈ l ∧ P a = false.
Proof.
  induction l as [|a l IH]; simpl; [lia|]. destruct (P a) eqn:E; intros H.
  - destruct IH as (b&?&?); [simpl in H; lia|]. exists b. split; [by right|done].
  - exists a. split; [by left|done].
Qed.

Lemma list_filter_ext_in {A} (P Q : A → Prop)
    `{!∀ x, Decision (P x), !∀ x, Decision (Q x)} (l : list A) :
  (∀ x, x ∈ l → P x ↔ Q x) → filter P l = filter Q l.
Proof.
  induction l as [|x l IH]; intros Hext; [done|]. rewrite !filter_cons.
  assert (Hx : P x ↔ Q x) by (apply Hext; by left).
  rewrite IH by (intros; apply Hext; by right). repeat case_decide; tauto.
Qed.

(** ** Lists updated by index *)

Lemma alter_none {A} (f : A → A) i (l : list A) : l !! i = None → alter f i l = l.
Proof. intros H. apply list_eq. intros j. rewrite list_lookup_alter. case_decide as D; [subst j; by rewrite H|done]. Qed.

(** ** Traversals

    [for (entry = list_first(head); next = list_next(entry), entry != head;
    entry = next)]: the successor is read before the body runs, so the body may
    unlink the current entry; when it unlinks or frees the next one, the
    traversal reads a dangling pointer. *)

Section traversal.
Context {C X : Type}.
Implicit Types (w : world C X).

Fixpoint for_list (get : X → list nat) (fuel : nat) (entry : option nat)
    (body : nat → M C X unit) : M C X unit :=
  match entry with
  | None => ret tt
  | Some e =>
      match fuel with
      | O => starve
      | S fuel =>
          let! l := gets get in
          let! n := deref UseAfterFree (list_next e l) in
          body e;;
          for_list get fuel n body
      end
  end.

Definition list_each (get : X → list nat) (body : nat → M C X unit) : M C X unit :=
  let! l := gets get in for_list get (length l) (list.head l) body.

(** The body leaves the entries that are still to visit in place. *)
Lemma wp_for_list (get : X → list nat) (I : list nat → world C X → Prop) body fuel pre l w :
  (∀ pre e l w, NoDup (pre ++ e :: l) → get (w_st w) = pre ++ e :: l → I (e :: l) w →
     wp (body e) (λ _ w', (∃ pre', get (w_st w') = pre' ++ l ∧ NoDup (pre' ++ l)) ∧ I l w') w) →
  NoDup (pre ++ l) → get (w_st w) = pre ++ l → (length l ≤ fuel)%nat → I l w →
  wp (for_list get fuel (list.head l) body) (λ _ w', I [] w') w.
Proof.
  intros Hbody. revert pre l w. induction fuel as [|fuel IH]; intros pre l w Hnd Hg Hf HI.
  - destruct l; [by wp_step|cbn in Hf; lia].
  - destruct l as [|e l]; cbn [list.head for_list]; [by wp_step|].
    wp_step. rewrite Hg.
    exists (list.head l). split.
    { apply list_next_mid. apply list.NoDup_app in Hnd as (_&Hd&_). intros He. apply (Hd e He). by left. }
    apply wp_bind. eapply wp_mono; [by eapply Hbody|]. intros [] w' ((pre' & Hg' & Hnd') & HI').
    eapply IH; [exact Hnd'|done|cbn in Hf; lia|done].
Qed.

Lemma wp_list_each (get : X → list nat) (I : list nat → world C X → Prop) body w :
  (∀ pre e l w, NoDup (pre ++ e :: l) → get (w_st w) = pre ++ e :: l → I (e :: l) w →
     wp (body e) (λ _ w', (∃ pre', get (w_st w') = pre' ++ l ∧ NoDup (pre' ++ l)) ∧ I l w') w) →
  NoDup (get (w_st w)) → I (get (w_st w)) w →
  wp (list_each get body) (λ _ w', I [] w') w.
Proof.
  intros Hbody Hnd HI. unfold list_each. wp_step.
  by apply (wp_for_list get I body _ [] (get (w_st w))).
Qed.
End traversal.

(** A search: [for (...) if (test) return entry; return NULL]. *)
Section search.
Context {C X A : Type}.

Fixpoint list_search (l : list A) (test : A → M C X bool) : M C X (option A) :=
  match l with
  | [] => ret None
  | a :: l => let! b := test a in if b : bool then ret (Some a) else list_search l test
  end.

Lemma list_search_find (f : A → bool) (test : A → M C X bool) l w :
  (∀ a, a ∈ l → test a w = Done (f a, w)) → list_search l test w = Done (find f l, w).
Proof.
  induction l as [|a l IH]; intros H; [done|]. cbn. unfold bind. rewrite H by (by left).
  destruct (f a); [done|]. apply IH. intros b Hb. apply H. by right.
Qed.

Lemma wp_list_search (f : A → bool) (test : A → M C X bool) l (Q : option A → world C X → Prop) w :
  (∀ a, a ∈ l → test a w = Done (f a, w)) → Q (find f l) w → wp (list_search l test) Q w.
Proof. intros H HQ. unfold wp. by rewrite (list_search_find f). Qed.
End search.

(** ** Part of the state

    A computation on a component of the state ([zoom get set m]) cannot touch
    the rest of it and makes no platform call. *)

Section zoom.
Context {C X Y : Type} (get : X → Y) (set : Y → X → X).

Definition zoom {A} (m : M Empty_set Y A) : M C X A := λ w,
  match m (World (get (w_st w)) 0 []) with
  | Done (a, w') => Done (a, World (set (w_st w') (w_st w)) (w_clock w) (w_trace w))
  | Fault f => Fault f
  | NoFuel => NoFuel
  end.

Lemma wp_zoom {A} (m : M Empty_set Y A) (Q : A → world C X → Prop) w :
  wp m (λ a w', Q a (World (set (w_st w') (w_st w)) (w_clock w) (w_trace w)))
    (World (get (w_st w)) 0 []) → wp (zoom m) Q w.
Proof. unfold wp, zoom. by destruct (m _) as [[]| |]. Qed.
End zoom.
