(* ===== verification/ListHead.v ===== *)
(** * Doubly linked intrusive lists (common/list.h)

    The pointer-level operations on [struct list_head], on a heap that maps an
    address to its [prev] and [next] pointers, and their refinement of plain
    lists of addresses: the other components use the list view, this file shows
    that the pointers implement it. *)

From S2P Require Import Prelude.

(** ** Data and operations *)

Record list_head := ListHead { prev : option nat; next : option nat }.
#[export] Instance eta_list_head : Eta list_head := λ r, ListHead (prev r) (next r).

Abbreviation heap := (gmap nat list_head).

(** Memory accesses: [None] is an access through a null or wild pointer. *)
Definition load_next (h : heap) (a : nat) : option (option nat) := next <$> h !! a.
Definition load_prev (h : heap) (a : nat) : option (option nat) := prev <$> h !! a.
Definition store_next (a : nat) (v : option nat) (h : heap) : option heap :=
  n ← h !! a; Some (<[a := n <| next := v |>]> h).
Definition store_prev (a : nat) (v : option nat) (h : heap) : option heap :=
  n ← h !! a; Some (<[a := n <| prev := v |>]> h).

Definition list_head_init (head : nat) (h : heap) : option heap :=
  h ← store_prev head (Some head) h;
  store_next head (Some head) h.

Definition list_add (head entry : nat) (h : heap) : option heap :=
  n ← load_next h head;
  h ← store_next entry n h;
  n ← load_next h entry;
  n ← n;
  h ← store_prev n (Some entry) h;
  h ← store_next head (Some entry) h;
  store_prev entry (Some head) h.

Definition list_add_tail (head entry : nat) (h : heap) : option heap :=
  p ← load_prev h head;
  h ← store_prev entry p h;
  p ← load_prev h entry;
  p ← p;
  h ← store_next p (Some entry) h;
  h ← store_prev head (Some entry) h;
  store_next entry (Some head) h.

Definition list_del (entry : nat) (h : heap) : option heap :=
  p ← load_prev h entry;
  n ← load_next h entry;
  p ← p;
  h ← store_next p n h;
  n ← load_next h entry;
  n ← n;
  p ← load_prev h entry;
  h ← store_prev n p h;
  h ← store_prev entry None h;
  store_next entry None h.

Definition list_empty (head : nat) (h : heap) : option bool :=
  n ← load_next h head; Some (bool_decide (n = Some head)).
Definition list_first (head : nat) (h : heap) : option (option nat) := load_next h head.
Definition list_last (head : nat) (h : heap) : option (option nat) := load_prev h head.

(** ** Representation predicate *)

Definition nxt (h : heap) (a : nat) : option nat := h !! a ≫= next.
Definition prv (h : heap) (a : nat) : option nat := h !! a ≫= prev.

(** [seg h a l b]: following [next] from [a] visits [l] and reaches [b], and
    [prev] goes back the same way. *)
Fixpoint seg (h : heap) (a : nat) (l : list nat) (b : nat) : Prop :=
  match l with
  | [] => nxt h a = Some b ∧ prv h b = Some a
  | c :: l' => nxt h a = Some c ∧ prv h c = Some a ∧ seg h c l' b
  end.

(** The circular list with head [hd] holds the entries [l]. *)
Definition dlist (h : heap) (hd : nat) (l : list nat) : Prop :=
  NoDup (hd :: l) ∧ seg h hd l hd.

(** ** Lemmas *)

Lemma seg_app h a l1 c l2 b : seg h a (l1 ++ c :: l2) b ↔ seg h a l1 c ∧ seg h c l2 b.
Proof. revert a. induction l1 as [|d l1 IH]; intros a; simpl; [tauto|]. rewrite IH. tauto. Qed.

Lemma seg_frame h h' a l b :
  (∀ z, z ∈ a :: l → nxt h' z = nxt h z) →
  (∀ z, z ∈ l ++ [b] → prv h' z = prv h z) →
  seg h a l b → seg h' a l b.
Proof.
  revert a. induction l as [|c l IH]; simpl; intros a Hn Hp.
  - intros [??]. rewrite Hn, Hp by set_solver. done.
  - intros (?&?&?). rewrite Hn, Hp by set_solver. split_and!; [done..|].
    apply IH; set_solver.
Qed.

Lemma store_next_spec a v h n :
  h !! a = Some n →
  ∃ h', store_next a v h = Some h' ∧
    (∀ z, nxt h' z = if decide (z = a) then v else nxt h z) ∧
    (∀ z, prv h' z = prv h z) ∧ dom h' = dom h.
Proof.
  intros Ha. unfold store_next. rewrite Ha. simpl. eexists; split; [done|]. split_and!.
  - intros z. unfold nxt. case_decide as D; [by subst; simplify_map_eq|].
    by rewrite lookup_insert_ne by done.
  - intros z. unfold prv. destruct (decide (z = a)) as [->|]; [by simplify_map_eq|].
    by rewrite lookup_insert_ne by done.
  - apply dom_insert_lookup_L. eauto.
Qed.

Lemma store_prev_spec a v h n :
  h !! a = Some n →
  ∃ h', store_prev a v h = Some h' ∧
    (∀ z, prv h' z = if decide (z = a) then v else prv h z) ∧
    (∀ z, nxt h' z = nxt h z) ∧ dom h' = dom h.
Proof.
  intros Ha. unfold store_prev. rewrite Ha. simpl. eexists; split; [done|]. split_and!.
  - intros z. unfold prv. case_decide as D; [by subst; simplify_map_eq|].
    by rewrite lookup_insert_ne by done.
  - intros z. unfold nxt. destruct (decide (z = a)) as [->|]; [by simplify_map_eq|].
    by rewrite lookup_insert_ne by done.
  - apply dom_insert_lookup_L. eauto.
Qed.

Lemma nxt_alloc h a b : nxt h a = Some b → a ∈ dom h.
Proof. unfold nxt. intros H. apply elem_of_dom. destruct (h !! a); [eauto|done]. Qed.
Lemma prv_alloc h a b : prv h a = Some b → a ∈ dom h.
Proof. unfold prv. intros H. apply elem_of_dom. destruct (h !! a); [eauto|done]. Qed.
Lemma load_next_nxt h a : a ∈ dom h → load_next h a = Some (nxt h a).
Proof. intros [n Hn]%elem_of_dom. unfold load_next, nxt. by rewrite Hn. Qed.
Lemma load_prev_prv h a : a ∈ dom h → load_prev h a = Some (prv h a).
Proof. intros [n Hn]%elem_of_dom. unfold load_prev, prv. by rewrite Hn. Qed.

#[local] Hint Resolve nxt_alloc prv_alloc : core.

(** Symbolic execution of the stores: after [store_exec], the heap written is
    a variable with its [nxt] and [prv] described by hypotheses. *)
Ltac store_one spec a v h :=
  let n := fresh "n" in let Hn := fresh "Hn" in
  let h' := fresh "h" in let Hs := fresh "Hs" in
  let Hnx := fresh "Hnx" in let Hpv := fresh "Hpv" in let Hd := fresh "Hd" in
  assert (is_Some (h !! a)) as [n Hn]
    by (apply elem_of_dom; repeat match goal with H : dom _ = _ |- _ => rewrite H end; eauto; set_solver);
  destruct (spec a v h n Hn) as (h' & Hs & Hnx & Hpv & Hd);
  rewrite Hs; clear Hs Hn; cbn [mbind option_bind].
Ltac store_exec :=
  repeat match goal with
  | |- context [store_next ?a ?v ?h] => store_one store_next_spec a v h
  | |- context [store_prev ?a ?v ?h] => store_one store_prev_spec a v h
  end.

(** Cells outside [D] keep their pointers. *)
Definition untouched (h h' : heap) (D : list nat) : Prop :=
  dom h' = dom h ∧ ∀ z, z ∉ D → nxt h' z = nxt h z ∧ prv h' z = prv h z.

Lemma seg_ends h a l b :
  seg h a l b → nxt h a = Some (default b (head l)) ∧ prv h b = Some (default a (list.last l)).
Proof.
  revert a. induction l as [|c l IH]; intros a; simpl; [done|].
  intros (?&?&Hs). destruct (IH _ Hs) as [??]. split; [done|].
  rewrite last_cons. by destruct (list.last l).
Qed.

(** Membership goals, without the hypotheses that describe the heaps. *)
Ltac members :=
  repeat match goal with
  | H : ∀ z, nxt _ z = _ |- _ => clear H
  | H : ∀ z, prv _ z = _ |- _ => clear H
  | H : seg _ _ _ _ |- _ => clear H
  | H : nxt _ _ = _ |- _ => clear H
  | H : prv _ _ = _ |- _ => clear H
  | H : dom _ = _ |- _ => clear H
  | H : _ ∈ dom _ |- _ => clear H
  end; set_solver.
Ltac in_dom :=
  repeat match goal with H : dom _ = _ |- _ => rewrite H end; eauto; set_solver.
Ltac pointers :=
  repeat match goal with
  | H : ∀ z, nxt ?h z = _ |- context [nxt ?h _] => rewrite H
  | H : ∀ z, prv ?h z = _ |- context [prv ?h _] => rewrite H
  end;
  repeat case_decide; congruence.

Lemma list_head_init_spec h hd :
  hd ∈ dom h → ∃ h', list_head_init hd h = Some h' ∧ dlist h' hd [] ∧ untouched h h' [hd].
Proof.
  intros Hd. unfold list_head_init. store_exec.
  eexists; split; [done|]. unfold dlist, untouched. simpl. split_and!.
  - apply list.NoDup_singleton.
  - pointers.
  - pointers.
  - congruence.
  - intros z Hz. assert (z ≠ hd) by members. split; pointers.
Qed.

(** Inserting at the front: the entries become [entry :: l]. *)
Lemma list_add_spec h hd entry l :
  dlist h hd l → entry ∉ hd :: l → entry ∈ dom h →
  ∃ h', list_add hd entry h = Some h' ∧ dlist h' hd (entry :: l) ∧
        untouched h h' (hd :: entry :: l).
Proof.
  intros [Hnd Hseg] He Hdom. destruct (seg_ends _ _ _ _ Hseg) as [Hn Hp].
  unfold list_add. rewrite (load_next_nxt h hd), Hn by eauto.
  cbn [mbind option_bind]. store_exec.
  rewrite (load_next_nxt h0 entry), Hnx, decide_True by (done || in_dom).
  cbn [mbind option_bind].
  assert (default hd (list.head l) ∈ dom h).
  { destruct l as [|c l]; simpl; [by eauto|]. destruct Hseg as (?&?&?). eauto. }
  store_exec. eexists; split; [done|].
  assert (hd ≠ entry) by members.
  split; [split|split].
  - apply list.NoDup_cons in Hnd as [??]. rewrite !list.NoDup_cons, ?list.NoDup_nil. members.
  - cbn [seg]. split_and!; [pointers..|].
    destruct l as [|c l]; cbn [seg list.head default] in *.
    + split; pointers.
    + destruct Hseg as (?&?&Hseg). assert (c ≠ entry) by members.
      split_and!; [pointers..|]. eapply seg_frame; [..|exact Hseg].
      * intros z Hz. assert (z ≠ hd ∧ z ≠ entry) as [??]; [|by pointers].
        apply list.NoDup_cons in Hnd. members.
      * intros z Hz. assert (z ≠ c ∧ z ≠ entry) as [??]; [|by pointers].
        apply list.NoDup_cons in Hnd as [? ?%list.NoDup_cons]. members.
  - congruence.
  - intros z Hz. assert (z ≠ hd ∧ z ≠ entry ∧ z ≠ default hd (list.head l)) as (?&?&?).
    { destruct l; members. }
    split; pointers.
Qed.

(** Inserting at the tail: the entries become [l ++ [entry]]. *)
Lemma list_add_tail_spec h hd entry l :
  dlist h hd l → entry ∉ hd :: l → entry ∈ dom h →
  ∃ h', list_add_tail hd entry h = Some h' ∧ dlist h' hd (l ++ [entry]) ∧
        untouched h h' (hd :: entry :: l).
Proof.
  intros [Hnd Hseg] He Hdom. destruct (seg_ends _ _ _ _ Hseg) as [Hn Hp].
  unfold list_add_tail. rewrite (load_prev_prv h hd), Hp by eauto.
  cbn [mbind option_bind]. store_exec.
  rewrite (load_prev_prv h0 entry), Hnx, decide_True by (done || in_dom).
  cbn [mbind option_bind].
  assert (hd ≠ entry) by members.
  destruct l as [|c l _] using rev_ind.
  - cbn [list.last default] in *. store_exec. eexists; split; [done|]. split; [split|split].
    + cbn [app]. rewrite !list.NoDup_cons, ?list.NoDup_nil. members.
    + cbn [seg app]. split_and!; pointers.
    + congruence.
    + intros z Hz. assert (z ≠ hd ∧ z ≠ entry) as [??] by members. split; pointers.
  - rewrite last_snoc in *. cbn [default] in *. apply seg_app in Hseg as [Hseg [??]].
    assert (c ∈ dom h) by eauto. assert (c ≠ entry) by members.
    store_exec. eexists; split; [done|].
    change (hd :: l ++ [c]) with ((hd :: l) ++ [c]) in Hnd.
    apply list.NoDup_app in Hnd as (Hnd&Hc&_). split; [split|split].
    + rewrite <- app_assoc. cbn [app].
      change (hd :: l ++ [c; entry]) with ((hd :: l) ++ [c; entry]).
      apply list.NoDup_app. split_and!; [done|members|].
      rewrite !list.NoDup_cons, ?list.NoDup_nil. members.
    + rewrite <- app_assoc. cbn [app]. apply seg_app.
      cbn [seg]. split_and!; [|pointers..].
      assert (c ≠ hd) by members.
      eapply seg_frame; [..|exact Hseg].
      * intros z Hz. assert (z ≠ c ∧ z ≠ entry) as [??] by members. pointers.
      * intros z Hz. assert (z ≠ hd ∧ z ≠ entry) as [??]; [|by pointers].
        apply list.NoDup_cons in Hnd. members.
    + congruence.
    + intros z Hz. assert (z ≠ hd ∧ z ≠ entry ∧ z ≠ c) as (?&?&?) by members.
      split; pointers.
Qed.

(** Bypassing [e] between [l1] and [l2]: only the link from the predecessor of
    [e] to its successor changes. *)
Lemma seg_unlink h h' a l1 e l2 b :
  NoDup (a :: l1 ++ l2) → b ∉ l1 ++ l2 →
  seg h a l1 e → seg h e l2 b →
  let p := default a (list.last l1) in let n := default b (list.head l2) in
  nxt h' p = Some n → prv h' n = Some p →
  (∀ z, z ∈ a :: l1 ++ l2 → z ≠ p → nxt h' z = nxt h z) →
  (∀ z, z ∈ l1 ++ l2 ++ [b] → z ≠ n → prv h' z = prv h z) →
  seg h' a (l1 ++ l2) b.
Proof.
  revert a. induction l1 as [|d l1 IH]; intros a Hnd Hb Hs1 Hs2; cbn; intros Hp Hn Hnx Hpv.
  - destruct l2 as [|c l2]; cbn in *; [done|]. destruct Hs2 as (_&_&Hs2).
    split_and!; [done..|].
    apply list.NoDup_cons in Hnd as [? [??]%list.NoDup_cons].
    eapply seg_frame; [..|exact Hs2]; intros z Hz; [apply Hnx|apply Hpv]; members.
  - destruct Hs1 as (?&?&Hs1). rewrite last_cons in *.
    replace (default a (match list.last l1 with Some y => Some y | None => Some d end))
      with (default d (list.last l1)) in * by (by destruct (list.last l1)).
    cbn in Hnd. apply list.NoDup_cons in Hnd as [Ha Hnd].
    assert (default d (list.last l1) ∈ d :: l1) as Hin.
    { destruct l1 as [|? ? _] using rev_ind; [members|]. rewrite last_snoc. members. }
    assert (default b (list.head l2) ∈ l2 ++ [b]) as Hin2 by (destruct l2; members).
    assert (d ≠ default b (list.head l2)).
    { apply list.NoDup_cons in Hnd. members. }
    rewrite Hnx, Hpv by members. split_and!; [done..|].
    apply IH; [done|members|done|done|done|done|..]; intros z Hz Hz'.
    + apply Hnx; members.
    + apply Hpv; members.
Qed.

(** Removing an entry: it is unlinked, with null pointers, and the others keep
    their order. *)
Lemma list_del_spec h hd entry l :
  dlist h hd l → entry ∈ l →
  ∃ h', list_del entry h = Some h' ∧ dlist h' hd (list_remove entry l) ∧
        nxt h' entry = None ∧ prv h' entry = None ∧ untouched h h' (hd :: l).
Proof.
  intros [Hnd Hseg] [l1 [l2 ->]]%list_elem_of_split.
  change (hd :: l1 ++ entry :: l2) with ((hd :: l1) ++ entry :: l2) in Hnd.
  apply list.NoDup_app in Hnd as (Hnd1&Hdis&[He2 Hnd2]%list.NoDup_cons).
  assert (He1 : entry ∉ hd :: l1) by members.
  apply seg_app in Hseg as [Hs1 Hs2].
  destruct (seg_ends _ _ _ _ Hs1) as [Hn1 Hp1], (seg_ends _ _ _ _ Hs2) as [Hn2 Hp2].
  rewrite list_remove_mid by members.
  assert (HP : default hd (list.last l1) ∈ hd :: l1).
  { destruct l1 as [|? ? _] using rev_ind; [members|]. rewrite last_snoc. members. }
  assert (HN : default hd (list.head l2) ∈ l2 ++ [hd]) by (destruct l2; members).
  assert (Hnd : NoDup (hd :: l1 ++ l2)).
  { change (NoDup ((hd :: l1) ++ l2)). apply list.NoDup_app. members. }
  pose proof (λ h' Hb, seg_unlink h h' hd l1 entry l2 hd Hnd Hb Hs1 Hs2) as Hunlink.
  cbv zeta in Hunlink.
  set (p := default hd (list.last l1)) in *. set (n := default hd (list.head l2)) in *.
  assert (Hpd' : p ∈ dom h).
  { destruct l1 as [|c l1 _] using rev_ind; subst p; [by eauto|].
    rewrite last_snoc. cbn. apply seg_app in Hs1 as [? [??]]. eauto. }
  assert (n ∈ dom h).
  { destruct l2 as [|c l2]; subst n; cbn; [by eauto|]. destruct Hs2 as (?&?&?). eauto. }
  assert (entry ∈ dom h) by eauto.
  assert (entry ≠ p ∧ entry ≠ n) as [??] by members.
  unfold list_del.
  rewrite (load_prev_prv h entry), (load_next_nxt h entry), Hp1, Hn2 by done.
  cbn [mbind option_bind]. store_exec.
  rewrite (load_next_nxt h0 entry), Hnx, decide_False, Hn2 by (done || in_dom).
  cbn [mbind option_bind].
  rewrite (load_prev_prv h0 entry), Hpv, Hp1 by in_dom.
  cbn [mbind option_bind]. store_exec. eexists; split; [done|].
  split; [split; [done|]|split_and!; [pointers|pointers|split; [congruence|]]].
  - apply Hunlink; [apply list.NoDup_cons in Hnd; tauto|pointers|pointers|..]; intros z Hz ?;
      assert (z ≠ entry) by members; pointers.
  - intros z Hz. assert (z ≠ entry ∧ z ≠ p ∧ z ≠ n) as (?&?&?) by members.
    split; pointers.
Qed.

(** ** Refinement *)

(** The list operations a client performs, on the pointers and on the list. *)
Inductive list_op := OpAdd (e : nat) | OpAddTail (e : nat) | OpDel (e : nat).

Definition run_op (hd : nat) (o : list_op) (h : heap) : option heap :=
  match o with
  | OpAdd e => list_add hd e h
  | OpAddTail e => list_add_tail hd e h
  | OpDel e => list_del e h
  end.

(** The abstract operation; [None] when the client breaks the contract: an
    entry is linked at most once, and only a linked entry is removed. *)
Definition spec_op (hd : nat) (o : list_op) (l : list nat) : option (list nat) :=
  match o with
  | OpAdd e => if decide (e ∈ hd :: l) then None else Some (e :: l)
  | OpAddTail e => if decide (e ∈ hd :: l) then None else Some (l ++ [e])
  | OpDel e => if decide (e ∈ l) then Some (list_remove e l) else None
  end.

Definition op_entry (o : list_op) : nat :=
  match o with OpAdd e | OpAddTail e | OpDel e => e end.

Fixpoint run_ops (hd : nat) (os : list list_op) (h : heap) : option heap :=
  match os with
  | [] => Some h
  | o :: os => h ← run_op hd o h; run_ops hd os h
  end.
Fixpoint spec_ops (hd : nat) (os : list list_op) (l : list nat) : option (list nat) :=
  match os with
  | [] => Some l
  | o :: os => l ← spec_op hd o l; spec_ops hd os l
  end.

(** [for (entry = list_first(head); entry != head; entry = list_next(entry))] *)
Fixpoint walk (fuel : nat) (h : heap) (hd entry : nat) : option (list nat) :=
  match fuel with
  | O => None
  | S fuel =>
      if decide (entry = hd) then Some []
      else n ← load_next h entry; n ← n; l ← walk fuel h hd n; Some (entry :: l)
  end.
Definition list_contents (fuel : nat) (h : heap) (hd : nat) : option (list nat) :=
  n ← list_first hd h; n ← n; walk fuel h hd n.

Lemma walk_seg h hd a l fuel :
  seg h a l hd → hd ∉ l → a ∈ dom h → (length l < fuel)%nat →
  (n ← load_next h a; n ← n; walk fuel h hd n) = Some l.
Proof.
  revert a fuel. induction l as [|c l IH]; intros a fuel Hs Hhd Ha Hf;
    rewrite load_next_nxt by done; cbn [seg] in Hs.
  - destruct Hs as [-> _]. destruct fuel as [|fuel]; [simpl in Hf; lia|].
    simpl. by rewrite decide_True.
  - destruct Hs as (->&?&Hs). destruct fuel as [|fuel]; [simpl in Hf; lia|].
    simpl. rewrite decide_False by set_solver.
    assert (c ∈ dom h) as Hc by (destruct l as [|d l]; simpl in Hs; naive_solver).
    assert (IHc : (n ← load_next h c; n ← n; walk fuel h hd n) = Some l).
    { apply IH; [done|set_solver|done|simpl in Hf; lia]. }
    destruct (load_next h c) as [[n|]|]; simpl in *; [|done..]. by rewrite IHc.
Qed.

Lemma list_contents_dlist h hd l fuel :
  dlist h hd l → (length l < fuel)%nat → list_contents fuel h hd = Some l.
Proof.
  intros [[??]%list.NoDup_cons Hs] Hf. apply (walk_seg h hd hd); [done..| |done].
  by destruct (seg_ends _ _ _ _ Hs) as [?%nxt_alloc _].
Qed.

Lemma run_op_refines h hd o l l' :
  dlist h hd l → op_entry o ∈ dom h → spec_op hd o l = Some l' →
  ∃ h', run_op hd o h = Some h' ∧ dlist h' hd l' ∧ dom h' = dom h.
Proof.
  intros Hl Hd Ho. destruct o as [e|e|e]; simpl in *; case_decide; simplify_eq.
  - destruct (list_add_spec h hd e l) as (h'&?&?&[]); eauto.
  - destruct (list_add_tail_spec h hd e l) as (h'&?&?&[]); eauto.
  - destruct (list_del_spec h hd e l) as (h'&?&?&?&?&[]); eauto.
Qed.

(** C37: the pointer operations of common/list.h refine operations on plain
    lists of entries.  Starting from [list_head_init], any sequence of
    [list_add], [list_add_tail] and [list_del] that links an entry at most once
    and unlinks only linked entries runs without touching an invalid pointer,
    and a [list_first]/[list_next] traversal then visits exactly the entries of
    the list operations, in order. *)
Theorem list_ops_refine_lists h hd os l :
  hd ∈ dom h → Forall (λ o, op_entry o ∈ dom h) os →
  spec_ops hd os [] = Some l →
  ∃ h', (h ← list_head_init hd h; run_ops hd os h) = Some h' ∧
        list_contents (S (length l)) h' hd = Some l ∧
        list_empty hd h' = Some (bool_decide (l = [])) ∧
        list_last hd h' = Some (Some (default hd (list.last l))).
Proof.
  intros Hhd Hos Hspec.
  destruct (list_head_init_spec h hd Hhd) as (h0 & -> & Hl0 & Hd0 & _). simpl.
  assert (∃ h', run_ops hd os h0 = Some h' ∧ dlist h' hd l) as (h' & -> & Hl).
  { rewrite <- Hd0 in Hos. clear Hhd Hd0 h. revert h0 Hl0 Hos Hspec.
    generalize (@nil nat) as k. induction os as [|o os IH]; intros k h Hk Hos Hspec; simpl in *.
    - naive_solver.
    - apply list.Forall_cons in Hos as [Ho Hos]. apply bind_Some in Hspec as (k' & Hk' & Hspec).
      destruct (run_op_refines h hd o k k') as (h1 & -> & ? & Hd); [done..|]. simpl.
      apply (IH k' h1); [done| |done]. by rewrite Hd. }
  eexists; split; [done|]. split; [by apply list_contents_dlist; [|lia]|].
  destruct Hl as [[Hn _]%list.NoDup_cons Hs]. destruct (seg_ends _ _ _ _ Hs) as [Hx Hp].
  unfold list_empty, list_last.
  rewrite load_next_nxt, load_prev_prv, Hx, Hp by eauto. split; [|done]. simpl. f_equal.
  apply bool_decide_ext. destruct l; set_solver.
Qed.

(** Three entries added, one moved to the tail. *)
Definition sample_heap : heap :=
  list_to_map ((λ a, (a, ListHead None None)) <$> [0; 1; 2; 3]%nat).
Definition sample_ops : list list_op :=
  [OpAdd 1; OpAdd 2; OpAddTail 3; OpDel 2; OpAddTail 2].

Lemma list_ops_refine_lists_witness :
  ∃ h', (h ← list_head_init 0 sample_heap; run_ops 0 sample_ops h) = Some h' ∧
        list_contents 4 h' 0 = Some [1; 3; 2]%nat ∧
        list_empty 0 h' = Some (bool_decide ([1; 3; 2]%nat = [])) ∧
        list_last 0 h' = Some (Some 2%nat).
Proof.
  apply (list_ops_refine_lists sample_heap 0 sample_ops [1; 3; 2]%nat).
  - vm_compute. done.
  - repeat constructor; apply elem_of_dom; vm_compute; eexists; reflexivity.
  - reflexivity.
Defined.
