(* ===== verification/Timer.v ===== *)
(** * Software timers (common/timer.c)

    Soft timers multiplexed on OS timers: the context with its table of system
    timers, the operations, [timer_process] with the callbacks it runs, and the
    abstract timer the other components are written against. *)

From S2P Require Import Prelude.

(** ** Data *)

(** Bit numbers of the timer flags. *)
Definition TIMER_TYPE_SYS : nat := 0.
Definition TIMER_STATE_CREATED : nat := 1.
Definition TIMER_STATE_STARTED : nat := 2.

Definition NSECS_PER_MS : Z := 1000000.

(** A [struct list_head *]: NULL, the head of the list, or the [list] member of
    a timer. *)
Inductive link := LNull | LHead | LEntry (t : nat).
#[export] Instance link_eq_dec : EqDecision link.
Proof. solve_decision. Defined.

Record timer_sys := TimerSys {
  head : list nat;               (* soft timers started on this system timer *)
  next_to_process : link;
  sys_ms : Z;
  sys_flags : Z;
  users : Z;
}.
#[export] Instance eta_timer_sys : Eta timer_sys :=
  λ r, TimerSys (head r) (next_to_process r) (sys_ms r) (sys_flags r) (users r).

Record timer := Timer {
  t_ms : Z;
  t_flags : Z;
  t_sys : option nat;            (* index of [timer_sys] in the table *)
  t_func : bool;                 (* [func] is not NULL *)
}.
#[export] Instance eta_timer : Eta timer :=
  λ r, Timer (t_ms r) (t_flags r) (t_sys r) (t_func r).

Record timer_ctx := TimerCtx {
  max_sys_timers : Z;
  num_soft_timers : Z;
  num_sys_timers : Z;
  timer_sys_table : list timer_sys;
  timers : gmap nat timer;       (* the clients' [struct timer]s, by address *)
}.
#[export] Instance eta_timer_ctx : Eta timer_ctx :=
  λ r, TimerCtx (max_sys_timers r) (num_soft_timers r) (num_sys_timers r)
         (timer_sys_table r) (timers r).

(** The platform: the OS timer of the i-th system timer, and the client's
    callback [t->func(t->data)]. *)
Inductive timer_call :=
| OsTimerCreate (i : nat)
| OsTimerStart (i : nat) (value interval_period : Z)
| OsTimerStop (i : nat)
| OsTimerDestroy (i : nat)
| TimerFunc (t : nat).

Abbreviation TM := (M timer_call timer_ctx).

Definition has_flag (flags : Z) (b : nat) : bool := bit_test flags b.
Definition started (t : timer) : bool := has_flag (t_flags t) TIMER_STATE_STARTED.
Definition sys_created (s : timer_sys) : bool := has_flag (sys_flags s) TIMER_STATE_CREATED.

(** ** Memory accesses *)

Definition get_timer (t : nat) : TM timer :=
  let! c := gets timers in deref UseAfterFree (c !! t).
Definition set_timer (t : nat) (f : timer → timer) : TM unit :=
  modify (λ c, c <| timers ::= alter f t |>).
Definition get_sys (i : nat) : TM timer_sys :=
  let! c := gets timer_sys_table in deref OutOfBounds (c !! i).
Definition set_sys (i : nat) (f : timer_sys → timer_sys) : TM unit :=
  modify (λ c, c <| timer_sys_table ::= alter f i |>).

(** [list_next(entry)] on the list of [s]; a timer out of the list has NULL
    pointers ([list_del]). *)
Definition link_next (s : timer_sys) (entry : link) : TM link :=
  match entry with
  | LNull => crash NullDeref
  | LHead => ret (match head s with [] => LHead | e :: _ => LEntry e end)
  | LEntry e =>
      match list_next e (head s) with
      | None => ret LNull
      | Some None => ret LHead
      | Some (Some e') => ret (LEntry e')
      end
  end.

(** ** Operations *)

Section operations.
Context `{!Platform timer_call}.

Definition timer_match_timeout (sys_ms ms : Z) : bool := s32 sys_ms =? s32 ms.

Definition timer_sys_find (tbl : list timer_sys) (ms : Z) : option nat :=
  fst <$> list_find (λ s, sys_created s
                          && negb (has_flag (sys_flags s) TIMER_TYPE_SYS)
                          && timer_match_timeout (sys_ms s) ms) tbl.

(** [found:] and [done:] of [timer_sys_create]. *)
Definition timer_sys_create_done (i : nat) : TM (option nat) :=
  set_sys i (λ s, s <| users ::= λ n, u32 (n + 1) |>);;
  ret (Some i).

Definition timer_sys_create_found (i : nat) (flags ms : Z) : TM (option nat) :=
  let! rc := perform (OsTimerCreate i) in
  if rc <? 0 then ret None else
  set_sys i (λ s, s <| sys_flags := bit_set (Z.land flags (2 ^ Z.of_nat TIMER_TYPE_SYS))
                                      TIMER_STATE_CREATED |>
                    <| sys_ms := ms |>);;
  modify (λ c, c <| num_sys_timers ::= λ n, u16 (n + 1) |>);;
  timer_sys_create_done i.

Definition timer_sys_create_new (flags ms : Z) : TM (option nat) :=
  let! c := gets (λ c, c) in
  if num_sys_timers c =? max_sys_timers c then ret None else
  match list_find (λ s, negb (sys_created s)) (timer_sys_table c) with
  | Some (i, _) => timer_sys_create_found i flags ms
  | None => ret None
  end.

Definition timer_sys_create (flags ms : Z) : TM (option nat) :=
  if has_flag flags TIMER_TYPE_SYS then timer_sys_create_new flags ms else
  let ms := if 100 <? ms then 100 else ms in
  let! tbl := gets timer_sys_table in
  match timer_sys_find tbl ms with
  | Some i => timer_sys_create_done i
  | None => timer_sys_create_new flags ms
  end.

Definition timer_sys_destroy (i : nat) : TM unit :=
  set_sys i (λ s, s <| users ::= λ n, u32 (n - 1) |>);;
  let! s := get_sys i in
  when (users s =? 0)
    (perform (OsTimerDestroy i);;
     set_sys i (λ s, s <| sys_flags ::= λ f, bit_clear f TIMER_STATE_CREATED |>);;
     modify (λ c, c <| num_sys_timers ::= λ n, u16 (n - 1) |>)).

Definition timer_sys_start (i : nat) : TM Z :=
  let! s := get_sys i in
  if has_flag (sys_flags s) TIMER_STATE_STARTED then ret 0 else
  let! rc := (if has_flag (sys_flags s) TIMER_TYPE_SYS
              then perform (OsTimerStart i (sys_ms s * NSECS_PER_MS) 0)
              else perform (OsTimerStart i 0 (sys_ms s * NSECS_PER_MS))) in
  if rc <? 0 then ret (-1) else
  set_sys i (λ s, s <| sys_flags ::= λ f, bit_set f TIMER_STATE_STARTED |>);;
  ret 0.

Definition timer_sys_stop (i : nat) : TM unit :=
  let! s := get_sys i in
  when (has_flag (sys_flags s) TIMER_STATE_STARTED && bool_decide (head s = []))
    (perform (OsTimerStop i);;
     set_sys i (λ s, s <| sys_flags ::= λ f, bit_clear f TIMER_STATE_STARTED |>)).

Definition timer_init (t : nat) (flags ms : Z) : TM Z :=
  let! _ := get_timer t in
  let! sys := timer_sys_create flags ms in
  match sys with
  | None => ret (-1)
  | Some i =>
      set_timer t (λ r, r <| t_sys := Some i |> <| t_flags := bit_set 0 TIMER_STATE_CREATED |>);;
      modify (λ c, c <| num_soft_timers ::= λ n, u16 (n + 1) |>);;
      ret 0
  end.

Definition timer_start (t : nat) (ms : Z) : TM Z :=
  let! r := get_timer t in
  match t_sys r with
  | None => ret (-1)
  | Some i =>
      if started r then ret (-1) else
      if ms =? 0 then ret (-1) else
      let! s := get_sys i in
      set_timer t (λ r, r <| t_ms := s32 ms |>);;
      (if has_flag (sys_flags s) TIMER_TYPE_SYS
       then set_sys i (λ s, s <| sys_ms := ms |>)
       else set_timer t (λ r, r <| t_ms ::= λ m, s32 (m + sys_ms s) |>));;
      set_sys i (λ s, s <| head ::= cons t |>);;
      set_timer t (λ r, r <| t_flags ::= λ f, bit_set f TIMER_STATE_STARTED |>);;
      timer_sys_start i
  end.

Definition timer_stop (t : nat) : TM unit :=
  let! r := get_timer t in
  if negb (started r) then ret tt else
  let! i := deref NullDeref (t_sys r) in
  let! s := get_sys i in
  (if decide (next_to_process s = LEntry t)
   then let! n := link_next s (LEntry t) in
        set_sys i (λ s, s <| next_to_process := n |>)
   else ret tt);;
  (if decide (t ∈ head s)
   then set_sys i (λ s, s <| head ::= list_remove t |>)
   else crash BadList);;
  set_timer t (λ r, r <| t_flags ::= λ f, bit_clear f TIMER_STATE_STARTED |>);;
  timer_sys_stop i.

Definition timer_is_running (t : nat) : TM Z :=
  let! r := get_timer t in
  match t_sys r with
  | None => ret (-1)
  | Some _ => ret (if started r then 1 else 0)
  end.

Definition timer_restart (t : nat) (ms : Z) : TM Z :=
  let! rc := timer_is_running t in
  if rc <? 0 then ret rc else
  when (negb (rc =? 0)) (timer_stop t);;
  let! _ := timer_start t ms in
  ret rc.

Definition timer_destroy (t : nat) : TM Z :=
  let! r := get_timer t in
  timer_stop t;;
  match t_sys r with
  | None => ret (-1)
  | Some i =>
      set_timer t (λ r, r <| t_sys := None |>
                          <| t_flags ::= λ f, bit_clear f TIMER_STATE_CREATED |>);;
      timer_sys_destroy i;;
      modify (λ c, c <| num_soft_timers ::= λ n, u16 (n - 1) |>);;
      ret 0
  end.

(** [timer_pool_init] on [n] zeroed system timers. *)
Definition timer_pool_init (n : nat) (ts : gmap nat timer) : timer_ctx :=
  TimerCtx (Z.of_nat n) 0 0 (replicate n (TimerSys [] LNull 0 0 0)) ts.

(** The loop of [timer_process]; [func t] is the callback [t->func(t->data)]. *)
Fixpoint timer_process_loop (func : nat → TM unit) (fuel : nat) (i : nat) (count : Z)
    (entry : link) : TM unit :=
  match fuel with
  | O => starve
  | S fuel =>
      let! s := get_sys i in
      let! n := link_next s entry in
      set_sys i (λ s, s <| next_to_process := n |>);;
      match entry with
      | LHead => ret tt
      | LNull => crash NullDeref
      | LEntry t =>
          let! r := get_timer t in
          let ms := s32 (t_ms r - sys_ms s * count) in
          set_timer t (λ r, r <| t_ms := ms |>);;
          when (ms <=? 0)
            (timer_stop t;;
             let! r := get_timer t in
             when (t_func r) (func t));;
          let! s := get_sys i in
          timer_process_loop func fuel i count (next_to_process s)
      end
  end.

Definition timer_process (func : nat → TM unit) (fuel : nat) (i : nat) (count : Z) : TM unit :=
  let! s := get_sys i in
  timer_process_loop func fuel i count
    (match head s with [] => LHead | e :: _ => LEntry e end).
End operations.

(** ** The API as one type of operations *)

Inductive timer_op :=
| OpInit (t : nat) (flags ms : Z)
| OpStart (t : nat) (ms : Z)
| OpStop (t : nat)
| OpRestart (t : nat) (ms : Z)
| OpDestroy (t : nat).

Definition op_timer (op : timer_op) : nat :=
  match op with
  | OpInit t _ _ | OpStart t _ | OpStop t | OpRestart t _ | OpDestroy t => t
  end.

Definition do_timer_op `{!Platform timer_call} (op : timer_op) : TM Z :=
  match op with
  | OpInit t flags ms => timer_init t flags ms
  | OpStart t ms => timer_start t ms
  | OpStop t => timer_stop t;; ret 0
  | OpRestart t ms => timer_restart t ms
  | OpDestroy t => timer_destroy t
  end.

(** ** Well-formedness *)

Definition attached (i : nat) (r : timer) : bool := bool_decide (t_sys r = Some i).

(** One system timer agrees with the clients' timers. *)
Record sys_ok (i : nat) (s : timer_sys) (ts : gmap nat timer) : Prop := {
  ok_nodup : NoDup (head s);
  ok_head : ∀ t, t ∈ head s ↔ ∃ r, ts !! t = Some r ∧ started r = true ∧ t_sys r = Some i;
  ok_next : ∀ t, next_to_process s = LEntry t → t ∈ head s;
  ok_users : users s = Z.of_nat (map_count (attached i) ts);
  ok_created : sys_created s = true ↔ users s ≠ 0;
  ok_started : has_flag (sys_flags s) TIMER_STATE_STARTED = true → head s ≠ [];
}.

Definition timer_ok (tbl : list timer_sys) (r : timer) : Prop :=
  match t_sys r with
  | Some i => (i < length tbl)%nat
  | None => started r = false
  end.

Record wf (c : timer_ctx) : Prop := {
  wf_max : max_sys_timers c = Z.of_nat (length (timer_sys_table c));
  wf_sys : ∀ i s, timer_sys_table c !! i = Some s → sys_ok i s (timers c);
  wf_timers : ∀ t r, timers c !! t = Some r → timer_ok (timer_sys_table c) r;
  wf_num : num_sys_timers c = Z.of_nat (list_count sys_created (timer_sys_table c));
  wf_size : Z.of_nat (length (timer_sys_table c)) < 2 ^ 16 ∧ Z.of_nat (size (timers c)) < 2 ^ 32;
}.

Lemma list_alter_as_insert {A} (f : A → A) (l : list A) i a :
  l !! i = Some a → alter f i l = <[i := f a]> l.
Proof.
  intros H. apply list_eq. intros j. destruct (decide (j = i)) as [->|].
  - rewrite list_lookup_alter_eq, H, list_lookup_insert_eq; [done|]. by eapply lookup_lt_Some.
  - by rewrite list_lookup_alter_ne, list_lookup_insert_ne.
Qed.

(** Updating the system timer [i] and a timer that is attached to nothing else. *)
Lemma wf_update c i s s' t r r' nsoft nsys :
  wf c → timer_sys_table c !! i = Some s → timers c !! t = Some r →
  (t_sys r = None ∨ t_sys r = Some i) → (t_sys r' = None ∨ t_sys r' = Some i) →
  (t_sys r' = None → started r' = false) →
  sys_ok i s' (<[t := r']> (timers c)) →
  nsys + Z.b2z (sys_created s) = num_sys_timers c + Z.b2z (sys_created s') →
  wf (TimerCtx (max_sys_timers c) nsoft nsys
        (<[i := s']> (timer_sys_table c)) (<[t := r']> (timers c))).
Proof.
  intros [Hmax Hsys Htim Hnum Hsize] Hs Hr Hi Hi' Hst Hok Hns.
  split; simpl; try rewrite length_insert.
  - done.
  - intros j sj. destruct (decide (j = i)) as [->|Hj].
    { rewrite list_lookup_insert_eq by (by eapply lookup_lt_Some). by intros [= <-]. }
    rewrite list_lookup_insert_ne by done. intros Hsj.
    destruct (Hsys j sj Hsj) as [? Hh ? Hu ??]. split; try done.
    + intros t'. rewrite Hh. destruct (decide (t' = t)) as [->|].
      * rewrite lookup_insert_eq. naive_solver.
      * by rewrite lookup_insert_ne.
    + rewrite Hu. pose proof (map_count_update (attached j) (timers c) t r r' Hr) as Hc.
      replace (attached j r) with false in Hc
        by (symmetry; apply bool_decide_eq_false; naive_solver).
      replace (attached j r') with false in Hc
        by (symmetry; apply bool_decide_eq_false; naive_solver).
      simpl in Hc. lia.
  - intros t' rt. destruct (decide (t' = t)) as [->|].
    + rewrite lookup_insert_eq. intros [= <-]. unfold timer_ok. rewrite length_insert.
      destruct Hi' as [E|E]; rewrite E; [auto|]. by eapply lookup_lt_Some.
    + rewrite lookup_insert_ne by done. intros Ht. specialize (Htim _ _ Ht).
      unfold timer_ok in *. by rewrite length_insert.
  - rewrite <- (list_alter_as_insert (λ _, s') _ _ s) by done.
    pose proof (list_count_alter sys_created (λ _, s') i (timer_sys_table c) s Hs).
    destruct (sys_created s), (sys_created s'); simpl in *; lia.
  - rewrite map_size_insert_Some by eauto. done.
Qed.

Lemma attached_count_le c i : wf c → Z.of_nat (map_count (attached i) (timers c)) < 2 ^ 32.
Proof. intros [? ? ? ? []]. pose proof (map_count_le (attached i) (timers c)). lia. Qed.

Lemma created_count_le c : wf c → 0 ≤ num_sys_timers c ∧ num_sys_timers c ≤ max_sys_timers c ∧ max_sys_timers c < 2 ^ 16.
Proof.
  intros [Hm ?? Hn []]. pose proof (list_count_le sys_created (timer_sys_table c)). lia.
Qed.

(** ** Symbolic execution *)

Lemma wp_get_timer t (Q : timer → world timer_call timer_ctx → Prop) w r :
  timers (w_st w) !! t = Some r → Q r w → wp (get_timer t) Q w.
Proof. intros Hr ?. unfold get_timer. wp_step. eauto. Qed.
Lemma wp_get_sys i (Q : timer_sys → world timer_call timer_ctx → Prop) w s :
  timer_sys_table (w_st w) !! i = Some s → Q s w → wp (get_sys i) Q w.
Proof. intros Hr ?. unfold get_sys. wp_step. eauto. Qed.
Lemma wp_set_timer t f (Q : unit → world timer_call timer_ctx → Prop) w r :
  timers (w_st w) !! t = Some r →
  Q tt (World ((w_st w) <| timers := <[t := f r]> (timers (w_st w)) |>) (w_clock w) (w_trace w)) →
  wp (set_timer t f) Q w.
Proof.
  intros Hr HQ. unfold set_timer. wp_step.
    destruct w as [[] ? ?]. unfold over, over_field in *. cbn -[alter] in *.
    by rewrite (alter_as_insert _ _ _ r).
Qed.
Lemma wp_set_sys i f (Q : unit → world timer_call timer_ctx → Prop) w s :
  timer_sys_table (w_st w) !! i = Some s →
  Q tt (World ((w_st w) <| timer_sys_table := <[i := f s]> (timer_sys_table (w_st w)) |>)
          (w_clock w) (w_trace w)) →
  wp (set_sys i f) Q w.
Proof.
  intros Hr HQ. unfold set_sys. wp_step.
    destruct w as [[] ? ?]. unfold over, over_field in *. cbn -[alter] in *.
    by rewrite (list_alter_as_insert _ _ _ s).
Qed.

Ltac lookup_here :=
  cbn; rewrite ?lookup_insert_eq, ?list_insert_insert_eq, ?insert_insert_eq;
  first [eassumption
        | apply list_lookup_insert_eq; rewrite ?length_insert; eapply lookup_lt_Some; eassumption
        | reflexivity].
Ltac timer_step :=
  rewrite ?wp_bind;
  first
    [ eapply wp_get_timer; [lookup_here|]
    | eapply wp_get_sys; [lookup_here|]
    | eapply wp_set_timer; [lookup_here|]
    | eapply wp_set_sys; [lookup_here|]
    | progress wp_step ];
  cbn; rewrite ?list_insert_insert_eq, ?insert_insert_eq.

(** The abstract timer: what a client sees of a [struct timer]. *)
Record soft_timer := SoftTimer { st_created : bool; st_running : bool }.
#[export] Instance eta_soft_timer : Eta soft_timer := λ r, SoftTimer (st_created r) (st_running r).
#[export] Instance soft_timer_eq_dec : EqDecision soft_timer.
Proof. solve_decision. Defined.

Definition soft_none : soft_timer := SoftTimer false false.
Definition soft_start (ms : Z) (s : soft_timer) : soft_timer :=
  if st_created s && negb (ms =? 0) then s <| st_running := true |> else s.
Definition soft_stop (s : soft_timer) : soft_timer := s <| st_running := false |>.

Definition soft_of (r : timer) : soft_timer :=
  SoftTimer (match t_sys r with Some _ => true | None => false end) (started r).
Definition soft_view (c : timer_ctx) : gmap nat soft_timer := soft_of <$> timers c.

Lemma soft_view_update (ts : gmap nat timer) t r r' f :
  ts !! t = Some r → soft_of r' = f (soft_of r) →
  soft_of <$> <[t := r']> ts = alter f t (soft_of <$> ts).
Proof.
  intros Hr Hf. rewrite fmap_insert, Hf. symmetry. apply alter_as_insert.
  by rewrite lookup_fmap, Hr.
Qed.
Lemma soft_view_id c t r f :
  timers c !! t = Some r → soft_of r = f (soft_of r) → soft_view c = alter f t (soft_view c).
Proof.
  intros Hr Hf. unfold soft_view. rewrite <- (insert_id (timers c) t r) at 1 by done.
  by apply (soft_view_update _ _ r).
Qed.

(** The entries that the loop of [timer_process] has still to visit. *)
Fixpoint from (e : nat) (l : list nat) : list nat :=
  match l with
  | [] => []
  | x :: l' => if decide (x = e) then l else from e l'
  end.
Definition rest (s : timer_sys) : list nat :=
  match next_to_process s with LEntry e => from e (head s) | _ => [] end.

(** What no timer operation does behind the back of [timer_process]: free a
    timer, add an entry to visit, or leave a null iterator. *)
Definition sys_keeps (s s' : timer_sys) : Prop :=
  rest s' `sublist_of` rest s ∧ (next_to_process s ≠ LNull → next_to_process s' ≠ LNull).
Definition keeps (c c' : timer_ctx) : Prop :=
  Forall2 sys_keeps (timer_sys_table c) (timer_sys_table c') ∧ dom (timers c') = dom (timers c).

Lemma from_elem e l : e ∈ l → ∃ k, from e l = e :: k.
Proof.
  induction l as [|x l IH]; cbn; [set_solver|]. intros H. case_decide as D; [subst; eauto|].
  apply IH. set_solver.
Qed.
Lemma from_notin e l : e ∉ l → from e l = [].
Proof. induction l as [|x l IH]; cbn; [done|]. intros H. case_decide; set_solver. Qed.
Lemma from_sublist e l : from e l `sublist_of` l.
Proof.
  induction l as [|x l IH]; cbn; [done|]. case_decide; [done|]. by apply sublist_cons.
Qed.
Lemma from_app e l k : e ∉ l → from e (l ++ e :: k) = e :: k.
Proof.
  induction l as [|x l IH]; cbn; intros H.
  - by rewrite decide_True.
  - rewrite decide_False by set_solver. apply IH. set_solver.
Qed.
Lemma from_remove e t l : e ≠ t → from e (list_remove t l) = list_remove t (from e l).
Proof.
  intros Hne. unfold list_remove. induction l as [|x l IH]; [done|].
  cbn [from]. rewrite filter_cons. destruct (decide (x ≠ t)) as [D|D]; cbn [from].
  - destruct (decide (x = e)) as [->|]; [|done]. rewrite filter_cons_True by done. done.
  - destruct (decide (x = e)) as [->|]; [|done]. naive_solver.
Qed.
Lemma list_remove_sublist t l : list_remove t l `sublist_of` l.
Proof.
  unfold list_remove. induction l as [|x l IH]; [done|]. rewrite filter_cons.
  case_decide; [by apply sublist_skip|by apply sublist_cons].
Qed.

#[export] Instance sys_keeps_preorder : PreOrder sys_keeps.
Proof.
  split; [by split|]. intros a b c [H1 ?] [H2 ?]. split; [by etrans|auto].
Qed.
#[export] Instance keeps_preorder : PreOrder keeps.
Proof.
  split; [by split|]. intros a b c [H1 E1] [H2 E2]. split; [by etrans|congruence].
Qed.

Lemma keeps_update c i s s' t r r' max ns nsys :
  timer_sys_table c !! i = Some s → timers c !! t = Some r → sys_keeps s s' →
  keeps c (TimerCtx max ns nsys (<[i := s']> (timer_sys_table c)) (<[t := r']> (timers c))).
Proof.
  intros Hs Hr Hk. split; cbn.
  - rewrite <- (list_insert_id (timer_sys_table c) i s) at 1 by done.
    by apply Forall2_insert.
  - apply dom_insert_lookup_L. eauto.
Qed.

Section specs.
Context `{!Platform timer_call}.
Implicit Types (w : world timer_call timer_ctx).

(** The callbacks run so far, newest first. *)
Definition fired (tr : list (timer_call * Z)) : list nat :=
  omap (λ x, match x.1 with TimerFunc t => Some t | _ => None end) tr.

#[global] Arguments fired : simpl never.

Definition next_link (t : nat) (s : timer_sys) : link :=
  match list_next t (head s) with
  | None => LNull
  | Some None => LHead
  | Some (Some e) => LEntry e
  end.
Definition stopped_sys (t : nat) (s : timer_sys) (fl : Z) : timer_sys :=
  s <| head ::= list_remove t |> <| sys_flags := fl |>
    <| next_to_process ::= λ n, if decide (n = LEntry t) then next_link t s else n |>.
Definition stopped (r : timer) : timer :=
  r <| t_flags ::= λ f, bit_clear f TIMER_STATE_STARTED |>.

Lemma timer_stop_exec t r i s w :
  wf (w_st w) → timers (w_st w) !! t = Some r → started r = true → t_sys r = Some i →
  timer_sys_table (w_st w) !! i = Some s →
  wp (timer_stop t) (λ _ w', ∃ fl,
    let c := w_st w in
    w_st w' = TimerCtx (max_sys_timers c) (num_soft_timers c) (num_sys_timers c)
                (<[i := stopped_sys t s fl]> (timer_sys_table c))
                (<[t := stopped r]> (timers c)) ∧
    has_flag fl TIMER_STATE_CREATED = sys_created s ∧
    has_flag fl TIMER_TYPE_SYS = has_flag (sys_flags s) TIMER_TYPE_SYS ∧
    (has_flag fl TIMER_STATE_STARTED = true → list_remove t (head s) ≠ []) ∧
    fired (w_trace w') = fired (w_trace w)) w.
Proof.
  intros Hwf Hr Est Ei Hs. unfold timer_stop. timer_step.
  rewrite Est, Ei. cbn. wp_step. timer_step.
  assert (Hin : t ∈ head s) by (apply (ok_head _ _ _ (wf_sys _ Hwf _ _ Hs)); eauto).
  destruct w as [[max ns nsys tbl ts] ck tr]; cbn in *.
  assert (Hnext : wp (if decide (next_to_process s = LEntry t) then
       let! n := link_next s (LEntry t) in
       set_sys i (λ s, s <| next_to_process := n |>) else ret tt)
     (λ _ w', w' = World (TimerCtx max ns nsys
        (<[i := s <| next_to_process ::= λ n, if decide (n = LEntry t) then next_link t s else n |>]> tbl) ts) ck tr)
     (World (TimerCtx max ns nsys tbl ts) ck tr)).
  { unfold next_link. cbn. destruct (decide (next_to_process s = LEntry t)) as [E|E].
    - destruct (list_next t (head s)) as [[]|]. all: timer_step; unfold over, over_field; cbn;
      repeat f_equal; cbn; by rewrite decide_True by done. 
    - wp_step. rewrite list_insert_id; [done|]. rewrite Hs. f_equal. destruct s; cbn in *.
      unfold over, over_field; cbn. by rewrite decide_False. }
  apply wp_bind. eapply wp_mono; [exact Hnext|]. intros _ ? ->. clear Hnext.
  rewrite decide_True by done. timer_step. timer_step.
  unfold timer_sys_stop. timer_step. cbn.
  destruct (has_flag (sys_flags s) TIMER_STATE_STARTED) eqn:Ef; cbn.
  2:{ wp_step. exists (sys_flags s). split; [reflexivity|]. rewrite Ef. done. }
  case_bool_decide as Hemp; cbn.
  2:{ wp_step. by exists (sys_flags s). }
  timer_step. exists (bit_clear (sys_flags s) TIMER_STATE_STARTED).
  split; [reflexivity|]. unfold sys_created, has_flag. rewrite !bit_clear_test. done.
Qed.

Lemma next_link_elem t s e : NoDup (head s) → t ∈ head s → next_link t s = LEntry e →
  e ∈ list_remove t (head s).
Proof.
  intros Hnd [l1 [l2 E]]%list_elem_of_split. unfold next_link. rewrite E in *.
  apply list.NoDup_app in Hnd as (?&Hd&[??]%list.NoDup_cons).
  rewrite list_next_mid, list_remove_mid by set_solver.
  destruct l2; [done|]. cbn. intros [= ->]. set_solver.
Qed.

Lemma timer_stop_wf c t r i s fl :
  wf c → timers c !! t = Some r → started r = true → t_sys r = Some i →
  timer_sys_table c !! i = Some s →
  has_flag fl TIMER_STATE_CREATED = sys_created s →
  (has_flag fl TIMER_STATE_STARTED = true → list_remove t (head s) ≠ []) →
  wf (TimerCtx (max_sys_timers c) (num_soft_timers c) (num_sys_timers c)
        (<[i := stopped_sys t s fl]> (timer_sys_table c))
        (<[t := stopped r]> (timers c))).
Proof.
  intros Hwf Hr Est Ei Hs Hc Hf. pose proof (wf_sys _ Hwf _ _ Hs) as [Hnd Hh Hn Hu Hcr Hst].
  assert (Hin : t ∈ head s) by (apply Hh; eauto).
  assert (Est' : started (stopped r) = false) by (unfold started, has_flag; cbn; by rewrite bit_clear_test).
  eapply wf_update; eauto; cbn.
  2:{ unfold sys_created. cbn. rewrite Hc. unfold sys_created. lia. }
  split; cbn.
  - auto with genavb.
  - intros t'. rewrite elem_of_list_remove, Hh. destruct (decide (t' = t)) as [->|].
    + rewrite lookup_insert_eq. split; [by intros []|]. intros (?&[= <-]&?&?). congruence.
    + rewrite lookup_insert_ne by done. tauto.
  - intros t'. case_decide as D; intros E.
    + by apply next_link_elem.
    + apply elem_of_list_remove. split; [congruence|]. auto.
  - rewrite Hu. pose proof (map_count_update (attached i) (timers c) t r (stopped r) Hr) as Hm.
    unfold attached in Hm at 1 3. cbn in Hm. lia.
  - unfold sys_created in *. cbn. by rewrite Hc.
  - auto.
Qed.


Definition start_ms (s : timer_sys) (ms : Z) : Z :=
  if has_flag (sys_flags s) TIMER_TYPE_SYS then s32 ms else s32 (s32 ms + sys_ms s).
Definition started_sys (t : nat) (ms : Z) (s : timer_sys) (fl : Z) : timer_sys :=
  s <| head ::= cons t |> <| sys_flags := fl |>
    <| sys_ms ::= λ m, if has_flag (sys_flags s) TIMER_TYPE_SYS then ms else m |>.
Definition started_timer (s : timer_sys) (ms : Z) (r : timer) : timer :=
  r <| t_ms := start_ms s ms |> <| t_flags ::= λ f, bit_set f TIMER_STATE_STARTED |>.


Lemma stopped_keeps t s fl : NoDup (head s) → t ∈ head s → sys_keeps s (stopped_sys t s fl).
Proof.
  intros Hnd Ht. pose proof Ht as [l1 [l2 E]]%list_elem_of_split.
  rewrite E in Hnd. apply list.NoDup_app in Hnd as (?&Hd&[??]%list.NoDup_cons).
  assert (Hl1 : t ∉ l1) by set_solver.
  assert (Hnx : next_link t s = match l2 with [] => LHead | e :: _ => LEntry e end).
  { unfold next_link. rewrite E, list_next_mid by done. by destruct l2. }
  split.
  - unfold rest, stopped_sys; cbn. destruct (next_to_process s) as [| |e].
    + rewrite decide_False by done. done.
    + rewrite decide_False by done. done.
    + destruct (decide (LEntry e = LEntry t)) as [[= ->]|Hne].
      * rewrite Hnx, E, from_app, list_remove_mid by done. apply sublist_cons.
        destruct l2 as [|e l2]; [done|]. rewrite from_app; [done|]. set_solver.
      * rewrite from_remove by congruence. apply list_remove_sublist.
  - cbn. rewrite Hnx. case_decide; [|done]. by destruct l2.
Qed.

Lemma started_keeps t ms s fl : (∀ e, next_to_process s = LEntry e → e ≠ t) →
  sys_keeps s (started_sys t ms s fl).
Proof.
  intros Ht. split; [|done]. unfold rest; cbn.
  destruct (next_to_process s) as [| |e]; [done..|]. cbn.
  by rewrite decide_False by (intros ->; by eapply Ht).
Qed.

Lemma view_lookup c c' t r f :
  timers c !! t = Some r → soft_view c' = alter f t (soft_view c) →
  ∃ r', timers c' !! t = Some r' ∧ soft_of r' = f (soft_of r).
Proof.
  intros Hr Hv. assert (H : soft_view c' !! t = Some (f (soft_of r))).
  { rewrite Hv, lookup_alter_eq. unfold soft_view. by rewrite lookup_fmap, Hr. }
  unfold soft_view in H. rewrite lookup_fmap in H.
  destruct (timers c' !! t) as [r'|]; [|done]. injection H as H. eauto.
Qed.

Lemma timer_stop_spec t r w :
  wf (w_st w) → timers (w_st w) !! t = Some r →
  wp (timer_stop t) (λ _ w', wf (w_st w') ∧ keeps (w_st w) (w_st w') ∧
     soft_view (w_st w') = alter soft_stop t (soft_view (w_st w)) ∧
     fired (w_trace w') = fired (w_trace w)) w.
Proof.
  intros Hwf Hr. destruct (started r) eqn:Est.
  2:{ unfold timer_stop. timer_step. rewrite Est. cbn. wp_step. split_and!; [done..| |done].
      eapply soft_view_id; [done|]. unfold soft_of. by rewrite Est. }
  pose proof (wf_timers _ Hwf _ _ Hr) as Ht. unfold timer_ok in Ht.
  destruct (t_sys r) as [i|] eqn:Ei; [|congruence].
  destruct (lookup_lt_is_Some_2 _ _ Ht) as [s Hs].
  pose proof (wf_sys _ Hwf _ _ Hs) as Hok.
  eapply wp_mono; [by eapply timer_stop_exec|].
  intros _ w' (fl & -> & ? & ? & ? & ?). split_and!; [by eapply timer_stop_wf| | |done].
  - eapply keeps_update; [done..|]. apply stopped_keeps; [apply Hok|].
    apply (ok_head _ _ _ Hok). eauto.
  - unfold soft_view. cbn. apply (soft_view_update _ _ r); [done|].
    unfold soft_of, soft_stop, started, has_flag, over, over_field; cbn. by rewrite bit_clear_test.
Qed.

(** The timers that [timer_start] accepts. *)
Definition startable (r : timer) (ms : Z) : bool :=
  bool_decide (is_Some (t_sys r)) && negb (started r) && negb (ms =? 0).

(** What the OS is asked when the system timer [s] of index [i] gets a timer of
    [ms] ms, and the code that follows: the OS timer is not started twice, and
    its refusal is reported. *)
Definition os_start (i : nat) (s : timer_sys) (ms : Z) : timer_call :=
  if has_flag (sys_flags s) TIMER_TYPE_SYS then OsTimerStart i (ms * NSECS_PER_MS) 0
  else OsTimerStart i 0 (sys_ms s * NSECS_PER_MS).
Definition sys_start_code (clock i : nat) (s : timer_sys) (ms : Z) : Z :=
  if has_flag (sys_flags s) TIMER_STATE_STARTED then 0
  else if answer clock (os_start i s ms) <? 0 then -1 else 0.

(** The code of [timer_start]. *)
Definition start_code (clock : nat) (c : timer_ctx) (r : timer) (ms : Z) : Z :=
  match t_sys r ≫= λ i, pair i <$> timer_sys_table c !! i with
  | Some (i, s) => if startable r ms then sys_start_code clock i s ms else -1
  | None => -1
  end.

Lemma timer_start_exec t r i s ms w :
  timers (w_st w) !! t = Some r → started r = false → t_sys r = Some i → ms ≠ 0 →
  timer_sys_table (w_st w) !! i = Some s →
  wp (timer_start t ms) (λ rc w', rc = sys_start_code (w_clock w) i s ms ∧ ∃ fl,
    let c := w_st w in
    w_st w' = TimerCtx (max_sys_timers c) (num_soft_timers c) (num_sys_timers c)
                (<[i := started_sys t ms s fl]> (timer_sys_table c))
                (<[t := started_timer s ms r]> (timers c)) ∧
    has_flag fl TIMER_STATE_CREATED = sys_created s ∧
    has_flag fl TIMER_TYPE_SYS = has_flag (sys_flags s) TIMER_TYPE_SYS ∧
    (rc = 0 → has_flag fl TIMER_STATE_STARTED = true) ∧
    fired (w_trace w') = fired (w_trace w)) w.
Proof.
  intros Hr Est Ei Hms Hs. unfold timer_start. timer_step.
  rewrite Ei, Est. rewrite (proj2 (Z.eqb_neq ms 0)) by done.
  timer_step. timer_step. wp_step.
  destruct w as [[max ns nsys tbl ts] ck tr]; cbn in *.
  eapply wp_mono with (P := λ _ w', w' = World (TimerCtx max ns nsys
     (<[i := s <| sys_ms ::= λ m, if has_flag (sys_flags s) TIMER_TYPE_SYS then ms else m |>]> tbl)
     (<[t := r <| t_ms := start_ms s ms |>]> ts)) ck tr).
  { unfold start_ms. destruct (has_flag (sys_flags s) TIMER_TYPE_SYS).
    - timer_step. done.
    - timer_step. unfold over, over_field; cbn. 
      rewrite (list_insert_id tbl i (TimerSys _ _ _ _ _)); [done|]. rewrite Hs. by destruct s. }
  intros _ ? ->. timer_step. timer_step. unfold timer_sys_start. timer_step.
  unfold sys_start_code, os_start.
  destruct (has_flag (sys_flags s) TIMER_STATE_STARTED) eqn:Ef; cbn.
  { wp_step. split; [done|]. exists (sys_flags s). done. }
  assert (Hfin : ∀ rc w2,
     w_st w2 = TimerCtx max ns nsys (<[i := started_sys t ms s (sys_flags s)]> tbl)
          (<[t := started_timer s ms r]> ts) → fired (w_trace w2) = fired tr →
     wp (if rc <? 0 then ret (-1) else
         set_sys i (λ s, s <| sys_flags ::= λ f, bit_set f TIMER_STATE_STARTED |>);; ret 0)
       (λ rc' w', rc' = (if rc <? 0 then -1 else 0) ∧ ∃ fl,
          w_st w' = TimerCtx max ns nsys
                (<[i := started_sys t ms s fl]> tbl) (<[t := started_timer s ms r]> ts) ∧
          has_flag fl TIMER_STATE_CREATED = sys_created s ∧
          has_flag fl TIMER_TYPE_SYS = has_flag (sys_flags s) TIMER_TYPE_SYS ∧
          (rc' = 0 → has_flag fl TIMER_STATE_STARTED = true) ∧
          fired (w_trace w') = fired tr)
       w2).
  { intros rc [? ck' tr'] ? Htr; cbn in *; subst. destruct (rc <? 0); wp_step; cbn.
    - split; [done|]. exists (sys_flags s). done.
    - timer_step. wp_step. split; [done|].
      exists (bit_set (sys_flags s) TIMER_STATE_STARTED). split; [reflexivity|].
      unfold sys_created, has_flag. rewrite !bit_set_test. done. }
  destruct (has_flag (sys_flags s) TIMER_TYPE_SYS) eqn:Et; wp_step; apply Hfin; try done.
  all: unfold started_sys, started_timer, over, over_field; cbn; by rewrite Et.
Qed.

Lemma timer_start_wf c t r i s ms fl :
  wf c → timers c !! t = Some r → started r = false → t_sys r = Some i →
  timer_sys_table c !! i = Some s → has_flag fl TIMER_STATE_CREATED = sys_created s →
  wf (TimerCtx (max_sys_timers c) (num_soft_timers c) (num_sys_timers c)
        (<[i := started_sys t ms s fl]> (timer_sys_table c))
        (<[t := started_timer s ms r]> (timers c))).
Proof.
  intros Hwf Hr Est Ei Hs Hc. pose proof (wf_sys _ Hwf _ _ Hs) as [Hnd Hh Hn Hu Hcr Hst].
  assert (Hin : t ∉ head s) by (rewrite Hh; intros (?&?&?&?); congruence).
  eapply wf_update; eauto; cbn.
  - congruence.
  - split; cbn.
    + by apply list.NoDup_cons.
    + intros t'. rewrite elem_of_cons, Hh. destruct (decide (t' = t)) as [->|].
      * rewrite lookup_insert_eq. split; [|by left]. intros _. eexists. split; [done|].
        cbn. split; [|done]. unfold started, has_flag; cbn. by rewrite bit_set_test.
      * rewrite lookup_insert_ne by done. naive_solver.
    + intros t' E. apply elem_of_cons. right. auto.
    + rewrite Hu. pose proof (map_count_update (attached i) (timers c) t r (started_timer s ms r) Hr) as Hm.
      unfold attached in Hm at 1 3. cbn in Hm. lia.
    + unfold sys_created in *. cbn. by rewrite Hc.
    + done.
  - unfold sys_created at 2. cbn. rewrite Hc. lia.
Qed.

Lemma timer_start_spec t r ms w :
  wf (w_st w) → timers (w_st w) !! t = Some r →
  wp (timer_start t ms) (λ rc w', wf (w_st w') ∧ keeps (w_st w) (w_st w') ∧
     soft_view (w_st w') = alter (soft_start ms) t (soft_view (w_st w)) ∧
     fired (w_trace w') = fired (w_trace w) ∧
     rc = start_code (w_clock w) (w_st w) r ms) w.
Proof.
  intros Hwf Hr. destruct (startable r ms) eqn:Es.
  - unfold startable in Es. rewrite !andb_true_iff in Es. destruct Es as [[Ei Est] Hms].
    apply bool_decide_eq_true in Ei as [i Ei]. apply negb_true_iff in Est, Hms.
    apply Z.eqb_neq in Hms.
    pose proof (wf_timers _ Hwf _ _ Hr) as Ht. unfold timer_ok in Ht. rewrite Ei in Ht.
    destruct (lookup_lt_is_Some_2 _ _ Ht) as [s Hs].
    eapply wp_mono; [by eapply timer_start_exec|].
    intros rc w' (Hrc & fl & -> & ? & ? & ? & ?). split; [by eapply timer_start_wf|].
    assert (Hcode : rc = start_code (w_clock w) (w_st w) r ms).
    { unfold start_code. rewrite Ei. cbn. rewrite Hs. cbn. unfold startable.
      rewrite Ei, Est, (proj2 (Z.eqb_neq ms 0) Hms). done. }
    split.
    { eapply keeps_update; [done..|]. apply started_keeps.
      intros e He ->. pose proof (wf_sys _ Hwf _ _ Hs) as Hok.
      apply (ok_next _ _ _ Hok) in He. apply (ok_head _ _ _ Hok) in He as (?&?&?&?). congruence. }
    split_and!; [|done..]. unfold soft_view; cbn. apply (soft_view_update _ _ r); [done|].
    unfold soft_of, soft_start; cbn. rewrite Ei. cbn. rewrite (proj2 (Z.eqb_neq ms 0)) by done.
    unfold over, over_field, started, has_flag; cbn. by rewrite bit_set_test.
  - unfold timer_start. timer_step.
    assert (Hid : soft_view (w_st w) = alter (soft_start ms) t (soft_view (w_st w))).
    { eapply soft_view_id; [done|]. unfold soft_start, soft_of, startable in *; cbn.
      unfold over, over_field. by destruct (t_sys r), (started r), (ms =? 0). }
    assert (Hcode : start_code (w_clock w) (w_st w) r ms = -1).
    { unfold start_code. rewrite Es. by destruct (t_sys r ≫= _) as [[]|]. }
    rewrite Hcode. unfold startable in Es. destruct (t_sys r); cbn.
    1: destruct (started r); cbn; [|destruct (ms =? 0); [|done]].
    all: wp_step; split_and!; auto; reflexivity.
Qed.

Lemma timer_is_running_spec t r w :
  timers (w_st w) !! t = Some r →
  wp (timer_is_running t) (λ rc w', w' = w ∧
    rc = if st_created (soft_of r) then Z.b2z (st_running (soft_of r)) else -1) w.
Proof.
  intros Hr. unfold timer_is_running. timer_step. destruct (t_sys r); cbn; wp_step; [|done].
  split; [done|]. by destruct (started r).
Qed.

Definition soft_restart (ms : Z) (s : soft_timer) : soft_timer :=
  if st_created s then soft_start ms (soft_stop s) else s.

Lemma timer_restart_spec t r ms w :
  wf (w_st w) → timers (w_st w) !! t = Some r →
  wp (timer_restart t ms) (λ rc w', wf (w_st w') ∧ keeps (w_st w) (w_st w') ∧
     soft_view (w_st w') = alter (soft_restart ms) t (soft_view (w_st w)) ∧
     fired (w_trace w') = fired (w_trace w) ∧
     rc = if st_created (soft_of r) then Z.b2z (st_running (soft_of r)) else -1) w.
Proof.
  intros Hwf Hr. unfold timer_restart. wp_step.
  eapply wp_mono; [by apply timer_is_running_spec|]. intros rc w' [-> Hrc].
  unfold soft_of in Hrc; cbn in Hrc. destruct (t_sys r) as [i|] eqn:Ei; cbn in Hrc; subst rc.
  2:{ cbn. wp_step. split_and!; [done..| |done|].
      - eapply soft_view_id; [done|]. unfold soft_restart, soft_of. by rewrite Ei.
      - unfold soft_of. by rewrite Ei. }
  replace (Z.b2z (started r) <? 0) with false by (by destruct (started r)). wp_step.
  assert (Hstop : wp (when (negb (Z.b2z (started r) =? 0)) (timer_stop t))
    (λ _ w', wf (w_st w') ∧ keeps (w_st w) (w_st w') ∧
       soft_view (w_st w') = alter soft_stop t (soft_view (w_st w)) ∧
       fired (w_trace w') = fired (w_trace w)) w).
  { destruct (started r) eqn:Est; cbn; [by eapply timer_stop_spec|].
    wp_step. split_and!; try done. eapply soft_view_id; [done|].
    unfold soft_of. by rewrite Est. }
  eapply wp_mono; [exact Hstop|].
  intros _ w1 (Hwf1 & Hk1 & Hv1 & Hf1). destruct (view_lookup _ _ _ _ _ Hr Hv1) as (r1 & Hr1 & Hs1).
  wp_step. eapply wp_mono; [by eapply timer_start_spec|].
  intros rc w2 (Hwf2 & Hk2 & Hv2 & Hf2 & _). wp_step. split_and!; [done|by etrans| |congruence|].
  - rewrite Hv2, Hv1. apply map_eq. intros j.
    destruct (decide (j = t)) as [->|]; [|by rewrite !lookup_alter_ne].
    rewrite !lookup_alter_eq. unfold soft_view at 1 2. rewrite lookup_fmap, Hr. cbn.
    unfold soft_restart, soft_of. by rewrite Ei.
  - unfold soft_of. by rewrite Ei.

Qed.

(** The slot that [timer_sys_create] returns. *)
Definition slot_ms (flags ms : Z) : Z :=
  if has_flag flags TIMER_TYPE_SYS then ms else Z.min ms 100.
Record acquired (s s' : timer_sys) (flags ms : Z) : Prop := {
  acq_head : head s' = head s;
  acq_next : next_to_process s' = next_to_process s;
  acq_users : users s' = u32 (users s + 1);
  acq_created : sys_created s' = true;
  acq_started : has_flag (sys_flags s') TIMER_STATE_STARTED = true →
                has_flag (sys_flags s) TIMER_STATE_STARTED = true;
  acq_type : has_flag (sys_flags s') TIMER_TYPE_SYS = has_flag flags TIMER_TYPE_SYS;
  acq_ms : s32 (sys_ms s') = s32 (slot_ms flags ms);
}.
Definition acquires (flags ms : Z) (c : timer_ctx) (o : option nat) (c' : timer_ctx) : Prop :=
  match o with
  | None => c' = c
  | Some i => ∃ s s' nsys, timer_sys_table c !! i = Some s ∧ acquired s s' flags ms ∧
      c' = TimerCtx (max_sys_timers c) (num_soft_timers c) nsys
             (<[i := s']> (timer_sys_table c)) (timers c) ∧
      nsys + Z.b2z (sys_created s) = num_sys_timers c + 1
  end.

Lemma type_flag_only flags b :
  has_flag (Z.land flags (2 ^ Z.of_nat TIMER_TYPE_SYS)) b
  = bool_decide (b = TIMER_TYPE_SYS) && has_flag flags TIMER_TYPE_SYS.
Proof.
  unfold has_flag. rewrite !bit_test_testbit, Z.land_spec.
  change (2 ^ Z.of_nat TIMER_TYPE_SYS) with (Z.shiftl 1 (Z.of_nat 0)).
  rewrite one_shift_testbit by lia. unfold TIMER_TYPE_SYS.
  rewrite andb_comm. destruct b as [|b]; [done|]. by rewrite !bool_decide_false by lia.
Qed.

(** The code of [timer_init]: a shared timer joins a system timer of its
    granularity when there is one; otherwise it needs a free slot, and the OS
    must grant its timer. *)
Definition shared_slot (flags ms : Z) (s : timer_sys) : bool :=
  sys_created s && negb (has_flag (sys_flags s) TIMER_TYPE_SYS)
  && (s32 (sys_ms s) =? s32 (slot_ms flags ms)).
Definition new_slot_code (clock : nat) (c : timer_ctx) : Z :=
  match list_find (λ s, negb (sys_created s)) (timer_sys_table c) with
  | Some (i, _) => if answer clock (OsTimerCreate i) <? 0 then -1 else 0
  | None => -1
  end.
Definition init_code (clock : nat) (c : timer_ctx) (flags ms : Z) : Z :=
  if negb (has_flag flags TIMER_TYPE_SYS) && existsb (shared_slot flags ms) (timer_sys_table c)
  then 0 else new_slot_code clock c.

(** No slot is free when the table counts as full. *)
Lemma full_table c :
  wf c → num_sys_timers c = max_sys_timers c →
  list_find (λ s, negb (sys_created s)) (timer_sys_table c) = None.
Proof.
  intros [Hm _ _ Hn _] E. apply list_find_None, Forall_forall. intros s [i Hs]%list_elem_of_In%list_elem_of_lookup.
  destruct (sys_created s) eqn:Hc; [by intros []|]. exfalso.
  pose proof (list_count_alter sys_created (λ s, s <| sys_flags ::= λ f, bit_set f TIMER_STATE_CREATED |>) i _ s Hs) as Ha.
  pose proof (list_count_le sys_created
    (alter (λ s, s <| sys_flags ::= λ f, bit_set f TIMER_STATE_CREATED |>) i (timer_sys_table c))) as Hl.
  rewrite length_alter in Hl. rewrite Hc in Ha.
  assert (Hf : sys_created (s <| sys_flags ::= λ f, bit_set f TIMER_STATE_CREATED |>) = true)
    by (unfold sys_created, has_flag; cbn; by rewrite bit_set_test).
  rewrite Hf in Ha. cbn in Ha. lia.
Qed.

Lemma timer_sys_create_new_exec flags ms ms0 w :
  wf (w_st w) → s32 ms = s32 (slot_ms flags ms0) →
  wp (timer_sys_create_new flags ms) (λ o w', acquires flags ms0 (w_st w) o (w_st w') ∧
    fired (w_trace w') = fired (w_trace w) ∧
    new_slot_code (w_clock w) (w_st w) = match o with Some _ => 0 | None => -1 end) w.
Proof.
  intros Hwf Hms. unfold timer_sys_create_new. wp_step.
  destruct (num_sys_timers (w_st w) =? max_sys_timers (w_st w)) eqn:En.
  { wp_step. apply Z.eqb_eq in En. split_and!; [done..|]. unfold new_slot_code. by rewrite full_table. }
  apply Z.eqb_neq in En. unfold new_slot_code.
  destruct (list_find _ _) as [[i s]|] eqn:Ef.
  2:{ exfalso. apply list_find_None in Ef.
      destruct (list_count_lt sys_created (timer_sys_table (w_st w))) as (s & Hin & Hs).
      - destruct Hwf as [Hm ? ? Hn ?]. 
        pose proof (list_count_le sys_created (timer_sys_table (w_st w))). lia.
      - rewrite Forall_forall in Ef. apply (Ef s); [by apply list_elem_of_In|]. by rewrite Hs. }
  apply list_find_Some in Ef as (Hs & Hc & _). rewrite Is_true_true, negb_true_iff in Hc.
  unfold timer_sys_create_found. wp_step.
  set (rc := answer _ _). destruct (rc <? 0) eqn:Erc; wp_step.
  { split_and!; done. }
  timer_step. unfold timer_sys_create_done. timer_step. timer_step. wp_step.
  split_and!; [|done..].
  destruct w as [[max ns nsys tbl ts] ck tr]; cbn in *.
  eexists s, _, _. split_and!; [done| |reflexivity|].
  - split; unfold sys_created, has_flag; cbn; rewrite ?bit_set_test; try done.
    + pose proof (type_flag_only flags TIMER_STATE_STARTED) as E. unfold has_flag in E; cbn in E.
      rewrite E. done.
    + pose proof (type_flag_only flags TIMER_TYPE_SYS) as E. unfold has_flag in E; cbn in E. done.
  - rewrite Hc. cbn. rewrite u16_small; [lia|].
    pose proof (created_count_le _ Hwf) as Hn. cbn in Hn. lia.
Qed.

Lemma timer_sys_find_shared flags ms tbl :
  existsb (shared_slot flags ms) tbl
  = match timer_sys_find tbl (slot_ms flags ms) with Some _ => true | None => false end.
Proof.
  unfold timer_sys_find, shared_slot, timer_match_timeout.
  induction tbl as [|s tbl IH]; [done|]. cbn [existsb list_find].
  match goal with |- context [decide (Is_true ?b)] => destruct b eqn:E end.
  - by rewrite decide_True by done.
  - rewrite decide_False by (by intros []). rewrite orb_false_l, IH.
    by destruct (list_find _ tbl) as [[]|].
Qed.

Lemma timer_sys_create_exec flags ms w :
  wf (w_st w) →
  wp (timer_sys_create flags ms) (λ o w', acquires flags ms (w_st w) o (w_st w') ∧
    fired (w_trace w') = fired (w_trace w) ∧
    init_code (w_clock w) (w_st w) flags ms = match o with Some _ => 0 | None => -1 end) w.
Proof.
  intros Hwf. unfold timer_sys_create, init_code.
  destruct (has_flag flags TIMER_TYPE_SYS) eqn:Et.
  { apply timer_sys_create_new_exec; [done|]. unfold slot_ms. by rewrite Et. }
  wp_step. set (ms' := if 100 <? ms then 100 else ms).
  assert (Hms : ms' = slot_ms flags ms).
  { unfold slot_ms, ms'. rewrite Et. destruct (Z.ltb_spec 100 ms); lia. }
  rewrite timer_sys_find_shared, <- Hms.
  unfold timer_sys_find. destruct (list_find _ _) as [[i s]|] eqn:Ef; cbn.
  2:{ apply timer_sys_create_new_exec; [done|]. by f_equal. }
  apply list_find_Some in Ef as (Hs & Hc & _).
  rewrite Is_true_true, !andb_true_iff, negb_true_iff in Hc. destruct Hc as [[Hc Hty] Hm].
  unfold timer_match_timeout in Hm. apply Z.eqb_eq in Hm.
  unfold timer_sys_create_done. timer_step. wp_step. split_and!; [|done..].
  eexists s, _, (num_sys_timers (w_st w)). split_and!; [done| | |by rewrite Hc].
  2:{ destruct w as [[] ? ?]. reflexivity. }
  split; try done; cbn; [congruence|]. by rewrite Hm, Hms.
Qed.

Definition soft_init (rc : Z) (s : soft_timer) : soft_timer :=
  if rc =? 0 then SoftTimer true false else s.

Lemma timer_init_wf c t r i s s' flags ms nsoft nsys r' :
  wf c → timers c !! t = Some r → t_sys r = None → timer_sys_table c !! i = Some s →
  acquired s s' flags ms → nsys + Z.b2z (sys_created s) = num_sys_timers c + 1 →
  t_sys r' = Some i → started r' = false →
  wf (TimerCtx (max_sys_timers c) nsoft nsys
        (<[i := s']> (timer_sys_table c)) (<[t := r']> (timers c))).
Proof.
  intros Hwf Hr Ei Hs [Ah An Au Ac As _ _] Hnum Ei' Est'.
  pose proof (wf_sys _ Hwf _ _ Hs) as [Hnd Hh Hn Hu Hcr Hst].
  assert (Hin : t ∉ head s) by (rewrite Hh; intros (?&?&?&?); congruence).
  pose proof (map_count_update (attached i) (timers c) t r r' Hr) as Hm.
  replace (attached i r) with false in Hm
    by (symmetry; apply bool_decide_eq_false; congruence).
  replace (attached i r') with true in Hm by (symmetry; by apply bool_decide_eq_true).
  assert (Hlt : Z.of_nat (map_count (attached i) (<[t:=r']> (timers c))) < 2 ^ 32).
  { pose proof (map_count_le (attached i) (<[t:=r']> (timers c))) as Hle.
    rewrite map_size_insert_Some in Hle by eauto. pose proof (wf_size _ Hwf). lia. }
  cbn in Hm. assert (Hu' : users s' = Z.of_nat (map_count (attached i) (<[t:=r']> (timers c)))).
  { rewrite Au, Hu, u32_small; lia. }
  eapply wf_update; eauto.
  2:{ rewrite Ac. cbn. lia. }
  split; rewrite ?Ah, ?An; auto.
  - intros t'. rewrite Hh. destruct (decide (t' = t)) as [->|].
    + rewrite lookup_insert_eq, Hr. split; [intros (?&?&?&?)|intros (?&?&?&?)]; congruence.
    + by rewrite lookup_insert_ne by done.
  - rewrite Ac, Hu'. split; [lia|done].
Qed.

Lemma timer_init_spec t r flags ms w :
  wf (w_st w) → timers (w_st w) !! t = Some r → t_sys r = None →
  wp (timer_init t flags ms) (λ rc w', wf (w_st w') ∧ keeps (w_st w) (w_st w') ∧
     soft_view (w_st w') = alter (soft_init rc) t (soft_view (w_st w)) ∧
     fired (w_trace w') = fired (w_trace w) ∧
     rc = init_code (w_clock w) (w_st w) flags ms) w.
Proof.
  intros Hwf Hr Ei. unfold timer_init. timer_step. wp_step.
  eapply wp_mono; [by apply timer_sys_create_exec|].
  intros [i|] w' (Hacq & Hf & Hnone); cbn in Hacq.
  - destruct Hacq as (s & s' & nsys & Hs & Hacq & Hc & Hnum).
    destruct w' as [c' ck' tr']; cbn in *. subst c'.
    timer_step. wp_step. split_and!; [| | |done|by rewrite Hnone].
    + by apply (timer_init_wf (w_st w) t r i s s' flags ms _ nsys).
    + eapply keeps_update; [done..|]. destruct Hacq as [Ah An _ _ _ _ _].
      unfold sys_keeps, rest. rewrite Ah, An. done.
    + unfold soft_view; cbn. by apply (soft_view_update _ _ r).
  - wp_step. rewrite Hacq. split_and!; [done..| |done|by rewrite Hnone].
    by eapply soft_view_id.
Qed.

Lemma timer_stop_sys t r w :
  wf (w_st w) → timers (w_st w) !! t = Some r →
  wp (timer_stop t) (λ _ w', ∃ r', timers (w_st w') !! t = Some r' ∧ t_sys r' = t_sys r) w.
Proof.
  intros Hwf Hr. destruct (started r) eqn:Est.
  - pose proof (wf_timers _ Hwf _ _ Hr) as Ht. unfold timer_ok in Ht.
    destruct (t_sys r) as [i|] eqn:Ei; [|congruence].
    destruct (lookup_lt_is_Some_2 _ _ Ht) as [s Hs].
    eapply wp_mono; [by eapply timer_stop_exec|].
    intros _ w' (fl & -> & _). cbn. rewrite lookup_insert_eq. eauto.
  - unfold timer_stop. timer_step. rewrite Est. cbn. wp_step. eauto.
Qed.

(** Releasing the slot [i] of a stopped timer. *)
Definition released_sys (s : timer_sys) : timer_sys :=
  let s := s <| users ::= λ n, n - 1 |> in
  if users s =? 0 then s <| sys_flags ::= λ f, bit_clear f TIMER_STATE_CREATED |> else s.
Definition detached (r : timer) : timer :=
  r <| t_sys := None |> <| t_flags ::= λ f, bit_clear f TIMER_STATE_CREATED |>.

Lemma detach_wf c t r i s nsoft :
  wf c → timers c !! t = Some r → t_sys r = Some i → started r = false →
  timer_sys_table c !! i = Some s →
  wf (TimerCtx (max_sys_timers c) nsoft
        (if users s - 1 =? 0 then num_sys_timers c - 1 else num_sys_timers c)
        (<[i := released_sys s]> (timer_sys_table c)) (<[t := detached r]> (timers c))).
Proof.
  intros Hwf Hr Ei Est Hs.
  pose proof (wf_sys _ Hwf _ _ Hs) as [Hnd Hh Hn Hu Hcr Hst].
  assert (Hin : t ∉ head s) by (rewrite Hh; intros (?&?&?&?); congruence).
  assert (Hat : attached i r = true) by (by apply bool_decide_eq_true).
  pose proof (map_count_pos (attached i) _ _ _ Hr Hat) as Hpos.
  pose proof (map_count_update (attached i) (timers c) t r (detached r) Hr) as Hm.
  rewrite Hat in Hm. replace (attached i (detached r)) with false in Hm by done. cbn in Hm.
  assert (Hc : sys_created s = true) by (apply Hcr; lia).
  assert (Est' : started (detached r) = false).
  { unfold started, has_flag. cbn. rewrite bit_clear_test. unfold started, has_flag in Est.
    by rewrite Est, andb_false_r. }
  assert (Hrel : head (released_sys s) = head s ∧ next_to_process (released_sys s) = next_to_process s
                 ∧ users (released_sys s) = users s - 1
                 ∧ sys_created (released_sys s) = negb (users s - 1 =? 0)
                 ∧ has_flag (sys_flags (released_sys s)) TIMER_STATE_STARTED
                   = has_flag (sys_flags s) TIMER_STATE_STARTED).
  { unfold released_sys; cbn. unfold sys_created, has_flag in *.
    destruct (users s - 1 =? 0); cbn; rewrite ?bit_clear_test; cbn; auto. }
  destruct Hrel as (Rh & Rn & Ru & Rc & Rs).
  eapply wf_update; eauto.
  2:{ rewrite Rc, Hc. destruct (users s - 1 =? 0); cbn; lia. }
  split; rewrite ?Rh, ?Rn, ?Rs; auto.
  - intros t'. rewrite Hh. destruct (decide (t' = t)) as [->|].
    + rewrite lookup_insert_eq, Hr. split; [intros (?&?&?&?)|intros (?&?&?&?)]; congruence.
    + by rewrite lookup_insert_ne by done.
  - rewrite Ru. lia.
  - rewrite Rc, Ru. rewrite negb_true_iff, Z.eqb_neq. done.
Qed.

Lemma timer_destroy_spec t r w :
  wf (w_st w) → timers (w_st w) !! t = Some r →
  wp (timer_destroy t) (λ rc w', wf (w_st w') ∧ keeps (w_st w) (w_st w') ∧
     soft_view (w_st w') = alter (λ _, soft_none) t (soft_view (w_st w)) ∧
     fired (w_trace w') = fired (w_trace w) ∧
     rc = if st_created (soft_of r) then 0 else -1) w.
Proof.
  intros Hwf Hr. unfold timer_destroy. timer_step. wp_step.
  eapply wp_mono; [eapply wp_and; [by eapply timer_stop_spec|by eapply timer_stop_sys]|].
  intros _ w1 [(Hwf1 & Hk1 & Hv1 & Hf1) (r1 & Hr1 & Ei1)].
  destruct (view_lookup _ _ _ _ _ Hr Hv1) as (r1' & Hr1' & Hs1). simplify_eq.
  assert (Est1 : started r1 = false) by (by injection Hs1).
  destruct (t_sys r) as [i|] eqn:Ei.
  2:{ wp_step. split_and!; [done|done| |done|].
      - rewrite Hv1. eapply map_eq. intros j. destruct (decide (j = t)) as [->|].
        + rewrite !lookup_alter_eq. unfold soft_view. rewrite lookup_fmap, Hr. cbn.
          unfold soft_stop, soft_of, over, over_field. destruct r; cbn in *. by subst.
        + by rewrite !lookup_alter_ne.
      - done. }
  pose proof (wf_timers _ Hwf1 _ _ Hr1) as Ht. unfold timer_ok in Ht. rewrite Ei1 in Ht.
  destruct (lookup_lt_is_Some_2 _ _ Ht) as [s Hs].
  pose proof (detach_wf _ _ _ _ _ (u16 (num_soft_timers (w_st w1) - 1)) Hwf1 Hr1 Ei1 Est1 Hs) as Hd.
  pose proof (wf_sys _ Hwf1 _ _ Hs) as Hok.
  assert (Hat : attached i r1 = true) by (by apply bool_decide_eq_true).
  pose proof (map_count_pos (attached i) _ _ _ Hr1 Hat) as Hpos.
  pose proof (ok_users _ _ _ Hok) as Hu. pose proof (attached_count_le _ i Hwf1) as Hle.
  assert (Hu32 : u32 (users s - 1) = users s - 1) by (apply u32_small; lia).
  assert (Hcre : sys_created s = true) by (apply (ok_created _ _ _ Hok); lia).
  pose proof (created_count_le _ Hwf1) as Hn. pose proof (wf_num _ Hwf1) as Hnum.
  pose proof (list_count_pos sys_created _ _ _ Hs Hcre) as Hp.
  eapply wp_mono with (P := λ rc w', rc = 0 ∧ fired (w_trace w') = fired (w_trace w1) ∧
    w_st w' = TimerCtx (max_sys_timers (w_st w1)) (u16 (num_soft_timers (w_st w1) - 1))
        (if users s - 1 =? 0 then num_sys_timers (w_st w1) - 1 else num_sys_timers (w_st w1))
        (<[i := released_sys s]> (timer_sys_table (w_st w1)))
        (<[t := detached r1]> (timers (w_st w1)))).
  { destruct w1 as [[max ns nsys tbl ts] ck tr]; cbn in *.
    timer_step. unfold timer_sys_destroy. timer_step. timer_step. rewrite Hu32.
    unfold released_sys; cbn.
    destruct (users s - 1 =? 0); cbn; wp_step.
    - timer_step. wp_step. split_and!; [done..|].
      unfold over, over_field; cbn. rewrite (u16_small (nsys - 1)) by lia. by rewrite Hu32.
    - split_and!; [done..|]. unfold over, over_field; cbn. by rewrite Hu32. }
  intros rc w2 (-> & Hf2 & Hw2). rewrite Hw2. split_and!; [done| | |congruence|].
  - etrans; [done|]. eapply keeps_update; [done..|]. unfold sys_keeps, rest, released_sys; cbn.
    by destruct (users s - 1 =? 0).
  - unfold soft_view at 1; cbn. rewrite (soft_view_update _ _ r1 _ (λ _, soft_none)); [|done|].
    + fold (soft_view (w_st w1)). rewrite Hv1. eapply map_eq. intros j.
      destruct (decide (j = t)) as [->|]; [|by rewrite !lookup_alter_ne].
      rewrite !lookup_alter_eq. by destruct (soft_view (w_st w) !! t).
    + unfold soft_of, started, has_flag; cbn. rewrite bit_clear_test.
      unfold started, has_flag in Est1. by rewrite Est1, andb_false_r.
  - done.
Qed.

Definition soft_op (op : timer_op) (rc : Z) : soft_timer → soft_timer :=
  match op with
  | OpInit _ _ _ => soft_init rc
  | OpStart _ ms => soft_start ms
  | OpStop _ => soft_stop
  | OpRestart _ ms => soft_restart ms
  | OpDestroy _ => λ _, soft_none
  end.

Definition legal (op : timer_op) (c : timer_ctx) : bool :=
  match timers c !! op_timer op, op with
  | None, _ => false
  | Some r, OpInit _ _ _ => bool_decide (t_sys r = None)
  | Some _, _ => true
  end.

Lemma timer_op_spec op w :
  wf (w_st w) → legal op (w_st w) = true →
  wp (do_timer_op op) (λ rc w', wf (w_st w') ∧ keeps (w_st w) (w_st w') ∧
     soft_view (w_st w') = alter (soft_op op rc) (op_timer op) (soft_view (w_st w)) ∧
     fired (w_trace w') = fired (w_trace w)) w.
Proof.
  intros Hwf Hl. unfold legal in Hl.
  destruct (timers (w_st w) !! op_timer op) as [r|] eqn:Hr; [|done].
  destruct op as [t flags ms|t ms|t|t ms|t]; cbn in *.
  - apply bool_decide_eq_true in Hl. eapply wp_mono; [by eapply timer_init_spec|]. naive_solver.
  - eapply wp_mono; [by eapply timer_start_spec|]. naive_solver.
  - wp_step. eapply wp_mono; [by eapply timer_stop_spec|]. intros [] w' ?. by wp_step.
  - eapply wp_mono; [by eapply timer_restart_spec|]. naive_solver.
  - eapply wp_mono; [by eapply timer_destroy_spec|]. naive_solver.
Qed.

(** A client calls operations it is allowed to call. *)
Definition guarded (op : timer_op) : TM unit :=
  let! ok := gets (legal op) in
  when ok (do_timer_op op;; ret tt).

Lemma guarded_spec op w :
  wf (w_st w) →
  wp (guarded op) (λ _ w', wf (w_st w') ∧ keeps (w_st w) (w_st w') ∧
     fired (w_trace w') = fired (w_trace w)) w.
Proof.
  intros Hwf. unfold guarded. wp_step. destruct (legal op (w_st w)) eqn:Hl; cbn.
  - wp_step. eapply wp_mono; [by apply timer_op_spec|]. intros rc w' ?. wp_step. naive_solver.
  - by wp_step.
Qed.

Lemma client_spec ops w :
  wf (w_st w) →
  wp (for_each ops guarded) (λ _ w', wf (w_st w') ∧ keeps (w_st w) (w_st w') ∧
     fired (w_trace w') = fired (w_trace w)) w.
Proof.
  intros Hwf. apply (wp_for_each (λ _ w', wf (w_st w') ∧ keeps (w_st w) (w_st w') ∧
     fired (w_trace w') = fired (w_trace w))); [done|].
  intros op _ w1 (Hwf1 & Hk1 & Hf1). eapply wp_mono; [by apply guarded_spec|].
  intros _ w2 (? & ? & ?). split_and!; [done|by etrans|congruence].
Qed.

Lemma timer_pool_init_wf n ts :
  Z.of_nat n < 2 ^ 16 → (Z.of_nat (size ts) < 2 ^ 32) →
  (∀ t r, ts !! t = Some r → t_sys r = None ∧ started r = false) →
  wf (timer_pool_init n ts).
Proof.
  intros Hn Hsz Hts. split; cbn.
  - by rewrite length_replicate.
  - intros i s [-> _]%lookup_replicate. split; cbn; try done.
    + apply base.NoDup_nil_2.
    + intros t. split; [set_solver|]. intros (r&Hr&?&?). destruct (Hts _ _ Hr). congruence.
    + replace (map_count (attached i) ts) with 0%nat; [done|].
      symmetry. unfold map_count. apply map_size_empty_iff, map_eq. intros t.
      rewrite lookup_empty. apply map_lookup_filter_None. right. intros r Hr.
      destruct (Hts _ _ Hr) as [E _]. cbn. unfold attached. by rewrite E.
  - intros t r Hr. unfold timer_ok. by destruct (Hts _ _ Hr) as [-> ?].
  - replace (list_count _ _) with 0%nat; [done|]. clear. by induction n.
  - rewrite length_replicate. lia.
Qed.

(** ** The tick *)

(** A callback: it is recorded, then calls timer operations of its choice. *)
Definition callback (script : nat → timer_ctx → list timer_op) (t : nat) : TM unit :=
  let! _ := perform (TimerFunc t) in
  let! ops := gets (script t) in
  for_each ops guarded.

Lemma callback_spec script t w :
  wf (w_st w) →
  wp (callback script t) (λ _ w', wf (w_st w') ∧ keeps (w_st w) (w_st w') ∧
     fired (w_trace w') = t :: fired (w_trace w)) w.
Proof.
  intros Hwf. unfold callback. wp_step. eapply wp_mono; [by apply client_spec|].
  intros _ w' (?&?&?). done.
Qed.

Definition todo (s : timer_sys) (entry : link) : list nat :=
  match entry with LEntry e => from e (head s) | _ => [] end.
Definition entry_ok (s : timer_sys) (entry : link) : Prop :=
  match entry with LNull => False | LHead => True | LEntry e => e ∈ head s end.

Lemma link_next_spec s entry w :
  NoDup (head s) → entry_ok s entry →
  wp (link_next s entry) (λ n w', w' = w ∧ entry_ok s n ∧
     match entry with LEntry e => from e (head s) = e :: todo s n | _ => True end) w.
Proof.
  intros Hnd He. destruct entry as [| |e]; cbn in *; [done| |].
  - wp_step. split; [done|]. split; [|done]. destruct (head s) eqn:Eh; cbn; [done|]. rewrite Eh. by left.
  - apply list_elem_of_split in He as (l1 & l2 & E). rewrite E in *.
    apply list.NoDup_app in Hnd as (?&Hd&[??]%list.NoDup_cons).
    assert (e ∉ l1) by set_solver. rewrite list_next_mid by done.
    destruct l2 as [|e2 l2]; cbn; wp_step; cbn.
    + split; [done|]. by rewrite from_app.
    + rewrite E. split; [done|]. split; [set_solver|]. rewrite from_app by done. f_equal.
      replace (l1 ++ e :: e2 :: l2) with ((l1 ++ [e]) ++ e2 :: l2) by (by rewrite <- app_assoc).
      rewrite from_app; [done|]. set_solver.
Qed.

Lemma wf_set_next c i s n :
  wf c → timer_sys_table c !! i = Some s → entry_ok s n →
  wf (c <| timer_sys_table := <[i := s <| next_to_process := n |>]> (timer_sys_table c) |>).
Proof.
  intros [Hmax Hsys Htim Hnum Hsize] Hs Hn. split; cbn; rewrite ?length_insert; try done.
  - intros j sj. destruct (decide (j = i)) as [->|Hj].
    + rewrite list_lookup_insert_eq by (by eapply lookup_lt_Some). intros [= <-].
      destruct (Hsys i s Hs). split; cbn; try done. intros t ->. done.
    + rewrite list_lookup_insert_ne by done. auto.
  - intros t r Hr. specialize (Htim t r Hr). unfold timer_ok in *. by rewrite length_insert.
  - rewrite <- (list_alter_as_insert (λ _, s <| next_to_process := n |>) _ _ s) by done.
    pose proof (list_count_alter sys_created (λ _, s <| next_to_process := n |>) i _ s Hs) as H.
    unfold sys_created at 1 3 in H. cbn in H. lia.
Qed.

Lemma wf_set_ms c t r ms :
  wf c → timers c !! t = Some r →
  wf (c <| timers := <[t := r <| t_ms := ms |>]> (timers c) |>).
Proof.
  intros [Hmax Hsys Htim Hnum Hsize] Hr. split; cbn; try done.
  - intros j sj Hsj. destruct (Hsys j sj Hsj) as [? Hh ? Hu ??]. split; try done.
    + intros t'. rewrite Hh. destruct (decide (t' = t)) as [->|].
      * rewrite lookup_insert_eq, Hr. unfold started.
        split; intros (?&[= <-]&?&?); eexists; split; try done.
      * by rewrite lookup_insert_ne.
    + rewrite Hu. pose proof (map_count_update (attached j) (timers c) t r (r <| t_ms := ms |>) Hr) as Hc.
      unfold attached in Hc at 1 3. cbn in Hc. lia.
  - intros t' rt. destruct (decide (t' = t)) as [->|].
    + rewrite lookup_insert_eq. intros [= <-]. apply (Htim _ _ Hr).
    + rewrite lookup_insert_ne by done. apply Htim.
  - by rewrite map_size_insert_Some by eauto.
Qed.

Lemma keeps_lookup c c' i s :
  keeps c c' → timer_sys_table c !! i = Some s →
  ∃ s', timer_sys_table c' !! i = Some s' ∧ sys_keeps s s'.
Proof. intros [Hk _] Hs. destruct (Forall2_lookup_l _ _ _ _ _ Hk Hs) as (s'&?&?). eauto. Qed.

Lemma todo_sublist s entry : todo s entry `sublist_of` head s.
Proof. destruct entry; cbn; [apply sublist_nil_l..|apply from_sublist]. Qed.

(** One iteration, up to the next entry. *)
Lemma process_loop_safe script i count fuel s entry w :
  wf (w_st w) → timer_sys_table (w_st w) !! i = Some s → entry_ok s entry →
  (length (todo s entry) < fuel)%nat →
  wp (timer_process_loop (callback script) fuel i count entry) (λ _ w',
    wf (w_st w') ∧ dom (timers (w_st w')) = dom (timers (w_st w)) ∧
    length (timer_sys_table (w_st w')) = length (timer_sys_table (w_st w)) ∧
    ∃ l, fired (w_trace w') = rev l ++ fired (w_trace w) ∧ l `sublist_of` todo s entry) w.
Proof.
  revert s entry w. induction fuel as [|fuel IH]; intros s entry w Hwf Hs He Hfuel; [lia|].
  pose proof (wf_sys _ Hwf _ _ Hs) as Hok. cbn [timer_process_loop]. timer_step. wp_step.
  eapply wp_mono; [apply link_next_spec; [apply Hok|done]|]. intros n ? (-> & Hn & Htodo).
  timer_step.
  pose proof (wf_set_next _ _ _ _ Hwf Hs Hn) as Hwf1.
  destruct entry as [| |e]; [done| |].
  { wp_step. split_and!; [done|done|by apply length_insert|]. exists [].
    split; [done|apply sublist_nil_l]. }
  cbn in He. apply (ok_head _ _ _ Hok) in He as (r & Hr & Est & Ei).
  timer_step. timer_step. cbn. set (ms := s32 _).
  pose proof (wf_set_ms _ e r ms Hwf1 Hr) as Hwf2.
  set (w2 := World _ _ _).
  assert (Hs2 : timer_sys_table (w_st w2) !! i = Some (s <| next_to_process := n |>)).
  { cbn. apply list_lookup_insert_eq. by eapply lookup_lt_Some. }
  apply wp_bind. eapply wp_mono with (P := λ _ w3, wf (w_st w3) ∧ keeps (w_st w2) (w_st w3) ∧
    ∃ l, fired (w_trace w3) = rev l ++ fired (w_trace w) ∧ l `sublist_of` [e]).
  { destruct (ms <=? 0); cbn.
    2:{ wp_step. split_and!; [done|done|]. exists []. split; [done|apply sublist_nil_l]. }
    wp_step. eapply wp_mono.
    { eapply (timer_stop_spec e (r <| t_ms := ms |>)); [done|]. cbn. apply lookup_insert_eq. }
    intros _ w3 (Hwf3 & Hk3 & Hv3 & Hf3).
    destruct (view_lookup (w_st w2) (w_st w3) e (r <| t_ms := ms |>) soft_stop) as (r3 & Hr3 & _);
      [cbn; apply lookup_insert_eq|done|].
    timer_step. destruct (t_func r3); cbn.
    - eapply wp_mono; [by apply callback_spec|]. intros _ w4 (?&?&Hf4).
      split_and!; [done|by etrans|]. exists [e]. split; [|done]. cbn. by rewrite Hf4, Hf3.
    - wp_step. split_and!; [done|done|]. exists []. split; [by rewrite Hf3|apply sublist_nil_l]. }
  intros _ w3 (Hwf3 & Hk3 & l1 & Hf3 & Hl1).
  destruct (keeps_lookup _ _ _ _ Hk3 Hs2) as (s3 & Hs3 & Hrest & Hnull).
  timer_step. 
  assert (Hn3 : entry_ok s3 (next_to_process s3)).
  { destruct (next_to_process s3) as [| |e3] eqn:E3; cbn; [|done|].
    - apply Hnull; [|done]. cbn. by destruct n.
    - by apply (ok_next _ _ _ (wf_sys _ Hwf3 _ _ Hs3)). }
  cbn in Htodo.
  assert (Hsub : todo s3 (next_to_process s3) `sublist_of` todo s n).
  { etrans; [exact Hrest|]. unfold rest; cbn. by destruct n. }
  eapply wp_mono.
  { eapply (IH s3); [done|done|done|]. apply sublist_length in Hsub.
    cbn [todo] in Hfuel. rewrite Htodo in Hfuel. cbn in Hfuel. lia. }
  intros _ w4 (Hwf4 & Hd4 & Hlen4 & l2 & Hf4 & Hl2). split_and!; [done| | |].
  - rewrite Hd4. destruct Hk3 as [_ ->]. cbn. by apply dom_insert_lookup_L.
  - rewrite Hlen4. destruct Hk3 as [Hk3 _]. apply Forall2_length in Hk3. rewrite <- Hk3. cbn.
    by rewrite !length_insert.
  - exists (l1 ++ l2). split.
    + by rewrite Hf4, Hf3, rev_app_distr, app_assoc.
    + cbn [todo]. rewrite Htodo. apply (sublist_app l1 [e] l2 (todo s n)); [done|by etrans].
Qed.

(** ** The tick when the callbacks leave the timers alone *)

(** What a tick of [count] periods of [g] ms does to a timer. *)
Definition tick_timer (g count : Z) (r : timer) : timer :=
  let r := r <| t_ms := s32 (t_ms r - g * count) |> in
  if t_ms r <=? 0 then stopped r else r.
Definition due (g count : Z) (ts : gmap nat timer) (t : nat) : bool :=
  match ts !! t with Some r => s32 (t_ms r - g * count) <=? 0 | None => false end.
Definition calls_back (ts : gmap nat timer) (t : nat) : bool :=
  match ts !! t with Some r => t_func r | None => false end.

Definition first_link (l : list nat) : link :=
  match l with [] => LHead | e :: _ => LEntry e end.

Definition no_script : nat → timer_ctx → list timer_op := λ _ _, [].

(** The effect of the rest [k] of the list on the state. *)
Record ticked (i : nat) (count : Z) (pre k : list nat) (s : timer_sys) (c c' : timer_ctx) : Prop := {
  tick_wf : wf c';
  tick_sys : ∃ s', timer_sys_table c' !! i = Some s' ∧ sys_ms s' = sys_ms s ∧
      head s' = pre ++ filter (λ t, due (sys_ms s) count (timers c) t = false) k ∧
      has_flag (sys_flags s') TIMER_TYPE_SYS = has_flag (sys_flags s) TIMER_TYPE_SYS;
  tick_others : ∀ j, j ≠ i → timer_sys_table c' !! j = timer_sys_table c !! j;
  tick_timers : ∀ t, timers c' !! t = (if decide (t ∈ k) then tick_timer (sys_ms s) count else id) <$> timers c !! t;
}.

Lemma due_ext g count ts ts' (l : list nat) :
  (∀ t, t ∈ l → ts !! t = ts' !! t) →
  filter (λ t, due g count ts t = false) l = filter (λ t, due g count ts' t = false) l ∧
  filter (λ t, due g count ts t && calls_back ts t = true) l
  = filter (λ t, due g count ts' t && calls_back ts' t = true) l.
Proof.
  intros H. split; apply list_filter_ext_in; intros t Ht; unfold due, calls_back; by rewrite (H t Ht).
Qed.

Lemma ticked_cons i count pre e k s s3 c c3 c' r :
  e ∉ k → timer_sys_table c !! i = Some s → timers c !! e = Some r →
  sys_ms s3 = sys_ms s →
  has_flag (sys_flags s3) TIMER_TYPE_SYS = has_flag (sys_flags s) TIMER_TYPE_SYS →
  (∀ j, j ≠ i → timer_sys_table c3 !! j = timer_sys_table c !! j) →
  timers c3 = <[e := tick_timer (sys_ms s) count r]> (timers c) →
  ticked i count (if due (sys_ms s) count (timers c) e then pre else pre ++ [e]) k s3 c3 c' →
  ticked i count pre (e :: k) s c c'.
Proof.
  intros He Hs Hr Hms Hty Hoth Hts [Hwf (s' & Hs' & Hms' & Hhead & Hty') Hoth' Htim].
  assert (Hne : ∀ t, t ∈ k → timers c3 !! t = timers c !! t).
  { intros t Ht. rewrite Hts. apply lookup_insert_ne. by intros ->. }
  split; [done| | |].
  - exists s'. split_and!; [done|congruence| |congruence].
    rewrite Hhead, Hms, filter_cons. destruct (due_ext (sys_ms s) count _ _ k Hne) as [-> _].
    destruct (due (sys_ms s) count (timers c) e); cbn; [done|]. by rewrite <- app_assoc.
  - intros j Hj. rewrite Hoth', Hoth; done.
  - intros t. rewrite Htim, Hts, Hms. destruct (decide (t = e)) as [->|Hte].
    + rewrite decide_False, decide_True by (done || by left).
      rewrite lookup_insert_eq, Hr. done.
    + rewrite lookup_insert_ne by done. destruct (decide (t ∈ k)).
      * by rewrite decide_True by (by right).
      * by rewrite decide_False by set_solver.
Qed.

Lemma process_loop_inert i count fuel s pre k w :
  wf (w_st w) → timer_sys_table (w_st w) !! i = Some s → head s = pre ++ k →
  (length k < fuel)%nat →
  wp (timer_process_loop (callback no_script) fuel i count (first_link k)) (λ _ w',
    ticked i count pre k s (w_st w) (w_st w') ∧
    fired (w_trace w') =
      rev (filter (λ t, due (sys_ms s) count (timers (w_st w)) t && calls_back (timers (w_st w)) t = true) k)
      ++ fired (w_trace w)) w.
Proof.
  revert s pre k w. induction fuel as [|fuel IH]; intros s pre k w Hwf Hs Hk Hfuel; [lia|].
  pose proof (wf_sys _ Hwf _ _ Hs) as Hok. cbn [timer_process_loop]. timer_step. wp_step.
  destruct k as [|e k]; cbn [first_link link_next].
  - wp_step. timer_step. wp_step. rewrite app_nil_r in Hk. split; [|done].
    fold (first_link (head s)).
    assert (entry_ok s (first_link (head s))) as He.
    { destruct (head s) eqn:E; cbn; [done|]. rewrite E. by left. }
    split.
    + by apply wf_set_next.
    + cbn. eexists. split; [apply list_lookup_insert_eq; by eapply lookup_lt_Some|].
      cbn. by rewrite app_nil_r.
    + intros j Hj. cbn. by rewrite list_lookup_insert_ne.
    + intros t. rewrite decide_False by set_solver. cbn. by rewrite option_fmap_id.
  - assert (He : e ∈ head s) by (rewrite Hk; set_solver).
    pose proof He as (r & Hr & Est & Ei)%(ok_head _ _ _ Hok).
    assert (Hdue : due (sys_ms s) count (timers (w_st w)) e = (s32 (t_ms r - sys_ms s * count) <=? 0)).
    { unfold due. by rewrite Hr. }
    assert (Hcb : calls_back (timers (w_st w)) e = t_func r) by (unfold calls_back; by rewrite Hr).
    set (F := filter (λ t, due _ _ _ t && _ = true) (e :: k)).
    assert (HF : F = (if due (sys_ms s) count (timers (w_st w)) e && t_func r then [e] else []) ++
       filter (λ t, due (sys_ms s) count (timers (w_st w)) t && calls_back (timers (w_st w)) t = true) k).
    { unfold F. rewrite filter_cons, Hcb. by destruct (due _ _ _ _), (t_func r). }
    clearbody F.
    pose proof (ok_nodup _ _ _ Hok) as Hnd. rewrite Hk in Hnd.
    apply list.NoDup_app in Hnd as (Hnd1&Hd&[Hek Hnd2]%list.NoDup_cons).
    assert (Hep : e ∉ pre) by set_solver.
    rewrite Hk, list_next_mid by done.
    eapply wp_mono with (P := λ n w', n = first_link k ∧ w' = w).
    { destruct k; cbn; by wp_step. }
    intros n ? [-> ->]. timer_step.
    assert (entry_ok s (first_link k)) as Hn.
    { destruct k; cbn; [done|]. rewrite Hk. set_solver. }
    pose proof (wf_set_next _ _ _ _ Hwf Hs Hn) as Hwf1.
    timer_step. timer_step. cbn. set (ms := s32 _).
    pose proof (wf_set_ms _ e r ms Hwf1 Hr) as Hwf2.
    set (w2 := World _ _ _).
    assert (Hs2 : timer_sys_table (w_st w2) !! i = Some (s <| next_to_process := first_link k |>)).
    { cbn. apply list_lookup_insert_eq. by eapply lookup_lt_Some. }
    assert (Hext : ∀ t r', t ∈ k → timers (w_st w) !! t = (<[e := r']> (timers (w_st w)) : gmap nat timer) !! t).
    { intros t r' Ht. rewrite lookup_insert_ne; [done|]. by intros <-. }
    fold ms in Hdue. rewrite Hdue in HF. 
    destruct (ms <=? 0) eqn:Ems; cbn.
    + assert (Hlk : timers (w_st w2) !! e = Some (r <| t_ms := ms |>)) by apply lookup_insert_eq.
      wp_step. eapply wp_mono.
      { eapply timer_stop_exec; [exact Hwf2|exact Hlk|exact Est|exact Ei|exact Hs2]. }
      intros _ w3 (fl & Hw3 & Hf1 & Hf2 & Hf3 & Hf4).
      pose proof (timer_stop_wf _ _ _ _ _ fl Hwf2 Hlk Est Ei Hs2 Hf1 Hf3) as Hwf3.
      set (s3 := stopped_sys e (s <| next_to_process := first_link k |>) fl) in *.
      assert (Hhead3 : head s3 = pre ++ k) by (cbn; by rewrite Hk, list_remove_mid).
      assert (Hnext3 : next_to_process s3 = first_link k).
      { cbn. rewrite decide_False; [done|]. destruct k; cbn; [done|]. set_solver. }
      assert (Hs3 : timer_sys_table (w_st w3) !! i = Some s3).
      { rewrite Hw3. cbn. rewrite list_insert_insert_eq. apply list_lookup_insert_eq. by eapply lookup_lt_Some. }
      assert (Ht3 : timers (w_st w3) = <[e := tick_timer (sys_ms s) count r]> (timers (w_st w))).
      { rewrite Hw3. cbn. rewrite insert_insert_eq. f_equal. unfold tick_timer. cbn. fold ms. by rewrite Ems. }
      assert (Hcall : wp (when (t_func r) (callback no_script e))
        (λ _ w4, w_st w4 = w_st w3 ∧ fired (w_trace w4) = (if t_func r then [e] else []) ++ fired (w_trace w)) w3).
      { destruct (t_func r); cbn.
        - unfold callback. wp_step. split; [done|].
          transitivity (e :: fired (w_trace w3)); [done|]. by rewrite Hf4.
        - by wp_step. }
      apply wp_bind. eapply wp_get_timer; [rewrite Ht3; apply lookup_insert_eq|].
      replace (t_func (tick_timer (sys_ms s) count r)) with (t_func r)
        by (unfold tick_timer; cbn; by destruct (_ <=? 0)).
      eapply wp_mono; [exact Hcall|]. intros _ w4 (Hw4 & Hf5). rewrite <- Hw4 in Hs3, Ht3.
      wp_step. eapply wp_get_sys; [exact Hs3|]. rewrite Hnext3.
      eapply wp_mono; [apply (IH s3 pre k); [by rewrite Hw4, Hw3|done|done|cbn in Hfuel; lia]|].
      intros _ w5 (Htk & Hf6). split.
      * eapply (ticked_cons i count pre e k s s3 _ (w_st w4)); try done.
        -- intros j Hj. rewrite Hw4, Hw3. cbn. by rewrite !list_lookup_insert_ne.
        -- by rewrite Hdue.
      * rewrite Hf6, Hf5, HF. cbn [andb]. rewrite Ht3.
        destruct (due_ext (sys_ms s) count (timers (w_st w)) (<[e := tick_timer (sys_ms s) count r]> (timers (w_st w))) k)
          as [_ E]; [auto|]. cbn [sys_ms s3]. change (sys_ms s3) with (sys_ms s). rewrite <- E.
        rewrite rev_app_distr, <- app_assoc. by destruct (t_func r).
    + wp_step. eapply wp_get_sys; [exact Hs2|]. cbn.
      eapply wp_mono; [apply (IH (s <| next_to_process := first_link k |>) (pre ++ [e]) k w2); [exact Hwf2|exact Hs2|cbn; by rewrite <- app_assoc|cbn in Hfuel; lia]|].
      intros _ w5 (Htk & Hf6).
      assert (Ht : r <| t_ms := ms |> = tick_timer (sys_ms s) count r).
      { unfold tick_timer. cbn. fold ms. by rewrite Ems. }
      split.
      * eapply (ticked_cons i count pre e k s (s <| next_to_process := first_link k |>) _ (w_st w2)); try done.
        -- intros j Hj. cbn. by rewrite list_lookup_insert_ne.
        -- cbn. by rewrite Ht.
        -- by rewrite Hdue.
      * rewrite Hf6, HF. cbn [andb app]. 
        destruct (due_ext (sys_ms s) count (timers (w_st w)) (<[e := tick_timer (sys_ms s) count r]> (timers (w_st w))) k)
          as [_ E]; [auto|]. rewrite E. rewrite <- Ht. done.
Qed.

(** A tick of the OS timer [i], with enough fuel for its list. *)
Definition tick (script : nat → timer_ctx → list timer_op) (i : nat) (count : Z) : TM unit :=
  let! s := get_sys i in
  timer_process (callback script) (S (length (head s))) i count.

Lemma first_link_ok s : entry_ok s (first_link (head s)).
Proof. unfold entry_ok. destruct (head s) as [|e l]; [done|]. by left. Qed.

Lemma tick_safe script i count s w :
  wf (w_st w) → timer_sys_table (w_st w) !! i = Some s →
  wp (tick script i count) (λ _ w',
    wf (w_st w') ∧ dom (timers (w_st w')) = dom (timers (w_st w)) ∧
    length (timer_sys_table (w_st w')) = length (timer_sys_table (w_st w)) ∧
    ∃ l, fired (w_trace w') = rev l ++ fired (w_trace w) ∧ l `sublist_of` head s) w.
Proof.
  intros Hwf Hs. unfold tick, timer_process. do 2 (apply wp_bind; eapply wp_get_sys; [exact Hs|]).
  fold (first_link (head s)).
  assert (Htodo : todo s (first_link (head s)) = head s).
  { unfold todo. destruct (head s) as [|e l]; cbn; [done|]. by rewrite decide_True. }
  eapply wp_mono; [apply (process_loop_safe script i count _ s); [done|done| |]|].
  - apply first_link_ok.
  - rewrite Htodo. lia.
  - intros [] w'. by rewrite Htodo.
Qed.

Lemma tick_inert i count s w :
  wf (w_st w) → timer_sys_table (w_st w) !! i = Some s →
  wp (tick no_script i count) (λ _ w',
    ticked i count [] (head s) s (w_st w) (w_st w') ∧
    fired (w_trace w') =
      rev (filter (λ t, due (sys_ms s) count (timers (w_st w)) t && calls_back (timers (w_st w)) t = true) (head s))
      ++ fired (w_trace w)) w.
Proof.
  intros Hwf Hs. unfold tick, timer_process. do 2 (apply wp_bind; eapply wp_get_sys; [exact Hs|]).
  fold (first_link (head s)). eapply process_loop_inert; [done|done|done|lia].
Qed.

Fixpoint sum_list_Z (l : list Z) : Z :=
  match l with [] => 0 | c :: l => c + sum_list_Z l end.

(** A running timer under ticks that add up to [N] periods. *)
Definition elapsed (i t : nat) (r : timer) (g T N : Z) (w : world timer_call timer_ctx) (fl : list nat) : Prop :=
  wf (w_st w) ∧ ∃ s r' l, timer_sys_table (w_st w) !! i = Some s ∧ sys_ms s = g ∧
    timers (w_st w) !! t = Some r' ∧ t_sys r' = Some i ∧ t_func r' = t_func r ∧
    started r' = bool_decide (g * N < T) ∧
    (g * N < T → t_ms r' = T - g * N) ∧
    fired (w_trace w) = l ++ fl ∧ (t ∈ l ↔ T ≤ g * N ∧ t_func r = true).

Lemma stopped_started r : started (stopped r) = false.
Proof. unfold started, has_flag. cbn. by rewrite bit_clear_test. Qed.

Lemma tick_elapsed i t r g T N count w fl :
  0 ≤ g → 0 ≤ count → g * count ≤ 2 ^ 31 → T < 2 ^ 31 → 0 ≤ N →
  elapsed i t r g T N w fl →
  wp (tick no_script i count) (λ _ w', elapsed i t r g T (N + count) w' fl) w.
Proof.
  intros Hg Hc Hgc HT HN (Hwf & s & r1 & l & Hs & Hms & Hr1 & Ei & Hfn & Hst & Htm & Hfl & Hl).
  pose proof (wf_sys _ Hwf _ _ Hs) as Hok.
  eapply wp_mono; [by eapply tick_inert|].
  intros _ w' ([Hwf' (s' & Hs' & Hms' & _) _ Htim] & Hf).
  split; [done|]. specialize (Htim t). rewrite Hr1 in Htim. cbn in Htim.
  assert (Hin : t ∈ head s ↔ g * N < T).
  { rewrite (ok_head _ _ _ Hok). rewrite <- (bool_decide_eq_true (g * N < T)), <- Hst. naive_solver. }
  assert (Hgn : 0 ≤ g * N) by nia.
  exists s', (if decide (t ∈ head s) then tick_timer (sys_ms s) count r1 else r1),
    (rev (filter (λ t, due (sys_ms s) count (timers (w_st w)) t && calls_back (timers (w_st w)) t = true) (head s)) ++ l).
  split; [done|]. split; [congruence|]. split; [by destruct (decide (t ∈ head s))|].
  assert (Hfil : ∀ x, x ∈ rev (filter (λ t, due (sys_ms s) count (timers (w_st w)) t && calls_back (timers (w_st w)) t = true) (head s))
            ↔ x ∈ head s ∧ due (sys_ms s) count (timers (w_st w)) x && calls_back (timers (w_st w)) x = true).
  { intros x. rewrite list_elem_of_In, <- in_rev, <- list_elem_of_In, list_elem_of_filter. tauto. }
  assert (Hdue : due (sys_ms s) count (timers (w_st w)) t && calls_back (timers (w_st w)) t
                 = (s32 (t_ms r1 - g * count) <=? 0) && t_func r).
  { unfold due, calls_back. by rewrite Hr1, Hms, Hfn. }
  assert (Hnew : g * N < T → started r1 = true ∧ s32 (t_ms r1 - g * count) = T - g * (N + count)).
  { intros HgN. rewrite Hst, Htm by done. split; [by apply bool_decide_eq_true|].
    rewrite s32_small; [lia|]. nia. }
  assert (Hold : ¬ g * N < T → started r1 = false ∧ T ≤ g * (N + count)).
  { intros HgN. rewrite Hst. split; [by apply bool_decide_eq_false|]. nia. }
  destruct (decide (t ∈ head s)) as [Hi|Hi].
  - assert (HgN : g * N < T) by (by apply Hin). destruct (Hnew HgN) as [Hst1 Hms1].
    assert (Htick : t_sys (tick_timer (sys_ms s) count r1) = t_sys r1 ∧
                    t_func (tick_timer (sys_ms s) count r1) = t_func r1 ∧
                    t_ms (tick_timer (sys_ms s) count r1) = T - g * (N + count) ∧
                    started (tick_timer (sys_ms s) count r1) = bool_decide (g * (N + count) < T)).
    { unfold tick_timer. cbn. rewrite Hms, Hms1.
      destruct (Z.leb_spec (T - g * (N + count)) 0) as [Hle|Hle]; cbn; split_and!; try done.
      - rewrite stopped_started. symmetry. apply bool_decide_eq_false. lia.
      - unfold started in *. cbn. rewrite Hst1. symmetry. apply bool_decide_eq_true. lia. }
    destruct Htick as (-> & -> & -> & ->). split_and!; try done.
    + by rewrite Hf, Hfl, app_assoc.
    + rewrite elem_of_app, Hfil, Hl, Hdue, Hms1, andb_true_iff, Z.leb_le.
      split; [intros [(?&?&?)|(?&?)]|intros (?&?); left]; split_and!; try done; lia.
  - destruct Hold as [Hst1 Hge]; [by rewrite <- Hin|]. split_and!; try done.
    + rewrite Hst1. symmetry. apply bool_decide_eq_false. lia.
    + lia.
    + by rewrite Hf, Hfl, app_assoc.
    + rewrite elem_of_app, Hfil, Hl. rewrite Hin in Hi. naive_solver lia.
Qed.

Lemma ticks_elapsed i t r g T cs N w fl :
  0 ≤ g → T < 2 ^ 31 → 0 ≤ N → Forall (λ c, 0 ≤ c ∧ g * c ≤ 2 ^ 31) cs →
  elapsed i t r g T N w fl →
  wp (for_each cs (tick no_script i)) (λ _ w', elapsed i t r g T (N + sum_list_Z cs) w' fl) w.
Proof.
  intros Hg HT. revert N w. induction cs as [|c cs IH]; intros N w HN Hcs He; cbn.
  - wp_step. by rewrite Z.add_0_r.
  - apply list.Forall_cons in Hcs as [[Hc1 Hc2] Hcs]. wp_step.
    eapply wp_mono; [by apply (tick_elapsed i t r g T N)|]. intros [] w' He'.
    replace (N + (c + sum_list_Z cs)) with (N + c + sum_list_Z cs) by lia.
    apply IH; [lia|done|done].
Qed.
End specs.

(** ** Properties *)

(** The code that an operation on the timer [r] returns (0 for [timer_stop],
    which returns nothing). *)
Definition op_code `{!Platform timer_call} (op : timer_op) (clock : nat) (c : timer_ctx)
    (r : timer) : Z :=
  match op with
  | OpInit _ flags ms => init_code clock c flags ms
  | OpStart _ ms => start_code clock c r ms
  | OpStop _ => 0
  | OpRestart _ _ => if st_created (soft_of r) then Z.b2z (st_running (soft_of r)) else -1
  | OpDestroy _ => if st_created (soft_of r) then 0 else -1
  end.

(** C24: every operation of the timer API
    ([timer_init] only on a timer that is not attached), on a well-formed
    context, terminates without undefined behaviour, keeps the context well
    formed, acts on the timer it is given exactly as on an abstract timer that
    is created or not and running or not, leaves every other timer alone, runs
    no callback, and returns exactly [op_code].  [timer_init] returns 0 when a
    shared timer finds a system timer of its granularity, -1 when there is no
    free slot, and otherwise 0 or -1 as the OS grants the timer of the first
    free slot or not.  [timer_start] returns -1 for a timer not created,
    already started, or a null period; otherwise 0 when the OS timer runs
    already, and else 0 or -1 as the OS accepts to start it, once with the
    period asked for on a dedicated timer, periodically with the granularity
    on a shared one; the timer counts as running either way. *)
Theorem timer_api_refines `{!Platform timer_call} (op : timer_op)
    (w : world timer_call timer_ctx) (r : timer)
    (Hwf : wf (w_st w)) (Hr : timers (w_st w) !! op_timer op = Some r)
    (Hl : legal op (w_st w) = true) :
  wp (do_timer_op op) (λ rc w', wf (w_st w') ∧
    soft_view (w_st w') = alter (soft_op op rc) (op_timer op) (soft_view (w_st w)) ∧
    fired (w_trace w') = fired (w_trace w) ∧
    rc = op_code op (w_clock w) (w_st w) r) w.
Proof.
  unfold legal in Hl. rewrite Hr in Hl.
  destruct op as [t flags ms|t ms|t|t ms|t]; cbn in *.
  - apply bool_decide_eq_true in Hl. eapply wp_mono; [by eapply timer_init_spec|]. naive_solver.
  - eapply wp_mono; [by eapply timer_start_spec|]. naive_solver.
  - wp_step. eapply wp_mono; [by eapply timer_stop_spec|]. intros [] w' ?. wp_step. naive_solver.
  - eapply wp_mono; [by eapply timer_restart_spec|]. naive_solver.
  - eapply wp_mono; [by eapply timer_destroy_spec|]. naive_solver.
Qed.

Definition timer0 : timer := Timer 0 0 None true.
Definition demo_timers : gmap nat timer := {[ 0%nat := timer0; 1%nat := timer0 ]}.
Definition demo_ctx : timer_ctx := timer_pool_init 2 demo_timers.
#[local] Instance demo_platform : Platform timer_call := λ _ _, 0.

Lemma demo_wf : wf demo_ctx.
Proof.
  apply timer_pool_init_wf; [done|done|]. intros t r. unfold demo_timers.
  intros [[_ <-]|[_ [_ <-]%lookup_singleton_Some]]%lookup_insert_Some; done.
Qed.

Lemma timer_api_refines_witness :
  legal (OpInit 0 0 10) demo_ctx = true ∧
  wp (do_timer_op (OpInit 0 0 10)) (λ rc w', wf (w_st w') ∧
    soft_view (w_st w') = alter (soft_op (OpInit 0 0 10) rc) 0%nat (soft_view demo_ctx) ∧
    fired (w_trace w') = fired [] ∧
    rc = op_code (OpInit 0 0 10) 0 demo_ctx timer0)
    (World demo_ctx 0 []).
Proof.
  split; [reflexivity|].
  apply (timer_api_refines (OpInit 0 0 10) (World demo_ctx 0 []) timer0); [apply demo_wf|reflexivity..].
Defined.

Inductive timer_event :=
| EvClient (op : timer_op)
| EvTick (script : nat → timer_ctx → list timer_op) (i : nat) (count : Z).

Definition run_event `{!Platform timer_call} (ev : timer_event) : TM unit :=
  match ev with
  | EvClient op => guarded op
  | EvTick script i count =>
      let! n := gets (λ c, length (timer_sys_table c)) in
      when (i <? n)%nat (tick script i count)
  end.

(** From a freshly initialised pool, no sequence of API calls and OS timer
    ticks, whatever the callbacks call and whatever the OS answers, faults or
    diverges, and the context stays well formed. *)
Theorem timer_service_safe `{!Platform timer_call} (n : nat) (ts : gmap nat timer)
    (events : list timer_event)
    (Hn : Z.of_nat n < 2 ^ 16) (Hsize : Z.of_nat (size ts) < 2 ^ 32)
    (Hts : ∀ t r, ts !! t = Some r → t_sys r = None ∧ started r = false) :
  wp (for_each events run_event) (λ _ w', wf (w_st w') ∧ dom (timers (w_st w')) = dom ts)
    (World (timer_pool_init n ts) 0 []).
Proof.
  apply (wp_for_each (λ _ w', wf (w_st w') ∧ dom (timers (w_st w')) = dom ts)).
  { split; [by apply timer_pool_init_wf|done]. }
  intros ev l w [Hwf Hdom]. destruct ev as [op|script i count]; cbn [run_event].
  - eapply wp_mono; [by apply guarded_spec|]. intros _ w' (?&[_ Hd]&_). by rewrite Hd.
  - wp_step. destruct (Nat.ltb_spec i (length (timer_sys_table (w_st w)))) as [Hi|]; cbn; [|by wp_step].
    destruct (lookup_lt_is_Some_2 _ _ Hi) as [s Hs].
    eapply wp_mono; [by eapply tick_safe|]. intros _ w' (?&->&_). done.
Qed.

Lemma timer_service_safe_witness :
  wp (for_each [EvClient (OpInit 0 0 10); EvClient (OpStart 0 20);
                EvTick (λ t _, [OpStart t 20]) 0 3; EvClient (OpDestroy 0)] run_event)
    (λ _ w', wf (w_st w') ∧ dom (timers (w_st w')) = dom demo_timers) (World demo_ctx 0 []).
Proof.
  apply (timer_service_safe 2 demo_timers); [done|done|].
  intros t r. unfold demo_timers.
  intros [[_ <-]|[_ [_ <-]%lookup_singleton_Some]]%lookup_insert_Some; done.
Defined.

(** A tick of an OS timer visits the timers that were running on it when it
    fired, in list order, and runs the callback of each at most once, whatever
    the callbacks do (stop, destroy or restart any timer, the current and the
    next one included): a timer that a callback restarts waits for a later
    tick, and the iterator never reaches a removed timer. *)
Lemma timer_process_once `{!Platform timer_call} (script : nat → timer_ctx → list timer_op)
    (i : nat) (count : Z) (s : timer_sys) (w : world timer_call timer_ctx)
    (Hwf : wf (w_st w)) (Hs : timer_sys_table (w_st w) !! i = Some s) :
  wp (tick script i count) (λ _ w',
    ∃ l, fired (w_trace w') = rev l ++ fired (w_trace w) ∧ l `sublist_of` head s ∧ NoDup l) w.
Proof.
  eapply wp_mono; [by eapply tick_safe|]. intros _ w' (_&_&_&l&?&Hl). exists l.
  split_and!; [done|done|]. eapply sublist_NoDup; [|exact Hl]. apply (wf_sys _ Hwf _ _ Hs).
Qed.

(** A pool with timer 0 running and due at the first tick. *)
Definition demo_world : world timer_call timer_ctx :=
  match (do_timer_op (OpInit 0 0 10);; do_timer_op (OpStart 0 20)) (World demo_ctx 0 []) with
  | Done (_, w) => w
  | _ => World demo_ctx 0 []
  end.
Lemma demo_world_wf : wf (w_st demo_world).
Proof.
  assert (H : wp (guarded (OpInit 0 0 10);; guarded (OpStart 0 20)) (λ _ w', wf (w_st w')) (World demo_ctx 0 [])).
  { wp_step. eapply wp_mono; [apply guarded_spec, demo_wf|]. intros _ w (Hw&_).
    eapply wp_mono; [by apply guarded_spec|]. by intros _ ? (?&_). }
  by apply (wp_result _ _ _ tt demo_world) in H; [|vm_compute; reflexivity].
Qed.

(** A timer of [ms] ms started on a shared system timer of granularity [g]
    is still running after ticks that add up to [N] periods exactly when
    [g * N < ms + g], and its callback has then run iff it is no longer
    running: it never fires before [ms] have elapsed since the first tick, and
    at most one period late.  (Ticks whose callbacks leave the timers alone.) *)
Theorem shared_timer_expiry `{!Platform timer_call} (t i : nat) (ms : Z) (cs : list Z)
    (r : timer) (s : timer_sys) (w : world timer_call timer_ctx)
    (Hwf : wf (w_st w)) (Hr : timers (w_st w) !! t = Some r) (Hst : started r = false)
    (Hi : t_sys r = Some i) (Hs : timer_sys_table (w_st w) !! i = Some s)
    (Hshared : has_flag (sys_flags s) TIMER_TYPE_SYS = false)
    (Hg : 0 < sys_ms s) (Hms : 0 < ms) (Hmax : ms + sys_ms s < 2 ^ 31)
    (Hcs : Forall (λ c, 0 ≤ c ∧ sys_ms s * c ≤ 2 ^ 31) cs) :
  wp (let! _ := timer_start t ms in for_each cs (tick no_script i)) (λ _ w',
    ∃ r' l, timers (w_st w') !! t = Some r' ∧
      started r' = bool_decide (sys_ms s * sum_list_Z cs < ms + sys_ms s) ∧
      fired (w_trace w') = l ++ fired (w_trace w) ∧
      (t ∈ l ↔ ms + sys_ms s ≤ sys_ms s * sum_list_Z cs ∧ t_func r = true)) w.
Proof.
  wp_step. eapply wp_mono; [eapply (timer_start_exec t r i s ms); (done || lia)|].
  intros rc w1 (_ & fl & Hw1 & Hc & Hty & Hstarted & Hf).
  assert (Hwf1 : wf (w_st w1)) by (rewrite Hw1; by eapply timer_start_wf).
  eapply wp_mono; [apply (ticks_elapsed i t r (sys_ms s) (ms + sys_ms s) cs 0 w1 (fired (w_trace w1)));
    [lia|lia|lia|done|]|].
  - split; [done|]. exists (started_sys t ms s fl), (started_timer s ms r), [].
    rewrite Hw1. cbn. split_and!; try done.
    + apply list_lookup_insert_eq. by eapply lookup_lt_Some.
    + by rewrite Hshared.
    + apply lookup_insert_eq.
    + unfold started, has_flag. cbn. rewrite bit_set_test. symmetry. apply bool_decide_eq_true. rewrite Z.mul_0_r. lia.
    + intros _. unfold start_ms. rewrite Hshared. rewrite Z.mul_0_r, !s32_small by (rewrite ?s32_small; lia). lia.
    + split; [set_solver|]. lia.
  - rewrite Z.add_0_l. intros _ w' (_ & s' & r' & l & _ & _ & Hr' & _ & _ & Hs' & _ & Hf' & Hl).
    exists r', l. split_and!; try done. by rewrite Hf', Hf.
Qed.

(** Timer 0 attached to a 10 ms system timer. *)
Definition demo_world1 : world timer_call timer_ctx :=
  match do_timer_op (OpInit 0 0 10) (World demo_ctx 0 []) with
  | Done (_, w) => w
  | _ => World demo_ctx 0 []
  end.
Lemma demo_world1_wf : wf (w_st demo_world1).
Proof.
  assert (H : wp (guarded (OpInit 0 0 10)) (λ _ w', wf (w_st w')) (World demo_ctx 0 [])).
  { eapply wp_mono; [apply guarded_spec, demo_wf|]. by intros _ ? (?&_). }
  by apply (wp_result _ _ _ tt demo_world1) in H; [|vm_compute; reflexivity].
Qed.

Lemma shared_timer_expiry_witness :
  wp (let! _ := timer_start 0 25 in for_each [1; 2; 1] (tick no_script 0)) (λ _ w',
    ∃ r' l, timers (w_st w') !! 0%nat = Some r' ∧
      started r' = bool_decide (10 * sum_list_Z [1; 2; 1] < 25 + 10) ∧
      fired (w_trace w') = l ++ [] ∧ (0%nat ∈ l ↔ 25 + 10 ≤ 10 * sum_list_Z [1; 2; 1] ∧ true = true))
    demo_world1.
Proof.
  apply (shared_timer_expiry 0 0 25 [1; 2; 1] (Timer 0 2 (Some 0%nat) true)
    (TimerSys [] LNull 10 2 1) demo_world1 demo_world1_wf); try reflexivity.
  repeat constructor; cbn; lia.
Defined.
