(* ===== verification/MaapAddr.v ===== *)
(** * MAAP addresses and PDUs (common/random.c, maap/maap.c, maap/maap.h)

    The pure part of the MAC Address Acquisition Protocol: MAC addresses as
    numbers, the dynamic pool, conflicts between ranges of addresses, the
    comparison that decides which station yields, and the layout of the PDU. *)

From S2P Require Import Prelude.

(** ** Random numbers (common/random.c) *)

(** [(os_random() % (max + 1 - min)) + min], with C's [%]; [r] is the value of
    [os_random()]. *)
Definition random_range (r min max : Z) : Z := Z.rem r (max + 1 - min) + min.

Lemma random_range_bounds r min max :
  0 ≤ r → min ≤ max → min ≤ random_range r min max ∧ random_range r min max ≤ max.
Proof.
  intros Hr Hm. unfold random_range. pose proof (Z.rem_bound_pos r (max + 1 - min)). lia.
Qed.

(** ** MAC addresses *)

Record mac := Mac { mac0 : Z; mac1 : Z; mac2 : Z; mac3 : Z; mac4 : Z; mac5 : Z }.
#[export] Instance mac_eq_dec : EqDecision mac.
Proof. solve_decision. Defined.

Definition byte_ok (b : Z) : Prop := 0 ≤ b < 256.
Definition mac_ok (a : mac) : Prop :=
  byte_ok (mac0 a) ∧ byte_ok (mac1 a) ∧ byte_ok (mac2 a) ∧
  byte_ok (mac3 a) ∧ byte_ok (mac4 a) ∧ byte_ok (mac5 a).

Definition mac_zero : mac := Mac 0 0 0 0 0 0.
Definition MAAP_MULTICAST_ADDR : mac := Mac 0x91 0xE0 0xF0 0x00 0xFF 0x00.
Definition MAAP_DYNAMIC_POOL_MIN : mac := Mac 0x91 0xE0 0xF0 0x00 0x00 0x00.
Definition MAAP_DYNAMIC_POOL_MAX : mac := Mac 0x91 0xE0 0xF0 0x00 0xFD 0xFF.
Definition MAAP_DYNAMIC_POOL_SIZE : Z := 0xFDFF - 0x0000 + 1.

(** Six bytes, least significant first, as a number. *)
Definition lor_bytes (a b c d e f : Z) : Z :=
  Z.lor (Z.lor (Z.lor (Z.lor (Z.lor a (Z.shiftl b 8)) (Z.shiftl c 16)) (Z.shiftl d 24))
    (Z.shiftl e 32)) (Z.shiftl f 40).
Definition MAC_VALUE (a : mac) : Z :=
  lor_bytes (mac5 a) (mac4 a) (mac3 a) (mac2 a) (mac1 a) (mac0 a).
Definition REVERSE_MAC_VALUE (a : mac) : Z :=
  lor_bytes (mac0 a) (mac1 a) (mac2 a) (mac3 a) (mac4 a) (mac5 a).

Definition maap_is_in_dynamic_pool (start_address : mac) (count : Z) : bool :=
  let start_addr := MAC_VALUE start_address in
  let end_addr := u64 (u64 (start_addr + count) - 1) in
  let check_start := (MAC_VALUE MAAP_DYNAMIC_POOL_MIN <=? start_addr)
                     && (start_addr <=? MAC_VALUE MAAP_DYNAMIC_POOL_MAX) in
  let check_end := end_addr <=? MAC_VALUE MAAP_DYNAMIC_POOL_MAX in
  check_start && check_end.

(** [r] is the value of [os_random()]. *)
Definition maap_generate_address (r : Z) (count : Z) : mac :=
  let count := if MAAP_DYNAMIC_POOL_SIZE <? count then MAAP_DYNAMIC_POOL_SIZE else count in
  let max := u32 (MAAP_DYNAMIC_POOL_SIZE - count) in
  let rand_bytes := u16 (random_range r 0 max) in
  Mac 0x91 0xE0 0xF0 0x00 (Z.land (Z.shiftr rand_bytes 8) 0xFF) (Z.land rand_bytes 0xFF).

Record maap_conflict_info := ConflictInfo { start_addr : mac; ci_count : Z }.

(** [None] is the result false; the conflict information is written otherwise. *)
Definition are_ranges_in_conflict (addr_local : mac) (count_local : Z)
    (addr_pdu : mac) (count_pdu : Z) : option maap_conflict_info :=
  let tmp_addr_loc := MAC_VALUE addr_local in
  let tmp_addr_pdu := MAC_VALUE addr_pdu in
  let tmp_addr_loc_end := u64 (tmp_addr_loc + u32 (count_local - 1)) in
  let tmp_addr_pdu_end := u64 (tmp_addr_pdu + u32 (count_pdu - 1)) in
  let addr_conflict_end :=
    if tmp_addr_pdu_end <? tmp_addr_loc_end then tmp_addr_pdu_end else tmp_addr_loc_end in
  if (tmp_addr_pdu <? tmp_addr_loc) && (tmp_addr_loc <=? tmp_addr_pdu_end) then
    Some (ConflictInfo addr_local (u32 (u32 (addr_conflict_end - tmp_addr_loc) + 1)))
  else if (tmp_addr_loc <=? tmp_addr_pdu) && (tmp_addr_pdu <=? tmp_addr_loc_end) then
    Some (ConflictInfo addr_pdu (u32 (u32 (addr_conflict_end - tmp_addr_pdu) + 1)))
  else None.

Definition maap_compare_MAC (local_mac_address received_mac_address : mac) : bool :=
  REVERSE_MAC_VALUE local_mac_address <? REVERSE_MAC_VALUE received_mac_address.

(** ** The PDU *)

Definition MAAP_PROBE : Z := 1.
Definition MAAP_DEFEND : Z := 2.
Definition MAAP_ANNOUNCE : Z := 3.
Definition MAAP_VERSION : Z := 1.
Definition AVTP_SUBTYPE_MAAP : Z := 0xfe.
Definition AVTP_VERSION_0 : Z := 0.
Definition ETHERTYPE_AVTP : Z := 0x22f0.

(** The fields of [struct maap_pdu]; the two counts are in network order, as
    the struct holds them. *)
Record maap_pdu := MaapPdu {
  subtype : Z;
  message_type : Z;
  version : Z;
  sv : Z;
  control_data_length_msb : Z;
  maap_version : Z;
  control_data_length_lsb : Z;
  stream_id : Z;
  requested_start_address : mac;
  requested_count : Z;
  conflict_start_address : mac;
  conflict_count : Z;
}.
#[export] Instance eta_maap_pdu : Eta maap_pdu := λ r,
  MaapPdu (subtype r) (message_type r) (version r) (sv r) (control_data_length_msb r)
    (maap_version r) (control_data_length_lsb r) (stream_id r) (requested_start_address r)
    (requested_count r) (conflict_start_address r) (conflict_count r).

(** [MAAP_CONTROL_DATA_LENGTH_SET]: the fields have 3 and 8 bits. *)
Definition MAAP_CONTROL_DATA_LENGTH_SET (pdu : maap_pdu) (val : Z) : maap_pdu :=
  pdu <| control_data_length_msb := Z.land (Z.shiftr val 8) 7 |>
      <| control_data_length_lsb := Z.land val 0xff |>.

(** The layout of the packed struct on a little-endian target: its 28 bytes. *)
Definition mac_bytes (a : mac) : list Z := [mac0 a; mac1 a; mac2 a; mac3 a; mac4 a; mac5 a].
Definition u64_bytes (z : Z) : list Z :=
  (λ k, (z / 2 ^ (8 * k)) mod 256) <$> [0; 1; 2; 3; 4; 5; 6; 7].

Definition pdu_bytes (p : maap_pdu) : list Z :=
  [subtype p; message_type p + 16 * version p + 128 * sv p;
   control_data_length_msb p + 8 * maap_version p; control_data_length_lsb p]
  ++ u64_bytes (stream_id p) ++ mac_bytes (requested_start_address p)
  ++ u16_bytes (requested_count p) ++ mac_bytes (conflict_start_address p)
  ++ u16_bytes (conflict_count p).

(** Reading a buffer through a [struct maap_pdu *]; [mem i] is its i-th byte. *)
Definition read_mac (mem : nat → Z) (o : nat) : mac :=
  Mac (mem o) (mem (o + 1)%nat) (mem (o + 2)%nat) (mem (o + 3)%nat) (mem (o + 4)%nat) (mem (o + 5)%nat).
Definition read_u16 (mem : nat → Z) (o : nat) : Z := mem o + 256 * mem (o + 1)%nat.
Definition read_u64 (mem : nat → Z) (o : nat) : Z :=
  mem o + 2 ^ 8 * mem (o + 1)%nat + 2 ^ 16 * mem (o + 2)%nat + 2 ^ 24 * mem (o + 3)%nat
  + 2 ^ 32 * mem (o + 4)%nat + 2 ^ 40 * mem (o + 5)%nat + 2 ^ 48 * mem (o + 6)%nat
  + 2 ^ 56 * mem (o + 7)%nat.
Definition read_pdu (mem : nat → Z) : maap_pdu :=
  MaapPdu (mem 0%nat)
    (mem 1%nat mod 16) (mem 1%nat / 16 mod 8) (mem 1%nat / 128)
    (mem 2%nat mod 8) (mem 2%nat / 8) (mem 3%nat)
    (read_u64 mem 4) (read_mac mem 12) (read_u16 mem 18) (read_mac mem 20) (read_u16 mem 26).

(** A buffer that starts with the bytes [l]; [rest] is what it holds after. *)
Definition buffer (l : list Z) (rest : nat → Z) : nat → Z :=
  λ i, match l !! i with Some b => b | None => rest i end.

(** The fields of a PDU fit their widths. *)
Definition pdu_ok (p : maap_pdu) : Prop :=
  byte_ok (subtype p) ∧ 0 ≤ message_type p < 16 ∧ 0 ≤ version p < 8 ∧ 0 ≤ sv p < 2 ∧
  0 ≤ control_data_length_msb p < 8 ∧ 0 ≤ maap_version p < 32 ∧
  byte_ok (control_data_length_lsb p) ∧ 0 ≤ stream_id p < 2 ^ 64 ∧
  mac_ok (requested_start_address p) ∧ 0 ≤ requested_count p < 65536 ∧
  mac_ok (conflict_start_address p) ∧ 0 ≤ conflict_count p < 65536.

(** ** Lemmas *)

Lemma lor_shiftl_add a b n : 0 ≤ n → 0 ≤ a < 2 ^ n → Z.lor a (Z.shiftl b n) = a + 2 ^ n * b.
Proof.
  intros Hn Ha. assert (Hl : Z.land a (Z.shiftl b n) = 0).
  { apply Z.bits_inj'. intros k Hk. rewrite Z.bits_0, Z.land_spec.
    destruct (Z.lt_ge_cases k n).
    - rewrite (Z.shiftl_spec_low b n k) by lia. apply andb_false_r.
    - destruct (decide (a = 0)) as [->|]; [by rewrite Z.bits_0|].
      rewrite (Z.bits_above_log2 a k); [done|lia|].
      apply Z.log2_lt_pow2; [lia|]. pose proof (Z.pow_le_mono_r 2 n k). lia. }
  pose proof (Z.add_lor_land a (Z.shiftl b n)) as H. rewrite Hl in H.
  rewrite Z.shiftl_mul_pow2 in * by lia. lia.
Qed.

Lemma lor_bytes_sum a b c d e f :
  byte_ok a → byte_ok b → byte_ok c → byte_ok d → byte_ok e → byte_ok f →
  lor_bytes a b c d e f
  = a + 2 ^ 8 * b + 2 ^ 16 * c + 2 ^ 24 * d + 2 ^ 32 * e + 2 ^ 40 * f.
Proof.
  unfold byte_ok, lor_bytes. intros.
  rewrite (lor_shiftl_add a b) by lia. rewrite (lor_shiftl_add _ c) by lia.
  rewrite (lor_shiftl_add _ d) by lia. rewrite (lor_shiftl_add _ e) by lia.
  by rewrite (lor_shiftl_add _ f) by lia.
Qed.

Lemma MAC_VALUE_sum a : mac_ok a →
  MAC_VALUE a = mac5 a + 2 ^ 8 * mac4 a + 2 ^ 16 * mac3 a + 2 ^ 24 * mac2 a
                + 2 ^ 32 * mac1 a + 2 ^ 40 * mac0 a.
Proof. intros (?&?&?&?&?&?). by apply lor_bytes_sum. Qed.
Lemma REVERSE_MAC_VALUE_sum a : mac_ok a →
  REVERSE_MAC_VALUE a = mac0 a + 2 ^ 8 * mac1 a + 2 ^ 16 * mac2 a + 2 ^ 24 * mac3 a
                + 2 ^ 32 * mac4 a + 2 ^ 40 * mac5 a.
Proof. intros (?&?&?&?&?&?). by apply lor_bytes_sum. Qed.

Lemma MAC_VALUE_range a : mac_ok a → 0 ≤ MAC_VALUE a < 2 ^ 48.
Proof. intros H. rewrite MAC_VALUE_sum by done. unfold mac_ok, byte_ok in H. lia. Qed.

Lemma digit_inj a b x y : byte_ok a → byte_ok b → a + 256 * x = b + 256 * y → a = b ∧ x = y.
Proof. unfold byte_ok. lia. Qed.

Lemma REVERSE_MAC_VALUE_inj a b : mac_ok a → mac_ok b →
  REVERSE_MAC_VALUE a = REVERSE_MAC_VALUE b → a = b.
Proof.
  intros Ha Hb. rewrite !REVERSE_MAC_VALUE_sum by done.
  destruct a as [a0 a1 a2 a3 a4 a5], b as [b0 b1 b2 b3 b4 b5].
  unfold mac_ok in *; cbn in *. destruct Ha as (?&?&?&?&?&?), Hb as (?&?&?&?&?&?). intros Heq.
  assert (He0 : a0 + 256 * (a1 + 256 * (a2 + 256 * (a3 + 256 * (a4 + 256 * a5))))
             = b0 + 256 * (b1 + 256 * (b2 + 256 * (b3 + 256 * (b4 + 256 * b5))))) by lia.
  apply digit_inj in He0 as [-> He1]; [|done..]. apply digit_inj in He1 as [-> He2]; [|done..].
  apply digit_inj in He2 as [-> He3]; [|done..]. apply digit_inj in He3 as [-> He4]; [|done..].
  by apply digit_inj in He4 as [-> ->].
Qed.

(** The addresses of a range. *)
Definition in_range (x : Z) (a : mac) (n : Z) : Prop := MAC_VALUE a ≤ x < MAC_VALUE a + n.

Lemma pool_bounds :
  MAC_VALUE MAAP_DYNAMIC_POOL_MIN = 0x91E0F0000000 ∧ MAC_VALUE MAAP_DYNAMIC_POOL_MAX = 0x91E0F000FDFF.
Proof. split; reflexivity. Qed.

Lemma in_pool_spec a n : mac_ok a → 1 ≤ n < 2 ^ 32 →
  maap_is_in_dynamic_pool a n = true ↔
  ∀ x, in_range x a n → in_range x MAAP_DYNAMIC_POOL_MIN MAAP_DYNAMIC_POOL_SIZE.
Proof.
  intros Ha Hn. pose proof (MAC_VALUE_range a Ha) as Hv. destruct pool_bounds as [Hmin Hmax].
  unfold maap_is_in_dynamic_pool, in_range. rewrite Hmin, Hmax.
  rewrite (u64_small (_ + n)), u64_small by lia.
  rewrite !andb_true_iff, !Z.leb_le. unfold MAAP_DYNAMIC_POOL_SIZE. split.
  - intros. lia.
  - intros H. pose proof (H (MAC_VALUE a)). pose proof (H (MAC_VALUE a + n - 1)). lia.
Qed.

Lemma generate_address_value r n : 0 ≤ r → 1 ≤ n ≤ MAAP_DYNAMIC_POOL_SIZE →
  mac_ok (maap_generate_address r n) ∧
  MAC_VALUE (maap_generate_address r n)
  = 0x91E0F0000000 + Z.rem r (MAAP_DYNAMIC_POOL_SIZE - n + 1).
Proof.
  intros Hr Hn. unfold maap_generate_address.
  rewrite (proj2 (Z.ltb_ge MAAP_DYNAMIC_POOL_SIZE n)) by lia.
  unfold MAAP_DYNAMIC_POOL_SIZE in *. rewrite u32_small by lia.
  unfold random_range. rewrite Z.sub_0_r, Z.add_0_r.
  change (0xFDFF - 0x0000 + 1) with 65024 in *.
  pose proof (Z.rem_bound_pos r (65024 - n + 1)) as Hb. set (q := Z.rem r (65024 - n + 1)) in *.
  rewrite u16_small by lia.
  rewrite !(Z.land_ones _ 8), Z.shiftr_div_pow2 by lia. change (2 ^ 8) with 256.
  assert (Hok : mac_ok (Mac 0x91 0xE0 0xF0 0 (q / 256 mod 256) (q mod 256))).
  { unfold mac_ok, byte_ok; cbn. Z.div_mod_to_equations; lia. }
  split; [done|]. rewrite MAC_VALUE_sum by done. cbn. Z.div_mod_to_equations; lia.
Qed.

(** The last address of a range of at least one address does not wrap. *)
Lemma range_end a n : mac_ok a → 1 ≤ n < 2 ^ 32 →
  u64 (MAC_VALUE a + u32 (n - 1)) = MAC_VALUE a + n - 1.
Proof.
  intros Ha Hn. pose proof (MAC_VALUE_range a Ha).
  rewrite u32_small, u64_small by lia. lia.
Qed.

(** The conflict test, with the bounds of the ranges made explicit. *)
Lemma conflict_cases a n b m :
  mac_ok a → mac_ok b → 1 ≤ n < 2 ^ 32 → 1 ≤ m < 2 ^ 32 →
  match are_ranges_in_conflict a n b m with
  | Some i =>
      MAC_VALUE (start_addr i) = Z.max (MAC_VALUE a) (MAC_VALUE b) ∧
      ci_count i = Z.min (MAC_VALUE a + n) (MAC_VALUE b + m) - MAC_VALUE (start_addr i) ∧
      1 ≤ ci_count i ∧ (start_addr i = a ∨ start_addr i = b)
  | None => MAC_VALUE a + n ≤ MAC_VALUE b ∨ MAC_VALUE b + m ≤ MAC_VALUE a
  end.
Proof.
  intros Ha Hb Hn Hm. unfold are_ranges_in_conflict.
  rewrite !range_end by done. pose proof (MAC_VALUE_range a Ha). pose proof (MAC_VALUE_range b Hb).
  set (e := if _ <? _ then _ else _).
  assert (He : e = Z.min (MAC_VALUE a + n) (MAC_VALUE b + m) - 1).
  { unfold e. destruct (Z.ltb_spec (MAC_VALUE b + m - 1) (MAC_VALUE a + n - 1)); lia. }
  destruct (Z.ltb_spec (MAC_VALUE b) (MAC_VALUE a)), (Z.leb_spec (MAC_VALUE a) (MAC_VALUE b + m - 1)),
    (Z.leb_spec (MAC_VALUE a) (MAC_VALUE b)), (Z.leb_spec (MAC_VALUE b) (MAC_VALUE a + n - 1));
    cbn; try lia.
  all: rewrite (u32_small (e - _)), u32_small by lia.
  all: split_and!; [lia|lia|lia|auto].
Qed.

(** Two ranges of at least one address conflict exactly when they share an
    address; the conflict information then describes their whole intersection
    (its first address, which is the start of one of them, and its size). *)
Theorem conflict_is_intersection (a b : mac) (n m : Z)
    (Ha : mac_ok a) (Hb : mac_ok b) (Hn : 1 ≤ n < 2 ^ 32) (Hm : 1 ≤ m < 2 ^ 32) :
  match are_ranges_in_conflict a n b m with
  | Some i => 1 ≤ ci_count i ∧ (start_addr i = a ∨ start_addr i = b) ∧
      ∀ x, in_range x a n ∧ in_range x b m ↔ in_range x (start_addr i) (ci_count i)
  | None => ∀ x, ¬ (in_range x a n ∧ in_range x b m)
  end.
Proof.
  pose proof (conflict_cases a n b m Ha Hb Hn Hm) as H. unfold in_range.
  destruct (are_ranges_in_conflict a n b m) as [i|]; [|lia].
  destruct H as (Hs & Hc & H1 & H2). split_and!; [done|done|]. intros x. rewrite Hc, Hs. lia.
Qed.

Lemma conflict_is_intersection_witness :
  are_ranges_in_conflict (Mac 0x91 0xE0 0xF0 0 0 10) 8 (Mac 0x91 0xE0 0xF0 0 0 14) 8
  = Some (ConflictInfo (Mac 0x91 0xE0 0xF0 0 0 14) 4) ∧
  match are_ranges_in_conflict (Mac 0x91 0xE0 0xF0 0 0 10) 8 (Mac 0x91 0xE0 0xF0 0 0 14) 8 with
  | Some i => 1 ≤ ci_count i ∧
      (start_addr i = Mac 0x91 0xE0 0xF0 0 0 10 ∨ start_addr i = Mac 0x91 0xE0 0xF0 0 0 14) ∧
      ∀ x, in_range x (Mac 0x91 0xE0 0xF0 0 0 10) 8 ∧ in_range x (Mac 0x91 0xE0 0xF0 0 0 14) 8
           ↔ in_range x (start_addr i) (ci_count i)
  | None => ∀ x, ¬ (in_range x (Mac 0x91 0xE0 0xF0 0 0 10) 8 ∧ in_range x (Mac 0x91 0xE0 0xF0 0 0 14) 8)
  end.
Proof.
  split; [vm_compute; reflexivity|].
  apply conflict_is_intersection; unfold mac_ok, byte_ok; cbn; lia.
Defined.

(** Whatever the random source returns, the range of [n] addresses that
    [maap_generate_address] chooses lies in the dynamic pool, and every start
    address that leaves room for [n] addresses is chosen for some random value. *)
Theorem generate_address_pool (n : Z) (Hn : 1 ≤ n ≤ MAAP_DYNAMIC_POOL_SIZE) :
  (∀ r, 0 ≤ r → mac_ok (maap_generate_address r n) ∧
                maap_is_in_dynamic_pool (maap_generate_address r n) n = true) ∧
  (∀ a, mac_ok a → maap_is_in_dynamic_pool a n = true →
        ∃ r, 0 ≤ r ∧ MAC_VALUE (maap_generate_address r n) = MAC_VALUE a).
Proof.
  destruct pool_bounds as [Hmin _]. unfold MAAP_DYNAMIC_POOL_SIZE in Hn. split.
  - intros r Hr. destruct (generate_address_value r n Hr Hn) as [Hok Hv]. split; [done|].
    apply in_pool_spec; [done|lia|]. unfold in_range. rewrite Hv, Hmin.
    unfold MAAP_DYNAMIC_POOL_SIZE in *. change (0xFDFF - 0x0000 + 1) with 65024 in *.
    pose proof (Z.rem_bound_pos r (65024 - n + 1)). intros. lia.
  - intros a Ha Hp. rewrite in_pool_spec in Hp by (done || lia). unfold in_range in Hp.
    rewrite Hmin in Hp. unfold MAAP_DYNAMIC_POOL_SIZE in *.
    change (0xFDFF - 0x0000 + 1) with 65024 in *.
    pose proof (Hp (MAC_VALUE a)). pose proof (Hp (MAC_VALUE a + n - 1)).
    exists (MAC_VALUE a - 0x91E0F0000000). split; [lia|].
    destruct (generate_address_value (MAC_VALUE a - 0x91E0F0000000) n) as [_ ->]; [lia|done|].
    unfold MAAP_DYNAMIC_POOL_SIZE. change (0xFDFF - 0x0000 + 1) with 65024.
    rewrite Z.rem_small; lia.
Qed.

Lemma generate_address_pool_witness :
  maap_generate_address 70000 256 = Mac 0x91 0xE0 0xF0 0 20 111 ∧
  (∀ r, 0 ≤ r → mac_ok (maap_generate_address r 256) ∧
                maap_is_in_dynamic_pool (maap_generate_address r 256) 256 = true) ∧
  (∀ a, mac_ok a → maap_is_in_dynamic_pool a 256 = true →
        ∃ r, 0 ≤ r ∧ MAC_VALUE (maap_generate_address r 256) = MAC_VALUE a).
Proof.
  split; [vm_compute; reflexivity|]. apply generate_address_pool. vm_compute. split; congruence.
Defined.

(** The MAC comparison orders the stations totally and strictly, so of two
    stations with different addresses that receive each other's conflicting
    PDU, exactly one compares as the lower one and keeps its range. *)
Theorem compare_MAC_decides (a b c : mac) (Ha : mac_ok a) (Hb : mac_ok b) (Hc : mac_ok c) :
  maap_compare_MAC a a = false ∧
  (a ≠ b → maap_compare_MAC a b = negb (maap_compare_MAC b a)) ∧
  (maap_compare_MAC a b = true → maap_compare_MAC b c = true → maap_compare_MAC a c = true).
Proof.
  unfold maap_compare_MAC. split_and!.
  - apply Z.ltb_irrefl.
  - intros Hne. assert (REVERSE_MAC_VALUE a ≠ REVERSE_MAC_VALUE b).
    { intros E. by apply Hne, REVERSE_MAC_VALUE_inj. }
    destruct (Z.ltb_spec (REVERSE_MAC_VALUE a) (REVERSE_MAC_VALUE b)),
      (Z.ltb_spec (REVERSE_MAC_VALUE b) (REVERSE_MAC_VALUE a)); try done; lia.
  - rewrite !Z.ltb_lt. lia.
Qed.

Lemma compare_MAC_decides_witness :
  let a := Mac 0 1 2 3 4 5 in let b := Mac 9 1 2 3 4 4 in
  maap_compare_MAC a a = false ∧
  (a ≠ b → maap_compare_MAC a b = negb (maap_compare_MAC b a)) ∧
  (maap_compare_MAC a b = true → maap_compare_MAC b a = true → maap_compare_MAC a a = true).
Proof. apply compare_MAC_decides; unfold mac_ok, byte_ok; cbn; lia. Defined.

(** The PDU a station transmits is the PDU its peer reads: reading, through
    the struct, a buffer that starts with the 28 bytes of a PDU gives back
    every field, whatever follows in the buffer. *)
Theorem pdu_roundtrip (p : maap_pdu) (rest : nat → Z) (Hp : pdu_ok p) :
  length (pdu_bytes p) = 28%nat ∧ read_pdu (buffer (pdu_bytes p) rest) = p.
Proof.
  split; [done|].
  destruct p as [st mt vn s cm mv cl sid [a0 a1 a2 a3 a4 a5] rc [b0 b1 b2 b3 b4 b5] cc].
  destruct Hp as (?&?&?&?&?&?&?&Hsid&?&?&?&?). cbn in *.
  unfold read_pdu, pdu_bytes, buffer, read_u64, read_u16, read_mac; cbn -[Z.div Z.modulo Z.mul Z.pow].
  f_equal; try (Z.div_mod_to_equations; lia).
Qed.

Definition sample_pdu : maap_pdu :=
  MaapPdu AVTP_SUBTYPE_MAAP MAAP_PROBE 0 0 0 MAAP_VERSION 16 0
    (Mac 0x91 0xE0 0xF0 0 0x12 0x34) (htons 256) mac_zero (htons 0).
Lemma pdu_roundtrip_witness :
  length (pdu_bytes sample_pdu) = 28%nat ∧
  read_pdu (buffer (pdu_bytes sample_pdu) (λ _, 0xAA)) = sample_pdu.
Proof. apply pdu_roundtrip. unfold pdu_ok, mac_ok, byte_ok. vm_compute. repeat split; congruence. Defined.

(** With a null count the unsigned subtraction wraps: a PDU that requests no
    address is compared as if it requested 2^32 of them. *)
Lemma conflict_zero_count a n b : mac_ok a → mac_ok b → 1 ≤ n < 2 ^ 32 →
  is_Some (are_ranges_in_conflict a n b 0) ↔
  MAC_VALUE b < MAC_VALUE a + n ∧ MAC_VALUE a < MAC_VALUE b + 2 ^ 32.
Proof.
  intros Ha Hb Hn. unfold are_ranges_in_conflict. rewrite (range_end a n) by done.
  pose proof (MAC_VALUE_range a Ha). pose proof (MAC_VALUE_range b Hb).
  change (u32 (0 - 1)) with (2 ^ 32 - 1). rewrite (u64_small (MAC_VALUE b + _)) by lia.
  destruct (Z.ltb_spec (MAC_VALUE b) (MAC_VALUE a)),
    (Z.leb_spec (MAC_VALUE a) (MAC_VALUE b + (2 ^ 32 - 1))),
    (Z.leb_spec (MAC_VALUE a) (MAC_VALUE b)), (Z.leb_spec (MAC_VALUE b) (MAC_VALUE a + n - 1));
    cbn; (split; [intros [? ?]|intros [? ?]]; try done; try lia; eauto).
Qed.
