(* ===== verification/Maap.v ===== *)
(** * MAAP: address ranges and their state machines (maap/maap.c)

    The context with its ports and ranges, the state machine of a range, the
    network and IPC handlers, creation and removal of ranges, initialisation
    and exit.  Timers are the abstract timers of Timer.v. *)

From S2P Require Import Prelude Timer MaapAddr.

(** ** Data (maap/maap.h) *)

Inductive maap_event_t :=
| MAAP_EVENT_BEGIN
| MAAP_EVENT_RELEASE
| MAAP_EVENT_RESTART
| MAAP_EVENT_RESERVE_ADDRESS
| MAAP_EVENT_RPROBE
| MAAP_EVENT_RDEFEND
| MAAP_EVENT_RANNOUNCE
| MAAP_EVENT_PROBE_COUNT
| MAAP_EVENT_ANNOUNCE_TIMER
| MAAP_EVENT_PROBE_TIMER
| MAAP_EVENT_PORT_OPERATIONAL
| MAAP_EVENT_ERR.

Inductive maap_state_t := MAAP_STATE_INITIAL | MAAP_STATE_PROBE | MAAP_STATE_DEFEND.
#[export] Instance maap_state_eq_dec : EqDecision maap_state_t.
Proof. solve_decision. Defined.

Inductive maap_action_t :=
| MAAP_ACTION_NONE | MAAP_ACTION_GENERATE_ADDRESS | MAAP_ACTION_INIT_MAAP_PROBE_COUNT
| MAAP_ACTION_DEC_MAAP_PROBE_COUNT | MAAP_ACTION_COMPARE_MAC | MAAP_ACTION_PROBE_TIMER
| MAAP_ACTION_ANNOUNCE_TIMER | MAAP_ACTION_SPROBE | MAAP_ACTION_SDEFEND | MAAP_ACTION_SANNOUNCE.

(** [struct maap_sm]. *)
Record maap_sm_t := MaapSm {
  state : maap_state_t;
  action : maap_action_t;
  announce_timer : soft_timer;
  probe_timer : soft_timer;
  maap_probe_count : Z;
  send_conflict_indication : bool;
}.
#[export] Instance eta_maap_sm : Eta maap_sm_t := λ r,
  MaapSm (state r) (action r) (announce_timer r) (probe_timer r) (maap_probe_count r)
    (send_conflict_indication r).

Record maap_range := MaapRange {
  range_port : nat;              (* [port], an index in [maap->port] *)
  range_id : Z;
  mac_count : Z;
  start_mac_addr : mac;
  sm : maap_sm_t;
}.
#[export] Instance eta_maap_range : Eta maap_range := λ r,
  MaapRange (range_port r) (range_id r) (mac_count r) (start_mac_addr r) (sm r).

Record maap_port := MaapPort {
  port_id : Z;
  logical_port : Z;
  local_physical_mac : mac;
  initialized : bool;
  allocated_ranges_count : Z;
  range : option (list nat);     (* the list of ranges, by address; [None] for a
                                    zeroed, uninitialised list head *)
}.
#[export] Instance eta_maap_port : Eta maap_port := λ r,
  MaapPort (port_id r) (logical_port r) (local_physical_mac r) (initialized r)
    (allocated_ranges_count r) (range r).

Record maap_ctx := MaapCtx {
  port_max : Z;
  management_enabled : bool;
  port : list maap_port;
  ranges : gmap nat maap_range;  (* the allocated [struct maap_range]s *)
}.
#[export] Instance eta_maap_ctx : Eta maap_ctx := λ r,
  MaapCtx (port_max r) (management_enabled r) (port r) (ranges r).

Record maap_range_info := RangeInfo {
  src_physical_mac : mac;
  info_local_physical_mac : mac;
  requested_start_addr : mac;
  info_requested_count : Z;
  conflict : maap_conflict_info;
}.

Definition MAAP_PORT_MAX_RANGES_ALLOCATION : Z := 128.
Definition MAAP_NUMBER_OF_TIMERS : Z := 2.
Definition MAAP_SOFTWARE_TIMER_JITTER : Z := 10.
Definition MAAP_PROBE_RETRANSMITS_VAL : Z := 3.
Definition MAAP_PROBE_INTERVAL_VARIATION : Z := 100.
Definition MAAP_PROBE_TIMER_GRANULARITY : Z := 20.
Definition MAAP_PROBE_INTERVAL_MIN : Z := 500.
Definition MAAP_PROBE_INTERVAL_MAX : Z :=
  MAAP_PROBE_INTERVAL_MIN + MAAP_PROBE_INTERVAL_VARIATION - MAAP_PROBE_TIMER_GRANULARITY
  - MAAP_SOFTWARE_TIMER_JITTER.
Definition MAAP_ANNOUNCE_INTERVAL_VARIATION : Z := 2000.
Definition MAAP_ANNOUNCE_TIMER_GRANULARITY : Z := 100.
Definition MAAP_ANNOUNCE_INTERVAL_MIN : Z := 30000.
Definition MAAP_ANNOUNCE_INTERVAL_MAX : Z :=
  MAAP_ANNOUNCE_INTERVAL_MIN + MAAP_ANNOUNCE_INTERVAL_VARIATION - MAAP_ANNOUNCE_TIMER_GRANULARITY
  - MAAP_SOFTWARE_TIMER_JITTER.

Definition IPC_DST_ALL : Z := 0xffff.
Definition MAAP_STATUS_SUCCESS : Z := 0.
Definition MAAP_STATUS_FREE : Z := 1.
Definition MAAP_STATUS_CONFLICT : Z := 2.
Definition MAAP_STATUS_ERROR : Z := 3.
Definition MAAP_RESPONSE_SUCCESS : Z := 0.
Definition MAAP_RESPONSE_ERROR : Z := 1.

(** The messages sent on the IPC channels. *)
Inductive maap_ipc_msg :=
| CreateResponse (status port range_id count : Z) (base_address : mac)
| DeleteResponse (status port range_id : Z)
| StatusIndication (status port range_id count : Z) (base_address : mac).

(** The messages received. *)
Inductive maap_ipc_cmd :=
| GENAVB_MSG_MAAP_CREATE_RANGE (flag port_id range_id count : Z) (base_address : mac)
| GENAVB_MSG_MAAP_DELETE_RANGE (port_id range_id : Z)
| MaapIpcOther.

Inductive maap_ipc_channel :=
| MaapIpcRx | MaapIpcTx | MaapIpcTxSync
| MacServiceRx (i : nat) | MacServiceTx (i : nat).

Inductive maap_timer_id := ProbeTimer | AnnounceTimer.

(** The platform. *)
Inductive maap_call :=
| OsMalloc                                   (* 0: no memory *)
| OsFree
| OsRandom
| TimerCreate (r : nat) (k : maap_timer_id)  (* negative: error *)
| TimerStart (r : nat) (k : maap_timer_id) (ms : Z)
| NetTxAlloc (p : nat) (size : Z)            (* 0: no descriptor *)
| NetTx (p : nat) (dst : mac) (ethertype : Z) (data : list Z)
| NetTxFree (p : nat)
| NetRxFree (p : nat)
| IpcAlloc (c : maap_ipc_channel)            (* 0: no descriptor *)
| IpcTx (c : maap_ipc_channel) (dst : Z) (msg : maap_ipc_msg)
| IpcFree (c : maap_ipc_channel)
| NetGetLocalAddr (i : nat)                  (* negative: error; else the address *)
| NetRxInit (i : nat) | NetTxInit (i : nat) | NetRxExit (i : nat) | NetTxExit (i : nat)
| NetAddMulti (i : nat) (logical_port : Z) (a : mac)
| NetDelMulti (i : nat) (logical_port : Z) (a : mac)
| IpcRxInit (c : maap_ipc_channel) | IpcTxInit (c : maap_ipc_channel)
| IpcTxConnect (i : nat)
| IpcRxExit (c : maap_ipc_channel) | IpcTxExit (c : maap_ipc_channel).

Abbreviation MM := (M maap_call maap_ctx).

(** ** Memory accesses *)

Definition get_range (r : nat) : MM maap_range :=
  let! m := gets ranges in deref UseAfterFree (m !! r).
Definition set_range (r : nat) (f : maap_range → maap_range) : MM unit :=
  modify (λ c, c <| ranges ::= alter f r |>).
Definition set_sm (r : nat) (f : maap_sm_t → maap_sm_t) : MM unit :=
  set_range r (λ x, x <| sm ::= f |>).
Definition get_port (p : nat) : MM maap_port :=
  let! l := gets port in deref OutOfBounds (l !! p).
Definition set_port (p : nat) (f : maap_port → maap_port) : MM unit :=
  modify (λ c, c <| port ::= alter f p |>).
(** [list_first(&port->range)] and the entries that follow: NULL pointers when
    the head was never initialised. *)
Definition port_ranges (p : nat) (c : maap_ctx) : list nat :=
  match port c !! p with Some x => default [] (range x) | None => [] end.
Definition get_ranges (p : nat) : MM (list nat) :=
  let! q := get_port p in deref NullDeref (range q).

Section maap.
Context `{!Platform maap_call}.

(** ** Timers of a range *)

Definition timer_stop (r : nat) (k : maap_timer_id) : MM unit :=
  let! _ := get_range r in
  match k with
  | ProbeTimer => set_sm r (λ s, s <| probe_timer ::= soft_stop |>)
  | AnnounceTimer => set_sm r (λ s, s <| announce_timer ::= soft_stop |>)
  end.

Definition timer_start (r : nat) (k : maap_timer_id) (ms : Z) : MM unit :=
  let! _ := get_range r in
  let! _ := perform (TimerStart r k ms) in
  match k with
  | ProbeTimer => set_sm r (λ s, s <| probe_timer ::= soft_start ms |>)
  | AnnounceTimer => set_sm r (λ s, s <| announce_timer ::= soft_start ms |>)
  end.

Definition timer_destroy (r : nat) (k : maap_timer_id) : MM unit :=
  let! _ := get_range r in
  match k with
  | ProbeTimer => set_sm r (λ s, s <| probe_timer := soft_none |>)
  | AnnounceTimer => set_sm r (λ s, s <| announce_timer := soft_none |>)
  end.

Definition timer_create (r : nat) (k : maap_timer_id) : MM Z :=
  let! rc := perform (TimerCreate r k) in
  let rc := if rc <? 0 then -1 else 0 in
  match k with
  | ProbeTimer => set_sm r (λ s, s <| probe_timer ::= soft_init rc |>)
  | AnnounceTimer => set_sm r (λ s, s <| announce_timer ::= soft_init rc |>)
  end;;
  ret rc.

(** ** Queries *)

Definition get_range_by_id (p : nat) (id : Z) : MM (option nat) :=
  let! l := get_ranges p in
  list_search l (λ r, let! x := get_range r in ret (range_id x =? id)).

Definition is_range_id_used (p : nat) (id : Z) : MM bool :=
  let! o := get_range_by_id p id in
  ret (match o with Some _ => true | None => false end).

Definition check_internal_conflict (p : nat) (new_range : maap_range) : MM bool :=
  let! l := get_ranges p in
  let! o := list_search l (λ r,
    let! x := get_range r in
    ret (match are_ranges_in_conflict (start_mac_addr x) (mac_count x)
                 (start_mac_addr new_range) (mac_count new_range) with
         | Some _ => true
         | None => false
         end)) in
  ret (match o with Some _ => true | None => false end).

Definition logical_to_maap_port (c : maap_ctx) (logical : Z) : option nat :=
  fst <$> list_find (λ x, logical = logical_port x) (take (Z.to_nat (port_max c)) (port c)).

Definition maap_port_to_logical (c : maap_ctx) (p : nat) : option Z := logical_port <$> port c !! p.

(** ** IPC transmission *)

Definition maap_ipc_send (ipc : maap_ipc_channel) (ipc_dst : Z) (msg : maap_ipc_msg) : MM unit :=
  let! desc := perform (IpcAlloc ipc) in
  if desc =? 0 then ret tt else
  let! rc := perform (IpcTx ipc ipc_dst msg) in
  when (rc <? 0) (let! _ := perform (IpcFree ipc) in ret tt).

Definition maap_ipc_create_response ipc ipc_dst (logical id : Z) (base_addr : mac) (count status : Z) : MM unit :=
  maap_ipc_send ipc ipc_dst (CreateResponse (u16 status) (u16 logical) id (u16 count) base_addr).

Definition maap_ipc_delete_response ipc ipc_dst (logical id status : Z) : MM unit :=
  maap_ipc_send ipc ipc_dst (DeleteResponse (u16 status) (u16 logical) id).

Definition maap_ipc_indication ipc ipc_dst (logical id : Z) (base_addr : mac) (count status : Z) : MM unit :=
  maap_ipc_send ipc ipc_dst (StatusIndication (u16 status) (u16 logical) id (u16 count) base_addr).

(** ** Network transmission *)

Definition maap_build_pdu (x : maap_range) (msg_type : Z) (range_info : option maap_range_info) : maap_pdu :=
  let pdu := MaapPdu AVTP_SUBTYPE_MAAP msg_type AVTP_VERSION_0 0 0 MAAP_VERSION 0 0
               (start_mac_addr x) (htons (u16 (mac_count x))) mac_zero (htons 0) in
  let pdu := MAAP_CONTROL_DATA_LENGTH_SET pdu 16 in
  match range_info with
  | Some i =>
      if msg_type =? MAAP_DEFEND then
        pdu <| requested_start_address := requested_start_addr i |>
            <| requested_count := htons (u16 (info_requested_count i)) |>
            <| conflict_start_address := start_addr (conflict i) |>
            <| conflict_count := htons (u16 (ci_count (conflict i))) |>
      else pdu
  | None => pdu
  end.

Definition maap_net_transmit (p r : nat) (msg_type : Z) (range_info : option maap_range_info) : MM unit :=
  let! desc := perform (NetTxAlloc p (14 + 28)) in
  if desc =? 0 then ret tt else
  let dst := match range_info with
             | Some i => if msg_type =? MAAP_DEFEND then src_physical_mac i else MAAP_MULTICAST_ADDR
             | None => MAAP_MULTICAST_ADDR
             end in
  let! x := get_range r in
  let! rc := perform (NetTx p dst ETHERTYPE_AVTP (pdu_bytes (maap_build_pdu x msg_type range_info))) in
  when (rc <? 0) (let! _ := perform (NetTxFree p) in ret tt).

(** ** Removal of ranges *)

Definition maap_range_free (r : nat) : MM unit :=
  timer_destroy r ProbeTimer;;
  timer_destroy r AnnounceTimer;;
  let! x := get_range r in
  let! _ := get_port (range_port x) in
  set_port (range_port x) (λ q, q <| allocated_ranges_count ::= λ n, u32 (n - 1) |>);;
  modify (λ c, c <| ranges ::= delete r |>);;
  let! _ := perform OsFree in
  ret tt.

Definition maap_remove_all_range_on_port (p : nat) : MM unit :=
  let! _ := get_ranges p in
  list_each (port_ranges p) (λ r,
    set_port p (λ q, q <| range ::= fmap (list_remove r) |>);;
    maap_range_free r).

(** The result: [None] for -1, else the address and count written for the caller. *)
Definition maap_remove_range_on_port (p : nat) (id : Z) : MM (option (mac * Z)) :=
  let! l := get_ranges p in
  let! o := list_search l (λ r, let! x := get_range r in ret (range_id x =? id)) in
  match o with
  | None => ret None
  | Some r =>
      let! x := get_range r in
      set_port p (λ q, q <| range ::= fmap (list_remove r) |>);;
      maap_range_free r;;
      ret (Some (start_mac_addr x, mac_count x))
  end.

Definition maap_release (p r : nat) : MM unit :=
  let! x := get_range r in
  let! q := get_port p in
  let! res := maap_remove_range_on_port p (range_id x) in
  match res with
  | None => maap_ipc_indication MaapIpcTx IPC_DST_ALL (port_id q) (range_id x) mac_zero 0 MAAP_STATUS_ERROR
  | Some (addr, count) =>
      maap_ipc_indication MaapIpcTx IPC_DST_ALL (port_id q) (range_id x) addr (u16 count) MAAP_STATUS_FREE
  end.

(** ** The state machine

    One definition per event; a result [Some e] is [event = e; goto start]. *)

Definition set_state (r : nat) (st : maap_state_t) : MM unit := set_sm r (λ s, s <| state := st |>).

(** The random intervals, [(unsigned int)os_abs((int)rand_interval)]. *)
Definition random_interval (r min max : Z) : Z := u32 (Z.abs (s32 (random_range r min max))).

Definition maap_sprobe (p r : nat) : MM unit :=
  maap_net_transmit p r MAAP_PROBE None;;
  let! rnd := perform OsRandom in
  let interval := random_interval rnd MAAP_PROBE_INTERVAL_MIN MAAP_PROBE_INTERVAL_MAX in
  timer_stop r ProbeTimer;;
  timer_start r ProbeTimer interval.

Definition maap_sannounce (p r : nat) : MM unit :=
  let! x := get_range r in
  maap_net_transmit (range_port x) r MAAP_ANNOUNCE None;;
  let! rnd := perform OsRandom in
  let interval := random_interval rnd MAAP_ANNOUNCE_INTERVAL_MIN MAAP_ANNOUNCE_INTERVAL_MAX in
  timer_stop r AnnounceTimer;;
  timer_start r AnnounceTimer interval.

Abbreviation Next := (MM (option maap_event_t)).
Definition goto (e : maap_event_t) : Next := ret (Some e).
Definition stay : Next := ret None.

Definition maap_sm_begin (st : maap_state_t) : Next :=
  match st with
  | MAAP_STATE_INITIAL => goto MAAP_EVENT_RESERVE_ADDRESS
  | _ => stay
  end.

Definition maap_sm_release (p r : nat) (st : maap_state_t) : Next :=
  match st with
  | MAAP_STATE_PROBE => timer_stop r ProbeTimer;; maap_release p r;; stay
  | MAAP_STATE_DEFEND => timer_stop r AnnounceTimer;; maap_release p r;; stay
  | MAAP_STATE_INITIAL => stay
  end.

Definition maap_sm_restart (p r : nat) (st : maap_state_t) : Next :=
  match st with
  | MAAP_STATE_INITIAL =>
      let! x := get_range r in
      let! q := get_port p in
      when (send_conflict_indication (sm x))
        (maap_ipc_indication MaapIpcTx IPC_DST_ALL (port_id q) (range_id x)
           (start_mac_addr x) (u16 (mac_count x)) MAAP_STATUS_CONFLICT;;
         set_sm r (λ s, s <| send_conflict_indication := false |>));;
      let! rnd := perform OsRandom in
      set_range r (λ x, x <| start_mac_addr := maap_generate_address rnd (mac_count x) |>);;
      goto MAAP_EVENT_RESERVE_ADDRESS
  | _ => stay
  end.

Definition maap_sm_reserve_address (p r : nat) (st : maap_state_t) : Next :=
  match st with
  | MAAP_STATE_INITIAL =>
      set_sm r (λ s, s <| maap_probe_count := MAAP_PROBE_RETRANSMITS_VAL |>);;
      maap_sprobe p r;;
      set_state r MAAP_STATE_PROBE;;
      stay
  | _ => stay
  end.

Definition maap_sm_rprobe (p r : nat) (st : maap_state_t) (range_info : option maap_range_info) : Next :=
  match st with
  | MAAP_STATE_PROBE =>
      let! i := deref NullDeref range_info in
      if negb (maap_compare_MAC (info_local_physical_mac i) (src_physical_mac i)) then
        timer_stop r ProbeTimer;;
        set_state r MAAP_STATE_INITIAL;;
        goto MAAP_EVENT_RESTART
      else stay
  | MAAP_STATE_DEFEND => maap_net_transmit p r MAAP_DEFEND range_info;; stay
  | MAAP_STATE_INITIAL => stay
  end.

(** [MAAP_EVENT_RDEFEND] and [MAAP_EVENT_RANNOUNCE]. *)
Definition maap_sm_rdefend_rannounce (r : nat) (st : maap_state_t) (range_info : option maap_range_info) : Next :=
  match st with
  | MAAP_STATE_PROBE =>
      timer_stop r ProbeTimer;;
      set_state r MAAP_STATE_INITIAL;;
      goto MAAP_EVENT_RESTART
  | MAAP_STATE_DEFEND =>
      let! i := deref NullDeref range_info in
      if negb (maap_compare_MAC (info_local_physical_mac i) (src_physical_mac i)) then
        timer_stop r AnnounceTimer;;
        set_state r MAAP_STATE_INITIAL;;
        goto MAAP_EVENT_RESTART
      else stay
  | MAAP_STATE_INITIAL => stay
  end.

Definition maap_sm_probe_count (p r : nat) (st : maap_state_t) : Next :=
  match st with
  | MAAP_STATE_PROBE =>
      timer_stop r ProbeTimer;;
      let! x := get_range r in
      let! q := get_port p in
      maap_ipc_indication MaapIpcTx IPC_DST_ALL (port_id q) (range_id x)
        (start_mac_addr x) (u16 (mac_count x)) MAAP_STATUS_SUCCESS;;
      set_sm r (λ s, s <| send_conflict_indication := true |>);;
      maap_sannounce p r;;
      set_state r MAAP_STATE_DEFEND;;
      stay
  | _ => stay
  end.

Definition maap_sm_announce_timer (p r : nat) (st : maap_state_t) : Next :=
  match st with
  | MAAP_STATE_DEFEND => maap_sannounce p r;; stay
  | _ => stay
  end.

Definition maap_sm_probe_timer (p r : nat) (st : maap_state_t) : Next :=
  match st with
  | MAAP_STATE_PROBE =>
      maap_sprobe p r;;
      set_sm r (λ s, s <| maap_probe_count ::= λ n, u32 (n - 1) |>);;
      let! x := get_range r in
      if maap_probe_count (sm x) <=? 0 then goto MAAP_EVENT_PROBE_COUNT else stay
  | _ => stay
  end.

Definition maap_sm_port_operational (r : nat) (st : maap_state_t) : Next :=
  match st with
  | MAAP_STATE_INITIAL => goto MAAP_EVENT_RESERVE_ADDRESS
  | MAAP_STATE_PROBE =>
      timer_stop r ProbeTimer;;
      set_state r MAAP_STATE_INITIAL;;
      goto MAAP_EVENT_RESERVE_ADDRESS
  | MAAP_STATE_DEFEND =>
      timer_stop r AnnounceTimer;;
      set_state r MAAP_STATE_INITIAL;;
      goto MAAP_EVENT_RESERVE_ADDRESS
  end.

Definition maap_sm_event (p r : nat) (st : maap_state_t) (event : maap_event_t)
    (range_info : option maap_range_info) : Next :=
  match event with
  | MAAP_EVENT_BEGIN => maap_sm_begin st
  | MAAP_EVENT_RELEASE => maap_sm_release p r st
  | MAAP_EVENT_RESTART => maap_sm_restart p r st
  | MAAP_EVENT_RESERVE_ADDRESS => maap_sm_reserve_address p r st
  | MAAP_EVENT_RPROBE => maap_sm_rprobe p r st range_info
  | MAAP_EVENT_RDEFEND | MAAP_EVENT_RANNOUNCE => maap_sm_rdefend_rannounce r st range_info
  | MAAP_EVENT_PROBE_COUNT => maap_sm_probe_count p r st
  | MAAP_EVENT_ANNOUNCE_TIMER => maap_sm_announce_timer p r st
  | MAAP_EVENT_PROBE_TIMER => maap_sm_probe_timer p r st
  | MAAP_EVENT_PORT_OPERATIONAL => maap_sm_port_operational r st
  | MAAP_EVENT_ERR => stay
  end.

(** The [start:] loop. *)
Fixpoint maap_sm_start (fuel p r : nat) (event : maap_event_t)
    (range_info : option maap_range_info) : MM unit :=
  match fuel with
  | O => starve
  | S fuel =>
      let! x := get_range r in
      let! next := maap_sm_event p r (state (sm x)) event range_info in
      match next with
      | Some event => maap_sm_start fuel p r event range_info
      | None => ret tt
      end
  end.

(** No event needs more than three passes. *)
Definition maap_sm (r p : nat) (event : maap_event_t) (range_info : option maap_range_info) : MM unit :=
  maap_sm_start 3 p r event range_info.

(** ** Reception *)

(** A received frame: [desc->ethertype], the source of the Ethernet header and
    the memory at [l3_offset]. *)
Definition maap_handle_probe (p : nat) (pdu : maap_pdu) (src : mac) : MM unit :=
  let requested := ntohs (requested_count pdu) in
  let! _ := get_ranges p in
  list_each (port_ranges p) (λ r,
    let! x := get_range r in
    match are_ranges_in_conflict (start_mac_addr x) (mac_count x)
            (requested_start_address pdu) requested with
    | None => ret tt
    | Some conflict =>
        let! q := get_port p in
        maap_sm r p MAAP_EVENT_RPROBE
          (Some (RangeInfo src (local_physical_mac q) (requested_start_address pdu) requested conflict))
    end).

Definition maap_handle_announce (p : nat) (pdu : maap_pdu) (src : mac) : MM unit :=
  let requested := ntohs (requested_count pdu) in
  let! _ := get_ranges p in
  list_each (port_ranges p) (λ r,
    let! x := get_range r in
    match are_ranges_in_conflict (start_mac_addr x) (mac_count x)
            (requested_start_address pdu) requested with
    | None => ret tt
    | Some conflict =>
        let! q := get_port p in
        maap_sm r p MAAP_EVENT_RANNOUNCE
          (Some (RangeInfo src (local_physical_mac q) (requested_start_address pdu) requested conflict))
    end).

Definition maap_handle_defend (p : nat) (pdu : maap_pdu) (src : mac) : MM unit :=
  let requested := ntohs (requested_count pdu) in
  let! _ := get_ranges p in
  list_each (port_ranges p) (λ r,
    let! x := get_range r in
    if bool_decide (start_mac_addr x = requested_start_address pdu) && (mac_count x =? requested) then
      let! q := get_port p in
      maap_sm r p MAAP_EVENT_RDEFEND
        (Some (RangeInfo src (local_physical_mac q) (requested_start_address pdu) requested
                 (ConflictInfo (conflict_start_address pdu) (ntohs (conflict_count pdu)))))
    else ret tt).

Definition maap_net_receive (p : nat) (ethertype : Z) (src : mac) (mem : nat → Z) : MM unit :=
  let pdu := read_pdu mem in
  (if negb (ethertype =? ETHERTYPE_AVTP) then ret tt
   else if negb (subtype pdu =? AVTP_SUBTYPE_MAAP) then ret tt
   else if message_type pdu =? MAAP_PROBE then maap_handle_probe p pdu src
   else if message_type pdu =? MAAP_ANNOUNCE then maap_handle_announce p pdu src
   else if message_type pdu =? MAAP_DEFEND then maap_handle_defend p pdu src
   else ret tt);;
  let! _ := perform (NetRxFree p) in
  ret tt.

(** ** Creation of ranges *)

Definition maap_timers_init (r : nat) : MM Z :=
  let! rc := timer_create r ProbeTimer in
  if rc <? 0 then ret (-1) else
  let! rc := timer_create r AnnounceTimer in
  if rc <? 0 then timer_destroy r ProbeTimer;; ret (-1) else
  ret 0.

(** [os_malloc]: a fresh address holding [x]. *)
Definition malloc_range (x : maap_range) : MM (option nat) :=
  let! ok := perform OsMalloc in
  if ok =? 0 then ret None else
  let! m := gets ranges in
  let r := fresh (dom m) in
  modify (λ c, c <| ranges ::= <[r := x]> |>);;
  ret (Some r).

Definition free_range (r : nat) : MM (option nat) :=
  modify (λ c, c <| ranges ::= delete r |>);;
  let! _ := perform OsFree in
  ret None.

(** The memory that [os_malloc] returns, before the code initialises it. *)
Context (garbage : maap_range).

Definition maap_range_alloc (p : nat) (id : Z) (addr : option mac) (n_addr : Z) : MM (option nat) :=
  if (MAAP_DYNAMIC_POOL_SIZE <? n_addr) || (n_addr <=? 0) then ret None else
  if match addr with Some a => negb (maap_is_in_dynamic_pool a n_addr) | None => false end
  then ret None else
  let! q := get_port p in
  if MAAP_PORT_MAX_RANGES_ALLOCATION <=? allocated_ranges_count q then ret None else
  let! used := is_range_id_used p id in
  if used : bool then ret None else
  let! res := malloc_range garbage in
  match res with
  | None => ret None
  | Some r =>
      set_range r (λ x, x <| range_port := p |>);;
      match addr with
      | None =>
          let! rnd := perform OsRandom in
          set_range r (λ x, x <| start_mac_addr := maap_generate_address rnd n_addr |>)
      | Some a => set_range r (λ x, x <| start_mac_addr := a |>)
      end;;
      set_range r (λ x, x <| mac_count := n_addr |>);;
      set_range r (λ x, x <| range_id := id |>);;
      let! x := get_range r in
      let! conflict := check_internal_conflict p x in
      if conflict : bool then free_range r else
      set_sm r (λ s, s <| state := MAAP_STATE_INITIAL |> <| action := MAAP_ACTION_NONE |>
                       <| maap_probe_count := MAAP_PROBE_RETRANSMITS_VAL |>
                       <| send_conflict_indication := false |>);;
      let! rc := maap_timers_init r in
      if rc <? 0 then free_range r else
      set_port p (λ q, q <| allocated_ranges_count ::= λ n, u32 (n + 1) |>);;
      ret (Some r)
  end.

Definition maap_new_range_on_port (p : nat) (id : Z) (addr : option mac) (n_addr : Z) : MM (option nat) :=
  let! res := maap_range_alloc p id addr n_addr in
  match res with
  | None => ret None
  | Some r =>
      let! _ := get_ranges p in
      set_port p (λ q, q <| range ::= fmap (cons r) |>);;
      maap_sm r p MAAP_EVENT_BEGIN None;;
      ret (Some r)
  end.

(** ** IPC reception *)

Definition maap_ipc_create_range (ipc_tx : maap_ipc_channel) (src flag pid id count : Z) (base : mac) : MM unit :=
  let err := maap_ipc_create_response ipc_tx src pid id base count MAAP_RESPONSE_ERROR in
  let! p := gets (λ c, logical_to_maap_port c pid) in
  match p with
  | None => err
  | Some p =>
      let! res := maap_new_range_on_port p id (if flag =? 1 then Some base else None) count in
      match res with
      | None => err
      | Some r =>
          let! q := get_port p in
          let! x := get_range r in
          maap_ipc_create_response ipc_tx src (logical_port q) (range_id x) (start_mac_addr x)
            (u16 (mac_count x)) MAAP_RESPONSE_SUCCESS
      end
  end.

Definition maap_ipc_delete_range (ipc_tx : maap_ipc_channel) (src pid id : Z) : MM unit :=
  let err := maap_ipc_delete_response ipc_tx src pid id MAAP_RESPONSE_ERROR in
  let! p := gets (λ c, logical_to_maap_port c pid) in
  match p with
  | None => err
  | Some p =>
      let! res := maap_remove_range_on_port p id in
      match res with
      | None => err
      | Some (addr, count) =>
          let! q := get_port p in
          maap_ipc_delete_response ipc_tx src (logical_port q) id MAAP_RESPONSE_SUCCESS;;
          maap_ipc_indication ipc_tx IPC_DST_ALL (logical_port q) id addr (u16 count) MAAP_STATUS_FREE
      end
  end.

(** [sync]: the flag [IPC_FLAGS_AVB_MSG_SYNC]; [src]: the sender. *)
Definition maap_ipc_receive (sync : bool) (src : Z) (cmd : maap_ipc_cmd) : MM unit :=
  let ipc_tx := if sync then MaapIpcTxSync else MaapIpcTx in
  match cmd with
  | GENAVB_MSG_MAAP_CREATE_RANGE flag pid id count base =>
      maap_ipc_create_range ipc_tx src flag pid id count base
  | GENAVB_MSG_MAAP_DELETE_RANGE pid id => maap_ipc_delete_range ipc_tx src pid id
  | MaapIpcOther => ret tt
  end;;
  let! _ := perform (IpcFree MaapIpcRx) in
  ret tt.

(** [status]: the operational field of an [IPC_MAC_SERVICE_STATUS] message,
    [None] for another message. *)
Definition maap_ipc_rx_mac_service (p : nat) (status : option bool) : MM unit :=
  match status with
  | Some true =>
      let! _ := get_ranges p in
      list_each (port_ranges p) (λ r, maap_sm r p MAAP_EVENT_PORT_OPERATIONAL None)
  | _ => ret tt
  end;;
  let! _ := perform (IpcFree (MacServiceRx p)) in
  ret tt.

(** ** Timer handlers *)

Definition maap_probe_timer_handler (r : nat) : MM unit :=
  let! x := get_range r in maap_sm r (range_port x) MAAP_EVENT_PROBE_TIMER None.

Definition maap_announce_timer_handler (r : nat) : MM unit :=
  let! x := get_range r in maap_sm r (range_port x) MAAP_EVENT_ANNOUNCE_TIMER None.

(** The timer service stops an expired timer, then calls its handler. *)
Definition timer_expires (r : nat) (k : maap_timer_id) : MM unit :=
  timer_stop r k;;
  match k with
  | ProbeTimer => maap_probe_timer_handler r
  | AnnounceTimer => maap_announce_timer_handler r
  end.

(** ** Initialisation and exit *)

Definition maap_port_ipc_init (i : nat) : MM Z :=
  let! c := gets management_enabled in
  if negb c then ret 0 else
  let! rc := perform (IpcRxInit (MacServiceRx i)) in
  if rc <? 0 then ret (-1) else
  let! rc := perform (IpcTxInit (MacServiceTx i)) in
  if rc <? 0 then (let! _ := perform (IpcRxExit (MacServiceRx i)) in ret (-1)) else
  let! rc := perform (IpcTxConnect i) in
  if rc <? 0 then
    let! _ := perform (IpcTxExit (MacServiceTx i)) in
    let! _ := perform (IpcRxExit (MacServiceRx i)) in
    ret (-1)
  else ret 0.

(** One turn of the loop of [maap_ports_init]; [lp] is
    [cfg->logical_port_list[i]]. *)
Definition maap_port_init (i : nat) (lp : Z) (decode : Z → mac) : MM unit :=
  let! _ := get_port i in
  set_port i (λ q, q <| port_id := Z.of_nat i |> <| logical_port := lp |>
                     <| initialized := false |> <| allocated_ranges_count := 0 |>);;
  let! rc := perform (NetGetLocalAddr i) in
  if rc <? 0 then ret tt else
  set_port i (λ q, q <| local_physical_mac := decode rc |>);;
  let! rc := perform (NetRxInit i) in
  if rc <? 0 then ret tt else
  let! rc := perform (NetTxInit i) in
  if rc <? 0 then (let! _ := perform (NetRxExit i) in ret tt) else
  let! rc := perform (NetAddMulti i lp MAAP_MULTICAST_ADDR) in
  if rc <? 0 then
    let! _ := perform (NetTxExit i) in
    let! _ := perform (NetRxExit i) in
    ret tt
  else
  let! rc := maap_port_ipc_init i in
  if rc <? 0 then
    let! _ := perform (NetDelMulti i lp MAAP_MULTICAST_ADDR) in
    let! _ := perform (NetTxExit i) in
    let! _ := perform (NetRxExit i) in
    ret tt
  else
  set_port i (λ q, q <| range := Some [] |> <| initialized := true |>).

Definition maap_ports_init (logical_port_list : nat → Z) (decode : Z → mac) : MM Z :=
  let! n := gets port_max in
  for_each (seq 0 (Z.to_nat n)) (λ i, maap_port_init i (logical_port_list i) decode);;
  ret 0.

Definition maap_ipc_init : MM Z :=
  let! rc := perform (IpcRxInit MaapIpcRx) in
  if rc <? 0 then ret (-1) else
  let! rc := perform (IpcTxInit MaapIpcTx) in
  if rc <? 0 then (let! _ := perform (IpcRxExit MaapIpcRx) in ret (-1)) else
  let! rc := perform (IpcTxInit MaapIpcTxSync) in
  if rc <? 0 then
    let! _ := perform (IpcTxExit MaapIpcTx) in
    let! _ := perform (IpcRxExit MaapIpcRx) in
    ret (-1)
  else ret 0.

Definition maap_port_ipc_exit (i : nat) : MM unit :=
  let! c := gets management_enabled in
  when c
    (let! _ := perform (IpcTxExit (MacServiceTx i)) in
     let! _ := perform (IpcRxExit (MacServiceRx i)) in
     ret tt).

Definition maap_port_exit (i : nat) : MM unit :=
  let! q := get_port i in
  if negb (initialized q) then ret tt else
  maap_port_ipc_exit i;;
  let! lp := gets (λ c, maap_port_to_logical c (Z.to_nat (port_id q))) in
  let! lp := deref OutOfBounds lp in
  let! _ := perform (NetDelMulti i lp MAAP_MULTICAST_ADDR) in
  let! _ := perform (NetTxExit i) in
  let! _ := perform (NetRxExit i) in
  maap_remove_all_range_on_port i;;
  set_port i (λ q, q <| initialized := false |>).

Definition maap_ports_exit : MM unit :=
  let! n := gets port_max in
  for_each (seq 0 (Z.to_nat n)) maap_port_exit.

Definition maap_ipc_exit : MM unit :=
  let! _ := perform (IpcTxExit MaapIpcTx) in
  let! _ := perform (IpcRxExit MaapIpcRx) in
  let! _ := perform (IpcTxExit MaapIpcTxSync) in
  ret tt.

(** [maap_alloc] on zeroed memory. *)
Definition maap_port_zero : maap_port := MaapPort 0 0 mac_zero false 0 None.
Definition maap_alloc (n_ports : nat) : maap_ctx :=
  MaapCtx (Z.of_nat n_ports) false (replicate n_ports maap_port_zero) ∅.

(** [maap_init]; the result is false for NULL. *)
Definition maap_init (n_ports : nat) (management : bool) (logical_port_list : nat → Z)
    (decode : Z → mac) : MM bool :=
  let! ok := perform OsMalloc in
  if ok =? 0 then ret false else
  modify (λ _, maap_alloc n_ports);;
  modify (λ c, c <| management_enabled := management |>);;
  let! _ := maap_ports_init logical_port_list decode in
  let! rc := maap_ipc_init in
  if rc <? 0 then
    maap_ports_exit;;
    let! _ := perform OsFree in
    ret false
  else ret true.

Definition maap_exit : MM unit :=
  maap_ipc_exit;;
  maap_ports_exit;;
  let! _ := perform OsFree in
  ret tt.
End maap.
