(* ===== verification/MaapSpec.v ===== *)
(** * MAAP: what the state machine promises, and that it keeps it

    An abstract automaton per range, the refinement of maap/maap.c to it, the
    invariant of the context and that every handler preserves it. *)

From S2P Require Import Prelude Timer MaapAddr Maap.

(** ** Observations of a trace *)

(** Frames handed to the network and messages handed to the IPC layer, newest
    first. *)
Definition maap_frame : Type := nat * mac * list Z.
Definition frames (tr : list (maap_call * Z)) : list maap_frame :=
  omap (λ x, match x.1 with NetTx p dst _ data => Some (p, dst, data) | _ => None end) tr.
Definition messages (tr : list (maap_call * Z)) : list (Z * maap_ipc_msg) :=
  omap (λ x, match x.1 with IpcTx _ dst msg => Some (dst, msg) | _ => None end) tr.
#[global] Arguments frames : simpl never.
#[global] Arguments messages : simpl never.

Definition probe_frame (p : nat) (x : maap_range) : maap_frame :=
  (p, MAAP_MULTICAST_ADDR, pdu_bytes (maap_build_pdu x MAAP_PROBE None)).
Definition announce_frame (p : nat) (x : maap_range) : maap_frame :=
  (p, MAAP_MULTICAST_ADDR, pdu_bytes (maap_build_pdu x MAAP_ANNOUNCE None)).
Definition defend_frame (p : nat) (x : maap_range) (i : maap_range_info) : maap_frame :=
  (p, src_physical_mac i, pdu_bytes (maap_build_pdu x MAAP_DEFEND (Some i))).
Definition status_msg (pid : Z) (x : maap_range) (status : Z) : Z * maap_ipc_msg :=
  (IPC_DST_ALL, StatusIndication status (u16 pid) (range_id x) (u16 (mac_count x)) (start_mac_addr x)).

(** ** The abstract automaton of a range *)

Inductive phase := Probing (n : nat) | Defending.

Record spec_range := SpecRange {
  ph : phase;
  addr : mac;
  told : bool;                   (* the client was last told of a success *)
}.

(** [lower]: the local station's address compares below the sender's;
    [new]: the address drawn when the range must move. *)
Definition spec_restart (new : mac) (s : spec_range) : spec_range := SpecRange (Probing 3) new false.

Definition spec_step (event : maap_event_t) (lower : bool) (new : mac) (s : spec_range) : spec_range :=
  match event, ph s with
  | MAAP_EVENT_PROBE_TIMER, Probing (S (S n)) => SpecRange (Probing (S n)) (addr s) (told s)
  | MAAP_EVENT_PROBE_TIMER, Probing _ => SpecRange Defending (addr s) true
  | MAAP_EVENT_RPROBE, Probing _ => if lower then s else spec_restart new s
  | (MAAP_EVENT_RDEFEND | MAAP_EVENT_RANNOUNCE), Probing _ => spec_restart new s
  | (MAAP_EVENT_RDEFEND | MAAP_EVENT_RANNOUNCE), Defending => if lower then s else spec_restart new s
  | MAAP_EVENT_PORT_OPERATIONAL, _ => SpecRange (Probing 3) (addr s) (told s)
  | _, _ => s
  end.

(** The abstraction: a range between two events. *)
Definition sm_phase (s : maap_sm_t) : option phase :=
  match state s with
  | MAAP_STATE_INITIAL => None
  | MAAP_STATE_PROBE => Some (Probing (Z.to_nat (maap_probe_count s)))
  | MAAP_STATE_DEFEND => Some Defending
  end.
Definition abs_range (x : maap_range) : option spec_range :=
  (λ f, SpecRange f (start_mac_addr x) (send_conflict_indication (sm x))) <$> sm_phase (sm x).

(** The timers agree with the state. *)
Definition sm_ok (s : maap_sm_t) : Prop :=
  st_created (probe_timer s) = true ∧ st_created (announce_timer s) = true ∧
  match state s with
  | MAAP_STATE_INITIAL => False
  | MAAP_STATE_PROBE =>
      st_running (probe_timer s) = true ∧ st_running (announce_timer s) = false ∧
      1 ≤ maap_probe_count s ≤ 3
  | MAAP_STATE_DEFEND =>
      st_running (probe_timer s) = false ∧ st_running (announce_timer s) = true ∧
      send_conflict_indication s = true
  end.

Definition range_ok (x : maap_range) : Prop :=
  1 ≤ mac_count x ≤ MAAP_DYNAMIC_POOL_SIZE ∧ mac_ok (start_mac_addr x) ∧
  maap_is_in_dynamic_pool (start_mac_addr x) (mac_count x) = true ∧ sm_ok (sm x).

(** What no event changes. *)
Definition same_range (x x' : maap_range) : Prop :=
  range_port x' = range_port x ∧ range_id x' = range_id x ∧ mac_count x' = mac_count x.

(** The inputs of a range: a conflicting PDU, the expiry of one of its timers,
    the port becoming operational. *)
Inductive maap_input :=
| InProbe (i : maap_range_info)
| InDefend (i : maap_range_info)
| InAnnounce (i : maap_range_info)
| InTimer (k : maap_timer_id)
| InOperational.

Definition input_event (i : maap_input) : maap_event_t :=
  match i with
  | InProbe _ => MAAP_EVENT_RPROBE
  | InDefend _ => MAAP_EVENT_RDEFEND
  | InAnnounce _ => MAAP_EVENT_RANNOUNCE
  | InTimer ProbeTimer => MAAP_EVENT_PROBE_TIMER
  | InTimer AnnounceTimer => MAAP_EVENT_ANNOUNCE_TIMER
  | InOperational => MAAP_EVENT_PORT_OPERATIONAL
  end.
Definition input_lower (i : maap_input) : bool :=
  match i with
  | InProbe i | InDefend i | InAnnounce i =>
      maap_compare_MAC (info_local_physical_mac i) (src_physical_mac i)
  | _ => false
  end.
(** A timer expires only when it runs. *)
Definition input_enabled (i : maap_input) (x : maap_range) : bool :=
  match i with
  | InTimer ProbeTimer => st_running (probe_timer (sm x))
  | InTimer AnnounceTimer => st_running (announce_timer (sm x))
  | _ => true
  end.
Definition do_input `{!Platform maap_call} (r p : nat) (i : maap_input) : MM unit :=
  match i with
  | InProbe i => maap_sm r p MAAP_EVENT_RPROBE (Some i)
  | InDefend i => maap_sm r p MAAP_EVENT_RDEFEND (Some i)
  | InAnnounce i => maap_sm r p MAAP_EVENT_RANNOUNCE (Some i)
  | InTimer k => timer_expires r k
  | InOperational => maap_sm r p MAAP_EVENT_PORT_OPERATIONAL None
  end.

(** The frames and messages of a step from [x] to [x'], oldest first. *)
Definition spec_frames (p : nat) (i : maap_input) (x x' : maap_range) : list maap_frame :=
  match i, state (sm x) with
  | InTimer ProbeTimer, MAAP_STATE_PROBE =>
      probe_frame p x :: (if decide (state (sm x') = MAAP_STATE_DEFEND) then [announce_frame p x] else [])
  | InTimer AnnounceTimer, MAAP_STATE_DEFEND => [announce_frame p x]
  | InProbe i, MAAP_STATE_DEFEND => [defend_frame p x i]
  | InProbe _, MAAP_STATE_PROBE => if input_lower i then [] else [probe_frame p x']
  | (InDefend _ | InAnnounce _), MAAP_STATE_PROBE => [probe_frame p x']
  | (InDefend _ | InAnnounce _), MAAP_STATE_DEFEND => if input_lower i then [] else [probe_frame p x']
  | InOperational, _ => [probe_frame p x']
  | _, _ => []
  end.
Definition spec_messages (pid : Z) (i : maap_input) (x x' : maap_range) : list (Z * maap_ipc_msg) :=
  let conflict := if send_conflict_indication (sm x) then [status_msg pid x MAAP_STATUS_CONFLICT] else [] in
  match i, state (sm x) with
  | InTimer ProbeTimer, MAAP_STATE_PROBE =>
      if decide (state (sm x') = MAAP_STATE_DEFEND) then [status_msg pid x MAAP_STATUS_SUCCESS] else []
  | InProbe _, MAAP_STATE_PROBE => if input_lower i then [] else conflict
  | (InDefend _ | InAnnounce _), MAAP_STATE_PROBE => conflict
  | (InDefend _ | InAnnounce _), MAAP_STATE_DEFEND => if input_lower i then [] else conflict
  | _, _ => []
  end.

(** ** Effects on one range *)

Definition upd_range (r : nat) (x : maap_range) (c : maap_ctx) : maap_ctx :=
  c <| ranges := <[r := x]> (ranges c) |>.

Lemma upd_range_id r x c : ranges c !! r = Some x → upd_range r x c = c.
Proof.
  intros Hx. destruct c; cbn in *. unfold upd_range, over, over_field; cbn. by rewrite insert_id.
Qed.

Section effects.
Context `{!Platform maap_call}.
Implicit Types (w : world maap_call maap_ctx).

(** The platform has memory for descriptors. *)
Definition healthy : Prop :=
  (∀ n p s, answer n (NetTxAlloc p s) ≠ 0) ∧ (∀ n c, answer n (IpcAlloc c) ≠ 0).
(** [os_random] returns a value between 0 and OS_RAND_MAX. *)
Definition random_ok : Prop := ∀ n, 0 ≤ answer n OsRandom.

(** [r] becomes [x'], and the frames [fs] and messages [ms] are sent. *)
Definition effect (r : nat) (x' : maap_range) (fs : list maap_frame) (ms : list (Z * maap_ipc_msg)) w w' : Prop :=
  w_st w' = upd_range r x' (w_st w) ∧
  (healthy → frames (w_trace w') = rev fs ++ frames (w_trace w) ∧
             messages (w_trace w') = rev ms ++ messages (w_trace w)).

Lemma effect_refl r x w : ranges (w_st w) !! r = Some x → effect r x [] [] w w.
Proof.
  intros Hx. split; [|done]. by rewrite upd_range_id.
Qed.

Lemma effect_lookup r x fs ms w w' : effect r x fs ms w w' → ranges (w_st w') !! r = Some x.
Proof. intros [-> _]. apply lookup_insert_eq. Qed.

Lemma effect_trans r x1 f1 m1 x2 f2 m2 w w1 w2 :
  effect r x1 f1 m1 w w1 → effect r x2 f2 m2 w1 w2 → effect r x2 (f1 ++ f2) (m1 ++ m2) w w2.
Proof.
  intros [E1 T1] [E2 T2]. split.
  - rewrite E2, E1. unfold upd_range, over, over_field; cbn. by rewrite insert_insert_eq.
  - intros Hh. destruct (T1 Hh) as [F1 M1], (T2 Hh) as [F2 M2].
    rewrite F2, F1, M2, M1, !rev_app_distr, <- !app_assoc. done.
Qed.

Lemma effect_port r x fs ms w w' : effect r x fs ms w w' → port (w_st w') = port (w_st w).
Proof. by intros [-> _]. Qed.

Lemma wp_get_range r x (Q : maap_range → world maap_call maap_ctx → Prop) w :
  ranges (w_st w) !! r = Some x → Q x w → wp (get_range r) Q w.
Proof. intros Hr ?. unfold get_range. wp_step. eauto. Qed.
Lemma wp_get_port p q (Q : maap_port → world maap_call maap_ctx → Prop) w :
  port (w_st w) !! p = Some q → Q q w → wp (get_port p) Q w.
Proof. intros Hr ?. unfold get_port. wp_step. eauto. Qed.
Lemma wp_get_ranges p q l (Q : list nat → world maap_call maap_ctx → Prop) w :
  port (w_st w) !! p = Some q → range q = Some l → Q l w → wp (get_ranges p) Q w.
Proof. intros Hp Hq ?. unfold get_ranges. wp_step. eapply wp_get_port; [done|]. wp_step. eauto. Qed.

Lemma set_range_effect r f x w :
  ranges (w_st w) !! r = Some x → wp (set_range r f) (λ _, effect r (f x) [] [] w) w.
Proof.
  intros Hx. unfold set_range. wp_step. split; [|done].
  destruct w as [[] ? ?]; unfold upd_range, over, over_field; cbn -[alter] in *.
  by rewrite (alter_as_insert _ _ _ x).
Qed.

Lemma timer_stop_effect r k x w :
  ranges (w_st w) !! r = Some x →
  wp (timer_stop r k) (λ _, effect r (x <| sm ::= λ s, match k with
      | ProbeTimer => s <| probe_timer ::= soft_stop |>
      | AnnounceTimer => s <| announce_timer ::= soft_stop |> end |>) [] [] w) w.
Proof.
  intros Hx. unfold timer_stop. wp_step. eapply wp_get_range; [done|].
  destruct k; by apply (set_range_effect _ _ x).
Qed.

Lemma perform_effect r x c w :
  ranges (w_st w) !! r = Some x →
  match c with NetTx _ _ _ _ | IpcTx _ _ _ => False | _ => True end →
  wp (perform c) (λ _, effect r x [] [] w) w.
Proof.
  intros Hx Hc. wp_step. split.
  - cbn. by rewrite upd_range_id.
  - intros _. unfold frames, messages; cbn. by destruct c.
Qed.

Lemma timer_start_effect r k ms x w :
  ranges (w_st w) !! r = Some x →
  wp (timer_start r k ms) (λ _, effect r (x <| sm ::= λ s, match k with
      | ProbeTimer => s <| probe_timer ::= soft_start ms |>
      | AnnounceTimer => s <| announce_timer ::= soft_start ms |> end |>) [] [] w) w.
Proof.
  intros Hx. unfold timer_start. wp_step. eapply wp_get_range; [done|]. 
  apply wp_bind. eapply wp_mono; [by apply (perform_effect r x)|]. intros ? w1 E1.
  destruct k; (eapply wp_mono; [eapply set_range_effect, effect_lookup, E1|]).
  all: intros ? w2 E2; exact (effect_trans _ _ _ _ _ _ _ _ _ _ E1 E2).
Qed.
End effects.

Section machine.
Context `{!Platform maap_call}.
Implicit Types (w : world maap_call maap_ctx).

Lemma effect_eq r x x' fs fs' ms ms' w w' :
  effect r x fs ms w w' → x = x' → fs = fs' → ms = ms' → effect r x' fs' ms' w w'.
Proof. by intros ? -> -> ->. Qed.

Lemma effect_bind {A} (m : MM unit) (k : MM A) r x1 f1 m1 (Q : A → world maap_call maap_ctx → Prop) w :
  wp m (λ _, effect r x1 f1 m1 w) w →
  (∀ w1, effect r x1 f1 m1 w w1 → wp k Q w1) →
  wp (m;; k) Q w.
Proof. intros Hm Hk. apply wp_bind. eapply wp_mono; [exact Hm|]. intros ? w1. apply Hk. Qed.

Lemma net_transmit_effect p r t i x w :
  ranges (w_st w) !! r = Some x →
  wp (maap_net_transmit p r t i) (λ _, effect r x
    [(p, match i with Some i => if t =? MAAP_DEFEND then src_physical_mac i else MAAP_MULTICAST_ADDR
         | None => MAAP_MULTICAST_ADDR end, pdu_bytes (maap_build_pdu x t i))] [] w) w.
Proof.
  intros Hx. unfold maap_net_transmit. wp_step.
  destruct (answer (w_clock w) (NetTxAlloc p (14 + 28)) =? 0) eqn:E; wp_step.
  { split; [cbn; by rewrite upd_range_id|]. intros [Hh _]. apply Z.eqb_eq in E. by apply Hh in E. }
  eapply wp_get_range; [done|]. wp_step.
  destruct (_ <? 0); cbn [when]; wp_step; (split; [cbn; by rewrite upd_range_id|by intros _]).
Qed.

Lemma ipc_send_effect chan dst msg r x w :
  ranges (w_st w) !! r = Some x →
  wp (maap_ipc_send chan dst msg) (λ _, effect r x [] [(dst, msg)] w) w.
Proof.
  intros Hx. unfold maap_ipc_send. wp_step.
  destruct (answer (w_clock w) (IpcAlloc chan) =? 0) eqn:E; wp_step.
  { split; [cbn; by rewrite upd_range_id|]. intros [_ Hh]. apply Z.eqb_eq in E. by apply Hh in E. }
  destruct (_ <? 0); cbn [when]; wp_step; (split; [cbn; by rewrite upd_range_id|by intros _]).
Qed.

Lemma random_interval_range rnd min max :
  0 ≤ rnd → 0 < min → min ≤ max → max < 2 ^ 31 →
  min ≤ random_interval rnd min max ∧ random_interval rnd min max ≤ max.
Proof.
  intros. unfold random_interval. pose proof (random_range_bounds rnd min max).
  rewrite s32_small, Z.abs_eq, u32_small by lia. lia.
Qed.
Lemma probe_interval_nonzero rnd :
  random_interval rnd MAAP_PROBE_INTERVAL_MIN MAAP_PROBE_INTERVAL_MAX =? 0 = false.
Proof.
  unfold random_interval, random_range. change MAAP_PROBE_INTERVAL_MIN with 500.
  change MAAP_PROBE_INTERVAL_MAX with 570. change (570 + 1 - 500) with 71.
  pose proof (Z.rem_bound_abs rnd 71). rewrite s32_small, Z.abs_eq, u32_small by lia. lia.
Qed.
Lemma announce_interval_nonzero rnd :
  random_interval rnd MAAP_ANNOUNCE_INTERVAL_MIN MAAP_ANNOUNCE_INTERVAL_MAX =? 0 = false.
Proof.
  unfold random_interval, random_range. change MAAP_ANNOUNCE_INTERVAL_MIN with 30000.
  change MAAP_ANNOUNCE_INTERVAL_MAX with 31890. change (31890 + 1 - 30000) with 1891.
  pose proof (Z.rem_bound_abs rnd 1891). rewrite s32_small, Z.abs_eq, u32_small by lia. lia.
Qed.

Definition running (t : soft_timer) : soft_timer := t <| st_running := true |>.

Lemma soft_restart_running ms t : st_created t = true → (ms =? 0) = false →
  soft_start ms (soft_stop t) = running t.
Proof. intros Hc Hm. unfold soft_start, soft_stop, running. cbn. by rewrite Hc, Hm. Qed.

Lemma maap_sprobe_effect p r x w :
  ranges (w_st w) !! r = Some x → st_created (probe_timer (sm x)) = true →
  wp (maap_sprobe p r) (λ _, effect r (x <| sm ::= λ s, s <| probe_timer ::= running |> |>)
    [probe_frame p x] [] w) w.
Proof.
  intros Hx Hc. unfold maap_sprobe.
  eapply effect_bind; [by apply net_transmit_effect|]. intros w1 E1.
  apply wp_bind. eapply wp_mono; [apply (perform_effect r x); [eapply effect_lookup, E1|done]|].
  intros rnd w2 E2. pose proof (effect_trans _ _ _ _ _ _ _ _ _ _ E1 E2) as E12.
  eapply effect_bind; [eapply timer_stop_effect, effect_lookup, E12|]. intros w3 E3.
  pose proof (effect_trans _ _ _ _ _ _ _ _ _ _ E12 E3) as E13.
  eapply wp_mono; [eapply timer_start_effect, effect_lookup, E13|]. intros ? w4 E4.
  pose proof (effect_trans _ _ _ _ _ _ _ _ _ _ E13 E4) as E14.
  eapply effect_eq; [exact E14| |done|done].
  unfold over, over_field; cbn -[random_interval]. by rewrite soft_restart_running by (done || apply probe_interval_nonzero).
Qed.

Lemma maap_sannounce_effect p r x w :
  ranges (w_st w) !! r = Some x → st_created (announce_timer (sm x)) = true → range_port x = p →
  wp (maap_sannounce p r) (λ _, effect r (x <| sm ::= λ s, s <| announce_timer ::= running |> |>)
    [announce_frame p x] [] w) w.
Proof.
  intros Hx Hc Hp. unfold maap_sannounce. wp_step. eapply wp_get_range; [done|]. rewrite Hp.
  eapply effect_bind; [by apply net_transmit_effect|]. intros w1 E1.
  apply wp_bind. eapply wp_mono; [apply (perform_effect r x); [eapply effect_lookup, E1|done]|].
  intros rnd w2 E2. pose proof (effect_trans _ _ _ _ _ _ _ _ _ _ E1 E2) as E12.
  eapply effect_bind; [eapply timer_stop_effect, effect_lookup, E12|]. intros w3 E3.
  pose proof (effect_trans _ _ _ _ _ _ _ _ _ _ E12 E3) as E13.
  eapply wp_mono; [eapply timer_start_effect, effect_lookup, E13|]. intros ? w4 E4.
  pose proof (effect_trans _ _ _ _ _ _ _ _ _ _ E13 E4) as E14.
  eapply effect_eq; [exact E14| |done|done].
  unfold over, over_field; cbn -[random_interval]. by rewrite soft_restart_running by (done || apply announce_interval_nonzero).
Qed.
End machine.

Definition reserved (x : maap_range) : maap_range :=
  x <| sm ::= λ s, s <| maap_probe_count := MAAP_PROBE_RETRANSMITS_VAL |>
                     <| probe_timer ::= running |> <| state := MAAP_STATE_PROBE |> |>.
Definition moved (new : mac) (x : maap_range) : maap_range :=
  reserved (x <| start_mac_addr := new |> <| sm ::= λ s, s <| send_conflict_indication := false |> |>).

Section events.
Context `{!Platform maap_call}.
Implicit Types (w : world maap_call maap_ctx).

(** One pass of the [start:] loop. *)
Lemma sm_start_pass fuel p r event info x (Q : unit → world maap_call maap_ctx → Prop) w :
  ranges (w_st w) !! r = Some x →
  wp (maap_sm_event p r (state (sm x)) event info)
    (λ next, match next with
             | Some e => wp (maap_sm_start fuel p r e info) Q
             | None => Q tt end) w →
  wp (maap_sm_start (S fuel) p r event info) Q w.
Proof.
  intros Hx H. cbn [maap_sm_start]. apply wp_bind. eapply wp_get_range; [done|].
  apply wp_bind. eapply wp_mono; [exact H|]. intros [e|] w' Hw; [done|]. by wp_step.
Qed.

Lemma reserve_effect fuel p r info x w :
  ranges (w_st w) !! r = Some x → state (sm x) = MAAP_STATE_INITIAL →
  st_created (probe_timer (sm x)) = true →
  wp (maap_sm_start (S fuel) p r MAAP_EVENT_RESERVE_ADDRESS info)
    (λ _, effect r (reserved x) [probe_frame p x] [] w) w.
Proof.
  intros Hx Hst Hc. eapply sm_start_pass; [done|]. rewrite Hst. cbn [maap_sm_event maap_sm_reserve_address].
  eapply effect_bind; [by apply (set_range_effect r _ x)|]. intros w1 E1.
  eapply effect_bind; [eapply maap_sprobe_effect; [eapply effect_lookup, E1|done]|]. intros w2 E2.
  pose proof (effect_trans _ _ _ _ _ _ _ _ _ _ E1 E2) as E12.
  eapply effect_bind; [eapply set_range_effect, effect_lookup, E12|]. intros w3 E3.
  wp_step. eapply effect_eq; [exact (effect_trans _ _ _ _ _ _ _ _ _ _ E12 E3)|done|done|done].
Qed.

Lemma restart_effect fuel p r q info x w :
  ranges (w_st w) !! r = Some x → port (w_st w) !! p = Some q →
  state (sm x) = MAAP_STATE_INITIAL → st_created (probe_timer (sm x)) = true →
  wp (maap_sm_start (S (S fuel)) p r MAAP_EVENT_RESTART info)
    (λ _ w', ∃ n, effect r (moved (maap_generate_address (answer n OsRandom) (mac_count x)) x)
       [probe_frame p (moved (maap_generate_address (answer n OsRandom) (mac_count x)) x)]
       (if send_conflict_indication (sm x) then [status_msg (port_id q) x MAAP_STATUS_CONFLICT] else [])
       w w') w.
Proof.
  intros Hx Hq Hst Hc. eapply sm_start_pass; [done|]. rewrite Hst. cbn [maap_sm_event maap_sm_restart].
  apply wp_bind. eapply wp_get_range; [done|]. apply wp_bind. eapply wp_get_port; [done|].
  apply wp_bind. eapply wp_mono with (P := λ _ w1, effect r
    (x <| sm ::= λ s, s <| send_conflict_indication := false |> |>) []
    (if send_conflict_indication (sm x) then [status_msg (port_id q) x MAAP_STATUS_CONFLICT] else []) w w1).
  { destruct (send_conflict_indication (sm x)) eqn:Et; cbn [when].
    - eapply effect_bind; [by apply ipc_send_effect|]. intros w1 E1.
      eapply wp_mono; [eapply set_range_effect, effect_lookup, E1|]. intros ? w2 E2.
      eapply effect_eq; [exact (effect_trans _ _ _ _ _ _ _ _ _ _ E1 E2)|done|done|].
      cbn. unfold status_msg. do 3 f_equal. unfold u16. by rewrite Zmod_mod.
    - wp_step. eapply effect_eq; [by apply (effect_refl r x)| |done|done].
      destruct x as [? ? ? ? []]; cbn in *. unfold over, over_field; cbn. by rewrite Et. }
  intros ? w1 E1. apply wp_bind. eapply wp_mono.
  { eapply wp_and; [apply (perform_effect r); [eapply effect_lookup, E1|done]|].
    wp_step. instantiate (1 := λ a _, a = answer (w_clock w1) OsRandom). done. }
  intros ? w2 [E2 ->]. pose proof (effect_trans _ _ _ _ _ _ _ _ _ _ E1 E2) as E12.
  eapply effect_bind; [eapply set_range_effect, effect_lookup, E12|]. intros w3 E3.
  pose proof (effect_trans _ _ _ _ _ _ _ _ _ _ E12 E3) as E13. unfold goto. wp_step.
  eapply wp_mono; [eapply reserve_effect; [eapply effect_lookup, E13|done|done]|]. intros ? w4 E4.
  exists (w_clock w1).
  eapply effect_eq; [exact (effect_trans _ _ _ _ _ _ _ _ _ _ E13 E4)|done|done|by rewrite !app_nil_r].
Qed.

Definition stopped_probe (x : maap_range) : maap_range :=
  x <| sm ::= λ s, s <| probe_timer ::= soft_stop |> <| state := MAAP_STATE_INITIAL |> |>.
Definition stopped_announce (x : maap_range) : maap_range :=
  x <| sm ::= λ s, s <| announce_timer ::= soft_stop |> <| state := MAAP_STATE_INITIAL |> |>.

(** A range that loses its addresses: back to INITIAL, then Restart. *)
Lemma lose_effect fuel p r q info k x w :
  ranges (w_st w) !! r = Some x → port (w_st w) !! p = Some q → st_created (probe_timer (sm x)) = true →
  let x0 := match k with ProbeTimer => stopped_probe x | AnnounceTimer => stopped_announce x end in
  wp (timer_stop r k;; set_state r MAAP_STATE_INITIAL;; goto MAAP_EVENT_RESTART)
    (λ next, match next with
             | Some e => wp (maap_sm_start (S (S fuel)) p r e info)
                (λ _ w', ∃ n, effect r (moved (maap_generate_address (answer n OsRandom) (mac_count x)) x0)
                  [probe_frame p (moved (maap_generate_address (answer n OsRandom) (mac_count x)) x)]
                  (if send_conflict_indication (sm x) then [status_msg (port_id q) x MAAP_STATUS_CONFLICT] else [])
                  w w')
             | None => λ _, False end) w.
Proof.
  intros Hx Hq Hc x0. eapply effect_bind; [by apply timer_stop_effect|]. intros w1 E1.
  eapply effect_bind; [eapply set_range_effect, effect_lookup, E1|]. intros w2 E2.
  pose proof (effect_trans _ _ _ _ _ _ _ _ _ _ E1 E2) as E12.
  assert (E : effect r x0 [] [] w w2) by (eapply effect_eq; [exact E12|by destruct k|done|done]).
  clear E1 E2 E12. unfold goto. wp_step. eapply wp_mono; [eapply restart_effect|].
  - eapply effect_lookup, E.
  - rewrite (effect_port _ _ _ _ _ _ E). exact Hq.
  - by destruct k.
  - by destruct k.
  - intros ? w3 [n E3]. exists n.
    assert (Hm : mac_count x0 = mac_count x) by (by destruct k). rewrite Hm in E3.
    eapply effect_eq; [exact (effect_trans _ _ _ _ _ _ _ _ _ _ E E3)|done| |].
    + by destruct k.
    + by destruct k.
Qed.
End events.

Section refinement.
Context `{!Platform maap_call} (Hrnd : random_ok).
Implicit Types (w : world maap_call maap_ctx).

(** The step of a range, with its observable effect. *)
Definition stepped (p : nat) (q : maap_port) (r : nat) (i : maap_input) (x : maap_range) w w' : Prop :=
  ∃ x' new, effect r x' (spec_frames p i x x') (spec_messages (port_id q) i x x') w w' ∧
    same_range x x' ∧ range_ok x' ∧
    abs_range x' = spec_step (input_event i) (input_lower i) new <$> abs_range x.

Lemma generated_ok x x0 n : range_ok x → sm_ok (sm x0) → mac_count x0 = mac_count x →
  start_mac_addr x0 = maap_generate_address (answer n OsRandom) (mac_count x) → range_ok x0.
Proof.
  intros (Hc & _) Hsm Hcx Ha. unfold range_ok. rewrite Ha, Hcx.
  destruct (generate_address_value (answer n OsRandom) (mac_count x) (Hrnd n) Hc) as [Hok Hv].
  split; [done|split; [done|split; [|done]]].
  unfold MAAP_DYNAMIC_POOL_SIZE in *. destruct pool_bounds as [Hmin _].
  apply in_pool_spec; [done|lia|]. unfold in_range. rewrite Hv, Hmin. unfold MAAP_DYNAMIC_POOL_SIZE in *.
  change (0xFDFF - 0x0000 + 1) with 65024 in *.
  pose proof (Z.rem_bound_pos (answer n OsRandom) (65024 - mac_count x + 1)).
  specialize (Hrnd n). intros. lia.
Qed.

Lemma moved_sm_ok new x k : sm_ok (sm x) →
  match k with ProbeTimer => state (sm x) = MAAP_STATE_PROBE | AnnounceTimer => state (sm x) = MAAP_STATE_DEFEND end →
  sm_ok (sm (moved new (match k with ProbeTimer => stopped_probe x | AnnounceTimer => stopped_announce x end))).
Proof.
  intros (Hc1 & Hc2 & Hst) Hk. unfold sm_ok in *.
  destruct k; rewrite Hk in Hst; cbn; unfold MAAP_PROBE_RETRANSMITS_VAL; split_and!; naive_solver lia.
Qed.

(** The steps in which the range moves to a new address. *)
Lemma lose_stepped p r q i info k x w :
  ranges (w_st w) !! r = Some x → port (w_st w) !! p = Some q → range_ok x →
  match k with ProbeTimer => state (sm x) = MAAP_STATE_PROBE | AnnounceTimer => state (sm x) = MAAP_STATE_DEFEND end →
  (∀ x', spec_frames p i x x' = [probe_frame p x']) →
  (∀ x', spec_messages (port_id q) i x x' =
     if send_conflict_indication (sm x) then [status_msg (port_id q) x MAAP_STATUS_CONFLICT] else []) →
  (∀ new s, abs_range x = Some s → spec_step (input_event i) (input_lower i) new s = spec_restart new s) →
  wp (timer_stop r k;; set_state r MAAP_STATE_INITIAL;; goto MAAP_EVENT_RESTART)
    (λ next, match next with
             | Some e => wp (maap_sm_start 2 p r e info) (λ _ w', stepped p q r i x w w')
             | None => λ _, False end) w.
Proof.
  intros Hx Hq Hok Hk Hfr Hms Hstep. pose proof Hok as (_ & _ & _ & Hsm).
  eapply wp_mono; [eapply (lose_effect 0 p r q info k x); [done|done|apply Hsm]|].
  intros [e|] w1 H; [|by cbn in H]. eapply wp_mono; [exact H|]. intros ? w2 [n E].
  set (new := maap_generate_address (answer n OsRandom) (mac_count x)) in *.
  eexists _, new. rewrite Hfr, Hms. split_and!.
  - eapply effect_eq; [exact E|done| |done]. by destruct k.
  - by destruct k.
  - eapply (generated_ok x _ n); [done|by apply moved_sm_ok|by destruct k|by destruct k].
  - destruct (abs_range x) as [s|] eqn:Es; cbn [fmap option_fmap option_map].
    + rewrite (Hstep new s) by done. by destruct k.
    + unfold abs_range, sm_phase in Es. destruct k; rewrite Hk in Es; done.
Qed.

(** The steps that change nothing. *)
Lemma stay_stepped p r q i x w :
  ranges (w_st w) !! r = Some x → range_ok x →
  spec_frames p i x x = [] → spec_messages (port_id q) i x x = [] →
  (∀ s new, abs_range x = Some s → spec_step (input_event i) (input_lower i) new s = s) →
  stepped p q r i x w w.
Proof.
  intros Hx Hok Hf Hm Hs. exists x, mac_zero. rewrite Hf, Hm. split_and!; [by apply effect_refl|done|done|].
  destruct (abs_range x) as [s|]; [|done]. cbn. by rewrite (Hs s mac_zero).
Qed.

Lemma rprobe_stepped p r q i x w :
  ranges (w_st w) !! r = Some x → port (w_st w) !! p = Some q → range_ok x →
  wp (maap_sm r p MAAP_EVENT_RPROBE (Some i)) (λ _, stepped p q r (InProbe i) x w) w.
Proof.
  intros Hx Hq Hok. pose proof Hok as (_ & _ & _ & Hsm & _ & Hst). unfold maap_sm.
  eapply sm_start_pass; [done|]. cbn [maap_sm_event]. unfold maap_sm_rprobe.
  destruct (state (sm x)) eqn:Es; [done| |].
  - cbn [deref]. wp_step.
    destruct (maap_compare_MAC _ _) eqn:Ec; cbn [negb].
    + unfold stay. wp_step. apply stay_stepped; [done|done| | |].
      * unfold spec_frames. rewrite Es; cbn; by rewrite Ec.
      * unfold spec_messages. rewrite Es; cbn; by rewrite Ec.
      * intros s new Hs. unfold abs_range, sm_phase in Hs. rewrite Es in Hs. injection Hs as <-. cbn. by rewrite Ec.
    + eapply wp_mono;
      [eapply (lose_stepped p r q (InProbe i) _ ProbeTimer); [done|done|done|done| | |]|by intros [e|] w' H].
      * intros x'. unfold spec_frames. rewrite Es; cbn; by rewrite Ec.
      * intros x'. unfold spec_messages. rewrite Es; cbn; by rewrite Ec.
      * intros new s Hs. unfold abs_range, sm_phase in Hs. rewrite Es in Hs. injection Hs as <-. cbn. by rewrite Ec.
  - eapply effect_bind; [by apply net_transmit_effect|]. intros w1 E1. unfold stay. wp_step.
    exists x, mac_zero. split_and!; [|done|done|].
    + eapply effect_eq; [exact E1|done| |]; unfold spec_frames, spec_messages; by rewrite Es.
    + unfold abs_range, sm_phase. by rewrite Es.
Qed.

Lemma rdefend_rannounce_stepped p r q i info x w :
  i = InDefend info ∨ i = InAnnounce info →
  ranges (w_st w) !! r = Some x → port (w_st w) !! p = Some q → range_ok x →
  wp (do_input r p i) (λ _, stepped p q r i x w) w.
Proof.
  intros Hi Hx Hq Hok. pose proof Hok as (_ & _ & _ & Hsm & _ & Hst).
  assert (Hdo : do_input r p i = maap_sm_start 3 p r (input_event i) (Some info)) by (by destruct Hi as [-> | ->]).
  assert (Hev : ∀ st, maap_sm_event p r st (input_event i) (Some info) = maap_sm_rdefend_rannounce r st (Some info))
    by (by destruct Hi as [-> | ->]).
  rewrite Hdo. eapply sm_start_pass; [done|]. rewrite Hev. clear Hdo Hev. unfold maap_sm_rdefend_rannounce.
  destruct (state (sm x)) eqn:Es; [done| |].
  - eapply wp_mono;
      [eapply (lose_stepped p r q i _ ProbeTimer); [done|done|done|done| | |]|by intros [e|] w' H].
    + intros x'. unfold spec_frames. rewrite Es. by destruct Hi as [-> | ->].
    + intros x'. unfold spec_messages. rewrite Es. by destruct Hi as [-> | ->].
    + intros new s Hs. unfold abs_range, sm_phase in Hs. rewrite Es in Hs. injection Hs as <-.
      by destruct Hi as [-> | ->].
  - cbn [deref]. wp_step.
    destruct (maap_compare_MAC _ _) eqn:Ec; cbn [negb].
    + unfold stay. wp_step. apply stay_stepped; [done|done| | |].
      * unfold spec_frames. rewrite Es. destruct Hi as [-> | ->]; cbn; by rewrite Ec.
      * unfold spec_messages. rewrite Es. destruct Hi as [-> | ->]; cbn; by rewrite Ec.
      * intros s new Hs. unfold abs_range, sm_phase in Hs. rewrite Es in Hs. injection Hs as <-.
        destruct Hi as [-> | ->]; cbn; by rewrite Ec.
    + eapply wp_mono;
      [eapply (lose_stepped p r q i _ AnnounceTimer); [done|done|done|done| | |]|by intros [e|] w' H].
      * intros x'. unfold spec_frames. rewrite Es. destruct Hi as [-> | ->]; cbn; by rewrite Ec.
      * intros x'. unfold spec_messages. rewrite Es. destruct Hi as [-> | ->]; cbn; by rewrite Ec.
      * intros new s Hs. unfold abs_range, sm_phase in Hs. rewrite Es in Hs. injection Hs as <-.
        destruct Hi as [-> | ->]; cbn; by rewrite Ec.
Qed.

Lemma reserved_ok x x0 : range_ok x → sm_ok (sm (reserved x0)) → mac_count x0 = mac_count x →
  start_mac_addr x0 = start_mac_addr x → range_ok (reserved x0).
Proof. intros (?&?&?&?) ? Hc Ha. unfold range_ok. cbn. by rewrite Ha, Hc. Qed.

(** The range stops its timer and reserves its own address again. *)
Lemma again_effect fuel p r info k x w :
  ranges (w_st w) !! r = Some x → st_created (probe_timer (sm x)) = true →
  let x0 := match k with ProbeTimer => stopped_probe x | AnnounceTimer => stopped_announce x end in
  wp (timer_stop r k;; set_state r MAAP_STATE_INITIAL;; goto MAAP_EVENT_RESERVE_ADDRESS)
    (λ next, match next with
             | Some e => wp (maap_sm_start (S fuel) p r e info)
                (λ _ w', effect r (reserved x0) [probe_frame p (reserved x0)] [] w w')
             | None => λ _, False end) w.
Proof.
  intros Hx Hc x0. eapply effect_bind; [by apply timer_stop_effect|]. intros w1 E1.
  eapply effect_bind; [eapply set_range_effect, effect_lookup, E1|]. intros w2 E2.
  pose proof (effect_trans _ _ _ _ _ _ _ _ _ _ E1 E2) as E12.
  assert (E : effect r x0 [] [] w w2) by (eapply effect_eq; [exact E12|by destruct k|done|done]).
  clear E1 E2 E12. unfold goto. wp_step.
  eapply wp_mono; [eapply (reserve_effect _ _ _ _ x0); [eapply effect_lookup, E|by destruct k|by destruct k]|].
  intros ? w3 E3. eapply effect_eq; [exact (effect_trans _ _ _ _ _ _ _ _ _ _ E E3)|done|done|done].
Qed.

Lemma operational_stepped p r q x w :
  ranges (w_st w) !! r = Some x → range_ok x →
  wp (maap_sm r p MAAP_EVENT_PORT_OPERATIONAL None) (λ _, stepped p q r InOperational x w) w.
Proof.
  intros Hx Hok. pose proof Hok as (_ & _ & _ & Hc1 & Hc2 & Hst). unfold maap_sm.
  eapply sm_start_pass; [done|]. cbn [maap_sm_event]. unfold maap_sm_port_operational.
  assert (Hdone : ∀ k w1, (match k with ProbeTimer => state (sm x) = MAAP_STATE_PROBE | AnnounceTimer => state (sm x) = MAAP_STATE_DEFEND end) →
    let x0 := match k with ProbeTimer => stopped_probe x | AnnounceTimer => stopped_announce x end in
    effect r (reserved x0) [probe_frame p (reserved x0)] [] w w1 → stepped p q r InOperational x w w1).
  { intros k w1 Hk x0 E. exists (reserved x0), mac_zero. split_and!.
    - eapply effect_eq; [exact E|done| |]; unfold spec_frames, spec_messages; by destruct (state (sm x)).
    - by destruct k.
    - apply (reserved_ok x); [done| |by destruct k..].
      unfold sm_ok in *. destruct k; rewrite Hk in Hst; cbn; unfold MAAP_PROBE_RETRANSMITS_VAL; naive_solver lia.
    - unfold abs_range, sm_phase. destruct k; rewrite Hk; done. }
  destruct (state (sm x)) eqn:Es; [done| |].
  - eapply wp_mono; [by eapply (again_effect 1 p r None ProbeTimer x)|]. intros [e|] w1 H; [|by cbn in H].
    eapply wp_mono; [exact H|]. intros ? w2 E. by apply (Hdone ProbeTimer).
  - eapply wp_mono; [by eapply (again_effect 1 p r None AnnounceTimer x)|]. intros [e|] w1 H; [|by cbn in H].
    eapply wp_mono; [exact H|]. intros ? w2 E. by apply (Hdone AnnounceTimer).
Qed.

Lemma announce_timer_stepped p r q x w :
  ranges (w_st w) !! r = Some x → range_ok x → range_port x = p →
  st_running (announce_timer (sm x)) = true →
  wp (timer_expires r AnnounceTimer) (λ _, stepped p q r (InTimer AnnounceTimer) x w) w.
Proof.
  intros Hx Hok Hp Hrun. pose proof Hok as (Hcnt & Hmac & Hpool & Hc1 & Hc2 & Hst). unfold timer_expires.
  destruct (state (sm x)) eqn:Es; [done|destruct Hst as (?&?&?); congruence|].
  eapply effect_bind; [by apply timer_stop_effect|]. intros w1 E1.
  unfold maap_announce_timer_handler. apply wp_bind. eapply wp_get_range; [eapply effect_lookup, E1|].
  unfold maap_sm. eapply sm_start_pass; [eapply effect_lookup, E1|]. cbn [maap_sm_event].
  match goal with |- wp (maap_sm_announce_timer _ _ ?s) _ _ => change s with (state (sm x)) end.
  rewrite Es. cbn [maap_sm_announce_timer].
  eapply effect_bind.
  { eapply maap_sannounce_effect; [eapply effect_lookup, E1|done|reflexivity]. }
  intros w2 E2. unfold stay. wp_step.
  exists x, mac_zero. split_and!; [|done|done|].
  - eapply effect_eq; [exact (effect_trans _ _ _ _ _ _ _ _ _ _ E1 E2)| | |].
    + destruct x as [? ? ? ? [? ? [? ?] ? ? ?]]; cbn in *. unfold over, over_field; cbn. by subst.
    + unfold spec_frames. rewrite Es. cbn. by rewrite Hp.
    + done.
  - unfold abs_range, sm_phase. by rewrite Es.
Qed.

Lemma probe_timer_stepped p r q x w :
  ranges (w_st w) !! r = Some x → port (w_st w) !! p = Some q → range_ok x → range_port x = p →
  st_running (probe_timer (sm x)) = true →
  wp (timer_expires r ProbeTimer) (λ _, stepped p q r (InTimer ProbeTimer) x w) w.
Proof.
  intros Hx Hq Hok Hp Hrun. pose proof Hok as (Hcnt & Hmac & Hpool & Hc1 & Hc2 & Hst). unfold timer_expires.
  destruct (state (sm x)) eqn:Es; [done| |destruct Hst as (?&?&?); congruence].
  destruct Hst as (_ & Hann & Hn).
  eapply effect_bind; [by apply timer_stop_effect|]. intros w1 E1.
  unfold maap_probe_timer_handler. apply wp_bind. eapply wp_get_range; [eapply effect_lookup, E1|].
  unfold maap_sm. eapply sm_start_pass; [eapply effect_lookup, E1|]. cbn [maap_sm_event].
  match goal with |- wp (maap_sm_probe_timer _ _ ?s) _ _ => change s with (state (sm x)) end.
  rewrite Es. cbn [maap_sm_probe_timer].
  eapply effect_bind; [by eapply maap_sprobe_effect; [eapply effect_lookup, E1|]|]. intros w2 E2.
  pose proof (effect_trans _ _ _ _ _ _ _ _ _ _ E1 E2) as E12.
  eapply effect_bind; [eapply set_range_effect, effect_lookup, E12|]. intros w3 E3.
  pose proof (effect_trans _ _ _ _ _ _ _ _ _ _ E12 E3) as E13.
  apply wp_bind. eapply wp_get_range; [eapply effect_lookup, E13|].
  set (x3 := x <| sm ::= λ s, s <| maap_probe_count ::= λ n, n - 1 |> |>).
  assert (E : effect r x3 [probe_frame p x] [] w w3).
  { eapply effect_eq; [exact E13| |by cbn; rewrite Hp|done].
    destruct x as [? ? ? ? [? ? ? [? ?] ? ?]]; unfold x3, over, over_field; cbn in *.
    rewrite u32_small by lia. unfold running, soft_stop, over, over_field; cbn. by subst. }
  match goal with |- wp (if maap_probe_count (sm ?y) <=? 0 then _ else _) _ _ =>
    replace (maap_probe_count (sm y)) with (maap_probe_count (sm x) - 1) end.
  2:{ cbn. rewrite u32_small by lia. done. }
  clear E1 E2 E12 E3 E13. assert (Hx3 : ranges (w_st w3) !! r = Some x3) by eapply effect_lookup, E.
  destruct (Z.leb_spec (maap_probe_count (sm x) - 1) 0) as [Hz|Hz].
  - unfold goto. wp_step. eapply sm_start_pass; [done|]. cbn [maap_sm_event].
    match goal with |- wp (maap_sm_probe_count _ _ ?s) _ _ => change s with (state (sm x)) end.
    rewrite Es. cbn [maap_sm_probe_count].
    eapply effect_bind; [by apply timer_stop_effect|]. intros w4 E4.
    apply wp_bind. eapply wp_get_range; [eapply effect_lookup, E4|].
    assert (Hq4 : port (w_st w4) !! p = Some q).
    { rewrite (effect_port _ _ _ _ _ _ E4), (effect_port _ _ _ _ _ _ E). done. }
    apply wp_bind. eapply wp_get_port; [by rewrite <- Hp in Hq4 |].
    pose proof (effect_trans _ _ _ _ _ _ _ _ _ _ E E4) as E04.
    eapply effect_bind; [apply ipc_send_effect; eapply effect_lookup, E4|]. intros w5 E5.
    pose proof (effect_trans _ _ _ _ _ _ _ _ _ _ E04 E5) as E05.
    eapply effect_bind; [eapply set_range_effect, effect_lookup, E5|]. intros w6 E6.
    pose proof (effect_trans _ _ _ _ _ _ _ _ _ _ E05 E6) as E06.
    eapply effect_bind; [by eapply maap_sannounce_effect; [eapply effect_lookup, E6| |]|]. intros w7 E7.
    pose proof (effect_trans _ _ _ _ _ _ _ _ _ _ E06 E7) as E07.
    eapply effect_bind; [eapply set_range_effect, effect_lookup, E7|]. intros w8 E8.
    pose proof (effect_trans _ _ _ _ _ _ _ _ _ _ E07 E8) as E08.
    unfold stay. wp_step. eexists _, mac_zero. split_and!.
    + eapply effect_eq; [exact E08|reflexivity| |].
      * unfold spec_frames. rewrite Es. cbn. by rewrite Hp.
      * unfold spec_messages. rewrite Es. cbn. unfold status_msg, u16. by rewrite Zmod_mod.
    + done.
    + unfold range_ok, sm_ok. cbn. naive_solver.
    + unfold abs_range, sm_phase. cbn. rewrite Es. cbn.
      by replace (Z.to_nat (maap_probe_count (sm x))) with 1%nat by lia.
  - unfold stay. wp_step. exists x3, mac_zero. split_and!.
    + eapply effect_eq; [exact E|done| |].
      * unfold spec_frames. rewrite Es. cbn. by rewrite Es.
      * unfold spec_messages. rewrite Es. cbn. by rewrite Es.
    + done.
    + unfold range_ok, sm_ok. cbn. rewrite Es. naive_solver lia.
    + unfold abs_range, sm_phase. cbn. rewrite Es. cbn.
      replace (Z.to_nat (maap_probe_count (sm x))) with (S (Z.to_nat (maap_probe_count (sm x) - 1))) by lia.
      by destruct (Z.to_nat (maap_probe_count (sm x) - 1)) eqn:?; [lia|].
Qed.

Lemma input_stepped p r q i x w :
  ranges (w_st w) !! r = Some x → port (w_st w) !! p = Some q → range_ok x → range_port x = p →
  input_enabled i x = true →
  wp (do_input r p i) (λ _, stepped p q r i x w) w.
Proof.
  intros Hx Hq Hok Hp Hen. destruct i as [i|i|i|[]|].
  - by apply rprobe_stepped.
  - by apply (rdefend_rannounce_stepped p r q _ i); [left|..].
  - by apply (rdefend_rannounce_stepped p r q _ i); [right|..].
  - by apply probe_timer_stepped.
  - by apply announce_timer_stepped.
  - by apply operational_stepped.
Qed.
End refinement.

(** ** The invariant of the context *)

Record port_ok (c : maap_ctx) (p : nat) (q : maap_port) (l : list nat) : Prop := {
  po_id : port_id q = Z.of_nat p;
  po_init : initialized q = true;
  po_list : range q = Some l;
  po_nodup : NoDup l;
  po_count : allocated_ranges_count q = Z.of_nat (length l);
  po_max : (length l ≤ 128)%nat;
  po_ranges : ∀ r, r ∈ l → ∃ x, ranges c !! r = Some x ∧ range_port x = p ∧ range_ok x;
  po_ids : ∀ r1 r2 x1 x2, r1 ∈ l → r2 ∈ l → ranges c !! r1 = Some x1 → ranges c !! r2 = Some x2 →
             range_id x1 = range_id x2 → r1 = r2;
}.

(** The ranges of an initialised port are well formed with distinct ids, a port
    that is not initialised has none, and every allocated range is in the list
    of its port. *)
Record ctx_ok (c : maap_ctx) : Prop := {
  ctx_max : port_max c = Z.of_nat (length (port c));
  ctx_ports : ∀ p q, port c !! p = Some q →
    if initialized q then ∃ l, port_ok c p q l else default [] (range q) = [];
  ctx_owned : ∀ r x, ranges c !! r = Some x → r ∈ port_ranges (range_port x) c;
}.

Lemma port_ranges_ok c p q l : port c !! p = Some q → port_ok c p q l → port_ranges p c = l.
Proof. intros Hq Hok. unfold port_ranges. by rewrite Hq, (po_list _ _ _ _ Hok). Qed.

Lemma ctx_range c r x : ctx_ok c → ranges c !! r = Some x →
  ∃ q l, port c !! range_port x = Some q ∧ port_ok c (range_port x) q l ∧ r ∈ l ∧ range_ok x.
Proof.
  intros Hok Hx. pose proof (ctx_owned _ Hok _ _ Hx) as Hin.
  destruct (port c !! range_port x) as [q|] eqn:Hq.
  2:{ unfold port_ranges in Hin. rewrite Hq in Hin. set_solver. }
  pose proof (ctx_ports _ Hok _ _ Hq) as Hp. destruct (initialized q).
  2:{ unfold port_ranges in Hin. rewrite Hq, Hp in Hin. set_solver. }
  destruct Hp as [l Hl]. rewrite (port_ranges_ok _ _ q l) in Hin by done.
  exists q, l. split_and!; [done..|]. destruct (po_ranges _ _ _ _ Hl r Hin) as (x'&?&?&?). by simplify_eq.
Qed.

(** Updating a range in place. *)
Lemma ctx_upd c r x x' : ctx_ok c → ranges c !! r = Some x → same_range x x' → range_ok x' →
  ctx_ok (upd_range r x' c).
Proof.
  intros Hok Hx (Sp & Si & Sc) Hx'.
  assert (Hlk : ∀ r0, (r0 = r ∧ ranges (upd_range r x' c) !! r0 = Some x') ∨
                      (r0 ≠ r ∧ ranges (upd_range r x' c) !! r0 = ranges c !! r0)).
  { intros r0. unfold upd_range; cbn. destruct (decide (r0 = r)) as [->|].
    - left. by rewrite lookup_insert_eq.
    - right. by rewrite lookup_insert_ne. }
  split.
  - apply (ctx_max _ Hok).
  - intros p q Hq. pose proof (ctx_ports _ Hok p q Hq) as Hpq.
    destruct (initialized q); [|done]. destruct Hpq as [l Hl]. exists l.
    destruct Hl as [? ? ? ? ? ? Hr Hi]. split; try done.
    + intros r0 Hr0. destruct (Hr r0 Hr0) as (x0 & Hx0 & Hp0 & Hok0).
      destruct (Hlk r0) as [[-> ->]|[_ ->]]; [|by eauto]. simplify_eq. eauto.
    + intros r1 r2 x1 x2 H1 H2 E1 E2 Heq.
      destruct (Hlk r1) as [[-> F1]|[? F1]], (Hlk r2) as [[-> F2]|[? F2]]; rewrite F1 in E1; rewrite F2 in E2; simplify_eq.
      * done.
      * apply (Hi _ _ x x2); [done..|congruence].
      * apply (Hi _ _ x1 x); [done..|congruence].
      * by apply (Hi _ _ x1 x2).
  - intros r0 x0 E0. change (port_ranges (range_port x0) (upd_range r x' c)) with (port_ranges (range_port x0) c).
    destruct (Hlk r0) as [[-> F]|[? F]]; rewrite F in E0; simplify_eq.
    + rewrite Sp. by apply (ctx_owned _ Hok).
    + by apply (ctx_owned _ Hok).
Qed.

Section handlers.
Context `{!Platform maap_call} (Hrnd : random_ok).
Implicit Types (w : world maap_call maap_ctx).

(** A traversal of the ranges of a port in which each range is left alone or
    takes one input, according to [sel]. *)
Definition swept (p : nat) (q : maap_port) (sel : maap_range → option maap_input)
    (l : list nat) (c c' : maap_ctx) : Prop :=
  ctx_ok c' ∧ port c' = port c ∧ port_max c' = port_max c ∧ dom (ranges c') = dom (ranges c) ∧
  (∀ r, r ∉ l → ranges c' !! r = ranges c !! r) ∧
  (∀ r x, r ∈ l → ranges c !! r = Some x →
     ∃ x', ranges c' !! r = Some x' ∧
       match sel x with
       | None => x' = x
       | Some i => same_range x x' ∧ ∃ new,
           abs_range x' = spec_step (input_event i) (input_lower i) new <$> abs_range x
       end).

Lemma sweep_spec p q l sel (body : nat → MM unit) w :
  ctx_ok (w_st w) → port (w_st w) !! p = Some q → port_ok (w_st w) p q l →
  (∀ x i, sel x = Some i → input_enabled i x = true) →
  (∀ r x w1, port (w_st w1) = port (w_st w) → ranges (w_st w1) !! r = Some x → range_ok x → range_port x = p →
     match sel x with
     | None => body r w1 = Done (tt, w1)
     | Some i => wp (body r) (λ _, stepped p q r i x w1) w1
     end) →
  wp (list_each (port_ranges p) body) (λ _ w', swept p q sel l (w_st w) (w_st w')) w.
Proof.
  intros Hok Hq Hl Hen Hbody.
  assert (Hpr : port_ranges p (w_st w) = l) by by eapply port_ranges_ok.
  eapply wp_mono; [apply (wp_list_each (port_ranges p) (λ k w', ∃ pre, l = pre ++ k ∧
     swept p q sel pre (w_st w) (w_st w')))|].
  - intros pre e k w1 Hnd Hg (pre' & Hl1 & Hok1 & Hport1 & Hmax1 & Hdom1 & Hout1 & Hin1).
    assert (Hpr1 : port_ranges p (w_st w1) = l) by (unfold port_ranges in *; by rewrite Hport1).
    rewrite Hpr1 in Hg. assert (pre' = pre) as -> by (apply (app_inv_tail (e :: k)); congruence).
    assert (He : e ∈ l) by (rewrite Hl1; set_solver).
    assert (Hepre : e ∉ pre).
    { apply list.NoDup_app in Hnd as (_ & Hd & _). intros He'. apply (Hd e He'). by left. }
    destruct (po_ranges _ _ _ _ Hl e He) as (x & Hx & Hp & Hxok).
    assert (Hx1 : ranges (w_st w1) !! e = Some x) by (by rewrite Hout1).
    specialize (Hbody e x w1 Hport1 Hx1 Hxok Hp).
    assert (Hnd' : NoDup ((pre ++ [e]) ++ k)) by (by rewrite <- app_assoc).
    assert (Hl1' : l = (pre ++ [e]) ++ k) by (by rewrite <- app_assoc).
    destruct (sel x) as [i|] eqn:Esel.
    + eapply wp_mono; [exact Hbody|]. intros _ w2 (x' & new & [E2 _] & Hsame & Hok' & Habs).
      assert (Hok2 : ctx_ok (w_st w2)) by (rewrite E2; by eapply ctx_upd).
      assert (Hport2 : port (w_st w2) = port (w_st w)) by (rewrite E2; done).
      split; [exists (pre ++ [e]); split; [unfold port_ranges in *; by rewrite Hport2, <- Hl1'|done]|].
      exists (pre ++ [e]). split; [done|]. split_and!; [done|done|by rewrite E2| | |].
      * rewrite E2. unfold upd_range; cbn. rewrite dom_insert_lookup_L by eauto. done.
      * intros r Hr. rewrite E2. unfold upd_range; cbn. rewrite lookup_insert_ne by set_solver.
        apply Hout1. set_solver.
      * intros r y Hr Hy. rewrite E2. unfold upd_range; cbn. destruct (decide (r = e)) as [->|Hne].
        -- rewrite lookup_insert_eq. simplify_eq. exists x'. rewrite Esel. eauto.
        -- rewrite lookup_insert_ne by done. apply Hin1; [set_solver|done].
    + unfold wp. rewrite Hbody.
      split; [exists (pre ++ [e]); split; [by rewrite Hpr1, <- Hl1'|done]|].
      exists (pre ++ [e]). split; [done|]. split_and!; [done|done|done|done| |].
      * intros r Hr. apply Hout1. set_solver.
      * intros r y Hr Hy. destruct (decide (r = e)) as [->|Hne].
        -- exists x. simplify_eq. rewrite Esel. done.
        -- apply Hin1; [set_solver|done].
  - rewrite Hpr. apply (po_nodup _ _ _ _ Hl).
  - exists []. rewrite Hpr. split; [done|]. split_and!; try done. set_solver.
  - intros _ w' (pre & Hpre & Hs). rewrite app_nil_r in Hpre. by subst.
Qed.

(** The input that a received PDU is for a range, if any. *)
Definition pdu_info (q : maap_port) (src : mac) (pdu : maap_pdu) (ci : maap_conflict_info) : maap_range_info :=
  RangeInfo src (local_physical_mac q) (requested_start_address pdu) (ntohs (requested_count pdu)) ci.
Definition conflict_input (mk : maap_range_info → maap_input) (q : maap_port) (src : mac) (pdu : maap_pdu)
    (x : maap_range) : option maap_input :=
  (λ ci, mk (pdu_info q src pdu ci)) <$>
    are_ranges_in_conflict (start_mac_addr x) (mac_count x)
      (requested_start_address pdu) (ntohs (requested_count pdu)).
Definition defend_input (q : maap_port) (src : mac) (pdu : maap_pdu) (x : maap_range) : option maap_input :=
  if bool_decide (start_mac_addr x = requested_start_address pdu)
     && (mac_count x =? ntohs (requested_count pdu))
  then Some (InDefend (pdu_info q src pdu
         (ConflictInfo (conflict_start_address pdu) (ntohs (conflict_count pdu)))))
  else None.
Definition pdu_input (q : maap_port) (src : mac) (pdu : maap_pdu) (x : maap_range) : option maap_input :=
  if negb (subtype pdu =? AVTP_SUBTYPE_MAAP) then None
  else if message_type pdu =? MAAP_PROBE then conflict_input InProbe q src pdu x
  else if message_type pdu =? MAAP_ANNOUNCE then conflict_input InAnnounce q src pdu x
  else if message_type pdu =? MAAP_DEFEND then defend_input q src pdu x
  else None.

Lemma get_range_done r x w : ranges (w_st w) !! r = Some x → get_range r w = Done (x, w).
Proof. intros Hx. unfold get_range, bind, gets. by rewrite Hx. Qed.

Lemma sweep_none p q l c : ctx_ok c → swept p q (λ _, None) l c c.
Proof. intros Hok. split_and!; try done. eauto. Qed.

Lemma swept_ext p q sel sel' l c c' : (∀ x, sel x = sel' x) → swept p q sel l c c' → swept p q sel' l c c'.
Proof.
  intros He (?&?&?&?&?&H). split_and!; try done. intros r x Hr Hx.
  destruct (H r x Hr Hx) as (x'&?&Hs). exists x'. split; [done|]. by rewrite <- He.
Qed.

Lemma handle_probe_swept p q l pdu src w :
  ctx_ok (w_st w) → port (w_st w) !! p = Some q → port_ok (w_st w) p q l →
  wp (maap_handle_probe p pdu src) (λ _ w', swept p q (conflict_input InProbe q src pdu) l (w_st w) (w_st w')) w.
Proof.
  intros Hok Hq Hl. unfold maap_handle_probe. apply wp_bind.
  eapply wp_get_ranges; [done|apply (po_list _ _ _ _ Hl)|].
  eapply sweep_spec; [done..| |].
  - intros x i. unfold conflict_input. by destruct (are_ranges_in_conflict _ _ _ _) as [ci|]; intros [= <-].
  - intros r x w1 Hport Hx Hxok Hp. unfold conflict_input.
    destruct (are_ranges_in_conflict (start_mac_addr x) _ _ _) as [ci|] eqn:Ec; cbn [fmap option_fmap option_map].
    + apply wp_bind. eapply wp_get_range; [done|]. rewrite Ec.
      apply wp_bind. eapply wp_get_port; [by rewrite Hport|]. apply (rprobe_stepped Hrnd); [done| |done].
      by rewrite Hport.
    + unfold bind. rewrite (get_range_done r x) by done. by rewrite Ec.
Qed.

Lemma handle_announce_swept p q l pdu src w :
  ctx_ok (w_st w) → port (w_st w) !! p = Some q → port_ok (w_st w) p q l →
  wp (maap_handle_announce p pdu src) (λ _ w', swept p q (conflict_input InAnnounce q src pdu) l (w_st w) (w_st w')) w.
Proof.
  intros Hok Hq Hl. unfold maap_handle_announce. apply wp_bind.
  eapply wp_get_ranges; [done|apply (po_list _ _ _ _ Hl)|].
  eapply sweep_spec; [done..| |].
  - intros x i. unfold conflict_input. by destruct (are_ranges_in_conflict _ _ _ _) as [ci|]; intros [= <-].
  - intros r x w1 Hport Hx Hxok Hp. unfold conflict_input.
    destruct (are_ranges_in_conflict (start_mac_addr x) _ _ _) as [ci|] eqn:Ec; cbn [fmap option_fmap option_map].
    + apply wp_bind. eapply wp_get_range; [done|]. rewrite Ec.
      apply wp_bind. eapply wp_get_port; [by rewrite Hport|].
      apply (rdefend_rannounce_stepped Hrnd p r q (InAnnounce (pdu_info q src pdu ci)) (pdu_info q src pdu ci)); [by right|done| |done].
      by rewrite Hport.
    + unfold bind. rewrite (get_range_done r x) by done. by rewrite Ec.
Qed.

Lemma handle_defend_swept p q l pdu src w :
  ctx_ok (w_st w) → port (w_st w) !! p = Some q → port_ok (w_st w) p q l →
  wp (maap_handle_defend p pdu src) (λ _ w', swept p q (defend_input q src pdu) l (w_st w) (w_st w')) w.
Proof.
  intros Hok Hq Hl. unfold maap_handle_defend. apply wp_bind.
  eapply wp_get_ranges; [done|apply (po_list _ _ _ _ Hl)|].
  eapply sweep_spec; [done..| |].
  - intros x i. unfold defend_input. by destruct (_ && _); intros [= <-].
  - intros r x w1 Hport Hx Hxok Hp. unfold defend_input.
    destruct (bool_decide (start_mac_addr x = _) && _) eqn:Ec.
    + apply wp_bind. eapply wp_get_range; [done|]. rewrite Ec.
      apply wp_bind. eapply wp_get_port; [by rewrite Hport|].
      set (info := pdu_info q src pdu
        (ConflictInfo (conflict_start_address pdu) (ntohs (conflict_count pdu)))).
      apply (rdefend_rannounce_stepped Hrnd p r q (InDefend info) info); [by left|done| |done].
      by rewrite Hport.
    + unfold bind. rewrite (get_range_done r x) by done. by rewrite Ec.
Qed.

Lemma net_receive_swept p q l ethertype src mem w :
  ctx_ok (w_st w) → port (w_st w) !! p = Some q → port_ok (w_st w) p q l →
  wp (maap_net_receive p ethertype src mem) (λ _ w',
    swept p q (λ x, if ethertype =? ETHERTYPE_AVTP then pdu_input q src (read_pdu mem) x else None) l
      (w_st w) (w_st w')) w.
Proof.
  intros Hok Hq Hl. unfold maap_net_receive. apply wp_bind.
  eapply wp_mono with (P := λ _ w', swept p q
    (λ x, if ethertype =? ETHERTYPE_AVTP then pdu_input q src (read_pdu mem) x else None) l (w_st w) (w_st w')).
  2:{ intros _ w' H. by wp_step. }
  unfold pdu_input. destruct (ethertype =? ETHERTYPE_AVTP); cbn [negb].
  2:{ wp_step. by apply sweep_none. }
  destruct (subtype (read_pdu mem) =? AVTP_SUBTYPE_MAAP); cbn [negb].
  2:{ wp_step. by apply sweep_none. }
  destruct (message_type (read_pdu mem) =? MAAP_PROBE); [by apply handle_probe_swept|].
  destruct (message_type (read_pdu mem) =? MAAP_ANNOUNCE); [by apply handle_announce_swept|].
  destruct (message_type (read_pdu mem) =? MAAP_DEFEND); [by apply handle_defend_swept|].
  wp_step. by apply sweep_none.
Qed.

Lemma mac_service_swept p q l status w :
  ctx_ok (w_st w) → port (w_st w) !! p = Some q → port_ok (w_st w) p q l →
  wp (maap_ipc_rx_mac_service p status) (λ _ w',
    swept p q (λ x, match status with Some true => Some InOperational | _ => None end) l (w_st w) (w_st w')) w.
Proof.
  intros Hok Hq Hl. unfold maap_ipc_rx_mac_service. apply wp_bind.
  eapply wp_mono with (P := λ _ w', swept p q
    (λ x, match status with Some true => Some InOperational | _ => None end) l (w_st w) (w_st w')).
  2:{ intros _ w' H. by wp_step. }
  destruct status as [[]|]; [|wp_step; by apply sweep_none..].
  apply wp_bind. eapply wp_get_ranges; [done|apply (po_list _ _ _ _ Hl)|].
  eapply sweep_spec; [done..| |].
  - by intros x i [= <-].
  - intros r x w1 Hport Hx Hxok Hp. by apply operational_stepped.
Qed.

(** The logical ports, and which ports are initialised, do not change. *)
Definition port_key (q : maap_port) : Z * bool := (logical_port q, initialized q).
Definition same_ports (c c' : maap_ctx) : Prop :=
  port_max c' = port_max c ∧ port_key <$> port c' = port_key <$> port c.
#[global] Instance same_ports_preorder : PreOrder same_ports.
Proof. split; [done|]. intros c1 c2 c3 [H1 H2] [H3 H4]. split; congruence. Qed.

Lemma timer_expires_ok r k x w :
  ctx_ok (w_st w) → ranges (w_st w) !! r = Some x → input_enabled (InTimer k) x = true →
  wp (timer_expires r k) (λ _ w', ctx_ok (w_st w') ∧ same_ports (w_st w) (w_st w')) w.
Proof.
  intros Hok Hx Hen. destruct (ctx_range _ _ _ Hok Hx) as (q & l & Hq & Hl & _ & Hxok).
  eapply wp_mono; [by apply (input_stepped Hrnd (range_port x) r q (InTimer k) x)|].
  intros _ w' (x' & new & [E _] & Hs & Hok' & _). rewrite E. split; [by eapply ctx_upd|done].
Qed.

(** ** Creation *)

Definition id_used (c : maap_ctx) (l : list nat) (id : Z) : Prop :=
  ∃ r x, r ∈ l ∧ ranges c !! r = Some x ∧ range_id x = id.
(** An address range conflicts with one of the list. *)
Definition clashes (c : maap_ctx) (l : list nat) (a : mac) (n : Z) : Prop :=
  ∃ r x, r ∈ l ∧ ranges c !! r = Some x ∧
    is_Some (are_ranges_in_conflict (start_mac_addr x) (mac_count x) a n).

(** The requests that the code refuses whatever the platform does. *)
Definition inadmissible (c : maap_ctx) (l : list nat) (id : Z) (addr : option mac) (n : Z) : Prop :=
  n ≤ 0 ∨ MAAP_DYNAMIC_POOL_SIZE < n ∨ (128 ≤ length l)%nat ∨ id_used c l id ∨
  (∃ a, addr = Some a ∧ (maap_is_in_dynamic_pool a n = false ∨ clashes c l a n)).
(** What else can make a creation fail: memory, timers, or a random address
    that falls on a range of the port. *)
Definition platform_refuses (c : maap_ctx) (l : list nat) (addr : option mac) (n : Z) : Prop :=
  (∃ k, answer k OsMalloc = 0) ∨ (∃ k r t, answer k (TimerCreate r t) < 0) ∨
  (addr = None ∧ ∃ k, clashes c l (maap_generate_address (answer k OsRandom) n) n).

Lemma search_id_spec p q l id w :
  port_ok (w_st w) p q l →
  wp (list_search l (λ r, let! x := get_range r in ret (range_id x =? id))) (λ o w', w' = w ∧
    match o with
    | Some r => r ∈ l ∧ ∃ x, ranges (w_st w) !! r = Some x ∧ range_id x = id
    | None => ¬ id_used (w_st w) l id
    end) w.
Proof.
  intros Hl.
  eapply (wp_list_search (λ r, match ranges (w_st w) !! r with Some x => range_id x =? id | None => false end)).
  - intros r Hr. destruct (po_ranges _ _ _ _ Hl r Hr) as (x & Hx & _).
    unfold bind. rewrite (get_range_done r x) by done. by rewrite Hx.
  - split; [done|]. destruct (find _ l) as [r|] eqn:Ef.
    + apply find_some in Ef as [Hin Hf]. rewrite <- list_elem_of_In in Hin. split; [done|].
      destruct (ranges (w_st w) !! r) as [x|]; [|done]. apply Z.eqb_eq in Hf. eauto.
    + intros (r & x & Hin & Hx & Hid). rewrite list_elem_of_In in Hin.
      pose proof (find_none _ _ Ef r Hin) as Hf. cbn in Hf. rewrite Hx in Hf.
      by apply Z.eqb_neq in Hf.
Qed.

Lemma get_range_by_id_spec p q l id w :
  port (w_st w) !! p = Some q → port_ok (w_st w) p q l →
  wp (get_range_by_id p id) (λ o w', w' = w ∧
    match o with
    | Some r => r ∈ l ∧ ∃ x, ranges (w_st w) !! r = Some x ∧ range_id x = id
    | None => ¬ id_used (w_st w) l id
    end) w.
Proof.
  intros Hq Hl. unfold get_range_by_id. apply wp_bind.
  eapply wp_get_ranges; [done|apply (po_list _ _ _ _ Hl)|]. by eapply search_id_spec.
Qed.

Lemma check_internal_conflict_spec p q l y w :
  port (w_st w) !! p = Some q → range q = Some l →
  (∀ r, r ∈ l → ∃ x, ranges (w_st w) !! r = Some x) →
  wp (check_internal_conflict p y) (λ b w', w' = w ∧
    if b : bool then clashes (w_st w) l (start_mac_addr y) (mac_count y)
    else ¬ clashes (w_st w) l (start_mac_addr y) (mac_count y)) w.
Proof.
  intros Hq Hl Hr. unfold check_internal_conflict. apply wp_bind. eapply wp_get_ranges; [done|done|].
  apply wp_bind.
  eapply (wp_list_search (λ r, match ranges (w_st w) !! r with
    | Some x => match are_ranges_in_conflict (start_mac_addr x) (mac_count x) (start_mac_addr y) (mac_count y) with
                | Some _ => true | None => false end
    | None => false end)).
  - intros r Hin. destruct (Hr r Hin) as (x & Hx).
    unfold bind. rewrite (get_range_done r x) by done. by rewrite Hx.
  - wp_step. split; [done|]. destruct (find _ l) as [r|] eqn:Ef.
    + apply find_some in Ef as [Hin Hf]. rewrite <- list_elem_of_In in Hin.
      destruct (ranges (w_st w) !! r) as [x|] eqn:Hx; [|done]. exists r, x. split_and!; [done..|].
      by destruct (are_ranges_in_conflict _ _ _ _).
    + intros (r & x & Hin & Hx & [ci Hc]). rewrite list_elem_of_In in Hin.
      pose proof (find_none _ _ Ef r Hin) as Hf. cbn in Hf. by rewrite Hx, Hc in Hf.
Qed.

(** A range as [maap_range_alloc] leaves it. *)
Record new_range (p : nat) (id : Z) (addr : option mac) (n : Z) (x : maap_range) : Prop := {
  nr_port : range_port x = p;
  nr_id : range_id x = id;
  nr_count : mac_count x = n;
  nr_addr : match addr with
            | Some a => start_mac_addr x = a
            | None => ∃ k, start_mac_addr x = maap_generate_address (answer k OsRandom) n
            end;
  nr_state : state (sm x) = MAAP_STATE_INITIAL;
  nr_probes : maap_probe_count (sm x) = MAAP_PROBE_RETRANSMITS_VAL;
  nr_told : send_conflict_indication (sm x) = false;
  nr_probe : probe_timer (sm x) = SoftTimer true false;
  nr_announce : announce_timer (sm x) = SoftTimer true false;
}.

Lemma timer_create_effect r k x w :
  ranges (w_st w) !! r = Some x →
  wp (timer_create r k) (λ rc w', ∃ a, a = answer (w_clock w) (TimerCreate r k) ∧
      rc = (if a <? 0 then -1 else 0) ∧
      effect r (x <| sm ::= λ s, match k with
      | ProbeTimer => s <| probe_timer ::= soft_init rc |>
      | AnnounceTimer => s <| announce_timer ::= soft_init rc |> end |>) [] [] w w') w.
Proof.
  intros Hx. unfold timer_create. apply wp_bind. eapply wp_mono.
  { eapply wp_and; [by apply (perform_effect r x)|].
    wp_step. instantiate (1 := λ a _, a = answer (w_clock w) (TimerCreate r k)). done. }
  intros a w1 [E1 ->]. apply wp_bind.
  destruct k; (eapply wp_mono; [eapply set_range_effect, effect_lookup, E1|]).
  all: intros ? w2 E2; wp_step; eexists; split; [done|split; [done|]].
  all: exact (effect_trans _ _ _ _ _ _ _ _ _ _ E1 E2).
Qed.

Lemma timer_destroy_effect r k x w :
  ranges (w_st w) !! r = Some x →
  wp (timer_destroy r k) (λ _, effect r (x <| sm ::= λ s, match k with
      | ProbeTimer => s <| probe_timer := soft_none |>
      | AnnounceTimer => s <| announce_timer := soft_none |> end |>) [] [] w) w.
Proof.
  intros Hx. unfold timer_destroy. wp_step. eapply wp_get_range; [done|].
  destruct k; by apply (set_range_effect _ _ x).
Qed.

Lemma timers_init_effect r x w :
  ranges (w_st w) !! r = Some x →
  wp (maap_timers_init r) (λ rc w', ∃ x', effect r x' [] [] w w' ∧
    (rc = 0 ∧ x' = x <| sm ::= λ s, s <| probe_timer := SoftTimer true false |>
                                     <| announce_timer := SoftTimer true false |> |>
     ∨ rc = -1 ∧ ∃ k t, answer k (TimerCreate r t) < 0)) w.
Proof.
  intros Hx. unfold maap_timers_init. apply wp_bind.
  eapply wp_mono; [by apply (timer_create_effect r ProbeTimer x)|].
  intros rc w1 (a & Ha & -> & E1). destruct (Z.ltb_spec a 0) as [Hneg|Hpos].
  { cbn. wp_step. eexists. split; [exact E1|]. right. split; [done|]. exists (w_clock w), ProbeTimer. by rewrite <- Ha. }
  cbn -[maap_timers_init]. apply wp_bind.
  eapply wp_mono; [eapply timer_create_effect, effect_lookup, E1|].
  intros rc w2 (a2 & Ha2 & -> & E2). pose proof (effect_trans _ _ _ _ _ _ _ _ _ _ E1 E2) as E12.
  destruct (Z.ltb_spec a2 0) as [Hneg|Hpos2]; cbn -[maap_timers_init].
  - eapply effect_bind; [eapply timer_destroy_effect, effect_lookup, E12|]. intros w3 E3. wp_step.
    eexists. split; [exact (effect_trans _ _ _ _ _ _ _ _ _ _ E12 E3)|]. right. split; [done|].
    exists (w_clock w1), AnnounceTimer. by rewrite <- Ha2.
  - wp_step. eexists. split; [exact E12|]. left. split; [done|].
    destruct x as [? ? ? ? []]. done.
Qed.

(** Nothing was sent. *)
Definition quiet w w' : Prop :=
  healthy → frames (w_trace w') = frames (w_trace w) ∧ messages (w_trace w') = messages (w_trace w).

Lemma malloc_effect g w :
  wp (malloc_range g) (λ o w', match o with
    | None => w_st w' = w_st w ∧ quiet w w' ∧ ∃ k, answer k OsMalloc = 0
    | Some r => ranges (w_st w) !! r = None ∧ effect r g [] [] w w'
    end) w.
Proof.
  unfold malloc_range. wp_step. destruct (answer (w_clock w) OsMalloc =? 0) eqn:E; wp_step.
  - split; [done|]. split; [done|]. apply Z.eqb_eq in E. eauto.
  - split; [|done]. apply not_elem_of_dom, is_fresh.
Qed.

Lemma free_range_spec r x w0 w :
  ranges (w_st w0) !! r = None → effect r x [] [] w0 w →
  wp (free_range r) (λ o w', o = None ∧ w_st w' = w_st w0 ∧ quiet w0 w') w.
Proof.
  intros Hr [E T]. unfold free_range. wp_step. split; [done|]. split; [|intros Hh; by apply T].
  rewrite E. destruct w0 as [[] ? ?]; unfold upd_range, over, over_field; cbn in *.
  by rewrite delete_insert_id.
Qed.

Definition counted (p : nat) (c : maap_ctx) : maap_ctx :=
  c <| port ::= alter (λ q, q <| allocated_ranges_count ::= λ n, u32 (n + 1) |>) p |>.

Lemma range_alloc_spec g p q l id addr n w :
  ctx_ok (w_st w) → port (w_st w) !! p = Some q → port_ok (w_st w) p q l →
  wp (maap_range_alloc g p id addr n) (λ res w', quiet w w' ∧
    match res with
    | None => w_st w' = w_st w ∧ (inadmissible (w_st w) l id addr n ∨ platform_refuses (w_st w) l addr n)
    | Some r => ranges (w_st w) !! r = None ∧ ¬ inadmissible (w_st w) l id addr n ∧
        ∃ x, new_range p id addr n x ∧ ¬ clashes (w_st w) l (start_mac_addr x) n ∧
             w_st w' = counted p (upd_range r x (w_st w))
    end) w.
Proof.
  intros Hok Hq Hl. unfold maap_range_alloc.
  assert (Hrefuse : ∀ P : Prop, inadmissible (w_st w) l id addr n ∨ platform_refuses (w_st w) l addr n →
    wp (ret (@None nat)) (λ res w', quiet w w' ∧ match res with
      | None => w_st w' = w_st w ∧ (inadmissible (w_st w) l id addr n ∨ platform_refuses (w_st w) l addr n)
      | Some r => P end) w) by done.
  destruct ((MAAP_DYNAMIC_POOL_SIZE <? n) || (n <=? 0)) eqn:E1.
  { wp_step. split; [done|]. split; [done|]. left. apply orb_true_iff in E1. unfold inadmissible.
    destruct E1 as [E|E]; [apply Z.ltb_lt in E|apply Z.leb_le in E]; tauto. }
  apply orb_false_iff in E1 as [E1 E1']. apply Z.ltb_ge in E1. apply Z.leb_gt in E1'.
  match goal with |- wp (if ?b then _ else _) _ _ => destruct b eqn:E2 end.
  { wp_step. split; [done|]. split; [done|]. left. do 4 right.
    destruct addr as [a|]; [|done]. exists a. split; [done|]. left. by apply negb_true_iff. }
  apply wp_bind. eapply wp_get_port; [done|]. rewrite (po_count _ _ _ _ Hl).
  destruct (Z.leb_spec MAAP_PORT_MAX_RANGES_ALLOCATION (Z.of_nat (length l))) as [E3|E3];
    unfold MAAP_PORT_MAX_RANGES_ALLOCATION in E3.
  { wp_step. split; [done|]. split; [done|]. left. do 2 right. left. lia. }
  unfold is_range_id_used. wp_step. eapply wp_mono; [by eapply get_range_by_id_spec|].
  intros o w0 [-> Ho]. wp_step. destruct o as [r0|].
  { wp_step. split; [done|]. split; [done|]. left. do 3 right. left. destruct Ho as (Hin & x & Hx & Hid).
    exists r0, x. done. }
  wp_step. eapply wp_mono; [apply malloc_effect|]. intros [r|] w1 Hm.
  2:{ wp_step. destruct Hm as (? & ? & ?). split; [done|]. split; [done|]. right. by left. }
  destruct Hm as [Hr E].
  eapply effect_bind; [eapply set_range_effect, effect_lookup, E|]. intros w2 F2.
  pose proof (effect_trans _ _ _ _ _ _ _ _ _ _ E F2) as E2'. clear E F2.
  apply wp_bind. eapply wp_mono with (P := λ _ w3, ∃ a,
    effect r (g <| range_port := p |> <| start_mac_addr := a |>) [] [] w w3 ∧
    match addr with Some a' => a = a' | None => ∃ k, a = maap_generate_address (answer k OsRandom) n end).
  { destruct addr as [a|].
    - eapply wp_mono; [eapply set_range_effect, effect_lookup, E2'|]. intros ? w3 F3.
      exists a. split; [|done]. exact (effect_trans _ _ _ _ _ _ _ _ _ _ E2' F3).
    - apply wp_bind. eapply wp_mono.
      { eapply wp_and; [apply (perform_effect r); [eapply effect_lookup, E2'|done]|].
        wp_step. instantiate (1 := λ a _, a = answer (w_clock w2) OsRandom). done. }
      intros rnd w3 [F3 ->]. pose proof (effect_trans _ _ _ _ _ _ _ _ _ _ E2' F3) as E3'.
      eapply wp_mono; [eapply set_range_effect, effect_lookup, E3'|]. intros ? w4 F4.
      eexists. split; [exact (effect_trans _ _ _ _ _ _ _ _ _ _ E3' F4)|]. eauto. }
  intros _ w3 (a & E3' & Ha).
  eapply effect_bind; [eapply set_range_effect, effect_lookup, E3'|]. intros w4 F4.
  pose proof (effect_trans _ _ _ _ _ _ _ _ _ _ E3' F4) as E4. clear F4.
  eapply effect_bind; [eapply set_range_effect, effect_lookup, E4|]. intros w5 F5.
  pose proof (effect_trans _ _ _ _ _ _ _ _ _ _ E4 F5) as E5. clear F5 E4 E3' E2'.
  cbn [app] in E5.
  match type of E5 with effect _ ?y _ _ _ _ => set (y5 := y) in * end.
  assert (Hlist : ∀ r0, r0 ∈ l → ranges (w_st w5) !! r0 = ranges (w_st w) !! r0).
  { intros r0 Hin. destruct (po_ranges _ _ _ _ Hl r0 Hin) as (x0 & Hx0 & _). destruct E5 as [-> _].
    unfold upd_range; cbn. rewrite lookup_insert_ne; [done|]. intros ->. congruence. }
  assert (Hclash : clashes (w_st w5) l a n ↔ clashes (w_st w) l a n).
  { unfold clashes. split; intros (r0 & x0 & Hin & Hx0 & Hc); exists r0, x0; (split; [done|]); (split; [|done]).
    - by rewrite <- Hlist. - by rewrite Hlist. }
  apply wp_bind. eapply wp_get_range; [eapply effect_lookup, E5|].
  apply wp_bind. eapply wp_mono.
  { eapply check_internal_conflict_spec.
    - rewrite (effect_port _ _ _ _ _ _ E5). exact Hq.
    - apply (po_list _ _ _ _ Hl).
    - intros r0 Hin. rewrite Hlist by done. destruct (po_ranges _ _ _ _ Hl r0 Hin) as (x0 & Hx0 & _). eauto. }
  intros b w6 [-> Hb]. cbn in Hb. destruct b.
  { eapply wp_mono; [by eapply free_range_spec|]. intros o w6 (-> & Hw6 & Hq6). split; [done|]. split; [done|].
    apply Hclash in Hb. destruct addr as [a'|].
    - subst a'. left. do 4 right. exists a. auto.
    - destruct Ha as [k ->]. right. do 2 right. eauto. }
  eapply effect_bind; [eapply set_range_effect, effect_lookup, E5|]. intros w6 F6.
  pose proof (effect_trans _ _ _ _ _ _ _ _ _ _ E5 F6) as E6. clear F6.
  apply wp_bind. eapply wp_mono; [eapply timers_init_effect, effect_lookup, E6|].
  intros rc w7 (x7 & F7 & [[-> Hx7]|[-> (k & t & Hk)]]).
  - pose proof (effect_trans _ _ _ _ _ _ _ _ _ _ E6 F7) as E7. cbn [Z.ltb Z.compare].
    unfold set_port. wp_step. split; [intros Hh; by apply (proj2 E7)|]. split; [done|].
    rewrite Hclash in Hb. split.
    + unfold inadmissible. intros [?|[?|[?|[Hu|(a' & -> & Hbad)]]]]; [lia|lia|lia|done|].
      subst a'. destruct Hbad as [Hbad|]; [|done]. by rewrite Hbad in E2.
    + exists x7. split_and!.
      * subst x7 y5. by split.
      * by subst x7 y5.
      * rewrite (proj1 E7). done.
  - pose proof (effect_trans _ _ _ _ _ _ _ _ _ _ E6 F7) as E7. cbn [Z.ltb Z.compare].
    eapply wp_mono; [by eapply free_range_spec|]. intros o w8 (-> & Hw8 & Hq8). split; [done|]. split; [done|].
    right. right. left. eauto.
Qed.

(** The port after a range is added, and after one is removed. *)
Definition port_add (r : nat) (q : maap_port) : maap_port :=
  q <| allocated_ranges_count ::= λ n, u32 (n + 1) |> <| range ::= fmap (cons r) |>.
Definition port_remove (r : nat) (q : maap_port) : maap_port :=
  q <| range ::= fmap (list_remove r) |> <| allocated_ranges_count ::= λ n, u32 (n - 1) |>.
Definition admitted (p r : nat) (c : maap_ctx) : maap_ctx := c <| port ::= alter (port_add r) p |>.
Definition removed (p r : nat) (c : maap_ctx) : maap_ctx :=
  c <| port ::= alter (port_remove r) p |> <| ranges ::= delete r |>.

Lemma port_alter (f : maap_port → maap_port) c p q p' q' :
  port c !! p = Some q → (alter f p (port c)) !! p' = Some q' →
  p' = p ∧ q' = f q ∨ p' ≠ p ∧ port c !! p' = Some q'.
Proof.
  intros Hq. destruct (decide (p' = p)) as [->|].
  - rewrite list_lookup_alter_eq, Hq. cbn. intros [= <-]. by left.
  - rewrite list_lookup_alter_ne by done. by right.
Qed.

Lemma ctx_add c p q l r x :
  ctx_ok c → port c !! p = Some q → port_ok c p q l → ranges c !! r = None → range_ok x →
  range_port x = p → ¬ id_used c l (range_id x) → (length l < 128)%nat →
  ctx_ok (upd_range r x (admitted p r c)).
Proof.
  intros Hok Hq Hl Hr Hx Hp Hid Hlen.
  assert (Hnin : ∀ p' q' l', port c !! p' = Some q' → port_ok c p' q' l' → r ∉ l').
  { intros p' q' l' Hq' Hl' Hin. destruct (po_ranges _ _ _ _ Hl' r Hin) as (?&?&_). congruence. }
  assert (Hlk : ∀ r0, r0 ≠ r → ranges (upd_range r x (admitted p r c)) !! r0 = ranges c !! r0).
  { intros r0 Hne. unfold upd_range; cbn. by rewrite lookup_insert_ne. }
  split.
  - cbn. rewrite length_alter. apply (ctx_max _ Hok).
  - intros p' q' Hq'. apply (port_alter _ c p q) in Hq' as [[-> ->]|[Hne Hq']]; [| |done].
    + assert (Hi : initialized (port_add r q) = true) by exact (po_init _ _ _ _ Hl).
      rewrite Hi. exists (r :: l). pose proof (Hnin _ _ _ Hq Hl) as Hrl.
      destruct Hl as [? ? Hlist ? Hcount ? Hranges Hids]. split; cbn.
      * done.
      * done.
      * by rewrite Hlist.
      * by apply list.NoDup_cons.
      * rewrite Hcount, u32_small by lia. lia.
      * lia.
      * intros r0 [->|Hin]%elem_of_cons.
        -- exists x. unfold upd_range; cbn. by rewrite lookup_insert_eq.
        -- destruct (Hranges r0 Hin) as (x0&?&?&?). exists x0. rewrite lookup_insert_ne by (by intros ->). done.
      * intros r1 r2 x1 x2 H1 H2. destruct (decide (r1 = r)) as [->|N1], (decide (r2 = r)) as [->|N2]; [done|..].
        all: rewrite ?lookup_insert_eq, ?lookup_insert_ne by done; intros E1 E2 Heq; simplify_eq.
        -- exfalso. apply Hid. exists r2, x2. split; [|done]. set_solver.
        -- exfalso. apply Hid. exists r1, x1. split; [|done]. set_solver.
        -- apply (Hids r1 r2 x1 x2); [set_solver|set_solver|done..].
    + pose proof (ctx_ports _ Hok _ _ Hq') as Hpq. destruct (initialized q'); [|done].
      destruct Hpq as [l' Hl']. exists l'. pose proof (Hnin _ _ _ Hq' Hl') as Hrl.
      destruct Hl' as [? ? ? ? ? ? Hranges Hids]. split; try done.
      * intros r0 Hin. rewrite Hlk by (by intros ->). auto.
      * intros r1 r2 x1 x2 H1 H2. rewrite !Hlk by (by intros ->). by apply Hids.
  - intros r0 x0 E. unfold port_ranges, upd_range; cbn.
    destruct (decide (r0 = r)) as [->|Hne].
    + unfold upd_range in E; cbn in E. rewrite lookup_insert_eq in E. simplify_eq.
      rewrite list_lookup_alter_eq, Hq. cbn. rewrite (po_list _ _ _ _ Hl). cbn. by left.
    + rewrite Hlk in E by done. pose proof (ctx_owned _ Hok _ _ E) as Hin. unfold port_ranges in Hin.
      destruct (decide (range_port x0 = p)) as [E0|].
      * rewrite E0 in *. rewrite list_lookup_alter_eq, Hq. rewrite Hq in Hin. cbn. rewrite (po_list _ _ _ _ Hl) in *. cbn in *.
        by right.
      * by rewrite list_lookup_alter_ne.
Qed.

Lemma ctx_remove c p q l r :
  ctx_ok c → port c !! p = Some q → port_ok c p q l → r ∈ l → ctx_ok (removed p r c).
Proof.
  intros Hok Hq Hl Hr. destruct (po_ranges _ _ _ _ Hl r Hr) as (x & Hx & Hp & Hxok).
  assert (Hnin : ∀ p' q' l', p' ≠ p → port c !! p' = Some q' → port_ok c p' q' l' → r ∉ l').
  { intros p' q' l' Hne Hq' Hl' Hin. destruct (po_ranges _ _ _ _ Hl' r Hin) as (?&?&?&_). congruence. }
  assert (Hlk : ∀ r0, r0 ≠ r → ranges (removed p r c) !! r0 = ranges c !! r0).
  { intros r0 Hne. unfold removed; cbn. by rewrite lookup_delete_ne. }
  split.
  - cbn. rewrite length_alter. apply (ctx_max _ Hok).
  - intros p' q' Hq'. apply (port_alter _ c p q) in Hq' as [[-> ->]|[Hne Hq']]; [| |done].
    + assert (Hi : initialized (port_remove r q) = true) by exact (po_init _ _ _ _ Hl).
      rewrite Hi. exists (list_remove r l). destruct Hl as [? ? Hlist Hnd Hcount ? Hranges Hids].
      pose proof (length_list_remove r l Hnd Hr). split; cbn.
      * done.
      * done.
      * by rewrite Hlist.
      * by apply NoDup_list_remove.
      * rewrite Hcount, u32_small by lia. lia.
      * lia.
      * intros r0 [Hne Hin]%elem_of_list_remove. rewrite lookup_delete_ne by done. auto.
      * intros r1 r2 x1 x2 [N1 H1]%elem_of_list_remove [N2 H2]%elem_of_list_remove.
        rewrite !lookup_delete_ne by done. by apply Hids.
    + pose proof (ctx_ports _ Hok _ _ Hq') as Hpq. destruct (initialized q'); [|done].
      destruct Hpq as [l' Hl']. exists l'. pose proof (Hnin _ _ _ Hne Hq' Hl') as Hrl.
      destruct Hl' as [? ? ? ? ? ? Hranges Hids]. split; try done.
      * intros r0 Hin. rewrite Hlk by (by intros ->). auto.
      * intros r1 r2 x1 x2 H1 H2. rewrite !Hlk by (by intros ->). by apply Hids.
  - intros r0 x0 E. destruct (decide (r0 = r)) as [->|Hne].
    { unfold removed in E; cbn in E. by rewrite lookup_delete_eq in E. }
    rewrite Hlk in E by done. pose proof (ctx_owned _ Hok _ _ E) as Hin. unfold port_ranges, removed in *; cbn.
    destruct (decide (range_port x0 = p)) as [E0|].
    + rewrite E0 in *. rewrite list_lookup_alter_eq, Hq. rewrite Hq in Hin. cbn. rewrite (po_list _ _ _ _ Hl) in *. cbn in *.
      by apply elem_of_list_remove.
    + by rewrite list_lookup_alter_ne.
Qed.

Lemma new_range_ok p id addr n x :
  new_range p id addr n x → 1 ≤ n ≤ MAAP_DYNAMIC_POOL_SIZE →
  match addr with Some a => mac_ok a ∧ maap_is_in_dynamic_pool a n = true | None => True end →
  range_ok (reserved x).
Proof.
  intros [? ? Hn Ha ? ? ? Hp Han] Hr Haddr. unfold range_ok. cbn. rewrite Hn. split; [done|].
  assert (Hsm : sm_ok (sm (reserved x))).
  { unfold sm_ok. cbn. rewrite Hp, Han. unfold MAAP_PROBE_RETRANSMITS_VAL. cbn. split_and!; try done; lia. }
  destruct addr as [a|].
  - rewrite Ha. destruct Haddr. done.
  - destruct Ha as [k ->]. destruct (generate_address_value (answer k OsRandom) n (Hrnd k) Hr) as [Hok Hv].
    split; [done|]. split; [|done]. unfold MAAP_DYNAMIC_POOL_SIZE in *. destruct pool_bounds as [Hmin _].
    apply in_pool_spec; [done|lia|]. unfold in_range. rewrite Hv, Hmin. unfold MAAP_DYNAMIC_POOL_SIZE in *.
    change (0xFDFF - 0x0000 + 1) with 65024 in *.
    pose proof (Z.rem_bound_pos (answer k OsRandom) (65024 - n + 1)).
    pose proof (Hrnd k). intros. lia.
Qed.

Definition addr_ok (addr : option mac) : Prop := match addr with Some a => mac_ok a | None => True end.

Lemma list_alter_alter (f g : maap_port → maap_port) p (l : list maap_port) :
  alter f p (alter g p l) = alter (λ q, f (g q)) p l.
Proof.
  apply list_eq. intros j. destruct (decide (j = p)) as [->|].
  - rewrite !list_lookup_alter_eq. by destruct (l !! p).
  - by rewrite !list_lookup_alter_ne.
Qed.

Lemma new_range_on_port_spec g p q l id addr n w :
  ctx_ok (w_st w) → port (w_st w) !! p = Some q → port_ok (w_st w) p q l → addr_ok addr →
  wp (maap_new_range_on_port g p id addr n) (λ res w',
    match res with
    | None => w_st w' = w_st w ∧ quiet w w' ∧
        (inadmissible (w_st w) l id addr n ∨ platform_refuses (w_st w) l addr n)
    | Some r => ranges (w_st w) !! r = None ∧ ¬ inadmissible (w_st w) l id addr n ∧
        ctx_ok (w_st w') ∧
        ∃ x, new_range p id addr n x ∧ ¬ clashes (w_st w) l (start_mac_addr x) n ∧
             w_st w' = upd_range r (reserved x) (admitted p r (w_st w)) ∧
             (healthy → frames (w_trace w') = probe_frame p x :: frames (w_trace w) ∧
                        messages (w_trace w') = messages (w_trace w))
    end) w.
Proof.
  intros Hok Hq Hl Haddr. unfold maap_new_range_on_port. apply wp_bind.
  eapply wp_mono; [by eapply range_alloc_spec|]. intros [r|] w1 [Hqt Hres].
  2:{ wp_step. destruct Hres. auto. }
  destruct Hres as (Hr & Hadm & x & Hnew & Hclash & Hw1).
  assert (Hq1 : port (w_st w1) !! p = Some (q <| allocated_ranges_count ::= λ n, u32 (n + 1) |>)).
  { rewrite Hw1. cbn. by rewrite list_lookup_alter_eq, Hq. }
  apply wp_bind. eapply wp_get_ranges; [exact Hq1|cbn; apply (po_list _ _ _ _ Hl)|].
  unfold set_port. wp_step. set (w2 := World _ _ _).
  assert (Hw2 : w_st w2 = upd_range r x (admitted p r (w_st w))).
  { cbn. rewrite Hw1. unfold counted, admitted, upd_range, over, over_field; cbn -[alter].
    by rewrite list_alter_alter. }
  assert (Hx2 : ranges (w_st w2) !! r = Some x) by (rewrite Hw2; apply lookup_insert_eq).
  unfold maap_sm. eapply wp_mono with (P := λ _, effect r (reserved x) [probe_frame p x] [] w2).
  { eapply sm_start_pass; [exact Hx2|]. rewrite (nr_state _ _ _ _ _ Hnew). cbn [maap_sm_event maap_sm_begin].
    unfold goto. wp_step. apply reserve_effect; [exact Hx2|apply (nr_state _ _ _ _ _ Hnew)|].
    by rewrite (nr_probe _ _ _ _ _ Hnew). }
  intros ? w3 [E3 T3]. wp_step. split; [done|]. split; [done|].
  assert (Hn : 1 ≤ n ≤ MAAP_DYNAMIC_POOL_SIZE).
  { unfold inadmissible in Hadm. destruct (Z.le_gt_cases n 0), (Z.lt_ge_cases MAAP_DYNAMIC_POOL_SIZE n); try tauto; lia. }
  assert (Hw3 : w_st w3 = upd_range r (reserved x) (admitted p r (w_st w))).
  { rewrite E3, Hw2. unfold upd_range, over, over_field; cbn. by rewrite insert_insert_eq. }
  split.
  - rewrite Hw3. eapply ctx_add; [done|done|exact Hl|done| | | |].
    + eapply new_range_ok; [exact Hnew|done|]. destruct addr as [a1|]; [|done]. split; [done|].
      destruct (maap_is_in_dynamic_pool a1 n) eqn:Ep; [done|]. exfalso. apply Hadm. do 4 right. eauto.
    + cbn. apply (nr_port _ _ _ _ _ Hnew).
    + cbn. rewrite (nr_id _ _ _ _ _ Hnew). intros Hu. apply Hadm. do 3 right. by left.
    + destruct (Nat.lt_ge_cases (length l) 128); [done|]. exfalso. apply Hadm. do 2 right. by left.
  - exists x. split; [done|]. split; [done|]. split; [done|]. intros Hh.
    destruct (T3 Hh) as [-> ->], (Hqt Hh) as [<- <-]. done.
Qed.

Lemma range_free_spec r x q w :
  ranges (w_st w) !! r = Some x → port (w_st w) !! range_port x = Some q →
  wp (maap_range_free r) (λ _ w', quiet w w' ∧
    w_st w' = (w_st w) <| port ::= alter (λ q, q <| allocated_ranges_count ::= λ n, u32 (n - 1) |>) (range_port x) |>
                <| ranges ::= delete r |>) w.
Proof.
  intros Hx Hq. unfold maap_range_free.
  eapply effect_bind; [by apply timer_destroy_effect|]. intros w1 E1.
  eapply effect_bind; [eapply timer_destroy_effect, effect_lookup, E1|]. intros w2 E2.
  pose proof (effect_trans _ _ _ _ _ _ _ _ _ _ E1 E2) as E12.
  apply wp_bind. eapply wp_get_range; [eapply effect_lookup, E12|].
  apply wp_bind. eapply wp_get_port; [cbn; rewrite (effect_port _ _ _ _ _ _ E12); exact Hq|].
  unfold set_port. wp_step. destruct E12 as [E T]. split; [intros Hh; by apply T|].
  rewrite E. destruct w as [[] ? ?]; unfold upd_range, over, over_field; cbn -[alter] in *.
  f_equal. apply map_eq. intros j. destruct (decide (j = r)) as [->|].
  - by rewrite !lookup_delete_eq.
  - by rewrite !lookup_delete_ne, lookup_insert_ne.
Qed.

Lemma unlink_free_spec p q l r w :
  ctx_ok (w_st w) → port (w_st w) !! p = Some q → port_ok (w_st w) p q l → r ∈ l →
  wp (set_port p (λ q, q <| range ::= fmap (list_remove r) |>);; maap_range_free r)
    (λ _ w', quiet w w' ∧ w_st w' = removed p r (w_st w)) w.
Proof.
  intros Hok Hq Hl Hr. destruct (po_ranges _ _ _ _ Hl r Hr) as (x & Hx & Hp & _).
  unfold set_port. wp_step. eapply wp_mono.
  { eapply (range_free_spec r x); [exact Hx|]. cbn. by rewrite Hp, list_lookup_alter_eq, Hq. }
  intros ? w1 [Hqt E]. split; [exact Hqt|]. rewrite E, Hp. unfold removed.
  destruct w as [[] ? ?]; unfold over, over_field; cbn -[alter]. by rewrite list_alter_alter.
Qed.

Lemma remove_range_spec p q l id w :
  ctx_ok (w_st w) → port (w_st w) !! p = Some q → port_ok (w_st w) p q l →
  wp (maap_remove_range_on_port p id) (λ res w', quiet w w' ∧
    match res with
    | None => w_st w' = w_st w ∧ ¬ id_used (w_st w) l id
    | Some (a, n) => ∃ r x, r ∈ l ∧ ranges (w_st w) !! r = Some x ∧ range_id x = id ∧
        a = start_mac_addr x ∧ n = mac_count x ∧ w_st w' = removed p r (w_st w)
    end) w.
Proof.
  intros Hok Hq Hl.
  unfold maap_remove_range_on_port. apply wp_bind. eapply wp_get_ranges; [done|apply (po_list _ _ _ _ Hl)|].
  apply wp_bind. eapply wp_mono; [by eapply search_id_spec|]. intros [r|] w1 [-> Ho]; [|by wp_step].
  destruct Ho as (Hin & x & Hx & Hid). apply wp_bind. eapply wp_get_range; [done|].
  pose proof (unlink_free_spec p q l r w Hok Hq Hl Hin) as Hun. apply wp_bind in Hun.
  apply wp_bind. eapply wp_mono; [exact Hun|]. intros ? w2 Hw2.
  apply wp_bind. eapply wp_mono; [exact Hw2|]. intros ? w3 [Hqt E3]. wp_step.
  split; [done|]. exists r, x. done.
Qed.

Lemma remove_all_spec p q l w :
  ctx_ok (w_st w) → port (w_st w) !! p = Some q → port_ok (w_st w) p q l →
  wp (maap_remove_all_range_on_port p) (λ _ w', ctx_ok (w_st w') ∧ port_ranges p (w_st w') = [] ∧
    length (port (w_st w')) = length (port (w_st w)) ∧
    (∀ p', p' ≠ p → port_ranges p' (w_st w') = port_ranges p' (w_st w)) ∧
    (∀ r, r ∉ l → ranges (w_st w') !! r = ranges (w_st w) !! r) ∧
    (∀ r, r ∈ l → ranges (w_st w') !! r = None)) w.
Proof.
  intros Hok Hq Hl. unfold maap_remove_all_range_on_port. apply wp_bind. eapply wp_get_ranges; [done|apply (po_list _ _ _ _ Hl)|].
  assert (Hpr : port_ranges p (w_st w) = l) by by eapply port_ranges_ok.
  eapply wp_mono; [apply (wp_list_each (port_ranges p) (λ k w', ctx_ok (w_st w') ∧
     port_ranges p (w_st w') = k ∧ (∃ q', port (w_st w') !! p = Some q') ∧
     length (port (w_st w')) = length (port (w_st w)) ∧
     (∀ p', p' ≠ p → port_ranges p' (w_st w') = port_ranges p' (w_st w)) ∧
     (∀ r, r ∉ l ∨ r ∈ k → ranges (w_st w') !! r = ranges (w_st w) !! r) ∧
     (∀ r, r ∈ l → r ∉ k → ranges (w_st w') !! r = None) ∧ k ⊆ l))|..].
  - intros pre e k w1 Hnd Hg (Hok1 & Hk & [q1 Hq1] & Hlen & Hoth & Hout & Hgone & Hsub).
    rewrite Hg in Hk. assert (pre = []) as -> by (apply (app_inv_tail (e :: k)); done). cbn in *.
    pose proof (ctx_ports _ Hok1 _ _ Hq1) as Hp1. destruct (initialized q1).
    2:{ exfalso. unfold port_ranges in Hg. rewrite Hq1, Hp1 in Hg. done. }
    destruct Hp1 as [l1 Hl1].
    assert (l1 = e :: k) as -> by (rewrite <- Hg; symmetry; by eapply port_ranges_ok).
    apply list.NoDup_cons in Hnd as [Hek Hnd].
    eapply wp_mono; [eapply unlink_free_spec; [done|done|exact Hl1|by left]|]. intros ? w2 [_ E2].
    assert (Hpr2 : port_ranges p (w_st w2) = k).
    { rewrite E2. unfold port_ranges, removed; cbn. rewrite list_lookup_alter_eq, Hq1. cbn.
      rewrite (po_list _ _ _ _ Hl1). cbn. apply (list_remove_mid e [] k); [set_solver|done]. }
    split; [exists []; by rewrite Hpr2|]. split_and!.
    + rewrite E2. eapply ctx_remove; [done|done|exact Hl1|by left].
    + done.
    + rewrite E2. cbn. rewrite list_lookup_alter_eq, Hq1. cbn. eauto.
    + rewrite E2. cbn. by rewrite length_alter.
    + intros p' Hne. rewrite <- Hoth by done. rewrite E2. unfold port_ranges, removed; cbn.
      by rewrite list_lookup_alter_ne.
    + intros r Hr. rewrite E2. unfold removed; cbn. rewrite lookup_delete_ne by set_solver. apply Hout. set_solver.
    + intros r Hin Hnk. rewrite E2. unfold removed; cbn. destruct (decide (r = e)) as [->|].
      * apply lookup_delete_eq.
      * rewrite lookup_delete_ne by done. apply Hgone; set_solver.
    + set_solver.
  - rewrite Hpr. apply (po_nodup _ _ _ _ Hl).
  - rewrite Hpr. split_and!; try done; eauto.
  - intros _ w' (? & ? & _ & ? & ? & Hout & Hgone & _). split_and!; try done.
    + intros r Hr. apply Hout. by left.
    + intros r Hr. apply Hgone; set_solver.
Qed.

(** ** IPC *)

Lemma ipc_send_state chan dst msg w :
  wp (maap_ipc_send chan dst msg) (λ _ w', w_st w' = w_st w ∧
    (healthy → frames (w_trace w') = frames (w_trace w) ∧
               messages (w_trace w') = (dst, msg) :: messages (w_trace w))) w.
Proof.
  unfold maap_ipc_send. wp_step.
  destruct (answer (w_clock w) (IpcAlloc chan) =? 0) eqn:E; wp_step.
  { split; [done|]. intros [_ Hh]. apply Z.eqb_eq in E. by apply Hh in E. }
  destruct (_ <? 0); cbn [when]; wp_step; done.
Qed.

Lemma logical_port_spec c lp :
  ctx_ok c →
  match logical_to_maap_port c lp with
  | Some p => ∃ q, port c !! p = Some q ∧ logical_port q = lp
  | None => ∀ p q, port c !! p = Some q → logical_port q ≠ lp
  end.
Proof.
  intros Hok. unfold logical_to_maap_port. rewrite (ctx_max _ Hok), Nat2Z.id, firstn_all.
  destruct (list_find _ _) as [[p q]|] eqn:Ef; cbn.
  - apply list_find_Some in Ef as (Hq & Hlp & _). eauto.
  - apply list_find_None in Ef. rewrite Forall_forall in Ef. intros p q Hq Hlp. 
    apply (Ef q); [|done]. apply list_elem_of_In. by eapply list_elem_of_lookup_2.
Qed.

(** The port that an IPC command names: none, or an initialised one. *)
Definition cmd_port_ok (c : maap_ctx) (lp : Z) : Prop :=
  ∀ p q, logical_to_maap_port c lp = Some p → port c !! p = Some q → initialized q = true.

Lemma cmd_port c lp p : ctx_ok c → cmd_port_ok c lp → logical_to_maap_port c lp = Some p →
  ∃ q l, port c !! p = Some q ∧ logical_port q = lp ∧ port_ok c p q l.
Proof.
  intros Hok Hcmd Hlp. pose proof (logical_port_spec c lp Hok) as H. rewrite Hlp in H.
  destruct H as (q & Hq & Hl). pose proof (ctx_ports _ Hok _ _ Hq) as Hp. rewrite (Hcmd p q Hlp Hq) in Hp.
  destruct Hp as [l Hp]. eauto 10.
Qed.

(** A port whose initialisation failed: its list of ranges is zeroed memory. *)
Definition failed_port (q : maap_port) : Prop :=
  initialized q = false ∧ range q = None ∧ allocated_ranges_count q = 0.

Definition request_addr (flag : Z) (base : mac) : option mac := if flag =? 1 then Some base else None.

(** The outcome of a create command on port [p]. *)
Definition created (p : nat) (l : list nat) (id flag count : Z) (base : mac) (c c' : maap_ctx) (r : nat) (x : maap_range) : Prop :=
  ranges c !! r = None ∧ new_range p id (request_addr flag base) count x ∧
  ¬ inadmissible c l id (request_addr flag base) count ∧
  ¬ clashes c l (start_mac_addr x) count ∧
  c' = upd_range r (reserved x) (admitted p r c).

Lemma create_range_spec g tx src flag lp id count base w :
  ctx_ok (w_st w) → cmd_port_ok (w_st w) lp → mac_ok base →
  wp (maap_ipc_create_range g tx src flag lp id count base) (λ _ w', ctx_ok (w_st w') ∧
    ((∃ p q l r x, logical_to_maap_port (w_st w) lp = Some p ∧ port (w_st w) !! p = Some q ∧
        port_ok (w_st w) p q l ∧
        created p l id flag count base (w_st w) (w_st w') r x ∧
        (healthy → frames (w_trace w') = probe_frame p x :: frames (w_trace w) ∧
           messages (w_trace w') =
             (src, CreateResponse MAAP_RESPONSE_SUCCESS (u16 lp) id (u16 (u16 count)) (start_mac_addr x))
             :: messages (w_trace w))) ∨
     w_st w' = w_st w ∧
       (logical_to_maap_port (w_st w) lp = None ∨
        ∃ p q l, logical_to_maap_port (w_st w) lp = Some p ∧ port (w_st w) !! p = Some q ∧
          port_ok (w_st w) p q l ∧
          (inadmissible (w_st w) l id (request_addr flag base) count ∨
           platform_refuses (w_st w) l (request_addr flag base) count)) ∧
       (healthy → frames (w_trace w') = frames (w_trace w) ∧
          messages (w_trace w') =
            (src, CreateResponse MAAP_RESPONSE_ERROR (u16 lp) id (u16 count) base) :: messages (w_trace w)))) w.
Proof.
  intros Hok Hcmd Hbase. unfold maap_ipc_create_range. wp_step.
  destruct (logical_to_maap_port (w_st w) lp) as [p|] eqn:Hlp.
  2:{ eapply wp_mono; [apply ipc_send_state|]. intros ? w1 [E T]. rewrite E. split; [done|]. right.
      split; [done|]. split; [by left|]. done. }
  destruct (cmd_port _ _ _ Hok Hcmd Hlp) as (q & l & Hq & Hql & Hl).
  wp_step. eapply wp_mono.
  { apply (new_range_on_port_spec g p q l id (request_addr flag base) count); [done..|].
    unfold addr_ok, request_addr. by destruct (flag =? 1). }
  intros [r|] w1 H.
  2:{ destruct H as (E & Hqt & Href). eapply wp_mono; [apply ipc_send_state|]. intros ? w2 [E2 T2].
      rewrite E2, E. split; [done|]. right. split; [done|]. split; [right; eauto 10|].
      intros Hh. destruct (T2 Hh) as [-> ->], (Hqt Hh) as [-> ->]. done. }
  destruct H as (Hr & Hadm & Hok1 & x & Hnew & Hcl & E & T).
  apply wp_bind. eapply wp_get_port.
  { rewrite E. cbn. rewrite list_lookup_alter_eq, Hq. reflexivity. }
  apply wp_bind. eapply wp_get_range; [rewrite E; apply lookup_insert_eq|].
  eapply wp_mono; [apply ipc_send_state|]. intros ? w2 [E2 T2]. rewrite E2. split; [done|]. left.
  exists p, q, l, r, x. split_and!; [done..| |].
  - by rewrite E.
  - intros Hh. destruct (T2 Hh) as [-> ->], (T Hh) as [-> ->]. split; [done|].
    cbn. rewrite (nr_id _ _ _ _ _ Hnew), (nr_count _ _ _ _ _ Hnew), Hql. done.
Qed.

Lemma delete_range_spec tx src lp id w :
  ctx_ok (w_st w) → cmd_port_ok (w_st w) lp →
  wp (maap_ipc_delete_range tx src lp id) (λ _ w', ctx_ok (w_st w') ∧
    ((∃ p q l r x, logical_to_maap_port (w_st w) lp = Some p ∧ port (w_st w) !! p = Some q ∧
        port_ok (w_st w) p q l ∧ r ∈ l ∧ ranges (w_st w) !! r = Some x ∧ range_id x = id ∧
        w_st w' = removed p r (w_st w) ∧
        (healthy → frames (w_trace w') = frames (w_trace w) ∧
           messages (w_trace w') =
             (IPC_DST_ALL, StatusIndication MAAP_STATUS_FREE (u16 lp) id (u16 (u16 (mac_count x))) (start_mac_addr x))
             :: (src, DeleteResponse MAAP_RESPONSE_SUCCESS (u16 lp) id) :: messages (w_trace w))) ∨
     w_st w' = w_st w ∧
       (∀ p q l, logical_to_maap_port (w_st w) lp = Some p → port (w_st w) !! p = Some q →
          port_ok (w_st w) p q l → ¬ id_used (w_st w) l id) ∧
       (healthy → frames (w_trace w') = frames (w_trace w) ∧
          messages (w_trace w') =
            (src, DeleteResponse MAAP_RESPONSE_ERROR (u16 lp) id) :: messages (w_trace w)))) w.
Proof.
  intros Hok Hcmd. unfold maap_ipc_delete_range. wp_step.
  destruct (logical_to_maap_port (w_st w) lp) as [p|] eqn:Hlp.
  2:{ eapply wp_mono; [apply ipc_send_state|]. intros ? w1 [E T]. rewrite E. split; [done|]. right.
      split; [done|]. split; [done|]. done. }
  destruct (cmd_port _ _ _ Hok Hcmd Hlp) as (q & l & Hq & Hql & Hl).
  wp_step. eapply wp_mono; [by eapply remove_range_spec|].
  intros [[a n]|] w1 [Hqt H].
  2:{ destruct H as [E Hid]. eapply wp_mono; [apply ipc_send_state|]. intros ? w2 [E2 T2].
      rewrite E2, E. split; [done|]. right. split; [done|]. split.
      - intros p' q' l' [= <-] Hq' Hl'. simplify_eq.
        pose proof (po_list _ _ _ _ Hl) as H1. pose proof (po_list _ _ _ _ Hl') as H2. congruence.
      - intros Hh. destruct (T2 Hh) as [-> ->], (Hqt Hh) as [-> ->]. done. }
  destruct H as (r & x & Hin & Hx & Hid & -> & -> & E).
  apply wp_bind. eapply wp_get_port.
  { rewrite E. cbn. rewrite list_lookup_alter_eq, Hq. reflexivity. }
  apply wp_bind. eapply wp_mono; [apply ipc_send_state|]. intros ? w2 [E2 T2].
  eapply wp_mono; [apply ipc_send_state|]. intros ? w3 [E3 T3]. rewrite E3, E2, E.
  split; [by eapply ctx_remove|]. left. exists p, q, l, r, x. split_and!; try done.
  intros Hh. destruct (T3 Hh) as [-> ->], (T2 Hh) as [-> ->], (Hqt Hh) as [-> ->]. cbn. by rewrite Hql.
Qed.

(** ** Initialisation, events, exit *)

Inductive maap_env :=
| EnvFrame (p : nat) (ethertype : Z) (src : mac) (mem : nat → Z)
| EnvIpc (sync : bool) (src : Z) (cmd : maap_ipc_cmd)
| EnvMacService (p : nat) (status : option bool)
| EnvTimer (r : nat) (k : maap_timer_id).

Definition port_up (c : maap_ctx) (p : nat) : bool :=
  match port c !! p with Some q => initialized q | None => false end.
Definition cmd_up (c : maap_ctx) (lp : Z) : bool :=
  match logical_to_maap_port c lp with Some p => port_up c p | None => true end.

(** The platform delivers frames and status messages on the sockets and
    channels of initialised ports only, and expiries of running timers only. *)
Definition env_enabled (ev : maap_env) (c : maap_ctx) : bool :=
  match ev with
  | EnvFrame p _ _ _ | EnvMacService p _ => port_up c p
  | EnvIpc _ _ _ => true
  | EnvTimer r k => match ranges c !! r with Some x => input_enabled (InTimer k) x | None => false end
  end.
(** A command names no port, or one whose initialisation succeeded. *)
Definition env_addressed (c : maap_ctx) (ev : maap_env) : bool :=
  match ev with
  | EnvIpc _ _ (GENAVB_MSG_MAAP_CREATE_RANGE _ lp _ _ _) => cmd_up c lp
  | EnvIpc _ _ (GENAVB_MSG_MAAP_DELETE_RANGE lp _) => cmd_up c lp
  | _ => true
  end.
(** Base addresses are six bytes. *)
Definition env_ok (ev : maap_env) : Prop :=
  match ev with
  | EnvIpc _ _ (GENAVB_MSG_MAAP_CREATE_RANGE _ _ _ _ base) => mac_ok base
  | _ => True
  end.

Definition run_env (g : maap_range) (ev : maap_env) : MM unit :=
  let! ok := gets (env_enabled ev) in
  when ok
    match ev with
    | EnvFrame p ethertype src mem => maap_net_receive p ethertype src mem
    | EnvIpc sync src cmd => maap_ipc_receive g sync src cmd
    | EnvMacService p status => maap_ipc_rx_mac_service p status
    | EnvTimer r k => timer_expires r k
    end.

Lemma cmd_up_ok c lp : cmd_up c lp = true → cmd_port_ok c lp.
Proof.
  unfold cmd_up, cmd_port_ok, port_up. intros H p q Hp Hq. by rewrite Hp, Hq in H.
Qed.
Lemma port_up_ok c p : ctx_ok c → port_up c p = true → ∃ q l, port c !! p = Some q ∧ port_ok c p q l.
Proof.
  unfold port_up. intros Hok H. destruct (port c !! p) as [q|] eqn:Hq; [|done].
  pose proof (ctx_ports _ Hok _ _ Hq) as Hp. rewrite H in Hp. destruct Hp as [l Hl]. eauto.
Qed.

Lemma same_ports_cmd_up c c' lp : same_ports c c' → cmd_up c' lp = cmd_up c lp.
Proof.
  intros [Hm Hk].
  assert (Hl : ∀ c, logical_to_maap_port c lp
    = fst <$> list_find (λ y : Z * bool, lp = y.1) (take (Z.to_nat (port_max c)) (port_key <$> port c))).
  { intros c0. unfold logical_to_maap_port. rewrite <- fmap_take, list_find_fmap.
    unfold compose, port_key. cbn. by destruct (list_find _ _) as [[]|]. }
  assert (Hu : ∀ c p, port_up c p = from_option snd false ((port_key <$> port c) !! p)).
  { intros c0 p. unfold port_up. rewrite list_lookup_fmap. by destruct (port c0 !! p). }
  unfold cmd_up. rewrite !Hl, Hm, Hk. destruct (list_find _ _) as [[p y]|]; [|done]. cbn.
  by rewrite !Hu, Hk.
Qed.
Lemma same_ports_addressed c c' ev : same_ports c c' → env_addressed c' ev = env_addressed c ev.
Proof. intros H. destruct ev as [|? ? []| |]; cbn; try done; by apply same_ports_cmd_up. Qed.
Lemma same_ports_alter f p rs c : (∀ q, port_key (f q) = port_key q) →
  same_ports c (c <| port ::= alter f p |> <| ranges := rs |>).
Proof.
  intros Hf. split; [done|]. cbn. apply list_eq. intros i. rewrite !list_lookup_fmap.
  destruct (decide (i = p)) as [->|]; [|by rewrite list_lookup_alter_ne].
  rewrite list_lookup_alter_eq. destruct (port c !! p); [|done]. cbn. by rewrite Hf.
Qed.
Lemma same_ports_swept p q sel l c c' : swept p q sel l c c' → same_ports c c'.
Proof. intros (_ & Hp & Hm & _). split; [done|by rewrite Hp]. Qed.

Lemma run_env_ok g ev w : ctx_ok (w_st w) → env_ok ev → env_addressed (w_st w) ev = true →
  wp (run_env g ev) (λ _ w', ctx_ok (w_st w') ∧ same_ports (w_st w) (w_st w')) w.
Proof.
  intros Hok Hev Had. unfold run_env. wp_step. destruct (env_enabled ev (w_st w)) eqn:Hen; cbn [when]; [|by wp_step].
  destruct ev as [p ethertype src mem|sync src cmd|p status|r k]; cbn [env_enabled env_addressed] in *.
  - destruct (port_up_ok _ _ Hok Hen) as (q & l & Hq & Hl).
    eapply wp_mono; [by eapply net_receive_swept|]. intros ? w' H. split; [apply H|exact (same_ports_swept _ _ _ _ _ _ H)].
  - unfold maap_ipc_receive. apply wp_bind.
    eapply wp_mono with (P := λ _ w', ctx_ok (w_st w') ∧ same_ports (w_st w) (w_st w')).
    2:{ intros _ w' H. by wp_step. }
    destruct cmd as [flag lp id count base|lp id|]; cbn [env_ok] in Hev.
    + eapply wp_mono; [apply create_range_spec; [done|by apply cmd_up_ok|done]|].
      intros _ w' [? [(p & q & l & r & x & _ & _ & _ & (_ & _ & _ & _ & E) & _)|[E _]]]; rewrite E; [|done].
      split; [congruence|]. by apply (same_ports_alter (port_add r) p).
    + eapply wp_mono; [apply delete_range_spec; [done|by apply cmd_up_ok]|].
      intros _ w' [? [(p & q & l & r & x & _ & _ & _ & _ & _ & _ & E & _)|[E _]]]; rewrite E; [|done].
      split; [congruence|]. by apply (same_ports_alter (port_remove r) p).
    + by wp_step.
  - destruct (port_up_ok _ _ Hok Hen) as (q & l & Hq & Hl).
    eapply wp_mono; [by eapply mac_service_swept|]. intros ? w' H. split; [apply H|exact (same_ports_swept _ _ _ _ _ _ H)].
  - destruct (ranges (w_st w) !! r) as [x|] eqn:Hx; [|done]. by eapply timer_expires_ok.
Qed.

Lemma events_ok g evs w : ctx_ok (w_st w) → Forall env_ok evs →
  Forall (λ ev, env_addressed (w_st w) ev = true) evs →
  wp (for_each evs (run_env g)) (λ _ w', ctx_ok (w_st w')) w.
Proof.
  intros Hok Hevs Had. eapply wp_mono.
  - apply (wp_for_each (λ l w', ctx_ok (w_st w') ∧ Forall env_ok l ∧
      Forall (λ ev, env_addressed (w_st w') ev = true) l)); [done|].
    intros ev l w1 (Hok1 & [Hev Hl]%list.Forall_cons & [Had1 Hl1]%list.Forall_cons).
    eapply wp_mono; [by apply run_env_ok|]. intros _ w2 [Hok2 Hsp]. split_and!; [done..|].
    eapply Forall_impl; [|exact Hl1]. intros ev' H. cbn. by rewrite (same_ports_addressed _ _ ev' Hsp).
  - by intros _ w' [? _].
Qed.

(** A create command for a port whose initialisation failed is refused when
    its count or its address is not admissible; any other one dereferences the
    null pointers of the port's list of ranges. *)
Definition well_sized (addr : option mac) (n : Z) : bool :=
  (0 <? n) && (n <=? MAAP_DYNAMIC_POOL_SIZE)
  && match addr with Some a => maap_is_in_dynamic_pool a n | None => true end.

Lemma create_on_failed_port g tx src flag lp id count base p q w :
  logical_to_maap_port (w_st w) lp = Some p → port (w_st w) !! p = Some q → failed_port q →
  if well_sized (request_addr flag base) count
  then maap_ipc_create_range g tx src flag lp id count base w = Fault NullDeref
  else wp (maap_ipc_create_range g tx src flag lp id count base) (λ _ w', w_st w' = w_st w ∧
    (healthy → frames (w_trace w') = frames (w_trace w) ∧
       messages (w_trace w') =
         (src, CreateResponse MAAP_RESPONSE_ERROR (u16 lp) id (u16 count) base) :: messages (w_trace w))) w.
Proof.
  intros Hlp Hq (_ & Hr & Ha).
  assert (Hrefused : well_sized (request_addr flag base) count = false →
    maap_range_alloc g p id (request_addr flag base) count w = Done (None, w)).
  { intros Hws. unfold maap_range_alloc, well_sized in *.
    destruct ((MAAP_DYNAMIC_POOL_SIZE <? count) || (count <=? 0)) eqn:Eb; [done|].
    apply orb_false_iff in Eb as [Eb1%Z.ltb_ge Eb2%Z.leb_gt].
    rewrite (proj2 (Z.ltb_lt 0 count)), (proj2 (Z.leb_le count MAAP_DYNAMIC_POOL_SIZE)) in Hws by lia. cbn in Hws.
    destruct (request_addr flag base); [|done]. by rewrite Hws. }
  assert (Halloc : well_sized (request_addr flag base) count = true →
    maap_range_alloc g p id (request_addr flag base) count w = Fault NullDeref).
  { unfold maap_range_alloc, well_sized. rewrite !andb_true_iff, Z.ltb_lt, Z.leb_le.
    intros [[H1 H2] Hpool]. rewrite (proj2 (Z.ltb_ge _ count)), (proj2 (Z.leb_gt count 0)) by lia. cbn [orb].
    destruct (request_addr flag base) as [a|]; rewrite ?Hpool; cbn [negb].
    all: unfold get_port, bind, gets; rewrite Hq; cbn; rewrite Ha; cbn.
    all: unfold is_range_id_used, get_range_by_id, get_ranges, get_port, bind, gets; rewrite Hq; cbn; by rewrite Hr. }
  fold (request_addr flag base) in *.
  destruct (well_sized _ _).
  - unfold maap_ipc_create_range, bind, gets. rewrite Hlp. fold (request_addr flag base).
    unfold maap_new_range_on_port, bind. by rewrite Halloc.
  - unfold maap_ipc_create_range. wp_step. rewrite Hlp. fold (request_addr flag base).
    wp_step. unfold maap_new_range_on_port. apply wp_bind. unfold wp at 1. rewrite Hrefused by done.
    wp_step. eapply wp_mono; [apply ipc_send_state|]. intros ? w1 [E T]. by rewrite E.
Qed.

(** A delete command for such a port always does. *)
Lemma delete_on_failed_port tx src lp id p q w :
  logical_to_maap_port (w_st w) lp = Some p → port (w_st w) !! p = Some q → failed_port q →
  maap_ipc_delete_range tx src lp id w = Fault NullDeref.
Proof.
  intros Hlp Hq (_ & Hr & Ha). unfold maap_ipc_delete_range, bind, gets. rewrite Hlp.
  unfold maap_remove_range_on_port, get_range_by_id, get_ranges, get_port, bind, gets. rewrite Hq. cbn. by rewrite Hr.
Qed.

(** A port that was never initialised. *)
Lemma ctx_set_port c p q q' : ctx_ok c → ranges c = ∅ → port c !! p = Some q →
  (if initialized q' then port_id q' = Z.of_nat p ∧ range q' = Some [] ∧ allocated_ranges_count q' = 0
   else default [] (range q') = []) →
  ctx_ok (c <| port := <[p := q']> (port c) |>).
Proof.
  intros Hok He Hq Hq'. split.
  - cbn. rewrite length_insert. apply (ctx_max _ Hok).
  - cbn. intros p0 q0. destruct (decide (p0 = p)) as [->|].
    + rewrite list_lookup_insert_eq by (by eapply lookup_lt_Some). intros [= <-].
      destruct (initialized q') eqn:Ei; [|done]. destruct Hq' as (? & ? & ?). exists [].
      split; try done; cbn; try lia; [apply base.NoDup_nil_2|set_solver|set_solver].
    + rewrite list_lookup_insert_ne by done. intros Hq0. pose proof (ctx_ports _ Hok _ _ Hq0) as Hp0.
      destruct (initialized q0); [|done]. destruct Hp0 as [l []]. exists l. by split.
  - cbn. rewrite He. set_solver.
Qed.

Lemma wp_set_port p q f (Q : unit → world maap_call maap_ctx → Prop) w :
  port (w_st w) !! p = Some q →
  Q tt (World ((w_st w) <| port := <[p := f q]> (port (w_st w)) |>) (w_clock w) (w_trace w)) →
  wp (set_port p f) Q w.
Proof.
  intros Hq HQ. unfold set_port. wp_step. destruct w as [[] ? ?]; unfold over, over_field in *; cbn -[alter] in *.
  by rewrite (list_alter_as_insert _ _ _ q).
Qed.

Definition init_inv (k : list nat) w : Prop :=
  ctx_ok (w_st w) ∧ ranges (w_st w) = ∅ ∧ NoDup k ∧
  (∀ i, i ∈ k → port (w_st w) !! i = Some maap_port_zero) ∧
  ∀ i q, port (w_st w) !! i = Some q → initialized q = true ∨ failed_port q.

Lemma port_ipc_init_state i w : wp (maap_port_ipc_init i) (λ _ w', w_st w' = w_st w) w.
Proof.
  unfold maap_port_ipc_init. wp_step. destruct (management_enabled (w_st w)); cbn [negb]; wp_step; [|done].
  destruct (_ <? 0); wp_step; [done|]. destruct (_ <? 0); wp_step; [done|].
  destruct (_ <? 0); wp_step; done.
Qed.

Lemma port_init_ok i k lp decode w :
  init_inv (i :: k) w → wp (maap_port_init i lp decode) (λ _, init_inv k) w.
Proof.
  intros (Hok & He & [Hik Hnd]%list.NoDup_cons & Hz & Hf).
  assert (Hq : port (w_st w) !! i = Some maap_port_zero) by (apply Hz; by left).
  assert (Hlt : (i < length (port (w_st w)))%nat) by by eapply lookup_lt_Some.
  (* every exit leaves port [i] either down and empty, or up and empty *)
  assert (Hend : ∀ q' w2, w_st w2 = (w_st w) <| port := <[i := q']> (port (w_st w)) |> →
    (if initialized q' then port_id q' = Z.of_nat i ∧ range q' = Some [] ∧ allocated_ranges_count q' = 0
     else range q' = None ∧ allocated_ranges_count q' = 0) → init_inv k w2).
  { intros q' w2 Hw2 Hq'. unfold init_inv. rewrite Hw2. split_and!; [|done|done| |].
    - eapply ctx_set_port; [done..|]. destruct (initialized q'); [done|]. by destruct Hq' as [-> _].
    - intros j Hj. cbn. rewrite list_lookup_insert_ne by (by intros ->). apply Hz. by right.
    - intros j qj. cbn. destruct (decide (j = i)) as [->|]; [|rewrite list_lookup_insert_ne by done; apply Hf].
      rewrite list_lookup_insert_eq by done. intros [= <-]. unfold failed_port.
      destruct (initialized q'); [by left|]. right. by split. }
  unfold maap_port_init. apply wp_bind. eapply wp_get_port; [done|].
  apply wp_bind. eapply wp_set_port; [done|].
  wp_step. destruct (_ <? 0); wp_step; [by eapply Hend|].
  eapply wp_set_port; [cbn; by apply list_lookup_insert_eq|].
  match goal with |- wp _ _ (World ?c ?ck ?tr) => set (w2 := World c ck tr) end.
  match type of w2 with _ => assert (Hw2 : ∃ q2, initialized q2 = false ∧ range q2 = None ∧
    port_id q2 = Z.of_nat i ∧ allocated_ranges_count q2 = 0 ∧
    w_st w2 = (w_st w) <| port := <[i := q2]> (port (w_st w)) |>) end.
  { exists (maap_port_zero <| port_id := Z.of_nat i |> <| logical_port := lp |> <| local_physical_mac := decode (answer (w_clock w) (NetGetLocalAddr i)) |>).
    split_and!; try done. cbn [w_st w2]. unfold over, over_field; cbn. by rewrite list_insert_insert_eq. }
  clearbody w2. destruct Hw2 as (q2 & Hi2 & Hr2 & Hp2 & Ha2 & Hw2).
  assert (Hdown : ∀ w3, w_st w3 = w_st w2 → init_inv k w3).
  { intros w3 E. eapply (Hend q2); [by rewrite E|]. by rewrite Hi2, Hr2, Ha2. }
  wp_step. destruct (_ <? 0); wp_step; [by apply Hdown|].
  destruct (_ <? 0); wp_step; [by apply Hdown|].
  destruct (_ <? 0); wp_step; [by apply Hdown|].
  eapply wp_mono; [apply port_ipc_init_state|]. intros rc w3 E3. cbn in E3.
  destruct (rc <? 0); wp_step; [by apply Hdown|].
  eapply wp_set_port; [rewrite E3, Hw2; by apply list_lookup_insert_eq|].
  eapply (Hend (q2 <| range := Some [] |> <| initialized := true |>)); [|done].
  cbn [w_st]. rewrite E3, Hw2. unfold over, over_field; cbn. by rewrite list_insert_insert_eq.
Qed.

Lemma ports_init_ok lps decode n mgmt ck tr :
  wp (maap_ports_init lps decode) (λ _ w', ctx_ok (w_st w') ∧ ranges (w_st w') = ∅ ∧
      ∀ i q, port (w_st w') !! i = Some q → initialized q = true ∨ failed_port q)
    (World ((maap_alloc n) <| management_enabled := mgmt |>) ck tr).
Proof.
  unfold maap_ports_init. wp_step. match goal with |- context [Z.to_nat ?z] => change z with (Z.of_nat n) end. rewrite Nat2Z.id.
  eapply wp_mono.
  - apply (wp_for_each (λ l w', init_inv l w')).
    + split; [|split; [done|split; [apply NoDup_ListNoDup, seq_NoDup|split]]].
      * split; cbn.
        -- by rewrite length_replicate.
        -- intros p q [-> _]%lookup_replicate. done.
        -- set_solver.
      * intros i Hi. cbn. apply lookup_replicate. split; [done|].
        apply list_elem_of_In, in_seq in Hi. lia.
      * cbn. intros i q [-> _]%lookup_replicate. by right.
    + intros i l w1 HI. by apply port_init_ok.
  - intros _ w' (? & ? & _ & _ & ?). by wp_step.
Qed.

Lemma ipc_init_state w : wp maap_ipc_init (λ _ w', w_st w' = w_st w) w.
Proof.
  unfold maap_ipc_init. wp_step. destruct (_ <? 0); wp_step; [done|].
  destruct (_ <? 0); wp_step; [done|]. destruct (_ <? 0); wp_step; done.
Qed.

(** Taking a port down once it has no range. *)
Lemma ctx_down c p q : ctx_ok c → port c !! p = Some q → port_ranges p c = [] →
  ctx_ok (c <| port := <[p := q <| initialized := false |>]> (port c) |>) ∧
  ∀ j, port_ranges j (c <| port := <[p := q <| initialized := false |>]> (port c) |>) = port_ranges j c.
Proof.
  intros Hok Hq He.
  assert (Hsame : ∀ j, port_ranges j (c <| port := <[p := q <| initialized := false |>]> (port c) |>) = port_ranges j c).
  { intros j. unfold port_ranges; cbn. destruct (decide (j = p)) as [->|].
    - rewrite list_lookup_insert_eq by (by eapply lookup_lt_Some). by rewrite Hq.
    - by rewrite list_lookup_insert_ne. }
  split; [|done]. split.
  - cbn. rewrite length_insert. apply (ctx_max _ Hok).
  - cbn. intros p0 q0. destruct (decide (p0 = p)) as [->|].
    + rewrite list_lookup_insert_eq by (by eapply lookup_lt_Some). intros [= <-]. cbn.
      unfold port_ranges in He. by rewrite Hq in He.
    + rewrite list_lookup_insert_ne by done. intros Hq0. pose proof (ctx_ports _ Hok _ _ Hq0) as Hp0.
      destruct (initialized q0); [|done]. destruct Hp0 as [l []]. exists l. by split.
  - intros r x Hx. rewrite Hsame. by apply (ctx_owned _ Hok).
Qed.

Lemma port_exit_ok i w : ctx_ok (w_st w) → (i < length (port (w_st w)))%nat →
  wp (maap_port_exit i) (λ _ w', ctx_ok (w_st w') ∧
    length (port (w_st w')) = length (port (w_st w)) ∧
    port_ranges i (w_st w') = [] ∧
    (∀ j, j ≠ i → port_ranges j (w_st w') = port_ranges j (w_st w))) w.
Proof.
  intros Hok [q Hq]%lookup_lt_is_Some_2. unfold maap_port_exit.
  apply wp_bind. eapply wp_get_port; [done|]. pose proof (ctx_ports _ Hok _ _ Hq) as Hp.
  destruct (initialized q) eqn:Ei; cbn [negb].
  2:{ wp_step. split_and!; try done. unfold port_ranges. by rewrite Hq. }
  destruct Hp as [l Hl]. apply wp_bind.
  eapply wp_mono with (P := λ _ w', w_st w' = w_st w).
  { unfold maap_port_ipc_exit. wp_step. destruct (management_enabled (w_st w)); cbn [when]; by wp_step. }
  intros _ w1 E1. wp_step. rewrite E1, (po_id _ _ _ _ Hl), Nat2Z.id. unfold maap_port_to_logical. rewrite Hq.
  exists (logical_port q). split; [done|]. wp_step.
  eapply wp_mono.
  { eapply (remove_all_spec i q l); cbn [w_st]; rewrite ?E1; done. }
  intros _ w2 (Hok2 & Hpr2 & Hlen2 & Hoth2 & _). cbn [w_st] in *. rewrite ?E1 in *.
  assert (Hlt2 : (i < length (port (w_st w2)))%nat) by (rewrite Hlen2; by eapply lookup_lt_Some).
  destruct (lookup_lt_is_Some_2 _ _ Hlt2) as [q2 Hq2].
  destruct (ctx_down _ _ _ Hok2 Hq2 Hpr2) as [Hok3 Hsame].
  eapply wp_set_port; [exact Hq2|]. cbn [w_st]. split; [done|]. split; [|split].
  - cbn. by rewrite length_insert.
  - by rewrite Hsame.
  - intros j Hj. rewrite Hsame. by apply Hoth2.
Qed.

Lemma ports_exit_ok w : ctx_ok (w_st w) →
  wp maap_ports_exit (λ _ w', ctx_ok (w_st w') ∧ ranges (w_st w') = ∅) w.
Proof.
  intros Hok. unfold maap_ports_exit. wp_step. rewrite (ctx_max _ Hok), Nat2Z.id.
  eapply wp_mono.
  - apply (wp_for_each (λ k w', ctx_ok (w_st w') ∧ length (port (w_st w')) = length (port (w_st w)) ∧
      (∀ i, i ∈ k → (i < length (port (w_st w)))%nat) ∧
      ∀ i, (i < length (port (w_st w)))%nat → i ∉ k → port_ranges i (w_st w') = [])).
    + split; [done|]. split; [done|]. split.
      * intros i Hi. apply list_elem_of_In, in_seq in Hi. lia.
      * intros i Hi Hn. exfalso. apply Hn, list_elem_of_In, in_seq. lia.
    + intros i k w1 (Hok1 & Hlen & Hlt & Hgone).
      eapply wp_mono; [apply port_exit_ok; [done|rewrite Hlen; apply Hlt; by left]|].
      intros _ w2 (Hok2 & Hlen2 & Hpr & Hoth). split; [done|]. split; [congruence|]. split.
      * intros j Hj. apply Hlt. by right.
      * intros j Hj Hn. destruct (decide (j = i)) as [->|]; [done|].
        rewrite Hoth by done. apply Hgone; [done|]. set_solver.
  - intros _ w' (Hok' & Hlen & _ & Hgone). split; [done|]. apply map_empty. intros r.
    destruct (ranges (w_st w') !! r) as [x|] eqn:Hx; [|done]. exfalso.
    destruct (ctx_range _ _ _ Hok' Hx) as (q & l & Hq & Hl & Hin & _).
    rewrite <- (port_ranges_ok _ _ q l) in Hin by done.
    rewrite Hgone in Hin; [set_solver|rewrite <- Hlen; by eapply lookup_lt_Some|set_solver].
Qed.

Lemma init_ok n mgmt lps decode w :
  wp (maap_init n mgmt lps decode) (λ ok w', ok = true → ctx_ok (w_st w') ∧ ranges (w_st w') = ∅ ∧
    ∀ i q, port (w_st w') !! i = Some q → initialized q = true ∨ failed_port q) w.
Proof.
  unfold maap_init. wp_step. destruct (_ =? 0); wp_step; [done|].
  eapply wp_mono; [apply ports_init_ok|]. intros rc w1 (Hok & He & Hf). wp_step.
  eapply wp_mono; [apply ipc_init_state|]. intros rc2 w2 E. cbn in E. destruct (rc2 <? 0).
  - wp_step. eapply wp_mono; [apply ports_exit_ok; by rewrite E|]. intros _ w3 _. by wp_step.
  - wp_step. by rewrite E.
Qed.
End handlers.

(** ** Properties *)

(** C13: between two events a range of a port is an abstract automaton that is
    probing with 3, 2 or 1 probes left, or defending; every conflicting PDU,
    timer expiry and port transition that the code handles terminates without
    fault, moves that automaton exactly as its specification says, keeps the
    range well formed (address in the dynamic pool, the timer of its state
    running and the other one stopped) and sends exactly the frames and status
    messages of the step. *)
Theorem maap_step_refines `{!Platform maap_call} (p r : nat) (q : maap_port) (i : maap_input)
    (x : maap_range) (w : world maap_call maap_ctx)
    (Hrnd : random_ok) (Hx : ranges (w_st w) !! r = Some x) (Hq : port (w_st w) !! p = Some q)
    (Hok : range_ok x) (Hp : range_port x = p) (Hen : input_enabled i x = true) :
  wp (do_input r p i) (λ _ w', ∃ x' new,
    w_st w' = upd_range r x' (w_st w) ∧ same_range x x' ∧ range_ok x' ∧
    abs_range x' = spec_step (input_event i) (input_lower i) new <$> abs_range x ∧
    (healthy → frames (w_trace w') = rev (spec_frames p i x x') ++ frames (w_trace w) ∧
               messages (w_trace w') = rev (spec_messages (port_id q) i x x') ++ messages (w_trace w))) w.
Proof.
  eapply wp_mono; [by apply (input_stepped Hrnd p r q i x)|].
  intros ? w' (x' & new & [E T] & Hs & Hok' & Ha). exists x', new. done.
Qed.

Definition demo_port : maap_port := MaapPort 0 5 (Mac 0 4 0x9f 1 2 3) true 0 (Some []).
Definition demo_maap : maap_ctx := MaapCtx 1 false [demo_port] ∅.
Definition demo_range : maap_range :=
  MaapRange 0 7 16 (Mac 0x91 0xE0 0xF0 0 0 0x40)
    (MaapSm MAAP_STATE_PROBE MAAP_ACTION_NONE (SoftTimer true false) (SoftTimer true true) 1 false).
Definition demo_maap1 : maap_ctx := upd_range 0 demo_range (admitted 0 0 demo_maap).
#[local] Instance demo_maap_platform : Platform maap_call := λ _ _, 1.

Lemma demo_random : random_ok.
Proof. intros n. unfold answer, demo_maap_platform. lia. Qed.
Lemma demo_healthy : healthy.
Proof. by split. Qed.
Lemma demo_port_ok : port_ok demo_maap 0 demo_port [].
Proof.
  split; try done.
  - apply base.NoDup_nil_2.
  - cbn. lia.
  - by intros r Hin%elem_of_nil.
Qed.
Lemma demo_ctx_ok : ctx_ok demo_maap.
Proof.
  split; [done| |].
  - intros [|p] q; [|done]. intros [= <-]. exists []. apply demo_port_ok.
  - intros r x. unfold demo_maap; cbn. by rewrite lookup_empty.
Qed.
Lemma demo_range_ok : range_ok demo_range.
Proof. unfold range_ok, mac_ok, byte_ok, sm_ok; cbn. split_and!; try done; lia. Qed.
Lemma demo_ctx1_ok : ctx_ok demo_maap1.
Proof.
  eapply (ctx_add demo_random demo_maap 0 demo_port []).
  - apply demo_ctx_ok.
  - reflexivity.
  - apply demo_port_ok.
  - reflexivity.
  - apply demo_range_ok.
  - reflexivity.
  - by intros (r & x & Hin%elem_of_nil & _).
  - cbn. lia.
Qed.

Lemma maap_step_refines_witness :
  let w := World demo_maap1 0 [] in
  let q := port_add 0 demo_port in
  wp (do_input 0 0 (InTimer ProbeTimer)) (λ _ w', ∃ x' new,
    w_st w' = upd_range 0 x' demo_maap1 ∧ same_range demo_range x' ∧ range_ok x' ∧
    abs_range x' = spec_step MAAP_EVENT_PROBE_TIMER false new <$> abs_range demo_range ∧
    (healthy → frames (w_trace w') = rev (spec_frames 0 (InTimer ProbeTimer) demo_range x') ++ [] ∧
               messages (w_trace w') = rev (spec_messages (port_id q) (InTimer ProbeTimer) demo_range x') ++ [])) w.
Proof.
  apply (maap_step_refines 0 0 (port_add 0 demo_port) (InTimer ProbeTimer) demo_range (World demo_maap1 0 []));
    [apply demo_random|reflexivity|reflexivity|apply demo_range_ok|reflexivity|reflexivity].
Defined.

(** C29: from [maap_init] to [maap_exit], whatever the platform answers,
    every port is initialised or left with a zeroed list of ranges
    ([failed_port]); and whatever frames, IPC commands, port transitions and
    timer expiries arrive in between, as long as no command names a port
    whose initialisation failed (such a command dereferences a null pointer:
    [create_on_failed_port], [delete_on_failed_port]), the code never
    faults nor loops; in every state that the events reach the ranges of each
    port have distinct ids, at most 128 of them, addresses in the dynamic pool
    and consistent timers; and the exit frees every range.  Frames and status
    messages arrive on initialised ports, expiries of running timers. *)
Theorem maap_lifecycle_safe `{!Platform maap_call} (g : maap_range) (n : nat) (mgmt : bool)
    (lps : nat → Z) (decode : Z → mac) (evs : list maap_env) (w : world maap_call maap_ctx)
    (Hrnd : random_ok) (Hevs : Forall env_ok evs) :
  wp (maap_init n mgmt lps decode) (λ ok w1, ok = true →
    (∀ p q, port (w_st w1) !! p = Some q → initialized q = true ∨ failed_port q) ∧
    (Forall (λ ev, env_addressed (w_st w1) ev = true) evs →
     wp (for_each evs (run_env g)) (λ _ w2, ctx_ok (w_st w2) ∧
       wp maap_exit (λ _ w3, ranges (w_st w3) = ∅) w2) w1)) w.
Proof.
  eapply wp_mono; [by apply init_ok|]. intros ok w1 Hinit Hok. destruct (Hinit Hok) as (Hok1 & _ & Hf).
  split; [done|]. intros Had.
  eapply wp_mono; [by apply events_ok|]. intros ? w2 Hok2. split; [done|].
  unfold maap_exit, maap_ipc_exit. wp_step. eapply wp_mono; [by apply ports_exit_ok|].
  intros ? w3 [_ He]. by wp_step.
Qed.

Definition demo_events : list maap_env :=
  [EnvIpc true 3 (GENAVB_MSG_MAAP_CREATE_RANGE 0 1 9 32 mac_zero);
   EnvTimer 0 ProbeTimer; EnvMacService 1 (Some true);
   EnvIpc false 3 (GENAVB_MSG_MAAP_DELETE_RANGE 1 9)].

(** What a run of [m] is seen to do, and what it is known to do. *)
Lemma wp_checked {A} (m : MM A) (f : A → world maap_call maap_ctx → bool) Q w :
  match m w with Done (a, w') => f a w' | _ => false end = true →
  wp m Q w → wp m (λ a w', f a w' = true ∧ Q a w') w.
Proof. unfold wp. by destruct (m w) as [[a w']| |]. Qed.

(** Both ports of the platform come up, so the events name no failed port. *)
Definition demo_up (ok : bool) (w1 : world maap_call maap_ctx) : bool :=
  ok && forallb (env_addressed (w_st w1)) demo_events.
Lemma demo_start_up :
  match maap_init 2 true (λ i, Z.of_nat i) (λ _, Mac 0 4 0x9f 1 2 3) (World (maap_alloc 0) 0 []) with
  | Done (ok, w1) => demo_up ok w1
  | _ => false
  end = true.
Proof. vm_compute. reflexivity. Qed.

Lemma maap_lifecycle_safe_witness :
  wp (maap_init 2 true (λ i, Z.of_nat i) (λ _, Mac 0 4 0x9f 1 2 3)) (λ ok w1, demo_up ok w1 = true ∧
    (ok = true →
     (∀ p q, port (w_st w1) !! p = Some q → initialized q = true ∨ failed_port q) ∧
     (Forall (λ ev, env_addressed (w_st w1) ev = true) demo_events →
      wp (for_each demo_events (run_env demo_range)) (λ _ w2, ctx_ok (w_st w2) ∧
        wp maap_exit (λ _ w3, ranges (w_st w3) = ∅) w2) w1)))
    (World (maap_alloc 0) 0 []).
Proof.
  apply (wp_checked (maap_init 2 true (λ i, Z.of_nat i) (λ _, Mac 0 4 0x9f 1 2 3)) demo_up);
    [exact demo_start_up|].
  apply maap_lifecycle_safe; [apply demo_random|].
  repeat constructor; unfold env_ok, mac_ok, byte_ok; cbn; lia.
Defined.

(** C23: a create command that names no port or an initialised one
    ([cmd_port_ok]) succeeds iff a range is created; it is refused, without any
    change, when the request is inadmissible (no such port, null or excessive
    count, address out of the dynamic pool, 128 ranges already, id in use,
    requested addresses in use) and otherwise only when the platform refuses
    memory or a timer or draws an address in use; the new range probes its
    addresses, which no other range of the port has.  When the platform has
    memory for frames and messages ([healthy]), exactly one answer is sent,
    with that outcome, and one probe exactly for a new range.  A command that
    names a port whose initialisation failed is refused in the same way when
    its count or its address is inadmissible; otherwise the code, which does
    not look at [initialized], dereferences a null pointer. *)
Theorem maap_create_outcome `{!Platform maap_call} (g : maap_range) (tx : maap_ipc_channel)
    (src flag lp id count : Z) (base : mac) (w : world maap_call maap_ctx)
    (Hrnd : random_ok) (Hok : ctx_ok (w_st w)) (Hbase : mac_ok base) :
  (cmd_port_ok (w_st w) lp →
   wp (maap_ipc_create_range g tx src flag lp id count base) (λ _ w', ctx_ok (w_st w') ∧
     ((∃ p q l r x, logical_to_maap_port (w_st w) lp = Some p ∧ port (w_st w) !! p = Some q ∧
         port_ok (w_st w) p q l ∧
         created p l id flag count base (w_st w) (w_st w') r x ∧
         (healthy → frames (w_trace w') = probe_frame p x :: frames (w_trace w) ∧
            messages (w_trace w') =
              (src, CreateResponse MAAP_RESPONSE_SUCCESS (u16 lp) id (u16 (u16 count)) (start_mac_addr x))
              :: messages (w_trace w))) ∨
      w_st w' = w_st w ∧
        (logical_to_maap_port (w_st w) lp = None ∨
         ∃ p q l, logical_to_maap_port (w_st w) lp = Some p ∧ port (w_st w) !! p = Some q ∧
           port_ok (w_st w) p q l ∧
           (inadmissible (w_st w) l id (request_addr flag base) count ∨
            platform_refuses (w_st w) l (request_addr flag base) count)) ∧
        (healthy → frames (w_trace w') = frames (w_trace w) ∧
           messages (w_trace w') =
             (src, CreateResponse MAAP_RESPONSE_ERROR (u16 lp) id (u16 count) base) :: messages (w_trace w)))) w) ∧
  (∀ p q, logical_to_maap_port (w_st w) lp = Some p → port (w_st w) !! p = Some q → failed_port q →
   (if well_sized (request_addr flag base) count
   then maap_ipc_create_range g tx src flag lp id count base w = Fault NullDeref
   else wp (maap_ipc_create_range g tx src flag lp id count base) (λ _ w', w_st w' = w_st w ∧
     (healthy → frames (w_trace w') = frames (w_trace w) ∧
        messages (w_trace w') =
          (src, CreateResponse MAAP_RESPONSE_ERROR (u16 lp) id (u16 count) base) :: messages (w_trace w))) w)).
Proof.
  split; [intros Hcmd; by apply create_range_spec|]. intros p q. apply create_on_failed_port.
Qed.

(** Port 6 of this context could not be initialised. *)
Definition demo_failed : maap_ctx :=
  demo_maap1 <| port_max := 2 |> <| port ::= λ l, l ++ [maap_port_zero <| logical_port := 6 |>] |>.
Lemma demo_failed_ok : ctx_ok demo_failed.
Proof.
  destruct demo_ctx1_ok as [_ Hp Ho]. split; [done| |].
  - intros [|[|p]] q; [|by intros [= <-]|done]. intros Hq. pose proof (Hp 0%nat q Hq) as H.
    destruct (initialized q); [|done]. destruct H as [l []]. exists l. by split.
  - intros r x Hx. specialize (Ho r x Hx). revert Ho. unfold port_ranges. cbn.
    by destruct (range_port x) as [|[|]].
Qed.

Lemma demo_port_failed : failed_port (maap_port_zero <| logical_port := 6 |>).
Proof. by split. Qed.

Lemma maap_create_outcome_witness :
  let g := demo_range in let tx := MaapIpcTx in let src := 3 in let flag := 1 in let id := 8 in
  let count := 64 in let base := Mac 0x91 0xE0 0xF0 0 0x10 0 in
  let w := World demo_failed 0 [] in
  (let lp := 5 in cmd_port_ok (w_st w) lp ∧
   wp (maap_ipc_create_range g tx src flag lp id count base) (λ _ w', ctx_ok (w_st w') ∧
     ((∃ p q l r x, logical_to_maap_port (w_st w) lp = Some p ∧ port (w_st w) !! p = Some q ∧
         port_ok (w_st w) p q l ∧
         created p l id flag count base (w_st w) (w_st w') r x ∧
         (healthy → frames (w_trace w') = probe_frame p x :: frames (w_trace w) ∧
            messages (w_trace w') =
              (src, CreateResponse MAAP_RESPONSE_SUCCESS (u16 lp) id (u16 (u16 count)) (start_mac_addr x))
              :: messages (w_trace w))) ∨
      w_st w' = w_st w ∧
        (logical_to_maap_port (w_st w) lp = None ∨
         ∃ p q l, logical_to_maap_port (w_st w) lp = Some p ∧ port (w_st w) !! p = Some q ∧
           port_ok (w_st w) p q l ∧
           (inadmissible (w_st w) l id (request_addr flag base) count ∨
            platform_refuses (w_st w) l (request_addr flag base) count)) ∧
        (healthy → frames (w_trace w') = frames (w_trace w) ∧
           messages (w_trace w') =
             (src, CreateResponse MAAP_RESPONSE_ERROR (u16 lp) id (u16 count) base) :: messages (w_trace w)))) w) ∧
  (let lp := 6 in well_sized (request_addr flag base) count = true ∧
   (if well_sized (request_addr flag base) count
   then maap_ipc_create_range g tx src flag lp id count base w = Fault NullDeref
   else wp (maap_ipc_create_range g tx src flag lp id count base) (λ _ w', w_st w' = w_st w ∧
     (healthy → frames (w_trace w') = frames (w_trace w) ∧
        messages (w_trace w') =
          (src, CreateResponse MAAP_RESPONSE_ERROR (u16 lp) id (u16 count) base) :: messages (w_trace w))) w)).
Proof.
  assert (Hb : mac_ok (Mac 0x91 0xE0 0xF0 0 0x10 0)) by (unfold mac_ok, byte_ok; cbn; lia).
  split.
  - assert (Hc : cmd_port_ok demo_failed 5)
      by (by intros [|p] q Hp; vm_compute in Hp; [intros [= <-]|]).
    split; [exact Hc|].
    exact (proj1 (maap_create_outcome demo_range MaapIpcTx 3 1 5 8 64 _ (World demo_failed 0 [])
                    demo_random demo_failed_ok Hb) Hc).
  - split; [reflexivity|].
    exact (proj2 (maap_create_outcome demo_range MaapIpcTx 3 1 6 8 64 _ (World demo_failed 0 [])
                    demo_random demo_failed_ok Hb) 1%nat (maap_port_zero <| logical_port := 6 |>)
                    eq_refl eq_refl demo_port_failed).
Defined.

(** A delete command is answered exactly once; it removes the range with
    that id, and only it, and announces the addresses as free, or reports an
    error and changes nothing when the id is not in use. *)
Lemma maap_delete_outcome `{!Platform maap_call} (tx : maap_ipc_channel) (src lp id : Z)
    (w : world maap_call maap_ctx)
    (Hrnd : random_ok) (Hok : ctx_ok (w_st w)) (Hport : cmd_port_ok (w_st w) lp) :
  wp (maap_ipc_delete_range tx src lp id) (λ _ w', ctx_ok (w_st w') ∧
    ((∃ p q l r x, logical_to_maap_port (w_st w) lp = Some p ∧ port (w_st w) !! p = Some q ∧
        port_ok (w_st w) p q l ∧ r ∈ l ∧ ranges (w_st w) !! r = Some x ∧ range_id x = id ∧
        w_st w' = removed p r (w_st w) ∧
        (healthy → frames (w_trace w') = frames (w_trace w) ∧
           messages (w_trace w') =
             (IPC_DST_ALL, StatusIndication MAAP_STATUS_FREE (u16 lp) id (u16 (u16 (mac_count x))) (start_mac_addr x))
             :: (src, DeleteResponse MAAP_RESPONSE_SUCCESS (u16 lp) id) :: messages (w_trace w))) ∨
     w_st w' = w_st w ∧
       (∀ p q l, logical_to_maap_port (w_st w) lp = Some p → port (w_st w) !! p = Some q →
          port_ok (w_st w) p q l → ¬ id_used (w_st w) l id) ∧
       (healthy → frames (w_trace w') = frames (w_trace w) ∧
          messages (w_trace w') =
            (src, DeleteResponse MAAP_RESPONSE_ERROR (u16 lp) id) :: messages (w_trace w)))) w.
Proof. by apply delete_range_spec. Qed.

(** A received frame concerns exactly the ranges of its port that the
    protocol selects: those whose addresses conflict with a PROBE or ANNOUNCE,
    those that a DEFEND answers, none for another ethertype, subtype or message
    type; each of them takes one step of its automaton and every other range of
    every port is untouched. *)
Lemma maap_receive_exact `{!Platform maap_call} (p : nat) (q : maap_port) (l : list nat)
    (ethertype : Z) (src : mac) (mem : nat → Z) (w : world maap_call maap_ctx)
    (Hrnd : random_ok) (Hok : ctx_ok (w_st w)) (Hq : port (w_st w) !! p = Some q)
    (Hl : port_ok (w_st w) p q l) :
  wp (maap_net_receive p ethertype src mem) (λ _ w',
    ctx_ok (w_st w') ∧ port (w_st w') = port (w_st w) ∧
    (∀ r, r ∉ l → ranges (w_st w') !! r = ranges (w_st w) !! r) ∧
    (∀ r x, r ∈ l → ranges (w_st w) !! r = Some x → ∃ x', ranges (w_st w') !! r = Some x' ∧
       match (if ethertype =? ETHERTYPE_AVTP then pdu_input q src (read_pdu mem) x else None) with
       | None => x' = x
       | Some i => same_range x x' ∧ ∃ new,
           abs_range x' = spec_step (input_event i) (input_lower i) new <$> abs_range x
       end)) w.
Proof.
  eapply wp_mono; [by eapply net_receive_swept|]. intros ? w' (?&?&_&_&?&?). done.
Qed.

(** A PROBE, sent by a station that does not compare below, for addresses of
    [demo_range]. *)
Definition demo_mem : nat → Z :=
  buffer (pdu_bytes (MaapPdu AVTP_SUBTYPE_MAAP MAAP_PROBE 0 0 0 MAAP_VERSION 16 0
    (Mac 0x91 0xE0 0xF0 0 0 0x48) (htons 16) mac_zero (htons 0))) (λ _, 0).

Lemma probe_frame_eq p x x' : same_range x x' → start_mac_addr x' = start_mac_addr x →
  probe_frame p x' = probe_frame p x ∧ announce_frame p x' = announce_frame p x ∧
  ∀ pid st, status_msg pid x' st = status_msg pid x st.
Proof.
  intros (_ & Hid & Hc) Ha. unfold probe_frame, announce_frame, status_msg, maap_build_pdu.
  rewrite Hid, Hc, Ha. done.
Qed.

Section acquisition.
Context `{!Platform maap_call} (Hrnd : random_ok) (Hh : healthy).
Implicit Types (w : world maap_call maap_ctx).

(** One expiry of the probe timer of a range that nobody contests. *)
Lemma probe_expiry p r q n x w :
  ranges (w_st w) !! r = Some x → port (w_st w) !! p = Some q → range_ok x → range_port x = p →
  sm_phase (sm x) = Some (Probing (S n)) →
  wp (timer_expires r ProbeTimer) (λ _ w', ∃ x',
    ranges (w_st w') !! r = Some x' ∧ port (w_st w') = port (w_st w) ∧ range_ok x' ∧ same_range x x' ∧
    start_mac_addr x' = start_mac_addr x ∧
    sm_phase (sm x') = Some (match n with O => Defending | S _ => Probing n end) ∧
    frames (w_trace w') = (match n with O => [announce_frame p x] | S _ => [] end) ++ probe_frame p x :: frames (w_trace w) ∧
    messages (w_trace w') = (match n with O => [status_msg (port_id q) x MAAP_STATUS_SUCCESS] | S _ => [] end)
                            ++ messages (w_trace w)) w.
Proof.
  intros Hx Hq Hok Hp Hph. pose proof Hok as (_ & _ & _ & _ & _ & Hst).
  assert (Hs : state (sm x) = MAAP_STATE_PROBE).
  { unfold sm_phase in Hph. by destruct (state (sm x)). }
  rewrite Hs in Hst.
  eapply wp_mono; [by apply (input_stepped Hrnd p r q (InTimer ProbeTimer) x); try done; apply Hst|].
  intros ? w' (x' & new & [E T] & Hsame & Hok' & Habs). exists x'.
  unfold abs_range in Habs. rewrite Hph in Habs. cbn in Habs.
  assert (Hph' : sm_phase (sm x') = Some (match n with O => Defending | S _ => Probing n end) ∧
                 start_mac_addr x' = start_mac_addr x).
  { destruct (sm_phase (sm x')) as [f|]; [|by destruct n]. cbn in Habs. by destruct n; injection Habs as -> ->. }
  destruct Hph' as [Hph' Ha']. destruct (T Hh) as [F M].
  assert (Hst' : state (sm x') = match n with O => MAAP_STATE_DEFEND | S _ => MAAP_STATE_PROBE end).
  { unfold sm_phase in Hph'. by destruct (state (sm x')), n. }
  rewrite F, M. unfold spec_frames, spec_messages. rewrite Hs, Hst', E.
  split; [apply lookup_insert_eq|]. split; [done|]. by destruct n.
Qed.
End acquisition.

(** C36: a range that is created and that nobody contests is acquired: after
    the initial PROBE and three expiries of its probe timer it has sent four
    PROBEs for its addresses and one ANNOUNCE, in that order, has reported
    success once, and defends the addresses it was created with. *)
Theorem maap_acquires `{!Platform maap_call} (g : maap_range) (p : nat) (q : maap_port) (l : list nat)
    (id : Z) (addr : option mac) (n : Z) (w : world maap_call maap_ctx)
    (Hrnd : random_ok) (Hh : healthy) (Hok : ctx_ok (w_st w)) (Hq : port (w_st w) !! p = Some q)
    (Hl : port_ok (w_st w) p q l) (Haddr : addr_ok addr) :
  wp (let! res := maap_new_range_on_port g p id addr n in
      match res with
      | None => ret None
      | Some r => for_each [ProbeTimer; ProbeTimer; ProbeTimer] (timer_expires r);; ret (Some r)
      end)
    (λ res w', match res with
     | None => w_st w' = w_st w ∧ frames (w_trace w') = frames (w_trace w) ∧
               messages (w_trace w') = messages (w_trace w)
     | Some r => ∃ x, ranges (w_st w') !! r = Some x ∧ state (sm x) = MAAP_STATE_DEFEND ∧ range_ok x ∧
         range_id x = id ∧ mac_count x = n ∧
         match addr with Some a => start_mac_addr x = a | None => True end ∧
         frames (w_trace w') = [announce_frame p x; probe_frame p x; probe_frame p x; probe_frame p x; probe_frame p x]
                               ++ frames (w_trace w) ∧
         messages (w_trace w') = status_msg (port_id q) x MAAP_STATUS_SUCCESS :: messages (w_trace w)
     end) w.
Proof.
  wp_step. eapply wp_mono; [by eapply (new_range_on_port_spec Hrnd g p q l id addr n)|]. intros [r|] w1 H.
  2:{ wp_step. destruct H as (E & Hqt & _). destruct (Hqt Hh). done. }
  destruct H as (Hr & _ & Hok1 & x & Hnew & _ & E & T). destruct (T Hh) as [F M].
  assert (Hx1 : ranges (w_st w1) !! r = Some (reserved x)) by (rewrite E; apply lookup_insert_eq).
  destruct (ctx_range _ _ _ Hok1 Hx1) as (_ & _ & _ & _ & _ & Hrok).
  assert (Hq1 : port (w_st w1) !! p = Some (port_add r q)) by (rewrite E; cbn; by rewrite list_lookup_alter_eq, Hq).
  assert (Hp1 : range_port (reserved x) = p) by exact (nr_port _ _ _ _ _ Hnew).
  cbn [for_each]. wp_step.
  eapply wp_mono; [by eapply (probe_expiry Hrnd Hh p r _ 2 (reserved x))|].
  intros ? w2 (x2 & Hx2 & Eq2 & Ok2 & S2 & A2 & P2 & F2 & M2). wp_step.
  eapply wp_mono; [eapply (probe_expiry Hrnd Hh p r (port_add r q) 1 x2); [done|by rewrite Eq2|done| |done]|].
  { destruct S2 as (-> & _). done. }
  intros ? w3 (x3 & Hx3 & Eq3 & Ok3 & S3 & A3 & P3 & F3 & M3). wp_step.
  eapply wp_mono; [eapply (probe_expiry Hrnd Hh p r (port_add r q) 0 x3); [done|by rewrite Eq3, Eq2|done| |done]|].
  { destruct S3 as (-> & _), S2 as (-> & _). done. }
  intros ? w4 (x4 & Hx4 & Eq4 & Ok4 & S4 & A4 & P4 & F4 & M4). wp_step.
  destruct (probe_frame_eq p _ _ S2 A2) as (B2 & _ & _), (probe_frame_eq p _ _ S3 A3) as (B3 & C3 & D3),
    (probe_frame_eq p _ _ S4 A4) as (B4 & C4 & D4).
  exists x4. split; [done|]. split.
  { unfold sm_phase in P4. by destruct (state (sm x4)). }
  split; [done|]. destruct S2 as (_ & I2 & N2), S3 as (_ & I3 & N3), S4 as (_ & I4 & N4).
  split; [rewrite I4, I3, I2; apply (nr_id _ _ _ _ _ Hnew)|].
  split; [rewrite N4, N3, N2; apply (nr_count _ _ _ _ _ Hnew)|]. split.
  { pose proof (nr_addr _ _ _ _ _ Hnew) as Hna. destruct addr; [|done]. by rewrite A4, A3, A2. }
  split.
  - rewrite F4, F3, F2, F. cbn [app]. rewrite B4, C4, B3, B2. done.
  - rewrite M4, M3, M2, M. cbn [app]. by rewrite D4.
Qed.

Lemma maap_acquires_witness :
  let base := Mac 0x91 0xE0 0xF0 0 0x10 0 in
  let w := World demo_maap1 0 [] in
  wp (let! res := maap_new_range_on_port demo_range 0 8 (Some base) 64 in
      match res with
      | None => ret None
      | Some r => for_each [ProbeTimer; ProbeTimer; ProbeTimer] (timer_expires r);; ret (Some r)
      end)
    (λ res w', match res with
     | None => w_st w' = w_st w ∧ frames (w_trace w') = frames (w_trace w) ∧
               messages (w_trace w') = messages (w_trace w)
     | Some r => ∃ x, ranges (w_st w') !! r = Some x ∧ state (sm x) = MAAP_STATE_DEFEND ∧ range_ok x ∧
         range_id x = 8 ∧ mac_count x = 64 ∧ start_mac_addr x = base ∧
         frames (w_trace w') = [announce_frame 0 x; probe_frame 0 x; probe_frame 0 x; probe_frame 0 x; probe_frame 0 x]
                               ++ frames (w_trace w) ∧
         messages (w_trace w') = status_msg 0 x MAAP_STATUS_SUCCESS :: messages (w_trace w)
     end) w.
Proof.
  apply (maap_acquires demo_range 0 (port_add 0 demo_port) [0%nat] 8 (Some (Mac 0x91 0xE0 0xF0 0 0x10 0)) 64).
  - apply demo_random.
  - apply demo_healthy.
  - apply demo_ctx1_ok.
  - reflexivity.
  - destruct (ctx_ports _ demo_ctx1_ok 0%nat _ eq_refl) as [l Hl].
    assert (l = [0%nat]) as -> by (pose proof (po_list _ _ _ _ Hl) as E; by injection E). exact Hl.
  - unfold addr_ok, mac_ok, byte_ok; cbn; lia.
Defined.

(** The random intervals stay in the windows of IEEE 1722-2016 Table B.8
    once the granularity of the software timers and their jitter are added:
    500 to 600 ms between probes, 30 to 32 s between announcements. *)
Theorem maap_intervals (rnd : Z) (Hr : 0 ≤ rnd) :
  let probe := random_interval rnd MAAP_PROBE_INTERVAL_MIN MAAP_PROBE_INTERVAL_MAX in
  let announce := random_interval rnd MAAP_ANNOUNCE_INTERVAL_MIN MAAP_ANNOUNCE_INTERVAL_MAX in
  500 ≤ probe ∧ probe + MAAP_PROBE_TIMER_GRANULARITY + MAAP_SOFTWARE_TIMER_JITTER ≤ 600 ∧
  30000 ≤ announce ∧ announce + MAAP_ANNOUNCE_TIMER_GRANULARITY + MAAP_SOFTWARE_TIMER_JITTER ≤ 32000.
Proof.
  pose proof (random_interval_range rnd 500 570). pose proof (random_interval_range rnd 30000 31890).
  change MAAP_PROBE_INTERVAL_MIN with 500. change MAAP_PROBE_INTERVAL_MAX with 570.
  change MAAP_ANNOUNCE_INTERVAL_MIN with 30000. change MAAP_ANNOUNCE_INTERVAL_MAX with 31890.
  unfold MAAP_PROBE_TIMER_GRANULARITY, MAAP_SOFTWARE_TIMER_JITTER, MAAP_ANNOUNCE_TIMER_GRANULARITY. cbv zeta. lia.
Qed.

Lemma maap_intervals_witness :
  let probe := random_interval 123456 MAAP_PROBE_INTERVAL_MIN MAAP_PROBE_INTERVAL_MAX in
  let announce := random_interval 123456 MAAP_ANNOUNCE_INTERVAL_MIN MAAP_ANNOUNCE_INTERVAL_MAX in
  500 ≤ probe ∧ probe + MAAP_PROBE_TIMER_GRANULARITY + MAAP_SOFTWARE_TIMER_JITTER ≤ 600 ∧
  30000 ≤ announce ∧ announce + MAAP_ANNOUNCE_TIMER_GRANULARITY + MAAP_SOFTWARE_TIMER_JITTER ≤ 32000.
Proof. apply (maap_intervals 123456). lia. Defined.

(** ** A behaviour the tests do not show *)

(** Moving to a new address does not look at the other ranges of the port: two
    ranges of one port can come to overlap. *)
Definition two_ranges : maap_ctx :=
  let x0 := MaapRange 0 1 16 (Mac 0x91 0xE0 0xF0 0 0 0) (sm demo_range) in
  let x1 := MaapRange 0 2 16 (Mac 0x91 0xE0 0xF0 0 1 0) (sm demo_range) in
  upd_range 1 x1 (admitted 0 1 (upd_range 0 x0 (admitted 0 0 demo_maap))).

Definition overlapping (c : maap_ctx) : bool :=
  match ranges c !! 0%nat, ranges c !! 1%nat with
  | Some x0, Some x1 =>
      bool_decide (is_Some (are_ranges_in_conflict (start_mac_addr x0) (mac_count x0) (start_mac_addr x1) (mac_count x1)))
  | _, _ => false
  end.

Example restart_can_overlap :
  overlapping two_ranges = false ∧
  match maap_sm 1 0 MAAP_EVENT_RANNOUNCE None (World two_ranges 0 []) with
  | Done (_, w) => overlapping (w_st w) = true
  | _ => False
  end.
Proof. split; vm_compute; reflexivity. Qed.
