(* ===== verification/MrpSm.v ===== *)
(** * MRP: the state machines (srp/mrp.c, srp/mrp.h)

    The tables of IEEE 802.1Q 10.7 as the code has them: the applicant and the
    registrar as functions from the event and the state to the next state, the
    action and, for the registrar, the commands to the leave timer.  What the
    actions do is in Mrp.v. *)

From S2P Require Import Prelude.

(** ** Data (srp/mrp.h) *)

Inductive mrp_protocol_state_t :=
| MRP_STATE_VO | MRP_STATE_VP | MRP_STATE_VN | MRP_STATE_AN | MRP_STATE_AA | MRP_STATE_QA
| MRP_STATE_LA | MRP_STATE_AO | MRP_STATE_QO | MRP_STATE_AP | MRP_STATE_QP | MRP_STATE_LO
| MRP_STATE_IN | MRP_STATE_LV | MRP_STATE_MT.
#[export] Instance mrp_state_eq_dec : EqDecision mrp_protocol_state_t.
Proof. solve_decision. Defined.

Inductive mrp_protocol_event_t :=
| MRP_EVENT_BEGIN | MRP_EVENT_NEW | MRP_EVENT_JOIN | MRP_EVENT_LV
| MRP_EVENT_TX | MRP_EVENT_TXLA | MRP_EVENT_TXLAF
| MRP_EVENT_RNEW | MRP_EVENT_RJOININ | MRP_EVENT_RIN | MRP_EVENT_RJOINMT | MRP_EVENT_RMT
| MRP_EVENT_RLV | MRP_EVENT_RLA | MRP_EVENT_FLUSH | MRP_EVENT_REDECLARE
| MRP_EVENT_PERIODIC | MRP_EVENT_LEAVETIMER | MRP_EVENT_LEAVEALLTIMER | MRP_EVENT_PERIODICTIMER
| MRP_EVENT_PERIODIC_ENABLED | MRP_EVENT_PERIODIC_DISABLED | MRP_EVENT_RLV_IMMEDIATE.
#[export] Instance mrp_event_eq_dec : EqDecision mrp_protocol_event_t.
Proof. solve_decision. Defined.

Inductive mrp_protocol_action_t :=
| MRP_ACTION_NONE | MRP_ACTION_NEW | MRP_ACTION_JOIN | MRP_ACTION_LV
| MRP_ACTION_SN | MRP_ACTION_SJ | MRP_ACTION_SJ_ | MRP_ACTION_SL | MRP_ACTION_S | MRP_ACTION_S_
| MRP_ACTION_SLA | MRP_ACTION_PERIODIC | MRP_ACTION_LEAVETIMER | MRP_ACTION_LEAVEALLTIMER
| MRP_ACTION_PERIODICTIMER.
#[export] Instance mrp_action_eq_dec : EqDecision mrp_protocol_action_t.
Proof. solve_decision. Defined.

Inductive mrp_protocol_timer_state_t := MRP_TIMER_PASSIVE | MRP_TIMER_ACTIVE.
#[export] Instance mrp_timer_state_eq_dec : EqDecision mrp_protocol_timer_state_t.
Proof. solve_decision. Defined.

(** [mrp_protocol_attribute_event_t], a number read from the network. *)
Definition MRP_ATTR_EVT_NEW : Z := 0.
Definition MRP_ATTR_EVT_JOININ : Z := 1.
Definition MRP_ATTR_EVT_IN : Z := 2.
Definition MRP_ATTR_EVT_JOINMT : Z := 3.
Definition MRP_ATTR_EVT_MT : Z := 4.
Definition MRP_ATTR_EVT_LV : Z := 5.
Definition MRP_ATTR_EVT_LVA : Z := 6.
Definition MRP_ATTR_EVT_MAX : Z := 7.

Definition MRP_PARTICIPANT_TYPE_FULL : Z := 1.
Definition MRP_PARTICIPANT_TYPE_POINT_TO_POINT : Z := 2.
Definition has_type (participant_type flag : Z) : bool := negb (Z.land participant_type flag =? 0).
Abbreviation is_full pt := (has_type pt MRP_PARTICIPANT_TYPE_FULL).
Abbreviation is_point_to_point pt := (has_type pt MRP_PARTICIPANT_TYPE_POINT_TO_POINT).

Definition mrp_attribute2rxevent (event : Z) : mrp_protocol_event_t :=
  match event with
  | 0 => MRP_EVENT_RNEW
  | 1 => MRP_EVENT_RJOININ
  | 2 => MRP_EVENT_RIN
  | 3 => MRP_EVENT_RJOINMT
  | 4 => MRP_EVENT_RMT
  | 5 => MRP_EVENT_RLV
  | _ => MRP_EVENT_RLA
  end.

(** [mrp_action2event]: the attribute event that an applicant action
    transmits, -1 for none. *)
Definition mrp_action2event (pt : Z) (action : mrp_protocol_action_t) (reg : mrp_protocol_state_t) : Z :=
  match action with
  | MRP_ACTION_SN => MRP_ATTR_EVT_NEW
  | MRP_ACTION_SJ =>
      if is_full pt then
        if decide (reg = MRP_STATE_IN) then MRP_ATTR_EVT_JOININ else MRP_ATTR_EVT_JOINMT
      else MRP_ATTR_EVT_JOINMT
  | MRP_ACTION_SL => MRP_ATTR_EVT_LV
  | MRP_ACTION_S =>
      if is_full pt then
        if decide (reg = MRP_STATE_IN) then MRP_ATTR_EVT_IN else MRP_ATTR_EVT_MT
      else MRP_ATTR_EVT_MT
  | _ => -1
  end.

(** ** The applicant: [switch (event)] of [mrp_applicant_sm] *)

Abbreviation St := mrp_protocol_state_t.
Abbreviation Act := mrp_protocol_action_t.

Definition applicant_new (s : St) : St :=
  match s with
  | MRP_STATE_VN | MRP_STATE_AN => s
  | _ => MRP_STATE_VN
  end.

Definition applicant_join (s : St) : St :=
  match s with
  | MRP_STATE_VO | MRP_STATE_LO => MRP_STATE_VP
  | MRP_STATE_LA => MRP_STATE_AA
  | MRP_STATE_AO => MRP_STATE_AP
  | MRP_STATE_QO => MRP_STATE_QP
  | _ => s
  end.

Definition applicant_lv (s : St) : St :=
  match s with
  | MRP_STATE_VP => MRP_STATE_VO
  | MRP_STATE_VN | MRP_STATE_AN | MRP_STATE_AA | MRP_STATE_QA => MRP_STATE_LA
  | MRP_STATE_AP => MRP_STATE_AO
  | MRP_STATE_QP => MRP_STATE_QO
  | _ => s
  end.

Definition applicant_rjoinin (pt : Z) (s : St) : St :=
  match s with
  | MRP_STATE_VO => if negb (is_point_to_point pt) then MRP_STATE_AO else s
  | MRP_STATE_VP => if negb (is_point_to_point pt) then MRP_STATE_AP else s
  | MRP_STATE_AA => MRP_STATE_QA
  | MRP_STATE_AO => MRP_STATE_QO
  | MRP_STATE_AP => MRP_STATE_QP
  | _ => s
  end.

Definition applicant_rin (s : St) : St :=
  match s with
  | MRP_STATE_AA => MRP_STATE_QA
  | _ => s
  end.

Definition applicant_rjoinmt_rmt (s : St) : St :=
  match s with
  | MRP_STATE_QA => MRP_STATE_AA
  | MRP_STATE_QO => MRP_STATE_AO
  | MRP_STATE_QP => MRP_STATE_AP
  | MRP_STATE_LO => MRP_STATE_VO
  | _ => s
  end.

Definition applicant_rlv_rla_redeclare (s : St) : St :=
  match s with
  | MRP_STATE_VO => MRP_STATE_LO
  | MRP_STATE_AN => MRP_STATE_VN
  | MRP_STATE_AA | MRP_STATE_QA | MRP_STATE_AP | MRP_STATE_QP => MRP_STATE_VP
  | MRP_STATE_AO | MRP_STATE_QO => MRP_STATE_LO
  | _ => s
  end.

Definition applicant_periodic (s : St) : St :=
  match s with
  | MRP_STATE_QA => MRP_STATE_AA
  | MRP_STATE_QP => MRP_STATE_AP
  | _ => s
  end.

Definition applicant_tx (reg : St) (s : St) : St * Act :=
  match s with
  | MRP_STATE_VO => (s, MRP_ACTION_S_)
  | MRP_STATE_VP => (MRP_STATE_AA, MRP_ACTION_SJ)
  | MRP_STATE_VN => (MRP_STATE_AN, MRP_ACTION_SN)
  | MRP_STATE_AN =>
      (if decide (reg = MRP_STATE_IN) then MRP_STATE_QA else MRP_STATE_AA, MRP_ACTION_SN)
  | MRP_STATE_AP | MRP_STATE_AA => (MRP_STATE_QA, MRP_ACTION_SJ)
  | MRP_STATE_QA => (s, MRP_ACTION_SJ_)
  | MRP_STATE_LA => (MRP_STATE_VO, MRP_ACTION_SL)
  | MRP_STATE_AO | MRP_STATE_QO | MRP_STATE_QP => (s, MRP_ACTION_S_)
  | MRP_STATE_LO => (MRP_STATE_VO, MRP_ACTION_S)
  | _ => (s, MRP_ACTION_NONE)
  end.

Definition applicant_txla (s : St) : St * Act :=
  match s with
  | MRP_STATE_VO => (MRP_STATE_LO, MRP_ACTION_S_)
  | MRP_STATE_VP => (MRP_STATE_AA, MRP_ACTION_S)
  | MRP_STATE_VN => (MRP_STATE_AN, MRP_ACTION_SN)
  | MRP_STATE_AN => (MRP_STATE_QA, MRP_ACTION_SN)
  | MRP_STATE_AA | MRP_STATE_AP | MRP_STATE_QP => (MRP_STATE_QA, MRP_ACTION_SJ)
  | MRP_STATE_QA => (s, MRP_ACTION_SJ)
  | MRP_STATE_LA | MRP_STATE_AO | MRP_STATE_QO => (MRP_STATE_LO, MRP_ACTION_S_)
  | MRP_STATE_LO => (MRP_STATE_VO, MRP_ACTION_S_)
  | _ => (s, MRP_ACTION_NONE)
  end.

Definition applicant_txlaf (s : St) : St :=
  match s with
  | MRP_STATE_VO => MRP_STATE_LO
  | MRP_STATE_AN => MRP_STATE_VN
  | MRP_STATE_AA | MRP_STATE_QA | MRP_STATE_AP | MRP_STATE_QP => MRP_STATE_VP
  | MRP_STATE_LA | MRP_STATE_AO | MRP_STATE_QO => MRP_STATE_LO
  | _ => s
  end.

Definition applicant_event (pt : Z) (reg : St) (event : mrp_protocol_event_t) (s : St) : St * Act :=
  match event with
  | MRP_EVENT_BEGIN => (MRP_STATE_VO, MRP_ACTION_NONE)
  | MRP_EVENT_NEW => (applicant_new s, MRP_ACTION_NONE)
  | MRP_EVENT_JOIN => (applicant_join s, MRP_ACTION_NONE)
  | MRP_EVENT_LV => (applicant_lv s, MRP_ACTION_NONE)
  | MRP_EVENT_RNEW => (s, MRP_ACTION_NONE)
  | MRP_EVENT_RJOININ => (applicant_rjoinin pt s, MRP_ACTION_NONE)
  | MRP_EVENT_RIN => (applicant_rin s, MRP_ACTION_NONE)
  | MRP_EVENT_RJOINMT | MRP_EVENT_RMT => (applicant_rjoinmt_rmt s, MRP_ACTION_NONE)
  | MRP_EVENT_RLV | MRP_EVENT_RLA | MRP_EVENT_REDECLARE =>
      (applicant_rlv_rla_redeclare s, MRP_ACTION_NONE)
  | MRP_EVENT_PERIODIC => (applicant_periodic s, MRP_ACTION_NONE)
  | MRP_EVENT_TX => applicant_tx reg s
  | MRP_EVENT_TXLA => applicant_txla s
  | MRP_EVENT_TXLAF => (applicant_txlaf s, MRP_ACTION_NONE)
  | _ => (s, MRP_ACTION_NONE)
  end.

(** With the exception of table 10-3, note 1 for applicant-only participants. *)
Definition applicant_next (pt : Z) (reg : St) (event : mrp_protocol_event_t) (s : St) : St * Act :=
  let '(s', a) := applicant_event pt reg event s in
  (if negb (is_full pt) && bool_decide (s' = MRP_STATE_LO) then MRP_STATE_VO else s', a).

(** The states that need a transmission opportunity (note 6). *)
Definition needs_tx (s : St) : bool :=
  match s with
  | MRP_STATE_VN | MRP_STATE_AN | MRP_STATE_AA | MRP_STATE_LA | MRP_STATE_VP | MRP_STATE_AP
  | MRP_STATE_LO => true
  | _ => false
  end.

(** The condition of [mrp_free_attribute_check] (note 11). *)
Definition freeable (pt : Z) (app reg : St) : bool :=
  (bool_decide (app = MRP_STATE_VO) || bool_decide (app = MRP_STATE_AO) || bool_decide (app = MRP_STATE_QO))
  && (negb (is_full pt) || bool_decide (reg = MRP_STATE_MT)).

(** ** The registrar: [switch (event)] of [mrp_registrar_sm] *)

Inductive leave_timer_cmd := LeaveStop | LeaveStart.

(** A result [inl event] is [goto begin] with [immediate] set. *)
Definition registrar_event (immediate : bool) (event : mrp_protocol_event_t) (s : St) :
    (mrp_protocol_event_t * St) + (St * Act * option leave_timer_cmd) :=
  match event with
  | MRP_EVENT_BEGIN => inr (MRP_STATE_MT, MRP_ACTION_NONE, None)
  | MRP_EVENT_RNEW =>
      inr (MRP_STATE_IN, MRP_ACTION_NEW,
           if decide (s = MRP_STATE_LV) then Some LeaveStop else None)
  | MRP_EVENT_RJOININ | MRP_EVENT_RJOINMT =>
      inr (if decide (s = MRP_STATE_LV) then (MRP_STATE_IN, MRP_ACTION_NONE, Some LeaveStop)
           else if decide (s = MRP_STATE_MT) then (MRP_STATE_IN, MRP_ACTION_JOIN, None)
           else (MRP_STATE_IN, MRP_ACTION_NONE, None))
  | MRP_EVENT_RLV =>
      inr (if decide (s = MRP_STATE_IN) then (MRP_STATE_MT, MRP_ACTION_LV, None)
           else (s, MRP_ACTION_NONE, None))
  | MRP_EVENT_RLA | MRP_EVENT_TXLA | MRP_EVENT_REDECLARE =>
      inr (if decide (s = MRP_STATE_IN) then (MRP_STATE_LV, MRP_ACTION_NONE, Some LeaveStart)
           else (s, MRP_ACTION_NONE, None))
  | MRP_EVENT_RLV_IMMEDIATE =>
      if decide (s = MRP_STATE_IN ∨ s = MRP_STATE_LV) then inl (MRP_EVENT_LEAVETIMER, MRP_STATE_LV)
      else inr (s, MRP_ACTION_NONE, None)
  | MRP_EVENT_FLUSH =>
      inr (MRP_STATE_MT, if decide (s = MRP_STATE_LV) then MRP_ACTION_LV else MRP_ACTION_NONE, None)
  | MRP_EVENT_LEAVETIMER =>
      inr (if decide (s = MRP_STATE_LV) then
             (MRP_STATE_MT, if immediate then MRP_ACTION_NONE else MRP_ACTION_LV, None)
           else (s, MRP_ACTION_NONE, None))
  | _ => inr (s, MRP_ACTION_NONE, None)
  end.

(** [begin:] is passed at most twice. *)
Definition registrar_next (pt : Z) (event : mrp_protocol_event_t) (s : St) :
    St * Act * option leave_timer_cmd :=
  if negb (is_full pt) then (s, MRP_ACTION_NONE, None) else
  match registrar_event false event s with
  | inr r => r
  | inl (event, s) =>
      match registrar_event true event s with
      | inr r => r
      | inl (_, s) => (s, MRP_ACTION_NONE, None)
      end
  end.

(** ** What the machines promise *)

(** The declarations: an attribute is declared in these applicant states. *)
Definition declared (s : St) : bool :=
  match s with
  | MRP_STATE_VP | MRP_STATE_VN | MRP_STATE_AN | MRP_STATE_AA | MRP_STATE_QA | MRP_STATE_AP
  | MRP_STATE_QP => true
  | _ => false
  end.
Definition applicant_state (s : St) : bool :=
  match s with MRP_STATE_IN | MRP_STATE_LV | MRP_STATE_MT => false | _ => true end.
Definition registrar_state (s : St) : bool :=
  match s with MRP_STATE_IN | MRP_STATE_LV | MRP_STATE_MT => true | _ => false end.
(** The registration the rest of the system is told about. *)
Definition registered (s : St) : bool :=
  match s with MRP_STATE_IN | MRP_STATE_LV => true | _ => false end.

Definition declared_after (event : mrp_protocol_event_t) (d : bool) : bool :=
  match event with
  | MRP_EVENT_NEW | MRP_EVENT_JOIN => true
  | MRP_EVENT_LV | MRP_EVENT_BEGIN => false
  | _ => d
  end.

(** The view of the upper layer after an indication. *)
Definition indicated (a : Act) (u : bool) : bool :=
  match a with MRP_ACTION_NEW | MRP_ACTION_JOIN => true | MRP_ACTION_LV => false | _ => u end.

(** The attribute events of [n] transmission opportunities in a row. *)
Fixpoint tx_run (n : nat) (pt : Z) (reg s : St) : St * list Z :=
  match n with
  | O => (s, [])
  | S n =>
      let '(s1, a) := applicant_next pt reg MRP_EVENT_TX s in
      let '(s2, l) := tx_run n pt reg s1 in
      let e := mrp_action2event pt a reg in
      (s2, if e <? 0 then l else e :: l)
  end.

(** What a declaration, or its withdrawal, has still to say. *)
Definition join_evt (pt : Z) (reg : St) : Z :=
  if is_full pt && bool_decide (reg = MRP_STATE_IN) then MRP_ATTR_EVT_JOININ else MRP_ATTR_EVT_JOINMT.
Definition pending (pt : Z) (reg s : St) : list Z :=
  let again := if decide (reg = MRP_STATE_IN) then [] else [join_evt pt reg] in
  match s with
  | MRP_STATE_VN => MRP_ATTR_EVT_NEW :: MRP_ATTR_EVT_NEW :: again
  | MRP_STATE_AN => MRP_ATTR_EVT_NEW :: again
  | MRP_STATE_VP => [join_evt pt reg; join_evt pt reg]
  | MRP_STATE_AA | MRP_STATE_AP => [join_evt pt reg]
  | MRP_STATE_LA => [MRP_ATTR_EVT_LV]
  | MRP_STATE_LO =>
      [if is_full pt && bool_decide (reg = MRP_STATE_IN) then MRP_ATTR_EVT_IN else MRP_ATTR_EVT_MT]
  | _ => []
  end.

(** One event: the applicant stays in its states, declares what the event
    asks for, and an applicant-only participant never becomes a leaving
    observer. *)
Lemma applicant_step (pt : Z) (reg s : St) (event : mrp_protocol_event_t) :
  applicant_state s = true → is_full pt = true ∨ s ≠ MRP_STATE_LO →
  let s' := fst (applicant_next pt reg event s) in
  applicant_state s' = true ∧ declared s' = declared_after event (declared s) ∧
  (is_full pt = true ∨ s' ≠ MRP_STATE_LO).
Proof.
  intros Hs Hpt. unfold applicant_next, declared_after. destruct (is_full pt) eqn:Ef.
  - cbn. destruct event, s; try discriminate Hs; cbn; unfold applicant_rjoinin, applicant_tx;
      try destruct (is_point_to_point pt); try destruct (decide (reg = MRP_STATE_IN)); auto.
  - destruct Hpt as [|Hlo]; [done|].
    destruct event, s; try discriminate Hs; try congruence; cbn; unfold applicant_rjoinin, applicant_tx;
      try destruct (is_point_to_point pt); try destruct (decide (reg = MRP_STATE_IN)); auto.
Qed.

(** The applicant of a port of type [pt] under a sequence of events, each with
    the registrar state [mrp_applicant_sm] finds at that event. *)
Definition applicant_run (pt : Z) (es : list (St * mrp_protocol_event_t)) (s : St) : St :=
  foldl (λ s e, fst (applicant_next pt e.1 e.2 s)) s es.

(** The requests among the events: to declare ([true]) or to withdraw
    ([false]; [BEGIN] starts the machine without a declaration). *)
Definition declaration_request (event : mrp_protocol_event_t) : option bool :=
  match event with
  | MRP_EVENT_NEW | MRP_EVENT_JOIN => Some true
  | MRP_EVENT_LV | MRP_EVENT_BEGIN => Some false
  | _ => None
  end.
Definition last_request (es : list (St * mrp_protocol_event_t)) : option bool :=
  list.last (omap (λ e, declaration_request e.2) es).

Lemma last_request_snoc es e :
  last_request (es ++ [e]) = (if declaration_request e.2 is Some b then Some b else last_request es).
Proof.
  unfold last_request. rewrite omap_app. cbn. destruct (declaration_request e.2).
  - by rewrite last_snoc.
  - by rewrite app_nil_r.
Qed.

(** C31: after any sequence of events, whatever the registrar's states, the
    applicant declares the attribute exactly as the last request among them
    ([NEW], [JOIN], [LV], or [BEGIN], which starts without a declaration)
    says, and as it did at the start when there was none: no protocol event, timer or transmission opportunity makes or loses
    a declaration.  The machine stays in the applicant's states, and an
    applicant-only participant never becomes a leaving observer. *)
Theorem applicant_declaration (pt : Z) (s : St) (es : list (St * mrp_protocol_event_t))
    (Hs : applicant_state s = true) (Hpt : is_full pt = true ∨ s ≠ MRP_STATE_LO) :
  let s' := applicant_run pt es s in
  applicant_state s' = true ∧
  declared s' = default (declared s) (last_request es) ∧
  (is_full pt = true ∨ s' ≠ MRP_STATE_LO).
Proof.
  cbn zeta. induction es as [|e es IH] using rev_ind; [done|].
  unfold applicant_run. rewrite foldl_app. cbn. fold (applicant_run pt es s).
  destruct IH as (Ha & Hd & Hlo).
  destruct (applicant_step pt e.1 _ e.2 Ha Hlo) as (Ha' & Hd' & Hlo'). split_and!; [done| |done].
  rewrite Hd', Hd, last_request_snoc. by destruct (e.2).
Qed.

Lemma applicant_declaration_witness :
  let es := [(MRP_STATE_MT, MRP_EVENT_JOIN); (MRP_STATE_MT, MRP_EVENT_TX);
             (MRP_STATE_IN, MRP_EVENT_RJOININ); (MRP_STATE_LV, MRP_EVENT_RLA)] in
  (let s' := applicant_run 3 es MRP_STATE_LA in
   applicant_state s' = true ∧ declared s' = default (declared MRP_STATE_LA) (last_request es) ∧
   (is_full 3 = true ∨ s' ≠ MRP_STATE_LO)) ∧
  declared MRP_STATE_LA = false ∧ last_request es = Some true.
Proof.
  split; [|by split].
  apply (applicant_declaration 3 MRP_STATE_LA); [reflexivity|by left].
Defined.

(** Without further events an applicant falls silent after at most three
    transmission opportunities, having sent exactly what its state calls for:
    a new declaration is sent twice as New (and a third time as Join when
    nobody else declares the attribute), a declaration as one or two Joins, a
    withdrawal as one Leave; nothing is pending any more and the attribute is
    still declared exactly if it was. *)
Theorem applicant_quiesces (pt : Z) (reg s : St) (Hs : applicant_state s = true) :
  let '(s', sent) := tx_run 3 pt reg s in
  sent = pending pt reg s ∧ needs_tx s' = false ∧ declared s' = declared s ∧
  ∀ n, tx_run n pt reg s' = (s', []).
Proof.
  assert (Hstay : ∀ s', needs_tx s' = false → applicant_state s' = true →
                  ∀ n, tx_run n pt reg s' = (s', [])).
  { intros s' Hn Ha n. induction n as [|n IH]; [done|]. cbn [tx_run]. unfold applicant_next.
    destruct s'; try discriminate Hn; try discriminate Ha; cbn; rewrite andb_false_r, IH; done. }
  unfold tx_run, applicant_next, pending, mrp_action2event, join_evt.
  destruct s; try discriminate Hs; cbn; rewrite ?andb_false_r; cbn;
    destruct (decide (reg = MRP_STATE_IN)) as [->|Hr]; cbn; rewrite ?andb_false_r; cbn;
    rewrite ?(bool_decide_eq_false_2 (reg = MRP_STATE_IN)) by done; rewrite ?decide_False by done;
    destruct (is_full pt); cbn; rewrite ?decide_False by done; split_and!; try done; by apply Hstay.
Qed.

Lemma applicant_quiesces_witness :
  applicant_state MRP_STATE_VN = true ∧
  (let '(s', sent) := tx_run 3 3 MRP_STATE_MT MRP_STATE_VN in
   sent = pending 3 MRP_STATE_MT MRP_STATE_VN ∧ needs_tx s' = false ∧
   declared s' = declared MRP_STATE_VN ∧ ∀ n, tx_run n 3 MRP_STATE_MT s' = (s', [])) ∧
  pending 3 MRP_STATE_MT MRP_STATE_VN = [MRP_ATTR_EVT_NEW; MRP_ATTR_EVT_NEW; MRP_ATTR_EVT_JOINMT].
Proof.
  split; [reflexivity|]. split; [|reflexivity].
  exact (applicant_quiesces 3 MRP_STATE_MT MRP_STATE_VN eq_refl).
Defined.

(** The registrar of a full participant stays in its three states; every
    event but the two silent ones ([RLV_IMMEDIATE], whose caller withdraws the
    registration itself, and [FLUSH]) changes the registration exactly when it
    indicates the change, a Join only for an attribute that was not
    registered; the leave timer is started on entering LV and stopped on
    leaving it for IN. *)
Theorem registrar_indications (pt : Z) (s : St) (event : mrp_protocol_event_t)
    (Hf : is_full pt = true) (Hs : registrar_state s = true) (Hb : event ≠ MRP_EVENT_BEGIN) :
  let '(s', a, cmd) := registrar_next pt event s in
  registrar_state s' = true ∧
  (event ≠ MRP_EVENT_FLUSH → event ≠ MRP_EVENT_RLV_IMMEDIATE →
     registered s' = indicated a (registered s) ∧
     (a = MRP_ACTION_JOIN → registered s = false) ∧ (a = MRP_ACTION_LV → registered s = true)) ∧
  (event = MRP_EVENT_RLV_IMMEDIATE → a = MRP_ACTION_NONE ∧ registered s' = false) ∧
  (cmd = Some LeaveStart ↔ s ≠ MRP_STATE_LV ∧ s' = MRP_STATE_LV) ∧
  (cmd = Some LeaveStop ↔ s = MRP_STATE_LV ∧ s' = MRP_STATE_IN).
Proof.
  unfold registrar_next. rewrite Hf. cbn.
  destruct s; try discriminate Hs; destruct event; cbn; split_and!; try done; try naive_solver.
Qed.

Lemma registrar_indications_witness :
  is_full 3 = true ∧
  (let '(s', a, cmd) := registrar_next 3 MRP_EVENT_RJOININ MRP_STATE_LV in
   registrar_state s' = true ∧
   (MRP_EVENT_RJOININ ≠ MRP_EVENT_FLUSH → MRP_EVENT_RJOININ ≠ MRP_EVENT_RLV_IMMEDIATE →
      registered s' = indicated a (registered MRP_STATE_LV) ∧
      (a = MRP_ACTION_JOIN → registered MRP_STATE_LV = false) ∧
      (a = MRP_ACTION_LV → registered MRP_STATE_LV = true)) ∧
   (MRP_EVENT_RJOININ = MRP_EVENT_RLV_IMMEDIATE → a = MRP_ACTION_NONE ∧ registered s' = false) ∧
   (cmd = Some LeaveStart ↔ MRP_STATE_LV ≠ MRP_STATE_LV ∧ s' = MRP_STATE_LV) ∧
   (cmd = Some LeaveStop ↔ MRP_STATE_LV = MRP_STATE_LV ∧ s' = MRP_STATE_IN)).
Proof.
  split; [reflexivity|].
  apply (registrar_indications 3 MRP_STATE_LV MRP_EVENT_RJOININ); [reflexivity|reflexivity|discriminate].
Defined.

(** A flush of a registered attribute is not indicated. *)
Lemma flush_not_indicated pt :
  is_full pt = true → registrar_next pt MRP_EVENT_FLUSH MRP_STATE_IN = (MRP_STATE_MT, MRP_ACTION_NONE, None).
Proof. unfold registrar_next. by intros ->. Qed.

(** Facts the proofs about Mrp.v use. *)
Lemma registrar_begin pt s :
  registrar_next pt MRP_EVENT_BEGIN s =
    (if is_full pt then MRP_STATE_MT else s, MRP_ACTION_NONE, None).
Proof. unfold registrar_next. by destruct (is_full pt). Qed.

Lemma applicant_begin pt reg s : applicant_next pt reg MRP_EVENT_BEGIN s = (MRP_STATE_VO, MRP_ACTION_NONE).
Proof. unfold applicant_next. cbn. by rewrite andb_false_r. Qed.

(** A received leave-all frees no attribute of a full participant. *)
Lemma rla_not_freeable pt reg s :
  is_full pt = true → applicant_state s = true →
  freeable pt (fst (applicant_next pt reg MRP_EVENT_RLA s)) (fst (fst (registrar_next pt MRP_EVENT_RLA reg))) = false.
Proof.
  intros Hf Hs. unfold applicant_next, freeable. rewrite Hf. cbn.
  by destruct s; try discriminate Hs.
Qed.
