(* ===== verification/MrpPdu.v ===== *)
(** * MRP: the encoding of PDUs (srp/mrp.c, srp/mrp.h)

    Packed events and vector headers, and the construction of a message in a
    transmit descriptor: [mrp_msg_*] and [mrp_vector_*], which write through
    pointers into the data of the descriptor.  A pointer is its offset in that
    data, NULL is [None], and a write outside of the data is a fault. *)

From S2P Require Import Prelude MrpSm.

(** ** Packed events and headers *)

Definition mrp_three_packed_event (event0 event1 event2 : Z) : Z :=
  u8 ((event0 * 6 + event1) * 6 + event2).
Definition mrp_four_packed_event (event0 event1 event2 event3 : Z) : Z :=
  u8 (((event0 * 4 + event1) * 4 + event2) * 4 + event3).

Definition mrp_get_three_packed_event (threepackedevent : Z) : list Z :=
  let e0 := threepackedevent / (6 * 6) in
  let r := u8 (threepackedevent - e0 * (6 * 6)) in
  let e1 := r / 6 in
  let r := u8 (r - e1 * 6) in
  [e0; e1; r].

Definition mrp_get_four_packed_event (fourpackedevent : Z) : list Z :=
  let e0 := fourpackedevent / 64 in
  let r := u8 (fourpackedevent - e0 * 64) in
  let e1 := r / 16 in
  let r := u8 (r - e1 * 16) in
  let e2 := r / 4 in
  let r := u8 (r - e2 * 4) in
  [e0; e1; e2; r].

Definition mrp_vector_header (leave_event_all number_of_values : Z) : Z :=
  htons (u16 (u8 leave_event_all * 8192 + u16 number_of_values)).
(** The leave-all event and the number of values. *)
Definition mrp_get_vector_header (vector_header : Z) : Z * Z :=
  let h := ntohs vector_header in (h / 8192, h mod 8192).

Definition MRP_NULL_LVA_EVENT : Z := 0.
Definition MRP_LVA_EVENT : Z := 1.

(** ** The PDU under construction *)

Record mrp_msg := MrpMsg {
  msg_start : option Z;
  msg_vector_start : Z;
  msg_end : Z;
  msg_end_max : Z;
}.
#[export] Instance eta_mrp_msg : Eta mrp_msg := λ r,
  MrpMsg (msg_start r) (msg_vector_start r) (msg_end r) (msg_end_max r).

Record mrp_vector := MrpVector {
  vec_start : option Z;
  vec_event_start : option Z;
  vec_end : option Z;
  vec_end_max : Z;
  number_of_values : Z;
  leave_all_event : Z;
}.
#[export] Instance eta_mrp_vector : Eta mrp_vector := λ r,
  MrpVector (vec_start r) (vec_event_start r) (vec_end r) (vec_end_max r) (number_of_values r)
    (leave_all_event r).

(** A transmit descriptor: its length and the memory at [NET_DATA_START]. *)
Record net_tx_desc := TxDesc { tx_len : Z; tx_data : list Z }.
#[export] Instance eta_net_tx_desc : Eta net_tx_desc := λ r, TxDesc (tx_len r) (tx_data r).

Record mrp_attribute_mrpdu := Mrpdu {
  desc : option net_tx_desc;
  msg : mrp_msg;
  vector : mrp_vector;
}.
#[export] Instance eta_mrpdu : Eta mrp_attribute_mrpdu := λ r, Mrpdu (desc r) (msg r) (vector r).

(** [os_memset(app->mrpdu, 0, sizeof(app->mrpdu))]. *)
Definition mrpdu_zero : mrp_attribute_mrpdu :=
  Mrpdu None (MrpMsg None 0 0 0) (MrpVector None None None 0 0 0).

Abbreviation PM := (M Empty_set mrp_attribute_mrpdu).

Definition set_msg (f : mrp_msg → mrp_msg) : PM unit := modify (λ d, d <| msg ::= f |>).
Definition set_vector (f : mrp_vector → mrp_vector) : PM unit := modify (λ d, d <| vector ::= f |>).

(** Bytes written at an offset. *)
Definition overwrite (data : list Z) (o : Z) (bs : list Z) : list Z :=
  take (Z.to_nat o) data ++ bs ++ drop (Z.to_nat o + length bs) data.
Definition poke (o : Z) (bs : list Z) : PM unit :=
  let! d := gets desc in
  let! d := deref NullDeref d in
  if (0 <=? o) && (o + Z.of_nat (length bs) <=? Z.of_nat (length (tx_data d))) then
    modify (λ m, m <| desc := Some (d <| tx_data ::= λ l, overwrite l o bs |>) |>)
  else crash OutOfBounds.

(** ** Messages *)

Definition mrp_msg_start (has_attribute_list_length : bool) (buf buf_end attribute_type attribute_length : Z) : PM Z :=
  set_msg (λ m, m <| msg_start := Some buf |> <| msg_vector_start := buf |> <| msg_end := buf |>
                  <| msg_end_max := buf_end - 2 |>);;
  if has_attribute_list_length then
    if buf_end - 2 <? buf + 4 then ret (-1) else
    poke buf [u8 attribute_type; u8 attribute_length; 0; 0];;
    set_msg (λ m, m <| msg_vector_start := buf + 4 |> <| msg_end := buf + 4 |>);;
    ret 0
  else
    if buf_end - 2 <? buf + 2 then ret (-1) else
    poke buf [u8 attribute_type; u8 attribute_length];;
    set_msg (λ m, m <| msg_vector_start := buf + 2 |> <| msg_end := buf + 2 |>);;
    ret 0.

Definition mrp_msg_end (has_attribute_list_length : bool) : PM Z :=
  let! m := gets msg in
  let! start := deref NullDeref (msg_start m) in
  when has_attribute_list_length
    (poke (start + 2) (u16_bytes (htons (u16 (msg_end m - msg_vector_start m)))));;
  poke (msg_end m) [0; 0];;
  set_msg (λ m, m <| msg_end ::= λ e, e + 2 |>);;
  ret (msg_end m + 2 - start).

(** ** Vectors *)

Definition mrp_vector_start (buf buf_end fv_len : Z) : PM Z :=
  set_vector (λ v, v <| vec_start := Some buf |> <| vec_end := Some buf |>
                     <| vec_end_max := buf_end - 2 |>);;
  if buf_end - 2 <? buf + 2 + fv_len then ret (-1) else
  poke (buf + 2) (replicate (Z.to_nat fv_len) 0);;
  poke buf [0; 0];;
  set_vector (λ v, v <| vec_event_start := Some (buf + 2 + fv_len) |>
                     <| vec_end := Some (buf + 2 + fv_len) |>
                     <| number_of_values := 0 |> <| leave_all_event := MRP_NULL_LVA_EVENT |>);;
  ret 0.

Definition mrp_vector_end (final : bool) : PM Z :=
  let! v := gets vector in
  let! start := deref NullDeref (vec_start v) in
  let! end_ := deref NullDeref (vec_end v) in
  when final (poke end_ [0; 0]);;
  let len := (if final then end_ + 2 else end_) - start in
  set_vector (λ v, v <| vec_start := None |> <| vec_event_start := None |> <| vec_end := None |>);;
  ret len.

(** [fv]: the memory of the first value; the copy reads the length of the
    first-value field. *)
Definition mrp_vector_first_value (fv : list Z) : PM unit :=
  let! v := gets vector in
  let! start := deref NullDeref (vec_start v) in
  let! event_start := deref NullDeref (vec_event_start v) in
  let n := Z.to_nat (event_start - (start + 2)) in
  if decide (n ≤ length fv)%nat then poke (start + 2) (take n fv) else crash OutOfBounds.

Definition mrp_vector_leaveall_event (event : Z) : PM unit :=
  set_vector (λ v, v <| leave_all_event := event |>);;
  let! v := gets vector in
  let! start := deref NullDeref (vec_start v) in
  poke start (u16_bytes (mrp_vector_header (leave_all_event v) (number_of_values v))).

(** The part that [mrp_vector_add_event] and [mrp_vector_add_event_four] share:
    room for [new_event_len] bytes of events, and the new header. *)
Definition mrp_vector_reserve (new_number_of_values new_event_len : Z) : PM (option Z) :=
  let! v := gets vector in
  let! event_start := deref NullDeref (vec_event_start v) in
  let! start := deref NullDeref (vec_start v) in
  if vec_end_max v <? event_start + new_event_len then ret None else
  set_vector (λ v, v <| number_of_values := new_number_of_values |>);;
  poke start (u16_bytes (mrp_vector_header (leave_all_event v) new_number_of_values));;
  ret (Some event_start).

Definition mrp_vector_add_event (event : Z) : PM Z :=
  let! v := gets vector in
  let n := u32 (number_of_values v + 1) in
  let new_event_len := (n + 2) / 3 in
  let! r := mrp_vector_reserve n new_event_len in
  match r with
  | None => ret (-1)
  | Some event_start =>
      poke event_start [mrp_three_packed_event event 0 0];;
      set_vector (λ v, v <| vec_end := Some (event_start + new_event_len) |>);;
      ret 0
  end.

Definition mrp_vector_add_event_four (event value : Z) : PM Z :=
  let! v := gets vector in
  let n := u32 (number_of_values v + 1) in
  let new_event_len := (n + 2) / 3 + (n + 3) / 4 in
  let! r := mrp_vector_reserve n new_event_len in
  match r with
  | None => ret (-1)
  | Some event_start =>
      poke event_start [mrp_three_packed_event event 0 0];;
      poke (event_start + 1) [mrp_four_packed_event value 0 0 0];;
      set_vector (λ v, v <| vec_end := Some (event_start + new_event_len) |>);;
      ret 0
  end.

(** The PDU is closed: [mrp_transmit_end] up to the transmission. *)
Definition mrp_pdu_close (has_attribute_list_length : bool) : PM unit :=
  let! v := gets vector in
  match vec_start v with
  | Some _ => let! n := mrp_vector_end true in set_msg (λ m, m <| msg_end ::= λ e, e + n |>)
  | None => ret tt
  end;;
  let! n := mrp_msg_end has_attribute_list_length in
  modify (λ d, d <| desc ::= fmap (λ t : net_tx_desc, t <| tx_len ::= λ l, l + n |>) |>).

(** ** Laws of the encoding *)

Lemma three_packed_roundtrip a b c :
  0 ≤ a < 6 → 0 ≤ b < 6 → 0 ≤ c < 6 →
  mrp_get_three_packed_event (mrp_three_packed_event a b c) = [a; b; c].
Proof.
  intros. unfold mrp_three_packed_event. rewrite (u8_small ((a * 6 + b) * 6 + c)) by lia.
  unfold mrp_get_three_packed_event.
  replace (((a * 6 + b) * 6 + c) / (6 * 6)) with a by (Z.div_mod_to_equations; lia).
  rewrite (u8_small (_ - a * (6 * 6))) by lia.
  replace (((a * 6 + b) * 6 + c - a * (6 * 6)) / 6) with b by (Z.div_mod_to_equations; lia).
  rewrite u8_small by lia. repeat f_equal. lia.
Qed.

Lemma four_packed_roundtrip a b c d :
  0 ≤ a < 4 → 0 ≤ b < 4 → 0 ≤ c < 4 → 0 ≤ d < 4 →
  mrp_get_four_packed_event (mrp_four_packed_event a b c d) = [a; b; c; d].
Proof.
  intros. unfold mrp_four_packed_event. rewrite (u8_small (((a * 4 + b) * 4 + c) * 4 + d)) by lia.
  unfold mrp_get_four_packed_event.
  replace ((((a * 4 + b) * 4 + c) * 4 + d) / 64) with a by (Z.div_mod_to_equations; lia).
  rewrite (u8_small (_ - a * 64)) by lia.
  replace ((((a * 4 + b) * 4 + c) * 4 + d - a * 64) / 16) with b by (Z.div_mod_to_equations; lia).
  rewrite (u8_small (_ - b * 16)) by lia.
  replace ((((a * 4 + b) * 4 + c) * 4 + d - a * 64 - b * 16) / 4) with c by (Z.div_mod_to_equations; lia).
  rewrite u8_small by lia. repeat f_equal. lia.
Qed.

Lemma vector_header_range lva n : 0 ≤ lva < 8 → 0 ≤ n < 8192 → 0 ≤ mrp_vector_header lva n < 65536.
Proof. intros. apply htons_range. apply u16_range. Qed.

Lemma vector_header_roundtrip lva n :
  0 ≤ lva < 8 → 0 ≤ n < 8192 → mrp_get_vector_header (mrp_vector_header lva n) = (lva, n).
Proof.
  intros. unfold mrp_get_vector_header, mrp_vector_header, ntohs.
  rewrite (u8_small lva), (u16_small n) by lia. rewrite u16_small by lia.
  rewrite htons_involutive by lia. f_equal; Z.div_mod_to_equations; lia.
Qed.

(** The packed events and vector headers that a station decodes are those
    its peer encoded: three attribute events below 6, four declaration types,
    the leave-all event and the number of values. *)
Theorem packed_roundtrip :
  (∀ a b c, 0 ≤ a < 6 → 0 ≤ b < 6 → 0 ≤ c < 6 →
     mrp_get_three_packed_event (mrp_three_packed_event a b c) = [a; b; c]) ∧
  (∀ a b c d, 0 ≤ a < 4 → 0 ≤ b < 4 → 0 ≤ c < 4 → 0 ≤ d < 4 →
     mrp_get_four_packed_event (mrp_four_packed_event a b c d) = [a; b; c; d]) ∧
  (∀ lva n, 0 ≤ lva < 8 → 0 ≤ n < 8192 →
     mrp_get_vector_header (mrp_vector_header lva n) = (lva, n)).
Proof.
  split; [exact three_packed_roundtrip|]. split; [exact four_packed_roundtrip|].
  exact vector_header_roundtrip.
Qed.

(** Every byte decodes to events that the receiver bounds-checks: the first one
    may be out of range (a byte of 216 or more), the others may not. *)
Lemma three_packed_range b :
  0 ≤ b < 256 → Forall (λ e, 0 ≤ e ≤ 7) (mrp_get_three_packed_event b).
Proof.
  intros. unfold mrp_get_three_packed_event.
  assert (0 ≤ b / (6 * 6) ≤ 7) by (Z.div_mod_to_equations; lia).
  rewrite (u8_small (b - _)) by (Z.div_mod_to_equations; lia).
  assert (0 ≤ b - b / (6 * 6) * (6 * 6) < 36) by (Z.div_mod_to_equations; lia).
  set (r := b - _) in *.
  assert (0 ≤ r / 6 < 6 ∧ 0 ≤ r - r / 6 * 6 < 6) by (Z.div_mod_to_equations; lia).
  rewrite u8_small by lia. repeat constructor; lia.
Qed.

(** ** What a PDU under construction holds *)

(** A vector: with a leave-all event or not, the first-value field, and the
    bytes of the event of its value, if it has one. *)
Record mrp_vec := Vec { v_lva : bool; v_fv : list Z; v_events : option (list Z) }.

Definition vec_values (v : mrp_vec) : Z := match v_events v with Some _ => 1 | None => 0 end.
Definition vec_bytes (v : mrp_vec) : list Z :=
  u16_bytes (mrp_vector_header (Z.b2z (v_lva v)) (vec_values v)) ++ v_fv v ++ default [] (v_events v).
Definition vecs_bytes (vs : list mrp_vec) : list Z := concat (vec_bytes <$> vs).

Definition msg_header (has_list_length : bool) (type len list_length : Z) : list Z :=
  [u8 type; u8 len] ++ (if has_list_length then u16_bytes (htons (u16 list_length)) else []).

(** The PDU that is sent: what precedes the message, the message with its end
    mark, and the end mark of the PDU. *)
Definition mrp_pdu_bytes (has_list_length : bool) (type len : Z) (pre : list Z) (vs : list mrp_vec) : list Z :=
  pre ++ msg_header has_list_length type len (Z.of_nat (length (vecs_bytes vs)) + 2)
  ++ vecs_bytes vs ++ [0; 0] ++ [0; 0].

Abbreviation len l := (Z.of_nat (length l)).

Definition hdr_size (has_list_length : bool) : Z := if has_list_length then 4 else 2.

(** The state of the pointers between two calls: [pre] precedes the message,
    [vs] are the closed vectors, and [limit] is the end of the PDU. *)
Record closed_msg (has_list_length : bool) (type alen : Z) (pre : list Z) (vs : list mrp_vec) (limit : Z)
    (d : mrp_attribute_mrpdu) : Prop := {
  cl_data : ∃ rest, desc d = Some (TxDesc (len pre)
      (pre ++ msg_header has_list_length type alen 0 ++ vecs_bytes vs ++ rest)) ∧
      limit ≤ len pre + hdr_size has_list_length + len (vecs_bytes vs) + len rest;
  cl_msg : msg d = MrpMsg (Some (len pre)) (len pre + hdr_size has_list_length)
      (len pre + hdr_size has_list_length + len (vecs_bytes vs)) (limit - 2);
  cl_vec : vec_start (vector d) = None;
  cl_room : len pre + hdr_size has_list_length + len (vecs_bytes vs) ≤ limit - 2;
}.

Record open_msg (has_list_length : bool) (type alen : Z) (pre : list Z) (vs : list mrp_vec) (v : mrp_vec)
    (limit : Z) (d : mrp_attribute_mrpdu) : Prop := {
  op_data : ∃ rest, desc d = Some (TxDesc (len pre)
      (pre ++ msg_header has_list_length type alen 0 ++ vecs_bytes vs ++ vec_bytes v ++ rest)) ∧
      limit ≤ len pre + hdr_size has_list_length + len (vecs_bytes vs) + len (vec_bytes v) + len rest;
  op_msg : msg d = MrpMsg (Some (len pre)) (len pre + hdr_size has_list_length)
      (len pre + hdr_size has_list_length + len (vecs_bytes vs)) (limit - 2);
  op_vec : let e := len pre + hdr_size has_list_length + len (vecs_bytes vs) in
      vector d = MrpVector (Some e) (Some (e + 2 + len (v_fv v))) (Some (e + len (vec_bytes v)))
        (limit - 4) (vec_values v) (Z.b2z (v_lva v));
  op_room : len pre + hdr_size has_list_length + len (vecs_bytes vs) + len (vec_bytes v) ≤ limit - 4;
}.
#[global] Arguments msg_header : simpl never.
#[global] Arguments vec_bytes : simpl never.
#[global] Arguments vecs_bytes : simpl never.
#[global] Arguments u16_bytes : simpl never.
#[global] Arguments mrp_vector_header : simpl never.

Lemma overwrite_mid (a b c bs : list Z) :
  length b = length bs → overwrite (a ++ b ++ c) (len a) bs = a ++ bs ++ c.
Proof.
  intros H. unfold overwrite. rewrite Nat2Z.id, take_app_length.
  by rewrite <- H, <- drop_drop, !drop_app_length.
Qed.

Lemma wp_poke (a b c bs : list Z) (L o : Z) m v Q w :
  w_st w = Mrpdu (Some (TxDesc L (a ++ b ++ c))) m v → o = len a → length b = length bs →
  Q tt (World (Mrpdu (Some (TxDesc L (a ++ bs ++ c))) m v) (w_clock w) (w_trace w)) →
  wp (poke o bs) Q w.
Proof.
  intros E -> Hl HQ. unfold poke. wp_step. rewrite E. cbn. exists (TxDesc L (a ++ b ++ c)). split; [done|].
  assert (Hb : (0 <=? len a) && (len a + len bs <=? len (a ++ b ++ c)) = true).
  { rewrite !length_app. apply andb_true_iff. split; apply Z.leb_le; lia. }
  cbn. rewrite Hb. wp_step. rewrite E. unfold over, over_field; cbn.
  by rewrite overwrite_mid.
Qed.

Lemma length_u16_bytes z : length (u16_bytes z) = 2%nat.
Proof. done. Qed.
Lemma length_msg_header h t a l : len (msg_header h t a l) = hdr_size h.
Proof. by destruct h. Qed.
Lemma length_vec_bytes v : len (vec_bytes v) = 2 + len (v_fv v) + len (default [] (v_events v)).
Proof. unfold vec_bytes. rewrite !length_app, length_u16_bytes. lia. Qed.
Lemma vecs_bytes_snoc vs v : vecs_bytes (vs ++ [v]) = vecs_bytes vs ++ vec_bytes v.
Proof. unfold vecs_bytes. rewrite fmap_app, concat_app. cbn. by rewrite app_nil_r. Qed.
Lemma split_rest (l : list Z) (n : nat) : (n ≤ length l)%nat → ∃ a b, l = a ++ b ∧ length a = n.
Proof. intros. exists (take n l), (drop n l). by rewrite take_drop, length_take_le. Qed.

Section pdu.
Implicit Types (w : world Empty_set mrp_attribute_mrpdu).

Lemma set_msg_wp f Q w :
  Q tt (World ((w_st w) <| msg ::= f |>) (w_clock w) (w_trace w)) → wp (set_msg f) Q w.
Proof. done. Qed.
Lemma set_vector_wp f Q w :
  Q tt (World ((w_st w) <| vector ::= f |>) (w_clock w) (w_trace w)) → wp (set_vector f) Q w.
Proof. done. Qed.

(** A message starts in a fresh descriptor when its header fits. *)
Lemma mrp_msg_start_spec has type alen pre rest limit w :
  desc (w_st w) = Some (TxDesc (len pre) (pre ++ rest)) → vec_start (vector (w_st w)) = None →
  limit ≤ len pre + len rest →
  wp (mrp_msg_start has (len pre) limit type alen) (λ rc w',
    if limit - 2 <? len pre + hdr_size has then
      rc = -1 ∧ desc (w_st w') = desc (w_st w) ∧ vector (w_st w') = vector (w_st w) ∧
      msg_start (msg (w_st w')) = Some (len pre) ∧ msg_end (msg (w_st w')) = len pre
    else rc = 0 ∧ closed_msg has type alen pre [] limit (w_st w')) w.
Proof.
  intros Hd Hv Hl. destruct w as [[d m v] ck tr]; cbn in *; subst d.
  unfold mrp_msg_start. apply wp_bind, set_msg_wp. unfold over, over_field; cbn.
  assert (Hgo : limit - 2 <? len pre + hdr_size has = false →
    ∃ a b, rest = a ++ b ∧ len a = hdr_size has).
  { intros H%Z.ltb_ge. destruct (split_rest rest (Z.to_nat (hdr_size has))) as (a & b & -> & Ha).
    - destruct has; cbn in *; lia.
    - exists a, b. split; [done|]. rewrite Ha. destruct has; done. }
  destruct has; cbn [hdr_size] in *.
  all: destruct (limit - 2 <? len pre + _) eqn:E; [by wp_step|].
  all: destruct (Hgo eq_refl) as (a & b & -> & Ha); rewrite length_app in Hl; apply Z.ltb_ge in E.
  all: apply wp_bind; eapply (wp_poke pre a b); [cbn; reflexivity|done|cbn; lia|].
  all: apply wp_bind, set_msg_wp; wp_step; split; [done|]; unfold over, over_field; cbn.
  all: split; change (vecs_bytes []) with (@nil Z); cbn; [|f_equal; lia|done|lia].
  all: exists b; split; [done|lia].
Qed.

Lemma mrp_vector_start_room has type alen pre vs limit fv_len w :
  closed_msg has type alen pre vs limit (w_st w) → 0 ≤ fv_len →
  msg_end (msg (w_st w)) + 2 + fv_len ≤ msg_end_max (msg (w_st w)) - 2 →
  wp (mrp_vector_start (msg_end (msg (w_st w))) (msg_end_max (msg (w_st w))) fv_len) (λ rc w',
    rc = 0 ∧ open_msg has type alen pre vs (Vec false (replicate (Z.to_nat fv_len) 0) None) limit (w_st w')) w.
Proof.
  intros [(rest & Hd & Hr) Hm Hv Hroom] Hfv Hlt. destruct w as [[d m v] ck tr]; cbn in *; subst d m.
  unfold mrp_vector_start. apply wp_bind, set_vector_wp. unfold over, over_field; cbn in *.
  rewrite (proj2 (Z.ltb_ge _ _)) by lia.
  destruct (split_rest rest 2) as (h & r1 & -> & Hh); [lia|]. rewrite length_app in Hr.
  destruct (split_rest r1 (Z.to_nat fv_len)) as (fv & r2 & -> & Hf); [lia|]. rewrite length_app in Hr.
  apply wp_bind.
  eapply (wp_poke (pre ++ msg_header has type alen 0 ++ vecs_bytes vs ++ h) fv r2).
  { cbn. by rewrite <- !app_assoc. }
  { rewrite !length_app, !Nat2Z.inj_add, length_msg_header. lia. }
  { by rewrite length_replicate. }
  apply wp_bind. cbn.
  eapply (wp_poke (pre ++ msg_header has type alen 0 ++ vecs_bytes vs) h (replicate (Z.to_nat fv_len) 0 ++ r2)).
  { cbn. by rewrite <- !app_assoc. }
  { rewrite !length_app, !Nat2Z.inj_add, length_msg_header. lia. }
  { done. }
  apply wp_bind, set_vector_wp. wp_step. split; [done|]. unfold over, over_field; cbn.
  assert (Hlen : len (vec_bytes (Vec false (replicate (Z.to_nat fv_len) 0) None)) = 2 + fv_len).
  { rewrite length_vec_bytes. cbn. rewrite length_replicate. lia. }
  split; cbn.
  - exists r2. rewrite Hlen. split; [|lia]. unfold vec_bytes. cbn. by rewrite app_nil_r, <- !app_assoc.
  - done.
  - rewrite Hlen, length_replicate. unfold vec_values. cbn. f_equal; try done; try lia; f_equal; lia.
  - rewrite Hlen. lia.
Qed.

(** No room: only the pointers of the vector have changed. *)
Lemma mrp_vector_start_full buf buf_end fv_len w :
  buf_end - 2 < buf + 2 + fv_len →
  wp (mrp_vector_start buf buf_end fv_len) (λ rc w',
    rc = -1 ∧ desc (w_st w') = desc (w_st w) ∧ msg (w_st w') = msg (w_st w) ∧
    vec_start (vector (w_st w')) = Some buf ∧ vec_end (vector (w_st w')) = Some buf) w.
Proof.
  intros H. unfold mrp_vector_start. apply wp_bind, set_vector_wp.
  rewrite (proj2 (Z.ltb_lt _ _)) by done. wp_step. done.
Qed.

(** The open vector is closed, to be followed by another one. *)
Lemma mrp_vector_end_spec has type alen pre vs v limit w :
  open_msg has type alen pre vs v limit (w_st w) →
  wp (let! n := mrp_vector_end false in set_msg (λ m, m <| msg_end ::= λ e, e + n |>)) (λ _ w',
    closed_msg has type alen pre (vs ++ [v]) limit (w_st w')) w.
Proof.
  intros [(rest & Hd & Hr) Hm Hv Hroom]. destruct w as [[d m vv] ck tr]; cbn in *; subst d m vv.
  apply wp_bind. unfold mrp_vector_end. wp_step. eexists; split; [reflexivity|].
  wp_step. eexists; split; [reflexivity|]. cbn [when]. wp_step.
  unfold over, over_field; cbn.
  split; cbn; rewrite ?vecs_bytes_snoc, ?length_app.
  - exists rest. split; [by rewrite <- !app_assoc|lia].
  - f_equal; lia.
  - done.
  - lia.
Qed.

Lemma mrp_vector_first_value_spec has type alen pre vs v limit fv w :
  open_msg has type alen pre vs v limit (w_st w) → v_events v = None → (length (v_fv v) ≤ length fv)%nat →
  wp (mrp_vector_first_value fv) (λ _ w',
    open_msg has type alen pre vs (Vec (v_lva v) (take (length (v_fv v)) fv) None) limit (w_st w')) w.
Proof.
  intros [(rest & Hd & Hr) Hm Hv Hroom] Hev Hfv. destruct w as [[d m vv] ck tr]; cbn in *; subst d m vv.
  unfold mrp_vector_first_value. wp_step. eexists; split; [reflexivity|].
  wp_step. eexists; split; [reflexivity|].
  match goal with |- context [decide (Z.to_nat ?e ≤ _)%nat] => replace (Z.to_nat e) with (length (v_fv v)) by lia end.
  rewrite decide_True by done.
  assert (Hb : length (vec_bytes (Vec (v_lva v) (take (length (v_fv v)) fv) None)) = length (vec_bytes v)).
  { apply Nat2Z.inj. rewrite !length_vec_bytes, Hev. cbn. rewrite length_take_le by done. done. }
  set (hd := u16_bytes (mrp_vector_header (Z.b2z (v_lva v)) (vec_values v))).
  eapply (wp_poke (pre ++ msg_header has type alen 0 ++ vecs_bytes vs ++ hd) (v_fv v) rest).
  { unfold vec_bytes. rewrite Hev. cbn [default w_st]. rewrite app_nil_r, <- !app_assoc. done. }
  { rewrite !length_app, !Nat2Z.inj_add, length_msg_header. unfold hd. rewrite length_u16_bytes. lia. }
  { by rewrite length_take_le. }
  split; cbn; rewrite ?Hb.
  - exists rest. split; [|done]. unfold hd, vec_bytes, vec_values. rewrite Hev. cbn.
    by rewrite app_nil_r, <- !app_assoc.
  - done.
  - unfold vec_bytes, vec_values. rewrite Hev. cbn. by rewrite app_nil_r, length_take_le.
  - done.
Qed.

Lemma mrp_vector_leaveall_spec has type alen pre vs v limit w :
  open_msg has type alen pre vs v limit (w_st w) →
  wp (mrp_vector_leaveall_event MRP_LVA_EVENT) (λ _ w',
    open_msg has type alen pre vs (Vec true (v_fv v) (v_events v)) limit (w_st w')) w.
Proof.
  intros [(rest & Hd & Hr) Hm Hv Hroom]. destruct w as [[d m vv] ck tr]; cbn in *; subst d m vv.
  unfold mrp_vector_leaveall_event. apply wp_bind, set_vector_wp. wp_step. unfold over, over_field; cbn.
  eexists; split; [reflexivity|].
  assert (Hb : len (vec_bytes (Vec true (v_fv v) (v_events v))) = len (vec_bytes v)) by (by rewrite !length_vec_bytes).
  eapply (wp_poke (pre ++ msg_header has type alen 0 ++ vecs_bytes vs)
            (u16_bytes (mrp_vector_header (Z.b2z (v_lva v)) (vec_values v)))
            (v_fv v ++ default [] (v_events v) ++ rest)).
  { cbn [w_st]. rewrite <- !app_assoc. unfold vec_bytes at 1. rewrite <- !app_assoc. reflexivity. }
  { rewrite !length_app, !Nat2Z.inj_add, length_msg_header. lia. }
  { done. }
  split; cbn; rewrite ?Hb.
  - exists rest. split; [|done]. unfold vec_bytes. cbn. by rewrite <- !app_assoc.
  - done.
  - done.
  - done.
Qed.

(** Room for the event: it is stored, with the first value already there. *)
Definition add_events (v : mrp_vec) (bs : list Z) : mrp_vec := Vec (v_lva v) (v_fv v) (Some bs).

Lemma mrp_vector_reserve_spec has type alen pre vs v limit n w Q :
  open_msg has type alen pre vs v limit (w_st w) → v_events v = None → 1 ≤ n →
  (∀ rest w', 
     let hd := u16_bytes (mrp_vector_header (Z.b2z (v_lva v)) 1) in
     w_st w' = Mrpdu (Some (TxDesc (len pre) (pre ++ msg_header has type alen 0 ++ vecs_bytes vs ++
                                              (hd ++ v_fv v) ++ rest)))
                 (msg (w_st w)) ((vector (w_st w)) <| number_of_values := 1 |>) →
     limit ≤ len pre + hdr_size has + len (vecs_bytes vs) + len (vec_bytes v) + len rest →
     len pre + hdr_size has + len (vecs_bytes vs) + len (vec_bytes v) + n ≤ limit - 4 →
     Q (vec_event_start (vector (w_st w))) w') →
  (limit - 4 < len pre + hdr_size has + len (vecs_bytes vs) + len (vec_bytes v) + n → Q None w) →
  wp (mrp_vector_reserve 1 n) Q w.
Proof.
  intros [(rest & Hd & Hr) Hm Hv Hroom] Hev Hn HQ Hfull.
  destruct w as [[d m vv] ck tr]; cbn in *; subst d m vv.
  assert (Hvl : len (vec_bytes v) = 2 + len (v_fv v)) by (rewrite length_vec_bytes, Hev; cbn; lia).
  unfold mrp_vector_reserve. wp_step. eexists; split; [reflexivity|].
  wp_step. eexists; split; [reflexivity|]. cbn [vec_end_max].
  destruct (_ <? _) eqn:E; wp_step.
  { apply Hfull. apply Z.ltb_lt in E. cbn in E. lia. }
  apply Z.ltb_ge in E. cbn in E. apply set_vector_wp. wp_step.
  eapply (wp_poke (pre ++ msg_header has type alen 0 ++ vecs_bytes vs)
            (u16_bytes (mrp_vector_header (Z.b2z (v_lva v)) (vec_values v)))
            (v_fv v ++ rest)).
  { cbn [w_st]. unfold vec_bytes at 1. rewrite Hev. cbn [default]. rewrite app_nil_r, <- !app_assoc. reflexivity. }
  { rewrite !length_app, !Nat2Z.inj_add, length_msg_header. lia. }
  { done. }
  wp_step. eapply HQ; [|done|lia]. unfold over, over_field. cbn. by rewrite <- !app_assoc.
Qed.

Lemma open_with_events has type alen pre vs v limit bs rest :
  v_events v = None →
  limit ≤ len pre + hdr_size has + len (vecs_bytes vs) + len (vec_bytes v) + len bs + len rest →
  len pre + hdr_size has + len (vecs_bytes vs) + len (vec_bytes v) + len bs ≤ limit - 4 →
  open_msg has type alen pre vs (add_events v bs) limit
    (Mrpdu (Some (TxDesc (len pre) (pre ++ msg_header has type alen 0 ++ vecs_bytes vs ++
        u16_bytes (mrp_vector_header (Z.b2z (v_lva v)) 1) ++ v_fv v ++ bs ++ rest)))
      (MrpMsg (Some (len pre)) (len pre + hdr_size has) (len pre + hdr_size has + len (vecs_bytes vs)) (limit - 2))
      (let e := len pre + hdr_size has + len (vecs_bytes vs) in
       MrpVector (Some e) (Some (e + 2 + len (v_fv v))) (Some (e + 2 + len (v_fv v) + len bs)) (limit - 4) 1 (Z.b2z (v_lva v)))).
Proof.
  intros Hev Hr Hroom.
  assert (Hvl : len (vec_bytes v) = 2 + len (v_fv v)) by (rewrite length_vec_bytes, Hev; cbn; lia).
  assert (Hvl' : len (vec_bytes (add_events v bs)) = 2 + len (v_fv v) + len bs) by (by rewrite length_vec_bytes).
  split; cbn; rewrite ?Hvl'.
  - exists rest. split; [|lia]. unfold vec_bytes. cbn. by rewrite <- !app_assoc.
  - done.
  - f_equal; f_equal; lia.
  - lia.
Qed.

Lemma mrp_vector_add_event_spec has type alen pre vs v limit e w :
  open_msg has type alen pre vs v limit (w_st w) → v_events v = None →
  wp (mrp_vector_add_event e) (λ rc w',
    if limit - 4 <? len pre + hdr_size has + len (vecs_bytes vs) + len (vec_bytes v) + 1
    then rc = -1 ∧ w_st w' = w_st w
    else rc = 0 ∧ open_msg has type alen pre vs (add_events v [mrp_three_packed_event e 0 0]) limit (w_st w')) w.
Proof.
  intros Hop Hev. pose proof Hop as [_ Hm Hv _]. unfold mrp_vector_add_event. wp_step.
  rewrite Hv. cbn [number_of_values]. unfold vec_values. rewrite Hev. change (u32 (0 + 1)) with 1. change ((1 + 2) / 3) with 1.
  eapply mrp_vector_reserve_spec; [done|done|lia|..].
  - intros rest w' hd Hw' Hr Hroom. rewrite (proj2 (Z.ltb_ge _ _)) by lia. cbn in Hv.
    rewrite Hv. cbn [vec_event_start].
    assert (Hvl : len (vec_bytes v) = 2 + len (v_fv v)) by (rewrite length_vec_bytes, Hev; cbn; lia).
    destruct (split_rest rest 1) as (b & rest' & -> & Hb).
    { lia. }
    wp_step.
    eapply (wp_poke (pre ++ msg_header has type alen 0 ++ vecs_bytes vs ++ hd ++ v_fv v) b rest').
    { rewrite Hw'. rewrite <- !app_assoc. reflexivity. }
    { rewrite !length_app, !Nat2Z.inj_add, length_msg_header. unfold hd. rewrite length_u16_bytes. lia. }
    { done. }
    apply wp_bind, set_vector_wp. wp_step. split; [done|]. unfold over, over_field. cbn.
    rewrite length_app in Hr.
    rewrite Hm, Hv. cbn. rewrite <- !app_assoc.
    apply (open_with_events has type alen pre vs v limit [mrp_three_packed_event e 0 0]); cbn [length]; [done|lia|lia].
  - intros Hfull. rewrite (proj2 (Z.ltb_lt _ _)) by lia. wp_step. done.
Qed.

Lemma mrp_vector_add_event_four_spec has type alen pre vs v limit e val w :
  open_msg has type alen pre vs v limit (w_st w) → v_events v = None →
  wp (mrp_vector_add_event_four e val) (λ rc w',
    if limit - 4 <? len pre + hdr_size has + len (vecs_bytes vs) + len (vec_bytes v) + 2
    then rc = -1 ∧ w_st w' = w_st w
    else rc = 0 ∧ open_msg has type alen pre vs
           (add_events v [mrp_three_packed_event e 0 0; mrp_four_packed_event val 0 0 0]) limit (w_st w')) w.
Proof.
  intros Hop Hev. pose proof Hop as [_ Hm Hv _]. unfold mrp_vector_add_event_four. wp_step.
  rewrite Hv. cbn [number_of_values]. unfold vec_values. rewrite Hev. change (u32 (0 + 1)) with 1. change ((1 + 2) / 3 + (1 + 3) / 4) with 2.
  eapply mrp_vector_reserve_spec; [done|done|lia|..].
  - intros rest w' hd Hw' Hr Hroom. rewrite (proj2 (Z.ltb_ge _ _)) by lia. cbn in Hv.
    rewrite Hv. cbn [vec_event_start].
    assert (Hvl : len (vec_bytes v) = 2 + len (v_fv v)) by (rewrite length_vec_bytes, Hev; cbn; lia).
    destruct (split_rest rest 1) as (b & rest' & -> & Hb); [lia|].
    rewrite length_app in Hr. destruct (split_rest rest' 1) as (b' & rest2 & -> & Hb'); [lia|].
    rewrite length_app in Hr.
    wp_step.
    eapply (wp_poke (pre ++ msg_header has type alen 0 ++ vecs_bytes vs ++ hd ++ v_fv v) b (b' ++ rest2)).
    { rewrite Hw'. rewrite <- !app_assoc. reflexivity. }
    { rewrite !length_app, !Nat2Z.inj_add, length_msg_header. unfold hd. rewrite length_u16_bytes. lia. }
    { done. }
    wp_step.
    eapply (wp_poke (pre ++ msg_header has type alen 0 ++ vecs_bytes vs ++ hd ++ v_fv v ++ [mrp_three_packed_event e 0 0]) b' rest2).
    { cbn. rewrite <- !app_assoc. reflexivity. }
    { rewrite !length_app, !Nat2Z.inj_add, length_msg_header. unfold hd. rewrite length_u16_bytes. cbn [length]. lia. }
    { done. }
    apply wp_bind, set_vector_wp. wp_step. split; [done|]. unfold over, over_field. cbn.
    rewrite Hm, Hv. cbn. rewrite <- !app_assoc.
    apply (open_with_events has type alen pre vs v limit [mrp_three_packed_event e 0 0; mrp_four_packed_event val 0 0 0]); cbn [length]; [done|lia|lia].
  - intros Hfull. rewrite (proj2 (Z.ltb_lt _ _)) by lia. wp_step. done.
Qed.

(** ** The message is closed *)

(** The descriptor holds the PDU [vs] and nothing is open any more. *)
Definition sent_pdu (has : bool) (type alen : Z) (pre : list Z) (vs : list mrp_vec) (t : net_tx_desc) : Prop :=
  tx_len t = len (mrp_pdu_bytes has type alen pre vs) ∧
  ∃ rest, tx_data t = mrp_pdu_bytes has type alen pre vs ++ rest.


(** The states in which [mrp_transmit_end] closes the PDU: a vector is open
    ([open_msg]), or the last one could not be started. *)
Record ending_msg (has : bool) (type alen : Z) (pre : list Z) (vs : list mrp_vec) (limit : Z)
    (d : mrp_attribute_mrpdu) : Prop := {
  en_data : ∃ rest, desc d = Some (TxDesc (len pre)
      (pre ++ msg_header has type alen 0 ++ vecs_bytes vs ++ rest)) ∧ 4 ≤ len rest;
  en_msg : ∃ e m, msg d = MrpMsg (Some (len pre)) (len pre + hdr_size has) e m ∧
      vec_start (vector d) = Some e;
  en_vec : vec_end (vector d) = Some (len pre + hdr_size has + len (vecs_bytes vs));
  en_room : len pre + hdr_size has + len (vecs_bytes vs) + 4 ≤ limit;
}.

Lemma open_ending has type alen pre vs v limit d :
  open_msg has type alen pre vs v limit d → ending_msg has type alen pre (vs ++ [v]) limit d.
Proof.
  intros [(rest & Hd & Hr) Hm Hv Hroom]. cbn in Hv. split.
  - exists rest. rewrite vecs_bytes_snoc, <- !app_assoc. split; [done|lia].
  - rewrite Hm, Hv. eauto.
  - rewrite Hv, vecs_bytes_snoc, length_app. cbn. f_equal. lia.
  - rewrite vecs_bytes_snoc, length_app. lia.
Qed.

Lemma mrp_pdu_close_spec has type alen pre vs limit w :
  ending_msg has type alen pre vs limit (w_st w) →
  wp (mrp_pdu_close has) (λ _ w',
    vec_start (vector (w_st w')) = None ∧
    ∃ t, desc (w_st w') = Some t ∧ sent_pdu has type alen pre vs t ∧ length (tx_data t) =
         length (default [] (tx_data <$> desc (w_st w)))) w.
Proof.
  intros [(rest & Hd & Hr) (e0 & m & Hm & Hs) He _]. destruct w as [[d mm vv] ck tr]; cbn in *; subst d mm.
  destruct vv as [vst vev ven vmx n l]; cbn in *. subst vst ven.
  set (E := len pre + hdr_size has + len (vecs_bytes vs)) in *.
  unfold mrp_pdu_close. wp_step. cbn [vector vec_start]. unfold mrp_vector_end. wp_step. eexists; split; [reflexivity|].
  wp_step. eexists; split; [reflexivity|]. cbn [when]. wp_step.
  destruct (split_rest rest 2) as (z1 & r1 & -> & Hz1); [lia|]. rewrite length_app in Hr.
  destruct (split_rest r1 2) as (z2 & r2 & -> & Hz2); [lia|].
  eapply (wp_poke (pre ++ msg_header has type alen 0 ++ vecs_bytes vs) z1 (z2 ++ r2)).
  { cbn [w_st]. rewrite <- !app_assoc. reflexivity. }
  { rewrite !length_app, !Nat2Z.inj_add, length_msg_header. unfold E. lia. }
  { done. }
  apply wp_bind, set_vector_wp. wp_step. apply set_msg_wp. unfold over, over_field. cbn.
  replace (e0 + (E + 2 - e0)) with (E + 2) by lia.
  assert (Hhdr : wp (when has (poke (len pre + 2)
      (u16_bytes (htons (u16 (E + 2 - (len pre + hdr_size has)))))))
    (λ _ w', w' = World (Mrpdu (Some (TxDesc (len pre)
        (pre ++ msg_header has type alen (len (vecs_bytes vs) + 2) ++ vecs_bytes vs ++ [0; 0] ++ z2 ++ r2)))
        (MrpMsg (Some (len pre)) (len pre + hdr_size has) (E + 2) m)
        (MrpVector None None None vmx n l)) ck tr)
    (World (Mrpdu (Some (TxDesc (len pre)
        ((pre ++ msg_header has type alen 0 ++ vecs_bytes vs) ++ [0; 0] ++ z2 ++ r2)))
        (MrpMsg (Some (len pre)) (len pre + hdr_size has) (E + 2) m)
        (MrpVector None None None vmx n l)) ck tr)).
  { replace (E + 2 - (len pre + hdr_size has)) with (len (vecs_bytes vs) + 2) by (unfold E; lia).
    destruct has; cbn [when]; rewrite <- !app_assoc; [|by wp_step].
    eapply (wp_poke (pre ++ [u8 type; u8 alen]) [0; 0] (vecs_bytes vs ++ [0; 0] ++ z2 ++ r2)).
    - cbn [w_st]. rewrite <- !app_assoc. reflexivity.
    - rewrite length_app. cbn. lia.
    - done.
    - unfold msg_header. by rewrite <- !app_assoc. }
  unfold mrp_msg_end. wp_step. cbn [msg msg_start]. eexists; split; [reflexivity|]. wp_step. cbn [msg msg_end msg_vector_start].
  eapply wp_mono; [exact Hhdr|]. intros _ w' ->. clear Hhdr. wp_step.
  eapply (wp_poke (pre ++ msg_header has type alen (len (vecs_bytes vs) + 2) ++ vecs_bytes vs ++ [0; 0]) z2 r2).
  { cbn [w_st]. rewrite <- !app_assoc. reflexivity. }
  { rewrite !length_app, !Nat2Z.inj_add, length_msg_header. unfold E. cbn [length]. lia. }
  { done. }
  apply wp_bind, set_msg_wp. wp_step. unfold over, over_field. cbn. split; [done|].
  assert (Hbytes : mrp_pdu_bytes has type alen pre vs =
    pre ++ msg_header has type alen (len (vecs_bytes vs) + 2) ++ vecs_bytes vs ++ [0; 0] ++ [0; 0]) by done.
  eexists. split; [reflexivity|]. cbn. split.
  - split; cbn.
    + rewrite Hbytes, !length_app, !Nat2Z.inj_add, length_msg_header. cbn [length]. unfold E. lia.
    + exists r2. rewrite Hbytes. by rewrite <- !app_assoc.
  - repeat rewrite length_app. cbn [length]. 
    pose proof (length_msg_header has type alen (len (vecs_bytes vs) + 2)).
    pose proof (length_msg_header has type alen 0). lia.
Qed.
End pdu.
