(* ===== verification/Mrp.v ===== *)
(** * MRP: attributes and their machines (srp/mrp.c)

    The applications of the ports with their attributes, the actions of the
    state machines of MrpSm.v, the timers, the requests and indications, the
    transmission of messages (MrpPdu.v) and the reception of packets.  Timers
    are the abstract timers of Timer.v. *)

From S2P Require Import Prelude Timer MrpSm MrpPdu.

(** ** Data (srp/mrp.h) *)

Definition MRP_MAX_ATTR_TYPE : nat := 5.
Definition MRP_JOINTIMER_POINT_TO_POINT_VAL : Z := 100.
Definition MRP_LVATIMER_VAL_MIN : Z := 10000.
Definition MRP_LVATIMER_VAL_MAX : Z := 15000.
Definition MRP_PERIODTIMER_VAL : Z := 1000.
Definition DEFAULT_NET_DATA_SIZE : Z := 1600.
Definition APP_MSRP : Z := 0.
Definition APP_MVRP : Z := 1.
Definition MSRP_ATTR_TYPE_DOMAIN : nat := 4.

Record mrp_applicant := MrpApplicant { app_state : mrp_protocol_state_t; app_action : mrp_protocol_action_t }.
#[export] Instance eta_mrp_applicant : Eta mrp_applicant := λ r, MrpApplicant (app_state r) (app_action r).

Record mrp_registrar := MrpRegistrar {
  reg_state : mrp_protocol_state_t;
  reg_action : mrp_protocol_action_t;
  leave : soft_timer;
}.
#[export] Instance eta_mrp_registrar : Eta mrp_registrar := λ r,
  MrpRegistrar (reg_state r) (reg_action r) (leave r).

(** [struct mrp_leaveall] and [struct mrp_periodic]. *)
Record mrp_leaveall := MrpLeaveall {
  lva_state : mrp_protocol_timer_state_t;
  lva_action : mrp_protocol_action_t;
  lva_timer : soft_timer;
}.
#[export] Instance eta_mrp_leaveall : Eta mrp_leaveall := λ r,
  MrpLeaveall (lva_state r) (lva_action r) (lva_timer r).

Record mrp_attribute := MrpAttribute {
  attr_app : nat;                (* the application, by port *)
  applicant : mrp_applicant;
  registrar : mrp_registrar;
  attr_type : nat;
  attr_val : list Z;
}.
#[export] Instance eta_mrp_attribute : Eta mrp_attribute := λ r,
  MrpAttribute (attr_app r) (applicant r) (registrar r) (attr_type r) (attr_val r).

Record mrp_application := MrpApplication {
  type : Z;
  participant_type : Z;
  leaveall : mrp_leaveall;
  attributes : list (list nat);           (* per attribute type; [] in zeroed memory *)
  attributes_ordered : list (list nat);
  periodic : mrp_leaveall;
  join : soft_timer;
  num_rx_pkts : Z;
  enabled : bool;
  mrpdu : list mrp_attribute_mrpdu;
}.
#[export] Instance eta_mrp_application : Eta mrp_application := λ r,
  MrpApplication (type r) (participant_type r) (leaveall r) (attributes r) (attributes_ordered r)
    (periodic r) (join r) (num_rx_pkts r) (enabled r) (mrpdu r).

(** An application in zeroed memory, before [mrp_init]. *)
Definition mrp_sm_zero : mrp_leaveall := MrpLeaveall MRP_TIMER_PASSIVE MRP_ACTION_NONE soft_none.
Definition mrp_application_zero : mrp_application :=
  MrpApplication 0 0 mrp_sm_zero [] [] mrp_sm_zero soft_none 0 false [].

(** The applications of one protocol on the ports, the attributes allocated
    for them, the leave timeouts of the ports ([srp->port[].mrp]), the buffer
    of the packet that is being received, and the state of the protocol. *)
Record mrp_ctx (U : Type) := MrpCtx {
  apps : list mrp_application;
  attrs : gmap nat mrp_attribute;
  leave_timeout : list Z;
  rx_data : list Z;
  upper : U;
}.
Arguments MrpCtx {U} apps attrs leave_timeout rx_data upper.
Arguments apps {U} m.
Arguments attrs {U} m.
Arguments leave_timeout {U} m.
Arguments rx_data {U} m.
Arguments upper {U} m.
#[export] Instance eta_mrp_ctx {U} : Eta (mrp_ctx U) := λ r,
  MrpCtx (apps r) (attrs r) (leave_timeout r) (rx_data r) (upper r).

(** The platform calls of mrp.c. *)
Inductive mrp_call :=
| MrpMalloc                          (* 0: no memory *)
| MrpFree
| MrpRandom
| MrpTimerCreate                     (* negative: error *)
| MrpTimerStart (ms : Z)
| MrpTxAlloc (p : nat) (size : Z)    (* 0: no descriptor *)
| MrpTxFree (p : nat)
| MrpTx (p : nat) (frame : list Z)   (* negative: error *)
| MrpMtu (p : nat).                  (* the MTU of the port *)

(** The calls of mrp.c among those of a component. *)
Class MrpCalls (C : Type) := mrp_embed : mrp_call → C.

(** What a protocol provides to its applications: the constants and callbacks
    of [struct mrp_application]. *)
Class MrpOps (C U : Type) := {
  min_attr_type : nat;
  max_attr_type : nat;
  proto_version : Z;
  has_attribute_list_length : bool;
  dst_mac : list Z;
  ethertype : Z;
  attribute_length : nat → Z;
  attribute_value_length : nat → nat;
  vector_add_event : mrp_attribute → Z → PM Z;
  attribute_check : Z → Z → Z;                  (* of a header's type and length *)
  event_length : Z → Z → Z;                     (* of a header's type and number of values *)
  net_tx : nat → net_tx_desc → M C (mrp_ctx U) unit;
}.

Class MrpInd (C U : Type) := {
  mad_join_indication : nat → nat → bool → M C (mrp_ctx U) unit;
  mad_leave_indication : nat → nat → M C (mrp_ctx U) unit;
}.

(** The contents of memory that the code does not initialise: a fresh
    attribute and the data of a fresh descriptor. *)
Class MrpMemory := {
  fresh_attr : nat → mrp_applicant * mrp_registrar;
  fresh_frame : nat → list Z;
}.

Section mrp.
Context {C U : Type} `{!Platform C, !MrpCalls C, !MrpOps C U, !MrpMemory}.
Abbreviation MR := (M C (mrp_ctx U)).

Definition call (c : mrp_call) : MR Z := perform (mrp_embed c).

(** ** Memory accesses *)

Definition get_attr (a : nat) : MR mrp_attribute :=
  let! m := gets attrs in deref UseAfterFree (m !! a).
Definition set_attr (a : nat) (f : mrp_attribute → mrp_attribute) : MR unit :=
  modify (λ c, c <| attrs ::= alter f a |>).
Definition get_app (p : nat) : MR mrp_application :=
  let! l := gets apps in deref OutOfBounds (l !! p).
Definition set_app (p : nat) (f : mrp_application → mrp_application) : MR unit :=
  modify (λ c, c <| apps ::= alter f p |>).

(** The lists of attributes of an application. *)
Definition attr_list (p t : nat) (c : mrp_ctx U) : list nat :=
  match apps c !! p with Some x => default [] (attributes x !! t) | None => [] end.
Definition ordered_list (p t : nat) (c : mrp_ctx U) : list nat :=
  match apps c !! p with Some x => default [] (attributes_ordered x !! t) | None => [] end.
(** The head of a list: an index out of the array or a zeroed head faults. *)
Definition check_type (p t : nat) : MR unit :=
  let! x := get_app p in
  let! _ := deref OutOfBounds (attributes x !! t) in
  let! _ := deref OutOfBounds (attributes_ordered x !! t) in
  ret tt.
Definition set_list (p t : nat) (f : list nat → list nat) : MR unit :=
  check_type p t;; set_app p (λ x, x <| attributes ::= alter f t |>).
Definition set_ordered (p t : nat) (f : list nat → list nat) : MR unit :=
  check_type p t;; set_app p (λ x, x <| attributes_ordered ::= alter f t |>).

(** The PDU under construction for an attribute type. *)
Definition pdu_get (p t : nat) (c : mrp_ctx U) : mrp_attribute_mrpdu :=
  match apps c !! p with Some x => default mrpdu_zero (mrpdu x !! t) | None => mrpdu_zero end.
Definition pdu_set (p t : nat) (d : mrp_attribute_mrpdu) (c : mrp_ctx U) : mrp_ctx U :=
  c <| apps ::= alter (λ x : mrp_application, x <| mrpdu ::= alter (λ _, d) t |>) p |>.
Definition with_mrpdu {A} (p t : nat) (m : PM A) : MR A :=
  let! x := get_app p in
  let! _ := deref OutOfBounds (mrpdu x !! t) in
  zoom (pdu_get p t) (pdu_set p t) m.

(** ** Timers *)

Definition leave_timer_stop (a : nat) : MR unit :=
  let! _ := get_attr a in
  set_attr a (λ x, x <| registrar ::= λ r, r <| leave ::= soft_stop |> |>).
Definition leave_timer_start (a : nat) (ms : Z) : MR unit :=
  let! _ := get_attr a in
  let! _ := call (MrpTimerStart ms) in
  set_attr a (λ x, x <| registrar ::= λ r, r <| leave ::= soft_start ms |> |>).

Definition lva_timer_start (p : nat) (ms : Z) : MR unit :=
  let! _ := call (MrpTimerStart ms) in
  set_app p (λ x, x <| leaveall ::= λ l, l <| lva_timer ::= soft_start ms |> |>).
Definition lva_timer_restart (p : nat) (ms : Z) : MR unit :=
  let! _ := call (MrpTimerStart ms) in
  set_app p (λ x, x <| leaveall ::= λ l, l <| lva_timer ::= soft_restart ms |> |>).
Definition periodic_timer_start (p : nat) (ms : Z) : MR unit :=
  let! _ := call (MrpTimerStart ms) in
  set_app p (λ x, x <| periodic ::= λ l, l <| lva_timer ::= soft_start ms |> |>).
Definition periodic_timer_stop (p : nat) : MR unit :=
  set_app p (λ x, x <| periodic ::= λ l, l <| lva_timer ::= soft_stop |> |>).

Definition mrp_transmit_request (p : nat) : MR unit :=
  let! x := get_app p in
  when (negb (st_running (join x)))
    (let! _ := call (MrpTimerStart MRP_JOINTIMER_POINT_TO_POINT_VAL) in
     set_app p (λ x, x <| join ::= soft_start MRP_JOINTIMER_POINT_TO_POINT_VAL |>)).

(** ** Transmission *)

Definition mrp_transmit_end (p t : nat) : MR unit :=
  let! d := with_mrpdu p t (gets (λ d, d)) in
  match desc d with
  | None => ret tt
  | Some _ =>
      with_mrpdu p t (mrp_pdu_close has_attribute_list_length);;
      let! d := with_mrpdu p t (gets (λ d, d)) in
      let! frame := deref NullDeref (desc d) in
      net_tx p frame;;
      with_mrpdu p t (modify (λ d, d <| desc := None |>))
  end.

Definition mrp_tx_drop (p t : nat) : MR unit :=
  let! _ := call (MrpTxFree p) in
  with_mrpdu p t (modify (λ d, d <| desc := None |>)).

Definition mrp_msg_error (p t : nat) : MR unit :=
  let! d := with_mrpdu p t (gets (λ d, d)) in
  match msg_start (msg d) with
  | None => mrp_tx_drop p t
  | Some start =>
      if start =? msg_end (msg d) then mrp_tx_drop p t else
      match vec_start (vector d) with
      | None => mrp_transmit_end p t
      | Some vstart =>
          if decide (vec_end (vector d) = Some vstart) then mrp_transmit_end p t else
          when (number_of_values (vector d) =? 0)
            (with_mrpdu p t (set_msg (λ m, m <| msg_end := vstart |>)));;
          mrp_transmit_end p t
      end
  end.

(** A fresh descriptor: [net_add_eth_header], the protocol version and
    [mrp_msg_start]. *)
Definition mrp_pdu_begin (frame : list Z) (mtu : Z) (t : nat) : PM Z :=
  modify (λ d, d <| desc := Some (TxDesc 0 frame) |>);;
  poke 0 (take 6 dst_mac);;
  poke 12 (u16_bytes (htons (u16 ethertype)));;
  poke 14 [u8 proto_version];;
  modify (λ d, d <| desc ::= fmap (λ x : net_tx_desc, x <| tx_len := 15 |>) |>);;
  mrp_msg_start has_attribute_list_length 15 mtu (Z.of_nat t) (attribute_length t).

(** The result: false for [goto exit]. *)
Definition mrp_transmit_open (p t : nat) : MR bool :=
  let! d := with_mrpdu p t (gets (λ d, d)) in
  match desc d with
  | Some _ => ret true
  | None =>
      let! k := now in
      let! ok := call (MrpTxAlloc p DEFAULT_NET_DATA_SIZE) in
      if ok =? 0 then ret false else
      let! mtu := call (MrpMtu p) in
      let! rc := with_mrpdu p t (mrp_pdu_begin (fresh_frame k) mtu t) in
      if rc <? 0 then mrp_msg_error p t;; ret false else ret true
  end.

(** [mrp_vector_start] at the end of the message; true for [goto new]. *)
Definition mrp_transmit_vector (p t : nat) : MR bool :=
  let! rc := with_mrpdu p t
    (let! m := gets msg in mrp_vector_start (msg_end m) (msg_end_max m) (attribute_length t)) in
  if rc <? 0 then mrp_msg_error p t;; ret true else ret false.

(** The first value of an attribute, in the open vector if it has no value
    yet, else in a new one; true for [goto new]. *)
Definition mrp_transmit_value (p t : nat) (attr : mrp_attribute) : MR bool :=
  let! x := get_app p in
  let! d := with_mrpdu p t (gets (λ d, d)) in
  if negb (number_of_values (vector d) =? 0) then
    if (type x =? APP_MSRP) && bool_decide (attr_type attr = MSRP_ATTR_TYPE_DOMAIN) then
      mrp_transmit_end p t;; ret true
    else
      with_mrpdu p t (let! n := mrp_vector_end false in set_msg (λ m, m <| msg_end ::= λ e, e + n |>));;
      let! again := mrp_transmit_vector p t in
      if again : bool then ret true else
      with_mrpdu p t (mrp_vector_first_value (attr_val attr));; ret false
  else with_mrpdu p t (mrp_vector_first_value (attr_val attr));; ret false.

(** [mrp_transmit_action]; one unit of fuel per pass through [new:].  Two
    passes are enough when a vector with one event fits in the MTU. *)
Fixpoint mrp_transmit_new (fuel p t : nat) (attr : option nat) (event : Z) (leaveall : bool) : MR unit :=
  match fuel with
  | O => starve
  | S fuel =>
      let! go := mrp_transmit_open p t in
      if negb go then ret tt else
      let! d := with_mrpdu p t (gets (λ d, d)) in
      let! again := match vec_start (vector d) with
                    | None => mrp_transmit_vector p t
                    | Some _ => ret false
                    end in
      if again : bool then mrp_transmit_new fuel p t attr event leaveall else
      when leaveall (with_mrpdu p t (mrp_vector_leaveall_event MRP_LVA_EVENT));;
      match attr with
      | None => ret tt
      | Some a =>
          let! x := get_attr a in
          let! again := mrp_transmit_value p t x in
          if again : bool then mrp_transmit_new fuel p t attr event leaveall else
          let! rc := with_mrpdu p t (vector_add_event x event) in
          if rc <? 0 then mrp_msg_error p t;; mrp_transmit_new fuel p t attr event leaveall
          else ret tt
      end
  end.

Definition mrp_transmit_action (p t : nat) (attr : option nat) (event : Z) (leaveall : bool) : MR unit :=
  mrp_transmit_new 3 p t attr event leaveall.

(** ** Release of an attribute *)

Definition mrp_free_attribute (a : nat) : MR unit :=
  let! x := get_attr a in
  set_attr a (λ x, x <| registrar ::= λ r, r <| leave := soft_none |> |>);;
  set_list (attr_app x) (attr_type x) (list_remove a);;
  set_ordered (attr_app x) (attr_type x) (list_remove a);;
  modify (λ c, c <| attrs ::= delete a |>);;
  let! _ := call MrpFree in
  ret tt.

Definition mrp_free_attribute_check (p a : nat) : MR unit :=
  let! x := get_attr a in
  let! q := get_app p in
  when (freeable (participant_type q) (app_state (applicant x)) (reg_state (registrar x)))
    (mrp_free_attribute a).

(** ** Applicant *)

Definition mrp_applicant_action_handler (p a : nat) : MR unit :=
  let! x := get_attr a in
  let! q := get_app p in
  let event := mrp_action2event (participant_type q) (app_action (applicant x)) (reg_state (registrar x)) in
  if event <? 0 then ret tt else
  mrp_transmit_action p (attr_type x) (Some a) event false.

Definition mrp_applicant_sm (a : nat) (event : mrp_protocol_event_t) : MR unit :=
  let! x := get_attr a in
  let p := attr_app x in
  let! q := get_app p in
  let old := app_state (applicant x) in
  let '(state, action) := applicant_next (participant_type q) (reg_state (registrar x)) event old in
  when (bool_decide (state ≠ old) && needs_tx state) (mrp_transmit_request p);;
  when (bool_decide (state ≠ old))
    (set_attr a (λ x, x <| applicant ::= λ s, s <| app_state := state |> |>);;
     set_ordered p (attr_type x) (λ l, list_remove a l ++ [a]));;
  set_attr a (λ x, x <| applicant ::= λ s, s <| app_action := action |> |>);;
  mrp_applicant_action_handler p a.

Section indications.
Context `{!MrpInd C U}.

(** ** Registrar *)

Definition mrp_registrar_action_handler (p a : nat) : MR unit :=
  let! x := get_attr a in
  match reg_action (registrar x) with
  | MRP_ACTION_NEW => mad_join_indication p a true
  | MRP_ACTION_JOIN => mad_join_indication p a false
  | MRP_ACTION_LV => mad_leave_indication p a
  | _ => ret tt
  end.

Definition mrp_registrar_sm (a : nat) (event : mrp_protocol_event_t) : MR unit :=
  let! x := get_attr a in
  let p := attr_app x in
  let! q := get_app p in
  let '(state, action, cmd) := registrar_next (participant_type q) event (reg_state (registrar x)) in
  match cmd with
  | Some LeaveStop => leave_timer_stop a
  | Some LeaveStart =>
      let! l := gets leave_timeout in
      let! ms := deref OutOfBounds (l !! p) in
      leave_timer_start a ms
  | None => ret tt
  end;;
  set_attr a (λ x, x <| registrar ::= λ r, r <| reg_state := state |> <| reg_action := action |> |>);;
  mrp_registrar_action_handler p a.

Definition mrp_leave_timer_handler (a : nat) : MR unit :=
  mrp_registrar_sm a MRP_EVENT_LEAVETIMER;;
  let! x := get_attr a in
  mrp_free_attribute_check (attr_app x) a.

(** [__mrp_process_attribute]. *)
Definition mrp_process_attribute_event (a : nat) (event : Z) : MR Z :=
  let! x := get_attr a in
  if MRP_ATTR_EVT_MAX <=? event then ret (-1) else
  mrp_registrar_sm a (mrp_attribute2rxevent event);;
  mrp_applicant_sm a (mrp_attribute2rxevent event);;
  mrp_free_attribute_check (attr_app x) a;;
  ret 0.

(** ** LeaveAll *)

Definition attr_types : list nat := seq min_attr_type (S max_attr_type - min_attr_type).

Definition mrp_leaveall_action_handler (p : nat) : MR unit :=
  let! q := get_app p in
  match lva_action (leaveall q) with
  | MRP_ACTION_SLA =>
      for_each attr_types (λ t,
        check_type p t;;
        list_each (attr_list p t) (λ a,
          let! _ := mrp_process_attribute_event a MRP_ATTR_EVT_LVA in ret tt));;
      for_each attr_types (λ t, mrp_transmit_action p t None 0 true)
  | _ => ret tt
  end.

Definition random_lva : MR Z :=
  let! r := call MrpRandom in
  ret (u32 (Z.rem r (MRP_LVATIMER_VAL_MAX + 1 - MRP_LVATIMER_VAL_MIN) + MRP_LVATIMER_VAL_MIN)).

Definition mrp_leaveall_sm (p : nat) (event : mrp_protocol_event_t) : MR unit :=
  let! q := get_app p in
  let old := lva_state (leaveall q) in
  let! r :=
    if negb (is_full (participant_type q)) then ret (old, MRP_ACTION_NONE) else
    match event with
    | MRP_EVENT_BEGIN =>
        let! ms := random_lva in
        lva_timer_start p ms;;
        ret (MRP_TIMER_PASSIVE, MRP_ACTION_NONE)
    | MRP_EVENT_TX =>
        if decide (old = MRP_TIMER_ACTIVE) then ret (MRP_TIMER_PASSIVE, MRP_ACTION_SLA)
        else ret (old, MRP_ACTION_NONE)
    | MRP_EVENT_RLA =>
        let! ms := random_lva in
        lva_timer_restart p ms;;
        ret (MRP_TIMER_PASSIVE, MRP_ACTION_NONE)
    | MRP_EVENT_LEAVEALLTIMER =>
        mrp_transmit_request p;;
        let! ms := random_lva in
        lva_timer_start p ms;;
        ret (MRP_TIMER_ACTIVE, MRP_ACTION_NONE)
    | _ => ret (old, MRP_ACTION_NONE)
    end in
  set_app p (λ q, q <| leaveall ::= λ l, l <| lva_state := r.1 |> <| lva_action := r.2 |> |>);;
  mrp_leaveall_action_handler p.

Definition mrp_leaveall_timer_handler (p : nat) : MR unit := mrp_leaveall_sm p MRP_EVENT_LEAVEALLTIMER.

(** ** Join timer *)

(** [do { entry = next; next = list_next(entry); ... } while (entry != last)]. *)
Fixpoint mrp_join_loop (fuel p t : nat) (next : option nat) (last : nat) (event : mrp_protocol_event_t) : MR unit :=
  match fuel with
  | O => starve
  | S fuel =>
      let! entry := deref BadList next in
      let! l := gets (ordered_list p t) in
      let! next := deref UseAfterFree (list_next entry l) in
      mrp_applicant_sm entry event;;
      mrp_free_attribute_check p entry;;
      if decide (entry = last) then ret tt else mrp_join_loop fuel p t next last event
  end.

Definition mrp_join_type (p t : nat) (event : mrp_protocol_event_t) : MR unit :=
  check_type p t;;
  let! l := gets (ordered_list p t) in
  match list.last l with
  | None => ret tt
  | Some last => mrp_join_loop (length l) p t (list.head l) last event
  end.

Definition mrp_join_timer_handler (p : nat) : MR unit :=
  mrp_leaveall_sm p MRP_EVENT_TX;;
  let! q := get_app p in
  let event := if decide (lva_action (leaveall q) = MRP_ACTION_SLA) then MRP_EVENT_TXLA else MRP_EVENT_TX in
  for_each attr_types (λ t, mrp_join_type p t event);;
  for_each attr_types (λ t, mrp_transmit_end p t).

(** ** Periodic timer *)

Definition mrp_periodic_sm (p : nat) (event : mrp_protocol_event_t) : MR unit :=
  let! q := get_app p in
  let old := lva_state (periodic q) in
  let! r :=
    match event with
    | MRP_EVENT_BEGIN =>
        periodic_timer_start p MRP_PERIODTIMER_VAL;;
        ret (MRP_TIMER_ACTIVE, MRP_ACTION_NONE)
    | MRP_EVENT_PERIODIC_ENABLED =>
        if decide (old = MRP_TIMER_PASSIVE) then
          periodic_timer_start p MRP_PERIODTIMER_VAL;; ret (MRP_TIMER_ACTIVE, MRP_ACTION_NONE)
        else ret (old, MRP_ACTION_NONE)
    | MRP_EVENT_PERIODIC_DISABLED =>
        if decide (old = MRP_TIMER_ACTIVE) then
          periodic_timer_stop p;; ret (MRP_TIMER_PASSIVE, MRP_ACTION_NONE)
        else ret (old, MRP_ACTION_NONE)
    | MRP_EVENT_PERIODICTIMER =>
        if decide (old = MRP_TIMER_ACTIVE) then
          periodic_timer_start p MRP_PERIODTIMER_VAL;; ret (old, MRP_ACTION_PERIODIC)
        else ret (old, MRP_ACTION_NONE)
    | _ => ret (old, MRP_ACTION_NONE)
    end in
  set_app p (λ q, q <| periodic ::= λ l, l <| lva_state := r.1 |> <| lva_action := r.2 |> |>).

Definition mrp_periodic_timer_handler (p : nat) : MR unit :=
  for_each attr_types (λ t,
    check_type p t;;
    list_each (attr_list p t) (λ a, mrp_applicant_sm a MRP_EVENT_PERIODIC));;
  mrp_periodic_sm p MRP_EVENT_PERIODICTIMER.

(** ** Attributes *)

(** [val]: the memory of the value; the code reads [attribute_value_length]
    bytes of it. *)
Definition read_val (t : nat) (val : list Z) : MR (list Z) :=
  let n := attribute_value_length t in
  if decide (n ≤ length val)%nat then ret (take n val) else crash OutOfBounds.

Definition mrp_find_attribute (p t : nat) (val : list Z) : MR (option nat) :=
  let! v := read_val t val in
  check_type p t;;
  let! l := gets (attr_list p t) in
  list_search l (λ a, let! x := get_attr a in ret (bool_decide (attr_val x = v))).

Definition mrp_alloc_attribute (p t : nat) (val : list Z) : MR (option nat) :=
  let! k := now in
  let! ok := call MrpMalloc in
  if ok =? 0 then ret None else
  let! v := read_val t val in
  let! m := gets attrs in
  let a := fresh (dom m) in
  let '(app0, reg0) := fresh_attr k in
  modify (λ c, c <| attrs ::= <[a := MrpAttribute p app0 reg0 t v]> |>);;
  set_list p t (cons a);;
  set_ordered p t (cons a);;
  let! rc := call MrpTimerCreate in
  let rc := if rc <? 0 then -1 else 0 in
  set_attr a (λ x, x <| registrar ::= λ r, r <| leave ::= soft_init rc |> |>);;
  if rc <? 0 then
    modify (λ c, c <| attrs ::= delete a |>);;
    let! _ := call MrpFree in
    ret None
  else
    mrp_applicant_sm a MRP_EVENT_BEGIN;;
    mrp_registrar_sm a MRP_EVENT_BEGIN;;
    ret (Some a).

Definition mrp_get_attribute (p t : nat) (val : list Z) : MR (option nat) :=
  let! o := mrp_find_attribute p t val in
  match o with
  | Some a => ret (Some a)
  | None => mrp_alloc_attribute p t val
  end.

(** ** Requests *)

Definition mrp_mad_join_request (p t : nat) (val : list Z) (new : bool) : MR (option nat) :=
  let! q := get_app p in
  if negb (enabled q) then ret None else
  let! o := mrp_get_attribute p t val in
  match o with
  | None => ret None
  | Some a =>
      mrp_applicant_sm a (if new then MRP_EVENT_NEW else MRP_EVENT_JOIN);;
      ret (Some a)
  end.

Definition mrp_mad_join_immediate (p t : nat) (val : list Z) : MR (option nat) :=
  let! q := get_app p in
  if negb (enabled q) then ret None else
  let! o := mrp_find_attribute p t val in
  match o with
  | Some _ => ret None
  | None =>
      let! o := mrp_alloc_attribute p t val in
      match o with
      | None => ret None
      | Some a =>
          mrp_applicant_sm a MRP_EVENT_JOIN;;
          mrp_applicant_sm a MRP_EVENT_TX;;
          ret (Some a)
      end
  end.

Definition mrp_mad_leave_request (p t : nat) (val : list Z) : MR unit :=
  let! q := get_app p in
  if negb (enabled q) then ret tt else
  let! o := mrp_find_attribute p t val in
  match o with
  | None => ret tt
  | Some a =>
      mrp_applicant_sm a MRP_EVENT_LV;;
      mrp_free_attribute_check p a
  end.

Definition mrp_process_attribute (p t : nat) (val : list Z) (event : Z) : MR Z :=
  let! q := get_app p in
  if negb (enabled q) then ret (-1) else
  let! o := mrp_get_attribute p t val in
  match o with
  | Some a => mrp_process_attribute_event a event
  | None => ret (-1)
  end.

Definition mrp_process_attribute_free_immediate (a : nat) : MR unit :=
  let! _ := get_attr a in
  mrp_free_attribute a.

Definition mrp_process_attribute_leave_immediate (a : nat) : MR Z :=
  let! x := get_attr a in
  mrp_registrar_sm a MRP_EVENT_RLV_IMMEDIATE;;
  mrp_applicant_sm a MRP_EVENT_RLV;;
  mrp_free_attribute_check (attr_app x) a;;
  ret 0.

(** ** Reception

    Offsets in the buffer of the received packet. *)

Definition peek (o : Z) : MR Z :=
  let! d := gets rx_data in
  if o <? 0 then crash OutOfBounds else deref OutOfBounds (d !! Z.to_nat o).
Definition peek16 (o : Z) : MR Z :=
  let! a := peek o in let! b := peek (o + 1) in ret (a + 256 * b).
Definition peek_list (o : Z) (n : nat) : MR (list Z) :=
  let! d := gets rx_data in
  if decide (0 ≤ o ∧ o + Z.of_nat n ≤ Z.of_nat (length d)) then ret (take n (drop (Z.to_nat o) d))
  else crash OutOfBounds.

Definition mrp_header_size : Z := if has_attribute_list_length then 4 else 2.

(** The offset of the next message, if there is one. *)
Definition mrp_get_first_message (data end_ : Z) : option Z :=
  if end_ <? data + 1 + mrp_header_size then None else Some (data + 1).

Definition mrp_get_next_message (vector_end_mark end_ : Z) : MR (option Z) :=
  let hdr := vector_end_mark + 2 in
  if end_ <? hdr + 2 then ret None else
  let! m := peek16 hdr in
  if m =? 0 then ret None else
  if end_ <? hdr + 4 then ret None else
  ret (Some hdr).

Definition mrp_get_first_vector (hdr : Z) : Z := hdr + mrp_header_size.

(** [for (entry = list_first(head); entry != head; entry = list_next(entry))]:
    the successor is read after the body has run. *)
Fixpoint list_walk (get : mrp_ctx U → list nat) (fuel : nat) (entry : option nat) (body : nat → MR unit) : MR unit :=
  match entry with
  | None => ret tt
  | Some e =>
      match fuel with
      | O => starve
      | S fuel =>
          body e;;
          let! l := gets get in
          let! n := deref UseAfterFree (list_next e l) in
          list_walk get fuel n body
      end
  end.

(** The protocol's handler of a vector: port, type and length of the header,
    offset of the first value, number of values. *)
Context (vector_handler : nat → Z → Z → Z → Z → MR unit).

(** One vector: [None] for [goto err], else the offset of the next header. *)
Definition mrp_process_vector (p : nat) (atype alen vector_header vector_end : Z) (skip : bool) : MR (option Z) :=
  if vector_end <? vector_header + 2 then ret None else
  let! h := peek16 vector_header in
  let '(leave_all, values) := mrp_get_vector_header h in
  let vector_length := 2 + alen + event_length atype values in
  if vector_end <? vector_header + vector_length then ret None else
  if skip then ret (Some (vector_header + vector_length)) else
  if negb (leave_all =? MRP_NULL_LVA_EVENT) && negb (leave_all =? MRP_LVA_EVENT) then ret None else
  if (values =? 0) && (leave_all =? MRP_NULL_LVA_EVENT) then ret None else
  when (negb (leave_all =? 0))
    (let t := Z.to_nat atype in
     check_type p t;;
     let! l := gets (attr_list p t) in
     list_walk (attr_list p t) (length l) (list.head l) (λ a,
       let! _ := mrp_process_attribute_event a MRP_ATTR_EVT_LVA in ret tt);;
     mrp_leaveall_sm p MRP_EVENT_RLA);;
  vector_handler p atype alen (vector_header + 2) values;;
  ret (Some (vector_header + vector_length)).

(** [do { ... } while ( *vector_header)]. *)
Fixpoint mrp_process_vectors (fuel p : nat) (atype alen vector_header vector_end : Z) (skip : bool) : MR (option Z) :=
  match fuel with
  | O => starve
  | S fuel =>
      let! o := mrp_process_vector p atype alen vector_header vector_end skip in
      match o with
      | None => ret None
      | Some next =>
          let! m := peek16 next in
          if m =? 0 then ret (Some next)
          else mrp_process_vectors fuel p atype alen next vector_end skip
      end
  end.

(** One message: [None] for [goto err], else the offset of its end mark. *)
Definition mrp_process_message (fuel p : nat) (hdr end_ : Z) (newer_version : bool) : MR (option Z) :=
  let! atype := peek hdr in
  let! alen := peek (hdr + 1) in
  let bad := attribute_check atype alen <? 0 in
  if bad && negb newer_version then ret None else
  let vector_header := mrp_get_first_vector hdr in
  if has_attribute_list_length then
    let! n := peek16 (hdr + 2) in
    let vector_end := vector_header + ntohs n in
    if bad then ret (Some (vector_end - 2)) else
    if end_ <? vector_end then ret None else
    mrp_process_vectors fuel p atype alen vector_header vector_end false
  else mrp_process_vectors fuel p atype alen vector_header end_ bad.

Fixpoint mrp_process_messages (fuel p : nat) (hdr : option Z) (end_ : Z) (newer_version : bool) : MR Z :=
  match hdr with
  | None => ret 0
  | Some hdr =>
      match fuel with
      | O => starve
      | S fuel =>
          let! o := mrp_process_message (S fuel) p hdr end_ newer_version in
          match o with
          | None => ret (-1)
          | Some mark =>
              let! next := mrp_get_next_message mark end_ in
              mrp_process_messages fuel p next end_ newer_version
          end
      end
  end.

(** [l2_offset] and [l3_offset] of the descriptor, relative to its data, and
    its length.  Every message and every vector is at least two bytes long. *)
Definition mrp_process_packet (p : nat) (l2_offset l3_offset plen : Z) : MR Z :=
  let! q := get_app p in
  if negb (enabled q) then ret (-1) else
  let! dst := peek_list l2_offset 6 in
  if negb (bool_decide (dst = take 6 dst_mac)) then ret (-1) else
  set_app p (λ q, q <| num_rx_pkts ::= λ n, u32 (n + 1) |>);;
  let! version := peek l3_offset in
  if version <? proto_version then ret (-1) else
  mrp_process_messages (Z.to_nat plen) p (mrp_get_first_message l3_offset plen) plen
    (proto_version <? version).

(** ** Enabling, initialisation and exit *)

Definition mrp_exit_attributes (p : nat) : MR unit :=
  for_each (seq 0 MRP_MAX_ATTR_TYPE) (λ t,
    check_type p t;;
    list_each (attr_list p t) mrp_free_attribute).

Definition mrp_enable (p : nat) : MR unit :=
  let! q := get_app p in
  if enabled q then ret tt else
  when (is_full (participant_type q)) (mrp_leaveall_sm p MRP_EVENT_BEGIN);;
  when (negb (type q =? APP_MSRP)) (mrp_periodic_sm p MRP_EVENT_BEGIN);;
  set_app p (λ q, q <| enabled := true |>).

Definition mrp_disable (p : nat) : MR unit :=
  let! q := get_app p in
  if negb (enabled q) then ret tt else
  when (negb (type q =? APP_MSRP)) (periodic_timer_stop p);;
  set_app p (λ q, q <| join ::= soft_stop |>);;
  set_app p (λ q, q <| leaveall ::= λ l, l <| lva_timer ::= soft_stop |> |>);;
  mrp_exit_attributes p;;
  set_app p (λ q, q <| enabled := false |>).

Definition timer_create_app (p : nat) (f : (soft_timer → soft_timer) → mrp_application → mrp_application) : MR Z :=
  let! rc := call MrpTimerCreate in
  let rc := if rc <? 0 then -1 else 0 in
  set_app p (f (soft_init rc));;
  ret rc.

Definition on_leaveall (g : soft_timer → soft_timer) (q : mrp_application) : mrp_application :=
  q <| leaveall ::= λ l, l <| lva_timer ::= g |> |>.
Definition on_join (g : soft_timer → soft_timer) (q : mrp_application) : mrp_application :=
  q <| join ::= g |>.
Definition on_periodic (g : soft_timer → soft_timer) (q : mrp_application) : mrp_application :=
  q <| periodic ::= λ l, l <| lva_timer ::= g |> |>.

Definition mrp_init_timers (p : nat) : MR Z :=
  let! q := get_app p in
  let! rc := timer_create_app p on_leaveall in
  if rc <? 0 then ret (-1) else
  let! rc := timer_create_app p on_join in
  if rc <? 0 then set_app p (on_leaveall (λ _, soft_none));; ret (-1) else
  if type q =? APP_MSRP then ret 0 else
  let! rc := timer_create_app p on_periodic in
  if rc <? 0 then
    set_app p (on_join (λ _, soft_none));;
    set_app p (on_leaveall (λ _, soft_none));;
    ret (-1)
  else ret 0.

Definition mrp_exit_timers (p : nat) : MR unit :=
  let! q := get_app p in
  when (negb (type q =? APP_MSRP)) (set_app p (on_periodic (λ _, soft_none)));;
  set_app p (on_join (λ _, soft_none));;
  set_app p (on_leaveall (λ _, soft_none)).

Definition mrp_init (p : nat) (app_type ptype : Z) : MR Z :=
  let! _ := get_app p in
  set_app p (λ q, q <| type := app_type |> <| participant_type := ptype |> <| enabled := false |>
                    <| mrpdu := replicate MRP_MAX_ATTR_TYPE mrpdu_zero |>);;
  let! rc := mrp_init_timers p in
  if rc <? 0 then ret (-1) else
  set_app p (λ q, q <| attributes := replicate MRP_MAX_ATTR_TYPE [] |>
                    <| attributes_ordered := replicate MRP_MAX_ATTR_TYPE [] |>);;
  mrp_enable p;;
  ret 0.

Definition mrp_exit (p : nat) : MR Z :=
  mrp_disable p;;
  mrp_exit_timers p;;
  ret 0.
End indications.
End mrp.
