(* ===== verification/MrpTx.v ===== *)
(** * MRP: what the applications transmit

    The contract between mrp.c and a protocol ([MrpLaws]), and the
    transmission of messages: the PDUs handed to the network carry the events
    of the attributes, in order, within the MTU. *)

From S2P Require Import Prelude Timer MrpSm MrpPdu Mrp.

(** ** The contract with a protocol *)

(** The calls of mrp.c are recognised among those of the component. *)
Class MrpCallsLaws (C : Type) `{!MrpCalls C} := {
  mrp_proj : C → option mrp_call;
  mrp_proj_embed c : mrp_proj (mrp_embed c) = Some c;
}.

(** The frames given to the network, newest first. *)
Definition frames {C} `{!MrpCalls C, !MrpCallsLaws C} (tr : list (C * Z)) : list (nat * list Z) :=
  omap (λ x, match mrp_proj x.1 with Some (MrpTx p f) => Some (p, f) | _ => None end) tr.

#[global] Arguments frames : simpl never.

Class MrpLaws (C U : Type) `{!Platform C, !MrpCalls C, !MrpCallsLaws C, !MrpOps C U} := {
  (** the bytes that an attribute event takes, at most [event_max] *)
  event_bytes : mrp_attribute → Z → list Z;
  event_max : Z;
  event_bytes_len x e : 1 ≤ len (event_bytes x e) ≤ event_max;
  vector_add_event_law has ty alen pre vs v limit x e (w : world Empty_set mrp_attribute_mrpdu) :
    open_msg has ty alen pre vs v limit (w_st w) → v_events v = None →
    wp (vector_add_event x e) (λ rc w',
      if limit - 4 <? len pre + hdr_size has + len (vecs_bytes vs) + len (vec_bytes v) + len (event_bytes x e)
      then rc = -1 ∧ w_st w' = w_st w
      else rc = 0 ∧ open_msg has ty alen pre vs (add_events v (event_bytes x e)) limit (w_st w')) w;
  (** the first value is a prefix of the value *)
  attribute_length_law t : 0 ≤ attribute_length t ≤ Z.of_nat (attribute_value_length t);
  attr_types_law : (min_attr_type ≤ max_attr_type < MRP_MAX_ATTR_TYPE)%nat;
  dst_mac_law : length dst_mac = 6%nat;
  (** a protocol does not touch the applications when it transmits *)
  tx_rel : U → U → Prop;
  tx_rel_preorder :: PreOrder tx_rel;
  tx_enabled : nat → U → bool;
  tx_enabled_law p u u' : tx_rel u u' → tx_enabled p u' = tx_enabled p u;
  (** ports whose frames a protocol can transmit *)
  tx_port : nat → U → Prop;
  tx_port_law p u u' : tx_rel u u' → tx_port p u → tx_port p u';
  net_tx_law p t (w : world C (mrp_ctx U)) :
    tx_port p (upper (w_st w)) →
    wp (net_tx p t) (λ _ w', ∃ u',
      w_st w' = (w_st w) <| upper := u' |> ∧ tx_rel (upper (w_st w)) u' ∧
      frames (w_trace w') =
        (if tx_enabled p (upper (w_st w)) then [(p, take (Z.to_nat (tx_len t)) (tx_data t))] else [])
        ++ frames (w_trace w)) w;
}.

Section tx.
Context {C U : Type} `{!Platform C, !MrpCalls C, !MrpOps C U, !MrpMemory, !MrpCallsLaws C, !MrpLaws C U}.
Implicit Types (w : world C (mrp_ctx U)) (c : mrp_ctx U).

(** The platform: the MTU of a port leaves room for one vector with one event
    and is at most the size of a descriptor. *)
Definition mtu_ok (t : nat) (mtu : Z) : Prop :=
  15 + hdr_size has_attribute_list_length + 2 + attribute_length t + event_max + 4 ≤ mtu ≤ DEFAULT_NET_DATA_SIZE.
Definition platform_ok : Prop :=
  (∀ n p t, mtu_ok t (answer n (mrp_embed (MrpMtu p)))) ∧
  (∀ k, len (fresh_frame k) = DEFAULT_NET_DATA_SIZE).

(** What precedes the message in a frame. *)
Definition pre_ok (pre : list Z) : Prop :=
  length pre = 15%nat ∧ take 6 pre = dst_mac ∧
  drop 12 pre = u16_bytes (htons (u16 ethertype)) ++ [u8 proto_version].

Definition pdu_idle (d : mrp_attribute_mrpdu) : Prop := desc d = None ∧ vec_start (vector d) = None.

(** The PDU of type [t] under construction holds the vectors [vs]. *)
Definition pdu_holds (t : nat) (d : mrp_attribute_mrpdu) (vs : list mrp_vec) : Prop :=
  (pdu_idle d ∧ vs = []) ∨
  ∃ pre vs0 v limit, vs = vs0 ++ [v] ∧ pre_ok pre ∧ mtu_ok t limit ∧ len (v_fv v) = attribute_length t ∧
    open_msg has_attribute_list_length (Z.of_nat t) (attribute_length t) pre vs0 v limit d.
Definition pdu_ok (t : nat) (d : mrp_attribute_mrpdu) : Prop := ∃ vs, pdu_holds t d vs.

(** A frame of type [t] carries the vectors [vs]. *)
Definition frame_holds (t : nat) (f : list Z) (vs : list mrp_vec) : Prop :=
  ∃ pre, pre_ok pre ∧ len f ≤ DEFAULT_NET_DATA_SIZE ∧
    f = mrp_pdu_bytes has_attribute_list_length (Z.of_nat t) (attribute_length t) pre vs.

(** What a transmission changes: the PDU of type [t] on port [p], the
    counters of the protocol, and the frames [fs] handed to the protocol,
    newest first. *)
Definition txd (p t : nat) (d' : mrp_attribute_mrpdu) (fs : list (list Z)) w w' : Prop :=
  ∃ u', w_st w' = pdu_set p t d' ((w_st w) <| upper := u' |>) ∧ tx_rel (upper (w_st w)) u' ∧
    frames (w_trace w') =
      (if tx_enabled p (upper (w_st w)) then map (pair p) fs else []) ++ frames (w_trace w).

Lemma frames_embed cl r tr :
  frames ((mrp_embed cl, r) :: tr) =
    match cl with MrpTx p f => (p, f) :: frames tr | _ => frames tr end.
Proof. unfold frames. cbn [omap list_omap fst]. rewrite mrp_proj_embed. by destruct cl. Qed.

(** Ports and their PDUs. *)
Definition port_pdu c (p t : nat) (d : mrp_attribute_mrpdu) : Prop :=
  ∃ q, apps c !! p = Some q ∧ mrpdu q !! t = Some d.

Lemma pdu_set_upper p t d u c : pdu_set p t d (c <| upper := u |>) = (pdu_set p t d c) <| upper := u |>.
Proof. done. Qed.
Lemma list_alter_twice {A} (f g : A → A) (l : list A) i : alter f i (alter g i l) = alter (f ∘ g) i l.
Proof. revert i. induction l as [|x l IH]; intros [|i]; cbn; f_equal; auto. Qed.
Lemma pdu_set_twice p t d d' c : pdu_set p t d' (pdu_set p t d c) = pdu_set p t d' c.
Proof.
  unfold pdu_set, over, over_field; cbn. f_equal. rewrite list_alter_twice.
  apply list_eq. intros i. rewrite !list_lookup_alter. destruct (decide (p = i)) as [->|]; [|done].
  destruct (apps c !! i) as [q|]; [|done]. cbn. by rewrite list_alter_twice.
Qed.
Lemma list_alter_same {A} (l : list A) i a : l !! i = Some a → alter (λ _, a) i l = l.
Proof. revert i. induction l as [|x l IH]; intros [|i] Hi; cbn in *; try done; f_equal; [congruence|auto]. Qed.
Lemma pdu_set_same p t d c : port_pdu c p t d → pdu_set p t d c = c.
Proof.
  intros (q & Hq & Hd). unfold pdu_set, over, over_field. destruct c as [ap at_ lt rx up]; cbn in *. f_equal.
  rewrite <- (list_insert_id ap p q) at 2 by done.
  apply list_eq. intros i. rewrite list_lookup_alter. destruct (decide (p = i)) as [->|].
  - rewrite Hq. cbn. rewrite list_lookup_insert_eq by (by eapply lookup_lt_Some). f_equal.
    destruct q; cbn in *. by rewrite list_alter_same.
  - by rewrite list_lookup_insert_ne.
Qed.

Lemma port_pdu_set c p t d d' : port_pdu c p t d → port_pdu (pdu_set p t d' c) p t d'.
Proof.
  intros (q & Hq & Hd). eexists. unfold pdu_set, over, over_field; cbn.
  rewrite list_lookup_alter_eq, Hq. cbn. split; [done|]. cbn. by rewrite list_lookup_alter_eq, Hd.
Qed.
Lemma port_pdu_upper c p t d u : port_pdu c p t d → port_pdu (c <| upper := u |>) p t d.
Proof. done. Qed.
Lemma pdu_get_port c p t d : port_pdu c p t d → pdu_get p t c = d.
Proof. intros (q & Hq & Hd). unfold pdu_get. by rewrite Hq, Hd. Qed.

Lemma wp_with_mrpdu {A} p t d (m : PM A) (Q : A → world C (mrp_ctx U) → Prop) w :
  port_pdu (w_st w) p t d →
  wp m (λ a r, Q a (World (pdu_set p t (w_st r) (w_st w)) (w_clock w) (w_trace w))) (World d 0 []) →
  wp (with_mrpdu p t m) Q w.
Proof.
  intros Hp Hm. pose proof Hp as (q & Hq & Hd). unfold with_mrpdu, get_app. wp_step.
  exists q. split; [done|]. wp_step. exists d. split; [done|].
  apply wp_zoom. by rewrite (pdu_get_port _ _ _ d).
Qed.

Lemma wp_read_mrpdu p t d (Q : mrp_attribute_mrpdu → world C (mrp_ctx U) → Prop) w :
  port_pdu (w_st w) p t d → Q d w → wp (with_mrpdu p t (gets (λ d, d))) Q w.
Proof.
  intros Hp HQ. eapply wp_with_mrpdu; [done|]. wp_step. rewrite pdu_set_same by done. by destruct w.
Qed.

Lemma txd_refl p t d w : port_pdu (w_st w) p t d → txd p t d [] w w.
Proof.
  intros Hp. exists (upper (w_st w)). split; [|split; [done|by destruct (tx_enabled _ _)]].
  rewrite pdu_set_upper, pdu_set_same by done. by destruct (w_st w).
Qed.
Lemma txd_trans p t d1 d2 fs1 fs2 w w1 w2 :
  txd p t d1 fs1 w w1 → txd p t d2 fs2 w1 w2 → txd p t d2 (fs2 ++ fs1) w w2.
Proof.
  intros (u1 & E1 & R1 & F1) (u2 & E2 & R2 & F2). exists u2.
  assert (Hu : upper (w_st w1) = u1) by (by rewrite E1).
  rewrite Hu in *. split; [|split; [by etrans|]].
  - rewrite E2, E1. rewrite !pdu_set_upper. unfold over at 1 3, over_field. cbn.
    change (pdu_set p t d2 (pdu_set p t d1 (w_st w) <| upper := u1 |>) <| upper := u2 |> =
            pdu_set p t d2 (w_st w) <| upper := u2 |>).
    rewrite pdu_set_upper, pdu_set_twice. done.
  - rewrite F2, F1, (tx_enabled_law p (upper (w_st w)) u1) by done.
    destruct (tx_enabled _ _); [|done]. by rewrite map_app, <- app_assoc.
Qed.
Lemma txd_pdu p t d d' fs w w' : port_pdu (w_st w) p t d → txd p t d' fs w w' → port_pdu (w_st w') p t d'.
Proof. intros Hp (u & -> & _). by eapply port_pdu_set. Qed.
Lemma txd_port p t d fs w w' : tx_port p (upper (w_st w)) → txd p t d fs w w' → tx_port p (upper (w_st w')).
Proof. intros Hp (u & -> & R & _). cbn. by eapply tx_port_law. Qed.
Lemma txd_set p t d w : txd p t d [] w (World (pdu_set p t d (w_st w)) (w_clock w) (w_trace w)).
Proof.
  exists (upper (w_st w)). cbn. split; [|split; [done|by destruct (tx_enabled _ _)]].
  rewrite pdu_set_upper. by destruct (w_st w).
Qed.
Lemma txd_same_st p t d fs w w' ck tr :
  txd p t d fs w w' → frames tr = frames (w_trace w') → txd p t d fs w (World (w_st w') ck tr).
Proof. intros (u & E & R & F) Ht. exists u. split; [done|]. split; [done|]. cbn [w_trace]. by rewrite Ht. Qed.
End tx.

Section transmit.
Context {C U : Type} `{!Platform C, !MrpCalls C, !MrpOps C U, !MrpMemory, !MrpCallsLaws C, !MrpLaws C U}.
Implicit Types (w : world C (mrp_ctx U)) (c : mrp_ctx U).

(** The states in which the PDU is to be closed. *)
Definition pdu_ending (t : nat) (d : mrp_attribute_mrpdu) (vs : list mrp_vec) : Prop :=
  ∃ pre limit, pre_ok pre ∧ limit ≤ DEFAULT_NET_DATA_SIZE ∧
    ending_msg has_attribute_list_length (Z.of_nat t) (attribute_length t) pre vs limit d.

Lemma pdu_bytes_length has ty alen pre vs :
  len (mrp_pdu_bytes has ty alen pre vs) = len pre + hdr_size has + len (vecs_bytes vs) + 4.
Proof. unfold mrp_pdu_bytes. rewrite !length_app, !Nat2Z.inj_add, length_msg_header. cbn [length]. lia. Qed.

Lemma transmit_end_ending p t d vs w :
  port_pdu (w_st w) p t d → tx_port p (upper (w_st w)) → pdu_ending t d vs →
  wp (mrp_transmit_end p t) (λ _ w', ∃ d' f, txd p t d' [f] w w' ∧ pdu_idle d' ∧ frame_holds t f vs) w.
Proof.
  intros Hp Htx (pre & limit & Hpre & Hlim & Hend).
  pose proof Hend as [(rest & Hd & _) _ _ Hroom].
  unfold mrp_transmit_end. apply wp_bind, (wp_read_mrpdu p t d); [done|]. rewrite Hd.
  apply wp_bind. eapply wp_with_mrpdu; [done|].
  eapply wp_mono; [eapply mrp_pdu_close_spec; exact Hend|]. cbn.
  intros [] r (Hv & fr & Hfr & Hsent & _). set (w1 := World _ _ _).
  assert (Hp1 : port_pdu (w_st w1) p t (w_st r)) by (by eapply port_pdu_set).
  assert (Ht1 : txd p t (w_st r) [] w w1) by apply txd_set.
  apply wp_bind, (wp_read_mrpdu p t (w_st r)); [done|]. wp_step. exists fr. split; [done|].
  apply wp_bind. eapply wp_mono; [apply net_tx_law; by eapply txd_port|]. intros [] w2 (u & E2 & R2 & F2).
  destruct Hsent as (Hl & rest' & Hdata).
  rewrite Hl, Hdata, Nat2Z.id, take_app_length in F2.
  set (f := mrp_pdu_bytes _ _ _ _ _) in *.
  assert (Ht2 : txd p t (w_st r) [f] w1 w2).
  { exists u. split; [|split; [done|]].
    - rewrite E2, pdu_set_upper, pdu_set_same by done. done.
    - rewrite F2. by destruct (tx_enabled _ _). }
  pose proof (txd_trans _ _ _ _ _ _ _ _ _ Ht1 Ht2) as Ht.
  eapply wp_with_mrpdu; [by eapply txd_pdu|]. wp_step.
  eexists _, f. split; [|split].
  - eapply (txd_trans p t _ _ [f] [] w w2); [exact Ht|]. apply txd_set.
  - done.
  - exists pre. split; [done|]. split; [|done]. unfold f. rewrite pdu_bytes_length. lia.
Qed.

Lemma holds_ending t d vs v :
  pdu_holds t d (vs ++ [v]) → pdu_ending t d (vs ++ [v]).
Proof.
  intros [[_ E]|(pre & vs0 & v0 & limit & E & Hpre & Hm & Hl & Ho)]; [by destruct vs|].
  rewrite E. exists pre, limit. split; [done|]. split; [apply Hm|]. by apply open_ending.
Qed.

(** The pending PDU, if there is one, is sent. *)
Lemma transmit_end_spec p t d vs w :
  port_pdu (w_st w) p t d → tx_port p (upper (w_st w)) → pdu_holds t d vs →
  wp (mrp_transmit_end p t) (λ _ w', ∃ d' fs, txd p t d' fs w w' ∧ pdu_idle d' ∧
    match vs with [] => fs = [] | _ => ∃ f, fs = [f] ∧ frame_holds t f vs end) w.
Proof.
  intros Hp Htx Hh. destruct vs as [|v0 vs] using rev_ind.
  - destruct Hh as [[[Hd Hv] _]|(? & vs0 & ? & ? & E & _)]; [|by destruct vs0].
    unfold mrp_transmit_end. apply wp_bind, (wp_read_mrpdu p t d); [done|]. rewrite Hd. wp_step.
    exists d, []. split; [by apply txd_refl|]. done.
  - eapply wp_mono; [eapply transmit_end_ending; [done..|by apply holds_ending]|].
    intros [] w' (d' & f & Ht & Hi & Hf). exists d', [f]. split; [done|]. split; [done|].
    destruct vs; cbn; eauto.
Qed.

(** Room for a message and one event. *)
Lemma mtu_room t limit :
  mtu_ok t limit → hdr_size has_attribute_list_length = 2 ∨ hdr_size has_attribute_list_length = 4.
Proof. intros _. destruct has_attribute_list_length; cbn; auto. Qed.

(** A message has just been started: it has no vector yet. *)
Definition pdu_fresh (t : nat) (d : mrp_attribute_mrpdu) : Prop :=
  ∃ pre limit, pre_ok pre ∧ mtu_ok t limit ∧
    closed_msg has_attribute_list_length (Z.of_nat t) (attribute_length t) pre [] limit d.

Lemma mrp_pdu_begin_spec t d frame mtu ck tr :
  pdu_idle d → len frame = DEFAULT_NET_DATA_SIZE → mtu_ok t mtu →
  wp (mrp_pdu_begin frame mtu t) (λ rc r, rc = 0 ∧ pdu_fresh t (w_st r)) (World d ck tr).
Proof.
  intros [Hd Hv] Hl Hm. pose proof dst_mac_law as Hdst. destruct d as [d m v]; cbn in *; subst d.
  unfold DEFAULT_NET_DATA_SIZE in Hl.
  destruct (split_rest frame 6) as (f1 & r1 & -> & H1); [lia|]. rewrite length_app in Hl.
  destruct (split_rest r1 6) as (f2 & r2 & -> & H2); [lia|]. rewrite length_app in Hl.
  destruct (split_rest r2 2) as (f3 & r3 & -> & H3); [lia|]. rewrite length_app in Hl.
  destruct (split_rest r3 1) as (f4 & r4 & -> & H4); [lia|]. rewrite length_app in Hl.
  unfold mrp_pdu_begin. wp_step. unfold over, over_field; cbn.
  rewrite (take_ge dst_mac) by lia.
  eapply (wp_poke [] f1 (f2 ++ f3 ++ f4 ++ r4)); [done|done|lia|]. cbn [app w_clock w_trace]. wp_step.
  eapply (wp_poke (dst_mac ++ f2) f3 (f4 ++ r4)).
  { cbn [w_st]. by rewrite <- !app_assoc. }
  { rewrite length_app. lia. }
  { done. }
  wp_step. set (et := u16_bytes (htons (u16 ethertype))).
  eapply (wp_poke (dst_mac ++ f2 ++ et) f4 r4).
  { cbn [w_st]. by rewrite <- !app_assoc. }
  { rewrite !length_app. unfold et. rewrite length_u16_bytes. lia. }
  { done. }
  wp_step. unfold over, over_field; cbn.
  set (pre := dst_mac ++ f2 ++ et ++ [u8 proto_version]).
  assert (Hpl : length pre = 15%nat).
  { unfold pre. rewrite !length_app. unfold et. rewrite length_u16_bytes. cbn. lia. }
  assert (Hpre : pre_ok pre).
  { split; [done|]. unfold pre. split.
    - rewrite take_app_le by lia. by rewrite take_ge by lia.
    - rewrite app_assoc, drop_app_ge by (rewrite length_app; lia).
      rewrite length_app. replace (12 - _)%nat with 0%nat by lia. done. }
  replace 15 with (len pre) by (rewrite Hpl; done).
  eapply wp_mono.
  { eapply (mrp_msg_start_spec _ _ _ pre r4); cbn.
    - unfold pre. by rewrite <- !app_assoc.
    - done.
    - rewrite Hpl. destruct Hm as [_ Hm]. unfold DEFAULT_NET_DATA_SIZE in Hm. lia. }
  cbn. intros rc r Hr. rewrite (proj2 (Z.ltb_ge _ _)) in Hr.
  - destruct Hr as [-> Hc]. split; [done|]. exists pre, mtu. done.
  - destruct Hm as [Hm _]. rewrite Hpl. pose proof (attribute_length_law t).
    pose proof (event_bytes_len (MrpAttribute 0 (MrpApplicant MRP_STATE_VO MRP_ACTION_NONE)
      (MrpRegistrar MRP_STATE_MT MRP_ACTION_NONE soft_none) 0 []) 0). lia.
Qed.

Definition healthy : Prop := ∀ n p s, answer n (mrp_embed (MrpTxAlloc p s)) ≠ 0.

Lemma txd_calls p t d w k tr :
  port_pdu (w_st w) p t d → frames tr = frames (w_trace w) → txd p t d [] w (World (w_st w) k tr).
Proof. intros Hp Hf. eapply txd_same_st; [by apply txd_refl|done]. Qed.

Lemma txd_intro p t d w k tr :
  frames tr = frames (w_trace w) → txd p t d [] w (World (pdu_set p t d (w_st w)) k tr).
Proof. intros Hf. apply (txd_same_st _ _ _ _ _ _ k tr (txd_set p t d w)). done. Qed.

Lemma transmit_open_spec p t d vs w :
  platform_ok → port_pdu (w_st w) p t d → pdu_holds t d vs →
  wp (mrp_transmit_open p t) (λ go w', ∃ d', txd p t d' [] w w' ∧
    if go then (d' = d ∧ vs ≠ []) ∨ (vs = [] ∧ pdu_fresh t d')
    else ¬ healthy ∧ d' = d ∧ vs = []) w.
Proof.
  intros [Hmtu Hframe] Hp Hh. unfold mrp_transmit_open.
  apply wp_bind, (wp_read_mrpdu p t d); [done|].
  destruct Hh as [[[Hd Hv] ->]|(pre & vs0 & v & limit & -> & Hpre & Hm & Hl & Ho)].
  - rewrite Hd. wp_step. unfold call at 1. wp_step.
    destruct (_ =? 0) eqn:Ea.
    { wp_step. exists d. split; [apply txd_calls; [done|by rewrite frames_embed]|].
      split; [|done]. intros Hok. apply Z.eqb_eq in Ea. by apply Hok in Ea. }
    wp_step. unfold call. wp_step.
    eapply wp_with_mrpdu; [exact Hp|]. eapply wp_mono.
    { apply mrp_pdu_begin_spec; [done|apply Hframe|apply Hmtu]. }
    intros rc r (-> & Hfr). cbn. wp_step. exists (w_st r). split; [|by right].
    apply txd_intro. by rewrite !frames_embed.
  - destruct Ho as [(rest & Hd & _) _ _ _]. rewrite Hd. wp_step. exists d.
    split; [by apply txd_refl|]. left. split; [done|]. by destruct vs0.
Qed.

(** What a list of vectors says: leave-all events, and values with their
    events. *)
Inductive word := SayLeaveAll | SayValue (fv events : list Z).
Definition vec_says (v : mrp_vec) : list word :=
  (if v_lva v then [SayLeaveAll] else []) ++
  match v_events v with Some bs => [SayValue (v_fv v) bs] | None => [] end.
Definition says (vs : list mrp_vec) : list word := concat (vec_says <$> vs).

Lemma says_snoc vs v : says (vs ++ [v]) = says vs ++ vec_says v.
Proof. unfold says. rewrite fmap_app, concat_app. cbn. by rewrite app_nil_r. Qed.

(** The open vector of a PDU. *)
Definition pdu_open (t : nat) (d : mrp_attribute_mrpdu) (vs : list mrp_vec) (v : mrp_vec) (limit : Z) (pre : list Z) : Prop :=
  pre_ok pre ∧ mtu_ok t limit ∧ len (v_fv v) = attribute_length t ∧
  open_msg has_attribute_list_length (Z.of_nat t) (attribute_length t) pre vs v limit d.
Lemma open_holds t d vs v limit pre : pdu_open t d vs v limit pre → pdu_holds t d (vs ++ [v]).
Proof. intros (?&?&?&?). right. by exists pre, vs, v, limit. Qed.

Lemma transmit_vector_fresh p t d w :
  port_pdu (w_st w) p t d → pdu_fresh t d →
  wp (mrp_transmit_vector p t) (λ again w', again = false ∧ ∃ d' pre limit, txd p t d' [] w w' ∧
    pdu_open t d' [] (Vec false (replicate (Z.to_nat (attribute_length t)) 0) None) limit pre) w.
Proof.
  intros Hp (pre & limit & Hpre & Hm & Hc). pose proof Hc as [_ Hmsg _ _].
  pose proof (attribute_length_law t) as Ha. pose proof Hm as [Hm1 Hm2].
  pose proof (event_bytes_len (MrpAttribute 0 (MrpApplicant MRP_STATE_VO MRP_ACTION_NONE)
      (MrpRegistrar MRP_STATE_MT MRP_ACTION_NONE soft_none) 0 []) 0).
  assert (Hpl : len pre = 15) by (destruct Hpre as [-> _]; done).
  unfold mrp_transmit_vector. apply wp_bind. eapply wp_with_mrpdu; [done|]. wp_step.
  eapply wp_mono.
  { eapply (mrp_vector_start_room _ _ _ pre [] limit (attribute_length t) (World d 0 [])); [exact Hc|lia|].
    cbn. rewrite Hmsg. change (vecs_bytes []) with (@nil Z). cbn. rewrite Hpl. lia. }
  intros rc r (-> & Ho). cbn. wp_step. split; [done|]. eexists _, pre, limit.
  split; [apply txd_set|]. split; [done|]. split; [done|]. split; [|done].
  cbn. rewrite length_replicate. lia.
Qed.

(** The value, then its event, go into the open vector, which has no value yet. *)
Lemma first_value_step p t d vs v limit pre x w :
  port_pdu (w_st w) p t d → pdu_open t d vs v limit pre → v_events v = None →
  (attribute_value_length t ≤ length (attr_val x))%nat →
  wp (with_mrpdu p t (mrp_vector_first_value (attr_val x))) (λ _ w', ∃ d', txd p t d' [] w w' ∧
    pdu_open t d' vs (Vec (v_lva v) (take (Z.to_nat (attribute_length t)) (attr_val x)) None) limit pre) w.
Proof.
  intros Hp (Hpre & Hm & Hfl & Ho) Hev Hval. pose proof (attribute_length_law t) as Ha.
  eapply wp_with_mrpdu; [done|]. eapply wp_mono.
  { eapply mrp_vector_first_value_spec; [exact Ho|done|lia]. }
  intros [] r Ho1. cbn in Ho1. exists (w_st r). split; [apply txd_set|].
  replace (Z.to_nat (attribute_length t)) with (length (v_fv v)) by lia.
  split; [done|]. split; [done|]. split; [|done]. cbn. rewrite length_take. lia.
Qed.

Lemma add_event_step p t d vs v limit pre x e w :
  port_pdu (w_st w) p t d → pdu_open t d vs v limit pre → v_events v = None →
  wp (with_mrpdu p t (vector_add_event x e)) (λ rc w', ∃ d', txd p t d' [] w w' ∧
    if limit - 4 <? len pre + hdr_size has_attribute_list_length + len (vecs_bytes vs) + 2 + attribute_length t
                    + len (event_bytes x e)
    then rc = -1 ∧ d' = d else rc = 0 ∧ pdu_open t d' vs (add_events v (event_bytes x e)) limit pre) w.
Proof.
  intros Hp (Hpre & Hm & Hfl & Ho) Hev.
  eapply wp_with_mrpdu; [done|]. eapply wp_mono.
  { eapply vector_add_event_law; [exact Ho|done]. }
  rewrite length_vec_bytes, Hev. cbn [default length]. intros rc r Hr.
  replace (len pre + hdr_size has_attribute_list_length + len (vecs_bytes vs) + (2 + len (v_fv v) + Z.of_nat 0) + len (event_bytes x e))
    with (len pre + hdr_size has_attribute_list_length + len (vecs_bytes vs) + 2 + attribute_length t + len (event_bytes x e))
    in Hr by lia.
  exists (w_st r). split; [apply txd_set|]. destruct (_ <? _); destruct Hr as [-> Hr]; split; try done.
Qed.

(** The flushed frame and what is still under construction say what had been
    said, and [more]. *)
Definition says_more (p t : nat) (vs : list mrp_vec) (more : list word) w w' : Prop :=
  ∃ d' fs sent vs', txd p t d' fs w w' ∧ pdu_holds t d' vs' ∧
    ((fs = [] ∧ sent = []) ∨ ∃ f, fs = [f] ∧ frame_holds t f sent) ∧
    says sent ++ says vs' = says vs ++ more.

Definition value_word (t : nat) (x : mrp_attribute) (e : Z) : word :=
  SayValue (take (Z.to_nat (attribute_length t)) (attr_val x)) (event_bytes x e).

Lemma txd_attrs p t d fs w w' : txd p t d fs w w' → attrs (w_st w') = attrs (w_st w).
Proof. by intros (u & -> & _). Qed.
Lemma txd_app p t d fs w w' : txd p t d fs w w' →
  ∀ q, apps (w_st w) !! p = Some q →
  apps (w_st w') !! p = Some (q <| mrpdu ::= alter (λ _, d) t |>).
Proof.
  intros (u & -> & _) q Hq. unfold pdu_set, over, over_field; cbn. by rewrite list_lookup_alter_eq, Hq.
Qed.

Lemma open_room t limit pre x e :
  pre_ok pre → mtu_ok t limit →
  (limit - 4 <? len pre + hdr_size has_attribute_list_length + len (vecs_bytes []) + 2 + attribute_length t
                    + len (event_bytes x e)) = false.
Proof.
  intros [Hpl _] [Hm _]. apply Z.ltb_ge. change (vecs_bytes []) with (@nil Z). cbn [length].
  pose proof (event_bytes_len x e). lia.
Qed.

(** The value goes into an open vector without value. *)
Lemma transmit_value_empty p t d vs v limit pre x w :
  port_pdu (w_st w) p t d → pdu_open t d vs v limit pre → v_events v = None →
  (attribute_value_length t ≤ length (attr_val x))%nat →
  wp (mrp_transmit_value p t x) (λ again w', again = false ∧ ∃ d', txd p t d' [] w w' ∧
    pdu_open t d' vs (Vec (v_lva v) (take (Z.to_nat (attribute_length t)) (attr_val x)) None) limit pre) w.
Proof.
  intros Hp Ho Hev Hval. pose proof Hp as (q & Hq & _).
  pose proof Ho as (_ & _ & _ & [_ _ Hv _]). cbn in Hv.
  unfold mrp_transmit_value, get_app. wp_step. exists q. split; [done|].
  apply wp_bind, (wp_read_mrpdu p t d); [done|]. rewrite Hv. cbn [number_of_values].
  unfold vec_values. rewrite Hev. cbn [Z.eqb negb]. wp_step.
  eapply wp_mono; [by eapply first_value_step|]. intros [] w' (d' & Ht & Ho'). wp_step. eauto.
Qed.

Lemma transmit_new_idle fuel p t d a x e w :
  platform_ok → port_pdu (w_st w) p t d → pdu_idle d → attrs (w_st w) !! a = Some x →
  (attribute_value_length t ≤ length (attr_val x))%nat →
  wp (mrp_transmit_new (S fuel) p t (Some a) e false) (λ _ w',
    (∃ d', txd p t d' [] w w' ∧ (pdu_holds t d' [Vec false (take (Z.to_nat (attribute_length t)) (attr_val x)) (Some (event_bytes x e))]
         ∨ ¬ healthy ∧ d' = d))) w.
Proof.
  intros Hpl Hp Hi Ha Hval. cbn [mrp_transmit_new]. apply wp_bind.
  eapply wp_mono; [eapply transmit_open_spec; [done..|by left]|].
  intros go w1 (d1 & Ht1 & Hgo). destruct go; cbn [negb].
  2:{ wp_step. destruct Hgo as (Hh & -> & _). eauto. }
  destruct Hgo as [[_ []]|[_ Hfr]]; [done|].
  pose proof (txd_pdu _ _ _ _ _ _ _ Hp Ht1) as Hp1.
  apply wp_bind, (wp_read_mrpdu p t d1); [done|].
  pose proof Hfr as (pre0 & limit0 & _ & _ & [_ _ Hv _]). rewrite Hv. apply wp_bind.
  eapply wp_mono; [by eapply transmit_vector_fresh|].
  intros again w2 (-> & d2 & pre & limit & Ht2 & Ho2). cbn [when].
  pose proof (txd_pdu _ _ _ _ _ _ _ Hp1 Ht2) as Hp2.
  wp_step. unfold get_attr. wp_step. exists x. split; [by rewrite (txd_attrs _ _ _ _ _ _ Ht2), (txd_attrs _ _ _ _ _ _ Ht1)|].
  apply wp_bind. eapply wp_mono; [by eapply transmit_value_empty|].
  intros again w3 (-> & d3 & Ht3 & Ho3). cbn [v_lva] in Ho3.
  pose proof (txd_pdu _ _ _ _ _ _ _ Hp2 Ht3) as Hp3.
  apply wp_bind. eapply wp_mono; [by eapply add_event_step|].
  intros rc w4 (d4 & Ht4 & Hrc). pose proof Ho3 as (Hpre & Hm & _).
  rewrite open_room in Hrc by done. destruct Hrc as [-> Ho4]. cbn. wp_step.
  exists d4. split.
  - apply (txd_trans p t d3 d4 [] [] w w3); [|done]. apply (txd_trans p t d2 d3 [] [] w w2); [|done].
    by apply (txd_trans p t d1 d2 [] []) with w1.
  - left. by apply (open_holds t d4 [] _ limit pre).
Qed.

(** The message is full: it is sent, as far as it goes. *)
Lemma msg_error_flush p t d vs w :
  port_pdu (w_st w) p t d → tx_port p (upper (w_st w)) → pdu_ending t d vs →
  (∃ s m, msg_start (msg d) = Some s ∧ s ≠ msg_end (msg d) ∧ vec_start (vector d) = Some m ∧
     (vec_end (vector d) = Some m ∨ number_of_values (vector d) ≠ 0 ∨ m = msg_end (msg d))) →
  wp (mrp_msg_error p t) (λ _ w', ∃ d' f, txd p t d' [f] w w' ∧ pdu_idle d' ∧ frame_holds t f vs) w.
Proof.
  intros Hp Htx He (s & m & Hs & Hne & Hv & Hm). unfold mrp_msg_error.
  apply wp_bind, (wp_read_mrpdu p t d); [done|]. rewrite Hs, (proj2 (Z.eqb_neq _ _)) by done. rewrite Hv.
  destruct (decide (vec_end (vector d) = Some m)) as [|Hve]; [by eapply transmit_end_ending|].
  destruct (number_of_values (vector d) =? 0) eqn:En; cbn [when].
  2:{ wp_step. by eapply transmit_end_ending. }
  apply wp_bind. eapply wp_with_mrpdu; [done|]. apply set_msg_wp. cbn.
  assert (Hid : d <| msg ::= (λ mm, mm <| msg_end := m |>) |> = d).
  { destruct Hm as [|[Hm| ->]]; [done|by apply Z.eqb_eq in En|].
    destruct d as [? [] ?]; done. }
  rewrite Hid, pdu_set_same by done. destruct w as [st ck tr]. cbn in *. by eapply transmit_end_ending.
Qed.

Lemma open_ending' t d vs v limit pre : pdu_open t d vs v limit pre → pdu_ending t d (vs ++ [v]).
Proof.
  intros (Hpre & Hm & _ & Ho). exists pre, limit. split; [done|]. split; [apply Hm|]. by apply open_ending.
Qed.

Lemma hdr_size_pos has : 2 ≤ hdr_size has.
Proof. by destruct has. Qed.

(** The next vector, after [vs] have been closed. *)
Lemma transmit_vector_next p t d vs w pre limit :
  port_pdu (w_st w) p t d → tx_port p (upper (w_st w)) →
  pre_ok pre → mtu_ok t limit → vs ≠ [] →
  closed_msg has_attribute_list_length (Z.of_nat t) (attribute_length t) pre vs limit d →
  len pre + hdr_size has_attribute_list_length + len (vecs_bytes vs) ≤ limit - 4 →
  wp (mrp_transmit_vector p t) (λ again w', ∃ d',
    if again then ∃ f, txd p t d' [f] w w' ∧ pdu_idle d' ∧ frame_holds t f vs
    else txd p t d' [] w w' ∧
         pdu_open t d' vs (Vec false (replicate (Z.to_nat (attribute_length t)) 0) None) limit pre) w.
Proof.
  intros Hp Htx Hpre Hm Hne Hc Hroom. pose proof Hc as [(rest & Hd & Hr) Hmsg _ _].
  pose proof (attribute_length_law t) as Ha. pose proof Hpre as [Hpl _].
  unfold mrp_transmit_vector.
  assert (Hme : msg_end (msg d) = len pre + hdr_size has_attribute_list_length + len (vecs_bytes vs)) by (by rewrite Hmsg).
  assert (Hmm : msg_end_max (msg d) = limit - 2) by (by rewrite Hmsg).
  destruct (decide (msg_end (msg d) + 2 + attribute_length t ≤ msg_end_max (msg d) - 2)) as [Hfit|Hfull].
  - apply wp_bind. eapply wp_with_mrpdu; [done|]. wp_step.
    eapply wp_mono; [eapply (mrp_vector_start_room _ _ _ pre vs limit (attribute_length t) (World d 0 [])); [exact Hc|lia|exact Hfit]|].
    intros rc r (-> & Ho). cbn. wp_step. exists (w_st r). split; [apply txd_set|].
    split; [done|]. split; [done|]. split; [|done]. cbn. rewrite length_replicate. lia.
  - apply wp_bind. eapply wp_with_mrpdu; [done|]. wp_step.
    eapply wp_mono; [apply mrp_vector_start_full; cbn; lia|]. cbn.
    intros rc r (-> & Hd' & Hmsg' & Hvs & Hve). cbn.
    set (w1 := World _ _ _).
    assert (Hp1 : port_pdu (w_st w1) p t (w_st r)) by (by eapply port_pdu_set).
    apply wp_bind. eapply wp_mono.
    { eapply (msg_error_flush p t (w_st r) vs); [done|done| |].
      - exists pre, limit. split; [done|]. split; [apply Hm|]. split.
        + exists rest. rewrite Hd'. split; [done|lia].
        + rewrite Hmsg', Hmsg. eexists _, _. split; [done|]. by rewrite Hvs, Hme.
        + by rewrite Hve, Hme.
        + lia.
      - rewrite Hmsg', Hvs. exists (len pre), (msg_end (msg d)). rewrite Hmsg at 1. split; [done|].
        split; [rewrite Hme; pose proof (hdr_size_pos has_attribute_list_length); lia|].
        split; [done|]. by left. }
    intros [] w2 (d2 & f & Ht2 & Hi2 & Hf2). wp_step. exists d2, f.
    split; [|done]. by apply (txd_trans p t (w_st r) d2 [] [f] w w1); [apply txd_set|].
Qed.

(** The result of a transmission: what was under construction is flushed at
    most once, and the value is added unless the platform has no memory. *)
Definition transmitted (p t : nat) (vs : list mrp_vec) (more : list word) w w' : Prop :=
  ∃ d' fs sent vs', txd p t d' fs w w' ∧ pdu_holds t d' vs' ∧
    ((fs = [] ∧ sent = []) ∨ ∃ f, fs = [f] ∧ frame_holds t f sent) ∧
    (says sent ++ says vs' = says vs ++ more ∨ ¬ healthy ∧ says sent ++ says vs' = says vs).

(** The PDU is flushed and the value goes into a new one. *)
Lemma transmit_again fuel p t d a x e f sent vs w w0 :
  platform_ok → port_pdu (w_st w0) p t d → pdu_idle d → attrs (w_st w0) !! a = Some x →
  (attribute_value_length t ≤ length (attr_val x))%nat →
  txd p t d [f] w w0 → frame_holds t f sent → says sent = says vs →
  wp (mrp_transmit_new (S fuel) p t (Some a) e false) (λ _ w',
     transmitted p t vs [value_word t x e] w w') w0.
Proof.
  intros Hpl Hp Hi Ha Hval Ht Hf Hs. eapply wp_mono; [by eapply transmit_new_idle|].
  intros [] w' (d' & Ht' & Hd'). exists d', [f], sent.
  assert (Ht2 : txd p t d' [f] w w') by (by apply (txd_trans p t d d' [f] [] w w0)).
  destruct Hd' as [Hh|[Hn ->]].
  - eexists. split; [done|]. split; [exact Hh|]. split; [eauto|]. left. by rewrite Hs.
  - exists []. split; [done|]. split; [by left|]. split; [eauto|]. right. split; [done|]. by rewrite Hs, app_nil_r.
Qed.

(** An open vector has room for one value at most. *)
Lemma open_vec_state t d vs v limit pre :
  pdu_open t d vs v limit pre →
  ∃ s, vec_start (vector d) = Some s ∧ vec_end (vector d) ≠ Some s ∧ s = msg_end (msg d) ∧
    msg_start (msg d) = Some (len pre) ∧ len pre ≠ msg_end (msg d) ∧
    number_of_values (vector d) = vec_values v ∧ vec_values v = (match v_events v with Some _ => 1 | None => 0 end).
Proof.
  intros (Hpre & _ & _ & [_ Hm Hv _]). cbn in Hv. rewrite Hm, Hv. eexists. split; [reflexivity|].
  pose proof (length_vec_bytes v). pose proof (hdr_size_pos has_attribute_list_length).
  cbn. split_and!; try done.
  - intros [=]. lia.
  - lia.
Qed.

(** The value and its event after [transmit_vector] or in the open vector. *)
Lemma transmit_event fuel p t d a x e vs v limit pre w w0 :
  platform_ok → port_pdu (w_st w0) p t d → tx_port p (upper (w_st w0)) → pdu_open t d vs v limit pre →
  v_events v = None → v_fv v = take (Z.to_nat (attribute_length t)) (attr_val x) →
  attrs (w_st w0) !! a = Some x → (attribute_value_length t ≤ length (attr_val x))%nat →
  txd p t d [] w w0 →
  wp (let! rc := with_mrpdu p t (vector_add_event x e) in
      if rc <? 0 then mrp_msg_error p t;; mrp_transmit_new (S fuel) p t (Some a) e false
      else ret tt) (λ _ w', transmitted p t (vs ++ [v]) [value_word t x e] w w') w0.
Proof.
  intros Hpl Hp Htx Ho Hev Hfv Ha Hval Ht. apply wp_bind.
  eapply wp_mono; [by eapply add_event_step|]. intros rc w1 (d1 & Ht1 & Hrc).
  pose proof (txd_pdu _ _ _ _ _ _ _ Hp Ht1) as Hp1. pose proof (txd_port _ _ _ _ _ _ Htx Ht1) as Htx1.
  destruct (_ <? _); destruct Hrc as [-> Hd1]; cbn [Z.ltb Z.compare].
  - subst d1. destruct (open_vec_state _ _ _ _ _ _ Ho) as (s & Hs & Hse & Hsm & Hms & Hne & Hnv & _).
    apply wp_bind. eapply wp_mono.
    { eapply (msg_error_flush p t d (vs ++ [v])); [done|done|by eapply open_ending'|].
      exists (len pre), s. split; [done|]. split; [done|]. split; [done|]. by right; right. }
    intros [] w2 (d2 & f & Ht2 & Hi2 & Hf2).
    eapply (transmit_again fuel p t d2 a x e f (vs ++ [v]) (vs ++ [v]) w w2); try done.
    + by eapply txd_pdu.
    + by rewrite (txd_attrs _ _ _ _ _ _ Ht2), (txd_attrs _ _ _ _ _ _ Ht1).
    + apply (txd_trans p t d d2 [] [f] w w1); [|done]. by apply (txd_trans p t d d [] [] w w0).
  - cbn. wp_step. exists d1, [], [], (vs ++ [add_events v (event_bytes x e)]).
    split; [by apply (txd_trans p t d d1 [] [] w w0)|]. split; [by eapply open_holds|].
    split; [by left|]. left. rewrite !says_snoc. unfold vec_says. cbn. rewrite Hev, Hfv.
    rewrite app_nil_r. by rewrite <- app_assoc.
Qed.

Lemma transmit_new_open fuel p t d vs v limit pre a x e w :
  platform_ok → port_pdu (w_st w) p t d → tx_port p (upper (w_st w)) → pdu_open t d vs v limit pre →
  attrs (w_st w) !! a = Some x → (attribute_value_length t ≤ length (attr_val x))%nat →
  wp (mrp_transmit_new (S (S fuel)) p t (Some a) e false) (λ _ w',
     transmitted p t (vs ++ [v]) [value_word t x e] w w') w.
Proof.
  intros Hpl Hp Htx Ho Ha Hval. pose proof Ho as (Hpre & Hm & Hfl & Hop).
  destruct (open_vec_state _ _ _ _ _ _ Ho) as (s & Hs & Hse & Hsm & Hms & Hne & Hnv & Hnv').
  remember (S fuel) as fuel' eqn:Ef. cbn [mrp_transmit_new].
  apply wp_bind. unfold mrp_transmit_open. apply wp_bind, (wp_read_mrpdu p t d); [done|].
  pose proof Hop as [(rest & Hd & _) _ _ _]. rewrite Hd. wp_step. cbn [negb].
  apply wp_bind, (wp_read_mrpdu p t d); [done|]. rewrite Hs. wp_step. cbn [when]. wp_step.
  unfold get_attr. wp_step. exists x. split; [done|]. apply wp_bind.
  destruct (v_events v) as [bs|] eqn:Ev.
  2:{ eapply wp_mono; [by eapply transmit_value_empty|].
      intros again w1 (-> & d1 & Ht1 & Ho1). subst fuel'.
      assert (Hsay : transmitted p t (vs ++ [Vec (v_lva v) (take (Z.to_nat (attribute_length t)) (attr_val x)) None])
                       [value_word t x e] w = transmitted p t (vs ++ [v]) [value_word t x e] w).
      { unfold transmitted. rewrite !says_snoc. unfold vec_says. cbn. by rewrite Ev. }
      rewrite <- Hsay. eapply transmit_event; try done.
      - by eapply txd_pdu.
      - by eapply txd_port.
      - by rewrite (txd_attrs _ _ _ _ _ _ Ht1). }
  pose proof Hp as (q & Hq & _). unfold mrp_transmit_value, get_app. wp_step. exists q. split; [done|].
  apply wp_bind, (wp_read_mrpdu p t d); [done|]. rewrite Hnv, Hnv'. cbn [Z.eqb negb].
  destruct (_ && _).
  { apply wp_bind. eapply wp_mono; [by eapply transmit_end_ending; [..|by eapply open_ending']|].
    intros [] w1 (d1 & f & Ht1 & Hi1 & Hf1). wp_step. subst fuel'.
    eapply (transmit_again fuel p t d1 a x e f (vs ++ [v]) (vs ++ [v]) w w1); try done.
    - by eapply txd_pdu.
    - by rewrite (txd_attrs _ _ _ _ _ _ Ht1). }
  apply wp_bind. eapply wp_with_mrpdu; [done|]. eapply wp_mono; [by eapply mrp_vector_end_spec|].
  intros [] r Hc. set (w1 := World _ _ _).
  assert (Hp1 : port_pdu (w_st w1) p t (w_st r)) by (by eapply port_pdu_set).
  assert (Ht1 : txd p t (w_st r) [] w w1) by apply txd_set.
  apply wp_bind. eapply wp_mono.
  { eapply (transmit_vector_next p t (w_st r) (vs ++ [v]) w1 pre limit); try done.
    - by destruct vs.
    - pose proof Hop as [_ _ _ Hr]. rewrite vecs_bytes_snoc, length_app. lia. }
  intros again w2 (d2 & H2). destruct again.
  { wp_step. destruct H2 as (f & Ht2 & Hi2 & Hf2). subst fuel'.
    eapply (transmit_again fuel p t d2 a x e f (vs ++ [v]) (vs ++ [v]) w w2); try done.
    - by eapply txd_pdu.
    - by rewrite (txd_attrs _ _ _ _ _ _ Ht2).
    - by apply (txd_trans p t (w_st r) d2 [] [f] w w1). }
  destruct H2 as (Ht2 & Ho2).
  pose proof (txd_pdu _ _ _ _ _ _ _ Hp1 Ht2) as Hp2.
  apply wp_bind. eapply wp_mono; [by eapply first_value_step|]. intros [] w3 (d3 & Ht3 & Ho3). apply wp_ret. cbv beta match.
  cbn [v_lva] in Ho3.
  assert (Hsay : transmitted p t ((vs ++ [v]) ++ [Vec false (take (Z.to_nat (attribute_length t)) (attr_val x)) None])
                   [value_word t x e] w = transmitted p t (vs ++ [v]) [value_word t x e] w).
  { unfold transmitted. rewrite (says_snoc (vs ++ [v])). unfold vec_says. cbn. by rewrite app_nil_r. }
  subst fuel'. rewrite <- Hsay. eapply transmit_event; try done.
  - by eapply txd_pdu.
  - eapply txd_port; [|exact Ht3]. by eapply (txd_port _ _ _ _ w1 w2).
  - by rewrite (txd_attrs _ _ _ _ _ _ Ht3), (txd_attrs _ _ _ _ _ _ Ht2).
  - apply (txd_trans p t d2 d3 [] [] w w2); [|done]. by apply (txd_trans p t (w_st r) d2 [] [] w w1).
Qed.

(** [mrp_transmit_action] for an attribute. *)
Lemma transmit_action_spec p t d vs a x e w :
  platform_ok → port_pdu (w_st w) p t d → tx_port p (upper (w_st w)) → pdu_holds t d vs →
  attrs (w_st w) !! a = Some x → (attribute_value_length t ≤ length (attr_val x))%nat →
  wp (mrp_transmit_action p t (Some a) e false) (λ _ w',
     transmitted p t vs [value_word t x e] w w') w.
Proof.
  intros Hpl Hp Htx Hh Ha Hval. unfold mrp_transmit_action.
  destruct Hh as [[Hi ->]|(pre & vs0 & v & limit & -> & Hpre & Hm & Hl & Ho)].
  - eapply wp_mono; [by eapply transmit_new_idle|]. intros [] w' (d' & Ht & Hd').
    destruct Hd' as [Hh|[Hn ->]].
    + eexists _, [], [], _. split; [done|]. split; [exact Hh|]. split; [by left|]. by left.
    + exists d, [], [], []. split; [done|]. split; [by left|]. split; [by left|]. by right.
  - eapply wp_mono; [by eapply (transmit_new_open 1)|]. done.
Qed.

(** [mrp_transmit_action] for a leave-all. *)
Lemma transmit_leaveall_spec p t d vs w :
  platform_ok → port_pdu (w_st w) p t d → pdu_holds t d vs →
  wp (mrp_transmit_action p t None 0 true) (λ _ w', ∃ d' vs', txd p t d' [] w w' ∧ pdu_holds t d' vs' ∧
     (vs = [] → says vs' = [SayLeaveAll] ∨ ¬ healthy ∧ vs' = [])) w.
Proof.
  intros Hpl Hp Hh. unfold mrp_transmit_action. cbn [mrp_transmit_new].
  apply wp_bind. eapply wp_mono; [by eapply transmit_open_spec|].
  intros go w1 (d1 & Ht1 & Hgo). destruct go; cbn [negb].
  2:{ wp_step. destruct Hgo as (Hn & -> & ->). exists d, []. split; [done|].
      split; [done|]. intros _. by right. }
  pose proof (txd_pdu _ _ _ _ _ _ _ Hp Ht1) as Hp1.
  apply wp_bind, (wp_read_mrpdu p t d1); [done|].
  assert (Hfin : ∀ d2 vs2 v2 limit pre w2, txd p t d2 [] w w2 → pdu_open t d2 vs2 v2 limit pre →
     port_pdu (w_st w2) p t d2 → (vs = [] → vs2 = [] ∧ v_events v2 = None) →
     wp (when true (with_mrpdu p t (mrp_vector_leaveall_event MRP_LVA_EVENT));; ret tt)
       (λ _ w', ∃ d' vs', txd p t d' [] w w' ∧ pdu_holds t d' vs' ∧
         (vs = [] → says vs' = [SayLeaveAll] ∨ ¬ healthy ∧ vs' = [])) w2).
  { intros d2 vs2 v2 limit pre w2 Ht2 (Hpre & Hm & Hl & Ho) Hp2 Hnil. cbn [when].
    apply wp_bind. eapply wp_with_mrpdu; [done|]. eapply wp_mono; [by eapply mrp_vector_leaveall_spec|].
    intros [] r Hr. wp_step. exists (w_st r), (vs2 ++ [Vec true (v_fv v2) (v_events v2)]).
    split; [apply (txd_trans p t d2 _ [] [] w w2); [done|apply txd_set]|]. split.
    - right. by exists pre, vs2, (Vec true (v_fv v2) (v_events v2)), limit.
    - intros Hvs. destruct (Hnil Hvs) as [-> Hev]. left. unfold says, vec_says. cbn. by rewrite Hev. }
  destruct Hgo as [[-> Hne]|[-> Hfr]].
  - destruct Hh as [[_ ?]|(pre & vs0 & v & limit & -> & Hpre & Hm & Hl & Ho)]; [done|].
    assert (Hop : pdu_open t d vs0 v limit pre) by done.
    destruct (open_vec_state _ _ _ _ _ _ Hop) as (s & Hs & _). rewrite Hs.
    apply wp_bind, wp_ret. cbv beta match. eapply (Hfin d vs0 v limit pre w1); [done..|]. by destruct vs0.
  - pose proof Hfr as (pre0 & limit0 & _ & _ & [_ _ Hv _]). rewrite Hv. apply wp_bind.
    eapply wp_mono; [by eapply transmit_vector_fresh|].
    intros again w2 (-> & d2 & pre & limit & Ht2 & Ho2).
    cbv beta match. eapply (Hfin d2 [] _ limit pre w2); [|exact Ho2|by eapply txd_pdu|done].
    by apply (txd_trans p t d1 d2 [] [] w w1).
Qed.
End transmit.
