(* ===== verification/MrpSpec.v ===== *)
(** * MRP: the attributes of an application

    The invariant of the applications and their attributes, and what each
    operation of Mrp.v does to them. *)

From S2P Require Import Prelude Timer MrpSm MrpPdu Mrp MrpTx.

Section spec.
Context {C U : Type} `{!Platform C, !MrpCalls C, !MrpOps C U, !MrpMemory, !MrpCallsLaws C, !MrpLaws C U}.
Implicit Types (w : world C (mrp_ctx U)) (c : mrp_ctx U).

(** The timers of an attribute can be created. *)
Definition timers_ok : Prop := ∀ n, 0 ≤ answer n (mrp_embed MrpTimerCreate).
(** Fresh memory holds some applicant and registrar state of the right type. *)

(** ** Invariant *)

Record app_ok c (p : nat) (q : mrp_application) : Prop := {
  ao_full : is_full (participant_type q) = true;
  ao_length : length (attributes q) = MRP_MAX_ATTR_TYPE ∧ length (attributes_ordered q) = MRP_MAX_ATTR_TYPE ∧
              length (mrpdu q) = MRP_MAX_ATTR_TYPE;
  ao_nodup : ∀ t, NoDup (attr_list p t c);
  ao_perm : ∀ t, ordered_list p t c ≡ₚ attr_list p t c;
  ao_attr : ∀ t a, a ∈ attr_list p t c →
      ∃ x, attrs c !! a = Some x ∧ attr_app x = p ∧ attr_type x = t;
  ao_pdu : ∀ t d, mrpdu q !! t = Some d → pdu_ok t d;
  ao_join : enabled q = true → st_created (join q) = true;
  ao_tx : tx_port p (upper c);
  ao_timeout : ∃ ms, leave_timeout c !! p = Some ms ∧ ms ≠ 0;
}.

Definition is_byte (z : Z) : Prop := 0 ≤ z < 256.

(** What concerns an attribute alone. *)
Record attr_wf (x : mrp_attribute) : Prop := {
  wf_type : (min_attr_type ≤ attr_type x ≤ max_attr_type)%nat;
  wf_val : length (attr_val x) = attribute_value_length (attr_type x);
  wf_bytes : Forall is_byte (attr_val x);
  wf_app_state : applicant_state (app_state (applicant x)) = true;
  wf_reg_state : registrar_state (reg_state (registrar x)) = true;
  wf_created : st_created (leave (registrar x)) = true;
  wf_leave : reg_state (registrar x) = MRP_STATE_LV → st_running (leave (registrar x)) = true;
}.

Definition needs (x : mrp_attribute) : bool := needs_tx (app_state (applicant x)).

(** [E]: the attributes whose transmission opportunity is being served. *)
Record mrp_inv (E : nat → Prop) c : Prop := {
  mi_app : ∀ p q, apps c !! p = Some q → attributes q ≠ [] → app_ok c p q;
  mi_enabled : ∀ p q, apps c !! p = Some q → enabled q = true → attributes q ≠ [];
  mi_wf : ∀ a x, attrs c !! a = Some x → attr_wf x;
  mi_in : ∀ a x, attrs c !! a = Some x → a ∈ attr_list (attr_app x) (attr_type x) c ∧
      ∃ q, apps c !! attr_app x = Some q ∧ enabled q = true ∧
           (needs x = true → ¬ E a → st_running (join q) = true);
  mi_unique : ∀ a b x y, attrs c !! a = Some x → attrs c !! b = Some y →
      attr_app x = attr_app y → attr_type x = attr_type y → attr_val x = attr_val y → a = b;
}.
Definition mrp_ok c : Prop := mrp_inv (λ _, False) c.

(** ** What an operation on the attributes of port [p] leaves alone *)

Record same_app (q q' : mrp_application) : Prop := {
  sa_type : type q' = type q;
  sa_ptype : participant_type q' = participant_type q;
  sa_leaveall : leaveall q' = leaveall q;
  sa_periodic : periodic q' = periodic q;
  sa_rx : num_rx_pkts q' = num_rx_pkts q;
  sa_enabled : enabled q' = enabled q;
  sa_join : st_created (join q') = st_created (join q);
  sa_running : st_running (join q) = true → st_running (join q') = true;
}.

Record only_port (p : nat) c c' : Prop := {
  op_length : length (apps c') = length (apps c);
  op_others : ∀ r, r ≠ p → apps c' !! r = apps c !! r;
  op_this : ∀ q, apps c !! p = Some q → ∃ q', apps c' !! p = Some q' ∧ same_app q q';
  op_timeout : leave_timeout c' = leave_timeout c;
  op_rx : rx_data c' = rx_data c;
  op_upper : tx_rel (upper c) (upper c');
}.

#[export] Instance same_app_preorder : PreOrder same_app.
Proof.
  split; [by split|]. intros a b d [] []. split; try congruence. auto.
Qed.
#[export] Instance only_port_preorder p : PreOrder (only_port p).
Proof.
  split.
  - intros c. split; try done. intros q ->. exists q. done.
  - intros a b d [N1 O1 T1 L1 R1 U1] [N2 O2 T2 L2 R2 U2]. split; try congruence.
    + intros r Hr. by rewrite O2, O1.
    + intros q Hq. destruct (T1 q Hq) as (q1 & H1 & S1). destruct (T2 q1 H1) as (q2 & H2 & S2).
      exists q2. split; [done|]. by etrans.
    + by etrans.
Qed.

Lemma only_port_other p c c' r t :
  only_port p c c' → r ≠ p → attr_list r t c' = attr_list r t c ∧ ordered_list r t c' = ordered_list r t c.
Proof. intros Ho Hr. unfold attr_list, ordered_list. by rewrite (op_others _ _ _ Ho). Qed.

(** The identity of an attribute. *)
Definition same_id (x y : mrp_attribute) : Prop :=
  attr_app y = attr_app x ∧ attr_type y = attr_type x ∧ attr_val y = attr_val x.

(** The list lengths and the PDUs of port [p]. *)
Record lists_ok (p : nat) c : Prop := {
  lo_length : ∀ q, apps c !! p = Some q → attributes q ≠ [] →
     length (attributes q) = MRP_MAX_ATTR_TYPE ∧ length (attributes_ordered q) = MRP_MAX_ATTR_TYPE ∧
     length (mrpdu q) = MRP_MAX_ATTR_TYPE;
  lo_nodup : ∀ t, NoDup (attr_list p t c);
  lo_perm : ∀ t, ordered_list p t c ≡ₚ attr_list p t c;
  lo_pdu : ∀ q t d, apps c !! p = Some q → mrpdu q !! t = Some d → pdu_ok t d;
}.

(** The invariant is preserved by an update of the attributes of one port. *)
Lemma mrp_inv_step E E' p c c' :
  mrp_inv E c → (∀ b x, attrs c !! b = Some x → attr_app x ≠ p → E b → E' b) → only_port p c c' → lists_ok p c' →
  (∀ q q', apps c !! p = Some q → apps c' !! p = Some q' → attributes q' ≠ [] ↔ attributes q ≠ []) →
  (∀ t a, a ∈ attr_list p t c' → ∃ x, attrs c' !! a = Some x ∧ attr_app x = p ∧ attr_type x = t) →
  (∀ a x, attrs c' !! a = Some x → attr_app x = p →
     attr_wf x ∧ a ∈ attr_list p (attr_type x) c' ∧
     (∃ q, apps c' !! p = Some q ∧ enabled q = true ∧ (needs x = true → ¬ E' a → st_running (join q) = true))) →
  (∀ a x, attr_app x ≠ p → attrs c' !! a = Some x ↔ attrs c !! a = Some x) →
  (∀ a b x y, attrs c' !! a = Some x → attrs c' !! b = Some y → attr_app x = p → attr_app y = p →
     attr_type x = attr_type y → attr_val x = attr_val y → a = b) →
  mrp_inv E' c'.
Proof.
  intros Hi HE Ho Hlo Hinit Hlist Hattr Hframe Hun.
  assert (Hback : ∀ q', apps c' !! p = Some q' → ∃ q, apps c !! p = Some q ∧ same_app q q').
  { intros q' Hq'. destruct (apps c !! p) as [q|] eqn:Hq.
    - destruct (op_this _ _ _ Ho q Hq) as (q1 & H1 & S1). assert (q1 = q') as -> by congruence. eauto.
    - apply lookup_ge_None in Hq. apply lookup_lt_Some in Hq'. pose proof (op_length _ _ _ Ho). lia. }
  split.
  - intros r q' Hq' Hne. destruct (decide (r = p)) as [->|Hr].
    + destruct (Hback q' Hq') as (q & Hq & Hs). apply (Hinit q q' Hq Hq') in Hne as Hne0.
      pose proof (mi_app _ _ Hi p q Hq Hne0) as Ha. split.
      * rewrite (sa_ptype _ _ Hs). apply Ha.
      * by apply (lo_length _ _ Hlo).
      * apply (lo_nodup _ _ Hlo).
      * apply (lo_perm _ _ Hlo).
      * apply Hlist.
      * intros t d. by apply (lo_pdu _ _ Hlo).
      * rewrite (sa_enabled _ _ Hs), (sa_join _ _ Hs). apply Ha.
      * eapply tx_port_law; [apply Ho|apply Ha].
      * rewrite (op_timeout _ _ _ Ho). apply Ha.
    + rewrite (op_others _ _ _ Ho) in Hq' by done. pose proof (mi_app _ _ Hi r q' Hq' Hne) as Ha.
      split; try apply Ha.
      * intros t. rewrite (proj1 (only_port_other p c c' r t Ho Hr)). apply Ha.
      * intros t. destruct (only_port_other p c c' r t Ho Hr) as [-> ->]. apply Ha.
      * intros t a Hin. rewrite (proj1 (only_port_other p c c' r t Ho Hr)) in Hin.
        destruct (ao_attr _ _ _ Ha t a Hin) as (x & Hx & Hxp & Hxt). exists x. split; [|done].
        apply Hframe; [congruence|done].
      * eapply tx_port_law; [apply Ho|apply Ha].
      * rewrite (op_timeout _ _ _ Ho). apply Ha.
  - intros r q' Hq' Hen. destruct (decide (r = p)) as [->|Hr].
    + destruct (Hback q' Hq') as (q & Hq & Hs). apply (Hinit q q' Hq Hq').
      apply (mi_enabled _ _ Hi p q Hq). by rewrite <- (sa_enabled _ _ Hs).
    + rewrite (op_others _ _ _ Ho) in Hq' by done. by apply (mi_enabled _ _ Hi r q').
  - intros a x Hx. destruct (decide (attr_app x = p)) as [Hp|Hp]; [by apply (Hattr a x)|].
    apply Hframe in Hx; [|done]. by apply (mi_wf _ _ Hi a).
  - intros a x Hx. destruct (decide (attr_app x = p)) as [Hp|Hp].
    + destruct (Hattr a x Hx Hp) as (_ & Hin & Hq). by rewrite Hp.
    + pose proof Hx as Hx0. apply Hframe in Hx; [|done].
      destruct (mi_in _ _ Hi a x Hx) as (Hin & q & Hq & Hen & Hn).
      split; [by rewrite (proj1 (only_port_other p c c' _ _ Ho Hp))|].
      exists q. rewrite (op_others _ _ _ Ho) by done. split; [done|]. split; [done|].
      intros Hx1 Hx2. apply Hn; [done|]. intros Hx3. apply Hx2. by eapply HE.
  - intros a b x y Hx Hy E1 E2 E3. destruct (decide (attr_app x = p)) as [Hp|Hp].
    + apply (Hun a b x y); try done; congruence.
    + apply Hframe in Hx; [|done]. apply Hframe in Hy; [|congruence].
      by apply (mi_unique _ _ Hi a b x y).
Qed.

(** ** Transmission *)

Definition sent_of (t : nat) (sent : list (nat * list mrp_vec)) : list mrp_vec :=
  concat (omap (λ s, if decide (s.1 = t) then Some s.2 else None) (reverse sent)).

(** When the platform has memory, port [p] says [more t] about the attributes
    of each type [t]: the vectors of the frames handed over ([fs], newest
    first) and of the PDUs under construction continue those there were. *)
Definition speaks (p : nat) (more : nat → list word) w w' : Prop :=
  ∀ hold : nat → list mrp_vec, (∀ t d, port_pdu (w_st w) p t d → pdu_holds t d (hold t)) →
  ∃ (hold' : nat → list mrp_vec) (fs : list (list Z)) (sent : list (nat * list mrp_vec)),
    (∀ t d, port_pdu (w_st w') p t d → pdu_holds t d (hold' t)) ∧
    Forall2 (λ f s, frame_holds s.1 f s.2) fs sent ∧
    frames (w_trace w') = (if tx_enabled p (upper (w_st w)) then map (pair p) fs else []) ++ frames (w_trace w) ∧
    ∀ t, says (sent_of t sent) ++ says (hold' t) = says (hold t) ++ more t.

Lemma says_app vs1 vs2 : says (vs1 ++ vs2) = says vs1 ++ says vs2.
Proof. unfold says. by rewrite fmap_app, concat_app. Qed.

Lemma sent_of_app t s1 s2 : sent_of t (s2 ++ s1) = sent_of t s1 ++ sent_of t s2.
Proof. unfold sent_of. by rewrite reverse_app, omap_app, concat_app. Qed.

Lemma speaks_trans p m1 m2 w w1 w2 :
  tx_enabled p (upper (w_st w1)) = tx_enabled p (upper (w_st w)) →
  speaks p m1 w w1 → speaks p m2 w1 w2 → speaks p (λ t, m1 t ++ m2 t) w w2.
Proof.
  intros He S1 S2 hold Hh. destruct (S1 hold Hh) as (h1 & fs1 & s1 & Hh1 & F1 & T1 & E1).
  destruct (S2 h1 Hh1) as (h2 & fs2 & s2 & Hh2 & F2 & T2 & E2).
  exists h2, (fs2 ++ fs1), (s2 ++ s1). split; [done|]. split; [by apply Forall2_app|]. split.
  - rewrite T2, T1, He. destruct (tx_enabled p (upper (w_st w))); [by rewrite map_app, <- app_assoc|done].
  - intros t. rewrite sent_of_app, says_app, <- app_assoc, E2, app_assoc, E1. by rewrite app_assoc.
Qed.

(** Nothing said: the PDUs and the frames are as they were. *)
Lemma speaks_silent p w w' :
  (∀ t d, port_pdu (w_st w') p t d → port_pdu (w_st w) p t d) → frames (w_trace w') = frames (w_trace w) →
  speaks p (λ _, []) w w'.
Proof.
  intros Hp Hf hold Hh. exists hold, [], []. split; [eauto|]. split; [constructor|].
  split; [by destruct (tx_enabled p (upper (w_st w)))|]. intros t. cbn. by rewrite app_nil_r.
Qed.

Lemma speaks_ext p m1 m2 w w' : (∀ t, m1 t = m2 t) → speaks p m1 w w' → speaks p m2 w w'.
Proof.
  intros Hm S hold Hh. destruct (S hold Hh) as (h1 & fs & sent & ?&?&?&He).
  exists h1, fs, sent. split_and!; try done. intros t. by rewrite He, Hm.
Qed.

(** The PDUs and lists of port [p] after a transmission. *)
Lemma txd_only_port p t d fs w w' : txd p t d fs w w' → only_port p (w_st w) (w_st w').
Proof.
  intros (u & -> & R & _). split.
  - unfold pdu_set, over, over_field; cbn. by rewrite length_alter.
  - intros r Hr. unfold pdu_set, over, over_field; cbn. by rewrite list_lookup_alter_ne.
  - intros q Hq. eexists. unfold pdu_set, over, over_field; cbn.
    rewrite list_lookup_alter_eq, Hq. split; [done|]. by split.
  - done.
  - done.
  - done.
Qed.

Lemma txd_lists p t d fs w w' r t' :
  txd p t d fs w w' → attr_list r t' (w_st w') = attr_list r t' (w_st w) ∧
                      ordered_list r t' (w_st w') = ordered_list r t' (w_st w).
Proof.
  intros (u & -> & _). unfold attr_list, ordered_list, pdu_set, over, over_field; cbn.
  rewrite list_lookup_alter. destruct (decide (p = r)) as [->|]; [|done].
  by destruct (apps (w_st w) !! r).
Qed.

Lemma txd_other_pdu p t d fs w w' t' d1 :
  txd p t d fs w w' → t' ≠ t → port_pdu (w_st w') p t' d1 → port_pdu (w_st w) p t' d1.
Proof.
  intros (u & -> & _) Ht (q & Hq & Hd). unfold pdu_set, over, over_field in Hq; cbn in Hq.
  rewrite list_lookup_alter_eq in Hq. destruct (apps (w_st w) !! p) as [q0|] eqn:E; [|done].
  injection Hq as <-. cbn in Hd. rewrite list_lookup_alter_ne in Hd by done. by exists q0.
Qed.

Lemma port_pdu_fun c p t d d' : port_pdu c p t d → port_pdu c p t d' → d = d'.
Proof. intros (q & Hq & Hd) (q' & Hq' & Hd'). congruence. Qed.

Lemma transmitted_speaks p t more w w' d0 :
  healthy → port_pdu (w_st w) p t d0 → (∀ vs, pdu_holds t d0 vs → transmitted p t vs more w w') →
  speaks p (λ t', if decide (t' = t) then more else []) w w'.
Proof.
  intros Hok Hp Ht hold Hh. destruct (Ht (hold t) (Hh t d0 Hp)) as (d' & fs & sent & vs' & Htx & Hd' & Hfs & Hsay).
  destruct Hsay as [Hsay|[Hn _]]; [|done].
  exists (λ t', if decide (t' = t) then vs' else hold t'), fs, (match fs with [] => [] | _ => [(t, sent)] end).
  split; [|split; [|split]].
  - intros t' d1 Hd1. case_decide as Dt.
    + subst t'. by rewrite (port_pdu_fun _ _ _ _ _ Hd1 (txd_pdu _ _ _ _ _ _ _ Hp Htx)).
    + apply Hh. by eapply txd_other_pdu.
  - destruct Hfs as [[-> _]|(f & -> & Hf)]; repeat constructor. done.
  - destruct Htx as (u & _ & _ & ->). done.
  - intros t'. destruct (decide (t' = t)) as [->|Dt].
    + destruct Hfs as [[-> ->]|(f & -> & _)]; [exact Hsay|].
      unfold sent_of. cbn. rewrite decide_True by done. cbn. by rewrite app_nil_r.
    + rewrite app_nil_r. destruct Hfs as [[-> _]|(f & -> & _)]; unfold sent_of; cbn; [done|].
      by rewrite decide_False by done.
Qed.

(** ** Primitive updates *)

Definition upd_app (p : nat) (f : mrp_application → mrp_application) c : mrp_ctx U := c <| apps ::= alter f p |>.
Definition upd_attr (a : nat) (x : mrp_attribute) c : mrp_ctx U := c <| attrs ::= <[a := x]> |>.

Lemma wp_call cl (Q : Z → world C (mrp_ctx U) → Prop) w :
  Q (answer (w_clock w) (mrp_embed cl))
    (World (w_st w) (S (w_clock w)) ((mrp_embed cl, answer (w_clock w) (mrp_embed cl)) :: w_trace w)) →
  wp (call cl) Q w.
Proof. done. Qed.

Lemma wp_get_attr a x (Q : mrp_attribute → world C (mrp_ctx U) → Prop) w :
  attrs (w_st w) !! a = Some x → Q x w → wp (get_attr a) Q w.
Proof. intros Hx HQ. unfold get_attr. wp_step. eauto. Qed.
Lemma wp_get_app p q (Q : mrp_application → world C (mrp_ctx U) → Prop) w :
  apps (w_st w) !! p = Some q → Q q w → wp (get_app p) Q w.
Proof. intros Hx HQ. unfold get_app. wp_step. eauto. Qed.
Lemma wp_set_app p f (Q : unit → world C (mrp_ctx U) → Prop) w :
  Q tt (World (upd_app p f (w_st w)) (w_clock w) (w_trace w)) → wp (set_app p f) Q w.
Proof. done. Qed.
Lemma wp_set_attr a f x (Q : unit → world C (mrp_ctx U) → Prop) w :
  attrs (w_st w) !! a = Some x →
  Q tt (World (upd_attr a (f x) (w_st w)) (w_clock w) (w_trace w)) → wp (set_attr a f) Q w.
Proof.
  intros Hx HQ. unfold set_attr. wp_step. unfold over, over_field; cbn. by rewrite (alter_as_insert _ _ _ x).
Qed.
Lemma wp_check_type p t q (Q : unit → world C (mrp_ctx U) → Prop) w :
  apps (w_st w) !! p = Some q → is_Some (attributes q !! t) → is_Some (attributes_ordered q !! t) →
  Q tt w → wp (check_type p t) Q w.
Proof.
  intros Hq [l Hl] [l' Hl'] HQ. unfold check_type. apply wp_bind. eapply wp_get_app; [done|]. wp_step.
  exists l. split; [done|]. wp_step. exists l'. split; [done|]. wp_step. done.
Qed.

Lemma upd_app_lookup p f c q : apps c !! p = Some q → apps (upd_app p f c) !! p = Some (f q).
Proof. intros Hq. unfold upd_app, over, over_field; cbn. by rewrite list_lookup_alter_eq, Hq. Qed.
Lemma upd_app_twice p f g c : upd_app p f (upd_app p g c) = upd_app p (f ∘ g) c.
Proof. unfold upd_app, over, over_field; cbn. by rewrite list_alter_twice. Qed.
Lemma upd_attr_twice a x y c : upd_attr a x (upd_attr a y c) = upd_attr a x c.
Proof. unfold upd_attr, over, over_field; cbn. by rewrite insert_insert_eq. Qed.
Lemma upd_app_id p c q f : apps c !! p = Some q → f q = q → upd_app p f c = c.
Proof.
  intros Hq Hf. unfold upd_app, over, over_field. destruct c as [ap ? ? ? ?]; cbn in *. f_equal.
  apply list_eq. intros i. rewrite list_lookup_alter. destruct (decide (p = i)) as [<-|]; [|done].
  rewrite Hq. cbn. by rewrite Hf.
Qed.
Lemma upd_app_ext p c q f g : apps c !! p = Some q → f q = g q → upd_app p f c = upd_app p g c.
Proof.
  intros Hq Hf. unfold upd_app, over, over_field. destruct c as [ap ? ? ? ?]; cbn in *. f_equal.
  apply list_eq. intros i. rewrite !list_lookup_alter. destruct (decide (p = i)) as [<-|]; [|done].
  rewrite Hq. cbn. by rewrite Hf.
Qed.
Lemma upd_attr_lookup a x c : attrs (upd_attr a x c) !! a = Some x.
Proof. unfold upd_attr, over, over_field; cbn. by rewrite lookup_insert_eq. Qed.

Definition start_join (q : mrp_application) : mrp_application :=
  q <| join ::= soft_start MRP_JOINTIMER_POINT_TO_POINT_VAL |>.

Lemma start_join_running q : st_running (join q) = true → start_join q = q.
Proof.
  intros Hr. destruct q as [? ? ? ? ? ? [cr ru] ? ? ?]; cbn in *; subst ru.
  unfold start_join, over, over_field, soft_start; cbn. by destruct cr.
Qed.

Lemma transmit_request_exec p q (Q : unit → world C (mrp_ctx U) → Prop) w :
  apps (w_st w) !! p = Some q →
  (∀ ck tr, frames tr = frames (w_trace w) → Q tt (World (upd_app p start_join (w_st w)) ck tr)) →
  wp (mrp_transmit_request p) Q w.
Proof.
  intros Hq HQ. unfold mrp_transmit_request. apply wp_bind. eapply wp_get_app; [done|].
  destruct (st_running (join q)) eqn:Er; cbn [negb when].
  - wp_step. specialize (HQ (w_clock w) (w_trace w) eq_refl).
    rewrite (upd_app_id p (w_st w) q) in HQ by (by rewrite ?start_join_running). by destruct w.
  - apply wp_bind, wp_call. apply wp_set_app. cbn. apply HQ. by rewrite frames_embed.
Qed.

(** The applicant of attribute [a] takes the state [s] and the action [act];
    [moved]: the state has changed; [req]: a transmission is requested. *)
Definition set_applicant (s : mrp_protocol_state_t) (act : mrp_protocol_action_t) (x : mrp_attribute) : mrp_attribute :=
  x <| applicant := MrpApplicant s act |>.
Definition move_last (a t : nat) (q : mrp_application) : mrp_application :=
  q <| attributes_ordered ::= alter (λ l, list_remove a l ++ [a]) t |>.
Definition stepped_app (a t : nat) (moved req : bool) (q : mrp_application) : mrp_application :=
  let q := if req then start_join q else q in
  if moved then move_last a t q else q.

Lemma attr_type_ok E c a x q :
  mrp_inv E c → attrs c !! a = Some x → apps c !! attr_app x = Some q →
  app_ok c (attr_app x) q ∧ enabled q = true ∧ is_Some (attributes q !! attr_type x) ∧
  is_Some (attributes_ordered q !! attr_type x) ∧ is_Some (mrpdu q !! attr_type x) ∧
  (attr_type x < MRP_MAX_ATTR_TYPE)%nat.
Proof.
  intros Hi Hx Hq. destruct (mi_in _ _ Hi a x Hx) as (_ & q' & Hq' & Hen & _).
  assert (q' = q) as -> by congruence.
  pose proof (mi_app _ _ Hi _ q Hq (mi_enabled _ _ Hi _ q Hq Hen)) as Ha.
  pose proof (wf_type _ (mi_wf _ _ Hi a x Hx)) as Ht. pose proof attr_types_law.
  destruct (ao_length _ _ _ Ha) as (L1 & L2 & L3).
  split; [done|]. split; [done|]. split_and!; try (apply lookup_lt_is_Some_2); lia.
Qed.

Lemma applicant_sm_exec a x q ev (Q : unit → world C (mrp_ctx U) → Prop) w :
  attrs (w_st w) !! a = Some x → apps (w_st w) !! attr_app x = Some q →
  is_Some (attributes q !! attr_type x) → is_Some (attributes_ordered q !! attr_type x) →
  (let old := app_state (applicant x) in
   let '(s, act) := applicant_next (participant_type q) (reg_state (registrar x)) ev old in
   let moved := bool_decide (s ≠ old) in
   ∀ ck tr, frames tr = frames (w_trace w) →
     wp (mrp_applicant_action_handler (attr_app x) a) Q
       (World (upd_app (attr_app x) (stepped_app a (attr_type x) moved (moved && needs_tx s))
                (upd_attr a (set_applicant s act x) (w_st w))) ck tr)) →
  wp (mrp_applicant_sm a ev) Q w.
Proof.
  intros Hx Hq Hat Hao' HQ. unfold mrp_applicant_sm. apply wp_bind. eapply wp_get_attr; [done|].
  apply wp_bind. eapply wp_get_app; [done|].
  cbv zeta in HQ. destruct (applicant_next _ _ _ _) as [s act] eqn:En.

  set (moved := bool_decide (s ≠ app_state (applicant x))) in *.
  assert (Hreq : wp (when (moved && needs_tx s) (mrp_transmit_request (attr_app x)))
     (λ _ w', frames (w_trace w') = frames (w_trace w) ∧
        w_st w' = upd_app (attr_app x) (if moved && needs_tx s then start_join else id) (w_st w)) w).
  { destruct (moved && needs_tx s); cbn [when].
    - eapply transmit_request_exec; [done|]. intros ck tr Hf. by split.
    - wp_step. split; [done|]. by erewrite upd_app_id. }
  apply wp_bind. eapply wp_mono; [exact Hreq|]. clear Hreq. intros [] w1 (Hf1 & E1).
  destruct w1 as [st1 ck1 tr1]; cbn in Hf1, E1. subst st1.
  set (f := if moved && needs_tx s then start_join else id) in *.
  apply wp_bind. destruct moved eqn:Em; cbn [when andb] in *.
  - apply wp_bind. eapply (wp_set_attr _ _ x); [done|].
    unfold set_ordered. apply wp_bind. eapply wp_check_type.
    { cbn. by apply upd_app_lookup. }
    { unfold f. by destruct (needs_tx s). }
    { unfold f. by destruct (needs_tx s). }
    apply wp_set_app. apply wp_bind. eapply wp_set_attr; [by apply lookup_insert_eq|].
    match goal with |- wp _ _ (World ?st _ _) =>
      replace st with (upd_app (attr_app x) (stepped_app a (attr_type x) true (needs_tx s))
                (upd_attr a (set_applicant s act x) (w_st w))) end.
    { apply HQ. done. }
    unfold upd_app, upd_attr, over, over_field; cbn. rewrite insert_insert_eq, list_alter_twice.
    f_equal. unfold f, stepped_app. by destruct (needs_tx s).
  - wp_step. eapply (wp_set_attr _ _ x); [done|].
    match goal with |- wp _ _ (World ?st _ _) =>
      replace st with (upd_app (attr_app x) (stepped_app a (attr_type x) false false)
                (upd_attr a (set_applicant s act x) (w_st w))) end.
    { apply HQ. done. }
    unfold upd_app, upd_attr, over, over_field; cbn. f_equal.
    unfold set_applicant, over, over_field.
    assert (s = app_state (applicant x)) as ->.
    { unfold moved in Em. apply bool_decide_eq_false in Em. by destruct (decide (s = app_state (applicant x))). }
    by destruct x as [? [? ?] ? ? ?].
Qed.

Lemma upd_app_other p f c r : r ≠ p → apps (upd_app p f c) !! r = apps c !! r.
Proof. intros. unfold upd_app, over, over_field; cbn. by rewrite list_lookup_alter_ne. Qed.

Lemma upd_only_port p f c q a y :
  apps c !! p = Some q → same_app q (f q) → only_port p c (upd_app p f (upd_attr a y c)).
Proof.
  intros Hq Hs. split; try done.
  - unfold upd_app, over, over_field; cbn. by rewrite length_alter.
  - intros r Hr. by rewrite upd_app_other.
  - intros q' Hq'. assert (q' = q) as -> by congruence. exists (f q). split; [|done]. by apply upd_app_lookup.
Qed.

(** An update of one attribute that keeps its identity, with an update of its
    application that keeps the attributes. *)
Lemma inv_update E E' a x y f c q :
  mrp_inv E c → attrs c !! a = Some x → apps c !! attr_app x = Some q → same_id x y → attr_wf y →
  same_app q (f q) → attributes (f q) = attributes q → mrpdu (f q) = mrpdu q →
  length (attributes_ordered (f q)) = length (attributes_ordered q) →
  (∀ t, default [] (attributes_ordered (f q) !! t) ≡ₚ default [] (attributes_ordered q !! t)) →
  (needs y = true → ¬ E' a → st_running (join (f q)) = true) →
  (∀ b, b ≠ a → E b → E' b) →
  mrp_inv E' (upd_app (attr_app x) f (upd_attr a y c)).
Proof.
  intros Hi Hx Hq (Iapp & Ity & Ival) Hwf Hs Hat Hpdu Hlen Hperm Hneeds HE.
  set (p := attr_app x) in *. set (c' := upd_app p f (upd_attr a y c)).
  destruct (attr_type_ok _ _ _ _ _ Hi Hx Hq) as (Hao & Hen & _). fold p in Hao.
  assert (Hq' : apps c' !! p = Some (f q)) by (by apply upd_app_lookup).
  assert (Hl : ∀ t, attr_list p t c' = attr_list p t c) by (intros t; unfold attr_list; by rewrite Hq', Hq, Hat).
  assert (Ho : ∀ t, ordered_list p t c' ≡ₚ ordered_list p t c)
    by (intros t; unfold ordered_list; by rewrite Hq', Hq).
  assert (Hattrs : attrs c' = <[a := y]> (attrs c)) by done.
  eapply (mrp_inv_step E E' p c); [done| |by eapply upd_only_port|..].
  - intros b z Hz Hzp Hb. apply HE; [|done]. intros ->. rewrite Hx in Hz. injection Hz as <-. by apply Hzp.
  - split.
    + intros q1 Hq1 _. assert (q1 = f q) as -> by congruence. rewrite Hat, Hpdu, Hlen. apply Hao.
    + intros t. rewrite Hl. apply Hao.
    + intros t. rewrite Hl, Ho. apply Hao.
    + intros q1 t d Hq1. assert (q1 = f q) as -> by congruence. rewrite Hpdu. apply (ao_pdu _ _ _ Hao).
  - intros q1 q2 Hq1 Hq2. assert (q1 = q) as -> by congruence. assert (q2 = f q) as -> by congruence. by rewrite Hat.
  - intros t b. rewrite Hl. intros Hb. destruct (ao_attr _ _ _ Hao t b Hb) as (z & Hz & Hzp & Hzt).
    rewrite Hattrs. destruct (decide (b = a)) as [->|Hne].
    + rewrite Hx in Hz. injection Hz as <-. exists y. rewrite lookup_insert_eq. split; [done|]. split; [done|by rewrite Ity].
    + exists z. rewrite lookup_insert_ne by done. done.
  - intros b z. rewrite Hattrs, Hl. destruct (decide (b = a)) as [->|Hne].
    + rewrite lookup_insert_eq. intros [= <-] _. split; [done|].
      split; [rewrite Ity; apply (mi_in _ _ Hi a x Hx)|]. exists (f q). split; [done|].
      split; [rewrite (sa_enabled _ _ Hs); done|done].
    + rewrite lookup_insert_ne by done. intros Hz Hzp. split; [by apply (mi_wf _ _ Hi b)|].
      destruct (mi_in _ _ Hi b z Hz) as (Hin & q1 & Hq1 & Hen1 & Hn). rewrite Hzp in *.
      split; [done|]. assert (q1 = q) as -> by congruence. exists (f q). split; [done|].
      split; [rewrite (sa_enabled _ _ Hs); done|]. intros Hnz Hb. apply (sa_running _ _ Hs), Hn; [done|].
      intros HEb. by apply Hb, HE.
  - intros b z Hz. rewrite Hattrs. destruct (decide (b = a)) as [->|Hne].
    + rewrite lookup_insert_eq, Hx. split; intros [= <-]; exfalso; apply Hz; first [exact Iapp|reflexivity].
    + by rewrite lookup_insert_ne.
  - assert (Hback : ∀ b z, attrs c' !! b = Some z → ∃ z0, attrs c !! b = Some z0 ∧ same_id z0 z).
    { intros b z. rewrite Hattrs. destruct (decide (b = a)) as [->|Hne].
      - rewrite lookup_insert_eq. intros [= <-]. exists x. done.
      - rewrite lookup_insert_ne by done. intros Hz. by exists z. }
    intros b1 b2 z1 z2 Hz1 Hz2 Hp1 Hp2 Et Ev.
    destruct (Hback _ _ Hz1) as (y1 & Hy1 & A1 & T1 & V1). destruct (Hback _ _ Hz2) as (y2 & Hy2 & A2 & T2 & V2).
    apply (mi_unique _ _ Hi b1 b2 y1 y2); try done; congruence.
Qed.

Lemma inv_txd E p t d0 d fs w w' :
  mrp_inv E (w_st w) → port_pdu (w_st w) p t d0 → txd p t d fs w w' → pdu_ok t d → mrp_inv E (w_st w').
Proof.
  intros Hi (q & Hq & Hd0) Ht Hd. pose proof (txd_only_port _ _ _ _ _ _ Ht) as Ho.
  assert (Hq' := txd_app _ _ _ _ _ _ Ht q Hq).
  assert (Ha := txd_attrs _ _ _ _ _ _ Ht).
  assert (Hl := λ t', txd_lists _ _ _ _ _ _ p t' Ht).
  destruct (decide (attributes q = [])) as [Hz|Hz].
  { assert (Hnone : ∀ t', attr_list p t' (w_st w) = []).
    { intros t'. unfold attr_list. by rewrite Hq, Hz. }
    assert (Hno : ∀ a x, attrs (w_st w) !! a = Some x → attr_app x ≠ p).
    { intros a x Hx Hp. destruct (mi_in _ _ Hi a x Hx) as [Hin _]. rewrite Hp, Hnone in Hin. by apply elem_of_nil in Hin. }
    split.
    - intros r q1 Hq1 Hne. destruct (decide (r = p)) as [->|Hr].
      + rewrite Hq' in Hq1. injection Hq1 as <-. done.
      + rewrite (op_others _ _ _ Ho) in Hq1 by done. pose proof (mi_app _ _ Hi r q1 Hq1 Hne) as Hao.
        split; try apply Hao.
        * intros t'. rewrite (proj1 (txd_lists _ _ _ _ _ _ r t' Ht)). apply Hao.
        * intros t'. destruct (txd_lists _ _ _ _ _ _ r t' Ht) as [-> ->]. apply Hao.
        * intros t' a. rewrite (proj1 (txd_lists _ _ _ _ _ _ r t' Ht)), Ha. apply Hao.
        * eapply tx_port_law; [apply Ho|apply Hao].
        * rewrite (op_timeout _ _ _ Ho). apply Hao.
    - intros r q1 Hq1 Hen. destruct (decide (r = p)) as [->|Hr].
      + rewrite Hq' in Hq1. injection Hq1 as <-. by apply (mi_enabled _ _ Hi p q).
      + rewrite (op_others _ _ _ Ho) in Hq1 by done. by apply (mi_enabled _ _ Hi r).
    - rewrite Ha. apply Hi.
    - intros a x. rewrite Ha. intros Hx. rewrite (proj1 (txd_lists _ _ _ _ _ _ _ _ Ht)).
      rewrite (op_others _ _ _ Ho) by (by eapply Hno). by apply (mi_in _ _ Hi).
    - rewrite Ha. apply Hi. }
  pose proof (mi_app _ _ Hi p q Hq Hz) as Hao.
  eapply (mrp_inv_step E E p (w_st w)); [done|done|done|..].
  - split.
    + intros q1 Hq1 _. rewrite Hq' in Hq1. injection Hq1 as <-. cbn. rewrite length_alter. apply Hao.
    + intros t'. rewrite (proj1 (Hl t')). apply Hao.
    + intros t'. destruct (Hl t') as [-> ->]. apply Hao.
    + intros q1 t' d1 Hq1. rewrite Hq' in Hq1. injection Hq1 as <-. cbn.
      destruct (decide (t' = t)) as [->|Hne].
      * rewrite list_lookup_alter_eq, Hd0. by intros [= <-].
      * rewrite list_lookup_alter_ne by done. apply Hao.
  - intros q1 q2 Hq1 Hq2. rewrite Hq' in Hq2. injection Hq2 as <-. assert (q1 = q) as -> by congruence. done.
  - intros t' a. rewrite (proj1 (Hl t')), Ha. apply Hao.
  - intros a x. rewrite Ha. intros Hx Hp. split; [by apply (mi_wf _ _ Hi a)|].
    destruct (mi_in _ _ Hi a x Hx) as (Hin & q1 & Hq1 & Hen & Hn). rewrite Hp in *.
    rewrite (proj1 (Hl _)). split; [done|]. assert (q1 = q) as -> by congruence.
    eexists. split; [exact Hq'|]. done.
  - by rewrite Ha.
  - rewrite Ha. intros a b x y Hx Hy Ep Eq. apply (mi_unique _ _ Hi a b x y Hx Hy). congruence.
Qed.

(** The effect of one step of the applicant of attribute [a]: it becomes [x'],
    moves to the end of the ordered list if its state has changed, and says
    [more]; everything else of the attributes is untouched. *)
Record stepped (E : nat → Prop) (a : nat) (x x' : mrp_attribute) (moved : bool) (more : list word) w w' : Prop := {
  sp_inv : mrp_inv E (w_st w');
  sp_attrs : attrs (w_st w') = <[a := x']> (attrs (w_st w));
  sp_only : only_port (attr_app x) (w_st w) (w_st w');
  sp_list : ∀ t, attr_list (attr_app x) t (w_st w') = attr_list (attr_app x) t (w_st w);
  sp_ordered : ∀ t, ordered_list (attr_app x) t (w_st w') =
     if moved && bool_decide (t = attr_type x)
     then list_remove a (ordered_list (attr_app x) t (w_st w)) ++ [a]
     else ordered_list (attr_app x) t (w_st w);
  sp_speaks : healthy → speaks (attr_app x) (λ t, if decide (t = attr_type x) then more else []) w w';
  sp_quiet : more = [] → frames (w_trace w') = frames (w_trace w) ∧
     ∀ t d, port_pdu (w_st w') (attr_app x) t d → port_pdu (w_st w) (attr_app x) t d;
}.

(** What the applicant says on an event. *)
Definition applicant_says (pt : Z) (ev : mrp_protocol_event_t) (x : mrp_attribute) : list word :=
  let '(s, act) := applicant_next pt (reg_state (registrar x)) ev (app_state (applicant x)) in
  let e := mrp_action2event pt act (reg_state (registrar x)) in
  if e <? 0 then [] else [value_word (attr_type x) (set_applicant s act x) e].

Lemma applicant_next_state pt reg ev s :
  is_full pt = true → applicant_state s = true → applicant_state (fst (applicant_next pt reg ev s)) = true.
Proof.
  intros Hf Hs. unfold applicant_next. rewrite Hf. 
  destruct ev, s; try discriminate Hs; cbn; unfold applicant_rjoinin, applicant_tx;
    try destruct (is_point_to_point pt); try destruct (decide (reg = MRP_STATE_IN)); done.
Qed.

Lemma port_pdu_upd p t d f c a y q :
  apps c !! p = Some q → mrpdu (f q) = mrpdu q →
  port_pdu (upd_app p f (upd_attr a y c)) p t d ↔ port_pdu c p t d.
Proof.
  intros Hq Hm. unfold port_pdu. rewrite (upd_app_lookup p f (upd_attr a y c) q) by done. rewrite Hq. split.
  - intros (q1 & [= <-] & Hd). rewrite Hm in Hd. eauto.
  - intros (q1 & [= <-] & Hd). eexists. split; [done|]. by rewrite Hm.
Qed.

Lemma stepped_app_same a t moved req q :
  same_app q (stepped_app a t moved req q) ∧ attributes (stepped_app a t moved req q) = attributes q ∧
  mrpdu (stepped_app a t moved req q) = mrpdu q.
Proof.
  destruct q as [? ? ? ? ? ? [cr ru] ? ? ?]. unfold stepped_app.
  destruct moved, req, cr, ru; (split; [|done]); split; done.
Qed.

Lemma applicant_sm_spec E E' a x q ev w :
  platform_ok → mrp_inv E (w_st w) → attrs (w_st w) !! a = Some x → apps (w_st w) !! attr_app x = Some q →
  (∀ b, b ≠ a → E b → E' b) →
  let '(s, act) := applicant_next (participant_type q) (reg_state (registrar x)) ev (app_state (applicant x)) in
  (needs_tx s = true → ¬ E' a → s ≠ app_state (applicant x) ∨ ¬ E a) →
  wp (mrp_applicant_sm a ev) (λ _ w', stepped E' a x (set_applicant s act x)
        (bool_decide (s ≠ app_state (applicant x))) (applicant_says (participant_type q) ev x) w w') w.
Proof.
  intros Hpl Hi Hx Hq HE.
  pose proof (attr_type_ok _ _ _ _ _ Hi Hx Hq) as (Hao & Hen & [l Hat] & [lo Hato] & [d0 Hd0] & Hty).
  pose proof (mi_wf _ _ Hi a x Hx) as Hwf.
  pose proof (applicant_next_state (participant_type q) (reg_state (registrar x)) ev (app_state (applicant x))
                (ao_full _ _ _ Hao) (wf_app_state _ Hwf)) as Hst.
  destruct (applicant_next _ _ _ _) as [s act] eqn:En. cbn in Hst. intros Hneeds.
  eapply applicant_sm_exec; [done|done|by eexists|by eexists|]. cbv zeta. rewrite En. intros ck tr Hf.
  set (p := attr_app x) in *. set (old := app_state (applicant x)) in *.
  set (moved := bool_decide (s ≠ old)). set (f := stepped_app a (attr_type x) moved (moved && needs_tx s)).
  set (x' := set_applicant s act x). set (c3 := upd_app p f (upd_attr a x' (w_st w))).
  pose proof (stepped_app_same a (attr_type x) moved (moved && needs_tx s) q) as (Hsa & Hfa & Hfm).
  fold f in Hsa, Hfa, Hfm.
  assert (Ha0 : a ∈ attr_list p (attr_type x) (w_st w)) by apply (mi_in _ _ Hi a x Hx).
  assert (Hordl : ∀ t, default [] (attributes_ordered (f q) !! t) =
     if moved && bool_decide (t = attr_type x)
     then list_remove a (default [] (attributes_ordered q !! t)) ++ [a] else default [] (attributes_ordered q !! t)).
  { intros t. unfold f, stepped_app.
    assert (Hj : ∀ b : bool, attributes_ordered (if b then start_join q else q) = attributes_ordered q) by by intros [].
    destruct moved; cbn [andb]; [|done]. unfold move_last, over, over_field; cbn [attributes_ordered].
    rewrite Hj. destruct (decide (t = attr_type x)) as [->|Hne].
    - rewrite bool_decide_eq_true_2 by done. by rewrite list_lookup_alter_eq, Hato.
    - rewrite bool_decide_eq_false_2 by done. by rewrite list_lookup_alter_ne. }
  assert (Hwf' : attr_wf x') by (by split; first [exact Hst|apply Hwf]).
  assert (Hinv3 : mrp_inv E' c3).
  { eapply (inv_update E E' a x x' f (w_st w) q); try done.
    - unfold f, stepped_app. by destruct moved, (needs_tx s); cbn; rewrite ?length_alter.
    - intros t. rewrite Hordl. destruct (moved && bool_decide (t = attr_type x)) eqn:Em; [|done].
      apply andb_true_iff in Em as [_ ->%bool_decide_eq_true].
      assert (Hperm : ordered_list p (attr_type x) (w_st w) ≡ₚ attr_list p (attr_type x) (w_st w)) by apply Hao.
      unfold ordered_list in Hperm. rewrite Hq, Hato in *. cbn in *.
      assert (Hin : a ∈ lo) by (by rewrite Hperm).
      assert (Hnd : NoDup lo) by (rewrite Hperm; apply Hao).
      apply list_elem_of_split in Hin as (l1 & l2 & ->).
      apply list.NoDup_app in Hnd as (_ & Hd & [Hn2 _]%list.NoDup_cons).
      rewrite list_remove_mid; [|set_solver..]. rewrite <- app_assoc.
      apply Permutation_app_head. by rewrite Permutation_app_comm.
    - unfold needs. cbn. intros Hn HE'. destruct (Hneeds Hn HE') as [Hc|Hc].
      + unfold f, stepped_app, moved. rewrite bool_decide_eq_true_2 by done. cbn. rewrite Hn.
        pose proof (ao_join _ _ _ Hao Hen) as Hcr. unfold start_join, move_last, over, over_field; cbn.
        unfold soft_start. by rewrite Hcr.
      + destruct (decide (s = old)) as [E1|E1].
        * apply (sa_running _ _ Hsa). destruct (mi_in _ _ Hi a x Hx) as (_ & q1 & Hq1 & _ & Hr1). fold p in Hq1.
          assert (q1 = q) as -> by congruence. apply Hr1; [|done]. unfold needs. fold old. by rewrite <- E1.
        * unfold f, stepped_app, moved. rewrite bool_decide_eq_true_2 by done. cbn. rewrite Hn.
          pose proof (ao_join _ _ _ Hao Hen) as Hcr. unfold start_join, move_last, over, over_field; cbn.
          unfold soft_start. by rewrite Hcr. }
  assert (Hq3 : apps c3 !! p = Some (f q)) by (by apply upd_app_lookup).
  assert (Hl3 : ∀ t, attr_list p t c3 = attr_list p t (w_st w)).
  { intros t. unfold attr_list. by rewrite Hq3, Hq, Hfa. }
  assert (Ho3 : ∀ t, ordered_list p t c3 = if moved && bool_decide (t = attr_type x)
     then list_remove a (ordered_list p t (w_st w)) ++ [a] else ordered_list p t (w_st w)).
  { intros t. unfold ordered_list. by rewrite Hq3, Hq, Hordl. }
  assert (Hon3 : only_port p (w_st w) c3) by (by eapply upd_only_port).
  assert (Ha3 : attrs c3 !! a = Some x') by apply upd_attr_lookup.
  assert (Hpd : ∀ t d, port_pdu c3 p t d ↔ port_pdu (w_st w) p t d) by (intros; by apply port_pdu_upd with q).
  set (e := mrp_action2event (participant_type q) act (reg_state (registrar x))).
  assert (Hsays : applicant_says (participant_type q) ev x = if e <? 0 then [] else [value_word (attr_type x) x' e]).
  { unfold applicant_says. fold old. by rewrite En. }
  rewrite Hsays. unfold mrp_applicant_action_handler.
  apply wp_bind. eapply wp_get_attr; [done|]. apply wp_bind. eapply wp_get_app; [done|].
  rewrite (sa_ptype _ _ Hsa). change (app_action (applicant x')) with act.
  change (reg_state (registrar x')) with (reg_state (registrar x)). fold e.
  destruct (e <? 0) eqn:Ee.
  - wp_step. split; try done.
    + intros _. eapply speaks_ext; [|apply speaks_silent; [|done]].
      * intros t. by case_decide.
      * intros t d. apply Hpd.
    + intros _. split; [done|]. intros t d. apply Hpd.
  - assert (Hp3 : port_pdu c3 p (attr_type x) d0) by (apply Hpd; by exists q).
    assert (Htx : tx_port p (upper c3)) by apply Hao.
    destruct (ao_pdu _ _ _ Hao (attr_type x) d0 Hd0) as [vs0 Hvs0].
    assert (Hvl : (attribute_value_length (attr_type x) ≤ length (attr_val x'))%nat).
    { cbn. rewrite (wf_val _ Hwf). done. }
    eapply wp_mono.
    { apply (wp_forall (pdu_holds (attr_type x) d0)); [eauto|]. intros vs Hvs.
      eapply (transmit_action_spec p (attr_type x) d0 vs a x' e (World c3 ck tr)); done. }
    intros [] w' Hall. destruct (Hall vs0 Hvs0) as (d' & fs & sent & vs' & Htxd & Hd' & _ & _).
    assert (Hon' : only_port p c3 (w_st w')) by (by eapply (txd_only_port _ _ _ _ (World c3 ck tr))).
    split.
    + eapply (inv_txd E' p (attr_type x) d0 d' fs (World c3 ck tr)); [done..|]. by eexists.
    + by rewrite (txd_attrs _ _ _ _ _ _ Htxd).
    + fold p. by etrans.
    + intros t. fold p. destruct (txd_lists _ _ _ _ _ _ p t Htxd) as [-> _]. cbn. apply Hl3.
    + intros t. fold p. destruct (txd_lists _ _ _ _ _ _ p t Htxd) as [_ ->]. cbn. apply Ho3.
    + intros Hok. fold p.
      assert (Hsp : speaks p (λ t', if decide (t' = attr_type x) then [value_word (attr_type x) x' e] else []) (World c3 ck tr) w')
        by (by eapply transmitted_speaks).
      intros hold Hh. destruct (Hsp hold) as (h' & fs' & s' & H1 & H2 & H3 & H4).
      { intros t d Hd. apply Hh, Hpd, Hd. }
      exists h', fs', s'. split; [done|]. split; [done|]. split; [|exact H4].
      cbn in H3. by rewrite H3, Hf.
    + done.
Qed.

(** ** Registrar *)

Definition set_registrar (s : mrp_protocol_state_t) (act : mrp_protocol_action_t) (cmd : option leave_timer_cmd)
    (ms : Z) (x : mrp_attribute) : mrp_attribute :=
  x <| registrar ::= λ r, MrpRegistrar s act
         match cmd with
         | Some LeaveStart => soft_start ms (leave r)
         | Some LeaveStop => soft_stop (leave r)
         | None => leave r
         end |>.

(** The indication of a registrar action. *)
Definition indicate `{!MrpInd C U} (p a : nat) (act : mrp_protocol_action_t) : M C (mrp_ctx U) unit :=
  match act with
  | MRP_ACTION_NEW => mad_join_indication p a true
  | MRP_ACTION_JOIN => mad_join_indication p a false
  | MRP_ACTION_LV => mad_leave_indication p a
  | _ => ret tt
  end.

Lemma upd_attr_id a x c : attrs c !! a = Some x → upd_attr a x c = c.
Proof. intros Hx. unfold upd_attr, over, over_field. destruct c; cbn in *. by rewrite insert_id. Qed.

Lemma registrar_sm_exec `{!MrpInd C U} a x q ms ev (Q : unit → world C (mrp_ctx U) → Prop) w :
  attrs (w_st w) !! a = Some x → apps (w_st w) !! attr_app x = Some q →
  leave_timeout (w_st w) !! attr_app x = Some ms →
  (let '(s, act, cmd) := registrar_next (participant_type q) ev (reg_state (registrar x)) in
   ∀ ck tr, frames tr = frames (w_trace w) →
     wp (indicate (attr_app x) a act) Q (World (upd_attr a (set_registrar s act cmd ms x) (w_st w)) ck tr)) →
  wp (mrp_registrar_sm a ev) Q w.
Proof.
  intros Hx Hq Hms HQ. unfold mrp_registrar_sm. apply wp_bind. eapply wp_get_attr; [done|].
  apply wp_bind. eapply wp_get_app; [done|].
  destruct (registrar_next _ _ _) as [[s act] cmd] eqn:En.
  assert (Htail : ∀ y ck tr, frames tr = frames (w_trace w) →
     set_registrar s act cmd ms x = y <| registrar ::= λ r, r <| reg_state := s |> <| reg_action := act |> |> →
     wp (set_attr a (λ x, x <| registrar ::= λ r, r <| reg_state := s |> <| reg_action := act |> |>);;
         mrp_registrar_action_handler (attr_app x) a) Q (World (upd_attr a y (w_st w)) ck tr)).
  { intros y ck tr Hf Hy. apply wp_bind. eapply wp_set_attr; [apply upd_attr_lookup|]. cbn.
    rewrite upd_attr_twice. unfold mrp_registrar_action_handler. apply wp_bind.
    eapply wp_get_attr; [apply upd_attr_lookup|]. rewrite <- Hy. by apply HQ. }
  apply wp_bind. destruct cmd as [[]|].
  - unfold leave_timer_stop. apply wp_bind. eapply wp_get_attr; [done|]. eapply wp_set_attr; [done|].
    by apply Htail.
  - apply wp_bind. wp_step. exists ms. split; [done|]. unfold leave_timer_start.
    apply wp_bind. eapply wp_get_attr; [done|]. apply wp_bind, wp_call. eapply wp_set_attr; [done|].
    apply Htail; [cbn; by rewrite frames_embed|done].
  - apply wp_ret. cbv beta. specialize (Htail x (w_clock w) (w_trace w) eq_refl).
    rewrite (upd_attr_id a x (w_st w)) in Htail by done. destruct w. apply Htail.
    by destruct x as [? ? [? ? ?] ? ?].
Qed.

(** An update of one attribute alone. *)
Lemma inv_update_attr E E' a x y c :
  mrp_inv E c → attrs c !! a = Some x → same_id x y → attr_wf y →
  (needs y = true → ¬ E' a → needs x = true ∧ ¬ E a) → (∀ b, b ≠ a → E b → E' b) →
  mrp_inv E' (upd_attr a y c).
Proof.
  intros Hi Hx Hid Hwf Hn HE. destruct (mi_in _ _ Hi a x Hx) as (_ & q & Hq & Hen & Hr).
  rewrite <- (upd_app_id (attr_app x) (upd_attr a y c) q id) by done.
  eapply (inv_update E E' a x y id c q); try done.
  intros Hy HEa. destruct (Hn Hy HEa). by apply Hr.
Qed.

Lemma registrar_next_wf pt ev s s' act cmd :
  is_full pt = true → registrar_state s = true → registrar_next pt ev s = (s', act, cmd) →
  registrar_state s' = true ∧ (s' = MRP_STATE_LV → cmd = Some LeaveStart ∨ s = MRP_STATE_LV ∧ cmd = None).
Proof.
  intros Hf Hs. unfold registrar_next. rewrite Hf. cbn.
  destruct s; try discriminate Hs; destruct ev; cbn; intros [= <- <- <-]; split; auto; done.
Qed.

Lemma registrar_wf pt ev x s act cmd ms :
  is_full pt = true → attr_wf x → ms ≠ 0 → registrar_next pt ev (reg_state (registrar x)) = (s, act, cmd) →
  attr_wf (set_registrar s act cmd ms x).
Proof.
  intros Hf Hwf Hms En. destruct (registrar_next_wf _ _ _ _ _ _ Hf (wf_reg_state _ Hwf) En) as [Hs Hl].
  pose proof (wf_created _ Hwf) as Hcr. pose proof (wf_leave _ Hwf) as Hlv. destruct Hwf.
  destruct x as [ap [? ?] [rs ra [cr ru]] ty v]; cbn in *; subst cr. split; try done; cbn.
  - destruct cmd as [[]|]; try done. unfold soft_start; cbn. by destruct (negb _).
  - intros ->. destruct (Hl eq_refl) as [->|[-> ->]]; [|by apply Hlv].
    unfold soft_start; cbn. by rewrite (proj2 (Z.eqb_neq ms 0)).
Qed.

Lemma inv_registrar E a x q ev s act cmd ms c :
  mrp_inv E c → attrs c !! a = Some x → apps c !! attr_app x = Some q → leave_timeout c !! attr_app x = Some ms →
  registrar_next (participant_type q) ev (reg_state (registrar x)) = (s, act, cmd) →
  attr_wf (set_registrar s act cmd ms x) ∧ mrp_inv E (upd_attr a (set_registrar s act cmd ms x) c).
Proof.
  intros Hi Hx Hq Hms En. destruct (attr_type_ok _ _ _ _ _ Hi Hx Hq) as (Hao & _).
  destruct (ao_timeout _ _ _ Hao) as (ms' & Hms' & Hne). assert (ms' = ms) as -> by congruence.
  assert (Hwf : attr_wf (set_registrar s act cmd ms x)).
  { eapply registrar_wf; [apply Hao|by apply (mi_wf _ _ Hi a)|done|done]. }
  split; [done|]. by eapply (inv_update_attr E E a x).
Qed.

(** ** Release of an attribute *)

Definition remove_from (a t : nat) (q : mrp_application) : mrp_application :=
  q <| attributes ::= alter (list_remove a) t |> <| attributes_ordered ::= alter (list_remove a) t |>.
Definition freed (a : nat) (x : mrp_attribute) c : mrp_ctx U :=
  upd_app (attr_app x) (remove_from a (attr_type x)) (c <| attrs ::= delete a |>).

Lemma free_attribute_exec E a x (Q : unit → world C (mrp_ctx U) → Prop) w :
  mrp_inv E (w_st w) → attrs (w_st w) !! a = Some x →
  (∀ ck tr, frames tr = frames (w_trace w) → Q tt (World (freed a x (w_st w)) ck tr)) →
  wp (mrp_free_attribute a) Q w.
Proof.
  intros Hi Hx HQ. destruct (mi_in _ _ Hi a x Hx) as (_ & q & Hq & _ & _).
  destruct (attr_type_ok _ _ _ _ _ Hi Hx Hq) as (Hao & Hen & Hat & Hato & _ & _).
  unfold mrp_free_attribute. apply wp_bind. eapply wp_get_attr; [done|].
  apply wp_bind. eapply wp_set_attr; [done|].
  unfold set_list, set_ordered. apply wp_bind, wp_bind. eapply wp_check_type; [done..|].
  apply wp_set_app. apply wp_bind, wp_bind. eapply wp_check_type; [by apply upd_app_lookup|by cbn; rewrite list_lookup_alter, decide_True by done; destruct Hat as [? ->]; eauto|done|].
  apply wp_set_app. apply wp_bind. wp_step.
  match goal with |- _ _ (World ?st _ _) => replace st with (freed a x (w_st w)) end.
  { apply HQ. by rewrite frames_embed. }
  unfold freed, upd_app, upd_attr, over, over_field; cbn. rewrite delete_insert_eq.
  rewrite list_alter_twice. f_equal.
Qed.

Lemma remove_from_same a t q : same_app q (remove_from a t q).
Proof. by split. Qed.

Lemma freed_only_port a x c : only_port (attr_app x) c (freed a x c).
Proof.
  split; try done.
  - unfold freed, upd_app, over, over_field; cbn. by rewrite length_alter.
  - intros r Hr. unfold freed. by rewrite upd_app_other.
  - intros q Hq. eexists. split; [by apply upd_app_lookup|]. apply remove_from_same.
Qed.

Lemma freed_lists a x c t :
  attr_list (attr_app x) t (freed a x c) =
    (if decide (t = attr_type x) then list_remove a (attr_list (attr_app x) t c) else attr_list (attr_app x) t c) ∧
  ordered_list (attr_app x) t (freed a x c) =
    (if decide (t = attr_type x) then list_remove a (ordered_list (attr_app x) t c) else ordered_list (attr_app x) t c).
Proof.
  unfold attr_list, ordered_list. destruct (apps c !! attr_app x) as [q|] eqn:Hq.
  - unfold freed. rewrite (upd_app_lookup _ _ _ q) by done. cbn. case_decide as D.
    + subst t. rewrite !list_lookup_alter_eq. by destruct (attributes q !! _), (attributes_ordered q !! _).
    + by rewrite !list_lookup_alter_ne.
  - unfold freed, upd_app, over, over_field; cbn. rewrite list_lookup_alter_eq, Hq. cbn. by case_decide.
Qed.

Lemma alter_nonempty {A} (f : A → A) i (l : list A) : alter f i l ≠ [] ↔ l ≠ [].
Proof. destruct l, i; done. Qed.

Lemma inv_freed E a x c : mrp_inv E c → attrs c !! a = Some x → mrp_inv E (freed a x c).
Proof.
  intros Hi Hx. destruct (mi_in _ _ Hi a x Hx) as (Hain & q & Hq & _ & _). set (p := attr_app x) in *.
  destruct (attr_type_ok _ _ _ _ _ Hi Hx Hq) as (Hao & Hen & Hat & Hato & _ & _). fold p in Hao.
  assert (Hq' : apps (freed a x c) !! p = Some (remove_from a (attr_type x) q)) by (by apply upd_app_lookup).
  assert (Hl := freed_lists a x c). fold p in Hl.
  assert (Hattrs : attrs (freed a x c) = delete a (attrs c)) by done.
  assert (Hne : ∀ b y, attrs c !! b = Some y → attr_app y = p → attr_type y = attr_type x → b ∈ attr_list p (attr_type x) c).
  { intros b y Hy <- <-. by apply (mi_in _ _ Hi b y). }
  eapply (mrp_inv_step E E p c); [done|done|apply freed_only_port|..].
  - split.
    + intros q1 Hq1 _. assert (q1 = remove_from a (attr_type x) q) as -> by congruence.
      cbn. rewrite !length_alter. apply Hao.
    + intros t. rewrite (proj1 (Hl t)). case_decide; [apply NoDup_list_remove|]; apply Hao.
    + intros t. destruct (Hl t) as [-> ->]. pose proof (ao_perm _ _ _ Hao t) as Hp.
      case_decide; [|done]. unfold list_remove. by rewrite Hp.
    + intros q1 t d Hq1. fold p in Hq'. assert (q1 = remove_from a (attr_type x) q) as -> by congruence. apply (ao_pdu _ _ _ Hao).
  - intros q1 q2 Hq1 Hq2. assert (q1 = q) as -> by congruence.
    assert (q2 = remove_from a (attr_type x) q) as -> by congruence. cbn. apply alter_nonempty.
  - intros t b Hb. assert (Hb' : b ≠ a ∧ b ∈ attr_list p t c).
    { rewrite (proj1 (Hl t)) in Hb. case_decide as D; [by apply elem_of_list_remove in Hb|].
      split; [|done]. intros ->. destruct (ao_attr _ _ _ Hao t a Hb) as (y & Hy & _ & Hyt). congruence. }
    destruct Hb' as [Hba Hb']. destruct (ao_attr _ _ _ Hao t b Hb') as (y & Hy & Hyp & Hyt).
    exists y. rewrite Hattrs, lookup_delete_ne by done. done.
  - intros b y. rewrite Hattrs. intros [Hba Hy]%lookup_delete_Some Hyp. split; [by apply (mi_wf _ _ Hi b)|].
    destruct (mi_in _ _ Hi b y Hy) as (Hin & q1 & Hq1 & Hen1 & Hn). rewrite Hyp in *.
    split; [rewrite (proj1 (Hl _)); case_decide; [apply elem_of_list_remove|]; done|].
    fold p in Hq1. assert (q1 = q) as -> by congruence. by exists (remove_from a (attr_type x) q).
  - intros b y Hyp. rewrite Hattrs. rewrite lookup_delete_Some. split; [by intros []|].
    intros Hy. split; [|done]. intros <-. apply Hyp. by assert (y = x) as -> by congruence.
  - intros b1 b2 y1 y2. rewrite Hattrs. intros [_ H1]%lookup_delete_Some [_ H2]%lookup_delete_Some Hp1 Hp2.
    apply (mi_unique _ _ Hi); try done; congruence.
Qed.

Lemma free_attribute_check_spec E a x q w :
  mrp_inv E (w_st w) → attrs (w_st w) !! a = Some x → apps (w_st w) !! attr_app x = Some q →
  wp (mrp_free_attribute_check (attr_app x) a) (λ _ w',
     frames (w_trace w') = frames (w_trace w) ∧
     w_st w' = if freeable (participant_type q) (app_state (applicant x)) (reg_state (registrar x))
               then freed a x (w_st w) else w_st w) w.
Proof.
  intros Hi Hx Hq. unfold mrp_free_attribute_check. apply wp_bind. eapply wp_get_attr; [done|].
  apply wp_bind. eapply wp_get_app; [done|]. apply wp_when. destruct (freeable _ _ _); [|done].
  eapply free_attribute_exec; [done..|]. intros ck tr Hf. done.
Qed.

(** ** Declarations and registrations *)

Definition ident (x : mrp_attribute) : nat * nat * list Z := (attr_app x, attr_type x, attr_val x).

(** Some attribute of value [v] and type [t] on port [p] satisfies [P]. *)
Definition holds (P : mrp_attribute → bool) c (i : nat * nat * list Z) : Prop :=
  ∃ a x, attrs c !! a = Some x ∧ ident x = i ∧ P x = true.
Definition is_declared (x : mrp_attribute) : bool := declared (app_state (applicant x)).
Definition is_registered (x : mrp_attribute) : bool := registered (reg_state (registrar x)).
Abbreviation declares := (holds is_declared).
Abbreviation registers := (holds is_registered).

Lemma same_id_ident x y : same_id x y ↔ ident y = ident x.
Proof. unfold same_id, ident. split; [by intros (-> & -> & ->)|by intros [= -> -> ->]]. Qed.

Lemma holds_same P c c' i : attrs c' = attrs c → holds P c' i ↔ holds P c i.
Proof. unfold holds. by intros ->. Qed.

Lemma ident_inj E c a b x y :
  mrp_inv E c → attrs c !! a = Some x → attrs c !! b = Some y → ident x = ident y → a = b.
Proof. intros Hi Hx Hy [= ? ? ?]. by eapply (mi_unique _ _ Hi). Qed.

Lemma holds_at P E c a x :
  mrp_inv E c → attrs c !! a = Some x → holds P c (ident x) ↔ P x = true.
Proof.
  intros Hi Hx. split; [|by exists a, x]. intros (b & y & Hy & Hid & HP).
  assert (b = a) as -> by by eapply ident_inj. congruence.
Qed.

Lemma holds_update P E c c' a x y i :
  mrp_inv E c → attrs c !! a = Some x → same_id x y → attrs c' = <[a := y]> (attrs c) →
  holds P c' i ↔ if decide (i = ident x) then P y = true else holds P c i.
Proof.
  intros Hi Hx Hid%same_id_ident Hc'. unfold holds. rewrite Hc'. case_decide as D.
  - subst i. split.
    + intros (b & z & Hz & Hz2 & HP). destruct (decide (b = a)) as [->|Hne].
      * rewrite lookup_insert_eq in Hz. by injection Hz as ->.
      * rewrite lookup_insert_ne in Hz by done. exfalso. apply Hne. by eapply ident_inj.
    + intros HP. exists a, y. by rewrite lookup_insert_eq.
  - split; intros (b & z & Hz & Hz2 & HP); exists b, z; (split; [|done]).
    + destruct (decide (b = a)) as [->|Hne]; [|by rewrite lookup_insert_ne in Hz].
      rewrite lookup_insert_eq in Hz. injection Hz as ->. congruence.
    + rewrite lookup_insert_ne; [done|]. intros <-. congruence.
Qed.

Lemma holds_keep P E c c' a x y i :
  mrp_inv E c → attrs c !! a = Some x → same_id x y → attrs c' = <[a := y]> (attrs c) → P y = P x →
  holds P c' i ↔ holds P c i.
Proof.
  intros Hi Hx Hid Hc' HP. rewrite holds_update by done. case_decide as D; [|done].
  subst i. rewrite (holds_at P E c a x) by done. by rewrite HP.
Qed.

Lemma holds_freed P c a x i :
  attrs c !! a = Some x → P x = false → holds P (freed a x c) i ↔ holds P c i.
Proof.
  intros Hx HP. unfold holds. cbn. split.
  - intros (b & y & [_ Hy]%lookup_delete_Some & ?). eauto.
  - intros (b & y & Hy & Hid & Hp). exists b, y. split; [|done].
    rewrite lookup_delete_ne; [done|]. intros <-. congruence.
Qed.

Lemma freeable_silent pt s r :
  is_full pt = true → registrar_state r = true → freeable pt s r = true →
  declared s = false ∧ registered r = false ∧ needs_tx s = false.
Proof. intros Hf Hr. unfold freeable. rewrite Hf. by destruct s, r. Qed.

Lemma applicant_next_declared pt reg ev s :
  is_full pt = true → applicant_state s = true →
  declared (fst (applicant_next pt reg ev s)) = declared_after ev (declared s).
Proof.
  intros Hf Hs. unfold applicant_next, declared_after. rewrite Hf.
  destruct ev, s; try discriminate Hs; cbn; unfold applicant_rjoinin, applicant_tx;
    try destruct (is_point_to_point pt); try destruct (decide (reg = MRP_STATE_IN)); done.
Qed.

Lemma registrar_next_registered pt s s' a cmd event :
  is_full pt = true → registrar_state s = true →
  event ≠ MRP_EVENT_BEGIN → event ≠ MRP_EVENT_FLUSH → event ≠ MRP_EVENT_RLV_IMMEDIATE →
  registrar_next pt event s = (s', a, cmd) →
  registered s' = indicated a (registered s) ∧
  (a = MRP_ACTION_NEW ∨ a = MRP_ACTION_JOIN → registered s' = true) ∧
  (a = MRP_ACTION_LV → registered s' = false) ∧
  (a = MRP_ACTION_NONE ∨ a = MRP_ACTION_NEW ∨ a = MRP_ACTION_JOIN ∨ a = MRP_ACTION_LV).
Proof.
  intros Hf Hs. unfold registrar_next. rewrite Hf. cbn.
  destruct s; try discriminate Hs; destruct event; try done; cbn; intros _ _ _ [= <- <- <-]; split_and!; naive_solver.
Qed.

Lemma rla_registrar pt s :
  is_full pt = true → ∃ s' cmd, registrar_next pt MRP_EVENT_RLA s = (s', MRP_ACTION_NONE, cmd).
Proof. intros Hf. unfold registrar_next. rewrite Hf. destruct s; cbn; eauto. Qed.
Lemma rla_applicant pt r s :
  is_full pt = true → applicant_next pt r MRP_EVENT_RLA s = (applicant_rlv_rla_redeclare s, MRP_ACTION_NONE).
Proof. intros Hf. unfold applicant_next. rewrite Hf. done. Qed.

(** A leave-all, received or being sent, as it reaches an attribute. *)
Definition left_all (x x' : mrp_attribute) : Prop :=
  same_id x x' ∧ is_declared x' = is_declared x ∧ is_registered x' = is_registered x ∧
  app_state (applicant x') = applicant_rlv_rla_redeclare (app_state (applicant x)) ∧
  reg_state (registrar x') = (if decide (reg_state (registrar x) = MRP_STATE_IN) then MRP_STATE_LV
                              else reg_state (registrar x)).

Lemma stepped_after_registrar E' a x y y' moved more ck tr w w' :
  attrs (w_st w) !! a = Some x → same_id x y → frames tr = frames (w_trace w) →
  (∃ q, apps (w_st w) !! attr_app x = Some q) →
  stepped E' a y y' moved more (World (upd_attr a y (w_st w)) ck tr) w' →
  stepped E' a x y' moved more w w'.
Proof.
  intros Hx (Hid1 & Hid2 & Hid3) Hf [q Hq] Hs. destruct Hs as [S1 S2 S3 S4 S5 S6 S7]. rewrite Hid1, ?Hid2 in *.
  cbn in *. split; cbn; try done.
  - rewrite S2. cbn. by rewrite insert_insert_eq.
  - etrans; [|exact S3]. rewrite <- (upd_app_id (attr_app x) (upd_attr a y (w_st w)) q id) by done. by eapply upd_only_port.
  - intros Hok. unfold speaks in *. cbn in *. rewrite <- Hf. by apply S6.
  - intros Hm. rewrite <- Hf. by apply S7.
Qed.

Lemma lva_spec `{!MrpInd C U} E a x w :
  platform_ok → mrp_inv E (w_st w) → attrs (w_st w) !! a = Some x →
  wp (mrp_process_attribute_event a MRP_ATTR_EVT_LVA) (λ _ w', ∃ x' moved,
     left_all x x' ∧ stepped E a x x' moved [] w w') w.
Proof.
  intros Hpl Hi Hx. destruct (mi_in _ _ Hi a x Hx) as (_ & q & Hq & _ & _).
  destruct (attr_type_ok _ _ _ _ _ Hi Hx Hq) as (Hao & _). pose proof (ao_full _ _ _ Hao) as Hf.
  destruct (ao_timeout _ _ _ Hao) as (ms & Hms & _). pose proof (mi_wf _ _ Hi a x Hx) as Hwf.
  destruct (rla_registrar (participant_type q) (reg_state (registrar x)) Hf) as (rs & cmd & En).
  unfold mrp_process_attribute_event. apply wp_bind. eapply wp_get_attr; [done|]. cbn [Z.leb Z.compare MRP_ATTR_EVT_MAX MRP_ATTR_EVT_LVA Pos.compare Pos.compare_cont].
  apply wp_bind. eapply registrar_sm_exec; [done..|]. unfold MRP_ATTR_EVT_LVA, mrp_attribute2rxevent.
  rewrite En. intros ck tr Hfr. cbn [indicate]. apply wp_ret. cbv beta.
  destruct (inv_registrar _ _ _ _ _ _ _ _ _ _ Hi Hx Hq Hms En) as [Hwf1 Hi1].
  set (x1 := set_registrar rs MRP_ACTION_NONE cmd ms x) in *.
  set (w1 := World (upd_attr a x1 (w_st w)) ck tr).
  assert (Hx1 : attrs (w_st w1) !! a = Some x1) by apply upd_attr_lookup.
  assert (Hid : same_id x x1) by by destruct x.
  pose proof (applicant_sm_spec E E a x1 q MRP_EVENT_RLA w1 Hpl Hi1 Hx1 Hq (λ b _ Hb, Hb)) as Ha.
  unfold applicant_says in Ha. rewrite rla_applicant in Ha by done. cbn [mrp_action2event] in Ha.
  apply wp_bind. eapply wp_mono; [apply Ha; by auto|]. clear Ha. intros [] w2 Hs. cbv beta.
  pose proof (sp_attrs _ _ _ _ _ _ _ _ Hs) as Ha2.
  destruct (op_this _ _ _ (sp_only _ _ _ _ _ _ _ _ Hs) q Hq) as (q2 & Hq2 & Hsa).
  unfold mrp_free_attribute_check. apply wp_bind, wp_bind. eapply wp_get_attr; [by rewrite Ha2, lookup_insert_eq|].
  apply wp_bind. eapply wp_get_app; [exact Hq2|]. rewrite (sa_ptype _ _ Hsa).
  pose proof (rla_not_freeable (participant_type q) (reg_state (registrar x)) (app_state (applicant x)) Hf
    (wf_app_state _ Hwf)) as Hnf.
  rewrite En, rla_applicant in Hnf by done. cbn in Hnf |- *. rewrite Hnf. cbn [when].
  apply wp_ret. cbv beta. apply wp_ret. cbv beta.
  eexists _, _. split; [|by eapply stepped_after_registrar; [..|exact Hs]; eauto].
  split; [by destruct x|].
  unfold registrar_next in En. rewrite Hf in En. cbn in En.
  pose proof (applicant_next_declared (participant_type q) (reg_state (registrar x)) MRP_EVENT_RLA _ Hf
     (wf_app_state _ Hwf)) as Hd. rewrite rla_applicant in Hd by done. cbn in Hd.
  unfold is_declared, is_registered. cbn. split; [done|].
  pose proof (wf_reg_state _ Hwf) as Hrs.
  destruct (reg_state (registrar x)); try discriminate Hrs; cbn in En; injection En as <- <-; split_and!; done.
Qed.

(** ** The contract with the indications of a protocol *)

(** What every operation keeps of the applications. *)
Record kin (q q' : mrp_application) : Prop := {
  kin_type : type q' = type q;
  kin_ptype : participant_type q' = participant_type q;
  kin_enabled : enabled q' = enabled q;
}.
Record kept c c' : Prop := {
  kept_length : length (apps c') = length (apps c);
  kept_app : ∀ p q, apps c !! p = Some q → ∃ q', apps c' !! p = Some q' ∧ kin q q';
  kept_timeout : leave_timeout c' = leave_timeout c;
  kept_rx : length (rx_data c') = length (rx_data c);
  kept_bytes : Forall is_byte (rx_data c) → Forall is_byte (rx_data c');
}.

#[export] Instance kept_preorder : PreOrder kept.
Proof.
  split.
  - intros c. split; try done. intros p q Hq. by exists q.
  - intros a b d [L1 A1 T1 R1 B1] [L2 A2 T2 R2 B2]. split; [congruence| |congruence|congruence|by auto]. intros p q Hq.
    destruct (A1 p q Hq) as (q1 & Hq1 & []). destruct (A2 p q1 Hq1) as (q2 & Hq2 & []).
    exists q2. split; [done|]. split; congruence.
Qed.

Lemma only_port_kept p c c' : only_port p c c' → kept c c'.
Proof.
  intros Ho. split; try apply Ho.
  - intros r q Hq. destruct (decide (r = p)) as [->|Hr].
    + destruct (op_this _ _ _ Ho q Hq) as (q' & Hq' & []). exists q'. done.
    + exists q. rewrite (op_others _ _ _ Ho) by done. done.
  - by rewrite (op_rx _ _ _ Ho).
  - by rewrite (op_rx _ _ _ Ho).
Qed.

(** A protocol that is told of a registration of port [p]: it may declare and
    withdraw attributes, but it neither releases the attribute that is
    indicated nor touches a registrar. *)
Record ind_post (a : nat) (x : mrp_attribute) c c' : Prop := {
  ip_ok : mrp_ok c';
  ip_kept : kept c c';
  ip_attr : ∃ x', attrs c' !! a = Some x' ∧ same_id x x' ∧ registrar x' = registrar x;
  ip_registers : ∀ i, registers c' i ↔ registers c i;
}.

Class MrpIndLaws `{!MrpInd C U} := {
  (** the registrations that the protocol knows of *)
  view : U → nat * nat * list Z → bool;
  (** what the protocol relies on *)
  up_ok : mrp_ctx U → Prop;
  view_law u u' i : tx_rel u u' → view u' i = view u i;
  (** what it can come to know of *)
  admits : U → nat * nat * list Z → Prop;
  admits_law u u' i : tx_rel u u' → admits u i → admits u' i;
  (** what no indication changes *)
  steady : U → U → Prop;
  steady_preorder :: PreOrder steady;
  steady_law u u' : tx_rel u u' → steady u u';
  up_ok_law c c' :
    up_ok c → kept c c' → tx_rel (upper c) (upper c') → (∀ i, declares c' i ↔ declares c i) → up_ok c';
  join_law a x new w :
    mrp_ok (w_st w) → up_ok (w_st w) → attrs (w_st w) !! a = Some x →
    wp (mad_join_indication (attr_app x) a new) (λ _ w',
      ind_post a x (w_st w) (w_st w') ∧ up_ok (w_st w') ∧ steady (upper (w_st w)) (upper (w_st w')) ∧
      (admits (upper (w_st w)) (ident x) → view (upper (w_st w')) (ident x) = true) ∧
      ∀ i, i ≠ ident x → view (upper (w_st w')) i = view (upper (w_st w)) i) w;
  leave_law a x w :
    mrp_ok (w_st w) → up_ok (w_st w) → attrs (w_st w) !! a = Some x →
    wp (mad_leave_indication (attr_app x) a) (λ _ w',
      ind_post a x (w_st w) (w_st w') ∧ up_ok (w_st w') ∧ steady (upper (w_st w)) (upper (w_st w')) ∧
      ∀ i, view (upper (w_st w')) i = if decide (i = ident x) then false else view (upper (w_st w)) i) w;
}.
End spec.

Abbreviation declares := (holds is_declared).
Abbreviation registers := (holds is_registered).

Section protocol.
Context {C U : Type} `{!Platform C, !MrpCalls C, !MrpOps C U, !MrpMemory, !MrpCallsLaws C, !MrpLaws C U}.
Context `{!MrpInd C U, !MrpIndLaws}.
Implicit Types (w : world C (mrp_ctx U)) (c : mrp_ctx U).

(** The state between two events: every registration that the protocol knows
    of is one of a registrar. *)
Record good c : Prop := {
  good_mrp : mrp_ok c;
  good_up : up_ok c;
  good_view : ∀ i, view (upper c) i = true → registers c i;
}.

(** A change that is of no concern to the protocol. *)
Lemma good_silent c c' :
  good c → mrp_ok c' → kept c c' → tx_rel (upper c) (upper c') →
  (∀ i, declares c' i ↔ declares c i) → (∀ i, registers c' i ↔ registers c i) → good c'.
Proof.
  intros [Hm Hu Hv] Hm' Hk Ht Hd Hr. split; [done|by eapply up_ok_law|].
  intros i. rewrite (view_law (upper c)) by done. rewrite Hr. apply Hv.
Qed.

(** A registration that is indicated becomes known to the protocol. *)
Definition learnt (act : mrp_protocol_action_t) c c' (i : nat * nat * list Z) : Prop :=
  steady (upper c) (upper c') ∧
  (act = MRP_ACTION_NEW ∨ act = MRP_ACTION_JOIN → admits (upper c) i → view (upper c') i = true).
Lemma learnt_step act c c1 c2 c3 i :
  tx_rel (upper c) (upper c1) → tx_rel (upper c2) (upper c3) → learnt act c1 c2 i → learnt act c c3 i.
Proof.
  intros H1 H2 [S L]. split; [etrans; [by apply steady_law|etrans; [done|by apply steady_law]]|].
  intros Ha Hi. rewrite (view_law (upper c2)) by done. apply L; [done|by eapply admits_law].
Qed.

(** The indication of a change of the registrar of attribute [a], from [x] to
    [x1]. *)
Lemma indicate_spec a x x1 act c ck tr :
  good c → attrs c !! a = Some x → same_id x x1 → applicant x1 = applicant x → attr_wf x1 →
  is_registered x1 = indicated act (is_registered x) →
  act = MRP_ACTION_NONE ∨ act = MRP_ACTION_NEW ∨ act = MRP_ACTION_JOIN ∨ act = MRP_ACTION_LV →
  wp (indicate (attr_app x) a act) (λ _ w',
    good (w_st w') ∧ kept c (w_st w') ∧ learnt act c (w_st w') (ident x) ∧
    (∃ x', attrs (w_st w') !! a = Some x' ∧ same_id x x' ∧ registrar x' = registrar x1) ∧
    ∀ i, registers (w_st w') i ↔ if decide (i = ident x) then is_registered x1 = true else registers c i)
    (World (upd_attr a x1 c) ck tr).
Proof.
  intros [Hi Hu Hv] Hx Hid Happ Hwf Hreg Hact. set (c1 := upd_attr a x1 c).
  assert (Hi1 : mrp_ok c1).
  { eapply (inv_update_attr (λ _, False) (λ _, False) a x); try done. unfold needs. by rewrite Happ. }
  assert (Hx1 : attrs c1 !! a = Some x1) by apply upd_attr_lookup.
  assert (Hd1 : ∀ i, declares c1 i ↔ declares c i).
  { intros i. eapply (holds_keep is_declared (λ _, False) c _ a x x1); try done.
    unfold is_declared. by rewrite Happ. }
  assert (Hr1 : ∀ i, registers c1 i ↔ if decide (i = ident x) then is_registered x1 = true else registers c i).
  { intros i. by apply (holds_update is_registered (λ _, False) c _ a x x1). }
  assert (Hk1 : kept c c1).
  { split; try done. intros r q1 Hq1. by exists q1. }
  assert (Hu1 : up_ok c1) by (by eapply up_ok_law).
  assert (Hpost : ∀ w', ind_post a x1 c1 (w_st w') → up_ok (w_st w') → learnt act c (w_st w') (ident x) →
     (∀ i, i ≠ ident x → view (upper (w_st w')) i = view (upper c1) i) →
     (view (upper (w_st w')) (ident x) = true → is_registered x1 = true) →
     good (w_st w') ∧ kept c (w_st w') ∧ learnt act c (w_st w') (ident x) ∧
     (∃ x', attrs (w_st w') !! a = Some x' ∧ same_id x x' ∧ registrar x' = registrar x1) ∧
     ∀ i, registers (w_st w') i ↔ if decide (i = ident x) then is_registered x1 = true else registers c i).
  { intros w' [P1 P2 (x' & Hx' & Hid' & Hreg') P4] Hu' Hlearnt Hview Hview'.
    assert (HR : ∀ i, registers (w_st w') i ↔ if decide (i = ident x) then is_registered x1 = true else registers c i).
    { intros i. rewrite P4. apply Hr1. }
    split; [|split; [by etrans|split; [done|split; [|exact HR]]]].
    - split; [done|done|]. intros i Hvi. rewrite HR. case_decide as D; [subst i; by apply Hview'|].
      apply Hv. by rewrite Hview in Hvi.
    - exists x'. split; [done|]. split; [|done]. rewrite same_id_ident in *. congruence. }
  assert (Hsame : ind_post a x1 c1 c1) by (split; [done..| |done]; by exists x1).
  pose proof Hid as Hid2%same_id_ident. pose proof Hid as (Ha1 & _ & _).
  destruct Hact as [->|[->|[->| ->]]]; cbn [indicate indicated] in *.
  - apply wp_ret. cbv beta. apply Hpost; [done|done|by split; [|intros [[=]|[=]]]|done|]. cbn [w_st upper c1].
    intros Hvx. rewrite Hreg. apply Hv in Hvx. by rewrite (holds_at _ (λ _, False) _ a x) in Hvx.
  - rewrite <- Ha1. eapply wp_mono; [by apply (join_law a x1)|]. intros [] w' (P & Hu' & Hst & Hadm & Hview).
    rewrite Hid2 in Hview, Hadm. apply Hpost; auto. split; [exact Hst|]. intros _. exact Hadm.
  - rewrite <- Ha1. eapply wp_mono; [by apply (join_law a x1)|]. intros [] w' (P & Hu' & Hst & Hadm & Hview).
    rewrite Hid2 in Hview, Hadm. apply Hpost; auto. split; [exact Hst|]. intros _. exact Hadm.
  - rewrite <- Ha1. eapply wp_mono; [by apply (leave_law a x1)|]. intros [] w' (P & Hu' & Hst & Hview).
    rewrite Hid2 in Hview. apply Hpost; auto.
    + split; [exact Hst|]. by intros [[=]|[=]].
    + intros i Hne. rewrite Hview. by rewrite decide_False.
    + rewrite Hview. by rewrite decide_True.
Qed.

(** The registrar of attribute [a] on an event, indications included. *)
Lemma registrar_sm_spec a x q ev w :
  good (w_st w) → attrs (w_st w) !! a = Some x → apps (w_st w) !! attr_app x = Some q →
  ev ≠ MRP_EVENT_BEGIN → ev ≠ MRP_EVENT_FLUSH → ev ≠ MRP_EVENT_RLV_IMMEDIATE →
  let '(s, act, cmd) := registrar_next (participant_type q) ev (reg_state (registrar x)) in
  wp (mrp_registrar_sm a ev) (λ _ w',
    good (w_st w') ∧ kept (w_st w) (w_st w') ∧ learnt act (w_st w) (w_st w') (ident x) ∧
    (∃ x', attrs (w_st w') !! a = Some x' ∧ same_id x x' ∧ reg_state (registrar x') = s) ∧
    ∀ i, registers (w_st w') i ↔ if decide (i = ident x) then registered s = true else registers (w_st w) i) w.
Proof.
  intros Hg Hx Hq H1 H2 H3. pose proof (good_mrp _ Hg) as Hi.
  destruct (attr_type_ok _ _ _ _ _ Hi Hx Hq) as (Hao & _).
  destruct (ao_timeout _ _ _ Hao) as (ms & Hms & _).
  destruct (registrar_next _ _ _) as [[s act] cmd] eqn:En.
  eapply registrar_sm_exec; [done..|]. rewrite En. intros ck tr _.
  destruct (inv_registrar _ _ _ _ _ _ _ _ _ _ Hi Hx Hq Hms En) as [Hwf1 _].
  destruct (registrar_next_registered _ _ _ _ _ _ (ao_full _ _ _ Hao) (wf_reg_state _ (mi_wf _ _ Hi a x Hx)) H1 H2 H3 En)
    as (Hr & _ & _ & Hact).
  eapply wp_mono; [by apply (indicate_spec a x (set_registrar s act cmd ms x))|].
  intros [] w' (Hg' & Hk' & Hl' & (x' & ? & ? & Hreg) & HR). split; [done|]. split; [done|].
  split; [done|]. split; [|done]. exists x'. by rewrite Hreg.
Qed.

Lemma stepped_good a x x' moved more w w' :
  good (w_st w) → attrs (w_st w) !! a = Some x → stepped (λ _, False) a x x' moved more w w' → same_id x x' →
  is_declared x' = is_declared x → is_registered x' = is_registered x →
  good (w_st w') ∧ kept (w_st w) (w_st w') ∧ (∀ i, registers (w_st w') i ↔ registers (w_st w) i).
Proof.
  intros Hg Hx Hs Hid Hd Hr. pose proof (good_mrp _ Hg) as Hm.
  pose proof (only_port_kept _ _ _ (sp_only _ _ _ _ _ _ _ _ Hs)) as Hk.
  assert (HR : ∀ i, registers (w_st w') i ↔ registers (w_st w) i).
  { intros i. eapply (holds_keep is_registered (λ _, False) _ _ a x x'); [done|done|done|apply Hs|done]. }
  split; [|done]. eapply good_silent; try done; [apply Hs|apply (sp_only _ _ _ _ _ _ _ _ Hs)|].
  intros i. eapply (holds_keep is_declared (λ _, False) _ _ a x x'); [done|done|done|apply Hs|done].
Qed.

(** An applicant event that is neither a request nor the beginning. *)
Lemma applicant_event_good a x q ev w :
  platform_ok → good (w_st w) → attrs (w_st w) !! a = Some x → apps (w_st w) !! attr_app x = Some q →
  (∀ d, declared_after ev d = d) →
  wp (mrp_applicant_sm a ev) (λ _ w',
    good (w_st w') ∧ kept (w_st w) (w_st w') ∧ tx_rel (upper (w_st w)) (upper (w_st w')) ∧
    (∀ i, registers (w_st w') i ↔ registers (w_st w) i) ∧
    (∀ t, attr_list (attr_app x) t (w_st w') = attr_list (attr_app x) t (w_st w)) ∧
    ∃ x', attrs (w_st w') !! a = Some x' ∧ same_id x x' ∧ registrar x' = registrar x ∧
      app_state (applicant x') = fst (applicant_next (participant_type q) (reg_state (registrar x)) ev (app_state (applicant x)))) w.
Proof.
  intros Hpl Hg Hx Hq Hev. pose proof (good_mrp _ Hg) as Hm.
  destruct (attr_type_ok _ _ _ _ _ Hm Hx Hq) as (Hao & _).
  pose proof (applicant_sm_spec (λ _, False) (λ _, False) a x q ev w Hpl Hm Hx Hq (λ b _ Hb, Hb)) as Ha.
  pose proof (applicant_next_declared (participant_type q) (reg_state (registrar x)) ev (app_state (applicant x))
    (ao_full _ _ _ Hao) (wf_app_state _ (mi_wf _ _ Hm a x Hx))) as Hd. rewrite Hev in Hd.
  destruct (applicant_next _ _ _ _) as [s act]. cbn in Hd.
  eapply wp_mono; [apply Ha; by auto|]. intros [] w' Hs.
  assert (Hid : same_id x (set_applicant s act x)) by done.
  destruct (stepped_good _ _ _ _ _ _ _ Hg Hx Hs Hid Hd eq_refl) as (? & ? & ?).
  split_and!; try done; [apply (op_upper _ _ _ (sp_only _ _ _ _ _ _ _ _ Hs))|apply Hs|]. exists (set_applicant s act x). rewrite (sp_attrs _ _ _ _ _ _ _ _ Hs), lookup_insert_eq. done.
Qed.

Lemma free_check_good a x w :
  good (w_st w) → attrs (w_st w) !! a = Some x →
  wp (mrp_free_attribute_check (attr_app x) a) (λ _ w',
    good (w_st w') ∧ kept (w_st w) (w_st w') ∧ tx_rel (upper (w_st w)) (upper (w_st w')) ∧
    frames (w_trace w') = frames (w_trace w) ∧
    (∀ i, declares (w_st w') i ↔ declares (w_st w) i) ∧
    (∀ i, registers (w_st w') i ↔ registers (w_st w) i)) w.
Proof.
  intros Hg Hx. pose proof (good_mrp _ Hg) as Hm. destruct (mi_in _ _ Hm a x Hx) as (_ & q & Hq & _).
  destruct (attr_type_ok _ _ _ _ _ Hm Hx Hq) as (Hao & _).
  eapply wp_mono; [by eapply free_attribute_check_spec|]. intros [] w' (Hf & E).
  destruct (freeable _ _ _) eqn:Ef; rewrite E; [|by split_and!].
  destruct (freeable_silent _ _ _ (ao_full _ _ _ Hao) (wf_reg_state _ (mi_wf _ _ Hm a x Hx)) Ef) as (F1 & F2 & _).
  pose proof (only_port_kept _ _ _ (freed_only_port a x (w_st w))) as Hk.
  assert (HD : ∀ i, declares (freed a x (w_st w)) i ↔ declares (w_st w) i) by (intros i; by apply holds_freed).
  assert (HR : ∀ i, registers (freed a x (w_st w)) i ↔ registers (w_st w) i) by (intros i; by apply holds_freed).
  split_and!; try done. eapply good_silent; try done. by apply inv_freed.
Qed.

Lemma rx_event_silent event d : declared_after (mrp_attribute2rxevent event) d = d.
Proof. unfold mrp_attribute2rxevent. by repeat case_match. Qed.
Lemma rx_event_ok event :
  mrp_attribute2rxevent event ≠ MRP_EVENT_BEGIN ∧ mrp_attribute2rxevent event ≠ MRP_EVENT_FLUSH ∧
  mrp_attribute2rxevent event ≠ MRP_EVENT_RLV_IMMEDIATE.
Proof. unfold mrp_attribute2rxevent. by repeat case_match. Qed.

(** An event received for an attribute. *)
Lemma process_event_spec a x q event w :
  platform_ok → good (w_st w) → attrs (w_st w) !! a = Some x → apps (w_st w) !! attr_app x = Some q →
  event < MRP_ATTR_EVT_MAX →
  let '(s, act, _) := registrar_next (participant_type q) (mrp_attribute2rxevent event) (reg_state (registrar x)) in
  wp (mrp_process_attribute_event a event) (λ rc w', rc = 0 ∧ good (w_st w') ∧ kept (w_st w) (w_st w') ∧
    learnt act (w_st w) (w_st w') (ident x) ∧
    ∀ i, registers (w_st w') i ↔ if decide (i = ident x) then registered s = true else registers (w_st w) i) w.
Proof.
  intros Hpl Hg Hx Hq Hev.
  pose proof (registrar_sm_spec a x q (mrp_attribute2rxevent event) w Hg Hx Hq) as Hr.
  destruct (registrar_next _ _ _) as [[s act] cmd].
  destruct (rx_event_ok event) as (N1 & N2 & N3).
  unfold mrp_process_attribute_event. apply wp_bind. eapply wp_get_attr; [done|].
  rewrite (proj2 (Z.leb_gt _ _)) by done.
  apply wp_bind. eapply wp_mono; [by apply Hr|]. clear Hr. intros [] w1 (Hg1 & Hk1 & Hl1 & (x1 & Hx1 & Hid1 & _) & HR1).
  pose proof Hid1 as (Ha1 & _ & _).
  destruct (kept_app _ _ Hk1 _ q Hq) as (q1 & Hq1 & _). rewrite <- Ha1 in Hq1.
  apply wp_bind. eapply wp_mono; [by apply (applicant_event_good a x1 q1), rx_event_silent|].
  intros [] w2 (Hg2 & Hk2 & Hu2 & HR2 & _ & x2 & Hx2 & Hid2 & _). pose proof Hid2 as (Ha2 & _ & _).
  apply wp_bind. rewrite <- Ha1, <- Ha2. eapply wp_mono; [by apply free_check_good|].
  intros [] w3 (Hg3 & Hk3 & Hu3 & _ & _ & HR3). apply wp_ret. split; [done|]. split; [done|]. split; [by etrans; [|etrans]|].
  split; [eapply learnt_step; [| |exact Hl1]; [done|by etrans]|].
  intros i. by rewrite HR3, HR2, HR1.
Qed.

(** The expiry of the leave timer of an attribute. *)
Definition leave_expires (a : nat) : M C (mrp_ctx U) unit := leave_timer_stop a;; mrp_leave_timer_handler a.

Lemma leave_timer_spec a x q w :
  good (w_st w) → attrs (w_st w) !! a = Some x → apps (w_st w) !! attr_app x = Some q →
  wp (leave_expires a) (λ _ w', good (w_st w') ∧ kept (w_st w) (w_st w') ∧
    ∀ i, registers (w_st w') i ↔
      if decide (i = ident x) then reg_state (registrar x) = MRP_STATE_IN else registers (w_st w) i) w.
Proof.
  intros Hg Hx Hq. pose proof (good_mrp _ Hg) as Hm.
  destruct (attr_type_ok _ _ _ _ _ Hm Hx Hq) as (Hao & _). pose proof (ao_full _ _ _ Hao) as Hf.
  destruct (ao_timeout _ _ _ Hao) as (ms & Hms & _). pose proof (mi_wf _ _ Hm a x Hx) as Hwf.
  unfold leave_expires, leave_timer_stop, mrp_leave_timer_handler.
  apply wp_bind, wp_bind. eapply wp_get_attr; [done|]. eapply wp_set_attr; [done|].
  set (x0 := x <| registrar ::= _ |>). apply wp_bind.
  eapply (registrar_sm_exec a x0 q ms); [apply upd_attr_lookup|done|done|].
  change (reg_state (registrar x0)) with (reg_state (registrar x)).
  destruct (registrar_next _ _ _) as [[s act] cmd] eqn:En. cbn [w_st]. rewrite upd_attr_twice. intros ck tr _.
  set (x1 := set_registrar s act cmd ms x0).
  assert (Hs : cmd = None ∧ s ≠ MRP_STATE_LV ∧ registrar_state s = true ∧
     registered s = indicated act (registered (reg_state (registrar x))) ∧
     (act = MRP_ACTION_NONE ∨ act = MRP_ACTION_LV) ∧ (registered s = true ↔ reg_state (registrar x) = MRP_STATE_IN)).
  { unfold registrar_next in En. rewrite Hf in En. cbn in En. pose proof (wf_reg_state _ Hwf) as Hs.
    destruct (reg_state (registrar x)); try discriminate Hs; cbn in En; injection En as <- <- <-; split_and!; naive_solver. }
  destruct Hs as (-> & Hs1 & Hs2 & Hs3 & Hs4 & Hs5).
  assert (Hwf1 : attr_wf x1) by (split; try apply Hwf; [exact Hs2|done]).
  assert (Hid : same_id x x1) by done.
  eapply wp_mono; [eapply (indicate_spec a x x1 act (w_st w)); try done; naive_solver|].
  intros [] w1 (Hg1 & Hk1 & _ & (x2 & Hx2 & Hid2 & _) & HR1). pose proof Hid2 as (Ha2 & _ & _).
  apply wp_bind. eapply wp_get_attr; [done|]. eapply wp_mono; [by apply free_check_good|].
  intros [] w3 (Hg3 & Hk3 & _ & _ & _ & HR3). split; [done|]. split; [by etrans|].
  intros i. rewrite HR3, HR1. case_decide; [|done]. exact Hs5.
Qed.
End protocol.
