(* ===== verification/MrpRequests.v ===== *)
(** * MRP: requests

    Lookup, allocation and the join and leave requests of a protocol: they
    declare and withdraw exactly the attribute they name. *)

From S2P Require Import Prelude Timer MrpSm MrpPdu Mrp MrpTx MrpSpec.

Section requests.
Context {C U : Type} `{!Platform C, !MrpCalls C, !MrpOps C U, !MrpMemory, !MrpCallsLaws C, !MrpLaws C U}.
Implicit Types (w : world C (mrp_ctx U)) (c : mrp_ctx U).

(** The port is ready for attributes of type [t]. *)
Record ready c (p t : nat) (q : mrp_application) : Prop := {
  rd_app : apps c !! p = Some q;
  rd_enabled : enabled q = true;
  rd_type : (min_attr_type ≤ t ≤ max_attr_type)%nat;
}.

Lemma ready_facts E c p t q :
  mrp_inv E c → ready c p t q →
  app_ok c p q ∧ is_Some (attributes q !! t) ∧ is_Some (attributes_ordered q !! t) ∧ is_Some (mrpdu q !! t).
Proof.
  intros Hi [Hq Hen Ht]. pose proof (mi_app _ _ Hi p q Hq (mi_enabled _ _ Hi p q Hq Hen)) as Ha.
  pose proof attr_types_law. destruct (ao_length _ _ _ Ha) as (L1 & L2 & L3).
  split; [done|]. split_and!; apply lookup_lt_is_Some_2; lia.
Qed.

Definition value (t : nat) (val : list Z) : list Z := take (attribute_value_length t) val.
Definition val_ok (t : nat) (val : list Z) : Prop :=
  (attribute_value_length t ≤ length val)%nat ∧ Forall is_byte val.

Lemma wp_read_val t val (Q : list Z → world C (mrp_ctx U) → Prop) w :
  val_ok t val → Q (value t val) w → wp (read_val t val) Q w.
Proof. intros [Hv _] HQ. unfold read_val. by rewrite decide_True. Qed.

(** ** Lookup *)

Definition found c (p t : nat) (v : list Z) (o : option nat) : Prop :=
  match o with
  | Some a => ∃ x, attrs c !! a = Some x ∧ ident x = (p, t, v)
  | None => ∀ a x, attrs c !! a = Some x → ident x ≠ (p, t, v)
  end.

Lemma find_attribute_spec E p t q val w :
  mrp_inv E (w_st w) → ready (w_st w) p t q → val_ok t val →
  wp (mrp_find_attribute p t val) (λ o w', w' = w ∧ found (w_st w) p t (value t val) o) w.
Proof.
  intros Hi Hr Hv. destruct (ready_facts _ _ _ _ _ Hi Hr) as (Ha & H1 & H2 & _).
  unfold mrp_find_attribute. apply wp_bind, wp_read_val; [done|]. apply wp_bind.
  eapply wp_check_type; [apply Hr|done..|]. apply wp_bind, wp_gets.
  set (f := λ a, match attrs (w_st w) !! a with Some x => bool_decide (attr_val x = value t val) | None => false end).
  eapply (wp_list_search f).
  - intros a Hin. destruct (ao_attr _ _ _ Ha t a Hin) as (x & Hx & _).
    unfold get_attr, bind, gets. rewrite Hx. cbn. unfold f. by rewrite Hx.
  - split; [done|]. destruct (find f (attr_list p t (w_st w))) as [a|] eqn:Ef.
    + apply find_some in Ef as [Hin Hf]. apply list_elem_of_In in Hin. destruct (ao_attr _ _ _ Ha t a Hin) as (x & Hx & Hp & Ht).
      exists x. split; [done|]. unfold f in Hf. rewrite Hx in Hf. apply bool_decide_eq_true in Hf.
      unfold ident. by rewrite Hp, Ht, Hf.
    + intros a x Hx [= Hp Ht Hva]. pose proof (find_none _ _ Ef a) as Hn.
      assert (Hin : a ∈ attr_list p t (w_st w)).
      { rewrite <- Hp, <- Ht. by apply (mi_in _ _ Hi). }
      specialize (Hn (proj1 (list_elem_of_In _ _) Hin)). unfold f in Hn. rewrite Hx in Hn.
      by apply bool_decide_eq_false in Hn.
Qed.

(** ** Allocation *)

(** A new attribute: not declared, not registered. *)
Definition new_attribute (p t : nat) (v : list Z) : mrp_attribute :=
  MrpAttribute p (MrpApplicant MRP_STATE_VO MRP_ACTION_NONE)
    (MrpRegistrar MRP_STATE_MT MRP_ACTION_NONE (SoftTimer true false)) t v.

Definition insert_at (a t : nat) (last : bool) (q : mrp_application) : mrp_application :=
  q <| attributes ::= alter (cons a) t |>
    <| attributes_ordered ::= alter (λ l, if last then list_remove a l ++ [a] else a :: l) t |>.

Definition alloced (p t : nat) (v : list Z) (a : nat) (last : bool) c : mrp_ctx U :=
  upd_app p (insert_at a t last) (upd_attr a (new_attribute p t v) c).

Lemma alloc_attribute_exec `{!MrpInd C U} E p t q val (Q : option nat → world C (mrp_ctx U) → Prop) w :
  mrp_inv E (w_st w) → ready (w_st w) p t q → val_ok t val → timers_ok →
  (∀ ck tr, frames tr = frames (w_trace w) → answer (w_clock w) (mrp_embed MrpMalloc) = 0 →
     Q None (World (w_st w) ck tr)) →
  (∀ last ck tr, frames tr = frames (w_trace w) → answer (w_clock w) (mrp_embed MrpMalloc) ≠ 0 →
     Q (Some (fresh (dom (attrs (w_st w)))))
       (World (alloced p t (value t val) (fresh (dom (attrs (w_st w)))) last (w_st w)) ck tr)) →
  wp (mrp_alloc_attribute p t val) Q w.
Proof.
  intros Hi Hr Hv Htm HN HS. destruct (ready_facts _ _ _ _ _ Hi Hr) as (Ha & H1 & H2 & _).
  pose proof (rd_app _ _ _ _ Hr) as Hq. pose proof (ao_full _ _ _ Ha) as Hf.
  destruct (ao_timeout _ _ _ Ha) as (ms & Hms & _).
  unfold mrp_alloc_attribute. apply wp_bind, wp_now. apply wp_bind, wp_call.
  destruct (_ =? 0) eqn:Em.
  { apply wp_ret. apply HN; [cbn; by rewrite frames_embed|by apply Z.eqb_eq in Em]. }
  apply Z.eqb_neq in Em. apply wp_bind, wp_read_val; [done|]. apply wp_bind, wp_gets. cbn [w_st w_clock w_trace].
  set (a := fresh _) in *. destruct (fresh_attr _) as [app0 reg0]. apply wp_bind, wp_modify. cbn [w_st w_clock w_trace].
  set (x0 := MrpAttribute p app0 reg0 t (value t val)).
  unfold set_list, set_ordered. apply wp_bind, wp_bind. eapply wp_check_type; [exact Hq|done..|]. apply wp_set_app.
  apply wp_bind, wp_bind. eapply wp_check_type; [by apply upd_app_lookup| |done|].
  { cbn. rewrite list_lookup_alter, decide_True by done. by destruct H1 as [? ->]; eauto. }
  apply wp_set_app. cbn [w_st w_clock w_trace]. apply wp_bind, wp_call.
  rewrite (proj2 (Z.ltb_ge _ _)) by apply Htm. cbv zeta. cbn [Z.ltb Z.compare].
  apply wp_bind. eapply (wp_set_attr _ _ x0); [by apply lookup_insert_eq|]. cbn [w_st w_clock w_trace].
  set (x1 := x0 <| registrar ::= _ |>).
  match goal with |- wp _ _ (World ?st _ _) =>
    replace st with (upd_app p (insert_at a t false) (upd_attr a x1 (w_st w))) end.
  2:{ unfold upd_app, upd_attr, over, over_field; cbn. rewrite insert_insert_eq, list_alter_twice. done. }
  set (q1 := insert_at a t false q).
  assert (Hlo : is_Some (attributes_ordered q1 !! t)).
  { cbn. rewrite list_lookup_alter, decide_True by done. by destruct H2 as [? ->]; eauto. }
  assert (Hla : is_Some (attributes q1 !! t)).
  { cbn. rewrite list_lookup_alter, decide_True by done. by destruct H1 as [? ->]; eauto. }
  apply wp_bind. eapply (applicant_sm_exec a x1 q1); [by apply lookup_insert_eq|by apply upd_app_lookup|done|done|].
  cbv zeta. rewrite applicant_begin. intros ck tr Hfr. rewrite andb_false_r.
  set (moved := bool_decide _). change (attr_app x1) with p. cbn [w_st w_clock w_trace] in Hfr |- *.
  match goal with |- wp _ _ (World ?st _ _) =>
    replace st with (upd_app p (insert_at a t moved) (upd_attr a (set_applicant MRP_STATE_VO MRP_ACTION_NONE x1) (w_st w))) end.
  2:{ transitivity (upd_app p (stepped_app a t moved false ∘ insert_at a t false)
         (upd_attr a (set_applicant MRP_STATE_VO MRP_ACTION_NONE x1) (w_st w))).
      - apply (upd_app_ext _ _ q); [done|]. cbn. unfold stepped_app. destruct moved; [|done].
        unfold insert_at, move_last, over, over_field; cbn. f_equal. rewrite list_alter_twice. apply list_alter_ext; [|done].
        intros l Hl. cbn. unfold list_remove. rewrite filter_cons_False; [done|]. by intros []. 
      - rewrite <- upd_app_twice. unfold upd_app, upd_attr, over, over_field; cbn. by rewrite insert_insert_eq. }
  set (x2 := set_applicant MRP_STATE_VO MRP_ACTION_NONE x1).
  unfold mrp_applicant_action_handler. apply wp_bind. eapply wp_get_attr; [by apply lookup_insert_eq|].
  apply wp_bind. eapply wp_get_app; [by apply upd_app_lookup|]. cbn [set_applicant app_action]. apply wp_ret. cbv beta.
  apply wp_bind. eapply (registrar_sm_exec a x2 (insert_at a t moved q) ms); [by apply lookup_insert_eq|by apply upd_app_lookup|done|].
  rewrite registrar_begin. change (participant_type (insert_at a t moved q)) with (participant_type q). rewrite Hf.
  intros ck2 tr2 Hfr2. cbn [indicate]. apply wp_ret. apply wp_ret. cbv beta.
  match goal with |- Q _ (World ?st _ _) => replace st with (alloced p t (value t val) a moved (w_st w)) end.
  - apply HS; [|done]. rewrite Hfr2. cbn [w_trace]. rewrite Hfr. by rewrite !frames_embed.
  - unfold alloced, upd_app, upd_attr, over, over_field; cbn. by rewrite insert_insert_eq.
Qed.

Lemma alloced_lists p t v a last c t' q :
  apps c !! p = Some q → is_Some (attributes q !! t) → is_Some (attributes_ordered q !! t) →
  a ∉ ordered_list p t c →
  attr_list p t' (alloced p t v a last c) =
    (if decide (t' = t) then a :: attr_list p t c else attr_list p t' c) ∧
  ordered_list p t' (alloced p t v a last c) =
    (if decide (t' = t) then if last then ordered_list p t c ++ [a] else a :: ordered_list p t c
     else ordered_list p t' c).
Proof.
  intros Hq [l Hl] [lo Hlo]. unfold attr_list, ordered_list, alloced.
  rewrite (upd_app_lookup _ _ _ q), Hq by done. cbn. intros Hn. case_decide as D.
  - subst t'. rewrite !list_lookup_alter_eq, Hl, Hlo in *. cbn in *. split; [done|]. destruct last; [|done].
    by rewrite list_remove_notin.
  - by rewrite !list_lookup_alter_ne.
Qed.

Lemma insert_at_same a t last q : same_app q (insert_at a t last q).
Proof. by split. Qed.

Lemma inv_alloced E c p t q v a last :
  mrp_inv E c → ready c p t q → attrs c !! a = None → found c p t v None → length v = attribute_value_length t → Forall is_byte v →
  mrp_inv E (alloced p t v a last c).
Proof.
  intros Hi Hr Hfresh Hnew Hlen Hby. destruct (ready_facts _ _ _ _ _ Hi Hr) as (Hao & H1 & H2 & _).
  destruct Hr as [Hq Hen Ht]. set (c' := alloced p t v a last c). set (x := new_attribute p t v).
  assert (Hq' : apps c' !! p = Some (insert_at a t last q)) by (by apply upd_app_lookup).
  assert (Hattrs : attrs c' = <[a := x]> (attrs c)) by done.
  assert (Hnin : ∀ t, a ∉ attr_list p t c).
  { intros t0 Hin. destruct (ao_attr _ _ _ Hao t0 a Hin) as (y & Hy & _). congruence. }
  assert (Hnio : ∀ t, a ∉ ordered_list p t c) by (intros t0; rewrite (ao_perm _ _ _ Hao t0); apply Hnin).
  assert (Hl := λ t', alloced_lists p t v a last c t' q Hq H1 H2 (Hnio t)). fold c' in Hl.
  eapply (mrp_inv_step E E p c); [done|done| |..].
  - eapply upd_only_port; [done|apply insert_at_same].
  - split.
    + intros q1 Hq1 _. assert (q1 = insert_at a t last q) as -> by congruence. cbn. rewrite !length_alter. apply Hao.
    + intros t'. rewrite (proj1 (Hl t')). case_decide; [|apply Hao]. constructor; [apply Hnin|apply Hao].
    + intros t'. destruct (Hl t') as [-> ->]. case_decide; [|apply Hao].
      destruct last; [rewrite <- Permutation_cons_append|]; constructor; apply Hao.
    + intros q1 t' d Hq1. assert (q1 = insert_at a t last q) as -> by congruence. apply (ao_pdu _ _ _ Hao).
  - intros q1 q2 Hq1 Hq2. assert (q1 = q) as -> by congruence. assert (q2 = insert_at a t last q) as -> by congruence.
    cbn. apply alter_nonempty.
  - intros t' b Hb. rewrite (proj1 (Hl t')) in Hb. rewrite Hattrs. case_decide as D; [|].
    + apply elem_of_cons in Hb as [->|Hb]; [exists x; rewrite lookup_insert_eq; by subst t'|].
      rewrite <- D in Hb. destruct (ao_attr _ _ _ Hao t' b Hb) as (y & Hy & ?). exists y. rewrite lookup_insert_ne; [done|congruence].
    + destruct (ao_attr _ _ _ Hao t' b Hb) as (y & Hy & ?). exists y. rewrite lookup_insert_ne; [done|congruence].
  - intros b y. rewrite Hattrs. destruct (decide (b = a)) as [->|Hne].
    + rewrite lookup_insert_eq. intros [= <-] _. split; [by split|]. cbn [attr_type x new_attribute].
      rewrite (proj1 (Hl t)), decide_True by done. split; [by left|].
      by exists (insert_at a t last q).
    + rewrite lookup_insert_ne by done. intros Hy Hyp. split; [by apply (mi_wf _ _ Hi b)|].
      destruct (mi_in _ _ Hi b y Hy) as (Hin & q1 & Hq1 & Hen1 & Hn). rewrite Hyp in *.
      rewrite (proj1 (Hl (attr_type y))). split; [case_decide as D; [rewrite <- D; by right|done]|].
      assert (q1 = q) as -> by congruence. by exists (insert_at a t last q).
  - intros b y Hyp. rewrite Hattrs. destruct (decide (b = a)) as [->|Hne]; [|by rewrite lookup_insert_ne].
    rewrite lookup_insert_eq, Hfresh. split; [|done]. intros [= <-]. by destruct Hyp.
  - assert (Hx : ∀ b y, attrs c !! b = Some y → attr_app y = p → attr_type y = t → attr_val y = v → False).
    { intros b y Hy Hp Hty Hv. apply (Hnew b y Hy). unfold ident. by rewrite Hp, Hty, Hv. }
    intros b1 b2 y1 y2. rewrite Hattrs. destruct (decide (b1 = a)) as [->|N1], (decide (b2 = a)) as [->|N2]; [done|..];
      rewrite ?lookup_insert_eq, ?lookup_insert_ne by done.
    + intros [= <-] Hy _ Hp Hty Hv. exfalso. by apply (Hx b2 y2).
    + intros Hy [= <-] Hp _ Hty Hv. exfalso. by apply (Hx b1 y1).
    + intros Hy1 Hy2 Hp1 Hp2. apply (mi_unique _ _ Hi); try done. congruence.
Qed.

Lemma holds_alloced P E c p t q v a last i :
  mrp_inv E c → attrs c !! a = None → P (new_attribute p t v) = false →
  ready c p t q → holds P (alloced p t v a last c) i ↔ holds P c i.
Proof.
  intros Hi Hfresh HP Hr. unfold holds. cbn. split.
  - intros (b & y & Hy & Hid & Hp). apply lookup_insert_Some in Hy as [[<- <-]|[Hne Hy]]; [congruence|]. eauto.
  - intros (b & y & Hy & Hid & Hp). exists b, y. rewrite lookup_insert_ne; [done|]. congruence.
Qed.

(** ** Requests *)

(** What a request on attribute [i] of port [r] does: afterwards the
    attribute is declared if [d], and nothing else has changed. *)
Record req_post (r : nat) (i : nat * nat * list Z) (d : bool) c c' : Prop := {
  rq_ok : mrp_ok c';
  rq_only : only_port r c c';
  rq_declares : ∀ j, declares c' j ↔ if decide (j = i) then d = true else declares c j;
  rq_registers : ∀ j, registers c' j ↔ registers c j;
  rq_keep : ∀ a y, attrs c !! a = Some y → d = true ∨ attr_app y ≠ r →
     ∃ y', attrs c' !! a = Some y' ∧ same_id y y' ∧ registrar y' = registrar y;
}.

Lemma only_port_upd_alloced p t v a last c q :
  apps c !! p = Some q → only_port p c (alloced p t v a last c).
Proof. intros Hq. eapply upd_only_port; [done|apply insert_at_same]. Qed.

(** The attribute of the value is found or allocated. *)
Record got (p t : nat) (v : list Z) (a : nat) (x : mrp_attribute) c c' : Prop := {
  got_ok : mrp_ok c';
  got_only : only_port p c c';
  got_attr : attrs c' !! a = Some x;
  got_ident : ident x = (p, t, v);
  got_keep : ∀ b y, attrs c !! b = Some y → attrs c' !! b = Some y;
  got_declares : ∀ j, declares c' j ↔ declares c j;
  got_registers : ∀ j, registers c' j ↔ registers c j;
}.

Lemma get_attribute_spec `{!MrpInd C U} p t q val w :
  mrp_ok (w_st w) → ready (w_st w) p t q → val_ok t val → timers_ok →
  wp (mrp_get_attribute p t val) (λ o w', frames (w_trace w') = frames (w_trace w) ∧
    match o with
    | None => w_st w' = w_st w ∧ found (w_st w) p t (value t val) None ∧
              answer (w_clock w) (mrp_embed MrpMalloc) = 0
    | Some a => ∃ x, got p t (value t val) a x (w_st w) (w_st w')
    end) w.
Proof.
  intros Hi Hr Hv Htm. unfold mrp_get_attribute. apply wp_bind.
  eapply wp_mono; [by eapply find_attribute_spec|]. intros o w' (-> & Hf). destruct o as [a|].
  - apply wp_ret. split; [done|]. destruct Hf as (x & Hx & Hid). exists x. by split.
  - eapply alloc_attribute_exec; [done..| |].
    + intros ck tr Hfr Hm. done.
    + intros last ck tr Hfr Hm. split; [done|]. set (a := fresh _).
      assert (Hfa : attrs (w_st w) !! a = None) by (apply not_elem_of_dom, is_fresh).
      assert (Hlen : length (value t val) = attribute_value_length t) by (unfold value; rewrite length_take; destruct Hv; lia).
      assert (Hby : Forall is_byte (value t val)) by (apply list.Forall_take, Hv).
      exists (new_attribute p t (value t val)). split.
      * by eapply inv_alloced.
      * eapply only_port_upd_alloced, Hr.
      * by apply lookup_insert_eq.
      * done.
      * intros b y Hy. cbn. rewrite lookup_insert_ne; [done|]. congruence.
      * intros j. by eapply holds_alloced.
      * intros j. by eapply holds_alloced.
Qed.

(** A request to the applicant: nothing is said yet. *)
Definition request (ev : mrp_protocol_event_t) : Prop :=
  ev = MRP_EVENT_NEW ∨ ev = MRP_EVENT_JOIN ∨ ev = MRP_EVENT_LV.

Lemma applicant_request a x q ev w :
  platform_ok → mrp_ok (w_st w) → attrs (w_st w) !! a = Some x → apps (w_st w) !! attr_app x = Some q →
  request ev →
  wp (mrp_applicant_sm a ev) (λ _ w', ∃ x' moved,
     stepped (λ _, False) a x x' moved [] w w' ∧ same_id x x' ∧ registrar x' = registrar x ∧
     is_declared x' = declared_after ev (is_declared x)) w.
Proof.
  intros Hpl Hi Hx Hq Hev. destruct (attr_type_ok _ _ _ _ _ Hi Hx Hq) as (Hao & _).
  pose proof (applicant_sm_spec (λ _, False) (λ _, False) a x q ev w Hpl Hi Hx Hq (λ b _ Hb, Hb)) as Ha.
  pose proof (applicant_next_declared (participant_type q) (reg_state (registrar x)) ev (app_state (applicant x))
    (ao_full _ _ _ Hao) (wf_app_state _ (mi_wf _ _ Hi a x Hx))) as Hd.
  assert (Hs : applicant_says (participant_type q) ev x = [] ).
  { unfold applicant_says, applicant_next. rewrite (ao_full _ _ _ Hao). by destruct Hev as [->|[->| ->]]. }
  rewrite Hs in Ha. destruct (applicant_next _ _ _ _) as [s act].
  eapply wp_mono; [apply Ha; by auto|]. intros [] w' Hst. by eexists _, _.
Qed.

Lemma mrp_join_request_spec `{!MrpInd C U} p t val new q w :
  platform_ok → timers_ok → mrp_ok (w_st w) → apps (w_st w) !! p = Some q →
  (min_attr_type ≤ t ≤ max_attr_type)%nat → val_ok t val →
  wp (mrp_mad_join_request p t val new) (λ o w', frames (w_trace w') = frames (w_trace w) ∧
     match o with
     | None => w_st w' = w_st w ∧ (enabled q = false ∨ answer (w_clock w) (mrp_embed MrpMalloc) = 0)
     | Some a => enabled q = true ∧ req_post p (p, t, value t val) true (w_st w) (w_st w') ∧
          ∃ x, attrs (w_st w') !! a = Some x ∧ ident x = (p, t, value t val)
     end) w.
Proof.
  intros Hpl Htm Hi Hq Ht Hv. unfold mrp_mad_join_request. apply wp_bind. eapply wp_get_app; [done|].
  destruct (enabled q) eqn:Hen; cbn [negb]; [|apply wp_ret; auto].
  assert (Hr : ready (w_st w) p t q) by by split.
  apply wp_bind. eapply wp_mono; [by eapply get_attribute_spec|]. intros [a|] w1 (Hf1 & H1).
  2:{ apply wp_ret. destruct H1 as (? & _ & ?). auto. }
  destruct H1 as (x & [G1 G2 G3 G4 G5 G6 G7]).
  destruct (op_this _ _ _ G2 q Hq) as (q1 & Hq1 & Hsa).
  assert (Hap : attr_app x = p) by by injection G4. rewrite <- Hap in Hq1.
  apply wp_bind. eapply wp_mono; [apply (applicant_request a x q1); try done; destruct new; [by left|by right; left]|].
  intros [] w2 (x2 & moved & Hs & Hid & Hrg & Hd). apply wp_ret.
  assert (Hd2 : is_declared x2 = true) by by destruct new.
  destruct (sp_quiet _ _ _ _ _ _ _ _ Hs eq_refl) as [Hf2 _].
  split; [by rewrite Hf2|]. split; [done|]. split.
  - split.
    + apply Hs.
    + etrans; [exact G2|]. rewrite <- Hap. apply Hs.
    + intros j. rewrite (holds_update is_declared (λ _, False) (w_st w1) _ a x x2) by (done || apply Hs).
      rewrite G4, Hd2. case_decide; [done|apply G6].
    + intros j. rewrite <- G7. eapply (holds_keep is_registered (λ _, False) (w_st w1) _ a x x2);
        [done|done|done|apply Hs|]. unfold is_registered. by rewrite Hrg.
    + intros b y Hy _. rewrite (sp_attrs _ _ _ _ _ _ _ _ Hs). apply G5 in Hy. destruct (decide (b = a)) as [->|Hne].
      * rewrite lookup_insert_eq. assert (y = x) as -> by congruence. by exists x2.
      * rewrite lookup_insert_ne by done. by exists y.
  - exists x2. rewrite (sp_attrs _ _ _ _ _ _ _ _ Hs), lookup_insert_eq. split; [done|].
    apply same_id_ident in Hid. congruence.
Qed.

Lemma mrp_leave_request_spec p t val q w :
  platform_ok → mrp_ok (w_st w) → apps (w_st w) !! p = Some q →
  (min_attr_type ≤ t ≤ max_attr_type)%nat → val_ok t val →
  wp (mrp_mad_leave_request p t val) (λ _ w', frames (w_trace w') = frames (w_trace w) ∧
     if enabled q then req_post p (p, t, value t val) false (w_st w) (w_st w') else w_st w' = w_st w) w.
Proof.
  intros Hpl Hi Hq Ht Hv. unfold mrp_mad_leave_request. apply wp_bind. eapply wp_get_app; [done|].
  destruct (enabled q) eqn:Hen; cbn [negb]; [|by apply wp_ret].
  assert (Hr : ready (w_st w) p t q) by by split.
  apply wp_bind. eapply wp_mono; [by eapply find_attribute_spec|]. intros o w1 (-> & Hf). destruct o as [a|].
  2:{ apply wp_ret. split; [done|]. split; try done.
      - intros j. case_decide as D; [|done]. subst j. split; [|done].
        intros (b & y & Hy & Hid & _). by destruct (Hf b y Hy).
      - intros b y Hy _. by exists y. }
  destruct Hf as (x & Hx & Hid). assert (Hap : attr_app x = p) by by injection Hid. pose proof Hq as Hq1. rewrite <- Hap in Hq1.
  apply wp_bind. eapply wp_mono; [apply (applicant_request a x q); try done; by right; right|].
  intros [] w2 (x2 & moved & Hs & Hid2 & Hrg & Hd2). cbn in Hd2.
  pose proof (sp_attrs _ _ _ _ _ _ _ _ Hs) as Hat2. pose proof Hid2 as (Ha2 & _ & _).
  assert (Hx2 : attrs (w_st w2) !! a = Some x2) by by rewrite Hat2, lookup_insert_eq.
  destruct (op_this _ _ _ (sp_only _ _ _ _ _ _ _ _ Hs) q Hq1) as (q2 & Hq2 & Hsa).
  pose proof (sp_inv _ _ _ _ _ _ _ _ Hs) as Hi2.
  assert (HD2 : ∀ j, declares (w_st w2) j ↔ if decide (j = (p, t, value t val)) then false = true else declares (w_st w) j).
  { intros j. rewrite (holds_update is_declared (λ _, False) (w_st w) _ a x x2) by done. by rewrite Hid, Hd2. }
  assert (HR2 : ∀ j, registers (w_st w2) j ↔ registers (w_st w) j).
  { intros j. eapply (holds_keep is_registered (λ _, False) (w_st w) _ a x x2); try done.
    unfold is_registered. by rewrite Hrg. }
  rewrite <- Ha2 in Hq2. assert (Hp2 : attr_app x2 = p) by congruence.
  rewrite <- Hp2 at 1. eapply wp_mono; [by eapply free_attribute_check_spec|]. intros [] w3 (Hf3 & E3).
  destruct (sp_quiet _ _ _ _ _ _ _ _ Hs eq_refl) as [Hf2 _]. split; [by rewrite Hf3, Hf2|].
  destruct (attr_type_ok _ _ _ _ _ Hi2 Hx2 Hq2) as (Hao2 & _).
  assert (Hon2 : only_port p (w_st w) (w_st w2)) by (rewrite <- Hap; apply Hs).
  destruct (freeable _ _ _) eqn:Ef; rewrite E3.
  - destruct (freeable_silent _ _ _ (ao_full _ _ _ Hao2) (wf_reg_state _ (mi_wf _ _ Hi2 a x2 Hx2)) Ef) as (F1 & F2 & _).
    split.
    + by apply inv_freed.
    + etrans; [exact Hon2|]. rewrite <- Hp2. apply freed_only_port.
    + intros j. rewrite <- HD2. by apply holds_freed.
    + intros j. rewrite <- HR2. by apply holds_freed.
    + intros b y Hy [?|Hne]; [done|]. cbn. exists y. rewrite lookup_delete_ne, Hat2, lookup_insert_ne; [done|..];
        intros <-; apply Hne; congruence.
  - split; [done|done|done|done|]. intros b y Hy _. rewrite Hat2. destruct (decide (b = a)) as [->|Hne].
    + rewrite lookup_insert_eq. assert (y = x) as -> by congruence. by exists x2.
    + rewrite lookup_insert_ne by done. by exists y.
Qed.
End requests.
