(* ===== verification/MrpJoin.v ===== *)
(** * MRP: the join timer

    One transmission opportunity: every attribute of the port is visited once,
    in the order of its list, what it has to say is sent, and what still needs
    an opportunity has asked for the next one. *)

From S2P Require Import Prelude Timer MrpSm MrpPdu Mrp MrpTx MrpSpec.

Section join.
Context {C U : Type} `{!Platform C, !MrpCalls C, !MrpOps C U, !MrpMemory, !MrpCallsLaws C, !MrpLaws C U}.
Implicit Types (w : world C (mrp_ctx U)) (c : mrp_ctx U).

Definition tx_event (ev : mrp_protocol_event_t) : Prop := ev = MRP_EVENT_TX ∨ ev = MRP_EVENT_TXLA.

(** A transmission opportunity is used: a state that still needs one is new. *)
Lemma tx_moves pt reg ev s :
  tx_event ev → applicant_state s = true → needs_tx (fst (applicant_next pt reg ev s)) = true →
  fst (applicant_next pt reg ev s) ≠ s.
Proof.
  unfold applicant_next. intros [->| ->] Hs; destruct s; try discriminate Hs; cbn;
    unfold applicant_tx; try destruct (decide (reg = MRP_STATE_IN)); destruct (is_full pt); cbn; done.
Qed.

(** An attribute after an opportunity: [None] when it is released. *)
Definition served (pt : Z) (ev : mrp_protocol_event_t) (x : mrp_attribute) : option mrp_attribute :=
  let '(s, act) := applicant_next pt (reg_state (registrar x)) ev (app_state (applicant x)) in
  if freeable pt s (reg_state (registrar x)) then None else Some (set_applicant s act x).

Definition say_all (pt : Z) (ev : mrp_protocol_event_t) (l : list nat) c : list word :=
  concat (map (λ a, match attrs c !! a with Some x => applicant_says pt ev x | None => [] end) l).

(** One attribute. *)
Record visited (E : nat → Prop) (pt : Z) (ev : mrp_protocol_event_t) (a : nat) (x : mrp_attribute) w w' : Prop := {
  vs_inv : mrp_inv (λ b, E b ∧ b ≠ a) (w_st w');
  vs_only : only_port (attr_app x) (w_st w) (w_st w');
  vs_attr : attrs (w_st w') !! a = served pt ev x;
  vs_attrs : ∀ b, b ≠ a → attrs (w_st w') !! b = attrs (w_st w) !! b;
  vs_lists : ∀ t, t ≠ attr_type x → attr_list (attr_app x) t (w_st w') = attr_list (attr_app x) t (w_st w) ∧
     ordered_list (attr_app x) t (w_st w') = ordered_list (attr_app x) t (w_st w);
  vs_ordered : ∀ pre rest, ordered_list (attr_app x) (attr_type x) (w_st w) = pre ++ a :: rest →
     ∃ pre' post, a ∉ rest ∧ ordered_list (attr_app x) (attr_type x) (w_st w') = pre' ++ rest ++ post;
  vs_speaks : healthy → speaks (attr_app x) (λ t, if decide (t = attr_type x) then applicant_says pt ev x else []) w w';
}.

Lemma speaks_same p m w w1 w2 :
  (∀ t d, port_pdu (w_st w2) p t d → port_pdu (w_st w1) p t d) → frames (w_trace w2) = frames (w_trace w1) →
  speaks p m w w1 → speaks p m w w2.
Proof.
  intros Hp Hf S hold Hh. destruct (S hold Hh) as (h' & fs & sent & H1 & H2 & H3 & H4).
  exists h', fs, sent. split; [eauto|]. split; [done|]. split; [by rewrite Hf|done].
Qed.

Lemma port_pdu_freed a x c p t d : port_pdu (freed a x c) p t d → port_pdu c p t d.
Proof.
  intros (q & Hq & Hd). unfold freed, upd_app, over, over_field in Hq; cbn in Hq.
  rewrite list_lookup_alter in Hq. destruct (decide (attr_app x = p)) as [->|]; [|by exists q].
  destruct (apps c !! p) as [q0|] eqn:E; [|done]. injection Hq as <-. by exists q0.
Qed.

Lemma visit_spec E a x q ev w :
  platform_ok → mrp_inv E (w_st w) → attrs (w_st w) !! a = Some x → apps (w_st w) !! attr_app x = Some q →
  tx_event ev →
  wp (mrp_applicant_sm a ev;; mrp_free_attribute_check (attr_app x) a)
    (λ _ w', visited E (participant_type q) ev a x w w') w.
Proof.
  intros Hpl Hi Hx Hq Hev. destruct (attr_type_ok _ _ _ _ _ Hi Hx Hq) as (Hao & _).
  pose proof (mi_wf _ _ Hi a x Hx) as Hwf.
  pose proof (applicant_sm_spec E (λ b, E b ∧ b ≠ a) a x q ev w Hpl Hi Hx Hq (λ b Hb HE, conj HE Hb)) as Ha.
  pose proof (tx_moves (participant_type q) (reg_state (registrar x)) ev (app_state (applicant x)) Hev (wf_app_state _ Hwf)) as Hmv.
  destruct (applicant_next _ _ _ _) as [s act] eqn:En. cbn in Hmv.
  apply wp_bind. eapply wp_mono; [apply Ha; intros Hn _; left; by apply Hmv|]. clear Ha. intros [] w1 Hs. cbv beta.
  set (x1 := set_applicant s act x) in *. pose proof (sp_attrs _ _ _ _ _ _ _ _ Hs) as Hat.
  assert (Hx1 : attrs (w_st w1) !! a = Some x1) by by rewrite Hat, lookup_insert_eq.
  destruct (op_this _ _ _ (sp_only _ _ _ _ _ _ _ _ Hs) q Hq) as (q1 & Hq1 & Hsa).
  eapply wp_mono; [by eapply (free_attribute_check_spec _ a x1 q1); [apply Hs|..]|].
  intros [] w2 (Hf2 & E2). rewrite (sa_ptype _ _ Hsa) in E2.
  change (app_state (applicant x1)) with s in E2. change (reg_state (registrar x1)) with (reg_state (registrar x)) in E2.
  assert (Hord : ∀ pre rest, ordered_list (attr_app x) (attr_type x) (w_st w) = pre ++ a :: rest → a ∉ pre ∧ a ∉ rest).
  { intros pre rest Hl. assert (Hnd : NoDup (ordered_list (attr_app x) (attr_type x) (w_st w)))
      by (rewrite (ao_perm _ _ _ Hao); apply Hao).
    rewrite Hl in Hnd. apply list.NoDup_app in Hnd as (_ & Hd & [Hn _]%list.NoDup_cons). split; [|done].
    intros Hin. apply (Hd a Hin). by left. }
  pose proof (sp_ordered _ _ _ _ _ _ _ _ Hs) as Ho. set (moved := bool_decide _) in *.
  assert (Hsv : served (participant_type q) ev x =
     if freeable (participant_type q) s (reg_state (registrar x)) then None else Some x1) by (unfold served; by rewrite En).
  pose proof (sp_only _ _ _ _ _ _ _ _ Hs) as Hon. pose proof (sp_list _ _ _ _ _ _ _ _ Hs) as Hli.
  assert (Hother : ∀ t, t ≠ attr_type x → attr_list (attr_app x) t (w_st w1) = attr_list (attr_app x) t (w_st w) ∧
     ordered_list (attr_app x) t (w_st w1) = ordered_list (attr_app x) t (w_st w)).
  { intros t Ht. split; [apply Hli|]. rewrite Ho, bool_decide_eq_false_2 by done. by rewrite andb_false_r. }
  assert (Hself : ∀ pre rest, ordered_list (attr_app x) (attr_type x) (w_st w) = pre ++ a :: rest →
     a ∉ pre ∧ a ∉ rest ∧ ordered_list (attr_app x) (attr_type x) (w_st w1) =
       if moved then pre ++ rest ++ [a] else pre ++ a :: rest).
  { intros pre rest Hl. destruct (Hord _ _ Hl) as [H1 H2]. split; [done|]. split; [done|].
    rewrite Ho, Hl, bool_decide_eq_true_2, andb_true_r by done. destruct moved; [|done].
    rewrite list_remove_mid by done. by rewrite app_assoc. }
  destruct (freeable _ _ _) eqn:Ef.
  - assert (Hlf := freed_lists a x1 (w_st w1)). change (attr_app x1) with (attr_app x) in Hlf.
    change (attr_type x1) with (attr_type x) in Hlf. split; rewrite ?E2; rewrite ?Hsv.
    + apply inv_freed; [apply Hs|done].
    + etrans; [exact Hon|]. apply (freed_only_port a x1).
    + cbn. by rewrite lookup_delete_eq.
    + intros b Hb. cbn. by rewrite lookup_delete_ne, Hat, lookup_insert_ne.
    + intros t Ht. destruct (Hlf t) as [-> ->]. rewrite !decide_False by done. by apply Hother.
    + intros pre rest Hl. destruct (Hself _ _ Hl) as (H1 & H2 & Hw1). exists pre, []. split; [done|].
      destruct (Hlf (attr_type x)) as [_ ->]. rewrite decide_True, Hw1, app_nil_r by done. destruct moved.
      * rewrite app_assoc, list_remove_mid, app_nil_r; [done| |apply not_elem_of_nil].
        rewrite elem_of_app. naive_solver.
      * by rewrite list_remove_mid.
    + intros Hok. eapply speaks_same; [|exact Hf2|by apply Hs]. intros t d. rewrite E2. apply port_pdu_freed.
  - split; rewrite ?E2; rewrite ?Hsv.
    + apply Hs.
    + exact Hon.
    + done.
    + intros b Hb. by rewrite Hat, lookup_insert_ne.
    + done.
    + intros pre rest Hl. destruct (Hself _ _ Hl) as (H1 & H2 & ->). destruct moved; [by exists pre, [a]|].
      exists (pre ++ [a]), []. split; [done|]. by rewrite app_nil_r, <- app_assoc.
    + intros Hok. eapply speaks_same; [|exact Hf2|by apply Hs]. intros t d. by rewrite E2.
Qed.

Lemma mrp_inv_mono (E E' : nat → Prop) c : (∀ b, E b → E' b) → mrp_inv E c → mrp_inv E' c.
Proof.
  intros HE [I1 I2 I3 I4 I5]. split; try done. intros a x Hx. destruct (I4 a x Hx) as (Hin & q & Hq & Hen & Hn).
  split; [done|]. exists q. split; [done|]. split; [done|]. intros Hnx Ha. apply Hn; [done|]. by intros ?%HE.
Qed.

(** The attributes [l] of type [t], one after the other. *)
Record swept (E : nat → Prop) (pt : Z) (ev : mrp_protocol_event_t) (p t : nat) (l : list nat) w w' : Prop := {
  sw_inv : mrp_inv (λ b, E b ∧ b ∉ l) (w_st w');
  sw_only : only_port p (w_st w) (w_st w');
  sw_attr : ∀ b x, b ∈ l → attrs (w_st w) !! b = Some x → attrs (w_st w') !! b = served pt ev x;
  sw_attrs : ∀ b, b ∉ l → attrs (w_st w') !! b = attrs (w_st w) !! b;
  sw_lists : ∀ t', t' ≠ t → attr_list p t' (w_st w') = attr_list p t' (w_st w) ∧
     ordered_list p t' (w_st w') = ordered_list p t' (w_st w);
  sw_speaks : healthy → speaks p (λ t', if decide (t' = t) then say_all pt ev l (w_st w) else []) w w';
}.

Lemma say_all_ext pt ev l c c' :
  (∀ a, a ∈ l → attrs c' !! a = attrs c !! a) → say_all pt ev l c' = say_all pt ev l c.
Proof.
  intros H1. unfold say_all. f_equal. apply map_ext_in. intros a Ha. rewrite H1; [done|]. by apply list_elem_of_In.
Qed.

Lemma only_port_tx p c c' : only_port p c c' → tx_enabled p (upper c') = tx_enabled p (upper c).
Proof. intros Ho. apply tx_enabled_law, Ho. Qed.

Lemma swept_cons E pt ev p t a x rest w w1 w' :
  attrs (w_st w) !! a = Some x → attr_app x = p → attr_type x = t → a ∉ rest →
  visited E pt ev a x w w1 → swept (λ b, E b ∧ b ≠ a) pt ev p t rest w1 w' →
  swept E pt ev p t (a :: rest) w w'.
Proof.
  intros Hx <- <- Ha V S.
  assert (Hsay : say_all pt ev rest (w_st w1) = say_all pt ev rest (w_st w)).
  { apply say_all_ext. intros b Hb. apply (vs_attrs _ _ _ _ _ _ _ V). by intros ->. }
  split.
  - eapply mrp_inv_mono; [|apply S]. cbn. intros b [[? ?] ?]. split; [done|]. rewrite elem_of_cons. naive_solver.
  - etrans; [apply V|apply S].
  - intros b y Hb Hy. destruct (decide (b = a)) as [->|Hne].
    + rewrite (sw_attrs _ _ _ _ _ _ _ _ S) by done. rewrite (vs_attr _ _ _ _ _ _ _ V). congruence.
    + apply elem_of_cons in Hb as [?|Hb]; [done|]. apply (sw_attr _ _ _ _ _ _ _ _ S); [done|].
      by rewrite (vs_attrs _ _ _ _ _ _ _ V).
  - intros b [Hne Hb]%not_elem_of_cons. rewrite (sw_attrs _ _ _ _ _ _ _ _ S) by done. by apply V.
  - intros t' Ht'. destruct (sw_lists _ _ _ _ _ _ _ _ S t' Ht') as [-> ->]. by apply V.
  - intros Hok. eapply speaks_ext; [|eapply speaks_trans; [|by apply V|by apply S]].
    + intros t'. cbn. case_decide; [|done]. rewrite Hsay. unfold say_all. cbn. by rewrite Hx.
    + eapply only_port_tx, V.
Qed.

Lemma swept_nil E pt ev p t w : mrp_inv E (w_st w) → swept E pt ev p t [] w w.
Proof.
  intros Hi. split; try done.
  - eapply mrp_inv_mono; [|done]. intros b Hb. split; [done|apply not_elem_of_nil].
  - intros b x Hb. by apply elem_of_nil in Hb.
  - intros _. eapply speaks_ext; [|by apply speaks_silent]. intros t'. by case_decide.
Qed.

Lemma ordered_nodup E c a x q :
  mrp_inv E c → attrs c !! a = Some x → apps c !! attr_app x = Some q →
  NoDup (ordered_list (attr_app x) (attr_type x) c).
Proof.
  intros Hi Hx Hq. destruct (attr_type_ok _ _ _ _ _ Hi Hx Hq) as (Hao & _).
  rewrite (ao_perm _ _ _ Hao). apply Hao.
Qed.

Lemma join_loop_spec E p t q ev last fuel pre a rest post w :
  platform_ok → mrp_inv E (w_st w) → apps (w_st w) !! p = Some q → tx_event ev →
  ordered_list p t (w_st w) = pre ++ (a :: rest) ++ post → NoDup (a :: rest) →
  (∀ b, b ∈ a :: rest → ∃ x, attrs (w_st w) !! b = Some x ∧ attr_app x = p ∧ attr_type x = t) →
  list.last (a :: rest) = Some last → (length (a :: rest) ≤ fuel)%nat →
  wp (mrp_join_loop fuel p t (Some a) last ev) (λ _ w', swept E (participant_type q) ev p t (a :: rest) w w') w.
Proof.
  intros Hpl Hi Hq Hev. revert E fuel pre a post w q Hi Hq.
  induction rest as [|b rest IH]; intros E fuel pre a post w q Hi Hq Hl Hnd Hat Hlast Hfu;
    (destruct fuel as [|fuel]; [cbn in Hfu; lia|]); cbn [mrp_join_loop];
    destruct (Hat a) as (x & Hx & Hap & Hty); [by left| |by left|];
    pose proof Hq as Hq0; rewrite <- Hap in Hq0;
    pose proof (ordered_nodup _ _ _ _ _ Hi Hx Hq0) as Hno; rewrite Hap, Hty, Hl in Hno;
    (apply wp_bind, wp_deref; exists a; split; [done|]); apply wp_bind, wp_gets; rewrite Hl;
    (apply wp_bind, wp_deref; eexists; split;
       [apply list_next_mid; apply list.NoDup_app in Hno as (_ & Hd & _); intros Hin; apply (Hd a Hin); by left|]);
    pose proof (visit_spec E a x q ev w Hpl Hi Hx Hq0 Hev) as Hv; rewrite Hap in Hv;
    apply wp_bind in Hv; apply wp_bind; (eapply wp_mono; [exact Hv|]); clear Hv; intros [] w0 Hv; cbv beta in Hv;
    apply wp_bind; (eapply wp_mono; [exact Hv|]); clear Hv w0; intros [] w1 V; cbv beta.
  - cbn in Hlast. rewrite decide_True by congruence. apply wp_ret.
    eapply swept_cons; [done..|apply not_elem_of_nil|done|]. apply swept_nil. apply V.
  - apply list.NoDup_cons in Hnd as [Hna Hnd].
    assert (Hlast' : list.last (b :: rest) = Some last) by done.
    rewrite decide_False.
    2:{ intros ->. apply Hna. apply last_Some_elem_of in Hlast'. done. }
    cbn [app list.head].
    destruct (op_this _ _ _ (vs_only _ _ _ _ _ _ _ V) q Hq0) as (q1 & Hq1 & Hsa). rewrite Hap in Hq1.
    destruct (vs_ordered _ _ _ _ _ _ _ V pre ((b :: rest) ++ post)) as (pre' & post' & _ & Hl1); [by rewrite Hap, Hty|].
    rewrite Hap, Hty, <- app_assoc in Hl1.
    eapply wp_mono.
    { eapply (IH (λ b, E b ∧ b ≠ a) fuel pre' b (post ++ post') w1 q1); try done.
      - apply V.
      - intros e He. rewrite (vs_attrs _ _ _ _ _ _ _ V); [apply Hat; by right|]. by intros ->.
      - cbn in *. lia. }
    intros [] w2 S. rewrite (sa_ptype _ _ Hsa) in S. by eapply swept_cons.
Qed.

Lemma join_type_spec E p t q ev w :
  platform_ok → mrp_inv E (w_st w) → apps (w_st w) !! p = Some q → enabled q = true → tx_event ev →
  (min_attr_type ≤ t ≤ max_attr_type)%nat →
  wp (mrp_join_type p t ev) (λ _ w', swept E (participant_type q) ev p t (ordered_list p t (w_st w)) w w') w.
Proof.
  intros Hpl Hi Hq Hen Hev Ht. pose proof (mi_app _ _ Hi p q Hq (mi_enabled _ _ Hi p q Hq Hen)) as Ha.
  pose proof attr_types_law. destruct (ao_length _ _ _ Ha) as (L1 & L2 & L3).
  unfold mrp_join_type. apply wp_bind. eapply wp_check_type; [done|apply lookup_lt_is_Some_2; lia..|].
  apply wp_bind, wp_gets. destruct (ordered_list p t (w_st w)) as [|a rest] eqn:Hl.
  { apply wp_ret. by apply swept_nil. }
  destruct (list.last (a :: rest)) as [last|] eqn:Hlast; [|by apply list.last_None in Hlast].
  assert (Hnd : NoDup (a :: rest)) by (rewrite <- Hl, (ao_perm _ _ _ Ha); apply Ha).
  eapply (join_loop_spec E p t q ev last _ [] a rest []); try done.
  - by rewrite app_nil_r.
  - intros b Hb. rewrite <- Hl in Hb. apply (ao_attr _ _ _ Ha). by rewrite <- (ao_perm _ _ _ Ha).
Qed.

(** All types. *)
Record swept_all (E : nat → Prop) (pt : Z) (ev : mrp_protocol_event_t) (p : nat) (ts : list nat) w w' : Prop := {
  al_inv : mrp_inv (λ b, E b ∧ ∀ t, t ∈ ts → b ∉ ordered_list p t (w_st w)) (w_st w');
  al_only : only_port p (w_st w) (w_st w');
  al_attr : ∀ t b x, t ∈ ts → b ∈ ordered_list p t (w_st w) → attrs (w_st w) !! b = Some x →
     attrs (w_st w') !! b = served pt ev x;
  al_attrs : ∀ b, (∀ t, t ∈ ts → b ∉ ordered_list p t (w_st w)) → attrs (w_st w') !! b = attrs (w_st w) !! b;
  al_speaks : healthy →
     speaks p (λ t, if decide (t ∈ ts) then say_all pt ev (ordered_list p t (w_st w)) (w_st w) else []) w w';
}.

Lemma ordered_attr E c p q t b :
  mrp_inv E c → apps c !! p = Some q → enabled q = true → b ∈ ordered_list p t c →
  ∃ x, attrs c !! b = Some x ∧ attr_app x = p ∧ attr_type x = t.
Proof.
  intros Hi Hq Hen Hb. pose proof (mi_app _ _ Hi p q Hq (mi_enabled _ _ Hi p q Hq Hen)) as Ha.
  apply (ao_attr _ _ _ Ha). by rewrite <- (ao_perm _ _ _ Ha).
Qed.

Lemma join_types_spec E p q ev ts w :
  platform_ok → mrp_inv E (w_st w) → apps (w_st w) !! p = Some q → enabled q = true → tx_event ev →
  NoDup ts → (∀ t, t ∈ ts → (min_attr_type ≤ t ≤ max_attr_type)%nat) →
  wp (for_each ts (λ t, mrp_join_type p t ev)) (λ _ w', swept_all E (participant_type q) ev p ts w w') w.
Proof.
  intros Hpl Hi Hq Hen Hev. revert E w q Hi Hq Hen. induction ts as [|t ts IH]; intros E w q Hi Hq Hen Hnd Hts.
  { apply wp_ret. split; try done.
    - eapply mrp_inv_mono; [|done]. intros b Hb. split; [done|]. intros t Ht. by apply elem_of_nil in Ht.
    - intros t b x Ht. by apply elem_of_nil in Ht.
    - intros _. by apply speaks_silent. }
  apply list.NoDup_cons in Hnd as [Hnt Hnd]. cbn [for_each]. apply wp_bind.
  eapply wp_mono; [eapply join_type_spec; try done; apply Hts; by left|]. intros [] w1 S.
  destruct (op_this _ _ _ (sw_only _ _ _ _ _ _ _ _ S) q Hq) as (q1 & Hq1 & Hsa).
  set (l := ordered_list p t (w_st w)) in *.
  assert (Hne : ∀ t', t' ∈ ts → t' ≠ t) by (intros t' Ht' ->; done).
  assert (Hol : ∀ t', t' ∈ ts → ordered_list p t' (w_st w1) = ordered_list p t' (w_st w)).
  { intros t' Ht'. apply (sw_lists _ _ _ _ _ _ _ _ S). by apply Hne. }
  assert (Hdis : ∀ t' b, t' ∈ ts → b ∈ ordered_list p t' (w_st w) → b ∉ l).
  { intros t' b Ht' Hb Hbl. destruct (ordered_attr _ _ _ _ _ _ Hi Hq Hen Hb) as (x & Hx & _ & Hx1).
    destruct (ordered_attr _ _ _ _ _ _ Hi Hq Hen Hbl) as (y & Hy & _ & Hy1). apply (Hne t' Ht'). congruence. }
  eapply wp_mono.
  { eapply (IH _ w1 q1); [apply S|done|by rewrite (sa_enabled _ _ Hsa)|done|]. intros t' Ht'. apply Hts. by right. }
  intros [] w2 A. rewrite (sa_ptype _ _ Hsa) in A. split.
  - eapply mrp_inv_mono; [|apply A]. cbn. intros b [[HE Hb] Hall]. split; [done|].
    intros t' [->|Ht']%elem_of_cons; [done|]. rewrite <- Hol by done. by apply Hall.
  - etrans; [apply S|apply A].
  - intros t' b x [->|Ht']%elem_of_cons Hb Hx.
    + rewrite (al_attrs _ _ _ _ _ _ _ A); [by apply (sw_attr _ _ _ _ _ _ _ _ S)|].
      intros t' Ht'. rewrite Hol by done. intros Hb'. by apply (Hdis t' b).
    + eapply (al_attr _ _ _ _ _ _ _ A); [done|by rewrite Hol|].
      rewrite (sw_attrs _ _ _ _ _ _ _ _ S); [done|by eapply Hdis].
  - intros b Hb. rewrite (al_attrs _ _ _ _ _ _ _ A).
    + apply (sw_attrs _ _ _ _ _ _ _ _ S), Hb. by left.
    + intros t' Ht'. rewrite Hol by done. apply Hb. by right.
  - intros Hok. eapply speaks_ext; [|eapply speaks_trans; [|by apply S|by apply A]].
    + intros t'. cbn. destruct (decide (t' ∈ ts)) as [Ht'|Ht'].
      * rewrite (decide_False (P := t' = t)), (decide_True (P := t' ∈ t :: ts)) by (by apply Hne || by right).
        rewrite Hol by done. cbn. apply say_all_ext. intros b Hb. apply (sw_attrs _ _ _ _ _ _ _ _ S). by eapply Hdis.
      * rewrite app_nil_r. destruct (decide (t' = t)) as [->|Hn].
        -- by rewrite decide_True by by left.
        -- rewrite decide_False; [done|]. by intros [?|?]%elem_of_cons.
    + eapply only_port_tx, S.
Qed.

(** What a transmission leaves alone, all types included. *)
Record sent_only (p : nat) w w' : Prop := {
  so_only : only_port p (w_st w) (w_st w');
  so_attrs : attrs (w_st w') = attrs (w_st w);
  so_lists : ∀ r t, attr_list r t (w_st w') = attr_list r t (w_st w) ∧
     ordered_list r t (w_st w') = ordered_list r t (w_st w);
}.
#[export] Instance sent_only_preorder p : PreOrder (sent_only p).
Proof.
  split; [by split|]. intros a b c [O1 A1 L1] [O2 A2 L2]. split; [by etrans|congruence|].
  intros r t. destruct (L1 r t) as [E1 E2], (L2 r t) as [E3 E4]. split; congruence.
Qed.

Lemma txd_sent_only p t d fs w w' : txd p t d fs w w' → sent_only p w w'.
Proof.
  intros Ht. split; [by eapply txd_only_port|by eapply txd_attrs|]. intros r t'. by eapply txd_lists.
Qed.

Definition idle_at c (p t : nat) : Prop := ∃ d, port_pdu c p t d ∧ pdu_idle d.

Lemma txd_pdu_forward p t d fs w w' t' d1 :
  txd p t d fs w w' → t' ≠ t → port_pdu (w_st w) p t' d1 → port_pdu (w_st w') p t' d1.
Proof.
  intros (u & -> & _) Ht (q & Hq & Hd). eexists. unfold pdu_set, over, over_field; cbn.
  rewrite list_lookup_alter_eq, Hq. split; [done|]. cbn. by rewrite list_lookup_alter_ne.
Qed.

Lemma idle_keep p t d fs w w' t' :
  txd p t d fs w w' → pdu_idle d → idle_at (w_st w) p t' → idle_at (w_st w') p t'.
Proof.
  intros Ht Hi (d1 & Hd1 & H1). destruct (decide (t' = t)) as [->|Hne].
  - exists d. split; [by eapply txd_pdu|done].
  - exists d1. split; [by eapply txd_pdu_forward|done].
Qed.

Lemma idle_holds t d vs : pdu_idle d → pdu_holds t d vs → vs = [].
Proof.
  intros [Hd _] [[_ ->]|(pre & vs0 & v & limit & _ & _ & _ & _ & [(rest & Hd' & _) _ _ _])]; [done|]. congruence.
Qed.

(** The pending PDU of one type is closed and sent. *)
Lemma end_type_spec E p t q w :
  mrp_inv E (w_st w) → apps (w_st w) !! p = Some q → enabled q = true → (min_attr_type ≤ t ≤ max_attr_type)%nat →
  wp (mrp_transmit_end p t) (λ _ w', mrp_inv E (w_st w') ∧ sent_only p w w' ∧ idle_at (w_st w') p t ∧
     (∀ t', idle_at (w_st w) p t' → idle_at (w_st w') p t') ∧ speaks p (λ _, []) w w') w.
Proof.
  intros Hi Hq Hen Ht. pose proof (mi_app _ _ Hi p q Hq (mi_enabled _ _ Hi p q Hq Hen)) as Ha.
  pose proof attr_types_law. destruct (ao_length _ _ _ Ha) as (_ & _ & L3).
  destruct (lookup_lt_is_Some_2 (mrpdu q) t) as [d Hd]; [lia|].
  assert (Hp : port_pdu (w_st w) p t d) by by exists q.
  destruct (ao_pdu _ _ _ Ha t d Hd) as [vs0 Hvs0].
  eapply wp_mono.
  { apply (wp_forall (pdu_holds t d)); [eauto|]. intros vs Hvs. eapply transmit_end_spec; [done|apply Ha|exact Hvs]. }
  intros [] w' Hall. destruct (Hall vs0 Hvs0) as (d' & fs & Htx & Hid & _).
  assert (Hp' : port_pdu (w_st w') p t d') by by eapply txd_pdu.
  split; [|split; [|split; [|split]]].
  - eapply inv_txd; [done..|]. exists []. by left.
  - by eapply txd_sent_only.
  - by exists d'.
  - intros t'. by eapply idle_keep.
  - intros hold Hh. destruct (Hall (hold t) (Hh t d Hp)) as (d2 & fs2 & Htx2 & Hid2 & Hfs).
    exists (λ t', if decide (t' = t) then [] else hold t'), fs2, (match fs2 with [] => [] | _ => [(t, hold t)] end).
    assert (Hp2 := txd_pdu _ _ _ _ _ _ _ Hp Htx2).
    assert (Hhold : ∀ t' d1, port_pdu (w_st w') p t' d1 → pdu_holds t' d1 (if decide (t' = t) then [] else hold t')).
    { intros t' d1 Hd1. case_decide as D.
      - subst t'. rewrite (port_pdu_fun _ _ _ _ _ Hd1 Hp2). by left.
      - apply Hh. by eapply txd_other_pdu. }
    split; [exact Hhold|]. destruct Htx2 as (u & _ & _ & Hfr).
    destruct (hold t) as [|v vs] eqn:Eh.
    + subst fs2. split; [constructor|]. split; [done|]. intros t'. cbn. rewrite app_nil_r.
      case_decide as D; [|done]. subst t'. by rewrite Eh.
    + destruct Hfs as (f & -> & Hf). split; [by repeat constructor|]. split; [done|]. intros t'. unfold sent_of; cbn.
      rewrite app_nil_r. case_decide as D.
      * subst t'. rewrite decide_True by done. cbn. by rewrite Eh, !app_nil_r.
      * by rewrite decide_False.
Qed.

Lemma end_types_spec E p q ts w :
  mrp_inv E (w_st w) → apps (w_st w) !! p = Some q → enabled q = true →
  (∀ t, t ∈ ts → (min_attr_type ≤ t ≤ max_attr_type)%nat) →
  wp (for_each ts (λ t, mrp_transmit_end p t)) (λ _ w', mrp_inv E (w_st w') ∧ sent_only p w w' ∧
     (∀ t, t ∈ ts ∨ idle_at (w_st w) p t → idle_at (w_st w') p t) ∧ speaks p (λ _, []) w w') w.
Proof.
  intros Hi Hq Hen. revert w q Hi Hq Hen. induction ts as [|t ts IH]; intros w q Hi Hq Hen Hts.
  { apply wp_ret. split; [done|]. split; [done|]. split; [|by apply speaks_silent].
    by intros t [Ht%elem_of_nil|]. }
  cbn [for_each]. apply wp_bind. eapply wp_mono; [eapply end_type_spec; try done; apply Hts; by left|].
  intros [] w1 (Hi1 & S1 & I1 & K1 & P1). destruct (op_this _ _ _ (so_only _ _ _ S1) q Hq) as (q1 & Hq1 & Hsa).
  eapply wp_mono; [apply (IH w1 q1); [done|done|by rewrite (sa_enabled _ _ Hsa)|]|].
  { intros t' Ht'. apply Hts. by right. }
  intros [] w2 (Hi2 & S2 & I2 & P2). split; [done|]. split; [by etrans|]. split.
  - intros t' [[->|Ht']%elem_of_cons|Ht']; apply I2; auto.
  - eapply speaks_ext; [|eapply speaks_trans; [|exact P1|exact P2]]; [done|]. eapply only_port_tx, S1.
Qed.

(** ** Updates of the other fields of an application *)

Record same_lists (q q' : mrp_application) : Prop := {
  sl_attributes : attributes q' = attributes q;
  sl_ordered : attributes_ordered q' = attributes_ordered q;
  sl_mrpdu : mrpdu q' = mrpdu q;
  sl_type : type q' = type q;
  sl_ptype : participant_type q' = participant_type q;
  sl_enabled : enabled q' = enabled q;
  sl_created : st_created (join q') = st_created (join q);
}.

Lemma upd_app_lists p f c q r t :
  apps c !! p = Some q → same_lists q (f q) →
  attr_list r t (upd_app p f c) = attr_list r t c ∧ ordered_list r t (upd_app p f c) = ordered_list r t c.
Proof.
  intros Hq [L1 L2 _ _ _ _ _]. unfold attr_list, ordered_list. destruct (decide (r = p)) as [->|Hr].
  - by rewrite (upd_app_lookup _ _ _ q), Hq, L1, L2.
  - by rewrite upd_app_other.
Qed.

Lemma inv_upd_frame (E E' : nat → Prop) p f c q :
  mrp_inv E c → apps c !! p = Some q → same_lists q (f q) → (∀ b, E b → E' b) →
  (st_running (join q) = true → st_running (join (f q)) = true ∨
     ∀ a x, attrs c !! a = Some x → attr_app x = p → E' a) →
  mrp_inv E' (upd_app p f c).
Proof.
  intros Hi Hq Hsl HE Hr. assert (Hl := λ r t, upd_app_lists p f c q r t Hq Hsl).
  assert (Hq' : apps (upd_app p f c) !! p = Some (f q)) by by apply upd_app_lookup.
  destruct Hsl as [L1 L2 L3 L4 L5 L6 L7]. split.
  - intros r q1 Hq1 Hne. destruct (decide (r = p)) as [->|Hrp].
    + rewrite Hq' in Hq1. injection Hq1 as <-. rewrite L1 in Hne. pose proof (mi_app _ _ Hi p q Hq Hne) as Ha.
      split; rewrite ?L1, ?L2, ?L3, ?L5, ?L6, ?L7; try apply Ha.
      * intros t. rewrite (proj1 (Hl _ _)). apply Ha.
      * intros t. destruct (Hl p t) as [-> ->]. apply Ha.
      * intros t. rewrite (proj1 (Hl _ _)). apply Ha.
    + rewrite upd_app_other in Hq1 by done. pose proof (mi_app _ _ Hi r q1 Hq1 Hne) as Ha.
      split; try apply Ha.
      * intros t. rewrite (proj1 (Hl _ _)). apply Ha.
      * intros t. destruct (Hl r t) as [-> ->]. apply Ha.
      * intros t. rewrite (proj1 (Hl _ _)). apply Ha.
  - intros r q1 Hq1 Hen. destruct (decide (r = p)) as [->|Hrp].
    + rewrite Hq' in Hq1. injection Hq1 as <-. rewrite L1. rewrite L6 in Hen. by apply (mi_enabled _ _ Hi p).
    + rewrite upd_app_other in Hq1 by done. by apply (mi_enabled _ _ Hi r).
  - apply Hi.
  - intros a x Hx. destruct (mi_in _ _ Hi a x Hx) as (Hin & q1 & Hq1 & Hen & Hn).
    rewrite (proj1 (Hl _ _)). split; [done|]. destruct (decide (attr_app x = p)) as [Hp|Hp].
    + rewrite Hp in *. assert (q1 = q) as -> by congruence. exists (f q). split; [done|]. split; [by rewrite L6|].
      intros Hnx HEa. destruct (Hr (Hn Hnx (λ H, HEa (HE a H)))) as [|Hall]; [done|]. exfalso. by eapply HEa, Hall.
    + exists q1. rewrite upd_app_other by done. split; [done|]. split; [done|].
      intros Hnx HEa. apply Hn; [done|]. intros ?%HE. done.
  - apply Hi.
Qed.

(** ** Leave-all *)

(** The attributes of the types [ts] of port [p] have been told to leave. *)
Record all_left (p : nat) (ts : list nat) w w' : Prop := {
  la_only : only_port p (w_st w) (w_st w');
  la_list : ∀ t, attr_list p t (w_st w') = attr_list p t (w_st w);
  la_none : ∀ b, attrs (w_st w) !! b = None → attrs (w_st w') !! b = None;
  la_left : ∀ b x, attrs (w_st w) !! b = Some x → attr_app x = p → attr_type x ∈ ts →
     ∃ x', attrs (w_st w') !! b = Some x' ∧ left_all x x';
  la_same : ∀ b x, attrs (w_st w) !! b = Some x → attr_app x ≠ p ∨ attr_type x ∉ ts → attrs (w_st w') !! b = Some x;
  la_frames : frames (w_trace w') = frames (w_trace w);
  la_pdu : ∀ t d, port_pdu (w_st w') p t d → port_pdu (w_st w) p t d;
}.

Lemma lva_type_spec `{!MrpInd C U} E p t q w :
  platform_ok → mrp_inv E (w_st w) → apps (w_st w) !! p = Some q → enabled q = true →
  wp (list_each (attr_list p t) (λ a, let! _ := mrp_process_attribute_event a MRP_ATTR_EVT_LVA in ret tt))
    (λ _ w', mrp_inv E (w_st w') ∧ all_left p [t] w w') w.
Proof.
  intros Hpl Hi Hq Hen. pose proof (mi_app _ _ Hi p q Hq (mi_enabled _ _ Hi p q Hq Hen)) as Ha.
  set (I := λ (l : list nat) w', mrp_inv E (w_st w') ∧ only_port p (w_st w) (w_st w') ∧
     (∀ t, attr_list p t (w_st w') = attr_list p t (w_st w)) ∧
     (∃ done_, attr_list p t (w_st w) = done_ ++ l) ∧
     (∀ b, b ∈ l → attrs (w_st w') !! b = attrs (w_st w) !! b) ∧
     (∀ b, b ∉ attr_list p t (w_st w) → attrs (w_st w') !! b = attrs (w_st w) !! b) ∧
     (∀ b x, b ∈ attr_list p t (w_st w) → b ∉ l → attrs (w_st w) !! b = Some x →
        ∃ x', attrs (w_st w') !! b = Some x' ∧ left_all x x') ∧
     frames (w_trace w') = frames (w_trace w) ∧ ∀ t d, port_pdu (w_st w') p t d → port_pdu (w_st w) p t d).
  eapply wp_mono; [apply (wp_list_each (attr_list p t) I)|].
  - intros pre a l w' Hnd Hl (Hi' & Ho' & Hli & (dn & Hdn) & Hrest & Hout & Hdone & Hf & Hpd).
    assert (Hal : a ∈ attr_list p t (w_st w)) by (rewrite Hdn; set_solver).
    destruct (ao_attr _ _ _ Ha t a Hal) as (x & Hx & Hxp & Hxt).
    assert (Hx' : attrs (w_st w') !! a = Some x) by (rewrite Hrest; [done|by left]).
    apply wp_bind. eapply wp_mono; [by apply (lva_spec E a x)|]. intros rc w2 (x' & moved & Hla & Hs). apply wp_ret. cbv beta.
    pose proof (sp_only _ _ _ _ _ _ _ _ Hs) as Ho2. pose proof (sp_list _ _ _ _ _ _ _ _ Hs) as Hl2.
    rewrite Hxp in Ho2, Hl2. pose proof (sp_attrs _ _ _ _ _ _ _ _ Hs) as Ha2.
    destruct (sp_quiet _ _ _ _ _ _ _ _ Hs eq_refl) as [Hf2 Hp2]. rewrite Hxp in Hp2.
    assert (Hal' : a ∉ l).
    { apply list.NoDup_app in Hnd as (_ & _ & [? _]%list.NoDup_cons). done. }
    split.
    + exists (pre ++ [a]). rewrite Hl2, Hl, <- app_assoc. split; [done|]. done.
    + split; [apply Hs|]. split; [by etrans|]. split; [intros t0; by rewrite Hl2|].
      split; [exists (dn ++ [a]); by rewrite Hdn, <- app_assoc|]. split; [|split; [|split; [|split]]].
      * intros b Hb. rewrite Ha2, lookup_insert_ne by (by intros ->). apply Hrest. by right.
      * intros b Hb. rewrite Ha2, lookup_insert_ne by (by intros ->). by apply Hout.
      * intros b y Hb Hbl Hy. rewrite Ha2. destruct (decide (b = a)) as [->|Hne].
        -- rewrite lookup_insert_eq. assert (y = x) as -> by congruence. by exists x'.
        -- rewrite lookup_insert_ne by done. apply Hdone; [done| |done]. by intros [?|?]%elem_of_cons.
      * by rewrite Hf2.
      * intros t0 d Hd. by apply Hpd, Hp2.
  - apply Ha.
  - split; [done|]. split; [done|]. split; [done|]. split; [by exists []|]. split; [done|]. split; [done|].
    split; [|done]. intros b x Hb Hbn. done.
  - intros [] w' (Hi' & Ho' & Hli & _ & _ & Hout & Hdone & Hf & Hpd). split; [done|].
    assert (Hin : ∀ b x, attrs (w_st w) !! b = Some x → b ∈ attr_list p t (w_st w) ↔ attr_app x = p ∧ attr_type x = t).
    { intros b x Hx. split.
      - intros Hb. destruct (ao_attr _ _ _ Ha t b Hb) as (y & Hy & ? & ?). by assert (y = x) as -> by congruence.
      - intros [<- <-]. by apply (mi_in _ _ Hi). }
    split; try done.
    + intros b Hb. rewrite Hout; [done|]. intros Hb'. destruct (ao_attr _ _ _ Ha t b Hb') as (y & Hy & _). congruence.
    + intros b x Hx Hp Ht%list_elem_of_singleton. apply Hdone; [by apply (Hin b x Hx)|apply not_elem_of_nil|done].
    + intros b x Hx Hn. rewrite Hout; [done|]. rewrite (Hin b x Hx). rewrite list_elem_of_singleton in Hn. intros []. by destruct Hn.
Qed.

Lemma all_left_nil p w : all_left p [] w w.
Proof. split; try done. intros b x _ _ Ht. by apply elem_of_nil in Ht. Qed.

Lemma all_left_cons p t ts w w1 w2 :
  t ∉ ts → all_left p [t] w w1 → all_left p ts w1 w2 → all_left p (t :: ts) w w2.
Proof.
  intros Ht A1 A2. split.
  - etrans; [apply A1|apply A2].
  - intros t'. by rewrite (la_list _ _ _ _ A2), (la_list _ _ _ _ A1).
  - intros b Hb. by apply (la_none _ _ _ _ A2), (la_none _ _ _ _ A1).
  - intros b x Hx Hp [Hxt|Hxt]%elem_of_cons.
    + destruct (la_left _ _ _ _ A1 b x Hx Hp) as (x' & Hx' & Hl); [set_solver|]. exists x'. split; [|done].
      destruct Hl as ((_ & Ht' & _) & _). apply (la_same _ _ _ _ A2); [done|]. right. congruence.
    + apply (la_left _ _ _ _ A2); [|done|done]. apply (la_same _ _ _ _ A1); [done|]. right. set_solver.
  - intros b x Hx Hn. apply (la_same _ _ _ _ A2); [apply (la_same _ _ _ _ A1); [done|]|]; set_solver.
  - by rewrite (la_frames _ _ _ _ A2), (la_frames _ _ _ _ A1).
  - intros t' d Hd. by apply (la_pdu _ _ _ _ A1), (la_pdu _ _ _ _ A2).
Qed.

Lemma lva_types_spec `{!MrpInd C U} E p q ts w :
  platform_ok → mrp_inv E (w_st w) → apps (w_st w) !! p = Some q → enabled q = true → NoDup ts →
  (∀ t, t ∈ ts → (min_attr_type ≤ t ≤ max_attr_type)%nat) →
  wp (for_each ts (λ t, check_type p t;;
        list_each (attr_list p t) (λ a, let! _ := mrp_process_attribute_event a MRP_ATTR_EVT_LVA in ret tt)))
    (λ _ w', mrp_inv E (w_st w') ∧ all_left p ts w w') w.
Proof.
  intros Hpl. revert w q. induction ts as [|t ts IH]; intros w q Hi Hq Hen Hnd Hts.
  { apply wp_ret. split; [done|apply all_left_nil]. }
  apply list.NoDup_cons in Hnd as [Hnt Hnd].
  pose proof (mi_app _ _ Hi p q Hq (mi_enabled _ _ Hi p q Hq Hen)) as Ha.
  pose proof attr_types_law. destruct (ao_length _ _ _ Ha) as (L1 & L2 & L3).
  assert (Ht : (min_attr_type ≤ t ≤ max_attr_type)%nat) by (apply Hts; by left).
  cbn [for_each]. apply wp_bind, wp_bind. eapply wp_check_type; [done|apply lookup_lt_is_Some_2; lia..|].
  eapply wp_mono; [by eapply lva_type_spec|]. intros [] w1 (Hi1 & A1). cbv beta.
  destruct (op_this _ _ _ (la_only _ _ _ _ A1) q Hq) as (q1 & Hq1 & Hsa).
  eapply wp_mono; [apply (IH w1 q1); [done|done|by rewrite (sa_enabled _ _ Hsa)|done|]|].
  { intros t' Ht'. apply Hts. by right. }
  intros [] w2 (Hi2 & A2). split; [done|]. by eapply all_left_cons.
Qed.

Lemma say_leaveall_spec E p q t w :
  platform_ok → mrp_inv E (w_st w) → apps (w_st w) !! p = Some q → enabled q = true →
  (min_attr_type ≤ t ≤ max_attr_type)%nat →
  wp (mrp_transmit_action p t None 0 true) (λ _ w', mrp_inv E (w_st w') ∧ sent_only p w w' ∧
     (∀ t', t' ≠ t → idle_at (w_st w) p t' → idle_at (w_st w') p t') ∧
     (healthy → idle_at (w_st w) p t → speaks p (λ t', if decide (t' = t) then [SayLeaveAll] else []) w w')) w.
Proof.
  intros Hpl Hi Hq Hen Ht. pose proof (mi_app _ _ Hi p q Hq (mi_enabled _ _ Hi p q Hq Hen)) as Ha.
  pose proof attr_types_law. destruct (ao_length _ _ _ Ha) as (_ & _ & L3).
  destruct (lookup_lt_is_Some_2 (mrpdu q) t) as [d Hd]; [lia|].
  assert (Hp : port_pdu (w_st w) p t d) by by exists q.
  destruct (ao_pdu _ _ _ Ha t d Hd) as [vs Hvs].
  eapply wp_mono; [by eapply transmit_leaveall_spec|]. intros [] w' (d' & vs' & Htx & Hd' & Hsay).
  split; [|split; [|split]].
  - eapply inv_txd; [done..|]. by exists vs'.
  - by eapply txd_sent_only.
  - intros t' Hne (d1 & Hd1 & H1). exists d1. split; [by eapply txd_pdu_forward|done].
  - intros Hok (d0 & Hd0 & Hid0) hold Hh.
    rewrite (port_pdu_fun _ _ _ _ _ Hd0 Hp) in Hid0. rewrite (idle_holds _ _ _ Hid0 Hvs) in *.
    destruct (Hsay eq_refl) as [Hs|[Hn _]]; [|done].
    exists (λ t', if decide (t' = t) then vs' else hold t'), [], []. split; [|split; [constructor|split]].
    + intros t' d1 Hd1. case_decide as D.
      * subst t'. by rewrite (port_pdu_fun _ _ _ _ _ Hd1 (txd_pdu _ _ _ _ _ _ _ Hp Htx)).
      * apply Hh. by eapply txd_other_pdu.
    + destruct Htx as (u & _ & _ & ->). done.
    + intros t'. cbn. case_decide as D; [|by rewrite app_nil_r]. subst t'.
      rewrite (idle_holds _ _ _ Hid0 (Hh t d Hp)). done.
Qed.

Lemma say_leavealls_spec E p q ts w :
  platform_ok → mrp_inv E (w_st w) → apps (w_st w) !! p = Some q → enabled q = true → NoDup ts →
  (∀ t, t ∈ ts → (min_attr_type ≤ t ≤ max_attr_type)%nat) →
  wp (for_each ts (λ t, mrp_transmit_action p t None 0 true)) (λ _ w', mrp_inv E (w_st w') ∧ sent_only p w w' ∧
     (healthy → (∀ t, t ∈ ts → idle_at (w_st w) p t) →
      speaks p (λ t, if decide (t ∈ ts) then [SayLeaveAll] else []) w w')) w.
Proof.
  intros Hpl. revert w q. induction ts as [|t ts IH]; intros w q Hi Hq Hen Hnd Hts.
  { apply wp_ret. split; [done|]. split; [done|]. intros _ _. by apply speaks_silent. }
  apply list.NoDup_cons in Hnd as [Hnt Hnd]. cbn [for_each]. apply wp_bind.
  eapply wp_mono; [eapply say_leaveall_spec; try done; apply Hts; by left|].
  intros [] w1 (Hi1 & S1 & I1 & P1). destruct (op_this _ _ _ (so_only _ _ _ S1) q Hq) as (q1 & Hq1 & Hsa).
  eapply wp_mono; [apply (IH w1 q1); [done|done|by rewrite (sa_enabled _ _ Hsa)|done|]|].
  { intros t' Ht'. apply Hts. by right. }
  intros [] w2 (Hi2 & S2 & P2). split; [done|]. split; [by etrans|]. intros Hok Hid.
  eapply speaks_ext; [|eapply speaks_trans; [|apply P1; [done|apply Hid; by left]|apply P2; [done|]]].
  - intros t'. cbn. destruct (decide (t' = t)) as [->|Hne].
    + by rewrite (decide_False (P := t ∈ ts)), (decide_True (P := t ∈ t :: ts)) by (done || by left).
    + destruct (decide (t' ∈ ts)) as [Hin|Hin].
      * by rewrite decide_True by by right.
      * rewrite decide_False; [done|]. by intros [?|?]%elem_of_cons.
  - eapply only_port_tx, S1.
  - intros t' Ht'. apply I1; [by intros ->|]. apply Hid. by right.
Qed.

Lemma elem_of_attr_types t : t ∈ attr_types ↔ (min_attr_type ≤ t ≤ max_attr_type)%nat.
Proof. unfold attr_types. rewrite elem_of_seq. pose proof attr_types_law. lia. Qed.
Lemma NoDup_attr_types : NoDup attr_types.
Proof. apply NoDup_seq. Qed.

Lemma ready_pdu E c p q t :
  mrp_inv E c → apps c !! p = Some q → enabled q = true → (min_attr_type ≤ t ≤ max_attr_type)%nat →
  is_Some (mrpdu q !! t).
Proof.
  intros Hi Hq Hen Ht. pose proof (mi_app _ _ Hi p q Hq (mi_enabled _ _ Hi p q Hq Hen)) as Ha.
  pose proof attr_types_law. destruct (ao_length _ _ _ Ha) as (_ & _ & L3). apply lookup_lt_is_Some_2. lia.
Qed.

Definition set_lva (s : mrp_protocol_timer_state_t) (act : mrp_protocol_action_t) (q : mrp_application) : mrp_application :=
  q <| leaveall ::= λ l, l <| lva_state := s |> <| lva_action := act |> |>.
Definition lva_active (q : mrp_application) : bool := bool_decide (lva_state (leaveall q) = MRP_TIMER_ACTIVE).
(** The state machine of the leave-all on a transmission opportunity. *)
Definition lva_tx (q : mrp_application) : mrp_application :=
  set_lva MRP_TIMER_PASSIVE (if lva_active q then MRP_ACTION_SLA else MRP_ACTION_NONE) q.

Lemma leaveall_tx_spec `{!MrpInd C U} E p q w :
  platform_ok → mrp_inv E (w_st w) → apps (w_st w) !! p = Some q → enabled q = true → is_full (participant_type q) = true →
  wp (mrp_leaveall_sm p MRP_EVENT_TX) (λ _ w', ∃ w1,
     let w0 := World (upd_app p lva_tx (w_st w)) (w_clock w) (w_trace w) in
     all_left p (if lva_active q then attr_types else []) w0 w1 ∧
     mrp_inv E (w_st w1) ∧ mrp_inv E (w_st w') ∧ sent_only p w1 w' ∧ (lva_active q = false → w1 = w0) ∧
     (healthy → (∀ t, t ∈ attr_types → idle_at (w_st w) p t) →
      speaks p (λ t, if lva_active q then if decide (t ∈ attr_types) then [SayLeaveAll] else [] else []) w1 w')) w.
Proof.
  intros Hpl Hi Hq Hen Hf. unfold mrp_leaveall_sm. apply wp_bind. eapply wp_get_app; [done|]. rewrite Hf. cbn [negb].
  set (w0 := World (upd_app p lva_tx (w_st w)) (w_clock w) (w_trace w)).
  assert (Hi0 : mrp_inv E (w_st w0)) by (by eapply inv_upd_frame; [done|done|by split|done|by left]).
  assert (Hq0 : apps (w_st w0) !! p = Some (lva_tx q)) by by apply upd_app_lookup.
  unfold mrp_leaveall_action_handler, lva_active in *. case_decide as D.
  - rewrite bool_decide_eq_true_2 in * by done. apply wp_bind, wp_ret. apply wp_bind, wp_set_app.
    assert (E0 : upd_app p (λ q, q <| leaveall ::= λ l, l <| lva_state := (MRP_TIMER_PASSIVE, MRP_ACTION_SLA).1 |>
        <| lva_action := (MRP_TIMER_PASSIVE, MRP_ACTION_SLA).2 |> |>) (w_st w) = w_st w0).
    { apply (upd_app_ext _ _ q); [done|]. cbn. unfold lva_tx, lva_active. by rewrite bool_decide_eq_true_2. }
    rewrite E0. clear E0. change (World (w_st w0) (w_clock w) (w_trace w)) with w0.
    apply wp_bind. eapply wp_get_app; [exact Hq0|].
    assert (Ha : lva_action (leaveall (lva_tx q)) = MRP_ACTION_SLA).
    { unfold lva_tx, lva_active. by rewrite bool_decide_eq_true_2. }
    rewrite Ha. apply wp_bind.
    eapply wp_mono; [apply (lva_types_spec E p (lva_tx q)); [done|done|done|done|apply NoDup_attr_types|by intros t ?%elem_of_attr_types]|].
    intros [] w1 (Hi1 & A1). cbv beta. destruct (op_this _ _ _ (la_only _ _ _ _ A1) _ Hq0) as (q1 & Hq1 & Hsa).
    eapply wp_mono; [apply (say_leavealls_spec E p q1); [done|done|done|by rewrite (sa_enabled _ _ Hsa)|
      apply NoDup_attr_types|by intros t ?%elem_of_attr_types]|].
    intros [] w2 (Hi2 & S2 & P2). exists w1. split; [done|]. split; [done|]. split; [done|]. split; [done|]. split; [done|].
    intros Hok Hid. apply P2; [done|]. intros t Ht. destruct (Hid t Ht) as (d & (q2 & Hq2 & Hd) & Hdi).
    assert (q2 = q) as -> by congruence.
    assert (Hmt : is_Some (mrpdu q1 !! t)).
    { destruct (ready_pdu E (w_st w1) p q1 t Hi1 Hq1) as [d1 Hd1]; [by rewrite (sa_enabled _ _ Hsa)|by apply elem_of_attr_types|].
      by exists d1. }
    destruct Hmt as [d1 Hd1]. exists d1. assert (Hp1 : port_pdu (w_st w1) p t d1) by by exists q1.
    split; [done|]. apply (la_pdu _ _ _ _ A1) in Hp1 as (q3 & Hq3 & Hd3).
    assert (q3 = lva_tx q) as -> by congruence. cbn in Hd3. by assert (d1 = d) as -> by congruence.
  - rewrite bool_decide_eq_false_2 in * by done. apply wp_bind, wp_ret. apply wp_bind, wp_set_app.
    assert (E0 : upd_app p (λ q0, q0 <| leaveall ::= λ l, l <| lva_state := (lva_state (leaveall q), MRP_ACTION_NONE).1 |>
        <| lva_action := (lva_state (leaveall q), MRP_ACTION_NONE).2 |> |>) (w_st w) = w_st w0).
    { apply (upd_app_ext _ _ q); [done|]. cbn. unfold lva_tx, lva_active. rewrite bool_decide_eq_false_2 by done.
      destruct q as [? ? [[] ? ?] ? ? ? ? ? ? ?]; done. }
    rewrite E0. clear E0. change (World (w_st w0) (w_clock w) (w_trace w)) with w0.
    apply wp_bind. eapply wp_get_app; [exact Hq0|].
    assert (Ha : lva_action (leaveall (lva_tx q)) = MRP_ACTION_NONE).
    { unfold lva_tx, lva_active. by rewrite bool_decide_eq_false_2. }
    rewrite Ha. apply wp_ret. exists w0. split; [apply all_left_nil|]. split; [done|]. split; [done|]. split; [done|]. split; [done|].
    intros _ _. by apply speaks_silent.
Qed.

(** The expiry of the join timer. *)
Definition join_expires `{!MrpInd C U} (p : nat) : M C (mrp_ctx U) unit :=
  set_app p (λ q, q <| join ::= soft_stop |>);; mrp_join_timer_handler p.

(** A transmission opportunity of port [p], with or without a leave-all. *)
Record opportunity (p : nat) (q : mrp_application) w w' : Prop := {
  opp_ok : mrp_ok (w_st w');
  opp_kept : kept (w_st w) (w_st w');
  opp_tx : tx_rel (upper (w_st w)) (upper (w_st w'));
  opp_idle : ∀ t, t ∈ attr_types → idle_at (w_st w') p t;
  opp_none : ∀ b, attrs (w_st w) !! b = None → attrs (w_st w') !! b = None;
  opp_other : ∀ b x, attrs (w_st w) !! b = Some x → attr_app x ≠ p → attrs (w_st w') !! b = Some x;
  opp_words : ∃ (ready : nat → option mrp_attribute) (order : nat → list nat),
    let ev := if lva_active q then MRP_EVENT_TXLA else MRP_EVENT_TX in
    (∀ b x, attrs (w_st w) !! b = Some x → attr_app x = p → ∃ x', ready b = Some x' ∧
       (if lva_active q then left_all x x' else x' = x) ∧ attrs (w_st w') !! b = served (participant_type q) ev x') ∧
    (∀ t, t ∈ attr_types → order t ≡ₚ attr_list p t (w_st w)) ∧
    (lva_active q = false → ∀ t, order t = ordered_list p t (w_st w)) ∧
    (healthy → (∀ t, t ∈ attr_types → idle_at (w_st w) p t) →
     ∃ (fs : list (list Z)) (sent : list (nat * list mrp_vec)),
       Forall2 (λ f s, frame_holds s.1 f s.2) fs sent ∧
       frames (w_trace w') = (if tx_enabled p (upper (w_st w)) then map (pair p) fs else []) ++ frames (w_trace w) ∧
       ∀ t, t ∈ attr_types → says (sent_of t sent) =
         (if lva_active q then [SayLeaveAll] else []) ++
         concat (map (λ a, default [] (applicant_says (participant_type q) ev <$> ready a)) (order t)));
}.

Lemma list_choice {A B} (b0 : B) (P : nat → A → B → Prop) (l : list A) :
  (∀ i a, l !! i = Some a → ∃ b, P i a b) → ∃ f : nat → B, ∀ i a, l !! i = Some a → P i a (f i).
Proof.
  revert P. induction l as [|a l IH]; intros P HP; [by exists (λ _, b0)|].
  destruct (HP 0%nat a eq_refl) as [b Hb]. destruct (IH (λ i, P (S i))) as [f Hf]; [intros i a' Ha'; by apply (HP (S i))|].
  exists (λ i, match i with O => b | S i => f i end). intros [|i] a' Ha'; [by injection Ha' as <-|by apply Hf].
Qed.

(** Some contents of the PDUs, empty where they are idle. *)
Lemma some_holds E p q w :
  mrp_inv E (w_st w) → apps (w_st w) !! p = Some q → enabled q = true →
  (∀ t, t ∈ attr_types → idle_at (w_st w) p t) →
  ∃ hold : nat → list mrp_vec, (∀ t d, port_pdu (w_st w) p t d → pdu_holds t d (hold t)) ∧
    ∀ t, t ∈ attr_types → hold t = [].
Proof.
  intros Hi Hq Hen Hid. pose proof (mi_app _ _ Hi p q Hq (mi_enabled _ _ Hi p q Hq Hen)) as Ha.
  destruct (list_choice [] (λ t d vs, pdu_holds t d vs) (mrpdu q)) as [f Hf]; [apply (ao_pdu _ _ _ Ha)|].
  exists (λ t, if decide (t ∈ attr_types) then [] else f t). split; [|intros t Ht; by rewrite decide_True].
  intros t d Hp. pose proof Hp as (q' & Hq' & Hd). assert (q' = q) as -> by congruence. case_decide as D; [|by apply Hf].
  destruct (Hid t D) as (d' & Hd' & Hdi). rewrite (port_pdu_fun _ _ _ _ _ Hp Hd'). by left.
Qed.

Lemma mrp_inv_empty E c : mrp_inv E c → (∀ a x, attrs c !! a = Some x → ¬ E a) → mrp_ok c.
Proof.
  intros [I1 I2 I3 I4 I5] HE. split; try done. intros a x Hx. destruct (I4 a x Hx) as (Hin & q & Hq & Hen & Hn).
  split; [done|]. exists q. split; [done|]. split; [done|]. intros Hnx _. apply Hn; [done|]. by eapply HE.
Qed.

Lemma served_none_or_id pt ev x y : served pt ev x = Some y → same_id x y.
Proof. unfold served. destruct (applicant_next _ _ _ _). destruct (freeable _ _ _); by intros [= <-]. Qed.

Lemma all_left_back p ts w w' b x' :
  all_left p ts w w' → attrs (w_st w') !! b = Some x' →
  ∃ x, attrs (w_st w) !! b = Some x ∧ same_id x x'.
Proof.
  intros A Hx'. destruct (attrs (w_st w) !! b) as [x|] eqn:Hx.
  - exists x. split; [done|]. destruct (decide (attr_app x = p ∧ attr_type x ∈ ts)) as [[Hp Ht]|Hn].
    + destruct (la_left _ _ _ _ A b x Hx Hp Ht) as (y & Hy & [? _]). by assert (y = x') as <- by congruence.
    + rewrite (la_same _ _ _ _ A b x Hx) in Hx'; [by injection Hx' as <-|].
      destruct (decide (attr_app x = p)) as [Hp|Hp]; [|by left]. right. naive_solver.
  - rewrite (la_none _ _ _ _ A b Hx) in Hx'. done.
Qed.

Lemma join_expires_spec `{!MrpInd C U} p q w :
  platform_ok → mrp_ok (w_st w) → apps (w_st w) !! p = Some q → enabled q = true →
  wp (join_expires p) (λ _ w', opportunity p q w w') w.
Proof.
  intros Hpl Hi Hq Hen. unfold join_expires, mrp_join_timer_handler.
  pose proof (mi_app _ _ Hi p q Hq (mi_enabled _ _ Hi p q Hq Hen)) as Ha.
  set (fs := λ q : mrp_application, q <| join ::= soft_stop |>).
  set (E := λ b, ∃ x, attrs (w_st w) !! b = Some x ∧ attr_app x = p).
  set (wx := World (upd_app p fs (w_st w)) (w_clock w) (w_trace w)).
  assert (Hix : mrp_inv E (w_st wx)).
  { eapply (inv_upd_frame (λ _, False)); [done|done|by split|done|]. intros _. right. intros a x Hx Hp. by exists x. }
  assert (Hqx : apps (w_st wx) !! p = Some (fs q)) by by apply upd_app_lookup.
  apply wp_bind, wp_set_app. change (World (upd_app p fs (w_st w)) (w_clock w) (w_trace w)) with wx.
  apply wp_bind. eapply wp_mono; [by apply (leaveall_tx_spec E p (fs q) wx), Ha|].
  intros [] w2 (w1 & A1 & Hi1 & Hi2 & S2 & Hw1 & P2). cbv zeta in A1. change (lva_active (fs q)) with (lva_active q) in *.
  set (w0 := World (upd_app p lva_tx (w_st wx)) (w_clock wx) (w_trace wx)) in *.
  assert (Hq0 : apps (w_st w0) !! p = Some (lva_tx (fs q))) by by apply upd_app_lookup.
  destruct (op_this _ _ _ (la_only _ _ _ _ A1) _ Hq0) as (q1 & Hq1 & Hsa1).
  destruct (op_this _ _ _ (so_only _ _ _ S2) _ Hq1) as (q2 & Hq2 & Hsa2).
  apply wp_bind. eapply wp_get_app; [exact Hq2|].
  assert (Hev : (if decide (lva_action (leaveall q2) = MRP_ACTION_SLA) then MRP_EVENT_TXLA else MRP_EVENT_TX) =
                (if lva_active q then MRP_EVENT_TXLA else MRP_EVENT_TX)).
  { rewrite (sa_leaveall _ _ Hsa2), (sa_leaveall _ _ Hsa1). unfold lva_tx. change (lva_active (fs q)) with (lva_active q).
    by destruct (lva_active q). }
  rewrite Hev. set (ev := if lva_active q then MRP_EVENT_TXLA else MRP_EVENT_TX) in *.
  assert (Hpt : participant_type q2 = participant_type q) by (rewrite (sa_ptype _ _ Hsa2), (sa_ptype _ _ Hsa1); done).
  assert (Hen2 : enabled q2 = true) by (rewrite (sa_enabled _ _ Hsa2), (sa_enabled _ _ Hsa1); done).
  apply wp_bind. eapply wp_mono.
  { apply (join_types_spec E p q2 ev attr_types w2); [done|done|done|done| |apply NoDup_attr_types|by intros t ?%elem_of_attr_types].
    unfold ev, tx_event. destruct (lva_active q); auto. }
  intros [] w3 A3. rewrite Hpt in A3.
  destruct (op_this _ _ _ (al_only _ _ _ _ _ _ _ A3) _ Hq2) as (q3 & Hq3 & Hsa3).
  eapply wp_mono.
  { eapply (end_types_spec _ p q3 attr_types w3); [apply A3|done|by rewrite (sa_enabled _ _ Hsa3)|by intros t ?%elem_of_attr_types]. }
  intros [] w4 (Hi4 & S4 & I4 & P4).
  assert (Hat2 : attrs (w_st w2) = attrs (w_st w1)) by apply S2.
  assert (Hat4 : attrs (w_st w4) = attrs (w_st w3)) by apply S4.
  assert (Hl2 : ∀ t, ordered_list p t (w_st w2) = ordered_list p t (w_st w1)) by (intros t; apply S2).
  (* an attribute of the port on its list *)
  assert (Hlisted : ∀ b x, attrs (w_st w) !! b = Some x → attr_app x = p → ∃ x1, attrs (w_st w1) !! b = Some x1 ∧
     (if lva_active q then left_all x x1 else x1 = x) ∧ attr_type x ∈ attr_types ∧
     b ∈ ordered_list p (attr_type x) (w_st w2)).
  { intros b x Hx Hp. assert (Ht : attr_type x ∈ attr_types) by (apply elem_of_attr_types, (mi_wf _ _ Hi b x Hx)).
    assert (Hx1 : ∃ x1, attrs (w_st w1) !! b = Some x1 ∧ (if lva_active q then left_all x x1 else x1 = x)).
    { destruct (lva_active q) eqn:El; [by apply (la_left _ _ _ _ A1)|].
      exists x. split; [|done]. rewrite (Hw1 eq_refl). done. }
    destruct Hx1 as (x1 & Hx1 & HL). exists x1. split; [done|]. split; [done|]. split; [done|].
    assert (Hid : attr_app x1 = p ∧ attr_type x1 = attr_type x).
    { destruct (lva_active q); [|by subst]. destruct HL as ((? & ? & _) & _). split; congruence. }
    destruct Hid as [Hp1 Ht1]. rewrite <- Hat2 in Hx1. destruct (mi_in _ _ Hi2 b x1 Hx1) as [Hin _]. rewrite Hp1, Ht1 in Hin.
    by rewrite (ao_perm _ _ _ (mi_app _ _ Hi2 p q2 Hq2 (mi_enabled _ _ Hi2 p q2 Hq2 Hen2))). }
  assert (Hunlisted : ∀ b, (∀ x, attrs (w_st w1) !! b = Some x → attr_app x ≠ p) →
     ∀ t, t ∈ attr_types → b ∉ ordered_list p t (w_st w2)).
  { intros b Hb t Ht Hin. destruct (ordered_attr _ _ _ _ _ _ Hi2 Hq2 Hen2 Hin) as (x & Hx & Hp & _).
    rewrite Hat2 in Hx. by apply (Hb x). }
  assert (K0 : kept (w_st w) (w_st w0)).
  { split; try done.
    - cbn. by rewrite !length_alter.
    - intros r q' Hq'. destruct (decide (r = p)) as [->|Hr].
      + assert (q' = q) as -> by congruence. exists (lva_tx (fs q)). by split.
      + exists q'. split; [|done]. cbn. by rewrite !list_lookup_alter_ne. }
  assert (Ute : ∀ u, tx_rel (upper (w_st w)) u → tx_enabled p u = tx_enabled p (upper (w_st w))) by (intros u; apply tx_enabled_law).
  assert (R1 : tx_rel (upper (w_st w)) (upper (w_st w1))) by apply (op_upper _ _ _ (la_only _ _ _ _ A1)).
  split.
  - eapply mrp_inv_empty; [exact Hi4|]. intros a x Hx [(x0 & Hx0 & Hp0) Hn].
    destruct (Hlisted a x0 Hx0 Hp0) as (x1 & _ & _ & Ht & Hin). by apply (Hn _ Ht).
  - etrans; [exact K0|]. etrans; [eapply only_port_kept, A1|]. etrans; [eapply only_port_kept, S2|].
    etrans; [eapply only_port_kept, A3|]. eapply only_port_kept, S4.
  - etrans; [exact R1|]. etrans; [apply (op_upper _ _ _ (so_only _ _ _ S2))|].
    etrans; [apply (op_upper _ _ _ (al_only _ _ _ _ _ _ _ A3))|]. apply (op_upper _ _ _ (so_only _ _ _ S4)).
  - intros t Ht. apply I4. by left.
  - intros b Hb. assert (H1 : attrs (w_st w1) !! b = None) by by apply (la_none _ _ _ _ A1).
    rewrite Hat4, (al_attrs _ _ _ _ _ _ _ A3); [by rewrite Hat2|]. apply Hunlisted. congruence.
  - intros b x Hx Hp. assert (H1 : attrs (w_st w1) !! b = Some x) by (apply (la_same _ _ _ _ A1); [done|by left]).
    rewrite Hat4, (al_attrs _ _ _ _ _ _ _ A3); [by rewrite Hat2|]. apply Hunlisted. congruence.
  - exists (λ b, attrs (w_st w1) !! b), (λ t, ordered_list p t (w_st w1)). cbv zeta. split; [|split; [|split]].
    + intros b x Hx Hp. destruct (Hlisted b x Hx Hp) as (x1 & Hx1 & HL & Ht & Hin). exists x1.
      split; [done|]. split; [done|]. rewrite Hat4. eapply (al_attr _ _ _ _ _ _ _ A3); [done|done|by rewrite Hat2].
    + intros t _. assert (Hen1 : enabled q1 = true) by (rewrite (sa_enabled _ _ Hsa1); done).
      rewrite (ao_perm _ _ _ (mi_app _ _ Hi1 p q1 Hq1 (mi_enabled _ _ Hi1 p q1 Hq1 Hen1))).
      rewrite (la_list _ _ _ _ A1). unfold attr_list. rewrite Hq0, Hq. done.
    + intros El t. rewrite (Hw1 El). unfold ordered_list. rewrite Hq0, Hq. done.
    + intros Hok Hid.
      assert (Hidx : ∀ t, t ∈ attr_types → idle_at (w_st wx) p t).
      { intros t Ht. destruct (Hid t Ht) as (d & (q' & Hq' & Hd) & Hdi). assert (q' = q) as -> by congruence.
        exists d. split; [|done]. by exists (fs q). }
      pose proof (speaks_trans _ _ _ _ _ _ (only_port_tx _ _ _ (so_only _ _ _ S2)) (P2 Hok Hidx) (al_speaks _ _ _ _ _ _ _ A3 Hok)) as Q3.
      assert (Ho13 : only_port p (w_st w1) (w_st w3)) by (etrans; [apply S2|apply A3]).
      pose proof (speaks_trans _ _ _ _ _ _ (only_port_tx _ _ _ Ho13) Q3 P4) as Q4.
      destruct (some_holds _ p q w Hi Hq Hen Hid) as (hold & Hh & Hh0).
      destruct (Q4 hold) as (hold' & fs' & sent & Hh' & Hfs & Hfr & Hsay).
      { intros t d Hd. apply (la_pdu _ _ _ _ A1) in Hd as (q' & Hq' & Hd). apply Hh. exists q. split; [done|].
        assert (q' = lva_tx (fs q)) as -> by congruence. done. }
      exists fs', sent. split; [done|]. split.
      * rewrite Hfr, (la_frames _ _ _ _ A1), Ute by done. done.
      * intros t Ht. specialize (Hsay t). rewrite (Hh0 t Ht) in Hsay. cbn [says fmap list_fmap concat app] in Hsay.
        destruct (I4 t (or_introl Ht)) as (d & Hd & Hdi). rewrite (idle_holds _ _ _ Hdi (Hh' t d Hd)) in Hsay.
        unfold says in Hsay at 2. cbn in Hsay. rewrite !app_nil_r in Hsay. rewrite Hsay. rewrite !(decide_True (P := t ∈ attr_types)) by done.
        f_equal. unfold say_all. rewrite Hl2. f_equal. apply map_ext. intros b. rewrite Hat2. by destruct (attrs (w_st w1) !! b).
Qed.

(** ** What an opportunity leaves as it is *)

Lemma served_keeps pt ev x :
  is_full pt = true → tx_event ev → applicant_state (app_state (applicant x)) = true →
  registrar_state (reg_state (registrar x)) = true →
  match served pt ev x with
  | Some y => is_declared y = is_declared x ∧ is_registered y = is_registered x
  | None => is_declared x = false ∧ is_registered x = false
  end.
Proof.
  intros Hf Hev Hs Hr. pose proof (applicant_next_declared pt (reg_state (registrar x)) ev _ Hf Hs) as Hd.
  assert (Hda : declared_after ev (declared (app_state (applicant x))) = declared (app_state (applicant x))) by by destruct Hev as [->| ->].
  unfold served. destruct (applicant_next _ _ _ _) as [s act]. cbn in Hd.
  destruct (freeable _ _ _) eqn:Ef.
  - destruct (freeable_silent _ _ _ Hf Hr Ef) as (F1 & F2 & _). unfold is_declared, is_registered. split; congruence.
  - unfold is_declared, is_registered. cbn. split; [congruence|done].
Qed.

Lemma left_all_states x x' :
  left_all x x' → applicant_state (app_state (applicant x)) = true → registrar_state (reg_state (registrar x)) = true →
  applicant_state (app_state (applicant x')) = true ∧ registrar_state (reg_state (registrar x')) = true.
Proof.
  intros (_ & _ & _ & -> & ->) Ha Hr. split; [by destruct (app_state (applicant x))|].
  by destruct (reg_state (registrar x)).
Qed.

Lemma opportunity_attr E p q w w' b x :
  mrp_inv E (w_st w) → apps (w_st w) !! p = Some q → opportunity p q w w' → attrs (w_st w) !! b = Some x →
  match attrs (w_st w') !! b with
  | Some y => ident y = ident x ∧ is_declared y = is_declared x ∧ is_registered y = is_registered x
  | None => is_declared x = false ∧ is_registered x = false
  end.
Proof.
  intros Hi Hq Ho Hx. destruct (decide (attr_app x = p)) as [Hp|Hp]; [|by rewrite (opp_other _ _ _ _ Ho b x)].
  pose proof (mi_wf _ _ Hi b x Hx) as Hwf. rewrite <- Hp in Hq.
  destruct (attr_type_ok _ _ _ _ _ Hi Hx Hq) as (Hao & _).
  destruct (opp_words _ _ _ _ Ho) as (ready & order & H1 & _). cbv zeta in H1.
  destruct (H1 b x Hx Hp) as (x1 & _ & HL & Hsv). rewrite Hsv.
  set (ev := if lva_active q then MRP_EVENT_TXLA else MRP_EVENT_TX) in *.
  assert (Hev : tx_event ev) by (unfold ev, tx_event; destruct (lva_active q); auto).
  assert (H2 : ident x1 = ident x ∧ is_declared x1 = is_declared x ∧ is_registered x1 = is_registered x ∧
    applicant_state (app_state (applicant x1)) = true ∧ registrar_state (reg_state (registrar x1)) = true).
  { destruct (lva_active q).
    - destruct (left_all_states _ _ HL (wf_app_state _ Hwf) (wf_reg_state _ Hwf)). destruct HL as (?%same_id_ident & ? & ? & _). done.
    - subst x1. split_and!; try done; apply Hwf. }
  destruct H2 as (E1 & E2 & E3 & S1 & S2).
  pose proof (served_keeps _ ev x1 (ao_full _ _ _ Hao) Hev S1 S2) as Hk.
  destruct (served _ _ _) as [y|] eqn:Ey.
  - apply served_none_or_id in Ey as Hid%same_id_ident. destruct Hk. split_and!; congruence.
  - destruct Hk. split; congruence.
Qed.

Lemma opportunity_holds E p q w w' P i :
  mrp_inv E (w_st w) → apps (w_st w) !! p = Some q → opportunity p q w w' → P = is_declared ∨ P = is_registered →
  holds P (w_st w') i ↔ holds P (w_st w) i.
Proof.
  intros Hi Hq Ho HP. assert (Hb := λ b x, opportunity_attr E p q w w' b x Hi Hq Ho). split.
  - intros (b & y & Hy & Hid & Hp). destruct (attrs (w_st w) !! b) as [x|] eqn:Hx.
    + specialize (Hb b x Hx). rewrite Hy in Hb. destruct Hb as (B1 & B2 & B3). exists b, x.
      split; [done|]. split; [congruence|]. destruct HP as [->| ->]; congruence.
    + rewrite (opp_none _ _ _ _ Ho b Hx) in Hy. done.
  - intros (b & x & Hx & Hid & Hp). specialize (Hb b x Hx). destruct (attrs (w_st w') !! b) as [y|] eqn:Hy.
    + destruct Hb as (B1 & B2 & B3). exists b, y. split; [done|]. split; [congruence|]. destruct HP as [->| ->]; congruence.
    + destruct Hb. destruct HP as [->| ->]; congruence.
Qed.
End join.
