(* ===== verification/MrpEvents.v ===== *)
(** * MRP: timers and received packets

    Every event keeps the state consistent with what the protocol has been
    told ([good]), and packets of any content are processed in bounded time
    without leaving the buffer. *)

From S2P Require Import Prelude Timer MrpSm MrpPdu Mrp MrpTx MrpSpec MrpRequests MrpJoin.

Section events.
Context {C U : Type} `{!Platform C, !MrpCalls C, !MrpOps C U, !MrpMemory, !MrpCallsLaws C, !MrpLaws C U}.
Context `{!MrpInd C U, !MrpIndLaws}.
Implicit Types (w : world C (mrp_ctx U)) (c : mrp_ctx U).

(** The protocol is not concerned: [stays]. *)
Record stays c c' : Prop := {
  st_good : good c';
  st_kept : kept c c';
  st_registers : ∀ i, registers c' i ↔ registers c i;
}.
Lemma stays_refl c : good c → stays c c.
Proof. by split. Qed.
Lemma stays_trans c1 c2 c3 : stays c1 c2 → stays c2 c3 → stays c1 c3.
Proof. intros [G1 K1 R1] [G2 K2 R2]. split; [done|by etrans|]. intros i. by rewrite R2. Qed.

Lemma stays_frame p f c q :
  good c → apps c !! p = Some q → same_lists q (f q) → (st_running (join q) = true → st_running (join (f q)) = true) →
  stays c (upd_app p f c).
Proof.
  intros Hg Hq Hsl Hr. pose proof (good_mrp _ Hg) as Hm.
  assert (Hk : kept c (upd_app p f c)).
  { split; try done.
    - unfold upd_app, over, over_field; cbn. by rewrite length_alter.
    - intros r q1 Hq1. destruct (decide (r = p)) as [->|Hrp].
      + assert (q1 = q) as -> by congruence. exists (f q). split; [by apply upd_app_lookup|].
        destruct Hsl. by split.
      + exists q1. by rewrite upd_app_other. }
  assert (Hi : mrp_ok (upd_app p f c)) by (eapply inv_upd_frame; [done|done|done|done|]; intros; left; auto).
  split; [|done|done]. by eapply good_silent.
Qed.

Lemma start_join_lists q : same_lists q (start_join q) ∧ (st_running (join q) = true → st_running (join (start_join q)) = true).
Proof. destruct q as [? ? ? ? ? ? [cr ru] ? ? ?]. unfold start_join, soft_start, over, over_field; cbn. by destruct cr, ru. Qed.

Lemma random_lva_exec (Q : Z → world C (mrp_ctx U) → Prop) w :
  (∀ ms ck tr, frames tr = frames (w_trace w) → Q ms (World (w_st w) ck tr)) → wp random_lva Q w.
Proof. intros HQ. unfold random_lva. apply wp_bind, wp_call. apply wp_ret. apply HQ. by rewrite frames_embed. Qed.

(** The leave-all machine on a received leave-all and on its timer. *)
Lemma leaveall_quiet_spec p q ev w :
  good (w_st w) → apps (w_st w) !! p = Some q → ev = MRP_EVENT_RLA ∨ ev = MRP_EVENT_LEAVEALLTIMER →
  wp (mrp_leaveall_sm p ev) (λ _ w', stays (w_st w) (w_st w') ∧ frames (w_trace w') = frames (w_trace w) ∧
     attrs (w_st w') = attrs (w_st w) ∧ (∀ t, attr_list p t (w_st w') = attr_list p t (w_st w))) w.
Proof.
  intros Hg Hq Hev.
  assert (Htail : ∀ f s ck tr, same_lists q (f q) → (st_running (join q) = true → st_running (join (f q)) = true) →
     frames tr = frames (w_trace w) →
     wp (set_app p (λ q, q <| leaveall ::= λ l, l <| lva_state := (s, MRP_ACTION_NONE).1 |> <| lva_action := (s, MRP_ACTION_NONE).2 |> |>);;
         mrp_leaveall_action_handler p)
       (λ _ w', stays (w_st w) (w_st w') ∧ frames (w_trace w') = frames (w_trace w) ∧
          attrs (w_st w') = attrs (w_st w) ∧ (∀ t, attr_list p t (w_st w') = attr_list p t (w_st w)))
       (World (upd_app p f (w_st w)) ck tr)).
  { intros f s ck tr Hsl Hr Hf. apply wp_bind, wp_set_app. cbn [w_st]. rewrite upd_app_twice.
    set (g := _ ∘ f). assert (Hsg : same_lists q (g q)) by by destruct Hsl.
    unfold mrp_leaveall_action_handler. apply wp_bind. eapply wp_get_app; [by apply upd_app_lookup|].
    cbn. apply wp_ret. split; [by apply (stays_frame p g _ q)|]. split; [done|]. split; [done|].
    intros t. by apply (upd_app_lists p g _ q). }
  unfold mrp_leaveall_sm. apply wp_bind. eapply wp_get_app; [done|]. apply wp_bind.
  destruct (is_full (participant_type q)); cbn [negb].
  2:{ apply wp_ret. specialize (Htail id (lva_state (leaveall q)) (w_clock w) (w_trace w)).
      rewrite (upd_app_id p (w_st w) q) in Htail by done. destruct w. by apply Htail. }
  destruct Hev as [->| ->].
  - apply wp_bind, random_lva_exec. intros ms ck tr Hf. unfold lva_timer_restart.
    apply wp_bind, wp_bind, wp_call. apply wp_set_app. apply wp_ret. cbv beta. apply Htail; [done|done|].
    cbn. by rewrite frames_embed.
  - apply wp_bind. eapply transmit_request_exec; [done|]. intros ck tr Hf.
    apply wp_bind, random_lva_exec. intros ms ck2 tr2 Hf2. unfold lva_timer_start.
    apply wp_bind, wp_bind, wp_call. apply wp_set_app. apply wp_ret. cbv beta. cbn [w_st]. rewrite upd_app_twice.
    destruct (start_join_lists q) as [Hsl Hr]. apply Htail; [by destruct Hsl|done|].
    cbn. rewrite frames_embed, Hf2. done.
Qed.

(** ** Timers *)

Lemma join_expires_good p q w :
  platform_ok → good (w_st w) → apps (w_st w) !! p = Some q → enabled q = true →
  wp (join_expires p) (λ _ w', stays (w_st w) (w_st w') ∧ opportunity p q w w') w.
Proof.
  intros Hpl Hg Hq Hen. pose proof (good_mrp _ Hg) as Hm.
  eapply wp_mono; [by apply join_expires_spec|]. intros [] w' Ho. split; [|done].
  assert (HR : ∀ i, registers (w_st w') i ↔ registers (w_st w) i) by (intros i; eapply opportunity_holds; eauto).
  split; [|apply Ho|done]. eapply good_silent; [done|apply Ho|apply Ho|apply Ho| |done].
  intros i. eapply opportunity_holds; eauto.
Qed.

Lemma periodic_sm_spec p q w :
  good (w_st w) → apps (w_st w) !! p = Some q →
  wp (mrp_periodic_sm p MRP_EVENT_PERIODICTIMER) (λ _ w', stays (w_st w) (w_st w')) w.
Proof.
  intros Hg Hq. unfold mrp_periodic_sm. apply wp_bind. eapply wp_get_app; [done|].
  apply wp_bind. case_decide.
  - unfold periodic_timer_start. apply wp_bind, wp_bind, wp_call. apply wp_set_app. apply wp_ret. cbv beta.
    apply wp_set_app. cbn [w_st]. rewrite upd_app_twice. eapply stays_frame; [done|done|by split|done].
  - apply wp_ret. cbv beta. apply wp_set_app. cbn [w_st]. eapply stays_frame; [done|done|by split|done].
Qed.

Lemma kept_enabled c c' p q : kept c c' → apps c !! p = Some q → enabled q = true →
  ∃ q', apps c' !! p = Some q' ∧ enabled q' = true ∧ participant_type q' = participant_type q.
Proof. intros Hk Hq Hen. destruct (kept_app _ _ Hk p q Hq) as (q' & Hq' & []). exists q'. split_and!; congruence. Qed.

Lemma periodic_type_spec p t q w :
  platform_ok → good (w_st w) → apps (w_st w) !! p = Some q → enabled q = true → (min_attr_type ≤ t ≤ max_attr_type)%nat →
  wp (check_type p t;; list_each (attr_list p t) (λ a, mrp_applicant_sm a MRP_EVENT_PERIODIC))
    (λ _ w', stays (w_st w) (w_st w')) w.
Proof.
  intros Hpl Hg Hq Hen Ht. pose proof (good_mrp _ Hg) as Hm.
  pose proof (mi_app _ _ Hm p q Hq (mi_enabled _ _ Hm p q Hq Hen)) as Ha.
  pose proof attr_types_law. destruct (ao_length _ _ _ Ha) as (L1 & L2 & L3).
  apply wp_bind. eapply wp_check_type; [done|apply lookup_lt_is_Some_2; lia..|].
  eapply wp_mono; [apply (wp_list_each (attr_list p t) (λ _ w', stays (w_st w) (w_st w')))|].
  - intros pre a l w' Hnd Hl Hs. pose proof (good_mrp _ (st_good _ _ Hs)) as Hm'.
    destruct (kept_enabled _ _ _ _ (st_kept _ _ Hs) Hq Hen) as (q' & Hq' & Hen' & _).
    destruct (ao_attr _ _ _ (mi_app _ _ Hm' p q' Hq' (mi_enabled _ _ Hm' p q' Hq' Hen')) t a) as (x & Hx & Hp & _); [rewrite Hl; set_solver|].
    eapply wp_mono; [apply (applicant_event_good a x q'); try done; [apply Hs|by rewrite Hp]|].
    intros [] w2 (Hg2 & Hk2 & _ & HR2 & Hl2 & _). rewrite Hp in Hl2. split.
    + exists (pre ++ [a]). rewrite Hl2, Hl, <- app_assoc. done.
    + eapply stays_trans; [done|]. by split.
  - apply Ha.
  - by apply stays_refl.
  - done.
Qed.

Lemma for_types_stays p q (body : nat → M C (mrp_ctx U) unit) ts w :
  good (w_st w) → apps (w_st w) !! p = Some q → enabled q = true →
  (∀ t w q, t ∈ ts → good (w_st w) → apps (w_st w) !! p = Some q → enabled q = true →
     wp (body t) (λ _ w', stays (w_st w) (w_st w')) w) →
  wp (for_each ts body) (λ _ w', stays (w_st w) (w_st w')) w.
Proof.
  intros Hg Hq Hen. revert w q Hg Hq Hen. induction ts as [|t ts IH]; intros w q Hg Hq Hen Hb.
  { apply wp_ret. by apply stays_refl. }
  cbn [for_each]. apply wp_bind. eapply wp_mono; [eapply Hb; try done; by left|]. intros [] w1 S1.
  destruct (kept_enabled _ _ _ _ (st_kept _ _ S1) Hq Hen) as (q1 & Hq1 & Hen1 & _).
  eapply wp_mono; [apply (IH w1 q1); [apply S1|done|done|]|].
  - intros t' w' q' Ht'. apply Hb. by right.
  - intros [] w2 S2. by eapply stays_trans.
Qed.

Lemma periodic_timer_spec p q w :
  platform_ok → good (w_st w) → apps (w_st w) !! p = Some q → enabled q = true →
  wp (mrp_periodic_timer_handler p) (λ _ w', stays (w_st w) (w_st w')) w.
Proof.
  intros Hpl Hg Hq Hen. unfold mrp_periodic_timer_handler. apply wp_bind.
  eapply wp_mono; [apply (for_types_stays p q); [done|done|done|]|].
  - intros t w' q' Ht Hg' Hq' Hen'. eapply periodic_type_spec; try done. by apply elem_of_attr_types.
  - intros [] w1 S1. destruct (kept_enabled _ _ _ _ (st_kept _ _ S1) Hq Hen) as (q1 & Hq1 & _).
    eapply wp_mono; [eapply periodic_sm_spec; [apply S1|done]|]. intros [] w2 S2. by eapply stays_trans.
Qed.

(** ** Packets *)

(** What the reception relies on. *)
Class MrpRxLaws := {
  event_length_law t n : 0 ≤ t → 0 ≤ n → 0 ≤ event_length t n;
  attribute_check_law t l : 0 ≤ attribute_check t l → (min_attr_type ≤ Z.to_nat t ≤ max_attr_type)%nat;
}.

(** The state after any event. *)
Record runs c c' : Prop := { rn_good : good c'; rn_kept : kept c c' }.
Lemma runs_refl c : good c → runs c c.
Proof. by split. Qed.
Lemma runs_trans c1 c2 c3 : runs c1 c2 → runs c2 c3 → runs c1 c3.
Proof. intros [G1 K1] [G2 K2]. split; [done|by etrans]. Qed.
Lemma stays_runs c c' : stays c c' → runs c c'.
Proof. intros []. by split. Qed.

(** The events that declare an attribute. *)
Definition joining (event : Z) : bool :=
  (event =? MRP_ATTR_EVT_NEW) || (event =? MRP_ATTR_EVT_JOININ) || (event =? MRP_ATTR_EVT_JOINMT).

Lemma joining_registered pt event s s' act cmd :
  is_full pt = true → registrar_state s = true → joining event = true →
  registrar_next pt (mrp_attribute2rxevent event) s = (s', act, cmd) →
  registered s' = true ∧ (registered s = false → act = MRP_ACTION_NEW ∨ act = MRP_ACTION_JOIN).
Proof.
  intros Hf Hs Hj. unfold registrar_next. rewrite Hf. cbn [negb].
  assert (He : event = MRP_ATTR_EVT_NEW ∨ event = MRP_ATTR_EVT_JOININ ∨ event = MRP_ATTR_EVT_JOINMT).
  { unfold joining in Hj. rewrite !orb_true_iff, !Z.eqb_eq in Hj. tauto. }
  destruct He as [->|[->| ->]]; destruct s; try discriminate Hs; cbn; intros [= <- <- <-]; split; auto; done.
Qed.

(** An event received for a value. *)
Lemma process_attribute_spec p t q val event w :
  platform_ok → timers_ok → good (w_st w) → apps (w_st w) !! p = Some q → enabled q = true →
  (min_attr_type ≤ t ≤ max_attr_type)%nat → val_ok t val →
  wp (mrp_process_attribute p t val event) (λ _ w', runs (w_st w) (w_st w') ∧ steady (upper (w_st w)) (upper (w_st w')) ∧
    let i := (p, t, value t val) in
    (joining event = true → answer (w_clock w) (mrp_embed MrpMalloc) ≠ 0 →
      registers (w_st w') i ∧
      (¬ registers (w_st w) i → admits (upper (w_st w)) i → view (upper (w_st w')) i = true))) w.
Proof.
  intros Hpl Htm Hg Hq Hen Ht Hv. pose proof (good_mrp _ Hg) as Hm.
  unfold mrp_process_attribute. apply wp_bind. eapply wp_get_app; [done|]. rewrite Hen. cbn [negb].
  apply wp_bind. eapply wp_mono; [by eapply get_attribute_spec|]. intros [a|] w1 (_ & H1).
  2:{ destruct H1 as (E1 & _ & Hz). apply wp_ret. rewrite E1. split; [by apply runs_refl|]. split; [done|]. intros _ Hnz. done. }
  destruct H1 as (x & [G1 G2 G3 G4 G5 G6 G7]). pose proof (only_port_kept _ _ _ G2) as Hk1.
  assert (Hg1 : good (w_st w1)) by (eapply good_silent; try done; apply G2).
  destruct (op_this _ _ _ G2 q Hq) as (q1 & Hq1 & _). pose proof (f_equal (λ i, i.1.1) G4) as Hap. cbn in Hap. subst p.
  destruct (attr_type_ok _ _ _ _ _ G1 G3 Hq1) as (Hao & _). pose proof (wf_reg_state _ (mi_wf _ _ G1 a x G3)) as Hrs.
  destruct (MRP_ATTR_EVT_MAX <=? event) eqn:Emax.
  { unfold mrp_process_attribute_event. apply wp_bind. eapply wp_get_attr; [done|]. rewrite Emax. apply wp_ret.
    split; [by split|]. split; [by apply steady_law, G2|]. intros Hj. apply Z.leb_le in Emax. unfold MRP_ATTR_EVT_MAX in Emax.
    unfold joining, MRP_ATTR_EVT_NEW, MRP_ATTR_EVT_JOININ, MRP_ATTR_EVT_JOINMT in Hj. lia. }
  apply Z.leb_gt in Emax. pose proof (process_event_spec a x q1 event w1 Hpl Hg1 G3 Hq1 Emax) as Hp.
  destruct (registrar_next _ _ _) as [[s act] cmd] eqn:En.
  eapply wp_mono; [exact Hp|]. intros rc w2 (_ & Hg2 & Hk2 & Hl2 & HR2).
  split; [split; [done|by etrans]|]. split; [etrans; [by apply steady_law, G2|apply Hl2]|]. rewrite <- G4. intros Hj _.
  destruct (joining_registered _ _ _ _ _ _ (ao_full _ _ _ Hao) Hrs Hj En) as [Hs Hact]. split.
  - rewrite HR2, decide_True by done. done.
  - intros Hn Ha. apply Hl2; [|by eapply admits_law, Ha; apply G2]. apply Hact.
    destruct (registered (reg_state (registrar x))) eqn:E; [|done]. exfalso. apply Hn, G7. by exists a, x.
Qed.

Lemma lva_good a x q w :
  platform_ok → good (w_st w) → attrs (w_st w) !! a = Some x → apps (w_st w) !! attr_app x = Some q →
  wp (mrp_process_attribute_event a MRP_ATTR_EVT_LVA) (λ _ w', stays (w_st w) (w_st w') ∧
     ∀ t, attr_list (attr_app x) t (w_st w') = attr_list (attr_app x) t (w_st w)) w.
Proof.
  intros Hpl Hg Hx Hq. eapply wp_mono; [apply (lva_spec (λ _, False) a x); [done|by apply good_mrp|done]|].
  intros rc w' (x' & moved & HL & Hs). destruct HL as (Hid & Hd & Hr & _).
  destruct (stepped_good _ _ _ _ _ _ _ Hg Hx Hs Hid Hd Hr) as (? & ? & ?).
  split; [by split|]. apply Hs.
Qed.

(** A walk over a list that the body leaves in place. *)
Lemma wp_list_walk (get : mrp_ctx U → list nat) (I : world C (mrp_ctx U) → Prop) body l0 fuel pre l w :
  NoDup l0 → l0 = pre ++ l →
  (∀ e w, e ∈ l0 → get (w_st w) = l0 → I w → wp (body e) (λ _ w', get (w_st w') = l0 ∧ I w') w) →
  get (w_st w) = l0 → I w → (length l ≤ fuel)%nat →
  wp (list_walk get fuel (list.head l) body) (λ _ w', get (w_st w') = l0 ∧ I w') w.
Proof.
  intros Hnd Hl0 Hb. revert pre l w Hl0. induction fuel as [|fuel IH]; intros pre l w Hl0 Hg HI Hf.
  - destruct l; [by apply wp_ret|cbn in Hf; lia].
  - destruct l as [|e l]; cbn [list.head list_walk]; [by apply wp_ret|].
    apply wp_bind. eapply wp_mono; [apply Hb; [rewrite Hl0; set_solver|done|done]|]. intros [] w1 (Hg1 & HI1).
    apply wp_bind, wp_gets. rewrite Hg1. apply wp_bind, wp_deref. exists (list.head l). split.
    { rewrite Hl0. apply list_next_mid. rewrite Hl0 in Hnd. apply list.NoDup_app in Hnd as (_ & Hd & _).
      intros Hin. apply (Hd e Hin). by left. }
    apply (IH (pre ++ [e])); [by rewrite Hl0, <- app_assoc|done|done|cbn in Hf; lia].
Qed.

Lemma wp_peek o (Q : Z → world C (mrp_ctx U) → Prop) w :
  Forall is_byte (rx_data (w_st w)) → 0 ≤ o < len (rx_data (w_st w)) → (∀ b, is_byte b → Q b w) → wp (peek o) Q w.
Proof.
  intros Hby Ho HQ. unfold peek. apply wp_bind, wp_gets. rewrite (proj2 (Z.ltb_ge _ _)) by lia.
  destruct (lookup_lt_is_Some_2 (rx_data (w_st w)) (Z.to_nat o)) as [b Hb]; [lia|].
  apply wp_deref. exists b. split; [done|]. apply HQ. by eapply list.Forall_lookup_1 in Hby.
Qed.
Lemma wp_peek16 o (Q : Z → world C (mrp_ctx U) → Prop) w :
  Forall is_byte (rx_data (w_st w)) → 0 ≤ o → o + 2 ≤ len (rx_data (w_st w)) →
  (∀ h, 0 ≤ h < 65536 → Q h w) → wp (peek16 o) Q w.
Proof.
  intros Hby H1 H2 HQ. unfold peek16. apply wp_bind, wp_peek; [done|lia|]. intros a Ha.
  apply wp_bind, wp_peek; [done|lia|]. intros b Hb. apply wp_ret. apply HQ. unfold is_byte in *. lia.
Qed.

Context `{!MrpRxLaws}.
Context (vector_handler : nat → Z → Z → Z → Z → M C (mrp_ctx U) unit).

(** The handler of a vector stays within the vector. *)
Definition handler_ok : Prop := ∀ p q atype alen o n w,
  good (w_st w) → apps (w_st w) !! p = Some q → enabled q = true → Forall is_byte (rx_data (w_st w)) →
  0 ≤ attribute_check atype alen → 0 ≤ alen → 0 ≤ o → 0 ≤ n →
  o + alen + event_length atype n ≤ len (rx_data (w_st w)) →
  wp (vector_handler p atype alen o n) (λ _ w', runs (w_st w) (w_st w')) w.

Lemma runs_app c c' p q : runs c c' → apps c !! p = Some q → enabled q = true →
  ∃ q', apps c' !! p = Some q' ∧ enabled q' = true.
Proof. intros [_ Hk] Hq Hen. destruct (kept_enabled _ _ _ _ Hk Hq Hen) as (q' & ? & ? & _). eauto. Qed.
Lemma runs_rx c c' : runs c c' → len (rx_data c') = len (rx_data c) ∧ (Forall is_byte (rx_data c) → Forall is_byte (rx_data c')).
Proof. intros [_ Hk]. by rewrite (kept_rx _ _ Hk); split; [|apply Hk]. Qed.

(** The leave-all of a received vector. *)
Lemma rx_leaveall_spec p t q w :
  platform_ok → good (w_st w) → apps (w_st w) !! p = Some q → enabled q = true → (min_attr_type ≤ t ≤ max_attr_type)%nat →
  wp (check_type p t;;
      let! l := gets (attr_list p t) in
      list_walk (attr_list p t) (length l) (list.head l) (λ a,
        let! _ := mrp_process_attribute_event a MRP_ATTR_EVT_LVA in ret tt);;
      mrp_leaveall_sm p MRP_EVENT_RLA) (λ _ w', stays (w_st w) (w_st w')) w.
Proof.
  intros Hpl Hg Hq Hen Ht. pose proof (good_mrp _ Hg) as Hm.
  pose proof (mi_app _ _ Hm p q Hq (mi_enabled _ _ Hm p q Hq Hen)) as Ha.
  pose proof attr_types_law. destruct (ao_length _ _ _ Ha) as (L1 & L2 & L3).
  apply wp_bind. eapply wp_check_type; [done|apply lookup_lt_is_Some_2; lia..|].
  apply wp_bind, wp_gets, wp_bind. set (l := attr_list p t (w_st w)).
  eapply wp_mono; [apply (wp_list_walk (attr_list p t) (λ w', stays (w_st w) (w_st w')) _ l (length l) [] l w);
    [apply Ha|done| |done|by apply stays_refl|done]|].
  - intros a w' Hal Hl Hs. pose proof (good_mrp _ (st_good _ _ Hs)) as Hm'.
    destruct (kept_enabled _ _ _ _ (st_kept _ _ Hs) Hq Hen) as (q' & Hq' & Hen' & _).
    destruct (ao_attr _ _ _ (mi_app _ _ Hm' p q' Hq' (mi_enabled _ _ Hm' p q' Hq' Hen')) t a) as (x & Hx & Hp & _); [by rewrite Hl|].
    apply wp_bind. eapply wp_mono; [apply (lva_good a x q'); [done|apply Hs|done|by rewrite Hp]|].
    intros rc w2 (Hs2 & Hl2). apply wp_ret. rewrite Hp in Hl2. split; [by rewrite Hl2|by eapply stays_trans].
  - intros [] w1 (_ & Hs). destruct (kept_enabled _ _ _ _ (st_kept _ _ Hs) Hq Hen) as (q1 & Hq1 & _).
    eapply wp_mono; [eapply leaveall_quiet_spec; [apply Hs|done|by left]|]. intros [] w2 (Hs2 & _). by eapply stays_trans.
Qed.

(** One vector: it is at least two bytes long. *)
Lemma process_vector_spec p q atype alen v vend skip w :
  platform_ok → handler_ok → good (w_st w) → apps (w_st w) !! p = Some q → enabled q = true →
  Forall is_byte (rx_data (w_st w)) → (skip = false → 0 ≤ attribute_check atype alen) → 0 ≤ atype → 0 ≤ alen → 0 ≤ v →
  vend ≤ len (rx_data (w_st w)) →
  wp (mrp_process_vector vector_handler p atype alen v vend skip) (λ o w', runs (w_st w) (w_st w') ∧
     match o with Some next => v + 2 ≤ next ≤ vend | None => True end) w.
Proof.
  intros Hpl Hh Hg Hq Hen Hby Hck Hty Hal Hv Hvend. unfold mrp_process_vector.
  destruct (vend <? v + 2) eqn:E1; [apply wp_ret; split; [by apply runs_refl|done]|]. apply Z.ltb_ge in E1.
  apply wp_bind, wp_peek16; [done|done|lia|]. intros h Hhr. unfold mrp_get_vector_header.
  set (lva := ntohs h / 8192). set (n := ntohs h mod 8192).
  assert (Hn : 0 ≤ n) by (apply Z.mod_pos_bound; lia). pose proof (event_length_law atype n Hty Hn) as Hel.
  set (vl := 2 + alen + event_length atype n).
  destruct (vend <? v + vl) eqn:E2; [apply wp_ret; split; [by apply runs_refl|done]|]. apply Z.ltb_ge in E2.
  destruct skip; [apply wp_ret; split; [by apply runs_refl|lia]|]. specialize (Hck eq_refl).
  destruct (_ && _); [apply wp_ret; split; [by apply runs_refl|done]|].
  destruct (_ && _); [apply wp_ret; split; [by apply runs_refl|done]|].
  apply wp_bind.
  assert (Hlva : wp (when (negb (lva =? 0))
    (let t := Z.to_nat atype in
     check_type p t;;
     let! l := gets (attr_list p t) in
     list_walk (attr_list p t) (length l) (list.head l) (λ a,
       let! _ := mrp_process_attribute_event a MRP_ATTR_EVT_LVA in ret tt);;
     mrp_leaveall_sm p MRP_EVENT_RLA)) (λ _ w', stays (w_st w) (w_st w')) w).
  { destruct (negb _); cbn [when]; [|apply wp_ret; by apply stays_refl].
    eapply rx_leaveall_spec; try done. by eapply attribute_check_law. }
  eapply wp_mono; [exact Hlva|]. clear Hlva. intros [] w1 Hs. apply stays_runs in Hs as Hr1.
  destruct (runs_app _ _ _ _ Hr1 Hq Hen) as (q1 & Hq1 & Hen1). destruct (runs_rx _ _ Hr1) as [Hl1 Hb1].
  apply wp_bind. eapply wp_mono; [eapply (Hh p q1 atype alen (v + 2) n w1); try done; [apply Hr1|by apply Hb1|lia|lia]|].
  intros [] w2 Hr2. apply wp_ret. split; [by eapply runs_trans|lia].
Qed.

(** The vectors of a message; [vend]: the end of the message. *)
Lemma process_vectors_spec p q atype alen vend skip fuel v w :
  platform_ok → handler_ok → good (w_st w) → apps (w_st w) !! p = Some q → enabled q = true →
  Forall is_byte (rx_data (w_st w)) → (skip = false → 0 ≤ attribute_check atype alen) → 0 ≤ atype → 0 ≤ alen → 0 ≤ v →
  vend + 2 ≤ len (rx_data (w_st w)) → (1 ≤ fuel)%nat → vend - v < 2 * Z.of_nat fuel →
  wp (mrp_process_vectors vector_handler fuel p atype alen v vend skip) (λ o w', runs (w_st w) (w_st w') ∧
     match o with Some next => v + 2 ≤ next ≤ vend | None => True end) w.
Proof.
  intros Hpl Hh. revert v w q. induction fuel as [|fuel IH]; intros v w q Hg Hq Hen Hby Hck Hty Hal Hv Hvend Hf1 Hf; [lia|].
  cbn [mrp_process_vectors]. apply wp_bind.
  eapply wp_mono; [eapply process_vector_spec; try done; lia|]. intros o w1 (Hr1 & Ho).
  destruct o as [next|]; [|by apply wp_ret].
  destruct (runs_app _ _ _ _ Hr1 Hq Hen) as (q1 & Hq1 & Hen1). destruct (runs_rx _ _ Hr1) as [Hl1 Hb1].
  apply wp_bind, wp_peek16; [by apply Hb1|lia|lia|]. intros m _. destruct (m =? 0); [by apply wp_ret|].
  eapply wp_mono; [eapply (IH next w1 q1); try done; [apply Hr1|by apply Hb1|lia|lia|lia|lia]|].
  intros o w2 (Hr2 & Ho2). split; [by eapply runs_trans|]. destruct o; [lia|done].
Qed.

Lemma header_size : mrp_header_size = if has_attribute_list_length then 4 else 2.
Proof. done. Qed.

Lemma process_message_spec p q fuel hdr end_ newer w :
  platform_ok → handler_ok → good (w_st w) → apps (w_st w) !! p = Some q → enabled q = true →
  Forall is_byte (rx_data (w_st w)) → 0 ≤ hdr → hdr + mrp_header_size ≤ end_ → end_ + 2 ≤ len (rx_data (w_st w)) →
  (1 ≤ fuel)%nat → end_ - hdr < 2 * Z.of_nat fuel →
  wp (mrp_process_message vector_handler fuel p hdr end_ newer) (λ o w', runs (w_st w) (w_st w') ∧
     match o with Some mark => hdr + 2 ≤ mark | None => True end) w.
Proof.
  intros Hpl Hh Hg Hq Hen Hby Hhd Hsz Hend Hf1 Hf. rewrite header_size in Hsz.
  assert (Hsz2 : hdr + 2 ≤ end_) by (destruct has_attribute_list_length; lia).
  unfold mrp_process_message. apply wp_bind, wp_peek; [done|lia|]. intros atype Hty.
  apply wp_bind, wp_peek; [done|lia|]. intros alen Hal. unfold is_byte in *. cbv zeta.
  destruct ((attribute_check atype alen <? 0) && negb newer) eqn:Eb;
    [apply wp_ret; split; [by apply runs_refl|done]|].
  unfold mrp_get_first_vector. rewrite header_size.
  destruct has_attribute_list_length.
  - apply wp_bind, wp_peek16; [done|lia|lia|]. intros n Hn. pose proof (htons_range n Hn) as Hnr. unfold ntohs.
    destruct (attribute_check atype alen <? 0) eqn:Ec; [apply wp_ret; split; [by apply runs_refl|lia]|].
    apply Z.ltb_ge in Ec. destruct (end_ <? _) eqn:Ee; [apply wp_ret; split; [by apply runs_refl|done]|]. apply Z.ltb_ge in Ee.
    eapply wp_mono; [eapply process_vectors_spec; try done; lia|]. intros o w1 (Hr & Ho). split; [done|].
    destruct o; [lia|done].
  - eapply wp_mono; [eapply process_vectors_spec; try done; lia|].
    intros o w1 (Hr & Ho). split; [done|]. destruct o; [lia|done].
Qed.

Lemma process_messages_spec p q fuel hdr end_ newer w :
  platform_ok → handler_ok → good (w_st w) → apps (w_st w) !! p = Some q → enabled q = true →
  Forall is_byte (rx_data (w_st w)) → end_ + 2 ≤ len (rx_data (w_st w)) →
  match hdr with
  | Some h => 0 ≤ h ∧ h + mrp_header_size ≤ end_ ∧ (1 ≤ fuel)%nat ∧ end_ - h < 2 * Z.of_nat fuel
  | None => True
  end →
  wp (mrp_process_messages vector_handler fuel p hdr end_ newer) (λ rc w', runs (w_st w) (w_st w') ∧ (rc = 0 ∨ rc = -1)) w.
Proof.
  intros Hpl Hh. revert hdr w q. induction fuel as [|fuel IH]; intros hdr w q Hg Hq Hen Hby Hend Hhdr.
  { destruct hdr; [lia|]. apply wp_ret. split; [by apply runs_refl|by left]. }
  destruct hdr as [h|]; cbn [mrp_process_messages]; [|apply wp_ret; split; [by apply runs_refl|by left]].
  destruct Hhdr as (Hh0 & Hsz & _ & Hf). apply wp_bind.
  eapply wp_mono; [eapply process_message_spec; try done; lia|]. intros o w1 (Hr1 & Ho).
  destruct o as [mark|]; [|apply wp_ret; split; [done|by right]].
  destruct (runs_app _ _ _ _ Hr1 Hq Hen) as (q1 & Hq1 & Hen1). destruct (runs_rx _ _ Hr1) as [Hl1 Hb1].
  assert (Hrest : ∀ hdr', match hdr' with
      | Some h' => 0 ≤ h' ∧ h' + mrp_header_size ≤ end_ ∧ (1 ≤ fuel)%nat ∧ end_ - h' < 2 * Z.of_nat fuel | None => True end →
     wp (mrp_process_messages vector_handler fuel p hdr' end_ newer) (λ rc w', runs (w_st w) (w_st w') ∧ (rc = 0 ∨ rc = -1)) w1).
  { intros hdr' H'. eapply wp_mono; [eapply (IH hdr' w1 q1); try done; [apply Hr1|by apply Hb1|lia]|].
    intros rc w2 (Hr2 & Hrc). split; [by eapply runs_trans|done]. }
  apply wp_bind. unfold mrp_get_next_message. cbv zeta.
  destruct (end_ <? mark + 2 + 2) eqn:E1; [apply wp_ret; by apply Hrest|]. apply Z.ltb_ge in E1.
  apply wp_bind, wp_peek16; [by apply Hb1|lia|lia|]. intros m _. destruct (m =? 0); [apply wp_ret; by apply Hrest|].
  destruct (end_ <? mark + 2 + 4) eqn:E2; [apply wp_ret; by apply Hrest|]. apply Z.ltb_ge in E2.
  apply wp_ret. apply Hrest. rewrite header_size. destruct has_attribute_list_length; lia.
Qed.

(** A packet of any content. *)
Lemma process_packet_spec p q l2 l3 plen w :
  platform_ok → handler_ok → good (w_st w) → apps (w_st w) !! p = Some q →
  Forall is_byte (rx_data (w_st w)) → 0 ≤ l2 → l2 + 6 ≤ len (rx_data (w_st w)) →
  0 ≤ l3 < len (rx_data (w_st w)) → plen + 2 ≤ len (rx_data (w_st w)) →
  wp (mrp_process_packet vector_handler p l2 l3 plen) (λ rc w', runs (w_st w) (w_st w') ∧ (rc = 0 ∨ rc = -1)) w.
Proof.
  intros Hpl Hh Hg Hq Hby Hp1 Hp2 Hp3 Hp4. unfold mrp_process_packet. apply wp_bind. eapply wp_get_app; [done|].
  destruct (enabled q) eqn:Hen; cbn [negb]; [|apply wp_ret; split; [by apply runs_refl|by right]].
  apply wp_bind. unfold peek_list. apply wp_bind, wp_gets. rewrite decide_True by lia. apply wp_ret. cbv beta.
  destruct (negb _); [apply wp_ret; split; [by apply runs_refl|by right]|].
  apply wp_bind, wp_set_app. set (c1 := upd_app _ _ _).
  assert (Hs : stays (w_st w) c1) by (eapply stays_frame; [done|done|by split|done]).
  apply stays_runs in Hs as Hr1.
  destruct (runs_app _ _ _ _ Hr1 Hq Hen) as (q1 & Hq1 & Hen1). destruct (runs_rx _ _ Hr1) as [Hl1 Hb1].
  apply wp_bind, wp_peek; [by apply Hb1|cbn [w_st]; lia|]. intros version _.
  destruct (version <? _); [apply wp_ret; split; [done|by right]|].
  eapply wp_mono; [eapply process_messages_spec; try done; [apply Hr1|]|].
  - unfold mrp_get_first_message. destruct (plen <? l3 + 1 + mrp_header_size) eqn:E; [done|]. apply Z.ltb_ge in E.
    rewrite header_size in *. destruct has_attribute_list_length; lia.
  - intros rc w2 (Hr2 & Hrc). split; [by eapply runs_trans|done].
Qed.

(** ** Runs *)

(** What happens to the ports: a timer expires (it was running), a packet is
    received in the buffer. *)
Inductive mrp_event :=
| JoinTimer (p : nat)
| LeaveAllTimer (p : nat)
| PeriodicTimer (p : nat)
| LeaveTimer (a : nat)
| Packet (p : nat) (data : list Z) (l2 l3 plen : Z).

Definition on_enabled (p : nat) (m : M C (mrp_ctx U) unit) : M C (mrp_ctx U) unit :=
  let! l := gets apps in
  match l !! p with
  | Some q => when (enabled q) m
  | None => ret tt
  end.

Definition run_event (e : mrp_event) : M C (mrp_ctx U) unit :=
  match e with
  | JoinTimer p => on_enabled p (join_expires p)
  | LeaveAllTimer p => on_enabled p (mrp_leaveall_timer_handler p)
  | PeriodicTimer p => on_enabled p (mrp_periodic_timer_handler p)
  | LeaveTimer a =>
      let! m := gets attrs in
      match m !! a with
      | Some x => when (st_running (leave (registrar x))) (leave_expires a)
      | None => ret tt
      end
  | Packet p data l2 l3 plen =>
      modify (λ c, c <| rx_data := data |>);;
      on_enabled p (let! _ := mrp_process_packet vector_handler p l2 l3 plen in ret tt)
  end.

(** A received packet lies in its buffer, with room for two more bytes. *)
Definition event_ok (e : mrp_event) : Prop :=
  match e with
  | Packet p data l2 l3 plen =>
      Forall is_byte data ∧ 0 ≤ l2 ∧ l2 + 6 ≤ len data ∧ 0 ≤ l3 < len data ∧ plen + 2 ≤ len data
  | _ => True
  end.

Definition same_ports c c' : Prop :=
  length (apps c') = length (apps c) ∧
  ∀ p q, apps c !! p = Some q → ∃ q', apps c' !! p = Some q' ∧ kin q q'.

Lemma good_rx c data : good c → up_ok (c <| rx_data := data |>) → good (c <| rx_data := data |>).
Proof. intros [[I1 I2 I3 I4 I5] Hu Hv] Hu'. split; [|done|done]. split; try done. intros p q Hq Hne. by destruct (I1 p q Hq Hne). Qed.

Lemma on_enabled_spec p m w (Q : world C (mrp_ctx U) → Prop) :
  Q w → (∀ q, apps (w_st w) !! p = Some q → enabled q = true → wp m (λ _, Q) w) → wp (on_enabled p m) (λ _, Q) w.
Proof.
  intros HQ Hm. unfold on_enabled. apply wp_bind, wp_gets. destruct (apps (w_st w) !! p) as [q|] eqn:Hq; [|by apply wp_ret].
  apply wp_when. destruct (enabled q) eqn:Hen; [by eapply Hm|done].
Qed.

Context (rx_stable : ∀ c data, up_ok c → up_ok (c <| rx_data := data |>)).

Lemma run_event_spec e w :
  platform_ok → handler_ok → good (w_st w) → event_ok e →
  wp (run_event e) (λ _ w', good (w_st w') ∧ same_ports (w_st w) (w_st w')) w.
Proof.
  intros Hpl Hh Hg He.
  assert (Hr : ∀ c', runs (w_st w) c' → good c' ∧ same_ports (w_st w) c').
  { intros c' [Hg' Hk]. split; [done|]. split; apply Hk. }
  assert (H0' := Hr _ (runs_refl _ Hg)).
  destruct e as [p|p|p|a|p data l2 l3 plen]; cbn [run_event].
  - apply on_enabled_spec; [done|]. intros q Hq Hen. eapply wp_mono; [by eapply join_expires_good|].
    intros [] w' [Hs _]. apply Hr. by apply stays_runs.
  - apply on_enabled_spec; [done|]. intros q Hq Hen.
    eapply wp_mono; [eapply leaveall_quiet_spec; [done|done|by right]|]. intros [] w' [Hs _]. apply Hr. by apply stays_runs.
  - apply on_enabled_spec; [done|]. intros q Hq Hen. eapply wp_mono; [by eapply periodic_timer_spec|].
    intros [] w' Hs. apply Hr. by apply stays_runs.
  - apply wp_bind, wp_gets. destruct (attrs (w_st w) !! a) as [x|] eqn:Hx; [|by apply wp_ret].
    apply wp_when. destruct (st_running _); [|done].
    destruct (mi_in _ _ (good_mrp _ Hg) a x Hx) as (_ & q & Hq & _).
    eapply wp_mono; [by eapply leave_timer_spec|]. intros [] w' (Hg' & Hk & _). apply Hr. by split.
  - apply wp_bind, wp_modify. set (w0 := World _ _ _). destruct He as (Hby & Hl2 & Hl2' & Hl3 & Hpl2).
    assert (Hg0 : good (w_st w0)) by (apply good_rx; [done|by apply rx_stable, Hg]).
    apply on_enabled_spec; [split; [done|]; split; [done|]; intros p' q' Hq'; by exists q'|]. intros q Hq Hen. apply wp_bind.
    eapply wp_mono; [by eapply process_packet_spec|]. intros rc w' ([Hg' Hk] & _). apply wp_ret.
    split; [done|]. split; apply Hk.
Qed.

Lemma run_events_spec es w :
  platform_ok → handler_ok → good (w_st w) → Forall event_ok es →
  wp (for_each es run_event) (λ _ w', good (w_st w') ∧ same_ports (w_st w) (w_st w')) w.
Proof.
  intros Hpl Hh. revert w. induction es as [|e es IH]; intros w Hg Hes.
  { apply wp_ret. split; [done|]. split; [done|]. intros p q Hq. by exists q. }
  apply list.Forall_cons in Hes as [He Hes]. cbn [for_each]. apply wp_bind.
  eapply wp_mono; [by apply run_event_spec|]. intros [] w1 (Hg1 & [L1 A1]).
  eapply wp_mono; [by apply IH|]. intros [] w2 (Hg2 & [L2 A2]). split; [done|]. split; [congruence|].
  intros p q Hq. destruct (A1 p q Hq) as (q1 & Hq1 & []). destruct (A2 p q1 Hq1) as (q2 & Hq2 & []).
  exists q2. split; [done|]. split; congruence.
Qed.
End events.
