(* ===== verification/MrpInit.v ===== *)
(** * MRP: initialisation and exit

    [mrp_init] makes an application out of zeroed memory or leaves it
    disabled; [mrp_exit] releases every attribute of the port. *)

From S2P Require Import Prelude Timer MrpSm MrpPdu Mrp MrpTx MrpSpec MrpJoin.

Section init.
Context {C U : Type} `{!Platform C, !MrpCalls C, !MrpOps C U, !MrpMemory, !MrpCallsLaws C, !MrpLaws C U}.
Implicit Types (w : world C (mrp_ctx U)) (c : mrp_ctx U).

(** Port [p] has no attributes. *)
Definition no_attrs c (p : nat) : Prop := ∀ a x, attrs c !! a = Some x → attr_app x ≠ p.

(** An application that is not in use, and one that has just been set up. *)
Definition app_idle (q : mrp_application) : Prop := attributes q = [] ∧ enabled q = false.
Record app_fresh c (p : nat) (q : mrp_application) : Prop := {
  af_full : is_full (participant_type q) = true;
  af_attributes : attributes q = replicate MRP_MAX_ATTR_TYPE [];
  af_ordered : attributes_ordered q = replicate MRP_MAX_ATTR_TYPE [];
  af_mrpdu : mrpdu q = replicate MRP_MAX_ATTR_TYPE mrpdu_zero;
  af_created : st_created (join q) = true;
  af_tx : tx_port p (upper c);
  af_timeout : ∃ ms, leave_timeout c !! p = Some ms ∧ ms ≠ 0;
}.

Lemma app_fresh_ok c p q : apps c !! p = Some q → app_fresh c p q → app_ok c p q.
Proof.
  intros Hq [F1 F2 F3 F4 F5 F6 F7].
  assert (Hl : ∀ t, attr_list p t c = [] ∧ ordered_list p t c = []).
  { intros t. unfold attr_list, ordered_list. rewrite Hq, F2, F3. cbn [from_option default].
    destruct (replicate MRP_MAX_ATTR_TYPE [] !! t) as [l|] eqn:E; [|done]. by apply lookup_replicate in E as [-> _]. }
  split; try done.
  - by rewrite F2, F3, F4, !length_replicate.
  - intros t. rewrite (proj1 (Hl t)). constructor.
  - intros t. by destruct (Hl t) as [-> ->].
  - intros t a. rewrite (proj1 (Hl t)). by intros ?%elem_of_nil.
  - intros t d. rewrite F4. intros [-> _]%lookup_replicate. exists []. left. done.
Qed.

(** The replacement of an application without attributes. *)
Lemma inv_replace p q q' c :
  mrp_ok c → apps c !! p = Some q → no_attrs c p →
  (attributes q' ≠ [] → app_ok (upd_app p (λ _, q') c) p q') → (enabled q' = true → attributes q' ≠ []) →
  mrp_ok (upd_app p (λ _, q') c).
Proof.
  intros Hi Hq Hno Hok Hen'. set (c' := upd_app p (λ _, q') c) in *.
  assert (Hp : apps c' !! p = Some q') by by apply (upd_app_lookup p (λ _, q') c q).
  assert (Hr : ∀ r, r ≠ p → apps c' !! r = apps c !! r) by (intros r Hr; by apply upd_app_other).
  assert (Hl : ∀ r t, r ≠ p → attr_list r t c' = attr_list r t c ∧ ordered_list r t c' = ordered_list r t c).
  { intros r t Hne. unfold attr_list, ordered_list. by rewrite (Hr r Hne). }
  destruct Hi as [I1 I2 I3 I4 I5]. split.
  - intros r q1 Hq1 Hne. destruct (decide (r = p)) as [->|Hrp].
    + assert (q1 = q') as -> by congruence. by apply Hok.
    + rewrite Hr in Hq1 by done. destruct (I1 r q1 Hq1 Hne) as [A1 A2 A3 A4 A5 A6 A7 A8 A9]. split; try done.
      * intros t. rewrite (proj1 (Hl r t Hrp)). apply A3.
      * intros t. destruct (Hl r t Hrp) as [-> ->]. apply A4.
      * intros t a. rewrite (proj1 (Hl r t Hrp)). apply A5.
  - intros r q1 Hq1 Hen. destruct (decide (r = p)) as [->|Hrp].
    + assert (q1 = q') as -> by congruence. by apply Hen'.
    + rewrite Hr in Hq1 by done. by apply (I2 r).
  - exact I3.
  - intros a x Hx. destruct (I4 a x Hx) as (Hin & q1 & Hq1 & Hen & Hn). pose proof (Hno a x Hx) as Hne.
    rewrite (proj1 (Hl _ _ Hne)). split; [done|]. exists q1. by rewrite Hr.
  - exact I5.
Qed.

Lemma inv_init p q q' c :
  mrp_ok c → apps c !! p = Some q → no_attrs c p → app_idle q' ∨ app_fresh c p q' →
  mrp_ok (upd_app p (λ _, q') c).
Proof.
  intros Hi Hq Hno Hq'. apply (inv_replace p q); [done..| |].
  - intros Hne. destruct Hq' as [[H1 _]|Hf]; [done|]. apply app_fresh_ok; [by apply (upd_app_lookup p (λ _, q') c q)|]. by destruct Hf.
  - intros Hen. destruct Hq' as [[_ H2]|Hf]; [congruence|]. by rewrite (af_attributes _ _ _ Hf).
Qed.

(** What [mrp_init] leaves of the application it is given. *)
Definition init_done p (q : mrp_application) (ty ptype : Z) c (rc : Z) c' : Prop :=
  ∃ q', c' = upd_app p (λ _, q') c ∧ participant_type q' = ptype ∧
    ((rc = 0 ∧ enabled q' = true ∧ app_fresh c p q') ∨
     (rc = -1 ∧ enabled q' = false ∧ attributes q' = attributes q ∧ ∃ n, answer n (mrp_embed MrpTimerCreate) < 0)).

Lemma wp_set_more p f g (Q : unit → world C (mrp_ctx U) → Prop) c ck tr :
  Q tt (World (upd_app p (f ∘ g) c) ck tr) → wp (set_app p f) Q (World (upd_app p g c) ck tr).
Proof. intros HQ. apply wp_set_app. cbn [w_st w_clock w_trace]. by rewrite upd_app_twice. Qed.

Lemma wp_timer_create p (on : (soft_timer → soft_timer) → mrp_application → mrp_application) g (Q : Z → world C (mrp_ctx U) → Prop) c ck tr :
  (∀ rc ck tr', frames tr' = frames tr → (rc = 0 ∨ rc = -1 ∧ ∃ n, answer n (mrp_embed MrpTimerCreate) < 0) →
     Q rc (World (upd_app p (on (soft_init rc) ∘ g) c) ck tr')) →
  wp (timer_create_app p on) Q (World (upd_app p g c) ck tr).
Proof.
  intros HQ. unfold timer_create_app. apply wp_bind, wp_call. cbv zeta. cbn [w_st w_clock w_trace]. apply wp_bind, wp_set_more.
  apply wp_ret. apply HQ; [by rewrite frames_embed|].
  destruct (_ <? 0) eqn:E; [|by left]. apply Z.ltb_lt in E. right. split; [done|]. by exists ck.
Qed.

(** The machines that [mrp_enable] starts. *)
Lemma leaveall_begin_spec `{!MrpInd C U} p q w :
  apps (w_st w) !! p = Some q → is_full (participant_type q) = true →
  wp (mrp_leaveall_sm p MRP_EVENT_BEGIN) (λ _ w', frames (w_trace w') = frames (w_trace w) ∧
    ∃ f, w_st w' = upd_app p f (w_st w) ∧ ∀ q, ∃ l, f q = q <| leaveall := l |>) w.
Proof.
  intros Hq Hf. unfold mrp_leaveall_sm. apply wp_bind. eapply wp_get_app; [done|]. apply wp_bind. rewrite Hf. cbn [negb].
  apply wp_bind. unfold random_lva. apply wp_bind, wp_call, wp_ret. unfold lva_timer_start. apply wp_bind, wp_bind, wp_call.
  apply wp_set_app. apply wp_ret. cbn [w_st w_clock w_trace]. apply wp_bind, wp_set_more.
  unfold mrp_leaveall_action_handler. apply wp_bind. eapply wp_get_app; [by apply upd_app_lookup|]. cbn. apply wp_ret.
  cbn [w_st w_trace]. split; [by rewrite !frames_embed|]. eexists. split; [reflexivity|]. intros q1. eexists. reflexivity.
Qed.
Lemma periodic_begin_spec p q w :
  apps (w_st w) !! p = Some q →
  wp (mrp_periodic_sm p MRP_EVENT_BEGIN) (λ _ w', frames (w_trace w') = frames (w_trace w) ∧
    ∃ f, w_st w' = upd_app p f (w_st w) ∧ ∀ q, ∃ l, f q = q <| periodic := l |>) w.
Proof.
  intros Hq. unfold mrp_periodic_sm. apply wp_bind. eapply wp_get_app; [done|]. apply wp_bind. unfold periodic_timer_start.
  apply wp_bind, wp_bind, wp_call. apply wp_set_app. apply wp_ret. cbn [w_st w_clock w_trace]. apply wp_set_more.
  cbn [w_st w_trace]. split; [by rewrite frames_embed|]. eexists. split; [reflexivity|]. intros q1. eexists. reflexivity.
Qed.

Lemma mrp_enable_spec `{!MrpInd C U} p q w :
  apps (w_st w) !! p = Some q → is_full (participant_type q) = true → enabled q = false →
  wp (mrp_enable p) (λ _ w', frames (w_trace w') = frames (w_trace w) ∧
    ∃ f, w_st w' = upd_app p f (w_st w) ∧ ∃ l m, f q = q <| leaveall := l |> <| periodic := m |> <| enabled := true |>) w.
Proof.
  intros Hq Hf Hen. unfold mrp_enable. apply wp_bind. eapply wp_get_app; [done|]. rewrite Hen, Hf. apply wp_bind.
  eapply wp_mono; [by eapply leaveall_begin_spec|]. intros [] w1 (Hf1 & f1 & E1 & L1). destruct (L1 q) as [l Hl].
  assert (Hq1 : apps (w_st w1) !! p = Some (f1 q)) by (rewrite E1; by apply upd_app_lookup).
  apply wp_bind, wp_when. destruct (negb _).
  - eapply wp_mono; [by eapply periodic_begin_spec|]. intros [] w2 (Hf2 & f2 & E2 & L2). destruct (L2 (f1 q)) as [m Hm].
    apply wp_set_app. cbn [w_st w_trace]. split; [by rewrite Hf2|]. rewrite E2, E1, !upd_app_twice. eexists. split; [reflexivity|].
    exists l, m. cbn. by rewrite Hm, Hl.
  - apply wp_set_app. cbn [w_st w_trace]. split; [done|]. rewrite E1, !upd_app_twice. eexists. split; [reflexivity|].
    exists l, (periodic q). cbn. rewrite Hl. by destruct q.
Qed.

Lemma mrp_init_spec `{!MrpInd C U} p q ty ptype w :
  apps (w_st w) !! p = Some q → is_full ptype = true → tx_port p (upper (w_st w)) →
  (∃ ms, leave_timeout (w_st w) !! p = Some ms ∧ ms ≠ 0) →
  wp (mrp_init p ty ptype) (λ rc w', frames (w_trace w') = frames (w_trace w) ∧
    init_done p q ty ptype (w_st w) rc (w_st w')) w.
Proof.
  intros Hq Hf Htx Hto. unfold mrp_init. apply wp_bind. eapply wp_get_app; [done|]. apply wp_bind, wp_set_app.
  apply wp_bind.
  assert (Hfail : ∀ g tr, frames tr = frames (w_trace w) → participant_type (g q) = ptype → enabled (g q) = false →
     attributes (g q) = attributes q → (∃ n, answer n (mrp_embed MrpTimerCreate) < 0) →
     frames tr = frames (w_trace w) ∧ init_done p q ty ptype (w_st w) (-1) (upd_app p g (w_st w))).
  { intros g tr Hfr H1 H2 H3 H4. split; [done|]. exists (g q). split; [by apply (upd_app_ext p _ q)|]. split; [done|]. by right. }
  assert (Hdone : ∀ g ck tr, frames tr = frames (w_trace w) → participant_type (g q) = ptype → enabled (g q) = false →
     st_created (join (g q)) = true → mrpdu (g q) = replicate MRP_MAX_ATTR_TYPE mrpdu_zero →
     wp (if (0 <? 0) : bool then ret (-1) else
         set_app p (λ q, q <| attributes := replicate MRP_MAX_ATTR_TYPE [] |> <| attributes_ordered := replicate MRP_MAX_ATTR_TYPE [] |>);;
         mrp_enable p;; ret 0)
       (λ rc w', frames (w_trace w') = frames (w_trace w) ∧ init_done p q ty ptype (w_st w) rc (w_st w'))
       (World (upd_app p g (w_st w)) ck tr)).
  { intros g ck tr Hfr H1 H2 H3 H4. cbn [Z.ltb Z.compare]. apply wp_bind, wp_set_more. set (g2 := _ ∘ g).
    apply wp_bind. eapply wp_mono; [apply (mrp_enable_spec p (g2 q)); [by apply upd_app_lookup|by cbn; rewrite H1|done]|].
    intros [] w2 (Hf2 & f & E & l & m & Hfq). apply wp_ret. split; [by rewrite Hf2|]. rewrite E. cbn [w_st]. rewrite upd_app_twice.
    exists ((f ∘ g2) q). split; [by apply (upd_app_ext p _ q)|]. cbn. rewrite Hfq. split; [done|]. left. split; [done|]. split; [done|].
    split; try done. cbn. by rewrite H1. }
  unfold mrp_init_timers. apply wp_bind. eapply wp_get_app; [by apply upd_app_lookup|].
  apply wp_bind, wp_timer_create. intros rc1 ck1 tr1 Hf1 [->|[-> Hn]].
  2:{ apply wp_ret. cbn. by apply Hfail. }
  cbn [Z.ltb Z.compare]. apply wp_bind, wp_timer_create. intros rc2 ck2 tr2 Hf2 [->|[-> Hn]].
  2:{ cbn [Z.ltb Z.compare]. apply wp_bind, wp_set_more, wp_ret. cbn. apply Hfail; try done. cbn [w_trace]. by rewrite Hf2. }
  cbn [Z.ltb Z.compare]. destruct (_ =? APP_MSRP).
  { apply wp_ret. apply Hdone; try done. by rewrite Hf2. }
  apply wp_bind, wp_timer_create. intros rc3 ck3 tr3 Hf3 [->|[-> Hn]].
  - apply wp_ret. apply Hdone; try done. by rewrite Hf3, Hf2.
  - cbn [Z.ltb Z.compare]. apply wp_bind, wp_set_more, wp_bind, wp_set_more, wp_ret. cbn. apply Hfail; try done. cbn [w_trace]. by rewrite Hf3, Hf2.
Qed.

(** ** Exit *)

(** The attributes of port [p] of the types [ts] have been released. *)
Record released (p : nat) (ts : list nat) E c c' : Prop := {
  re_inv : mrp_inv E c';
  re_only : only_port p c c';
  re_upper : upper c' = upper c;
  re_attrs : ∀ a x, attrs c' !! a = Some x ↔ attrs c !! a = Some x ∧ ¬ (attr_app x = p ∧ attr_type x ∈ ts);
}.

Lemma exit_type_spec E p q t w :
  mrp_inv E (w_st w) → apps (w_st w) !! p = Some q → enabled q = true → (t < MRP_MAX_ATTR_TYPE)%nat →
  wp (check_type p t;; list_each (attr_list p t) mrp_free_attribute) (λ _ w',
    released p [t] E (w_st w) (w_st w') ∧ frames (w_trace w') = frames (w_trace w)) w.
Proof.
  intros Hi Hq Hen Ht. pose proof (mi_app _ _ Hi p q Hq (mi_enabled _ _ Hi p q Hq Hen)) as Hao.
  destruct (ao_length _ _ _ Hao) as (L1 & L2 & _).
  apply wp_bind. eapply wp_check_type; [done|apply lookup_lt_is_Some_2; lia..|].
  eapply wp_mono; [apply (Prelude.wp_list_each (attr_list p t) (λ l w', frames (w_trace w') = frames (w_trace w) ∧
     mrp_inv E (w_st w') ∧ only_port p (w_st w) (w_st w') ∧ upper (w_st w') = upper (w_st w) ∧ attr_list p t (w_st w') = l ∧
     ∀ a x, attrs (w_st w') !! a = Some x ↔ attrs (w_st w) !! a = Some x ∧ ¬ (attr_app x = p ∧ attr_type x = t ∧ a ∉ l)))|].
  - intros pre a l w1 Hnd Hl (Hf & Hi1 & Ho & Hu & Hl1 & Ha).
    rewrite Hl1 in Hl. assert (pre = []) as ->.
    { apply (f_equal length) in Hl. rewrite length_app in Hl. destruct pre; [done|cbn in Hl; lia]. }
    assert (Hq1 : ∃ q1, apps (w_st w1) !! p = Some q1 ∧ enabled q1 = true).
    { destruct (op_this _ _ _ Ho q Hq) as (q1 & Hq1 & []). exists q1. split; [done|congruence]. }
    destruct Hq1 as (q1 & Hq1 & Hen1). pose proof (mi_app _ _ Hi1 p q1 Hq1 (mi_enabled _ _ Hi1 p q1 Hq1 Hen1)) as Hao1.
    destruct (ao_attr _ _ _ Hao1 t a) as (x & Hx & Hxp & Hxt); [rewrite Hl1; by left|].
    cbn in Hnd. apply list.NoDup_cons in Hnd as [Hna Hnd].
    eapply free_attribute_exec; [done|done|]. intros ck tr Hfr. cbn [w_st w_trace].
    pose proof (freed_lists a x (w_st w1) t) as [Hfl _]. rewrite Hxp, Hxt, decide_True, Hl1 in Hfl by done.
    pose proof (list_remove_mid a [] l (not_elem_of_nil a) Hna) as Hrm. cbn [app] in Hrm. rewrite Hrm in Hfl.
    split; [exists []; done|]. split; [by rewrite Hfr|]. split; [by apply inv_freed|].
    split; [etrans; [done|]; rewrite <- Hxp; apply freed_only_port|]. split; [done|]. split; [done|].
    intros b y. change (attrs (freed a x (w_st w1))) with (delete a (attrs (w_st w1))). rewrite lookup_delete_Some, Ha. split.
    + intros (Hne & Hy & Hn). split; [done|]. intros (E1 & E2 & E3). apply Hn. split; [done|]. split; [done|].
      intros [->|?]%elem_of_cons; done.
    + intros (Hy & Hn). split; [|split; [done|]].
      * intros <-. apply Ha in Hx as [Hx _]. assert (y = x) as -> by congruence. by apply Hn.
      * intros (E1 & E2 & E3). apply Hn. split; [done|]. split; [done|]. intros Hb. apply E3. by right.
  - apply Hao.
  - split; [done|]. split; [done|]. split; [done|]. split; [done|]. split; [done|]. intros a x. split; [|by intros []].
    intros Hx. split; [done|]. intros (<- & <- & Hn). apply Hn. by apply (mi_in _ _ Hi a x).
  - intros [] w' (Hf & Hi' & Ho & Hu & Hl & Ha). split; [|done]. split; try done.
    intros a x. rewrite Ha, list_elem_of_singleton. split; intros [H1 H2]; (split; [done|]); intros H3; apply H2; [|naive_solver].
    destruct H3 as [H3 H4]. split; [done|]. split; [done|]. apply not_elem_of_nil.
Qed.

Lemma exit_types_spec E p q ts w :
  mrp_inv E (w_st w) → apps (w_st w) !! p = Some q → enabled q = true → (∀ t, t ∈ ts → (t < MRP_MAX_ATTR_TYPE)%nat) →
  wp (for_each ts (λ t, check_type p t;; list_each (attr_list p t) mrp_free_attribute)) (λ _ w',
    released p ts E (w_st w) (w_st w') ∧ frames (w_trace w') = frames (w_trace w)) w.
Proof.
  revert w q. induction ts as [|t ts IH]; intros w q Hi Hq Hen Hts.
  { apply wp_ret. split; [|done]. split; try done. intros a x. split; [|by intros []]. intros Hx. split; [done|].
    by intros [_ ?%elem_of_nil]. }
  cbn [for_each]. apply wp_bind. eapply wp_mono; [eapply exit_type_spec; [done|done|done|apply Hts; by left]|].
  intros [] w1 ([I1 O1 U1 A1] & F1). destruct (op_this _ _ _ O1 q Hq) as (q1 & Hq1 & Hs1).
  eapply wp_mono; [apply (IH w1 q1); [done|done|by rewrite (sa_enabled _ _ Hs1)|]|].
  - intros t' Ht'. apply Hts. by right.
  - intros [] w2 ([I2 O2 U2 A2] & F2). split; [|by rewrite F2]. split; [done|by etrans|congruence|].
    intros a x. rewrite A2, A1, list_elem_of_singleton, elem_of_cons. naive_solver.
Qed.

(** Port [p] has been taken out of use. *)
Record exited (p : nat) c c' : Prop := {
  ex_mrp : mrp_ok c';
  ex_upper : upper c' = upper c;
  ex_timeout : leave_timeout c' = leave_timeout c;
  ex_length : length (apps c') = length (apps c);
  ex_others : ∀ r, r ≠ p → apps c' !! r = apps c !! r;
  ex_this : ∀ q, apps c' !! p = Some q → enabled q = false;
  ex_attrs : ∀ a x, attrs c' !! a = Some x ↔ attrs c !! a = Some x ∧ attr_app x ≠ p;
}.

(** The applications of the port after the last update. *)
Lemma exited_replace p q q' c c2 :
  mrp_ok c2 → no_attrs c2 p → apps c2 !! p = Some q →
  attributes q' = attributes q → attributes_ordered q' = attributes_ordered q → mrpdu q' = mrpdu q →
  participant_type q' = participant_type q → enabled q' = false →
  upper c2 = upper c → leave_timeout c2 = leave_timeout c → length (apps c2) = length (apps c) →
  (∀ r, r ≠ p → apps c2 !! r = apps c !! r) →
  (∀ a x, attrs c2 !! a = Some x ↔ attrs c !! a = Some x ∧ attr_app x ≠ p) →
  exited p c (upd_app p (λ _, q') c2).
Proof.
  intros Hi Hno Hq L1 L2 L3 L4 Hen Hu Ht Hl Hr Ha. set (c' := upd_app p (λ _, q') c2).
  assert (Hq' : apps c' !! p = Some q') by by apply (upd_app_lookup p (λ _, q') c2 q).
  split.
  - apply (inv_replace p q); [done|done|done| |congruence]. intros Hne. rewrite L1 in Hne.
    fold c'. destruct (mi_app _ _ Hi p q Hq Hne) as [A1 A2 A3 A4 A5 A6 A7 A8 A9].
    assert (Hlist : ∀ t, attr_list p t c' = attr_list p t c2 ∧ ordered_list p t c' = ordered_list p t c2).
    { intros t. unfold attr_list, ordered_list. by rewrite Hq', Hq, L1, L2. }
    split; rewrite ?L1, ?L2, ?L3, ?L4; try done; [| | |congruence].
    + intros t. rewrite (proj1 (Hlist t)). apply A3.
    + intros t. destruct (Hlist t) as [-> ->]. apply A4.
    + intros t a. rewrite (proj1 (Hlist t)). apply A5.
  - done.
  - done.
  - unfold c', upd_app, over, over_field; cbn. by rewrite length_alter.
  - intros r Hne. unfold c'. by rewrite upd_app_other, Hr.
  - intros q1 Hq1. by assert (q1 = q') as -> by congruence.
  - exact Ha.
Qed.

Lemma mrp_exit_timers_exec p q (Q : unit → world C (mrp_ctx U) → Prop) w :
  apps (w_st w) !! p = Some q →
  (∀ q' : mrp_application → mrp_application,
     (∀ q, attributes (q' q) = attributes q ∧ attributes_ordered (q' q) = attributes_ordered q ∧ mrpdu (q' q) = mrpdu q ∧
           participant_type (q' q) = participant_type q ∧ enabled (q' q) = enabled q) →
     Q tt (World (upd_app p q' (w_st w)) (w_clock w) (w_trace w))) →
  wp (mrp_exit_timers p) Q w.
Proof.
  intros Hq HQ. unfold mrp_exit_timers. apply wp_bind. eapply wp_get_app; [done|]. apply wp_bind, wp_when.
  destruct (negb _); [apply wp_set_app|]; apply wp_bind, wp_set_app; cbn [w_st w_clock w_trace]; rewrite ?upd_app_twice;
    apply wp_set_more; by apply HQ.
Qed.

Lemma mrp_exit_spec p q w :
  mrp_ok (w_st w) → apps (w_st w) !! p = Some q →
  wp (mrp_exit p) (λ rc w', rc = 0 ∧ frames (w_trace w') = frames (w_trace w) ∧ exited p (w_st w) (w_st w')) w.
Proof.
  intros Hi Hq. unfold mrp_exit, mrp_disable. apply wp_bind, wp_bind. eapply wp_get_app; [done|].
  destruct (enabled q) eqn:Hen; cbn [negb].
  2:{ apply wp_ret. apply wp_bind. eapply mrp_exit_timers_exec; [done|]. intros f Hf. destruct (Hf q) as (F1 & F2 & F3 & F4 & F5).
      apply wp_ret. split; [done|]. split; [done|]. cbn [w_st]. rewrite (upd_app_ext p _ q f (λ _, f q)) by done.
      assert (Hno : no_attrs (w_st w) p).
      { intros a x Hx <-. destruct (mi_in _ _ Hi a x Hx) as (_ & q1 & Hq1 & Hen1 & _). congruence. }
      apply (exited_replace p q); try done; [congruence|]. intros a x. split; [|by intros []]. intros Hx. split; [done|]. by eapply Hno. }
  set (E := λ a, ∃ x, attrs (w_st w) !! a = Some x ∧ attr_app x = p).
  assert (Hgo : ∀ f ck tr, same_lists q (f q) → frames tr = frames (w_trace w) →
    wp (mrp_exit_attributes p;; set_app p (λ q, q <| enabled := false |>))
      (λ _ w', wp (mrp_exit_timers p;; ret 0) (λ rc w', rc = 0 ∧ frames (w_trace w') = frames (w_trace w) ∧ exited p (w_st w) (w_st w')) w')
      (World (upd_app p f (w_st w)) ck tr)).
  { intros f ck tr Hsl Hf. set (c1 := upd_app p f (w_st w)).
    assert (Hi1 : mrp_inv E c1).
    { eapply (inv_upd_frame (λ _, False) E); [done|done|done|done|]. intros _. right. intros a x Hx Hap. by exists x. }
    assert (Hq1 : apps c1 !! p = Some (f q)) by by apply upd_app_lookup.
    assert (Hen1 : enabled (f q) = true) by (by rewrite (sl_enabled _ _ Hsl)).
    apply wp_bind. unfold mrp_exit_attributes.
    eapply wp_mono; [apply (exit_types_spec E p (f q)); [done|done|done|intros t Ht; apply elem_of_seq in Ht; lia]|].
    intros [] w2 ([I2 O2 U2 A2] & F2). destruct (op_this _ _ _ O2 _ Hq1) as (q2 & Hq2 & Hs2).
    apply wp_set_app. cbn [w_st w_clock w_trace]. apply wp_bind. eapply mrp_exit_timers_exec; [by apply upd_app_lookup|].
    intros g Hg. cbn [w_st w_clock w_trace]. apply wp_ret. split; [done|]. cbn [w_st w_trace]. split; [by rewrite F2|].
    rewrite upd_app_twice. set (h := g ∘ _). rewrite (upd_app_ext p _ q2 h (λ _, h q2)) by done.
    destruct (Hg (q2 <| enabled := false |>)) as (G1 & G2 & G3 & G4 & G5).
    assert (Hat : ∀ a x, attrs (w_st w2) !! a = Some x ↔ attrs (w_st w) !! a = Some x ∧ attr_app x ≠ p).
    { intros a x. rewrite A2. change (attrs (w_st (World c1 ck tr))) with (attrs (w_st w)). split; intros [Hx Hn]; (split; [done|]).
      - intros Hp. apply Hn. split; [done|]. apply elem_of_seq. pose proof (wf_type _ (mi_wf _ _ Hi a x Hx)). pose proof attr_types_law. lia.
      - by intros [? _]. }
    apply (exited_replace p q2); try done.
    + eapply mrp_inv_empty; [done|]. intros a x Hx (x0 & Hx0 & Hp). apply Hat in Hx as [Hx Hne]. congruence.
    + intros a x Hx. by apply Hat in Hx as [_ Hx].
    + by rewrite (op_timeout _ _ _ O2).
    + rewrite (op_length _ _ _ O2). unfold c1, upd_app, over, over_field; cbn. by rewrite length_alter.
    + intros r Hr. rewrite (op_others _ _ _ O2) by done. cbn [w_st]. unfold c1. by rewrite upd_app_other. }
  apply wp_bind, wp_when. destruct (negb _).
  - unfold periodic_timer_stop. apply wp_set_app. apply wp_bind, wp_set_more, wp_bind, wp_set_more.
    cbn [w_st w_clock w_trace]. by apply Hgo.
  - apply wp_bind, wp_set_app, wp_bind, wp_set_more. cbn [w_st w_clock w_trace]. by apply Hgo.
Qed.
End init.
