(* ===== verification/MrpProps.v ===== *)
(** * MRP: the properties of the applications

    Requests implement a set of declarations, a transmission opportunity says
    what the applicants have to say, a leave-all ages every registration, the
    expiry of a leave timer ends one, and packets of any content are safe.
    MvrpProps.v instantiates them. *)

From S2P Require Import Prelude Timer MrpSm MrpPdu Mrp MrpTx MrpSpec MrpRequests MrpJoin MrpEvents.

Section props.
Context {C U : Type} `{!Platform C, !MrpCalls C, !MrpOps C U, !MrpMemory, !MrpCallsLaws C, !MrpLaws C U}.
Implicit Types (w : world C (mrp_ctx U)) (c : mrp_ctx U).

(** ** Requests as operations on a set *)

Inductive mrp_request := JoinReq (t : nat) (val : list Z) (new : bool) | LeaveReq (t : nat) (val : list Z).

Definition run_request `{!MrpInd C U} (p : nat) (r : mrp_request) : M C (mrp_ctx U) unit :=
  match r with
  | JoinReq t val new => let! _ := mrp_mad_join_request p t val new in ret tt
  | LeaveReq t val => mrp_mad_leave_request p t val
  end.
Definition request_ok (r : mrp_request) : Prop :=
  match r with JoinReq t val _ | LeaveReq t val => (min_attr_type ≤ t ≤ max_attr_type)%nat ∧ val_ok t val end.
(** The specification: a set of port, type and value. *)
Definition request_set (p : nat) (D : nat * nat * list Z → Prop) (r : mrp_request) (i : nat * nat * list Z) : Prop :=
  match r with
  | JoinReq t val _ => i = (p, t, value t val) ∨ D i
  | LeaveReq t val => i ≠ (p, t, value t val) ∧ D i
  end.

Lemma request_set_ext p D D' rs : (∀ i, D i ↔ D' i) → ∀ i, fold_left (request_set p) rs D i ↔ fold_left (request_set p) rs D' i.
Proof.
  revert D D'. induction rs as [|r rs IH]; intros D D' HD; [done|]. apply IH. intros i. unfold request_set.
  destruct r; by rewrite HD.
Qed.

Lemma run_request_spec `{!MrpInd C U} p q r w :
  platform_ok → timers_ok → (∀ n, answer n (mrp_embed MrpMalloc) ≠ 0) → mrp_ok (w_st w) →
  apps (w_st w) !! p = Some q → enabled q = true → request_ok r →
  wp (run_request p r) (λ _ w', mrp_ok (w_st w') ∧ kept (w_st w) (w_st w') ∧ frames (w_trace w') = frames (w_trace w) ∧
    (∀ i, declares (w_st w') i ↔ request_set p (declares (w_st w)) r i) ∧
    (∀ i, registers (w_st w') i ↔ registers (w_st w) i)) w.
Proof.
  intros Hpl Htm Hmem Hi Hq Hen Hr. destruct r as [t val new|t val]; destruct Hr as [Ht Hv]; cbn [run_request].
  - apply wp_bind. eapply wp_mono; [by eapply mrp_join_request_spec|]. intros o w1 (Hf & H1). apply wp_ret. destruct o as [a|].
    + destruct H1 as (_ & [Q1 Q2 Q3 Q4 Q5] & _). split; [done|]. split; [by eapply only_port_kept|]. split; [done|]. split; [|done].
      intros i. rewrite Q3. cbn [request_set]. case_decide; naive_solver.
    + destruct H1 as (_ & [?|Hz]); [congruence|]. by destruct (Hmem _ Hz).
  - eapply wp_mono; [by eapply mrp_leave_request_spec|]. intros [] w1 (Hf & H1). rewrite Hen in H1.
    destruct H1 as [Q1 Q2 Q3 Q4 Q5]. split; [done|]. split; [by eapply only_port_kept|]. split; [done|]. split; [|done].
    intros i. rewrite Q3. cbn [request_set]. case_decide; naive_solver.
Qed.

(** C14: any sequence of join and leave requests on an enabled port implements
    the same operations on a set: afterwards exactly the values of the set are
    declared, no registration has changed and nothing has been sent. *)
Theorem requests_refine_set `{!MrpInd C U} p q rs w :
  platform_ok → timers_ok → (∀ n, answer n (mrp_embed MrpMalloc) ≠ 0) → mrp_ok (w_st w) →
  apps (w_st w) !! p = Some q → enabled q = true → Forall request_ok rs →
  wp (for_each rs (run_request p)) (λ _ w', mrp_ok (w_st w') ∧ frames (w_trace w') = frames (w_trace w) ∧
    (∀ i, declares (w_st w') i ↔ fold_left (request_set p) rs (declares (w_st w)) i) ∧
    (∀ i, registers (w_st w') i ↔ registers (w_st w) i)) w.
Proof.
  intros Hpl Htm Hmem. revert w q. induction rs as [|r rs IH]; intros w q Hi Hq Hen Hrs; [by apply wp_ret|].
  apply list.Forall_cons in Hrs as [Hr Hrs]. cbn [for_each]. apply wp_bind.
  eapply wp_mono; [by eapply run_request_spec|]. intros [] w1 (Hi1 & Hk1 & Hf1 & HD1 & HR1).
  destruct (kept_enabled _ _ _ _ Hk1 Hq Hen) as (q1 & Hq1 & Hen1 & _).
  eapply wp_mono; [by eapply IH|]. intros [] w2 (Hi2 & Hf2 & HD2 & HR2). split; [done|]. split; [by rewrite Hf2|]. split.
  - intros i. rewrite HD2. cbn [fold_left]. by apply request_set_ext.
  - intros i. by rewrite HR2.
Qed.

(** ** Transmission opportunities *)

Lemma ordered_port c p q t a :
  mrp_ok c → apps c !! p = Some q → enabled q = true → a ∈ ordered_list p t c → ∃ x, attrs c !! a = Some x ∧ attr_app x = p.
Proof.
  intros Hi Hq Hen Ha. pose proof (mi_app _ _ Hi p q Hq (mi_enabled _ _ Hi p q Hq Hen)) as Hao.
  rewrite (ao_perm _ _ _ Hao) in Ha. destruct (ao_attr _ _ _ Hao t a Ha) as (x & Hx & Hp & _). eauto.
Qed.

(** C15: when the join timer expires and no leave-all is pending, the frames
    handed to the network say, for every attribute type, exactly what the
    applicants of the port have to say, in the order of transmission and
    within the MTU; nothing is left under construction, and every applicant
    has made its transmission step. *)
Theorem transmission_opportunity `{!MrpInd C U} p q w :
  platform_ok → healthy → mrp_ok (w_st w) → apps (w_st w) !! p = Some q → enabled q = true →
  (∀ t, t ∈ attr_types → idle_at (w_st w) p t) → lva_active q = false →
  wp (join_expires p) (λ _ w', mrp_ok (w_st w') ∧ (∀ t, t ∈ attr_types → idle_at (w_st w') p t) ∧
    (∃ fs sent, Forall2 (λ f s, frame_holds s.1 f s.2) fs sent ∧
      frames (w_trace w') = (if tx_enabled p (upper (w_st w)) then map (pair p) fs else []) ++ frames (w_trace w) ∧
      ∀ t, t ∈ attr_types → says (sent_of t sent) = say_all (participant_type q) MRP_EVENT_TX (ordered_list p t (w_st w)) (w_st w)) ∧
    (∀ b x, attrs (w_st w) !! b = Some x →
       attrs (w_st w') !! b = if decide (attr_app x = p) then served (participant_type q) MRP_EVENT_TX x else Some x)) w.
Proof.
  intros Hpl Hh Hi Hq Hen Hid Hl. eapply wp_mono; [by eapply join_expires_spec|]. intros [] w' Ho.
  destruct (opp_words _ _ _ _ Ho) as (rd & order & W1 & W2 & W3 & W4). rewrite Hl in *.
  split; [apply Ho|]. split; [apply Ho|]. split.
  - destruct (W4 Hh Hid) as (fs & sent & F1 & F2 & F3). exists fs, sent. split; [done|]. split; [done|].
    intros t Ht. rewrite F3, W3 by done. cbn [app]. unfold say_all. f_equal. apply map_ext_in. intros a Ha.
    apply list_elem_of_In in Ha. destruct (ordered_port _ _ _ _ _ Hi Hq Hen Ha) as (x & Hx & Hp).
    destruct (W1 a x Hx Hp) as (x' & -> & -> & _). by rewrite Hx.
  - intros b x Hx. case_decide as D.
    + destruct (W1 b x Hx D) as (x' & _ & -> & Hw). done.
    + by apply (opp_other _ _ _ _ Ho).
Qed.

(** C32: when a leave-all is pending, every message of the opportunity starts
    with the leave-all, declarations and registrations stay, and every
    registrar that was IN is now waiting in LV with its timer running: its
    attribute is deregistered unless it is declared again. *)
Theorem leaveall_opportunity `{!MrpInd C U} p q w :
  platform_ok → healthy → mrp_ok (w_st w) → apps (w_st w) !! p = Some q → enabled q = true →
  (∀ t, t ∈ attr_types → idle_at (w_st w) p t) → lva_active q = true →
  wp (join_expires p) (λ _ w', mrp_ok (w_st w') ∧
    (∀ i, declares (w_st w') i ↔ declares (w_st w) i) ∧ (∀ i, registers (w_st w') i ↔ registers (w_st w) i) ∧
    (∃ fs sent, Forall2 (λ f s, frame_holds s.1 f s.2) fs sent ∧
      frames (w_trace w') = (if tx_enabled p (upper (w_st w)) then map (pair p) fs else []) ++ frames (w_trace w) ∧
      ∀ t, t ∈ attr_types → ∃ more, says (sent_of t sent) = SayLeaveAll :: more) ∧
    (∀ b x, attrs (w_st w) !! b = Some x → attr_app x = p → reg_state (registrar x) = MRP_STATE_IN →
       ∃ y, attrs (w_st w') !! b = Some y ∧ same_id x y ∧ reg_state (registrar y) = MRP_STATE_LV ∧
            st_running (leave (registrar y)) = true)) w.
Proof.
  intros Hpl Hh Hi Hq Hen Hid Hl. eapply wp_mono; [by eapply join_expires_spec|]. intros [] w' Ho.
  pose proof (opp_ok _ _ _ _ Ho) as Hi'. destruct (opp_words _ _ _ _ Ho) as (rd & order & W1 & W2 & W3 & W4). rewrite Hl in *.
  split; [done|]. split; [intros i; eapply opportunity_holds; eauto|]. split; [intros i; eapply opportunity_holds; eauto|]. split.
  - destruct (W4 Hh Hid) as (fs & sent & F1 & F2 & F3). exists fs, sent. split; [done|]. split; [done|].
    intros t Ht. rewrite F3 by done. cbn [app]. eauto.
  - intros b x Hx Hp Hin. destruct (W1 b x Hx Hp) as (x' & _ & (L1 & L2 & L3 & L4 & L5) & Hw). rewrite Hin in L5. cbn in L5.
    destruct (served _ _ x') as [y|] eqn:Es.
    + exists y. apply served_none_or_id in Es as Hid'. split; [done|]. split; [by rewrite same_id_ident in *; congruence|].
      assert (Hr : registrar y = registrar x').
      { unfold served in Es. destruct (applicant_next _ _ _ _). destruct (freeable _ _ _); [done|]. by injection Es as <-. }
      rewrite Hr. split; [done|]. rewrite <- Hr. apply (wf_leave _ (mi_wf _ _ Hi' b y Hw)). by rewrite Hr.
    + exfalso. unfold served in Es. destruct (applicant_next _ _ _ _) as [s act]. destruct (freeable _ _ _) eqn:Ef; [|done].
      pose proof (mi_app _ _ Hi p q Hq (mi_enabled _ _ Hi p q Hq Hen)) as Hao.
      unfold freeable in Ef. rewrite L5, (ao_full _ _ _ Hao) in Ef. cbn in Ef. by rewrite andb_false_r in Ef.
Qed.
End props.

Section indicated.
Context {C U : Type} `{!Platform C, !MrpCalls C, !MrpOps C U, !MrpMemory, !MrpCallsLaws C, !MrpLaws C U}.
Context `{!MrpInd C U, !MrpIndLaws}.
Implicit Types (w : world C (mrp_ctx U)) (c : mrp_ctx U).

(** The expiry of a leave timer ends the registration of its attribute
    (which a join had not confirmed meanwhile), tells the protocol, and
    changes no other registration. *)
Theorem leave_timer_deregisters a x q w :
  good (w_st w) → attrs (w_st w) !! a = Some x → apps (w_st w) !! attr_app x = Some q → reg_state (registrar x) = MRP_STATE_LV →
  wp (leave_expires a) (λ _ w', good (w_st w') ∧ ¬ registers (w_st w') (ident x) ∧
    view (upper (w_st w')) (ident x) = false ∧ (∀ i, i ≠ ident x → registers (w_st w') i ↔ registers (w_st w) i)) w.
Proof.
  intros Hg Hx Hq Hlv. eapply wp_mono; [by eapply leave_timer_spec|]. intros [] w' (Hg' & _ & HR).
  assert (Hn : ¬ registers (w_st w') (ident x)) by (rewrite HR, decide_True, Hlv by done; done).
  split; [done|]. split; [done|]. split.
  - destruct (view _ _) eqn:Ev; [|done]. by destruct Hn; apply (good_view _ Hg').
  - intros i Hne. by rewrite HR, decide_False.
Qed.

Context `{!MrpRxLaws} (vector_handler : nat → Z → Z → Z → Z → M C (mrp_ctx U) unit).

(** C25: the processing of a received packet terminates whatever its bytes
    are, never reads or writes outside of the buffer (when that extends two
    bytes beyond the packet), returns 0 or -1, and leaves the applications,
    their registrations and the protocol consistent. *)
Theorem packet_processing_terminates p q l2 l3 plen w :
  platform_ok → handler_ok vector_handler → good (w_st w) → apps (w_st w) !! p = Some q →
  Forall is_byte (rx_data (w_st w)) → 0 ≤ l2 → l2 + 6 ≤ len (rx_data (w_st w)) →
  0 ≤ l3 < len (rx_data (w_st w)) → plen + 2 ≤ len (rx_data (w_st w)) →
  wp (mrp_process_packet vector_handler p l2 l3 plen) (λ rc w', good (w_st w') ∧ kept (w_st w) (w_st w') ∧ (rc = 0 ∨ rc = -1)) w.
Proof.
  intros. eapply wp_mono; [by eapply process_packet_spec|]. intros rc w' ([Hg Hk] & Hrc). done.
Qed.
End indicated.
