(* ===== verification/Mvrp.v ===== *)
(** * MVRP (srp/mvrp.c, srp/mvrp_map.c)

    The VLANs known to the protocol with their registrations and declarations
    per port, the propagation of registrations to the other ports (802.1Q 10.3),
    the declarations of the users, and the handlers of packets, link status and
    messages.  The protocol calls the applications of Mrp.v and is called back
    by them. *)

From S2P Require Import Prelude Timer MrpSm MrpPdu Mrp.

(** ** Data (srp/mvrp.h, srp/config.h) *)

Definition CFG_MVRP_MAX_VLANS : Z := 32.
Definition CFG_MVRP_VID_MIN : Z := 1.
Definition CFG_MVRP_VID_MAX : Z := 4094.
Definition CFG_MVRP_PARTICIPANT_TYPE : Z := Z.lor MRP_PARTICIPANT_TYPE_FULL MRP_PARTICIPANT_TYPE_POINT_TO_POINT.
Definition MVRP_ATTR_TYPE_VID : nat := 1.
Definition MVRP_ATTR_LEN : Z := 2.
Definition mvrp_dst_mac : list Z := [0x01; 0x80; 0xc2; 0x00; 0x00; 0x21].
Definition ETHERTYPE_MVRP : Z := 0x88f5.

Definition GENAVB_SUCCESS : Z := 0.
Definition GENAVB_ERR_CTRL_LEN : Z := 2053.
Definition GENAVB_ERR_CTRL_INVALID : Z := 2055.
Definition GENAVB_ERR_CTRL_FAILED : Z := 2056.
Definition GENAVB_MSG_VLAN_REGISTER : Z := 14.
Definition GENAVB_MSG_VLAN_DEREGISTER : Z := 15.
Definition GENAVB_MSG_VLAN_RESPONSE : Z := 16.
Definition GENAVB_MSG_ERROR_RESPONSE : Z := 37.
Definition IPC_FLAGS_AVB_MSG_SYNC : Z := 1.
Definition GENAVB_VLAN_ADMIN_CONTROL_REGISTERED : Z := 3.
Definition GENAVB_VLAN_ADMIN_CONTROL_NOT_REGISTERED : Z := 4.

(** [vlan_id] is in network byte order; the states are bit masks, a bit per
    port. *)
Record mvrp_vlan := MvrpVlan {
  registered_state : Z;
  declared_state : Z;
  dynamic_vlan_state : Z;
  vlan_id : Z;
  user_declared : Z;
  ref_count : list Z;
}.
#[export] Instance eta_mvrp_vlan : Eta mvrp_vlan := λ r,
  MvrpVlan (registered_state r) (declared_state r) (dynamic_vlan_state r) (vlan_id r) (user_declared r) (ref_count r).

Record mvrp_port := MvrpPort {
  port_id : Z;
  logical_port : Z;
  initialized : bool;            (* of its srp_port *)
  port_num_tx_pkts : Z;
  port_num_tx_err : Z;
}.
#[export] Instance eta_mvrp_port : Eta mvrp_port := λ r,
  MvrpPort (port_id r) (logical_port r) (initialized r) (port_num_tx_pkts r) (port_num_tx_err r).

(** The VLANs by address; [map] is the one map context. *)
Record mvrp_map := MvrpMap {
  map_id : Z;
  vlans : list nat;
  num_vlans : Z;
  forwarding_state : Z;
}.
#[export] Instance eta_mvrp_map : Eta mvrp_map := λ r,
  MvrpMap (map_id r) (vlans r) (num_vlans r) (forwarding_state r).

Record mvrp_ctx := MvrpCtx {
  map : mvrp_map;
  vlan_heap : gmap nat mvrp_vlan;
  operational_state : Z;
  port_max : nat;
  is_bridge : bool;
  port : list mvrp_port;
}.
#[export] Instance eta_mvrp_ctx : Eta mvrp_ctx := λ r,
  MvrpCtx (map r) (vlan_heap r) (operational_state r) (port_max r) (is_bridge r) (port r).

(** A message from the media stack: source, type, length and flags of the
    descriptor, and the port and VLAN of its payload. *)
Record ipc_desc := IpcDesc { d_src : Z; d_type : Z; d_len : Z; d_flags : Z; d_port : Z; d_vlan_id : Z }.

(** A message to the media stack. *)
Inductive ipc_msg :=
| VlanResponse (dst type len port vlan_id status : Z)
| ErrorResponse (dst type len flags error_type error_len status : Z).

Definition ipc_vlan_register_size : Z := 4.    (* sizeof(struct ipc_mvrp_vlan_register) *)
Definition ipc_vlan_response_size : Z := 8.
Definition ipc_error_response_size : Z := 12.

(** The platform: memory, network and timers through [mrp_call], the VLAN
    filtering database, multicast filters and IPC ([sync]: the channel). *)
Inductive mvrp_call :=
| MrpCall (c : mrp_call)
| VlanMalloc (size : Z)              (* 0: no memory *)
| VlanFree
| VlanUpdate (vid logical_port control : Z)
| VlanDelete (vid : Z)
| NetAddMulti (logical_port : Z)     (* negative: error *)
| NetDelMulti (logical_port : Z)
| IpcRxInit (id : Z)
| IpcTxInit (id : Z)
| IpcRxExit
| IpcTxExit (sync : bool)
| IpcAlloc (sync : bool) (size : Z)  (* 0: no descriptor *)
| IpcTx (sync : bool) (m : ipc_msg)  (* negative: error *)
| IpcFree (sync : bool)
| IpcRxFree.

#[export] Instance mvrp_mrp_calls : MrpCalls mvrp_call := MrpCall.

Section ops.
Context `{!Platform mvrp_call}.
Abbreviation MV := (M mvrp_call (mrp_ctx mvrp_ctx)).

Definition mv_get : MV mvrp_ctx := gets upper.
Definition mv_set (f : mvrp_ctx → mvrp_ctx) : MV unit := modify (λ c, c <| upper ::= f |>).
Definition get_vlan (v : nat) : MV mvrp_vlan := let! m := mv_get in deref UseAfterFree (vlan_heap m !! v).
Definition set_vlan (v : nat) (f : mvrp_vlan → mvrp_vlan) : MV unit := mv_set (λ m, m <| vlan_heap ::= alter f v |>).
Definition get_port (p : nat) : MV mvrp_port := let! m := mv_get in deref OutOfBounds (port m !! p).

(** ** Bit masks (mvrp_map.h, mvrp_map.c) *)

Definition bit (p : nat) : Z := Z.shiftl 1 (Z.of_nat p).
Definition truth (z : Z) : bool := negb (z =? 0).

Definition is_vlan_declared (r : mvrp_vlan) (p : nat) : bool := truth (Z.land (declared_state r) (bit p)).
Definition is_vlan_registered (r : mvrp_vlan) (p : nat) : bool := truth (Z.land (registered_state r) (bit p)).
Definition is_vlan_registered_any (r : mvrp_vlan) : bool := truth (registered_state r).
Definition is_vlan_user_declared (r : mvrp_vlan) (p : nat) : bool := truth (Z.land (user_declared r) (bit p)).
Definition is_vlan_user_declared_any (r : mvrp_vlan) : bool := truth (user_declared r).
Definition is_vlan_registered_other_forwarding (m : mvrp_map) (r : mvrp_vlan) (p : nat) : bool :=
  truth (Z.land (Z.land (registered_state r) (forwarding_state m)) (Z.lnot (bit p))).
Definition is_mvrp_port_forwarding (m : mvrp_map) (p : nat) : bool := truth (Z.land (forwarding_state m) (bit p)).
Definition mvrp_is_operational (m : mvrp_ctx) (p : nat) : bool := truth (Z.land (operational_state m) (bit p)).

Definition set_bit (p : nat) (z : Z) : Z := u16 (Z.lor z (bit p)).
Definition clear_bit (p : nat) (z : Z) : Z := u16 (Z.land z (Z.lnot (bit p))).

Definition vlan_user_declaration_clear (v p : nat) : MV unit := set_vlan v (λ r, r <| user_declared ::= clear_bit p |>).
Definition vlan_user_declaration_set (v p : nat) : MV unit := set_vlan v (λ r, r <| user_declared ::= set_bit p |>).
Definition vlan_registered_clear (v p : nat) : MV unit := set_vlan v (λ r, r <| registered_state ::= clear_bit p |>).
Definition vlan_registered_set (v p : nat) : MV unit := set_vlan v (λ r, r <| registered_state ::= set_bit p |>).
Definition vlan_declared_clear (v p : nat) : MV unit := set_vlan v (λ r, r <| declared_state ::= clear_bit p |>).
Definition vlan_declared_set (v p : nat) : MV unit := set_vlan v (λ r, r <| declared_state ::= set_bit p |>).

(** ** What MVRP provides to its MRP applications *)

(** [attr_val->vid] and [(u8 * )&vlan->vlan_id]. *)
Definition vid_of (val : list Z) : Z := nth 0 val 0 + 256 * nth 1 val 0.

Definition mvrp_attribute_check (attribute_type attribute_length : Z) : Z :=
  if negb (attribute_type =? Z.of_nat MVRP_ATTR_TYPE_VID) then -1 else
  if negb (attribute_length =? MVRP_ATTR_LEN) then -1 else 0.
Definition mvrp_event_length (_ number_of_values : Z) : Z := (number_of_values + 2) / 3.
Definition mvrp_vector_add_event (_ : mrp_attribute) (event : Z) : PM Z := mrp_vector_add_event event.
Definition mvrp_attribute_value_length (_ : nat) : nat := 2.
Definition mvrp_attribute_length (_ : nat) : Z := MVRP_ATTR_LEN.

Definition mvrp_net_tx (p : nat) (desc : net_tx_desc) : MV unit :=
  let! m := mv_get in
  if negb (mvrp_is_operational m p) then
    let! _ := perform (MrpCall (MrpTxFree p)) in ret tt
  else
    let! r := perform (MrpCall (MrpTx p (take (Z.to_nat (tx_len desc)) (tx_data desc)))) in
    let! _ := get_port p in
    if r <? 0 then
      mv_set (λ m, m <| port ::= alter (λ q : mvrp_port, q <| port_num_tx_err ::= λ n, u32 (n + 1) |>) p |>);;
      let! _ := perform (MrpCall (MrpTxFree p)) in ret tt
    else
      mv_set (λ m, m <| port ::= alter (λ q : mvrp_port, q <| port_num_tx_pkts ::= λ n, u32 (n + 1) |>) p |>).

#[export] Instance mvrp_ops : MrpOps mvrp_call mvrp_ctx := {|
  min_attr_type := MVRP_ATTR_TYPE_VID;
  max_attr_type := MVRP_ATTR_TYPE_VID;
  proto_version := 0;
  has_attribute_list_length := false;
  dst_mac := mvrp_dst_mac;
  ethertype := ETHERTYPE_MVRP;
  attribute_length := mvrp_attribute_length;
  attribute_value_length := mvrp_attribute_value_length;
  vector_add_event := mvrp_vector_add_event;
  attribute_check := mvrp_attribute_check;
  event_length := mvrp_event_length;
  net_tx := mvrp_net_tx;
|}.
End ops.

Section mvrp.
Context `{!Platform mvrp_call, !MrpMemory}.
Abbreviation MV := (M mvrp_call (mrp_ctx mvrp_ctx)).

(** ** VLANs *)

Definition mvrp_find_vlan (id : Z) : MV (option nat) :=
  let! m := mv_get in
  list_search (vlans (map m)) (λ v, let! r := get_vlan v in ret (vlan_id r =? id)).

Definition mvrp_create_vlan (id : Z) : MV (option nat) :=
  let! o := mvrp_find_vlan id in
  match o with
  | Some v => ret (Some v)
  | None =>
      let! m := mv_get in
      if negb (num_vlans (map m) <? CFG_MVRP_MAX_VLANS) then ret None else
      if (ntohs id <? CFG_MVRP_VID_MIN) || (CFG_MVRP_VID_MAX <? ntohs id) then ret None else
      let! ok := perform (VlanMalloc (Z.of_nat (32 + 4 * port_max m))) in
      if ok =? 0 then ret None else
      let! m := mv_get in
      let v := fresh (dom (vlan_heap m)) in
      mv_set (λ m, m <| vlan_heap ::= <[v := MvrpVlan 0 0 0 id 0 (replicate (port_max m) 0)]> |>);;
      mv_set (λ m, m <| map ::= λ mm, mm <| vlans ::= cons v |> <| num_vlans ::= λ n, u32 (n + 1) |> |>);;
      ret (Some v)
  end.

Definition mvrp_free_vlan (v : nat) : MV unit :=
  let! r := get_vlan v in
  mv_set (λ m, m <| map ::= λ mm, mm <| vlans ::= list_remove v |> <| num_vlans ::= λ n, u32 (n - 1) |> |>);;
  let! m := mv_get in
  when (is_bridge m) (let! _ := perform (VlanDelete (ntohs (vlan_id r))) in ret tt);;
  mv_set (λ m, m <| vlan_heap ::= delete v |>);;
  let! _ := perform VlanFree in
  ret tt.

(** ** The map (mvrp_map.c) *)

Definition vid_bytes (id : Z) : list Z := u16_bytes id.

Section map.
Context `{!MrpInd mvrp_call mvrp_ctx}.

(** One port of [mvrp_map_update_vlan]. *)
Definition mvrp_map_update_port (v : nat) (new : bool) (i : nat) : MV unit :=
  let! m := mv_get in
  let! r := get_vlan v in
  if negb (is_mvrp_port_forwarding (map m) i) then
    when (is_vlan_declared r i)
      (mrp_mad_leave_request i MVRP_ATTR_TYPE_VID (vid_bytes (vlan_id r));; vlan_declared_clear v i)
  else if is_vlan_registered_other_forwarding (map m) r i || is_vlan_user_declared r i then
    when (negb (is_vlan_declared r i))
      (let! o := mrp_mad_join_request i MVRP_ATTR_TYPE_VID (vid_bytes (vlan_id r)) new in
       match o with
       | Some _ => vlan_declared_set v i
       | None => ret tt
       end)
  else
    when (is_vlan_declared r i)
      (mrp_mad_leave_request i MVRP_ATTR_TYPE_VID (vid_bytes (vlan_id r));; vlan_declared_clear v i).

Definition mvrp_map_update_vlan (v : nat) (new : bool) : MV unit :=
  let! m := mv_get in
  for_each (seq 0 (port_max m)) (mvrp_map_update_port v new);;
  let! r := get_vlan v in
  when (negb (is_vlan_registered_any r) && negb (is_vlan_user_declared_any r)) (mvrp_free_vlan v).

Definition map_vlans (c : mrp_ctx mvrp_ctx) : list nat := vlans (map (upper c)).

Definition mvrp_map_update : MV unit := list_each map_vlans (λ v, mvrp_map_update_vlan v false).

Definition mvrp_update_operational_state (p : nat) (state : bool) : MV unit :=
  mv_set (λ m, m <| operational_state ::= if state then set_bit p else clear_bit p |>).

Definition mvrp_update_forwarding_state (p : nat) (state : bool) : MV unit :=
  mv_set (λ m, m <| map ::= λ mm, mm <| forwarding_state ::= if state then set_bit p else clear_bit p |> |>);;
  mvrp_map_update.

(** ** Indications *)

Definition mvrp_join_indication (p a : nat) (new : bool) : MV unit :=
  let! x := get_attr a in
  let id := vid_of (attr_val x) in
  let! o := mvrp_find_vlan id in
  let! o := match o with Some v => ret (Some v) | None => mvrp_create_vlan id end in
  match o with
  | None => ret tt
  | Some v =>
      let! q := get_port p in
      vlan_registered_set v p;;
      mvrp_map_update_vlan v new;;
      let! m := mv_get in
      when (is_bridge m)
        (let! r := get_vlan v in
         let! _ := perform (VlanUpdate (ntohs (vlan_id r)) (logical_port q) GENAVB_VLAN_ADMIN_CONTROL_REGISTERED) in
         ret tt)
  end.

Definition mvrp_leave_indication (p a : nat) : MV unit :=
  let! x := get_attr a in
  let! o := mvrp_find_vlan (vid_of (attr_val x)) in
  match o with
  | None => ret tt
  | Some v =>
      let! q := get_port p in
      vlan_registered_clear v p;;
      mvrp_map_update_vlan v false;;
      let! m := mv_get in
      when (is_bridge m)
        (let! r := get_vlan v in
         let! _ := perform (VlanUpdate (ntohs (vlan_id r)) (logical_port q) GENAVB_VLAN_ADMIN_CONTROL_NOT_REGISTERED) in
         ret tt)
  end.
End map.

(** The callbacks, to a depth: an indication makes requests, and a request
    whose attribute is new runs its registrar, which indicates nothing. *)
Fixpoint mvrp_indications (depth : nat) : MrpInd mvrp_call mvrp_ctx :=
  match depth with
  | O => {| mad_join_indication := λ _ _ _, starve; mad_leave_indication := λ _ _, starve |}
  | S depth =>
      let _ := mvrp_indications depth in
      {| mad_join_indication := mvrp_join_indication; mad_leave_indication := mvrp_leave_indication |}
  end.
#[export] Instance mvrp_ind : MrpInd mvrp_call mvrp_ctx := mvrp_indications 1.

(** ** Packets *)

Definition rx_write (o : Z) (l : list Z) : MV unit :=
  let! d := gets rx_data in
  if decide (0 ≤ o ∧ o + len l ≤ len d) then
    modify (λ c, c <| rx_data ::= λ d, take (Z.to_nat o) d ++ l ++ drop (Z.to_nat o + length l) d |>)
  else crash OutOfBounds.

(** [fv]: the offset of the first value, in which the VLAN is incremented. *)
Definition mvrp_increment (fv : Z) : MV unit :=
  let! vid := peek16 fv in
  rx_write fv (u16_bytes (htons (u16 (ntohs vid + 1)))).

(** [n] values from the [i]-th; [event]: the last packed events, at [packed - 1]. *)
Fixpoint mvrp_vector_values (n : nat) (p : nat) (fv packed i : Z) (event : list Z) : MV unit :=
  match n with
  | O => ret tt
  | S n =>
      let! r :=
        if i mod 3 =? 0 then
          let! b := peek packed in ret (mrp_get_three_packed_event b, packed + 1)
        else ret (event, packed) in
      let '(event, packed) := r in
      let! e := deref OutOfBounds (event !! Z.to_nat (i mod 3)) in
      let! val := peek_list fv 2 in
      let! _ := mrp_process_attribute p MVRP_ATTR_TYPE_VID val e in
      mvrp_increment fv;;
      mvrp_vector_values n p fv packed (i + 1) event
  end.

Definition mvrp_vector_handler (p : nat) (attribute_type attribute_length vector_data number_of_values : Z) : MV unit :=
  mvrp_vector_values (Z.to_nat number_of_values) p vector_data (vector_data + MVRP_ATTR_LEN) 0 [].

Definition mvrp_process_packet (p : nat) (l2_offset l3_offset plen : Z) : MV Z :=
  let! m := mv_get in
  if (port_max m <=? p)%nat then ret (-1) else
  if negb (mvrp_is_operational m p) then ret (-1) else
  mrp_process_packet mvrp_vector_handler p l2_offset l3_offset plen.

(** ** Ports, users *)

Definition logical_to_mvrp_port (l : Z) : MV (option nat) :=
  let! m := mv_get in
  let! o := list_search (seq 0 (port_max m)) (λ i, let! q := get_port i in ret (l =? logical_port q)) in
  match o with
  | None => ret None
  | Some i => let! q := get_port i in ret (if initialized q then Some i else None)
  end.

Definition mvrp_port_status (logical : Z) (operational : bool) : MV unit :=
  let! o := logical_to_mvrp_port logical in
  match o with
  | None => ret tt
  | Some p => mvrp_update_operational_state p operational;; mvrp_update_forwarding_state p operational
  end.

Definition get_ref (v p : nat) : MV Z := let! r := get_vlan v in deref OutOfBounds (ref_count r !! p).
Definition set_ref (v p : nat) (f : Z → Z) : MV unit := set_vlan v (λ r, r <| ref_count ::= alter f p |>).

Definition mvrp_register_vlan_member (logical id : Z) : MV Z :=
  let! o := logical_to_mvrp_port logical in
  match o with
  | None => ret GENAVB_ERR_CTRL_INVALID
  | Some p =>
      let! o := mvrp_find_vlan id in
      let! r := match o with
                | Some v => ret (Some (v, false))
                | None =>
                    let! o := mvrp_create_vlan id in
                    ret (match o with Some v => Some (v, true) | None => None end)
                end in
      match r with
      | None => ret GENAVB_ERR_CTRL_FAILED
      | Some (v, new) =>
          let! n := get_ref v p in
          when (n =? 0) (vlan_user_declaration_set v p;; mvrp_map_update_vlan v new);;
          let! _ := get_ref v p in
          set_ref v p (λ n, u32 (n + 1));;
          ret GENAVB_SUCCESS
      end
  end.

Definition mvrp_deregister_vlan_member (logical id : Z) : MV Z :=
  let! o := logical_to_mvrp_port logical in
  match o with
  | None => ret GENAVB_ERR_CTRL_INVALID
  | Some p =>
      let! o := mvrp_find_vlan id in
      match o with
      | None => ret GENAVB_SUCCESS
      | Some v =>
          let! n := get_ref v p in
          when (negb (n =? 0)) (set_ref v p (λ n, u32 (n - 1)));;
          let! n := get_ref v p in
          when (n =? 0) (vlan_user_declaration_clear v p;; mvrp_map_update_vlan v false);;
          ret GENAVB_SUCCESS
      end
  end.

(** ** Messages of the media stack *)

Definition ipc_send (sync : bool) (size : Z) (m : ipc_msg) : MV unit :=
  let! ok := perform (IpcAlloc sync size) in
  if ok =? 0 then ret tt else
  let! r := perform (IpcTx sync m) in
  when (r <? 0) (let! _ := perform (IpcFree sync) in ret tt).

Definition mvrp_ipc_vlan_response (sync : bool) (dst port vlan_id status : Z) : MV unit :=
  ipc_send sync ipc_vlan_response_size
    (VlanResponse dst GENAVB_MSG_VLAN_RESPONSE ipc_vlan_response_size port vlan_id status).
Definition mvrp_ipc_error_response (sync : bool) (dst type len status : Z) : MV unit :=
  ipc_send sync ipc_error_response_size
    (ErrorResponse dst GENAVB_MSG_ERROR_RESPONSE ipc_error_response_size 0 type len status).

Definition mvrp_ipc_rx (d : ipc_desc) : MV unit :=
  let sync := truth (Z.land (d_flags d) IPC_FLAGS_AVB_MSG_SYNC) in
  (if d_type d =? GENAVB_MSG_VLAN_REGISTER then
     if negb (d_len d =? ipc_vlan_register_size) then
       mvrp_ipc_error_response sync (d_src d) (d_type d) (d_len d) GENAVB_ERR_CTRL_LEN
     else
       let! status := mvrp_register_vlan_member (d_port d) (htons (d_vlan_id d)) in
       mvrp_ipc_vlan_response sync (d_src d) (d_port d) (d_vlan_id d) (u32 status)
   else if d_type d =? GENAVB_MSG_VLAN_DEREGISTER then
     if negb (d_len d =? ipc_vlan_register_size) then
       mvrp_ipc_error_response sync (d_src d) (d_type d) (d_len d) GENAVB_ERR_CTRL_LEN
     else
       let! status := mvrp_deregister_vlan_member (d_port d) (htons (d_vlan_id d)) in
       mvrp_ipc_vlan_response sync (d_src d) (d_port d) (d_vlan_id d) (u32 status)
   else mvrp_ipc_error_response sync (d_src d) (d_type d) (d_len d) GENAVB_ERR_CTRL_INVALID);;
  let! _ := perform IpcRxFree in
  ret tt.

(** ** Initialisation and exit *)

Definition mvrp_map_init : MV unit :=
  mv_set (λ m, m <| map := MvrpMap 0 [] 0 0 |>).

(** The port of [mvrp_map_exit]. *)
Definition mvrp_map_exit_port (v i : nat) : MV unit :=
  let! r := get_vlan v in
  when (is_vlan_declared r i)
    (mrp_mad_leave_request i MVRP_ATTR_TYPE_VID (vid_bytes (vlan_id r));; vlan_declared_clear v i).

Definition mvrp_map_exit : MV unit :=
  list_each map_vlans (λ v,
    let! m := mv_get in
    for_each (seq 0 (port_max m)) (mvrp_map_exit_port v);;
    mvrp_free_vlan v).

Record mvrp_config := MvrpConfig { cfg_is_bridge : bool; cfg_port_max : nat; cfg_logical_port_list : list Z }.

Definition mvrp_port_init (cfg : mvrp_config) (i : nat) : MV Z :=
  let! _ := get_port i in
  let! l := deref OutOfBounds (cfg_logical_port_list cfg !! i) in
  mv_set (λ m, m <| port ::= alter (λ q : mvrp_port, q <| port_id := Z.of_nat i |> <| logical_port := l |>) i |>);;
  let! q := get_port i in
  if negb (initialized q) then ret 0 else
  let! rc := mrp_init i APP_MVRP CFG_MVRP_PARTICIPANT_TYPE in
  if rc <? 0 then ret (-1) else
  let! rc := perform (NetAddMulti l) in
  if rc <? 0 then let! _ := mrp_exit i in ret (-1) else ret 0.

Definition mvrp_port_exit (i : nat) : MV unit :=
  let! q := get_port i in
  if negb (initialized q) then ret tt else
  let! _ := perform (NetDelMulti (logical_port q)) in
  let! _ := mrp_exit i in
  ret tt.

(** The ports in order until one fails, with the number of those that are
    initialised. *)
Fixpoint mvrp_ports_init (cfg : mvrp_config) (ports : list nat) (done : nat) : MV (bool * nat) :=
  match ports with
  | [] => ret (true, done)
  | i :: ports =>
      let! rc := mvrp_port_init cfg i in
      if rc <? 0 then ret (false, done) else mvrp_ports_init cfg ports (S done)
  end.

Definition IPC_MEDIA_STACK_MVRP : Z := 15.
Definition IPC_MEDIA_STACK_MVRP_BRIDGE : Z := 18.
Definition IPC_MEDIA_STACK_MVRP_1 : Z := 48.
Definition CFG_ENDPOINT_0_LOGICAL_PORT : Z := 0.

(** [ipc_rx]: the identifier of the first of the three channels, which are in
    sequence. *)
Definition mvrp_init (cfg : mvrp_config) : MV Z :=
  let! ipc_rx :=
    if cfg_is_bridge cfg then ret IPC_MEDIA_STACK_MVRP_BRIDGE else
    let! l0 := deref OutOfBounds (cfg_logical_port_list cfg !! 0%nat) in
    ret (if l0 =? CFG_ENDPOINT_0_LOGICAL_PORT then IPC_MEDIA_STACK_MVRP else IPC_MEDIA_STACK_MVRP_1) in
  mv_set (λ m, m <| port_max := cfg_port_max cfg |> <| is_bridge := cfg_is_bridge cfg |>);;
  let! rc := perform (IpcRxInit ipc_rx) in
  if rc <? 0 then ret (-1) else
  let! rc := perform (IpcTxInit (ipc_rx + 1)) in
  if rc <? 0 then let! _ := perform IpcRxExit in ret (-1) else
  let! rc := perform (IpcTxInit (ipc_rx + 2)) in
  if rc <? 0 then
    let! _ := perform (IpcTxExit false) in
    let! _ := perform IpcRxExit in ret (-1)
  else
    mvrp_map_init;;
    let! r := mvrp_ports_init cfg (seq 0 (cfg_port_max cfg)) 0 in
    let '(ok, n) := r in
    if ok : bool then ret 0 else
    for_each (seq 0 n) mvrp_port_exit;;
    let! _ := perform (IpcTxExit false) in
    let! _ := perform IpcRxExit in
    ret (-1).

Definition mvrp_exit : MV Z :=
  let! m := mv_get in
  for_each (seq 0 (port_max m)) mvrp_port_exit;;
  mvrp_map_exit;;
  let! _ := perform (IpcTxExit true) in
  let! _ := perform (IpcTxExit false) in
  let! _ := perform IpcRxExit in
  ret 0.
End mvrp.
