(* ===== verification/MvrpSpec.v ===== *)
(** * MVRP: the map of registrations and declarations

    A VLAN is declared on a port exactly when the port forwards and another
    forwarding port has registered the VLAN or a user of the port has declared
    it, and what the map says is what the MRP applications say. *)

From S2P Require Import Prelude Timer MrpSm MrpPdu Mrp MrpTx MrpSpec MrpRequests MrpJoin MrpEvents Mvrp.

(** ** The contract of Mrp.v with its protocols *)

Definition mvrp_proj (c : mvrp_call) : option mrp_call := match c with MrpCall c => Some c | _ => None end.
#[export] Instance mvrp_calls_laws : MrpCallsLaws mvrp_call.
Proof. by refine {| mrp_proj := mvrp_proj |}. Defined.

(** The counters of the ports are all that a transmission changes. *)
Definition same_port (q q' : mvrp_port) : Prop :=
  port_id q' = port_id q ∧ logical_port q' = logical_port q ∧ initialized q' = initialized q.
Record counters_only (u u' : mvrp_ctx) : Prop := {
  co_map : map u' = map u;
  co_heap : vlan_heap u' = vlan_heap u;
  co_operational : operational_state u' = operational_state u;
  co_port_max : port_max u' = port_max u;
  co_bridge : is_bridge u' = is_bridge u;
  co_length : length (port u') = length (port u);
  co_port : ∀ i q, port u !! i = Some q → ∃ q', port u' !! i = Some q' ∧ same_port q q';
}.
#[export] Instance counters_only_preorder : PreOrder counters_only.
Proof.
  split.
  - intros u. split; try done. intros i q Hq. by exists q.
  - intros a b c [M1 H1 O1 P1 B1 L1 Q1] [M2 H2 O2 P2 B2 L2 Q2]. split; try congruence.
    intros i q Hq. destruct (Q1 i q Hq) as (q1 & Hq1 & ? & ? & ?). destruct (Q2 i q1 Hq1) as (q2 & Hq2 & ? & ? & ?).
    exists q2. split; [done|]. unfold same_port. split_and!; congruence.
Qed.

Lemma counters_alter p f u :
  (∀ q, same_port q (f q)) → counters_only u (u <| port ::= alter f p |>).
Proof.
  intros Hf. split; try done.
  - cbn. by rewrite length_alter.
  - intros i q Hq. cbn. rewrite list_lookup_alter. case_decide as D; [subst i|]; rewrite Hq; eexists; (split; [reflexivity|]); [apply Hf|done].
Qed.

Section laws.
Context `{!Platform mvrp_call}.
Implicit Types (w : world mvrp_call (mrp_ctx mvrp_ctx)).

Lemma frames_mvrp (cl : mvrp_call) r tr :
  frames ((cl, r) :: tr) = match cl with MrpCall (MrpTx p f) => (p, f) :: frames tr | _ => frames tr end.
Proof. by destruct cl as [[]| | | | | | | | | | | | | |]. Qed.

Lemma mvrp_net_tx_law p t w :
  is_Some (port (upper (w_st w)) !! p) →
  wp (mvrp_net_tx p t) (λ _ w', ∃ u',
    w_st w' = (w_st w) <| upper := u' |> ∧ counters_only (upper (w_st w)) u' ∧
    frames (w_trace w') =
      (if mvrp_is_operational (upper (w_st w)) p then [(p, take (Z.to_nat (tx_len t)) (tx_data t))] else [])
      ++ frames (w_trace w)) w.
Proof.
  intros [q Hq]. unfold mvrp_net_tx. apply wp_bind, wp_gets. destruct (mvrp_is_operational _ p) eqn:Eo; cbn [negb].
  - apply wp_bind, wp_perform. apply wp_bind. unfold get_port. apply wp_bind, wp_gets. apply wp_deref.
    exists q. split; [done|]. destruct (_ <? 0).
    + apply wp_bind, wp_modify. apply wp_bind, wp_perform. apply wp_ret. eexists. cbn [w_st w_trace]. split; [reflexivity|].
      split; [by apply counters_alter|]. by rewrite !frames_mvrp.
    + apply wp_modify. eexists. cbn [w_st w_trace]. split; [reflexivity|]. split; [by apply counters_alter|].
      by rewrite !frames_mvrp.
  - apply wp_bind, wp_perform. apply wp_ret. exists (upper (w_st w)). cbn [w_st w_trace].
    split; [by destruct (w_st w)|]. split; [done|]. by rewrite !frames_mvrp.
Qed.

#[export] Instance mvrp_laws : MrpLaws mvrp_call mvrp_ctx.
Proof.
  refine {|
    event_bytes _ e := [mrp_three_packed_event e 0 0];
    event_max := 1;
    tx_rel := counters_only;
    tx_enabled p u := mvrp_is_operational u p;
    tx_port p u := is_Some (port u !! p);
  |}.
  - done.
  - intros. cbn [vector_add_event mvrp_ops]. by apply mrp_vector_add_event_spec.
  - done.
  - cbn. unfold MVRP_ATTR_TYPE_VID, MRP_MAX_ATTR_TYPE. lia.
  - done.
  - intros p u u' H. unfold mvrp_is_operational. by rewrite (co_operational _ _ H).
  - intros p u u' H [q Hq]. destruct (co_port _ _ H p q Hq) as (q' & ? & _). by exists q'.
  - intros p t w H. by apply mvrp_net_tx_law.
Defined.

#[export] Instance mvrp_rx_laws : MrpRxLaws (C := mvrp_call) (U := mvrp_ctx).
Proof.
  split.
  - intros t n _ Hn. cbn. unfold mvrp_event_length. apply Z.div_pos; lia.
  - intros t l. cbn. unfold mvrp_attribute_check, MVRP_ATTR_TYPE_VID. change (Z.of_nat 1) with 1. destruct (t =? 1) eqn:E; [|cbn; lia].
    apply Z.eqb_eq in E. subst t. intros _. done.
Qed.
End laws.

(** ** Bit masks *)

Definition has (z : Z) (p : nat) : bool := Z.testbit z (Z.of_nat p).
Definition mask_ok (n : nat) (z : Z) : Prop := 0 ≤ z < 2 ^ Z.of_nat n.

Lemma testbit_bit p j : Z.testbit (bit p) j = bool_decide (j = Z.of_nat p).
Proof.
  unfold bit. rewrite Z.shiftl_1_l. destruct (Z.eq_dec j (Z.of_nat p)) as [->|Hne].
  - rewrite Z.pow2_bits_true by lia. by rewrite bool_decide_eq_true_2.
  - rewrite bool_decide_eq_false_2 by done. apply Z.pow2_bits_false. lia.
Qed.

Lemma truth_zero z : truth z = false ↔ z = 0.
Proof. unfold truth. rewrite negb_false_iff. apply Z.eqb_eq. Qed.
Lemma truth_true z : 0 ≤ z → truth z = true ↔ ∃ p : nat, has z p = true.
Proof.
  intros Hz. unfold has. split.
  - intros Ht. destruct (Z.eq_dec z 0) as [->|Hne]; [done|]. exists (Z.to_nat (Z.log2 z)).
    pose proof (Z.log2_nonneg z). rewrite Z2Nat.id by done. apply Z.bit_log2. lia.
  - intros [p Hp]. destruct (truth z) eqn:E; [done|]. apply truth_zero in E as ->. by rewrite Z.bits_0 in Hp.
Qed.

Lemma land_bit z p : truth (Z.land z (bit p)) = has z p.
Proof.
  unfold has. destruct (Z.testbit z (Z.of_nat p)) eqn:E.
  - destruct (truth _) eqn:Et; [done|]. apply truth_zero in Et.
    assert (H : Z.testbit (Z.land z (bit p)) (Z.of_nat p) = true).
    { rewrite Z.land_spec, E, testbit_bit. by rewrite bool_decide_eq_true_2. }
    by rewrite Et, Z.bits_0 in H.
  - apply truth_zero. apply Z.bits_inj'. intros j Hj. rewrite Z.land_spec, testbit_bit, Z.bits_0.
    case_bool_decide as D; [subst j; by rewrite E|by rewrite andb_false_r].
Qed.

Lemma mask_high n z j : mask_ok n z → Z.of_nat n ≤ j → Z.testbit z j = false.
Proof.
  intros [H0 H1] Hj. destruct (Z.eq_dec z 0) as [->|Hne]; [apply Z.bits_0|].
  apply Z.bits_above_log2; [done|]. assert (Z.log2 z < Z.of_nat n) by (apply Z.log2_lt_pow2; lia). lia.
Qed.
Lemma mask_intro n z : 0 ≤ z → (∀ j, Z.of_nat n ≤ j → Z.testbit z j = false) → mask_ok n z.
Proof.
  intros H0 Hj. split; [done|]. destruct (Z.eq_dec z 0) as [->|Hne]; [apply Z.pow_pos_nonneg; lia|].
  apply Z.log2_lt_pow2; [lia|]. destruct (Z.lt_ge_cases (Z.log2 z) (Z.of_nat n)) as [|Hge]; [done|].
  apply Hj in Hge. rewrite Z.bit_log2 in Hge by lia. done.
Qed.
Lemma mask_u16 n z : (n ≤ 16)%nat → mask_ok n z → u16 z = z.
Proof.
  intros Hn [H0 H1]. apply Z.mod_small. split; [done|]. eapply Z.lt_le_trans; [exact H1|].
  apply Z.pow_le_mono_r; lia.
Qed.
Lemma has_lt n z p : mask_ok n z → has z p = true → (p < n)%nat.
Proof.
  intros Hm Hp. destruct (Nat.lt_ge_cases p n) as [|Hge]; [done|]. unfold has in Hp.
  rewrite (mask_high n) in Hp; [done|done|lia].
Qed.

Lemma set_bit_spec n z p :
  (n ≤ 16)%nat → (p < n)%nat → mask_ok n z →
  mask_ok n (set_bit p z) ∧ ∀ j, has (set_bit p z) j = if decide (j = p) then true else has z j.
Proof.
  intros Hn Hp Hz. assert (Hm : mask_ok n (Z.lor z (bit p))).
  { apply mask_intro.
    - apply Z.lor_nonneg. split; [apply Hz|]. apply Z.shiftl_nonneg. lia.
    - intros j Hj. rewrite Z.lor_spec, testbit_bit, (mask_high n z j) by done. cbn. apply bool_decide_eq_false_2. lia. }
  unfold set_bit. rewrite (mask_u16 n) by done. split; [done|]. intros j. unfold has. rewrite Z.lor_spec, testbit_bit.
  case_decide as D; [subst j; rewrite bool_decide_eq_true_2 by done; apply orb_true_r|].
  rewrite bool_decide_eq_false_2 by lia. apply orb_false_r.
Qed.
Lemma clear_bit_spec n z p :
  (n ≤ 16)%nat → mask_ok n z →
  mask_ok n (clear_bit p z) ∧ ∀ j, has (clear_bit p z) j = if decide (j = p) then false else has z j.
Proof.
  intros Hn Hz. assert (Hm : mask_ok n (Z.land z (Z.lnot (bit p)))).
  { apply mask_intro.
    - apply Z.land_nonneg. left. apply Hz.
    - intros j Hj. by rewrite Z.land_spec, (mask_high n z j). }
  unfold clear_bit. rewrite (mask_u16 n) by done. split; [done|]. intros j. unfold has.
  rewrite Z.land_spec, Z.lnot_spec, testbit_bit by lia.
  case_decide as D; [subst j; rewrite bool_decide_eq_true_2 by done; apply andb_false_r|].
  rewrite bool_decide_eq_false_2 by lia. apply andb_true_r.
Qed.

(** The map as sets of ports. *)
Lemma forwarding_has m p : is_mvrp_port_forwarding m p = has (forwarding_state m) p.
Proof. apply land_bit. Qed.
Lemma declared_has r p : is_vlan_declared r p = has (declared_state r) p.
Proof. apply land_bit. Qed.
Lemma registered_has r p : is_vlan_registered r p = has (registered_state r) p.
Proof. apply land_bit. Qed.
Lemma user_has r p : is_vlan_user_declared r p = has (user_declared r) p.
Proof. apply land_bit. Qed.
Lemma other_forwarding_has m r p :
  0 ≤ registered_state r →
  is_vlan_registered_other_forwarding m r p = true ↔
  ∃ j, j ≠ p ∧ has (registered_state r) j = true ∧ has (forwarding_state m) j = true.
Proof.
  intros H. unfold is_vlan_registered_other_forwarding. rewrite truth_true.
  2:{ apply Z.land_nonneg. left. apply Z.land_nonneg. by left. }
  unfold has. split.
  - intros [j Hj]. rewrite !Z.land_spec, Z.lnot_spec, testbit_bit in Hj by lia.
    rewrite !andb_true_iff, negb_true_iff in Hj. destruct Hj as [[H1 H2] H3]. apply bool_decide_eq_false in H3.
    exists j. split; [|done]. intros ->. done.
  - intros (j & Hne & H1 & H2). exists j. rewrite !Z.land_spec, Z.lnot_spec, testbit_bit, H1, H2 by lia. cbn.
    rewrite bool_decide_eq_false_2; [done|]. lia.
Qed.
Lemma none_registered_has n r :
  mask_ok n (registered_state r) → is_vlan_registered_any r = true ↔ ∃ p, has (registered_state r) p = true.
Proof. intros [H _]. by apply truth_true. Qed.
Lemma none_declared_has n r :
  mask_ok n (user_declared r) → is_vlan_user_declared_any r = true ↔ ∃ p, has (user_declared r) p = true.
Proof. intros [H _]. by apply truth_true. Qed.

(** ** Invariants *)

Record vlan_ok (n : nat) (r : mvrp_vlan) : Prop := {
  vo_reg : mask_ok n (registered_state r);
  vo_dec : mask_ok n (declared_state r);
  vo_user : mask_ok n (user_declared r);
  vo_len : length (ref_count r) = n;
  vo_vid : 0 ≤ vlan_id r < 65536 ∧ CFG_MVRP_VID_MIN ≤ ntohs (vlan_id r) ≤ CFG_MVRP_VID_MAX;
  vo_ref : ∀ p k, ref_count r !! p = Some k → 0 ≤ k < 2 ^ 32 ∧ (k ≠ 0 → has (user_declared r) p = true);
}.

(** The map is well formed; the number of its VLANs is bounded. *)
Record map_ok (u : mvrp_ctx) : Prop := {
  mo_ports : (port_max u ≤ 16)%nat ∧ length (port u) = port_max u;
  mo_fwd : mask_ok (port_max u) (forwarding_state (map u));
  mo_nodup : NoDup (vlans (map u));
  mo_heap : ∀ v, v ∈ vlans (map u) ↔ is_Some (vlan_heap u !! v);
  mo_num : num_vlans (map u) = len (vlans (map u)) ∧ num_vlans (map u) ≤ CFG_MVRP_MAX_VLANS;
  mo_vlan : ∀ v r, vlan_heap u !! v = Some r → vlan_ok (port_max u) r;
  mo_unique : ∀ v1 v2 r1 r2, vlan_heap u !! v1 = Some r1 → vlan_heap u !! v2 = Some r2 → vlan_id r1 = vlan_id r2 → v1 = v2;
}.

(** 802.1Q 10.3: the ports on which a VLAN is to be declared. *)
Definition needed (m : mvrp_map) (r : mvrp_vlan) (p : nat) : bool :=
  is_mvrp_port_forwarding m p && (is_vlan_registered_other_forwarding m r p || is_vlan_user_declared r p).

(** The attribute of a VLAN on a port. *)
Definition vlan_attr (r : mvrp_vlan) (p : nat) : nat * nat * list Z := (p, MVRP_ATTR_TYPE_VID, vid_bytes (vlan_id r)).

(** What the map says of a kind of port set. *)
Definition says_map (mask : mvrp_vlan → Z) (u : mvrp_ctx) (i : nat * nat * list Z) : Prop :=
  ∃ v r, vlan_heap u !! v = Some r ∧ i = vlan_attr r i.1.1 ∧ has (mask r) i.1.1 = true.

(** The applications in use are those of the ports in use. *)
Definition app_enabled (c : Mrp.mrp_ctx mvrp_ctx) (p : nat) : Prop := ∃ q, apps c !! p = Some q ∧ enabled q = true.
Definition port_used (u : mvrp_ctx) (p : nat) : Prop := ∃ q, port u !! p = Some q ∧ initialized q = true.

(** The map and the MRP applications agree on what is declared. *)
Record mv_ok (c : Mrp.mrp_ctx mvrp_ctx) : Prop := {
  mv_map : map_ok (upper c);
  mv_apps : length (apps c) = port_max (upper c);
  mv_declares : ∀ i, declares c i ↔ says_map declared_state (upper c) i;
  mv_used : ∀ p, app_enabled c p → port_used (upper c) p;
}.

Lemma vid_bytes_inj a b : 0 ≤ a < 65536 → 0 ≤ b < 65536 → vid_bytes a = vid_bytes b → a = b.
Proof. intros Ha Hb [= H1 H2]. rewrite (Z.div_mod a 256), (Z.div_mod b 256) by lia. lia. Qed.
Lemma vid_bytes_bytes a : 0 ≤ a < 65536 → Forall is_byte (vid_bytes a).
Proof. intros Ha. unfold vid_bytes, u16_bytes, is_byte. repeat constructor; Z.div_mod_to_equations; lia. Qed.
Lemma vid_bytes_of val : length val = 2%nat → Forall is_byte val → vid_bytes (vid_of val) = val ∧ 0 ≤ vid_of val < 65536.
Proof.
  destruct val as [|a [|b [|? ?]]]; try done. intros _ [Ha [Hb _]%list.Forall_cons]%list.Forall_cons. unfold is_byte in *.
  unfold vid_bytes, u16_bytes, vid_of. cbn [nth]. split; [|lia].
  rewrite Z.mul_comm, Z.mod_add, Z.mod_small, Z.div_add, Z.div_small by lia. f_equal.
Qed.
Lemma vid_of_bytes a : vid_of (vid_bytes a) = a.
Proof. unfold vid_of, vid_bytes, u16_bytes. cbn. pose proof (Z.div_mod a 256). lia. Qed.

Lemma needed_ext m r r' p :
  registered_state r' = registered_state r → user_declared r' = user_declared r → needed m r' p = needed m r p.
Proof.
  intros H1 H2. unfold needed, is_vlan_registered_other_forwarding, is_vlan_user_declared. by rewrite H1, H2.
Qed.

(** An update of one VLAN. *)
Definition vset (v : nat) (r : mvrp_vlan) (u : mvrp_ctx) : mvrp_ctx := u <| vlan_heap ::= <[v := r]> |>.

Lemma vset_map_ok v r r' u :
  map_ok u → vlan_heap u !! v = Some r → vlan_ok (port_max u) r' → vlan_id r' = vlan_id r → map_ok (vset v r' u).
Proof.
  intros [] Hv Hr Hid. split; try done.
  - intros v'. cbn. rewrite mo_heap0. destruct (decide (v' = v)) as [->|Hne].
    + rewrite lookup_insert_eq, Hv. split; eauto.
    + by rewrite lookup_insert_ne.
  - intros v' r1. cbn. intros [[<- <-]|[_ ?]]%lookup_insert_Some; [done|]. by eapply mo_vlan0.
  - assert (Hback : ∀ v1 r1, vlan_heap (vset v r' u) !! v1 = Some r1 → ∃ r0, vlan_heap u !! v1 = Some r0 ∧ vlan_id r0 = vlan_id r1).
    { intros v1 r1. cbn. intros [[<- <-]|[_ ?]]%lookup_insert_Some; eauto. }
    intros v1 v2 r1 r2 H1 H2 He. destruct (Hback _ _ H1) as (s1 & ? & ?), (Hback _ _ H2) as (s2 & ? & ?).
    eapply mo_unique0; [done|done|congruence].
Qed.

Lemma says_map_vset mask v r r' u i :
  map_ok u → vlan_heap u !! v = Some r → vlan_id r' = vlan_id r →
  says_map mask (vset v r' u) i ↔ if decide (i = vlan_attr r i.1.1) then has (mask r') i.1.1 = true else says_map mask u i.
Proof.
  intros Hm Hv Hid. unfold says_map. split.
  - intros (v1 & r1 & H1 & H2 & H3). cbn in H1. apply lookup_insert_Some in H1 as [[<- <-]|[Hne H1]].
    + rewrite decide_True; [done|]. rewrite H2 at 1. unfold vlan_attr. by rewrite Hid.
    + case_decide as D; [|by exists v1, r1]. exfalso. apply Hne. eapply (mo_unique _ Hm); [done|done|].
      apply vid_bytes_inj; [eapply (mo_vlan _ Hm v), Hv|eapply (mo_vlan _ Hm v1), H1|].
      apply (f_equal snd) in D, H2. cbn [vlan_attr snd] in D, H2. congruence.
  - case_decide as D.
    + intros H3. exists v, r'. cbn. rewrite lookup_insert_eq. split; [done|]. split; [|done].
      rewrite D at 1. unfold vlan_attr. by rewrite Hid.
    + intros (v1 & r1 & H1 & H2 & H3). exists v1, r1. split; [|done]. cbn. rewrite lookup_insert_ne; [done|].
      intros <-. assert (r1 = r) as -> by congruence. done.
Qed.

Section update.
Context `{!Platform mvrp_call, !MrpMemory, !MrpInd mvrp_call mvrp_ctx}.
Implicit Types (w : world mvrp_call (Mrp.mrp_ctx mvrp_ctx)) (c : Mrp.mrp_ctx mvrp_ctx) (u : mvrp_ctx).

(** The platform has memory for attributes. *)
Definition plenty : Prop := ∀ n, answer n (MrpCall MrpMalloc) ≠ 0.

(** The declarations of VLAN [v] on the ports [ps] have been brought up to
    date. *)
Record updated (ps : list nat) (v : nat) (r r' : mvrp_vlan) c c' : Prop := {
  ud_mrp : mrp_ok c';
  ud_mv : mv_ok c';
  ud_kept : kept c c';
  ud_registers : ∀ i, registers c' i ↔ registers c i;
  ud_upper : counters_only (vset v r' (upper c)) (upper c');
  ud_vlan : registered_state r' = registered_state r ∧ user_declared r' = user_declared r ∧ vlan_id r' = vlan_id r ∧
            ref_count r' = ref_count r;
  ud_others : ∀ j, j ∉ ps → has (declared_state r') j = has (declared_state r) j;
  ud_needed : ∀ j, j ∈ ps → has (declared_state r') j = true → needed (map (upper c)) r j = true;
  ud_stay : ∀ j, j ∈ ps → needed (map (upper c)) r j = true → has (declared_state r) j = true → has (declared_state r') j = true;
  ud_join : ∀ j, j ∈ ps → plenty → app_enabled c j → needed (map (upper c)) r j = true → has (declared_state r') j = true;
  ud_keep : ∀ a y, attrs c !! a = Some y →
     (has (declared_state r) (attr_app y) = true → needed (map (upper c)) r (attr_app y) = true) →
     ∃ y', attrs c' !! a = Some y' ∧ same_id y y' ∧ registrar y' = registrar y;
}.

Lemma counters_vset v r u u' : counters_only u u' → counters_only (vset v r u) (vset v r u').
Proof. intros []. split; try done. cbn. congruence. Qed.

Lemma map_ok_counters u u' : counters_only u u' → map_ok u → map_ok u'.
Proof. intros [M1 H1 O1 P1 B1 L1 _] []. split; rewrite ?M1, ?H1, ?P1, ?L1; done. Qed.
Lemma says_map_counters mask u u' i : counters_only u u' → says_map mask u' i ↔ says_map mask u i.
Proof. intros Hc. unfold says_map. by rewrite (co_heap _ _ Hc). Qed.

Lemma app_enabled_back c c' p : kept c c' → app_enabled c' p → app_enabled c p.
Proof.
  intros Hk (q' & Hq' & Hen). destruct (apps c !! p) as [q|] eqn:Hq.
  - destruct (kept_app _ _ Hk p q Hq) as (q1 & Hq1 & []). exists q. split; [done|]. congruence.
  - apply lookup_ge_None in Hq. apply lookup_lt_Some in Hq'. pose proof (kept_length _ _ Hk). lia.
Qed.

Lemma used_counters u u' p : counters_only u u' → port_used u p → port_used u' p.
Proof. intros Hu (q & Hq & Hin). destruct (co_port _ _ Hu p q Hq) as (q' & Hq' & _ & _ & E). exists q'. split; [done|congruence]. Qed.

Lemma mv_ok_step c c' v r r' :
  mv_ok c → vlan_heap (upper c) !! v = Some r → vlan_ok (port_max (upper c)) r' → vlan_id r' = vlan_id r →
  counters_only (vset v r' (upper c)) (upper c') → kept c c' →
  (∀ i, declares c' i ↔ if decide (i = vlan_attr r i.1.1) then has (declared_state r') i.1.1 = true else declares c i) →
  mv_ok c'.
Proof.
  intros [Hm Ha Hd Hus] Hv Hr Hid Hu Hk HD. split.
  - eapply map_ok_counters; [exact Hu|]. by eapply vset_map_ok.
  - rewrite (kept_length _ _ Hk), Ha. by rewrite (co_port_max _ _ Hu).
  - intros i. rewrite HD, (says_map_counters _ _ _ _ Hu), (says_map_vset _ v r) by done.
    case_decide; [done|apply Hd].
  - intros p Hp. eapply used_counters; [exact Hu|]. by eapply Hus, app_enabled_back.
Qed.

Lemma vset_id v r u : vlan_heap u !! v = Some r → vset v r u = u.
Proof. intros Hv. unfold vset, over, over_field. destruct u; cbn in *. by rewrite insert_id. Qed.

Lemma updated_same ps v r c :
  mrp_ok c → mv_ok c → vlan_heap (upper c) !! v = Some r →
  (∀ j, j ∈ ps → has (declared_state r) j = true → needed (map (upper c)) r j = true) →
  (∀ j, j ∈ ps → plenty → app_enabled c j → needed (map (upper c)) r j = true → has (declared_state r) j = true) →
  updated ps v r r c c.
Proof.
  intros Hi Hmv Hv H1 H2. split; try done.
  - by rewrite vset_id.
  - intros a y Hy _. by exists y.
Qed.

(** After a request on port [i], the bit of the port takes the value [d]. *)
Lemma updated_request v r r' i d c c1 c2 :
  mv_ok c → vlan_heap (upper c) !! v = Some r → req_post i (vlan_attr r i) d c c1 →
  vlan_ok (port_max (upper c)) r' →
  (registered_state r' = registered_state r ∧ user_declared r' = user_declared r ∧ vlan_id r' = vlan_id r ∧ ref_count r' = ref_count r) →
  (∀ j, has (declared_state r') j = if decide (j = i) then d else has (declared_state r) j) →
  needed (map (upper c)) r i = d → (d = false → has (declared_state r) i = true) →
  c2 = c1 <| upper ::= vset v r' |> →
  updated [i] v r r' c c2.
Proof.
  intros Hmv Hv [Q1 Q2 Q3 Q4 Q5] Hok Hsame Hbits Hn Hd ->.
  pose proof (only_port_kept _ _ _ Q2) as Hk. destruct Hsame as (S1 & S2 & S3 & S4).
  assert (Hu : counters_only (vset v r' (upper c)) (vset v r' (upper c1))) by (apply counters_vset, Q2).
  assert (Hk2 : kept c (c1 <| upper ::= vset v r' |>)) by by destruct Hk.
  split; try done.
  - destruct Q1 as [I1 I2 I3 I4 I5]. split; try done. intros p q Hq Hne. by destruct (I1 p q Hq Hne).
  - eapply (mv_ok_step c); try done. intros i0. rewrite (holds_same _ c1) by done. rewrite Q3. destruct i0 as [[p t] vv]. cbn [fst].
    destruct (decide (p = i)) as [->|Hp].
    + destruct (decide ((i, t, vv) = vlan_attr r i)); [|done]. rewrite Hbits, decide_True by done. done.
    + rewrite decide_False by (intros [= ? _]; done). case_decide as D; [|done].
      rewrite Hbits, decide_False by done. rewrite (mv_declares _ Hmv), D. unfold says_map. cbn [vlan_attr fst]. split.
      * intros (v1 & r1 & Hv1 & He & Hb). injection He as He1 He2.
        assert (v1 = v) as ->.
        { eapply (mo_unique _ (mv_map _ Hmv)); [done|done|]. apply vid_bytes_inj.
          - eapply (mo_vlan _ (mv_map _ Hmv) v1), Hv1.
          - eapply (mo_vlan _ (mv_map _ Hmv) v), Hv.
          - unfold vid_bytes, u16_bytes. congruence. }
        by assert (r1 = r) as <- by congruence.
      * intros Hb. exists v, r. done.
  - intros j Hj. rewrite Hbits, decide_False; [done|]. intros ->. apply Hj. by left.
  - intros j ->%list_elem_of_singleton. rewrite Hbits, decide_True by done. by intros <-.
  - intros j ->%list_elem_of_singleton Hn'. rewrite Hbits, decide_True by done. congruence.
  - intros j ->%list_elem_of_singleton _ _ Hn'. rewrite Hbits, decide_True by done. congruence.
  - intros a y Hy Hcond. destruct (decide (attr_app y = i)) as [Hi|Hi].
    + destruct d; [apply (Q5 a y Hy); by left|]. rewrite Hi in Hcond. rewrite (Hcond (Hd eq_refl)) in Hn. done.
    + apply (Q5 a y Hy). by right.
Qed.

Lemma vlan_ok_declared n r z : vlan_ok n r → mask_ok n z → vlan_ok n (r <| declared_state := z |>).
Proof. intros [] Hz. by split. Qed.

Lemma update_port_spec v r i new w :
  platform_ok → timers_ok → mrp_ok (w_st w) → mv_ok (w_st w) → vlan_heap (upper (w_st w)) !! v = Some r →
  (i < port_max (upper (w_st w)))%nat →
  wp (mvrp_map_update_port v new i) (λ _ w', frames (w_trace w') = frames (w_trace w) ∧
     ∃ r', updated [i] v r r' (w_st w) (w_st w')) w.
Proof.
  intros Hpl Htm Hi Hmv Hv Hlt. pose proof (mv_map _ Hmv) as Hm. pose proof (mo_vlan _ Hm v r Hv) as Hr.
  destruct (mo_ports _ Hm) as [H16 _].
  destruct (lookup_lt_is_Some_2 (apps (w_st w)) i) as [q Hq]; [by rewrite (mv_apps _ Hmv)|].
  assert (Hval : val_ok MVRP_ATTR_TYPE_VID (vid_bytes (vlan_id r))) by (split; [exact (le_n 2)|apply vid_bytes_bytes, (vo_vid _ _ Hr)]).
  assert (Hty : (min_attr_type ≤ MVRP_ATTR_TYPE_VID ≤ max_attr_type)%nat) by done.
  assert (Hvv : value MVRP_ATTR_TYPE_VID (vid_bytes (vlan_id r)) = vid_bytes (vlan_id r)) by done.
  destruct (set_bit_spec _ (declared_state r) i H16 Hlt (vo_dec _ _ Hr)) as [Sm Sb].
  destruct (clear_bit_spec _ (declared_state r) i H16 (vo_dec _ _ Hr)) as [Cm Cb].
  unfold mvrp_map_update_port. apply wp_bind, wp_gets. apply wp_bind. unfold get_vlan. apply wp_bind, wp_gets.
  apply wp_deref. exists r. split; [done|]. rewrite declared_has.
  set (d := has (declared_state r) i).
  assert (Hleave : d = true → needed (map (upper (w_st w))) r i = false →
     wp (mrp_mad_leave_request i MVRP_ATTR_TYPE_VID (vid_bytes (vlan_id r));; vlan_declared_clear v i)
       (λ _ w', frames (w_trace w') = frames (w_trace w) ∧ ∃ r', updated [i] v r r' (w_st w) (w_st w')) w).
  { intros Hd Hn. apply wp_bind. eapply wp_mono; [by eapply mrp_leave_request_spec|]. intros [] w1 (Hf1 & H1).
    assert (Hen : enabled q = true).
    { assert (Hdec : declares (w_st w) (vlan_attr r i)) by (apply (mv_declares _ Hmv); by exists v, r).
      destruct Hdec as (a & x & Hx & Hid & _). injection Hid as Hap _ _.
      destruct (mi_in _ _ Hi a x Hx) as (_ & q' & Hq' & Hen & _). congruence. }
    rewrite Hen, Hvv in H1.
    assert (Hv1 : vlan_heap (upper (w_st w1)) !! v = Some r) by (by rewrite (co_heap _ _ (op_upper _ _ _ (rq_only _ _ _ _ _ H1)))).
    apply wp_modify. split; [done|]. exists (r <| declared_state ::= clear_bit i |>).
    eapply (updated_request v r _ i false _ (w_st w1)); try done; [by apply vlan_ok_declared|].
    unfold vset, over, over_field; cbn. by rewrite (alter_as_insert _ _ _ r). }
  unfold needed in Hleave. destruct (is_mvrp_port_forwarding _ i) eqn:Ef; cbn [negb andb] in *.
  2:{ apply wp_when. destruct d eqn:Hd; [by apply Hleave|]. split; [done|]. exists r.
      apply updated_same; try done; intros j ->%list_elem_of_singleton.
      - unfold d in Hd. by rewrite Hd.
      - intros _ _. unfold needed. by rewrite Ef. }
  destruct (_ || _) eqn:En.
  - apply wp_when. destruct d eqn:Hd; cbn [negb].
    { split; [done|]. exists r. apply updated_same; try done; intros j ->%list_elem_of_singleton; [|done].
      intros _. unfold needed. by rewrite Ef, En. }
    apply wp_bind. eapply wp_mono; [by eapply mrp_join_request_spec|]. intros o w1 (Hf1 & H1). destruct o as [a|].
    + destruct H1 as (Hen & H1 & _). rewrite Hvv in H1.
      assert (Hv1 : vlan_heap (upper (w_st w1)) !! v = Some r) by (by rewrite (co_heap _ _ (op_upper _ _ _ (rq_only _ _ _ _ _ H1)))).
      apply wp_modify. split; [done|]. exists (r <| declared_state ::= set_bit i |>).
      eapply (updated_request v r _ i true _ (w_st w1)); try done.
      * by apply vlan_ok_declared.
      * unfold needed. by rewrite Ef, En.
      * unfold vset, over, over_field; cbn. by rewrite (alter_as_insert _ _ _ r).
    + destruct H1 as (E1 & Hwhy). apply wp_ret. split; [done|]. exists r. rewrite E1.
      apply updated_same; try done; intros j ->%list_elem_of_singleton.
      * unfold d in Hd. by rewrite Hd.
      * intros Hp (q' & Hq' & Hen') _. assert (q' = q) as -> by congruence. destruct Hwhy as [?|Hz]; [congruence|].
        by destruct (Hp _ Hz).
  - apply wp_when. destruct d eqn:Hd; [by apply Hleave|]. split; [done|]. exists r.
    apply updated_same; try done; intros j ->%list_elem_of_singleton.
    + unfold d in Hd. by rewrite Hd.
    + intros _ _. unfold needed. by rewrite Ef, En.
Qed.

Lemma updated_trans ps1 ps2 v r r1 r2 c c1 c2 :
  (∀ j, j ∈ ps1 → j ∉ ps2) → vlan_heap (upper c) !! v = Some r →
  updated ps1 v r r1 c c1 → updated ps2 v r1 r2 c1 c2 → updated (ps1 ++ ps2) v r r2 c c2.
Proof.
  intros Hdis Hv U1 U2.
  destruct (ud_vlan _ _ _ _ _ _ U1) as (A1 & B1 & C1 & D1). destruct (ud_vlan _ _ _ _ _ _ U2) as (A2 & B2 & C2 & D2).
  assert (Hmap : map (upper c1) = map (upper c)) by apply (co_map _ _ (ud_upper _ _ _ _ _ _ U1)).
  assert (Hn : ∀ j, needed (map (upper c1)) r1 j = needed (map (upper c)) r j) by (intros j; rewrite Hmap; by apply needed_ext).
  split.
  - apply U2.
  - apply U2.
  - etrans; [apply U1|apply U2].
  - intros i. by rewrite (ud_registers _ _ _ _ _ _ U2), (ud_registers _ _ _ _ _ _ U1).
  - assert (E : vset v r2 (upper c) = vset v r2 (vset v r1 (upper c))).
    { unfold vset, over, over_field; cbn. by rewrite insert_insert_eq. }
    rewrite E. etrans; [apply counters_vset, U1|apply U2].
  - split_and!; congruence.
  - intros j [Hj1 Hj2]%not_elem_of_app. by rewrite (ud_others _ _ _ _ _ _ U2), (ud_others _ _ _ _ _ _ U1).
  - intros j [Hj|Hj]%elem_of_app.
    + rewrite (ud_others _ _ _ _ _ _ U2) by by apply Hdis. by apply U1.
    + rewrite <- Hn. by apply U2.
  - intros j [Hj|Hj]%elem_of_app Hnj Hd.
    + rewrite (ud_others _ _ _ _ _ _ U2) by by apply Hdis. by apply (ud_stay _ _ _ _ _ _ U1).
    + apply (ud_stay _ _ _ _ _ _ U2); [done|by rewrite Hn|]. rewrite (ud_others _ _ _ _ _ _ U1); [done|]. intros Hj1. by apply (Hdis j).
  - intros j [Hj|Hj]%elem_of_app Hp He Hnj.
    + rewrite (ud_others _ _ _ _ _ _ U2) by by apply Hdis. by apply (ud_join _ _ _ _ _ _ U1).
    + apply (ud_join _ _ _ _ _ _ U2); [done|done| |by rewrite Hn]. destruct He as (q & Hq & Hen).
      destruct (kept_enabled _ _ _ _ (ud_kept _ _ _ _ _ _ U1) Hq Hen) as (q1 & ? & ? & _). by exists q1.
  - intros a y Hy Hc. destruct (ud_keep _ _ _ _ _ _ U1 a y Hy Hc) as (y1 & Hy1 & Hid1 & Hr1).
    destruct (ud_keep _ _ _ _ _ _ U2 a y1 Hy1) as (y2 & Hy2 & Hid2 & Hr2).
    + pose proof Hid1 as (-> & _ & _). rewrite Hn. destruct (decide (attr_app y ∈ ps1)) as [Hin|Hin].
      * by apply (ud_needed _ _ _ _ _ _ U1).
      * rewrite (ud_others _ _ _ _ _ _ U1) by done. exact Hc.
    + exists y2. split; [done|]. rewrite same_id_ident in *. split; congruence.
Qed.

Lemma updated_heap ps v r r' c c' :
  updated ps v r r' c c' → vlan_heap (upper c') = <[v := r']> (vlan_heap (upper c)).
Proof. intros U. by rewrite (co_heap _ _ (ud_upper _ _ _ _ _ _ U)). Qed.

Lemma update_ports_spec v r new ps w :
  platform_ok → timers_ok → mrp_ok (w_st w) → mv_ok (w_st w) → vlan_heap (upper (w_st w)) !! v = Some r →
  NoDup ps → (∀ i, i ∈ ps → (i < port_max (upper (w_st w)))%nat) →
  wp (for_each ps (mvrp_map_update_port v new)) (λ _ w', frames (w_trace w') = frames (w_trace w) ∧
     ∃ r', updated ps v r r' (w_st w) (w_st w')) w.
Proof.
  intros Hpl Htm. revert w r. induction ps as [|i ps IH]; intros w r Hi Hmv Hv Hnd Hps.
  { apply wp_ret. split; [done|]. exists r. apply updated_same; try done; by intros j Hj%elem_of_nil. }
  apply list.NoDup_cons in Hnd as [Hni Hnd]. cbn [for_each]. apply wp_bind.
  eapply wp_mono; [eapply update_port_spec; try done; apply Hps; by left|]. intros [] w1 (Hf1 & r1 & U1).
  assert (Hv1 : vlan_heap (upper (w_st w1)) !! v = Some r1) by (by rewrite (updated_heap _ _ _ _ _ _ U1), lookup_insert_eq).
  eapply wp_mono; [apply (IH w1 r1); [apply U1|apply U1|done|done|]|].
  - intros j Hj. rewrite (co_port_max _ _ (ud_upper _ _ _ _ _ _ U1)). apply Hps. by right.
  - intros [] w2 (Hf2 & r2 & U2). split; [by rewrite Hf2|]. exists r2.
    eapply (updated_trans [i] ps); try done. by intros j ->%list_elem_of_singleton.
Qed.

(** ** A VLAN brought up to date *)

Definition used (r : mvrp_vlan) : bool := is_vlan_registered_any r || is_vlan_user_declared_any r.
Definition vfree (v : nat) (u : mvrp_ctx) : mvrp_ctx :=
  u <| map ::= λ mm, mm <| vlans ::= list_remove v |> <| num_vlans ::= λ n, u32 (n - 1) |> |> <| vlan_heap ::= delete v |>.

Record settled (v : nat) (r r' : mvrp_vlan) c c' : Prop := {
  se_mrp : mrp_ok c';
  se_mv : mv_ok c';
  se_kept : kept c c';
  se_registers : ∀ i, registers c' i ↔ registers c i;
  se_upper : counters_only (if used r then vset v r' (upper c) else vfree v (upper c)) (upper c');
  se_vlan : registered_state r' = registered_state r ∧ user_declared r' = user_declared r ∧ vlan_id r' = vlan_id r ∧
            ref_count r' = ref_count r;
  se_needed : ∀ j, has (declared_state r') j = true → needed (map (upper c)) r j = true;
  se_stay : ∀ j, needed (map (upper c)) r j = true → has (declared_state r) j = true → has (declared_state r') j = true;
  se_join : ∀ j, plenty → app_enabled c j → needed (map (upper c)) r j = true → has (declared_state r') j = true;
  se_keep : ∀ a y, attrs c !! a = Some y →
     (has (declared_state r) (attr_app y) = true → needed (map (upper c)) r (attr_app y) = true) →
     ∃ y', attrs c' !! a = Some y' ∧ same_id y y' ∧ registrar y' = registrar y;
}.

Lemma vfree_map_ok v r u :
  map_ok u → vlan_heap u !! v = Some r → map_ok (vfree v u).
Proof.
  intros Hm Hv. pose proof Hm as [M1 M2 M3 M4 [M5 M6] M7 M8].
  assert (Hin : v ∈ vlans (map u)) by (apply M4; eauto).
  assert (Hl := length_list_remove v _ M3 Hin).
  split; cbn; try done.
  - by apply NoDup_list_remove.
  - intros v'. rewrite elem_of_list_remove, M4. destruct (decide (v' = v)) as [->|Hne].
    + rewrite lookup_delete_eq. split; [by intros []|by intros []].
    + rewrite lookup_delete_ne by done. naive_solver.
  - unfold CFG_MVRP_MAX_VLANS in *. rewrite M5 in *. rewrite u32_small by lia. lia.
  - intros v' r' [_ Hlk]%lookup_delete_Some. by eapply M7.
  - intros v1 v2 r1 r2 [_ H1]%lookup_delete_Some [_ H2]%lookup_delete_Some. by apply M8.
Qed.

Lemma says_map_vfree v r mask u i :
  vlan_heap u !! v = Some r → (∀ j, has (mask r) j = false) → says_map mask (vfree v u) i ↔ says_map mask u i.
Proof.
  intros Hv Hn. unfold says_map. cbn. split.
  - intros (v1 & r1 & [_ H1]%lookup_delete_Some & H2). by exists v1, r1.
  - intros (v1 & r1 & H1 & H2 & H3). exists v1, r1. split; [|done]. rewrite lookup_delete_ne; [done|].
    intros <-. assert (r1 = r) as -> by congruence. by rewrite Hn in H3.
Qed.

Lemma unused_not_needed n m r j :
  vlan_ok n r → used r = false → needed m r j = false.
Proof.
  intros Hr [H1 H2]%orb_false_iff. unfold needed, is_vlan_registered_other_forwarding, is_vlan_user_declared.
  unfold is_vlan_registered_any, is_vlan_user_declared_any in *. apply truth_zero in H1, H2. rewrite H1, H2.
  rewrite !Z.land_0_l. cbn. apply andb_false_r.
Qed.

Lemma free_vlan_exec v r w :
  vlan_heap (upper (w_st w)) !! v = Some r →
  wp (mvrp_free_vlan v) (λ _ w', frames (w_trace w') = frames (w_trace w) ∧ w_st w' = (w_st w) <| upper ::= vfree v |>) w.
Proof.
  intros Hv. unfold mvrp_free_vlan, get_vlan. apply wp_bind, wp_bind, wp_gets. apply wp_deref. exists r. split; [done|].
  apply wp_bind, wp_modify. apply wp_bind, wp_gets. apply wp_bind, wp_when. cbn [w_st w_trace w_clock].
  assert (Hend : ∀ ck tr, frames tr = frames (w_trace w) →
    wp (mv_set (λ m : mvrp_ctx, m <| vlan_heap ::= delete v |>);; let! _ := perform VlanFree in ret tt)
      (λ _ w', frames (w_trace w') = frames (w_trace w) ∧ w_st w' = (w_st w) <| upper ::= vfree v |>)
      (World ((w_st w) <| upper ::= λ m, m <| map ::= λ mm, mm <| vlans ::= list_remove v |> <| num_vlans ::= λ n, u32 (n - 1) |> |> |>) ck tr)).
  { intros ck tr Hf. apply wp_bind, wp_modify. apply wp_bind, wp_perform. apply wp_ret. cbn [w_st w_trace].
    by rewrite frames_mvrp. }
  destruct (is_bridge _).
  - apply wp_bind, wp_perform. apply wp_ret. apply Hend. cbn. by rewrite frames_mvrp.
  - by apply Hend.
Qed.

Lemma free_vlan_spec v r w :
  mrp_ok (w_st w) → mv_ok (w_st w) → vlan_heap (upper (w_st w)) !! v = Some r → (∀ j, has (declared_state r) j = false) →
  wp (mvrp_free_vlan v) (λ _ w', frames (w_trace w') = frames (w_trace w) ∧
    w_st w' = (w_st w) <| upper ::= vfree v |> ∧ mrp_ok (w_st w') ∧ mv_ok (w_st w')) w.
Proof.
  intros Hi Hmv Hv Hd. eapply wp_mono; [by eapply free_vlan_exec|]. intros [] w' (Hf & ->). split; [done|]. split; [done|]. split.
  - destruct Hi as [I1 I2 I3 I4 I5]. split; try done. intros p q Hq Hne. by destruct (I1 p q Hq Hne).
  - destruct Hmv as [H1 H2 H3 H4]. split; [by eapply vfree_map_ok|done| |done]. intros i. cbn.
    rewrite (holds_same _ (w_st w)) by done. rewrite (says_map_vfree v r) by done. apply H3.
Qed.

Lemma update_vlan_spec v r new w :
  platform_ok → timers_ok → mrp_ok (w_st w) → mv_ok (w_st w) → vlan_heap (upper (w_st w)) !! v = Some r →
  wp (mvrp_map_update_vlan v new) (λ _ w', frames (w_trace w') = frames (w_trace w) ∧
     ∃ r', settled v r r' (w_st w) (w_st w')) w.
Proof.
  intros Hpl Htm Hi Hmv Hv. pose proof (mv_map _ Hmv) as Hm. pose proof (mo_vlan _ Hm v r Hv) as Hr.
  unfold mvrp_map_update_vlan. apply wp_bind, wp_gets. apply wp_bind.
  eapply wp_mono; [eapply (update_ports_spec v r); try done; [apply NoDup_seq|intros i Hin; apply elem_of_seq in Hin; lia]|].
  intros [] w1 (Hf1 & r1 & U). set (u := upper (w_st w)) in *.
  assert (Hv1 : vlan_heap (upper (w_st w1)) !! v = Some r1) by (by rewrite (updated_heap _ _ _ _ _ _ U), lookup_insert_eq).
  destruct (ud_vlan _ _ _ _ _ _ U) as (S1 & S2 & S3 & S4).
  assert (Hm1 : map_ok (upper (w_st w1))) by apply (mv_map _ (ud_mv _ _ _ _ _ _ U)).
  assert (Hpm : port_max (upper (w_st w1)) = port_max u) by apply (co_port_max _ _ (ud_upper _ _ _ _ _ _ U)).
  assert (Hlt : ∀ j, has (declared_state r1) j = true → j ∈ seq 0 (port_max u)).
  { intros j Hj. apply elem_of_seq. split; [lia|]. rewrite <- Hpm. eapply has_lt; [eapply (vo_dec _ _ (mo_vlan _ Hm1 v r1 Hv1))|done]. }
  assert (Hnd : ∀ j, has (declared_state r1) j = true → needed (map u) r j = true).
  { intros j Hj. eapply (ud_needed _ _ _ _ _ _ U); [by apply Hlt|done]. }
  assert (Hseq : ∀ j, (j < port_max u)%nat → j ∈ seq 0 (port_max u)) by (intros j Hj; apply elem_of_seq; lia).
  assert (Hsettle : ∀ c', mrp_ok c' → mv_ok c' → kept (w_st w1) c' → attrs c' = attrs (w_st w1) →
     counters_only (if used r then vset v r1 u else vfree v u) (upper c') → settled v r r1 (w_st w) c').
  { intros c' H1 H2 H3 H4 H5. split; try done.
    - etrans; [apply U|done].
    - intros i. rewrite (holds_same _ (w_st w1)) by done. apply U.
    - intros j Hj Hd. apply (ud_stay _ _ _ _ _ _ U); [|done|done]. apply Hseq. eapply has_lt; [apply (vo_dec _ _ Hr)|done].
    - intros j Hp (q & Hq & Hen) Hj. apply (ud_join _ _ _ _ _ _ U); [|done|by exists q|done].
      apply Hseq. unfold u. rewrite <- (mv_apps _ Hmv). by eapply lookup_lt_Some.
    - rewrite H4. apply U. }
  apply wp_bind. unfold get_vlan. apply wp_bind, wp_gets. apply wp_deref. exists r1. split; [done|].
  apply wp_when. assert (Hus : used r1 = used r) by (unfold used, is_vlan_registered_any, is_vlan_user_declared_any; by rewrite S1, S2).
  rewrite <- negb_orb. fold (used r1). rewrite Hus. destruct (used r) eqn:Eu; cbn [negb].
  - split; [done|]. exists r1. apply Hsettle; [apply U|apply U|done|done|apply U].
  - assert (Hz : ∀ j, has (declared_state r1) j = false).
    { intros j. destruct (has _ j) eqn:E; [|done]. apply Hnd in E. by rewrite (unused_not_needed _ _ _ _ Hr Eu) in E. }
    eapply wp_mono; [apply (free_vlan_spec v r1); [apply U|apply U|done|done]|].
    intros [] w2 (Hf2 & E2 & Hi2 & Hmv2). split; [by rewrite Hf2|]. exists r1. apply Hsettle; rewrite E2.
    + by rewrite <- E2.
    + by rewrite <- E2.
    + split; try done. intros p q Hq. by exists q.
    + done.
    + destruct (ud_upper _ _ _ _ _ _ U) as [C1 C2 C3 C4 C5 C6 C7]. split; try done; cbn.
      * by rewrite C1.
      * rewrite C2. cbn. by rewrite delete_insert_eq.
Qed.

(** ** Lookup and creation *)

Lemma find_vlan_spec id w :
  map_ok (upper (w_st w)) →
  wp (mvrp_find_vlan id) (λ o w', w' = w ∧ match o with
    | Some v => ∃ r, vlan_heap (upper (w_st w)) !! v = Some r ∧ vlan_id r = id
    | None => ∀ v r, vlan_heap (upper (w_st w)) !! v = Some r → vlan_id r ≠ id
    end) w.
Proof.
  intros Hm. unfold mvrp_find_vlan. apply wp_bind, wp_gets.
  set (f := λ v, match vlan_heap (upper (w_st w)) !! v with Some r => vlan_id r =? id | None => false end).
  eapply (wp_list_search f).
  - intros v Hv. apply (mo_heap _ Hm) in Hv as [r Hr]. unfold get_vlan, bind, mv_get, gets, f. by rewrite Hr.
  - split; [done|]. destruct (find f _) as [v|] eqn:Ef.
    + apply find_some in Ef as [_ Hf]. unfold f in Hf. destruct (vlan_heap _ !! v) as [r|] eqn:Hr; [|done].
      apply Z.eqb_eq in Hf. by exists r.
    + intros v r Hr Hid. assert (Hin : v ∈ vlans (map (upper (w_st w)))) by (apply (mo_heap _ Hm); eauto).
      pose proof (find_none _ _ Ef v (proj1 (list_elem_of_In _ _) Hin)) as Hn. unfold f in Hn. rewrite Hr, Hid in Hn.
      by rewrite Z.eqb_refl in Hn.
Qed.

Definition fresh_vlan (n : nat) (id : Z) : mvrp_vlan := MvrpVlan 0 0 0 id 0 (replicate n 0).
Definition vadd (v : nat) (r : mvrp_vlan) (u : mvrp_ctx) : mvrp_ctx :=
  u <| vlan_heap ::= <[v := r]> |>
    <| map ::= λ mm, mm <| vlans ::= cons v |> <| num_vlans ::= λ n, u32 (n + 1) |> |>.

(** Why a VLAN is not created. *)
Definition no_room (u : mvrp_ctx) (id : Z) : Prop :=
  num_vlans (map u) = CFG_MVRP_MAX_VLANS ∨ ntohs id < CFG_MVRP_VID_MIN ∨ CFG_MVRP_VID_MAX < ntohs id.

Lemma mask_zero n : mask_ok n 0.
Proof. split; [done|]. apply Z.pow_pos_nonneg; lia. Qed.

Lemma fresh_vlan_ok n id :
  0 ≤ id < 65536 → CFG_MVRP_VID_MIN ≤ ntohs id ≤ CFG_MVRP_VID_MAX → vlan_ok n (fresh_vlan n id).
Proof.
  intros H1 H2. split; try apply mask_zero; cbn; try done; [by rewrite length_replicate|].
  intros p k [-> _]%lookup_replicate. done.
Qed.

Lemma vadd_map_ok v id u :
  map_ok u → vlan_heap u !! v = None → 0 ≤ id < 65536 → ¬ no_room u id →
  (∀ v' r, vlan_heap u !! v' = Some r → vlan_id r ≠ id) → map_ok (vadd v (fresh_vlan (port_max u) id) u).
Proof.
  intros Hm Hv Hid Hroom Hnew. unfold no_room, CFG_MVRP_MAX_VLANS, CFG_MVRP_VID_MIN, CFG_MVRP_VID_MAX in *.
  pose proof Hm as [M1 M2 M3 M4 [M5 M6] M7 M8]. unfold CFG_MVRP_MAX_VLANS in M6.
  split; cbn; try done.
  - constructor; [|done]. rewrite M4, Hv. by intros [].
  - intros v'. rewrite elem_of_cons, M4. destruct (decide (v' = v)) as [->|Hne].
    + rewrite lookup_insert_eq. naive_solver.
    + rewrite lookup_insert_ne by done. naive_solver.
  - rewrite u32_small by lia. unfold CFG_MVRP_MAX_VLANS. lia.
  - intros v' r' [[<- <-]|[_ Hlk]]%lookup_insert_Some; [|by eapply M7].
    apply fresh_vlan_ok; [done|]. unfold CFG_MVRP_VID_MIN, CFG_MVRP_VID_MAX. lia.
  - intros v1 v2 r1 r2 [[<- <-]|[N1 E1]]%lookup_insert_Some [[<- <-]|[N2 E2]]%lookup_insert_Some; [done| | |by apply M8].
    + intros E. cbn in E. exfalso. by eapply Hnew.
    + intros E. cbn in E. exfalso. by eapply Hnew.
Qed.

Lemma says_map_vadd mask v id u i :
  vlan_heap u !! v = None → has (mask (fresh_vlan (port_max u) id)) i.1.1 = false →
  says_map mask (vadd v (fresh_vlan (port_max u) id) u) i ↔ says_map mask u i.
Proof.
  intros Hv Hz. unfold says_map. cbn. split.
  - intros (v1 & r1 & [[<- <-]|[_ H1]]%lookup_insert_Some & H2 & H3); [congruence|]. by exists v1, r1.
  - intros (v1 & r1 & H1 & H2). exists v1, r1. split; [|done]. rewrite lookup_insert_ne; [done|]. congruence.
Qed.

Lemma mrp_ok_upper c f :
  mrp_ok c → (∀ p, is_Some (port (upper c) !! p) → is_Some (port (f (upper c)) !! p)) → mrp_ok (c <| upper ::= f |>).
Proof.
  intros [I1 I2 I3 I4 I5] Hf. split; try done. intros p q Hq Hne. destruct (I1 p q Hq Hne). split; try done.
  cbn. by apply Hf.
Qed.

Lemma create_vlan_spec id w :
  mrp_ok (w_st w) → mv_ok (w_st w) → 0 ≤ id < 65536 →
  wp (mvrp_create_vlan id) (λ o w', frames (w_trace w') = frames (w_trace w) ∧ match o with
    | Some v => ∃ r, vlan_heap (upper (w_st w')) !! v = Some r ∧ vlan_id r = id ∧ mrp_ok (w_st w') ∧ mv_ok (w_st w') ∧
        (w_st w' = w_st w ∨
         r = fresh_vlan (port_max (upper (w_st w))) id ∧ vlan_heap (upper (w_st w)) !! v = None ∧
         w_st w' = (w_st w) <| upper ::= vadd v r |>)
    | None => w_st w' = w_st w ∧ (∀ v r, vlan_heap (upper (w_st w)) !! v = Some r → vlan_id r ≠ id) ∧
        (no_room (upper (w_st w)) id ∨ ∃ n s, answer n (VlanMalloc s) = 0)
    end) w.
Proof.
  intros Hi Hmv Hid. pose proof (mv_map _ Hmv) as Hm. unfold mvrp_create_vlan. apply wp_bind.
  eapply wp_mono; [by apply find_vlan_spec|]. intros o w1 (-> & Ho). destruct o as [v|].
  { apply wp_ret. split; [done|]. destruct Ho as (r & Hr & Hvid). exists r. split_and!; try done. by left. }
  apply wp_bind, wp_gets. destruct (num_vlans _ <? _) eqn:E1; cbn [negb].
  2:{ apply wp_ret. split; [done|]. split; [done|]. split; [done|]. left. left. apply Z.ltb_ge in E1.
      pose proof (mo_num _ Hm). lia. }
  destruct ((_ <? _) || (_ <? _)) eqn:E2.
  { apply wp_ret. split; [done|]. split; [done|]. split; [done|]. left. right. apply orb_true_iff in E2 as [E|E]; apply Z.ltb_lt in E; auto. }
  apply orb_false_iff in E2 as [E2 E3]. apply Z.ltb_lt in E1. apply Z.ltb_ge in E2, E3.
  apply wp_bind, wp_perform. destruct (_ =? 0) eqn:Em.
  { apply wp_ret. cbn [w_trace w_st]. rewrite frames_mvrp. split; [done|]. split; [done|]. split; [done|]. right.
    apply Z.eqb_eq in Em. eauto. }
  apply wp_bind, wp_gets. cbn [w_st w_clock w_trace].
  set (v := fresh (dom (vlan_heap (upper (w_st w))))). apply wp_bind, wp_modify, wp_bind, wp_modify, wp_ret.
  cbn [w_st w_clock w_trace].
  assert (Hv : vlan_heap (upper (w_st w)) !! v = None) by (apply not_elem_of_dom, is_fresh).
  set (r := fresh_vlan (port_max (upper (w_st w))) id).
  assert (Hm' : map_ok (vadd v r (upper (w_st w)))).
  { apply vadd_map_ok; try done. unfold no_room. lia. }
  split; [by rewrite frames_mvrp|]. exists r. split; [by apply lookup_insert_eq|]. split; [done|]. split; [|split].
  - change (mrp_ok ((w_st w) <| upper ::= vadd v r |>)). by apply mrp_ok_upper.
  - split; [done|apply Hmv| |apply Hmv]. intros i. rewrite (holds_same _ (w_st w)) by done.
    rewrite (mv_declares _ Hmv). symmetry. apply (says_map_vadd declared_state); [done|]. unfold has. apply Z.bits_0.
  - right. done.
Qed.

(** ** Indications *)

(** A VLAN is up to date: nothing is declared without need, the VLAN is in use
    and, with memory for attributes, what is needed is declared. *)
Record vlan_done c (r : mvrp_vlan) : Prop := {
  vd_excess : ∀ p, has (declared_state r) p = true → needed (map (upper c)) r p = true;
  vd_used : used r = true;
  vd_lack : plenty → ∀ p, app_enabled c p → needed (map (upper c)) r p = true → has (declared_state r) p = true;
}.
Definition others_done (v : nat) c : Prop := ∀ v' r', v' ≠ v → vlan_heap (upper c) !! v' = Some r' → vlan_done c r'.

(** What the protocol relies on between two events, on an endpoint. *)
Record mvrp_ok c : Prop := {
  mk_endpoint : is_bridge (upper c) = false;
  mk_mv : mv_ok c;
  mk_done : ∀ v r, vlan_heap (upper c) !! v = Some r → vlan_done c r;
}.

(** The registrations that the map knows of. *)
Definition mvrp_view (u : mvrp_ctx) (i : nat * nat * list Z) : bool :=
  bool_decide (map_Exists (λ _ r, i = vlan_attr r i.1.1 ∧ has (registered_state r) i.1.1 = true) (vlan_heap u)).
Lemma mvrp_view_true u i : mvrp_view u i = true ↔ says_map registered_state u i.
Proof. unfold mvrp_view. rewrite bool_decide_eq_true. done. Qed.
Lemma mvrp_view_false u i : mvrp_view u i = false ↔ ¬ says_map registered_state u i.
Proof. rewrite <- mvrp_view_true. by destruct (mvrp_view u i). Qed.
Lemma mvrp_view_ext u u' i : (says_map registered_state u' i ↔ says_map registered_state u i) → mvrp_view u' i = mvrp_view u i.
Proof. rewrite <- !mvrp_view_true. destruct (mvrp_view u i), (mvrp_view u' i); naive_solver. Qed.

(** A change of the registration of port [p] alone. *)
Definition only_reg (p : nat) (r r1 : mvrp_vlan) : Prop :=
  declared_state r1 = declared_state r ∧ user_declared r1 = user_declared r ∧ vlan_id r1 = vlan_id r ∧
  ref_count r1 = ref_count r ∧ ∀ j, j ≠ p → has (registered_state r1) j = has (registered_state r) j.

Lemma needed_only_reg n m p r r1 :
  vlan_ok n r → vlan_ok n r1 → only_reg p r r1 → needed m r1 p = needed m r p.
Proof.
  intros Hr Hr1 (_ & Hu & _ & _ & Hj). unfold needed. f_equal. f_equal.
  - apply eq_bool_prop_intro. rewrite !Is_true_true.
    rewrite !other_forwarding_has by (apply (vo_reg _ _ Hr) || apply (vo_reg _ _ Hr1)).
    split; intros (j & Hne & H1 & H2); exists j; [rewrite Hj in H1 by done|rewrite Hj by done]; done.
  - unfold is_vlan_user_declared. by rewrite Hu.
Qed.

Lemma mv_ok_vset c v r r1 :
  mv_ok c → vlan_heap (upper c) !! v = Some r → vlan_ok (port_max (upper c)) r1 → vlan_id r1 = vlan_id r →
  declared_state r1 = declared_state r → mv_ok (c <| upper ::= vset v r1 |>).
Proof.
  intros Hmv Hv Hr1 Hid Hd. eapply (mv_ok_step c); try done.
  - split; try done. intros p q Hq. by exists q.
  - intros i. rewrite (holds_same _ c) by done. case_decide as D; [|done]. rewrite Hd, (mv_declares _ Hmv). split.
    + intros (v1 & r0 & H1 & H2 & H3). assert (v1 = v) as ->; [|congruence].
      eapply (mo_unique _ (mv_map _ Hmv)); [done|done|]. apply (f_equal snd) in D, H2. cbn [vlan_attr snd] in D, H2.
      apply vid_bytes_inj; [eapply (mo_vlan _ (mv_map _ Hmv)), H1|eapply (mo_vlan _ (mv_map _ Hmv)), Hv|congruence].
    + intros H3. by exists v, r.
Qed.

Lemma vlan_done_ext c c' r :
  kept c c' → forwarding_state (map (upper c')) = forwarding_state (map (upper c)) → vlan_done c r → vlan_done c' r.
Proof.
  intros Hk Hf [H1 H2 H3].
  assert (Hn : ∀ p, needed (map (upper c')) r p = needed (map (upper c)) r p).
  { intros p. unfold needed, is_mvrp_port_forwarding, is_vlan_registered_other_forwarding. by rewrite Hf. }
  split; [intros p; rewrite Hn; apply H1|done|]. intros Hp p Hen. rewrite Hn. apply (H3 Hp). by eapply app_enabled_back.
Qed.

(** A VLAN that has been settled is up to date, the others are untouched. *)
Lemma settled_forwarding v r r' c c' :
  settled v r r' c c' → forwarding_state (map (upper c')) = forwarding_state (map (upper c)).
Proof. intros S. rewrite (co_map _ _ (se_upper _ _ _ _ _ S)). by destruct (used r). Qed.
Lemma settled_heap v r r' c c' v' r0 :
  settled v r r' c c' → vlan_heap (upper c') !! v' = Some r0 →
  (v' = v ∧ r0 = r' ∧ used r = true) ∨ (v' ≠ v ∧ vlan_heap (upper c) !! v' = Some r0).
Proof.
  intros S. rewrite (co_heap _ _ (se_upper _ _ _ _ _ S)). destruct (used r); cbn.
  - intros [[<- <-]|[? ?]]%lookup_insert_Some; [by left|right; split; [congruence|done]].
  - intros [? ?]%lookup_delete_Some. right. split; [congruence|done].
Qed.
Lemma settled_done v r r' c c' :
  settled v r r' c c' → used r = true → vlan_done c' r'.
Proof.
  intros S Hus. destruct (se_vlan _ _ _ _ _ S) as (S1 & S2 & S3 & S4).
  assert (Hn : ∀ p, needed (map (upper c')) r' p = needed (map (upper c)) r p).
  { intros p. rewrite (needed_ext _ r) by done. rewrite (co_map _ _ (se_upper _ _ _ _ _ S)). by rewrite Hus. }
  split.
  - intros p. rewrite Hn. apply S.
  - unfold used, is_vlan_registered_any, is_vlan_user_declared_any in *. by rewrite S1, S2.
  - intros Hp p Hen. rewrite Hn. apply (se_join _ _ _ _ _ S); [done|]. eapply app_enabled_back; [apply S|done].
Qed.

(** What an update of the map never changes. *)
Record same_config u u' : Prop := {
  sc_bridge : is_bridge u' = is_bridge u;
  sc_port_max : port_max u' = port_max u;
  sc_operational : operational_state u' = operational_state u;
  sc_forwarding : forwarding_state (map u') = forwarding_state (map u);
}.
#[export] Instance same_config_preorder : PreOrder same_config.
Proof. split; [by split|]. intros a b d [] []. split; congruence. Qed.
Lemma counters_config u u' : counters_only u u' → same_config u u'.
Proof. intros [M1 H1 O1 P1 B1 _ _]. split; congruence. Qed.
Lemma settled_config v r r' c c' : settled v r r' c c' → same_config (upper c) (upper c').
Proof.
  intros S. etrans; [|apply counters_config, S]. by destruct (used r).
Qed.

(** What the map says of registrations and users stays. *)
Definition stable_mask (mask : mvrp_vlan → Z) : Prop := mask = registered_state ∨ mask = user_declared.
Lemma settled_says mask v r r' c c' i :
  stable_mask mask → map_ok (upper c) → vlan_heap (upper c) !! v = Some r → settled v r r' c c' →
  says_map mask (upper c') i ↔ says_map mask (upper c) i.
Proof.
  intros Hmask Hm Hv S. destruct (se_vlan _ _ _ _ _ S) as (S1 & S2 & S3 & S4).
  rewrite (says_map_counters _ _ _ _ (se_upper _ _ _ _ _ S)).
  assert (Hr : mask r' = mask r) by (by destruct Hmask as [->| ->]).
  destruct (used r) eqn:Eu.
  - rewrite (says_map_vset _ v r) by done. rewrite Hr. rewrite <- (says_map_vset mask v r r) by done.
    by rewrite vset_id.
  - apply (says_map_vfree v r); [done|]. intros j.
    apply orb_false_iff in Eu as [E1 E2]. unfold is_vlan_registered_any, is_vlan_user_declared_any in *.
    apply truth_zero in E1, E2. unfold has. destruct Hmask as [->| ->]; rewrite ?E1, ?E2; apply Z.bits_0.
Qed.

(** The update that follows a change [r1] of VLAN [v]. *)
Lemma revise_spec v r r1 new c ck tr :
  platform_ok → timers_ok → mrp_ok c → mv_ok c → is_bridge (upper c) = false → others_done v c →
  vlan_heap (upper c) !! v = Some r → vlan_ok (port_max (upper c)) r1 →
  declared_state r1 = declared_state r → vlan_id r1 = vlan_id r →
  wp (mvrp_map_update_vlan v new) (λ _ w', ∃ r2, settled v r1 r2 (c <| upper ::= vset v r1 |>) (w_st w') ∧
     mvrp_ok (w_st w') ∧ kept c (w_st w') ∧ frames (w_trace w') = frames tr)
    (World (c <| upper ::= vset v r1 |>) ck tr).
Proof.
  intros Hpl Htm Hi Hmv Hbr Ho Hv Hr1 Hd Hid. pose proof (mv_map _ Hmv) as Hm. set (c1 := c <| upper ::= vset v r1 |>).
  assert (Hi1 : mrp_ok c1) by by apply mrp_ok_upper.
  assert (Hmv1 : mv_ok c1) by by eapply mv_ok_vset.
  assert (Hv1 : vlan_heap (upper c1) !! v = Some r1) by apply lookup_insert_eq.
  assert (Hk1 : kept c c1) by (split; try done; intros p q Hq; by exists q).
  eapply wp_mono; [by apply (update_vlan_spec v r1)|]. cbn [w_st]. intros [] w2 (Hf & r2 & S). exists r2.
  pose proof (se_upper _ _ _ _ _ S) as Hu.
  split; [done|]. split; [|split; [etrans; [exact Hk1|apply S]|done]].
  split.
  - rewrite (co_bridge _ _ Hu). by destruct (used r1).
  - apply S.
  - intros v' r' Hr'. destruct (settled_heap _ _ _ _ _ _ _ S Hr') as [(-> & -> & Hus)|(Hne & Hr0)].
    + by eapply settled_done.
    + eapply vlan_done_ext; [etrans; [exact Hk1|apply S]|by rewrite (settled_forwarding _ _ _ _ _ S)|].
      apply (Ho v'); [done|]. cbn in Hr0. by rewrite lookup_insert_ne in Hr0.
Qed.

(** The update that follows a change of the registration of port [p]. *)
Lemma indication_core p a x v r r1 new c ck tr :
  platform_ok → timers_ok → mrp_ok c → mv_ok c → is_bridge (upper c) = false → others_done v c →
  (∀ j, has (declared_state r) j = true → needed (map (upper c)) r j = true) →
  vlan_heap (upper c) !! v = Some r → vlan_ok (port_max (upper c)) r1 → only_reg p r r1 →
  attrs c !! a = Some x → attr_app x = p →
  wp (mvrp_map_update_vlan v new) (λ _ w',
     ind_post a x c (w_st w') ∧ mvrp_ok (w_st w') ∧ same_config (upper c) (upper (w_st w')) ∧
     ∀ i, mvrp_view (upper (w_st w')) i = if decide (i = vlan_attr r i.1.1) then has (registered_state r1) i.1.1 else mvrp_view (upper c) i)
    (World (c <| upper ::= vset v r1 |>) ck tr).
Proof.
  intros Hpl Htm Hi Hmv Hbr Ho He Hv Hr1 Hreg Hx Hp. pose proof (mv_map _ Hmv) as Hm. pose proof (mo_vlan _ Hm v r Hv) as Hr.
  pose proof Hreg as (O1 & O2 & O3 & O4 & O5).
  eapply wp_mono; [by apply (revise_spec v r r1)|]. intros [] w2 (r2 & S & Hok & Hk & _).
  split; [|split; [done|split; [by destruct (settled_config _ _ _ _ _ S); split|]]].
  - split; [apply S|done| |].
    + apply (se_keep _ _ _ _ _ S a x Hx). rewrite Hp, O1. intros Hd.
      change (map _) with (map (upper c)). rewrite (needed_only_reg _ _ _ _ _ Hr Hr1 Hreg). by apply He.
    + intros i. rewrite (se_registers _ _ _ _ _ S). done.
  - intros i. apply eq_bool_prop_intro. rewrite !Is_true_true, mvrp_view_true.
    rewrite (settled_says registered_state v r1 r2 (c <| upper ::= vset v r1 |>)); [|by left| | |done].
    + change (upper (c <| upper ::= vset v r1 |>)) with (vset v r1 (upper c)). rewrite (says_map_vset _ v r) by done.
      case_decide; [done|]. by rewrite mvrp_view_true.
    + by eapply vset_map_ok.
    + apply lookup_insert_eq.
Qed.
End update.
