(* ===== verification/MvrpEvents.v ===== *)
(** * MVRP: indications, packets, link changes and users

    MVRP discharges the contract of an MRP application ([mvrp_ind_laws]); every
    event of the protocol keeps its map, its MRP applications and the
    registrations that it has been told of consistent. *)

From S2P Require Import Prelude Timer MrpSm MrpPdu Mrp MrpTx MrpSpec MrpRequests MrpJoin MrpEvents Mvrp MvrpSpec.

(** ** Indications *)

Section indications.
Context `{!Platform mvrp_call, !MrpMemory}.
Implicit Types (w : world mvrp_call (Mrp.mrp_ctx mvrp_ctx)) (c : Mrp.mrp_ctx mvrp_ctx) (u : mvrp_ctx).

Lemma attr_vid c a x r :
  mrp_ok c → attrs c !! a = Some x → vlan_id r = vid_of (attr_val x) → ident x = vlan_attr r (attr_app x).
Proof.
  intros Hi Hx Hr. pose proof (mi_wf _ _ Hi a x Hx) as Hwf.
  destruct (vid_bytes_of (attr_val x)) as [E1 _]; [by rewrite (wf_val _ Hwf)|apply Hwf|].
  unfold ident, vlan_attr. rewrite Hr, E1. do 2 f_equal. pose proof (wf_type _ Hwf) as Ht. cbn in Ht.
  unfold MVRP_ATTR_TYPE_VID in *. lia.
Qed.
Lemma attr_vid_range c a x : mrp_ok c → attrs c !! a = Some x → 0 ≤ vid_of (attr_val x) < 65536.
Proof.
  intros Hi Hx. pose proof (mi_wf _ _ Hi a x Hx) as Hwf. apply vid_bytes_of; [by rewrite (wf_val _ Hwf)|apply Hwf].
Qed.

Lemma attr_port c a x :
  mrp_ok c → mv_ok c → attrs c !! a = Some x →
  (attr_app x < port_max (upper c))%nat ∧ is_Some (port (upper c) !! attr_app x).
Proof.
  intros Hi Hmv Hx. destruct (mi_in _ _ Hi a x Hx) as (_ & q & Hq & _).
  apply lookup_lt_Some in Hq. rewrite (mv_apps _ Hmv) in Hq. split; [done|].
  apply lookup_lt_is_Some_2. destruct (mo_ports _ (mv_map _ Hmv)). lia.
Qed.

(** The view of one VLAN. *)
Lemma mvrp_view_vlan u v r i :
  map_ok u → vlan_heap u !! v = Some r → i = vlan_attr r i.1.1 → mvrp_view u i = has (registered_state r) i.1.1.
Proof.
  intros Hm Hv Hi. pose proof (says_map_vset registered_state v r r u i Hm Hv eq_refl) as Hs.
  rewrite vset_id, decide_True in Hs by done. apply eq_bool_prop_intro. rewrite !Is_true_true, mvrp_view_true. exact Hs.
Qed.

(** The change of the registration of VLAN [v] on port [p], and its
    propagation. *)
Lemma registration_spec `{!MrpInd mvrp_call mvrp_ctx} (f : Z → Z) (d : bool) a x v r new w :
  platform_ok → timers_ok → mrp_ok (w_st w) → mv_ok (w_st w) → is_bridge (upper (w_st w)) = false → others_done v (w_st w) →
  (∀ j, has (declared_state r) j = true → needed (map (upper (w_st w))) r j = true) →
  vlan_heap (upper (w_st w)) !! v = Some r → attrs (w_st w) !! a = Some x → vlan_id r = vid_of (attr_val x) →
  (mask_ok (port_max (upper (w_st w))) (f (registered_state r)) ∧
   ∀ j, has (f (registered_state r)) j = if decide (j = attr_app x) then d else has (registered_state r) j) →
  wp (set_vlan v (λ r, r <| registered_state ::= f |>);; mvrp_map_update_vlan v new) (λ _ w',
     ind_post a x (w_st w) (w_st w') ∧ mvrp_ok (w_st w') ∧ same_config (upper (w_st w)) (upper (w_st w')) ∧
     ∀ i, mvrp_view (upper (w_st w')) i = if decide (i = ident x) then d else mvrp_view (upper (w_st w)) i) w.
Proof.
  intros Hpl Htm Hi Hmv Hbr He Hw Hv Hx Hid [Hm Hb]. pose proof (mv_map _ Hmv) as Hmap. pose proof (mo_vlan _ Hmap v r Hv) as Hr.
  set (r1 := r <| registered_state ::= f |>).
  assert (Hr1 : vlan_ok (port_max (upper (w_st w))) r1) by (destruct Hr; by split).
  assert (Ho : only_reg (attr_app x) r r1).
  { split_and!; try done. intros j Hj. cbn. rewrite Hb. by rewrite decide_False. }
  rewrite (attr_vid _ _ _ r Hi Hx Hid).
  apply wp_bind. apply wp_modify.
  assert (E : (w_st w) <| upper ::= λ m, m <| vlan_heap ::= alter (λ r, r <| registered_state ::= f |>) v |> |> = (w_st w) <| upper ::= vset v r1 |>).
  { unfold vset, over, over_field; cbn. by rewrite (alter_as_insert _ _ _ r). }
  rewrite E. eapply wp_mono; [by apply (indication_core (attr_app x) a x v r r1)|].
  intros [] w' (P & M & K & V). split_and!; try done. intros i. rewrite V. cbn [registered_state r1].
  case_decide as D.
  - change (registered_state r1) with (f (registered_state r)). rewrite Hb. destruct (decide (i.1.1 = attr_app x)) as [E1|E1].
    + rewrite decide_True; [done|]. by rewrite D, E1.
    + rewrite decide_False by (intros ->; done). symmetry. by apply (mvrp_view_vlan _ v).
  - rewrite decide_False; [done|]. intros ->. done.
Qed.

(** A state that differs by a new VLAN. *)
Lemma mvrp_ok_others v c : mvrp_ok c → others_done v c.
Proof. intros Hk v' r' _. apply (mk_done _ Hk). Qed.

(** What a join indication finds or creates. *)
Record joinable (id : Z) (v : nat) (r : mvrp_vlan) c c' : Prop := {
  jn_mrp : mrp_ok c';
  jn_mv : mv_ok c';
  jn_endpoint : is_bridge (upper c') = is_bridge (upper c);
  jn_others : mvrp_ok c → others_done v c' ∧ ∀ j, has (declared_state r) j = true → needed (map (upper c')) r j = true;
  jn_vlan : vlan_heap (upper c') !! v = Some r;
  jn_id : vlan_id r = id;
  jn_attrs : attrs c' = attrs c;
  jn_kept : kept c c';
  jn_view : ∀ i, mvrp_view (upper c') i = mvrp_view (upper c) i;
  jn_ports : port_max (upper c') = port_max (upper c) ∧ port (upper c') = port (upper c) ∧ 
    forwarding_state (map (upper c')) = forwarding_state (map (upper c));
  jn_old : vlan_heap (upper c) !! v = Some r ∧ c' = c ∨
           vlan_heap (upper c) !! v = None ∧ r = fresh_vlan (port_max (upper c)) id ∧ c' = c <| upper ::= vadd v r |>;
}.

Lemma joinable_found id v r c :
  mrp_ok c → mv_ok c → vlan_heap (upper c) !! v = Some r → vlan_id r = id → joinable id v r c c.
Proof.
  intros Hi Hmv Hv Hid. split; try done.
  - intros Hk. split; [by apply mvrp_ok_others|]. apply (mk_done _ Hk v r Hv).
  - by left.
Qed.
Lemma joinable_created id v c :
  let r := fresh_vlan (port_max (upper c)) id in
  mrp_ok (c <| upper ::= vadd v r |>) → mv_ok (c <| upper ::= vadd v r |>) → vlan_heap (upper c) !! v = None →
  joinable id v r c (c <| upper ::= vadd v r |>).
Proof.
  intros r Hi Hmv Hv. split; try done.
  - intros Hk. split.
    + intros v' r' Hne Hr'. cbn in Hr'. rewrite lookup_insert_ne in Hr' by done.
      eapply (vlan_done_ext c); [|done|by eapply (mk_done _ Hk)]. split; try done. intros p q Hq. by exists q.
    + intros j Hj. unfold has in Hj. cbn in Hj. by rewrite Z.bits_0 in Hj.
  - cbn. by rewrite lookup_insert_eq.
  - split; try done. intros p q Hq. by exists q.
  - intros i. apply mvrp_view_ext. apply says_map_vadd; [done|]. unfold has. cbn. apply Z.bits_0.
  - by right.
Qed.

Lemma create_joinable id w :
  mrp_ok (w_st w) → mv_ok (w_st w) → 0 ≤ id < 65536 →
  wp (mvrp_create_vlan id)
    (λ o w', frames (w_trace w') = frames (w_trace w) ∧ match o with
      | Some v => ∃ r, joinable id v r (w_st w) (w_st w')
      | None => w_st w' = w_st w ∧ (∀ v r, vlan_heap (upper (w_st w)) !! v = Some r → vlan_id r ≠ id) ∧
          (no_room (upper (w_st w)) id ∨ ∃ n s, answer n (VlanMalloc s) = 0)
      end) w.
Proof.
  intros Hi Hmv Hid. eapply wp_mono; [by apply create_vlan_spec|]. intros [v|] w2 (Hf & H2); (split; [done|]); [|done].
  destruct H2 as (r & Hr & Hvid & Hi2 & Hmv2 & Hcase). exists r. destruct Hcase as [E|(-> & Hnone & E)].
  - rewrite E in *. by apply joinable_found.
  - rewrite E in *. by apply joinable_created.
Qed.

Lemma joinable_config id v r c c' : joinable id v r c c' → same_config (upper c) (upper c').
Proof. intros J. destruct (jn_old _ _ _ _ _ J) as [(_ & ->)|(_ & _ & ->)]; done. Qed.
Lemma ind_post_joinable id v r a x c c1 c2 :
  joinable id v r c c1 → ind_post a x c1 c2 → ind_post a x c c2.
Proof.
  intros J [P1 P2 P3 P4]. split; [done|etrans; [apply J|done]|done|].
  intros i. rewrite P4. apply holds_same, J.
Qed.

(** A VLAN can be registered: it is known, or there is room for it. *)
Definition mvrp_admits (u : mvrp_ctx) (i : nat * nat * list Z) : Prop :=
  (∃ v r, vlan_heap u !! v = Some r ∧ i = vlan_attr r i.1.1) ∨
  (¬ no_room u (vid_of i.2) ∧ ∀ n s, answer n (VlanMalloc s) ≠ 0).

Lemma join_indication_spec `{!MrpInd mvrp_call mvrp_ctx} a x new w :
  platform_ok → timers_ok → mrp_ok (w_st w) → mvrp_ok (w_st w) → attrs (w_st w) !! a = Some x →
  wp (mvrp_join_indication (attr_app x) a new) (λ _ w',
    ind_post a x (w_st w) (w_st w') ∧ mvrp_ok (w_st w') ∧ same_config (upper (w_st w)) (upper (w_st w')) ∧
    (mvrp_admits (upper (w_st w)) (ident x) → mvrp_view (upper (w_st w')) (ident x) = true) ∧
    ∀ i, i ≠ ident x → mvrp_view (upper (w_st w')) i = mvrp_view (upper (w_st w)) i) w.
Proof.
  intros Hpl Htm Hi Hk Hx. pose proof (mk_mv _ Hk) as Hmv. pose proof (attr_vid_range _ _ _ Hi Hx) as Hrange.
  unfold mvrp_join_indication. apply wp_bind. eapply wp_get_attr; [done|].
  apply wp_bind. eapply wp_mono; [by apply find_vlan_spec, mv_map|]. intros o w1 (-> & Ho). apply wp_bind.
  assert (Hgo : ∀ v r w1, joinable (vid_of (attr_val x)) v r (w_st w) (w_st w1) →
    wp (let! q := get_port (attr_app x) in
        vlan_registered_set v (attr_app x);;
        mvrp_map_update_vlan v new;;
        let! m := mv_get in
        when (is_bridge m)
          (let! r := get_vlan v in
           let! _ := perform (VlanUpdate (ntohs (vlan_id r)) (logical_port q) GENAVB_VLAN_ADMIN_CONTROL_REGISTERED) in
           ret tt))
      (λ _ w', ind_post a x (w_st w) (w_st w') ∧ mvrp_ok (w_st w') ∧ same_config (upper (w_st w)) (upper (w_st w')) ∧
         mvrp_view (upper (w_st w')) (ident x) = true ∧ ∀ i, i ≠ ident x → mvrp_view (upper (w_st w')) i = mvrp_view (upper (w_st w)) i) w1).
  { intros v r w1 J. pose proof (jn_mv _ _ _ _ _ J) as Hmv1. pose proof (mv_map _ Hmv1) as Hm1.
    assert (Hx1 : attrs (w_st w1) !! a = Some x) by by rewrite (jn_attrs _ _ _ _ _ J).
    destruct (attr_port _ a x (jn_mrp _ _ _ _ _ J) Hmv1 Hx1) as [Hlt [q Hq]].
    apply wp_bind. unfold get_port. apply wp_bind, wp_gets, wp_deref. exists q. split; [done|].
    apply wp_bind_assoc. apply wp_bind.
    eapply wp_mono; [eapply (registration_spec (set_bit (attr_app x)) true a x v r new); try done; try apply J|].
    - rewrite (jn_endpoint _ _ _ _ _ J). apply Hk.
    - done.
    - done.
    - apply set_bit_spec; [apply (mo_ports _ Hm1)|done|apply (mo_vlan _ Hm1 v), J].
    - intros [] w2 (P & M & K & V). apply wp_bind, wp_gets. rewrite (mk_endpoint _ M). apply wp_ret. split; [by eapply ind_post_joinable|].
      split; [done|]. split; [etrans; [apply (joinable_config _ _ _ _ _ J)|done]|]. split; [by rewrite V, decide_True|]. intros i Hne. rewrite V, decide_False by done. apply J. }
  destruct o as [v|].
  - apply wp_ret. destruct Ho as (r & Hr & Hvid). eapply wp_mono; [apply (Hgo v r); by apply joinable_found|].
    intros [] w2 (? & ? & ? & ? & ?). done.
  - eapply wp_mono; [by apply create_joinable|]. intros [v|] w2 (_ & H2).
    + destruct H2 as (r & J). eapply wp_mono; [by apply (Hgo v r)|]. intros [] w3 (? & ? & ? & ? & ?). done.
    + destruct H2 as (E & Hno & Hwhy). apply wp_ret. rewrite E. split; [split; [done..| |done]; by exists x|].
      split; [done|]. split; [done|]. split; [|done]. intros [(v & r & Hr & Hid)|[Hroom Hmem]].
      * exfalso. apply (Hno v r Hr). apply (f_equal snd) in Hid. cbn [vlan_attr snd ident] in Hid. by rewrite Hid, vid_of_bytes.
      * cbn [snd ident] in Hroom. destruct Hwhy as [?|(n & s & Hz)]; [done|]. by destruct (Hmem n s).
Qed.

Lemma leave_indication_spec `{!MrpInd mvrp_call mvrp_ctx} a x w :
  platform_ok → timers_ok → mrp_ok (w_st w) → mvrp_ok (w_st w) → attrs (w_st w) !! a = Some x →
  wp (mvrp_leave_indication (attr_app x) a) (λ _ w',
    ind_post a x (w_st w) (w_st w') ∧ mvrp_ok (w_st w') ∧ same_config (upper (w_st w)) (upper (w_st w')) ∧
    ∀ i, mvrp_view (upper (w_st w')) i = if decide (i = ident x) then false else mvrp_view (upper (w_st w)) i) w.
Proof.
  intros Hpl Htm Hi Hk Hx. pose proof (mk_mv _ Hk) as Hmv. pose proof (mv_map _ Hmv) as Hm.
  unfold mvrp_leave_indication. apply wp_bind. eapply wp_get_attr; [done|].
  apply wp_bind. eapply wp_mono; [by apply find_vlan_spec|]. intros o w1 (-> & Ho). destruct o as [v|].
  - destruct Ho as (r & Hr & Hvid). destruct (attr_port _ a x Hi Hmv Hx) as [Hlt [q Hq]].
    apply wp_bind. unfold get_port. apply wp_bind, wp_gets, wp_deref. exists q. split; [done|].
    apply wp_bind_assoc. apply wp_bind.
    eapply wp_mono; [eapply (registration_spec (clear_bit (attr_app x)) false a x v r false); try done; try apply Hk|].
    + by apply mvrp_ok_others.
    + by apply (mk_done _ Hk v r).
    + apply clear_bit_spec; [apply (mo_ports _ Hm)|apply (mo_vlan _ Hm v), Hr].
    + intros [] w2 (P & M & K & V). apply wp_bind, wp_gets. rewrite (mk_endpoint _ M). apply wp_ret. done.
  - apply wp_ret. split; [split; [done..| |done]; by exists x|]. split; [done|]. split; [done|]. intros i. case_decide as D; [|done].
    apply mvrp_view_false. intros (v & r & Hr & Hi2 & _). apply (Ho v r Hr). subst i.
    apply (f_equal snd) in Hi2. cbn [vlan_attr snd ident] in Hi2. by rewrite Hi2, vid_of_bytes.
Qed.

Lemma mvrp_ok_silent c c' :
  mvrp_ok c → kept c c' → counters_only (upper c) (upper c') → (∀ i, declares c' i ↔ declares c i) → mvrp_ok c'.
Proof.
  intros [Hb [Hm Ha Hd Hus] Ho] Hk Hu HD. split.
  - by rewrite (co_bridge _ _ Hu).
  - split; [by eapply map_ok_counters|by rewrite (kept_length _ _ Hk), (co_port_max _ _ Hu)| |].
    2:{ intros p Hp. eapply used_counters; [exact Hu|]. by eapply Hus, app_enabled_back. }
    intros i. by rewrite HD, (says_map_counters _ _ _ _ Hu).
  - intros v r. rewrite (co_heap _ _ Hu). intros Hr. eapply vlan_done_ext; [done|by rewrite (co_map _ _ Hu)|by eapply Ho].
Qed.

Lemma mvrp_ok_rx c data : mvrp_ok c → mvrp_ok (c <| rx_data := data |>).
Proof. intros [Hb [Hm Ha Hd Hus] Ho]. split; [done|done|]. intros v r Hr. by destruct (Ho v r Hr). Qed.

Lemma admits_counters u u' i : counters_only u u' → mvrp_admits u i → mvrp_admits u' i.
Proof.
  intros Hu. unfold mvrp_admits, no_room. by rewrite (co_heap _ _ Hu), (co_map _ _ Hu).
Qed.
End indications.

(** ** MVRP as a protocol over MRP *)

Section protocol.
Context `{!Platform mvrp_call, !MrpMemory} (Hpl : platform_ok) (Htm : timers_ok).
Implicit Types (w : world mvrp_call (Mrp.mrp_ctx mvrp_ctx)) (c : Mrp.mrp_ctx mvrp_ctx) (u : mvrp_ctx).

#[local] Instance mvrp_ind_laws : MrpIndLaws.
Proof.
  refine {|
    view := mvrp_view;
    up_ok := mvrp_ok;
    admits := mvrp_admits;
    steady := same_config;
  |}.
  - intros u u' i Hu. apply mvrp_view_ext. by apply says_map_counters.
  - intros u u' i. apply admits_counters.
  - apply counters_config.
  - apply mvrp_ok_silent.
  - intros a x new w Hi Hk Hx. by apply join_indication_spec.
  - intros a x w Hi Hk Hx. by apply leave_indication_spec.
Defined.

(** ** Vectors *)

Lemma u16_bytes_byte z : 0 ≤ z < 65536 → Forall is_byte (u16_bytes z).
Proof. intros Hz. by apply vid_bytes_bytes. Qed.

Lemma good_runs_rx c data :
  good c → length data = length (rx_data c) → (Forall is_byte (rx_data c) → Forall is_byte data) →
  runs c (c <| rx_data := data |>).
Proof.
  intros Hg Hl Hb. split.
  - apply good_rx; [done|]. apply mvrp_ok_rx, Hg.
  - split; try done. intros p q Hq. by exists q.
Qed.

Lemma rx_write_spec o l w :
  good (w_st w) → Forall is_byte l → 0 ≤ o → o + len l ≤ len (rx_data (w_st w)) →
  wp (rx_write o l) (λ _ w', runs (w_st w) (w_st w')) w.
Proof.
  intros Hg Hl Ho Hlen. unfold rx_write. apply wp_bind, wp_gets. rewrite decide_True by done. apply wp_modify.
  assert (E : ∀ c (f : list Z → list Z), c <| rx_data ::= f |> = c <| rx_data := f (rx_data c) |>) by done.
  cbn [w_st]. rewrite E. apply good_runs_rx; [done| |].
  - rewrite !length_app, length_take, length_drop. lia.
  - intros Hb. apply list.Forall_app. split; [by apply list.Forall_take|]. apply list.Forall_app. split; [done|].
    by apply list.Forall_drop.
Qed.

Lemma increment_spec fv w :
  good (w_st w) → Forall is_byte (rx_data (w_st w)) → 0 ≤ fv → fv + 2 ≤ len (rx_data (w_st w)) →
  wp (mvrp_increment fv) (λ _ w', runs (w_st w) (w_st w')) w.
Proof.
  intros Hg Hb H0 H2. unfold mvrp_increment. apply wp_bind, wp_peek16; [done|lia|lia|]. intros vid Hvid.
  apply rx_write_spec; [done| |done|by rewrite length_u16_bytes].
  apply u16_bytes_byte, htons_range. apply u16_range.
Qed.

Lemma wp_peek_list o n (Q : list Z → world mvrp_call (Mrp.mrp_ctx mvrp_ctx) → Prop) w :
  0 ≤ o → o + Z.of_nat n ≤ len (rx_data (w_st w)) → Q (take n (drop (Z.to_nat o) (rx_data (w_st w)))) w →
  wp (peek_list o n) Q w.
Proof. intros H0 Hn HQ. unfold peek_list. apply wp_bind, wp_gets. rewrite decide_True by done. by apply wp_ret. Qed.

Lemma vector_values_spec n p q fv packed i event w :
  good (w_st w) → apps (w_st w) !! p = Some q → enabled q = true → Forall is_byte (rx_data (w_st w)) →
  0 ≤ i → 0 ≤ fv → fv + 2 ≤ len (rx_data (w_st w)) → 0 ≤ packed →
  packed + (i + Z.of_nat n + 2) / 3 - (i + 2) / 3 ≤ len (rx_data (w_st w)) →
  (i mod 3 ≠ 0 → length event = 3%nat) →
  wp (mvrp_vector_values n p fv packed i event) (λ _ w', runs (w_st w) (w_st w')) w.
Proof.
  revert packed i event w q. induction n as [|n IH]; intros packed i event w q Hg Hq Hen Hby Hi Hfv Hfv2 Hp Hlen Hev.
  { apply wp_ret. by apply runs_refl. }
  cbn [mvrp_vector_values]. apply wp_bind.
  set (Q := λ (r : list Z * Z) w', w' = w ∧ length r.1 = 3%nat ∧ r.2 = if i mod 3 =? 0 then packed + 1 else packed).
  assert (HQ : wp (if i mod 3 =? 0 then let! b := peek packed in ret (mrp_get_three_packed_event b, packed + 1) else ret (event, packed)) Q w).
  { destruct (i mod 3 =? 0) eqn:E; unfold Q; cbv beta.
    - apply wp_bind, wp_peek; [done| |].
      + apply Z.eqb_eq in E. split; [done|]. assert ((i + 2) / 3 < (i + Z.of_nat (S n) + 2) / 3); [|lia].
        Z.div_mod_to_equations. lia.
      + intros b Hb. by apply wp_ret.
    - apply wp_ret. apply Z.eqb_neq in E. auto. }
  eapply wp_mono; [exact HQ|]. intros [ev pk] w1 (-> & Hl & Hpk). cbn [fst snd] in *.
  destruct (lookup_lt_is_Some_2 ev (Z.to_nat (i mod 3))) as [e He].
  { rewrite Hl. pose proof (Z.mod_pos_bound i 3). lia. }
  apply wp_bind, wp_deref. exists e. split; [done|].
  apply wp_bind, wp_peek_list; [done|done|]. apply wp_bind.
  set (val := take 2 _). assert (Hval : val_ok MVRP_ATTR_TYPE_VID val).
  { unfold val. split; [rewrite length_take, length_drop; change (attribute_value_length MVRP_ATTR_TYPE_VID) with 2%nat; lia|].
    by apply list.Forall_take, list.Forall_drop. }
  eapply wp_mono; [eapply process_attribute_spec; try done|]. intros rc w2 (Hr2 & _).
  destruct (runs_rx _ _ Hr2) as [Hl2 Hb2]. destruct (runs_app _ _ _ _ Hr2 Hq Hen) as (q2 & Hq2 & Hen2).
  apply wp_bind. eapply wp_mono; [apply increment_spec; [apply Hr2|by apply Hb2|done|lia]|]. intros [] w3 Hr3.
  pose proof (runs_trans _ _ _ Hr2 Hr3) as Hr.
  destruct (runs_rx _ _ Hr) as [Hl3 Hb3]. destruct (runs_app _ _ _ _ Hr Hq Hen) as (q3 & Hq3 & Hen3).
  eapply wp_mono; [eapply (IH pk (i + 1) ev w3 q3); try done|].
  - apply Hr.
  - by apply Hb3.
  - lia.
  - lia.
  - rewrite Hpk. destruct (i mod 3 =? 0); lia.
  - rewrite Hl3. replace (i + 1 + Z.of_nat n + 2) with (i + Z.of_nat (S n) + 2) by lia. rewrite Hpk.
    destruct (i mod 3 =? 0) eqn:E; [apply Z.eqb_eq in E|apply Z.eqb_neq in E].
    + assert ((i + 1 + 2) / 3 = (i + 2) / 3 + 1) by (Z.div_mod_to_equations; lia). lia.
    + assert ((i + 1 + 2) / 3 = (i + 2) / 3) by (Z.div_mod_to_equations; lia). lia.
  - intros [] w4 Hr4. by eapply runs_trans.
Qed.

Lemma mvrp_handler_ok : handler_ok mvrp_vector_handler.
Proof.
  intros p q atype alen o n w Hg Hq Hen Hby Hck Hal Ho Hn Hlen. unfold mvrp_vector_handler.
  assert (Hl2 : alen = 2).
  { cbn in Hck. unfold mvrp_attribute_check in Hck. destruct (negb (atype =? _)); [done|].
    destruct (alen =? MVRP_ATTR_LEN) eqn:E; [|done]. by apply Z.eqb_eq in E. }
  cbn in Hlen. unfold mvrp_event_length in Hlen. subst alen.
  assert (0 ≤ (n + 2) / 3) by (apply Z.div_pos; lia).
  eapply vector_values_spec; try done; unfold MVRP_ATTR_LEN; try lia.
  rewrite Z2Nat.id by done. change ((0 + 2) / 3) with 0. replace (0 + n + 2) with (n + 2) by lia. lia.
Qed.

(** ** The map brought up to date *)

(** What an update of the map leaves alone. *)
Record static_only u u' : Prop := {
  so_config : same_config u u';
  so_says : ∀ mask i, stable_mask mask → says_map mask u' i ↔ says_map mask u i;
}.
#[local] Instance static_only_preorder : PreOrder static_only.
Proof.
  split; [by split|]. intros a b d [K1 S1] [K2 S2]. split; [by etrans|]. intros mask i Hm. by rewrite S2, S1.
Qed.
Lemma settled_static v r r' c c' :
  map_ok (upper c) → vlan_heap (upper c) !! v = Some r → settled v r r' c c' → static_only (upper c) (upper c').
Proof. intros Hm Hv S. split; [by eapply settled_config|]. intros mask i Hmask. by eapply settled_says. Qed.

(** The VLANs of [l] are still as they were in [c0]. *)
Record sweeping (l : list nat) c0 c : Prop := {
  sv_mrp : mrp_ok c;
  sv_mv : mv_ok c;
  sv_kept : kept c0 c;
  sv_registers : ∀ i, registers c i ↔ registers c0 i;
  sv_static : static_only (upper c0) (upper c);
  sv_done : ∀ v r, v ∉ l → vlan_heap (upper c) !! v = Some r → vlan_done c r;
}.

Lemma map_update_spec w :
  mrp_ok (w_st w) → mv_ok (w_st w) → is_bridge (upper (w_st w)) = false →
  wp mvrp_map_update (λ _ w', mrp_ok (w_st w') ∧ mvrp_ok (w_st w') ∧ kept (w_st w) (w_st w') ∧
    (∀ i, registers (w_st w') i ↔ registers (w_st w) i) ∧ static_only (upper (w_st w)) (upper (w_st w')) ∧
    frames (w_trace w') = frames (w_trace w)) w.
Proof.
  intros Hi Hmv Hb. pose proof (mv_map _ Hmv) as Hm. unfold mvrp_map_update.
  eapply wp_mono; [apply (wp_list_each map_vlans (λ l w', sweeping l (w_st w) (w_st w') ∧ frames (w_trace w') = frames (w_trace w)))|].
  - intros pre v l w1 Hnd Hl [[I1 I2 I3 I4 I5 I6] Hf]. pose proof (mv_map _ I2) as Hm1.
    destruct (proj1 (mo_heap _ Hm1 v)) as [r Hr]; [unfold map_vlans in Hl; rewrite Hl; set_solver|].
    eapply wp_mono; [by eapply update_vlan_spec|]. intros [] w2 (Hf2 & r2 & S).
    pose proof (se_upper _ _ _ _ _ S) as Hu. split.
    + unfold map_vlans in *. rewrite (co_map _ _ Hu). destruct (used r); cbn.
      * exists (pre ++ [v]). rewrite Hl, <- app_assoc. done.
      * exists pre. pose proof Hnd as (N1 & N2 & N3)%list.NoDup_app. apply list.NoDup_cons in N3 as [N3 N4].
        rewrite Hl, list_remove_mid; [|intros Hin; by apply (N2 v Hin); left|done].
        split; [done|]. apply list.NoDup_app. split; [done|]. split; [|done]. intros y Hy Hy2. apply (N2 y Hy). by right.
    + split; [|by rewrite Hf2]. pose proof (settled_static _ _ _ _ _ Hm1 Hr S) as Hs. split.
      * apply S.
      * apply S.
      * etrans; [done|apply S].
      * intros i. by rewrite (se_registers _ _ _ _ _ S), I4.
      * by etrans.
      * intros v' r' Hv' Hr'. destruct (settled_heap _ _ _ _ _ _ _ S Hr') as [(-> & -> & Hus)|(Hne & Hr0)].
        -- by eapply settled_done.
        -- eapply vlan_done_ext; [apply S|apply Hs|]. apply (I6 v'); [|done]. set_solver.
  - apply Hm.
  - split; [|done]. split; try done. intros v r Hv Hr. exfalso. apply Hv. apply (mo_heap _ Hm). eauto.
  - intros [] w' [[I1 I2 I3 I4 I5 I6] Hf]. split_and!; try done. split; [|done|].
    + by rewrite (sc_bridge _ _ (so_config _ _ I5)).
    + intros v r. apply I6. set_solver.
Qed.

(** What the map does to the registrations of others: nothing. *)
Lemma good_static c c' :
  (∀ i, mvrp_view (upper c) i = true → registers c i) → mrp_ok c' → mvrp_ok c' →
  (∀ i, registers c' i ↔ registers c i) → (∀ i, says_map registered_state (upper c') i ↔ says_map registered_state (upper c) i) →
  good c'.
Proof.
  intros Hv Hi Hk HR Hs. split; [done|done|]. intros i Hvi. apply HR, Hv.
  by rewrite mvrp_view_true, <- Hs, <- mvrp_view_true.
Qed.

(** ** Ports *)

(** The first port with the logical number, if it is in use. *)
Definition port_lookup u (l : Z) : option nat :=
  match find (λ i, match port u !! i with Some q => l =? logical_port q | None => false end) (seq 0 (port_max u)) with
  | Some i => match port u !! i with Some q => if initialized q then Some i else None | None => None end
  | None => None
  end.

Lemma port_lookup_lt u l p : port_lookup u l = Some p → (p < port_max u)%nat.
Proof.
  unfold port_lookup. destruct (find _ _) as [i|] eqn:Ef; [|done]. apply find_some in Ef as [Hin _].
  apply in_seq in Hin. repeat case_match; intros [= <-]; lia.
Qed.

Lemma mvrp_logical_port_spec l w :
  map_ok (upper (w_st w)) →
  wp (logical_to_mvrp_port l) (λ o w', o = port_lookup (upper (w_st w)) l ∧ w' = w) w.
Proof.
  intros Hm. destruct (mo_ports _ Hm) as [_ Hlen].
  assert (Hp : ∀ i, (i < port_max (upper (w_st w)))%nat → is_Some (port (upper (w_st w)) !! i)) by (intros i Hi; apply lookup_lt_is_Some_2; lia).
  unfold logical_to_mvrp_port. apply wp_bind, wp_gets, wp_bind.
  apply (wp_list_search (λ i, match port (upper (w_st w)) !! i with Some q => l =? logical_port q | None => false end)).
  - intros i Hi. apply elem_of_seq in Hi. destruct (Hp i) as [q Hq]; [lia|].
    unfold get_port, bind, mv_get, gets. by rewrite Hq.
  - unfold port_lookup. destruct (find _ _) as [i|] eqn:Ef; [|by apply wp_ret].
    apply find_some in Ef as [Hin _]. apply in_seq in Hin. destruct (Hp i) as [q Hq]; [lia|].
    apply wp_bind. unfold get_port. apply wp_bind, wp_gets, wp_deref. exists q. split; [done|]. rewrite Hq. by apply wp_ret.
Qed.

(** ** Link status *)

Definition set_mask (b : bool) (p : nat) (z : Z) : Z := if b then set_bit p z else clear_bit p z.
Lemma set_mask_spec n b z p :
  (n ≤ 16)%nat → (p < n)%nat → mask_ok n z →
  mask_ok n (set_mask b p z) ∧ ∀ j, has (set_mask b p z) j = if decide (j = p) then b else has z j.
Proof. intros. destruct b; [by apply set_bit_spec|by apply clear_bit_spec]. Qed.

(** A port goes up or down. *)
Record link_changed (p : nat) (b : bool) c c' : Prop := {
  lc_good : good c';
  lc_kept : kept c c';
  lc_forwarding : ∀ j, has (forwarding_state (map (upper c'))) j = if decide (j = p) then b else has (forwarding_state (map (upper c))) j;
  lc_operational : operational_state (upper c') = set_mask b p (operational_state (upper c));
  lc_registers : ∀ i, registers c' i ↔ registers c i;
  lc_says : ∀ mask i, stable_mask mask → says_map mask (upper c') i ↔ says_map mask (upper c) i;
}.

Lemma port_status_spec l b w :
  good (w_st w) →
  wp (mvrp_port_status l b) (λ _ w', frames (w_trace w') = frames (w_trace w) ∧
    match port_lookup (upper (w_st w)) l with
    | Some p => link_changed p b (w_st w) (w_st w')
    | None => w_st w' = w_st w
    end) w.
Proof.
  intros Hg. pose proof (mk_mv _ (good_up _ Hg)) as Hmv. pose proof (mv_map _ Hmv) as Hm.
  unfold mvrp_port_status. apply wp_bind. eapply wp_mono; [by apply mvrp_logical_port_spec|]. intros o w1 (-> & ->).
  destruct (port_lookup _ _) as [p|] eqn:Ep; [|by apply wp_ret]. apply port_lookup_lt in Ep.
  apply wp_bind, wp_modify. unfold mvrp_update_forwarding_state. apply wp_bind, wp_modify.
  match goal with |- wp _ _ ?w1 => set (c1 := w_st w1) end. destruct (mo_ports _ Hm) as [H16 Hlen].
  destruct (set_mask_spec _ b (forwarding_state (map (upper (w_st w)))) p H16 Ep (mo_fwd _ Hm)) as [Fm Fb].
  assert (Hf1 : forwarding_state (map (upper c1)) = set_mask b p (forwarding_state (map (upper (w_st w))))) by by destruct b.
  assert (Hi1 : mrp_ok c1) by (apply mrp_ok_upper; [apply mrp_ok_upper; [apply good_mrp, Hg|done]|done]).
  assert (Hmv1 : mv_ok c1).
  { split.
    - destruct Hm as [M1 M2 M3 M4 M5 M6 M7]. split; try done. by rewrite Hf1.
    - apply Hmv.
    - intros i. rewrite (holds_same _ (w_st w)) by done. apply Hmv.
    - apply Hmv. }
  eapply wp_mono; [apply map_update_spec; [done|done|apply (good_up _ Hg)]|].
  intros [] w2 (Hi2 & Hk2 & K2 & HR2 & Hs2 & Hf2). split; [done|].
  assert (K1 : kept (w_st w) c1) by (split; try done; intros r q Hq; by exists q).
  split.
  - eapply (good_static (w_st w)); [apply Hg|done|done|done|]. intros i. apply (so_says _ _ Hs2 registered_state). by left.
  - by etrans.
  - intros j. rewrite (eq_trans (sc_forwarding _ _ (so_config _ _ Hs2)) Hf1). apply Fb.
  - rewrite (sc_operational _ _ (so_config _ _ Hs2)). by destruct b.
  - done.
  - intros mask i Hmask. by apply (so_says _ _ Hs2).
Qed.

(** ** Users *)

(** [n] users of port [p] have declared VLAN [id]. *)
Definition ref_is u (id : Z) (p : nat) (n : Z) : Prop :=
  (∃ v r, vlan_heap u !! v = Some r ∧ vlan_id r = id ∧ ref_count r !! p = Some n) ∨
  ((∀ v r, vlan_heap u !! v = Some r → vlan_id r ≠ id) ∧ n = 0).

Lemma ref_is_at u v r p n :
  map_ok u → vlan_heap u !! v = Some r → ref_is u (vlan_id r) p n ↔ ref_count r !! p = Some n.
Proof.
  intros Hm Hv. split; [|by left; exists v, r]. intros [(v1 & r1 & H1 & H2 & H3)|[Hno _]]; [|by destruct (Hno v r Hv)].
  assert (v1 = v) as -> by by eapply (mo_unique _ Hm). congruence.
Qed.

Lemma ref_is_vset v r r' u id p n :
  map_ok u → vlan_heap u !! v = Some r → vlan_id r' = vlan_id r →
  ref_is (vset v r' u) id p n ↔ if decide (id = vlan_id r) then ref_count r' !! p = Some n else ref_is u id p n.
Proof.
  intros Hm Hv Hid. case_decide as D.
  - subst id. split.
    + intros [(v1 & r1 & H1 & H2 & H3)|[Hno _]].
      * cbn in H1. apply lookup_insert_Some in H1 as [[<- <-]|[Hne H1]]; [done|]. destruct Hne. by eapply (mo_unique _ Hm).
      * destruct (Hno v r'); [apply lookup_insert_eq|done].
    + intros H3. left. exists v, r'. split; [apply lookup_insert_eq|done].
  - unfold ref_is. cbn. split; (intros [(v1 & r1 & H1 & H2 & H3)|[Hno Hn]]; [left|right]).
    + apply lookup_insert_Some in H1 as [[<- <-]|[Hne H1]]; [congruence|]. by exists v1, r1.
    + split; [|done]. intros v1 r1 H1. destruct (decide (v1 = v)) as [->|Hne]; [congruence|].
      apply (Hno v1). by rewrite lookup_insert_ne.
    + exists v1, r1. split; [|done]. rewrite lookup_insert_ne; [done|]. congruence.
    + split; [|done]. intros v1 r1 [[<- <-]|[Hne H1]]%lookup_insert_Some; [congruence|]. by eapply Hno.
Qed.

Lemma ref_is_counters u u' id p n : counters_only u u' → ref_is u' id p n ↔ ref_is u id p n.
Proof. intros Hu. unfold ref_is. by rewrite (co_heap _ _ Hu). Qed.

Lemma settled_refs v r r' c c' id p n :
  map_ok (upper c) → vlan_heap (upper c) !! v = Some r → settled v r r' c c' → (p < port_max (upper c))%nat →
  ref_is (upper c') id p n ↔ ref_is (upper c) id p n.
Proof.
  intros Hm Hv S Hp. destruct (se_vlan _ _ _ _ _ S) as (S1 & S2 & S3 & S4).
  rewrite (ref_is_counters _ _ _ _ _ (se_upper _ _ _ _ _ S)). pose proof (mo_vlan _ Hm v r Hv) as Hr.
  destruct (used r) eqn:Eu.
  - rewrite (ref_is_vset v r) by done. rewrite S4. case_decide as D; [|done]. subst id. by rewrite (ref_is_at _ v r).
  - assert (Hz : ∀ j, has (user_declared r) j = false).
    { intros j. apply orb_false_iff in Eu as [_ E2]. unfold is_vlan_user_declared_any in E2. apply truth_zero in E2.
      unfold has. rewrite E2. apply Z.bits_0. }
    destruct (lookup_lt_is_Some_2 (ref_count r) p) as [k Hk]; [by rewrite (vo_len _ _ Hr)|].
    assert (k = 0) as ->.
    { destruct (Z.eq_dec k 0) as [|Hne]; [done|]. destruct (vo_ref _ _ Hr p k Hk) as [_ Hu]. specialize (Hu Hne). by rewrite Hz in Hu. }
    unfold ref_is. cbn. split; intros [(v1 & r1 & H1 & H2 & H3)|[Hno Hn]].
    + apply lookup_delete_Some in H1 as [_ H1]. left. by exists v1, r1.
    + subst n. destruct (decide (id = vlan_id r)) as [->|Hne].
      * left. by exists v, r.
      * right. split; [|done]. intros v1 r1 H1. destruct (decide (v1 = v)) as [->|Hne1]; [congruence|].
        apply (Hno v1). by rewrite lookup_delete_ne.
    + destruct (decide (v1 = v)) as [->|Hne].
      * right. assert (r1 = r) as -> by congruence. split; [|congruence]. intros v2 r2 [Hne2 H4]%lookup_delete_Some E.
        apply Hne2. eapply (mo_unique _ Hm); [done|done|congruence].
      * left. exists v1, r1. by rewrite lookup_delete_ne.
    + right. split; [|done]. intros v1 r1 [_ H1]%lookup_delete_Some. by eapply Hno.
Qed.

(** A VLAN of [r]'s kind with other users. *)
Lemma vlan_ok_user n r b p :
  vlan_ok n r → (n ≤ 16)%nat → (p < n)%nat → (b = false → ref_count r !! p = Some 0) →
  vlan_ok n (r <| user_declared ::= set_mask b p |>).
Proof.
  intros [H1 H2 H3 H4 H5 H6] Hn Hp Hb. destruct (set_mask_spec n b (user_declared r) p Hn Hp H3) as [Sm Sb].
  split; try done. intros j k Hj. cbn in Hj. destruct (H6 j k Hj) as [K1 K2]. split; [done|]. intros Hk.
  change (has (set_mask b p (user_declared r)) j = true). rewrite Sb. case_decide as D; [|by apply K2].
  destruct b; [done|]. subst j. rewrite (Hb eq_refl) in Hj. congruence.
Qed.

(** The attribute of a VLAN identifier. *)
Definition id_attr (id : Z) (p : nat) : nat * nat * list Z := (p, MVRP_ATTR_TYPE_VID, vid_bytes id).

(** Nothing changes but the users of VLAN [id] on port [p]. *)
Record same_but (id : Z) (p : nat) c c' : Prop := {
  sb_kept : kept c c';
  sb_registers : ∀ i, registers c' i ↔ registers c i;
  sb_static : port_max (upper c') = port_max (upper c) ∧ operational_state (upper c') = operational_state (upper c) ∧
              forwarding_state (map (upper c')) = forwarding_state (map (upper c));
  sb_says : ∀ i, says_map registered_state (upper c') i ↔ says_map registered_state (upper c) i;
  sb_users : ∀ i, i ≠ id_attr id p → says_map user_declared (upper c') i ↔ says_map user_declared (upper c) i;
  sb_refs : ∀ id' p' n, (p' < port_max (upper c))%nat → ¬ (id' = id ∧ p' = p) →
     ref_is (upper c') id' p' n ↔ ref_is (upper c) id' p' n;
}.
#[local] Instance same_but_preorder id p : PreOrder (same_but id p).
Proof.
  split; [by split|]. intros a b d [K1 R1 (P1 & O1 & F1) S1 U1 N1] [K2 R2 (P2 & O2 & F2) S2 U2 N2].
  split; [by etrans| |split_and!; congruence| | |].
  - intros i. by rewrite R2.
  - intros i. by rewrite S2.
  - intros i Hi. by rewrite U2, U1.
  - intros id' p' n Hp Hne. rewrite N2, N1; [done|done|done|by rewrite P1|done].
Qed.

Lemma ref_is_vadd v id0 u id p n :
  vlan_heap u !! v = None → (∀ v' r, vlan_heap u !! v' = Some r → vlan_id r ≠ id0) → (p < port_max u)%nat →
  ref_is (vadd v (fresh_vlan (port_max u) id0) u) id p n ↔ ref_is u id p n.
Proof.
  intros Hv Hno Hp. unfold ref_is. cbn. split; intros [(v1 & r1 & H1 & H2 & H3)|[Hn Hz]].
  - apply lookup_insert_Some in H1 as [[<- <-]|[_ H1]]; [|left; by exists v1, r1].
    right. cbn in H2, H3. subst id. split; [done|]. by apply lookup_replicate in H3 as [-> _].
  - right. split; [|done]. intros v1 r1 H1. apply (Hn v1). rewrite lookup_insert_ne; [done|]. congruence.
  - left. exists v1, r1. rewrite lookup_insert_ne; [done|]. congruence.
  - subst n. destruct (decide (id = id0)) as [->|Hne].
    + left. exists v. eexists. rewrite lookup_insert_eq. split; [done|]. split; [done|]. cbn. by apply lookup_replicate_2.
    + right. split; [|done]. intros v1 r1 [[<- <-]|[_ H1]]%lookup_insert_Some; [cbn; congruence|]. by eapply Hn.
Qed.

Lemma same_but_joinable id id0 p v r c c' : map_ok (upper c) → joinable id0 v r c c' → same_but id p c c'.
Proof.
  intros Hm J. destruct (jn_old _ _ _ _ _ J) as [(Hr & ->)|(Hnone & -> & ->)]; [done|].
  set (r := fresh_vlan _ id0).
  split.
  - apply J.
  - intros i. apply holds_same, J.
  - done.
  - intros i. apply says_map_vadd; [done|]. apply Z.bits_0.
  - intros i _. apply (says_map_vadd user_declared); [done|]. apply Z.bits_0.
  - intros id' p' n Hp _. apply ref_is_vadd; [done| |done]. intros v' r' Hr' Hid'.
    assert (v' = v) as ->; [|congruence].
    apply (mo_unique _ (mv_map _ (jn_mv _ _ _ _ _ J)) v' v r' r); [|by apply lookup_insert_eq|done].
    cbn. rewrite lookup_insert_ne; [done|]. congruence.
Qed.

Lemma same_but_vset v r r' p c :
  map_ok (upper c) → vlan_heap (upper c) !! v = Some r → vlan_id r' = vlan_id r → registered_state r' = registered_state r →
  (∀ j, j ≠ p → has (user_declared r') j = has (user_declared r) j) →
  (∀ j, j ≠ p → ref_count r' !! j = ref_count r !! j) →
  same_but (vlan_id r) p c (c <| upper ::= vset v r' |>).
Proof.
  intros Hm Hv Hid Hreg Hu Hn. set (c' := _ <| upper ::= _ |>).
  assert (Eu : upper c' = vset v r' (upper c)) by done. split; rewrite ?Eu.
  - split; try done. intros q a Hq. by exists a.
  - intros i. by apply holds_same.
  - done.
  - intros i. rewrite (says_map_vset _ v r) by done. rewrite Hreg, <- (says_map_vset registered_state v r r) by done.
    by rewrite vset_id.
  - intros i Hne. rewrite (says_map_vset _ v r) by done. case_decide as D; [|done].
    assert (i.1.1 ≠ p) by (intros <-; done). rewrite Hu by done.
    transitivity (says_map user_declared (vset v r (upper c)) i); [|by rewrite vset_id].
    rewrite (says_map_vset _ v r) by done. by rewrite decide_True.
  - intros id' p' n Hp Hne. rewrite (ref_is_vset v r) by done. case_decide as D; [|done]. subst id'.
    rewrite Hn by naive_solver. by rewrite (ref_is_at _ v r).
Qed.

Lemma same_but_settled id p v r r' c c' :
  map_ok (upper c) → vlan_heap (upper c) !! v = Some r → settled v r r' c c' → same_but id p c c'.
Proof.
  intros Hm Hv S. pose proof (settled_static _ _ _ _ _ Hm Hv S) as Hs. split.
  - apply S.
  - apply S.
  - split_and!; apply Hs.
  - intros i. apply (so_says _ _ Hs). by left.
  - intros i _. apply (so_says _ _ Hs). by right.
  - intros id' p' n Hp _. by eapply settled_refs.
Qed.

(** Other users of a VLAN: the number alone. *)
Lemma set_ref_spec v r p f w :
  mrp_ok (w_st w) → mvrp_ok (w_st w) → vlan_heap (upper (w_st w)) !! v = Some r → 
  (∀ k, ref_count r !! p = Some k → 0 ≤ f k < 2 ^ 32 ∧ (f k ≠ 0 → has (user_declared r) p = true)) →
  wp (set_ref v p f) (λ _ w', let r' := r <| ref_count ::= alter f p |> in
     frames (w_trace w') = frames (w_trace w) ∧ w_st w' = (w_st w) <| upper ::= vset v r' |> ∧
     mrp_ok (w_st w') ∧ mvrp_ok (w_st w') ∧ same_but (vlan_id r) p (w_st w) (w_st w')) w.
Proof.
  intros Hi Hk Hv Hf. pose proof (mk_mv _ Hk) as Hmv. pose proof (mv_map _ Hmv) as Hm. pose proof (mo_vlan _ Hm v r Hv) as Hr.
  unfold set_ref, set_vlan. apply wp_modify. cbn [w_st w_trace]. set (r' := r <| ref_count ::= alter f p |>).
  assert (E : (w_st w) <| upper ::= λ m, m <| vlan_heap ::= alter (λ r, r <| ref_count ::= alter f p |>) v |> |> = (w_st w) <| upper ::= vset v r' |>).
  { unfold vset, over, over_field; cbn. by rewrite (alter_as_insert _ _ _ r). }
  rewrite E. clear E.
  assert (Hr' : vlan_ok (port_max (upper (w_st w))) r').
  { destruct Hr as [H1 H2 H3 H4 H5 H6]. split; try done; cbn.
    - by rewrite length_alter.
    - intros j k. rewrite list_lookup_alter. case_decide as D; [|by apply H6]. subst j. destruct (ref_count r !! p) as [k0|] eqn:Ek; [|done].
      cbn. intros [= <-]. by apply Hf. }
  split; [done|]. split; [done|]. split; [by apply mrp_ok_upper|]. split.
  - split; [apply Hk|by eapply mv_ok_vset|]. intros v' r0. cbn. intros [[<- <-]|[_ H1]]%lookup_insert_Some.
    + pose proof (mk_done _ Hk v r Hv) as [D1 D2 D3]. by split.
    + pose proof (mk_done _ Hk v' r0 H1) as [D1 D2 D3]. by split.
  - apply same_but_vset; try done. intros j Hj. cbn. by rewrite list_lookup_alter, decide_False.
Qed.

(** The declaration of the users of a port, and its propagation. *)
Lemma user_spec v r p b new w :
  mrp_ok (w_st w) → mv_ok (w_st w) → is_bridge (upper (w_st w)) = false → others_done v (w_st w) →
  vlan_heap (upper (w_st w)) !! v = Some r → (p < port_max (upper (w_st w)))%nat → (b = false → ref_count r !! p = Some 0) →
  wp (set_vlan v (λ r, r <| user_declared ::= set_mask b p |>);; mvrp_map_update_vlan v new) (λ _ w',
     frames (w_trace w') = frames (w_trace w) ∧ mrp_ok (w_st w') ∧ mvrp_ok (w_st w') ∧
     same_but (vlan_id r) p (w_st w) (w_st w') ∧
     (says_map user_declared (upper (w_st w')) (vlan_attr r p) ↔ b = true) ∧
     (∀ n, ref_is (upper (w_st w')) (vlan_id r) p n ↔ ref_count r !! p = Some n) ∧
     (b = true → ∃ r', vlan_heap (upper (w_st w')) !! v = Some r' ∧ vlan_id r' = vlan_id r ∧
        ref_count r' = ref_count r ∧ has (user_declared r') p = true)) w.
Proof.
  intros Hi Hmv Hbr Ho Hv Hp Hb. pose proof (mv_map _ Hmv) as Hm. pose proof (mo_vlan _ Hm v r Hv) as Hr.
  destruct (mo_ports _ Hm) as [H16 _].
  destruct (set_mask_spec _ b (user_declared r) p H16 Hp (vo_user _ _ Hr)) as [Sm Sb].
  set (r1 := r <| user_declared ::= set_mask b p |>).
  assert (Hr1 : vlan_ok (port_max (upper (w_st w))) r1) by by apply vlan_ok_user.
  unfold set_vlan. apply wp_bind, wp_modify.
  assert (E : (w_st w) <| upper ::= λ m, m <| vlan_heap ::= alter (λ r, r <| user_declared ::= set_mask b p |>) v |> |> = (w_st w) <| upper ::= vset v r1 |>).
  { unfold vset, over, over_field; cbn. by rewrite (alter_as_insert _ _ _ r). }
  rewrite E. clear E. set (c1 := (w_st w) <| upper ::= vset v r1 |>).
  assert (Hm1 : map_ok (upper c1)) by by eapply vset_map_ok.
  assert (Hv1 : vlan_heap (upper c1) !! v = Some r1) by apply lookup_insert_eq.
  eapply wp_mono; [by apply (revise_spec v r r1)|]. intros [] w2 (r2 & S & Hok & Hk & Hf).
  fold c1 in S. destruct (se_vlan _ _ _ _ _ S) as (S1 & S2 & S3 & S4).
  assert (Huser : has (user_declared r1) p = b) by (cbn; by rewrite Sb, decide_True).
  assert (Hrefs : ∀ n, ref_is (upper c1) (vlan_id r) p n ↔ ref_count r !! p = Some n) by (intros n; by apply (ref_is_at _ v r1)).
  split; [done|]. split; [apply S|]. split; [done|]. split; [|split; [|split]].
  - etrans; [|by eapply same_but_settled]. apply same_but_vset; try done. intros j Hj. cbn. by rewrite Sb, decide_False.
  - rewrite (settled_says user_declared v r1 r2 c1); [|by right|done..]. cbn [upper c1].
    change (upper c1) with (vset v r1 (upper (w_st w))). rewrite (says_map_vset _ v r) by done.
    rewrite decide_True by done. cbn [vlan_attr fst]. by rewrite Huser.
  - intros n. rewrite (settled_refs v r1 r2 c1); [apply Hrefs|done|done|done|done].
  - intros ->. exists r2.
    assert (Hus : used r1 = true).
    { unfold used. apply orb_true_iff. right. apply (none_declared_has (port_max (upper (w_st w)))); [apply Hr1|]. by exists p. }
    rewrite (co_heap _ _ (se_upper _ _ _ _ _ S)), Hus. cbn. rewrite lookup_insert_eq. split_and!; try done. by rewrite S2.
Qed.

Lemma wp_get_ref v r p k (Q : Z → world mvrp_call (Mrp.mrp_ctx mvrp_ctx) → Prop) w :
  vlan_heap (upper (w_st w)) !! v = Some r → ref_count r !! p = Some k → Q k w → wp (get_ref v p) Q w.
Proof.
  intros Hv Hk HQ. unfold get_ref, get_vlan. apply wp_bind, wp_bind, wp_gets, wp_deref. exists r. split; [done|].
  apply wp_deref. by exists k.
Qed.

(** One more or one fewer user of VLAN [id] on port [p]. *)
Record member (p : nat) (id : Z) (f : Z → Z) c c' : Prop := {
  mb_good : good c';
  mb_same : same_but id p c c';
  mb_refs : ∀ n, ref_is (upper c') id p n ↔ ∃ m, ref_is (upper c) id p m ∧ n = f m;
}.

Lemma good_same_but id p c c' : good c → mrp_ok c' → mvrp_ok c' → same_but id p c c' → good c'.
Proof. intros Hg Hi Hk S. eapply (good_static c); [apply Hg|done|done|apply S|apply S]. Qed.

Lemma joinable_refs id v r p c c' n :
  map_ok (upper c) → joinable id v r c c' → (p < port_max (upper c))%nat →
  ref_is (upper c) id p n ↔ ref_count r !! p = Some n.
Proof.
  intros Hm J Hp. pose proof (jn_id _ _ _ _ _ J) as Hid.
  destruct (jn_old _ _ _ _ _ J) as [(Hr & _)|(Hnone & -> & Hc')].
  - rewrite <- Hid. by apply (ref_is_at _ v).
  - cbn [ref_count fresh_vlan]. split.
    + intros [(v1 & r1 & H1 & H2 & H3)|[_ ->]]; [|by apply lookup_replicate_2]. exfalso.
      assert (v1 = v) as ->; [|congruence].
      apply (mo_unique _ (mv_map _ (jn_mv _ _ _ _ _ J)) v1 v r1 (fresh_vlan (port_max (upper c)) id)); [|apply J|done].
      rewrite Hc'. cbn. rewrite lookup_insert_ne; [done|]. congruence.
    + intros [-> _]%lookup_replicate. right. split; [|done]. intros v1 r1 H1 E1.
      assert (v1 = v) as ->; [|congruence].
      apply (mo_unique _ (mv_map _ (jn_mv _ _ _ _ _ J)) v1 v r1 (fresh_vlan (port_max (upper c)) id)); [|apply J|done].
      rewrite Hc'. cbn. rewrite lookup_insert_ne; [done|]. congruence.
Qed.

(** Why a VLAN is refused. *)
Definition refused u (id : Z) : Prop :=
  (∀ v r, vlan_heap u !! v = Some r → vlan_id r ≠ id) ∧ (no_room u id ∨ ∃ n s, answer n (VlanMalloc s) = 0).

(** The count of the users, after the update. *)
Lemma count_user_spec v r p f c w :
  good c → mrp_ok (w_st w) → mvrp_ok (w_st w) → vlan_heap (upper (w_st w)) !! v = Some r → (p < port_max (upper (w_st w)))%nat →
  has (user_declared r) p = true → (∀ k, 0 ≤ k < 2 ^ 32 → 0 ≤ f k < 2 ^ 32) →
  same_but (vlan_id r) p c (w_st w) → (∀ n, ref_is (upper c) (vlan_id r) p n ↔ ref_count r !! p = Some n) →
  wp (set_ref v p f) (λ _ w', frames (w_trace w') = frames (w_trace w) ∧ member p (vlan_id r) f c (w_st w') ∧
     says_map user_declared (upper (w_st w')) (id_attr (vlan_id r) p) ∧ vlan_heap (upper (w_st w')) !! v = Some (r <| ref_count ::= alter f p |>) ∧
     mvrp_ok (w_st w') ∧ mrp_ok (w_st w')) w.
Proof.
  intros Hg Hi Hk Hv Hp Hu Hf Hs Hrefs. pose proof (mv_map _ (mk_mv _ Hk)) as Hm. pose proof (mo_vlan _ Hm v r Hv) as Hr.
  eapply wp_mono; [apply (set_ref_spec v r p f); try done|].
  - intros k Hkk. split; [|done]. apply Hf. by apply (vo_ref _ _ Hr p k).
  - intros [] w' (Hf' & E & Hi' & Hk' & Hs'). set (r' := r <| ref_count ::= alter f p |>) in *.
    assert (Hv' : vlan_heap (upper (w_st w')) !! v = Some r') by (rewrite E; apply lookup_insert_eq).
    pose proof (mv_map _ (mk_mv _ Hk')) as Hm'.
    assert (S : same_but (vlan_id r) p c (w_st w')) by by etrans.
    split; [done|]. split_and!; try done.
    + split; [by eapply good_same_but|done|]. intros n. change (vlan_id r) with (vlan_id r'). rewrite (ref_is_at _ v r') by done.
      cbn. rewrite list_lookup_alter, decide_True by done. change (vlan_id r') with (vlan_id r). setoid_rewrite Hrefs.
      destruct (ref_count r !! p) as [k|]; cbn; naive_solver.
    + exists v, r'. done.
Qed.

(** The outcome of a registration. *)
Definition registered_member (p : nat) (id : Z) w (rc : Z) w' : Prop :=
  frames (w_trace w') = frames (w_trace w) ∧
  ((rc = GENAVB_ERR_CTRL_FAILED ∧ w_st w' = w_st w ∧ refused (upper (w_st w)) id) ∨
   (rc = GENAVB_SUCCESS ∧ member p id (λ n, u32 (n + 1)) (w_st w) (w_st w') ∧
    says_map user_declared (upper (w_st w')) (id_attr id p))).

(** One user more of VLAN [v], which has been declared. *)
Lemma register_count_spec v r r2 p w w2 :
  good (w_st w) → frames (w_trace w2) = frames (w_trace w) → mrp_ok (w_st w2) → mvrp_ok (w_st w2) →
  vlan_heap (upper (w_st w2)) !! v = Some r2 → vlan_id r2 = vlan_id r → ref_count r2 = ref_count r →
  has (user_declared r2) p = true → (p < port_max (upper (w_st w)))%nat → same_but (vlan_id r) p (w_st w) (w_st w2) →
  (∀ m, ref_is (upper (w_st w)) (vlan_id r) p m ↔ ref_count r !! p = Some m) →
  wp (let! _ := get_ref v p in set_ref v p (λ n, u32 (n + 1));; ret GENAVB_SUCCESS)
    (registered_member p (vlan_id r) w) w2.
Proof.
  intros Hg Hf2 Hi2 Hk2 Hv2 Hid2 Hrc2 Hu2 Hp S2 Hrefs. rewrite <- Hrc2 in Hrefs. rewrite <- Hid2 in *.
  assert (Hp2 : (p < port_max (upper (w_st w2)))%nat) by by destruct (sb_static _ _ _ _ S2) as (-> & _).
  destruct (lookup_lt_is_Some_2 (ref_count r2) p) as [n Hn].
  { by rewrite (vo_len _ _ (mo_vlan _ (mv_map _ (mk_mv _ Hk2)) v r2 Hv2)). }
  apply wp_bind. eapply wp_get_ref; [done|done|]. apply wp_bind.
  eapply wp_mono; [apply (count_user_spec v r2 p _ (w_st w)); try done|].
  - intros k _. apply u32_range.
  - intros [] w3 (Hf3 & Hmb & Hs3 & _). apply wp_ret. split; [by rewrite Hf3|]. right. done.
Qed.

(** A registration of a VLAN that has been found or created. *)
Lemma register_vlan_spec p id v r new w w1 :
  good (w_st w) → (p < port_max (upper (w_st w)))%nat →
  joinable id v r (w_st w) (w_st w1) → frames (w_trace w1) = frames (w_trace w) →
  wp (let! n := get_ref v p in
      when (n =? 0) (vlan_user_declaration_set v p;; mvrp_map_update_vlan v new);;
      let! _ := get_ref v p in
      set_ref v p (λ n, u32 (n + 1));;
      ret GENAVB_SUCCESS)
    (registered_member p id w) w1.
Proof.
  intros Hg Hp J Hf1. pose proof (good_up _ Hg) as Hk. pose proof (mv_map _ (mk_mv _ Hk)) as Hm.
  pose proof (jn_vlan _ _ _ _ _ J) as Hv. pose proof (mv_map _ (jn_mv _ _ _ _ _ J)) as Hm1.
  destruct (jn_ports _ _ _ _ _ J) as (Hpm & _ & _). pose proof (jn_id _ _ _ _ _ J) as <-.
  destruct (lookup_lt_is_Some_2 (ref_count r) p) as [n Hn]; [rewrite (vo_len _ _ (mo_vlan _ Hm1 v r Hv)), Hpm; done|].
  assert (S1 : same_but (vlan_id r) p (w_st w) (w_st w1)) by by eapply same_but_joinable.
  assert (Hrefs : ∀ m, ref_is (upper (w_st w)) (vlan_id r) p m ↔ ref_count r !! p = Some m) by (intros m; by eapply joinable_refs).
  apply wp_bind. eapply wp_get_ref; [done|done|]. apply wp_bind, wp_when. destruct (n =? 0) eqn:En.
  - eapply wp_mono; [apply (user_spec v r p true new); try done; try apply J|].
    + rewrite (jn_endpoint _ _ _ _ _ J). apply Hk.
    + done.
    + by rewrite Hpm.
    + intros [] w2 (Hf2 & Hi2 & Hk2 & S2 & _ & _ & Hr2). destruct (Hr2 eq_refl) as (r2 & Hv2 & Hid2 & Hrc2 & Hu2).
      apply (register_count_spec v r r2); try done; [by rewrite Hf2|by etrans].
  - apply Z.eqb_neq in En. assert (Hu : has (user_declared r) p = true) by by apply (vo_ref _ _ (mo_vlan _ Hm1 v r Hv) p n).
    destruct (jn_old _ _ _ _ _ J) as [(Hr & E)|(_ & E & _)].
    + apply (register_count_spec v r r); try done; rewrite E; [apply Hg|done].
    + rewrite E in Hn. by apply lookup_replicate in Hn as [-> _].
Qed.

Lemma register_spec l id w :
  good (w_st w) → 0 ≤ id < 65536 →
  wp (mvrp_register_vlan_member l id) (λ rc w',
    match port_lookup (upper (w_st w)) l with
    | None => rc = GENAVB_ERR_CTRL_INVALID ∧ w' = w
    | Some p => registered_member p id w rc w'
    end) w.
Proof.
  intros Hg Hid. pose proof (good_up _ Hg) as Hk. pose proof (mk_mv _ Hk) as Hmv. pose proof (mv_map _ Hmv) as Hm.
  unfold mvrp_register_vlan_member. apply wp_bind. eapply wp_mono; [by apply mvrp_logical_port_spec|]. intros o w1 (-> & ->).
  destruct (port_lookup _ _) as [p|] eqn:Ep; [|by apply wp_ret]. apply port_lookup_lt in Ep.
  apply wp_bind. eapply wp_mono; [by apply find_vlan_spec|]. intros o w1 (-> & Ho). apply wp_bind. destruct o as [v|].
  - apply wp_ret. destruct Ho as (r & Hr & Hvid). apply (register_vlan_spec _ _ v r); try done. by apply joinable_found; [apply Hg|..].
  - apply wp_bind. eapply wp_mono; [by apply create_joinable; [apply Hg|..]|]. intros [v|] w2 (Hf2 & H2); apply wp_ret.
    + destruct H2 as (r & J). by apply (register_vlan_spec _ _ v r).
    + apply wp_ret. split; [done|]. left. destruct H2 as (E & Hno & Hwhy). done.
Qed.

(** The first half of a deregistration: one user fewer. *)
Lemma deregister_count_spec v r p n w :
  mrp_ok (w_st w) → mvrp_ok (w_st w) → vlan_heap (upper (w_st w)) !! v = Some r → ref_count r !! p = Some n →
  wp (when (negb (n =? 0)) (set_ref v p (λ n, u32 (n - 1)))) (λ _ w', frames (w_trace w') = frames (w_trace w) ∧
     mrp_ok (w_st w') ∧ mvrp_ok (w_st w') ∧ same_but (vlan_id r) p (w_st w) (w_st w') ∧
     ∃ r', vlan_heap (upper (w_st w')) !! v = Some r' ∧ vlan_id r' = vlan_id r ∧ ref_count r' !! p = Some (Z.max 0 (n - 1))) w.
Proof.
  intros Hi Hk Hv Hn. pose proof (mo_vlan _ (mv_map _ (mk_mv _ Hk)) v r Hv) as Hr.
  destruct (vo_ref _ _ Hr p n Hn) as [Hrange Hu]. apply wp_when. destruct (n =? 0) eqn:En; cbn [negb].
  - apply Z.eqb_eq in En. subst n. split_and!; try done. by exists r.
  - apply Z.eqb_neq in En. assert (E : u32 (n - 1) = Z.max 0 (n - 1)) by (rewrite u32_small; lia).
    eapply wp_mono; [apply (set_ref_spec v r p); try done|].
    + intros k Hkk. split; [apply u32_range|]. intros _. by apply Hu.
    + intros [] w' (Hf & Ew & Hi' & Hk' & S). split_and!; try done. exists (r <| ref_count ::= alter (λ n, u32 (n - 1)) p |>).
      rewrite Ew. split; [apply lookup_insert_eq|]. split; [done|]. cbn. by rewrite list_lookup_alter, decide_True, Hn, <- E by done.
Qed.

(** A user that leaves; the last one withdraws the declaration. *)
Lemma deregister_spec l id w :
  good (w_st w) →
  wp (mvrp_deregister_vlan_member l id) (λ rc w',
    match port_lookup (upper (w_st w)) l with
    | None => rc = GENAVB_ERR_CTRL_INVALID ∧ w' = w
    | Some p => frames (w_trace w') = frames (w_trace w) ∧ rc = GENAVB_SUCCESS ∧
        member p id (λ n, Z.max 0 (n - 1)) (w_st w) (w_st w') ∧
        (ref_is (upper (w_st w')) id p 0 → ¬ says_map user_declared (upper (w_st w')) (id_attr id p))
    end) w.
Proof.
  intros Hg. pose proof (good_up _ Hg) as Hk. pose proof (mk_mv _ Hk) as Hmv. pose proof (mv_map _ Hmv) as Hm.
  unfold mvrp_deregister_vlan_member. apply wp_bind. eapply wp_mono; [by apply mvrp_logical_port_spec|]. intros o w1 (-> & ->).
  destruct (port_lookup _ _) as [p|] eqn:Ep; [|by apply wp_ret]. apply port_lookup_lt in Ep.
  apply wp_bind. eapply wp_mono; [by apply find_vlan_spec|]. intros o w1 (-> & Ho). destruct o as [v|].
  2:{ apply wp_ret. split_and!; try done.
      - split; [done|done|]. intros n. unfold ref_is. split.
        + intros [(v & r & Hr & Hid & _)|[_ ->]]; [by destruct (Ho v r Hr)|]. exists 0. split; [by right|done].
        + intros (m & [(v & r & Hr & Hid & _)|[_ ->]] & ->); [by destruct (Ho v r Hr)|]. by right.
      - intros _ (v & r & Hr & Hid & _). apply (Ho v r Hr). apply (f_equal snd) in Hid. cbn [vlan_attr id_attr snd] in Hid.
        apply (f_equal vid_of) in Hid. by rewrite !vid_of_bytes in Hid. }
  destruct Ho as (r & Hv & <-).
  destruct (lookup_lt_is_Some_2 (ref_count r) p) as [n Hn]; [by rewrite (vo_len _ _ (mo_vlan _ Hm v r Hv))|].
  apply wp_bind. eapply wp_get_ref; [done|done|]. apply wp_bind.
  eapply wp_mono; [apply (deregister_count_spec v r p n); try done; apply Hg|].
  intros [] w2 (Hf2 & Hi2 & Hk2 & S2 & r2 & Hv2 & Hid2 & Hn2).
  assert (Hfin : ∀ m, Some (Z.max 0 (n - 1)) = Some m ↔ ∃ k, ref_is (upper (w_st w)) (vlan_id r) p k ∧ m = Z.max 0 (k - 1)).
  { intros m. setoid_rewrite (ref_is_at _ v r p); [|done|done]. rewrite Hn. naive_solver. }
  assert (Hp2 : (p < port_max (upper (w_st w2)))%nat) by by destruct (sb_static _ _ _ _ S2) as (-> & _).
  apply wp_bind. eapply wp_get_ref; [done|done|]. apply wp_bind, wp_when. destruct (_ =? 0) eqn:En.
  - apply Z.eqb_eq in En. rewrite En in Hn2. rewrite <- Hid2 in *.
    eapply wp_mono; [apply (user_spec v r2 p false false); try done; [apply Hk2|apply Hk2|by apply mvrp_ok_others]|].
    intros [] w3 (Hf3 & Hi3 & Hk3 & S3 & Hs3 & Hr3 & _). apply wp_ret.
    assert (S : same_but (vlan_id r2) p (w_st w) (w_st w3)) by by etrans.
    split; [by rewrite Hf3|]. split; [done|]. split.
    + split; [by eapply good_same_but|done|]. intros m. rewrite Hr3, Hn2. rewrite En in Hfin. apply Hfin.
    + intros _ Hs. by apply Hs3 in Hs.
  - apply Z.eqb_neq in En. apply wp_ret. rewrite <- Hid2 in *. split; [done|]. split; [done|]. split.
    + split; [by eapply good_same_but|done|]. intros m. rewrite (ref_is_at _ v r2), Hn2; [apply Hfin|apply (mv_map _ (mk_mv _ Hk2))|done].
    + intros H0. rewrite (ref_is_at _ v r2), Hn2 in H0; [congruence|apply (mv_map _ (mk_mv _ Hk2))|done].
Qed.

(** ** Messages of the media stack *)

(** The calls of a response, newest first. *)
Definition reply (sync : bool) (size : Z) (m : ipc_msg) (ck : nat) : list (mvrp_call * Z) :=
  let a := answer ck (IpcAlloc sync size) in
  let t := answer (S ck) (IpcTx sync m) in
  if a =? 0 then [(IpcAlloc sync size, a)]
  else if t <? 0 then [(IpcFree sync, answer (S (S ck)) (IpcFree sync)); (IpcTx sync m, t); (IpcAlloc sync size, a)]
  else [(IpcTx sync m, t); (IpcAlloc sync size, a)].

Lemma ipc_send_exec sync size m (Q : unit → world mvrp_call (Mrp.mrp_ctx mvrp_ctx) → Prop) w :
  (∀ ck, Q tt (World (w_st w) ck (reply sync size m (w_clock w) ++ w_trace w))) → wp (ipc_send sync size m) Q w.
Proof.
  intros HQ. unfold ipc_send, reply in *. apply wp_bind, wp_perform. cbn [w_st w_clock w_trace]. destruct (_ =? 0).
  - apply wp_ret. apply HQ.
  - apply wp_bind, wp_perform. apply wp_when. cbn [w_st w_clock w_trace]. destruct (_ <? 0); [|apply HQ].
    apply wp_bind, wp_perform, wp_ret. apply HQ.
Qed.

Definition sync_request (d : ipc_desc) : bool := truth (Z.land (d_flags d) IPC_FLAGS_AVB_MSG_SYNC).
Definition error_reply (d : ipc_desc) (status : Z) : ipc_msg :=
  ErrorResponse (d_src d) GENAVB_MSG_ERROR_RESPONSE ipc_error_response_size 0 (d_type d) (d_len d) status.
Definition vlan_reply (d : ipc_desc) (status : Z) : ipc_msg :=
  VlanResponse (d_src d) GENAVB_MSG_VLAN_RESPONSE ipc_vlan_response_size (d_port d) (d_vlan_id d) (u32 status).

(** What a request does, and what it is answered. *)
Definition request_done (d : ipc_desc) w (size : Z) (m : ipc_msg) w' : Prop :=
  if (d_type d =? GENAVB_MSG_VLAN_REGISTER) || (d_type d =? GENAVB_MSG_VLAN_DEREGISTER) then
    if negb (d_len d =? ipc_vlan_register_size) then
      size = ipc_error_response_size ∧ m = error_reply d GENAVB_ERR_CTRL_LEN ∧ w' = w
    else
      let id := htons (d_vlan_id d) in
      ∃ rc, size = ipc_vlan_response_size ∧ m = vlan_reply d rc ∧
        match port_lookup (upper (w_st w)) (d_port d) with
        | None => rc = GENAVB_ERR_CTRL_INVALID ∧ w' = w
        | Some p =>
            if d_type d =? GENAVB_MSG_VLAN_REGISTER then registered_member p id w rc w'
            else frames (w_trace w') = frames (w_trace w) ∧ rc = GENAVB_SUCCESS ∧
                 member p id (λ n, Z.max 0 (n - 1)) (w_st w) (w_st w') ∧
                 (ref_is (upper (w_st w')) id p 0 → ¬ says_map user_declared (upper (w_st w')) (id_attr id p))
        end
  else size = ipc_error_response_size ∧ m = error_reply d GENAVB_ERR_CTRL_INVALID ∧ w' = w.

Lemma ipc_rx_spec d w :
  good (w_st w) → 0 ≤ d_vlan_id d < 65536 →
  wp (mvrp_ipc_rx d) (λ _ w', ∃ size m w1 r, request_done d w size m w1 ∧ w_st w' = w_st w1 ∧
     w_trace w' = (IpcRxFree, r) :: reply (sync_request d) size m (w_clock w1) ++ w_trace w1) w.
Proof.
  intros Hg Hid. unfold mvrp_ipc_rx. cbv zeta. apply wp_bind.
  assert (Hsend : ∀ size m w1, request_done d w size m w1 →
    wp (ipc_send (sync_request d) size m) (λ _ w', wp (let! _ := perform IpcRxFree in ret tt)
      (λ _ w', ∃ size m w1 r, request_done d w size m w1 ∧ w_st w' = w_st w1 ∧
         w_trace w' = (IpcRxFree, r) :: reply (sync_request d) size m (w_clock w1) ++ w_trace w1) w') w1).
  { intros size m w1 Hd. apply ipc_send_exec. intros ck. apply wp_bind, wp_perform, wp_ret. cbn [w_st w_clock w_trace].
    exists size, m, w1. eexists. split; [exact Hd|]. done. }
  unfold request_done in *. fold (sync_request d).
  destruct (d_type d =? GENAVB_MSG_VLAN_REGISTER) eqn:E1; cbn [orb] in *.
  - destruct (negb _); [by apply Hsend|]. apply wp_bind.
    eapply wp_mono; [apply register_spec; [done|by apply htons_range]|]. intros rc w1 H1. apply Hsend. by exists rc.
  - destruct (d_type d =? GENAVB_MSG_VLAN_DEREGISTER) eqn:E2; [|by apply Hsend].
    destruct (negb _); [by apply Hsend|]. apply wp_bind.
    eapply wp_mono; [by apply deregister_spec|]. intros rc w1 H1. apply Hsend. by exists rc.
Qed.

Lemma request_good d w size m w1 : good (w_st w) → request_done d w size m w1 → good (w_st w1) ∧ kept (w_st w) (w_st w1).
Proof.
  intros Hg. unfold request_done, registered_member. destruct (_ || _); [|by intros (_ & _ & ->)].
  destruct (negb _); [by intros (_ & _ & ->)|]. intros (rc & _ & _ & Hd). destruct (port_lookup _ _); [|by destruct Hd as [_ ->]].
  destruct (_ =? _).
  - destruct Hd as (_ & [(_ & -> & _)|(_ & Hm & _)]); [done|]. split; [apply Hm|apply (mb_same _ _ _ _ _ Hm)].
  - destruct Hd as (_ & _ & Hm & _). split; [apply Hm|apply (mb_same _ _ _ _ _ Hm)].
Qed.
End protocol.
