(* ===== verification/MvrpRun.v ===== *)
(** * MVRP: runs of the protocol

    Initialisation establishes the invariant of MvrpEvents.v, every event keeps
    it, and exit releases everything.  The properties of MRP and MVRP as a
    whole, each with an instance on a two-port endpoint. *)

From S2P Require Import Prelude Timer MrpSm MrpPdu Mrp MrpTx MrpSpec MrpRequests MrpJoin MrpEvents MrpInit.
From S2P Require Import Mvrp MvrpSpec MvrpEvents.

(** ** Initialisation *)

Section init.
Context `{!Platform mvrp_call, !MrpMemory}.
Implicit Types (w : world mvrp_call (Mrp.mrp_ctx mvrp_ctx)) (c : Mrp.mrp_ctx mvrp_ctx) (u : mvrp_ctx).

(** Before [mvrp_init]: zeroed memory, and a configuration for its ports. *)
Record boot (cfg : mvrp_config) c : Prop := {
  bt_ports : (1 ≤ cfg_port_max cfg ≤ 16)%nat;
  bt_list : (cfg_port_max cfg ≤ length (cfg_logical_port_list cfg))%nat;
  bt_length : length (port (upper c)) = cfg_port_max cfg ∧ length (apps c) = cfg_port_max cfg;
  bt_apps : ∀ p q, apps c !! p = Some q → app_idle q;
  bt_attrs : attrs c = ∅;
  bt_heap : vlan_heap (upper c) = ∅;
  bt_timeout : ∀ p, (p < cfg_port_max cfg)%nat → ∃ ms, leave_timeout c !! p = Some ms ∧ ms ≠ 0;
}.

(** The ports before [i] have been set up. *)
Record setup (cfg : mvrp_config) (i : nat) c : Prop := {
  su_mrp : mrp_ok c;
  su_attrs : attrs c = ∅;
  su_heap : vlan_heap (upper c) = ∅;
  su_map : map (upper c) = MvrpMap 0 [] 0 0;
  su_upper : port_max (upper c) = cfg_port_max cfg ∧ is_bridge (upper c) = cfg_is_bridge cfg;
  su_length : length (port (upper c)) = cfg_port_max cfg ∧ length (apps c) = cfg_port_max cfg;
  su_timeout : ∀ p, (p < cfg_port_max cfg)%nat → ∃ ms, leave_timeout c !! p = Some ms ∧ ms ≠ 0;
  su_idle : ∀ p q, (i ≤ p)%nat → apps c !! p = Some q → app_idle q;
  su_used : ∀ p, app_enabled c p → port_used (upper c) p;
}.

Lemma idle_mrp_ok c : (∀ p q, apps c !! p = Some q → app_idle q) → attrs c = ∅ → mrp_ok c.
Proof.
  intros Hq Ha. split.
  - intros p q H1 Hne. by destruct (Hq p q H1).
  - intros p q H1 Hen. destruct (Hq p q H1). congruence.
  - intros a x. by rewrite Ha.
  - intros a x. by rewrite Ha.
  - intros a b x y. by rewrite Ha.
Qed.

Lemma setup_next cfg i c : setup cfg i c → setup cfg (S i) c.
Proof. intros []. split; try done. intros p q Hp. apply su_idle0. lia. Qed.

Lemma setup_exited cfg i c c' : setup cfg (S i) c → exited i c c' → setup cfg (S i) c'.
Proof.
  intros [S1 S2 S3 S4 S5 S6 S7 S8 S9] [E1 E2 E3 E4 E5 E6 E7]. split; rewrite ?E2, ?E3, ?E4; try done.
  - apply map_eq. intros a. rewrite lookup_empty. destruct (attrs c' !! a) as [x|] eqn:Hx; [|done].
    apply E7 in Hx as [Hx _]. by rewrite S2 in Hx.
  - intros p q Hp. rewrite E5 by lia. by apply S8.
  - intros p (q & Hq & Hen). destruct (decide (p = i)) as [->|Hne]; [apply E6 in Hq; congruence|].
    apply S9. exists q. by rewrite <- E5.
Qed.

Lemma port_init_spec `{!MrpInd mvrp_call mvrp_ctx} cfg i w :
  setup cfg i (w_st w) → (i < cfg_port_max cfg)%nat → (cfg_port_max cfg ≤ length (cfg_logical_port_list cfg))%nat →
  wp (mvrp_port_init cfg i) (λ rc w', setup cfg (S i) (w_st w') ∧ frames (w_trace w') = frames (w_trace w)) w.
Proof.
  intros Hs Hi Hl. pose proof Hs as [S1 S2 S3 S4 S5 [S6 S6'] S7 S8 S9].
  destruct (lookup_lt_is_Some_2 (port (upper (w_st w))) i) as [q0 Hq0]; [lia|].
  destruct (lookup_lt_is_Some_2 (apps (w_st w)) i) as [q Hq]; [lia|].
  destruct (lookup_lt_is_Some_2 (cfg_logical_port_list cfg) i) as [l Hl0]; [lia|].
  unfold mvrp_port_init, get_port. apply wp_bind, wp_bind, wp_gets, wp_deref. exists q0. split; [done|].
  apply wp_bind, wp_deref. exists l. split; [done|]. apply wp_bind, wp_modify.
  set (f := λ q : mvrp_port, q <| port_id := Z.of_nat i |> <| logical_port := l |>).
  set (c1 := (w_st w) <| upper ::= λ m : mvrp_ctx, m <| port ::= alter f i |> |>).
  assert (Hs1 : setup cfg i c1).
  { split; try done.
    - apply mrp_ok_upper; [done|]. intros p [q1 Hq1]. apply lookup_lt_is_Some_2. cbn. rewrite length_alter. by eapply lookup_lt_Some.
    - cbn. by rewrite length_alter.
    - intros p Hp. destruct (S9 p Hp) as (q1 & Hq1 & Hin). unfold port_used. cbn. rewrite list_lookup_alter.
      case_decide as D; [subst p; rewrite Hq1; cbn; by exists (f q1)|by exists q1]. }
  apply wp_bind, wp_bind, wp_gets, wp_deref. exists (f q0). cbn [w_st w_clock w_trace].
  split; [by cbn; rewrite list_lookup_alter, decide_True, Hq0 by done|].
  destruct (initialized (f q0)) eqn:Ein; cbn [negb]; [|by apply wp_ret; split; [apply setup_next|]].
  apply wp_bind. eapply wp_mono; [apply (mrp_init_spec i q); try done; [|by apply S7]|].
  { cbn. rewrite list_lookup_alter, decide_True, Hq0 by done. eauto. }
  cbn [w_st w_trace]. intros rc w2 (Hf2 & q' & E2 & Hpt & Hq').
  assert (Hs2 : setup cfg (S i) (w_st w2)).
  { rewrite E2. split; try done.
    - apply (inv_init i q); [apply Hs1|done| |].
      + intros a x. cbn. by rewrite S2.
      + destruct Hq' as [(_ & _ & Hf)|(_ & Hen & Hat & _)]; [by right|]. left. split; [|done]. rewrite Hat. by apply (S8 i q).
    - cbn. by rewrite !length_alter.
    - intros p q1 Hp Hq1. rewrite upd_app_other in Hq1 by lia. apply (S8 p q1); [lia|done].
    - intros p (q1 & Hq1 & Hen). destruct (decide (p = i)) as [->|Hne].
      + exists (f q0). split; [|done]. cbn. by rewrite list_lookup_alter, decide_True, Hq0 by done.
      + rewrite upd_app_other in Hq1 by done. apply (su_used _ _ _ Hs1). by exists q1. }
  destruct (rc <? 0); [by apply wp_ret|]. apply wp_bind, wp_perform. destruct (_ <? 0).
  - apply wp_bind. eapply wp_mono; [eapply (mrp_exit_spec i q'); [apply Hs2|]|].
    + cbn [w_st]. rewrite E2. by apply (upd_app_lookup i (λ _, q') _ q).
    + cbn [w_st w_trace]. intros rc3 w3 (_ & Hf3 & He). apply wp_ret. split; [by eapply setup_exited|].
      by rewrite Hf3, frames_mvrp, Hf2.
  - apply wp_ret. cbn [w_st w_trace]. rewrite frames_mvrp. done.
Qed.
Lemma ports_init_spec `{!MrpInd mvrp_call mvrp_ctx} cfg i k n w :
  setup cfg i (w_st w) → (i + k)%nat = cfg_port_max cfg → (n = i)%nat → (cfg_port_max cfg ≤ length (cfg_logical_port_list cfg))%nat →
  wp (mvrp_ports_init cfg (seq i k) n) (λ r w', frames (w_trace w') = frames (w_trace w) ∧ (r.2 ≤ cfg_port_max cfg)%nat ∧
    if r.1 then setup cfg (cfg_port_max cfg) (w_st w') else ∃ j, setup cfg j (w_st w')) w.
Proof.
  revert i n w. induction k as [|k IH]; intros i n w Hs Hk -> Hl; cbn [seq mvrp_ports_init].
  { apply wp_ret. rewrite Nat.add_0_r in Hk. subst i. done. }
  apply wp_bind. eapply wp_mono; [apply port_init_spec; [done|lia|done]|]. intros rc w1 (Hs1 & Hf1).
  destruct (rc <? 0).
  - apply wp_ret. split; [done|]. cbn [fst snd]. split; [lia|]. eauto.
  - eapply wp_mono; [apply IH; [done|lia|done|done]|]. intros [ok m] w2 (Hf2 & H2). by rewrite Hf2.
Qed.

(** The ports [ps] have been closed. *)
Record closed (ps : list nat) c c' : Prop := {
  cl_mrp : mrp_ok c';
  cl_upper : upper c' = upper c;
  cl_timeout : leave_timeout c' = leave_timeout c;
  cl_length : length (apps c') = length (apps c);
  cl_attrs : ∀ a x, attrs c' !! a = Some x ↔ attrs c !! a = Some x ∧
     ¬ (attr_app x ∈ ps ∧ port_used (upper c) (attr_app x));
  cl_enabled : ∀ p, app_enabled c' p → app_enabled c p ∧ ¬ (p ∈ ps ∧ port_used (upper c) p);
}.

Lemma ports_exit_spec ps w :
  mrp_ok (w_st w) → (∀ i, i ∈ ps → is_Some (port (upper (w_st w)) !! i) ∧ is_Some (apps (w_st w) !! i)) →
  wp (for_each ps mvrp_port_exit) (λ _ w', closed ps (w_st w) (w_st w') ∧ frames (w_trace w') = frames (w_trace w)) w.
Proof.
  revert w. induction ps as [|i ps IH]; intros w Hi Hps.
  { apply wp_ret. split; [|done]. split; try done.
    - intros a x. split; [|by intros []]. intros Hx. split; [done|]. by intros [?%elem_of_nil _].
    - intros p Hp. split; [done|]. by intros [?%elem_of_nil _]. }
  destruct (Hps i) as [[q Hq] [ap Hap]]; [by left|]. cbn [for_each]. apply wp_bind.
  set (P := λ (_ : unit) w', closed [i] (w_st w) (w_st w') ∧ frames (w_trace w') = frames (w_trace w)).
  assert (HP : wp (mvrp_port_exit i) P w).
  { unfold mvrp_port_exit, get_port. apply wp_bind, wp_bind, wp_gets, wp_deref. exists q. split; [done|].
    destruct (initialized q) eqn:Ei; cbn [negb].
    - apply wp_bind, wp_perform, wp_bind. eapply wp_mono; [by eapply mrp_exit_spec|]. cbn [w_st w_trace].
      intros rc w' (_ & Hf & [E1 E2 E3 E4 E5 E6 E7]). apply wp_ret. split; [|by rewrite Hf, frames_mvrp]. split; try done.
      + intros a x. rewrite E7, list_elem_of_singleton. split; intros [Hx Hn]; (split; [done|]); [by intros [? _]|].
        intros Hp. apply Hn. rewrite Hp. split; [done|]. by exists q.
      + intros p (q1 & Hq1 & Hen). destruct (decide (p = i)) as [->|Hne]; [apply E6 in Hq1; congruence|].
        rewrite E5 in Hq1 by done. split; [by exists q1|]. by intros [?%list_elem_of_singleton _].
    - apply wp_ret. split; [|done]. assert (Hnu : ¬ port_used (upper (w_st w)) i) by (intros (q1 & Hq1 & Hi1); congruence). split; try done.
      + intros a x. split; [|by intros []]. intros Hx. split; [done|]. rewrite list_elem_of_singleton. by intros [-> ?].
      + intros p Hp. split; [done|]. rewrite list_elem_of_singleton. by intros [-> ?]. }
  eapply wp_mono; [exact HP|]. intros [] w1 [[C1 C2 C3 C4 C5 C6] F1].
  eapply wp_mono; [apply IH; [done|]|].
  - intros j Hj. rewrite C2. split; [apply Hps; by right|]. apply lookup_lt_is_Some_2. rewrite C4.
    apply lookup_lt_is_Some_1, Hps. by right.
  - intros [] w2 [[D1 D2 D3 D4 D5 D6] F2]. split; [|by rewrite F2]. rewrite C2 in D5, D6. split; try congruence.
    + intros a x. rewrite D5, C5, list_elem_of_singleton, elem_of_cons. tauto.
    + intros p [Hp1 Hn1]%D6. apply C6 in Hp1 as [Hp1 Hn2]. rewrite list_elem_of_singleton in Hn2. split; [done|].
      rewrite elem_of_cons. tauto.
Qed.

Lemma mvrp_init_spec `{!MrpInd mvrp_call mvrp_ctx} cfg w :
  boot cfg (w_st w) →
  wp (mvrp_init cfg) (λ rc w', frames (w_trace w') = frames (w_trace w) ∧
     (rc = 0 ∧ setup cfg (cfg_port_max cfg) (w_st w') ∨ rc = -1 ∧ attrs (w_st w') = ∅ ∧ vlan_heap (upper (w_st w')) = ∅)) w.
Proof.
  intros [B1 B2 [B3 B3'] B4 B5 B6 B7]. unfold mvrp_init. apply wp_bind.
  assert (Hipc : wp (if cfg_is_bridge cfg then ret IPC_MEDIA_STACK_MVRP_BRIDGE else
    let! l0 := deref OutOfBounds (cfg_logical_port_list cfg !! 0%nat) in
    ret (if l0 =? CFG_ENDPOINT_0_LOGICAL_PORT then IPC_MEDIA_STACK_MVRP else IPC_MEDIA_STACK_MVRP_1)) (λ _ w', w' = w) w).
  { destruct (cfg_is_bridge cfg); [by apply wp_ret|].
    destruct (lookup_lt_is_Some_2 (cfg_logical_port_list cfg) 0) as [l0 Hl0]; [lia|].
    apply wp_bind, wp_deref. exists l0. split; [done|]. by apply wp_ret. }
  eapply wp_mono; [exact Hipc|]. clear Hipc.
  intros ipc w0 ->. apply wp_bind, wp_modify, wp_bind, wp_perform. cbn [w_st w_clock w_trace].
  destruct (_ <? 0). { apply wp_ret. cbn [w_st w_trace]. rewrite frames_mvrp. split; [done|]. by right. }
  apply wp_bind, wp_perform. cbn [w_st w_clock w_trace]. destruct (_ <? 0).
  { apply wp_bind, wp_perform, wp_ret. cbn [w_st w_trace]. rewrite !frames_mvrp. split; [done|]. by right. }
  apply wp_bind, wp_perform. cbn [w_st w_clock w_trace]. destruct (_ <? 0).
  { apply wp_bind, wp_perform, wp_bind, wp_perform, wp_ret. cbn [w_st w_trace]. rewrite !frames_mvrp. split; [done|]. by right. }
  apply wp_bind, wp_modify. cbn [w_st w_clock w_trace]. apply wp_bind.
  eapply wp_mono; [apply (ports_init_spec cfg 0 (cfg_port_max cfg) 0); [|done|done|done]|].
  { split; try done; [by apply idle_mrp_ok|intros p q _; apply B4|].
    intros p (q & Hq & Hen). destruct (B4 p q Hq). congruence. }
  cbn [w_st w_trace]. rewrite !frames_mvrp. intros [ok n] w1 (Hf1 & Hn & H1). cbn [fst snd] in *. destruct ok.
  { apply wp_ret. split; [done|]. by left. }
  destruct H1 as (j & [S1 S2 S3 S4 S5 [S6 S6'] S7 S8 S9]). apply wp_bind.
  eapply wp_mono; [apply ports_exit_spec; [done|]|].
  { intros i Hi%elem_of_seq. split; apply lookup_lt_is_Some_2; lia. }
  intros [] w2 ([C1 C2 C3 C4 C5 C6] & F2). apply wp_bind, wp_perform, wp_bind, wp_perform, wp_ret. cbn [w_st w_trace].
  rewrite !frames_mvrp, F2. split; [done|]. right. split; [done|]. rewrite C2. split; [|done].
  apply map_eq. intros a. rewrite lookup_empty. destruct (attrs (w_st w2) !! a) as [x|] eqn:Hx; [|done].
  apply C5 in Hx as [Hx _]. by rewrite S2 in Hx.
Qed.
(** ** Exit *)

(** No application is in use any more. *)
Definition all_disabled c : Prop := ∀ p q, apps c !! p = Some q → enabled q = false.

Lemma leave_disabled p t val w :
  all_disabled (w_st w) → is_Some (apps (w_st w) !! p) → wp (mrp_mad_leave_request p t val) (λ _ w', w' = w) w.
Proof.
  intros Hd [q Hq]. unfold mrp_mad_leave_request. apply wp_bind. eapply wp_get_app; [done|].
  rewrite (Hd p q Hq). cbn [negb]. by apply wp_ret.
Qed.

(** VLAN [v] loses its declarations. *)
Lemma exit_vlan_ports_spec v ps w r :
  all_disabled (w_st w) → map_ok (upper (w_st w)) → vlan_heap (upper (w_st w)) !! v = Some r →
  (∀ i, i ∈ ps → is_Some (apps (w_st w) !! i)) →
  wp (for_each ps (mvrp_map_exit_port v)) (λ _ w', frames (w_trace w') = frames (w_trace w) ∧
    ∃ r', w_st w' = (w_st w) <| upper ::= vset v r' |> ∧ map_ok (upper (w_st w')) ∧ vlan_heap (upper (w_st w')) !! v = Some r') w.
Proof.
  revert w r. induction ps as [|i ps IH]; intros w r Hd Hm Hv Hps.
  { apply wp_ret. split; [done|]. exists r. split; [|done]. destruct w as [c ? ?]; destruct c; cbn in *.
    unfold over, over_field; cbn. by rewrite (vset_id v r). }
  pose proof (mo_vlan _ Hm v r Hv) as Hr. destruct (mo_ports _ Hm) as [H16 _].
  destruct (clear_bit_spec _ (declared_state r) i H16 (vo_dec _ _ Hr)) as [Cm _].
  cbn [for_each]. apply wp_bind.
  eapply (wp_mono _ (λ _ w', frames (w_trace w') = frames (w_trace w) ∧ ∃ r', vlan_ok (port_max (upper (w_st w))) r' ∧ vlan_id r' = vlan_id r ∧
    w_st w' = (w_st w) <| upper ::= vset v r' |>)).
  - unfold mvrp_map_exit_port, get_vlan. apply wp_bind, wp_bind, wp_gets, wp_deref. exists r. split; [done|].
    apply wp_when. destruct (is_vlan_declared r i).
    + apply wp_bind. eapply wp_mono; [apply leave_disabled; [done|apply Hps; by left]|]. intros [] w1 ->.
      apply wp_modify. split; [done|]. exists (r <| declared_state ::= clear_bit i |>). split; [by apply vlan_ok_declared|].
      split; [done|]. unfold vset, over, over_field; cbn. by rewrite (alter_as_insert _ _ _ r).
    + split; [done|]. exists r. split; [done|]. split; [done|]. destruct (w_st w); cbn in *.
      unfold over, over_field; cbn. by rewrite (vset_id v r).
  - intros [] w1 (Hf1 & r1 & Hr1 & Hid1 & E1).
    assert (Hm1 : map_ok (upper (w_st w1))) by (rewrite E1; by eapply vset_map_ok).
    assert (Hv1 : vlan_heap (upper (w_st w1)) !! v = Some r1) by (rewrite E1; apply lookup_insert_eq).
    eapply wp_mono; [apply (IH w1 r1); [by rewrite E1|done|done|intros j Hj; rewrite E1; apply Hps; by right]|].
    intros [] w2 (Hf2 & r2 & E2 & Hm2 & Hv2). split; [by rewrite Hf2|]. exists r2. split; [|done].
    rewrite E2, E1. unfold vset, over, over_field; cbn. by rewrite insert_insert_eq.
Qed.

Lemma map_exit_spec w :
  all_disabled (w_st w) → map_ok (upper (w_st w)) → length (apps (w_st w)) = port_max (upper (w_st w)) →
  wp mvrp_map_exit (λ _ w', frames (w_trace w') = frames (w_trace w) ∧ map_ok (upper (w_st w')) ∧
    apps (w_st w') = apps (w_st w) ∧ attrs (w_st w') = attrs (w_st w) ∧ vlans (map (upper (w_st w'))) = []) w.
Proof.
  intros Hd Hm Hl. unfold mvrp_map_exit.
  eapply wp_mono; [apply (Prelude.wp_list_each map_vlans (λ l w', frames (w_trace w') = frames (w_trace w) ∧ map_ok (upper (w_st w')) ∧
    apps (w_st w') = apps (w_st w) ∧ attrs (w_st w') = attrs (w_st w) ∧ port_max (upper (w_st w')) = port_max (upper (w_st w)) ∧
    vlans (map (upper (w_st w'))) = l))|].
  - intros pre v l w1 Hnd Hlv (Hf1 & Hm1 & Ha1 & Hb1 & Hp1 & Hl1). unfold map_vlans in *. rewrite Hl1 in Hlv.
    assert (pre = []) as ->.
    { apply (f_equal length) in Hlv. rewrite length_app in Hlv. destruct pre; [done|cbn in Hlv; lia]. }
    cbn in Hnd. apply list.NoDup_cons in Hnd as [Hna Hnd].
    destruct (proj1 (mo_heap _ Hm1 v)) as [r Hr]; [rewrite Hl1; by left|].
    apply wp_bind, wp_gets, wp_bind. eapply wp_mono; [apply (exit_vlan_ports_spec v _ w1 r); [unfold all_disabled; by rewrite Ha1|done|done|]|].
    { intros i Hi%elem_of_seq. apply lookup_lt_is_Some_2. rewrite Ha1. lia. }
    intros [] w2 (Hf2 & r2 & E2 & Hm2 & Hv2). eapply wp_mono; [by eapply free_vlan_exec|].
    intros [] w3 (Hf3 & E3). rewrite E3, E2. cbn [upper].
    assert (Hrm : list_remove v (vlans (map (upper (w_st w1)))) = l).
    { rewrite Hl1. exact (list_remove_mid v [] l (not_elem_of_nil v) Hna). }
    split; [exists []; cbn; by rewrite Hrm|]. split; [by rewrite Hf3, Hf2|]. split; [|by cbn].
    rewrite <- E2. by eapply vfree_map_ok.
  - apply Hm.
  - done.
  - intros [] w' (? & ? & ? & ? & ? & ?). done.
Qed.

Lemma mvrp_exit_spec w :
  mrp_ok (w_st w) → mv_ok (w_st w) →
  wp mvrp_exit (λ rc w', rc = 0 ∧ frames (w_trace w') = frames (w_trace w) ∧
    attrs (w_st w') = ∅ ∧ vlan_heap (upper (w_st w')) = ∅ ∧ num_vlans (map (upper (w_st w'))) = 0) w.
Proof.
  intros Hi Hmv. pose proof (mv_map _ Hmv) as Hm. destruct (mo_ports _ Hm) as [_ Hlen].
  unfold mvrp_exit. apply wp_bind, wp_gets, wp_bind. eapply wp_mono; [apply ports_exit_spec; [done|]|].
  { intros i Hi2%elem_of_seq. split; apply lookup_lt_is_Some_2; [lia|]. rewrite (mv_apps _ Hmv). lia. }
  intros [] w1 ([C1 C2 C3 C4 C5 C6] & F1).
  assert (Hno : attrs (w_st w1) = ∅).
  { apply map_eq. intros a. rewrite lookup_empty. destruct (attrs (w_st w1) !! a) as [x|] eqn:Hx; [|done].
    apply C5 in Hx as [Hx Hn]. exfalso. apply Hn. destruct (mi_in _ _ Hi a x Hx) as (_ & q & Hq & Hen & _). split.
    - apply elem_of_seq. apply lookup_lt_Some in Hq. rewrite (mv_apps _ Hmv) in Hq. lia.
    - apply (mv_used _ Hmv). by exists q. }
  assert (Hd : all_disabled (w_st w1)).
  { intros p q Hq. destruct (enabled q) eqn:Hen; [|done]. destruct (C6 p) as [Hp Hn]; [by exists q|]. exfalso. apply Hn.
    split; [|by apply (mv_used _ Hmv)]. destruct Hp as (q1 & Hq1 & _). apply lookup_lt_Some in Hq1.
    rewrite (mv_apps _ Hmv) in Hq1. apply elem_of_seq. lia. }
  apply wp_bind. eapply wp_mono; [apply map_exit_spec; [done|by rewrite C2|by rewrite C4, C2, (mv_apps _ Hmv)]|].
  intros [] w2 (F2 & Hm2 & Ha2 & Hb2 & Hv2). apply wp_bind, wp_perform, wp_bind, wp_perform, wp_bind, wp_perform, wp_ret.
  cbn [w_st w_trace]. rewrite !frames_mvrp, F2, F1. split; [done|]. split; [done|]. split; [by rewrite Hb2|]. split.
  - apply map_eq. intros v. rewrite lookup_empty. destruct (vlan_heap (upper (w_st w2)) !! v) as [r|] eqn:Hr; [|done].
    assert (Hin : v ∈ vlans (map (upper (w_st w2)))) by (apply (mo_heap _ Hm2); eauto). rewrite Hv2 in Hin.
    by apply elem_of_nil in Hin.
  - rewrite (proj1 (mo_num _ Hm2)). by rewrite Hv2.
Qed.
End init.

Section run.
Context `{!Platform mvrp_call, !MrpMemory} (Hpl : platform_ok) (Htm : timers_ok).
Implicit Types (w : world mvrp_call (Mrp.mrp_ctx mvrp_ctx)) (c : Mrp.mrp_ctx mvrp_ctx) (u : mvrp_ctx).
#[local] Instance run_laws : MrpIndLaws := mvrp_ind_laws Hpl Htm.

(** ** Events *)

(** An event of an application, a change of the link of a logical port, a
    request of the media stack. *)
Inductive mvrp_event :=
| OfMrp (e : mrp_event)
| Link (logical : Z) (up : bool)
| Request (d : ipc_desc).

Definition run_mvrp_event (e : mvrp_event) : M mvrp_call (Mrp.mrp_ctx mvrp_ctx) unit :=
  match e with
  | OfMrp (Packet p data l2 l3 plen) =>
      modify (λ c, c <| rx_data := data |>);;
      let! _ := mvrp_process_packet p l2 l3 plen in ret tt
  | OfMrp e => run_event mvrp_vector_handler e
  | Link l up => mvrp_port_status l up
  | Request d => mvrp_ipc_rx d
  end.

Definition mvrp_event_ok (e : mvrp_event) : Prop :=
  match e with
  | OfMrp e => event_ok e
  | Request d => 0 ≤ d_vlan_id d < 65536
  | _ => True
  end.

Lemma kept_same_ports c c' : kept c c' → same_ports c c'.
Proof. intros Hk. split; apply Hk. Qed.

Lemma run_mvrp_event_spec e w :
  good (w_st w) → mvrp_event_ok e →
  wp (run_mvrp_event e) (λ _ w', good (w_st w') ∧ same_ports (w_st w) (w_st w')) w.
Proof.
  intros Hg He.
  assert (Hmrp : ∀ e, event_ok e → wp (run_event mvrp_vector_handler e) (λ _ w', good (w_st w') ∧ same_ports (w_st w) (w_st w')) w).
  { intros e' He'. apply run_event_spec; try done; [|by apply mvrp_handler_ok]. intros c data Hk. by apply mvrp_ok_rx. }
  destruct e as [e|l up|d]; cbn [run_mvrp_event mvrp_event_ok] in *.
  - destruct e as [p|p|p|a|p data l2 l3 plen]; try by apply Hmrp.
    destruct He as (Hby & H1 & H2 & H3 & H4). apply wp_bind, wp_modify. set (w1 := World _ _ _).
    assert (Hg1 : good (w_st w1)) by (apply good_rx; [done|apply mvrp_ok_rx, Hg]).
    assert (Hsame : same_ports (w_st w) (w_st w1)) by (split; [done|]; intros p' q' Hq'; by exists q').
    unfold mvrp_process_packet. apply wp_bind, wp_bind, wp_gets. destruct (_ <=? p)%nat eqn:E; [by apply wp_ret, wp_ret|].
    apply Nat.leb_gt in E. destruct (negb _); [by apply wp_ret, wp_ret|].
    destruct (lookup_lt_is_Some_2 (apps (w_st w1)) p) as [q Hq].
    { rewrite (mv_apps _ (mk_mv _ (good_up _ Hg1))). exact E. }
    eapply wp_mono; [by eapply process_packet_spec; [|apply mvrp_handler_ok|..]|].
    intros rc w' ([Hg' Hk] & _). apply wp_ret. split; [done|].
    by apply (kept_same_ports (w_st w1)).
  - eapply wp_mono; [by apply port_status_spec|]. intros [] w' (_ & Hw). destruct (port_lookup _ _).
    + split; [apply Hw|apply kept_same_ports, Hw].
    + rewrite Hw. split; [done|]. by apply kept_same_ports.
  - eapply wp_mono; [by apply ipc_rx_spec|]. intros [] w' (size & m & w1 & r & Hd & -> & _).
    destruct (request_good _ _ _ _ _ _ _ Hg Hd) as [Hg1 Hk1]. split; [done|by apply kept_same_ports].
Qed.

Lemma run_mvrp_events_spec es w :
  good (w_st w) → Forall mvrp_event_ok es →
  wp (for_each es run_mvrp_event) (λ _ w', good (w_st w') ∧ same_ports (w_st w) (w_st w')) w.
Proof.
  revert w. induction es as [|e es IH]; intros w Hg Hes.
  { apply wp_ret. split; [done|]. split; [done|]. intros p q Hq. by exists q. }
  apply list.Forall_cons in Hes as [He Hes]. cbn [for_each]. apply wp_bind.
  eapply wp_mono; [by apply run_mvrp_event_spec|]. intros [] w1 (Hg1 & [L1 A1]).
  eapply wp_mono; [by apply IH|]. intros [] w2 (Hg2 & [L2 A2]). split; [done|]. split; [congruence|].
  intros p q Hq. destruct (A1 p q Hq) as (q1 & Hq1 & []). destruct (A2 p q1 Hq1) as (q2 & Hq2 & []).
  exists q2. split; [done|]. split; congruence.
Qed.

(** The state after initialisation. *)
Lemma setup_good cfg i c : setup cfg i c → (cfg_port_max cfg ≤ 16)%nat → cfg_is_bridge cfg = false → good c.
Proof.
  intros [S1 S2 S3 S4 [S5 S5'] [S6 S6'] S7 S8 S9] H16 Hb. split.
  - done.
  - split.
    + by rewrite S5'.
    + split; [|congruence| |done].
      * split; rewrite ?S3, ?S4, ?S5; try done.
        -- apply mask_zero.
        -- constructor.
        -- intros v. rewrite lookup_empty. split; [by intros ?%elem_of_nil|by intros []].
      * intros i0. split.
        -- intros (a & x & Hx & _). by rewrite S2 in Hx.
        -- intros (v & r & Hr & _). by rewrite S3 in Hr.
    + intros v r. by rewrite S3.
  - intros i0 Hv. change (mvrp_view (upper c) i0 = true) in Hv. apply mvrp_view_true in Hv as (v & r & Hr & _). by rewrite S3 in Hr.
Qed.

(** A session: initialisation, then events. *)
Definition mvrp_session (cfg : mvrp_config) (es : list mvrp_event) : M mvrp_call (Mrp.mrp_ctx mvrp_ctx) Z :=
  let! rc := mvrp_init cfg in
  if rc <? 0 then ret rc else
  for_each es run_mvrp_event;;
  ret rc.

Lemma session_spec cfg es w :
  boot cfg (w_st w) → cfg_is_bridge cfg = false → Forall mvrp_event_ok es →
  wp (mvrp_session cfg es) (λ rc w', rc = 0 ∧ good (w_st w') ∨
    rc = -1 ∧ attrs (w_st w') = ∅ ∧ vlan_heap (upper (w_st w')) = ∅) w.
Proof.
  intros Hb Hbr Hes. unfold mvrp_session. apply wp_bind. eapply wp_mono; [by apply mvrp_init_spec|].
  intros rc w1 (_ & [(-> & Hs)|(-> & H1)]).
  - cbn [Z.ltb Z.compare]. apply wp_bind. eapply wp_mono; [apply run_mvrp_events_spec; [|done]|].
    + eapply setup_good; [done|apply Hb|done].
    + intros [] w2 [Hg _]. apply wp_ret. by left.
  - cbn [Z.ltb Z.compare]. apply wp_ret. by right.
Qed.
End run.
