(* ===== verification/MvrpProps.v ===== *)
(** * MVRP: the properties of the protocol

    From initialisation to exit on an endpoint, with instances on two ports. *)

From S2P Require Import Prelude Timer MrpSm MrpPdu Mrp MrpTx MrpSpec MrpRequests MrpJoin MrpEvents MrpInit MrpProps.
From S2P Require Import Mvrp MvrpSpec MvrpEvents MvrpRun.

(** ** What is to be declared *)

Definition forwards (u : mvrp_ctx) (p : nat) : Prop := has (forwarding_state (map u)) p = true.
Definition map_registered (u : mvrp_ctx) (id : Z) (p : nat) : Prop := says_map registered_state u (id_attr id p).
Definition user_declares (u : mvrp_ctx) (id : Z) (p : nat) : Prop := says_map user_declared u (id_attr id p).

(** 802.1Q 10.3: a VLAN is declared on a forwarding port when another
    forwarding port has registered it, or a user of the port declares it. *)
Definition map_declares (u : mvrp_ctx) (id : Z) (p : nat) : Prop :=
  forwards u p ∧ ((∃ j, j ≠ p ∧ forwards u j ∧ map_registered u id j) ∨ user_declares u id p).

Section lemmas.
Context `{!Platform mvrp_call, !MrpMemory}.
Implicit Types (w : world mvrp_call (Mrp.mrp_ctx mvrp_ctx)) (c : Mrp.mrp_ctx mvrp_ctx) (u : mvrp_ctx).

Lemma says_id mask u id p :
  map_ok u → 0 ≤ id < 65536 →
  says_map mask u (id_attr id p) ↔ ∃ v r, vlan_heap u !! v = Some r ∧ vlan_id r = id ∧ has (mask r) p = true.
Proof.
  intros Hm Hid. split.
  - intros (v & r & Hr & Hi & Hp). exists v, r. split; [done|]. split; [|done].
    apply (f_equal snd) in Hi. cbn [vlan_attr id_attr snd] in Hi. symmetry. apply vid_bytes_inj; [done|apply (mo_vlan _ Hm v r Hr)|done].
  - intros (v & r & Hr & <- & Hp). by exists v, r.
Qed.

Lemma needed_map u v r p :
  map_ok u → vlan_heap u !! v = Some r → needed (map u) r p = true ↔ map_declares u (vlan_id r) p.
Proof.
  intros Hm Hr. pose proof (mo_vlan _ Hm v r Hr) as Hok. pose proof (proj1 (vo_vid _ _ Hok)) as Hid.
  assert (Hsame : ∀ mask j, says_map mask u (id_attr (vlan_id r) j) ↔ has (mask r) j = true).
  { intros mask j. rewrite says_id by done. split; [|by intros; exists v, r]. intros (v1 & r1 & H1 & H2 & H3).
    assert (v1 = v) as -> by by eapply (mo_unique _ Hm). congruence. }
  unfold needed, map_declares, forwards, map_registered, user_declares. rewrite forwarding_has, user_has, andb_true_iff, orb_true_iff.
  rewrite other_forwarding_has by apply (vo_reg _ _ Hok). rewrite Hsame. setoid_rewrite Hsame. naive_solver.
Qed.

(** The declarations of the applications, against the specification. *)
Lemma declares_needed c id p :
  mvrp_ok c → 0 ≤ id < 65536 → declares c (id_attr id p) → map_declares (upper c) id p.
Proof.
  intros Hk Hid Hd. pose proof (mv_map _ (mk_mv _ Hk)) as Hm. apply (mv_declares _ (mk_mv _ Hk)) in Hd.
  apply says_id in Hd as (v & r & Hr & <- & Hp); [|done|done]. apply (needed_map _ v); [done|done|].
  by apply (mk_done _ Hk v r Hr).
Qed.
Lemma needed_declares c id p :
  mvrp_ok c → 0 ≤ id < 65536 → plenty → app_enabled c p → map_declares (upper c) id p → declares c (id_attr id p).
Proof.
  intros Hk Hid Hp Hen Hd. pose proof (mv_map _ (mk_mv _ Hk)) as Hm. apply (mv_declares _ (mk_mv _ Hk)).
  assert (Hv : ∃ v r, vlan_heap (upper c) !! v = Some r ∧ vlan_id r = id).
  { destruct Hd as [_ [(j & _ & _ & Hs)|Hs]]; apply says_id in Hs as (v & r & ? & ? & _); eauto. }
  destruct Hv as (v & r & Hr & <-). apply (says_id declared_state); [done|done|]. exists v, r. split; [done|]. split; [done|].
  apply (vd_lack _ _ (mk_done _ Hk v r Hr) Hp p Hen). by apply (needed_map _ v).
Qed.
End lemmas.

Section props.
Context `{!Platform mvrp_call, !MrpMemory}.
Implicit Types (w : world mvrp_call (Mrp.mrp_ctx mvrp_ctx)) (c : Mrp.mrp_ctx mvrp_ctx) (u : mvrp_ctx).

(** What holds between two events. *)
Record mvrp_state_ok c : Prop := {
  ms_mrp : mrp_ok c;
  ms_mvrp : mvrp_ok c;
  ms_registered : ∀ i, says_map registered_state (upper c) i → registers c i;
}.
Section good.
Context (Hpl : platform_ok) (Htm : timers_ok).
#[local] Instance props_laws : MrpIndLaws := mvrp_ind_laws Hpl Htm.
Lemma good_state_ok c : good c ↔ mvrp_state_ok c.
Proof.
  split.
  - intros [G1 G2 G3]. split; [done|done|]. intros i Hi. apply G3. by apply mvrp_view_true.
  - intros [G1 G2 G3]. split; [done|done|]. intros i Hi. apply G3. by apply mvrp_view_true.
Qed.
End good.

(** C3: on an endpoint (not a bridge), on a platform that keeps its promises
    ([platform_ok]) and can create its timers ([timers_ok]), from zeroed memory,
    initialisation followed by any sequence of timer expiries, received
    packets, link changes and requests of the media stack runs without
    undefined behaviour, and ends in a state in which the map, the MRP
    applications and the registrations that MVRP was told of agree; a failed
    initialisation leaves no attribute and no VLAN allocated (its second
    sending channel it leaves open: mvrp.c:752 does not close [ipc_tx_sync]).
    The conditions are needed: on a bridge a leave indication reads a VLAN that
    was just freed ([bridge_leave_uses_freed_vlan]), and without a timer
    mrp_alloc_attribute frees an attribute that is linked in two lists
    (mrp.c:1734). *)
Theorem mvrp_session_safe cfg es w :
  platform_ok → timers_ok → boot cfg (w_st w) → cfg_is_bridge cfg = false → Forall mvrp_event_ok es →
  wp (mvrp_session cfg es) (λ rc w', rc = 0 ∧ mvrp_state_ok (w_st w') ∨
    rc = -1 ∧ attrs (w_st w') = ∅ ∧ vlan_heap (upper (w_st w')) = ∅) w.
Proof.
  intros Hpl Htm Hb Hbr Hes. eapply wp_mono; [by apply (session_spec Hpl Htm)|]. intros rc w' [[-> Hg]|H1]; [left|by right].
  split; [done|]. by apply (good_state_ok Hpl Htm).
Qed.

(** C1: (802.1Q 10.3) on an endpoint with memory for attributes and timers, after any session the
    applicant of an enabled port declares a VLAN exactly when the port
    forwards and another forwarding port has registered the VLAN or a user of
    the port declares it; and every registration of the map is one of MRP. *)
Theorem mvrp_propagation cfg es w :
  platform_ok → timers_ok → plenty → boot cfg (w_st w) → cfg_is_bridge cfg = false → Forall mvrp_event_ok es →
  wp (mvrp_session cfg es) (λ rc w', rc = 0 → ∀ id p, 0 ≤ id < 65536 → app_enabled (w_st w') p →
    (declares (w_st w') (id_attr id p) ↔ map_declares (upper (w_st w')) id p) ∧
    (map_registered (upper (w_st w')) id p → registers (w_st w') (id_attr id p))) w.
Proof.
  intros Hpl Htm Hp Hb Hbr Hes. eapply wp_mono; [by apply (session_spec Hpl Htm)|]. intros rc w' [[-> Hg]|(-> & _)]; [|done].
  apply (good_state_ok Hpl Htm) in Hg as [G1 G2 G3]. intros _ id p Hid Hen. split; [|apply G3].
  split; [by apply declares_needed|by apply needed_declares].
Qed.

(** After any session the VLANs are at most 32, counted exactly, have
    identifiers between 1 and 4094, all different, and port sets within the
    ports of the configuration. *)
Theorem mvrp_vlan_bounds cfg es w :
  platform_ok → timers_ok → boot cfg (w_st w) → cfg_is_bridge cfg = false → Forall mvrp_event_ok es →
  wp (mvrp_session cfg es) (λ rc w', rc = 0 → let u := upper (w_st w') in
    num_vlans (map u) = len (vlans (map u)) ∧ num_vlans (map u) ≤ 32 ∧
    (∀ v r, vlan_heap u !! v = Some r → 1 ≤ ntohs (vlan_id r) ≤ 4094 ∧
       registered_state r < 2 ^ Z.of_nat (port_max u) ∧ declared_state r < 2 ^ Z.of_nat (port_max u) ∧
       user_declared r < 2 ^ Z.of_nat (port_max u)) ∧
    (∀ v1 v2 r1 r2, vlan_heap u !! v1 = Some r1 → vlan_heap u !! v2 = Some r2 → vlan_id r1 = vlan_id r2 → v1 = v2)) w.
Proof.
  intros Hpl Htm Hb Hbr Hes. eapply wp_mono; [by apply (session_spec Hpl Htm)|]. intros rc w' [[-> Hg]|(-> & _)]; [|done].
  intros _. pose proof (mv_map _ (mk_mv _ (good_up _ Hg))) as Hm. cbv zeta. destruct (mo_num _ Hm) as [N1 N2].
  split; [done|]. split; [done|]. split; [|by apply Hm].
  intros v r Hr. destruct (mo_vlan _ Hm v r Hr) as [[_ ?] [_ ?] [_ ?] _ [_ ?] _]. done.
Qed.

(** ** Requests of the media stack *)

(** The last calls of the handler of a request, after [w1]: its only response
    is sent, its descriptor is released. *)
Definition answered (d : ipc_desc) (size : Z) (m : ipc_msg) w1 w' : Prop :=
  w_st w' = w_st w1 ∧
  ∃ r, w_trace w' = (IpcRxFree, r) :: reply (sync_request d) size m (w_clock w1) ++ w_trace w1.

(** C30: a registration of a VLAN by a user of a port counts one user more
    and declares the VLAN for the port, and is answered with success; when the
    VLAN cannot be created (identifier out of range, 32 VLANs, no memory)
    nothing changes and the answer says so; no other VLAN, port or
    registration is affected. *)
Theorem register_request d p w :
  platform_ok → timers_ok → mvrp_state_ok (w_st w) → 0 ≤ d_vlan_id d < 65536 →
  d_type d = GENAVB_MSG_VLAN_REGISTER → d_len d = ipc_vlan_register_size → port_lookup (upper (w_st w)) (d_port d) = Some p →
  wp (mvrp_ipc_rx d) (λ _ w', let id := htons (d_vlan_id d) in
    ∃ rc w1, answered d ipc_vlan_response_size (vlan_reply d rc) w1 w' ∧
      ((rc = GENAVB_ERR_CTRL_FAILED ∧ w_st w' = w_st w ∧ refused (upper (w_st w)) id) ∨
       (rc = GENAVB_SUCCESS ∧ mvrp_state_ok (w_st w') ∧ same_but id p (w_st w) (w_st w') ∧
        user_declares (upper (w_st w')) id p ∧
        ∀ n, ref_is (upper (w_st w')) id p n ↔ ∃ m, ref_is (upper (w_st w)) id p m ∧ n = u32 (m + 1)))) w.
Proof.
  intros Hpl Htm Hg Hid Hty Hlen Hport. apply (good_state_ok Hpl Htm) in Hg.
  eapply wp_mono; [by apply (ipc_rx_spec Hpl Htm)|]. intros [] w' (size & m & w1 & r & Hd & Hs & Htr).
  unfold request_done in Hd. rewrite Hty, Hlen, Hport in Hd. cbn [Z.eqb Pos.eqb orb negb GENAVB_MSG_VLAN_REGISTER GENAVB_MSG_VLAN_DEREGISTER ipc_vlan_register_size] in Hd.
  destruct Hd as (rc & -> & -> & (_ & Hcase)). exists rc, w1. split; [by split; [|exists r]|]. rewrite Hs.
  destruct Hcase as [H1|(-> & [M1 M2 M3] & Hu)]; [by left|]. right.
  apply good_state_ok in M1. done.
Qed.

(** A user that leaves is uncounted (never below zero); when it was the
    last one the user declaration of the port is withdrawn; the answer is
    success, and no other VLAN, port or registration is affected. *)
Lemma deregister_request d p w :
  platform_ok → timers_ok → mvrp_state_ok (w_st w) → 0 ≤ d_vlan_id d < 65536 →
  d_type d = GENAVB_MSG_VLAN_DEREGISTER → d_len d = ipc_vlan_register_size → port_lookup (upper (w_st w)) (d_port d) = Some p →
  wp (mvrp_ipc_rx d) (λ _ w', let id := htons (d_vlan_id d) in
    ∃ w1, answered d ipc_vlan_response_size (vlan_reply d GENAVB_SUCCESS) w1 w' ∧
      mvrp_state_ok (w_st w') ∧ same_but id p (w_st w) (w_st w') ∧
      (∀ n, ref_is (upper (w_st w')) id p n ↔ ∃ m, ref_is (upper (w_st w)) id p m ∧ n = Z.max 0 (m - 1)) ∧
      (ref_is (upper (w_st w')) id p 0 → ¬ user_declares (upper (w_st w')) id p)) w.
Proof.
  intros Hpl Htm Hg Hid Hty Hlen Hport. apply (good_state_ok Hpl Htm) in Hg.
  eapply wp_mono; [by apply (ipc_rx_spec Hpl Htm)|]. intros [] w' (size & m & w1 & r & Hd & Hs & Htr).
  unfold request_done in Hd. rewrite Hty, Hlen, Hport in Hd. cbn [Z.eqb Pos.eqb orb negb GENAVB_MSG_VLAN_REGISTER GENAVB_MSG_VLAN_DEREGISTER ipc_vlan_register_size] in Hd.
  destruct Hd as (rc & -> & -> & (_ & -> & [M1 M2 M3] & Hn)). exists w1. split; [by split; [|exists r]|]. rewrite Hs.
  apply good_state_ok in M1. done.
Qed.

(** A request that is refused, and why. *)
Definition bad_request (d : ipc_desc) u : option (Z * ipc_msg) :=
  if (d_type d =? GENAVB_MSG_VLAN_REGISTER) || (d_type d =? GENAVB_MSG_VLAN_DEREGISTER) then
    if negb (d_len d =? ipc_vlan_register_size) then Some (ipc_error_response_size, error_reply d GENAVB_ERR_CTRL_LEN)
    else match port_lookup u (d_port d) with
         | None => Some (ipc_vlan_response_size, vlan_reply d GENAVB_ERR_CTRL_INVALID)
         | Some _ => None
         end
  else Some (ipc_error_response_size, error_reply d GENAVB_ERR_CTRL_INVALID).

(** C33: a request of an unknown type, of the wrong length or for a port that
    is not in use changes nothing and makes no call but those of its answer,
    which names the error. *)
Theorem bad_request_answered d size m w :
  platform_ok → timers_ok → mvrp_state_ok (w_st w) → 0 ≤ d_vlan_id d < 65536 → bad_request d (upper (w_st w)) = Some (size, m) →
  wp (mvrp_ipc_rx d) (λ _ w', answered d size m w w') w.
Proof.
  intros Hpl Htm Hg Hid Hb. apply (good_state_ok Hpl Htm) in Hg.
  eapply wp_mono; [by apply (ipc_rx_spec Hpl Htm)|]. intros [] w' (size' & m' & w1 & r & Hd & Hs & Htr).
  unfold request_done in Hd. unfold bad_request in Hb. destruct (_ || _).
  - destruct (negb _).
    + injection Hb as <- <-. destruct Hd as (-> & -> & ->). split; [done|]. by exists r.
    + destruct Hd as (rc & -> & -> & Hd). destruct (port_lookup _ _); [done|]. injection Hb as <- <-.
      destruct Hd as (-> & ->). split; [done|]. by exists r.
  - injection Hb as <- <-. destruct Hd as (-> & -> & ->). split; [done|]. by exists r.
Qed.

(** ** Link changes *)

(** A change of the link of a port sets or clears its forwarding and
    operational states and no other, keeps every registration and every user
    declaration, and brings the declarations up to date; after a link down
    nothing is declared on the port. *)
Theorem link_change l b p w :
  platform_ok → timers_ok → mvrp_state_ok (w_st w) → port_lookup (upper (w_st w)) l = Some p →
  wp (mvrp_port_status l b) (λ _ w', mvrp_state_ok (w_st w') ∧
    (∀ j, has (forwarding_state (map (upper (w_st w')))) j = if decide (j = p) then b else has (forwarding_state (map (upper (w_st w)))) j) ∧
    operational_state (upper (w_st w')) = set_mask b p (operational_state (upper (w_st w))) ∧
    (∀ i, registers (w_st w') i ↔ registers (w_st w) i) ∧
    (∀ id j, user_declares (upper (w_st w')) id j ↔ user_declares (upper (w_st w)) id j) ∧
    (b = false → ∀ id, 0 ≤ id < 65536 → ¬ declares (w_st w') (id_attr id p))) w.
Proof.
  intros Hpl Htm Hg Hport. apply (good_state_ok Hpl Htm) in Hg.
  eapply wp_mono; [by apply (port_status_spec Hpl Htm)|]. intros [] w' (_ & Hw). rewrite Hport in Hw.
  destruct Hw as [L1 L2 L3 L4 L5 L6]. apply good_state_ok in L1. split; [done|]. split; [done|]. split; [done|]. split; [done|]. split.
  - intros id j. apply L6. by right.
  - intros -> id Hid Hd. apply (declares_needed _ id p (ms_mvrp _ L1) Hid) in Hd as [Hf _].
    unfold forwards in Hf. by rewrite L3, decide_True in Hf.
Qed.

(** ** Propagation of a received declaration *)

(** When a port receives New, JoinIn or JoinMt for a VLAN that it has not
    registered, and the VLAN is known or can be created, then the port
    registers it, the map learns it, and every other forwarding and enabled
    port declares it. *)
Lemma received_join_propagates p q id event w :
  platform_ok → timers_ok → plenty → mvrp_state_ok (w_st w) → apps (w_st w) !! p = Some q → enabled q = true →
  0 ≤ id < 65536 → joining event = true → ¬ registers (w_st w) (id_attr id p) → mvrp_admits (upper (w_st w)) (id_attr id p) →
  forwards (upper (w_st w)) p →
  wp (mrp_process_attribute p MVRP_ATTR_TYPE_VID (vid_bytes id) event) (λ _ w', mvrp_state_ok (w_st w') ∧
    registers (w_st w') (id_attr id p) ∧ map_registered (upper (w_st w')) id p ∧
    ∀ j, j ≠ p → forwards (upper (w_st w)) j → app_enabled (w_st w) j → declares (w_st w') (id_attr id j)) w.
Proof.
  intros Hpl Htm Hp Hg Hq Hen Hid Hj Hn Ha Hf. apply (good_state_ok Hpl Htm) in Hg.
  assert (Hval : val_ok MVRP_ATTR_TYPE_VID (vid_bytes id)) by (split; [exact (le_n 2)|by apply vid_bytes_bytes]).
  eapply wp_mono; [eapply (@process_attribute_spec _ _ _ _ _ _ _ _ _ (mvrp_ind_laws Hpl Htm)); try done|].
  intros rc w' ([Hg' Hk'] & Hst & Hpost). apply (good_state_ok Hpl Htm) in Hg'. cbv zeta in Hpost.
  change (value MVRP_ATTR_TYPE_VID (vid_bytes id)) with (vid_bytes id) in Hpost.
  destruct (Hpost Hj (Hp _)) as [Hreg Hview]. specialize (Hview Hn Ha). apply mvrp_view_true in Hview.
  split; [done|]. split; [done|]. split; [done|]. intros j Hne Hfj Henj.
  pose proof (sc_forwarding _ _ Hst) as Efwd.
  apply needed_declares; [apply Hg'|done|done| |].
  - destruct Henj as (q0 & Hq0 & Hen0). destruct (kept_enabled _ _ _ _ Hk' Hq0 Hen0) as (q1 & ? & ? & _). by exists q1.
  - split; [unfold forwards; by rewrite Efwd|]. left. exists p. split; [done|]. split; [unfold forwards; by rewrite Efwd|done].
Qed.

(** ** Exit *)

(** C35: exit releases every attribute of every port and every VLAN, without
    touching any of them afterwards, and sends nothing. *)
Theorem mvrp_exit_releases w :
  mvrp_state_ok (w_st w) →
  wp mvrp_exit (λ rc w', rc = 0 ∧ frames (w_trace w') = frames (w_trace w) ∧
    attrs (w_st w') = ∅ ∧ vlan_heap (upper (w_st w')) = ∅ ∧ num_vlans (map (upper (w_st w'))) = 0) w.
Proof. intros [G1 G2 _]. apply mvrp_exit_spec; [done|apply G2]. Qed.

(** ** A defect: bridges *)

Lemma faults_bind {A B} (m : M mvrp_call (Mrp.mrp_ctx mvrp_ctx) A) (k : A → M mvrp_call (Mrp.mrp_ctx mvrp_ctx) B) Q f w :
  wp m Q w → (∀ a w', Q a w' → k a w' = Fault f) → bind m k w = Fault f.
Proof. unfold wp, bind. destruct (m w) as [[a w']| |]; [|done|done]. intros HQ Hk. by apply Hk. Qed.

(** C38: on a bridge, the indication that the last registration of a VLAN
    without users is gone releases the VLAN and then reads its identifier from
    the released memory. *)
Theorem bridge_leave_uses_freed_vlan `{!MrpInd mvrp_call mvrp_ctx} a x v r w :
  platform_ok → timers_ok → mrp_ok (w_st w) → mv_ok (w_st w) → is_bridge (upper (w_st w)) = true →
  attrs (w_st w) !! a = Some x → vlan_heap (upper (w_st w)) !! v = Some r → vlan_id r = vid_of (attr_val x) →
  (∀ j, has (registered_state r) j = true → j = attr_app x) → user_declared r = 0 →
  mvrp_leave_indication (attr_app x) a w = Fault UseAfterFree.
Proof.
  intros Hpl Htm Hi Hmv Hbr Hx Hv Hid Hreg Hus. pose proof (mv_map _ Hmv) as Hm. pose proof (mo_vlan _ Hm v r Hv) as Hr.
  destruct (attr_port _ a x Hi Hmv Hx) as [Hlt [q Hq]]. destruct (mo_ports _ Hm) as [H16 _].
  destruct (clear_bit_spec _ (registered_state r) (attr_app x) H16 (vo_reg _ _ Hr)) as [Cm Cb].
  set (r1 := r <| registered_state ::= clear_bit (attr_app x) |>). set (c1 := (w_st w) <| upper ::= vset v r1 |>).
  assert (Hr1 : vlan_ok (port_max (upper (w_st w))) r1) by (destruct Hr; by split).
  assert (Hunused : used r1 = false).
  { unfold used, is_vlan_registered_any, is_vlan_user_declared_any. change (user_declared r1) with (user_declared r). rewrite Hus, orb_false_r.
    destruct (truth _) eqn:E; [|done]. apply truth_true in E as [j Hj]; [|apply Cm]. change (has (clear_bit (attr_app x) (registered_state r)) j = true) in Hj.
    rewrite Cb in Hj. case_decide as D; [done|]. by destruct D; apply Hreg. }
  assert (Hi1 : mrp_ok c1) by by apply mrp_ok_upper.
  assert (Hmv1 : mv_ok c1) by by eapply mv_ok_vset.
  unfold mvrp_leave_indication. eapply (faults_bind _ _ (λ y w', y = x ∧ w' = w)); [by eapply wp_get_attr|]. intros ? ? [-> ->].
  eapply faults_bind; [by apply find_vlan_spec|]. intros o w' (-> & Ho). destruct o as [v'|].
  2:{ by destruct (Ho v r Hv). }
  destruct Ho as (r' & Hv' & Hid'). assert (v' = v) as -> by (eapply (mo_unique _ Hm); [done|done|congruence]).
  eapply (faults_bind _ _ (λ _ w', w' = w)).
  { unfold get_port. apply wp_bind, wp_gets, wp_deref. by exists q. }
  intros ? ? ->. eapply (faults_bind _ _ (λ _ w', w' = World c1 (w_clock w) (w_trace w))).
  { apply wp_modify. f_equal. unfold c1, vset, over, over_field; cbn. by rewrite (alter_as_insert _ _ _ r). }
  intros _ ? ->. eapply faults_bind.
  { apply (update_vlan_spec v r1 false); [done|done|exact Hi1|exact Hmv1|apply lookup_insert_eq]. }
  intros [] w2 (_ & r2 & S). pose proof (settled_config _ _ _ _ _ S) as K. pose proof (se_upper _ _ _ _ _ S) as Hu. rewrite Hunused in Hu.
  assert (Hb2 : is_bridge (upper (w_st w2)) = true) by (rewrite (sc_bridge _ _ K); done).
  assert (Hv2 : vlan_heap (upper (w_st w2)) !! v = None) by (rewrite (co_heap _ _ Hu); apply lookup_delete_eq).
  unfold bind at 1, mv_get at 1, gets. rewrite Hb2. unfold when, get_vlan, bind, mv_get, gets, deref, crash. by rewrite Hv2.
Qed.
End props.
