(* ===== verification/MvrpExample.v ===== *)
(** * MVRP: an endpoint with two ports

    A platform with memory and a network, and sessions on it: instances of the
    properties of MrpProps.v and MvrpProps.v. *)

From S2P Require Import Prelude Timer MrpSm MrpPdu Mrp MrpTx MrpSpec MrpRequests MrpJoin MrpEvents MrpInit MrpProps.
From S2P Require Import Mvrp MvrpSpec MvrpEvents MvrpRun MvrpProps.

Module Endpoint.
#[local] Instance platform : Platform mvrp_call := λ n c, match c with MrpCall (MrpMtu _) => 1500 | _ => 1 end.
#[local] Instance memory : MrpMemory := {|
  fresh_attr := λ _, (MrpApplicant MRP_STATE_QA MRP_ACTION_SN, MrpRegistrar MRP_STATE_LV MRP_ACTION_LV (SoftTimer false true));
  fresh_frame := λ _, replicate 1600 7;
|}.

Definition config : mvrp_config := MvrpConfig false 2 [0; 1].
Definition zeroed : Mrp.mrp_ctx mvrp_ctx :=
  MrpCtx [mrp_application_zero; mrp_application_zero] ∅ [1000; 1000] []
    (MvrpCtx (MvrpMap 0 [] 0 0) ∅ 0 0 false [MvrpPort 0 0 true 0 0; MvrpPort 0 0 true 0 0]).
Definition start : world mvrp_call (Mrp.mrp_ctx mvrp_ctx) := World zeroed 0 [].

(** The state after a session. *)
Definition end_of (es : list mvrp_event) : world mvrp_call (Mrp.mrp_ctx mvrp_ctx) :=
  match mvrp_session config es start with Done (_, w) => w | _ => start end.

(** A packet that declares VLAN 2, and requests for it. *)
Definition join_packet : list Z :=
  mvrp_dst_mac ++ [2; 0; 0; 0; 0; 9] ++ [0x88; 0xf5] ++ [0] ++ [1; 2] ++ [0; 1] ++ [0; 2] ++ [36] ++ [0; 0; 0; 0] ++ replicate 30 0.
Definition register_vlan : ipc_desc := IpcDesc 5 GENAVB_MSG_VLAN_REGISTER 4 0 0 2.
Definition deregister_vlan : ipc_desc := IpcDesc 5 GENAVB_MSG_VLAN_DEREGISTER 4 0 0 2.

Definition links : list mvrp_event := [Link 0 true; Link 1 true].
Definition joined : list mvrp_event := links ++ [OfMrp (Packet 0 join_packet 0 14 26)].
Definition declared_vlan : list mvrp_event := links ++ [Request register_vlan].

Lemma platform_fine : platform_ok.
Proof. split; [|done]. intros n p t. unfold mtu_ok. cbn. unfold mvrp_attribute_length, MVRP_ATTR_LEN, DEFAULT_NET_DATA_SIZE. lia. Qed.
Lemma timers_fine : timers_ok.
Proof. intros n. cbn. lia. Qed.
Lemma memory_fine : plenty.
Proof. done. Qed.
Lemma network_fine : healthy.
Proof. done. Qed.

Lemma config_boot : boot config zeroed.
Proof.
  split; try done; cbn; try lia.
  - intros [|[|p]] q; cbn; by intros [= <-].
  - intros [|[|p]] Hp; [by exists 1000|by exists 1000|lia].
Qed.

#[local] Instance laws : MrpIndLaws := mvrp_ind_laws platform_fine timers_fine.

(** Sessions that start well end well. *)
Definition outcome (es : list mvrp_event) : Z := match mvrp_session config es start with Done (rc, _) => rc | _ => -2 end.
Lemma session_good es : Forall mvrp_event_ok es → outcome es = 0 → good (w_st (end_of es)).
Proof.
  intros Hes. destruct (proj1 (wp_done _ _ _) (session_spec platform_fine timers_fine config es start config_boot eq_refl Hes)) as (rc & w & E & H).
  unfold outcome, end_of. rewrite E. intros ->. destruct H as [[_ Hg]|[H _]]; [exact Hg|discriminate H].
Qed.

(** All events of the sessions are proper. *)
Lemma packet_ok : event_ok (Packet 0 join_packet 0 14 26).
Proof.
  cbn [event_ok]. change (len join_packet) with 56. split_and!; try lia.
  unfold join_packet, mvrp_dst_mac, is_byte. cbn. repeat constructor; lia.
Qed.
Ltac session := apply session_good; [repeat (apply list.Forall_cons_2; [first [exact I | exact packet_ok | (cbn; lia)]|]); apply list.Forall_nil_2|vm_compute; reflexivity].

Lemma joined_good : good (w_st (end_of joined)).
Proof. session. Qed.
Lemma declared_good : good (w_st (end_of declared_vlan)).
Proof. session. Qed.

Definition app (es : list mvrp_event) (p : nat) : mrp_application := default mrp_application_zero (apps (w_st (end_of es)) !! p).
Lemma links_good : good (w_st (end_of links)).
Proof. session. Qed.

(** ** MRP *)

Lemma requests_refine_set_witness :
  wp (for_each [JoinReq 1 [0; 2] false; JoinReq 1 [0; 3] true; LeaveReq 1 [0; 2]] (run_request 0))
    (λ _ w', declares (w_st w') (0%nat, 1%nat, [0; 3]) ∧ ¬ declares (w_st w') (0%nat, 1%nat, [0; 2])) (end_of links).
Proof.
  eapply wp_mono.
  - apply (requests_refine_set 0 (app links 0)); [exact platform_fine|exact timers_fine|exact memory_fine|exact (good_mrp _ links_good)
      |vm_compute; reflexivity|vm_compute; reflexivity|].
    apply list.Forall_forall. intros r Hr. unfold request_ok, val_ok, is_byte. cbn. unfold mvrp_attribute_value_length, MVRP_ATTR_TYPE_VID.
    repeat (apply elem_of_cons in Hr as [->|Hr]; [cbn; split; [lia|]; split; [lia|]; repeat constructor; lia|]). by apply elem_of_nil in Hr.
  - intros [] w' (_ & _ & HD & _). split; [apply HD; split; [discriminate|by left]|]. rewrite HD. by intros [? _].
Defined.

Lemma idle_links es p t d :
  apps (w_st (end_of es)) !! p = Some (app es p) → mrpdu (app es p) !! t = Some d → pdu_idle d → idle_at (w_st (end_of es)) p t.
Proof. intros Hq Hd Hi. exists d. split; [|exact Hi]. exists (app es p). exact (conj Hq Hd). Qed.
Ltac idle := intros t ->%list_elem_of_singleton; eapply idle_links; [vm_compute; reflexivity|vm_compute; reflexivity|vm_compute; split; reflexivity].

Lemma transmission_opportunity_witness :
  app_state (applicant (default (new_attribute 0 0 []) (attrs (w_st (end_of declared_vlan)) !! 0%nat))) = MRP_STATE_VN ∧
  wp (join_expires 0) (λ _ w', mrp_ok (w_st w')) (end_of declared_vlan).
Proof.
  split; [vm_compute; reflexivity|]. eapply wp_mono.
  - apply (transmission_opportunity 0 (app declared_vlan 0)); [exact platform_fine|exact network_fine|exact (good_mrp _ declared_good)
      |vm_compute; reflexivity|vm_compute; reflexivity|idle|vm_compute; reflexivity].
  - intros [] w' (Hok & _). exact Hok.
Defined.

Definition leaving : list mvrp_event := joined ++ [OfMrp (LeaveAllTimer 0)].
Lemma leaving_good : good (w_st (end_of leaving)).
Proof. session. Qed.

Lemma leaveall_opportunity_witness :
  lva_active (app leaving 0) = true ∧ wp (join_expires 0) (λ _ w', mrp_ok (w_st w')) (end_of leaving).
Proof.
  split; [vm_compute; reflexivity|]. eapply wp_mono.
  - apply (leaveall_opportunity 0 (app leaving 0)); [exact platform_fine|exact network_fine|exact (good_mrp _ leaving_good)
      |vm_compute; reflexivity|vm_compute; reflexivity|idle|vm_compute; reflexivity].
  - intros [] w' (Hok & _). exact Hok.
Defined.

Definition aging : list mvrp_event := leaving ++ [OfMrp (JoinTimer 0)].
Lemma aging_good : good (w_st (end_of aging)).
Proof. session. Qed.
Definition attr (es : list mvrp_event) (a : nat) : mrp_attribute := default (new_attribute 0 0 []) (attrs (w_st (end_of es)) !! a).

Lemma leave_timer_deregisters_witness :
  registers (w_st (end_of aging)) (0%nat, 1%nat, [0; 2]) ∧
  wp (leave_expires 0) (λ _ w', ¬ registers (w_st w') (0%nat, 1%nat, [0; 2])) (end_of aging).
Proof.
  split; [exists 0%nat, (attr aging 0); vm_compute; split_and!; reflexivity|]. eapply wp_mono.
  - apply (leave_timer_deregisters 0 (attr aging 0) (app aging 0)); [exact aging_good|vm_compute; reflexivity|vm_compute; reflexivity|vm_compute; reflexivity].
  - intros [] w' (_ & Hn & _). exact Hn.
Defined.

(** A packet in the buffer. *)
Definition received : world mvrp_call (Mrp.mrp_ctx mvrp_ctx) :=
  World ((w_st (end_of links)) <| rx_data := join_packet |>) (w_clock (end_of links)) (w_trace (end_of links)).
Lemma received_good : good (w_st received).
Proof. apply (good_rx _ _ links_good). apply mvrp_ok_rx. exact (good_up _ links_good). Qed.

Lemma packet_processing_terminates_witness :
  wp (mrp_process_packet mvrp_vector_handler 0 0 14 26) (λ rc w', good (w_st w') ∧ (rc = 0 ∨ rc = -1)) received.
Proof.
  destruct packet_ok as (Hb & H1 & H2 & H3 & H4). eapply wp_mono.
  - apply (packet_processing_terminates mvrp_vector_handler 0 (app links 0)); [exact platform_fine|apply (mvrp_handler_ok platform_fine timers_fine)
      |exact received_good|vm_compute; reflexivity|exact Hb|exact H1|exact H2|exact H3|exact H4].
  - intros rc w' (Hg & _ & Hrc). exact (conj Hg Hrc).
Defined.

(** ** MVRP *)

Definition session_events : list mvrp_event := joined ++ [Request register_vlan; OfMrp (JoinTimer 1); Link 0 false; Request deregister_vlan].
Lemma session_events_ok : Forall mvrp_event_ok session_events.
Proof. repeat (apply list.Forall_cons_2; [first [exact I | exact packet_ok | (cbn; lia)]|]); apply list.Forall_nil_2. Qed.

Lemma mvrp_session_safe_witness :
  outcome session_events = 0 ∧
  wp (mvrp_session config session_events) (λ rc w', rc = 0 ∧ mvrp_state_ok (w_st w') ∨
    rc = -1 ∧ attrs (w_st w') = ∅ ∧ vlan_heap (upper (w_st w')) = ∅) start.
Proof.
  split; [vm_compute; reflexivity|].
  apply (mvrp_session_safe config session_events start platform_fine timers_fine config_boot eq_refl session_events_ok).
Defined.

Lemma joined_ok : Forall mvrp_event_ok joined.
Proof. repeat (apply list.Forall_cons_2; [first [exact I | exact packet_ok | (cbn; lia)]|]); apply list.Forall_nil_2. Qed.

Lemma mvrp_propagation_witness :
  map_declares (upper (w_st (end_of joined))) 512 1 ∧
  wp (mvrp_session config joined) (λ rc w', rc = 0 → ∀ p, app_enabled (w_st w') p →
    (declares (w_st w') (id_attr 512 p) ↔ map_declares (upper (w_st w')) 512 p)) start.
Proof.
  split.
  - split; [vm_compute; reflexivity|]. left. exists 0%nat. split; [discriminate|]. split; [vm_compute; reflexivity|].
    exists 0%nat, (MvrpVlan 1 2 0 512 0 [0; 0]). split_and!; vm_compute; reflexivity.
  - eapply wp_mono.
    + apply (mvrp_propagation config joined start platform_fine timers_fine memory_fine config_boot eq_refl joined_ok).
    + intros rc w' H0 Hrc p Hp. apply (H0 Hrc 512 p); [lia|exact Hp].
Defined.

Lemma mvrp_vlan_bounds_witness :
  wp (mvrp_session config joined) (λ rc w', rc = 0 → num_vlans (map (upper (w_st w'))) ≤ 32) start.
Proof.
  eapply wp_mono.
  - apply (mvrp_vlan_bounds config joined start platform_fine timers_fine config_boot eq_refl joined_ok).
  - intros rc w' H0 Hrc. exact (proj1 (proj2 (H0 Hrc))).
Defined.

Lemma state_ok es : good (w_st (end_of es)) → mvrp_state_ok (w_st (end_of es)).
Proof. exact (proj1 (good_state_ok platform_fine timers_fine _)). Qed.

Lemma register_request_witness :
  wp (mvrp_ipc_rx register_vlan) (λ _ w', mvrp_state_ok (w_st w') ∨ w_st w' = w_st (end_of links)) (end_of links).
Proof.
  eapply wp_mono.
  - apply (register_request register_vlan 0 (end_of links) platform_fine timers_fine (state_ok _ links_good));
      [cbn; lia|reflexivity|reflexivity|vm_compute; reflexivity].
  - intros [] w' (rc & w1 & _ & [(_ & E & _)|(_ & Hok & _)]); [right; exact E|left; exact Hok].
Defined.

(** A request for a port that does not exist. *)
Definition lost_request : ipc_desc := IpcDesc 5 GENAVB_MSG_VLAN_REGISTER 4 1 7 2.
Lemma bad_request_answered_witness :
  wp (mvrp_ipc_rx lost_request) (λ _ w', w_st w' = w_st (end_of links)) (end_of links).
Proof.
  eapply wp_mono.
  - apply (bad_request_answered lost_request ipc_vlan_response_size (vlan_reply lost_request GENAVB_ERR_CTRL_INVALID) (end_of links)
      platform_fine timers_fine (state_ok _ links_good)); [cbn; lia|vm_compute; reflexivity].
  - intros [] w' [E _]. exact E.
Defined.

Lemma link_change_witness :
  wp (mvrp_port_status 1 false) (λ _ w', ¬ declares (w_st w') (id_attr 512 1)) (end_of joined).
Proof.
  eapply wp_mono.
  - apply (link_change 1 false 1 (end_of joined) platform_fine timers_fine (state_ok _ joined_good)). vm_compute. reflexivity.
  - intros [] w' (_ & _ & _ & _ & _ & Hd). apply (Hd eq_refl). lia.
Defined.

Lemma links_no_attrs : attrs (w_st (end_of links)) = ∅.
Proof. vm_compute. reflexivity. Qed.
Lemma mvrp_exit_releases_witness :
  wp mvrp_exit (λ rc w', attrs (w_st w') = ∅ ∧ vlan_heap (upper (w_st w')) = ∅) (end_of joined).
Proof.
  eapply wp_mono; [apply (mvrp_exit_releases (end_of joined) (state_ok _ joined_good))|].
  intros rc w' (_ & _ & Ha & Hv & _). exact (conj Ha Hv).
Defined.

(** The same ports as a bridge. *)
Definition bridged : world mvrp_call (Mrp.mrp_ctx mvrp_ctx) :=
  World ((w_st (end_of joined)) <| upper ::= λ u : mvrp_ctx, u <| is_bridge := true |> |>) (w_clock (end_of joined)) (w_trace (end_of joined)).
Lemma as_bridge_ok c : mrp_ok c → mv_ok c → let c' := c <| upper ::= λ u : mvrp_ctx, u <| is_bridge := true |> |> in mrp_ok c' ∧ mv_ok c'.
Proof.
  intros Hi [[] H2 H3 H4]. split.
  - apply mrp_ok_upper; [exact Hi|]. intros p Hp. exact Hp.
  - split; [split; assumption|exact H2|exact H3|exact H4].
Qed.
Lemma bridged_ok : mrp_ok (w_st bridged) ∧ mv_ok (w_st bridged).
Proof. exact (as_bridge_ok _ (good_mrp _ joined_good) (mk_mv _ (good_up _ joined_good))). Qed.
Lemma bridge_leave_uses_freed_vlan_witness : mvrp_leave_indication 0 0 bridged = Fault UseAfterFree.
Proof.
  destruct bridged_ok as [Hi Hmv].
  apply (bridge_leave_uses_freed_vlan 0 (attr joined 0) 0 (MvrpVlan 1 2 0 512 0 [0; 0]) bridged platform_fine timers_fine Hi Hmv);
    [reflexivity|vm_compute; reflexivity|vm_compute; reflexivity|vm_compute; reflexivity| |reflexivity].
  intros j Hj. apply (has_lt 1) in Hj; [|by split]. change (attr_app (attr joined 0)) with 0%nat. lia.
Defined.
End Endpoint.
