(* ===== verification/GptpBmca.v ===== *)
(** * gPTP: priority vectors and Announce messages (gptp/bmca.c, common/ptp.h)

    The identities and priority vectors of the best master clock algorithm,
    their comparison as blocks of memory, and the layout of an Announce
    message.  The fields of 16 bits are the values a little-endian host loads,
    so their bytes in memory are in network order after [htons]. *)

From S2P Require Import Prelude.

(** ** Data (common/ptp.h, include/genavb/ptp.h) *)

Record ptp_clock_quality := ClockQuality {
  clock_class : Z;
  clock_accuracy : Z;
  offset_scaled_log_variance : Z;
}.
#[export] Instance eta_clock_quality : Eta ptp_clock_quality := λ r,
  ClockQuality (clock_class r) (clock_accuracy r) (offset_scaled_log_variance r).

(** A [struct ptp_clock_identity] is its eight bytes. *)
Record ptp_system_identity := SystemIdentity {
  priority_1 : Z;
  clock_quality : ptp_clock_quality;
  priority_2 : Z;
  clock_identity : list Z;
}.
#[export] Instance eta_system_identity : Eta ptp_system_identity := λ r,
  SystemIdentity (priority_1 r) (clock_quality r) (priority_2 r) (clock_identity r).

Record ptp_port_identity := PortIdentity { pid_clock_identity : list Z; pid_port_number : Z }.
#[export] Instance eta_port_identity : Eta ptp_port_identity := λ r,
  PortIdentity (pid_clock_identity r) (pid_port_number r).

Record ptp_priority_vector := PriorityVector {
  root_system_identity : ptp_system_identity;
  steps_removed : Z;
  source_port_identity : ptp_port_identity;
  port_number : Z;
}.
#[export] Instance eta_priority_vector : Eta ptp_priority_vector := λ r,
  PriorityVector (root_system_identity r) (steps_removed r) (source_port_identity r) (port_number r).

#[export] Instance clock_quality_eq_dec : EqDecision ptp_clock_quality.
Proof. solve_decision. Defined.
#[export] Instance system_identity_eq_dec : EqDecision ptp_system_identity.
Proof. solve_decision. Defined.
#[export] Instance port_identity_eq_dec : EqDecision ptp_port_identity.
Proof. solve_decision. Defined.
#[export] Instance priority_vector_eq_dec : EqDecision ptp_priority_vector.
Proof. solve_decision. Defined.

Definition MAX_PTLV_ENTRIES : nat := 16.
Definition PTP_TLV_TYPE_PATH_TRACE : Z := 0x0008.
Definition PTP_MSG_TYPE_ANNOUNCE : Z := 0xB.
Definition PTP_DOMAIN_MAJOR_SDOID : Z := 1.
Definition PTP_DOMAIN_0 : Z := 0.
Definition PTP_VERSION : Z := 2.
Definition PTP_MINOR_VERSION : Z := 1.
Definition PTP_CONTROL_ANNOUNCE : Z := 0.
Definition PTP_CONTROL_ANNOUNCE_2011 : Z := 5.
Definition PTP_FLAG_LEAP_61 : Z := 1.
Definition PTP_FLAG_LEAP_59 : Z := 2.
Definition PTP_FLAG_CURRENT_UTC_OFF_VALID : Z := 4.
Definition PTP_FLAG_PTP_TIMESCALE : Z := 8.
Definition PTP_FLAG_TIME_TRACEABLE : Z := 16.
Definition PTP_FLAG_FREQUENCY_TRACEABLE : Z := 32.

(** [struct ptp_hdr] without its reserved and correction fields. *)
Record ptp_hdr := PtpHdr {
  transport_specific : Z;
  msg_type : Z;
  version_ptp : Z;
  minor_version_ptp : Z;
  msg_length : Z;
  domain_number : Z;
  flags : Z;
  source_port_id : ptp_port_identity;
  sequence_id : Z;
  control : Z;
  log_msg_interval : Z;          (* signed *)
}.
#[export] Instance eta_ptp_hdr : Eta ptp_hdr := λ r,
  PtpHdr (transport_specific r) (msg_type r) (version_ptp r) (minor_version_ptp r) (msg_length r) (domain_number r)
    (flags r) (source_port_id r) (sequence_id r) (control r) (log_msg_interval r).

Record ptp_announce_pdu := AnnouncePdu {
  header : ptp_hdr;
  current_utc_offset : Z;
  grandmaster_priority1 : Z;
  grandmaster_clock_quality : ptp_clock_quality;
  grandmaster_priority2 : Z;
  grandmaster_identity : list Z;
  announce_steps_removed : Z;
  time_source : Z;
  tlv_type : Z;
  tlv_length_field : Z;
  path_sequence : list (list Z);
}.
#[export] Instance eta_announce_pdu : Eta ptp_announce_pdu := λ r,
  AnnouncePdu (header r) (current_utc_offset r) (grandmaster_priority1 r) (grandmaster_clock_quality r)
    (grandmaster_priority2 r) (grandmaster_identity r) (announce_steps_removed r) (time_source r) (tlv_type r)
    (tlv_length_field r) (path_sequence r).

Definition sizeof_announce_pdu : Z := 196.

(** ** Layout *)

Definition quality_bytes (q : ptp_clock_quality) : list Z :=
  [clock_class q; clock_accuracy q] ++ u16_bytes (offset_scaled_log_variance q).
Definition system_identity_bytes (s : ptp_system_identity) : list Z :=
  [priority_1 s] ++ quality_bytes (clock_quality s) ++ [priority_2 s] ++ clock_identity s.
Definition port_identity_bytes (p : ptp_port_identity) : list Z :=
  pid_clock_identity p ++ u16_bytes (pid_port_number p).
Definition priority_vector_bytes (v : ptp_priority_vector) : list Z :=
  system_identity_bytes (root_system_identity v) ++ u16_bytes (steps_removed v) ++
  port_identity_bytes (source_port_identity v) ++ u16_bytes (port_number v).

(** An [s8] in memory. *)
Definition s8_byte (z : Z) : Z := z mod 256.
Definition byte_s8 (b : Z) : Z := if b <? 128 then b else b - 256.

Definition hdr_bytes (h : ptp_hdr) : list Z :=
  [16 * transport_specific h + msg_type h; 16 * minor_version_ptp h + version_ptp h] ++ u16_bytes (msg_length h) ++
  [domain_number h; 0] ++ u16_bytes (flags h) ++ replicate 12 0 ++ port_identity_bytes (source_port_id h) ++
  u16_bytes (sequence_id h) ++ [control h; s8_byte (log_msg_interval h)].
Definition announce_bytes (m : ptp_announce_pdu) : list Z :=
  hdr_bytes (header m) ++ replicate 10 0 ++ u16_bytes (current_utc_offset m) ++ [0; grandmaster_priority1 m] ++
  quality_bytes (grandmaster_clock_quality m) ++ [grandmaster_priority2 m] ++ grandmaster_identity m ++
  u16_bytes (announce_steps_removed m) ++ [time_source m] ++ u16_bytes (tlv_type m) ++ u16_bytes (tlv_length_field m) ++
  concat (path_sequence m).

(** Loads from a buffer. *)
Definition ld8 (o : nat) (b : list Z) : Z := nth o b 0.
Definition ld16 (o : nat) (b : list Z) : Z := ld8 o b + 256 * ld8 (S o) b.
Definition ld_id (o : nat) (b : list Z) : list Z := take 8 (drop o b).
Definition ld_quality (o : nat) (b : list Z) : ptp_clock_quality :=
  ClockQuality (ld8 o b) (ld8 (o + 1) b) (ld16 (o + 2) b).
Definition ld_port_identity (o : nat) (b : list Z) : ptp_port_identity := PortIdentity (ld_id o b) (ld16 (o + 8) b).
Definition read_hdr (b : list Z) : ptp_hdr :=
  PtpHdr (ld8 0 b / 16) (ld8 0 b mod 16) (ld8 1 b mod 16) (ld8 1 b / 16) (ld16 2 b) (ld8 4 b) (ld16 6 b)
    (ld_port_identity 20 b) (ld16 30 b) (ld8 32 b) (byte_s8 (ld8 33 b)).
Definition read_announce (b : list Z) : ptp_announce_pdu :=
  AnnouncePdu (read_hdr b) (ld16 44 b) (ld8 47 b) (ld_quality 48 b) (ld8 52 b) (ld_id 53 b) (ld16 61 b) (ld8 63 b)
    (ld16 64 b) (ld16 66 b) ((λ i : nat, ld_id (68 + 8 * i)%nat b) <$> seq 0 MAX_PTLV_ENTRIES).

(** ** Comparisons (gptp/bmca.c) *)

(** The sign of [os_memcmp] on blocks of the same length. *)
Fixpoint os_memcmp (a b : list Z) : comparison :=
  match a, b with
  | x :: a, y :: b => match x ?= y with Eq => os_memcmp a b | c => c end
  | _, _ => Eq
  end.

Inductive bmca_vector_cmp_t := BMCA_VECTOR_A_BETTER | BMCA_VECTOR_B_BETTER | BMCA_VECTOR_A_B_SAME.
#[export] Instance bmca_vector_cmp_eq_dec : EqDecision bmca_vector_cmp_t.
Proof. solve_decision. Defined.

Definition bmca_of_cmp (c : comparison) : bmca_vector_cmp_t :=
  match c with Gt => BMCA_VECTOR_B_BETTER | Lt => BMCA_VECTOR_A_BETTER | Eq => BMCA_VECTOR_A_B_SAME end.

Definition compare_clock_identity (ida idb : list Z) : comparison := os_memcmp ida idb.

Definition compare_system_identity (Pa Pb : ptp_priority_vector) : bmca_vector_cmp_t :=
  bmca_of_cmp (os_memcmp (system_identity_bytes (root_system_identity Pa)) (system_identity_bytes (root_system_identity Pb))).

Definition compare_priority_vector (Pa Pb : ptp_priority_vector) : bmca_vector_cmp_t :=
  bmca_of_cmp (os_memcmp (priority_vector_bytes Pa) (priority_vector_bytes Pb)).

Definition compare_msg_priority_vector (msgP portP : ptp_priority_vector) : bmca_vector_cmp_t :=
  match os_memcmp (port_identity_bytes (source_port_identity msgP)) (port_identity_bytes (source_port_identity portP)) with
  | Eq => BMCA_VECTOR_A_BETTER
  | _ => compare_priority_vector msgP portP
  end.

Definition copy_system_identity_from_message (announce : ptp_announce_pdu) : ptp_system_identity :=
  SystemIdentity (grandmaster_priority1 announce) (grandmaster_clock_quality announce) (grandmaster_priority2 announce)
    (grandmaster_identity announce).

(** [number]: the number of the port that received the message. *)
Definition copy_priority_vector_from_message (number : Z) (announce : ptp_announce_pdu) : ptp_priority_vector :=
  PriorityVector (copy_system_identity_from_message announce) (announce_steps_removed announce)
    (source_port_id (header announce)) (htons (u16 number)).

(** ** The order of the algorithm *)

Definition is_byte (b : Z) : Prop := 0 ≤ b < 256.
Definition is_u16 (z : Z) : Prop := 0 ≤ z < 65536.
Definition id_ok (i : list Z) : Prop := length i = 8%nat ∧ Forall is_byte i.
Definition quality_ok (q : ptp_clock_quality) : Prop :=
  is_byte (clock_class q) ∧ is_byte (clock_accuracy q) ∧ is_u16 (offset_scaled_log_variance q).
Definition system_ok (s : ptp_system_identity) : Prop :=
  is_byte (priority_1 s) ∧ quality_ok (clock_quality s) ∧ is_byte (priority_2 s) ∧ id_ok (clock_identity s).
Definition port_ok (p : ptp_port_identity) : Prop := id_ok (pid_clock_identity p) ∧ is_u16 (pid_port_number p).
Definition vector_ok (v : ptp_priority_vector) : Prop :=
  system_ok (root_system_identity v) ∧ is_u16 (steps_removed v) ∧ port_ok (source_port_identity v) ∧ is_u16 (port_number v).

(** A block of bytes as a big-endian number. *)
Definition be_value (l : list Z) : Z := fold_left (λ n b, 256 * n + b) l 0.

Lemma be_fold l n : fold_left (λ n b, 256 * n + b) l n = n * 256 ^ Z.of_nat (length l) + be_value l.
Proof.
  unfold be_value. revert n. induction l as [|b l IH]; intros n; cbn [fold_left length]; [lia|].
  rewrite IH, (IH (256 * 0 + b)). rewrite Nat2Z.inj_succ, Z.pow_succ_r by lia. ring.
Qed.
Lemma be_cons b l : be_value (b :: l) = b * 256 ^ Z.of_nat (length l) + be_value l.
Proof. unfold be_value at 1. cbn [fold_left]. rewrite be_fold. ring. Qed.
Lemma be_app l k : be_value (l ++ k) = be_value l * 256 ^ Z.of_nat (length k) + be_value k.
Proof. unfold be_value at 1. rewrite fold_left_app. apply be_fold. Qed.
Lemma be_range l : Forall is_byte l → 0 ≤ be_value l < 256 ^ Z.of_nat (length l).
Proof.
  induction 1 as [|b l Hb Hl IH]; [done|]. rewrite be_cons. cbn [length]. rewrite Nat2Z.inj_succ, Z.pow_succ_r by lia.
  unfold is_byte in Hb. nia.
Qed.

Lemma memcmp_value a b :
  length a = length b → Forall is_byte a → Forall is_byte b → os_memcmp a b = (be_value a ?= be_value b).
Proof.
  revert b. induction a as [|x a IH]; intros [|y b] Hl Ha Hb; try done. cbn [os_memcmp]. injection Hl as Hl.
  apply list.Forall_cons in Ha as [Hx Ha]. apply list.Forall_cons in Hb as [Hy Hb]. rewrite !be_cons, Hl.
  pose proof (be_range a Ha). pose proof (be_range b Hb). rewrite Hl in *. set (k := 256 ^ Z.of_nat (length b)) in *.
  destruct (x ?= y) eqn:E.
  - apply Z.compare_eq in E as ->. rewrite IH by done. destruct (be_value a ?= be_value b) eqn:E; symmetry.
    + apply Z.compare_eq in E. apply Z.compare_eq_iff. lia.
    + rewrite Z.compare_lt_iff in E. apply Z.compare_lt_iff. lia.
    + rewrite Z.compare_gt_iff in E. apply Z.compare_gt_iff. lia.
  - symmetry. rewrite Z.compare_lt_iff in E. apply Z.compare_lt_iff. nia.
  - symmetry. rewrite Z.compare_gt_iff in E. apply Z.compare_gt_iff. nia.
Qed.
Lemma memcmp_refl a : os_memcmp a a = Eq.
Proof. induction a as [|x a IH]; [done|]. cbn. by rewrite Z.compare_refl. Qed.
Lemma memcmp_eq a b : length a = length b → os_memcmp a b = Eq → a = b.
Proof.
  revert b. induction a as [|x a IH]; intros [|y b] Hl; try done. cbn. injection Hl as Hl.
  destruct (x ?= y) eqn:E; try done. apply Z.compare_eq in E as ->. intros H. by rewrite (IH b).
Qed.

Lemma be_u16 z : is_u16 z → be_value (u16_bytes z) = ntohs z.
Proof. intros Hz. unfold ntohs. rewrite htons_be by done. unfold be_value, u16_bytes. cbn. lia. Qed.
Lemma u16_bytes_ok z : is_u16 z → Forall is_byte (u16_bytes z).
Proof. intros Hz. unfold is_u16 in Hz. unfold u16_bytes. repeat constructor; unfold is_byte; Z.div_mod_to_equations; lia. Qed.

Definition system_value (s : ptp_system_identity) : Z :=
  priority_1 s * 2 ^ 104 + clock_class (clock_quality s) * 2 ^ 96 + clock_accuracy (clock_quality s) * 2 ^ 88 +
  ntohs (offset_scaled_log_variance (clock_quality s)) * 2 ^ 72 + priority_2 s * 2 ^ 64 + be_value (clock_identity s).
Definition vector_value (v : ptp_priority_vector) : Z :=
  system_value (root_system_identity v) * 2 ^ 112 + ntohs (steps_removed v) * 2 ^ 96 +
  be_value (pid_clock_identity (source_port_identity v)) * 2 ^ 32 +
  ntohs (pid_port_number (source_port_identity v)) * 2 ^ 16 + ntohs (port_number v).

Lemma system_bytes_ok s : system_ok s → length (system_identity_bytes s) = 14%nat ∧ Forall is_byte (system_identity_bytes s).
Proof.
  intros (H1 & (H2 & H3 & H4) & H5 & H6 & H7). unfold system_identity_bytes, quality_bytes. split.
  - rewrite !length_app, H6. done.
  - pose proof (u16_bytes_ok _ H4). rewrite !list.Forall_app, !list.Forall_cons, !list.Forall_nil. by split_and!.
Qed.
Lemma system_bytes_value s : system_ok s → be_value (system_identity_bytes s) = system_value s.
Proof.
  intros (H1 & (H2 & H3 & H4) & H5 & H6 & H7). unfold system_identity_bytes, quality_bytes.
  rewrite !be_app, be_u16 by done. rewrite !length_app, H6. unfold system_value. unfold be_value at 1 2 3. cbn. lia.
Qed.
Lemma port_bytes_ok p : port_ok p → length (port_identity_bytes p) = 10%nat ∧ Forall is_byte (port_identity_bytes p).
Proof.
  intros ((H1 & H2) & H3). unfold port_identity_bytes. split; [by rewrite length_app, H1|].
  apply list.Forall_app_2; [done|by apply u16_bytes_ok].
Qed.
Lemma vector_bytes_ok v : vector_ok v → length (priority_vector_bytes v) = 28%nat ∧ Forall is_byte (priority_vector_bytes v).
Proof.
  intros (H1 & H2 & H3 & H4). unfold priority_vector_bytes.
  destruct (system_bytes_ok _ H1) as [L1 B1]. destruct (port_bytes_ok _ H3) as [L3 B3]. split.
  - by rewrite !length_app, L1, L3.
  - rewrite !list.Forall_app. split_and!; (done || by apply u16_bytes_ok).
Qed.
Lemma vector_bytes_value v : vector_ok v → be_value (priority_vector_bytes v) = vector_value v.
Proof.
  intros (H1 & H2 & ((H3 & H5) & H6) & H4). unfold priority_vector_bytes, port_identity_bytes.
  rewrite !be_app, !be_u16, system_bytes_value by done. rewrite !length_app, H3. unfold vector_value. cbn. lia.
Qed.

Lemma u16_bytes_inj a b : u16_bytes a = u16_bytes b → a = b.
Proof. intros [= H1 H2]. rewrite (Z.div_mod a 256), (Z.div_mod b 256) by lia. congruence. Qed.
Lemma system_bytes_inj a b : system_ok a → system_ok b → system_identity_bytes a = system_identity_bytes b → a = b.
Proof.
  destruct a as [a1 [a2 a3 a4] a5 a6], b as [b1 [b2 b3 b4] b5 b6]. unfold system_identity_bytes, quality_bytes. cbn.
  intros Ha Hb [= -> -> -> H1 H2 -> ->]. f_equal. f_equal. apply u16_bytes_inj. unfold u16_bytes. congruence.
Qed.
Lemma system_value_inj a b : system_ok a → system_ok b → system_value a = system_value b → a = b.
Proof.
  intros Ha Hb H. apply system_bytes_inj; [done|done|]. destruct (system_bytes_ok _ Ha) as [La Ba], (system_bytes_ok _ Hb) as [Lb Bb].
  apply memcmp_eq; [congruence|]. rewrite memcmp_value by (done || congruence). rewrite !system_bytes_value, H by done. apply Z.compare_refl.
Qed.
Lemma port_bytes_inj a b : port_ok a → port_ok b → port_identity_bytes a = port_identity_bytes b → a = b.
Proof.
  destruct a as [a1 a2], b as [b1 b2]. intros ((Ha & _) & _) ((Hb & _) & _). unfold port_identity_bytes. cbn in *. intros H.
  apply app_inj_1 in H as [-> H]; [|congruence]. f_equal. by apply u16_bytes_inj.
Qed.
Lemma vector_bytes_inj a b : vector_ok a → vector_ok b → priority_vector_bytes a = priority_vector_bytes b → a = b.
Proof.
  intros (Ha1 & _ & Ha3 & _) (Hb1 & _ & Hb3 & _) H. unfold priority_vector_bytes in H.
  apply app_inj_1 in H as [H1 H]; [|by rewrite (proj1 (system_bytes_ok _ Ha1)), (proj1 (system_bytes_ok _ Hb1))].
  apply app_inj_1 in H as [H2 H]; [|done].
  apply app_inj_1 in H as [H3 H4]; [|by rewrite (proj1 (port_bytes_ok _ Ha3)), (proj1 (port_bytes_ok _ Hb3))].
  apply system_bytes_inj in H1; [|done..]. apply port_bytes_inj in H3; [|done..].
  apply u16_bytes_inj in H2. apply u16_bytes_inj in H4. destruct a, b. by simplify_eq/=.
Qed.

Lemma compare_system_value a b :
  system_ok (root_system_identity a) → system_ok (root_system_identity b) →
  compare_system_identity a b = bmca_of_cmp (system_value (root_system_identity a) ?= system_value (root_system_identity b)).
Proof.
  intros Ha Hb. unfold compare_system_identity. destruct (system_bytes_ok _ Ha), (system_bytes_ok _ Hb).
  rewrite memcmp_value, !system_bytes_value; congruence || done.
Qed.

Lemma vector_cmp a b : vector_ok a → vector_ok b →
  compare_priority_vector a b = bmca_of_cmp (vector_value a ?= vector_value b) ∧
  (compare_priority_vector a b = BMCA_VECTOR_A_B_SAME ↔ a = b) ∧
  (compare_msg_priority_vector a b = BMCA_VECTOR_A_BETTER ↔
     source_port_identity a = source_port_identity b ∨ vector_value a < vector_value b).
Proof.
  intros Ha Hb.
  destruct (vector_bytes_ok _ Ha) as [La Ba]. destruct (vector_bytes_ok _ Hb) as [Lb Bb].
  assert (Hc : compare_priority_vector a b = bmca_of_cmp (vector_value a ?= vector_value b)).
  { unfold compare_priority_vector. rewrite memcmp_value, !vector_bytes_value; congruence || done. }
  split; [done|]. split.
  - split; [|intros ->; unfold compare_priority_vector; by rewrite memcmp_refl].
    unfold compare_priority_vector. destruct (os_memcmp _ _) eqn:E; try done. intros _.
    apply vector_bytes_inj; [done|done|]. apply memcmp_eq; congruence.
  - unfold compare_msg_priority_vector. destruct Ha as (_ & _ & Ha & _), Hb as (_ & _ & Hb & _).
    pose proof (port_bytes_ok _ Ha) as [Lpa _]. pose proof (port_bytes_ok _ Hb) as [Lpb _].
    assert (Hs : os_memcmp (port_identity_bytes (source_port_identity a)) (port_identity_bytes (source_port_identity b)) = Eq
                 ↔ source_port_identity a = source_port_identity b).
    { split; [|intros ->; apply memcmp_refl]. intros E. apply port_bytes_inj; [done|done|]. apply memcmp_eq; congruence. }
    assert (Hv : compare_priority_vector a b = BMCA_VECTOR_A_BETTER ↔ vector_value a < vector_value b).
    { rewrite Hc. destruct (vector_value a ?= vector_value b) eqn:E; cbn;
        [apply Z.compare_eq in E|rewrite Z.compare_lt_iff in E|rewrite Z.compare_gt_iff in E]; split; intros; (done || lia). }
    destruct (os_memcmp _ _) eqn:E; rewrite <- Hs, ?Hv; naive_solver.
Qed.

(** C28: the comparison of two priority vectors as blocks of memory is the
    comparison of 802.1AS 10.3.5: by priority1, clock class, accuracy,
    variance, priority2, clock identity, steps removed, source port and port
    number, in that order, each most significant byte first; it is a total
    order, two vectors compare the same only if they are equal, and a message
    of the port's own master is accepted whatever it says. *)
Theorem priority_order a b (Ha : vector_ok a) (Hb : vector_ok b) :
  compare_priority_vector a b = bmca_of_cmp (vector_value a ?= vector_value b) ∧
  (compare_priority_vector a b = BMCA_VECTOR_A_B_SAME ↔ a = b) ∧
  (compare_msg_priority_vector a b = BMCA_VECTOR_A_BETTER ↔
     source_port_identity a = source_port_identity b ∨ vector_value a < vector_value b).
Proof. by apply vector_cmp. Qed.

Definition demo_id (n : Z) : list Z := [0; 4; 0x9f; 0xff; 0xfe; 0; 0; n].
Definition demo_vector (prio n : Z) : ptp_priority_vector :=
  PriorityVector (SystemIdentity prio (ClockQuality 248 0xfe (htons 0x4100)) 248 (demo_id n)) (htons 0)
    (PortIdentity (demo_id n) (htons 1)) (htons 1).
Lemma demo_vector_ok prio n : is_byte prio → is_byte n → vector_ok (demo_vector prio n).
Proof.
  intros Hp Hn. unfold vector_ok, system_ok, port_ok, quality_ok, id_ok, demo_vector; cbn [root_system_identity priority_1
    clock_quality clock_class clock_accuracy offset_scaled_log_variance priority_2 clock_identity steps_removed
    source_port_identity pid_clock_identity pid_port_number port_number].
  assert (Hid : length (demo_id n) = 8%nat ∧ Forall is_byte (demo_id n)).
  { split; [done|]. unfold demo_id. rewrite !list.Forall_cons. by split_and!. }
  split_and!; try done; apply Hid.
Qed.
Lemma priority_order_witness :
  let a := demo_vector 246 1 in let b := demo_vector 248 0 in
  compare_priority_vector a b = BMCA_VECTOR_A_BETTER ∧
  compare_priority_vector a b = bmca_of_cmp (vector_value a ?= vector_value b) ∧
  (compare_priority_vector a b = BMCA_VECTOR_A_B_SAME ↔ a = b) ∧
  (compare_msg_priority_vector a b = BMCA_VECTOR_A_BETTER ↔
     source_port_identity a = source_port_identity b ∨ vector_value a < vector_value b).
Proof.
  split; [reflexivity|]. apply (priority_order (demo_vector 246 1) (demo_vector 248 0)); apply demo_vector_ok; unfold is_byte; lia.
Defined.

(** ** Announce messages on the wire *)

Definition is_s8 (z : Z) : Prop := -128 ≤ z < 128.
(** The fields fit where the layout puts them; the 16 bits of a field always do. *)
Definition hdr_ok (h : ptp_hdr) : Prop :=
  0 ≤ transport_specific h < 16 ∧ 0 ≤ msg_type h < 16 ∧ 0 ≤ version_ptp h < 16 ∧ 0 ≤ minor_version_ptp h < 16 ∧
  id_ok (pid_clock_identity (source_port_id h)) ∧ is_s8 (log_msg_interval h).
Definition announce_ok (m : ptp_announce_pdu) : Prop :=
  hdr_ok (header m) ∧ id_ok (grandmaster_identity m) ∧ Forall id_ok (path_sequence m).

Lemma length_8 {A} (l : list A) : length l = 8%nat → ∃ a b c d e f g h, l = [a; b; c; d; e; f; g; h].
Proof. do 9 (destruct l as [|? l]; try done). intros _. by repeat eexists. Qed.
Lemma ld_u16 z : z mod 256 + 256 * (z / 256) = z.
Proof. pose proof (Z.div_mod z 256). lia. Qed.
Lemma s8_roundtrip z : is_s8 z → byte_s8 (s8_byte z) = z.
Proof.
  intros Hz. unfold is_s8 in Hz. unfold byte_s8, s8_byte. destruct (Z.lt_ge_cases z 0).
  - replace (z mod 256) with (z + 256) by (Z.div_mod_to_equations; lia).
    destruct (Z.ltb_spec (z + 256) 128); lia.
  - rewrite Z.mod_small by lia. destruct (Z.ltb_spec z 128); lia.
Qed.
Lemma s8_byte_ok z : is_byte (s8_byte z).
Proof. apply Z.mod_pos_bound. lia. Qed.

Lemma nibbles h l : 0 ≤ l < 16 → (16 * h + l) / 16 = h ∧ (16 * h + l) mod 16 = l.
Proof. intros. split; Z.div_mod_to_equations; lia. Qed.

Lemma concat_ids_drop (l : list (list Z)) rest i :
  Forall id_ok l → (i ≤ length l)%nat → drop (8 * i) (concat l ++ rest) = concat (drop i l) ++ rest.
Proof.
  intros Hl. revert i. induction Hl as [|a l [Ha _] Hl IH]; intros [|i] Hi; try done; [cbn in Hi; lia|].
  replace (8 * S i)%nat with (length a + 8 * i)%nat by lia. cbn [concat drop]. rewrite <- List.app_assoc, <- drop_drop, drop_app_length.
  apply IH. cbn in Hi. lia.
Qed.
Lemma concat_ids_length (l : list (list Z)) : Forall id_ok l → length (concat l) = (8 * length l)%nat.
Proof. induction 1 as [|a l [Ha _] Hl IH]; [done|]. cbn [concat length]. rewrite length_app, IH, Ha. lia. Qed.

Lemma ld_ids (l : list (list Z)) rest n :
  Forall id_ok l → (length l ≤ n)%nat →
  ((λ i : nat, ld_id (8 * i) (concat l ++ rest)) <$> seq 0 n) =
  l ++ ((λ i : nat, ld_id (8 * i) rest) <$> seq 0 (n - length l)).
Proof.
  intros Hl Hn. apply list_eq. intros i. rewrite list_lookup_fmap.
  destruct (decide (i < length l)%nat) as [Hi|Hi].
  - rewrite lookup_seq_lt by lia. rewrite lookup_app_l by done. cbn [fmap option_fmap option_map].
    unfold ld_id. rewrite Nat.add_0_l, concat_ids_drop by (done || lia). destruct (drop i l) as [|a k] eqn:E.
    { apply (f_equal length) in E. rewrite length_drop in E. cbn in E. lia. }
    assert (Hia : l !! i = Some a) by (rewrite <- (Nat.add_0_r i), <- lookup_drop, E; done).
    rewrite Hia. f_equal. cbn [concat]. pose proof (proj1 (list.Forall_lookup _ _) Hl i a Hia) as [Ha _].
    rewrite <- List.app_assoc, take_app_le by lia. apply take_ge. lia.
  - rewrite lookup_app_r, list_lookup_fmap by lia. destruct (decide (i < n)%nat) as [Hin|Hin].
    + rewrite !lookup_seq_lt by lia. cbn [fmap option_fmap option_map]. f_equal. unfold ld_id. f_equal.
      replace (8 * (0 + i))%nat with (length (concat l) + 8 * (0 + (i - length l)))%nat
        by (rewrite concat_ids_length by done; lia).
      by rewrite <- drop_drop, drop_app_length.
    + rewrite !lookup_seq_ge by lia. done.
Qed.

(** The bytes up to the path. *)
Definition announce_prefix (m : ptp_announce_pdu) : list Z := announce_bytes (m <| path_sequence := [] |>).
Lemma announce_bytes_prefix m : announce_bytes m = announce_prefix m ++ concat (path_sequence m).
Proof.
  unfold announce_prefix, announce_bytes. cbn [header current_utc_offset grandmaster_priority1 grandmaster_clock_quality
    grandmaster_priority2 grandmaster_identity announce_steps_removed time_source tlv_type tlv_length_field path_sequence
    over over_field concat].
  repeat rewrite <- List.app_assoc. done.
Qed.

Lemma read_hdr_bytes h rest : hdr_ok h → read_hdr (hdr_bytes h ++ rest) = h.
Proof.
  intros (Ht & Hm & Hv & Hmv & (Hl & _) & Hs).
  destruct h as [ts mt vs mv ml dn fl [id pn] sq ct lg]; cbn in *.
  apply length_8 in Hl as (? & ? & ? & ? & ? & ? & ? & ? & ->).
  unfold read_hdr, ld_port_identity, ld_id, ld16, ld8. cbn -[Z.mul Z.add Z.div Z.modulo].
  destruct (nibbles ts mt) as [-> ->]; [done|]. destruct (nibbles mv vs) as [-> ->]; [done|].
  by rewrite s8_roundtrip, !ld_u16.
Qed.

(** What the receiver reads after the path is left over in the buffer. *)
Lemma announce_roundtrip m rest :
  announce_ok m → (length (path_sequence m) ≤ MAX_PTLV_ENTRIES)%nat →
  read_announce (announce_bytes m ++ rest) =
  m <| path_sequence ::= λ l, l ++ ((λ i : nat, ld_id (8 * i) rest) <$> seq 0 (MAX_PTLV_ENTRIES - length l)) |>.
Proof.
  intros Hm Hn. destruct Hm as (Hh & (Hg & _) & Hp). pose proof Hh as (_ & _ & _ & _ & (Hi & _) & _).
  destruct m as [h utc p1 [cc ca ov] p2 gid st tsrc tt tl path]; cbn in Hh, Hg, Hi, Hp, Hn.
  pose proof (read_hdr_bytes h ([0; 0; 0; 0; 0; 0; 0; 0; 0; 0] ++ u16_bytes utc ++ [0; p1] ++ quality_bytes (ClockQuality cc ca ov) ++
    [p2] ++ gid ++ u16_bytes st ++ [tsrc] ++ u16_bytes tt ++ u16_bytes tl ++ concat path ++ rest) Hh) as Eh.
  apply length_8 in Hg as (? & ? & ? & ? & ? & ? & ? & ? & ->).
  destruct h as [ts mt vs mv ml dn fl [id pn] sq ct lg]; cbn in Hi.
  apply length_8 in Hi as (? & ? & ? & ? & ? & ? & ? & ? & ->).
  set (H := PtpHdr _ _ _ _ _ _ _ _ _ _ _) in *.
  change ((AnnouncePdu H ?a ?b ?c ?d ?e ?f ?g ?h ?i path) <| path_sequence ::= ?F |>) with (AnnouncePdu H a b c d e f g h i (F path)).
  unfold read_announce. f_equal.
  - rewrite <- Eh at 2. f_equal.
  - apply ld_u16.
  - unfold ld_quality. f_equal. apply ld_u16.
  - apply ld_u16.
  - apply ld_u16.
  - apply ld_u16.
  - rewrite <- ld_ids by done. apply list_fmap_ext. intros i j _. reflexivity.
Qed.
Lemma announce_bytes_length m :
  announce_ok m → Z.of_nat (length (announce_bytes m)) = 68 + 8 * Z.of_nat (length (path_sequence m)).
Proof.
  intros (Hh & (Hg & _) & Hp). destruct Hh as (_ & _ & _ & _ & (Hi & _) & _). rewrite announce_bytes_prefix, length_app.
  rewrite concat_ids_length by done. unfold announce_prefix, announce_bytes, hdr_bytes, port_identity_bytes.
  repeat rewrite length_app. cbn [path_sequence over over_field header grandmaster_identity]. rewrite Hi, Hg. cbn -[Z.of_nat]. lia.
Qed.
