(* ===== verification/Gptp.v ===== *)
(** * gPTP: the best master clock algorithm (gptp/port_fsm.c, gptp/site_fsm.c, gptp/gptp.c)

    One PTP instance with its ports: reception, qualification and comparison of
    Announce messages, the selection of the grandmaster and of the port states,
    the transmission of Announce messages and the negotiation of their
    interval.  The machines of the ports and of the instance call each other:
    a change of a port runs the selection, which runs the machines of every
    port.  Timers are the abstract timers of Timer.v. *)

From S2P Require Import Prelude Timer GptpBmca.

(** ** Time (common/ptp_time_ops.h, common/ptp.h) *)

Definition NSECS_PER_SEC : Z := 1000000000.
Definition NS_PER_MS : Z := 1000000.
Definition CFG_GPTP_MIN_LOG_INTERVAL : Z := -5.
Definition CFG_GPTP_MAX_LOG_INTERVAL : Z := 22.
Definition CFG_GPTP_MIN_LOG_ANNOUNCE_INTERVAL : Z := 0.
Definition CFG_GPTP_MAX_LOG_ANNOUNCE_INTERVAL : Z := 3.

Record ptp_u_scaled_ns := UScaledNs { nanoseconds_msb : Z; nanoseconds : Z; fractional_nanoseconds : Z }.

Definition u64_to_u_scaled_ns (ns : Z) : ptp_u_scaled_ns := UScaledNs 0 ns 0.
Definition u_scaled_ns_to_u64 (s : ptp_u_scaled_ns) : Z :=
  if 32768 <=? fractional_nanoseconds s then u64 (nanoseconds s + 1) else nanoseconds s.

Definition log_to_ns (log_val : Z) : Z :=
  let log_val :=
    if CFG_GPTP_MAX_LOG_INTERVAL <? log_val then CFG_GPTP_MAX_LOG_INTERVAL
    else if log_val <? CFG_GPTP_MIN_LOG_INTERVAL then CFG_GPTP_MIN_LOG_INTERVAL
    else log_val in
  if log_val <? 0 then NSECS_PER_SEC / Z.shiftl 1 (- log_val) else u64 (NSECS_PER_SEC * Z.shiftl 1 log_val).

(** ** Data (common/ptp.h, gptp/gptp.h) *)

Inductive ptp_port_role_t := DISABLED_PORT | MASTER_PORT | PASSIVE_PORT | SLAVE_PORT.
Inductive ptp_spanning_tree_info_t :=
| SPANNING_TREE_RECEIVED | SPANNING_TREE_MINE | SPANNING_TREE_AGED | SPANNING_TREE_DISABLED.
Inductive ptp_port_announce_rcv_sm_state_t := PORT_ANNOUNCE_RCV_SM_STATE_DISCARD | PORT_ANNOUNCE_RCV_SM_STATE_RECEIVE.
Inductive ptp_port_announce_transmit_sm_state_t :=
| PORT_ANNOUNCE_TRANSMIT_SM_STATE_TRANSMIT_INIT
| PORT_ANNOUNCE_TRANSMIT_SM_STATE_TRANSMIT_ANNOUNCE
| PORT_ANNOUNCE_TRANSMIT_SM_STATE_TRANSMIT_PERIODIC
| PORT_ANNOUNCE_TRANSMIT_SM_STATE_IDLE.
Inductive ptp_port_announce_transmit_sm_event_t :=
| PORT_ANNOUNCE_TRANSMIT_SM_EVENT_TRANSMIT_INTERVAL | PORT_ANNOUNCE_TRANSMIT_SM_EVENT_RUN.
Inductive ptp_port_announce_interval_sm_state_t :=
| PORT_ANNOUNCE_INTERVAL_SM_STATE_NOT_ENABLED
| PORT_ANNOUNCE_INTERVAL_SM_STATE_INITIALIZE
| PORT_ANNOUNCE_INTERVAL_SM_STATE_SET_INTERVAL.
Inductive ptp_port_announce_info_sm_state_t :=
| PORT_ANNOUNCE_INFO_SM_STATE_DISABLED
| PORT_ANNOUNCE_INFO_SM_STATE_AGED
| PORT_ANNOUNCE_INFO_SM_STATE_UPDATE
| PORT_ANNOUNCE_INFO_SM_STATE_CURRENT
| PORT_ANNOUNCE_INFO_SM_STATE_RECEIVE
| PORT_ANNOUNCE_INFO_SM_STATE_SUPERIOR_MASTER_PORT
| PORT_ANNOUNCE_INFO_SM_STATE_REPEATED_MASTER_PORT
| PORT_ANNOUNCE_INFO_SM_STATE_INFERIOR_MASTER_OR_OTHER.
Inductive ptp_port_announce_info_sm_event_t :=
| PORT_ANNOUNCE_INFO_SM_EVENT_SYNC_TIMEOUT
| PORT_ANNOUNCE_INFO_SM_EVENT_ANNOUNCE_TIMEOUT
| PORT_ANNOUNCE_INFO_SM_EVENT_RUN.
Inductive ptp_announce_priority_info_t :=
| ANNOUNCE_PRIO_SUPERIOR_MASTER_INFO
| ANNOUNCE_PRIO_REPEATED_MASTER_INFO
| ANNOUNCE_PRIO_INFERIOR_MASTER_INFO
| ANNOUNCE_PRIO_OTHER_INFO.
Inductive ptp_port_state_sm_state_t := PORT_STATE_SM_STATE_INIT_BRIDGE | PORT_STATE_SM_STATE_SELECTION.

#[export] Instance port_role_eq_dec : EqDecision ptp_port_role_t.
Proof. solve_decision. Defined.
#[export] Instance spanning_tree_info_eq_dec : EqDecision ptp_spanning_tree_info_t.
Proof. solve_decision. Defined.
#[export] Instance announce_rcv_sm_state_eq_dec : EqDecision ptp_port_announce_rcv_sm_state_t.
Proof. solve_decision. Defined.
#[export] Instance announce_transmit_sm_state_eq_dec : EqDecision ptp_port_announce_transmit_sm_state_t.
Proof. solve_decision. Defined.
#[export] Instance announce_transmit_sm_event_eq_dec : EqDecision ptp_port_announce_transmit_sm_event_t.
Proof. solve_decision. Defined.
#[export] Instance announce_info_sm_state_eq_dec : EqDecision ptp_port_announce_info_sm_state_t.
Proof. solve_decision. Defined.
#[export] Instance announce_info_sm_event_eq_dec : EqDecision ptp_port_announce_info_sm_event_t.
Proof. solve_decision. Defined.
#[export] Instance port_state_sm_state_eq_dec : EqDecision ptp_port_state_sm_state_t.
Proof. solve_decision. Defined.

Definition CFG_GPTP_PROFILE_STANDARD : Z := 0.
Definition CFG_GPTP_PROFILE_AUTOMOTIVE : Z := 1.

(** leap61, leap59, current_utc_offset_valid, time_traceable,
    frequency_traceable, current_utc_offset and time_source, which the code
    keeps for the instance, for the system ([sys_]) and for a port ([ann_]). *)
Record time_properties := TimeProperties {
  tp_leap61 : Z;
  tp_leap59 : Z;
  tp_current_utc_offset_valid : Z;
  tp_time_traceable : Z;
  tp_frequency_traceable : Z;
  tp_current_utc_offset : Z;
  tp_time_source : Z;
}.

(** What the machines read of [struct gptp_net_port], and its counters. *)
Record gptp_net_port := NetPort {
  port_oper : bool;
  asymmetry_measurement_mode : bool;
  num_tx_pkts : Z;
  num_tx_err : Z;
  num_tx_err_alloc : Z;
}.
#[export] Instance eta_net_port : Eta gptp_net_port := λ r,
  NetPort (port_oper r) (asymmetry_measurement_mode r) (num_tx_pkts r) (num_tx_err r) (num_tx_err_alloc r).

(** [rcvd_announce_ptr] is NULL or the address of the port's [announce_rx]. *)
Record port_announce_receive_sm := AnnounceReceiveSm {
  rcvd_announce_par : bool;
  rcvd_announce_ptr : bool;
  rcv_state : ptp_port_announce_rcv_sm_state_t;
  timeout_timer : soft_timer;
}.
#[export] Instance eta_announce_receive_sm : Eta port_announce_receive_sm := λ r,
  AnnounceReceiveSm (rcvd_announce_par r) (rcvd_announce_ptr r) (rcv_state r) (timeout_timer r).

Record port_announce_information_sm := AnnounceInformationSm {
  announceReceiptTimeoutTime : ptp_u_scaled_ns;
  messagePriority : ptp_priority_vector;
  rcvdInfo : ptp_announce_priority_info_t;
}.
#[export] Instance eta_announce_information_sm : Eta port_announce_information_sm := λ r,
  AnnounceInformationSm (announceReceiptTimeoutTime r) (messagePriority r) (rcvdInfo r).

(** [struct port_announce_transmit_sm]; the function of that name is below. *)
Record announce_transmit_sm_vars := AnnounceTransmitSm {
  number_announce_transmissions : Z;
  interval2 : ptp_u_scaled_ns;
  tx_state : ptp_port_announce_transmit_sm_state_t;
  transmit_timer : soft_timer;
}.
#[export] Instance eta_announce_transmit_sm : Eta announce_transmit_sm_vars := λ r,
  AnnounceTransmitSm (number_announce_transmissions r) (interval2 r) (tx_state r) (transmit_timer r).

(** [rcvd_itlv]: the announce_interval of the message interval request TLV of
    the signaling message in [rcvd_signaling_ptr_ais]. *)
Record port_announce_interval_sm := AnnounceIntervalSm {
  rcvd_signaling_msg2 : bool;
  rcvd_itlv : Z;
  log_supported_announce_interval_max : Z;
  log_supported_closest_longer_announce_interval : Z;
  ais_state : ptp_port_announce_interval_sm_state_t;
}.
#[export] Instance eta_announce_interval_sm : Eta port_announce_interval_sm := λ r,
  AnnounceIntervalSm (rcvd_signaling_msg2 r) (rcvd_itlv r) (log_supported_announce_interval_max r)
    (log_supported_closest_longer_announce_interval r) (ais_state r).

(** The part of [struct ptp_instance_port_params] that belongs to the algorithm. *)
Record ptp_instance_port_params := PortParams {
  ptp_port_enabled : bool;
  as_capable : bool;
  neighbor_gptp_capable : bool;
  announce_receipt_timeout_time_interval : ptp_u_scaled_ns;
  announce_slow_down : bool;
  old_announce_interval : ptp_u_scaled_ns;
  info_is : ptp_spanning_tree_info_t;
  master_priority : ptp_priority_vector;
  current_log_announce_interval : Z;
  initial_log_announce_interval : Z;
  announce_interval : ptp_u_scaled_ns;
  message_steps_removed : Z;
  new_info : bool;
  port_priority : ptp_priority_vector;
  port_steps_removed : Z;
  rcvd_msg : bool;
  updt_info : bool;
  ann : time_properties;
}.
#[export] Instance eta_port_params : Eta ptp_instance_port_params := λ r,
  PortParams (ptp_port_enabled r) (as_capable r) (neighbor_gptp_capable r) (announce_receipt_timeout_time_interval r)
    (announce_slow_down r) (old_announce_interval r) (info_is r) (master_priority r) (current_log_announce_interval r)
    (initial_log_announce_interval r) (announce_interval r) (message_steps_removed r) (new_info r) (port_priority r)
    (port_steps_removed r) (rcvd_msg r) (updt_info r) (ann r).

Record gptp_instance_port_stats := PortStats {
  num_rx_sync_timeout : Z;
  num_rx_announce : Z;
  num_rx_announce_dropped : Z;
  num_rx_announce_timeout : Z;
  num_tx_announce : Z;
}.
#[export] Instance eta_port_stats : Eta gptp_instance_port_stats := λ r,
  PortStats (num_rx_sync_timeout r) (num_rx_announce r) (num_rx_announce_dropped r) (num_rx_announce_timeout r) (num_tx_announce r).

(** A port; [identity] is what [get_port_identity] finds, of the common port or
    of the link port. *)
Record gptp_port := GptpPort {
  identity : ptp_port_identity;
  net_port : gptp_net_port;
  params : ptp_instance_port_params;
  announce_receive_sm : port_announce_receive_sm;
  announce_information_sm : port_announce_information_sm;
  announce_transmit_sm : announce_transmit_sm_vars;
  announce_interval_sm : port_announce_interval_sm;
  announce_receipt_timeout : Z;
  use_mgt_settable_log_announce_interval : bool;
  mgt_settable_log_announce_interval : Z;
  gm_id_static : bool;
  announce_rx : list Z;
  announce_tx_seqnum : Z;
  port_announce_info_sm_state : ptp_port_announce_info_sm_state_t;
  stats : gptp_instance_port_stats;
}.
#[export] Instance eta_gptp_port : Eta gptp_port := λ r,
  GptpPort (identity r) (net_port r) (params r) (announce_receive_sm r) (announce_information_sm r)
    (announce_transmit_sm r) (announce_interval_sm r) (announce_receipt_timeout r)
    (use_mgt_settable_log_announce_interval r) (mgt_settable_log_announce_interval r) (gm_id_static r) (announce_rx r)
    (announce_tx_seqnum r) (port_announce_info_sm_state r) (stats r).

Record gptp_gm_info := GmInfo { gm_vector : ptp_priority_vector; gm_is_grandmaster : bool; gm_domain : Z }.

(** The instance, with the fields of [struct gptp_ctx] that it reads
    ([profile], [force_2011], [has_gm_indication]). *)
Record gptp_instance := GptpInstance {
  profile : Z;
  force_2011 : bool;
  has_gm_indication : bool;
  domain : Z;
  is_grandmaster : bool;
  begin : bool;
  instance_enable : bool;
  external_port_configuration_enabled : bool;
  gm_present : bool;
  selected_role : list ptp_port_role_t;
  this_clock : list Z;
  reselect : Z;
  selected : Z;
  master_steps_removed : Z;
  props : time_properties;
  sys : time_properties;
  system_priority : ptp_priority_vector;
  gm_priority : ptp_priority_vector;
  last_gm_priority : ptp_priority_vector;
  path_trace : list (list Z);
  num_ptlv : Z;
  numberPorts : nat;
  gmCapable : bool;
  gmChangeCount : Z;
  timeOfLastGmChangeEvent : Z;
  port_state_sm_state : ptp_port_state_sm_state_t;
  gm_id : list Z;
  gm_info : gptp_gm_info;
  ports : list gptp_port;
}.
#[export] Instance eta_gptp_instance : Eta gptp_instance := λ r,
  GptpInstance (profile r) (force_2011 r) (has_gm_indication r) (domain r) (is_grandmaster r) (begin r)
    (instance_enable r) (external_port_configuration_enabled r) (gm_present r) (selected_role r) (this_clock r)
    (reselect r) (selected r) (master_steps_removed r) (props r) (sys r) (system_priority r) (gm_priority r)
    (last_gm_priority r) (path_trace r) (num_ptlv r) (numberPorts r) (gmCapable r) (gmChangeCount r)
    (timeOfLastGmChangeEvent r) (port_state_sm_state r) (gm_id r) (gm_info r) (ports r).

(** The platform: clocks (an answer below 0 is an error), timers, the network,
    IPC, the callback of the application, and the adjustment of the target
    clock (gptp/target_clock_adj.c). *)
Inductive gptp_call :=
| ClockGettime64 (monotonic : bool)
| GptpTimerStart (ms : Z)
| NetTxAlloc (p : nat) (size : Z)    (* 0: no descriptor *)
| NetTx (p : nat) (msg : list Z)     (* negative: error *)
| NetTxFree (p : nat)
| GmIpcAlloc (size : Z)              (* 0: no descriptor *)
| GmIpcTx (gm : list Z) (domain num_ptlv : Z) (path : list (list Z))
| GmIpcFree
| GmIndication (gm : list Z) (is_grandmaster : bool)
| PortParamsIpcAlloc                 (* 0: no descriptor *)
| PortParamsIpcTx (p : nat) (as_capable : bool)
| PortParamsIpcFree
| ClkAdjReset.

Section gptp.
Context `{!Platform gptp_call}.
Abbreviation GM := (M gptp_call gptp_instance).

Definition get_port (i : nat) : GM gptp_port := let! l := gets ports in deref OutOfBounds (l !! i).
Definition set_port (i : nat) (f : gptp_port → gptp_port) : GM unit := modify (λ c, c <| ports ::= alter f i |>).
Definition set_params (i : nat) (f : ptp_instance_port_params → ptp_instance_port_params) : GM unit :=
  set_port i (λ q, q <| params ::= f |>).

Definition get_port_identity_number (q : gptp_port) : Z := pid_port_number (identity q).
Definition get_port_identity_clock_id (q : gptp_port) : list Z := pid_clock_identity (identity q).
Definition get_port_oper (q : gptp_port) : bool := port_oper (net_port q).
Definition get_port_asymmetry (q : gptp_port) : bool := asymmetry_measurement_mode (net_port q).
Definition port_usable (q : gptp_port) : bool := get_port_oper q && ptp_port_enabled (params q) && as_capable (params q).

(** [selected_role[j]]. *)
Definition get_role (j : Z) : GM ptp_port_role_t := let! l := gets selected_role in deref OutOfBounds (l !! Z.to_nat j).
Definition set_role (j : Z) (r : ptp_port_role_t) : GM unit :=
  let! _ := get_role j in modify (λ c, c <| selected_role ::= <[Z.to_nat j := r]> |>).

(** [x |= 1 << j], [x &= ~(1 << j)] and [x & (1 << j)] on the [u16] masks. *)
Definition mask_set (j x : Z) : Z := u16 (Z.lor x (Z.shiftl 1 j)).
Definition mask_clear (j x : Z) : Z := u16 (Z.land x (Z.lnot (Z.shiftl 1 j))).
Definition mask_test (j x : Z) : bool := negb (Z.land x (Z.shiftl 1 j) =? 0).

(** [timer_restart], on the two timers of a port. *)
Definition receipt_timer_restart (i : nat) (ms : Z) : GM unit :=
  let! _ := perform (GptpTimerStart (u32 ms)) in
  set_port i (λ q, q <| announce_receive_sm ::= λ s, s <| timeout_timer ::= soft_restart (u32 ms) |> |>).
Definition transmit_timer_restart (i : nat) (ms : Z) : GM unit :=
  let! _ := perform (GptpTimerStart (u32 ms)) in
  set_port i (λ q, q <| announce_transmit_sm ::= λ s, s <| transmit_timer ::= soft_restart (u32 ms) |> |>).

(** ** Indications (gptp/gptp.c) *)

Definition sizeof_gm_status : Z := 24.
Definition DEFAULT_IPC_DATA_SIZE : Z := 1024.

Definition gptp_ipc_gm_status : GM unit :=
  let! c := gets (λ c, c) in
  if Z.of_nat MAX_PTLV_ENTRIES <? num_ptlv c then ret tt else
  let size := sizeof_gm_status + num_ptlv c * 8 in
  let size := if DEFAULT_IPC_DATA_SIZE <? size then DEFAULT_IPC_DATA_SIZE else size in
  let n := (size - sizeof_gm_status) / 8 in
  let! ok := perform (GmIpcAlloc size) in
  if ok =? 0 then ret tt else
  let! rc := perform (GmIpcTx (gm_id c) (domain c) n (take (Z.to_nat n) (path_trace c))) in
  when (rc <? 0) (let! _ := perform GmIpcFree in ret tt).

Definition gptp_gm_indication (gm_vec : ptp_priority_vector) : GM unit :=
  let! c := gets (λ c, c) in
  let id v := clock_identity (root_system_identity v) in
  match os_memcmp (id (gm_vector (gm_info c))) (id gm_vec) with
  | Eq => ret tt
  | _ =>
      modify (λ c, c <| gm_id := id gm_vec |> <| gm_info := GmInfo gm_vec (is_grandmaster c) (domain c) |>);;
      gptp_ipc_gm_status;;
      when (has_gm_indication c) (let! _ := perform (GmIndication (id gm_vec) (is_grandmaster c)) in ret tt)
  end.

Definition gptp_system_time : GM (option Z) :=
  let! t := perform (ClockGettime64 true) in ret (if t <? 0 then None else Some (u64 t)).

(** [timeOfLastGmPhaseChangeEvent] and [timeOfLastGmFreqChangeEvent] get the
    same value as [timeOfLastGmChangeEvent]. *)
Definition gm_change : GM unit :=
  modify (λ c, c <| gmChangeCount ::= λ n, u32 (n + 1) |>);;
  let! t := gptp_system_time in
  let system_time := default 0 t in
  modify (λ c, c <| timeOfLastGmChangeEvent := u32 (system_time / 10000000) |>).

(** ** Transmission of Announce messages (gptp/md_fsm_802_3.c, gptp/gptp.c) *)

Definition ptlv_entries (c : gptp_instance) : Z :=
  if Z.of_nat MAX_PTLV_ENTRIES <? master_steps_removed c + 1 then Z.of_nat MAX_PTLV_ENTRIES else master_steps_removed c + 1.

Definition announce_flags (c : gptp_instance) : Z :=
  let flag (b : bool) (f x : Z) := if b then Z.lor x f else x in
  let set v := negb (v =? 0) in
  flag (set (tp_frequency_traceable (props c))) PTP_FLAG_FREQUENCY_TRACEABLE
    (flag (set (tp_time_traceable (props c))) PTP_FLAG_TIME_TRACEABLE
       (flag (set (tp_current_utc_offset_valid (props c))) PTP_FLAG_CURRENT_UTC_OFF_VALID
          (flag (set (tp_leap59 (props c))) PTP_FLAG_LEAP_59
             (flag (set (tp_leap61 (props c))) PTP_FLAG_LEAP_61
                (if domain c =? PTP_DOMAIN_0 then PTP_FLAG_PTP_TIMESCALE else 0))))).

(** [path_sequence]: the entries of the path trace that the length covers. *)
Definition md_set_announce (c : gptp_instance) (q : gptp_port) : ptp_announce_pdu :=
  let n := ptlv_entries c in
  let gm := root_system_identity (gm_priority c) in
  let hdr := PtpHdr PTP_DOMAIN_MAJOR_SDOID PTP_MSG_TYPE_ANNOUNCE PTP_VERSION
    (if force_2011 c then 0 else PTP_MINOR_VERSION)
    (htons (sizeof_announce_pdu - (Z.of_nat MAX_PTLV_ENTRIES - n) * 8)) (domain c) (htons (announce_flags c))
    (PortIdentity (get_port_identity_clock_id q) (htons (u16 (get_port_identity_number q))))
    (htons (announce_tx_seqnum q)) (if force_2011 c then PTP_CONTROL_ANNOUNCE_2011 else PTP_CONTROL_ANNOUNCE)
    (current_log_announce_interval (params q)) in
  AnnouncePdu hdr (htons (u16 (tp_current_utc_offset (props c)))) (priority_1 gm) (clock_quality gm) (priority_2 gm)
    (clock_identity gm) (htons (master_steps_removed c)) (tp_time_source (props c)) (htons PTP_TLV_TYPE_PATH_TRACE)
    (htons (8 * n)) (take (Z.to_nat n) (path_trace c)).

Definition set_net_port (i : nat) (f : gptp_net_port → gptp_net_port) : GM unit := set_port i (λ q, q <| net_port ::= f |>).

(** The message is [msg], of which the code sends the length that its header
    holds; that length is the one of [announce_bytes msg]. *)
Definition gptp_net_tx (i : nat) (msg : list Z) : GM unit :=
  let! ok := perform (NetTxAlloc i (14 + Z.of_nat (length msg))) in
  if ok =? 0 then set_net_port i (λ n, n <| num_tx_err_alloc ::= λ x, u32 (x + 1) |>) else
  let! rc := perform (NetTx i msg) in
  if rc <? 0 then
    set_net_port i (λ n, n <| num_tx_err ::= λ x, u32 (x + 1) |>);;
    let! _ := perform (NetTxFree i) in ret tt
  else set_net_port i (λ n, n <| num_tx_pkts ::= λ x, u32 (x + 1) |>).

Definition md_announce_transmit (i : nat) : GM unit :=
  let! c := gets (λ c, c) in
  let! q := get_port i in
  set_port i (λ q, q <| announce_tx_seqnum ::= λ n, u16 (n + 1) |>);;
  set_port i (λ q, q <| stats ::= λ s, s <| num_tx_announce ::= λ n, u32 (n + 1) |> |>);;
  gptp_net_tx i (announce_bytes (md_set_announce c q)).

(** ** PortAnnounceTransmit (gptp/port_fsm.c) *)

Definition set_tx_sm (i : nat) (f : announce_transmit_sm_vars → announce_transmit_sm_vars) : GM unit :=
  set_port i (λ q, q <| announce_transmit_sm ::= f |>).

Definition port_announce_transmit_sm_transmit_init (i : nat) : GM unit :=
  set_params i (λ p, p <| new_info := true |> <| announce_slow_down := false |>);;
  set_tx_sm i (λ s, s <| number_announce_transmissions := 0 |>
    <| tx_state := PORT_ANNOUNCE_TRANSMIT_SM_STATE_TRANSMIT_INIT |>).

Definition port_announce_transmit_sm_idle (i : nat) : GM unit :=
  let! q := get_port i in
  transmit_timer_restart i (u_scaled_ns_to_u64 (interval2 (announce_transmit_sm q)) / NS_PER_MS);;
  set_tx_sm i (λ s, s <| tx_state := PORT_ANNOUNCE_TRANSMIT_SM_STATE_IDLE |>).

Definition port_announce_transmit_sm_transmit_periodic (i : nat) : GM unit :=
  let! q := get_port i in
  let! r := get_role (get_port_identity_number q) in
  set_params i (λ p, p <| new_info ::= λ b, b || bool_decide (r = MASTER_PORT) |>);;
  set_tx_sm i (λ s, s <| tx_state := PORT_ANNOUNCE_TRANSMIT_SM_STATE_TRANSMIT_PERIODIC |>).

Definition port_announce_transmit_sm_transmit_announce (i : nat) : GM unit :=
  set_params i (λ p, p <| new_info := false |>);;
  md_announce_transmit i;;
  let! q := get_port i in
  (if announce_slow_down (params q) then
     if announce_receipt_timeout q <=? number_announce_transmissions (announce_transmit_sm q) then
       set_tx_sm i (λ s, s <| interval2 := announce_interval (params q) |> <| number_announce_transmissions := 0 |>);;
       set_params i (λ p, p <| announce_slow_down := false |>)
     else
       set_tx_sm i (λ s, s <| interval2 := old_announce_interval (params q) |>
         <| number_announce_transmissions ::= λ n, u8 (n + 1) |>)
   else set_tx_sm i (λ s, s <| number_announce_transmissions := 0 |> <| interval2 := announce_interval (params q) |>));;
  set_tx_sm i (λ s, s <| tx_state := PORT_ANNOUNCE_TRANSMIT_SM_STATE_TRANSMIT_ANNOUNCE |>).

(** [selected & (1 << this_port) && !updt_info || external configuration]. *)
Definition may_transmit (c : gptp_instance) (q : gptp_port) : bool :=
  mask_test (get_port_identity_number q) (selected c) && negb (updt_info (params q)) || external_port_configuration_enabled c.

(** One pass of [start:]. *)
Definition port_announce_transmit_sm_step (i : nat) (event : ptp_port_announce_transmit_sm_event_t) : GM unit :=
  let! c := gets (λ c, c) in
  let! q := get_port i in
  match tx_state (announce_transmit_sm q) with
  | PORT_ANNOUNCE_TRANSMIT_SM_STATE_IDLE =>
      if bool_decide (event = PORT_ANNOUNCE_TRANSMIT_SM_EVENT_TRANSMIT_INTERVAL) && may_transmit c q then
        port_announce_transmit_sm_transmit_periodic i
      else if new_info (params q) then
        let! r := get_role (get_port_identity_number q) in
        when (bool_decide (r = MASTER_PORT) && may_transmit c q && negb (get_port_asymmetry q))
          (port_announce_transmit_sm_transmit_announce i)
      else ret tt
  | _ => port_announce_transmit_sm_idle i
  end.

(** A state is left at most four times: TRANSMIT_INIT or TRANSMIT_PERIODIC for
    IDLE, IDLE for TRANSMIT_ANNOUNCE, which resets [new_info]. *)
Fixpoint port_announce_transmit_sm_loop (fuel i : nat) (event : ptp_port_announce_transmit_sm_event_t) : GM unit :=
  match fuel with
  | O => starve
  | S fuel =>
      let! q := get_port i in
      port_announce_transmit_sm_step i event;;
      let! q' := get_port i in
      if bool_decide (tx_state (announce_transmit_sm q) = tx_state (announce_transmit_sm q')) then ret tt
      else port_announce_transmit_sm_loop fuel i PORT_ANNOUNCE_TRANSMIT_SM_EVENT_RUN
  end.

Definition port_announce_transmit_sm (i : nat) (event : ptp_port_announce_transmit_sm_event_t) : GM unit :=
  let! q := get_port i in
  if gm_id_static q then ret tt else
  let! c := gets (λ c, c) in
  when (begin c || negb (instance_enable c)) (port_announce_transmit_sm_transmit_init i);;
  port_announce_transmit_sm_loop 5 i event.

(** ** Selection of the port states (gptp/site_fsm.c) *)

Definition no_clock : list Z := replicate 8 0.
Definition ff_vector : ptp_priority_vector :=
  PriorityVector (SystemIdentity 255 (ClockQuality 255 255 65535) 255 (replicate 8 255)) 65535
    (PortIdentity (replicate 8 255) 65535) 65535.
Definition path_trace_own (c : gptp_instance) : gptp_instance :=
  c <| path_trace := this_clock c :: replicate (MAX_PTLV_ENTRIES - 1) no_clock |> <| num_ptlv := 1 |>.

Definition updt_role_disabled_tree : GM unit :=
  let! n := gets numberPorts in
  for_each (seq 0 (S n)) (λ j, set_role (Z.of_nat j) DISABLED_PORT);;
  modify (λ c, c <| last_gm_priority := ff_vector |>);;
  modify path_trace_own;;
  gptp_ipc_gm_status.

Definition clear_reselect_tree : GM unit := modify (λ c, c <| reselect := 0 |>).

(** The conversion of an [u16] to [s16]. *)
Definition s16 (z : Z) : Z := (z + 2 ^ 15) mod 2 ^ 16 - 2 ^ 15.

Definition gm_path_priority (q : gptp_port) : ptp_priority_vector :=
  (port_priority (params q))
    <| steps_removed ::= λ s, htons (u16 (ntohs s + 1)) |>
    <| port_number := htons (u16 (get_port_identity_number q)) |>.

(** b): the best vector so far, with the port that it comes from. *)
Definition updt_roles_better (c : gptp_instance) (i : nat) (q : gptp_port) (best : option nat * ptp_priority_vector) :
    option nat * ptp_priority_vector :=
  let v := gm_path_priority q in
  if bool_decide (info_is (params q) = SPANNING_TREE_RECEIVED) &&
     negb (bool_decide (os_memcmp (clock_identity (root_system_identity v)) (this_clock c) = Eq)) &&
     bool_decide (compare_system_identity best.2 v = BMCA_VECTOR_B_BETTER)
  then (Some i, v) else best.

Fixpoint updt_roles_best (l : list nat) (best : option nat * ptp_priority_vector) : GM (option nat * ptp_priority_vector) :=
  match l with
  | [] => ret best
  | i :: l =>
      let! c := gets (λ c, c) in
      let! q := get_port i in
      updt_roles_best l (updt_roles_better c i q best)
  end.

(** b), c) and e). *)
Definition updt_roles_gm (best : option nat * ptp_priority_vector) : GM unit :=
  modify (λ c, c <| last_gm_priority := gm_priority c |> <| gm_priority := best.2 |>);;
  match best.1 with
  | Some i =>
      let! q := get_port i in
      modify (λ c, c
        <| props := (let t := ann (params q) in
             TimeProperties (tp_leap61 t) (tp_leap59 t) (tp_current_utc_offset_valid t) (tp_time_traceable t)
               (tp_frequency_traceable t) (s16 (tp_current_utc_offset t)) (tp_time_source t)) |>
        <| gm_priority ::= λ v, v <| steps_removed := steps_removed (gm_path_priority q) |>
             <| port_number := port_number (gm_path_priority q) |> |>
        <| master_steps_removed := u16 (message_steps_removed (params q) + 1) |>)
  | None =>
      modify (λ c, c <| props := sys c |>
        <| gm_priority ::= λ v, v <| steps_removed := 0 |> <| port_number := 0 |>
             <| source_port_identity ::= λ s, s <| pid_port_number := 0 |> |> |>
        <| master_steps_removed := 0 |>)
  end.

(** d) *)
Definition master_vector (c : gptp_instance) (q : gptp_port) : ptp_priority_vector :=
  let n := htons (u16 (get_port_identity_number q)) in
  (gm_priority c)
    <| source_port_identity := PortIdentity (pid_clock_identity (source_port_identity (system_priority c))) n |>
    <| port_number := n |>.

Definition updt_roles_master (i : nat) : GM unit :=
  let! c := gets (λ c, c) in
  let! q := get_port i in
  set_params i (λ p, p <| master_priority := master_vector c q |>).

(** f): the role of a port, and [updt_info] when it changes. *)
Definition port_role (c : gptp_instance) (p : ptp_instance_port_params) : ptp_port_role_t * option bool :=
  match info_is p with
  | SPANNING_TREE_DISABLED => (DISABLED_PORT, None)
  | SPANNING_TREE_AGED => (MASTER_PORT, Some true)
  | SPANNING_TREE_MINE =>
      (MASTER_PORT,
       match os_memcmp (priority_vector_bytes (port_priority p)) (priority_vector_bytes (master_priority p)) with
       | Eq => if port_steps_removed p =? master_steps_removed c then None else Some true
       | _ => Some true
       end)
  | SPANNING_TREE_RECEIVED =>
      match compare_clock_identity (clock_identity (root_system_identity (gm_priority c)))
              (clock_identity (root_system_identity (port_priority p))) with
      | Eq => (SLAVE_PORT, Some false)
      | _ => if bool_decide (compare_system_identity (master_priority p) (port_priority p) = BMCA_VECTOR_A_BETTER)
             then (MASTER_PORT, Some true) else (PASSIVE_PORT, Some false)
      end
  end.

Definition updt_roles_port (i : nat) : GM unit :=
  let! c := gets (λ c, c) in
  let! q := get_port i in
  let '(role, updt) := port_role c (params q) in
  (match updt with
   | Some b => set_params i (λ p, p <| updt_info := b |>)
   | None => ret tt
   end);;
  set_role (get_port_identity_number q) role.

(** g), h) and i). *)
Definition updt_roles_present : GM unit :=
  modify (λ c, c <| gm_present := priority_1 (root_system_identity (gm_priority c)) <? 255 |>).
Definition updt_roles_zero : GM unit :=
  let! n := gets numberPorts in
  set_role 0 SLAVE_PORT;;
  let! o := list_search (seq 1 n) (λ j, let! r := get_role (Z.of_nat j) in ret (bool_decide (r = SLAVE_PORT))) in
  match o with Some _ => set_role 0 PASSIVE_PORT | None => ret tt end.
Definition is_this_clock (c : gptp_instance) : bool :=
  bool_decide (os_memcmp (clock_identity (root_system_identity (gm_priority c))) (this_clock c) = Eq).
Definition updt_roles_grandmaster (best : ptp_priority_vector) : GM unit :=
  let! c := gets (λ c, c) in
  modify (λ c, c <| is_grandmaster := is_this_clock c && gm_present c |>);;
  when (is_this_clock c) (modify path_trace_own);;
  let! c' := gets (λ c, c) in
  when (negb (Bool.eqb (is_grandmaster c') (is_grandmaster c)) && is_grandmaster c')
    (let! _ := perform ClkAdjReset in ret tt);;
  when (gm_present c') (gptp_gm_indication best).

Definition updt_roles_tree : GM unit :=
  let! c := gets (λ c, c) in
  let l := seq 0 (numberPorts c) in
  let! best := updt_roles_best l (None, system_priority c) in
  updt_roles_gm best;;
  for_each l updt_roles_master;;
  for_each l updt_roles_port;;
  updt_roles_present;;
  updt_roles_zero;;
  updt_roles_grandmaster best.2.

Definition port_state_selection_sm_init_bridge : GM unit :=
  updt_role_disabled_tree;;
  modify (λ c, c <| port_state_sm_state := PORT_STATE_SM_STATE_INIT_BRIDGE |>).

(** ** PortAnnounceInformation (gptp/port_fsm.c) *)

(** [*rcvd_announce_ptr] *)
Definition rcvd_announce (i : nat) : GM ptp_announce_pdu :=
  let! q := get_port i in
  if rcvd_announce_ptr (announce_receive_sm q) then ret (read_announce (announce_rx q)) else crash NullDeref.
Definition clear_announce_ptr (i : nat) : GM unit :=
  set_port i (λ q, q <| announce_receive_sm ::= λ s, s <| rcvd_announce_ptr := false |> |>).

Definition announce_properties (m : ptp_announce_pdu) : time_properties :=
  let f := ntohs (flags (header m)) in
  TimeProperties (u8 (Z.land f PTP_FLAG_LEAP_61)) (u8 (Z.land f PTP_FLAG_LEAP_59))
    (u8 (Z.land f PTP_FLAG_CURRENT_UTC_OFF_VALID)) (u8 (Z.land f PTP_FLAG_TIME_TRACEABLE))
    (u8 (Z.land f PTP_FLAG_FREQUENCY_TRACEABLE)) (ntohs (current_utc_offset m)) (time_source m).
Definition record_other_announce_info (i : nat) : GM unit :=
  let! m := rcvd_announce i in
  set_params i (λ p, p <| ann := announce_properties m |>).

Definition set_info_state (i : nat) (s : ptp_port_announce_info_sm_state_t) : GM unit :=
  set_port i (λ q, q <| port_announce_info_sm_state := s |>).
(** [reselect |= ..., selected &= ~...] *)
Definition ask_reselect (i : nat) : GM unit :=
  let! q := get_port i in
  let j := get_port_identity_number q in
  modify (λ c, c <| reselect ::= mask_set j |> <| selected ::= mask_clear j |>).

Section information.
(** [port_state_selection_sm] *)
Variable selection : GM unit.

Definition port_announce_info_sm_disabled (i : nat) : GM unit :=
  set_params i (λ p, p <| rcvd_msg := false |>);;
  let! t := perform (ClockGettime64 false) in
  let now_ns := if t <? 0 then 0 else u64 t in
  set_port i (λ q, q <| announce_information_sm ::= λ s, s <| announceReceiptTimeoutTime := u64_to_u_scaled_ns now_ns |> |>);;
  set_params i (λ p, p <| info_is := SPANNING_TREE_DISABLED |>);;
  ask_reselect i;;
  set_info_state i PORT_ANNOUNCE_INFO_SM_STATE_DISABLED;;
  selection.

Definition port_announce_info_sm_current (i : nat) : GM unit := set_info_state i PORT_ANNOUNCE_INFO_SM_STATE_CURRENT.

Definition port_announce_info_sm_superior (i : nat) : GM unit :=
  set_port i (λ q, q <| params ::= λ p, p <| port_priority := messagePriority (announce_information_sm q) |> |>);;
  record_other_announce_info i;;
  let! q := get_port i in
  let! m := rcvd_announce i in
  let interval := u64 (announce_receipt_timeout q * log_to_ns (log_msg_interval (header m))) in
  set_params i (λ p, p <| announce_receipt_timeout_time_interval := u64_to_u_scaled_ns interval |>);;
  receipt_timer_restart i (interval / NS_PER_MS);;
  set_params i (λ p, p <| info_is := SPANNING_TREE_RECEIVED |>);;
  ask_reselect i;;
  set_params i (λ p, p <| rcvd_msg := false |>);;
  clear_announce_ptr i;;
  set_info_state i PORT_ANNOUNCE_INFO_SM_STATE_SUPERIOR_MASTER_PORT;;
  gm_change;;
  selection.

Definition port_announce_info_sm_repeated (i : nat) : GM unit :=
  let! q := get_port i in
  receipt_timer_restart i (u_scaled_ns_to_u64 (announce_receipt_timeout_time_interval (params q)) / NS_PER_MS);;
  set_params i (λ p, p <| rcvd_msg := false |>);;
  clear_announce_ptr i;;
  set_info_state i PORT_ANNOUNCE_INFO_SM_STATE_REPEATED_MASTER_PORT.

Definition port_announce_info_sm_inferior (i : nat) : GM unit :=
  set_params i (λ p, p <| rcvd_msg := false |>);;
  clear_announce_ptr i;;
  set_info_state i PORT_ANNOUNCE_INFO_SM_STATE_INFERIOR_MASTER_OR_OTHER;;
  gm_change.

Definition port_announce_info_sm_update (i : nat) : GM unit :=
  let! c := gets (λ c, c) in
  set_params i (λ p, p <| port_priority := master_priority p |> <| port_steps_removed := master_steps_removed c |>
    <| updt_info := false |> <| info_is := SPANNING_TREE_MINE |> <| new_info := true |>);;
  set_info_state i PORT_ANNOUNCE_INFO_SM_STATE_UPDATE;;
  port_announce_transmit_sm i PORT_ANNOUNCE_TRANSMIT_SM_EVENT_RUN.

Definition port_announce_info_sm_aged (i : nat) : GM unit :=
  set_params i (λ p, p <| info_is := SPANNING_TREE_AGED |>);;
  ask_reselect i;;
  set_info_state i PORT_ANNOUNCE_INFO_SM_STATE_AGED;;
  selection.

Definition rcv_info (i : nat) (m : ptp_announce_pdu) : GM ptp_announce_priority_info_t :=
  let! q := get_port i in
  let v := copy_priority_vector_from_message (get_port_identity_number q) m in
  set_port i (λ q, q <| announce_information_sm ::= λ s, s <| messagePriority := v |> |>);;
  set_params i (λ p, p <| message_steps_removed := ntohs (announce_steps_removed m) |>);;
  ret (match compare_msg_priority_vector v (port_priority (params q)) with
       | BMCA_VECTOR_A_BETTER => ANNOUNCE_PRIO_SUPERIOR_MASTER_INFO
       | BMCA_VECTOR_A_B_SAME => ANNOUNCE_PRIO_REPEATED_MASTER_INFO
       | BMCA_VECTOR_B_BETTER => ANNOUNCE_PRIO_INFERIOR_MASTER_INFO
       end).

Definition port_announce_info_sm_receive (i : nat) : GM unit :=
  let! m := rcvd_announce i in
  let! info := rcv_info i m in
  set_port i (λ q, q <| announce_information_sm ::= λ s, s <| rcvdInfo := info |> |>);;
  match info with
  | ANNOUNCE_PRIO_SUPERIOR_MASTER_INFO => port_announce_info_sm_superior i
  | ANNOUNCE_PRIO_REPEATED_MASTER_INFO => port_announce_info_sm_repeated i
  | ANNOUNCE_PRIO_INFERIOR_MASTER_INFO => port_announce_info_sm_inferior i
  | ANNOUNCE_PRIO_OTHER_INFO => ret tt
  end.

(** The [switch] of one pass of [start:]. *)
Definition port_announce_info_sm_step (i : nat) (event : ptp_port_announce_info_sm_event_t) (c : gptp_instance)
    (q : gptp_port) : GM unit :=
  let p := params q in
  let selected_update := mask_test (get_port_identity_number q) (selected c) && updt_info p in
  match port_announce_info_sm_state q with
  | PORT_ANNOUNCE_INFO_SM_STATE_DISABLED =>
      if port_usable q then port_announce_info_sm_aged i
      else when (rcvd_msg p) (port_announce_info_sm_disabled i)
  | PORT_ANNOUNCE_INFO_SM_STATE_CURRENT =>
      if (bool_decide (event = PORT_ANNOUNCE_INFO_SM_EVENT_ANNOUNCE_TIMEOUT) ||
          bool_decide (event = PORT_ANNOUNCE_INFO_SM_EVENT_SYNC_TIMEOUT) && gm_present c) &&
         bool_decide (info_is p = SPANNING_TREE_RECEIVED) && negb (updt_info p) && negb (rcvd_msg p)
      then port_announce_info_sm_aged i
      else if rcvd_msg p && negb (updt_info p) then port_announce_info_sm_receive i
      else when selected_update (port_announce_info_sm_update i)
  | PORT_ANNOUNCE_INFO_SM_STATE_AGED => when selected_update (port_announce_info_sm_update i)
  | PORT_ANNOUNCE_INFO_SM_STATE_UPDATE
  | PORT_ANNOUNCE_INFO_SM_STATE_SUPERIOR_MASTER_PORT
  | PORT_ANNOUNCE_INFO_SM_STATE_REPEATED_MASTER_PORT
  | PORT_ANNOUNCE_INFO_SM_STATE_INFERIOR_MASTER_OR_OTHER => port_announce_info_sm_current i
  | PORT_ANNOUNCE_INFO_SM_STATE_RECEIVE => ret tt
  end.

Fixpoint port_announce_info_sm_loop (fuel i : nat) (event : ptp_port_announce_info_sm_event_t) : GM unit :=
  match fuel with
  | O => starve
  | S fuel =>
      let! c := gets (λ c, c) in
      let! q := get_port i in
      if begin c || negb (instance_enable c) ||
         negb (port_usable q) && negb (bool_decide (info_is (params q) = SPANNING_TREE_DISABLED))
      then port_announce_info_sm_disabled i
      else
        port_announce_info_sm_step i event c q;;
        let! q' := get_port i in
        if bool_decide (port_announce_info_sm_state q = port_announce_info_sm_state q') then ret tt
        else port_announce_info_sm_loop fuel i PORT_ANNOUNCE_INFO_SM_EVENT_RUN
  end.

Definition port_announce_info_sm_with (i : nat) (event : ptp_port_announce_info_sm_event_t) : GM unit :=
  let! q := get_port i in
  if gm_id_static q then ret tt else port_announce_info_sm_loop 8 i event.

Definition set_selected_tree : GM unit :=
  modify (λ c, c <| selected := 0xffff |>);;
  let! n := gets numberPorts in
  for_each (seq 0 n) (λ i,
    port_announce_info_sm_with i PORT_ANNOUNCE_INFO_SM_EVENT_RUN;;
    port_announce_transmit_sm i PORT_ANNOUNCE_TRANSMIT_SM_EVENT_RUN).

Definition port_state_selection_sm_selection : GM unit :=
  clear_reselect_tree;;
  updt_roles_tree;;
  set_selected_tree;;
  modify (λ c, c <| port_state_sm_state := PORT_STATE_SM_STATE_SELECTION |>).

Definition port_state_selection_sm_step (c : gptp_instance) : GM unit :=
  match port_state_sm_state c with
  | PORT_STATE_SM_STATE_SELECTION =>
      when (existsb (λ j, mask_test (Z.of_nat j) (reselect c)) (seq 1 (numberPorts c))) port_state_selection_sm_selection
  | PORT_STATE_SM_STATE_INIT_BRIDGE => port_state_selection_sm_selection
  end.

(** A state is left once, INIT_BRIDGE for SELECTION. *)
Fixpoint port_state_selection_sm_loop (fuel : nat) : GM unit :=
  match fuel with
  | O => starve
  | S fuel =>
      let! c := gets (λ c, c) in
      port_state_selection_sm_step c;;
      let! c' := gets (λ c, c) in
      if bool_decide (port_state_sm_state c = port_state_sm_state c') then ret tt else port_state_selection_sm_loop fuel
  end.

Definition port_state_selection_sm_with : GM unit :=
  let! c := gets (λ c, c) in
  if profile c =? CFG_GPTP_PROFILE_AUTOMOTIVE then ret tt
  else if begin c || negb (instance_enable c) then port_state_selection_sm_init_bridge
  else port_state_selection_sm_loop 2.
End information.

(** The calls between the machines, to a depth: the selection runs the machines
    of the ports, which ask for a selection again only when something else has
    happened to a port. *)
Fixpoint port_state_selection_sm_nested (depth : nat) : GM unit :=
  match depth with
  | O => starve
  | S depth => port_state_selection_sm_with (port_state_selection_sm_nested depth)
  end.
Definition port_state_selection_sm : GM unit := port_state_selection_sm_nested 2.
Definition port_announce_info_sm : nat → ptp_port_announce_info_sm_event_t → GM unit :=
  port_announce_info_sm_with port_state_selection_sm.

(** ** PortAnnounceReceive (gptp/port_fsm.c) *)

Definition ptlv_present (m : ptp_announce_pdu) : bool := ntohs (tlv_type m) =? PTP_TLV_TYPE_PATH_TRACE.
Definition ptlv_len (m : ptp_announce_pdu) : Z :=
  let max := (Z.of_nat MAX_PTLV_ENTRIES - 1) * 8 in
  if max <? ntohs (tlv_length_field m) then max else ntohs (tlv_length_field m).
(** The entries that [while (tlv_len)] visits. *)
Definition ptlv_path (m : ptp_announce_pdu) : list (list Z) := take (Z.to_nat (ptlv_len m / 8)) (path_sequence m).

Definition path_trace_append (own : list Z) (m : ptp_announce_pdu) (c : gptp_instance) : gptp_instance :=
  let path := ptlv_path m in
  c <| path_trace := path ++ own :: drop (S (length path)) (path_trace c) |>
    <| num_ptlv := u8 (Z.of_nat (length path) + 1) |>.

Definition qualify_announce (i : nat) : GM bool :=
  let! m := rcvd_announce i in
  let! q := get_port i in
  let own := get_port_identity_clock_id q in
  let is_own id := bool_decide (os_memcmp id own = Eq) in
  if is_own (pid_clock_identity (source_port_id (header m))) then ret false
  else if 255 <=? ntohs (announce_steps_removed m) then ret false
  else if ptlv_present m && negb (ntohs (tlv_length_field m) mod 8 =? 0) then ret false
  else if ptlv_present m && existsb is_own (ptlv_path m) then ret false
  else
    let! r := get_role (get_port_identity_number q) in
    when (bool_decide (r = SLAVE_PORT) && ptlv_present m)
      (modify (path_trace_append own m);;
       gptp_ipc_gm_status);;
    ret true.

Definition set_rcv_sm (i : nat) (f : port_announce_receive_sm → port_announce_receive_sm) : GM unit :=
  set_port i (λ q, q <| announce_receive_sm ::= f |>).

Definition port_announce_rcv_sm_discard (i : nat) : GM unit :=
  set_rcv_sm i (λ s, s <| rcvd_announce_par := false |>);;
  set_params i (λ p, p <| rcvd_msg := false |>);;
  set_rcv_sm i (λ s, s <| rcv_state := PORT_ANNOUNCE_RCV_SM_STATE_DISCARD |>).

Definition port_announce_rcv_sm_receive (i : nat) : GM unit :=
  set_rcv_sm i (λ s, s <| rcvd_announce_par := false |>);;
  let! b := qualify_announce i in
  set_params i (λ p, p <| rcvd_msg := b |>);;
  set_rcv_sm i (λ s, s <| rcv_state := PORT_ANNOUNCE_RCV_SM_STATE_RECEIVE |>);;
  port_announce_info_sm i PORT_ANNOUNCE_INFO_SM_EVENT_RUN.

Definition port_announce_rcv_sm_step (i : nat) (q : gptp_port) : GM unit :=
  let ready := rcvd_announce_par (announce_receive_sm q) && port_usable q in
  match rcv_state (announce_receive_sm q) with
  | PORT_ANNOUNCE_RCV_SM_STATE_DISCARD => when ready (port_announce_rcv_sm_receive i)
  | PORT_ANNOUNCE_RCV_SM_STATE_RECEIVE => when (ready && negb (rcvd_msg (params q))) (port_announce_rcv_sm_receive i)
  end.

(** The state changes at most once, from DISCARD to RECEIVE. *)
Fixpoint port_announce_rcv_sm_loop (fuel i : nat) : GM unit :=
  match fuel with
  | O => starve
  | S fuel =>
      let! q := get_port i in
      port_announce_rcv_sm_step i q;;
      let! q' := get_port i in
      if bool_decide (rcv_state (announce_receive_sm q) = rcv_state (announce_receive_sm q')) then ret tt
      else port_announce_rcv_sm_loop fuel i
  end.

Definition port_announce_rcv_sm (i : nat) : GM unit :=
  let! c := gets (λ c, c) in
  let! q := get_port i in
  if gm_id_static q then ret tt
  else if (begin c || negb (instance_enable c) || rcvd_announce_par (announce_receive_sm q) && negb (port_usable q)) &&
          negb (external_port_configuration_enabled c)
  then port_announce_rcv_sm_discard i
  else port_announce_rcv_sm_loop 2 i.

(** ** AnnounceIntervalSetting (gptp/port_fsm.c) *)

Definition is_supported_log_announce_interval (sm : port_announce_interval_sm) (log : Z) : bool :=
  negb ((log <? log_supported_closest_longer_announce_interval sm) || (log_supported_announce_interval_max sm <? log)).

Definition compute_log_announce_interval (sm : port_announce_interval_sm) (log : Z) : Z :=
  if is_supported_log_announce_interval sm log then log
  else if log_supported_announce_interval_max sm <? log then log_supported_announce_interval_max sm
  else log_supported_closest_longer_announce_interval sm.

Definition set_ais_sm (i : nat) (f : port_announce_interval_sm → port_announce_interval_sm) : GM unit :=
  set_port i (λ q, q <| announce_interval_sm ::= f |>).

Definition port_announce_interval_setting_sm_not_enabled (i : nat) : GM unit :=
  let! q := get_port i in
  when (use_mgt_settable_log_announce_interval q)
    (let log := mgt_settable_log_announce_interval q in
     set_params i (λ p, p <| announce_interval := u64_to_u_scaled_ns (log_to_ns log) |>
       <| current_log_announce_interval := log |>));;
  set_ais_sm i (λ s, s <| ais_state := PORT_ANNOUNCE_INTERVAL_SM_STATE_NOT_ENABLED |>).

Definition port_announce_interval_setting_sm_initialize (i : nat) : GM unit :=
  set_params i (λ p,
    let ns := u64_to_u_scaled_ns (log_to_ns (initial_log_announce_interval p)) in
    p <| current_log_announce_interval := initial_log_announce_interval p |>
      <| announce_interval := ns |> <| old_announce_interval := ns |> <| announce_slow_down := false |>);;
  set_ais_sm i (λ s, s <| rcvd_signaling_msg2 := false |> <| ais_state := PORT_ANNOUNCE_INTERVAL_SM_STATE_INITIALIZE |>).

(** [announce_interval = ...; timer_restart(...); current_log_announce_interval = log] *)
Definition apply_log_announce_interval (i : nat) (log : Z) : GM unit :=
  let ns := log_to_ns log in
  set_params i (λ p, p <| announce_interval := u64_to_u_scaled_ns ns |>);;
  transmit_timer_restart i (ns / NS_PER_MS);;
  set_params i (λ p, p <| current_log_announce_interval := log |>).

Definition stop_transmit_timer (i : nat) : GM unit :=
  set_tx_sm i (λ s, s <| transmit_timer ::= λ t, if st_running t then soft_stop t else t |>).

Definition port_announce_interval_setting_sm_apply (i : nat) : GM unit :=
  let! q := get_port i in
  let sm := announce_interval_sm q in
  let req := rcvd_itlv sm in
  (if req =? -128 then ret tt
   else if req =? 126 then apply_log_announce_interval i (initial_log_announce_interval (params q))
   else if req =? 127 then
     stop_transmit_timer i;;
     set_params i (λ p, p <| current_log_announce_interval := 127 |>)
   else apply_log_announce_interval i (compute_log_announce_interval sm req));;
  set_params i (λ p, p <| announce_slow_down :=
    u_scaled_ns_to_u64 (old_announce_interval p) <? u_scaled_ns_to_u64 (announce_interval p) |>).

Definition port_announce_interval_setting_sm_set_interval (i : nat) : GM unit :=
  let! c := gets (λ c, c) in
  let! q := get_port i in
  let! ignored :=
    if profile c =? CFG_GPTP_PROFILE_AUTOMOTIVE then
      let! r := get_role (get_port_identity_number q) in ret (bool_decide (r = MASTER_PORT))
    else ret false in
  when (negb ignored && negb (use_mgt_settable_log_announce_interval q)) (port_announce_interval_setting_sm_apply i);;
  set_ais_sm i (λ s, s <| rcvd_signaling_msg2 := false |> <| ais_state := PORT_ANNOUNCE_INTERVAL_SM_STATE_SET_INTERVAL |>).

Definition port_announce_interval_setting_sm (i : nat) : GM unit :=
  let! c := gets (λ c, c) in
  let! q := get_port i in
  if begin c || negb (instance_enable c) || negb (get_port_oper q) || negb (ptp_port_enabled (params q)) ||
     use_mgt_settable_log_announce_interval q
  then port_announce_interval_setting_sm_not_enabled i
  else
    match ais_state (announce_interval_sm q) with
    | PORT_ANNOUNCE_INTERVAL_SM_STATE_NOT_ENABLED => port_announce_interval_setting_sm_initialize i
    | _ => when (rcvd_signaling_msg2 (announce_interval_sm q)) (port_announce_interval_setting_sm_set_interval i)
    end.

(** ** Handlers (gptp/gptp.c) *)

Definition set_stats (i : nat) (f : gptp_instance_port_stats → gptp_instance_port_stats) : GM unit :=
  set_port i (λ q, q <| stats ::= f |>).

(** [data] is the memory from the message on; [len] is [desc->len], the length
    of the whole frame. *)
Definition gptp_handle_announce (i : nat) (data : list Z) (len : Z) : GM unit :=
  set_stats i (λ s, s <| num_rx_announce ::= λ n, u32 (n + 1) |>);;
  let! q := get_port i in
  let dropped := set_stats i (λ s, s <| num_rx_announce_dropped ::= λ n, u32 (n + 1) |>) in
  if gm_id_static q then dropped
  else if len <=? sizeof_announce_pdu then
    if Z.of_nat (length data) <? len then crash OutOfBounds else
    let n := Z.to_nat len in
    set_port i (λ q, q <| announce_rx := take n data ++ drop n (announce_rx q) |>
      <| announce_receive_sm ::= λ s, s <| rcvd_announce_ptr := true |> <| rcvd_announce_par := true |> |>);;
    port_announce_rcv_sm i
  else dropped.

Definition gptp_announce_transmit_timer_handler (i : nat) : GM unit :=
  port_announce_transmit_sm i PORT_ANNOUNCE_TRANSMIT_SM_EVENT_TRANSMIT_INTERVAL.
Definition gptp_announce_receive_timeout_timer_handler (i : nat) : GM unit :=
  set_stats i (λ s, s <| num_rx_announce_timeout ::= λ n, u32 (n + 1) |>);;
  port_announce_info_sm i PORT_ANNOUNCE_INFO_SM_EVENT_ANNOUNCE_TIMEOUT.
Definition gptp_sync_receive_timeout_timer_handler (i : nat) : GM unit :=
  set_stats i (λ s, s <| num_rx_sync_timeout ::= λ n, u32 (n + 1) |>);;
  port_announce_info_sm i PORT_ANNOUNCE_INFO_SM_EVENT_SYNC_TIMEOUT.

(** The announce interval of a message interval request. *)
Definition announce_interval_request (i : nat) (itlv : Z) : GM unit :=
  let! c := gets (λ c, c) in
  let! q := get_port i in
  let! r := get_role (get_port_identity_number q) in
  when (negb (profile c =? CFG_GPTP_PROFILE_AUTOMOTIVE) || bool_decide (r = SLAVE_PORT))
    (set_ais_sm i (λ s, s <| rcvd_itlv := itlv |> <| rcvd_signaling_msg2 := true |>);;
     port_announce_interval_setting_sm i).

Definition gptp_as_capable_update_fsm (i : nat) : GM unit :=
  port_announce_info_sm i PORT_ANNOUNCE_INFO_SM_EVENT_RUN;;
  port_announce_rcv_sm i.
Definition gptp_as_capable_down (i : nat) : GM unit :=
  let! q := get_port i in
  when (as_capable (params q))
    (set_params i (λ p, p <| as_capable := false |>);;
     gptp_as_capable_update_fsm i).
Definition gptp_as_capable_up (i : nat) : GM unit :=
  let! q := get_port i in
  when (negb (as_capable (params q)) && ptp_port_enabled (params q))
    (set_params i (λ p, p <| as_capable := true |>);;
     gptp_as_capable_update_fsm i).

Definition gptp_ipc_gptp_port_params (i : nat) : GM unit :=
  let! q := get_port i in
  let! ok := perform PortParamsIpcAlloc in
  if ok =? 0 then ret tt else
  let! rc := perform (PortParamsIpcTx i (as_capable (params q))) in
  when (rc <? 0) (let! _ := perform PortParamsIpcFree in ret tt).

(** [across]: [get_as_capable_accross_domains(port)], of the peer delay machines. *)
Definition gptp_update_as_capable (i : nat) (across : bool) : GM unit :=
  let! c := gets (λ c, c) in
  let! q := get_port i in
  (if across && (neighbor_gptp_capable (params q) || (domain c =? PTP_DOMAIN_0)) then gptp_as_capable_up i
   else gptp_as_capable_down i);;
  gptp_ipc_gptp_port_params i.

Definition gptp_neighbor_gptp_capable_down (i : nat) (across : bool) : GM unit :=
  let! q := get_port i in
  when (neighbor_gptp_capable (params q))
    (set_params i (λ p, p <| neighbor_gptp_capable := false |>);;
     gptp_update_as_capable i across).
Definition gptp_neighbor_gptp_capable_up (i : nat) (across : bool) : GM unit :=
  let! q := get_port i in
  when (negb (neighbor_gptp_capable (params q)))
    (set_params i (λ p, p <| neighbor_gptp_capable := true |>);;
     gptp_update_as_capable i across).

(** The machines of the algorithm that [gptp_port_update_fsm] runs. *)
Definition gptp_port_update_fsm (i : nat) : GM unit :=
  port_announce_interval_setting_sm i;;
  port_announce_info_sm i PORT_ANNOUNCE_INFO_SM_EVENT_RUN;;
  port_announce_rcv_sm i;;
  port_announce_transmit_sm i PORT_ANNOUNCE_TRANSMIT_SM_EVENT_RUN.

(** The part of an instance of [gptp_link_down] and [gptp_link_up]. *)
Definition gptp_link_down (i : nat) : GM unit :=
  set_net_port i (λ n, n <| port_oper := false |>);;
  let! c := gets (λ c, c) in
  when (instance_enable c) (gptp_port_update_fsm i).
Definition gptp_link_up (i : nat) : GM unit :=
  set_net_port i (λ n, n <| port_oper := true |>);;
  let! c := gets (λ c, c) in
  when (instance_enable c) (gptp_port_update_fsm i).

(** The priority vector of the system. *)
Definition system_vector (gm_capable : bool) (clock : list Z) (sp : ptp_priority_vector) : ptp_priority_vector :=
  let r := root_system_identity sp in
  let r := if gm_capable then
      (if priority_1 r =? 255 then r <| priority_1 := 254 |> else r)
        <| clock_quality ::= λ k, if clock_class k =? 255 then k <| clock_class := 248 |> else k |>
    else r <| priority_1 := 255 |> <| clock_quality ::= λ k, k <| clock_class := 255 |> |> in
  sp <| root_system_identity := r <| clock_identity := clock |> |>
     <| source_port_identity ::= λ s, s <| pid_clock_identity := clock |> |>.
Definition system_vector_updated (c : gptp_instance) : gptp_instance :=
  c <| system_priority ::= system_vector (gmCapable c) (this_clock c) |>.
Definition gptp_instance_priority_vector_update : GM unit := modify system_vector_updated.

(** The machines of the algorithm in [gptp_begin_update_port_fsm]. *)
Definition gptp_begin_update_port_fsm (i : nat) : GM unit :=
  set_ais_sm i (λ s, s <| log_supported_announce_interval_max := CFG_GPTP_MAX_LOG_ANNOUNCE_INTERVAL |>
    <| log_supported_closest_longer_announce_interval := CFG_GPTP_MIN_LOG_ANNOUNCE_INTERVAL |>);;
  port_announce_interval_setting_sm i;;
  port_announce_rcv_sm i;;
  port_announce_info_sm i PORT_ANNOUNCE_INFO_SM_EVENT_RUN;;
  port_announce_transmit_sm i PORT_ANNOUNCE_TRANSMIT_SM_EVENT_RUN.

(** [gptp_instance_init] from [begin = true] on. *)
Definition gptp_instance_begin : GM unit :=
  modify (λ c, c <| begin := true |>);;
  let! n := gets numberPorts in
  for_each (seq 0 n) gptp_begin_update_port_fsm;;
  port_state_selection_sm;;
  modify (λ c, c <| begin := false |>).

(** ** Events *)

Inductive gptp_event :=
| EvAnnounce (i : nat) (data : list Z) (len : Z)
| EvAnnounceTimeout (i : nat)
| EvSyncTimeout (i : nat)
| EvTransmit (i : nat)
| EvIntervalRequest (i : nat) (itlv : Z)
| EvAsCapable (i : nat) (across : bool)
| EvNeighbor (i : nat) (capable across : bool)
| EvLink (i : nat) (up : bool).

Definition gptp_handle (e : gptp_event) : GM unit :=
  match e with
  | EvAnnounce i data len => gptp_handle_announce i data len
  | EvAnnounceTimeout i => gptp_announce_receive_timeout_timer_handler i
  | EvSyncTimeout i => gptp_sync_receive_timeout_timer_handler i
  | EvTransmit i => gptp_announce_transmit_timer_handler i
  | EvIntervalRequest i itlv => announce_interval_request i itlv
  | EvAsCapable i across => gptp_update_as_capable i across
  | EvNeighbor i true across => gptp_neighbor_gptp_capable_up i across
  | EvNeighbor i false across => gptp_neighbor_gptp_capable_down i across
  | EvLink i true => gptp_link_up i
  | EvLink i false => gptp_link_down i
  end.
Definition gptp_run (l : list gptp_event) : GM unit := for_each l gptp_handle.
End gptp.
