(* ===== verification/GptpSpec.v ===== *)
(** * gPTP: specifications of the machines

    The machines of a port at rest, what an event may change, and the effect of
    each machine on the instance. *)

From S2P Require Import Prelude Timer GptpBmca Gptp.

(** ** Worlds *)

Section worlds.
Context {C X : Type}.
Definition set_st (w : world C X) (x : X) : world C X := World x (w_clock w) (w_trace w).
End worlds.
Abbreviation gworld := (world gptp_call gptp_instance).

Definition upd (i : nat) (q : gptp_port) (c : gptp_instance) : gptp_instance := c <| ports ::= <[i := q]> |>.

Lemma upd_upd i q q' c : upd i q (upd i q' c) = upd i q c.
Proof. unfold upd, over, over_field. cbn. f_equal. apply list_insert_insert_eq. Qed.
Lemma upd_lookup i q c : is_Some (ports c !! i) → ports (upd i q c) !! i = Some q.
Proof. intros [a Ha%lookup_lt_Some]. cbn. by apply list_lookup_insert_eq. Qed.
Lemma upd_lookup_ne i j q c : i ≠ j → ports (upd i q c) !! j = ports c !! j.
Proof. intros. cbn. by apply list_lookup_insert_ne. Qed.
Lemma upd_id i q c : ports c !! i = Some q → upd i q c = c.
Proof. intros. destruct c. unfold upd, over, over_field. cbn in *. f_equal. by apply list_insert_id. Qed.
Lemma upd_length i q c : length (ports (upd i q c)) = length (ports c).
Proof. cbn. apply length_insert. Qed.

Section steps.
Context `{!Platform gptp_call}.
Implicit Types (w : gworld).

Lemma wp_gptp_get_port i q (Q : gptp_port → gworld → Prop) w :
  ports (w_st w) !! i = Some q → wp (get_port i) Q w ↔ Q q w.
Proof. intros Hq. unfold get_port. rewrite wp_bind, wp_gets, wp_deref, Hq. naive_solver. Qed.
Lemma wp_gptp_set_port i f q (Q : unit → gworld → Prop) w :
  ports (w_st w) !! i = Some q → wp (set_port i f) Q w ↔ Q tt (World (upd i (f q) (w_st w)) (w_clock w) (w_trace w)).
Proof.
  intros Hq. unfold set_port. rewrite wp_modify. destruct w as [c k tr]. cbn in *.
  assert (E : c <| ports ::= alter f i |> = upd i (f q) c).
  { unfold upd, over, over_field. cbn. f_equal. apply list_eq. intros j.
    destruct (decide (i = j)) as [<-|].
    - rewrite list_lookup_alter_eq, Hq, list_lookup_insert_eq; [done|]. by eapply lookup_lt_Some.
    - by rewrite list_lookup_alter_ne, list_lookup_insert_ne. }
  by rewrite E.
Qed.
Lemma wp_get_role j r (Q : ptp_port_role_t → gworld → Prop) w :
  selected_role (w_st w) !! Z.to_nat j = Some r → wp (get_role j) Q w ↔ Q r w.
Proof. intros Hr. unfold get_role. rewrite wp_bind, wp_gets, wp_deref, Hr. naive_solver. Qed.
Lemma wp_for_seq n (body : nat → M gptp_call gptp_instance unit) (I : nat → gworld → Prop) w :
  I O w → (∀ k w, (k < n)%nat → I k w → wp (body k) (λ _ w', I (S k) w') w) →
  wp (for_each (seq 0 n) body) (λ _ w', I n w') w.
Proof.
  intros H0 HI. cut (∀ m w, I m w → (m ≤ n)%nat → wp (for_each (seq m (n - m)) body) (λ _ w', I n w') w).
  { intros H. specialize (H 0%nat w H0). rewrite Nat.sub_0_r in H. apply H. lia. }
  clear w H0. intros m. remember (n - m)%nat as k eqn:Hk. revert m Hk. induction k as [|k IH]; intros m Hk w Hm Hle.
  - cbn. apply wp_ret. replace n with m by lia. done.
  - cbn [seq for_each]. apply wp_bind. eapply wp_mono; [apply HI; [lia|done]|]. intros [] w' Hw'.
    apply IH; (lia || done).
Qed.
End steps.

(** ** The transmit machine *)

(** The NetTx calls of a trace, newest first. *)
Definition announces (t : list (gptp_call * Z)) : list (nat * list Z) :=
  omap (λ x, match x.1 with NetTx p m => Some (p, m) | _ => None end) t.

(** What the transmit machine of a port leaves alone: all but its own
    variables, [new_info], [announce_slow_down] and counters. *)
Definition erase_tx (q : gptp_port) : gptp_port :=
  q <| announce_transmit_sm := AnnounceTransmitSm 0 (UScaledNs 0 0 0) PORT_ANNOUNCE_TRANSMIT_SM_STATE_IDLE soft_none |>
    <| params ::= λ p, p <| new_info := false |> <| announce_slow_down := false |> |>
    <| announce_tx_seqnum := 0 |> <| stats := PortStats 0 0 0 0 0 |>
    <| net_port ::= λ n, NetPort (port_oper n) (asymmetry_measurement_mode n) 0 0 0 |>.

Lemma erase_tx_net q n :
  port_oper n = port_oper (net_port q) → asymmetry_measurement_mode n = asymmetry_measurement_mode (net_port q) →
  erase_tx (q <| net_port := n |>) = erase_tx q.
Proof. destruct q as [? np ? ? ? ? ? ? ? ? ? ? ? ? ?], n, np. intros H1 H2. cbn in H1, H2. subst. reflexivity. Qed.

Definition port_sent (c : gptp_instance) (q : gptp_port) : list Z := announce_bytes (md_set_announce c q).

(** The conditions under which a message leaves. *)
Definition may_announce (c : gptp_instance) (q : gptp_port) : bool :=
  bool_decide (selected_role c !! Z.to_nat (get_port_identity_number q) = Some MASTER_PORT) && may_transmit c q &&
  negb (get_port_asymmetry q).

Ltac enter w H :=
  let x := fresh "x" in let k := fresh "k" in let tr := fresh "tr" in destruct w as [x k tr]; cbn [w_st w_clock w_trace] in *; subst x.
Ltac gstep :=
  repeat first
    [ progress cbn [w_st w_clock w_trace]
    | rewrite wp_bind | rewrite wp_ret | rewrite wp_gets | rewrite wp_perform | rewrite wp_modify
    | erewrite wp_gptp_get_port by (apply upd_lookup; eassumption)
    | erewrite wp_gptp_set_port by (apply upd_lookup; eassumption)
    | rewrite upd_upd ].

Section transmit.
Context `{!Platform gptp_call}.
Context (c : gptp_instance) (i : nat) (Hi : is_Some (ports c !! i)).
Implicit Types (w : gworld) (q : gptp_port).

Definition alloc_ok : Prop := ∀ n p s, answer n (NetTxAlloc p s) ≠ 0.

(** One message, unless there is no descriptor. *)
Definition sent_one (q : gptp_port) (due : bool) (w w' : gworld) : Prop :=
  if due then
    (announces (w_trace w') = announces (w_trace w) ∨ announces (w_trace w') = (i, port_sent c q) :: announces (w_trace w)) ∧
    (alloc_ok → announces (w_trace w') = (i, port_sent c q) :: announces (w_trace w))
  else announces (w_trace w') = announces (w_trace w).

(** Afterwards the machine is idle and has changed nothing else. *)
Definition tx_post (q : gptp_port) (due : bool) (w w' : gworld) : Prop :=
  ∃ q', w_st w' = upd i q' c ∧ erase_tx q' = erase_tx q ∧
    tx_state (announce_transmit_sm q') = PORT_ANNOUNCE_TRANSMIT_SM_STATE_IDLE ∧ sent_one q due w w'.

Lemma transmit_restart_spec q ms w (Q : unit → gworld → Prop) :
  w_st w = upd i q c →
  (∀ w', w_st w' = upd i (q <| announce_transmit_sm ::= λ s, s <| transmit_timer ::= soft_restart (u32 ms) |> |>) c →
     announces (w_trace w') = announces (w_trace w) → Q tt w') →
  wp (transmit_timer_restart i ms) Q w.
Proof.
  intros Hw HQ. enter w Hw. unfold transmit_timer_restart. gstep. by apply HQ.
Qed.

Lemma idle_spec q w (Q : unit → gworld → Prop) :
  w_st w = upd i q c →
  (∀ q' w', w_st w' = upd i q' c → announces (w_trace w') = announces (w_trace w) → erase_tx q' = erase_tx q →
     tx_state (announce_transmit_sm q') = PORT_ANNOUNCE_TRANSMIT_SM_STATE_IDLE →
     new_info (params q') = new_info (params q) → announce_tx_seqnum q' = announce_tx_seqnum q → Q tt w') →
  wp (port_announce_transmit_sm_idle i) Q w.
Proof.
  intros Hw HQ. enter w Hw. unfold port_announce_transmit_sm_idle, set_tx_sm. gstep.
  eapply transmit_restart_spec; [done|]. intros w Hw Ht. enter w Hw. gstep.
  eapply HQ; try reflexivity. exact Ht.
Qed.
Lemma net_tx_spec q msg w (Q : unit → gworld → Prop) :
  w_st w = upd i q c →
  (∀ q' w', w_st w' = upd i q' c →
     (announces (w_trace w') = announces (w_trace w) ∨ announces (w_trace w') = (i, msg) :: announces (w_trace w)) →
     (alloc_ok → announces (w_trace w') = (i, msg) :: announces (w_trace w)) →
     q' = q <| net_port := net_port q' |> → port_oper (net_port q') = port_oper (net_port q) →
     asymmetry_measurement_mode (net_port q') = asymmetry_measurement_mode (net_port q) → Q tt w') →
  wp (gptp_net_tx i msg) Q w.
Proof.
  intros Hw HQ. enter w Hw. unfold gptp_net_tx, set_net_port. gstep.
  destruct (answer _ _ =? 0) eqn:E.
  - gstep. eapply HQ; try reflexivity; [by left|]. intros Hok. apply Z.eqb_eq in E. by apply Hok in E.
  - gstep. destruct (_ <? 0); gstep; (eapply HQ; try reflexivity; by right).
Qed.

Lemma announce_spec q w (Q : unit → gworld → Prop) :
  w_st w = upd i q c →
  (∀ q' w', w_st w' = upd i q' c → sent_one q true w w' → erase_tx q' = erase_tx q →
     tx_state (announce_transmit_sm q') = PORT_ANNOUNCE_TRANSMIT_SM_STATE_TRANSMIT_ANNOUNCE →
     new_info (params q') = false → Q tt w') →
  wp (port_announce_transmit_sm_transmit_announce i) Q w.
Proof.
  intros Hw HQ. enter w Hw. unfold port_announce_transmit_sm_transmit_announce, md_announce_transmit, set_tx_sm, set_params. gstep.
  eapply net_tx_spec; [done|]. intros q' w Hw Ht1 Ht2 Hq Hop Has. enter w Hw. gstep.
  assert (He : erase_tx q' = erase_tx q).
  { rewrite Hq. rewrite erase_tx_net by done. reflexivity. }
  assert (Hn : new_info (params q') = false) by (rewrite Hq; done).
  destruct (announce_slow_down (params q')); [destruct (_ <=? _)|]; gstep.
  all: eapply HQ; [reflexivity|split; [exact Ht1|exact Ht2]|rewrite <- He; reflexivity|reflexivity|exact Hn].
Qed.

Lemma periodic_spec q r w (Q : unit → gworld → Prop) :
  w_st w = upd i q c → selected_role c !! Z.to_nat (get_port_identity_number q) = Some r →
  (∀ q' w', w_st w' = upd i q' c → announces (w_trace w') = announces (w_trace w) → erase_tx q' = erase_tx q →
     tx_state (announce_transmit_sm q') = PORT_ANNOUNCE_TRANSMIT_SM_STATE_TRANSMIT_PERIODIC →
     new_info (params q') = new_info (params q) || bool_decide (r = MASTER_PORT) →
     announce_tx_seqnum q' = announce_tx_seqnum q → Q tt w') →
  wp (port_announce_transmit_sm_transmit_periodic i) Q w.
Proof.
  intros Hw Hr HQ. enter w Hw. unfold port_announce_transmit_sm_transmit_periodic, set_tx_sm, set_params. gstep.
  erewrite wp_get_role by exact Hr. gstep. eapply HQ; reflexivity.
Qed.

(** What the machine reads survives its own changes. *)
Lemma erase_tx_reads q q' :
  erase_tx q' = erase_tx q →
  identity q' = identity q ∧ may_transmit c q' = may_transmit c q ∧ may_announce c q' = may_announce c q ∧
  gm_id_static q' = gm_id_static q ∧ (announce_tx_seqnum q' = announce_tx_seqnum q → port_sent c q' = port_sent c q).
Proof.
  intros H. pose proof (f_equal identity H) as H1. pose proof (f_equal params H) as H2.
  pose proof (f_equal (λ q, port_oper (net_port q)) H) as H3. pose proof (f_equal (λ q, asymmetry_measurement_mode (net_port q)) H) as H4.
  pose proof (f_equal gm_id_static H) as H5. cbn in H1, H2, H3, H4, H5.
  assert (Hu : updt_info (params q') = updt_info (params q)) by exact (f_equal updt_info H2).
  assert (Hc : current_log_announce_interval (params q') = current_log_announce_interval (params q))
    by exact (f_equal current_log_announce_interval H2).
  assert (Hm : may_transmit c q' = may_transmit c q) by (unfold may_transmit, get_port_identity_number; by rewrite H1, Hu).
  split; [done|]. split; [done|]. split; [unfold may_announce, get_port_identity_number, get_port_asymmetry; by rewrite Hm, H1, H4|].
  split; [done|]. intros Hs. unfold port_sent, md_set_announce, get_port_identity_number, get_port_identity_clock_id.
  by rewrite H1, Hs, Hc.
Qed.
(** One pass from IDLE that sends nothing, and the passes before it. *)
Definition idle (q : gptp_port) : Prop := tx_state (announce_transmit_sm q) = PORT_ANNOUNCE_TRANSMIT_SM_STATE_IDLE.
Definition interval (e : ptp_port_announce_transmit_sm_event_t) : bool :=
  bool_decide (e = PORT_ANNOUNCE_TRANSMIT_SM_EVENT_TRANSMIT_INTERVAL).
(** When a message leaves: there is something to say, or the interval of a
    resting machine is over. *)
Definition tx_due (q : gptp_port) (e : ptp_port_announce_transmit_sm_event_t) : bool :=
  may_announce c q && (new_info (params q) || interval e && bool_decide (idle q)).

Local Abbreviation loop := port_announce_transmit_sm_loop.
Local Abbreviation role_of q := (selected_role c !! Z.to_nat (get_port_identity_number q)).

Lemma may_transmit_upd q q' : may_transmit (upd i q' c) q = may_transmit c q.
Proof. done. Qed.

Lemma tx_post_trans q q1 d w w1 w2 :
  erase_tx q1 = erase_tx q → (announce_tx_seqnum q1 = announce_tx_seqnum q) → announces (w_trace w1) = announces (w_trace w) →
  tx_post q1 d w1 w2 → tx_post q d w w2.
Proof.
  intros He Hs Ht (q2 & Hw & He2 & Hi2 & Hs2). exists q2. split_and!; [done|congruence|done|].
  destruct (erase_tx_reads _ _ He) as (_ & _ & _ & _ & Hp). unfold sent_one in *. rewrite <- Ht, <- Hp by done. done.
Qed.

Lemma loop_rest q r fuel e w :
  w_st w = upd i q c → idle q → role_of q = Some r → tx_due q e = false → (interval e && may_transmit c q = false) →
  wp (loop (S fuel) i e) (λ _ w', w' = w) w.
Proof.
  intros Hw Hq Hr Hd Hm. enter w Hw. cbn [port_announce_transmit_sm_loop].
  unfold port_announce_transmit_sm_step. gstep. unfold idle in Hq. rewrite Hq, may_transmit_upd. fold (interval e). rewrite Hm.
  cbn [andb]. destruct (new_info (params q)) eqn:Hn; gstep.
  2:{ by rewrite bool_decide_true by done. }
  erewrite wp_get_role by exact Hr. rewrite wp_when.
  unfold tx_due, may_announce in Hd. rewrite Hn, Hr in Hd. cbn [orb] in Hd. rewrite andb_true_r in Hd.
  rewrite (bool_decide_ext (r = MASTER_PORT) (Some r = Some MASTER_PORT)) by (split; congruence).
  rewrite Hd. gstep. by rewrite bool_decide_true by done.
Qed.

(** A state other than IDLE is left for IDLE. *)
Lemma loop_idle q fuel e w (Q : unit → gworld → Prop) :
  w_st w = upd i q c → ¬ idle q →
  (∀ q' w', w_st w' = upd i q' c → announces (w_trace w') = announces (w_trace w) → erase_tx q' = erase_tx q →
     idle q' → new_info (params q') = new_info (params q) → announce_tx_seqnum q' = announce_tx_seqnum q →
     wp (loop fuel i PORT_ANNOUNCE_TRANSMIT_SM_EVENT_RUN) Q w') →
  wp (loop (S fuel) i e) Q w.
Proof.
  intros Hw Hq HQ. enter w Hw. cbn [port_announce_transmit_sm_loop].
  unfold port_announce_transmit_sm_step. gstep. unfold idle in Hq.
  assert (E : (match tx_state (announce_transmit_sm q) with
    | PORT_ANNOUNCE_TRANSMIT_SM_STATE_IDLE => False | _ => True end)) by (by destruct (tx_state _)).
  destruct (tx_state (announce_transmit_sm q)); [| | |done].
  all: eapply idle_spec; [reflexivity|]; intros q1 w Hw Ht He Hs1 Hn1 Hsq; specialize (HQ q1 w Hw Ht He Hs1 Hn1 Hsq);
    enter w Hw; gstep; rewrite bool_decide_false by (rewrite Hs1; discriminate); exact HQ.
Qed.

Lemma loop_sent q r fuel e w :
  w_st w = upd i q c → ¬ idle q → role_of q = Some r → new_info (params q) = false →
  wp (loop (S (S fuel)) i e) (λ _ w', tx_post q false w w') w.
Proof.
  intros Hw Hq Hr Hn. eapply loop_idle; [done|done|]. intros q1 w1 Hw1 Ht He Hs1 Hn1 Hsq.
  destruct (erase_tx_reads _ _ He) as (Hid & _ & _).
  eapply wp_mono; [eapply (loop_rest q1 r); [done|done|unfold get_port_identity_number in *; by rewrite Hid| |done]|].
  - unfold tx_due. rewrite Hn1, Hn. cbn. by rewrite andb_false_r.
  - intros [] w2 ->. exists q1. by split_and!.
Qed.

(** From IDLE without a new interval. *)
Lemma loop_run q r fuel e w :
  w_st w = upd i q c → idle q → role_of q = Some r → (interval e && may_transmit c q = false) →
  wp (loop (S (S (S fuel))) i e) (λ _ w', tx_post q (may_announce c q && new_info (params q)) w w') w.
Proof.
  intros Hw Hq Hr Hm. assert (Hdue : tx_due q e = may_announce c q && new_info (params q)).
  { unfold tx_due. rewrite (bool_decide_true (idle q)), andb_true_r by done. unfold may_announce.
    destruct (interval e), (may_transmit c q); try done; by rewrite ?orb_false_r, ?andb_false_r. }
  rewrite <- Hdue. destruct (tx_due q e) eqn:Hd.
  2:{ eapply wp_mono; [by eapply (loop_rest q r)|]. intros [] w' ->. exists q. by split_and!. }
  symmetry in Hdue. apply andb_true_iff in Hdue as [Hma Hn]. pose proof Hma as Hma'.
  unfold may_announce in Hma. rewrite Hr in Hma. apply andb_true_iff in Hma as [[Hr' Hmt]%andb_true_iff Has].
  apply bool_decide_eq_true in Hr' as [= ->].
  enter w Hw. remember (S (S fuel)) as f eqn:Hf. cbn [port_announce_transmit_sm_loop].
  unfold port_announce_transmit_sm_step. gstep. unfold idle in Hq. rewrite Hq, may_transmit_upd. fold (interval e). rewrite Hm.
  cbn [andb]. rewrite Hn. gstep. erewrite wp_get_role by exact Hr. rewrite wp_when, Hmt, Has. cbn [andb].
  rewrite bool_decide_true by done. cbn [andb]. eapply announce_spec; [reflexivity|]. intros q1 w Hw Ht He Hs1 Hn1.
  destruct (erase_tx_reads _ _ He) as (Hid & _ & _).
  pose proof Hw as Hw'. enter w Hw. gstep. rewrite bool_decide_false by (rewrite Hs1; done). subst f.
  eapply wp_mono; [eapply (loop_sent q1 MASTER_PORT);
    [done|unfold idle; by rewrite Hs1|unfold get_port_identity_number in *; by rewrite Hid|done]|].
  intros [] w2 (q2 & Hw2 & He2 & Hi2 & Hs2). exists q2. split_and!; [done|congruence|done|]. cbn in Hs2, Ht |- *. by rewrite Hs2.
Qed.

Lemma transmit_loop q r e w :
  w_st w = upd i q c → role_of q = Some r →
  wp (loop 5 i e) (λ _ w', tx_post q (tx_due q e) w w') w.
Proof.
  intros Hw Hr. destruct (decide (idle q)) as [Hq|Hq].
  2:{ eapply loop_idle; [done..|]. intros q1 w1 Hw1 Ht He Hs1 Hn1 Hsq.
      destruct (erase_tx_reads _ _ He) as (Hid & _ & Hma & _).
      eapply wp_mono; [eapply (loop_run q1 r); [done|done|unfold get_port_identity_number in *; by rewrite Hid|done]|].
      intros [] w2 H2. eapply (tx_post_trans q q1 _ _ w1); [done|done|done|]. unfold tx_due.
      rewrite (bool_decide_false (idle q)), andb_false_r, orb_false_r by done. by rewrite <- Hma, <- Hn1. }
  destruct (interval e && may_transmit c q) eqn:Hm.
  2:{ eapply wp_mono; [by eapply (loop_run q r)|]. intros [] w' H. unfold tx_due. rewrite (bool_decide_true (idle q)), andb_true_r by done.
      replace (may_announce c q && (new_info (params q) || interval e)) with (may_announce c q && new_info (params q)); [done|].
      unfold may_announce. destruct (interval e), (may_transmit c q); try done; by rewrite ?orb_false_r, ?andb_false_r. }
  enter w Hw. remember 4%nat as f eqn:Hf. cbn [port_announce_transmit_sm_loop].
  unfold port_announce_transmit_sm_step. gstep. pose proof Hq as Hq'. unfold idle in Hq'. rewrite Hq', may_transmit_upd. fold (interval e).
  rewrite Hm. eapply periodic_spec; [reflexivity|exact Hr|]. intros q1 w Hw Ht He Hs1 Hn1 Hsq. destruct (erase_tx_reads _ _ He) as (Hid & _ & Hma & _).
  pose proof Hw as Hw'. enter w Hw. gstep. rewrite bool_decide_false by (rewrite Hs1; done). subst f.
  eapply loop_idle; [done|unfold idle; by rewrite Hs1|]. intros q2 w2 Hw2 Ht2 He2 Hs2 Hn2 Hsq2.
  destruct (erase_tx_reads _ _ He2) as (Hid2 & _ & Hma2 & _).
  eapply wp_mono; [eapply (loop_run q2 r); [done|done|unfold get_port_identity_number in *; by rewrite Hid2, Hid|done]|].
  intros [] w3 H3. eapply (tx_post_trans q q2 _ _ w2); [by rewrite He2|by rewrite Hsq2|rewrite Ht2; exact Ht|].
  replace (tx_due q e) with (may_announce c q2 && new_info (params q2)); [done|].
  rewrite Hn2, Hn1, Hma2, Hma. unfold tx_due, may_announce. rewrite Hr, (bool_decide_true (idle q)) by done.
  rewrite (bool_decide_ext (r = MASTER_PORT) (Some r = Some MASTER_PORT)) by (split; congruence).
  apply andb_true_iff in Hm as [-> ->]. destruct (bool_decide (Some r = _)); by rewrite ?orb_true_r.
Qed.

Lemma transmit_spec q r e w :
  w_st w = upd i q c → role_of q = Some r → gm_id_static q = false → begin c = false → instance_enable c = true →
  wp (port_announce_transmit_sm i e) (λ _ w', tx_post q (tx_due q e) w w') w.
Proof.
  intros Hw Hr Hs Hb He. pose proof Hw as Hw'. enter w Hw. unfold port_announce_transmit_sm. gstep. rewrite Hs. gstep.
  cbn [upd begin instance_enable over over_field]. replace (begin (upd i q c)) with (begin c) by done.
  replace (instance_enable (upd i q c)) with (instance_enable c) by done. rewrite Hb, He. gstep. by eapply transmit_loop.
Qed.
End transmit.

(** ** The information machine after a selection *)

(** The messages of a port: each is sent by a master port and says what the
    instance has elected. *)
Definition says (c : gptp_instance) (q : gptp_port) (m : list Z) : Prop :=
  ∃ n, m = announce_bytes (md_set_announce c (q <| announce_tx_seqnum := n |>)).
Definition truthful (c : gptp_instance) (i : nat) (q : gptp_port) (x : nat * list Z) : Prop :=
  x.1 = i ∧ selected_role c !! Z.to_nat (get_port_identity_number q) = Some MASTER_PORT ∧ get_port_asymmetry q = false ∧
  says c q x.2.

(** What the selection leaves alone in a port. *)
Definition no_vector : ptp_priority_vector :=
  PriorityVector (SystemIdentity 0 (ClockQuality 0 0 0) 0 no_clock) 0 (PortIdentity no_clock 0) 0.
Definition erase_params_sel (p : ptp_instance_port_params) : ptp_instance_port_params :=
  p <| master_priority := no_vector |> <| port_priority := no_vector |> <| port_steps_removed := 0 |>
    <| updt_info := false |> <| info_is := SPANNING_TREE_DISABLED |>.
Definition erase_sel (q : gptp_port) : gptp_port :=
  (erase_tx q) <| params ::= erase_params_sel |> <| port_announce_info_sm_state := PORT_ANNOUNCE_INFO_SM_STATE_DISABLED |>.

Definition info_updated (c : gptp_instance) (p : ptp_instance_port_params) : ptp_instance_port_params :=
  p <| port_priority := master_priority p |> <| port_steps_removed := master_steps_removed c |>
    <| updt_info := false |> <| info_is := SPANNING_TREE_MINE |>.
Definition info_current (q : gptp_port) : gptp_port :=
  q <| port_announce_info_sm_state := PORT_ANNOUNCE_INFO_SM_STATE_CURRENT |>.
(** The port that the machine leaves behind, up to transmission. *)
Definition info_settled (c : gptp_instance) (q : gptp_port) : gptp_port :=
  if port_usable q then
    info_current (if updt_info (params q) then q <| params ::= info_updated c |> else q)
  else q.

Lemma erase_tx_params q q' :
  erase_tx q' = erase_tx q →
  params q' = (params q) <| new_info := new_info (params q') |> <| announce_slow_down := announce_slow_down (params q') |>.
Proof.
  intros H. pose proof (f_equal params H) as H2. cbn in H2. destruct (params q), (params q'). cbn in *.
  unfold over, over_field in *. cbn in *. injection H2. intros. subst. reflexivity.
Qed.
Lemma erase_tx_usable q q' : erase_tx q' = erase_tx q → port_usable q' = port_usable q.
Proof.
  intros H. pose proof (f_equal (λ q, port_oper (net_port q)) H) as H3. pose proof (f_equal params H) as H2. cbn in H3.
  assert (Hu : ptp_port_enabled (params q') = ptp_port_enabled (params q)) by exact (f_equal ptp_port_enabled H2).
  assert (Ha : as_capable (params q') = as_capable (params q)) by exact (f_equal as_capable H2).
  unfold port_usable, get_port_oper. by rewrite H3, Hu, Ha.
Qed.
Lemma erase_tx_asym q q' : erase_tx q' = erase_tx q → get_port_asymmetry q' = get_port_asymmetry q.
Proof. intros H. exact (f_equal (λ q, asymmetry_measurement_mode (net_port q)) H). Qed.
Lemma erase_tx_state q q' : erase_tx q' = erase_tx q → port_announce_info_sm_state q' = port_announce_info_sm_state q.
Proof. intros H. exact (f_equal port_announce_info_sm_state H). Qed.
Lemma erase_tx_current q q' : erase_tx q' = erase_tx q → erase_tx (info_current q') = erase_tx (info_current q).
Proof.
  intros H. unfold info_current.
  assert (E : ∀ q, erase_tx (q <| port_announce_info_sm_state := PORT_ANNOUNCE_INFO_SM_STATE_CURRENT |>) =
    (erase_tx q) <| port_announce_info_sm_state := PORT_ANNOUNCE_INFO_SM_STATE_CURRENT |>) by reflexivity.
  by rewrite !E, H.
Qed.
Lemma says_erase c q q' m : erase_tx q' = erase_tx q → says c q' m → says c q m.
Proof.
  intros H (n & ->). exists n. f_equal. unfold md_set_announce, get_port_identity_number, get_port_identity_clock_id. cbn.
  pose proof (f_equal identity H) as H1. cbn in H1. rewrite H1.
  by rewrite (f_equal current_log_announce_interval (f_equal params H : params (erase_tx q') = params (erase_tx q)) :
    current_log_announce_interval (params q') = current_log_announce_interval (params q)).
Qed.
Lemma truthful_erase c i q q' x : erase_tx q' = erase_tx q → truthful c i q' x → truthful c i q x.
Proof.
  intros H (H1 & H2 & H3 & H4). pose proof (f_equal identity H) as Hi. cbn in Hi. unfold get_port_identity_number in H2.
  rewrite Hi in H2. split_and!; [done|done|by rewrite <- (erase_tx_asym _ _ H)|by eapply says_erase].
Qed.

Section info.
Context `{!Platform gptp_call}.
Implicit Types (w : gworld) (q : gptp_port) (c : gptp_instance) (sel : M gptp_call gptp_instance unit).

Lemma info_loop_S sel fuel i e c q w (Q : unit → gworld → Prop) :
  w_st w = c → ports c !! i = Some q → begin c = false → instance_enable c = true →
  (port_usable q = true ∨ info_is (params q) = SPANNING_TREE_DISABLED) →
  wp (port_announce_info_sm_step sel i e c q) (λ _ w1, ∃ q1, ports (w_st w1) !! i = Some q1 ∧
    (port_announce_info_sm_state q = port_announce_info_sm_state q1 → Q tt w1) ∧
    (port_announce_info_sm_state q ≠ port_announce_info_sm_state q1 →
       wp (port_announce_info_sm_loop sel fuel i PORT_ANNOUNCE_INFO_SM_EVENT_RUN) Q w1)) w →
  wp (port_announce_info_sm_loop sel (S fuel) i e) Q w.
Proof.
  intros Hw Hq Hb He Hu H. cbn [port_announce_info_sm_loop]. rewrite wp_bind, wp_gets, wp_bind, Hw.
  erewrite wp_gptp_get_port by (by rewrite Hw). rewrite Hb, He. cbn [negb orb].
  replace (negb (port_usable q) && _) with false.
  2:{ destruct Hu as [->| ->]; [done|]. rewrite bool_decide_true by done. by rewrite andb_false_r. }
  rewrite wp_bind. eapply wp_mono; [exact H|]. intros [] w1 (q1 & Hq1 & H1 & H2).
  rewrite wp_bind. erewrite wp_gptp_get_port by exact Hq1. case_bool_decide as D; [by apply H1|by apply H2].
Qed.

(** A port with nothing to do. *)
Definition info_quiet (c : gptp_instance) (q : gptp_port) : Prop :=
  rcvd_msg (params q) = false ∧
  if port_usable q then port_announce_info_sm_state q = PORT_ANNOUNCE_INFO_SM_STATE_CURRENT ∧ updt_info (params q) = false
  else port_announce_info_sm_state q = PORT_ANNOUNCE_INFO_SM_STATE_DISABLED ∧ info_is (params q) = SPANNING_TREE_DISABLED.

Lemma info_loop_quiet sel fuel i c q w (Q : unit → gworld → Prop) :
  w_st w = c → ports c !! i = Some q → begin c = false → instance_enable c = true → info_quiet c q →
  Q tt w → wp (port_announce_info_sm_loop sel (S fuel) i PORT_ANNOUNCE_INFO_SM_EVENT_RUN) Q w.
Proof.
  intros Hw Hq Hb He [Hr Hs] HQ. subst c.
  destruct (port_usable q) eqn:Hu; destruct Hs as [Hs1 Hs2].
  - eapply info_loop_S; [done..|by left|]. unfold port_announce_info_sm_step. rewrite Hs1, Hs2, Hr. cbn [andb].
    rewrite andb_false_r. cbn [when]. rewrite !bool_decide_false by discriminate. cbn [orb andb]. apply wp_ret.
    exists q. split_and!; [done|done|by rewrite Hs1].
  - eapply info_loop_S; [done..|by right|]. unfold port_announce_info_sm_step. rewrite Hs1, Hr, Hu. apply wp_ret.
    exists q. split_and!; [done|done|by rewrite Hs1].
Qed.

(** The messages added to a trace. *)
Definition sends (P : nat * list Z → Prop) (w w' : gworld) : Prop :=
  ∃ l, announces (w_trace w') = l ++ announces (w_trace w) ∧ Forall P l.
Lemma sends_refl P w w' : announces (w_trace w') = announces (w_trace w) → sends P w w'.
Proof. intros H. exists []. by split. Qed.
Lemma sends_trans P w1 w2 w3 : sends P w1 w2 → sends P w2 w3 → sends P w1 w3.
Proof.
  intros (l & H1 & F1) (k & H2 & F2). exists (k ++ l). rewrite H2, H1. split; [by rewrite List.app_assoc|].
  by apply list.Forall_app_2.
Qed.
Lemma sends_mono (P P' : nat * list Z → Prop) w1 w2 : (∀ x, P x → P' x) → sends P w1 w2 → sends P' w1 w2.
Proof. intros HP (l & H & F). exists l. split; [done|]. eapply list.Forall_impl; [exact F|done]. Qed.

Section settle.
Context (c : gptp_instance) (i : nat) (Hi : is_Some (ports c !! i)) (sel : M gptp_call gptp_instance unit).
Context (Hb : begin c = false) (He : instance_enable c = true).
Local Abbreviation loop := (port_announce_info_sm_loop sel).
Local Abbreviation RUN := PORT_ANNOUNCE_INFO_SM_EVENT_RUN.

Definition settle_post (q : gptp_port) (w w' : gworld) : Prop :=
  ∃ q', w_st w' = upd i q' c ∧ erase_tx q' = erase_tx (info_settled c q) ∧ (idle q → idle q') ∧
    sends (truthful c i (info_settled c q)) w w'.

Lemma tx_sends q e w w' r : selected_role c !! Z.to_nat (get_port_identity_number q) = Some r →
  sent_one c i q (tx_due c q e) w w' → sends (truthful c i q) w w'.
Proof.
  intros Hr H. unfold sent_one in H. destruct (tx_due c q e) eqn:Hd; [|by apply sends_refl].
  destruct H as [[H|H] _]; [by apply sends_refl|]. exists [(i, port_sent c q)]. split; [done|].
  apply list.Forall_cons. split; [|done]. unfold tx_due, may_announce in Hd. rewrite Hr in *.
  apply andb_true_iff in Hd as [[[Hm _]%andb_true_iff Ha%negb_true_iff]%andb_true_iff _].
  apply bool_decide_eq_true in Hm. split_and!; [done|by rewrite Hr|done|].
  exists (announce_tx_seqnum q). by destruct q.
Qed.

Lemma upd_port q : ports (upd i q c) !! i = Some q.
Proof. by apply upd_lookup. Qed.

(** The unconditional return to CURRENT. *)
Lemma loop_current q fuel w (Q : unit → gworld → Prop) :
  w_st w = upd i q c → port_usable q = true →
  match port_announce_info_sm_state q with
  | PORT_ANNOUNCE_INFO_SM_STATE_UPDATE | PORT_ANNOUNCE_INFO_SM_STATE_SUPERIOR_MASTER_PORT
  | PORT_ANNOUNCE_INFO_SM_STATE_REPEATED_MASTER_PORT | PORT_ANNOUNCE_INFO_SM_STATE_INFERIOR_MASTER_OR_OTHER => True
  | _ => False
  end →
  (∀ w', w_st w' = upd i (info_current q) c → announces (w_trace w') = announces (w_trace w) → wp (loop fuel i RUN) Q w') →
  wp (loop (S fuel) i RUN) Q w.
Proof.
  intros Hw Hu Hs HQ. eapply info_loop_S; [exact Hw|apply upd_port|done|done|by left|].
  assert (E : port_announce_info_sm_step sel i RUN (upd i q c) q = port_announce_info_sm_current i)
    by (unfold port_announce_info_sm_step; destruct (port_announce_info_sm_state q); done).
  rewrite E. enter w Hw. unfold port_announce_info_sm_current, set_info_state. gstep. exists (info_current q).
  split; [apply upd_port|]. split.
  - intros H. exfalso. rewrite H in Hs. exact Hs.
  - intros _. by apply HQ.
Qed.

Lemma loop_update q r fuel w :
  w_st w = upd i q c → port_usable q = true → rcvd_msg (params q) = false → updt_info (params q) = true →
  (port_announce_info_sm_state q = PORT_ANNOUNCE_INFO_SM_STATE_CURRENT ∨
   port_announce_info_sm_state q = PORT_ANNOUNCE_INFO_SM_STATE_AGED) →
  mask_test (get_port_identity_number q) (selected c) = true → gm_id_static q = false →
  selected_role c !! Z.to_nat (get_port_identity_number q) = Some r →
  wp (loop (S (S (S fuel))) i RUN) (λ _ w', settle_post q w w') w.
Proof.
  intros Hw Hu Hrm Hup Hs Hm Hst Hr. eapply info_loop_S; [exact Hw|apply upd_port|done|done|by left|].
  assert (E : port_announce_info_sm_step sel i RUN (upd i q c) q = port_announce_info_sm_update i).
  { unfold port_announce_info_sm_step. replace (selected (upd i q c)) with (selected c) by done.
    rewrite Hm, Hup, Hrm. cbn [andb negb when]. rewrite !bool_decide_false by discriminate. by destruct Hs as [-> | ->]. }
  rewrite E. pose proof Hw as Hw0. enter w Hw. unfold port_announce_info_sm_update, set_info_state, set_params. gstep.
  replace (master_steps_removed (upd i q c)) with (master_steps_removed c) by done.
  set (q1 := over port_announce_info_sm_state _ _).
  eapply wp_mono; [eapply (transmit_spec c i Hi q1 r); done|].
  intros [] w2 (q2 & Hw2 & He2 & Hi2 & Hs2). exists q2. split; [rewrite Hw2; apply upd_port|].
  pose proof (erase_tx_state _ _ He2) as Hst2. cbn in Hst2. rewrite Hst2.
  split; [intros H; rewrite H in Hs; by destruct Hs|]. intros _.
  eapply loop_current; [done|rewrite (erase_tx_usable _ _ He2); exact Hu|by rewrite Hst2|].
  intros w3 Hw3 Ht3. pose proof (erase_tx_params _ _ He2) as Hp2.
  eapply (info_loop_quiet sel fuel i (w_st w3)); [done|rewrite Hw3; apply upd_port|by rewrite Hw3|by rewrite Hw3| |].
  { split; [cbn; rewrite Hp2; exact Hrm|].
    replace (port_usable (info_current q2)) with true by (symmetry; rewrite <- Hu; exact (erase_tx_usable _ _ He2)).
    split; [done|]. cbn. rewrite Hp2. done. }
  exists (info_current q2). split; [done|]. unfold info_settled. rewrite Hu, Hup.
  assert (Ec : erase_tx (info_current q2) = erase_tx (info_current (q <| params ::= info_updated c |>)))
    by (rewrite (erase_tx_current _ _ He2); reflexivity).
  split; [exact Ec|]. split; [intros _; exact Hi2|].
  eapply sends_mono; [|eapply sends_trans; [eapply (tx_sends q1); [exact Hr|exact Hs2]|by apply sends_refl]].
  intros x (H1 & H2 & H3 & (n & H4)). split_and!; [done|done|done|]. by exists n.
Qed.

Definition info_ready (q : gptp_port) : Prop :=
  rcvd_msg (params q) = false ∧ gm_id_static q = false ∧
  if port_usable q then
    mask_test (get_port_identity_number q) (selected c) = true ∧
    (port_announce_info_sm_state q = PORT_ANNOUNCE_INFO_SM_STATE_CURRENT ∨
     port_announce_info_sm_state q = PORT_ANNOUNCE_INFO_SM_STATE_SUPERIOR_MASTER_PORT ∨
     port_announce_info_sm_state q = PORT_ANNOUNCE_INFO_SM_STATE_AGED ∧ updt_info (params q) = true)
  else port_announce_info_sm_state q = PORT_ANNOUNCE_INFO_SM_STATE_DISABLED ∧ info_is (params q) = SPANNING_TREE_DISABLED.

Lemma settle_spec q r w :
  w_st w = upd i q c → info_ready q → selected_role c !! Z.to_nat (get_port_identity_number q) = Some r →
  wp (port_announce_info_sm_with sel i RUN) (λ _ w', settle_post q w w') w.
Proof.
  intros Hw (Hrm & Hst & Hs) Hr. pose proof Hw as Hw0. enter w Hw0. unfold port_announce_info_sm_with. gstep. rewrite Hst.
  destruct (port_usable q) eqn:Hu.
  2:{ eapply info_loop_quiet; [done|apply upd_port|done|done| |].
      - split; [done|]. by rewrite Hu.
      - exists q. unfold info_settled. rewrite Hu. split_and!; [done|done|done|by apply sends_refl]. }
  destruct Hs as [Hm Hs]. destruct (updt_info (params q)) eqn:Hup.
  - destruct Hs as [Hs|[Hs|[Hs _]]].
    + eapply (loop_update q); try done. by left.
    + eapply loop_current; [done|done|by rewrite Hs|]. intros w1 Hw1 Ht1.
      eapply wp_mono; [eapply (loop_update (info_current q)); try done; by left|].
      intros [] w2 (q2 & Hw2 & He2 & Hi2 & Hs2). exists q2. split; [done|].
      assert (E : info_settled c (info_current q) = info_settled c q).
      { unfold info_settled. replace (port_usable (info_current q)) with true by done. rewrite Hu.
        replace (updt_info (params (info_current q))) with true by done. by rewrite Hup. }
      rewrite E in *. split; [done|]. split; [done|]. eapply sends_trans; [by apply sends_refl|exact Hs2].
    + eapply (loop_update q); try done. by right.
  - destruct Hs as [Hs|[Hs|[Hs ?]]]; [| |done].
    + eapply info_loop_quiet; [done|apply upd_port|done|done|split; [done|by rewrite Hu]|].
      exists q. unfold info_settled. rewrite Hu, Hup. split_and!; [done| |done|by apply sends_refl].
      f_equal. destruct q. cbn in Hs. by subst.
    + eapply loop_current; [done|done|by rewrite Hs|]. intros w1 Hw1 Ht1.
      eapply (info_loop_quiet _ _ _ (w_st w1)); [done|rewrite Hw1; apply upd_port|by rewrite Hw1|by rewrite Hw1| |].
      * split; [done|]. by replace (port_usable (info_current q)) with true by done.
      * exists (info_current q). unfold info_settled. rewrite Hu, Hup. split_and!; [done|done|done|by apply sends_refl].
Qed.
End settle.
End info.
