(* ===== verification/GptpElect.v ===== *)
(** * gPTP: the election of the grandmaster

    What the algorithm promises: an instance is a system vector with, for each
    port, what the port knows; the election picks the best system identity,
    gives every port its role and lets the ports without a better master
    announce the result.  Identities are compared as numbers here; the
    selection machine of Gptp.v implements this election. *)

From S2P Require Import Prelude GptpBmca Gptp.

(** ** The abstract instance *)

Inductive binfo := Down | Mine | Received.
#[export] Instance binfo_eq_dec : EqDecision binfo.
Proof. solve_decision. Defined.

Record bport := BPort {
  b_info : binfo;
  b_vector : ptp_priority_vector;
  b_steps : Z;                        (* stepsRemoved of the last message *)
  b_ann : time_properties;
}.
#[export] Instance eta_bport : Eta bport := λ r, BPort (b_info r) (b_vector r) (b_steps r) (b_ann r).

Record bmca := Bmca {
  b_clock : list Z;
  b_system : ptp_priority_vector;
  b_sys : time_properties;
  b_ports : list bport;
  b_gm : ptp_priority_vector;
  b_master_steps : Z;
  b_props : time_properties;
  b_roles : list ptp_port_role_t;
  b_present : bool;
  b_is_gm : bool;
}.
#[export] Instance eta_bmca : Eta bmca := λ r,
  Bmca (b_clock r) (b_system r) (b_sys r) (b_ports r) (b_gm r) (b_master_steps r) (b_props r) (b_roles r) (b_present r)
    (b_is_gm r).

Definition root_id (v : ptp_priority_vector) : list Z := clock_identity (root_system_identity v).
Definition root_value (v : ptp_priority_vector) : Z := system_value (root_system_identity v).

(** A port that has heard of a master other than this system. *)
Definition candidate (clock : list Z) (p : bport) : bool :=
  bool_decide (b_info p = Received) && bool_decide (root_id (b_vector p) ≠ clock).

(** The first of the best candidates that beat [best]. *)
Fixpoint winner_from (clock : list Z) (i : nat) (l : list bport) (best : Z) (w : option nat) : option nat :=
  match l with
  | [] => w
  | p :: l =>
      if candidate clock p && (root_value (b_vector p) <? best)
      then winner_from clock (S i) l (root_value (b_vector p)) (Some i)
      else winner_from clock (S i) l best w
  end.
Definition winner (b : bmca) : option nat :=
  winner_from (b_clock b) 0 (b_ports b) (root_value (b_system b)) None.
Definition winner_port (b : bmca) : option (nat * bport) :=
  i ← winner b; p ← b_ports b !! i; Some (i, p).

Definition port_be (i : nat) : Z := htons (u16 (Z.of_nat (S i))).

(** The vector of the grandmaster, as seen from here. *)
Definition elected_gm (b : bmca) : ptp_priority_vector :=
  match winner_port b with
  | Some (i, p) =>
      (b_vector p) <| steps_removed ::= λ s, htons (u16 (ntohs s + 1)) |> <| port_number := port_be i |>
  | None =>
      (b_system b) <| steps_removed := 0 |> <| port_number := 0 |>
        <| source_port_identity ::= λ s, s <| pid_port_number := 0 |> |>
  end.
Definition elected_steps (b : bmca) : Z :=
  match winner_port b with Some (_, p) => u16 (b_steps p + 1) | None => 0 end.
Definition elected_props (b : bmca) : time_properties :=
  match winner_port b with
  | Some (_, p) => let t := b_ann p in
      TimeProperties (tp_leap61 t) (tp_leap59 t) (tp_current_utc_offset_valid t) (tp_time_traceable t)
        (tp_frequency_traceable t) (s16 (tp_current_utc_offset t)) (tp_time_source t)
  | None => b_sys b
  end.

(** What a master port announces. *)
Definition announced (system gm : ptp_priority_vector) (i : nat) : ptp_priority_vector :=
  gm <| source_port_identity := PortIdentity (pid_clock_identity (source_port_identity system)) (port_be i) |>
     <| port_number := port_be i |>.

Definition role_of_port (gm : ptp_priority_vector) (p : bport) : ptp_port_role_t :=
  match b_info p with
  | Down => DISABLED_PORT
  | Mine => MASTER_PORT
  | Received =>
      if bool_decide (root_id gm = root_id (b_vector p)) then SLAVE_PORT
      else if root_value gm <? root_value (b_vector p) then MASTER_PORT else PASSIVE_PORT
  end.
(** A master port forgets what it has received. *)
Definition elected_port (system gm : ptp_priority_vector) (i : nat) (p : bport) : bport :=
  match role_of_port gm p with
  | MASTER_PORT => p <| b_info := Mine |> <| b_vector := announced system gm i |>
  | _ => p
  end.
Definition role_zero (l : list ptp_port_role_t) : ptp_port_role_t :=
  if bool_decide (SLAVE_PORT ∈ l) then PASSIVE_PORT else SLAVE_PORT.

Definition elect (b : bmca) : bmca :=
  let gm := elected_gm b in
  let roles := role_of_port gm <$> b_ports b in
  let present := priority_1 (root_system_identity gm) <? 255 in
  b <| b_gm := gm |> <| b_master_steps := elected_steps b |> <| b_props := elected_props b |>
    <| b_roles := role_zero roles :: roles |> <| b_present := present |>
    <| b_is_gm := bool_decide (root_id gm = b_clock b) && present |>
    <| b_ports ::= imap (elected_port (b_system b) gm) |>.

(** ** The winner is the best *)

Section winner.
Context (clock : list Z).
Implicit Types (l : list bport) (i : nat).

(** [w] wins among the ports of [l], numbered from [i], against [best]. *)
Lemma winner_from_spec l i best w :
  match winner_from clock i l best w with
  | None => w = None ∧ ∀ k p, l !! k = Some p → candidate clock p = true → best ≤ root_value (b_vector p)
  | Some j =>
      (w = Some j ∧ (∀ k p, l !! k = Some p → candidate clock p = true → best ≤ root_value (b_vector p))) ∨
      (∃ k p, j = (i + k)%nat ∧ l !! k = Some p ∧ candidate clock p = true ∧ root_value (b_vector p) < best ∧
        (∀ k' p', l !! k' = Some p' → candidate clock p' = true →
           root_value (b_vector p) ≤ root_value (b_vector p') ∧ ((k' < k)%nat → root_value (b_vector p) < root_value (b_vector p'))))
  end.
Proof.
  revert i best w. induction l as [|p l IH]; intros i best w; cbn [winner_from].
  { destruct w as [j|]; [left|]; (split; [done|]); intros k p Hk; by rewrite lookup_nil in Hk. }
  destruct (candidate clock p && (root_value (b_vector p) <? best)) eqn:E.
  - apply andb_true_iff in E as [Hc Hlt%Z.ltb_lt]. specialize (IH (S i) (root_value (b_vector p)) (Some i)).
    destruct (winner_from _ _ _ _ _) as [j|]; [|by destruct IH].
    right. destruct IH as [[[= <-] Hle]|(k & q & -> & Hk & Hcq & Hq & Hall)].
    + exists 0%nat, p. split_and!; [lia|done|done|done|]. intros [|k'] p' Hp' Hc'; cbn in Hp'.
      * injection Hp' as <-. split; lia.
      * specialize (Hle _ _ Hp' Hc'). split; lia.
    + exists (S k), q. split_and!; [lia|done|done|lia|]. intros [|k'] p' Hp' Hc'; cbn in Hp'.
      * injection Hp' as <-. split; lia.
      * destruct (Hall _ _ Hp' Hc') as [H1 H2]. split; [done|]. intros H. apply H2. lia.
  - specialize (IH (S i) best w).
    assert (Hp : candidate clock p = true → best ≤ root_value (b_vector p)).
    { intros Hc. rewrite Hc in E. cbn in E. apply Z.ltb_ge in E. lia. }
    destruct (winner_from _ _ _ _ _) as [j|].
    + destruct IH as [[-> Hle]|(k & q & -> & Hk & Hcq & Hq & Hall)].
      * left. split; [done|]. intros [|k'] p' Hp' Hc'; cbn in Hp'; [injection Hp' as <-; by apply Hp|by eapply Hle].
      * right. exists (S k), q. split_and!; [lia|done|done|done|]. intros [|k'] p' Hp' Hc'; cbn in Hp'.
        { injection Hp' as <-. specialize (Hp Hc'). split; lia. }
        destruct (Hall _ _ Hp' Hc') as [H1 H2]. split; [done|]. intros H. apply H2. lia.
    + destruct IH as [-> Hle]. split; [done|]. intros [|k'] p' Hp' Hc'; cbn in Hp'; [injection Hp' as <-; by apply Hp|by eapply Hle].
Qed.

(** The winner is determined. *)
Lemma winner_from_unique l l' i best :
  length l = length l' →
  (∀ k p p', l !! k = Some p → l' !! k = Some p' →
     (candidate clock p = true ∧ candidate clock p' = true ∧ root_value (b_vector p) = root_value (b_vector p')) ∨
     (candidate clock p' = false ∧ (candidate clock p = true → ∀ j q,
        winner_from clock i l best None = Some (i + j)%nat → l !! j = Some q → root_value (b_vector q) < root_value (b_vector p)))) →
  winner_from clock i l' best None = winner_from clock i l best None.
Proof.
  intros Hlen Hrel. pose proof (winner_from_spec l i best None) as H. pose proof (winner_from_spec l' i best None) as H'.
  assert (Hfst : ∀ k p', l' !! k = Some p' → ∃ p, l !! k = Some p).
  { intros k p' Hk. destruct (l !! k) eqn:E; [by eexists|]. apply lookup_ge_None in E. apply lookup_lt_Some in Hk. lia. }
  assert (Hsnd : ∀ k p, l !! k = Some p → ∃ p', l' !! k = Some p').
  { intros k p Hk. destruct (l' !! k) eqn:E; [by eexists|]. apply lookup_ge_None in E. apply lookup_lt_Some in Hk. lia. }
  destruct (winner_from clock i l best None) as [j|].
  - destruct H as [[? _]|(k & p & -> & Hk & Hc & Hb & Hall)]; [done|].
    destruct (Hsnd _ _ Hk) as [p' Hk'].
    destruct (Hrel _ _ _ Hk Hk') as [(_ & Hc' & Hv)|(Hc' & Hw)].
    2:{ specialize (Hw Hc k p eq_refl Hk). lia. }
    destruct (winner_from clock i l' best None) as [j'|].
    2:{ destruct H' as [_ H']. specialize (H' _ _ Hk' Hc'). lia. }
    destruct H' as [[? _]|(m & r & -> & Hm & Hcr & Hbr & Hallr)]; [done|].
    destruct (Hfst _ _ Hm) as [r0 Hm0].
    destruct (Hrel _ _ _ Hm0 Hm) as [(Hcr0 & _ & Hvr)|(Hcr' & _)]; [|congruence].
    destruct (Hall _ _ Hm0 Hcr0) as [H1 H2]. destruct (Hallr _ _ Hk' Hc') as [H3 H4].
    destruct (Nat.lt_trichotomy m k) as [Hmk|[->|Hmk]]; [specialize (H2 Hmk); lia|done|specialize (H4 Hmk); lia].
  - destruct H as [_ Hle].
    destruct (winner_from clock i l' best None) as [j'|]; [|done].
    destruct H' as [[? _]|(m & r & -> & Hm & Hcr & Hbr & Hallr)]; [done|].
    destruct (Hfst _ _ Hm) as [r0 Hm0].
    destruct (Hrel _ _ _ Hm0 Hm) as [(Hcr0 & _ & Hvr)|(Hcr' & _)]; [|congruence].
    specialize (Hle _ _ Hm0 Hcr0). lia.
Qed.
End winner.

Lemma winner_port_spec b :
  match winner_port b with
  | Some (i, p) =>
      winner b = Some i ∧ b_ports b !! i = Some p ∧ candidate (b_clock b) p = true ∧ root_value (b_vector p) < root_value (b_system b) ∧
      ∀ k q, b_ports b !! k = Some q → candidate (b_clock b) q = true →
        root_value (b_vector p) ≤ root_value (b_vector q) ∧ ((k < i)%nat → root_value (b_vector p) < root_value (b_vector q))
  | None =>
      winner b = None ∧
      ∀ k q, b_ports b !! k = Some q → candidate (b_clock b) q = true → root_value (b_system b) ≤ root_value (b_vector q)
  end.
Proof.
  unfold winner_port. pose proof (winner_from_spec (b_clock b) (b_ports b) 0 (root_value (b_system b)) None) as H.
  fold (winner b) in H. destruct (winner b) as [j|]; cbn; [|done].
  destruct H as [[? _]|(k & p & -> & Hk & Hc & Hb & Hall)]; [done|]. cbn. rewrite Hk. cbn. by split_and!.
Qed.

Lemma root_elected b i p : winner_port b = Some (i, p) → root_system_identity (elected_gm b) = root_system_identity (b_vector p).
Proof. intros H. unfold elected_gm. by rewrite H. Qed.
Lemma root_elected_none b : winner_port b = None → root_system_identity (elected_gm b) = root_system_identity (b_system b).
Proof. intros H. unfold elected_gm. by rewrite H. Qed.

Lemma role_elected_port system gm i p : role_of_port gm (elected_port system gm i p) = role_of_port gm p.
Proof.
  unfold elected_port. destruct (role_of_port gm p) eqn:E; [done| |done|done]. reflexivity.
Qed.
Lemma elected_port_idem system gm i p : elected_port system gm i (elected_port system gm i p) = elected_port system gm i p.
Proof.
  unfold elected_port at 1. rewrite role_elected_port. destruct (role_of_port gm p) eqn:E; [done| |done|done].
  unfold elected_port. rewrite E. reflexivity.
Qed.
Lemma candidate_elected_port clock system gm i p :
  candidate clock (elected_port system gm i p) = true → elected_port system gm i p = p ∧ candidate clock p = true.
Proof. unfold elected_port. destruct (role_of_port gm p) eqn:E; try done. Qed.

Lemma ports_elect b : b_ports (elect b) = imap (elected_port (b_system b) (elected_gm b)) (b_ports b).
Proof. done. Qed.

(** The winner stays the winner once the losers have become masters. *)
Lemma winner_elect b : winner (elect b) = winner b.
Proof.
  unfold winner at 1. change (b_clock (elect b)) with (b_clock b). change (b_system (elect b)) with (b_system b).
  rewrite ports_elect. pose proof (winner_port_spec b) as Hw.
  apply winner_from_unique; [by rewrite length_imap|]. intros k p p' Hk Hk'.
  rewrite list_lookup_imap, Hk in Hk'. cbn in Hk'. injection Hk' as <-.
  destruct (candidate (b_clock b) (elected_port (b_system b) (elected_gm b) k p)) eqn:E.
  { left. apply candidate_elected_port in E as [E1 E2]. by rewrite E1. }
  right. split; [done|]. intros Hc j q Hj Hq. fold (winner b) in Hj. cbn in Hj.
  destruct (winner_port b) as [[i r]|] eqn:Ew.
  2:{ destruct Hw as [Hw _]. congruence. }
  destruct Hw as (Hi & Hr & _). assert (i = j) as <- by congruence. assert (r = q) as -> by congruence.
  unfold elected_port in E. unfold role_of_port in E. unfold candidate in Hc.
  apply andb_true_iff in Hc as [Hc1%bool_decide_eq_true Hc2]. rewrite Hc1 in E.
  assert (Hg : root_value (elected_gm b) = root_value (b_vector q)) by (unfold root_value; by rewrite (root_elected b i q)).
  destruct (bool_decide (root_id (elected_gm b) = _)) eqn:Eb; [exfalso; unfold candidate in E; rewrite Hc1, bool_decide_true, Hc2 in E by done; discriminate|].
  destruct (root_value (elected_gm b) <? root_value (b_vector p)) eqn:El.
  - apply Z.ltb_lt in El. lia.
  - exfalso. unfold candidate in E. rewrite Hc1, Hc2 in E. discriminate.
Qed.
Lemma winner_port_elect b : winner_port (elect b) = winner_port b.
Proof.
  pose proof (winner_port_spec b) as Hw. unfold winner_port at 1. rewrite winner_elect.
  destruct (winner_port b) as [[i p]|] eqn:Ew.
  - destruct Hw as (-> & Hp & Hc & _). rewrite ports_elect. cbn. rewrite list_lookup_imap, Hp. cbn. f_equal. f_equal. unfold elected_port, role_of_port.
    apply andb_true_iff in Hc as [->%bool_decide_eq_true _]. rewrite bool_decide_true; [done|].
    unfold root_id. by rewrite (root_elected b i p).
  - destruct Hw as [-> _]. done.
Qed.

(** An election changes nothing when it is repeated. *)
Lemma elect_idem b : elect (elect b) = elect b.
Proof.
  assert (Hg : elected_gm (elect b) = elected_gm b) by (unfold elected_gm; by rewrite winner_port_elect).
  assert (Hs : elected_steps (elect b) = elected_steps b) by (unfold elected_steps; by rewrite winner_port_elect).
  assert (Hp : elected_props (elect b) = elected_props b) by (unfold elected_props; by rewrite winner_port_elect).
  assert (Hr : role_of_port (elected_gm b) <$> b_ports (elect b) = role_of_port (elected_gm b) <$> b_ports b).
  { apply list_eq. intros k. rewrite !list_lookup_fmap.
    rewrite ports_elect, list_lookup_imap. destruct (b_ports b !! k); [|done]. cbn. f_equal. apply role_elected_port. }
  assert (Hi : imap (elected_port (b_system b) (elected_gm b)) (b_ports (elect b)) = b_ports (elect b)).
  { rewrite ports_elect. apply list_eq. intros k. rewrite !list_lookup_imap. destruct (b_ports b !! k); [|done]. cbn. f_equal. apply elected_port_idem. }
  unfold elect at 1. rewrite Hg, Hs, Hp, Hr.
  change (b_system (elect b)) with (b_system b). change (b_clock (elect b)) with (b_clock b).
  transitivity ((elect b) <| b_ports := imap (elected_port (b_system b) (elected_gm b)) (b_ports (elect b)) |>); [reflexivity|].
  rewrite Hi. reflexivity.
Qed.

(** ** Events *)

(** Nothing to elect: only [b_master_steps] may be out of date, since a message
    that does not win still leaves its stepsRemoved. *)
Definition stable (b : bmca) : Prop := (elect b) <| b_master_steps := b_master_steps b |> = b.
Lemma stable_elect b : stable (elect b).
Proof. unfold stable. by rewrite elect_idem. Qed.

Inductive bevent :=
| BNone
| BUp (i : nat)
| BGone (i : nat)
| BTimeout (i : nat)
| BHear (i : nat) (v : ptp_priority_vector) (steps : Z) (t : time_properties).

Definition b_set (i : nat) (p : bport) (b : bmca) : bmca := b <| b_ports ::= <[i := p]> |>.

(** A message wins over what the port knows if it comes from the same master
    or is better. *)
Definition accepts (v known : ptp_priority_vector) : bool :=
  bool_decide (source_port_identity v = source_port_identity known) || (vector_value v <? vector_value known).

Definition bmca_step (e : bevent) (b : bmca) : bmca :=
  let at_port i f := match b_ports b !! i with Some p => f p | None => b end in
  match e with
  | BNone => b
  | BUp i => at_port i (λ p, elect (b_set i (p <| b_info := Mine |>) b))
  | BGone i => at_port i (λ p, elect (b_set i (p <| b_info := Down |>) b))
  | BTimeout i => at_port i (λ p,
      if bool_decide (b_info p = Received) then elect (b_set i (p <| b_info := Mine |>) b) else b)
  | BHear i v steps t => at_port i (λ p,
      if accepts v (b_vector p) then elect (b_set i (BPort Received v steps t) b)
      else b_set i (p <| b_steps := steps |>) b)
  end.

Lemma stable_fields b :
  stable b ↔
  elected_gm b = b_gm b ∧ elected_props b = b_props b ∧ b_roles (elect b) = b_roles b ∧ b_present (elect b) = b_present b ∧
  b_is_gm (elect b) = b_is_gm b ∧ b_ports (elect b) = b_ports b.
Proof.
  unfold stable. split.
  - intros H. split_and!; [exact (f_equal b_gm H)|exact (f_equal b_props H)|exact (f_equal b_roles H)|exact (f_equal b_present H)|
      exact (f_equal b_is_gm H)|exact (f_equal b_ports H)].
  - intros (H1 & H2 & H3 & H4 & H5 & H6).
    transitivity (Bmca (b_clock b) (b_system b) (b_sys b) (b_ports (elect b)) (elected_gm b) (b_master_steps b) (elected_props b)
      (b_roles (elect b)) (b_present (elect b)) (b_is_gm (elect b))); [reflexivity|].
    rewrite H1, H2, H3, H4, H5, H6. by destruct b.
Qed.

(** The stepsRemoved of a port matters to nothing but [b_master_steps]. *)
Lemma stable_steps b i p s : stable b → b_ports b !! i = Some p → stable (b_set i (p <| b_steps := s |>) b).
Proof.
  intros Hst Hp. apply stable_fields in Hst as (H1 & H2 & H3 & H4 & H5 & H6). set (p1 := p <| b_steps := s |>) in *.
  assert (Hl : ∀ j, b_ports (b_set i p1 b) !! j = (if decide (i = j) then Some p1 else b_ports b !! j)).
  { intros j. change (b_ports (b_set i p1 b)) with (<[i := p1]> (b_ports b)). case_decide as D.
    - subst j. apply list_lookup_insert_eq. by eapply lookup_lt_Some.
    - by apply list_lookup_insert_ne. }
  assert (Hw : winner (b_set i p1 b) = winner b).
  { apply winner_from_unique; [symmetry; apply length_insert|]. intros k q q' Hk Hk'. rewrite Hl in Hk'. destruct (decide (i = k)) as [->|].
    - injection Hk' as <-. rewrite Hp in Hk. injection Hk as <-. change (candidate (b_clock b) p1) with (candidate (b_clock b) p).
      destruct (candidate (b_clock b) p) eqn:E; [by left|by right].
    - rewrite Hk in Hk'. injection Hk' as <-. destruct (candidate (b_clock b) q) eqn:E; [by left|by right]. }
  assert (Hwp : match winner_port b, winner_port (b_set i p1 b) with
                | Some (j, q), Some (j', q') => j' = j ∧ b_vector q' = b_vector q ∧ b_ann q' = b_ann q
                | None, None => True | _, _ => False end).
  { unfold winner_port. rewrite Hw. destruct (winner b) as [j|]; [|done]. cbn. rewrite Hl. destruct (decide (i = j)) as [->|].
    - by rewrite Hp.
    - by destruct (b_ports b !! j). }
  assert (Hg : elected_gm (b_set i p1 b) = elected_gm b).
  { unfold elected_gm. destruct (winner_port b) as [[j q]|], (winner_port (b_set i p1 b)) as [[j' q']|]; try done.
    by destruct Hwp as (-> & -> & _). }
  assert (Hpr : elected_props (b_set i p1 b) = elected_props b).
  { unfold elected_props. destruct (winner_port b) as [[j q]|], (winner_port (b_set i p1 b)) as [[j' q']|]; try done.
    by destruct Hwp as (_ & _ & ->). }
  assert (Hr : role_of_port (elected_gm b) <$> b_ports (b_set i p1 b) = role_of_port (elected_gm b) <$> b_ports b).
  { apply list_eq. intros j. rewrite !list_lookup_fmap, Hl. case_decide as D; [subst j; by rewrite Hp|done]. }
  apply stable_fields. rewrite Hg, Hpr. split_and!; [done|done| | | |].
  - change (b_roles (b_set i p1 b)) with (b_roles b). rewrite <- H3. change (b_roles (elect ?x)) with (role_zero (role_of_port (elected_gm x) <$> b_ports x) ::
      (role_of_port (elected_gm x) <$> b_ports x)). rewrite Hg, Hr. done.
  - change (b_present (b_set i p1 b)) with (b_present b). rewrite <- H4. change (b_present (elect ?x)) with (priority_1 (root_system_identity (elected_gm x)) <? 255). by rewrite Hg.
  - change (b_is_gm (b_set i p1 b)) with (b_is_gm b). rewrite <- H5. change (b_is_gm (elect ?x)) with (bool_decide (root_id (elected_gm x) = b_clock x) &&
      (priority_1 (root_system_identity (elected_gm x)) <? 255)). by rewrite Hg.
  - rewrite ports_elect, Hg. apply list_eq. intros j. rewrite list_lookup_imap, Hl. rewrite ports_elect in H6.
    pose proof (f_equal (λ l, l !! j) H6) as Hj. cbn in Hj. rewrite list_lookup_imap in Hj.
    change (b_system (b_set i p1 b)) with (b_system b). case_decide as D; [|exact Hj]. subst j. rewrite Hp in Hj. cbn in Hj.
    injection Hj as Hj. cbn. f_equal. unfold elected_port in *. change (role_of_port (elected_gm b) p1) with (role_of_port (elected_gm b) p).
    destruct (role_of_port (elected_gm b) p); try done. unfold p1. rewrite <- Hj. reflexivity.
Qed.
