(* ===== verification/GptpSelect.v ===== *)
(** * gPTP: the selection machine implements the election

    The abstraction of an instance, its well-formedness, and the specification
    of the selection of port states (gptp/site_fsm.c). *)

From S2P Require Import Prelude Timer GptpBmca Gptp GptpSpec GptpElect.

(** ** The abstraction *)

Definition info_abs (s : ptp_spanning_tree_info_t) : binfo :=
  match s with
  | SPANNING_TREE_DISABLED => Down
  | SPANNING_TREE_RECEIVED => Received
  | SPANNING_TREE_MINE | SPANNING_TREE_AGED => Mine
  end.
Definition abs_port (q : gptp_port) : bport :=
  let p := params q in BPort (info_abs (info_is p)) (port_priority p) (message_steps_removed p) (ann p).
Definition abs (c : gptp_instance) : bmca :=
  Bmca (this_clock c) (system_priority c) (sys c) (abs_port <$> ports c) (gm_priority c) (master_steps_removed c) (props c)
    (selected_role c) (gm_present c) (is_grandmaster c).

(** ** Well-formed instances *)

Record port_inv (i : nat) (q : gptp_port) : Prop := {
  pi_number : get_port_identity_number q = Z.of_nat (S i);
  pi_clock : id_ok (get_port_identity_clock_id q);
  pi_static : gm_id_static q = false;
  pi_vector : vector_ok (port_priority (params q));
  pi_rx : length (announce_rx q) = 196%nat ∧ Forall is_byte (announce_rx q);
}.

(** [selected_role] has an entry for each port and entry 0. *)
Record inst_ok (c : gptp_instance) : Prop := {
  io_profile : profile c ≠ CFG_GPTP_PROFILE_AUTOMOTIVE;
  io_enable : instance_enable c = true;
  io_ext : external_port_configuration_enabled c = false;
  io_number : numberPorts c = length (ports c);
  io_max : (length (ports c) ≤ 15)%nat;
  io_roles : length (selected_role c) = S (length (ports c));
  io_clock : id_ok (this_clock c);
  io_system : vector_ok (system_priority c);
  io_self : root_id (system_priority c) = this_clock c ∧ pid_clock_identity (source_port_identity (system_priority c)) = this_clock c;
  io_path : length (path_trace c) = MAX_PTLV_ENTRIES ∧ 1 ≤ num_ptlv c ≤ 16;
  io_ports : ∀ i q, ports c !! i = Some q → port_inv i q;
  io_own : ∀ i q, ports c !! i = Some q → get_port_identity_clock_id q = this_clock c;
}.

(** ** Comparisons as numbers *)

Lemma clock_cmp a b : id_ok a → id_ok b → (os_memcmp a b = Eq ↔ a = b).
Proof. intros [Ha _] [Hb _]. split; [apply memcmp_eq; congruence|intros ->; apply memcmp_refl]. Qed.
Lemma clock_cmp_bool {A} a b (x y : A) :
  id_ok a → id_ok b → match os_memcmp a b with Eq => x | _ => y end = if bool_decide (a = b) then x else y.
Proof.
  intros Ha Hb. case_bool_decide as E.
  - by rewrite (proj2 (clock_cmp a b Ha Hb) E).
  - destruct (os_memcmp a b) eqn:M; [|done..]. by apply (clock_cmp a b Ha Hb) in M.
Qed.
Lemma vector_root_ok v : vector_ok v → system_ok (root_system_identity v) ∧ id_ok (root_id v).
Proof. intros [H _]. split; [done|]. by destruct H as (_ & _ & _ & H). Qed.
Lemma b_better a b : vector_ok a → vector_ok b →
  bool_decide (compare_system_identity a b = BMCA_VECTOR_B_BETTER) = (root_value b <? root_value a).
Proof.
  intros [Ha _]%vector_root_ok [Hb _]%vector_root_ok. rewrite compare_system_value by done.
  unfold root_value, Z.ltb. rewrite (Z.compare_antisym (system_value (root_system_identity b))).
  by destruct (system_value (root_system_identity b) ?= _).
Qed.
Lemma a_better a b : vector_ok a → vector_ok b →
  bool_decide (compare_system_identity a b = BMCA_VECTOR_A_BETTER) = (root_value a <? root_value b).
Proof.
  intros [Ha _]%vector_root_ok [Hb _]%vector_root_ok. rewrite compare_system_value by done.
  unfold root_value, Z.ltb. by destruct (system_value (root_system_identity a) ?= _).
Qed.

Lemma htons_u16_ok z : is_u16 (htons (u16 z)).
Proof. apply htons_range. apply u16_range. Qed.
Lemma vector_ok_path v n : vector_ok v →
  vector_ok (v <| steps_removed ::= λ s, htons (u16 (ntohs s + 1)) |> <| port_number := htons (u16 n) |>).
Proof. intros (H1 & H2 & H3 & H4). split_and!; [exact H1|apply htons_u16_ok|exact H3|apply htons_u16_ok]. Qed.
Lemma vector_ok_gm_path q : vector_ok (port_priority (params q)) → vector_ok (gm_path_priority q).
Proof. apply vector_ok_path. Qed.
Lemma vector_ok_elected b :
  vector_ok (b_system b) → (∀ i p, b_ports b !! i = Some p → vector_ok (b_vector p)) → vector_ok (elected_gm b).
Proof.
  intros Hs Hp. unfold elected_gm. pose proof (winner_port_spec b) as Hw. destruct (winner_port b) as [[i p]|].
  - apply vector_ok_path. by eapply Hp, Hw.
  - destruct Hs as (H1 & H2 & [H3 H3'] & H4). split_and!; [exact H1|unfold is_u16; cbn; lia|split; [exact H3|]|]; unfold is_u16; cbn; lia.
Qed.
Lemma vector_ok_announced s g i : vector_ok s → vector_ok g → vector_ok (announced s g i).
Proof.
  intros (_ & _ & [H3 _] & _) (H1 & H2 & _ & _). split_and!; [exact H1|exact H2|split; [exact H3|]|]; apply htons_u16_ok.
Qed.

(** ** The roles (updt_roles_tree) *)

(** What [updt_roles_tree] leaves alone. *)
Definition erase_gm (c : gptp_instance) : gptp_instance :=
  c <| last_gm_priority := no_vector |> <| gm_priority := no_vector |> <| props := sys c |> <| master_steps_removed := 0 |>
    <| ports := [] |> <| selected_role := [] |> <| gm_present := false |> <| is_grandmaster := false |> <| path_trace := [] |>
    <| num_ptlv := 0 |> <| gm_id := [] |> <| gm_info := GmInfo no_vector false 0 |>.

Definition set_master (c : gptp_instance) (q : gptp_port) : gptp_port :=
  q <| params ::= λ p, p <| master_priority := master_vector c q |> |>.
Definition set_role_port (c : gptp_instance) (q : gptp_port) : gptp_port :=
  match (port_role c (params q)).2 with
  | Some b => q <| params ::= λ p, p <| updt_info := b |> |>
  | None => q
  end.
Definition role_after (c : gptp_instance) (q : gptp_port) : ptp_port_role_t := (port_role c (params (set_master c q))).1.

Section roles.
Context `{!Platform gptp_call}.
Implicit Types (w : gworld) (c : gptp_instance) (Q : unit → gworld → Prop).

Fixpoint best_of (c : gptp_instance) (i : nat) (l : list gptp_port) (best : option nat * ptp_priority_vector) :=
  match l with
  | [] => best
  | q :: l => best_of c (S i) l (updt_roles_better c i q best)
  end.
Lemma best_spec c l pre best w (Q : option nat * ptp_priority_vector → gworld → Prop) :
  w_st w = c → ports c = pre ++ l → Q (best_of c (length pre) l best) w →
  wp (updt_roles_best (seq (length pre) (length l)) best) Q w.
Proof.
  intros Hw. revert pre best. induction l as [|q l IH]; intros pre best Hp HQ; cbn [seq updt_roles_best length].
  { by apply wp_ret. }
  rewrite wp_bind, wp_gets, wp_bind. erewrite (wp_gptp_get_port _ q) by (rewrite Hw, Hp; by apply list_lookup_middle).
  rewrite Hw. replace (S (length pre)) with (length (pre ++ [q])) by (rewrite length_app; cbn; lia).
  apply IH; [by rewrite Hp, <- List.app_assoc|]. rewrite length_app, Nat.add_comm. exact HQ.
Qed.

Definition best_rel (c : gptp_instance) (b : option nat * ptp_priority_vector) : Prop :=
  match b.1 with
  | None => b.2 = system_priority c
  | Some i => ∃ q, ports c !! i = Some q ∧ b.2 = gm_path_priority q
  end.
Lemma best_vector_ok c b : inst_ok c → best_rel c b → vector_ok b.2.
Proof.
  intros Hc H. unfold best_rel in H. destruct b as [[i|] v]; cbn in *; [destruct H as (q & Hq & ->)|subst v; by apply io_system].
  apply vector_ok_gm_path. by eapply pi_vector, io_ports.
Qed.

Lemma best_winner c l pre b : inst_ok c → ports c = pre ++ l → best_rel c b →
  best_rel c (best_of c (length pre) l b) ∧
  (best_of c (length pre) l b).1 = winner_from (this_clock c) (length pre) (abs_port <$> l) (root_value b.2) b.1.
Proof.
  intros Hc. revert pre b. induction l as [|q l IH]; intros pre b Hp Hb; cbn [best_of fmap list_fmap winner_from]; [done|].
  assert (Hq : ports c !! length pre = Some q) by (rewrite Hp; by apply list_lookup_middle).
  pose proof (pi_vector _ _ (io_ports _ Hc _ _ Hq)) as Hv.
  assert (Hb1 : best_rel c (updt_roles_better c (length pre) q b)).
  { unfold updt_roles_better. destruct (_ && _); [|done]. by exists q. }
  replace (S (length pre)) with (length (pre ++ [q])) by (rewrite length_app; cbn; lia).
  destruct (IH (pre ++ [q]) _ (eq_trans Hp (List.app_assoc pre [q] l)) Hb1) as [IH1 IH2]. split; [exact IH1|]. rewrite IH2.
  unfold updt_roles_better. rewrite b_better by (by apply (best_vector_ok c) || by apply vector_ok_gm_path).
  replace (root_value (gm_path_priority q)) with (root_value (port_priority (params q))) by done.
  assert (Hcand : bool_decide (info_is (params q) = SPANNING_TREE_RECEIVED) &&
    negb (bool_decide (os_memcmp (clock_identity (root_system_identity (gm_path_priority q))) (this_clock c) = Eq)) =
    candidate (this_clock c) (abs_port q)).
  { unfold candidate, abs_port. cbn [b_info b_vector]. f_equal.
    - apply bool_decide_ext. by destruct (info_is (params q)).
    - rewrite <- bool_decide_not. apply bool_decide_ext. apply not_iff_compat.
      change (clock_identity (root_system_identity (gm_path_priority q))) with (root_id (port_priority (params q))).
      apply clock_cmp; [by apply vector_root_ok|by apply io_clock]. }
  rewrite Hcand. change (b_vector (abs_port q)) with (port_priority (params q)). by destruct (candidate _ _ && (_ <? root_value b.2)).
Qed.

(** The grandmaster. *)
Record gm_state (c c' : gptp_instance) : Prop := {
  gs_erase : erase_gm c' = erase_gm c;
  gs_gm : gm_priority c' = elected_gm (abs c);
  gs_steps : master_steps_removed c' = elected_steps (abs c);
  gs_props : props c' = elected_props (abs c);
}.
(** The other fields that the rest of [updt_roles_tree] writes. *)
Record rest_same (c c' : gptp_instance) : Prop := {
  rs_ports : ports c' = ports c;
  rs_roles : selected_role c' = selected_role c;
  rs_gm : is_grandmaster c' = is_grandmaster c;
  rs_path : path_trace c' = path_trace c ∧ num_ptlv c' = num_ptlv c;
  rs_info : gm_info c' = gm_info c;
}.

Lemma winner_port_abs c i q : winner (abs c) = Some i → ports c !! i = Some q → winner_port (abs c) = Some (i, abs_port q).
Proof. intros H1 H2. unfold winner_port. rewrite H1. cbn. by rewrite list_lookup_fmap, H2. Qed.

Lemma gm_spec c best w Q :
  w_st w = c → inst_ok c → best_rel c best → best.1 = winner (abs c) →
  (∀ c', gm_state c c' → rest_same c c' → Q tt (set_st w c')) → wp (updt_roles_gm best) Q w.
Proof.
  intros Hw Hc Hb Hwin HQ. destruct w as [x k tr]. cbn in Hw. subst x. unfold updt_roles_gm. rewrite wp_bind, wp_modify.
  unfold best_rel in Hb. destruct best as [[i|] v]; cbn [fst snd] in *.
  - destruct Hb as (q & Hq & ->). pose proof (winner_port_abs c i q (eq_sym Hwin) Hq) as Hwp.
    rewrite wp_bind. erewrite wp_gptp_get_port by exact Hq. rewrite wp_modify. apply HQ.
    + pose proof (pi_number _ _ (io_ports _ Hc _ _ Hq)) as Hn. split; [done| | |].
      * unfold elected_gm. rewrite Hwp. cbn. unfold gm_path_priority, port_be. rewrite Hn. reflexivity.
      * unfold elected_steps. by rewrite Hwp.
      * unfold elected_props. by rewrite Hwp.
    + done.
  - subst v. rewrite wp_modify. assert (Hwp : winner_port (abs c) = None) by (unfold winner_port; by rewrite <- Hwin).
    apply HQ; [|done]. split; [done| | |].
    + unfold elected_gm. by rewrite Hwp.
    + unfold elected_steps. by rewrite Hwp.
    + unfold elected_props. by rewrite Hwp.
Qed.
(** A loop that maps the ports one after the other. *)
Lemma insert_mapped {A B} (f : A → B) (l : list A) (m : list B) k a :
  length l = length m → l !! k = Some a →
  <[k := f a]> ((f <$> take k l) ++ drop k m) = (f <$> take (S k) l) ++ drop (S k) m.
Proof.
  intros Hl Ha. pose proof (lookup_lt_Some _ _ _ Ha) as Hk.
  destruct (m !! k) as [b|] eqn:Hb; [|apply lookup_ge_None in Hb; lia].
  rewrite insert_app_r_alt by (rewrite length_fmap, length_take; lia).
  rewrite length_fmap, length_take, Nat.min_l, Nat.sub_diag by lia. rewrite (drop_S m b k Hb). cbn.
  rewrite (take_S_r l k a Ha), fmap_app. cbn. by rewrite <- List.app_assoc.
Qed.
Lemma mapped_lookup {A} (f : A → A) (l : list A) k : (k < length l)%nat → ((f <$> take k l) ++ drop k l) !! k = l !! k.
Proof.
  intros Hk. rewrite lookup_app_r by (rewrite length_fmap, length_take; lia).
  rewrite length_fmap, length_take, Nat.min_l, Nat.sub_diag by lia. rewrite lookup_drop. by rewrite Nat.add_0_r.
Qed.

Lemma master_loop c w Q :
  w_st w = c → Q tt (set_st w (c <| ports := set_master c <$> ports c |>)) →
  wp (for_each (seq 0 (length (ports c))) updt_roles_master) Q w.
Proof.
  intros Hw HQ. destruct w as [x k tr]. cbn in Hw. subst x.
  eapply wp_mono; [apply (wp_for_seq _ _ (λ j w', w' = World (c <| ports := (set_master c <$> take j (ports c)) ++ drop j (ports c) |>) k tr))|].
  - cbn. by destruct c.
  - intros j w' Hj ->. destruct (lookup_lt_is_Some_2 _ _ Hj) as [q Hq]. unfold updt_roles_master.
    set (ps := (set_master c <$> take j (ports c)) ++ drop j (ports c)).
    assert (Hq' : ps !! j = Some q) by (unfold ps; by rewrite mapped_lookup).
    rewrite wp_bind, wp_gets, wp_bind. erewrite wp_gptp_get_port by exact Hq'. unfold set_params. erewrite wp_gptp_set_port by exact Hq'.
    cbn [w_st w_clock w_trace]. transitivity (World (c <| ports := <[j := set_master c q]> ps |>) k tr); [reflexivity|].
    unfold ps. by rewrite (insert_mapped (set_master c) (ports c) (ports c)).
  - intros [] w' ->. rewrite take_ge, drop_ge, app_nil_r by lia. exact HQ.
Qed.

Lemma role_loop c r0 rs w Q :
  w_st w = c → selected_role c = r0 :: rs → length rs = length (ports c) → (∀ i q, ports c !! i = Some q → get_port_identity_number q = Z.of_nat (S i)) →
  Q tt (set_st w (c <| ports := set_role_port c <$> ports c |>
                    <| selected_role := r0 :: ((λ q, (port_role c (params q)).1) <$> ports c) |>)) →
  wp (for_each (seq 0 (length (ports c))) updt_roles_port) Q w.
Proof.
  intros Hw Hr Hlen Hnum HQ. destruct w as [x k tr]. cbn in Hw. subst x. set (g := λ q, (port_role c (params q)).1) in *.
  eapply wp_mono; [apply (wp_for_seq _ _ (λ j w', w' = World (c
    <| ports := (set_role_port c <$> take j (ports c)) ++ drop j (ports c) |>
    <| selected_role := r0 :: (g <$> take j (ports c)) ++ drop j rs |>) k tr))|].
  - transitivity (World (c <| ports := ports c |> <| selected_role := selected_role c |>) k tr); [by destruct c|].
    rewrite Hr. reflexivity.
  - intros j w' Hj ->. destruct (lookup_lt_is_Some_2 _ _ Hj) as [q Hq]. unfold updt_roles_port.
    set (ps := (set_role_port c <$> take j (ports c)) ++ drop j (ports c)).
    set (ro := r0 :: (g <$> take j (ports c)) ++ drop j rs). set (cj := c <| ports := ps |> <| selected_role := ro |>).
    assert (Hq' : ps !! j = Some q) by (unfold ps; by rewrite mapped_lookup).
    rewrite wp_bind, wp_gets, wp_bind. erewrite wp_gptp_get_port by exact Hq'. cbn [w_st].
    replace (port_role cj (params q)) with (port_role c (params q)) by done.
    rewrite (surjective_pairing (port_role c (params q))).
    assert (Hset : wp (set_role (get_port_identity_number q) (g q))
      (λ _ w', w' = World (c <| ports := <[j := set_role_port c q]> ps |> <| selected_role := <[S j := g q]> ro |>) k tr)
      (World (c <| ports := <[j := set_role_port c q]> ps |> <| selected_role := ro |>) k tr)).
    { unfold set_role. rewrite (Hnum _ _ Hq). rewrite wp_bind, Nat2Z.id.
      destruct (lookup_lt_is_Some_2 ro (S j)) as [r Hr'].
      { unfold ro. cbn. rewrite length_app, length_fmap, length_take, length_drop. lia. }
      erewrite wp_get_role by (rewrite Nat2Z.id; exact Hr'). rewrite wp_modify. reflexivity. }
    assert (E : World (c <| ports := <[j := set_role_port c q]> ps |> <| selected_role := <[S j := g q]> ro |>) k tr =
      World (c <| ports := (set_role_port c <$> take (S j) (ports c)) ++ drop (S j) (ports c) |>
               <| selected_role := r0 :: (g <$> take (S j) (ports c)) ++ drop (S j) rs |>) k tr).
    { unfold ps, ro. rewrite (insert_mapped (set_role_port c) (ports c) (ports c)) by done. cbn [insert list_insert].
      by rewrite (insert_mapped g (ports c) rs). }
    rewrite <- E. fold (g q). rewrite wp_bind. unfold set_role_port in Hset |- *.
    destruct ((port_role c (params q)).2) as [b|] eqn:Eb.
    + unfold set_params. erewrite wp_gptp_set_port by exact Hq'. exact Hset.
    + rewrite wp_ret. replace cj with (c <| ports := <[j := q]> ps |> <| selected_role := ro |>); [exact Hset|].
      unfold cj. by rewrite (list_insert_id ps j q).
  - intros [] w' ->. rewrite !take_ge, !drop_ge, !app_nil_r by lia. exact HQ.
Qed.

Lemma master_vector_announced c i q :
  get_port_identity_number q = Z.of_nat (S i) → master_vector c q = announced (system_priority c) (gm_priority c) i.
Proof. intros H. unfold master_vector, announced, port_be. by rewrite H. Qed.

Lemma role_abs c q :
  vector_ok (gm_priority c) → vector_ok (system_priority c) → vector_ok (port_priority (params q)) →
  (port_role c (params (set_master c q))).1 = role_of_port (gm_priority c) (abs_port q).
Proof.
  intros Hg Hs Hp. unfold port_role, role_of_port, abs_port.
  change (info_is (params (set_master c q))) with (info_is (params q)).
  change (port_priority (params (set_master c q))) with (port_priority (params q)). cbn [b_info b_vector].
  destruct (info_is (params q)); try done.
  unfold compare_clock_identity. rewrite clock_cmp_bool by (by apply vector_root_ok).
  change (clock_identity (root_system_identity ?v)) with (root_id v).
  case_bool_decide; [done|]. rewrite a_better; [|split; [apply Hg|]|done].
  2:{ destruct Hg as (_ & Hg & _), Hs as (_ & _ & [Hs _] & _). split_and!; [exact Hg|split; [exact Hs|]|]; apply htons_u16_ok. }
  change (root_value (master_priority (params (set_master c q)))) with (root_value (gm_priority c)).
  by destruct (root_value (gm_priority c) <? _).
Qed.

Lemma zero_spec c r0 rl w Q :
  w_st w = c → selected_role c = r0 :: rl → length rl = numberPorts c →
  Q tt (set_st w (c <| selected_role := role_zero rl :: rl |>)) → wp updt_roles_zero Q w.
Proof.
  intros Hw Hr Hl HQ. destruct w as [x k tr]. cbn in Hw. subst x. unfold updt_roles_zero. rewrite wp_bind, wp_gets, wp_bind.
  unfold set_role at 1. rewrite wp_bind. erewrite wp_get_role by (cbn; by rewrite Hr). rewrite wp_modify. cbn [w_st w_clock w_trace].
  assert (E : (λ l : list ptp_port_role_t, <[Z.to_nat 0:=SLAVE_PORT]> l) (selected_role c) = SLAVE_PORT :: rl) by (rewrite Hr; done).
  set (c1 := over selected_role _ c). assert (Hr1 : selected_role c1 = SLAVE_PORT :: rl) by exact E. rewrite wp_bind.
  apply (wp_list_search (λ j, bool_decide (rl !! (j - 1)%nat = Some SLAVE_PORT))).
  { intros j [Hj1 Hj2]%elem_of_seq. destruct (lookup_lt_is_Some_2 rl (j - 1)) as [r Hr']; [lia|].
    assert (Hj : selected_role c1 !! Z.to_nat (Z.of_nat j) = Some r).
    { rewrite Nat2Z.id, Hr1. destruct j as [|j]; [lia|]. cbn. by replace (S j - 1)%nat with j in Hr' by lia. }
    unfold bind, get_role, gets, deref. cbn [w_st]. unfold bind. cbn [w_st]. rewrite Hj. unfold ret. f_equal. f_equal.
    rewrite Hr'. apply bool_decide_ext. split; congruence. }
  unfold role_zero in HQ. destruct (find _ _) as [j|] eqn:Hf.
  - apply find_some in Hf as [Hj Hf%bool_decide_eq_true]. rewrite bool_decide_true in HQ by (by eapply list_elem_of_lookup_2).
    unfold set_role. rewrite wp_bind. erewrite wp_get_role by (cbn [w_st]; by rewrite Hr1). rewrite wp_modify.
    replace (over selected_role (λ l, <[Z.to_nat 0:=PASSIVE_PORT]> l) _) with (c <| selected_role := PASSIVE_PORT :: rl |>); [exact HQ|].
    unfold c1. transitivity (c1 <| selected_role := <[0%nat := PASSIVE_PORT]> (selected_role c1) |>); [by rewrite Hr1|reflexivity].
  - rewrite bool_decide_false in HQ.
    2:{ intros [j Hj]%list_elem_of_lookup_1. pose proof (lookup_lt_Some _ _ _ Hj).
        assert (H1 : In (S j) (seq 1 (numberPorts c))) by (apply in_seq; lia).
        apply (find_none _ _ Hf) in H1. apply bool_decide_eq_false in H1. by replace (S j - 1)%nat with j in H1 by lia. }
    rewrite wp_ret. replace c1 with (c <| selected_role := SLAVE_PORT :: rl |>); [exact HQ|].
    transitivity (c1 <| selected_role := selected_role c1 |>); [by rewrite Hr1|reflexivity].
Qed.

Definition reported (c : gptp_instance) : Prop :=
  gm_present c = true → os_memcmp (root_id (gm_vector (gm_info c))) (root_id (gm_priority c)) = Eq.

Lemma ipc_gm_status_spec w (Q : unit → gworld → Prop) :
  (∀ w', w_st w' = w_st w → announces (w_trace w') = announces (w_trace w) → Q tt w') → wp gptp_ipc_gm_status Q w.
Proof.
  intros HQ. destruct w as [c k tr]. unfold gptp_ipc_gm_status. rewrite wp_bind, wp_gets. cbn [w_st].
  destruct (_ <? num_ptlv c); [by apply HQ|]. rewrite wp_bind, wp_perform. destruct (_ =? 0); [by apply HQ|].
  rewrite wp_bind, wp_perform, wp_when. destruct (_ <? 0); [|by apply HQ]. rewrite wp_bind, wp_perform. by apply HQ.
Qed.

Lemma indication_spec v w (Q : unit → gworld → Prop) :
  (∀ w' i g, w_st w' = (w_st w) <| gm_id := i |> <| gm_info := g |> → announces (w_trace w') = announces (w_trace w) →
     os_memcmp (root_id (gm_vector g)) (root_id v) = Eq → Q tt w') →
  wp (gptp_gm_indication v) Q w.
Proof.
  intros HQ. destruct w as [c k tr]. unfold gptp_gm_indication. rewrite wp_bind, wp_gets. cbn [w_st].
  assert (Hnew : wp (modify (λ c0, c0 <| gm_id := clock_identity (root_system_identity v) |>
       <| gm_info := GmInfo v (is_grandmaster c) (domain c) |>);;
     gptp_ipc_gm_status;; when (has_gm_indication c)
       (let! _ := perform (GmIndication (clock_identity (root_system_identity v)) (is_grandmaster c)) in ret tt)) Q (World c k tr)).
  { rewrite wp_bind, wp_modify, wp_bind. apply ipc_gm_status_spec. intros w1 Hw1 Ht1. rewrite wp_when.
    assert (HQ' : ∀ w', w_st w' = w_st w1 → announces (w_trace w') = announces (w_trace w1) → Q tt w').
    { intros w' Hw' Ht'. eapply (HQ w'); [by rewrite Hw', Hw1|by rewrite Ht'|apply memcmp_refl]. }
    destruct (has_gm_indication c); [rewrite wp_bind, wp_perform; by apply HQ'|by apply HQ']. }
  destruct (os_memcmp _ _) eqn:E; [|exact Hnew..].
  eapply (HQ _ (gm_id c) (gm_info c)); [by destruct c|done|exact E].
Qed.

Definition own_path (c c' : gptp_instance) : Prop :=
  if is_this_clock c' then path_trace c' = this_clock c' :: replicate (MAX_PTLV_ENTRIES - 1) no_clock ∧ num_ptlv c' = 1
  else path_trace c' = path_trace c ∧ num_ptlv c' = num_ptlv c.

(** What the end of [updt_roles_tree] writes. *)
Definition erase_end (c : gptp_instance) : gptp_instance :=
  c <| is_grandmaster := false |> <| path_trace := [] |> <| num_ptlv := 0 |> <| gm_id := [] |> <| gm_info := GmInfo no_vector false 0 |>.

Lemma grandmaster_spec c v w Q :
  w_st w = c → root_id v = root_id (gm_priority c) →
  (∀ w', erase_end (w_st w') = erase_end c → is_grandmaster (w_st w') = is_this_clock c && gm_present c →
     own_path c (w_st w') → reported (w_st w') → announces (w_trace w') = announces (w_trace w) → Q tt w') →
  wp (updt_roles_grandmaster v) Q w.
Proof.
  intros Hw Hv HQ. destruct w as [x k tr]. cbn in Hw. subst x. unfold updt_roles_grandmaster.
  rewrite wp_bind, wp_gets, wp_bind, wp_modify. cbn [w_st w_clock w_trace]. set (c1 := over is_grandmaster _ c).
  assert (H2 : wp (when (is_this_clock c) (modify path_trace_own))
    (λ _ w', ∃ p n, w_st w' = c1 <| path_trace := p |> <| num_ptlv := n |> ∧ w_trace w' = tr ∧
       if is_this_clock c then p = this_clock c :: replicate (MAX_PTLV_ENTRIES - 1) no_clock ∧ n = 1
       else p = path_trace c ∧ n = num_ptlv c) (World c1 k tr)).
  { rewrite wp_when. destruct (is_this_clock c).
    - rewrite wp_modify. by repeat eexists.
    - exists (path_trace c), (num_ptlv c). split_and!; [by destruct c|done..]. }
  rewrite wp_bind. eapply wp_mono; [exact H2|]. intros [] w2 (p & n & Hw2 & Ht2 & Hp). rewrite wp_bind, wp_gets, wp_bind.
  assert (H3 : ∀ b, wp (when b (let! _ := perform ClkAdjReset in ret tt))
    (λ _ w', w_st w' = w_st w2 ∧ announces (w_trace w') = announces tr) w2).
  { intros b. rewrite wp_when. destruct b; [rewrite wp_bind, wp_perform; cbn; by rewrite Ht2|by rewrite Ht2]. }
  eapply wp_mono; [apply H3|]. intros [] w3 [Hw3 Ht3]. rewrite wp_when.
  assert (Hpath : ∀ i g, own_path c (c1 <| path_trace := p |> <| num_ptlv := n |> <| gm_id := i |> <| gm_info := g |>)).
  { intros i g. unfold own_path.
    replace (is_this_clock (c1 <| path_trace := p |> <| num_ptlv := n |> <| gm_id := i |> <| gm_info := g |>)) with (is_this_clock c) by done.
    destruct (is_this_clock c); exact Hp. }
  replace (gm_present (w_st w2)) with (gm_present c) by (by rewrite Hw2). destruct (gm_present c) eqn:Hg.
  - apply indication_spec. intros w4 i g Hw4 Ht4 Hr. rewrite Hw3, Hw2 in Hw4. apply HQ; rewrite ?Hw4, ?Ht4; try done.
    intros _. etransitivity; [|exact Hr]. by rewrite Hv.
  - apply HQ; rewrite ?Hw3, ?Hw2; try done.
    unfold reported. intros H. exfalso. change (gm_present c = true) in H. congruence.
Qed.

Record roles_post (c c' : gptp_instance) : Prop := {
  rp_erase : erase_gm c' = erase_gm c;
  rp_gm : gm_priority c' = elected_gm (abs c);
  rp_steps : master_steps_removed c' = elected_steps (abs c);
  rp_props : props c' = elected_props (abs c);
  rp_roles : selected_role c' = b_roles (elect (abs c));
  rp_present : gm_present c' = b_present (elect (abs c));
  rp_is_gm : is_grandmaster c' = b_is_gm (elect (abs c));
  rp_ports : ports c' = (λ q, set_role_port c' (set_master c' q)) <$> ports c;
  rp_path : own_path c c';
  rp_reported : reported c';
}.

Lemma set_role_port_ext c c' q :
  gm_priority c' = gm_priority c → master_steps_removed c' = master_steps_removed c → set_role_port c' q = set_role_port c q.
Proof. intros H1 H2. unfold set_role_port, port_role. by rewrite H1, H2. Qed.
Lemma set_master_ext c c' q :
  gm_priority c' = gm_priority c → system_priority c' = system_priority c → set_master c' q = set_master c q.
Proof. intros H1 H2. unfold set_master, master_vector. by rewrite H1, H2. Qed.
Lemma port_role_ext c c' p :
  gm_priority c' = gm_priority c → master_steps_removed c' = master_steps_removed c → port_role c' p = port_role c p.
Proof. intros H1 H2. unfold port_role. by rewrite H1, H2. Qed.
Lemma erase_end_gm c c' : erase_end c' = erase_end c → erase_gm c' = erase_gm c.
Proof.
  intros H.
  assert (E : ∀ c, erase_gm c = (erase_end c) <| last_gm_priority := no_vector |> <| gm_priority := no_vector |>
    <| props := sys (erase_end c) |> <| master_steps_removed := 0 |>
    <| ports := [] |> <| selected_role := [] |> <| gm_present := false |>) by reflexivity.
  by rewrite !E, H.
Qed.
Lemma abs_vectors c : inst_ok c → ∀ i p, b_ports (abs c) !! i = Some p → vector_ok (b_vector p).
Proof.
  intros Hc i p Hp. cbn in Hp. rewrite list_lookup_fmap in Hp. destruct (ports c !! i) as [q|] eqn:Hq; [|done].
  injection Hp as <-. by eapply pi_vector, io_ports.
Qed.
Lemma elected_ok c : inst_ok c → vector_ok (elected_gm (abs c)).
Proof. intros Hc. apply vector_ok_elected; [by apply io_system|by apply abs_vectors]. Qed.

Lemma roles_spec c w Q :
  w_st w = c → inst_ok c → (∀ w', roles_post c (w_st w') → announces (w_trace w') = announces (w_trace w) → Q tt w') →
  wp updt_roles_tree Q w.
Proof.
  intros Hw Hc HQ. destruct w as [x k tr]. cbn in Hw. subst x. unfold updt_roles_tree.
  rewrite wp_bind, wp_gets, wp_bind. cbn [w_st]. rewrite (io_number _ Hc).
  apply (best_spec c (ports c) [] (None, system_priority c)); [done|done|].
  destruct (best_winner c (ports c) [] (None, system_priority c) Hc eq_refl eq_refl) as [Hb1 Hb2].
  set (best := best_of c _ _ _) in *. cbn [fst snd length] in Hb2. fold (abs c) in Hb2.
  assert (Hroot : root_id best.2 = root_id (elected_gm (abs c))).
  { unfold elected_gm, winner_port, best_rel in *. change (winner (abs c)) with (winner_from (this_clock c) 0 (abs_port <$> ports c)
      (root_value (system_priority c)) None). rewrite <- Hb2. destruct best as [[i|] v]; cbn [fst snd] in *.
    - destruct Hb1 as (q & Hq & ->). cbn. by rewrite list_lookup_fmap, Hq.
    - by subst v. }
  rewrite wp_bind. apply (gm_spec c); [done|done|done|exact Hb2|]. intros c1 [Ge Gg Gs Gp] [Rp Rr Rg Rpa Ri].
  assert (Hsys : system_priority c1 = system_priority c) by exact (f_equal system_priority Ge).
  assert (Hclk : this_clock c1 = this_clock c) by exact (f_equal this_clock Ge).
  rewrite wp_bind. rewrite <- Rp. apply (master_loop c1); [done|]. set (c2 := over ports _ c1).
  assert (Hp2 : ports c2 = set_master c1 <$> ports c) by (unfold c2; cbn; by rewrite Rp).
  rewrite wp_bind. replace (length (ports c1)) with (length (ports c2)) by (rewrite Hp2, length_fmap; by rewrite Rp).
  pose proof (io_roles _ Hc) as Hroles. destruct (selected_role c) as [|r0 rs] eqn:Er; [done|].
  apply (role_loop c2 r0 rs); [done|cbn; congruence|rewrite Hp2, length_fmap; by injection Hroles| |].
  { intros i q. rewrite Hp2, list_lookup_fmap. destruct (ports c !! i) as [q0|] eqn:Hq; [|done]. cbn. intros [= <-].
    by apply (pi_number _ _ (io_ports _ Hc _ _ Hq)). }
  set (roles := (λ q, (port_role c2 (params q)).1) <$> ports c2).
  assert (Hrl : roles = role_of_port (elected_gm (abs c)) <$> b_ports (abs c)).
  { unfold roles. rewrite Hp2, <- list_fmap_compose. cbn [abs b_ports]. rewrite <- list_fmap_compose. apply list_fmap_ext.
    intros i q Hq. cbn. rewrite (port_role_ext c1 c2), <- Gg by done. apply role_abs.
    - rewrite Gg. by apply elected_ok.
    - rewrite Hsys. by apply io_system.
    - by eapply pi_vector, io_ports. }
  set (c3 := over selected_role _ _). rewrite wp_bind. unfold updt_roles_present. rewrite wp_modify. cbn [w_st w_clock w_trace].
  set (c4 := c3 <| gm_present := priority_1 (root_system_identity (gm_priority c3)) <? 255 |>). rewrite wp_bind. apply (zero_spec c4 r0 roles); [done|done| |].
  { unfold roles. rewrite length_fmap, Hp2, length_fmap, <- (io_number _ Hc). symmetry. exact (f_equal numberPorts Ge). }
  set (c5 := over selected_role _ c4). apply (grandmaster_spec c5); [done| |].
  { change (gm_priority c5) with (gm_priority c1). by rewrite Gg, Hroot. }
  intros w' He Hg Hpa Hre Ht. pose proof (erase_end_gm _ _ He) as He'.
  assert (E15 : erase_gm c5 = erase_gm c1) by reflexivity.
  assert (F1 : gm_priority (w_st w') = gm_priority c1) by exact (f_equal gm_priority He).
  assert (F2 : master_steps_removed (w_st w') = master_steps_removed c1) by exact (f_equal master_steps_removed He).
  assert (F3 : props (w_st w') = props c1) by exact (f_equal props He).
  assert (F4 : system_priority (w_st w') = system_priority c1) by exact (f_equal system_priority He).
  assert (F5 : gm_present (w_st w') = (priority_1 (root_system_identity (gm_priority c1)) <? 255)) by exact (f_equal gm_present He).
  assert (F6 : selected_role (w_st w') = role_zero roles :: roles) by exact (f_equal selected_role He).
  assert (F7 : ports (w_st w') = set_role_port c2 <$> ports c2) by exact (f_equal ports He).
  apply HQ; [|exact Ht]. split; try congruence.
  - rewrite F6, Hrl. reflexivity.
  - rewrite F5, Gg. reflexivity.
  - rewrite Hg. change (is_this_clock c5) with (is_this_clock c1).
    change (gm_present c5) with (priority_1 (root_system_identity (gm_priority c1)) <? 255). rewrite Gg.
    change (b_is_gm (elect (abs c))) with (bool_decide (root_id (elected_gm (abs c)) = this_clock c) &&
      (priority_1 (root_system_identity (elected_gm (abs c))) <? 255)). f_equal.
    unfold is_this_clock. rewrite Gg, Hclk. apply bool_decide_ext.
    apply clock_cmp; [by apply vector_root_ok, elected_ok|by apply io_clock].
  - rewrite F7, Hp2, <- list_fmap_compose. apply list_fmap_ext. intros i q _. cbn.
    rewrite (set_role_port_ext c1 c2), (set_role_port_ext c1 (w_st w')), (set_master_ext c1 (w_st w')) by done. done.
  - unfold own_path in *. change (path_trace c5) with (path_trace c1) in Hpa. change (num_ptlv c5) with (num_ptlv c1) in Hpa.
    destruct Rpa as [<- <-]. exact Hpa.
  - exact Hre.
Qed.
End roles.
