(* ===== verification/GptpSettle.v ===== *)
(** * gPTP: the machines settle

    The selection runs the machines of every port.  Afterwards the instance is
    at rest, and its abstraction is the election of what it was before. *)

From S2P Require Import Prelude Timer GptpBmca Gptp GptpSpec GptpElect GptpSelect.

(** ** Ports and instances at rest *)

Definition port_idle (q : gptp_port) : Prop := idle q.
Definition knows (q : gptp_port) : Prop :=
  info_is (params q) = SPANNING_TREE_MINE ∨ info_is (params q) = SPANNING_TREE_RECEIVED.

Record rest_port (q : gptp_port) : Prop := {
  rp_msg : rcvd_msg (params q) = false;
  rp_updt : updt_info (params q) = false;
  rp_idle : idle q;
  rp_par : rcvd_announce_par (announce_receive_sm q) = false;
  rp_state :
    if port_usable q then port_announce_info_sm_state q = PORT_ANNOUNCE_INFO_SM_STATE_CURRENT ∧ knows q
    else port_announce_info_sm_state q = PORT_ANNOUNCE_INFO_SM_STATE_DISABLED ∧ info_is (params q) = SPANNING_TREE_DISABLED;
}.
(** What the selection can start from: one port has aged or has a new master. *)
Record sel_port (q : gptp_port) : Prop := {
  sel_msg : rcvd_msg (params q) = false;
  sel_idle : idle q;
  sel_par : rcvd_announce_par (announce_receive_sm q) = false;
  sel_state :
    if port_usable q then
      (port_announce_info_sm_state q = PORT_ANNOUNCE_INFO_SM_STATE_CURRENT ∨
       port_announce_info_sm_state q = PORT_ANNOUNCE_INFO_SM_STATE_SUPERIOR_MASTER_PORT) ∧ updt_info (params q) = false ∧ knows q ∨
      port_announce_info_sm_state q = PORT_ANNOUNCE_INFO_SM_STATE_AGED ∧ info_is (params q) = SPANNING_TREE_AGED
    else port_announce_info_sm_state q = PORT_ANNOUNCE_INFO_SM_STATE_DISABLED ∧ info_is (params q) = SPANNING_TREE_DISABLED ∧
         updt_info (params q) = false;
}.
Lemma rest_sel q : rest_port q → sel_port q.
Proof. intros [H1 H2 H3 H4 H5]. split; [done..|]. destruct (port_usable q); [|tauto]. left. tauto. Qed.

Definition quiet_instance (c : gptp_instance) : Prop :=
  match port_state_sm_state c with
  | PORT_STATE_SM_STATE_INIT_BRIDGE => ∀ i q, ports c !! i = Some q → port_usable q = false
  | PORT_STATE_SM_STATE_SELECTION => reselect c = 0 ∧ selected c = 0xffff ∧ stable (abs c) ∧ reported c
  end.
Record settled (c : gptp_instance) : Prop := {
  st_ok : inst_ok c;
  st_begin : begin c = false;
  st_ports : ∀ i q, ports c !! i = Some q → rest_port q;
  st_quiet : quiet_instance c;
}.

(** The messages of an instance. *)
Definition tells (c : gptp_instance) (x : nat * list Z) : Prop :=
  ∃ i q, ports c !! i = Some q ∧ truthful c i q x.

(** ** Masks *)

Lemma mask_test_testbit j x : 0 ≤ j → mask_test j x = Z.testbit x j.
Proof. intros H. unfold mask_test. rewrite <- (Z2Nat.id j) by done. apply bit_test_testbit. Qed.
Lemma mask_all j : 0 ≤ j < 16 → mask_test j 0xffff = true.
Proof. intros H. rewrite mask_test_testbit by lia. change 0xffff with (Z.ones 16). apply Z.ones_spec_low. lia. Qed.
Lemma mask_none j : 0 ≤ j → mask_test j 0 = false.
Proof. intros H. rewrite mask_test_testbit by lia. apply Z.bits_0. Qed.
Lemma mask_set_test j x : 0 ≤ j < 16 → mask_test j (mask_set j x) = true.
Proof.
  intros H. rewrite mask_test_testbit by lia. unfold mask_set, u16. rewrite Z.mod_pow2_bits_low by lia.
  rewrite Z.lor_spec, Z.shiftl_spec, Z.sub_diag by lia. by rewrite orb_true_r.
Qed.

(** ** A port through an election *)

Section port.
Context (c : gptp_instance) (i : nat) (q : gptp_port).
Context (Hn : get_port_identity_number q = Z.of_nat (S i)).
Context (Hg : vector_ok (gm_priority c)) (Hs : vector_ok (system_priority c)) (Hv : vector_ok (port_priority (params q))).
Context (Hq : sel_port q).

Definition after_roles : gptp_port := set_role_port c (set_master c q).

Lemma erase_sel_role p : erase_sel (set_role_port c p) = erase_sel p.
Proof. unfold set_role_port. by destruct ((port_role c (params p)).2). Qed.
Lemma erase_sel_settled p : erase_sel (info_settled c p) = erase_sel p.
Proof. unfold info_settled. destruct (port_usable p); [|done]. by destruct (updt_info (params p)). Qed.
Lemma usable_after : port_usable after_roles = port_usable q.
Proof. unfold after_roles, set_role_port. by destruct ((port_role c (params (set_master c q))).2). Qed.
Lemma state_after : port_announce_info_sm_state after_roles = port_announce_info_sm_state q.
Proof. unfold after_roles, set_role_port. by destruct ((port_role c (params (set_master c q))).2). Qed.
Lemma after_updt b : (port_role c (params (set_master c q))).2 = Some b → updt_info (params after_roles) = b.
Proof. unfold after_roles, set_role_port. by intros ->. Qed.
Lemma after_none : (port_role c (params (set_master c q))).2 = None → after_roles = set_master c q.
Proof. unfold after_roles, set_role_port. by intros ->. Qed.
Lemma after_reads :
  idle after_roles = idle q ∧ rcvd_msg (params after_roles) = rcvd_msg (params q) ∧
  info_is (params after_roles) = info_is (params q) ∧ port_priority (params after_roles) = port_priority (params q) ∧
  master_priority (params after_roles) = master_vector c q ∧ identity after_roles = identity q ∧
  gm_id_static after_roles = gm_id_static q ∧ abs_port after_roles = abs_port q ∧
  announce_receive_sm after_roles = announce_receive_sm q.
Proof. unfold after_roles, set_role_port. by destruct ((port_role c (params (set_master c q))).2). Qed.

Lemma master_ok : vector_ok (master_vector c q).
Proof. rewrite (master_vector_announced c i) by done. by apply vector_ok_announced. Qed.

(** A port whose vector already is the one to announce. *)
Lemma port_role_none :
  (port_role c (params (set_master c q))).2 = None → info_is (params q) = SPANNING_TREE_MINE →
  port_priority (params q) = master_vector c q.
Proof.
  unfold port_role. change (info_is (params (set_master c q))) with (info_is (params q)). intros H Hi. rewrite Hi in H. cbn [snd] in H.
  change (port_priority (params (set_master c q))) with (port_priority (params q)) in H.
  change (master_priority (params (set_master c q))) with (master_vector c q) in H.
  destruct (os_memcmp _ _) eqn:E; [|done..]. apply memcmp_eq in E; [by apply vector_bytes_inj; [done|apply master_ok|]|].
  by rewrite (proj1 (vector_bytes_ok _ Hv)), (proj1 (vector_bytes_ok _ master_ok)).
Qed.

Lemma settled_abs :
  abs_port (info_settled c after_roles) = elected_port (system_priority c) (gm_priority c) i (abs_port q).
Proof.
  pose proof (role_abs c q Hg Hs Hv) as Hrole. destruct after_reads as (_ & _ & Hinfo & _ & Hm & _ & _ & Ha & _).
  pose proof Hq as [_ _ _ Hst]. rewrite <- usable_after in Hst.
  assert (Hmine : updt_info (params after_roles) = true → port_usable after_roles = true →
    abs_port (info_settled c after_roles) = (abs_port q) <| b_info := Mine |> <| b_vector := announced (system_priority c) (gm_priority c) i |>).
  { intros Hup Hu. unfold info_settled. rewrite Hu, Hup. rewrite <- Ha, <- (master_vector_announced c i q Hn), <- Hm. reflexivity. }
  assert (Hsame : updt_info (params after_roles) = false → abs_port (info_settled c after_roles) = abs_port q).
  { intros Hup. unfold info_settled. rewrite Hup, <- Ha. by destruct (port_usable after_roles). }
  assert (Hmineinfo : info_is (params q) = SPANNING_TREE_AGED ∨ info_is (params q) = SPANNING_TREE_MINE →
    elected_port (system_priority c) (gm_priority c) i (abs_port q) =
    (abs_port q) <| b_info := Mine |> <| b_vector := announced (system_priority c) (gm_priority c) i |>).
  { intros H. unfold elected_port. rewrite <- Hrole. unfold port_role.
    change (info_is (params (set_master c q))) with (info_is (params q)). by destruct H as [-> | ->]. }
  destruct (port_usable after_roles) eqn:Hu.
  2:{ destruct Hst as (_ & Hi & Hup). unfold info_settled. rewrite Hu, Ha. unfold elected_port. rewrite <- Hrole. unfold port_role.
      change (info_is (params (set_master c q))) with (info_is (params q)). by rewrite Hi. }
  destruct Hst as [(_ & Hup & [Hi|Hi])|[_ Hi]].
  - rewrite Hmineinfo by (by right). destruct ((port_role c (params (set_master c q))).2) as [[]|] eqn:Er.
    + by apply Hmine; [apply after_updt|].
    + exfalso. revert Er. unfold port_role. change (info_is (params (set_master c q))) with (info_is (params q)). rewrite Hi. cbn [snd].
      destruct (os_memcmp _ _); [|done..]. by destruct (_ =? _).
    + rewrite Hsame by (by rewrite (after_none Er)). pose proof (port_role_none Er Hi) as Hpp.
      rewrite (master_vector_announced c i q Hn) in Hpp. rewrite <- Hpp. unfold abs_port. by rewrite Hi.
  - unfold elected_port. rewrite <- Hrole. assert (Hcases : (port_role c (params (set_master c q))) = (SLAVE_PORT, Some false) ∨
      (port_role c (params (set_master c q))) = (PASSIVE_PORT, Some false) ∨ (port_role c (params (set_master c q))) = (MASTER_PORT, Some true)).
    { unfold port_role. change (info_is (params (set_master c q))) with (info_is (params q)). rewrite Hi.
      destruct (compare_clock_identity _ _); [by left|..]; (destruct (bool_decide _); [by right; right|by right; left]). }
    destruct Hcases as [E|[E|E]]; rewrite E; cbn [fst].
    + apply Hsame, after_updt. by rewrite E.
    + apply Hsame, after_updt. by rewrite E.
    + apply Hmine; [|done]. apply after_updt. by rewrite E.
  - rewrite Hmineinfo by (by left). apply Hmine; [|done]. apply after_updt. unfold port_role.
    change (info_is (params (set_master c q))) with (info_is (params q)). by rewrite Hi.
Qed.

Lemma after_ready :
  gm_id_static q = false → (i < 15)%nat → selected c = 0xffff → info_ready c after_roles.
Proof.
  intros Hst Hi Hsel. destruct after_reads as (_ & Hr & Hinfo & _ & _ & Hid & Hgs & _). pose proof Hq as [H1 _ _ H4].
  split; [by rewrite Hr|]. split; [by rewrite Hgs|]. rewrite usable_after, state_after, Hinfo.
  destruct (port_usable q); [|tauto]. split.
  { unfold get_port_identity_number in *. rewrite Hid, Hn, Hsel. apply mask_all. lia. }
  destruct H4 as [([H4|H4] & _)|[H4 Ha]]; [by left|by right; left|]. right. right. split; [done|].
  apply after_updt. unfold port_role. change (info_is (params (set_master c q))) with (info_is (params q)). by rewrite Ha.
Qed.

(** The port that the machines leave behind. *)
Lemma settled_rest q' :
  erase_tx q' = erase_tx (info_settled c after_roles) → idle q' →
  rest_port q' ∧ abs_port q' = elected_port (system_priority c) (gm_priority c) i (abs_port q) ∧ erase_sel q' = erase_sel q ∧
  vector_ok (port_priority (params q')).
Proof.
  intros He Hi. pose proof (erase_tx_params _ _ He) as Hp. set (p := info_settled c after_roles) in *.
  assert (Hpp : port_priority (params q') = port_priority (params p)) by (by rewrite Hp).
  assert (Hpi : info_is (params q') = info_is (params p)) by (by rewrite Hp).
  assert (Hpu : updt_info (params q') = updt_info (params p)) by (by rewrite Hp).
  assert (Habs : abs_port q' = abs_port p) by (unfold abs_port; by rewrite Hp).
  destruct after_reads as (_ & Hr & Hinfo & Hprio & Hm & _ & _ & _ & Hrx). pose proof Hq as [H1 H2 H3 H4].
  assert (Hup : port_usable p = port_usable q).
  { unfold p, info_settled. rewrite <- usable_after. destruct (port_usable after_roles) eqn:Hu; [|done].
    by destruct (updt_info (params after_roles)). }
  assert (Hstate : port_announce_info_sm_state q' = port_announce_info_sm_state p) by (by apply erase_tx_state).
  assert (Hcases : (p = after_roles ∧ port_usable q = false) ∨
     (port_usable q = true ∧ port_announce_info_sm_state p = PORT_ANNOUNCE_INFO_SM_STATE_CURRENT ∧ updt_info (params p) = false ∧
      (info_is (params p) = SPANNING_TREE_MINE ∧ port_priority (params p) = master_vector c q ∨
       updt_info (params after_roles) = false ∧ info_is (params p) = info_is (params q) ∧ port_priority (params p) = port_priority (params q)))).
  { unfold p, info_settled. rewrite usable_after. destruct (port_usable q); [right|by left]. split; [done|].
    destruct (updt_info (params after_roles)) eqn:Hu.
    - split; [done|]. split; [done|]. left. split; [done|exact Hm].
    - split; [done|]. split; [exact Hu|]. right. split; [done|]. split; [exact Hinfo|exact Hprio]. }
  split; [|split; [|split]].
  - assert (Hmsg : rcvd_msg (params q') = false).
    { rewrite Hp. change (rcvd_msg (params p) = false). rewrite <- H1, <- Hr. unfold p, info_settled.
      destruct (port_usable after_roles); [|done]. by destruct (updt_info (params after_roles)). }
    assert (Hpar : rcvd_announce_par (announce_receive_sm q') = false).
    { transitivity (rcvd_announce_par (announce_receive_sm p)); [exact (f_equal (λ q, rcvd_announce_par (announce_receive_sm q)) He)|].
      rewrite <- H3, <- Hrx. unfold p, info_settled. destruct (port_usable after_roles); [|done].
      by destruct (updt_info (params after_roles)). }
    split; [done| |done|done|].
    + rewrite Hpu. destruct Hcases as [[-> Hu]|(_ & _ & Hu & _)]; [|done]. rewrite Hu in H4. destruct H4 as (_ & Hd & Hf).
      unfold after_roles, set_role_port. unfold port_role. change (info_is (params (set_master c q))) with (info_is (params q)).
      rewrite Hd. exact Hf.
    + rewrite (erase_tx_usable _ _ He), Hup, Hstate. unfold knows. rewrite Hpi.
      destruct Hcases as [[-> Hu]|(Hu & Hs1 & _ & Hcs)]; rewrite Hu in *.
      * rewrite state_after, Hinfo. tauto.
      * split; [done|]. destruct Hcs as [[Hc1 _]|(Hf & Hc1 & _)]; [by left|]. rewrite Hc1.
        destruct H4 as [(_ & _ & H4)|[_ Ha]]; [done|]. exfalso. revert Hf. rewrite (after_updt true); [done|].
        unfold port_role. change (info_is (params (set_master c q))) with (info_is (params q)). by rewrite Ha.
  - rewrite Habs. apply settled_abs.
  - transitivity (erase_sel p).
    + unfold erase_sel. by rewrite He.
    + unfold p, after_roles. by rewrite erase_sel_settled, erase_sel_role.
  - rewrite Hpp. destruct Hcases as [[-> _]|(_ & _ & _ & [[_ Hc1]|(_ & _ & Hc1)])].
    + by rewrite Hprio.
    + rewrite Hc1. apply master_ok.
    + by rewrite Hc1.
Qed.
End port.

(** ** All ports (set_selected_tree) *)

Section selection.
Context `{!Platform gptp_call}.
Implicit Types (w : gworld) (c : gptp_instance) (Q : unit → gworld → Prop) (sel : M gptp_call gptp_instance unit).

Lemma truthful_ports c ps i q x : truthful (c <| ports := ps |>) i q x ↔ truthful c i q x.
Proof. done. Qed.

Lemma set_selected_spec sel c w :
  w_st w = c → begin c = false → instance_enable c = true → numberPorts c = length (ports c) → selected c = 0xffff →
  (∀ i q, ports c !! i = Some q → info_ready c q ∧ idle q ∧
     is_Some (selected_role c !! Z.to_nat (get_port_identity_number q))) →
  wp (set_selected_tree sel) (λ _ w', ∃ ps, w_st w' = c <| ports := ps |> ∧ length ps = length (ports c) ∧
    (∀ i q, ports c !! i = Some q → ∃ q', ps !! i = Some q' ∧ erase_tx q' = erase_tx (info_settled c q) ∧ idle q') ∧
    sends (λ x, ∃ i q, ports c !! i = Some q ∧ truthful c i (info_settled c q) x) w w') w.
Proof.
  intros Hw Hb He Hn Hsel Hready. destruct w as [x k tr]. cbn in Hw. subst x. unfold set_selected_tree.
  rewrite wp_bind, wp_modify, wp_bind, wp_gets. cbn [w_st w_clock w_trace].
  replace (c <| selected := 0xffff |>) with c by (destruct c; cbn in Hsel; by subst). rewrite Hn.
  set (P := λ x, ∃ i q, ports c !! i = Some q ∧ truthful c i (info_settled c q) x).
  set (w0 := World c k tr).
  eapply wp_mono; [apply (wp_for_seq _ _ (λ j w', ∃ ps, w_st w' = c <| ports := ps |> ∧ length ps = length (ports c) ∧
    (∀ i, (j ≤ i)%nat → ps !! i = ports c !! i) ∧
    (∀ i q, (i < j)%nat → ports c !! i = Some q → ∃ q', ps !! i = Some q' ∧ erase_tx q' = erase_tx (info_settled c q) ∧ idle q') ∧
    sends P w0 w'))|].
  - exists (ports c). split_and!; [by destruct c|done|done|intros; lia|by apply sends_refl].
  - intros j w1 Hj (ps & Hw1 & Hlen & Hge & Hlt & Hs). destruct (lookup_lt_is_Some_2 _ _ Hj) as [q Hq].
    destruct (Hready _ _ Hq) as (Hr & Hid & [r Hrole]). set (cj := c <| ports := ps |>) in *.
    assert (Hqj : ports cj !! j = Some q) by (change (ps !! j = Some q); by rewrite Hge).
    assert (Hjj : is_Some (ports cj !! j)) by (by rewrite Hqj).
    rewrite wp_bind. eapply wp_mono; [eapply (settle_spec cj j Hjj sel Hb He q r); [by rewrite upd_id|exact Hr|exact Hrole]|].
    intros [] w2 (q2 & Hw2 & He2 & Hi2 & Hs2). change (info_settled cj q) with (info_settled c q) in *.
    assert (Hid2 : get_port_identity_number q2 = get_port_identity_number q).
    { transitivity (get_port_identity_number (info_settled c q)).
      - unfold get_port_identity_number. by rewrite (f_equal identity He2 : identity q2 = identity (info_settled c q)).
      - unfold info_settled. destruct (port_usable q); [|done]. by destruct (updt_info (params q)). }
    assert (Hgs2 : gm_id_static q2 = false).
    { transitivity (gm_id_static (info_settled c q)); [exact (f_equal gm_id_static He2)|]. destruct Hr as (_ & Hst & _). rewrite <- Hst.
      unfold info_settled. destruct (port_usable q); [|done]. by destruct (updt_info (params q)). }
    eapply wp_mono; [eapply (transmit_spec cj j Hjj q2 r); [exact Hw2|by rewrite Hid2|exact Hgs2|exact Hb|exact He]|].
    intros [] w3 (q3 & Hw3 & He3 & Hi3 & Hs3). exists (<[j := q3]> ps). split; [exact Hw3|]. split; [by rewrite length_insert|].
    split; [intros i Hi; rewrite list_lookup_insert_ne by lia; apply Hge; lia|]. split.
    + intros i q' Hi Hq'. destruct (decide (i = j)) as [->|].
      * exists q3. split; [apply list_lookup_insert_eq; lia|]. split; [|done]. rewrite Hq in Hq'. injection Hq' as <-. by rewrite He3.
      * rewrite list_lookup_insert_ne by lia. apply Hlt; [lia|done].
    + eapply sends_trans; [exact Hs|]. eapply sends_trans; [eapply sends_mono; [|exact Hs2]|].
      { intros x Hx. exists j, q. by split. }
      eapply sends_mono; [|eapply (tx_sends cj j q2); [rewrite Hid2; exact Hrole|exact Hs3]].
      intros x Hx. exists j, q. split; [done|]. by eapply truthful_erase.
  - intros [] w' (ps & Hw' & Hlen & _ & Hlt & Hs). exists ps. split_and!; [done|done| |done].
    intros i q Hq. apply Hlt; [|done]. by eapply lookup_lt_Some.
Qed.

(** ** The selection *)

Definition erase_inst (c : gptp_instance) : gptp_instance :=
  (erase_gm c) <| reselect := 0 |> <| selected := 0 |> <| port_state_sm_state := PORT_STATE_SM_STATE_INIT_BRIDGE |>.

Record selected_post (c : gptp_instance) (w w' : gworld) : Prop := {
  sp_settled : settled (w_st w');
  sp_state : port_state_sm_state (w_st w') = PORT_STATE_SM_STATE_SELECTION;
  sp_abs : abs (w_st w') = elect (abs c);
  sp_ports : ∀ i q, ports c !! i = Some q → ∃ q', ports (w_st w') !! i = Some q' ∧ erase_sel q' = erase_sel q;
  sp_erase : erase_inst (w_st w') = erase_inst c;
  sp_path : own_path c (w_st w');
  sp_sends : sends (tells (w_st w')) w w';
}.

Lemma inst_ok_intro c c' :
  inst_ok c → erase_inst c' = erase_inst c → length (ports c') = length (ports c) →
  length (selected_role c') = S (length (ports c)) → (length (path_trace c') = MAX_PTLV_ENTRIES ∧ 1 ≤ num_ptlv c' ≤ 16) →
  (∀ i q, ports c !! i = Some q → ∃ q', ports c' !! i = Some q' ∧ erase_sel q' = erase_sel q ∧ vector_ok (port_priority (params q'))) →
  inst_ok c'.
Proof.
  intros [I1 I2 I3 I4 I5 I6 I7 I8 I8' I9 I10 I11] He Hl Hr Hp Hports. split.
  - by rewrite (f_equal profile He : profile c' = profile c).
  - by rewrite (f_equal instance_enable He : instance_enable c' = instance_enable c).
  - by rewrite (f_equal external_port_configuration_enabled He : external_port_configuration_enabled c' = _).
  - rewrite (f_equal numberPorts He : numberPorts c' = numberPorts c). congruence.
  - lia.
  - congruence.
  - by rewrite (f_equal this_clock He : this_clock c' = this_clock c).
  - by rewrite (f_equal system_priority He : system_priority c' = system_priority c).
  - by rewrite (f_equal system_priority He : system_priority c' = system_priority c), (f_equal this_clock He : this_clock c' = this_clock c).
  - done.
  - intros i q' Hq'. destruct (ports c !! i) as [q|] eqn:Hq.
    2:{ apply lookup_ge_None in Hq. apply lookup_lt_Some in Hq'. lia. }
    destruct (Hports _ _ Hq) as (q1 & Hq1 & Hs & Hv). rewrite Hq1 in Hq'. injection Hq' as ->.
    destruct (I10 _ _ Hq) as [P1 P2 P3 P4 P5]. pose proof (f_equal identity Hs) as Hi. cbn in Hi.
    split; [|unfold get_port_identity_clock_id; by rewrite Hi| |done|].
    + unfold get_port_identity_number in *. by rewrite Hi.
    + by rewrite (f_equal gm_id_static Hs : gm_id_static q' = gm_id_static q).
    + by rewrite (f_equal announce_rx Hs : announce_rx q' = announce_rx q).
  - intros i q' Hq'. destruct (ports c !! i) as [q|] eqn:Hq.
    2:{ apply lookup_ge_None in Hq. apply lookup_lt_Some in Hq'. lia. }
    destruct (Hports _ _ Hq) as (q1 & Hq1 & Hs & _). rewrite Hq1 in Hq'. injection Hq' as ->.
    rewrite (f_equal this_clock He : this_clock c' = this_clock c), <- (I11 _ _ Hq). unfold get_port_identity_clock_id.
    by rewrite (f_equal identity Hs : identity q' = identity q).
Qed.

Lemma own_path_ok c c' : inst_ok c → own_path c c' → length (path_trace c') = MAX_PTLV_ENTRIES ∧ 1 ≤ num_ptlv c' ≤ 16.
Proof.
  intros Hc H. unfold own_path in H. destruct (is_this_clock c').
  - destruct H as [-> ->]. split; [done|lia].
  - destruct H as [-> ->]. apply (io_path _ Hc).
Qed.

Lemma selection_spec sel c w :
  w_st w = c → inst_ok c → begin c = false → (∀ i q, ports c !! i = Some q → sel_port q) →
  wp (port_state_selection_sm_selection sel) (λ _ w', selected_post c w w') w.
Proof.
  intros Hw Hc Hb Hsel. destruct w as [x k tr]. cbn in Hw. subst x. unfold port_state_selection_sm_selection, clear_reselect_tree.
  rewrite wp_bind, wp_modify. cbn [w_st w_clock w_trace]. set (c0 := c <| reselect := 0 |>). rewrite wp_bind.
  assert (Hc0 : inst_ok c0) by (destruct Hc; by split).
  apply (roles_spec c0); [done|done|]. intros w1 [Re Rg Rs Rp Rr Rpr Ri Rports Rpath Rrep] Ht1.
  set (c1 := w_st w1) in *. change (abs c0) with (abs c) in *.
  assert (H1b : begin c1 = false) by (rewrite <- Hb; exact (f_equal begin Re)).
  assert (H1e : instance_enable c1 = true) by (rewrite <- (io_enable _ Hc); exact (f_equal instance_enable Re)).
  assert (H1n : numberPorts c1 = length (ports c1)).
  { rewrite Rports, length_fmap. change (ports c0) with (ports c). rewrite <- (io_number _ Hc). exact (f_equal numberPorts Re). }
  assert (H1s : system_priority c1 = system_priority c) by exact (f_equal system_priority Re).
  assert (H1r : reselect c1 = 0) by exact (f_equal reselect Re).
  assert (H1g : vector_ok (gm_priority c1)) by (rewrite Rg; by apply elected_ok).
  assert (H1sys : vector_ok (system_priority c1)) by (rewrite H1s; by apply io_system).
  rewrite wp_bind.
  set (c2 := c1 <| selected := 0xffff |>).
  assert (Hset : wp (set_selected_tree sel) (λ _ w', ∃ ps, w_st w' = c2 <| ports := ps |> ∧ length ps = length (ports c) ∧
    (∀ i q, ports c !! i = Some q → ∃ q', ps !! i = Some q' ∧ rest_port q' ∧
       abs_port q' = elected_port (b_system (abs c)) (elected_gm (abs c)) i (abs_port q) ∧ erase_sel q' = erase_sel q ∧
       vector_ok (port_priority (params q'))) ∧
    sends (λ x, ∃ i q', ps !! i = Some q' ∧ truthful c2 i q' x) (World c k tr) w') w1).
  { assert (E : ∀ Q, wp (set_selected_tree sel) Q (set_st w1 c2) → wp (set_selected_tree sel) Q w1) by done. apply E.
    assert (Hp2 : ∀ i q, ports c !! i = Some q → ports c2 !! i = Some (after_roles c1 q)).
    { intros i q Hq. change (ports c2) with (ports c1). rewrite Rports, list_lookup_fmap. change (ports c0) with (ports c). by rewrite Hq. }
    assert (Hp2' : ∀ i q1, ports c2 !! i = Some q1 → ∃ q, ports c !! i = Some q ∧ q1 = after_roles c1 q).
    { intros i q1. change (ports c2) with (ports c1). rewrite Rports, list_lookup_fmap. change (ports c0) with (ports c).
      destruct (ports c !! i) as [q|]; [|done]. intros [= <-]. by exists q. }
    eapply wp_mono; [apply (set_selected_spec sel c2); [done|done|done|exact H1n|done|]|].
    - intros i q1 Hq1. destruct (Hp2' _ _ Hq1) as (q & Hq & ->). pose proof (io_ports _ Hc _ _ Hq) as [P1 P2 P3 P4 P5].
      pose proof (lookup_lt_Some _ _ _ Hq) as Hi. pose proof (io_max _ Hc) as Hmax.
      change (after_roles c1 q) with (after_roles c2 q).
      split; [|split].
      + apply (after_ready c2 i); [done|by apply Hsel with i|done|lia|done].
      + destruct (after_reads c2 q) as (-> & _). by apply (Hsel _ _ Hq).
      + destruct (after_reads c2 q) as (_ & _ & _ & _ & _ & Hid & _). unfold get_port_identity_number in *. rewrite Hid, P1, Nat2Z.id.
        change (selected_role c2) with (selected_role c1). rewrite Rr. apply lookup_lt_is_Some_2. cbn. rewrite !length_fmap. lia.
    - intros [] w' (ps & Hw' & Hl & Hps & Hs). exists ps. split; [done|]. split.
      { rewrite Hl. change (ports c2) with (ports c1). by rewrite Rports, length_fmap. }
      assert (Hpost : ∀ i q, ports c !! i = Some q → ∃ q', ps !! i = Some q' ∧ (rest_port q' ∧
         abs_port q' = elected_port (b_system (abs c)) (elected_gm (abs c)) i (abs_port q) ∧ erase_sel q' = erase_sel q ∧
         vector_ok (port_priority (params q'))) ∧ erase_tx q' = erase_tx (info_settled c2 (after_roles c2 q))).
      { intros i q Hq. destruct (Hps i _ (Hp2 _ _ Hq)) as (q' & Hq' & He & Hid). exists q'. split; [done|]. split; [|exact He].
        pose proof (io_ports _ Hc _ _ Hq) as [P1 P2 P3 P4 P5].
        destruct (settled_rest c2 i q P1 H1g H1sys P4 (Hsel _ _ Hq) q' He Hid) as (R1 & R2 & R3 & R4).
        split_and!; [done| |done|done]. rewrite R2. change (system_priority c2) with (system_priority c1).
        change (gm_priority c2) with (gm_priority c1). by rewrite H1s, Rg. }
      split.
      + intros i q Hq. destruct (Hpost _ _ Hq) as (q' & Hq' & H & _). by exists q'.
      + destruct Hs as (l & Hl1 & Hl2). exists l. split; [rewrite Hl1; f_equal; exact Ht1|]. eapply list.Forall_impl; [exact Hl2|].
        intros x (i & q1 & Hq1 & Hx). destruct (Hp2' _ _ Hq1) as (q & Hq & ->). destruct (Hpost _ _ Hq) as (q' & Hq' & _ & He).
        exists i, q'. split; [done|]. eapply truthful_erase; [symmetry; exact He|exact Hx]. }
  eapply wp_mono; [exact Hset|]. intros [] w2 (ps & Hw2 & Hl & Hps & Hs). rewrite wp_modify.
  set (c3 := over port_state_sm_state _ (w_st w2)).
  assert (E3 : c3 = c2 <| ports := ps |> <| port_state_sm_state := PORT_STATE_SM_STATE_SELECTION |>) by (unfold c3; by rewrite Hw2).
  assert (Habs : abs c3 = elect (abs c)).
  { assert (Hbp : abs_port <$> ps = b_ports (elect (abs c))).
    { apply list_eq. intros i. rewrite ports_elect, list_lookup_imap, list_lookup_fmap. cbn [abs b_ports]. rewrite list_lookup_fmap.
      destruct (ports c !! i) as [q|] eqn:Hq.
      - destruct (Hps _ _ Hq) as (q' & -> & _ & Ha & _). cbn. by rewrite Ha.
      - apply lookup_ge_None in Hq. by rewrite (proj2 (lookup_ge_None ps i)) by lia. }
    transitivity (Bmca (this_clock c1) (system_priority c1) (sys c1) (abs_port <$> ps) (gm_priority c1) (master_steps_removed c1)
      (props c1) (selected_role c1) (gm_present c1) (is_grandmaster c1)); [by rewrite E3|].
    rewrite Hbp, Rg, Rs, Rp, Rr, Rpr, Ri, H1s.
    rewrite (f_equal this_clock Re : this_clock c1 = this_clock c), (f_equal sys Re : sys c1 = sys c). reflexivity. }
  assert (Herase : erase_inst c3 = erase_inst c).
  { transitivity (erase_inst c1); [rewrite E3; reflexivity|]. unfold erase_inst. rewrite Re. reflexivity. }
  assert (Hports : ∀ i q, ports c !! i = Some q → ∃ q', ports c3 !! i = Some q' ∧ erase_sel q' = erase_sel q ∧ vector_ok (port_priority (params q'))).
  { intros i q Hq. destruct (Hps _ _ Hq) as (q' & Hq' & _ & _ & H3 & H4). exists q'. rewrite E3. by split_and!. }
  assert (Hpath : own_path c c3) by (rewrite E3; exact Rpath).
  assert (Hok : inst_ok c3).
  { apply (inst_ok_intro c); [done|done|by rewrite E3| |by apply (own_path_ok c)|done].
    transitivity (length (b_roles (abs c3))); [done|]. rewrite Habs. cbn. by rewrite !length_fmap. }
  split; [|done|done| |done|done|].
  - cbn [w_st]. fold c3. split; [done|by rewrite E3| |].
    + intros i q3 Hq3. rewrite E3 in Hq3. change (ps !! i = Some q3) in Hq3. destruct (ports c !! i) as [q|] eqn:Hq.
      * destruct (Hps _ _ Hq) as (q' & Hq' & H & _). rewrite Hq' in Hq3. by injection Hq3 as <-.
      * apply lookup_ge_None in Hq. apply lookup_lt_Some in Hq3. lia.
    + unfold quiet_instance. replace (port_state_sm_state c3) with PORT_STATE_SM_STATE_SELECTION by (by rewrite E3).
      rewrite Habs. split_and!; [by rewrite E3|by rewrite E3|apply stable_elect|]. rewrite E3. exact Rrep.
  - intros i q Hq. destruct (Hports _ _ Hq) as (q' & H1 & H2 & _). by exists q'.
  - eapply sends_mono; [|exact Hs]. intros x (i & q' & Hq' & Hx). exists i, q'. cbn [w_st]. fold c3. rewrite E3. by split.
Qed.

(** ** The selection machine *)

(** Something makes the machine select: it has not done so since [begin], or a
    port asks for it. *)
Definition wants (c : gptp_instance) : Prop :=
  port_state_sm_state c = PORT_STATE_SM_STATE_INIT_BRIDGE ∨
  ∃ i, (i < length (ports c))%nat ∧ mask_test (Z.of_nat (S i)) (reselect c) = true.

Lemma wp_when_true (m : M gptp_call gptp_instance unit) Q w : wp m Q w → wp (when true m) Q w.
Proof. done. Qed.

Lemma selection_machine c w :
  w_st w = c → inst_ok c → begin c = false → (∀ i q, ports c !! i = Some q → sel_port q) → wants c →
  wp port_state_selection_sm (λ _ w', selected_post c w w') w.
Proof.
  intros Hw Hc Hb Hsel Hwants. unfold port_state_selection_sm. cbn [port_state_selection_sm_nested].
  unfold port_state_selection_sm_with at 1. set (sel := port_state_selection_sm_with _).
  rewrite wp_bind, wp_gets, Hw. rewrite (proj2 (Z.eqb_neq _ _) (io_profile _ Hc)), Hb, (io_enable _ Hc). cbn [negb orb].
  cbn [port_state_selection_sm_loop]. rewrite wp_bind, wp_gets, Hw, wp_bind. unfold port_state_selection_sm_step at 1.
  pose proof (selection_spec sel c w Hw Hc Hb Hsel) as Hspec.
  destruct (port_state_sm_state c) eqn:Es.
  - eapply wp_mono; [exact Hspec|]. intros [] w1 H1. rewrite wp_bind, wp_gets, (sp_state _ _ _ H1).
    rewrite bool_decide_false by done. pose proof (sp_settled _ _ _ H1) as [Hok1 Hb1 _ Hq1]. unfold quiet_instance in Hq1.
    rewrite (sp_state _ _ _ H1) in Hq1. destruct Hq1 as (Hr1 & _). rewrite wp_bind, wp_gets, wp_bind.
    unfold port_state_selection_sm_step. rewrite (sp_state _ _ _ H1), Hr1.
    replace (existsb _ _) with false.
    2:{ symmetry. apply not_true_iff_false. intros (j & Hj & Hm)%existsb_exists. by rewrite mask_none in Hm by lia. }
    cbn [when]. rewrite wp_ret, wp_bind, wp_gets, (sp_state _ _ _ H1). by rewrite bool_decide_true.
  - destruct Hwants as [?|(i & Hi & Hm)]; [congruence|]. replace (existsb _ _) with true.
    2:{ symmetry. apply existsb_exists. exists (S i). split; [|done]. apply in_seq. rewrite (io_number _ Hc). lia. }
    apply wp_when_true. eapply wp_mono; [exact Hspec|]. intros [] w1 H1. rewrite wp_bind, wp_gets, (sp_state _ _ _ H1).
    by rewrite bool_decide_true.
Qed.
End selection.
