(* ===== verification/GptpEvents.v ===== *)
(** * gPTP: events

    The effect of every handler of the best master clock algorithm on an
    instance at rest: it comes to rest again, and its abstraction makes a step. *)

From S2P Require Import Prelude Timer GptpBmca Gptp GptpSpec GptpElect GptpSelect GptpSettle.

(** ** One port differs *)

(** [c] with port [i] replaced, the masks and the statistics of the instance. *)
Definition perturb (i : nat) (q : gptp_port) (r s n t : Z) (c : gptp_instance) : gptp_instance :=
  (upd i q c) <| reselect := r |> <| selected := s |> <| gmChangeCount := n |> <| timeOfLastGmChangeEvent := t |>.
Lemma perturb_upd i q c : upd i q c = perturb i q (reselect c) (selected c) (gmChangeCount c) (timeOfLastGmChangeEvent c) c.
Proof. by destruct c. Qed.

Lemma perturb_twice i q1 q r s n t c : perturb i q r s n t (upd i q1 c) = perturb i q r s n t c.
Proof. unfold perturb. by rewrite upd_upd. Qed.

(** What no event changes. *)
Definition erase_static (c : gptp_instance) : gptp_instance :=
  (erase_inst c) <| gmChangeCount := 0 |> <| timeOfLastGmChangeEvent := 0 |>.

(** The instance that an event leaves behind: [l] are the ports that it hands to
    the last election, or the ports themselves when there is none. *)
Record event_post (c : gptp_instance) (l : list gptp_port) (b : bmca) (w w' : gworld) : Prop := {
  ev_settled : settled (w_st w');
  ev_abs : abs (w_st w') = b;
  ev_static : erase_static (w_st w') = erase_static c;
  ev_ports : ∀ j q, l !! j = Some q → ∃ q', ports (w_st w') !! j = Some q' ∧ erase_sel q' = erase_sel q;
  ev_sends : sends (tells (w_st w')) w w';
}.

Lemma port_inv_same i q q' :
  port_inv i q → identity q' = identity q → gm_id_static q' = gm_id_static q → vector_ok (port_priority (params q')) →
  (length (announce_rx q') = 196%nat ∧ Forall is_byte (announce_rx q')) → port_inv i q'.
Proof.
  intros [P1 P2 P3 P4 P5] Hi Hs Hv Hr. split; [|unfold get_port_identity_clock_id; by rewrite Hi|by rewrite Hs|done|done].
  unfold get_port_identity_number in *. by rewrite Hi.
Qed.

Lemma inst_ok_perturb c i q q' r s n t :
  inst_ok c → ports c !! i = Some q → port_inv i q' → identity q' = identity q → inst_ok (perturb i q' r s n t c).
Proof.
  intros [I1 I2 I3 I4 I5 I6 I7 I8 I8' I9 I10 I11] Hq Hi Hid.
  assert (Hl : length (ports (perturb i q' r s n t c)) = length (ports c)) by apply length_insert.
  split; rewrite ?Hl; try done.
  - intros j p Hp. change (<[i := q']> (ports c) !! j = Some p) in Hp.
    apply list_lookup_insert_Some in Hp as [(-> & -> & _)|[_ Hp]]; [done|by apply I10].
  - intros j p Hp. change (<[i := q']> (ports c) !! j = Some p) in Hp.
    apply list_lookup_insert_Some in Hp as [(-> & -> & _)|[_ Hp]]; [|by apply (I11 j)].
    unfold get_port_identity_clock_id. rewrite Hid. by apply (I11 j).
Qed.
Lemma abs_perturb c i q r s n t : abs (perturb i q r s n t c) = b_set i (abs_port q) (abs c).
Proof.
  transitivity ((abs c) <| b_ports := abs_port <$> <[i := q]> (ports c) |>); [reflexivity|]. rewrite list_fmap_insert. reflexivity.
Qed.

(** Port [i] changes to one that is at rest as well and knows the same, up to
    the stepsRemoved of the last message. *)
Lemma settled_perturb c i q q' s n t :
  settled c → ports c !! i = Some q → port_inv i q' → identity q' = identity q → rest_port q' →
  abs_port q' = (abs_port q) <| b_steps := s |> → port_usable q' = port_usable q →
  let c' := perturb i q' (reselect c) (selected c) n t c in
  settled c' ∧ abs c' = b_set i ((abs_port q) <| b_steps := s |>) (abs c) ∧ erase_static c' = erase_static c.
Proof.
  intros [Hok Hb Hp Hq0] Hq Hinv Hid Hr Ha Hu c'.
  assert (Habs : abs c' = b_set i ((abs_port q) <| b_steps := s |>) (abs c)) by (unfold c'; by rewrite abs_perturb, Ha).
  split; [|split; [exact Habs|reflexivity]]. split; [by eapply inst_ok_perturb|done| |].
  - intros j p Hpj. change (<[i := q']> (ports c) !! j = Some p) in Hpj.
    apply list_lookup_insert_Some in Hpj as [(-> & -> & _)|[_ Hpj]]; [done|by apply (Hp j)].
  - unfold quiet_instance in *. change (port_state_sm_state c') with (port_state_sm_state c).
    destruct (port_state_sm_state c).
    + intros j p Hpj. change (<[i := q']> (ports c) !! j = Some p) in Hpj.
      apply list_lookup_insert_Some in Hpj as [(-> & -> & _)|[_ Hpj]]; [rewrite Hu; by apply (Hq0 _ _ Hq)|by apply (Hq0 j)].
    + rewrite Habs. destruct Hq0 as (H1 & H2 & H3 & H4). split_and!; [done|done| |done].
      apply stable_steps; [done|]. cbn. by rewrite list_lookup_fmap, Hq.
Qed.
Lemma b_set_same i p b : b_ports b !! i = Some p → b_set i p b = b.
Proof.
  intros H. transitivity (b <| b_ports := <[i := p]> (b_ports b) |>); [reflexivity|]. rewrite list_insert_id by done. by destruct b.
Qed.
Lemma abs_port_at c i q : ports c !! i = Some q → b_ports (abs c) !! i = Some (abs_port q).
Proof. intros H. cbn. by rewrite list_lookup_fmap, H. Qed.
Lemma settled_upd c i q q' :
  settled c → ports c !! i = Some q → port_inv i q' → identity q' = identity q → rest_port q' → abs_port q' = abs_port q →
  port_usable q' = port_usable q → settled (upd i q' c) ∧ abs (upd i q' c) = abs c ∧ erase_static (upd i q' c) = erase_static c.
Proof.
  intros Hc Hq Hinv Hid Hr Ha Hu. rewrite perturb_upd.
  destruct (settled_perturb c i q q' (b_steps (abs_port q)) (gmChangeCount c) (timeOfLastGmChangeEvent c) Hc Hq Hinv Hid Hr) as (H1 & H2 & H3);
    [rewrite Ha; reflexivity|done|]. split_and!; [done| |done]. rewrite H2. apply b_set_same. by apply abs_port_at.
Qed.

Section events.
Context `{!Platform gptp_call}.
Implicit Types (w : gworld) (c : gptp_instance) (Q : unit → gworld → Prop).

(** The selection, asked for by port [i]. *)
Lemma trigger_spec c i q q' r s n t w w0 Q :
  announces (w_trace w) = announces (w_trace w0) → settled c → ports c !! i = Some q → port_inv i q' → identity q' = identity q → sel_port q' →
  mask_test (Z.of_nat (S i)) r = true → w_st w = perturb i q' r s n t c →
  (∀ w', event_post c (<[i := q']> (ports c)) (elect (b_set i (abs_port q') (abs c))) w0 w' → Q tt w') →
  wp port_state_selection_sm Q w.
Proof.
  intros Ht [Hok Hb Hp Hq0] Hq Hinv Hid Hsel Hm Hw HQ. pose proof (lookup_lt_Some _ _ _ Hq) as Hi.
  assert (Hsel' : ∀ j p, <[i := q']> (ports c) !! j = Some p → sel_port p).
  { intros j p Hpj. apply list_lookup_insert_Some in Hpj as [(-> & -> & _)|[_ Hpj]]; [done|by apply rest_sel, (Hp j)]. }
  eapply wp_mono; [apply (selection_machine (perturb i q' r s n t c)); [done|by eapply inst_ok_perturb|done|exact Hsel'|]|].
  - right. exists i. split; [|exact Hm]. change (i < length (<[i := q']> (ports c)))%nat. by rewrite length_insert.
  - intros [] w' [S1 S2 S3 S4 S5 S6 S7]. apply HQ. split; [done|by rewrite S3, abs_perturb| |exact S4|].
    2:{ destruct S7 as (l & Hl & HF). exists l. by rewrite <- Ht. }
    transitivity (erase_static (perturb i q' r s n t c)); [|reflexivity].
    exact (f_equal (λ c, c <| gmChangeCount := 0 |> <| timeOfLastGmChangeEvent := 0 |>) S5).
Qed.

Lemma ask_reselect_spec i q w Q :
  ports (w_st w) !! i = Some q →
  Q tt (set_st w ((w_st w) <| reselect ::= mask_set (get_port_identity_number q) |>
                           <| selected ::= mask_clear (get_port_identity_number q) |>)) →
  wp (ask_reselect i) Q w.
Proof. intros Hq HQ. unfold ask_reselect. rewrite wp_bind. erewrite wp_gptp_get_port by exact Hq. rewrite wp_modify. exact HQ. Qed.

Definition aged_port (q : gptp_port) : gptp_port :=
  q <| params ::= λ p, p <| info_is := SPANNING_TREE_AGED |> |> <| port_announce_info_sm_state := PORT_ANNOUNCE_INFO_SM_STATE_AGED |>.

(** AGED, from a world in which port [i] is [q1] and is usable. *)
Lemma aged_spec c i q q1 w Q :
  settled c → ports c !! i = Some q → w_st w = upd i q1 c → port_inv i q1 → identity q1 = identity q → idle q1 →
  rcvd_msg (params q1) = false → rcvd_announce_par (announce_receive_sm q1) = false → port_usable q1 = true →
  (∀ w', event_post c (<[i := aged_port q1]> (ports c)) (elect (b_set i ((abs_port q1) <| b_info := Mine |>) (abs c))) w w' → Q tt w') →
  wp (port_announce_info_sm_aged port_state_selection_sm i) Q w.
Proof.
  intros Hc Hq Hw Hinv Hid Hidle Hm Hpar Hu HQ. destruct w as [x k tr]. cbn in Hw. subst x.
  assert (Hi : is_Some (ports c !! i)) by (by rewrite Hq). unfold port_announce_info_sm_aged, set_params, set_info_state.
  gstep. eapply ask_reselect_spec; [by apply upd_lookup|]. cbn [w_st w_clock w_trace set_st]. gstep.
  assert (Hn : get_port_identity_number q1 = Z.of_nat (S i)) by apply Hinv.
  eapply (trigger_spec c i q (aged_port q1)
    (mask_set (get_port_identity_number q1) (reselect c)) (mask_clear (get_port_identity_number q1) (selected c))
    (gmChangeCount c) (timeOfLastGmChangeEvent c)); [|done|done| |done| | |rewrite <- (perturb_twice i (q1 <| params ::= λ p, p <| info_is := SPANNING_TREE_AGED |> |>)); reflexivity|exact HQ].
  - done.
  - destruct Hinv as [P1 P2 P3 P4 P5]. by split.
  - split; [done|done|done|]. change (port_usable (aged_port q1)) with (port_usable q1). rewrite Hu. by right.
  - rewrite Hn. apply mask_set_test. pose proof (lookup_lt_Some _ _ _ Hq). pose proof (io_max _ (st_ok _ Hc)). lia.
Qed.

Definition disabled_port (q : gptp_port) : gptp_port :=
  q <| params ::= λ p, p <| rcvd_msg := false |> <| info_is := SPANNING_TREE_DISABLED |> |>
    <| port_announce_info_sm_state := PORT_ANNOUNCE_INFO_SM_STATE_DISABLED |>.

Lemma disabled_spec c i q q1 w Q :
  settled c → ports c !! i = Some q → w_st w = upd i q1 c → port_inv i q1 → identity q1 = identity q → idle q1 →
  rcvd_announce_par (announce_receive_sm q1) = false → port_usable q1 = false → updt_info (params q1) = false →
  (∀ w' a, event_post c (<[i := (disabled_port q1) <| announce_information_sm := a |>]> (ports c))
      (elect (b_set i ((abs_port q1) <| b_info := Down |>) (abs c))) w w' → Q tt w') →
  wp (port_announce_info_sm_disabled port_state_selection_sm i) Q w.
Proof.
  intros Hc Hq Hw Hinv Hid Hidle Hpar Hu Hup HQ. destruct w as [x k tr]. cbn in Hw. subst x.
  assert (Hi : is_Some (ports c !! i)) by (by rewrite Hq). unfold port_announce_info_sm_disabled, set_params, set_info_state.
  gstep. eapply ask_reselect_spec; [by apply upd_lookup|]. cbn [w_st w_clock w_trace set_st]. gstep.
  assert (Hn : get_port_identity_number q1 = Z.of_nat (S i)) by apply Hinv.
  match goal with |- context [upd i (over port_announce_info_sm_state _ ?q3)] => set (qa := q3) end.
  assert (Ea : qa = (disabled_port q1) <| announce_information_sm := announce_information_sm qa |>
                 <| port_announce_info_sm_state := port_announce_info_sm_state q1 |>) by reflexivity.
  eapply (trigger_spec c i q ((disabled_port q1) <| announce_information_sm := announce_information_sm qa |>)
    (mask_set (get_port_identity_number q1) (reselect c)) (mask_clear (get_port_identity_number q1) (selected c))
    (gmChangeCount c) (timeOfLastGmChangeEvent c) _ (World (upd i q1 c) k tr));
    [|done|done| |done| | |rewrite <- (perturb_twice i qa); reflexivity|].
  - done.
  - destruct Hinv as [P1 P2 P3 P4 P5]. by split.
  - split; [done|done|done|].
    change (port_usable ((disabled_port q1) <| announce_information_sm := announce_information_sm qa |>)) with (port_usable q1).
    rewrite Hu. by split_and!.
  - rewrite Hn. apply mask_set_test. pose proof (lookup_lt_Some _ _ _ Hq). pose proof (io_max _ (st_ok _ Hc)). lia.
  - intros w' H. exact (HQ w' _ H).
Qed.

(** ** The information machine on its events *)

Lemma post_port c l b w w' i q : event_post c l b w w' → l !! i = Some q → ∃ q', ports (w_st w') !! i = Some q' ∧ erase_sel q' = erase_sel q ∧
  rest_port q' ∧ port_usable q' = port_usable q.
Proof.
  intros H Hq. destruct (ev_ports _ _ _ _ _ H _ _ Hq) as (q' & Hq' & He). exists q'. split_and!; [done|done| |].
  - by apply (st_ports _ (ev_settled _ _ _ _ _ H) i).
  - pose proof (f_equal (λ q, port_oper (net_port q)) He) as H1. pose proof (f_equal (λ q, ptp_port_enabled (params q)) He) as H2.
    pose proof (f_equal (λ q, as_capable (params q)) He) as H3. unfold port_usable, get_port_oper. cbn in H1, H2, H3. congruence.
Qed.
Lemma rest_quiet c q : rest_port q → info_quiet c q.
Proof. intros [H1 H2 H3 H4 H5]. split; [done|]. destruct (port_usable q); tauto. Qed.

(** A machine at rest. *)
Lemma info_rest c i q w Q :
  settled c → ports c !! i = Some q → w_st w = c → Q tt w →
  wp (port_announce_info_sm i PORT_ANNOUNCE_INFO_SM_EVENT_RUN) Q w.
Proof.
  intros Hc Hq Hw HQ. unfold port_announce_info_sm, port_announce_info_sm_with. rewrite wp_bind.
  erewrite wp_gptp_get_port by (by rewrite Hw). rewrite (pi_static _ _ (io_ports _ (st_ok _ Hc) _ _ Hq)).
  eapply info_loop_quiet; [exact Hw|exact Hq|apply (st_begin _ Hc)|apply (io_enable _ (st_ok _ Hc))| |exact HQ].
  by apply rest_quiet, (st_ports _ Hc i).
Qed.

(** The loop after an election at port [i], in whatever state the port was. *)
Lemma loop_after c l b fuel i q s w w1 Q :
  event_post c l b w w1 → l !! i = Some q →
  (∀ w', w' = w1 → Q tt w') →
  ∃ q1, ports (w_st w1) !! i = Some q1 ∧ (s = port_announce_info_sm_state q1 → Q tt w1) ∧
    (s ≠ port_announce_info_sm_state q1 →
       wp (port_announce_info_sm_loop port_state_selection_sm (S fuel) i PORT_ANNOUNCE_INFO_SM_EVENT_RUN) Q w1).
Proof.
  intros H Hl HQ. destruct (post_port _ _ _ _ _ _ _ H Hl) as (q1 & Hq1 & _ & Hr & _). exists q1. split; [done|].
  split; [intros _; by apply HQ|]. intros _. pose proof (ev_settled _ _ _ _ _ H) as Hs.
  eapply info_loop_quiet; [done|done|apply (st_begin _ Hs)|apply (io_enable _ (st_ok _ Hs))|by apply rest_quiet|by apply HQ].
Qed.

Lemma info_up c i q q1 w Q :
  settled c → ports c !! i = Some q → w_st w = upd i q1 c → port_inv i q1 → identity q1 = identity q → idle q1 →
  rcvd_msg (params q1) = false → rcvd_announce_par (announce_receive_sm q1) = false → port_usable q1 = true →
  port_announce_info_sm_state q1 = PORT_ANNOUNCE_INFO_SM_STATE_DISABLED →
  (∀ w', event_post c (<[i := aged_port q1]> (ports c)) (elect (b_set i ((abs_port q1) <| b_info := Mine |>) (abs c))) w w' → Q tt w') →
  wp (port_announce_info_sm i PORT_ANNOUNCE_INFO_SM_EVENT_RUN) Q w.
Proof.
  intros Hc Hq Hw Hinv Hid Hidle Hm Hpar Hu Hst HQ. unfold port_announce_info_sm, port_announce_info_sm_with. rewrite wp_bind.
  assert (Hi : is_Some (ports c !! i)) by (by rewrite Hq).
  assert (Hq1 : ports (w_st w) !! i = Some q1) by (rewrite Hw; by apply upd_lookup).
  erewrite wp_gptp_get_port by exact Hq1. rewrite (pi_static _ _ Hinv).
  eapply (info_loop_S _ _ _ _ (w_st w)); [reflexivity|exact Hq1|rewrite Hw; apply (st_begin _ Hc)|rewrite Hw; apply (io_enable _ (st_ok _ Hc))|by left|].
  unfold port_announce_info_sm_step. rewrite Hst, Hu.
  eapply aged_spec; try done. intros w' H.
  eapply loop_after; [exact H|apply list_lookup_insert_eq; by eapply lookup_lt_Some|]. intros w2 ->. by apply HQ.
Qed.

Lemma info_down c i q q1 w Q :
  settled c → ports c !! i = Some q → w_st w = upd i q1 c → port_inv i q1 → identity q1 = identity q → idle q1 →
  rcvd_announce_par (announce_receive_sm q1) = false → port_usable q1 = false → updt_info (params q1) = false → knows q1 →
  (∀ w' a, event_post c (<[i := (disabled_port q1) <| announce_information_sm := a |>]> (ports c))
      (elect (b_set i ((abs_port q1) <| b_info := Down |>) (abs c))) w w' → Q tt w') →
  wp (port_announce_info_sm i PORT_ANNOUNCE_INFO_SM_EVENT_RUN) Q w.
Proof.
  intros Hc Hq Hw Hinv Hid Hidle Hpar Hu Hup Hk HQ. unfold port_announce_info_sm, port_announce_info_sm_with. rewrite wp_bind.
  assert (Hi : is_Some (ports c !! i)) by (by rewrite Hq).
  assert (Hq1 : ports (w_st w) !! i = Some q1) by (rewrite Hw; by apply upd_lookup).
  erewrite wp_gptp_get_port by exact Hq1. rewrite (pi_static _ _ Hinv). cbn [port_announce_info_sm_loop].
  rewrite wp_bind, wp_gets, wp_bind. erewrite wp_gptp_get_port by exact Hq1. rewrite Hu.
  rewrite (bool_decide_false (info_is (params q1) = _)) by (destruct Hk as [-> | ->]; done). cbn [negb andb].
  rewrite orb_true_r. by eapply disabled_spec.
Qed.

Definition timeout_counts (e : ptp_port_announce_info_sm_event_t) (c : gptp_instance) : bool :=
  bool_decide (e = PORT_ANNOUNCE_INFO_SM_EVENT_ANNOUNCE_TIMEOUT) ||
  bool_decide (e = PORT_ANNOUNCE_INFO_SM_EVENT_SYNC_TIMEOUT) && gm_present c.

(** A timeout, on a port [q1] that is at rest. *)
Lemma info_timeout c i q q1 e w Q :
  settled c → ports c !! i = Some q → w_st w = upd i q1 c → port_inv i q1 → identity q1 = identity q → rest_port q1 →
  (if port_usable q1 && timeout_counts e c && bool_decide (info_is (params q1) = SPANNING_TREE_RECEIVED) then
     ∀ w', event_post c (<[i := aged_port q1]> (ports c)) (elect (b_set i ((abs_port q1) <| b_info := Mine |>) (abs c))) w w' → Q tt w'
   else Q tt w) →
  wp (port_announce_info_sm i e) Q w.
Proof.
  intros Hc Hq Hw Hinv Hid Hr HQ. unfold port_announce_info_sm, port_announce_info_sm_with. rewrite wp_bind.
  assert (Hi : is_Some (ports c !! i)) by (by rewrite Hq).
  assert (Hq1 : ports (w_st w) !! i = Some q1) by (rewrite Hw; by apply upd_lookup).
  erewrite wp_gptp_get_port by exact Hq1. rewrite (pi_static _ _ Hinv). pose proof Hr as [R1 R2 R3 R4 R5].
  eapply (info_loop_S _ _ _ _ (w_st w)); [reflexivity|exact Hq1|rewrite Hw; apply (st_begin _ Hc)|rewrite Hw; apply (io_enable _ (st_ok _ Hc))| |].
  { destruct (port_usable q1); [by left|right; tauto]. }
  unfold port_announce_info_sm_step. rewrite R1, R2. cbn [negb andb when]. rewrite andb_false_r.
  change (gm_present (w_st w)) with (gm_present (w_st w)). replace (gm_present (w_st w)) with (gm_present c) by (by rewrite Hw).
  fold (timeout_counts e c). destruct (port_usable q1) eqn:Hu; destruct R5 as [-> R6]; cbn [andb negb] in *.
  2:{ rewrite wp_ret. exists q1. split; [done|]. split; [intros _; exact HQ|]. intros H. exfalso. apply H. symmetry.
      pose proof (rp_state _ Hr) as H1. rewrite Hu in H1. tauto. }
  rewrite !andb_true_r. destruct (timeout_counts e c && bool_decide (info_is (params q1) = SPANNING_TREE_RECEIVED)) eqn:Hgo.
  - eapply aged_spec; try done. intros w' H.
    eapply loop_after; [exact H|apply list_lookup_insert_eq; by eapply lookup_lt_Some|]. intros w2 ->. by apply HQ.
  - cbn [when]. rewrite wp_ret. exists q1. split; [done|]. split; [intros _; exact HQ|]. intros H. exfalso. apply H. symmetry.
    pose proof (rp_state _ Hr) as H1. rewrite Hu in H1. tauto.
Qed.

(** ** A qualified message *)

Lemma bytes_u16 a b : is_byte a → is_byte b → is_u16 (a + 256 * b).
Proof. unfold is_byte, is_u16. lia. Qed.
Section read.
Context (l : list Z) (Hl : length l = 196%nat) (Hb : Forall is_byte l).
Lemma ld8_ok o : is_byte (ld8 o l).
Proof.
  unfold ld8. destruct (decide (o < length l)%nat).
  - eapply list.Forall_lookup_1; [exact Hb|]. destruct (lookup_lt_is_Some_2 l o) as [x Hx]; [done|]. rewrite Hx. f_equal.
    symmetry. by apply nth_lookup_Some with (d := 0) in Hx.
  - rewrite nth_overflow by lia. unfold is_byte. lia.
Qed.
Lemma ld16_ok o : is_u16 (ld16 o l).
Proof. apply bytes_u16; apply ld8_ok. Qed.
Lemma ld_id_ok o : (o + 8 ≤ 196)%nat → id_ok (ld_id o l).
Proof.
  intros Ho. unfold ld_id. split; [rewrite length_take, length_drop; lia|]. apply list.Forall_take, list.Forall_drop. exact Hb.
Qed.
Lemma message_vector_ok n : vector_ok (copy_priority_vector_from_message n (read_announce l)).
Proof.
  unfold vector_ok, system_ok, quality_ok, port_ok. cbn.
  split_and!; try (apply ld8_ok || apply ld16_ok || (apply ld_id_ok; lia)). apply htons_u16_ok.
Qed.
Lemma message_path_ok : Forall id_ok (path_sequence (read_announce l)).
Proof.
  apply list.Forall_forall. intros x Hx. cbn [read_announce path_sequence] in Hx. apply list_elem_of_fmap in Hx as (i & -> & Hi).
  apply elem_of_seq in Hi. apply ld_id_ok. unfold MAX_PTLV_ENTRIES in Hi. lia.
Qed.
Lemma message_path_length : length (path_sequence (read_announce l)) = 16%nat.
Proof. cbn [read_announce path_sequence]. by rewrite length_fmap, length_seq. Qed.
End read.

Definition message_of (q : gptp_port) : ptp_announce_pdu := read_announce (announce_rx q).
Definition vector_of (q : gptp_port) : ptp_priority_vector :=
  copy_priority_vector_from_message (get_port_identity_number q) (message_of q).
Definition steps_of (q : gptp_port) : Z := ntohs (announce_steps_removed (message_of q)).

Lemma accepts_msg v k : vector_ok v → vector_ok k →
  (compare_msg_priority_vector v k = BMCA_VECTOR_A_BETTER ↔ accepts v k = true) ∧
  compare_msg_priority_vector v k ≠ BMCA_VECTOR_A_B_SAME.
Proof.
  intros Hv Hk. destruct (vector_cmp v k Hv Hk) as (Hc & He & Hm). split.
  - rewrite Hm. unfold accepts. rewrite orb_true_iff, bool_decide_eq_true, Z.ltb_lt. done.
  - unfold compare_msg_priority_vector. destruct (os_memcmp _ _) eqn:E; try done; intros H.
    + apply He in H. subst k. by rewrite memcmp_refl in E.
    + apply He in H. subst k. by rewrite memcmp_refl in E.
Qed.

Lemma rcvd_spec i q w (Q : ptp_announce_pdu → gworld → Prop) :
  ports (w_st w) !! i = Some q → rcvd_announce_ptr (announce_receive_sm q) = true →
  wp (rcvd_announce i) Q w ↔ Q (message_of q) w.
Proof. intros Hq Hp. unfold rcvd_announce. rewrite wp_bind. erewrite wp_gptp_get_port by exact Hq. by rewrite Hp. Qed.

(** The port as [qualify_announce] leaves it: a message has arrived. *)
Record heard (i : nat) (q : gptp_port) : Prop := {
  he_inv : port_inv i q;
  he_msg : rcvd_msg (params q) = true;
  he_ptr : rcvd_announce_ptr (announce_receive_sm q) = true;
  he_par : rcvd_announce_par (announce_receive_sm q) = false;
  he_updt : updt_info (params q) = false;
  he_idle : idle q;
  he_usable : port_usable q = true;
  he_state : port_announce_info_sm_state q = PORT_ANNOUNCE_INFO_SM_STATE_CURRENT;
  he_knows : knows q;
}.

Lemma heard_vector i q : heard i q → vector_ok (vector_of q).
Proof. intros H. destruct (pi_rx _ _ (he_inv _ _ H)). by apply message_vector_ok. Qed.

Lemma gm_change_spec w (Q : unit → gworld → Prop) :
  (∀ n t k tr, announces tr = announces (w_trace w) →
     Q tt (World ((w_st w) <| gmChangeCount := n |> <| timeOfLastGmChangeEvent := t |>) k tr)) → wp gm_change Q w.
Proof. intros HQ. unfold gm_change, gptp_system_time. gstep. by apply HQ. Qed.

(** The port that a better message makes, up to timers. *)
Record superior (q q' : gptp_port) (v : ptp_priority_vector) : Prop := {
  su_identity : identity q' = identity q;
  su_static : gm_id_static q' = gm_id_static q;
  su_rx : announce_rx q' = announce_rx q;
  su_net : net_port q' = net_port q;
  su_tx : announce_transmit_sm q' = announce_transmit_sm q;
  su_par : rcvd_announce_par (announce_receive_sm q') = rcvd_announce_par (announce_receive_sm q);
  su_rcv : rcv_state (announce_receive_sm q') = rcv_state (announce_receive_sm q);
  su_usable : port_usable q' = port_usable q;
  su_msg : rcvd_msg (params q') = false;
  su_updt : updt_info (params q') = updt_info (params q);
  su_state : port_announce_info_sm_state q' = PORT_ANNOUNCE_INFO_SM_STATE_SUPERIOR_MASTER_PORT;
  su_info : info_is (params q') = SPANNING_TREE_RECEIVED;
  su_vector : port_priority (params q') = v;
  su_steps : message_steps_removed (params q') = message_steps_removed (params q);
  su_ann : ann (params q') = announce_properties (message_of q);
}.

Lemma receipt_restart_spec i q c ms w (Q : unit → gworld → Prop) :
  is_Some (ports c !! i) → w_st w = upd i q c →
  (∀ w', w_st w' = upd i (q <| announce_receive_sm ::= λ s, s <| timeout_timer ::= soft_restart (u32 ms) |> |>) c →
     announces (w_trace w') = announces (w_trace w) → Q tt w') →
  wp (receipt_timer_restart i ms) Q w.
Proof. intros Hi Hw HQ. enter w Hw. unfold receipt_timer_restart. gstep. by apply HQ. Qed.

Lemma superior_spec c i q q1 w Q :
  settled c → ports c !! i = Some q → identity q1 = identity q → w_st w = upd i q1 c → heard i q1 →
  messagePriority (announce_information_sm q1) = vector_of q1 →
  (∀ w' q', superior q1 q' (vector_of q1) →
     event_post c (<[i := q']> (ports c)) (elect (b_set i (abs_port q') (abs c))) w w' → Q tt w') →
  wp (port_announce_info_sm_superior port_state_selection_sm i) Q w.
Proof.
  intros Hc Hq Hid Hw Hh Hmsg HQ. set (w0 := w) in HQ. assert (Ht0 : announces (w_trace w) = announces (w_trace w0)) by done.
  clearbody w0. assert (Hi : is_Some (ports c !! i)) by (by rewrite Hq). unfold port_announce_info_sm_superior, set_params, record_other_announce_info.
  enter w Hw. gstep.
  set (qa := over params _ q1). erewrite (rcvd_spec i qa) by (first [by apply upd_lookup|exact (he_ptr _ _ Hh)]). unfold set_params. gstep.
  set (qb := over params _ qa). erewrite (rcvd_spec i qb) by (first [by apply upd_lookup|exact (he_ptr _ _ Hh)]). gstep.
  set (qc := over params _ qb). eapply (receipt_restart_spec i qc c); [done|done|]. intros w Hw Ht. enter w Hw. gstep.
  set (qd := over params _ _). eapply ask_reselect_spec; [by apply upd_lookup|]. unfold set_st. cbn [w_st w_clock w_trace].
  set (n := get_port_identity_number qd).
  set (X := (upd i qd c) <| reselect ::= mask_set n |> <| selected ::= mask_clear n |>).
  assert (HX : is_Some (ports X !! i)) by (exists qd; by apply (upd_lookup i qd c)).
  gstep. unfold clear_announce_ptr, set_info_state. gstep.
  set (qe := over port_announce_info_sm_state _ _).
  apply gm_change_spec. cbn [w_st w_trace]. intros nn tt0 k2 tr2 Ht2.
  assert (Hsup : superior q1 qe (vector_of q1)).
  { split; try reflexivity. exact Hmsg. }
  assert (Hn : n = Z.of_nat (S i)) by (unfold n; apply (pi_number _ _ (he_inv _ _ Hh))).
  eapply (trigger_spec c i q qe (mask_set n (reselect c)) (mask_clear n (selected c)) nn tt0 _ w0);
    [cbn [w_trace]; congruence|done|done| |exact Hid| | |rewrite <- (perturb_twice i qd); reflexivity|].
  - eapply (port_inv_same i q1); [apply Hh|exact (su_identity _ _ _ Hsup)|exact (su_static _ _ _ Hsup)| |].
    + rewrite (su_vector _ _ _ Hsup). by apply (heard_vector i).
    + rewrite (su_rx _ _ _ Hsup). apply (pi_rx _ _ (he_inv _ _ Hh)).
  - destruct Hh as [_ H1 H2 H3 H4 H5 H6 H7 H8]. split; [apply Hsup| | |].
    + unfold idle. by rewrite (su_tx _ _ _ Hsup).
    + by rewrite (su_par _ _ _ Hsup).
    + rewrite (su_usable _ _ _ Hsup), H6. left. split; [right; apply Hsup|]. split; [by rewrite (su_updt _ _ _ Hsup)|].
      right. apply Hsup.
  - rewrite Hn. apply mask_set_test. pose proof (lookup_lt_Some _ _ _ Hq). pose proof (io_max _ (st_ok _ Hc)). lia.
  - intros w' H. by apply (HQ w' qe).
Qed.

Definition heard_port (q : gptp_port) : bport :=
  BPort Received (vector_of q) (steps_of q) (announce_properties (message_of q)).

(** A message that is not better: the port forgets it. *)
Lemma inferior_spec c i q q1 w Q :
  settled c → ports c !! i = Some q → identity q1 = identity q → w_st w = upd i q1 c → heard i q1 →
  port_usable q = true → abs_port q1 = (abs_port q) <| b_steps := steps_of q1 |> →
  (∀ w' q', identity q' = identity q → event_post c (<[i := q']> (ports c)) (b_set i (abs_port q1) (abs c)) w w' → Q tt w') →
  wp (port_announce_info_sm_inferior i) (λ _ w1, ∃ q1', ports (w_st w1) !! i = Some q1' ∧
    (PORT_ANNOUNCE_INFO_SM_STATE_CURRENT = port_announce_info_sm_state q1' → Q tt w1) ∧
    (PORT_ANNOUNCE_INFO_SM_STATE_CURRENT ≠ port_announce_info_sm_state q1' →
      wp (port_announce_info_sm_loop port_state_selection_sm 7 i PORT_ANNOUNCE_INFO_SM_EVENT_RUN) Q w1)) w.
Proof.
  intros Hc Hq Hid Hw Hh Hu Ha HQ. set (w0 := w) in HQ. assert (Ht0 : announces (w_trace w) = announces (w_trace w0)) by done.
  clearbody w0. assert (Hi : is_Some (ports c !! i)) by (by rewrite Hq).
  unfold port_announce_info_sm_inferior, set_params, clear_announce_ptr, set_info_state. enter w Hw. gstep.
  set (qe := over port_announce_info_sm_state _ _).
  apply gm_change_spec. cbn [w_st w_trace]. intros n t k2 tr2 Ht2.
  set (c2 := c <| gmChangeCount := n |> <| timeOfLastGmChangeEvent := t |>).
  assert (Hi2 : is_Some (ports c2 !! i)) by exact Hi.
  exists qe. split; [by apply (upd_lookup i qe c2)|]. split; [done|]. intros _.
  destruct Hh as [H0 H1 H2 H3 H4 H5 H6 H7 H8].
  eapply (loop_current c2 i Hi2 port_state_selection_sm); [apply (st_begin _ Hc)|apply (io_enable _ (st_ok _ Hc))|reflexivity|exact H6|done|].
  intros w3 Hw3 Ht3. cbn [w_trace] in Ht3.
  assert (Hrest : rest_port (info_current qe)).
  { split; [done|done|exact H5|exact H3|]. change (port_usable (info_current qe)) with (port_usable q1). rewrite H6. by split. }
  destruct (settled_perturb c i q (info_current qe) (steps_of q1) n t Hc Hq) as (S1 & S2 & S3).
  { destruct H0 as [P1 P2 P3 P4 P5]. by split. }
  { exact Hid. }
  { exact Hrest. }
  { rewrite <- Ha. reflexivity. }
  { rewrite Hu. exact H6. }
  assert (Hw3' : w_st w3 = perturb i (info_current qe) (reselect c) (selected c) n t c) by (rewrite Hw3; reflexivity).
  eapply (info_loop_quiet _ _ _ (w_st w3)); [done|rewrite Hw3; by apply (upd_lookup i _ c2)|rewrite Hw3'; apply (st_begin _ S1)|
    rewrite Hw3'; apply (io_enable _ (st_ok _ S1))|by apply rest_quiet|].
  apply (HQ w3 (info_current qe) Hid). split; [by rewrite Hw3'| |by rewrite Hw3'| |].
  - rewrite Hw3', S2, <- Ha. reflexivity.
  - intros j p Hp. exists p. split; [|done]. rewrite Hw3. exact Hp.
  - apply sends_refl. congruence.
Qed.

Lemma info_hear c i q q1 w Q :
  settled c → ports c !! i = Some q → identity q1 = identity q → w_st w = upd i q1 c → heard i q1 →
  port_usable q = true → abs_port q1 = abs_port q →
  (∀ w' q', identity q' = identity q →
     event_post c (<[i := q']> (ports c))
       (if accepts (vector_of q1) (port_priority (params q1)) then elect (b_set i (heard_port q1) (abs c))
        else b_set i ((abs_port q) <| b_steps := steps_of q1 |>) (abs c)) w w' → Q tt w') →
  wp (port_announce_info_sm i PORT_ANNOUNCE_INFO_SM_EVENT_RUN) Q w.
Proof.
  intros Hc Hq Hid Hw Hh Hu Ha HQ. assert (Hi : is_Some (ports c !! i)) by (by rewrite Hq).
  set (w0 := w) in HQ. assert (Ht0 : announces (w_trace w) = announces (w_trace w0)) by done. clearbody w0.
  pose proof Hh as [H0 H1 H2 H3 H4 H5 H6 H7 H8]. unfold port_announce_info_sm, port_announce_info_sm_with. rewrite wp_bind.
  assert (Hq1 : ports (w_st w) !! i = Some q1) by (rewrite Hw; by apply upd_lookup).
  erewrite wp_gptp_get_port by exact Hq1. rewrite (pi_static _ _ H0).
  eapply (info_loop_S _ _ _ _ (w_st w)); [reflexivity|exact Hq1|rewrite Hw; apply (st_begin _ Hc)|rewrite Hw; apply (io_enable _ (st_ok _ Hc))|by left|].
  assert (E : port_announce_info_sm_step port_state_selection_sm i PORT_ANNOUNCE_INFO_SM_EVENT_RUN (w_st w) q1 =
    port_announce_info_sm_receive port_state_selection_sm i).
  { unfold port_announce_info_sm_step. rewrite H7, H1, H4. cbn [negb andb]. by rewrite andb_false_r. }
  rewrite E, H7. clear E. unfold port_announce_info_sm_receive, rcv_info, set_params. clear Hq1. enter w Hw.
  rewrite wp_bind. erewrite (rcvd_spec i q1) by (first [by apply upd_lookup|exact H2]). gstep.
  change (copy_priority_vector_from_message (get_port_identity_number q1) (message_of q1)) with (vector_of q1).
  change (ntohs (announce_steps_removed (message_of q1))) with (steps_of q1).
  set (info := match compare_msg_priority_vector _ _ with BMCA_VECTOR_A_BETTER => _ | _ => _ end).
  set (q2 := over announce_information_sm _ (over params _ _)).
  assert (Hq2 : heard i q2).
  { split; try done. eapply (port_inv_same i q1); [done|done|done|apply (pi_vector _ _ H0)|apply (pi_rx _ _ H0)]. }
  assert (Ha2 : abs_port q2 = (abs_port q) <| b_steps := steps_of q1 |>) by (rewrite <- Ha; reflexivity).
  destruct (accepts_msg (vector_of q1) (port_priority (params q1))) as [Hacc Hne]; [by apply (heard_vector i)|apply (pi_vector _ _ H0)|].
  destruct (accepts (vector_of q1) (port_priority (params q1))) eqn:Eacc.
  - assert (Einfo : info = ANNOUNCE_PRIO_SUPERIOR_MASTER_INFO) by (unfold info; by rewrite (proj2 Hacc eq_refl)).
    rewrite Einfo. eapply (superior_spec c i q q2); [done|done|exact Hid|reflexivity|exact Hq2|reflexivity|].
    intros w' q' Hsup Hpost. eapply loop_after; [|apply list_lookup_insert_eq; by eapply lookup_lt_Some|].
    + exact Hpost.
    + intros w2 ->. apply (HQ w' q'); [rewrite (su_identity _ _ _ Hsup); exact Hid|].
      replace (heard_port q1) with (abs_port q').
      { destruct Hpost as [E1 E2 E3 E4 E5]. split; [done|done|done|done|]. destruct E5 as (l & Hl & HF). exists l. by rewrite <- Ht0. }
      unfold abs_port, heard_port. rewrite (su_info _ _ _ Hsup), (su_vector _ _ _ Hsup), (su_steps _ _ _ Hsup), (su_ann _ _ _ Hsup).
      reflexivity.
  - assert (Einfo : info = ANNOUNCE_PRIO_INFERIOR_MASTER_INFO).
    { unfold info. destruct (compare_msg_priority_vector _ _) eqn:Ec; [|done|done]. by pose proof (proj1 Hacc eq_refl). }
    rewrite Einfo. eapply wp_mono; [eapply (inferior_spec c i q q2 _ Q); [done|done|exact Hid|reflexivity|exact Hq2|done|exact Ha2|]|].
    + intros w' q' Hid' Hpost. apply (HQ w' q' Hid'). rewrite Ha2 in Hpost. destruct Hpost as [E1 E2 E3 E4 E5].
      split; [done|done|done|done|]. destruct E5 as (l & Hl & HF). exists l. by rewrite <- Ht0.
    + intros [] w1 H. exact H.
Qed.

(** ** Handlers *)

Record handled (c : gptp_instance) (i : nat) (b : bmca) (w w' : gworld) : Prop := {
  ha_settled : settled (w_st w');
  ha_abs : abs (w_st w') = b;
  ha_static : erase_static (w_st w') = erase_static c;
  ha_others : ∀ j q, j ≠ i → ports c !! j = Some q → ∃ q', ports (w_st w') !! j = Some q' ∧ erase_sel q' = erase_sel q;
  ha_sends : sends (tells (w_st w')) w w';
}.

Lemma handled_post c i q b w w' : event_post c (<[i := q]> (ports c)) b w w' → handled c i b w w'.
Proof. intros [E1 E2 E3 E4 E5]. split; try done. intros j p Hj Hp. apply E4. by rewrite list_lookup_insert_ne. Qed.
Lemma handled_start c i b w0 w w' : announces (w_trace w) = announces (w_trace w0) → handled c i b w w' → handled c i b w0 w'.
Proof. intros Ht [E1 E2 E3 E4 (l & Hl & HF)]. split; try done. exists l. by rewrite <- Ht. Qed.
Lemma handled_from c c' i b w w' :
  erase_static c' = erase_static c → (∀ j q, j ≠ i → ports c !! j = Some q → ports c' !! j = Some q) →
  handled c' i b w w' → handled c i b w w'.
Proof. intros Hs Hp [E1 E2 E3 E4 E5]. split; try done; [congruence|]. intros j q Hj Hq. apply E4; [done|by apply Hp]. Qed.

(** Nothing but port [i] changes, and that knows the same as before. *)
Lemma handled_upd c i q q' w w' :
  settled c → ports c !! i = Some q → port_inv i q' → identity q' = identity q → rest_port q' → abs_port q' = abs_port q →
  port_usable q' = port_usable q → w_st w' = upd i q' c → sends (tells (w_st w')) w w' → handled c i (abs c) w w'.
Proof.
  intros Hc Hq Hinv Hid Hr Ha Hu Hw Hs. destruct (settled_upd c i q q' Hc Hq Hinv Hid Hr Ha Hu) as (H1 & H2 & H3).
  split; [by rewrite Hw|by rewrite Hw|by rewrite Hw| |done]. intros j p Hj Hp. exists p. rewrite Hw. by rewrite upd_lookup_ne.
Qed.

Definition own_id (own : list Z) (x : list Z) : bool := bool_decide (os_memcmp x own = Eq).
Definition qualified (own : list Z) (m : ptp_announce_pdu) : bool :=
  negb (own_id own (pid_clock_identity (source_port_id (header m)))) && (ntohs (announce_steps_removed m) <? 255) &&
  (negb (ptlv_present m) || (ntohs (tlv_length_field m) mod 8 =? 0) && negb (existsb (own_id own) (ptlv_path m))).

Lemma ptlv_len_bounds m : 0 ≤ ntohs (tlv_length_field m) → 0 ≤ ptlv_len m ≤ 120.
Proof.
  intros H. unfold ptlv_len, MAX_PTLV_ENTRIES. destruct (Z.ltb_spec ((Z.of_nat 16 - 1) * 8) (ntohs (tlv_length_field m))); lia.
Qed.
Lemma ptlv_path_length m : (length (ptlv_path m) ≤ 15)%nat.
Proof.
  unfold ptlv_path. rewrite length_take. unfold ptlv_len, MAX_PTLV_ENTRIES.
  destruct (Z.ltb_spec ((Z.of_nat 16 - 1) * 8) (ntohs (tlv_length_field m))) as [H|H].
  - transitivity (Z.to_nat ((Z.of_nat 16 - 1) * 8 / 8)); [lia|]. by vm_compute; lia.
  - assert (Hd : ntohs (tlv_length_field m) / 8 ≤ 15) by (Z.div_mod_to_equations; lia). lia.
Qed.

(** The instance after a qualified message: a slave port follows its path. *)
Definition follow (slave : bool) (own : list Z) (m : ptp_announce_pdu) (c : gptp_instance) : gptp_instance :=
  if slave && ptlv_present m then path_trace_append own m c else c.

Lemma follow_settled b own m c : settled c →
  settled (follow b own m c) ∧ abs (follow b own m c) = abs c ∧ erase_static (follow b own m c) = erase_static c ∧
  ports (follow b own m c) = ports c.
Proof.
  intros Hc. unfold follow. destruct (b && ptlv_present m); [|done]. split; [|done].
  destruct Hc as [[I1 I2 I3 I4 I5 I6 I7 I8 I8' [I9 I9'] I10 I11] Hb Hp Hq]. pose proof (ptlv_path_length m) as Hl.
  split; [|done|done|exact Hq]. split; try done.
  change (length (ptlv_path m ++ own :: drop (S (length (ptlv_path m))) (path_trace c)) = MAX_PTLV_ENTRIES ∧
    1 ≤ u8 (Z.of_nat (length (ptlv_path m)) + 1) ≤ 16). split.
  - rewrite length_app. cbn [length]. rewrite length_drop, I9. unfold MAX_PTLV_ENTRIES. lia.
  - rewrite u8_small by lia. lia.
Qed.

Lemma qualify_spec c i q r w (Q : bool → gworld → Prop) :
  w_st w = c → ports c !! i = Some q → rcvd_announce_ptr (announce_receive_sm q) = true →
  selected_role c !! Z.to_nat (get_port_identity_number q) = Some r →
  (let m := message_of q in let own := get_port_identity_clock_id q in
   if qualified own m then
     ∀ w', w_st w' = follow (bool_decide (r = SLAVE_PORT)) own m c → announces (w_trace w') = announces (w_trace w) → Q true w'
   else Q false w) →
  wp (qualify_announce i) Q w.
Proof.
  intros Hw Hq Hp Hr HQ. destruct w as [x k tr]. cbn in Hw. subst x. unfold qualify_announce.
  rewrite wp_bind. erewrite (rcvd_spec i q) by done. rewrite wp_bind. erewrite wp_gptp_get_port by exact Hq. cbv zeta in HQ |- *.
  set (m := message_of q) in *. set (own := get_port_identity_clock_id q) in *.
  change (bool_decide (os_memcmp ?x own = Eq)) with (own_id own x). unfold qualified in HQ.
  destruct (own_id own (pid_clock_identity (source_port_id (header m)))); cbn [negb andb] in HQ; [exact HQ|].
  rewrite Z.leb_antisym. destruct (ntohs (announce_steps_removed m) <? 255); cbn [negb andb] in *; [|exact HQ].
  change (λ x, own_id own x) with (own_id own).
  unfold follow in HQ. destruct (ptlv_present m) eqn:Ep; cbn [negb andb orb] in *.
  - destruct (ntohs (tlv_length_field m) mod 8 =? 0); cbn [negb andb] in *; [|exact HQ].
    destruct (existsb (own_id own) (ptlv_path m)); cbn [negb] in *; [exact HQ|].
    rewrite wp_bind. erewrite wp_get_role by exact Hr. rewrite wp_bind, wp_when. destruct (bool_decide (r = SLAVE_PORT)); cbn [andb] in *.
    + rewrite wp_bind, wp_modify. cbn [w_st w_clock w_trace]. apply ipc_gm_status_spec. intros w' Hw' Ht'. apply wp_ret. apply HQ; [exact Hw'|exact Ht'].
    + apply wp_ret. by apply HQ.
  - rewrite wp_bind. erewrite wp_get_role by exact Hr. rewrite andb_false_r in *. cbn [when]. rewrite wp_bind, !wp_ret. by apply HQ.
Qed.

(** The receive machine of a port without a message. *)
Lemma rcv_rest c i q w Q :
  settled c → ports c !! i = Some q → w_st w = c → Q tt w → wp (port_announce_rcv_sm i) Q w.
Proof.
  intros Hc Hq Hw HQ. unfold port_announce_rcv_sm. rewrite wp_bind, wp_gets, wp_bind. erewrite wp_gptp_get_port by (by rewrite Hw).
  pose proof (st_ports _ Hc _ _ Hq) as Hr. pose proof (io_ports _ (st_ok _ Hc) _ _ Hq) as Hi.
  rewrite (pi_static _ _ Hi), Hw, (st_begin _ Hc), (io_enable _ (st_ok _ Hc)), (rp_par _ Hr). cbn [negb orb andb].
  cbn [port_announce_rcv_sm_loop]. rewrite wp_bind. erewrite wp_gptp_get_port by (by rewrite Hw). rewrite wp_bind.
  unfold port_announce_rcv_sm_step. rewrite (rp_par _ Hr). cbn [andb when].
  destruct (rcv_state (announce_receive_sm q)) eqn:Es; rewrite wp_ret, wp_bind; (erewrite wp_gptp_get_port by (by rewrite Hw));
    rewrite Es, bool_decide_true by done; exact HQ.
Qed.
Lemma rcv_loop_rest c i q fuel w Q :
  settled c → ports c !! i = Some q → w_st w = c → Q tt w → wp (port_announce_rcv_sm_loop (S fuel) i) Q w.
Proof.
  intros Hc Hq Hw HQ. pose proof (st_ports _ Hc _ _ Hq) as Hr.
  cbn [port_announce_rcv_sm_loop]. rewrite wp_bind. erewrite wp_gptp_get_port by (by rewrite Hw). rewrite wp_bind.
  unfold port_announce_rcv_sm_step. rewrite (rp_par _ Hr). cbn [andb when].
  destruct (rcv_state (announce_receive_sm q)) eqn:Es; rewrite wp_ret, wp_bind; (erewrite wp_gptp_get_port by (by rewrite Hw));
    rewrite Es, bool_decide_true by done; exact HQ.
Qed.

Lemma rcv_loop_S fuel i : port_announce_rcv_sm_loop (S fuel) i =
  (let! q := get_port i in
   port_announce_rcv_sm_step i q;;
   let! q' := get_port i in
   if bool_decide (rcv_state (announce_receive_sm q) = rcv_state (announce_receive_sm q')) then ret tt
   else port_announce_rcv_sm_loop fuel i).
Proof. done. Qed.

Lemma role_lookup c i q : settled c → ports c !! i = Some q → ∃ r, selected_role c !! Z.to_nat (get_port_identity_number q) = Some r.
Proof.
  intros Hc Hq. rewrite (pi_number _ _ (io_ports _ (st_ok _ Hc) _ _ Hq)), Nat2Z.id. apply lookup_lt_is_Some_2.
  rewrite (io_roles _ (st_ok _ Hc)). apply lookup_lt_Some in Hq. lia.
Qed.

(** A port at rest to which a message is handed. *)
Record handed (i : nat) (q q1 : gptp_port) : Prop := {
  hd_inv : port_inv i q1;
  hd_identity : identity q1 = identity q;
  hd_ptr : rcvd_announce_ptr (announce_receive_sm q1) = true;
  hd_par : rcvd_announce_par (announce_receive_sm q1) = true;
  hd_params : params q1 = params q;
  hd_net : net_port q1 = net_port q;
  hd_tx : announce_transmit_sm q1 = announce_transmit_sm q;
  hd_state : port_announce_info_sm_state q1 = port_announce_info_sm_state q;
}.
Lemma handed_usable i q q1 : handed i q q1 → port_usable q1 = port_usable q.
Proof. intros H. unfold port_usable, get_port_oper. by rewrite (hd_net _ _ _ H), (hd_params _ _ _ H). Qed.

Definition hears (q : gptp_port) (i : nat) : bevent :=
  if port_usable q && qualified (get_port_identity_clock_id q) (message_of q)
  then BHear i (vector_of q) (steps_of q) (announce_properties (message_of q)) else BNone.

Lemma rcv_receive c i q q1 w Q :
  settled c → ports c !! i = Some q → w_st w = upd i q1 c → handed i q q1 → port_usable q = true →
  (∀ w', handled c i (bmca_step (hears q1 i) (abs c)) w w' → Q tt w') →
  wp (port_announce_rcv_sm_receive i) Q w.
Proof.
  intros Hc Hq Hw Hh Hu HQ. assert (Hi : is_Some (ports c !! i)) by (by rewrite Hq). pose proof Hh as [H1 H2 H3 H4 H5 H6 H7 H8].
  pose proof (st_ports _ Hc _ _ Hq) as Hr. pose proof Hr as [R1 R2 R3 R4 R5]. rewrite Hu in R5. destruct R5 as [R5 R6].
  set (w0 := w) in HQ. assert (Ht0 : announces (w_trace w) = announces (w_trace w0)) by done. clearbody w0.
  unfold port_announce_rcv_sm_receive, set_rcv_sm, set_params. enter w Hw. gstep. set (q2 := over announce_receive_sm _ q1).
  destruct (role_lookup c i q Hc Hq) as [r Hrole].
  assert (Hno : get_port_identity_number q2 = get_port_identity_number q) by (unfold get_port_identity_number; by rewrite <- H2).
  assert (Hq2u : port_usable q1 = true) by (by rewrite (handed_usable _ _ _ Hh)).
  assert (Habs1 : abs_port q1 = abs_port q) by (unfold abs_port; by rewrite H5).
  unfold hears in HQ. rewrite Hq2u in HQ. cbn [andb] in HQ.
  eapply (qualify_spec (upd i q2 c) i q2 r); [done|by apply upd_lookup|exact H3|by rewrite Hno|].
  cbv zeta. change (message_of q2) with (message_of q1). change (get_port_identity_clock_id q2) with (get_port_identity_clock_id q1).
  destruct (qualified (get_port_identity_clock_id q1) (message_of q1)) eqn:Eq.
  - intros w Hw Ht. set (c1 := follow (bool_decide (r = SLAVE_PORT)) (get_port_identity_clock_id q1) (message_of q1) c).
    destruct (follow_settled (bool_decide (r = SLAVE_PORT)) (get_port_identity_clock_id q1) (message_of q1) c Hc) as (F1 & F2 & F3 & F4).
    fold c1 in F1, F2, F3, F4.
    assert (Hw1 : w_st w = upd i q2 c1).
    { rewrite Hw. unfold c1, follow. by destruct (_ && _). }
    assert (Hi1 : is_Some (ports c1 !! i)) by (by rewrite F4). assert (Hq1 : ports c1 !! i = Some q) by (by rewrite F4).
    clear Hw. enter w Hw1. gstep. set (q3 := over announce_receive_sm _ _).
    eapply (info_hear c1 i q q3); [done|done|exact H2|reflexivity| |done|exact Habs1|].
    + split; try done.
      * eapply (port_inv_same i q1); [exact H1|done|done|apply (pi_vector _ _ H1)|apply (pi_rx _ _ H1)].
      * change (updt_info (params q1) = false). by rewrite H5.
      * unfold idle. change (announce_transmit_sm q3) with (announce_transmit_sm q1). by rewrite H7.
      * change (port_announce_info_sm_state q1 = PORT_ANNOUNCE_INFO_SM_STATE_CURRENT). by rewrite H8.
      * change (knows q1). unfold knows. by rewrite H5.
    + intros w' q' Hid' Hpost. apply HQ. lazymatch type of Hpost with event_post _ _ _ ?w1 _ => eapply (handled_start _ _ _ _ w1) end; [|eapply (handled_from c c1); [done|intros; by rewrite F4|]].
      { cbn [w_trace] in *. rewrite <- Ht0. exact Ht. }
      replace (bmca_step _ (abs c)) with (if accepts (vector_of q3) (port_priority (params q3)) then elect (b_set i (heard_port q3) (abs c1))
         else b_set i ((abs_port q) <| b_steps := steps_of q3 |>) (abs c1)); [by eapply handled_post|].
      rewrite F2. cbn [bmca_step]. rewrite (abs_port_at c i q Hq), <- Habs1. reflexivity.
  - gstep. set (q3 := over announce_receive_sm _ _).
    assert (Hr3 : rest_port q3).
    { split; [done| | |done|].
      - change (updt_info (params q1) = false). by rewrite H5.
      - unfold idle. change (announce_transmit_sm q3) with (announce_transmit_sm q1). by rewrite H7.
      - change (port_usable q3) with (port_usable q1). rewrite Hq2u. split.
        + change (port_announce_info_sm_state q1 = PORT_ANNOUNCE_INFO_SM_STATE_CURRENT). by rewrite H8.
        + change (knows q1). unfold knows. by rewrite H5. }
    assert (Hinv3 : port_inv i q3) by (eapply (port_inv_same i q1); [exact H1|done|done|apply (pi_vector _ _ H1)|apply (pi_rx _ _ H1)]).
    assert (Hu3 : port_usable q3 = port_usable q) by (rewrite Hu; exact Hq2u).
    destruct (settled_upd c i q q3 Hc Hq Hinv3 H2 Hr3 Habs1 Hu3) as (S1 & _).
    eapply (info_rest (upd i q3 c) i q3); [done|by apply upd_lookup|done|].
    apply HQ. cbn [bmca_step]. eapply (handled_upd c i q q3); try done. apply sends_refl. exact Ht0.
Qed.

Lemma rcv_handed c i q q1 w Q :
  settled c → ports c !! i = Some q → w_st w = upd i q1 c → handed i q q1 →
  (∀ w', handled c i (bmca_step (hears q1 i) (abs c)) w w' → Q tt w') →
  wp (port_announce_rcv_sm i) Q w.
Proof.
  intros Hc Hq Hw Hh HQ. assert (Hi : is_Some (ports c !! i)) by (by rewrite Hq). pose proof Hh as [H1 H2 H3 H4 H5 H6 H7 H8].
  pose proof (st_ports _ Hc _ _ Hq) as Hr. pose proof Hr as [R1 R2 R3 R4 R5].
  unfold port_announce_rcv_sm. rewrite wp_bind, wp_gets, wp_bind. rewrite Hw. erewrite wp_gptp_get_port by (rewrite Hw; by apply upd_lookup).
  rewrite (pi_static _ _ H1).
  change (begin (upd i q1 c)) with (begin c). change (instance_enable (upd i q1 c)) with (instance_enable c).
  change (external_port_configuration_enabled (upd i q1 c)) with (external_port_configuration_enabled c).
  rewrite (st_begin _ Hc), (io_enable _ (st_ok _ Hc)), (io_ext _ (st_ok _ Hc)), H4, (handed_usable _ _ _ Hh). cbn [negb orb andb].
  destruct (port_usable q) eqn:Hu; cbn [negb andb].
  - rewrite (rcv_loop_S 1), wp_bind. erewrite wp_gptp_get_port by (rewrite Hw; by apply upd_lookup). rewrite wp_bind.
    assert (E : port_announce_rcv_sm_step i q1 = port_announce_rcv_sm_receive i).
    { unfold port_announce_rcv_sm_step. rewrite H4, (handed_usable _ _ _ Hh), Hu, H5, R1. by destruct (rcv_state _). }
    rewrite E. eapply rcv_receive; try done. intros w1 Hha. pose proof (ha_settled _ _ _ _ _ Hha) as S1.
    assert (Hl : length (ports (w_st w1)) = length (ports c)).
    { rewrite <- (io_number _ (st_ok _ S1)), <- (io_number _ (st_ok _ Hc)). exact (f_equal numberPorts (ha_static _ _ _ _ _ Hha)). }
    destruct (lookup_lt_is_Some_2 (ports (w_st w1)) i) as [q2 Hq2]; [rewrite Hl; by eapply lookup_lt_Some|].
    rewrite wp_bind. erewrite wp_gptp_get_port by exact Hq2. destruct (bool_decide _); [by apply wp_ret, HQ|].
    eapply (rcv_loop_rest (w_st w1)); try done. by apply HQ.
  - destruct R5 as [R5 R6]. unfold port_announce_rcv_sm_discard, set_rcv_sm, set_params. set (w0 := w) in HQ.
    assert (Ht0 : announces (w_trace w) = announces (w_trace w0)) by done. clearbody w0. enter w Hw. gstep. set (q3 := over announce_receive_sm _ _).
    apply HQ. unfold hears. rewrite (handed_usable _ _ _ Hh), Hu. cbn [andb bmca_step].
    eapply (handled_upd c i q q3); [done|done| |exact H2| | | |done|by apply sends_refl].
    + eapply (port_inv_same i q1); [exact H1|done|done|apply (pi_vector _ _ H1)|apply (pi_rx _ _ H1)].
    + split; [done| | |done|].
      * change (updt_info (params q1) = false). by rewrite H5.
      * unfold idle. change (announce_transmit_sm q3) with (announce_transmit_sm q1). by rewrite H7.
      * change (port_usable q3) with (port_usable q1). rewrite (handed_usable _ _ _ Hh), Hu. split.
        -- change (port_announce_info_sm_state q1 = PORT_ANNOUNCE_INFO_SM_STATE_DISABLED). by rewrite H8.
        -- change (info_is (params q1) = SPANNING_TREE_DISABLED). by rewrite H5.
    + change (abs_port q1 = abs_port q). unfold abs_port. by rewrite H5.
    + change (port_usable q1 = port_usable q). by rewrite (handed_usable _ _ _ Hh).
Qed.

(** A port that differs from one at rest in what makes it usable, at most. *)
Record like (i : nat) (q q1 : gptp_port) : Prop := {
  lk_inv : port_inv i q1;
  lk_identity : identity q1 = identity q;
  lk_abs : abs_port q1 = abs_port q;
  lk_idle : idle q1;
  lk_msg : rcvd_msg (params q1) = false;
  lk_updt : updt_info (params q1) = false;
  lk_par : rcvd_announce_par (announce_receive_sm q1) = false;
  lk_state : port_announce_info_sm_state q1 = port_announce_info_sm_state q;
  lk_info : info_is (params q1) = info_is (params q);
}.
Lemma like_rest i q q1 : rest_port q → like i q q1 → port_usable q1 = port_usable q → rest_port q1.
Proof.
  intros [R1 R2 R3 R4 R5] [L1 L2 L3 L4 L5 L6 L7 L8 L9] Hu. split; [done..|]. rewrite Hu. unfold knows. by rewrite L8, L9.
Qed.

Definition usable_event (i : nat) (before after : bool) : bevent :=
  match before, after with false, true => BUp i | true, false => BGone i | _, _ => BNone end.

Lemma usable_change c i q q1 w Q :
  settled c → ports c !! i = Some q → w_st w = upd i q1 c → like i q q1 →
  (∀ w', handled c i (bmca_step (usable_event i (port_usable q) (port_usable q1)) (abs c)) w w' → Q tt w') →
  wp (port_announce_info_sm i PORT_ANNOUNCE_INFO_SM_EVENT_RUN) Q w.
Proof.
  intros Hc Hq Hw Hl HQ. assert (Hi : is_Some (ports c !! i)) by (by rewrite Hq). pose proof Hl as [L1 L2 L3 L4 L5 L6 L7 L8 L9].
  pose proof (st_ports _ Hc _ _ Hq) as Hr. pose proof (rp_state _ Hr) as R5. pose proof (abs_port_at c i q Hq) as Hb.
  destruct (port_usable q) eqn:Hu, (port_usable q1) eqn:Hu1; cbn [usable_event bmca_step] in HQ; rewrite ?Hb in HQ.
  - assert (Hr1 : rest_port q1) by (eapply like_rest; [exact Hr|exact Hl|congruence]).
    destruct (settled_upd c i q q1 Hc Hq L1 L2 Hr1 L3) as (S1 & _); [congruence|].
    eapply (info_rest (upd i q1 c) i q1); [done|by apply upd_lookup|done|].
    apply HQ. eapply (handled_upd c i q q1); try done; [congruence|by apply sends_refl].
  - eapply (info_down c i q q1); try done.
    { destruct R5 as [_ R5]. unfold knows. by rewrite L9. }
    intros w' a Hp. apply HQ. rewrite <- L3. by eapply handled_post.
  - eapply (info_up c i q q1); try done.
    { rewrite L8. apply R5. }
    intros w' Hp. apply HQ. rewrite <- L3. by eapply handled_post.
  - assert (Hr1 : rest_port q1) by (eapply like_rest; [exact Hr|exact Hl|congruence]).
    destruct (settled_upd c i q q1 Hc Hq L1 L2 Hr1 L3) as (S1 & _); [congruence|].
    eapply (info_rest (upd i q1 c) i q1); [done|by apply upd_lookup|done|].
    apply HQ. eapply (handled_upd c i q q1); try done; [congruence|by apply sends_refl].
Qed.

(** A port of the instance that is left. *)
Lemma handled_port c i b w w' j q : settled c → handled c i b w w' → ports c !! j = Some q → ∃ q', ports (w_st w') !! j = Some q'.
Proof.
  intros Hc H Hq. pose proof (ha_settled _ _ _ _ _ H) as S1. apply lookup_lt_is_Some_2.
  rewrite <- (io_number _ (st_ok _ S1)), (f_equal numberPorts (ha_static _ _ _ _ _ H) : numberPorts (w_st w') = numberPorts c),
    (io_number _ (st_ok _ Hc)). by eapply lookup_lt_Some.
Qed.

(** ** Announce *)

(** The port when a message of [len] bytes has been copied. *)
Definition store_announce (q : gptp_port) (data : list Z) (len : Z) : gptp_port :=
  q <| announce_rx := take (Z.to_nat len) data ++ drop (Z.to_nat len) (announce_rx q) |>.

Lemma handle_announce_spec c i q data len w Q :
  settled c → ports c !! i = Some q → w_st w = c → 0 ≤ len ≤ Z.of_nat (length data) → Forall is_byte data →
  (∀ w', handled c i (bmca_step (if len <=? sizeof_announce_pdu then hears (store_announce q data len) i else BNone) (abs c)) w w' → Q tt w') →
  wp (gptp_handle_announce i data len) Q w.
Proof.
  intros Hc Hq Hw Hlen Hdata HQ. assert (Hi : is_Some (ports c !! i)) by (by rewrite Hq).
  set (w0 := w) in HQ. assert (Ht0 : announces (w_trace w) = announces (w_trace w0)) by done. clearbody w0.
  assert (Hw' : w_st w = upd i q c) by (by rewrite upd_id). clear Hw.
  pose proof (io_ports _ (st_ok _ Hc) _ _ Hq) as Hinv. pose proof (st_ports _ Hc _ _ Hq) as Hr.
  unfold gptp_handle_announce, set_stats. enter w Hw'. gstep.
  change (gm_id_static (over stats _ q)) with (gm_id_static q). rewrite (pi_static _ _ Hinv).
  destruct (len <=? sizeof_announce_pdu) eqn:Hle.
  - apply Z.leb_le in Hle. unfold sizeof_announce_pdu in Hle. rewrite (proj2 (Z.ltb_ge _ _)) by lia. gstep.
    set (q1 := over announce_receive_sm _ _).
    assert (Hrx : length (announce_rx q1) = 196%nat ∧ Forall is_byte (announce_rx q1)).
    { destruct (pi_rx _ _ Hinv) as [Hl Hb].
      change (announce_rx q1) with (take (Z.to_nat len) data ++ drop (Z.to_nat len) (announce_rx q)). split.
      - rewrite length_app, length_take, length_drop. lia.
      - apply list.Forall_app_2; [by apply list.Forall_take|by apply list.Forall_drop]. }
    assert (Hh : handed i q q1).
    { split; try done. eapply (port_inv_same i q); [done|done|done|apply Hinv|exact Hrx]. }
    eapply rcv_handed; [done|done|reflexivity|exact Hh|]. intros w' H. apply HQ.
    eapply handled_start; [|exact H]. exact Ht0.
  - gstep. set (q1 := over stats _ _). apply HQ. cbn [bmca_step]. eapply (handled_upd c i q q1); try done; [| |by apply sends_refl].
    + eapply (port_inv_same i q); try done; apply Hinv.
    + eapply like_rest; [exact Hr| |done]. destruct Hr. split; try done. eapply (port_inv_same i q); try done; apply Hinv.
Qed.

(** ** Transmission and its interval *)

Lemma erase_tx_like i q q' : port_inv i q → rest_port q → erase_tx q' = erase_tx q → idle q' →
  like i q q' ∧ port_usable q' = port_usable q ∧ identity q' = identity q.
Proof.
  intros Hinv [R1 R2 R3 R4 R5] He Hi. pose proof (erase_tx_params _ _ He) as Hp. pose proof (f_equal identity He) as Hid. cbn in Hid.
  split; [|split; [by apply erase_tx_usable|done]]. split; try done.
  - eapply (port_inv_same i q); [done|done|exact (f_equal gm_id_static He)|rewrite Hp; apply Hinv|].
    rewrite (f_equal announce_rx He : announce_rx q' = announce_rx q). apply Hinv.
  - unfold abs_port. by rewrite Hp.
  - by rewrite Hp.
  - by rewrite Hp.
  - rewrite <- R4. exact (f_equal (λ q, rcvd_announce_par (announce_receive_sm q)) He).
  - by apply erase_tx_state.
  - by rewrite Hp.
Qed.

Lemma truthful_upd c i j q q' x : truthful (upd j q' c) i q x ↔ truthful c i q x.
Proof. done. Qed.

(** The transmit machine of a port at rest: nothing but its port and nothing to
    elect. *)
Lemma transmit_handled c i q e w Q :
  settled c → ports c !! i = Some q → w_st w = c →
  (∀ w' q', w_st w' = upd i q' c → erase_tx q' = erase_tx q → idle q' → sent_one c i q (tx_due c q e) w w' →
     handled c i (abs c) w w' → Q tt w') →
  wp (port_announce_transmit_sm i e) Q w.
Proof.
  intros Hc Hq Hw HQ. assert (Hi : is_Some (ports c !! i)) by (by rewrite Hq).
  pose proof (io_ports _ (st_ok _ Hc) _ _ Hq) as Hinv. pose proof (st_ports _ Hc _ _ Hq) as Hr.
  destruct (role_lookup c i q Hc Hq) as [r Hrole].
  eapply wp_mono; [eapply (transmit_spec c i Hi q r); [by rewrite upd_id|exact Hrole|apply (pi_static _ _ Hinv)|apply (st_begin _ Hc)|
    apply (io_enable _ (st_ok _ Hc))]|].
  intros [] w' (q' & Hw' & He & Hid & Hs). apply (HQ w' q'); try done.
  destruct (erase_tx_like i q q' Hinv Hr He Hid) as (Hl & Hu & Hii).
  eapply (handled_upd c i q q'); [done|done|apply Hl|done|by eapply like_rest|apply Hl|done|done|].
  eapply sends_mono; [|by eapply tx_sends]. intros x Hx. rewrite Hw'. exists i, q'. split; [by apply upd_lookup|].
  apply truthful_upd. eapply truthful_erase; [symmetry; exact He|exact Hx].
Qed.

(** What the interval machine leaves alone. *)
Record ival (q q' : gptp_port) : Prop := {
  iv_identity : identity q' = identity q;
  iv_static : gm_id_static q' = gm_id_static q;
  iv_rx : announce_rx q' = announce_rx q;
  iv_net : net_port q' = net_port q;
  iv_rcv : announce_receive_sm q' = announce_receive_sm q;
  iv_idle : idle q → idle q';
  iv_state : port_announce_info_sm_state q' = port_announce_info_sm_state q;
  iv_params : rcvd_msg (params q') = rcvd_msg (params q) ∧ updt_info (params q') = updt_info (params q) ∧
    info_is (params q') = info_is (params q) ∧ port_priority (params q') = port_priority (params q) ∧
    message_steps_removed (params q') = message_steps_removed (params q) ∧ ann (params q') = ann (params q) ∧
    ptp_port_enabled (params q') = ptp_port_enabled (params q) ∧ as_capable (params q') = as_capable (params q);
}.
Ltac ival := split; try reflexivity; [intros Hid; exact Hid|repeat split; reflexivity].

Lemma ival_trans q q1 q2 : ival q q1 → ival q1 q2 → ival q q2.
Proof.
  intros [A1 A2 A3 A4 A5 A6 A7 A8] [B1 B2 B3 B4 B5 B6 B7 B8]. split; try congruence; [by auto|].
  destruct A8 as (?&?&?&?&?&?&?&?), B8 as (?&?&?&?&?&?&?&?). split_and!; congruence.
Qed.
Lemma ival_like i q q1 q' : like i q q1 → ival q1 q' → like i q q' ∧ port_usable q' = port_usable q1.
Proof.
  intros [L1 L2 L3 L4 L5 L6 L7 L8 L9] [A1 A2 A3 A4 A5 A6 A7 (B1 & B2 & B3 & B4 & B5 & B6 & B7 & B8)]. split; [split|].
  - eapply (port_inv_same i q1); [done|done|done|rewrite B4; apply L1|rewrite A3; apply L1].
  - congruence.
  - rewrite <- L3. unfold abs_port. by rewrite B3, B4, B5, B6.
  - by apply A6.
  - congruence.
  - congruence.
  - by rewrite A5.
  - congruence.
  - congruence.
  - unfold port_usable, get_port_oper. by rewrite A4, B7, B8.
Qed.
Lemma rest_like i q : port_inv i q → rest_port q → like i q q.
Proof. intros H [R1 R2 R3 R4 R5]. by split. Qed.

Section interval.
Context (c : gptp_instance) (i : nat) (Hi : is_Some (ports c !! i)).

Definition ival_goal (q : gptp_port) (w : gworld) (Q : unit → gworld → Prop) : Prop :=
  ∀ q' w', w_st w' = upd i q' c → announces (w_trace w') = announces (w_trace w) → ival q q' → Q tt w'.

Lemma apply_log_spec q log w Q : w_st w = upd i q c → ival_goal q w Q → wp (apply_log_announce_interval i log) Q w.
Proof.
  intros Hw HQ. unfold apply_log_announce_interval, set_params. enter w Hw. gstep.
  set (q1 := over params _ q). eapply (transmit_restart_spec c i Hi q1); [done|]. intros w Hw Ht. enter w Hw. gstep.
  eapply HQ; [reflexivity|exact Ht|]. ival.
Qed.

Lemma interval_apply_spec q w Q : w_st w = upd i q c → ival_goal q w Q → wp (port_announce_interval_setting_sm_apply i) Q w.
Proof.
  intros Hw HQ. unfold port_announce_interval_setting_sm_apply. rewrite wp_bind.
  erewrite wp_gptp_get_port by (rewrite Hw; by apply upd_lookup). rewrite wp_bind.
  assert (Hend : ∀ (m : M gptp_call gptp_instance unit), (∀ Q', ival_goal q w Q' → wp m Q' w) →
    wp m (λ _ w1, wp (set_params i (λ p, p <| announce_slow_down :=
      u_scaled_ns_to_u64 (old_announce_interval p) <? u_scaled_ns_to_u64 (announce_interval p) |>)) Q w1) w).
  { intros m Hm. apply Hm. intros q1 w1 Hw1 Ht1 Hv1. unfold set_params. erewrite wp_gptp_set_port by (rewrite Hw1; by apply upd_lookup).
    eapply HQ; [cbn [w_st]; by rewrite Hw1, upd_upd|exact Ht1|]. eapply ival_trans; [exact Hv1|]. ival. }
  destruct (_ =? -128); [|destruct (_ =? 126); [|destruct (_ =? 127)]]; apply Hend; intros Q' HQ'.
  - rewrite wp_ret. eapply HQ'; [exact Hw|done|]. ival.
  - by eapply apply_log_spec.
  - clear HQ Hend. unfold stop_transmit_timer, set_tx_sm, set_params. enter w Hw. gstep. eapply HQ'; [reflexivity|done|]. ival.
  - by eapply apply_log_spec.
Qed.

Lemma interval_spec q r w Q :
  w_st w = upd i q c → selected_role c !! Z.to_nat (get_port_identity_number q) = Some r → ival_goal q w Q →
  wp (port_announce_interval_setting_sm i) Q w.
Proof.
  intros Hw Hr HQ. unfold port_announce_interval_setting_sm. rewrite wp_bind, wp_gets, wp_bind.
  erewrite wp_gptp_get_port by (rewrite Hw; by apply upd_lookup). destruct (_ || _).
  - unfold port_announce_interval_setting_sm_not_enabled, set_params, set_ais_sm. enter w Hw. gstep.
    rewrite wp_when. destruct (use_mgt_settable_log_announce_interval q); gstep; (eapply HQ; [reflexivity|done|]; ival).
  - assert (Hset : wp (when (rcvd_signaling_msg2 (announce_interval_sm q)) (port_announce_interval_setting_sm_set_interval i)) Q w).
    { rewrite wp_when. destruct (rcvd_signaling_msg2 _); [|eapply HQ; [exact Hw|done|]; ival].
      unfold port_announce_interval_setting_sm_set_interval. rewrite wp_bind, wp_gets, wp_bind.
      erewrite wp_gptp_get_port by (rewrite Hw; by apply upd_lookup). rewrite wp_bind.
      assert (Hrest : ∀ b : bool, wp (when (negb b && negb (use_mgt_settable_log_announce_interval q)) (port_announce_interval_setting_sm_apply i);;
         set_ais_sm i (λ s, s <| rcvd_signaling_msg2 := false |> <| ais_state := PORT_ANNOUNCE_INTERVAL_SM_STATE_SET_INTERVAL |>)) Q w).
      { intros b. rewrite wp_bind, wp_when. assert (Hlast : ∀ q1 w1, w_st w1 = upd i q1 c → announces (w_trace w1) = announces (w_trace w) → ival q q1 →
          wp (set_ais_sm i (λ s, s <| rcvd_signaling_msg2 := false |> <| ais_state := PORT_ANNOUNCE_INTERVAL_SM_STATE_SET_INTERVAL |>)) Q w1).
        { intros q1 w1 Hw1 Ht1 Hv1. unfold set_ais_sm. erewrite wp_gptp_set_port by (rewrite Hw1; by apply upd_lookup).
          eapply HQ; [cbn [w_st]; by rewrite Hw1, upd_upd|exact Ht1|]. eapply ival_trans; [exact Hv1|]. ival. }
        destruct (_ && _); [|eapply Hlast; [exact Hw|done|]; ival]. eapply interval_apply_spec; [exact Hw|].
        intros q1 w1 Hw1 Ht1 Hv1. by eapply Hlast. }
      destruct (profile _ =? _).
      - rewrite wp_bind. erewrite wp_get_role by (rewrite Hw; exact Hr). rewrite wp_ret. apply Hrest.
      - rewrite wp_ret. apply Hrest. }
    destruct (ais_state (announce_interval_sm q)); [|exact Hset..].
    clear Hset. unfold port_announce_interval_setting_sm_initialize, set_params, set_ais_sm. enter w Hw. gstep.
    eapply HQ; [reflexivity|done|]. ival.
Qed.
End interval.
End events.
