(* ===== verification/GptpRun.v ===== *)
(** * gPTP: every event

    Timers, capability and link changes, and the refinement: each event of an
    instance at rest is a step of the abstract algorithm of GptpElect.v. *)

From S2P Require Import Prelude Timer GptpBmca Gptp GptpSpec GptpElect GptpSelect GptpSettle GptpEvents.

(** ** The abstract event *)

Definition with_capable (q : gptp_port) (b : bool) : gptp_port := q <| params ::= λ p, p <| as_capable := b |> |>.
Definition with_neighbor (q : gptp_port) (b : bool) : gptp_port := q <| params ::= λ p, p <| neighbor_gptp_capable := b |> |>.
Definition with_link (q : gptp_port) (b : bool) : gptp_port := q <| net_port ::= λ n, n <| port_oper := b |> |>.

(** The port once its capability has been determined anew. *)
Definition capable_port (c : gptp_instance) (across : bool) (q : gptp_port) : gptp_port :=
  with_capable q
    (if across && (neighbor_gptp_capable (params q) || (domain c =? PTP_DOMAIN_0))
     then as_capable (params q) || ptp_port_enabled (params q) else false).

Definition event_port (e : gptp_event) : nat :=
  match e with
  | EvAnnounce i _ _ | EvAnnounceTimeout i | EvSyncTimeout i | EvTransmit i | EvIntervalRequest i _ | EvAsCapable i _
  | EvNeighbor i _ _ | EvLink i _ => i
  end.

Definition bevent_at (c : gptp_instance) (e : gptp_event) (q : gptp_port) : bevent :=
  match e with
  | EvAnnounce i data len => if len <=? sizeof_announce_pdu then hears (store_announce q data len) i else BNone
  | EvAnnounceTimeout i => if port_usable q then BTimeout i else BNone
  | EvSyncTimeout i => if port_usable q && gm_present c then BTimeout i else BNone
  | EvTransmit _ | EvIntervalRequest _ _ => BNone
  | EvAsCapable i across => usable_event i (port_usable q) (port_usable (capable_port c across q))
  | EvNeighbor i b across =>
      if Bool.eqb (neighbor_gptp_capable (params q)) b then BNone
      else usable_event i (port_usable q) (port_usable (capable_port c across (with_neighbor q b)))
  | EvLink i up => usable_event i (port_usable q) (port_usable (with_link q up))
  end.
Definition bevent_of (c : gptp_instance) (e : gptp_event) : bevent :=
  match ports c !! event_port e with Some q => bevent_at c e q | None => BNone end.

(** An event of one of [n] ports; the network hands over [len] bytes. *)
Definition event_ok (n : nat) (e : gptp_event) : Prop :=
  (event_port e < n)%nat ∧
  match e with EvAnnounce _ data len => 0 ≤ len ≤ Z.of_nat (length data) ∧ Forall is_byte data | _ => True end.

Section run.
Context `{!Platform gptp_call}.
Implicit Types (w : gworld) (c : gptp_instance) (Q : unit → gworld → Prop).

(** ** Small changes of a port at rest *)

Lemma like_stats i q f : port_inv i q → rest_port q → like i q (q <| stats ::= f |>).
Proof.
  intros H [R1 R2 R3 R4 R5]. split; try done. eapply (port_inv_same i q); try done; apply H.
Qed.
Lemma like_params i q f :
  port_inv i q → rest_port q →
  (∀ p, rcvd_msg (f p) = rcvd_msg p ∧ updt_info (f p) = updt_info p ∧ info_is (f p) = info_is p ∧
    port_priority (f p) = port_priority p ∧ message_steps_removed (f p) = message_steps_removed p ∧ ann (f p) = ann p) →
  like i q (q <| params ::= f |>).
Proof.
  intros H [R1 R2 R3 R4 R5] Hf. destruct (Hf (params q)) as (F1 & F2 & F3 & F4 & F5 & F6).
  split; try done.
  - eapply (port_inv_same i q); try done; [|apply H]. change (vector_ok (port_priority (f (params q)))). rewrite F4. apply H.
  - unfold abs_port. cbn. by rewrite F3, F4, F5, F6.
  - change (rcvd_msg (f (params q)) = false). by rewrite F1.
  - change (updt_info (f (params q)) = false). by rewrite F2.
Qed.
Lemma like_trans_link i q q1 up : like i q q1 → like i q (with_link q1 up).
Proof. intros [L1 L2 L3 L4 L5 L6 L7 L8 L9]. split; try done. eapply (port_inv_same i q1); try done; apply L1. Qed.
Lemma like_neighbor i q b : port_inv i q → rest_port q → like i q (with_neighbor q b).
Proof. intros H Hr. by apply like_params. Qed.
Lemma like_capable i q q1 b : like i q q1 → like i q (with_capable q1 b).
Proof. intros [L1 L2 L3 L4 L5 L6 L7 L8 L9]. split; try done. eapply (port_inv_same i q1); try done; apply L1. Qed.

(** ** Timers *)

Lemma timeout_spec c i q f e w Q :
  settled c → ports c !! i = Some q → w_st w = c →
  (∀ w', handled c i (bmca_step (if port_usable q && timeout_counts e c then BTimeout i else BNone) (abs c)) w w' → Q tt w') →
  wp (set_stats i f;; port_announce_info_sm i e) Q w.
Proof.
  intros Hc Hq Hw HQ. assert (Hi : is_Some (ports c !! i)) by (by rewrite Hq).
  pose proof (io_ports _ (st_ok _ Hc) _ _ Hq) as Hinv. pose proof (st_ports _ Hc _ _ Hq) as Hr.
  set (w0 := w) in HQ. assert (Ht0 : announces (w_trace w) = announces (w_trace w0)) by done. clearbody w0.
  assert (Hw' : w_st w = upd i q c) by (by rewrite upd_id). clear Hw. unfold set_stats. enter w Hw'. gstep.
  set (q1 := over stats _ q). pose proof (like_stats i q f Hinv Hr) as Hl. fold q1 in Hl.
  assert (Hr1 : rest_port q1) by (by eapply like_rest).
  eapply (info_timeout c i q q1); try done; [apply Hl|]. change (port_usable q1) with (port_usable q).
  change (info_is (params q1)) with (info_is (params q)).
  assert (Hrec : bool_decide (b_info (abs_port q) = Received) = bool_decide (info_is (params q) = SPANNING_TREE_RECEIVED)).
  { apply bool_decide_ext. cbn. by destruct (info_is (params q)). }
  assert (Hsame : sends (tells (upd i q1 c)) w0 (World (upd i q1 c) k tr)) by (by apply sends_refl).
  destruct (port_usable q && timeout_counts e c); cbn [andb bmca_step] in *.
  - rewrite (abs_port_at c i q Hq), Hrec in HQ. destruct (bool_decide (info_is (params q) = _)).
    + intros w' Hp. apply HQ. eapply handled_start; [|by eapply handled_post]. exact Ht0.
    + apply HQ. eapply (handled_upd c i q q1); try done; apply Hl.
  - apply HQ. eapply (handled_upd c i q q1); try done; apply Hl.
Qed.

(** ** Compositions *)

(** Two changes of port [i], the second of which changes nothing to elect and
    keeps the messages of the first true. *)
Lemma handled_trans c i b q q' w w1 w2 :
  handled c i b w w1 → ports (w_st w1) !! i = Some q → w_st w2 = upd i q' (w_st w1) → erase_tx q' = erase_tx q →
  handled (w_st w1) i (abs (w_st w1)) w1 w2 → handled c i b w w2.
Proof.
  intros [A1 A2 A3 A4 A5] Hq Hw2 He [B1 B2 B3 B4 B5]. split; [done|congruence|congruence| |].
  - intros j p Hj Hp. destruct (A4 _ _ Hj Hp) as (p1 & Hp1 & E1). destruct (B4 _ _ Hj Hp1) as (p2 & Hp2 & E2).
    exists p2. split; [done|]. by rewrite E2.
  - eapply sends_trans; [|exact B5]. eapply sends_mono; [|exact A5]. intros x (j & p & Hp & Hx). rewrite Hw2.
    destruct (decide (i = j)) as [<-|Hj].
    + exists i, q'. split; [apply upd_lookup; by rewrite Hq|]. apply truthful_upd. eapply truthful_erase; [symmetry; exact He|].
      rewrite Hq in Hp. by injection Hp as ->.
    + exists j, p. split; [by rewrite upd_lookup_ne|done].
Qed.

(** The information machine, then the receive machine, after a change of what
    makes a port usable. *)
Lemma fsm_spec c i q q1 w Q :
  settled c → ports c !! i = Some q → w_st w = upd i q1 c → like i q q1 →
  (∀ w', handled c i (bmca_step (usable_event i (port_usable q) (port_usable q1)) (abs c)) w w' → Q tt w') →
  wp (gptp_as_capable_update_fsm i) Q w.
Proof.
  intros Hc Hq Hw Hl HQ. unfold gptp_as_capable_update_fsm. rewrite wp_bind. eapply (usable_change c i q q1); try done.
  intros w1 H1. destruct (handled_port _ _ _ _ _ _ _ Hc H1 Hq) as [q2 Hq2].
  eapply (rcv_rest (w_st w1) i q2); [apply (ha_settled _ _ _ _ _ H1)|done|done|]. by apply HQ.
Qed.

(** ** Capability *)

Lemma usable_capable q b : port_usable (with_capable q b) = get_port_oper q && ptp_port_enabled (params q) && b.
Proof. done. Qed.

Lemma port_params_ipc_spec i q w Q :
  ports (w_st w) !! i = Some q →
  (∀ w', w_st w' = w_st w → announces (w_trace w') = announces (w_trace w) → Q tt w') → wp (gptp_ipc_gptp_port_params i) Q w.
Proof.
  intros Hq HQ. destruct w as [c k tr]. unfold gptp_ipc_gptp_port_params. rewrite wp_bind. erewrite wp_gptp_get_port by exact Hq.
  rewrite wp_bind, wp_perform. destruct (_ =? 0); [by apply HQ|]. rewrite wp_bind, wp_perform, wp_when.
  destruct (_ <? 0); [|by apply HQ]. rewrite wp_bind, wp_perform. by apply HQ.
Qed.

(** A port that is as usable as it was. *)
Lemma same_handled c i q q1 w0 w :
  settled c → ports c !! i = Some q → w_st w = upd i q1 c → like i q q1 → port_usable q1 = port_usable q →
  announces (w_trace w) = announces (w_trace w0) → handled c i (abs c) w0 w.
Proof.
  intros Hc Hq Hw Hl Hu Ht. eapply (handled_upd c i q q1); try done; try apply Hl; [|by apply sends_refl].
  eapply like_rest; [by apply (st_ports _ Hc i)|done|done].
Qed.

Definition same_or_fsm c i q q2 w w' : Prop :=
  handled c i (bmca_step (usable_event i (port_usable q) (port_usable q2)) (abs c)) w w'.

Lemma capable_set_spec c i q q1 b w Q :
  settled c → ports c !! i = Some q → w_st w = upd i q1 c → like i q q1 → port_usable q1 = port_usable q →
  (∀ w', same_or_fsm c i q (with_capable q1 b) w w' → Q tt w') →
  wp (set_params i (λ p, p <| as_capable := b |>);; gptp_as_capable_update_fsm i) Q w.
Proof.
  intros Hc Hq Hw Hl Hu HQ. assert (Hi : is_Some (ports c !! i)) by (by rewrite Hq).
  set (w0 := w) in HQ. assert (Ht0 : announces (w_trace w) = announces (w_trace w0)) by done. clearbody w0.
  unfold set_params. enter w Hw. gstep. eapply (fsm_spec c i q (with_capable q1 b)); [done|done|reflexivity|by apply like_capable|].
  intros w' H. apply HQ. eapply handled_start; [|exact H]; exact Ht0.
Qed.

Lemma update_as_capable_spec c i q q1 across w Q :
  settled c → ports c !! i = Some q → w_st w = upd i q1 c → like i q q1 → port_usable q1 = port_usable q →
  (∀ w', same_or_fsm c i q (capable_port c across q1) w w' → Q tt w') →
  wp (gptp_update_as_capable i across) Q w.
Proof.
  intros Hc Hq Hw Hl Hu HQ. assert (Hi : is_Some (ports c !! i)) by (by rewrite Hq).
  assert (Hq1 : ports (w_st w) !! i = Some q1) by (rewrite Hw; by apply upd_lookup).
  unfold gptp_update_as_capable. rewrite wp_bind, wp_gets, wp_bind. erewrite wp_gptp_get_port by exact Hq1. rewrite wp_bind.
  assert (Hend : ∀ w1, same_or_fsm c i q (capable_port c across q1) w w1 → wp (gptp_ipc_gptp_port_params i) Q w1).
  { intros w1 H1. destruct (handled_port _ _ _ _ _ _ _ Hc H1 Hq) as [q2 Hq2].
    eapply port_params_ipc_spec; [exact Hq2|]. intros w2 Hw2 Ht2. apply HQ. destruct H1 as [E1 E2 E3 E4 (l & Hl1 & HF)].
    split; rewrite ?Hw2; try done. exists l. by rewrite Ht2. }
  replace (domain (w_st w)) with (domain c) by (by rewrite Hw). unfold capable_port in Hend.
  assert (Hsame : ∀ b, as_capable (params q1) = b ∨ ptp_port_enabled (params q1) = false → same_or_fsm c i q (with_capable q1 b) w w).
  { intros b Hb. assert (E : port_usable (with_capable q1 b) = port_usable q).
    { rewrite <- Hu, usable_capable. unfold port_usable. destruct Hb as [-> | ->]; [done|]. by rewrite !andb_false_r. }
    unfold same_or_fsm. rewrite E. replace (usable_event i _ _) with BNone by (by destruct (port_usable q)).
    by eapply (same_handled c i q q1). }
  destruct (across && _).
  - unfold gptp_as_capable_up. rewrite wp_bind. erewrite wp_gptp_get_port by exact Hq1. rewrite wp_when.
    destruct (as_capable (params q1)) eqn:Ea; cbn [negb andb orb] in *; [apply Hend, Hsame; by left|].
    destruct (ptp_port_enabled (params q1)) eqn:Ee; [|apply Hend, Hsame; by right].
    by eapply (capable_set_spec c i q q1).
  - unfold gptp_as_capable_down. rewrite wp_bind. erewrite wp_gptp_get_port by exact Hq1. rewrite wp_when.
    destruct (as_capable (params q1)) eqn:Ea; [|apply Hend, Hsame; by left].
    by eapply (capable_set_spec c i q q1).
Qed.

Lemma neighbor_spec c i q b across w Q :
  settled c → ports c !! i = Some q → w_st w = c →
  (∀ w', handled c i (bmca_step (bevent_at c (EvNeighbor i b across) q) (abs c)) w w' → Q tt w') →
  wp (gptp_handle (EvNeighbor i b across)) Q w.
Proof.
  intros Hc Hq Hw HQ. assert (Hi : is_Some (ports c !! i)) by (by rewrite Hq).
  pose proof (io_ports _ (st_ok _ Hc) _ _ Hq) as Hinv. pose proof (st_ports _ Hc _ _ Hq) as Hr.
  set (w0 := w) in HQ. assert (Ht0 : announces (w_trace w) = announces (w_trace w0)) by done. clearbody w0.
  assert (Hw' : w_st w = upd i q c) by (by rewrite upd_id). clear Hw. enter w Hw'. cbn [bevent_at] in HQ.
  assert (Hset : ∀ b, neighbor_gptp_capable (params q) = negb b →
    (∀ w', handled c i (bmca_step (usable_event i (port_usable q) (port_usable (capable_port c across (with_neighbor q b)))) (abs c)) w0 w' → Q tt w') →
    wp (set_params i (λ p, p <| neighbor_gptp_capable := b |>);; gptp_update_as_capable i across) Q (World (upd i q c) k tr)).
  { intros b' _ HQ'. unfold set_params. gstep. eapply (update_as_capable_spec c i q (with_neighbor q b')); [done|done|reflexivity| |done|].
    - by apply like_neighbor.
    - intros w' H. apply HQ'. eapply handled_start; [|exact H]; exact Ht0. }
  assert (Hnone : handled c i (abs c) w0 (World (upd i q c) k tr)).
  { eapply (same_handled c i q q); try done. by apply rest_like. }
  destruct b; cbn [gptp_handle]; unfold gptp_neighbor_gptp_capable_up, gptp_neighbor_gptp_capable_down; gstep; rewrite wp_when;
    destruct (neighbor_gptp_capable (params q)) eqn:En; cbn [negb Bool.eqb] in *; try (by apply HQ); by eapply Hset.
Qed.

(** ** Link changes and requests *)

(** The machines of a port whose usability may have changed. *)
Lemma port_update_spec c i q q1 w Q :
  settled c → ports c !! i = Some q → w_st w = upd i q1 c → like i q q1 →
  (∀ w', same_or_fsm c i q q1 w w' → Q tt w') → wp (gptp_port_update_fsm i) Q w.
Proof.
  intros Hc Hq Hw Hl HQ. assert (Hi : is_Some (ports c !! i)) by (by rewrite Hq). unfold gptp_port_update_fsm.
  destruct (role_lookup c i q Hc Hq) as [r Hrole]. rewrite wp_bind.
  assert (Hno : get_port_identity_number q1 = get_port_identity_number q) by (unfold get_port_identity_number; by rewrite (lk_identity _ _ _ Hl)).
  eapply (interval_spec c i Hi q1 r); [done|by rewrite Hno|]. intros q2 w2 Hw2 Ht2 Hv2.
  destruct (ival_like i q q1 q2 Hl Hv2) as [Hl2 Hu2].
  rewrite wp_bind. eapply (usable_change c i q q2); [done|done|exact Hw2|exact Hl2|]. intros w3 H3.
  rewrite Hu2 in H3. destruct (handled_port _ _ _ _ _ _ _ Hc H3 Hq) as [q3 Hq3]. pose proof (ha_settled _ _ _ _ _ H3) as Hs3.
  rewrite wp_bind. eapply (rcv_rest (w_st w3) i q3); [done|done|done|].
  eapply (transmit_handled (w_st w3) i q3); [done|done|done|]. intros w4 q4 Hw4 He4 _ _ H4. apply HQ.
  eapply (handled_start _ _ _ _ w2); [exact Ht2|]. by eapply (handled_trans c i _ q3 q4 w2 w3 w4).
Qed.

Lemma link_spec c i q up w Q :
  settled c → ports c !! i = Some q → w_st w = c →
  (∀ w', same_or_fsm c i q (with_link q up) w w' → Q tt w') → wp (gptp_handle (EvLink i up)) Q w.
Proof.
  intros Hc Hq Hw HQ. assert (Hi : is_Some (ports c !! i)) by (by rewrite Hq).
  pose proof (io_ports _ (st_ok _ Hc) _ _ Hq) as Hinv. pose proof (st_ports _ Hc _ _ Hq) as Hr.
  set (w0 := w) in HQ. assert (Ht0 : announces (w_trace w) = announces (w_trace w0)) by done. clearbody w0.
  assert (Hw' : w_st w = upd i q c) by (by rewrite upd_id). clear Hw. enter w Hw'.
  assert (Hrun : wp (set_net_port i (λ n, n <| port_oper := up |>);;
    let! c := gets (λ c, c) in when (instance_enable c) (gptp_port_update_fsm i)) Q (World (upd i q c) k tr)).
  { unfold set_net_port. gstep. replace (instance_enable (upd i _ c)) with true by (symmetry; apply (io_enable _ (st_ok _ Hc))). cbn [when].
    eapply (port_update_spec c i q (with_link q up)); [done|done|reflexivity| |].
    - by apply like_trans_link, rest_like.
    - intros w' H. apply HQ. eapply handled_start; [|exact H]. exact Ht0. }
  destruct up; exact Hrun.
Qed.

Lemma request_spec c i q itlv w Q :
  settled c → ports c !! i = Some q → w_st w = c → (∀ w', handled c i (abs c) w w' → Q tt w') →
  wp (announce_interval_request i itlv) Q w.
Proof.
  intros Hc Hq Hw HQ. assert (Hi : is_Some (ports c !! i)) by (by rewrite Hq).
  pose proof (io_ports _ (st_ok _ Hc) _ _ Hq) as Hinv. pose proof (st_ports _ Hc _ _ Hq) as Hr.
  destruct (role_lookup c i q Hc Hq) as [r Hrole].
  set (w0 := w) in HQ. assert (Ht0 : announces (w_trace w) = announces (w_trace w0)) by done. clearbody w0.
  assert (Hw' : w_st w = upd i q c) by (by rewrite upd_id). clear Hw. enter w Hw'. unfold announce_interval_request, set_ais_sm. gstep.
  erewrite wp_get_role by exact Hrole. rewrite wp_when. pose proof (rest_like i q Hinv Hr) as Hl. destruct (_ || _).
  - gstep. set (q1 := over announce_interval_sm _ q).
    assert (Hl1 : like i q q1) by (destruct Hl; split; try done; eapply (port_inv_same i q); try done; apply Hinv).
    eapply (interval_spec c i Hi q1 r); [reflexivity|exact Hrole|]. intros q2 w2 Hw2 Ht2 Hv2.
    destruct (ival_like i q q1 q2 Hl1 Hv2) as [Hl2 Hu2]. apply HQ.
    eapply (same_handled c i q q2); [done|done|done|done|exact Hu2|rewrite Ht2; exact Ht0].
  - apply HQ. by eapply (same_handled c i q q).
Qed.

(** ** The refinement *)

Lemma gptp_handle_spec c e w :
  settled c → event_ok (length (ports c)) e → w_st w = c →
  wp (gptp_handle e) (λ _ w', handled c (event_port e) (bmca_step (bevent_of c e) (abs c)) w w') w.
Proof.
  intros Hc [Hlt He] Hw. destruct (lookup_lt_is_Some_2 _ _ Hlt) as [q Hq]. unfold bevent_of. rewrite Hq.
  destruct e as [i data len|i|i|i|i itlv|i across|i b across|i up]; cbn [event_port bevent_at] in *.
  - destruct He. by eapply handle_announce_spec.
  - eapply (timeout_spec c i q); [done|done|done|]. intros w'. by rewrite andb_true_r.
  - by eapply (timeout_spec c i q).
  - eapply (transmit_handled c i q); [done|done|done|]. by intros w' q' _ _ _ _ H.
  - by eapply (request_spec c i q).
  - eapply (update_as_capable_spec c i q q); [done|done|by rewrite upd_id| |done|by intros w' H].
    apply rest_like; [apply (io_ports _ (st_ok _ Hc) _ _ Hq)|by apply (st_ports _ Hc i)].
  - by eapply (neighbor_spec c i q).
  - by eapply (link_spec c i q).
Qed.

(** ** Sequences of events *)

Lemma handled_length c i b w w' : settled c → handled c i b w w' → length (ports (w_st w')) = length (ports c).
Proof.
  intros Hc [H1 _ H3 _ _]. rewrite <- (io_number _ (st_ok _ H1)), <- (io_number _ (st_ok _ Hc)).
  exact (f_equal numberPorts H3).
Qed.

(** A property of the abstract instance that every step keeps. *)
Definition step_keeps (P : bmca → Prop) : Prop := ∀ e b, P b → P (bmca_step e b).

Lemma gptp_run_spec (P : bmca → Prop) c l w :
  step_keeps P → settled c → P (abs c) → Forall (event_ok (length (ports c))) l → w_st w = c →
  wp (gptp_run l) (λ _ w', settled (w_st w') ∧ P (abs (w_st w')) ∧ erase_static (w_st w') = erase_static c) w.
Proof.
  intros HP. unfold gptp_run. revert c w. induction l as [|e l IH]; intros c w Hc Hb Hl Hw; cbn [for_each].
  { apply wp_ret. by rewrite Hw. }
  apply list.Forall_cons in Hl as [He Hl]. rewrite wp_bind. eapply wp_mono; [by apply gptp_handle_spec|].
  intros [] w1 H1. eapply wp_mono; [apply (IH (w_st w1))|].
  - apply H1.
  - rewrite (ha_abs _ _ _ _ _ H1). by apply HP.
  - by rewrite (handled_length _ _ _ _ _ Hc H1).
  - done.
  - intros [] w2 (H2 & H3 & H4). split_and!; [done|done|]. rewrite H4. apply H1.
Qed.
End run.
