(* ===== verification/GptpInit.v ===== *)
(** * gPTP: initialization

    [gptp_instance_init] from the configuration to an instance at rest. *)

From S2P Require Import Prelude Timer GptpBmca Gptp GptpSpec GptpElect GptpSelect GptpSettle GptpEvents.

(** ** While begin holds *)

(** The instance after PortStateSelection:INIT_BRIDGE. *)
Definition bridged (r s : Z) (c : gptp_instance) : gptp_instance :=
  path_trace_own (c <| reselect := r |> <| selected := s |> <| selected_role := replicate (S (length (ports c))) DISABLED_PORT |>
    <| last_gm_priority := ff_vector |> <| port_state_sm_state := PORT_STATE_SM_STATE_INIT_BRIDGE |>).

(** What a fresh port promises. *)
Record fresh (i : nat) (q : gptp_port) : Prop := {
  fr_inv : port_inv i q;
  fr_usable : port_usable q = false;
  fr_updt : updt_info (params q) = false;
}.
Record beginning (c : gptp_instance) : Prop := {
  bg_begin : begin c = true;
  bg_profile : profile c ≠ CFG_GPTP_PROFILE_AUTOMOTIVE;
  bg_enable : instance_enable c = true;
  bg_ext : external_port_configuration_enabled c = false;
  bg_number : numberPorts c = length (ports c);
  bg_roles : length (selected_role c) = S (length (ports c));
}.
Record started (i : nat) (q q' : gptp_port) : Prop := {
  sd_inv : port_inv i q';
  sd_rest : rest_port q';
  sd_usable : port_usable q' = false;
  sd_identity : identity q' = identity q;
  sd_abs : abs_port q' = (abs_port q) <| b_info := Down |>;
}.

Section begin.
Context `{!Platform gptp_call}.
Implicit Types (w : gworld) (c : gptp_instance) (Q : unit → gworld → Prop).

Lemma disable_roles_spec n w Q :
  length (selected_role (w_st w)) = n →
  Q tt (set_st w ((w_st w) <| selected_role := replicate n DISABLED_PORT |>)) →
  wp (for_each (seq 0 n) (λ j, set_role (Z.of_nat j) DISABLED_PORT)) Q w.
Proof.
  destruct w as [c k tr]. cbn [w_st]. intros Hl HQ.
  eapply wp_mono; [apply (wp_for_seq _ _ (λ j w', w' = World (c <| selected_role :=
    replicate j DISABLED_PORT ++ drop j (selected_role c) |>) k tr))|].
  - cbn [replicate app]. rewrite drop_0. by destruct c.
  - intros j w' Hj ->. unfold set_role. set (ro := replicate j DISABLED_PORT ++ drop j (selected_role c)).
    assert (Hlr : length ro = n) by (unfold ro; rewrite length_app, length_replicate, length_drop; lia).
    destruct (lookup_lt_is_Some_2 ro j) as [r Hr]; [lia|].
    rewrite wp_bind. erewrite wp_get_role by (rewrite Nat2Z.id; exact Hr). rewrite wp_modify. rewrite Nat2Z.id.
    cbn [w_st w_clock w_trace]. transitivity (World (c <| selected_role := <[j := DISABLED_PORT]> ro |>) k tr); [reflexivity|].
    f_equal. unfold ro. destruct (lookup_lt_is_Some_2 (selected_role c) j) as [r' Hr']; [lia|]. rewrite (drop_S _ _ _ Hr').
    rewrite insert_app_r_alt by (rewrite length_replicate; lia). rewrite length_replicate, Nat.sub_diag. cbn [insert list_insert].
    by rewrite replicate_S_end, <- List.app_assoc.
  - intros [] w' ->. rewrite drop_ge, List.app_nil_r by lia. exact HQ.
Qed.

(** INIT_BRIDGE. *)
Lemma init_bridge_spec c w Q :
  w_st w = c → beginning c →
  (∀ w', w_st w' = bridged (reselect c) (selected c) c → announces (w_trace w') = announces (w_trace w) → Q tt w') →
  wp port_state_selection_sm Q w.
Proof.
  intros Hw [B1 B2 B3 B4 B5 B6] HQ. destruct w as [x k tr]. cbn in Hw. subst x.
  unfold port_state_selection_sm. cbn [port_state_selection_sm_nested]. unfold port_state_selection_sm_with.
  rewrite wp_bind, wp_gets. cbn [w_st]. rewrite (proj2 (Z.eqb_neq _ _)) by exact B2. rewrite B1. cbn [orb].
  unfold port_state_selection_sm_init_bridge, updt_role_disabled_tree. rewrite !wp_bind, wp_gets. rewrite wp_bind. cbn [w_st].
  apply disable_roles_spec; [cbn [w_st]; congruence|]. rewrite wp_bind, wp_modify, wp_bind, wp_modify. unfold set_st. cbn [w_st w_clock w_trace].
  apply ipc_gm_status_spec. intros w1 Hw1 Ht1. rewrite wp_modify. apply HQ; [|exact Ht1]. cbn [w_st] in *. rewrite Hw1, B5. by destruct c.
Qed.

Lemma beginning_upd i q c : beginning c → beginning (upd i q c).
Proof. intros [B1 B2 B3 B4 B5 B6]. split; try done; unfold upd; cbn; by rewrite length_insert. Qed.
Lemma bridged_roles r s c j : (j ≤ length (ports c))%nat → selected_role (bridged r s c) !! j = Some DISABLED_PORT.
Proof. intros H. apply lookup_replicate_2. lia. Qed.

(** DISABLED of the information machine. *)
Lemma begin_info c i q w Q :
  beginning c → is_Some (ports c !! i) → w_st w = upd i q c → gm_id_static q = false →
  (∀ w' t r s, w_st w' = bridged r s (upd i ((disabled_port q) <| announce_information_sm := t |>) c) →
     announces (w_trace w') = announces (w_trace w) → Q tt w') →
  wp (port_announce_info_sm i PORT_ANNOUNCE_INFO_SM_EVENT_RUN) Q w.
Proof.
  intros Hb Hi Hw Hs HQ. enter w Hw. unfold port_announce_info_sm, port_announce_info_sm_with. gstep. rewrite Hs.
  cbn [port_announce_info_sm_loop]. gstep. replace (begin (upd i q c)) with true by (symmetry; apply (bg_begin _ Hb)). cbn [orb].
  unfold port_announce_info_sm_disabled, set_params, set_info_state. gstep.
  eapply ask_reselect_spec; [by apply upd_lookup|]. cbn [w_st w_clock w_trace set_st]. gstep.
  match goal with |- context [upd i (over port_announce_info_sm_state _ ?q3)] => set (qa := q3) end.
  assert (Ea : (disabled_port q) <| announce_information_sm := announce_information_sm qa |> =
    qa <| port_announce_info_sm_state := PORT_ANNOUNCE_INFO_SM_STATE_DISABLED |>) by reflexivity.
  set (n := get_port_identity_number _).
  set (qf := over port_announce_info_sm_state _ qa).
  eapply (init_bridge_spec (upd i qf ((upd i qa c) <| reselect ::= mask_set n |> <| selected ::= mask_clear n |>))); [reflexivity| |].
  - apply beginning_upd. destruct (beginning_upd i qa c Hb) as [B1 B2 B3 B4 B5 B6]. by split.
  - intros w' Hw' Ht. apply (HQ w' (announce_information_sm qa) (mask_set n (reselect c)) (mask_clear n (selected c))); [|exact Ht].
    rewrite Hw', Ea. transitivity (bridged (mask_set n (reselect c)) (mask_clear n (selected c)) (upd i qf (upd i qa c))); [reflexivity|by rewrite upd_upd].
Qed.

(** The machines of one port. *)
Lemma begin_port_spec c i q w Q :
  beginning c → ports c !! i = Some q → w_st w = c → fresh i q →
  (∀ w' q' r s, w_st w' = bridged r s (upd i q' c) → announces (w_trace w') = announces (w_trace w) → started i q q' → Q tt w') →
  wp (gptp_begin_update_port_fsm i) Q w.
Proof.
  intros Hb Hq Hw [Hinv Hu Hup] HQ. assert (Hi : is_Some (ports c !! i)) by (by rewrite Hq). pose proof (lookup_lt_Some _ _ _ Hq) as Hlt.
  assert (Hw' : w_st w = upd i q c) by (by rewrite upd_id). clear Hw.
  set (w0 := w) in HQ. assert (Ht0 : announces (w_trace w) = announces (w_trace w0)) by done. clearbody w0.
  unfold gptp_begin_update_port_fsm, set_ais_sm. enter w Hw'. gstep. set (q1 := over announce_interval_sm _ q).
  assert (Hrole : is_Some (selected_role c !! Z.to_nat (get_port_identity_number q1))).
  { apply lookup_lt_is_Some_2. change (get_port_identity_number q1) with (get_port_identity_number q).
    rewrite (pi_number _ _ Hinv), Nat2Z.id, (bg_roles _ Hb). lia. }
  destruct Hrole as [r0 Hrole].
  eapply (interval_spec c i Hi q1 r0); [reflexivity|exact Hrole|]. intros q2 w2 Hw2 Ht2 Hv2. gstep.
  assert (Hw2' : gm_id_static q2 = false) by (rewrite (iv_static _ _ Hv2); exact (pi_static _ _ Hinv)).
  enter w2 Hw2. unfold port_announce_rcv_sm. gstep. rewrite Hw2'.
  replace (begin (upd i q2 c)) with true by (symmetry; apply (bg_begin _ Hb)).
  replace (external_port_configuration_enabled (upd i q2 c)) with false by (symmetry; apply (bg_ext _ Hb)). cbn [orb andb negb].
  unfold port_announce_rcv_sm_discard, set_rcv_sm, set_params. gstep. set (q3 := over announce_receive_sm _ (over params _ _)).
  eapply (begin_info c i q3); [done|done|reflexivity|exact Hw2'|]. intros w4 t r s Hw4 Ht4.
  set (q4 := (disabled_port q3) <| announce_information_sm := t |>) in *.
  gstep. set (cb := bridged r s c).
  assert (Hw4' : w_st w4 = upd i q4 cb).
  { rewrite Hw4. unfold cb, bridged. change (ports (upd i q4 c)) with (<[i := q4]> (ports c)). rewrite length_insert. reflexivity. }
  assert (Hib : is_Some (ports cb !! i)) by exact Hi. clear Hw4. enter w4 Hw4'.
  unfold port_announce_transmit_sm. gstep. change (gm_id_static q4) with (gm_id_static q2); rewrite Hw2'. gstep.
  replace (begin (upd i q4 cb)) with true by (symmetry; apply (bg_begin _ Hb)). cbn [orb when].
  unfold port_announce_transmit_sm_transmit_init, set_params, set_tx_sm. gstep. set (q5 := over announce_transmit_sm _ (over params _ q4)).
  assert (Hn5 : get_port_identity_number q5 = Z.of_nat (S i)).
  { change (get_port_identity_number q5) with (get_port_identity_number q2). unfold get_port_identity_number.
    rewrite (iv_identity _ _ Hv2). exact (pi_number _ _ Hinv). }
  assert (Hr5 : selected_role cb !! Z.to_nat (get_port_identity_number q5) = Some DISABLED_PORT).
  { rewrite Hn5, Nat2Z.id. apply bridged_roles. lia. }
  eapply wp_mono; [eapply (transmit_loop cb i Hib q5 DISABLED_PORT); [reflexivity|exact Hr5]|].
  intros [] w6 (q6 & Hw6 & He6 & Hi6 & Hs6). pose proof (erase_tx_params _ _ He6) as Hp.
  assert (Hv := iv_params _ _ Hv2). destruct Hv as (V1 & V2 & V3 & V4 & V5 & V6 & V7 & V8).
  assert (Hid : identity q6 = identity q).
  { rewrite (f_equal identity He6 : identity q6 = identity q5). exact (iv_identity _ _ Hv2). }
  assert (Hus : port_usable q6 = false).
  { rewrite (erase_tx_usable _ _ He6). rewrite <- Hu. change (port_usable q5) with (port_usable q2).
    unfold port_usable, get_port_oper. rewrite (iv_net _ _ Hv2), V7, V8. reflexivity. }
  apply (HQ w6 q6 r s).
  - rewrite Hw6. unfold cb, bridged. change (ports (upd i q6 c)) with (<[i := q6]> (ports c)). rewrite length_insert. reflexivity.
  - assert (Hd : tx_due cb q5 PORT_ANNOUNCE_TRANSMIT_SM_EVENT_RUN = false) by (unfold tx_due, may_announce; by rewrite Hr5).
    unfold sent_one in Hs6. rewrite Hd in Hs6. cbn [w_trace] in *. congruence.
  - assert (Hrm : rcvd_msg (params q6) = false) by (by rewrite Hp).
    assert (Hinfo : info_is (params q6) = SPANNING_TREE_DISABLED) by (by rewrite Hp).
    assert (Hpar : rcvd_announce_par (announce_receive_sm q6) = false) by exact (f_equal (λ q, rcvd_announce_par (announce_receive_sm q)) He6).
    split; [|split|done|done|].
    + eapply (port_inv_same i q); [done|done| | |].
      * rewrite (f_equal gm_id_static He6 : gm_id_static q6 = gm_id_static q5). exact (iv_static _ _ Hv2).
      * rewrite Hp. change (vector_ok (port_priority (params q2))). rewrite V4. apply Hinv.
      * rewrite (f_equal announce_rx He6 : announce_rx q6 = announce_rx q5). change (announce_rx q5) with (announce_rx q2).
        rewrite (iv_rx _ _ Hv2). apply Hinv.
    + done.
    + rewrite Hp. change (updt_info (params q2) = false). by rewrite V2.
    + exact Hi6.
    + exact Hpar.
    + rewrite Hus. split; [|done]. by rewrite (erase_tx_state _ _ He6).
    + unfold abs_port. rewrite Hp. cbn. change (port_priority (params q4)) with (port_priority (params q2)).
      change (message_steps_removed (params q4)) with (message_steps_removed (params q2)). change (ann (params q4)) with (ann (params q2)).
      by rewrite V4, V5, V6.
Qed.
End begin.

(** ** From the configuration to rest *)

(** The memory of an instance when it has been configured. *)
Record configured (c : gptp_instance) : Prop := {
  cf_profile : profile c ≠ CFG_GPTP_PROFILE_AUTOMOTIVE;
  cf_enable : instance_enable c = true;
  cf_ext : external_port_configuration_enabled c = false;
  cf_number : numberPorts c = length (ports c);
  cf_max : (length (ports c) ≤ 15)%nat;
  cf_roles : length (selected_role c) = S (length (ports c));
  cf_clock : id_ok (this_clock c);
  cf_system : vector_ok (system_priority c);
  cf_self : root_id (system_priority c) = this_clock c ∧ pid_clock_identity (source_port_identity (system_priority c)) = this_clock c;
  cf_ports : ∀ i q, ports c !! i = Some q → fresh i q ∧ get_port_identity_clock_id q = this_clock c;
}.

(** What initialization leaves alone. *)
Definition erase_boot (c : gptp_instance) : gptp_instance :=
  c <| reselect := 0 |> <| selected := 0 |> <| selected_role := [] |> <| last_gm_priority := no_vector |>
    <| port_state_sm_state := PORT_STATE_SM_STATE_INIT_BRIDGE |> <| path_trace := [] |> <| num_ptlv := 0 |> <| ports := [] |>
    <| begin := false |>.

(** No port takes part, and nothing has been elected yet. *)
Definition b_init (b : bmca) : bmca :=
  b <| b_ports ::= fmap (λ p, p <| b_info := Down |>) |> <| b_roles := replicate (S (length (b_ports b))) DISABLED_PORT |>.

Record begun (c : gptp_instance) (w w' : gworld) : Prop := {
  bu_settled : settled (w_st w');
  bu_state : port_state_sm_state (w_st w') = PORT_STATE_SM_STATE_INIT_BRIDGE;
  bu_abs : abs (w_st w') = b_init (abs c);
  bu_boot : erase_boot (w_st w') = erase_boot c;
  bu_ports : ∀ i q, ports (w_st w') !! i = Some q → port_usable q = false;
  bu_sends : announces (w_trace w') = announces (w_trace w);
}.

(** The ports before [k] have been started. *)
Definition starting (c : gptp_instance) (k : nat) (c' : gptp_instance) : Prop :=
  beginning c' ∧ erase_boot c' = erase_boot c ∧ length (ports c') = length (ports c) ∧
  (∀ j q, (j < k)%nat → ports c !! j = Some q → ∃ q', ports c' !! j = Some q' ∧ started j q q') ∧
  (∀ j, (k ≤ j)%nat → ports c' !! j = ports c !! j).

Lemma starting_S c k c' q q' r s :
  starting c k c' → ports c !! k = Some q → started k q q' → starting c (S k) (bridged r s (upd k q' c')).
Proof.
  intros ([B1 B2 B3 B4 B5 B6] & He & Hl & Hlt & Hge) Hq Hs. pose proof (lookup_lt_Some _ _ _ Hq) as Hk.
  assert (Hp : ports (bridged r s (upd k q' c')) = <[k := q']> (ports c')) by done.
  split_and!.
  - split; try done; rewrite Hp, length_insert; [exact B5|]. change (length (replicate (S (length (<[k := q']> (ports c')))) DISABLED_PORT) = S (length (ports c'))).
    by rewrite length_replicate, length_insert.
  - rewrite <- He. reflexivity.
  - rewrite Hp, length_insert. exact Hl.
  - intros j p Hj Hpj. rewrite Hp. destruct (decide (k = j)) as [<-|Hn].
    + exists q'. split; [apply list_lookup_insert_eq; lia|]. rewrite Hq in Hpj. by injection Hpj as <-.
    + rewrite list_lookup_insert_ne by done. apply Hlt; [lia|done].
  - intros j Hj. rewrite Hp, list_lookup_insert_ne by lia. apply Hge. lia.
Qed.

Lemma started_settled c c' :
  configured c → starting c (length (ports c)) c' →
  let c2 := (bridged (reselect c') (selected c') c') <| begin := false |> in
  settled c2 ∧ abs c2 = b_init (abs c) ∧ (∀ i q, ports c2 !! i = Some q → port_usable q = false) ∧ erase_boot c2 = erase_boot c.
Proof.
  intros [C1 C2 C3 C4 C5 C6 C7 C8 C9 C10] ([B1 B2 B3 B4 B5 B6] & He & Hl & Hlt & _) c2.
  assert (Hp : ∀ j q', ports c' !! j = Some q' → ∃ q, ports c !! j = Some q ∧ started j q q').
  { intros j q' Hq'. pose proof (lookup_lt_Some _ _ _ Hq') as Hj. rewrite Hl in Hj. destruct (lookup_lt_is_Some_2 _ _ Hj) as [q Hq].
    exists q. split; [done|]. destruct (Hlt _ _ Hj Hq) as (q1 & Hq1 & Hs). rewrite Hq' in Hq1. by injection Hq1 as <-. }
  assert (E : ∀ {A} (f : gptp_instance → A), f (erase_boot c') = f (erase_boot c)) by (intros A f; by rewrite He).
  assert (Hok : inst_ok c2).
  { split.
    - rewrite (E _ profile : profile c2 = profile c). exact C1.
    - exact B3.
    - exact B4.
    - exact B5.
    - change (ports c2) with (ports c'). lia.
    - change (length (replicate (S (length (ports c'))) DISABLED_PORT) = S (length (ports c'))). by rewrite length_replicate.
    - rewrite (E _ this_clock : this_clock c2 = this_clock c). exact C7.
    - rewrite (E _ system_priority : system_priority c2 = system_priority c). exact C8.
    - rewrite (E _ system_priority : system_priority c2 = system_priority c), (E _ this_clock : this_clock c2 = this_clock c). exact C9.
    - change (length (this_clock c' :: replicate (MAX_PTLV_ENTRIES - 1) no_clock) = MAX_PTLV_ENTRIES ∧ 1 ≤ 1 ≤ 16).
      split; [reflexivity|lia].
    - intros i q' Hq'. destruct (Hp i q' Hq') as (q & _ & Hs). apply Hs.
    - intros i q' Hq'. destruct (Hp i q' Hq') as (q & Hq & Hs). rewrite (E _ this_clock : this_clock c2 = this_clock c).
      unfold get_port_identity_clock_id. rewrite (sd_identity _ _ _ Hs). by apply (C10 i). }
  assert (Hu : ∀ i q, ports c2 !! i = Some q → port_usable q = false).
  { intros i q' Hq'. destruct (Hp i q' Hq') as (q & _ & Hs). apply Hs. }
  split; [split; [exact Hok|done| |exact Hu]|split; [|split; [exact Hu|rewrite <- He; reflexivity]]].
  - intros i q' Hq'. destruct (Hp i q' Hq') as (q & _ & Hs). apply Hs.
  - assert (Hb : abs_port <$> ports c' = (λ p, p <| b_info := Down |>) <$> (abs_port <$> ports c)).
    { apply list_eq. intros j. rewrite !list_lookup_fmap. destruct (ports c' !! j) as [q'|] eqn:Hq'.
      - destruct (Hp j q' Hq') as (q & -> & Hs). cbn. by rewrite (sd_abs _ _ _ Hs).
      - apply lookup_ge_None in Hq'. rewrite (proj2 (lookup_ge_None (ports c) j)) by lia. done. }
    transitivity (Bmca (this_clock (erase_boot c')) (system_priority (erase_boot c')) (sys (erase_boot c')) (abs_port <$> ports c')
      (gm_priority (erase_boot c')) (master_steps_removed (erase_boot c')) (props (erase_boot c'))
      (replicate (S (length (ports c'))) DISABLED_PORT) (gm_present (erase_boot c')) (is_grandmaster (erase_boot c'))); [reflexivity|].
    rewrite He, Hb, Hl. unfold b_init. cbn. rewrite length_fmap. reflexivity.
Qed.

Section instance.
Context `{!Platform gptp_call}.

Lemma gptp_instance_begin_spec c w :
  configured c → w_st w = c → wp gptp_instance_begin (λ _ w', begun c w w') w.
Proof.
  intros Hc Hw. destruct w as [x k tr]. cbn in Hw. subst x. unfold gptp_instance_begin. rewrite wp_bind, wp_modify, wp_bind, wp_gets.
  cbn [w_st w_clock w_trace]. set (c1 := c <| begin := true |>). rewrite wp_bind. change (numberPorts c1) with (numberPorts c).
  rewrite (cf_number _ Hc).
  eapply wp_mono; [apply (wp_for_seq _ _ (λ j w', starting c j (w_st w') ∧ announces (w_trace w') = announces tr))|].
  - cbn [w_st w_trace]. split; [|done]. split_and!; [|done|done|intros; lia|done]. destruct Hc. by split.
  - intros j w1 Hj [Hst Ht]. destruct (lookup_lt_is_Some_2 _ _ Hj) as [q Hq].
    assert (Hq1 : ports (w_st w1) !! j = Some q) by (destruct Hst as (_ & _ & _ & _ & Hge); by rewrite Hge).
    eapply (begin_port_spec (w_st w1) j q); [apply Hst|done|done|by apply (cf_ports _ Hc)|].
    intros w' q' r s Hw' Ht' Hs. rewrite Hw'. split; [by eapply starting_S|congruence].
  - intros [] w1 [Hst Ht]. rewrite wp_bind. eapply (init_bridge_spec (w_st w1)); [done|apply Hst|]. intros w2 Hw2 Ht2.
    rewrite wp_modify. destruct (started_settled c (w_st w1) Hc Hst) as (S1 & S2 & S3 & S4).
    split; cbn [w_st w_trace]; rewrite ?Hw2; try done. congruence.
Qed.
End instance.
