(* ===== verification/GptpConfig.v ===== *)
(** * gPTP: the configuration (gptp/gptp.c, include/genavb/init.h, common/net.h)

    The memory of an instance from the configuration of the stack, and the
    initialization from there to rest. *)

From S2P Require Import Prelude MaapAddr Timer GptpBmca Gptp GptpSpec GptpElect GptpSelect GptpSettle GptpEvents GptpInit.

(** ** Data *)

Record fgptp_port_config := PortConfig {
  portRole : ptp_port_role_t;
  ptpPortEnabled : bool;
  initialLogAnnounceInterval : Z;
}.
Record fgptp_domain_config := DomainConfig {
  cfg_domain_number : Z;
  cfg_gmCapable : bool;
  cfg_priority1 : Z;
  cfg_priority2 : Z;
  cfg_clockClass : Z;
  cfg_clockAccuracy : Z;
  cfg_offsetScaledLogVariance : Z;
}.
(** What an instance reads of [struct fgptp_config]; [gm_id] as its bytes. *)
Record fgptp_config := FgptpConfig {
  cfg_profile : Z;
  cfg_force_2011 : bool;
  cfg_gm_indication : bool;
  cfg_gm_id : list Z;
  port_cfg : list fgptp_port_config;
  domain_cfg : fgptp_domain_config;
}.

Definition ANNOUNCE_RECEIPT_TIMEOUT : Z := 3.
Definition TIME_SOURCE_INTERNAL_OSCILLATOR : Z := 0xA0.

Definition net_eui64_from_mac (m : mac) (md : Z) : list Z :=
  [mac0 m; mac1 m; mac2 m; 0xff; 0xfe; mac3 m; mac4 m; u8 (mac5 m + md)].

(** [addr]: the address of network port 0, if [net_get_local_addr] finds it. *)
Definition gptp_compute_clock_identity (addr : option mac) : option (list Z) :=
  (λ m, net_eui64_from_mac m 0) <$> addr.

(** ** Allocation: zeroed memory ([gptp_alloc]) *)

Definition zero_clock : list Z := replicate 8 0.
Definition zero_vector : ptp_priority_vector :=
  PriorityVector (SystemIdentity 0 (ClockQuality 0 0 0) 0 zero_clock) 0 (PortIdentity zero_clock 0) 0.
Definition zero_ns : ptp_u_scaled_ns := UScaledNs 0 0 0.
Definition zero_props : time_properties := TimeProperties 0 0 0 0 0 0 0.
Definition zero_port : gptp_port :=
  GptpPort (PortIdentity zero_clock 0) (NetPort false false 0 0 0)
    (PortParams false false false zero_ns false zero_ns SPANNING_TREE_RECEIVED zero_vector 0 0 zero_ns 0 false zero_vector 0
       false false zero_props)
    (AnnounceReceiveSm false false PORT_ANNOUNCE_RCV_SM_STATE_DISCARD soft_none)
    (AnnounceInformationSm zero_ns zero_vector ANNOUNCE_PRIO_SUPERIOR_MASTER_INFO)
    (AnnounceTransmitSm 0 zero_ns PORT_ANNOUNCE_TRANSMIT_SM_STATE_TRANSMIT_INIT soft_none)
    (AnnounceIntervalSm false 0 0 0 PORT_ANNOUNCE_INTERVAL_SM_STATE_NOT_ENABLED) 0 false 0 false (replicate 196 0) 0
    PORT_ANNOUNCE_INFO_SM_STATE_DISABLED (PortStats 0 0 0 0 0).

(** The entries of [selected_role] are no roles before the configuration
    writes them; the value here is read by nothing. *)
Definition zero_instance (n : nat) : gptp_instance :=
  GptpInstance 0 false false 0 false false false false false (replicate (S n) DISABLED_PORT) zero_clock 0 0 0 zero_props zero_props
    zero_vector zero_vector zero_vector (replicate MAX_PTLV_ENTRIES zero_clock) 0 n false 0 0 PORT_STATE_SM_STATE_INIT_BRIDGE
    zero_clock (GmInfo zero_vector false 0) (replicate n zero_port).

(** ** Parameters *)

Definition gptp_instance_set_profile_parameters (c : gptp_instance) : option gptp_instance :=
  if profile c =? CFG_GPTP_PROFILE_STANDARD then Some (c <| gm_present := false |> <| is_grandmaster := false |>)
  else if profile c =? CFG_GPTP_PROFILE_AUTOMOTIVE then Some (c <| gm_present := true |> <| is_grandmaster := gmCapable c |>)
  else None.

Definition config_vector (d : fgptp_domain_config) (v : ptp_priority_vector) : ptp_priority_vector :=
  v <| root_system_identity ::= λ r, r
    <| clock_quality := ClockQuality (cfg_clockClass d) (cfg_clockAccuracy d) (htons (cfg_offsetScaledLogVariance d)) |>
    <| priority_1 := cfg_priority1 d |> <| priority_2 := cfg_priority2 d |> |>.

(** The fields that [gptp_instance_set_config_parameters] writes once the clock
    identity is known. *)
Definition instance_params (cfg : fgptp_config) (id : list Z) (c : gptp_instance) : gptp_instance :=
  let d := domain_cfg cfg in
  let c := c <| gm_id := cfg_gm_id cfg |> <| gmCapable := cfg_gmCapable d |> <| numberPorts := length (port_cfg cfg) |>
    <| this_clock := id |> <| system_priority ::= config_vector d |> in
  (system_vector_updated c) <| sys := TimeProperties 0 0 1 0 0 37 TIME_SOURCE_INTERNAL_OSCILLATOR |>
    <| selected_role ::= <[0%nat := SLAVE_PORT]> |>.
Definition gptp_instance_set_config_parameters (cfg : fgptp_config) (addr : option mac) (c : gptp_instance) : option gptp_instance :=
  id ← gptp_compute_clock_identity addr;
  gptp_instance_set_profile_parameters (instance_params cfg id c).

(** The parameters of a port; an automotive port has the role that the
    configuration gives it. *)
Definition gptp_port_set_profile_parameters (p : fgptp_port_config) (i : nat) (c : gptp_instance) : gptp_instance :=
  if profile c =? CFG_GPTP_PROFILE_STANDARD then
    c <| ports ::= alter (λ q, q <| gm_id_static := false |>) i |> <| selected_role ::= <[S i := SLAVE_PORT]> |>
  else if profile c =? CFG_GPTP_PROFILE_AUTOMOTIVE then
    let c := c <| ports ::= alter (λ q, q <| gm_id_static := true |>) i |> <| selected_role ::= <[S i := portRole p]> |> in
    match portRole p with
    | DISABLED_PORT => c <| ports ::= alter (λ q, q <| params ::= λ x, x <| ptp_port_enabled := false |> |>) i |>
    | SLAVE_PORT => c <| is_grandmaster := false |>
    | _ => c
    end
  else c.

Definition port_configured (c : gptp_instance) (p : fgptp_port_config) (q : gptp_port) : gptp_port :=
  q <| announce_receipt_timeout := ANNOUNCE_RECEIPT_TIMEOUT |>
    <| params ::= λ x, x <| as_capable := false |> <| initial_log_announce_interval := initialLogAnnounceInterval p |>
       <| port_priority := system_priority c |> <| master_priority := system_priority c |>
       <| ptp_port_enabled := ptpPortEnabled p |>
       <| announce_interval := u64_to_u_scaled_ns (log_to_ns (initialLogAnnounceInterval p)) |> |>.
Definition gptp_port_set_config_parameters (p : fgptp_port_config) (i : nat) (c : gptp_instance) : gptp_instance :=
  gptp_port_set_profile_parameters p i (c <| ports ::= alter (port_configured c p) i |>).

(** The identity of the common port or of the link port. *)
Definition gptp_port_common_set_config_parameters (i : nat) (c : gptp_instance) : gptp_instance :=
  c <| ports ::= alter (λ q, q <| identity := PortIdentity (this_clock c) (u16 (Z.of_nat (S i))) |>) i |>.

(** [gptp_instance_init] up to [begin = true]: [u8 cfg_domain_number], and a
    negative number for an instance that is not used. *)
Definition instance_memory (cfg : fgptp_config) : gptp_instance :=
  (zero_instance (length (port_cfg cfg))) <| profile := cfg_profile cfg |> <| force_2011 := cfg_force_2011 cfg |>
    <| has_gm_indication := cfg_gm_indication cfg |> <| domain := u8 (cfg_domain_number (domain_cfg cfg)) |>
    <| instance_enable := negb (cfg_domain_number (domain_cfg cfg) <? 0) |>.
Definition config_step (c : gptp_instance) (ip : nat * fgptp_port_config) : gptp_instance :=
  gptp_port_common_set_config_parameters ip.1 (gptp_port_set_config_parameters ip.2 ip.1 c).
Definition gptp_instance_configure (cfg : fgptp_config) (addr : option mac) : option gptp_instance :=
  c ← gptp_instance_set_config_parameters cfg addr (instance_memory cfg);
  Some (foldl config_step c (imap (λ i p, (i, p)) (port_cfg cfg))).

(** -1: the parameters cannot be set. *)
Definition gptp_instance_init `{!Platform gptp_call} (cfg : fgptp_config) (addr : option mac) : M gptp_call gptp_instance Z :=
  match gptp_instance_configure cfg addr with
  | None => ret (-1)
  | Some c => modify (λ _, c);; gptp_instance_begin;; ret 0
  end.

(** ** A valid configuration is an instance ready to start *)

Record config_ok (cfg : fgptp_config) : Prop := {
  co_profile : cfg_profile cfg = CFG_GPTP_PROFILE_STANDARD;
  co_ports : (length (port_cfg cfg) ≤ 15)%nat;
  co_domain : 0 ≤ cfg_domain_number (domain_cfg cfg) ≤ 127;
  co_values : is_byte (cfg_priority1 (domain_cfg cfg)) ∧ is_byte (cfg_priority2 (domain_cfg cfg)) ∧
    is_byte (cfg_clockClass (domain_cfg cfg)) ∧ is_byte (cfg_clockAccuracy (domain_cfg cfg)) ∧
    is_u16 (cfg_offsetScaledLogVariance (domain_cfg cfg));
}.

(** Port [i] of the configured instance [c]. *)
Definition ready_port (c : gptp_instance) (i : nat) (p : fgptp_port_config) : gptp_port :=
  ((port_configured c p zero_port) <| gm_id_static := false |>) <| identity := PortIdentity (this_clock c) (u16 (Z.of_nat (S i))) |>.

Lemma config_step_at c i p pre post r :
  profile c = CFG_GPTP_PROFILE_STANDARD → length pre = i →
  config_step (c <| ports := pre ++ zero_port :: post |> <| selected_role := r |>) (i, p) =
  c <| ports := (pre ++ [ready_port c i p]) ++ post |> <| selected_role := <[S i := SLAVE_PORT]> r |>.
Proof.
  intros Hprof Hi. unfold config_step, gptp_port_set_config_parameters, gptp_port_set_profile_parameters.
  set (c1 := over selected_role _ (over ports _ c)). change (profile (over ports (alter (port_configured c1 (i, p).2) (i, p).1) c1)) with (profile c).
  rewrite Hprof. cbn [fst snd Z.eqb CFG_GPTP_PROFILE_STANDARD].
  transitivity (c <| ports := alter (λ q, q <| identity := PortIdentity (this_clock c) (u16 (Z.of_nat (S i))) |>) i
    (alter (λ q, q <| gm_id_static := false |>) i (alter (port_configured c p) i (pre ++ zero_port :: post))) |>
    <| selected_role := <[S i := SLAVE_PORT]> r |>); [reflexivity|].
  f_equal. f_equal. rewrite <- List.app_assoc. subst i.
  replace (length pre) with (length pre + 0)%nat by lia. rewrite !alter_app_r. reflexivity.
Qed.

Lemma config_ports c pre l r :
  profile c = CFG_GPTP_PROFILE_STANDARD → length r = length l →
  foldl config_step (c <| ports := pre ++ replicate (length l) zero_port |> <| selected_role := replicate (S (length pre)) SLAVE_PORT ++ r |>)
    (imap (λ i p, ((length pre + i)%nat, p)) l) =
  c <| ports := pre ++ imap (λ i p, ready_port c (length pre + i) p) l |>
    <| selected_role := replicate (S (length pre + length l)) SLAVE_PORT |>.
Proof.
  intros Hprof. revert pre r. induction l as [|p l IH]; intros pre r Hr; cbn [imap foldl length replicate].
  { destruct r; [|done]. by rewrite !List.app_nil_r, Nat.add_0_r. }
  destruct r as [|r0 r]; [done|]. rewrite Nat.add_0_r. rewrite config_step_at by done.
  specialize (IH (pre ++ [ready_port c (length pre) p]) r ltac:(cbn in Hr; lia)).
  replace (<[S (length pre) := SLAVE_PORT]> (replicate (S (length pre)) SLAVE_PORT ++ r0 :: r)) with
    (replicate (S (length (pre ++ [ready_port c (length pre) p]))) SLAVE_PORT ++ r).
  2:{ rewrite insert_app_r_alt by (rewrite length_replicate; lia). rewrite length_replicate, Nat.sub_diag. cbn [insert list_insert].
      rewrite length_app, Nat.add_1_r, (replicate_S_end (S (length pre))), <- List.app_assoc. reflexivity. }
  rewrite length_app in IH |- *. cbn [length] in IH |- *.
  replace (imap _ l) with (imap (λ i p0, ((length pre + 1 + i)%nat, p0)) l) by (apply imap_ext; intros; cbn; by rewrite <- Nat.add_assoc).
  rewrite IH, <- List.app_assoc.
  assert (E : imap ((λ i p0, ready_port c (length pre + i) p0) ∘ S) l = imap (λ i p0, ready_port c (length pre + 1 + i) p0) l)
    by (apply imap_ext; intros; cbn; by rewrite <- Nat.add_assoc).
  rewrite E, <- Nat.add_assoc. reflexivity.
Qed.

(** The instance before its ports are configured. *)
Definition config_base (cfg : fgptp_config) (m : mac) : gptp_instance :=
  (instance_params cfg (net_eui64_from_mac m 0) (instance_memory cfg)) <| gm_present := false |> <| is_grandmaster := false |>.
Definition config_instance (cfg : fgptp_config) (m : mac) : gptp_instance :=
  let c := config_base cfg m in
  c <| ports := imap (ready_port c) (port_cfg cfg) |> <| selected_role := replicate (S (length (port_cfg cfg))) SLAVE_PORT |>.

Lemma same_ports_roles c l r : ports c = l → selected_role c = r → c <| ports := l |> <| selected_role := r |> = c.
Proof. intros <- <-. by destruct c. Qed.

Lemma config_loop c l :
  profile c = CFG_GPTP_PROFILE_STANDARD → ports c = replicate (length l) zero_port →
  selected_role c = SLAVE_PORT :: replicate (length l) DISABLED_PORT →
  foldl config_step c (imap (λ i p, (i, p)) l) =
  c <| ports := imap (ready_port c) l |> <| selected_role := replicate (S (length l)) SLAVE_PORT |>.
Proof.
  intros H1 H2 H3. pose proof (config_ports c [] l (replicate (length l) DISABLED_PORT) H1 (length_replicate _ _)) as H.
  rewrite (same_ports_roles c) in H by done. exact H.
Qed.
Lemma config_base_ports cfg m : ports (config_base cfg m) = replicate (length (port_cfg cfg)) zero_port.
Proof. reflexivity. Qed.
Lemma config_base_roles cfg m : selected_role (config_base cfg m) = SLAVE_PORT :: replicate (length (port_cfg cfg)) DISABLED_PORT.
Proof. reflexivity. Qed.
Lemma config_base_profile cfg m : profile (config_base cfg m) = cfg_profile cfg.
Proof. reflexivity. Qed.

Lemma configure_instance cfg m :
  config_ok cfg → gptp_instance_configure cfg (Some m) = Some (config_instance cfg m).
Proof.
  intros [C1 C2 C3 C4]. unfold gptp_instance_configure, gptp_instance_set_config_parameters.
  cbn [gptp_compute_clock_identity fmap option_fmap option_map mbind option_bind]. unfold gptp_instance_set_profile_parameters.
  assert (E : profile (instance_params cfg (net_eui64_from_mac m 0) (instance_memory cfg)) = CFG_GPTP_PROFILE_STANDARD)
    by (transitivity (cfg_profile cfg); [reflexivity|exact C1]).
  rewrite E. cbn [Z.eqb CFG_GPTP_PROFILE_STANDARD mbind option_bind]. fold (config_base cfg m).
  rewrite (config_loop (config_base cfg m) (port_cfg cfg) (eq_trans (config_base_profile cfg m) C1) (config_base_ports cfg m) (config_base_roles cfg m)). reflexivity.
Qed.

Lemma eui64_ok m : mac_ok m → id_ok (net_eui64_from_mac m 0).
Proof.
  intros (H0 & H1 & H2 & H3 & H4 & H5). unfold byte_ok in *. split; [done|]. unfold net_eui64_from_mac.
  repeat (apply list.Forall_cons; split); try (unfold is_byte; lia); [|done].
  unfold is_byte, u8. pose proof (Z.mod_pos_bound (mac5 m + 0) (2 ^ 8)). lia.
Qed.
Lemma system_vector_ok b clock v : id_ok clock → vector_ok v → vector_ok (system_vector b clock v).
Proof.
  destruct v as [[p1 [cl ca lv] p2 id] st [sid sn] pn]. intros [Hid1 Hid2] ((H1 & (H2 & H3 & H4) & H5 & [H6 H6']) & H7 & [[H8 H8'] H9] & H10). cbn in *.
  unfold system_vector, over, over_field. cbn. destruct b; cbn; unfold vector_ok, system_ok, quality_ok, port_ok; cbn.
  - destruct (p1 =? 255); cbn; destruct (cl =? 255); cbn; split_and!; try done; unfold is_byte; lia.
  - split_and!; try done; unfold is_byte; lia.
Qed.
Lemma system_vector_root b clock v :
  root_id (system_vector b clock v) = clock ∧ pid_clock_identity (source_port_identity (system_vector b clock v)) = clock.
Proof. done. Qed.
(** A grandmaster-capable system, and only that, can win an election with a
    grandmaster: its priority1 is below 255. *)
Lemma system_vector_capable b clock v : vector_ok v →
  (priority_1 (root_system_identity (system_vector b clock v)) <? 255) = b ∧
  (clock_class (clock_quality (root_system_identity (system_vector b clock v))) =? 255) = negb b.
Proof.
  destruct v as [[p1 [cl ca lv] p2 id] st [sid sn] pn]. intros ((H1 & (H2 & H3 & H4) & H5 & H6) & _). cbn in *. unfold is_byte in *.
  unfold system_vector, over, over_field. cbn. destruct b; cbn; [|done].
  destruct (Z.eqb_spec p1 255); cbn; destruct (Z.eqb_spec cl 255); cbn; split; lia.
Qed.
Lemma zero_vector_ok : vector_ok zero_vector.
Proof.
  assert (Hz : id_ok zero_clock) by (split; [done|]; repeat (apply list.Forall_cons; split); try (unfold is_byte; lia); done).
  unfold vector_ok, system_ok, quality_ok, port_ok; cbn. split_and!; try done; unfold is_byte, is_u16; lia.
Qed.
Lemma config_vector_ok cfg : config_ok cfg → vector_ok (config_vector (domain_cfg cfg) zero_vector).
Proof.
  intros [C1 C2 C3 (C4 & C5 & C6 & C7 & C8)]. destruct zero_vector_ok as ((H1 & H2 & H3 & H4) & H5 & H6 & H7).
  split_and!; try done. split_and!; try done. split_and!; try done. by apply htons_range.
Qed.
Lemma config_base_clock cfg m : this_clock (config_base cfg m) = net_eui64_from_mac m 0.
Proof. reflexivity. Qed.
Lemma config_base_system cfg m : system_priority (config_base cfg m) =
  system_vector (cfg_gmCapable (domain_cfg cfg)) (net_eui64_from_mac m 0) (config_vector (domain_cfg cfg) zero_vector).
Proof. reflexivity. Qed.
Lemma config_base_params cfg m :
  instance_enable (config_base cfg m) = negb (cfg_domain_number (domain_cfg cfg) <? 0) ∧
  external_port_configuration_enabled (config_base cfg m) = false ∧ numberPorts (config_base cfg m) = length (port_cfg cfg).
Proof. by repeat split. Qed.

Lemma ready_port_rx c i p : announce_rx (ready_port c i p) = replicate 196 0.
Proof. reflexivity. Qed.
Lemma ready_port_identity c i p : identity (ready_port c i p) = PortIdentity (this_clock c) (u16 (Z.of_nat (S i))).
Proof. reflexivity. Qed.
Lemma ready_port_priority c i p : port_priority (params (ready_port c i p)) = system_priority c.
Proof. reflexivity. Qed.
Lemma ready_port_flags c i p :
  gm_id_static (ready_port c i p) = false ∧ as_capable (params (ready_port c i p)) = false ∧
  updt_info (params (ready_port c i p)) = false.
Proof. by repeat split. Qed.

Lemma ready_port_fresh c i p :
  vector_ok (system_priority c) → id_ok (this_clock c) → (i < 15)%nat →
  fresh i (ready_port c i p) ∧ get_port_identity_clock_id (ready_port c i p) = this_clock c.
Proof.
  intros Hv Hid Hi. destruct (ready_port_flags c i p) as (F1 & F2 & F3). unfold get_port_identity_clock_id.
  rewrite ready_port_identity. split; [|done]. split; [| |exact F3].
  2:{ unfold port_usable. by rewrite F2, andb_false_r. }
  split; [| |exact F1| |].
  - unfold get_port_identity_number. rewrite ready_port_identity. cbn [pid_port_number]. apply u16_small. lia.
  - unfold get_port_identity_clock_id. by rewrite ready_port_identity.
  - by rewrite ready_port_priority.
  - rewrite ready_port_rx. split; [apply length_replicate|]. apply list.Forall_replicate. unfold is_byte. lia.
Qed.

Lemma ready_configured c l :
  profile c ≠ CFG_GPTP_PROFILE_AUTOMOTIVE → instance_enable c = true → external_port_configuration_enabled c = false →
  numberPorts c = length l → (length l ≤ 15)%nat → id_ok (this_clock c) → vector_ok (system_priority c) →
  root_id (system_priority c) = this_clock c ∧ pid_clock_identity (source_port_identity (system_priority c)) = this_clock c →
  configured (c <| ports := imap (ready_port c) l |> <| selected_role := replicate (S (length l)) SLAVE_PORT |>).
Proof.
  intros E1 E2 E3 E4 E5 Hid Hv Hr. set (c' := over selected_role _ _).
  assert (Hl : length (ports c') = length l) by apply length_imap.
  split; [exact E1|exact E2|exact E3| |lia| |exact Hid|exact Hv|exact Hr|].
  - change (numberPorts c = length (ports c')). congruence.
  - rewrite Hl. apply length_replicate.
  - intros i q Hq. change (imap (ready_port c) l !! i = Some q) in Hq.
    rewrite list_lookup_imap in Hq. destruct (l !! i) as [p|] eqn:Hp; [|done]. cbn in Hq. injection Hq as <-.
    apply lookup_lt_Some in Hp. destruct (ready_port_fresh c i p Hv Hid) as [F1 F2]; [lia|]. split; [exact F1|exact F2].
Qed.

(** A valid configuration gives an instance that can begin. *)
Lemma config_configured cfg m : config_ok cfg → mac_ok m → configured (config_instance cfg m).
Proof.
  intros Hc Hm. pose proof Hc as [C1 C2 C3 C4]. pose proof (eui64_ok m Hm) as Hid.
  destruct (config_base_params cfg m) as (E2 & E3 & E4). apply ready_configured.
  - rewrite config_base_profile, C1. done.
  - rewrite E2, (proj2 (Z.ltb_ge _ _)) by lia. done.
  - exact E3.
  - exact E4.
  - exact C2.
  - rewrite config_base_clock. exact Hid.
  - rewrite config_base_system. apply system_vector_ok; [done|by apply config_vector_ok].
  - rewrite config_base_system, config_base_clock. apply system_vector_root.
Qed.

Lemma with_ports_roles c l r :
  ports (c <| ports := l |> <| selected_role := r |>) = l ∧
  system_priority (c <| ports := l |> <| selected_role := r |>) = system_priority c ∧
  this_clock (c <| ports := l |> <| selected_role := r |>) = this_clock c ∧
  is_grandmaster (c <| ports := l |> <| selected_role := r |>) = is_grandmaster c.
Proof. done. Qed.
Lemma config_instance_ports cfg m : length (ports (config_instance cfg m)) = length (port_cfg cfg).
Proof.
  unfold config_instance. cbv zeta. rewrite (proj1 (with_ports_roles _ _ _)). apply length_imap.
Qed.
Lemma config_instance_system cfg m : system_priority (config_instance cfg m) =
  system_vector (cfg_gmCapable (domain_cfg cfg)) (net_eui64_from_mac m 0) (config_vector (domain_cfg cfg) zero_vector).
Proof.
  unfold config_instance. cbv zeta. destruct (with_ports_roles (config_base cfg m) (imap (ready_port (config_base cfg m)) (port_cfg cfg))
    (replicate (S (length (port_cfg cfg))) SLAVE_PORT)) as (_ & -> & _). apply config_base_system.
Qed.
Lemma config_base_is_gm cfg m : is_grandmaster (config_base cfg m) = false.
Proof. reflexivity. Qed.
Lemma config_instance_is_gm cfg m : is_grandmaster (config_instance cfg m) = false.
Proof.
  unfold config_instance. cbv zeta. destruct (with_ports_roles (config_base cfg m) (imap (ready_port (config_base cfg m)) (port_cfg cfg))
    (replicate (S (length (port_cfg cfg))) SLAVE_PORT)) as (_ & _ & _ & ->). apply config_base_is_gm.
Qed.
