(* ===== verification/GptpPeers.v ===== *)
(** * gPTP: what one system says and another hears

    Announce messages between systems, and the facts of a settled instance
    that the properties of GptpProps.v are about. *)

From S2P Require Import Prelude Timer GptpBmca Gptp GptpSpec GptpElect GptpSelect GptpSettle GptpEvents GptpRun.

(** ** Messages *)

(** The length of a frame of the message [m]: a header of 14 bytes and the PDU. *)
Definition frame_len (m : list Z) : Z := 14 + Z.of_nat (length m).

Section message.
Context (c : gptp_instance) (q : gptp_port).
Context (Hs : 0 ≤ master_steps_removed c).
Context (Hpath : length (path_trace c) = MAX_PTLV_ENTRIES ∧ Forall id_ok (path_trace c)).
Context (Hid : id_ok (get_port_identity_clock_id q)) (Hgm : id_ok (root_id (gm_priority c))).
Context (Hlog : is_s8 (current_log_announce_interval (params q))).

Lemma ptlv_entries_min : ptlv_entries c = Z.min 16 (master_steps_removed c + 1).
Proof. unfold ptlv_entries, MAX_PTLV_ENTRIES. destruct (Z.ltb_spec (Z.of_nat 16) (master_steps_removed c + 1)); lia. Qed.

Lemma sent_ok : announce_ok (md_set_announce c q).
Proof.
  split_and!.
  - unfold hdr_ok, md_set_announce. cbn. unfold PTP_DOMAIN_MAJOR_SDOID, PTP_MSG_TYPE_ANNOUNCE, PTP_VERSION, PTP_MINOR_VERSION.
    split_and!; try lia; try done; try apply Hid; (destruct (force_2011 c); lia).
  - exact Hgm.
  - apply list.Forall_take. apply Hpath.
Qed.
Lemma sent_path_length : length (path_sequence (md_set_announce c q)) = Z.to_nat (ptlv_entries c).
Proof.
  change (length (take (Z.to_nat (ptlv_entries c)) (path_trace c)) = Z.to_nat (ptlv_entries c)). rewrite length_take, (proj1 Hpath).
  rewrite ptlv_entries_min. unfold MAX_PTLV_ENTRIES. lia.
Qed.
Lemma sent_length : Z.of_nat (length (port_sent c q)) = 68 + 8 * Z.min 16 (master_steps_removed c + 1).
Proof.
  unfold port_sent. rewrite announce_bytes_length by apply sent_ok. rewrite sent_path_length, ptlv_entries_min. lia.
Qed.

(** What a port of another system reads. *)
Lemma sent_read p pad :
  message_of (store_announce p (port_sent c q ++ pad) (frame_len (port_sent c q))) =
  (md_set_announce c q) <| path_sequence ::= λ l, l ++ ((λ i : nat, ld_id (8 * i)
    (take 14 pad ++ drop (14 + length (port_sent c q)) (announce_rx p))) <$> seq 0 (MAX_PTLV_ENTRIES - length l)) |>.
Proof.
  unfold message_of, store_announce, frame_len.
  match goal with |- context [announce_rx ?x] => change (announce_rx x) with
    (take (Z.to_nat (14 + Z.of_nat (length (port_sent c q)))) (port_sent c q ++ pad) ++
     drop (Z.to_nat (14 + Z.of_nat (length (port_sent c q)))) (announce_rx p)) end.
  replace (Z.to_nat (14 + Z.of_nat (length (port_sent c q)))) with (length (port_sent c q) + 14)%nat by lia.
  rewrite take_app_add, <- List.app_assoc. unfold port_sent at 1. rewrite announce_roundtrip; [|apply sent_ok|].
  - by rewrite (Nat.add_comm (length _) 14).
  - rewrite sent_path_length, ptlv_entries_min. unfold MAX_PTLV_ENTRIES. lia.
Qed.

(** The vector that [q] announces, as port number [n] of the receiver stores it. *)
Definition told_vector (n : Z) : ptp_priority_vector :=
  PriorityVector (root_system_identity (gm_priority c)) (htons (master_steps_removed c))
    (PortIdentity (get_port_identity_clock_id q) (htons (u16 (get_port_identity_number q)))) (htons (u16 n)).
Definition told_path : list (list Z) := take (Z.to_nat (ptlv_entries c)) (path_trace c).
Definition told_properties : time_properties := announce_properties (md_set_announce c q).

Context (Hmax : master_steps_removed c ≤ 13).
Context (p : gptp_port) (pad : list Z).
Let r := store_announce p (port_sent c q ++ pad) (frame_len (port_sent c q)).

Lemma told_fits : frame_len (port_sent c q) ≤ sizeof_announce_pdu.
Proof. unfold frame_len. rewrite sent_length. unfold sizeof_announce_pdu. lia. Qed.
Lemma told_vector_of : vector_of r = told_vector (get_port_identity_number p).
Proof.
  unfold vector_of, r. rewrite sent_read. unfold told_vector. set (g := root_system_identity (gm_priority c)).
  transitivity (PriorityVector (SystemIdentity (priority_1 g) (clock_quality g) (priority_2 g) (clock_identity g))
    (htons (master_steps_removed c)) (PortIdentity (get_port_identity_clock_id q) (htons (u16 (get_port_identity_number q))))
    (htons (u16 (get_port_identity_number p)))); [reflexivity|]. by destruct g.
Qed.
Lemma told_steps_of : steps_of r = master_steps_removed c.
Proof.
  unfold steps_of, r. rewrite sent_read. change (ntohs (htons (master_steps_removed c)) = master_steps_removed c).
  apply htons_involutive. lia.
Qed.
Lemma told_present : ptlv_present (message_of r) = true.
Proof. unfold r. rewrite sent_read. reflexivity. Qed.
Lemma told_entries : ptlv_entries c = master_steps_removed c + 1.
Proof. rewrite ptlv_entries_min. lia. Qed.
Lemma told_tlv_length : ntohs (tlv_length_field (message_of r)) = 8 * (master_steps_removed c + 1).
Proof.
  unfold r. rewrite sent_read. change (ntohs (htons (8 * ptlv_entries c)) = 8 * (master_steps_removed c + 1)).
  unfold ntohs. rewrite told_entries, htons_involutive by lia. done.
Qed.
Lemma told_path_of : ptlv_path (message_of r) = told_path.
Proof.
  unfold ptlv_path, ptlv_len. rewrite told_tlv_length. rewrite (proj2 (Z.ltb_ge _ _)) by (unfold MAX_PTLV_ENTRIES; lia).
  replace (8 * (master_steps_removed c + 1) / 8) with (master_steps_removed c + 1) by (rewrite Z.mul_comm, Z.div_mul; lia).
  unfold told_path. rewrite <- told_entries. unfold r. rewrite sent_read.
  match goal with |- take ?n (path_sequence ?m) = _ => change (path_sequence m) with
    (take (Z.to_nat (ptlv_entries c)) (path_trace c) ++ ((λ i : nat, ld_id (8 * i)
      (take 14 pad ++ drop (14 + length (port_sent c q)) (announce_rx p))) <$>
      seq 0 (MAX_PTLV_ENTRIES - length (take (Z.to_nat (ptlv_entries c)) (path_trace c))))) end.
  rewrite take_app_le; [apply take_ge|]; rewrite length_take; [lia|]. rewrite (proj1 Hpath), told_entries. unfold MAX_PTLV_ENTRIES. lia.
Qed.
Lemma told_properties_of : announce_properties (message_of r) = told_properties.
Proof. unfold r. rewrite sent_read. reflexivity. Qed.
Lemma told_source : pid_clock_identity (source_port_id (header (message_of r))) = get_port_identity_clock_id q.
Proof. unfold r. rewrite sent_read. reflexivity. Qed.

(** A receiver that is neither the sender nor on the path accepts the message. *)
Lemma told_qualified own :
  id_ok own → own ≠ get_port_identity_clock_id q → own ∉ told_path → qualified own (message_of r) = true.
Proof.
  intros Ho Hne Hno. unfold qualified. rewrite told_source, told_present, told_tlv_length, told_path_of.
  unfold steps_of in *. pose proof told_steps_of as Hst. unfold steps_of in Hst. rewrite Hst.
  assert (E1 : own_id own (get_port_identity_clock_id q) = false).
  { unfold own_id. apply bool_decide_eq_false. rewrite clock_cmp by done. congruence. }
  assert (E2 : existsb (own_id own) told_path = false).
  { apply not_true_iff_false. rewrite existsb_exists. intros (x & Hx & Hox). apply list_elem_of_In in Hx.
    unfold own_id in Hox. apply bool_decide_eq_true in Hox. apply clock_cmp in Hox; [congruence| |done].
    eapply list.Forall_forall; [|exact Hx]. apply list.Forall_take, Hpath. }
  rewrite E1, E2. rewrite Z.mul_comm, Z.mod_mul by lia. cbn. rewrite andb_true_r. apply Z.ltb_lt. lia.
Qed.
End message.

(** ** A settled instance *)

(** The vector of the system as grandmaster, and the one that port [i] offers:
    one step further than what it has received, with the number of the port. *)
Definition own_priority (c : gptp_instance) : ptp_priority_vector :=
  (system_priority c) <| steps_removed := 0 |> <| port_number := 0 |>
    <| source_port_identity ::= λ s, s <| pid_port_number := 0 |> |>.
Definition path_priority (i : nat) (q : gptp_port) : ptp_priority_vector :=
  (port_priority (params q)) <| steps_removed ::= λ s, htons (u16 (ntohs s + 1)) |> <| port_number := port_be i |>.
(** gmPriority carries the number of the port it is derived from. *)
Definition derived_from (c : gptp_instance) (i : nat) : bool := bool_decide (port_number (gm_priority c) = port_be i).

Lemma port_be_small i : (i < 15)%nat → ntohs (port_be i) = Z.of_nat (S i).
Proof. intros H. unfold port_be. rewrite u16_small by lia. apply htons_involutive. lia. Qed.
Lemma port_be_inj i j : (i < 15)%nat → (j < 15)%nat → port_be i = port_be j → i = j.
Proof. intros Hi Hj H. apply (f_equal ntohs) in H. rewrite !port_be_small in H by done. lia. Qed.

Section settled.
Context (c : gptp_instance) (Hc : settled c) (Hsel : port_state_sm_state c = PORT_STATE_SM_STATE_SELECTION).

Lemma settled_stable : stable (abs c).
Proof. pose proof (st_quiet _ Hc) as H. unfold quiet_instance in H. rewrite Hsel in H. tauto. Qed.
Lemma settled_masks : selected c = 0xffff.
Proof. pose proof (st_quiet _ Hc) as H. unfold quiet_instance in H. rewrite Hsel in H. tauto. Qed.
Lemma settled_gm : elected_gm (abs c) = gm_priority c.
Proof. apply (proj1 (stable_fields _) settled_stable). Qed.

Definition received_from (i : nat) (q : gptp_port) : Prop :=
  ports c !! i = Some q ∧ info_is (params q) = SPANNING_TREE_RECEIVED ∧ root_id (port_priority (params q)) ≠ this_clock c.
Lemma received_candidate i q : received_from i q → b_ports (abs c) !! i = Some (abs_port q) ∧ candidate (this_clock c) (abs_port q) = true.
Proof.
  intros (Hq & Hi & Hr). split; [by apply abs_port_at|]. unfold candidate, abs_port. cbn [b_info b_vector]. rewrite Hi.
  rewrite !bool_decide_true by done. done.
Qed.
Lemma candidate_received i p : b_ports (abs c) !! i = Some p → candidate (this_clock c) p = true → ∃ q, received_from i q ∧ p = abs_port q.
Proof.
  intros Hp Hcand. cbn in Hp. rewrite list_lookup_fmap in Hp. destruct (ports c !! i) as [q|] eqn:Hq; [|done]. injection Hp as <-.
  exists q. split; [|done]. unfold candidate, abs_port in Hcand. cbn [b_info b_vector] in Hcand.
  apply andb_true_iff in Hcand as [H1%bool_decide_eq_true H2%bool_decide_eq_true]. split_and!; [done| |done].
  by destruct (info_is (params q)).
Qed.

Lemma settled_best :
  root_value (gm_priority c) ≤ root_value (system_priority c) ∧
  (∀ i q, received_from i q → root_value (gm_priority c) ≤ root_value (port_priority (params q))) ∧
  (root_system_identity (gm_priority c) = root_system_identity (system_priority c) ∨
   ∃ i q, received_from i q ∧ root_system_identity (gm_priority c) = root_system_identity (port_priority (params q))).
Proof.
  rewrite <- settled_gm. pose proof (winner_port_spec (abs c)) as Hw. unfold root_value.
  destruct (winner_port (abs c)) as [[i p]|] eqn:Ew.
  - destruct Hw as (_ & Hp & Hcand & Hlt & Hall). rewrite (root_elected _ _ _ Ew).
    destruct (candidate_received i p Hp Hcand) as (q & Hq & ->). split_and!.
    + unfold root_value in Hlt. cbn in Hlt |- *. lia.
    + intros j q' Hq'. destruct (received_candidate j q' Hq') as [Hp' Hc']. destruct (Hall _ _ Hp' Hc') as [Hle _]. exact Hle.
    + right. by exists i, q.
  - destruct Hw as (_ & Hall). rewrite (root_elected_none _ Ew). split_and!.
    + done.
    + intros j q' Hq'. destruct (received_candidate j q' Hq') as [Hp' Hc']. exact (Hall _ _ Hp' Hc').
    + by left.
Qed.

(** gmPriority is the vector of the system, or derived from one port: the first
    of those that have received the best grandmaster. *)
Lemma settled_origin :
  gm_priority c = own_priority c ∨
  ∃ i q, received_from i q ∧ gm_priority c = path_priority i q ∧ root_value (gm_priority c) < root_value (system_priority c) ∧
    ∀ j q', received_from j q' → (j < i)%nat → root_value (gm_priority c) < root_value (port_priority (params q')).
Proof.
  rewrite <- settled_gm. pose proof (winner_port_spec (abs c)) as Hw. unfold elected_gm.
  destruct (winner_port (abs c)) as [[i p]|] eqn:Ew; [right|by left].
  destruct Hw as (_ & Hp & Hcand & Hlt & Hall). destruct (candidate_received i p Hp Hcand) as (q & Hq & ->).
  exists i, q. split_and!; [done|done|exact Hlt|].
  intros j q' Hq' Hj. destruct (received_candidate j q' Hq') as [Hp' Hc']. exact (proj2 (Hall _ _ Hp' Hc') Hj).
Qed.
Lemma settled_derived i : (i < length (ports c))%nat → derived_from c i = true →
  ∃ q, received_from i q ∧ gm_priority c = path_priority i q.
Proof.
  intros Hi Hd%bool_decide_eq_true. pose proof (io_max _ (st_ok _ Hc)) as Hmax.
  destruct settled_origin as [E|(j & q & Hq & E & _)]; rewrite E in Hd; cbn in Hd.
  - exfalso. assert (Hb : ntohs (port_be i) = Z.of_nat (S i)) by (apply port_be_small; lia).
    rewrite <- Hd in Hb. change (ntohs 0) with 0 in Hb. lia.
  - exists q. pose proof (lookup_lt_Some _ _ _ (proj1 Hq)) as Hj.
    assert (j = i) as -> by (apply port_be_inj; [lia|lia|done]). done.
Qed.

Lemma settled_present : gm_present c = (priority_1 (root_system_identity (gm_priority c)) <? 255).
Proof.
  rewrite <- settled_gm. pose proof (proj1 (stable_fields _) settled_stable) as (_ & _ & _ & H & _). symmetry. exact H.
Qed.
Lemma settled_is_gm : is_grandmaster c = bool_decide (root_id (gm_priority c) = this_clock c) && gm_present c.
Proof.
  rewrite settled_present, <- settled_gm. pose proof (proj1 (stable_fields _) settled_stable) as (_ & _ & _ & _ & H & _). symmetry. exact H.
Qed.

Lemma settled_port i q : ports c !! i = Some q →
  selected_role c !! S i = Some (role_of_port (gm_priority c) (abs_port q)) ∧
  elected_port (system_priority c) (gm_priority c) i (abs_port q) = abs_port q.
Proof.
  intros Hq. pose proof (proj1 (stable_fields _) settled_stable) as (_ & _ & Hr & _ & _ & Hp). split.
  - rewrite <- settled_gm. transitivity (b_roles (abs c) !! S i); [done|]. rewrite <- Hr.
    change ((role_of_port (elected_gm (abs c)) <$> (abs_port <$> ports c)) !! i = Some (role_of_port (elected_gm (abs c)) (abs_port q))).
    by rewrite !list_lookup_fmap, Hq.
  - rewrite <- settled_gm. pose proof (f_equal (λ l, l !! i) Hp) as H. rewrite ports_elect, list_lookup_imap in H.
    change (b_ports (abs c)) with (abs_port <$> ports c) in H. rewrite !list_lookup_fmap, Hq in H. cbn in H. by injection H as H.
Qed.
End settled.

(** ** A better master *)

Lemma vector_value_root a b : vector_ok a → vector_ok b → root_value a < root_value b → vector_value a < vector_value b.
Proof.
  assert (Hlow : ∀ v, vector_ok v → root_value v * 2 ^ 112 ≤ vector_value v < (root_value v + 1) * 2 ^ 112).
  { intros v (_ & H2 & [[H3 H4] H5] & H6). unfold vector_value, root_value. pose proof (be_range _ H4) as Hb. rewrite H3 in Hb.
    change (256 ^ Z.of_nat 8) with (2 ^ 64) in Hb. pose proof (htons_range _ H2). pose proof (htons_range _ H5). pose proof (htons_range _ H6).
    unfold ntohs. lia. }
  intros Ha%Hlow Hb%Hlow H. lia.
Qed.

Lemma hear_better c i q v s t :
  settled c → port_state_sm_state c = PORT_STATE_SM_STATE_SELECTION → ports c !! i = Some q → vector_ok v → root_id v ≠ this_clock c →
  root_value v < root_value (gm_priority c) → root_value v < root_value (port_priority (params q)) →
  let b := bmca_step (BHear i v s t) (abs c) in
  root_system_identity (b_gm b) = root_system_identity v ∧ b_roles b !! S i = Some SLAVE_PORT ∧ b_is_gm b = false ∧
  b_master_steps b = u16 (s + 1).
Proof.
  intros Hc Hsel Hq Hv Hne Hgm Hk b. pose proof (abs_port_at c i q Hq) as Hp. pose proof (io_ports _ (st_ok _ Hc) _ _ Hq) as Hinv.
  set (p := BPort Received v s t). set (b1 := b_set i p (abs c)).
  assert (Eb : b = elect b1).
  { unfold b. cbn [bmca_step]. rewrite Hp. unfold accepts. change (b_vector (abs_port q)) with (port_priority (params q)).
    rewrite (proj2 (Z.ltb_lt _ _) (vector_value_root _ _ Hv (pi_vector _ _ Hinv) Hk)). by rewrite orb_true_r. }
  assert (Hb1 : ∀ j, b_ports b1 !! j = (if decide (i = j) then Some p else b_ports (abs c) !! j)).
  { intros j. change (b_ports b1) with (<[i := p]> (b_ports (abs c))). case_decide as D.
    - subst j. apply list_lookup_insert_eq. by eapply lookup_lt_Some.
    - by apply list_lookup_insert_ne. }
  destruct (settled_best c Hc Hsel) as (Hsys & Hrcv & _).
  assert (Hcand : candidate (this_clock c) p = true) by (unfold candidate; cbn [b_info b_vector p]; rewrite !bool_decide_true by done; done).
  assert (Hwp : winner_port b1 = Some (i, p)).
  { pose proof (winner_port_spec b1) as Hw. pose proof (Hb1 i) as Hi. rewrite decide_True in Hi by done.
    destruct (winner_port b1) as [[k p']|] eqn:Ew.
    - destruct Hw as (_ & Hk' & Hcand' & _ & Hall). rewrite Hb1 in Hk'. case_decide as D; [subst k; by injection Hk' as ->|].
      destruct (candidate_received c k p' Hk' Hcand') as (q' & Hq' & ->). pose proof (Hrcv _ _ Hq') as Hle.
      destruct (Hall _ _ Hi Hcand) as [Hle' _]. change (root_value (port_priority (params q')) ≤ root_value v) in Hle'. lia.
    - destruct Hw as [_ Hall]. specialize (Hall _ _ Hi Hcand). change (root_value (system_priority c) ≤ root_value v) in Hall. lia. }
  assert (Hroot : root_system_identity (elected_gm b1) = root_system_identity v) by (by rewrite (root_elected b1 i p)).
  assert (Hid : root_id (elected_gm b1) = root_id v) by (unfold root_id; by rewrite Hroot).
  rewrite Eb. split_and!.
  - exact Hroot.
  - change ((role_of_port (elected_gm b1) <$> b_ports b1) !! i = Some SLAVE_PORT). rewrite list_lookup_fmap, Hb1, decide_True by done.
    cbn. unfold role_of_port. cbn. rewrite Hid. by rewrite bool_decide_true.
  - change (bool_decide (root_id (elected_gm b1) = this_clock c) && (priority_1 (root_system_identity (elected_gm b1)) <? 255) = false).
    rewrite Hid. by rewrite bool_decide_false.
  - change (elected_steps b1 = u16 (s + 1)). unfold elected_steps. by rewrite Hwp.
Qed.
