(* ===== verification/GptpProps.v ===== *)
(** * gPTP: the properties of the best master clock algorithm

    What an instance promises from its configuration on, what its election
    means, and what systems tell each other. *)

From S2P Require Import Prelude MaapAddr Timer GptpBmca Gptp GptpSpec GptpElect GptpSelect GptpSettle GptpEvents GptpRun GptpInit.
From S2P Require Import GptpConfig GptpPeers.

Section session.
Context `{!Platform gptp_call}.
Implicit Types (w : gworld) (c : gptp_instance).

(** [gptp_instance_init], then events. *)
Definition gptp_session (cfg : fgptp_config) (addr : option mac) (l : list gptp_event) : M gptp_call gptp_instance Z :=
  let! rc := gptp_instance_init cfg addr in
  if rc =? 0 then gptp_run l;; ret rc else ret rc.

(** From a configured instance. *)
Lemma begin_keeps (P : bmca → Prop) c l w :
  step_keeps P → configured c → Forall (event_ok (length (ports c))) l → P (b_init (abs c)) → w_st w = c →
  wp (gptp_instance_begin;; gptp_run l) (λ _ w', settled (w_st w') ∧ P (abs (w_st w')) ∧
    system_priority (w_st w') = system_priority c ∧ numberPorts (w_st w') = length (ports c)) w.
Proof.
  intros HP Hcf Hl Hb Hw. rewrite wp_bind. eapply wp_mono; [by apply (gptp_instance_begin_spec c)|]. intros [] w1 [B1 B2 B3 B4 B5 B6].
  assert (Hn : numberPorts (w_st w1) = length (ports c)).
  { transitivity (numberPorts c); [exact (f_equal numberPorts B4)|]. apply (cf_number _ Hcf). }
  eapply wp_mono; [apply (gptp_run_spec P (w_st w1)); [done|done|by rewrite B3| |done]|].
  - by rewrite <- (io_number _ (st_ok _ B1)), Hn.
  - intros [] w2 (H2 & H3 & H4). split_and!; [done|done| |].
    + transitivity (system_priority (w_st w1)); [exact (f_equal system_priority H4)|exact (f_equal system_priority B4)].
    + rewrite <- Hn. exact (f_equal numberPorts H4).
Qed.

Lemma session_keeps (P : bmca → Prop) cfg m l w :
  step_keeps P → config_ok cfg → mac_ok m → Forall (event_ok (length (port_cfg cfg))) l →
  P (b_init (abs (config_instance cfg m))) →
  wp (gptp_session cfg (Some m) l) (λ rc w', rc = 0 ∧ settled (w_st w') ∧ P (abs (w_st w')) ∧
    system_priority (w_st w') = system_priority (config_instance cfg m) ∧
    numberPorts (w_st w') = length (port_cfg cfg)) w.
Proof.
  intros HP Hcfg Hm Hl Hb. pose proof (config_configured cfg m Hcfg Hm) as Hcf. pose proof (config_instance_ports cfg m) as Hn.
  unfold gptp_session, gptp_instance_init. rewrite configure_instance by done. generalize dependent (config_instance cfg m). intros c Hb Hcf Hn.
  rewrite !wp_bind, wp_modify, wp_bind. cbn [w_clock w_trace].
  pose proof (begin_keeps P c l (World c (w_clock w) (w_trace w)) HP Hcf) as H. rewrite Hn in H. specialize (H Hl Hb eq_refl).
  rewrite wp_bind in H. eapply wp_mono; [exact H|]. intros [] w1 H1. rewrite wp_ret. cbn [Z.eqb].
  rewrite wp_bind. eapply wp_mono; [exact H1|]. intros [] w2 (H2 & H3 & H4 & H5). rewrite wp_ret. by split_and!.
Qed.

(** C8: from a valid configuration, initialization and any sequence of
    messages, timeouts, capability and link changes and interval requests end:
    no null pointer, no index out of bounds, and the loops of the machines,
    which call each other, end within their fuel.  Afterwards the instance is
    at rest: no port waits for a selection or an update, every machine is in
    its idle state, and the election would change nothing. *)
Theorem gptp_session_settles cfg m l w (Hcfg : config_ok cfg) (Hm : mac_ok m)
    (Hl : Forall (event_ok (length (port_cfg cfg))) l) :
  wp (gptp_session cfg (Some m) l) (λ rc w', rc = 0 ∧ settled (w_st w') ∧
    (port_state_sm_state (w_st w') = PORT_STATE_SM_STATE_SELECTION → stable (abs (w_st w')))) w.
Proof.
  eapply wp_mono; [by apply (session_keeps (λ _, True))|]. intros rc w' (H1 & H2 & _). split_and!; [done|done|].
  by apply settled_stable.
Qed.

(** C4: an event of an instance at rest is a step of the abstract algorithm: a
    message that is qualified and not worse than what the port knows, a
    timeout of the master, a port that begins or ceases to take part elect
    anew from what the ports then know; everything else changes nothing of the
    election.  The other ports keep what they know but for the election, and
    every message that is sent says what the instance has elected. *)
Theorem gptp_event_refines c e w (Hc : settled c) (He : event_ok (length (ports c)) e) (Hw : w_st w = c) :
  wp (gptp_handle e) (λ _ w', handled c (event_port e) (bmca_step (bevent_of c e) (abs c)) w w') w.
Proof. by apply gptp_handle_spec. Qed.

(** Only a capable system is its own grandmaster. *)
Definition capable_gm (b : bmca) : Prop := b_is_gm b = true → priority_1 (root_system_identity (b_system b)) < 255.
Definition own_root (b : bmca) : Prop := root_id (b_system b) = b_clock b.

Lemma elect_capable b : own_root b → capable_gm (elect b).
Proof.
  intros Ho H. cbn in H. apply andb_true_iff in H as [Hid%bool_decide_eq_true Hp%Z.ltb_lt].
  pose proof (winner_port_spec b) as Hw. destruct (winner_port b) as [[i p]|] eqn:Ew.
  - destruct Hw as (_ & _ & Hc & _). unfold candidate in Hc. apply andb_true_iff in Hc as [_ Hc%bool_decide_eq_true].
    exfalso. apply Hc. rewrite <- Hid. unfold root_id. by rewrite (root_elected _ _ _ Ew).
  - rewrite (root_elected_none _ Ew) in Hp. exact Hp.
Qed.
Lemma capable_keeps : step_keeps (λ b, own_root b ∧ capable_gm b).
Proof.
  intros e b [Ho Hg]. assert (Hs : ∀ i p, own_root (b_set i p b)) by done.
  destruct e as [|i|i|i|i v s t]; cbn [bmca_step]; try done; (destruct (b_ports b !! i) as [p|]; [|done]).
  - split; [done|by apply elect_capable].
  - split; [done|by apply elect_capable].
  - destruct (bool_decide _); [|done]. split; [done|by apply elect_capable].
  - destruct (accepts _ _); [|done]. split; [done|by apply elect_capable].
Qed.

(** C39: a system that is not configured as grandmaster-capable never is
    grandmaster, whatever messages it receives, and its priority1 is 255. *)
Theorem incapable_never_grandmaster cfg m l w (Hcfg : config_ok cfg) (Hm : mac_ok m)
    (Hl : Forall (event_ok (length (port_cfg cfg))) l) (Hcap : cfg_gmCapable (domain_cfg cfg) = false) :
  wp (gptp_session cfg (Some m) l) (λ _ w', is_grandmaster (w_st w') = false ∧
    priority_1 (root_system_identity (system_priority (w_st w'))) = 255) w.
Proof.
  pose proof (config_configured cfg m Hcfg Hm) as Hcf.
  pose proof (config_instance_system cfg m) as Hsys. rewrite Hcap in Hsys.
  eapply wp_mono; [apply (session_keeps (λ b, own_root b ∧ capable_gm b)); [apply capable_keeps|done|done|done|]|].
  - split; [exact (proj1 (cf_self _ Hcf))|]. intros H. exfalso. change (is_grandmaster (config_instance cfg m) = true) in H.
    rewrite config_instance_is_gm in H. discriminate H.
  - intros rc w' (_ & Hs & [_ Hg] & Hv & _). rewrite Hv, Hsys. split; [|reflexivity].
    destruct (is_grandmaster (w_st w')) eqn:E; [|done]. specialize (Hg E).
    change (priority_1 (root_system_identity (system_priority (w_st w'))) < 255) in Hg. rewrite Hv, Hsys in Hg.
    change (255 < 255) in Hg. lia.
Qed.
End session.

(** ** The election *)

(** The code's rule for the role of a port. *)
Lemma port_role_code c i q (Hc : settled c) (Hs : port_state_sm_state c = PORT_STATE_SM_STATE_SELECTION) (Hq : ports c !! i = Some q) :
  let v := port_priority (params q) in
  selected_role c !! S i = Some (
    if negb (port_usable q) then DISABLED_PORT
    else if bool_decide (info_is (params q) = SPANNING_TREE_MINE) then MASTER_PORT
    else if bool_decide (root_id (gm_priority c) = root_id v) then SLAVE_PORT
    else PASSIVE_PORT) ∧
  (port_usable q = true → info_is (params q) = SPANNING_TREE_MINE → v = announced (system_priority c) (gm_priority c) i) ∧
  (port_usable q = true → info_is (params q) ≠ SPANNING_TREE_MINE →
     info_is (params q) = SPANNING_TREE_RECEIVED ∧ (root_id (gm_priority c) = root_id v ∨ root_id v = this_clock c)).
Proof.
  intros v. destruct (settled_port c Hc Hs i q Hq) as [Hr He]. pose proof (rp_state _ (st_ports _ Hc _ _ Hq)) as Hst.
  pose proof (io_ports _ (st_ok _ Hc) _ _ Hq) as Hinv. unfold knows in Hst.
  destruct (port_usable q) eqn:Hu.
  2:{ destruct Hst as [_ Hi]. split; [|by split]. rewrite Hr. unfold role_of_port, abs_port. cbn. by rewrite Hi. }
  destruct Hst as [_ [Hi|Hi]].
  - split; [|split; [|done]].
    + rewrite Hr. unfold role_of_port, abs_port. cbn. rewrite Hi. reflexivity.
    + intros _ _. pose proof (f_equal b_vector He) as Hv. unfold elected_port, role_of_port, abs_port in Hv. cbn in Hv.
      rewrite Hi in Hv. cbn in Hv. symmetry. exact Hv.
  - rewrite (bool_decide_false (info_is (params q) = SPANNING_TREE_MINE)) by (by rewrite Hi).
    unfold elected_port, role_of_port, abs_port in Hr, He. cbn in Hr, He. rewrite Hi in Hr, He. cbn in Hr, He. cbn [negb].
      fold v in Hr, He. rewrite Hr.
    destruct (bool_decide (root_id (gm_priority c) = root_id v)) eqn:Eb.
    { apply bool_decide_eq_true in Eb. split_and!; [done|by rewrite Hi|]. intros _ _. split; [done|by left]. }
    destruct (root_value (gm_priority c) <? root_value v) eqn:El.
    { exfalso. apply (f_equal b_info) in He. cbn in He. discriminate He. }
    split_and!; [done|by rewrite Hi|]. intros _ _. split; [done|]. right.
    destruct (decide (root_id v = this_clock c)) as [|Hne]; [done|]. exfalso.
    destruct (settled_best c Hc Hs) as (_ & Hb & _). specialize (Hb i q (conj Hq (conj Hi Hne))). apply Z.ltb_ge in El.
    change (root_value (gm_priority c) ≤ root_value v) in Hb. assert (Heq : root_value (gm_priority c) = root_value v) by lia.
    apply bool_decide_eq_false in Eb. apply Eb. unfold root_id. f_equal. apply system_value_inj; [|apply (vector_root_ok v), Hinv|exact Heq].
    apply (vector_root_ok (gm_priority c)). rewrite <- (settled_gm c Hc Hs). apply elected_ok. apply Hc.
Qed.

(** C21: the grandmaster that an instance has elected, in the order of
    priority1, clock class, accuracy, variance, priority2 and clock identity of
    the root (steps and ports do not count).  It is at least as good as the
    system itself, and as every grandmaster that a port has received and not
    lost, except one that names this very system as the root with a better
    identity than it has: updt_roles_tree skips the vectors whose root is this
    clock, where its comment (b) skips those whose master port is on this clock
    (which are not qualified on reception), so that such a vector of another
    station is ignored ([ignored_better]).  gmPriority is the vector of the
    system, or that of one port, one step further: the first port of those with
    the best grandmaster, which is then better than the system.  It is present
    unless its priority1 is 255, and the system is the grandmaster if it is
    present and has the clock identity of the system. *)
Theorem grandmaster_is_best c (Hc : settled c) (Hs : port_state_sm_state c = PORT_STATE_SM_STATE_SELECTION) :
  root_value (gm_priority c) ≤ root_value (system_priority c) ∧
  (∀ i q, ports c !! i = Some q → info_is (params q) = SPANNING_TREE_RECEIVED →
     (root_id (port_priority (params q)) = this_clock c →
        root_value (system_priority c) ≤ root_value (port_priority (params q))) →
     root_value (gm_priority c) ≤ root_value (port_priority (params q))) ∧
  (gm_priority c = own_priority c ∨
   ∃ i q, received_from c i q ∧ gm_priority c = path_priority i q ∧ root_value (gm_priority c) < root_value (system_priority c) ∧
     ∀ j q', received_from c j q' → (j < i)%nat → root_value (gm_priority c) < root_value (port_priority (params q'))) ∧
  gm_present c = (priority_1 (root_system_identity (gm_priority c)) <? 255) ∧
  is_grandmaster c = bool_decide (root_id (gm_priority c) = this_clock c) && gm_present c.
Proof.
  destruct (settled_best c Hc Hs) as (H1 & H2 & _). pose proof (settled_origin c Hc Hs).
  pose proof (settled_present c Hc Hs). pose proof (settled_is_gm c Hc Hs). split_and!; [done| |done..].
  intros i q Hq Hi Hself. destruct (decide (root_id (port_priority (params q)) = this_clock c)) as [E|E].
  - specialize (Hself E). lia.
  - by apply (H2 i q).
Qed.

(** The role that 802.1AS, and the comments 3) to 8) of updt_roles_tree, give to
    port [i] at rest: SLAVE is the port that gmPriority is derived from. *)
Definition documented_role (c : gptp_instance) (i : nat) (q : gptp_port) : ptp_port_role_t :=
  if negb (port_usable q) then DISABLED_PORT
  else if bool_decide (info_is (params q) = SPANNING_TREE_MINE) then MASTER_PORT
  else if derived_from c i then SLAVE_PORT
  else PASSIVE_PORT.
(** A port that has heard of the grandmaster, though gmPriority is not derived
    from what it has heard. *)
Definition hears_again (c : gptp_instance) (i : nat) (q : gptp_port) : bool :=
  port_usable q && negb (bool_decide (info_is (params q) = SPANNING_TREE_MINE)) && negb (derived_from c i)
  && bool_decide (root_id (gm_priority c) = root_id (port_priority (params q))).

(** C22: the roles after an election.  A port that does not take part is
    DISABLED; one without a better master is MASTER and announces the
    grandmaster with this system as the source; the port that gmPriority is
    derived from is SLAVE; any other one has received a vector that is not
    worse, and is PASSIVE: this is the rule of 802.1AS and of the comments in
    updt_roles_tree.  The code departs from it in exactly one case, since it
    compares the clock identity of the roots only (finding, site_fsm.c:270): a
    port that hears of the grandmaster although gmPriority comes from another
    port, or from the system itself, is SLAVE too, not PASSIVE
    ([two_slave_ports], [slave_of_itself]).  A PASSIVE port has heard of this
    system itself while another is the grandmaster. *)
Theorem port_roles c i q (Hc : settled c) (Hs : port_state_sm_state c = PORT_STATE_SM_STATE_SELECTION) (Hq : ports c !! i = Some q) :
  let v := port_priority (params q) in
  selected_role c !! S i = Some (if hears_again c i q then SLAVE_PORT else documented_role c i q) ∧
  (port_usable q = true → info_is (params q) = SPANNING_TREE_MINE → v = announced (system_priority c) (gm_priority c) i) ∧
  (port_usable q = true → info_is (params q) ≠ SPANNING_TREE_MINE →
     info_is (params q) = SPANNING_TREE_RECEIVED ∧ (root_id (gm_priority c) = root_id v ∨ root_id v = this_clock c)) ∧
  (derived_from c i = true → received_from c i q ∧ gm_priority c = path_priority i q).
Proof.
  destruct (port_role_code c i q Hc Hs Hq) as (H1 & H2 & H3). intros v. fold v in H1, H2, H3.
  assert (Hd : derived_from c i = true → received_from c i q ∧ gm_priority c = path_priority i q).
  { intros Hd. destruct (settled_derived c Hc Hs i (lookup_lt_Some _ _ _ Hq) Hd) as (q' & Hr & E).
    assert (q' = q) as -> by (destruct Hr; congruence). done. }
  split_and!; [|done..]. rewrite H1. unfold hears_again, documented_role. fold v.
  destruct (port_usable q); cbn [negb andb]; [|done].
  destruct (bool_decide (info_is (params q) = SPANNING_TREE_MINE)); cbn [negb andb]; [done|].
  destruct (derived_from c i); cbn [negb andb].
  - destruct (Hd eq_refl) as [_ E]. rewrite bool_decide_true; [done|]. by rewrite E.
  - by destruct (bool_decide _).
Qed.

(** ** Announce messages *)

Section messages.
Context `{!Platform gptp_call}.
Implicit Types (w : gworld) (c : gptp_instance).

Lemma settled_may_transmit c i q :
  settled c → port_state_sm_state c = PORT_STATE_SM_STATE_SELECTION → ports c !! i = Some q → may_transmit c q = true.
Proof.
  intros Hc Hs Hq. unfold may_transmit. rewrite (settled_masks c Hc Hs), (rp_updt _ (st_ports _ Hc _ _ Hq)).
  rewrite (pi_number _ _ (io_ports _ (st_ok _ Hc) _ _ Hq)). pose proof (lookup_lt_Some _ _ _ Hq). pose proof (io_max _ (st_ok _ Hc)).
  rewrite mask_all by lia. done.
Qed.

(** C27: when the announce interval of a port is over and there is memory for
    the frame, a MASTER port whose
    asymmetry is not being measured sends exactly one Announce message, which
    says what the instance has elected, and any other port sends nothing; the
    election does not change and the instance is at rest again. *)
Theorem transmit_opportunity c i q w (Hc : settled c) (Hs : port_state_sm_state c = PORT_STATE_SM_STATE_SELECTION)
    (Hq : ports c !! i = Some q) (Ha : alloc_ok) (Hw : w_st w = c) :
  wp (gptp_handle (EvTransmit i)) (λ _ w', settled (w_st w') ∧ abs (w_st w') = abs c ∧
    announces (w_trace w') =
      (if bool_decide (selected_role c !! S i = Some MASTER_PORT) && negb (get_port_asymmetry q) then [(i, port_sent c q)] else []) ++
      announces (w_trace w)) w.
Proof.
  eapply (transmit_handled c i q); [done|done|done|]. intros w' q' _ _ _ Hsent Hh. split_and!; [apply Hh|apply Hh|].
  assert (Hn : Z.to_nat (get_port_identity_number q) = S i) by (rewrite (pi_number _ _ (io_ports _ (st_ok _ Hc) _ _ Hq)); lia).
  assert (Hd : tx_due c q PORT_ANNOUNCE_TRANSMIT_SM_EVENT_TRANSMIT_INTERVAL =
    bool_decide (selected_role c !! S i = Some MASTER_PORT) && negb (get_port_asymmetry q)).
  { unfold tx_due, may_announce. rewrite Hn, (settled_may_transmit c i q Hc Hs Hq), andb_true_r.
    rewrite (bool_decide_true (idle q)) by apply (rp_idle _ (st_ports _ Hc _ _ Hq)). cbn. by rewrite orb_true_r, andb_true_r. }
  unfold sent_one in Hsent. rewrite Hd in Hsent. destruct (_ && _); [|exact Hsent]. destruct Hsent as [_ Hsent]. by apply Hsent.
Qed.

(** The memory of the sender is that of its types, and its path fits a frame. *)
Record speaks (c : gptp_instance) (i : nat) (q : gptp_port) (x : nat * list Z) : Prop := {
  sk_settled : settled c;
  sk_elected : port_state_sm_state c = PORT_STATE_SM_STATE_SELECTION;
  sk_port : ports c !! i = Some q;
  sk_truthful : truthful c i q x;
  sk_path : Forall id_ok (path_trace c);
  sk_log : is_s8 (current_log_announce_interval (params q));
  sk_steps : 0 ≤ master_steps_removed c;
}.

Lemma speaks_sent c i q x : speaks c i q x → ∃ q',
  x.2 = port_sent c q' ∧ identity q' = identity q ∧ (length (path_trace c) = MAX_PTLV_ENTRIES ∧ Forall id_ok (path_trace c)) ∧
  id_ok (get_port_identity_clock_id q') ∧ id_ok (root_id (gm_priority c)) ∧ is_s8 (current_log_announce_interval (params q')).
Proof.
  intros [Hc Hs Hq (_ & _ & _ & n & Hx) Hp Hl Hm]. exists (q <| announce_tx_seqnum := n |>). split_and!; try done.
  - apply (io_path _ (st_ok _ Hc)).
  - apply (pi_clock _ _ (io_ports _ (st_ok _ Hc) _ _ Hq)).
  - rewrite <- (settled_gm c Hc Hs). apply vector_root_ok, elected_ok, Hc.
Qed.

(** What the flags of a message say. *)
Definition told_times (c : gptp_instance) : time_properties :=
  let t := props c in
  let flag x f := if x =? 0 then 0 else f in
  TimeProperties (flag (tp_leap61 t) 1) (flag (tp_leap59 t) 2) (flag (tp_current_utc_offset_valid t) 4) (flag (tp_time_traceable t) 16)
    (flag (tp_frequency_traceable t) 32) (u16 (tp_current_utc_offset t)) (tp_time_source t).

Lemma told_times_of c q : told_properties c q = told_times c.
Proof.
  unfold told_properties, told_times, announce_properties.
  change (flags (header (md_set_announce c q))) with (htons (announce_flags c)).
  change (current_utc_offset (md_set_announce c q)) with (htons (u16 (tp_current_utc_offset (props c)))).
  change (time_source (md_set_announce c q)) with (tp_time_source (props c)).
  unfold ntohs. rewrite (htons_involutive (u16 _)) by apply u16_range. unfold announce_flags.
  destruct (tp_leap61 (props c) =? 0), (tp_leap59 (props c) =? 0), (tp_current_utc_offset_valid (props c) =? 0),
    (tp_time_traceable (props c) =? 0), (tp_frequency_traceable (props c) =? 0), (domain c =? PTP_DOMAIN_0); reflexivity.
Qed.

(** C26: a message of a system whose grandmaster is at most 13 steps away fits
    the frame of a receiver, which reads from it what the sender has elected:
    the grandmaster, the steps to it, the port of the sender, the path and the
    properties of the time; a receiver that is neither the sender nor on the
    path accepts it. *)
Theorem announce_transfer c i q x p pad own (Hx : speaks c i q x) (Hn : master_steps_removed c ≤ 13) :
  let r := store_announce p (x.2 ++ pad) (frame_len x.2) in
  frame_len x.2 ≤ sizeof_announce_pdu ∧
  vector_of r = told_vector c q (get_port_identity_number p) ∧
  steps_of r = master_steps_removed c ∧
  ptlv_path (message_of r) = told_path c ∧
  announce_properties (message_of r) = told_times c ∧
  (id_ok own → own ≠ get_port_identity_clock_id q → own ∉ told_path c → qualified own (message_of r) = true).
Proof.
  intros r. destruct (speaks_sent c i q x Hx) as (q' & Ex & Hid & Hpath & Hcl & Hgm & Hlog). pose proof (sk_steps _ _ _ _ Hx) as Hs.
  unfold r. rewrite Ex. split_and!.
  - by apply told_fits.
  - rewrite told_vector_of by done. unfold told_vector, get_port_identity_clock_id, get_port_identity_number. by rewrite Hid.
  - by apply told_steps_of.
  - by apply told_path_of.
  - rewrite told_properties_of by done. apply told_times_of.
  - intros Ho Hne Hno. apply told_qualified; try done. unfold get_port_identity_clock_id. by rewrite Hid.
Qed.

(** C16: a system that hears, on a port that takes part, of a grandmaster that is
    better than its own and than what the port knows, and on whose path it is
    not, follows it: the two systems then agree on the grandmaster, the port
    is SLAVE, the system is no grandmaster and one step further away than the
    sender. *)
Theorem better_master_wins c1 i q1 x c2 j q2 pad w (Hx : speaks c1 i q1 x) (Hn : master_steps_removed c1 ≤ 13)
    (Hc : settled c2) (Hs : port_state_sm_state c2 = PORT_STATE_SM_STATE_SELECTION) (Hq : ports c2 !! j = Some q2)
    (Hu : port_usable q2 = true) (Hroot : root_id (gm_priority c1) ≠ this_clock c2)
    (Hne : this_clock c2 ≠ get_port_identity_clock_id q1) (Hpath : this_clock c2 ∉ told_path c1)
    (Hgm : root_value (gm_priority c1) < root_value (gm_priority c2))
    (Hk : root_value (gm_priority c1) < root_value (port_priority (params q2)))
    (Hpad : (14 ≤ length pad)%nat) (Hbytes : Forall is_byte (x.2 ++ pad)) (Hw : w_st w = c2) :
  wp (gptp_handle (EvAnnounce j (x.2 ++ pad) (frame_len x.2))) (λ _ w', settled (w_st w') ∧
    root_system_identity (gm_priority (w_st w')) = root_system_identity (gm_priority c1) ∧
    selected_role (w_st w') !! S j = Some SLAVE_PORT ∧ is_grandmaster (w_st w') = false ∧
    master_steps_removed (w_st w') = master_steps_removed c1 + 1) w.
Proof.
  destruct (speaks_sent c1 i q1 x Hx) as (q' & Ex & Hid & Hp & Hcl & Hgmok & Hlog). pose proof (sk_steps _ _ _ _ Hx) as Hst.
  pose proof (lookup_lt_Some _ _ _ Hq) as Hj. pose proof (io_ports _ (st_ok _ Hc) _ _ Hq) as Hinv.
  pose proof (io_own _ (st_ok _ Hc) _ _ Hq) as Hown.
  eapply wp_mono; [apply (gptp_handle_spec c2); [done| |done]|].
  { split; [exact Hj|]. split; [|exact Hbytes]. rewrite length_app. unfold frame_len. lia. }
  intros [] w' Hh. pose proof (ha_abs _ _ _ _ _ Hh) as Habs. unfold bevent_of in Habs. cbn [event_port] in Habs. rewrite Hq in Habs.
  cbn [bevent_at] in Habs. set (r := store_announce q2 (x.2 ++ pad) (frame_len x.2)) in *.
  assert (Hfit : (frame_len x.2 <=? sizeof_announce_pdu) = true) by (rewrite Ex; by apply Z.leb_le, told_fits).
  assert (Hqual : qualified (this_clock c2) (message_of r) = true).
  { unfold r. rewrite Ex. apply told_qualified; try done; [apply (io_clock _ (st_ok _ Hc))|].
    unfold get_port_identity_clock_id in *. by rewrite Hid. }
  assert (Hv : vector_of r = told_vector c1 q' (get_port_identity_number q2)) by (unfold r; rewrite Ex; by apply told_vector_of).
  assert (Hsr : steps_of r = master_steps_removed c1) by (unfold r; rewrite Ex; by apply told_steps_of).
  rewrite Hfit in Habs. unfold hears in Habs. change (port_usable r) with (port_usable q2) in Habs.
  change (get_port_identity_clock_id r) with (get_port_identity_clock_id q2) in Habs. rewrite Hu, Hown, Hqual in Habs. cbn [andb] in Habs.
  rewrite Hsr in Habs.
  assert (Hvok : vector_ok (vector_of r)).
  { rewrite Hv. assert (Hg : vector_ok (gm_priority c1)).
    { rewrite <- (settled_gm c1 (sk_settled _ _ _ _ Hx) (sk_elected _ _ _ _ Hx)). apply elected_ok, (sk_settled _ _ _ _ Hx). }
    destruct Hg as (H1 & _). split_and!; [exact H1|apply htons_range; cbn; lia| |apply htons_u16_ok].
    split; [exact Hcl|apply htons_u16_ok]. }
  assert (Hrv : root_system_identity (vector_of r) = root_system_identity (gm_priority c1)) by (by rewrite Hv).
  destruct (hear_better c2 j q2 (vector_of r) (master_steps_removed c1) (announce_properties (message_of r)) Hc Hs Hq Hvok) as (R1 & R2 & R3 & R4).
  - unfold root_id in *. by rewrite Hrv.
  - unfold root_value in *. by rewrite Hrv.
  - unfold root_value in *. by rewrite Hrv.
  - rewrite <- Habs in R1, R2, R3, R4. split_and!; [apply Hh| |exact R2|exact R3|].
    + by rewrite <- Hrv.
    + rewrite <- (u16_small (master_steps_removed c1 + 1)) by lia. exact R4.
Qed.
End messages.

(** ** Messages that count for nothing *)

Section ignored.
Context `{!Platform gptp_call}.
Implicit Types (w : gworld) (c : gptp_instance).

(** The message of [m] has passed through the system [own]. *)
Definition looped (own : list Z) (m : ptp_announce_pdu) : Prop :=
  pid_clock_identity (source_port_id (header m)) = own ∨ ptlv_present m = true ∧ own ∈ ptlv_path m.
Definition malformed (m : ptp_announce_pdu) : Prop :=
  255 ≤ ntohs (announce_steps_removed m) ∨ ptlv_present m = true ∧ ntohs (tlv_length_field m) mod 8 ≠ 0.

Lemma own_id_true own : own_id own own = true.
Proof. unfold own_id. apply bool_decide_eq_true, memcmp_refl. Qed.
Lemma unqualified own m : looped own m ∨ malformed m → qualified own m = false.
Proof.
  unfold qualified. intros [[->|[Hp Ho]]|[Hs|[Hp Hl]]].
  - by rewrite own_id_true.
  - rewrite Hp. rewrite (proj2 (existsb_exists _ _)); [by rewrite !andb_false_r|]. exists own. split; [by apply list_elem_of_In|].
    apply own_id_true.
  - rewrite (proj2 (Z.ltb_ge _ _)) by done. by rewrite andb_false_r.
  - rewrite Hp, (proj2 (Z.eqb_neq _ _)) by done. cbn. by rewrite !andb_false_r.
Qed.

(** A message that comes from this system or has passed through it, one with
    a stepsRemoved of 255 or a path whose length is no multiple of 8, one on a
    port that does not take part, and a frame that is longer than the structure
    of an Announce message change nothing of what the system has elected. *)
Lemma message_ignored c i q data len w (Hc : settled c) (Hq : ports c !! i = Some q)
    (Hlen : 0 ≤ len ≤ Z.of_nat (length data)) (Hdata : Forall is_byte data)
    (Hbad : sizeof_announce_pdu < len ∨ port_usable q = false ∨
       looped (this_clock c) (message_of (store_announce q data len)) ∨ malformed (message_of (store_announce q data len)))
    (Hw : w_st w = c) :
  wp (gptp_handle (EvAnnounce i data len)) (λ _ w', settled (w_st w') ∧ abs (w_st w') = abs c) w.
Proof.
  pose proof (lookup_lt_Some _ _ _ Hq) as Hi. pose proof (io_own _ (st_ok _ Hc) _ _ Hq) as Hown.
  eapply wp_mono; [by apply (gptp_handle_spec c)|]. intros [] w' Hh. split; [apply Hh|]. rewrite (ha_abs _ _ _ _ _ Hh).
  unfold bevent_of. cbn [event_port]. rewrite Hq. cbn [bevent_at]. destruct (len <=? sizeof_announce_pdu) eqn:El; [|done].
  apply Z.leb_le in El. set (r := store_announce q data len) in *. unfold hears. change (port_usable r) with (port_usable q).
  change (get_port_identity_clock_id r) with (get_port_identity_clock_id q). rewrite Hown.
  destruct Hbad as [Hbad|[->|Hbad]]; [lia|done|]. rewrite unqualified by done. by rewrite andb_false_r.
Qed.

(** C40: the length that is compared with that of the structure is the length of
    the frame, which has 14 bytes more: what a system says that is 14 steps
    or more away from the grandmaster, and whose path has 15 or 16 entries, no
    other system takes into account. *)
Theorem long_path_lost c1 i q1 x c2 j q2 pad w (Hx : speaks c1 i q1 x) (Hn : 14 ≤ master_steps_removed c1)
    (Hc : settled c2) (Hq : ports c2 !! j = Some q2) (Hpad : (14 ≤ length pad)%nat) (Hbytes : Forall is_byte (x.2 ++ pad)) (Hw : w_st w = c2) :
  Z.of_nat (length x.2) ≤ sizeof_announce_pdu < frame_len x.2 ∧
  wp (gptp_handle (EvAnnounce j (x.2 ++ pad) (frame_len x.2))) (λ _ w', settled (w_st w') ∧ abs (w_st w') = abs c2) w.
Proof.
  destruct (speaks_sent c1 i q1 x Hx) as (q' & Ex & Hid & Hp & Hcl & Hgmok & Hlog). pose proof (sk_steps _ _ _ _ Hx) as Hst.
  assert (Hl : Z.of_nat (length x.2) = 68 + 8 * Z.min 16 (master_steps_removed c1 + 1)) by (rewrite Ex; by apply sent_length).
  split; [unfold frame_len, sizeof_announce_pdu; lia|].
  pose proof (lookup_lt_Some _ _ _ Hq) as Hj. eapply wp_mono; [apply (gptp_handle_spec c2); [done| |done]|].
  { split; [exact Hj|]. split; [|exact Hbytes]. rewrite length_app. unfold frame_len. lia. }
  intros [] w' Hh. split; [apply Hh|]. rewrite (ha_abs _ _ _ _ _ Hh). unfold bevent_of. cbn [event_port]. rewrite Hq. cbn [bevent_at].
  rewrite (proj2 (Z.leb_gt _ _)) by (unfold frame_len, sizeof_announce_pdu; lia). done.
Qed.
End ignored.
