(* ===== verification/GptpExample.v ===== *)
(** * gPTP: three systems

    A platform that always answers, three systems with two ports, and sessions
    on them: instances of the properties of GptpProps.v. *)

From S2P Require Import Prelude MaapAddr Timer GptpBmca Gptp GptpSpec GptpElect GptpSelect GptpSettle GptpEvents GptpRun GptpInit.
From S2P Require Import GptpConfig GptpPeers GptpProps.

Module Network.
#[local] Instance platform : Platform gptp_call := λ _ _, 1.

Definition config (capable : bool) (prio : Z) : fgptp_config :=
  FgptpConfig CFG_GPTP_PROFILE_STANDARD false true (replicate 8 0)
    [PortConfig SLAVE_PORT true 0; PortConfig SLAVE_PORT true 0] (DomainConfig 0 capable prio 248 248 0xfe 0x4100).
Definition addr (n : Z) : mac := Mac 0 4 0x9f 0 0 n.
Definition world0 : world gptp_call gptp_instance := World (zero_instance 0) 0 [].

(** The end of a session of system [n]. *)
Definition end_of (capable : bool) (prio n : Z) (l : list gptp_event) : world gptp_call gptp_instance :=
  match gptp_session (config capable prio) (Some (addr n)) l world0 with Done (_, w) => w | _ => world0 end.

Lemma config_fine capable prio : is_byte prio → config_ok (config capable prio).
Proof. intros H. split; [done|cbn; lia|cbn; lia|]. cbn. split_and!; try done; unfold is_byte, is_u16; lia. Qed.
Lemma addr_fine n : is_byte n → mac_ok (addr n).
Proof. intros H. unfold mac_ok, byte_ok, is_byte in *. cbn. lia. Qed.

Lemma network_session_good capable prio n l :
  is_byte prio → is_byte n → Forall (event_ok 2) l → settled (w_st (end_of capable prio n l)).
Proof.
  intros Hp Hn Hl. destruct (proj1 (wp_done _ _ _) (session_keeps (λ _, True) (config capable prio) (addr n) l world0
    (λ _ _ _, I) (config_fine _ _ Hp) (addr_fine _ Hn) Hl I)) as (rc & w & E & _ & H & _).
  unfold end_of. rewrite E. exact H.
Qed.

Definition byteb (b : Z) : bool := (0 <=? b) && (b <? 256).
Lemma bytes_fine l : forallb byteb l = true → Forall is_byte l.
Proof.
  intros H. apply list.Forall_forall. intros b Hb%list_elem_of_In. rewrite forallb_forall in H. specialize (H b Hb).
  unfold byteb in H. unfold is_byte. lia.
Qed.
Definition idb (i : list Z) : bool := (length i =? 8)%nat && forallb byteb i.
Lemma ids_fine l : forallb idb l = true → Forall id_ok l.
Proof.
  intros H. apply list.Forall_forall. intros i Hi%list_elem_of_In. rewrite forallb_forall in H. specialize (H i Hi).
  unfold idb in H. apply andb_true_iff in H as [H1%Nat.eqb_eq H2]. split; [done|by apply bytes_fine].
Qed.
Definition eventb (e : gptp_event) : bool :=
  (event_port e <? 2)%nat &&
  match e with EvAnnounce _ data len => (0 <=? len) && (len <=? Z.of_nat (length data)) && forallb byteb data | _ => true end.
Lemma events_fine l : forallb eventb l = true → Forall (event_ok 2) l.
Proof.
  intros H. apply list.Forall_forall. intros e He%list_elem_of_In. rewrite forallb_forall in H. specialize (H e He).
  unfold eventb in H. apply andb_true_iff in H as [H1%Nat.ltb_lt H2]. split; [done|]. destruct e; try done.
  apply andb_true_iff in H2 as [H2 H3]. split; [lia|by apply bytes_fine].
Qed.

(** Both ports take part. *)
Definition up (i : nat) : list gptp_event := [EvLink i true; EvAsCapable i true].
Definition started : list gptp_event := up 0 ++ up 1 ++ [EvTransmit 0].
Definition pad : list Z := replicate 14 0.
Definition sent (w : world gptp_call gptp_instance) : nat * list Z := List.hd (0%nat, []) (announces (w_trace w)).
Definition port (w : world gptp_call gptp_instance) (i : nat) : gptp_port := default zero_port (ports (w_st w) !! i).

(** The better system, and what it says on its port 0. *)
Definition alice : world gptp_call gptp_instance := end_of true 246 1 started.
Definition bob : world gptp_call gptp_instance := end_of true 248 2 started.

Definition hello : nat * list Z := sent alice.
Definition hear (x : nat * list Z) : gptp_event := EvAnnounce 0 (x.2 ++ pad) (frame_len x.2).
Definition bob_heard : world gptp_call gptp_instance := end_of true 248 2 (started ++ [hear hello]).

(** A grandmaster that is 14 steps away, and who hears of it. *)
Definition far : ptp_announce_pdu :=
  AnnouncePdu (PtpHdr 1 PTP_MSG_TYPE_ANNOUNCE PTP_VERSION 1 (htons 76) 0 (htons 8) (PortIdentity (demo_id 9) (htons 1)) 0 0 0)
    (htons 37) 240 (ClockQuality 248 0xfe (htons 0x4100)) 248 (demo_id 8) (htons 14) 0xA0 (htons PTP_TLV_TYPE_PATH_TRACE) (htons 8)
    [demo_id 9].
Definition carol : world gptp_call gptp_instance :=
  end_of true 248 3 (started ++ [hear (0%nat, announce_bytes far); EvTransmit 1]).

Ltac good := apply network_session_good; [unfold is_byte; lia|unfold is_byte; lia|apply events_fine; vm_compute; reflexivity].
Lemma alice_good : settled (w_st alice).
Proof. good. Qed.
Lemma bob_good : settled (w_st bob).
Proof. good. Qed.
Lemma bob_heard_good : settled (w_st bob_heard).
Proof. good. Qed.
Lemma carol_good : settled (w_st carol).
Proof. good. Qed.

Ltac speaks n := split; [first [exact alice_good|exact carol_good]|vm_compute; reflexivity|vm_compute; reflexivity|
  split_and!; [reflexivity|vm_compute; reflexivity|vm_compute; reflexivity|exists n; vm_compute; reflexivity]|
  apply ids_fine; vm_compute; reflexivity|vm_compute; split; congruence|vm_compute; congruence].
Lemma hello_spoken : speaks (w_st alice) 0 (port alice 0) hello.
Proof. speaks 1. Qed.
Lemma carol_spoken : speaks (w_st carol) 1 (port carol 1) (sent carol).
Proof. speaks 2. Qed.
Lemma hello_event : event_ok 2 (hear hello).
Proof. assert (H : Forall (event_ok 2) [hear hello]) by (apply events_fine; vm_compute; reflexivity). by apply list.Forall_cons in H as [H _]. Qed.

(** ** Instances *)

Lemma gptp_session_settles_witness :
  wp (gptp_session (config true 246) (Some (addr 1)) (started ++ [hear hello])) (λ rc w', rc = 0 ∧ settled (w_st w') ∧
    (port_state_sm_state (w_st w') = PORT_STATE_SM_STATE_SELECTION → stable (abs (w_st w')))) world0.
Proof.
  apply gptp_session_settles; [apply config_fine; unfold is_byte; lia|apply addr_fine; unfold is_byte; lia|].
  apply events_fine. vm_compute. reflexivity.
Defined.

Lemma gptp_event_refines_witness :
  bevent_of (w_st bob) (hear hello) = BHear 0 (told_vector (w_st alice) (port alice 0) 1) 0 (told_times (w_st alice)) ∧
  wp (gptp_handle (hear hello)) (λ _ w', handled (w_st bob) 0 (bmca_step (bevent_of (w_st bob) (hear hello)) (abs (w_st bob))) bob w') bob.
Proof.
  split; [vm_compute; reflexivity|]. apply (gptp_event_refines (w_st bob) (hear hello) bob); [exact bob_good| |reflexivity].
  exact hello_event.
Defined.

Lemma incapable_never_grandmaster_witness :
  wp (gptp_session (config false 100) (Some (addr 2)) (started ++ [hear hello; EvAnnounceTimeout 0]))
    (λ _ w', is_grandmaster (w_st w') = false ∧ priority_1 (root_system_identity (system_priority (w_st w'))) = 255) world0.
Proof.
  apply incapable_never_grandmaster; [apply config_fine; unfold is_byte; lia|apply addr_fine; unfold is_byte; lia| |reflexivity].
  apply events_fine. vm_compute. reflexivity.
Defined.

Lemma grandmaster_is_best_witness :
  root_value (gm_priority (w_st bob_heard)) < root_value (system_priority (w_st bob_heard)) ∧
  let c := w_st bob_heard in
  root_value (gm_priority c) ≤ root_value (system_priority c) ∧
  (∀ i q, ports c !! i = Some q → info_is (params q) = SPANNING_TREE_RECEIVED →
     (root_id (port_priority (params q)) = this_clock c →
        root_value (system_priority c) ≤ root_value (port_priority (params q))) →
     root_value (gm_priority c) ≤ root_value (port_priority (params q))) ∧
  (gm_priority c = own_priority c ∨
   ∃ i q, received_from c i q ∧ gm_priority c = path_priority i q ∧ root_value (gm_priority c) < root_value (system_priority c) ∧
     ∀ j q', received_from c j q' → (j < i)%nat → root_value (gm_priority c) < root_value (port_priority (params q'))) ∧
  gm_present c = (priority_1 (root_system_identity (gm_priority c)) <? 255) ∧
  is_grandmaster c = bool_decide (root_id (gm_priority c) = this_clock c) && gm_present c.
Proof. split; [vm_compute; reflexivity|]. apply (grandmaster_is_best (w_st bob_heard)); [exact bob_heard_good|vm_compute; reflexivity]. Defined.

Lemma port_roles_witness :
  selected_role (w_st bob_heard) = [PASSIVE_PORT; SLAVE_PORT; MASTER_PORT] ∧
  let c := w_st bob_heard in let q := port bob_heard 0 in let v := port_priority (params q) in
  derived_from c 0 = true ∧ hears_again c 0 q = false ∧
  selected_role c !! 1%nat = Some (if hears_again c 0 q then SLAVE_PORT else documented_role c 0 q) ∧
  (port_usable q = true → info_is (params q) = SPANNING_TREE_MINE → v = announced (system_priority c) (gm_priority c) 0) ∧
  (port_usable q = true → info_is (params q) ≠ SPANNING_TREE_MINE →
     info_is (params q) = SPANNING_TREE_RECEIVED ∧ (root_id (gm_priority c) = root_id v ∨ root_id v = this_clock c)) ∧
  (derived_from c 0 = true → received_from c 0 q ∧ gm_priority c = path_priority 0 q).
Proof.
  split; [vm_compute; reflexivity|]. split; [vm_compute; reflexivity|]. split; [vm_compute; reflexivity|].
  apply (port_roles (w_st bob_heard) 0 (port bob_heard 0)); [exact bob_heard_good|vm_compute; reflexivity|vm_compute; reflexivity].
Defined.

Lemma transmit_opportunity_witness :
  bool_decide (selected_role (w_st alice) !! 1%nat = Some MASTER_PORT) = true ∧
  wp (gptp_handle (EvTransmit 0)) (λ _ w', settled (w_st w') ∧ abs (w_st w') = abs (w_st alice) ∧
    announces (w_trace w') =
      (if bool_decide (selected_role (w_st alice) !! 1%nat = Some MASTER_PORT) && negb (get_port_asymmetry (port alice 0))
       then [(0%nat, port_sent (w_st alice) (port alice 0))] else []) ++ announces (w_trace alice)) alice.
Proof.
  split; [vm_compute; reflexivity|].
  apply (transmit_opportunity (w_st alice) 0 (port alice 0) alice); [exact alice_good|vm_compute; reflexivity|vm_compute; reflexivity|done|reflexivity].
Defined.

Lemma announce_transfer_witness :
  let r := store_announce (port bob 0) (hello.2 ++ pad) (frame_len hello.2) in
  let own := this_clock (w_st bob) in
  frame_len hello.2 ≤ sizeof_announce_pdu ∧
  vector_of r = told_vector (w_st alice) (port alice 0) (get_port_identity_number (port bob 0)) ∧
  steps_of r = master_steps_removed (w_st alice) ∧
  ptlv_path (message_of r) = told_path (w_st alice) ∧
  announce_properties (message_of r) = told_times (w_st alice) ∧
  (id_ok own → own ≠ get_port_identity_clock_id (port alice 0) → own ∉ told_path (w_st alice) → qualified own (message_of r) = true).
Proof. apply (announce_transfer (w_st alice) 0 (port alice 0) hello (port bob 0) pad); [exact hello_spoken|vm_compute; congruence]. Defined.

Lemma better_master_wins_witness :
  wp (gptp_handle (hear hello)) (λ _ w', settled (w_st w') ∧
    root_system_identity (gm_priority (w_st w')) = root_system_identity (gm_priority (w_st alice)) ∧
    selected_role (w_st w') !! 1%nat = Some SLAVE_PORT ∧ is_grandmaster (w_st w') = false ∧
    master_steps_removed (w_st w') = master_steps_removed (w_st alice) + 1) bob.
Proof.
  apply (better_master_wins (w_st alice) 0 (port alice 0) hello (w_st bob) 0 (port bob 0) pad bob).
  - exact hello_spoken.
  - vm_compute; congruence.
  - exact bob_good.
  - vm_compute; reflexivity.
  - vm_compute; reflexivity.
  - vm_compute; reflexivity.
  - vm_compute; congruence.
  - vm_compute; congruence.
  - apply (bool_decide_unpack _). vm_compute. exact I.
  - vm_compute; reflexivity.
  - vm_compute; reflexivity.
  - vm_compute; lia.
  - apply bytes_fine. vm_compute. reflexivity.
  - reflexivity.
Defined.

Lemma long_path_lost_witness :
  let x := sent carol in
  Z.of_nat (length x.2) ≤ sizeof_announce_pdu < frame_len x.2 ∧
  wp (gptp_handle (EvAnnounce 0 (x.2 ++ pad) (frame_len x.2))) (λ _ w', settled (w_st w') ∧ abs (w_st w') = abs (w_st bob)) bob.
Proof.
  apply (long_path_lost (w_st carol) 1 (port carol 1) (sent carol) (w_st bob) 0 (port bob 0) pad bob).
  - exact carol_spoken.
  - vm_compute; congruence.
  - exact bob_good.
  - vm_compute; reflexivity.
  - vm_compute; lia.
  - apply bytes_fine. vm_compute. reflexivity.
  - reflexivity.
Defined.
End Network.

Module Oddities.
Import Network.
#[local] Existing Instance platform.

Definition hear_on (i : nat) (x : nat * list Z) : gptp_event := EvAnnounce i (x.2 ++ pad) (frame_len x.2).

(** Two ports that hear of the same grandmaster are both SLAVE, where the
    role of the second is PASSIVE in 802.1AS. *)
Lemma two_slave_ports :
  let w := end_of true 248 2 (started ++ [hear_on 0 hello; hear_on 1 hello]) in
  selected_role (w_st w) = [PASSIVE_PORT; SLAVE_PORT; SLAVE_PORT] ∧
  derived_from (w_st w) 0 = true ∧ documented_role (w_st w) 1 (port w 1) = PASSIVE_PORT ∧ hears_again (w_st w) 1 (port w 1) = true.
Proof. vm_compute. by split_and!. Qed.

(** A system that hears its own identity as the root is SLAVE on that port
    while it is the grandmaster. *)
Definition echo : ptp_announce_pdu :=
  AnnouncePdu (PtpHdr 1 PTP_MSG_TYPE_ANNOUNCE PTP_VERSION 1 (htons 76) 0 (htons 8) (PortIdentity (demo_id 9) (htons 1)) 0 0 0)
    (htons 37) 100 (ClockQuality 248 0xfe (htons 0x4100)) 248 (this_clock (w_st bob)) (htons 1) 0xA0 (htons PTP_TLV_TYPE_PATH_TRACE)
    (htons 8) [demo_id 9].
Lemma slave_of_itself :
  let c := w_st (end_of true 248 2 (started ++ [hear_on 0 (0%nat, announce_bytes echo)])) in
  is_grandmaster c = true ∧ selected_role c !! 1%nat = Some SLAVE_PORT.
Proof. vm_compute. by split. Qed.

(** The vector that it has received has a better identity than the system, comes
    from the clock 9, and is not taken. *)
Lemma ignored_better :
  let w := end_of true 248 2 (started ++ [hear_on 0 (0%nat, announce_bytes echo)]) in
  let v := port_priority (params (port w 0)) in
  info_is (params (port w 0)) = SPANNING_TREE_RECEIVED ∧ pid_clock_identity (source_port_identity v) = demo_id 9 ∧
  root_value v < root_value (gm_priority (w_st w)) ∧ documented_role (w_st w) 0 (port w 0) = PASSIVE_PORT ∧
  hears_again (w_st w) 0 (port w 0) = true.
Proof. vm_compute. by split_and!. Qed.

(** What follows at once on the other port announces a path that holds this
    system and a zero entry instead of the path to the grandmaster. *)
Lemma stale_path :
  let m := read_announce (sent bob_heard).2 in
  announce_steps_removed m = htons 1 ∧ take 2 (path_sequence m) = [this_clock (w_st bob); no_clock].
Proof. vm_compute. by split. Qed.

(** The same message twice: a change of the grandmaster is counted again. *)
Lemma repeated_counts :
  let once := w_st bob_heard in
  let twice := w_st (end_of true 248 2 (started ++ [hear_on 0 hello; hear_on 0 hello])) in
  gm_priority twice = gm_priority once ∧ gmChangeCount twice = gmChangeCount once + 1.
Proof. vm_compute. by split. Qed.
End Oddities.
