(* ===== verification/Milan.v ===== *)
(** * AVDECC: Milan listener sinks (avdecc/acmp_milan.c, avdecc/adp_milan.c, avdecc/acmp.c, avdecc/avdecc.c)

    A listener entity in Milan mode with its stream inputs ("sinks"): the
    commands of controllers that bind a sink to a talker stream, the discovery
    of the talker by ADP, the probe of its stream parameters by ACMP commands
    with their retries ("inflight" commands), and the connection of the stream
    in the media stack and in SRP.  Timers are the abstract timers of Timer.v.
    A frame is what its ACMP header and PDU say; the fields of PDUs and of
    descriptors that the code keeps in network order are in network order
    here. *)

From S2P Require Import Prelude MaapAddr Timer.

(** ** Constants *)

Definition ACMP_PROBE_TX_COMMAND : Z := 0.
Definition ACMP_PROBE_TX_RESPONSE : Z := 1.
Definition ACMP_DISCONNECT_TX_COMMAND : Z := 2.
Definition ACMP_DISCONNECT_TX_RESPONSE : Z := 3.
Definition ACMP_GET_TX_STATE_COMMAND : Z := 4.
Definition ACMP_GET_TX_STATE_RESPONSE : Z := 5.
Definition ACMP_BIND_RX_COMMAND : Z := 6.
Definition ACMP_BIND_RX_RESPONSE : Z := 7.
Definition ACMP_UNBIND_RX_COMMAND : Z := 8.
Definition ACMP_UNBIND_RX_RESPONSE : Z := 9.
Definition ACMP_GET_RX_STATE_COMMAND : Z := 10.
Definition ACMP_GET_RX_STATE_RESPONSE : Z := 11.
Definition ACMP_GET_TX_CONNECTION_COMMAND : Z := 12.
Definition ACMP_GET_TX_CONNECTION_RESPONSE : Z := 13.
Definition ACMP_MSG_TYPE_NONE : Z := 0xff.

Definition ACMP_STAT_SUCCESS : Z := 0.
Definition ACMP_STAT_LISTENER_UNKNOWN_ID : Z := 1.
Definition ACMP_STAT_TALKER_EXCLUSIVE : Z := 6.
Definition ACMP_STAT_LISTENER_TALKER_TIMEOUT : Z := 7.
Definition ACMP_STAT_LISTENER_MISBEHAVING : Z := 14.
Definition ACMP_STAT_CONTROLLER_NOT_AUTHORIZED : Z := 16.

Definition ACMP_FLAG_CLASS_B : Z := 1.
Definition ACMP_FLAG_FAST_CONNECT : Z := 2.
Definition ACMP_FLAG_STREAMING_WAIT : Z := 8.
Definition ACMP_FLAG_REGISTERING_FAILED : Z := 64.

Definition ACMP_PROBING_STATUS_DISABLED : Z := 0.
Definition ACMP_PROBING_STATUS_PASSIVE : Z := 1.
Definition ACMP_PROBING_STATUS_ACTIVE : Z := 2.
Definition ACMP_PROBING_STATUS_COMPLETED : Z := 3.

Definition ACMP_MILAN_LISTENER_TMR_RETRY_MS : Z := 4000.
Definition ACMP_MILAN_LISTENER_TMR_NO_TK_MS : Z := 10000.
Definition ACMP_MILAN_LISTENER_ASYNC_UNSOLICITED_NOTIFICATION_MS : Z := 100.
Definition MS_PER_S : Z := 1000.

(** [genavb_listener_stream_status_t] *)
Definition NO_TALKER : Z := 0.
Definition ACTIVE : Z := 1.
Definition FAILED : Z := 2.

Definition ADP_ENTITY_AVAILABLE : Z := 0.
Definition ADP_ENTITY_DEPARTING : Z := 1.

Definition ACMP_LISTENER_STREAM_STOPPED : Z := 0.
Definition ACMP_LISTENER_STREAM_STARTED : Z := 1.

(** ** Data *)

Inductive acmp_milan_listener_sink_sm_event_t :=
| ACMP_LISTENER_SINK_SM_EVENT_UNKNOWN
| ACMP_LISTENER_SINK_SM_EVENT_TMR_NO_RESP
| ACMP_LISTENER_SINK_SM_EVENT_TMR_RETRY
| ACMP_LISTENER_SINK_SM_EVENT_TMR_DELAY
| ACMP_LISTENER_SINK_SM_EVENT_TMR_NO_TK
| ACMP_LISTENER_SINK_SM_EVENT_RCV_BIND_RX_CMD
| ACMP_LISTENER_SINK_SM_EVENT_RCV_PROBE_TX_RESP
| ACMP_LISTENER_SINK_SM_EVENT_RCV_GET_RX_STATE
| ACMP_LISTENER_SINK_SM_EVENT_RCV_UNBIND_RX_CMD
| ACMP_LISTENER_SINK_SM_EVENT_EVT_TK_DISCOVERED
| ACMP_LISTENER_SINK_SM_EVENT_EVT_TK_DEPARTED
| ACMP_LISTENER_SINK_SM_EVENT_EVT_TK_REGISTERED
| ACMP_LISTENER_SINK_SM_EVENT_EVT_TK_UNREGISTERED
| ACMP_LISTENER_SINK_SM_EVENT_SAVED_BINDING_PARAMS.

Inductive acmp_milan_listener_sink_sm_state_t :=
| ACMP_LISTENER_SINK_SM_STATE_UNBOUND
| ACMP_LISTENER_SINK_SM_STATE_PRB_W_AVAIL
| ACMP_LISTENER_SINK_SM_STATE_PRB_W_DELAY
| ACMP_LISTENER_SINK_SM_STATE_PRB_W_RESP
| ACMP_LISTENER_SINK_SM_STATE_PRB_W_RESP2
| ACMP_LISTENER_SINK_SM_STATE_PRB_W_RETRY
| ACMP_LISTENER_SINK_SM_STATE_SETTLED_NO_RSV
| ACMP_LISTENER_SINK_SM_STATE_SETTLED_RSV_OK.
#[export] Instance sink_state_eq_dec : EqDecision acmp_milan_listener_sink_sm_state_t.
Proof. solve_decision. Defined.

Inductive acmp_milan_listener_sink_srp_state_t :=
| ACMP_LISTENER_SINK_SRP_STATE_NOT_REGISTERING
| ACMP_LISTENER_SINK_SRP_STATE_REGISTERING.
#[export] Instance srp_state_eq_dec : EqDecision acmp_milan_listener_sink_srp_state_t.
Proof. solve_decision. Defined.

Inductive adp_milan_listener_sink_talker_state_t :=
| ADP_LISTENER_SINK_TALKER_STATE_NOT_DISCOVERED
| ADP_LISTENER_SINK_TALKER_STATE_DISCOVERED.
#[export] Instance talker_state_eq_dec : EqDecision adp_milan_listener_sink_talker_state_t.
Proof. solve_decision. Defined.

Inductive adp_milan_listener_sink_event_t :=
| ADP_MILAN_LISTENER_SINK_RCV_ADP_AVAILABLE
| ADP_MILAN_LISTENER_SINK_RCV_ADP_DEPARTING
| ADP_MILAN_LISTENER_SINK_TMR_NO_ADP
| ADP_MILAN_LISTENER_SINK_RESET.

Record acmp_pdu := AcmpPdu {
  p_stream_id : Z;
  p_controller_entity_id : Z;
  p_talker_entity_id : Z;
  p_listener_entity_id : Z;
  p_talker_unique_id : Z;
  p_listener_unique_id : Z;
  p_stream_dest_mac : list Z;
  p_connection_count : Z;
  p_sequence_id : Z;
  p_flags : Z;
  p_stream_vlan_id : Z;
}.
#[export] Instance eta_acmp_pdu : Eta acmp_pdu := λ r,
  AcmpPdu (p_stream_id r) (p_controller_entity_id r) (p_talker_entity_id r) (p_listener_entity_id r)
    (p_talker_unique_id r) (p_listener_unique_id r) (p_stream_dest_mac r) (p_connection_count r) (p_sequence_id r)
    (p_flags r) (p_stream_vlan_id r).

(** An ACMP frame: the message type and the status of its header, its PDU. *)
Record acmp_msg := AcmpMsg { m_type : Z; m_status : Z; m_pdu : acmp_pdu }.

(** What a sink reads of [struct adp_pdu]. *)
Record adp_pdu := AdpPdu {
  adp_entity_id : Z;
  adp_available_index : Z;
  adp_gptp_grandmaster_id : Z;
  adp_gptp_domain_number : Z;
  adp_interface_index : Z;
}.

(** [struct genavb_msg_listener_status] and [struct genavb_msg_media_stack_bind]. *)
Record listener_status_msg := ListenerStatus {
  ls_stream_id : Z;
  ls_status : Z;
  ls_destination_address : list Z;
  ls_vlan_id : Z;
  ls_accumulated_latency : Z;
  ls_failure : list Z * Z;
}.
Record media_stack_bind := MediaStackBind {
  bind_entity_id : Z;
  bind_entity_index : Z;
  bind_listener_stream_index : nat;
  bind_talker_entity_id : Z;
  bind_talker_stream_index : Z;
  bind_controller_entity_id : Z;
  bind_started : Z;
}.

(** [struct stream_input_dynamic_desc], with [avb_interface_index] of the
    static [struct stream_descriptor]; the diagnostic counters as one list. *)
Record stream_input := StreamInput {
  avb_interface_index : Z;
  talker_entity_id : Z;
  controller_entity_id : Z;
  stream_id : Z;
  talker_unique_id : Z;
  flags : Z;
  stream_vlan_id : Z;
  stream_dest_mac : list Z;
  diagnostic_counters : list Z;
  state : acmp_milan_listener_sink_sm_state_t;
  acmp_retry_timer : soft_timer;
  acmp_delay_timer : soft_timer;
  acmp_talker_registration_timer : soft_timer;
  talker_state : adp_milan_listener_sink_talker_state_t;
  adp_discovery_timer : soft_timer;
  srp_stream_status : Z;
  srp_state : acmp_milan_listener_sink_srp_state_t;
  msrp_accumulated_latency : Z;
  failure : list Z * Z;
  async_unsolicited_notification_timer : soft_timer;
  probing_status : Z;
  acmp_status : Z;
  probe_tx_seq_id : Z;
  interface_index : Z;
  available_index : Z;
}.
#[export] Instance eta_stream_input : Eta stream_input := λ r,
  StreamInput (avb_interface_index r) (talker_entity_id r) (controller_entity_id r) (stream_id r) (talker_unique_id r)
    (flags r) (stream_vlan_id r) (stream_dest_mac r) (diagnostic_counters r) (state r) (acmp_retry_timer r)
    (acmp_delay_timer r) (acmp_talker_registration_timer r) (talker_state r) (adp_discovery_timer r)
    (srp_stream_status r) (srp_state r) (msrp_accumulated_latency r) (failure r) (async_unsolicited_notification_timer r)
    (probing_status r) (acmp_status r) (probe_tx_seq_id r) (interface_index r) (available_index r).

(** [struct inflight_ctx] of an ACMP command that this entity sends as a
    listener ([priv] is NULL). *)
Record inflight_ctx := InflightCtx {
  timeout : soft_timer;
  timeout_ms : Z;
  retried : bool;
  i_msg_type : Z;
  i_sequence_id : Z;
  i_orig_seq_id : Z;
  i_port_id : nat;
  i_pdu : acmp_pdu;
}.
#[export] Instance eta_inflight_ctx : Eta inflight_ctx := λ r,
  InflightCtx (timeout r) (timeout_ms r) (retried r) (i_msg_type r) (i_sequence_id r) (i_orig_seq_id r) (i_port_id r) (i_pdu r).

(** The grandmaster and the domain of an AVB interface, from its dynamic and
    static descriptor. *)
Record avb_interface := AvbInterface { gptp_grandmaster_id : Z; domain_number : Z }.
#[export] Instance eta_avb_interface : Eta avb_interface := λ r, AvbInterface (gptp_grandmaster_id r) (domain_number r).

(** [struct entity], the only one of its context; [inflight] and
    [free_inflight] are lists of indices of [inflight_storage]. *)
Record entity := Entity {
  entity_id : Z;
  entity_index : Z;
  port_max : nat;
  srp_enabled : bool;
  locked : bool;
  locking_controller_id : Z;
  interfaces : list avb_interface;
  sequence_id : Z;
  inflight : list nat;
  free_inflight : list nat;
  inflight_storage : list inflight_ctx;
  sinks : list stream_input;
}.
#[export] Instance eta_entity : Eta entity := λ r,
  Entity (entity_id r) (entity_index r) (port_max r) (srp_enabled r) (locked r) (locking_controller_id r) (interfaces r)
    (sequence_id r) (inflight r) (free_inflight r) (inflight_storage r) (sinks r).

(** ** The platform *)

Inductive sink_timer := TMR_RETRY | TMR_DELAY | TMR_NO_TK | TMR_NO_ADP | TMR_NOTIFICATION.
#[export] Instance sink_timer_eq_dec : EqDecision sink_timer.
Proof. solve_decision. Defined.

Inductive media_ipc :=
| MEDIA_STACK_CONNECT (i : nat) (port : nat) (dst_mac : list Z) (stream : Z) (class_b : bool) (flags : Z)
| MEDIA_STACK_DISCONNECT (i : nat) (port : nat) (stream : Z) (class_b : bool)
| MEDIA_STACK_BIND (b : media_stack_bind)
| MEDIA_STACK_UNBIND (id index : Z) (i : nat)
| LISTENER_REGISTER (port : nat) (stream : Z)
| LISTENER_DEREGISTER (port : nat) (stream : Z).

(** Clocks and random numbers, timers, the network, IPC; the handlers of the
    other roles of the entities of this context (talker, controller), when a
    frame is looped back to them; AECP notifications. *)
Inductive milan_call :=
| OsRandom
| SinkTimerCreate (i : nat) (k : sink_timer)
| SinkTimerStart (i : nat) (k : sink_timer) (ms : Z)
| InflightTimerCreate (e : nat)
| InflightTimerStart (e : nat) (ms : Z)
| NetTxAlloc (p : nat)                 (* 0: no descriptor *)
| NetTxClone (p : nat) (m : acmp_msg)  (* 0: no descriptor *)
| NetTx (p : nat) (m : acmp_msg)       (* negative: error *)
| NetTxFree (p : nat)
| TalkerRcv (p : nat) (m : acmp_msg)
| ControllerRcv (p : nat) (m : acmp_msg)
| IpcAlloc (m : media_ipc)             (* 0: no descriptor *)
| IpcTx (m : media_ipc)                (* negative: error *)
| IpcFree (m : media_ipc)
| AcmpIpcTxRsp (m : acmp_msg)
| StreamInfoNotification (i : nat).

Section milan.
Context `{!Platform milan_call}.
Abbreviation EM := (M milan_call entity).

Definition get_sink (i : nat) : EM stream_input := let! l := gets sinks in deref NullDeref (l !! i).
Definition set_sink (i : nat) (f : stream_input → stream_input) : EM unit := modify (λ c, c <| sinks ::= alter f i |>).
Definition get_entry (e : nat) : EM inflight_ctx := let! l := gets inflight_storage in deref OutOfBounds (l !! e).
Definition set_entry (e : nat) (f : inflight_ctx → inflight_ctx) : EM unit :=
  modify (λ c, c <| inflight_storage ::= alter f e |>).

(** ** Timers of a sink *)

Definition on_timer (k : sink_timer) (f : soft_timer → soft_timer) (s : stream_input) : stream_input :=
  match k with
  | TMR_RETRY => s <| acmp_retry_timer ::= f |>
  | TMR_DELAY => s <| acmp_delay_timer ::= f |>
  | TMR_NO_TK => s <| acmp_talker_registration_timer ::= f |>
  | TMR_NO_ADP => s <| adp_discovery_timer ::= f |>
  | TMR_NOTIFICATION => s <| async_unsolicited_notification_timer ::= f |>
  end.
Definition timer_start (i : nat) (k : sink_timer) (ms : Z) : EM unit :=
  let! _ := perform (SinkTimerStart i k (u32 ms)) in set_sink i (on_timer k (soft_start (u32 ms))).
Definition timer_stop (i : nat) (k : sink_timer) : EM unit := set_sink i (on_timer k soft_stop).

(** [ACMP_MILAN_LISTENER_TMR_DELAY_MS] *)
Definition delay_timer_start (i : nat) : EM unit :=
  let! r := perform OsRandom in timer_start i TMR_DELAY (random_range r 200 1000).

Definition acmp_milan_listener_register_async_get_stream_info_notification (i : nat) : EM unit :=
  let! s := get_sink i in
  let t := async_unsolicited_notification_timer s in
  when (st_created t && negb (st_running t))
    (timer_start i TMR_NOTIFICATION ACMP_MILAN_LISTENER_ASYNC_UNSOLICITED_NOTIFICATION_MS).

(** ** Inflight commands (avdecc/avdecc.c) *)

Definition inflight_timer_start (e : nat) (ms : Z) : EM unit :=
  let! _ := perform (InflightTimerStart e (u32 ms)) in set_entry e (λ x, x <| timeout ::= soft_start (u32 ms) |>).
Definition inflight_timer_stop (e : nat) : EM unit := set_entry e (λ x, x <| timeout ::= soft_stop |>).

(** [list_del(&entry->list)]; an entry is in one list at most, and to unlink
    one that is in none is a fault. *)
Definition inflight_linked (c : entity) (e : nat) : bool := bool_decide (e ∈ inflight c) || bool_decide (e ∈ free_inflight c).
Definition inflight_del (e : nat) : EM unit :=
  let! c := gets (λ c, c) in
  if inflight_linked c e then modify (λ c, c <| inflight ::= list_remove e |> <| free_inflight ::= list_remove e |>)
  else crash BadList.

Definition avdecc_inflight_restart (e : nat) : EM unit :=
  let! x := get_entry e in
  inflight_timer_stop e;;
  inflight_timer_start e (timeout_ms x).

Definition avdecc_inflight_get : EM (option nat) :=
  let! l := gets free_inflight in
  match l with
  | [] => ret None
  | e :: _ => inflight_del e;; ret (Some e)
  end.

Definition avdecc_inflight_start (e : nat) (ms : Z) : EM Z :=
  modify (λ c, c <| inflight ::= cons e |>);;
  set_entry e (λ x, x <| timeout_ms := ms |>);;
  inflight_timer_start e ms;;
  ret 0.

Definition has_sequence (c : entity) (seq : Z) (e : nat) : bool :=
  match inflight_storage c !! e with Some x => seq =? i_sequence_id x | None => false end.
Definition avdecc_inflight_find (seq : Z) : EM (option nat) :=
  let! c := gets (λ c, c) in ret (List.find (has_sequence c seq) (inflight c)).

Definition avdecc_inflight_remove (e : nat) : EM unit :=
  inflight_timer_stop e;;
  inflight_del e;;
  modify (λ c, c <| free_inflight ::= cons e |>).

Definition avdecc_inflight_cancel (seq : Z) : EM Z :=
  let! o := avdecc_inflight_find seq in
  match o with
  | Some e => avdecc_inflight_remove e;; ret 0
  | None => ret (-1)
  end.

(** ** Frames (avdecc/acmp.c, avdecc/avdecc.c) *)

Definition avdecc_entity_port_valid (c : entity) (p : nat) : bool := (p <? length (interfaces c))%nat.

(** The part of [acmp_net_rx] for talkers and controllers. *)
Definition acmp_net_rx_other (p : nat) (m : acmp_msg) : EM unit :=
  let! c := gets (λ c, c) in
  let t := m_type m in
  if (t =? ACMP_PROBE_TX_COMMAND) || (t =? ACMP_DISCONNECT_TX_COMMAND) || (t =? ACMP_GET_TX_STATE_COMMAND) ||
     (t =? ACMP_GET_TX_CONNECTION_COMMAND)
  then
    when ((p_talker_entity_id (m_pdu m) =? entity_id c) && avdecc_entity_port_valid c p)
      (let! _ := perform (TalkerRcv p m) in ret tt)
  else if (t =? ACMP_BIND_RX_RESPONSE) || (t =? ACMP_UNBIND_RX_RESPONSE) || (t =? ACMP_GET_RX_STATE_RESPONSE) ||
     (t =? ACMP_GET_TX_STATE_RESPONSE) || (t =? ACMP_GET_TX_CONNECTION_RESPONSE)
  then
    when ((p_controller_entity_id (m_pdu m) =? entity_id c) && avdecc_entity_port_valid c p)
      (let! _ := perform (ControllerRcv p m) in ret tt)
  else ret tt.

(** ACMP frames have a multicast address: the frame is sent and looped back.
    What a listener sends no listener receives. *)
Definition avdecc_net_tx (p : nat) (m : acmp_msg) : EM Z :=
  let! ok := perform (NetTxClone p m) in
  (if ok =? 0 then ret tt
   else
     let! rc := perform (NetTx p m) in
     when (rc <? 0) (let! _ := perform (NetTxFree p) in ret tt));;
  acmp_net_rx_other p m;;
  ret 0.

Definition zero_pdu : acmp_pdu := AcmpPdu 0 0 0 0 0 0 (replicate 6 0) 0 0 0 0.

(** [&avdecc->port[p]] *)
Definition get_port (p : nat) : EM nat := let! n := gets port_max in if (p <? n)%nat then ret p else crash OutOfBounds.

Definition acmp_net_tx_alloc (p : nat) : EM (option acmp_pdu) :=
  let! ok := perform (NetTxAlloc p) in ret (if ok =? 0 then None else Some zero_pdu).
Definition acmp_net_tx_init (p : nat) (pdu : acmp_pdu) (is_resp : bool) : EM (option acmp_pdu) :=
  let! o := acmp_net_tx_alloc p in
  ret ((λ d, d <| p_controller_entity_id := p_controller_entity_id pdu |>
    <| p_talker_entity_id := p_talker_entity_id pdu |> <| p_listener_entity_id := p_listener_entity_id pdu |>
    <| p_talker_unique_id := p_talker_unique_id pdu |> <| p_listener_unique_id := p_listener_unique_id pdu |>
    <| p_sequence_id ::= λ n, if is_resp then p_sequence_id pdu else n |>) <$> o).

Definition acmp_send_packet (p : nat) (d : acmp_pdu) (msg_type status : Z) : EM Z :=
  let! rc := avdecc_net_tx p (AcmpMsg msg_type status d) in
  ret (if rc <? 0 then -1 else 0).
Definition acmp_send_rsp (p : nat) (d : acmp_pdu) (msg_type status : Z) : EM Z := acmp_send_packet p d msg_type status.

Definition acmp_milan_get_command_timeout_ms (msg_type : Z) : Z :=
  if (msg_type =? ACMP_PROBE_TX_COMMAND) || (msg_type =? ACMP_DISCONNECT_TX_COMMAND) ||
     (msg_type =? ACMP_GET_TX_STATE_COMMAND) || (msg_type =? ACMP_BIND_RX_COMMAND) || (msg_type =? ACMP_UNBIND_RX_COMMAND) ||
     (msg_type =? ACMP_GET_RX_STATE_COMMAND) || (msg_type =? ACMP_GET_TX_CONNECTION_COMMAND)
  then 200 else -1.

Definition inflight_save (msg_type seq orig : Z) (p : nat) (d : acmp_pdu) (x : inflight_ctx) : inflight_ctx :=
  x <| i_msg_type := msg_type |> <| retried := false |> <| i_sequence_id := seq |> <| i_orig_seq_id := orig |>
    <| i_port_id := p |> <| i_pdu := d |>.

(** A command is sent for the first time with its PDU, and again without. *)
Definition acmp_send_cmd (p : nat) (d : acmp_pdu) (msg_type : Z) (is_retry : bool) (orig : Z) : EM Z :=
  if is_retry then acmp_send_packet p d msg_type ACMP_STAT_SUCCESS else
  let! o := avdecc_inflight_get in
  let! seq := gets sequence_id in
  let d := d <| p_sequence_id := htons seq |> in
  (match o with
   | Some e =>
       let ms := acmp_milan_get_command_timeout_ms msg_type in
       if ms <? 0 then ret tt
       else set_entry e (inflight_save msg_type seq orig p d);; let! _ := avdecc_inflight_start e ms in ret tt
   | None => ret tt
   end);;
  modify (λ c, c <| sequence_id ::= λ n, u16 (n + 1) |>);;
  acmp_send_packet p d msg_type ACMP_STAT_SUCCESS.

(** ** IPC (avdecc/acmp.c, avdecc/acmp_milan.c) *)

(** Every message is allocated, sent, and freed when it cannot be sent. *)
Definition ipc_send (m : media_ipc) : EM unit :=
  let! ok := perform (IpcAlloc m) in
  if ok =? 0 then ret tt else
  let! rc := perform (IpcTx m) in
  when (rc <? 0) (let! _ := perform (IpcFree m) in ret tt).

Definition stream_class_b (fl : Z) : bool := negb (Z.land fl ACMP_FLAG_CLASS_B =? 0).

Definition acmp_listener_stack_connect (i : nat) (fl : Z) : EM Z :=
  let! l := gets sinks in
  match l !! i with
  | None => ret ACMP_STAT_LISTENER_MISBEHAVING
  | Some s =>
      let! p := get_port (Z.to_nat (ntohs (avb_interface_index s))) in
      ipc_send (MEDIA_STACK_CONNECT i p (stream_dest_mac s) (stream_id s) (stream_class_b fl) fl);;
      let! srp := gets srp_enabled in
      when srp (ipc_send (LISTENER_REGISTER p (stream_id s)));;
      ret ACMP_STAT_SUCCESS
  end.

Definition acmp_listener_stack_disconnect (i : nat) : EM Z :=
  let! l := gets sinks in
  match l !! i with
  | None => ret ACMP_STAT_LISTENER_MISBEHAVING
  | Some s =>
      let! p := get_port (Z.to_nat (ntohs (avb_interface_index s))) in
      let! srp := gets srp_enabled in
      when srp (ipc_send (LISTENER_DEREGISTER p (stream_id s)));;
      ipc_send (MEDIA_STACK_DISCONNECT i p (stream_id s) (stream_class_b (ntohs (flags s))));;
      ret ACMP_STAT_SUCCESS
  end.

Definition acmp_listener_unique_valid (c : entity) (i : nat) : bool := (i <? length (sinks c))%nat.

Definition htonll (z : Z) : Z :=
  Z.lor (Z.shiftl (htons (Z.land z 0xffff)) 48)
    (Z.lor (Z.shiftl (htons (Z.land (Z.shiftr z 16) 0xffff)) 32)
       (Z.lor (Z.shiftl (htons (Z.land (Z.shiftr z 32) 0xffff)) 16) (htons (Z.land (Z.shiftr z 48) 0xffff)))).
Definition ntohll (z : Z) : Z := htonll z.
Definition ntohl (z : Z) : Z := Z.lor (Z.shiftl (htons (Z.land z 0xffff)) 16) (htons (Z.land (Z.shiftr z 16) 0xffff)).

Definition acmp_listener_ipc_send_unbind_status (i : nat) : EM Z :=
  let! c := gets (λ c, c) in
  if negb (acmp_listener_unique_valid c i) then ret ACMP_STAT_LISTENER_MISBEHAVING
  else ipc_send (MEDIA_STACK_UNBIND (ntohll (entity_id c)) (entity_index c) i);; ret ACMP_STAT_SUCCESS.

Definition acmp_listener_ipc_send_bind_status (i : nat) : EM Z :=
  let! c := gets (λ c, c) in
  match sinks c !! i with
  | None => ret (-1)
  | Some s =>
      ipc_send (MEDIA_STACK_BIND (MediaStackBind (ntohll (entity_id c)) (entity_index c) i (ntohll (talker_entity_id s))
        (ntohs (talker_unique_id s)) (ntohll (controller_entity_id s))
        (if Z.land (flags s) (htons ACMP_FLAG_STREAMING_WAIT) =? 0 then ACMP_LISTENER_STREAM_STARTED
         else ACMP_LISTENER_STREAM_STOPPED)));;
      ret 0
  end.

(** ** Binding (avdecc/acmp_milan.c) *)

Definition is_bound (s : stream_input) : bool := negb (bool_decide (state s = ACMP_LISTENER_SINK_SM_STATE_UNBOUND)).
Definition is_settled (s : stream_input) : bool :=
  bool_decide (state s = ACMP_LISTENER_SINK_SM_STATE_SETTLED_NO_RSV) ||
  bool_decide (state s = ACMP_LISTENER_SINK_SM_STATE_SETTLED_RSV_OK).

Definition acmp_milan_set_stream_input_binding_params (o : option acmp_pdu) (s : stream_input) : stream_input :=
  match o with
  | None => s <| controller_entity_id := 0 |> <| talker_entity_id := 0 |> <| talker_unique_id := 0 |> <| flags := 0 |>
  | Some pdu => s <| controller_entity_id := p_controller_entity_id pdu |> <| talker_entity_id := p_talker_entity_id pdu |>
      <| talker_unique_id := p_talker_unique_id pdu |>
      <| flags := Z.land (p_flags pdu) (htons ACMP_FLAG_STREAMING_WAIT) |>
  end.

Definition acmp_milan_need_binding_restart (s : stream_input) (pdu : acmp_pdu) : bool :=
  negb (talker_entity_id s =? p_talker_entity_id pdu) || negb (talker_unique_id s =? p_talker_unique_id pdu).

Definition acmp_milan_set_stream_input_srp_params (i : nat) (o : option acmp_pdu) : EM unit :=
  set_sink i (λ s,
    match o with
    | None => s <| stream_vlan_id := 0 |> <| stream_id := 0 |> <| stream_dest_mac := replicate 6 0 |>
    | Some pdu => s <| stream_vlan_id := p_stream_vlan_id pdu |> <| stream_id := p_stream_id pdu |>
        <| stream_dest_mac := p_stream_dest_mac pdu |>
    end);;
  acmp_milan_listener_register_async_get_stream_info_notification i.
Definition acmp_milan_listener_sink_srp_state_clear (i : nat) : EM unit :=
  acmp_milan_set_stream_input_srp_params i None;;
  set_sink i (λ s, s <| srp_state := ACMP_LISTENER_SINK_SRP_STATE_NOT_REGISTERING |> <| srp_stream_status := NO_TALKER |>).

Definition acmp_listener_copy_common_params (s : stream_input) (d : acmp_pdu) : acmp_pdu :=
  d <| p_stream_id := stream_id s |> <| p_talker_entity_id := talker_entity_id s |>
    <| p_talker_unique_id := talker_unique_id s |> <| p_stream_dest_mac := stream_dest_mac s |> <| p_flags := flags s |>
    <| p_stream_vlan_id := stream_vlan_id s |>.

(** [x |= htons(f)], [x &= ~htons(f)] on an [u16]. *)
Definition flag_on (f x : Z) : Z := Z.lor x (htons f).
Definition flag_off (f x : Z) : Z := Z.land x (Z.lnot (htons f)).

Definition rx_state_response (s : stream_input) (d : acmp_pdu) : acmp_pdu :=
  let d := acmp_listener_copy_common_params s d in
  let d := if is_bound s then d <| p_connection_count := htons 1 |> <| p_flags ::= flag_on ACMP_FLAG_FAST_CONNECT |>
           else d <| p_connection_count := htons 0 |> <| p_flags ::= flag_off ACMP_FLAG_FAST_CONNECT |> in
  if bool_decide (state s = ACMP_LISTENER_SINK_SM_STATE_SETTLED_RSV_OK) && (srp_stream_status s =? FAILED)
  then d <| p_flags ::= flag_on ACMP_FLAG_REGISTERING_FAILED |>
  else d <| p_flags ::= flag_off ACMP_FLAG_REGISTERING_FAILED |>.
Definition acmp_milan_send_get_rx_state_response (i p : nat) (d : acmp_pdu) : EM Z :=
  let! s := get_sink i in
  acmp_send_rsp p (rx_state_response s d) ACMP_GET_RX_STATE_RESPONSE ACMP_STAT_SUCCESS.

Definition acmp_milan_send_unbind_rx_response (i p : nat) (d : acmp_pdu) : EM Z :=
  let! s := get_sink i in
  acmp_send_rsp p ((acmp_listener_copy_common_params s d) <| p_connection_count := htons 0 |>) ACMP_UNBIND_RX_RESPONSE
    ACMP_STAT_SUCCESS.

Definition bind_rx_response (fl status : Z) (d : acmp_pdu) : acmp_pdu :=
  if status =? ACMP_STAT_SUCCESS then
    d <| p_flags ::= λ x, Z.land (Z.lor x (Z.land fl (htons ACMP_FLAG_STREAMING_WAIT)))
           (Z.lnot (htons (Z.lor ACMP_FLAG_FAST_CONNECT ACMP_FLAG_REGISTERING_FAILED))) |>
      <| p_connection_count := htons 1 |>
  else d.
Definition acmp_milan_send_bind_rx_response (p : nat) (d : acmp_pdu) (fl status : Z) : EM Z :=
  acmp_send_rsp p (bind_rx_response fl status d) ACMP_BIND_RX_RESPONSE status.

Definition probe_tx_command (c : entity) (i : nat) (s : stream_input) (d : acmp_pdu) : acmp_pdu :=
  d <| p_controller_entity_id := controller_entity_id s |> <| p_talker_entity_id := talker_entity_id s |>
    <| p_listener_entity_id := entity_id c |> <| p_talker_unique_id := talker_unique_id s |>
    <| p_listener_unique_id := htons (Z.of_nat i) |>.
Definition acmp_milan_send_probe_tx_command (i : nat) : EM Z :=
  let! s := get_sink i in
  let! p := get_port (Z.to_nat (ntohs (avb_interface_index s))) in
  let! o := acmp_net_tx_alloc p in
  match o with
  | None => ret (-1)
  | Some d =>
      let! c := gets (λ c, c) in
      set_sink i (λ s, s <| probe_tx_seq_id := sequence_id c |>);;
      acmp_send_cmd p (probe_tx_command c i s d) ACMP_PROBE_TX_COMMAND false (sequence_id c)
  end.

Definition is_listener_already_bound_to_talker_unique_id (c : entity) (i : nat) (talker unique : Z) : bool :=
  existsb (λ j, negb (j =? i)%nat &&
    match sinks c !! j with Some s => (talker_entity_id s =? talker) && (talker_unique_id s =? unique) | None => false end)
    (seq 0 (length (sinks c))).

(** The status and whether the binding was restarted. *)
Definition acmp_milan_listener_bind (i p : nat) (pdu d : acmp_pdu) : EM (Z * bool) :=
  let! s := get_sink i in
  let! c := gets (λ c, c) in
  if is_listener_already_bound_to_talker_unique_id c i (p_talker_entity_id pdu) (p_talker_unique_id pdu) then
    let! _ := acmp_milan_send_bind_rx_response p d (p_flags pdu) ACMP_STAT_TALKER_EXCLUSIVE in
    ret (-1, false)
  else
    let restart := acmp_milan_need_binding_restart s pdu in
    let streaming_wait_changed := negb (flags s =? Z.land (p_flags pdu) (htons ACMP_FLAG_STREAMING_WAIT)) in
    let controller_changed := negb (controller_entity_id s =? p_controller_entity_id pdu) in
    set_sink i (acmp_milan_set_stream_input_binding_params (Some pdu));;
    let! rc := acmp_milan_send_bind_rx_response p d (p_flags pdu) ACMP_STAT_SUCCESS in
    let! rc :=
      if restart then
        let! rc' := acmp_milan_send_probe_tx_command i in
        set_sink i (λ s, s <| probing_status := ACMP_PROBING_STATUS_ACTIVE |> <| acmp_status := 0 |>);;
        ret (Z.lor rc rc')
      else ret rc in
    when (restart || streaming_wait_changed || controller_changed)
      (let! _ := acmp_listener_ipc_send_bind_status i in ret tt);;
    when (streaming_wait_changed || controller_changed)
      (acmp_milan_listener_register_async_get_stream_info_notification i);;
    ret (rc, restart).

Definition acmp_milan_listener_unbind (i p : nat) (d : acmp_pdu) : EM Z :=
  let! _ := get_sink i in
  set_sink i (λ s, (acmp_milan_set_stream_input_binding_params None s) <| probing_status := ACMP_PROBING_STATUS_DISABLED |>
    <| acmp_status := 0 |>);;
  let! rc := acmp_milan_send_unbind_rx_response i p d in
  let! _ := acmp_listener_ipc_send_unbind_status i in
  acmp_milan_listener_register_async_get_stream_info_notification i;;
  ret rc.
End milan.
