(* ===== verification/MilanSm.v ===== *)
(** * AVDECC: the state machines of Milan listener sinks

    The listener sink state machine of avdecc/acmp_milan.c, one function for
    each of its states, the discovery state machine of avdecc/adp_milan.c, the
    timeout of probe commands, and the events of a listener entity.  The ACMP
    machine resets the ADP machine, which calls it back: [RESET] does not, so
    the definitions are in that order. *)

From S2P Require Import Prelude MaapAddr Timer Milan.

Section milan_sm.
Context `{!Platform milan_call}.
Abbreviation EM := (M milan_call entity).

(** The case [ADP_MILAN_LISTENER_SINK_RESET] of the discovery machine. *)
Definition adp_milan_listener_sink_reset (i : nat) : EM unit :=
  let! s := get_sink i in
  match talker_state s with
  | ADP_LISTENER_SINK_TALKER_STATE_NOT_DISCOVERED => ret tt
  | ADP_LISTENER_SINK_TALKER_STATE_DISCOVERED =>
      timer_stop i TMR_NO_ADP;;
      set_sink i (λ s, s <| talker_state := ADP_LISTENER_SINK_TALKER_STATE_NOT_DISCOVERED |>)
  end.

(** ** The listener sink state machine

    What one event does in one state: the new state, whether the status of the
    stream has changed, and the return code.  A command comes with its PDU
    [pdu] and with the descriptor [rsp] of its response on its port. *)

Definition sm_result : Type := acmp_milan_listener_sink_sm_state_t * bool * Z.

Definition set_probing (i : nat) (st a : Z) : EM unit := set_sink i (λ s, s <| probing_status := st |> <| acmp_status := a |>).

Definition rcv_bind_rx_cmd (i : nat) (pdu : option acmp_pdu) (rsp : option (nat * acmp_pdu)) : EM (Z * bool) :=
  let! cmd := deref NullDeref pdu in
  let! '(p, d) := deref NullDeref rsp in
  acmp_milan_listener_bind i p cmd d.
Definition rcv_get_rx_state (i : nat) (rsp : option (nat * acmp_pdu)) : EM Z :=
  let! '(p, d) := deref NullDeref rsp in acmp_milan_send_get_rx_state_response i p d.
Definition rcv_unbind_rx_cmd (i : nat) (rsp : option (nat * acmp_pdu)) : EM Z :=
  let! '(p, d) := deref NullDeref rsp in acmp_milan_listener_unbind i p d.

Definition sink_sm_unbound (i : nat) (ev : acmp_milan_listener_sink_sm_event_t) (pdu : option acmp_pdu)
    (rsp : option (nat * acmp_pdu)) : EM sm_result :=
  let st := ACMP_LISTENER_SINK_SM_STATE_UNBOUND in
  match ev with
  | ACMP_LISTENER_SINK_SM_EVENT_RCV_BIND_RX_CMD =>
      let! r := rcv_bind_rx_cmd i pdu rsp in
      if r.1 <? 0 then ret (st, false, r.1)
      else
        adp_milan_listener_sink_reset i;;
        set_sink i (λ s, s <| diagnostic_counters ::= fmap (λ _, 0) |>);;
        ret (ACMP_LISTENER_SINK_SM_STATE_PRB_W_RESP, false, r.1)
  | ACMP_LISTENER_SINK_SM_EVENT_RCV_GET_RX_STATE =>
      let! rc := rcv_get_rx_state i rsp in ret (st, false, rc)
  | ACMP_LISTENER_SINK_SM_EVENT_RCV_UNBIND_RX_CMD =>
      let! rc := rcv_unbind_rx_cmd i rsp in ret (ACMP_LISTENER_SINK_SM_STATE_UNBOUND, false, rc)
  | ACMP_LISTENER_SINK_SM_EVENT_SAVED_BINDING_PARAMS =>
      adp_milan_listener_sink_reset i;;
      set_probing i ACMP_PROBING_STATUS_PASSIVE 0;;
      ret (ACMP_LISTENER_SINK_SM_STATE_PRB_W_AVAIL, true, 0)
  | _ => ret (st, false, 0)
  end.

Definition sink_sm_prb_w_avail (i : nat) (ev : acmp_milan_listener_sink_sm_event_t) (pdu : option acmp_pdu)
    (rsp : option (nat * acmp_pdu)) : EM sm_result :=
  let st := ACMP_LISTENER_SINK_SM_STATE_PRB_W_AVAIL in
  match ev with
  | ACMP_LISTENER_SINK_SM_EVENT_RCV_BIND_RX_CMD =>
      let! r := rcv_bind_rx_cmd i pdu rsp in
      if (r.1 <? 0) || negb r.2 then ret (st, false, r.1)
      else
        adp_milan_listener_sink_reset i;;
        ret (ACMP_LISTENER_SINK_SM_STATE_PRB_W_RESP, false, r.1)
  | ACMP_LISTENER_SINK_SM_EVENT_RCV_GET_RX_STATE =>
      let! rc := rcv_get_rx_state i rsp in ret (st, false, rc)
  | ACMP_LISTENER_SINK_SM_EVENT_RCV_UNBIND_RX_CMD =>
      let! rc := rcv_unbind_rx_cmd i rsp in
      adp_milan_listener_sink_reset i;;
      ret (ACMP_LISTENER_SINK_SM_STATE_UNBOUND, false, rc)
  | ACMP_LISTENER_SINK_SM_EVENT_EVT_TK_DISCOVERED =>
      delay_timer_start i;;
      set_probing i ACMP_PROBING_STATUS_ACTIVE 0;;
      ret (ACMP_LISTENER_SINK_SM_STATE_PRB_W_DELAY, true, 0)
  | _ => ret (st, false, 0)
  end.

Definition sink_sm_prb_w_delay (i : nat) (ev : acmp_milan_listener_sink_sm_event_t) (pdu : option acmp_pdu)
    (rsp : option (nat * acmp_pdu)) : EM sm_result :=
  let st := ACMP_LISTENER_SINK_SM_STATE_PRB_W_DELAY in
  match ev with
  | ACMP_LISTENER_SINK_SM_EVENT_TMR_DELAY =>
      let! rc := acmp_milan_send_probe_tx_command i in
      ret (ACMP_LISTENER_SINK_SM_STATE_PRB_W_RESP, false, rc)
  | ACMP_LISTENER_SINK_SM_EVENT_RCV_BIND_RX_CMD =>
      let! r := rcv_bind_rx_cmd i pdu rsp in
      if (r.1 <? 0) || negb r.2 then ret (st, false, r.1)
      else
        timer_stop i TMR_DELAY;;
        adp_milan_listener_sink_reset i;;
        ret (ACMP_LISTENER_SINK_SM_STATE_PRB_W_RESP, false, r.1)
  | ACMP_LISTENER_SINK_SM_EVENT_RCV_GET_RX_STATE =>
      let! rc := rcv_get_rx_state i rsp in ret (st, false, rc)
  | ACMP_LISTENER_SINK_SM_EVENT_RCV_UNBIND_RX_CMD =>
      adp_milan_listener_sink_reset i;;
      timer_stop i TMR_DELAY;;
      let! rc := rcv_unbind_rx_cmd i rsp in
      ret (ACMP_LISTENER_SINK_SM_STATE_UNBOUND, false, rc)
  | ACMP_LISTENER_SINK_SM_EVENT_EVT_TK_DEPARTED =>
      timer_stop i TMR_DELAY;;
      set_probing i ACMP_PROBING_STATUS_PASSIVE 0;;
      ret (ACMP_LISTENER_SINK_SM_STATE_PRB_W_AVAIL, true, 0)
  | _ => ret (st, false, 0)
  end.

(** States [PRB_W_RESP] and [PRB_W_RESP2]. *)
Definition sink_sm_prb_w_resp (st : acmp_milan_listener_sink_sm_state_t) (i : nat)
    (ev : acmp_milan_listener_sink_sm_event_t) (pdu : option acmp_pdu) (rsp : option (nat * acmp_pdu)) (status : Z) :
    EM sm_result :=
  match ev with
  | ACMP_LISTENER_SINK_SM_EVENT_TMR_NO_RESP =>
      if decide (st = ACMP_LISTENER_SINK_SM_STATE_PRB_W_RESP)
      then ret (ACMP_LISTENER_SINK_SM_STATE_PRB_W_RESP2, false, 0)
      else
        timer_start i TMR_RETRY ACMP_MILAN_LISTENER_TMR_RETRY_MS;;
        set_sink i (λ s, s <| acmp_status := ACMP_STAT_LISTENER_TALKER_TIMEOUT |>);;
        ret (ACMP_LISTENER_SINK_SM_STATE_PRB_W_RETRY, true, 0)
  | ACMP_LISTENER_SINK_SM_EVENT_RCV_BIND_RX_CMD =>
      let! s := get_sink i in
      let! r := rcv_bind_rx_cmd i pdu rsp in
      if (r.1 <? 0) || negb r.2 then ret (st, false, r.1)
      else
        let! _ := avdecc_inflight_cancel (probe_tx_seq_id s) in
        adp_milan_listener_sink_reset i;;
        ret (ACMP_LISTENER_SINK_SM_STATE_PRB_W_RESP, false, r.1)
  | ACMP_LISTENER_SINK_SM_EVENT_RCV_PROBE_TX_RESP =>
      let! pdu := deref NullDeref pdu in
      let! rc := avdecc_inflight_cancel (ntohs (p_sequence_id pdu)) in
      if rc <? 0 then ret (st, false, -1)
      else if negb (status =? ACMP_STAT_SUCCESS) then
        set_sink i (λ s, s <| acmp_status := status |>);;
        timer_start i TMR_RETRY ACMP_MILAN_LISTENER_TMR_RETRY_MS;;
        ret (ACMP_LISTENER_SINK_SM_STATE_PRB_W_RETRY, true, 0)
      else
        acmp_milan_set_stream_input_srp_params i (Some pdu);;
        let! r := acmp_listener_stack_connect i (ntohs (p_flags pdu)) in
        timer_start i TMR_NO_TK ACMP_MILAN_LISTENER_TMR_NO_TK_MS;;
        set_probing i ACMP_PROBING_STATUS_COMPLETED 0;;
        ret (ACMP_LISTENER_SINK_SM_STATE_SETTLED_NO_RSV, true, if r =? ACMP_STAT_SUCCESS then 0 else -1)
  | ACMP_LISTENER_SINK_SM_EVENT_RCV_GET_RX_STATE =>
      let! rc := rcv_get_rx_state i rsp in ret (st, false, rc)
  | ACMP_LISTENER_SINK_SM_EVENT_RCV_UNBIND_RX_CMD =>
      adp_milan_listener_sink_reset i;;
      let! s := get_sink i in
      let! _ := avdecc_inflight_cancel (probe_tx_seq_id s) in
      let! rc := rcv_unbind_rx_cmd i rsp in
      ret (ACMP_LISTENER_SINK_SM_STATE_UNBOUND, false, rc)
  | ACMP_LISTENER_SINK_SM_EVENT_EVT_TK_DEPARTED =>
      let! s := get_sink i in
      let! _ := avdecc_inflight_cancel (probe_tx_seq_id s) in
      set_probing i ACMP_PROBING_STATUS_PASSIVE 0;;
      ret (ACMP_LISTENER_SINK_SM_STATE_PRB_W_AVAIL, true, 0)
  | _ => ret (st, false, 0)
  end.

Definition sink_sm_prb_w_retry (i : nat) (ev : acmp_milan_listener_sink_sm_event_t) (pdu : option acmp_pdu)
    (rsp : option (nat * acmp_pdu)) : EM sm_result :=
  let st := ACMP_LISTENER_SINK_SM_STATE_PRB_W_RETRY in
  match ev with
  | ACMP_LISTENER_SINK_SM_EVENT_TMR_RETRY =>
      let! s := get_sink i in
      match talker_state s with
      | ADP_LISTENER_SINK_TALKER_STATE_NOT_DISCOVERED =>
          set_probing i ACMP_PROBING_STATUS_PASSIVE 0;;
          ret (ACMP_LISTENER_SINK_SM_STATE_PRB_W_AVAIL, true, 0)
      | ADP_LISTENER_SINK_TALKER_STATE_DISCOVERED =>
          delay_timer_start i;;
          ret (ACMP_LISTENER_SINK_SM_STATE_PRB_W_DELAY, false, 0)
      end
  | ACMP_LISTENER_SINK_SM_EVENT_RCV_BIND_RX_CMD =>
      let! r := rcv_bind_rx_cmd i pdu rsp in
      if (r.1 <? 0) || negb r.2 then ret (st, false, r.1)
      else
        timer_stop i TMR_RETRY;;
        adp_milan_listener_sink_reset i;;
        ret (ACMP_LISTENER_SINK_SM_STATE_PRB_W_RESP, false, r.1)
  | ACMP_LISTENER_SINK_SM_EVENT_RCV_GET_RX_STATE =>
      let! rc := rcv_get_rx_state i rsp in ret (st, false, rc)
  | ACMP_LISTENER_SINK_SM_EVENT_RCV_UNBIND_RX_CMD =>
      adp_milan_listener_sink_reset i;;
      timer_stop i TMR_RETRY;;
      let! rc := rcv_unbind_rx_cmd i rsp in
      ret (ACMP_LISTENER_SINK_SM_STATE_UNBOUND, false, rc)
  | ACMP_LISTENER_SINK_SM_EVENT_EVT_TK_DEPARTED =>
      timer_stop i TMR_RETRY;;
      set_probing i ACMP_PROBING_STATUS_PASSIVE 0;;
      ret (ACMP_LISTENER_SINK_SM_STATE_PRB_W_AVAIL, true, 0)
  | _ => ret (st, false, 0)
  end.

(** The end of a settled state when the talker's attribute is missing. *)
Definition sink_probe_again (i : nat) : EM acmp_milan_listener_sink_sm_state_t :=
  let! s := get_sink i in
  match talker_state s with
  | ADP_LISTENER_SINK_TALKER_STATE_NOT_DISCOVERED =>
      set_probing i ACMP_PROBING_STATUS_PASSIVE 0;;
      ret ACMP_LISTENER_SINK_SM_STATE_PRB_W_AVAIL
  | ADP_LISTENER_SINK_TALKER_STATE_DISCOVERED =>
      set_probing i ACMP_PROBING_STATUS_ACTIVE 0;;
      delay_timer_start i;;
      ret ACMP_LISTENER_SINK_SM_STATE_PRB_W_DELAY
  end.

Definition sink_sm_settled_no_rsv (i : nat) (ev : acmp_milan_listener_sink_sm_event_t) (pdu : option acmp_pdu)
    (rsp : option (nat * acmp_pdu)) : EM sm_result :=
  let st := ACMP_LISTENER_SINK_SM_STATE_SETTLED_NO_RSV in
  match ev with
  | ACMP_LISTENER_SINK_SM_EVENT_TMR_NO_TK =>
      let! r := acmp_listener_stack_disconnect i in
      acmp_milan_listener_sink_srp_state_clear i;;
      let! st' := sink_probe_again i in
      ret (st', true, if r =? ACMP_STAT_SUCCESS then 0 else -1)
  | ACMP_LISTENER_SINK_SM_EVENT_RCV_BIND_RX_CMD =>
      let! r := rcv_bind_rx_cmd i pdu rsp in
      if (r.1 <? 0) || negb r.2 then ret (st, false, r.1)
      else
        let! d := acmp_listener_stack_disconnect i in
        acmp_milan_listener_sink_srp_state_clear i;;
        timer_stop i TMR_NO_TK;;
        adp_milan_listener_sink_reset i;;
        ret (ACMP_LISTENER_SINK_SM_STATE_PRB_W_RESP, false, if d =? ACMP_STAT_SUCCESS then r.1 else -1)
  | ACMP_LISTENER_SINK_SM_EVENT_RCV_GET_RX_STATE =>
      let! rc := rcv_get_rx_state i rsp in ret (st, false, rc)
  | ACMP_LISTENER_SINK_SM_EVENT_RCV_UNBIND_RX_CMD =>
      let! d := acmp_listener_stack_disconnect i in
      acmp_milan_listener_sink_srp_state_clear i;;
      adp_milan_listener_sink_reset i;;
      timer_stop i TMR_NO_TK;;
      let! rc := rcv_unbind_rx_cmd i rsp in
      ret (ACMP_LISTENER_SINK_SM_STATE_UNBOUND, false, Z.lor (if d =? ACMP_STAT_SUCCESS then 0 else -1) rc)
  | ACMP_LISTENER_SINK_SM_EVENT_EVT_TK_REGISTERED =>
      timer_stop i TMR_NO_TK;;
      ret (ACMP_LISTENER_SINK_SM_STATE_SETTLED_RSV_OK, false, 0)
  | _ => ret (st, false, 0)
  end.

Definition sink_sm_settled_rsv_ok (i : nat) (ev : acmp_milan_listener_sink_sm_event_t) (pdu : option acmp_pdu)
    (rsp : option (nat * acmp_pdu)) : EM sm_result :=
  let st := ACMP_LISTENER_SINK_SM_STATE_SETTLED_RSV_OK in
  match ev with
  | ACMP_LISTENER_SINK_SM_EVENT_RCV_BIND_RX_CMD =>
      let! r := rcv_bind_rx_cmd i pdu rsp in
      if (r.1 <? 0) || negb r.2 then ret (st, false, r.1)
      else
        let! d := acmp_listener_stack_disconnect i in
        acmp_milan_listener_sink_srp_state_clear i;;
        adp_milan_listener_sink_reset i;;
        ret (ACMP_LISTENER_SINK_SM_STATE_PRB_W_RESP, false, if d =? ACMP_STAT_SUCCESS then r.1 else -1)
  | ACMP_LISTENER_SINK_SM_EVENT_RCV_GET_RX_STATE =>
      let! rc := rcv_get_rx_state i rsp in ret (st, false, rc)
  | ACMP_LISTENER_SINK_SM_EVENT_RCV_UNBIND_RX_CMD =>
      let! d := acmp_listener_stack_disconnect i in
      acmp_milan_listener_sink_srp_state_clear i;;
      adp_milan_listener_sink_reset i;;
      let! rc := rcv_unbind_rx_cmd i rsp in
      ret (ACMP_LISTENER_SINK_SM_STATE_UNBOUND, false, Z.lor d rc)
  | ACMP_LISTENER_SINK_SM_EVENT_EVT_TK_UNREGISTERED =>
      let! d := acmp_listener_stack_disconnect i in
      acmp_milan_listener_sink_srp_state_clear i;;
      let! st' := sink_probe_again i in
      ret (st', true, d)
  | _ => ret (st, false, 0)
  end.

Definition sink_sm_state (st : acmp_milan_listener_sink_sm_state_t) (i : nat) (ev : acmp_milan_listener_sink_sm_event_t)
    (pdu : option acmp_pdu) (rsp : option (nat * acmp_pdu)) (status : Z) : EM sm_result :=
  match st with
  | ACMP_LISTENER_SINK_SM_STATE_UNBOUND => sink_sm_unbound i ev pdu rsp
  | ACMP_LISTENER_SINK_SM_STATE_PRB_W_AVAIL => sink_sm_prb_w_avail i ev pdu rsp
  | ACMP_LISTENER_SINK_SM_STATE_PRB_W_DELAY => sink_sm_prb_w_delay i ev pdu rsp
  | ACMP_LISTENER_SINK_SM_STATE_PRB_W_RESP | ACMP_LISTENER_SINK_SM_STATE_PRB_W_RESP2 =>
      sink_sm_prb_w_resp st i ev pdu rsp status
  | ACMP_LISTENER_SINK_SM_STATE_PRB_W_RETRY => sink_sm_prb_w_retry i ev pdu rsp
  | ACMP_LISTENER_SINK_SM_STATE_SETTLED_NO_RSV => sink_sm_settled_no_rsv i ev pdu rsp
  | ACMP_LISTENER_SINK_SM_STATE_SETTLED_RSV_OK => sink_sm_settled_rsv_ok i ev pdu rsp
  end.

Definition acmp_milan_listener_get_msg_type (ev : acmp_milan_listener_sink_sm_event_t) : Z :=
  match ev with
  | ACMP_LISTENER_SINK_SM_EVENT_RCV_BIND_RX_CMD => ACMP_BIND_RX_COMMAND
  | ACMP_LISTENER_SINK_SM_EVENT_RCV_GET_RX_STATE => ACMP_GET_RX_STATE_COMMAND
  | ACMP_LISTENER_SINK_SM_EVENT_RCV_UNBIND_RX_CMD => ACMP_UNBIND_RX_COMMAND
  | ACMP_LISTENER_SINK_SM_EVENT_RCV_PROBE_TX_RESP => ACMP_PROBE_TX_RESPONSE
  | _ => ACMP_MSG_TYPE_NONE
  end.
Definition acmp_milan_listener_get_event (t : Z) : acmp_milan_listener_sink_sm_event_t :=
  if t =? ACMP_BIND_RX_COMMAND then ACMP_LISTENER_SINK_SM_EVENT_RCV_BIND_RX_CMD
  else if t =? ACMP_GET_RX_STATE_COMMAND then ACMP_LISTENER_SINK_SM_EVENT_RCV_GET_RX_STATE
  else if t =? ACMP_UNBIND_RX_COMMAND then ACMP_LISTENER_SINK_SM_EVENT_RCV_UNBIND_RX_CMD
  else if t =? ACMP_PROBE_TX_RESPONSE then ACMP_LISTENER_SINK_SM_EVENT_RCV_PROBE_TX_RESP
  else ACMP_LISTENER_SINK_SM_EVENT_UNKNOWN.

(** [ACMP_IS_LISTENER_COMMAND], [ACMP_MILAN_IS_LISTENER_BINDING_COMMAND] *)
Definition is_listener_command (t : Z) : bool :=
  (t =? ACMP_BIND_RX_COMMAND) || (t =? ACMP_GET_RX_STATE_COMMAND) || (t =? ACMP_UNBIND_RX_COMMAND).
Definition is_listener_binding_command (t : Z) : bool := (t =? ACMP_BIND_RX_COMMAND) || (t =? ACMP_UNBIND_RX_COMMAND).

Definition avdecc_entity_is_locked (c : entity) (controller : Z) : bool :=
  locked c && negb (locking_controller_id c =? controller).

(** The end of the machine: the state is written, a change of the status is
    notified. *)
Definition sink_sm_finish (i : nat) (r : sm_result) : EM Z :=
  let '(st', changed, rc) := r in
  set_sink i (λ s, s <| state := st' |>);;
  when changed (acmp_milan_listener_register_async_get_stream_info_notification i);;
  ret rc.

Definition sink_sm_run (i : nat) (ev : acmp_milan_listener_sink_sm_event_t) (pdu : option acmp_pdu)
    (rsp : option (nat * acmp_pdu)) (status : Z) : EM Z :=
  let! s := get_sink i in
  let! r := sink_sm_state (state s) i ev pdu rsp status in
  sink_sm_finish i r.

Definition acmp_milan_listener_sink_sm (i : nat) (ev : acmp_milan_listener_sink_sm_event_t) (pdu : option acmp_pdu)
    (status : Z) (p : nat) : EM Z :=
  let t := acmp_milan_listener_get_msg_type ev in
  if is_listener_command t then
    let! cmd := deref NullDeref pdu in
    let! p := get_port p in
    let! o := acmp_net_tx_init p cmd true in
    match o with
    | None => ret (-1)
    | Some d =>
        let! c := gets (λ c, c) in
        if negb (acmp_listener_unique_valid c i) then acmp_send_rsp p d (t + 1) ACMP_STAT_LISTENER_UNKNOWN_ID
        else if is_listener_binding_command t && avdecc_entity_is_locked c (p_controller_entity_id cmd) then
          let! _ := acmp_send_rsp p d (t + 1) ACMP_STAT_CONTROLLER_NOT_AUTHORIZED in ret 0
        else sink_sm_run i ev pdu (Some (p, d)) status
    end
  else
    let! c := gets (λ c, c) in
    if negb (acmp_listener_unique_valid c i) then ret (-1) else sink_sm_run i ev pdu None status.

Definition acmp_milan_listener_rcv (pdu : acmp_pdu) (msg_type status : Z) (p : nat) : EM Z :=
  acmp_milan_listener_sink_sm (Z.to_nat (ntohs (p_listener_unique_id pdu))) (acmp_milan_listener_get_event msg_type)
    (Some pdu) status p.
Definition acmp_milan_listener_sink_event (i : nat) (ev : acmp_milan_listener_sink_sm_event_t) : EM Z :=
  acmp_milan_listener_sink_sm i ev None 0 0.
End milan_sm.
