(* ===== verification/MilanListener.v ===== *)
(** * AVDECC: events of a Milan listener entity

    The SRP state of a sink, the discovery of its talker by ADP, the timeout of
    probe commands, requests of the media stack and of AECP, and the entry
    points that run them; initialisation and exit of the listener's part of an
    entity. *)

From S2P Require Import Prelude MaapAddr Timer Milan MilanSm.

Section milan_listener.
Context `{!Platform milan_call}.
Abbreviation EM := (M milan_call entity).

(** ** SRP (avdecc/acmp_milan.c) *)

Definition acmp_milan_get_listener_unique_id (c : entity) (id : Z) : option nat :=
  List.find (λ i, match sinks c !! i with Some s => stream_id s =? id | None => false end) (seq 0 (length (sinks c))).

Definition srp_status_matches (s : stream_input) (m : listener_status_msg) : bool :=
  (stream_id s =? ls_stream_id m) && bool_decide (stream_dest_mac s = ls_destination_address m) &&
  (stream_vlan_id s =? htons (ls_vlan_id m)).
Definition srp_status_update (m : listener_status_msg) (s : stream_input) : stream_input :=
  s <| srp_stream_status := ls_status m |>
    <| msrp_accumulated_latency := if negb (ls_status m =? NO_TALKER) then ls_accumulated_latency m else 0 |>
    <| failure := if ls_status m =? FAILED then ls_failure m else (replicate 8 0, 0) |>.

Definition acmp_milan_listener_srp_state_sm (i : nat) (m : listener_status_msg) : EM unit :=
  let! l := gets sinks in
  match l !! i with
  | None => ret tt
  | Some s =>
      if negb (is_settled s) then ret tt
      else if ((ls_status m =? ACTIVE) || (ls_status m =? FAILED)) && negb (srp_status_matches s m) then ret tt
      else
        set_sink i (srp_status_update m);;
        match srp_state s with
        | ACMP_LISTENER_SINK_SRP_STATE_NOT_REGISTERING =>
            when ((ls_status m =? ACTIVE) || (ls_status m =? FAILED))
              (set_sink i (λ s, s <| srp_state := ACMP_LISTENER_SINK_SRP_STATE_REGISTERING |>);;
               let! _ := acmp_milan_listener_sink_event i ACMP_LISTENER_SINK_SM_EVENT_EVT_TK_REGISTERED in ret tt)
        | ACMP_LISTENER_SINK_SRP_STATE_REGISTERING =>
            when (ls_status m =? NO_TALKER)
              (set_sink i (λ s, s <| srp_state := ACMP_LISTENER_SINK_SRP_STATE_NOT_REGISTERING |>);;
               let! _ := acmp_milan_listener_sink_event i ACMP_LISTENER_SINK_SM_EVENT_EVT_TK_UNREGISTERED in ret tt)
        end;;
        acmp_milan_listener_register_async_get_stream_info_notification i
  end.

(** ** Discovery (avdecc/adp_milan.c) *)

Definition adp_milan_check_gptp (c : entity) (s : stream_input) (pdu : adp_pdu) : bool :=
  match interfaces c !! Z.to_nat (ntohs (avb_interface_index s)) with
  | None => false
  | Some a => (gptp_grandmaster_id a =? adp_gptp_grandmaster_id pdu) && (domain_number a =? adp_gptp_domain_number pdu)
  end.

Definition discovery_timer_start (i : nat) (valid_time : Z) : EM unit :=
  timer_start i TMR_NO_ADP (Z.max 1 valid_time * MS_PER_S).
Definition set_talker_state (i : nat) (st : adp_milan_listener_sink_talker_state_t) : EM unit :=
  set_sink i (λ s, s <| talker_state := st |>).

Definition discovery_sm_not_discovered (i : nat) (ev : adp_milan_listener_sink_event_t) (valid_time : Z)
    (pdu : option adp_pdu) : EM unit :=
  match ev with
  | ADP_MILAN_LISTENER_SINK_RCV_ADP_AVAILABLE =>
      let! pdu := deref NullDeref pdu in
      let! s := get_sink i in
      let! c := gets (λ c, c) in
      when (adp_milan_check_gptp c s pdu)
        (set_sink i (λ s, s <| available_index := adp_available_index pdu |> <| interface_index := adp_interface_index pdu |>);;
         discovery_timer_start i valid_time;;
         let! _ := acmp_milan_listener_sink_event i ACMP_LISTENER_SINK_SM_EVENT_EVT_TK_DISCOVERED in
         set_talker_state i ADP_LISTENER_SINK_TALKER_STATE_DISCOVERED)
  | _ => ret tt
  end.

(** [(s32)(ntohl(new) - ntohl(old)) <= 0]: the talker has restarted. *)
Definition index_not_newer (new old : Z) : bool := s32 (ntohl new - ntohl old) <=? 0.

Definition discovery_sm_discovered (i : nat) (ev : adp_milan_listener_sink_event_t) (valid_time : Z)
    (pdu : option adp_pdu) : EM unit :=
  match ev with
  | ADP_MILAN_LISTENER_SINK_RCV_ADP_AVAILABLE =>
      let! pdu := deref NullDeref pdu in
      let! s := get_sink i in
      let refresh :=
        set_sink i (λ s, s <| available_index := adp_available_index pdu |>);;
        timer_stop i TMR_NO_ADP;;
        discovery_timer_start i valid_time in
      if negb (ntohs (interface_index s) =? ntohs (adp_interface_index pdu)) then ret tt
      else if index_not_newer (adp_available_index pdu) (available_index s) then
        let! _ := acmp_milan_listener_sink_event i ACMP_LISTENER_SINK_SM_EVENT_EVT_TK_DEPARTED in
        let! s := get_sink i in
        let! c := gets (λ c, c) in
        if negb (adp_milan_check_gptp c s pdu) then
          timer_stop i TMR_NO_ADP;;
          set_talker_state i ADP_LISTENER_SINK_TALKER_STATE_NOT_DISCOVERED
        else
          let! _ := acmp_milan_listener_sink_event i ACMP_LISTENER_SINK_SM_EVENT_EVT_TK_DISCOVERED in
          refresh
      else refresh
  | ADP_MILAN_LISTENER_SINK_RCV_ADP_DEPARTING =>
      let! pdu := deref NullDeref pdu in
      let! s := get_sink i in
      if negb (ntohs (interface_index s) =? ntohs (adp_interface_index pdu)) then ret tt
      else
        timer_stop i TMR_NO_ADP;;
        let! _ := acmp_milan_listener_sink_event i ACMP_LISTENER_SINK_SM_EVENT_EVT_TK_DEPARTED in
        set_talker_state i ADP_LISTENER_SINK_TALKER_STATE_NOT_DISCOVERED
  | ADP_MILAN_LISTENER_SINK_TMR_NO_ADP =>
      let! _ := acmp_milan_listener_sink_event i ACMP_LISTENER_SINK_SM_EVENT_EVT_TK_DEPARTED in
      set_talker_state i ADP_LISTENER_SINK_TALKER_STATE_NOT_DISCOVERED
  | ADP_MILAN_LISTENER_SINK_RESET => adp_milan_listener_sink_reset i
  end.

Definition adp_milan_listener_sink_discovery_sm (i : nat) (ev : adp_milan_listener_sink_event_t) (valid_time : Z)
    (pdu : option adp_pdu) : EM Z :=
  let! l := gets sinks in
  match l !! i with
  | None => ret (-1)
  | Some s =>
      match talker_state s with
      | ADP_LISTENER_SINK_TALKER_STATE_NOT_DISCOVERED => discovery_sm_not_discovered i ev valid_time pdu
      | ADP_LISTENER_SINK_TALKER_STATE_DISCOVERED => discovery_sm_discovered i ev valid_time pdu
      end;;
      ret 0
  end.

(** One pass of the loop of [adp_milan_listener_rcv] over the sinks. *)
Definition adp_milan_listener_rcv_sink (ev : adp_milan_listener_sink_event_t) (pdu : adp_pdu) (valid_time : Z) (i : nat) :
    EM unit :=
  let! s := get_sink i in
  when (is_bound s && (talker_entity_id s =? adp_entity_id pdu))
    (let! _ := adp_milan_listener_sink_discovery_sm i ev valid_time (Some pdu) in ret tt).
Definition adp_milan_listener_rcv (msg_type : Z) (pdu : adp_pdu) (valid_time : Z) : EM unit :=
  let rcv ev := let! l := gets sinks in for_each (seq 0 (length l)) (adp_milan_listener_rcv_sink ev pdu valid_time) in
  if msg_type =? ADP_ENTITY_AVAILABLE then rcv ADP_MILAN_LISTENER_SINK_RCV_ADP_AVAILABLE
  else if msg_type =? ADP_ENTITY_DEPARTING then rcv ADP_MILAN_LISTENER_SINK_RCV_ADP_DEPARTING
  else ret tt.

(** ** Timeouts of commands (avdecc/acmp.c, avdecc/avdecc.c) *)

Definition AVDECC_INFLIGHT_TIMER_RESTART : Z := 0.
Definition AVDECC_INFLIGHT_TIMER_STOP : Z := 1.

Definition acmp_inflight_timeout (e : nat) : EM Z :=
  let! x := get_entry e in
  let i := Z.to_nat (ntohs (p_listener_unique_id (i_pdu x))) in
  if retried x then
    (if (i_msg_type x =? ACMP_PROBE_TX_COMMAND) || (i_msg_type x =? ACMP_DISCONNECT_TX_COMMAND) then
       let! _ := acmp_milan_listener_sink_event i ACMP_LISTENER_SINK_SM_EVENT_TMR_NO_RESP in ret tt
     else
       let! _ := perform (AcmpIpcTxRsp (AcmpMsg (i_msg_type x + 1) ACMP_STAT_LISTENER_TALKER_TIMEOUT (i_pdu x))) in ret tt);;
    ret AVDECC_INFLIGHT_TIMER_STOP
  else
    let! _ := acmp_milan_listener_sink_event i ACMP_LISTENER_SINK_SM_EVENT_TMR_NO_RESP in
    let! x := get_entry e in
    let! p := get_port (i_port_id x) in
    let! ok := perform (NetTxAlloc p) in
    if ok =? 0 then ret AVDECC_INFLIGHT_TIMER_RESTART
    else
      set_entry e (λ x, x <| retried := true |>);;
      let! _ := acmp_send_cmd p (i_pdu x) (i_msg_type x) true 0 in
      ret AVDECC_INFLIGHT_TIMER_RESTART.

Definition avdecc_inflight_timeout (e : nat) : EM unit :=
  let! rc := acmp_inflight_timeout e in
  if rc =? AVDECC_INFLIGHT_TIMER_STOP then
    inflight_del e;;
    modify (λ c, c <| free_inflight ::= cons e |>);;
    inflight_timer_stop e
  else when (rc =? AVDECC_INFLIGHT_TIMER_RESTART) (avdecc_inflight_restart e).

(** ** Requests of AECP and of the media stack (avdecc/acmp_milan.c) *)

Definition STREAMING_WAIT : Z := htons ACMP_FLAG_STREAMING_WAIT.

Definition acmp_milan_start_streaming (i : nat) : EM Z :=
  let! l := gets sinks in
  match l !! i with
  | None => ret (-1)
  | Some s =>
      if is_bound s && negb (Z.land (flags s) STREAMING_WAIT =? 0) then
        set_sink i (λ s, s <| flags ::= λ f, Z.land f (Z.lnot STREAMING_WAIT) |>);;
        let! _ := acmp_listener_ipc_send_bind_status i in
        acmp_milan_listener_register_async_get_stream_info_notification i;;
        ret 1
      else ret 0
  end.
Definition acmp_milan_stop_streaming (i : nat) : EM Z :=
  let! l := gets sinks in
  match l !! i with
  | None => ret (-1)
  | Some s =>
      if is_bound s && (Z.land (flags s) STREAMING_WAIT =? 0) then
        set_sink i (λ s, s <| flags ::= λ f, Z.lor f STREAMING_WAIT |>);;
        let! _ := acmp_listener_ipc_send_bind_status i in
        acmp_milan_listener_register_async_get_stream_info_notification i;;
        ret 1
      else ret 0
  end.

Definition saved_binding (b : media_stack_bind) (s : stream_input) : stream_input :=
  s <| controller_entity_id := htonll (bind_controller_entity_id b) |> <| talker_entity_id := htonll (bind_talker_entity_id b) |>
    <| talker_unique_id := htons (bind_talker_stream_index b) |>
    <| flags := if bind_started b =? ACMP_LISTENER_STREAM_STOPPED then htons ACMP_FLAG_STREAMING_WAIT else htons 0 |>.
Definition acmp_milan_listener_sink_rcv_binding_params (b : media_stack_bind) : EM Z :=
  let i := bind_listener_stream_index b in
  let! l := gets sinks in
  match l !! i with
  | None => ret (-1)
  | Some _ =>
      if (bind_talker_entity_id b =? 0) || (bind_controller_entity_id b =? 0) then ret (-1)
      else
        set_sink i (saved_binding b);;
        acmp_milan_listener_sink_sm i ACMP_LISTENER_SINK_SM_EVENT_SAVED_BINDING_PARAMS None 0 0
  end.

(** ** Entry points (avdecc/acmp.c, avdecc/adp.c, avdecc/avdecc.c)

    A context with one entity, a listener that is ready. *)

Definition acmp_net_rx (p : nat) (m : acmp_msg) : EM unit :=
  let! c := gets (λ c, c) in
  let t := m_type m in
  if (t =? ACMP_PROBE_TX_RESPONSE) || (t =? ACMP_DISCONNECT_TX_RESPONSE) || (t =? ACMP_BIND_RX_COMMAND) ||
     (t =? ACMP_UNBIND_RX_COMMAND) || (t =? ACMP_GET_RX_STATE_COMMAND)
  then
    when ((p_listener_entity_id (m_pdu m) =? entity_id c) && avdecc_entity_port_valid c p)
      (let! _ := acmp_milan_listener_rcv (m_pdu m) t (m_status m) p in ret tt)
  else acmp_net_rx_other p m.

Definition adp_net_rx (p : nat) (msg_type : Z) (pdu : adp_pdu) (valid_time : Z) : EM unit :=
  let! c := gets (λ c, c) in
  when (avdecc_entity_port_valid c p) (adp_milan_listener_rcv msg_type pdu valid_time).

(** [GENAVB_MSG_LISTENER_STATUS] and [GENAVB_MSG_MEDIA_STACK_BIND] *)
Definition avdecc_ipc_rx_srp (p : nat) (m : listener_status_msg) : EM unit :=
  let! c := gets (λ c, c) in
  if negb (avdecc_entity_port_valid c p) then ret tt
  else match acmp_milan_get_listener_unique_id c (ls_stream_id m) with
  | Some i => acmp_milan_listener_srp_state_sm i m
  | None => ret tt
  end.
Definition avdecc_ipc_rx_media_stack (b : media_stack_bind) : EM unit :=
  let! c := gets (λ c, c) in
  when (entity_id c =? htonll (bind_entity_id b))
    (let! _ := acmp_milan_listener_sink_rcv_binding_params b in ret tt).

Definition sink_timer_handler (i : nat) (k : sink_timer) : EM unit :=
  match k with
  | TMR_RETRY => let! _ := acmp_milan_listener_sink_event i ACMP_LISTENER_SINK_SM_EVENT_TMR_RETRY in ret tt
  | TMR_DELAY => let! _ := acmp_milan_listener_sink_event i ACMP_LISTENER_SINK_SM_EVENT_TMR_DELAY in ret tt
  | TMR_NO_TK => let! _ := acmp_milan_listener_sink_event i ACMP_LISTENER_SINK_SM_EVENT_TMR_NO_TK in ret tt
  | TMR_NO_ADP => let! _ := adp_milan_listener_sink_discovery_sm i ADP_MILAN_LISTENER_SINK_TMR_NO_ADP 0 None in ret tt
  | TMR_NOTIFICATION => let! _ := perform (StreamInfoNotification i) in ret tt
  end.

(** A timer that runs expires, then its callback runs. *)
Definition timer_of (k : sink_timer) (s : stream_input) : soft_timer :=
  match k with
  | TMR_RETRY => acmp_retry_timer s
  | TMR_DELAY => acmp_delay_timer s
  | TMR_NO_TK => acmp_talker_registration_timer s
  | TMR_NO_ADP => adp_discovery_timer s
  | TMR_NOTIFICATION => async_unsolicited_notification_timer s
  end.
Definition sink_timer_expiry (i : nat) (k : sink_timer) : EM unit :=
  let! l := gets sinks in
  match l !! i with
  | None => ret tt
  | Some s => when (st_running (timer_of k s)) (timer_stop i k;; sink_timer_handler i k)
  end.
Definition inflight_timer_expiry (e : nat) : EM unit :=
  let! l := gets inflight_storage in
  match l !! e with
  | None => ret tt
  | Some x => when (st_running (timeout x)) (inflight_timer_stop e;; avdecc_inflight_timeout e)
  end.

(** ** Initialisation and exit *)

Definition soft_created : soft_timer := SoftTimer true false.
Definition inflight_timer_create (e : nat) : EM Z :=
  let! rc := perform (InflightTimerCreate e) in
  when (negb (rc <? 0)) (set_entry e (λ x, x <| timeout := soft_created |>));;
  ret rc.
Definition inflight_timer_destroy (e : nat) : EM unit := set_entry e (λ x, x <| timeout := soft_none |>).

Fixpoint inflight_init_loop (l done : list nat) : EM Z :=
  match l with
  | [] => ret 0
  | e :: l =>
      modify (λ c, c <| free_inflight ::= cons e |>);;
      let! rc := inflight_timer_create e in
      if rc <? 0 then for_each done inflight_timer_destroy;; ret (-1)
      else inflight_init_loop l (e :: done)
  end.
Definition avdecc_inflight_init : EM Z :=
  let! n := gets (λ c, length (inflight_storage c)) in
  modify (λ c, c <| free_inflight := [] |>);;
  inflight_init_loop (seq 0 n) [].
Definition avdecc_inflight_exit : EM unit :=
  let! n := gets (λ c, length (inflight_storage c)) in for_each (seq 0 n) inflight_timer_destroy.

Definition timer_create (i : nat) (k : sink_timer) : EM Z :=
  let! rc := perform (SinkTimerCreate i k) in
  when (negb (rc <? 0)) (set_sink i (on_timer k (λ _, soft_created)));;
  ret rc.
Definition timer_destroy (i : nat) (k : sink_timer) : EM unit := set_sink i (on_timer k (λ _, soft_none)).

Definition adp_milan_listener_sink_exit_timers (i : nat) : EM unit := timer_destroy i TMR_NO_ADP.
Fixpoint discovery_init_loop (l done : list nat) : EM Z :=
  match l with
  | [] => ret 0
  | i :: l =>
      let! _ := get_sink i in
      set_sink i (λ s, s <| interface_index := 0 |> <| available_index := 0 |>);;
      let! rc := timer_create i TMR_NO_ADP in
      if rc <? 0 then for_each done adp_milan_listener_sink_exit_timers;; ret (-1)
      else
        set_sink i (λ s, s <| talker_state := ADP_LISTENER_SINK_TALKER_STATE_NOT_DISCOVERED |>);;
        discovery_init_loop l (i :: done)
  end.
Definition adp_milan_listener_sink_discovery_init : EM Z :=
  let! n := gets (λ c, length (sinks c)) in discovery_init_loop (seq 0 n) [].
Definition adp_milan_listener_sink_discovery_exit : EM unit :=
  let! n := gets (λ c, length (sinks c)) in for_each (seq 0 n) adp_milan_listener_sink_exit_timers.

(** Timers are created in this order; those before one that fails are
    destroyed. *)
Fixpoint sink_timers_create (i : nat) (l done : list sink_timer) : EM Z :=
  match l with
  | [] => ret 0
  | k :: l =>
      let! rc := timer_create i k in
      if rc <? 0 then for_each done (timer_destroy i);; ret (-1) else sink_timers_create i l (k :: done)
  end.
Definition acmp_milan_listener_sink_init_timers (i : nat) : EM Z :=
  sink_timers_create i [TMR_RETRY; TMR_DELAY; TMR_NO_TK; TMR_NOTIFICATION] [].
Definition acmp_milan_listener_sink_exit_timers (i : nat) : EM unit :=
  for_each [TMR_RETRY; TMR_DELAY; TMR_NO_TK; TMR_NOTIFICATION] (timer_destroy i).

Definition sink_init (s : stream_input) : stream_input :=
  acmp_milan_set_stream_input_binding_params None
    (s <| state := ACMP_LISTENER_SINK_SM_STATE_UNBOUND |> <| srp_stream_status := NO_TALKER |>
       <| srp_state := ACMP_LISTENER_SINK_SRP_STATE_NOT_REGISTERING |> <| acmp_status := 0 |>
       <| probing_status := ACMP_PROBING_STATUS_DISABLED |>).
Fixpoint milan_init_loop (l done : list nat) : EM Z :=
  match l with
  | [] => ret 0
  | i :: l =>
      let! _ := get_sink i in
      set_sink i sink_init;;
      let! rc := acmp_milan_listener_sink_init_timers i in
      if rc <? 0 then for_each done acmp_milan_listener_sink_exit_timers;; ret (-1)
      else milan_init_loop l (i :: done)
  end.
(** The listeners of [acmp_init] and [acmp_milan_init]. *)
Definition acmp_milan_init : EM Z :=
  modify (λ c, c <| inflight := [] |>);;
  let! n := gets (λ c, length (sinks c)) in milan_init_loop (seq 0 n) [].
Definition acmp_milan_exit : EM unit :=
  let! n := gets (λ c, length (sinks c)) in
  for_each (seq 0 n) (λ i,
    let! s := get_sink i in
    when (is_settled s) (let! _ := acmp_listener_stack_disconnect i in ret tt);;
    acmp_milan_listener_sink_exit_timers i).

(** The steps of [avdecc_entity_init] and [avdecc_entity_exit] for listeners. *)
Definition avdecc_entity_init : EM bool :=
  let! rc := avdecc_inflight_init in
  if rc <? 0 then ret false else
  let! rc := adp_milan_listener_sink_discovery_init in
  if rc <? 0 then avdecc_inflight_exit;; ret false else
  let! rc := acmp_milan_init in
  if rc <? 0 then adp_milan_listener_sink_discovery_exit;; avdecc_inflight_exit;; ret false
  else ret true.
Definition avdecc_entity_exit : EM unit :=
  acmp_milan_exit;;
  adp_milan_listener_sink_discovery_exit;;
  avdecc_inflight_exit.

(** ** Events *)

Inductive milan_event :=
| EvAcmp (p : nat) (m : acmp_msg)
| EvAdp (p : nat) (msg_type : Z) (pdu : adp_pdu) (valid_time : Z)
| EvListenerStatus (p : nat) (m : listener_status_msg)
| EvSavedBinding (b : media_stack_bind)
| EvStartStreaming (i : nat)
| EvStopStreaming (i : nat)
| EvSinkTimer (i : nat) (k : sink_timer)
| EvInflightTimer (e : nat)
| EvLock (lock : bool) (controller : Z)
| EvGrandmaster (p : nat) (id : Z).

Definition milan_handle (ev : milan_event) : EM unit :=
  match ev with
  | EvAcmp p m => acmp_net_rx p m
  | EvAdp p t pdu valid_time => adp_net_rx p t pdu valid_time
  | EvListenerStatus p m => avdecc_ipc_rx_srp p m
  | EvSavedBinding b => avdecc_ipc_rx_media_stack b
  | EvStartStreaming i => let! _ := acmp_milan_start_streaming i in ret tt
  | EvStopStreaming i => let! _ := acmp_milan_stop_streaming i in ret tt
  | EvSinkTimer i k => sink_timer_expiry i k
  | EvInflightTimer e => inflight_timer_expiry e
  | EvLock b k => modify (λ c, c <| locked := b |> <| locking_controller_id := k |>)
  | EvGrandmaster p id => modify (λ c, c <| interfaces ::= alter (λ a, a <| gptp_grandmaster_id := id |>) p |>)
  end.
Definition milan_run (l : list milan_event) : EM unit := for_each l milan_handle.
End milan_listener.
