(* ===== verification/MilanSpec.v ===== *)
(** * AVDECC: the operations of Milan listener sinks

    Each operation of Milan.v on sink [i] of an entity: what it makes of the
    sink, of the inflight commands and of the frames and messages sent.  A
    world is described by [at_world c o w]: the state is [c], and when the
    platform has memory the frames and messages sent are [o], newest first. *)

From S2P Require Import Prelude MaapAddr Timer Milan MilanSm MilanListener.

(** ** What is sent *)

Inductive output := Sent (p : nat) (m : acmp_msg) | Told (m : media_ipc).
Definition output_of (x : milan_call * Z) : option output :=
  match x.1 with NetTx p m => Some (Sent p m) | IpcTx m => Some (Told m) | _ => None end.
Definition outputs (tr : list (milan_call * Z)) : list output := omap output_of tr.

(** The sink [i] is [s]. *)
Definition put (i : nat) (s : stream_input) (c : entity) : entity := c <| sinks ::= <[i := s]> |>.

Lemma put_lookup i s c : (i < length (sinks c))%nat → sinks (put i s c) !! i = Some s.
Proof. intros. unfold put. cbn. by apply list_lookup_insert_eq. Qed.
Lemma put_lookup_ne i j s c : i ≠ j → sinks (put i s c) !! j = sinks c !! j.
Proof. intros. unfold put. cbn. by apply list_lookup_insert_ne. Qed.
Lemma put_length i s c : length (sinks (put i s c)) = length (sinks c).
Proof. unfold put. cbn. apply length_insert. Qed.
Lemma put_id i s c : sinks c !! i = Some s → put i s c = c.
Proof. intros H. unfold put, over, over_field. destruct c. cbn in *. f_equal. by apply list_insert_id. Qed.
Lemma alter_insert_same {A} (f : A → A) i s (l : list A) : alter f i (<[i := s]> l) = <[i := f s]> l.
Proof.
  apply list_eq. intros j. rewrite list_lookup_alter. case_decide as D; [subst j|by rewrite !list_lookup_insert_ne].
  destruct (decide (i < length l)%nat).
  - by rewrite !list_lookup_insert_eq.
  - rewrite !lookup_ge_None_2; rewrite ?length_insert; [done|lia..].
Qed.
Lemma put_alter i f s c : (put i s c) <| sinks ::= alter f i |> = put i (f s) c.
Proof. unfold put, over, over_field. cbn. f_equal. apply alter_insert_same. Qed.

(** ** Inflight commands *)

Definition TIMEOUT_MS : Z := 200.

(** Every entry of the storage is in use or free, and runs its timer exactly
    when it is in use. *)
Record inflight_ok (c : entity) : Prop := {
  io_nodup : NoDup (inflight c ++ free_inflight c);
  io_all : ∀ e, e ∈ inflight c ++ free_inflight c ↔ (e < length (inflight_storage c))%nat;
  io_timer : ∀ e x, inflight_storage c !! e = Some x → timeout x = SoftTimer true (bool_decide (e ∈ inflight c));
  io_entry : ∀ e x, e ∈ inflight c → inflight_storage c !! e = Some x →
    timeout_ms x = TIMEOUT_MS ∧ i_msg_type x = ACMP_PROBE_TX_COMMAND ∧ (i_port_id x < port_max c)%nat;
}.

Definition del_entry (e : nat) (c : entity) : entity := c <| inflight ::= list_remove e |> <| free_inflight ::= list_remove e |>.
Definition stop_entry (e : nat) (c : entity) : entity :=
  c <| inflight_storage ::= alter (λ x, x <| timeout ::= soft_stop |>) e |>.
Definition cancel_entry (e : nat) (c : entity) : entity := (del_entry e (stop_entry e c)) <| free_inflight ::= cons e |>.
Definition find_inflight (c : entity) (q : Z) : option nat := List.find (has_sequence c q) (inflight c).
Definition cancel_inflight (q : Z) (c : entity) : entity :=
  match find_inflight c q with Some e => cancel_entry e c | None => c end.

(** A command is kept in a free entry, if there is one. *)
Definition use_entry (e p : nat) (d : acmp_pdu) (c : entity) : entity :=
  (del_entry e c)
    <| inflight_storage ::= alter (inflight_save ACMP_PROBE_TX_COMMAND (sequence_id c) (sequence_id c) p d) e |>
    <| inflight ::= cons e |>
    <| inflight_storage ::= alter (λ x, x <| timeout_ms := TIMEOUT_MS |>) e |>
    <| inflight_storage ::= alter (λ x, x <| timeout ::= soft_start (u32 TIMEOUT_MS) |>) e |>.
Definition start_inflight (p : nat) (d : acmp_pdu) (c : entity) : entity :=
  (match free_inflight c with e :: _ => use_entry e p d c | [] => c end) <| sequence_id ::= λ n, u16 (n + 1) |>.

Section lists.
Context {A : Type}.
Lemma find_some_in (f : A → bool) l a : List.find f l = Some a → a ∈ l ∧ f a = true.
Proof. intros H%List.find_some. destruct H. split; [by apply list_elem_of_In|done]. Qed.
End lists.

Lemma NoDup_app_comm_cons (e : nat) l k : NoDup (l ++ e :: k) → NoDup ((e :: l) ++ k).
Proof. intros H. apply (NoDup_Permutation_proper (l ++ e :: k)); [|done]. cbn. by rewrite Permutation_middle. Qed.

Lemma cancel_entry_ok c e : inflight_ok c → e ∈ inflight c → inflight_ok (cancel_entry e c).
Proof.
  intros [I1 I2 I3 I4] He. unfold cancel_entry, del_entry, stop_entry.
  assert (Hf : e ∉ free_inflight c) by (apply list.NoDup_app in I1 as (_&Hd&_); by apply Hd).
  assert (Hr : list_remove e (free_inflight c) = free_inflight c) by by apply list_remove_notin.
  split; cbn; rewrite ?Hr.
  - apply list.NoDup_app in I1 as (N1 & N2 & N3). apply list.NoDup_app. split; [by apply NoDup_list_remove|]. split.
    + intros x [Hx Hxi]%elem_of_list_remove. intros [->|Hxf]%elem_of_cons; [done|]. by eapply N2.
    + by apply list.NoDup_cons.
  - intros x. rewrite length_alter, <- I2, !list.elem_of_app, elem_of_cons, elem_of_list_remove.
    destruct (decide (x = e)) as [->|]; tauto.
  - intros x y. rewrite list_lookup_alter. case_decide as D.
    + subst x. intros (y0 & Hy & ->)%fmap_Some. cbn. rewrite (I3 _ _ Hy). unfold soft_stop. cbn.
      rewrite (bool_decide_false (e ∈ list_remove e (inflight c))); [done|]. rewrite elem_of_list_remove. tauto.
    + intros Hy. rewrite (I3 _ _ Hy). f_equal. apply bool_decide_ext. rewrite elem_of_list_remove. naive_solver.
  - intros x y [Hx Hxi]%elem_of_list_remove. rewrite list_lookup_alter_ne by congruence. by apply I4.
Qed.

Lemma cancel_inflight_ok c q : inflight_ok c → inflight_ok (cancel_inflight q c).
Proof.
  intros H. unfold cancel_inflight. destruct (find_inflight c q) as [e|] eqn:E; [|done].
  apply find_some_in in E as [E _]. by apply cancel_entry_ok.
Qed.

Lemma use_entry_storage e p d c j :
  inflight_storage (use_entry e p d c) !! j =
    if decide (e = j)
    then (λ x, (((inflight_save ACMP_PROBE_TX_COMMAND (sequence_id c) (sequence_id c) p d x) <| timeout_ms := TIMEOUT_MS |>)
            <| timeout ::= soft_start (u32 TIMEOUT_MS) |>)) <$> inflight_storage c !! j
    else inflight_storage c !! j.
Proof.
  unfold use_entry, del_entry. cbn. rewrite !list_lookup_alter. repeat case_decide; subst; try done.
  by destruct (inflight_storage c !! _).
Qed.

Lemma use_entry_ok c e fr p d :
  inflight_ok c → free_inflight c = e :: fr → (p < port_max c)%nat → inflight_ok (use_entry e p d c).
Proof.
  intros [I1 I2 I3 I4] Hfr Hp.
  assert (Hn : e ∉ inflight c ∧ e ∉ fr ∧ NoDup (inflight c) ∧ NoDup fr ∧ ∀ x, x ∈ inflight c → x ∉ fr).
  { rewrite Hfr in I1. apply list.NoDup_app in I1 as (N1 & N2 & [N3 N4]%list.NoDup_cons).
    split; [|split; [done|split; [done|split; [done|]]]].
    - intros H. apply (N2 e H). by left.
    - intros x Hx Hxf. apply (N2 x Hx). by right. }
  destruct Hn as (N1 & N2 & N3 & N4 & N5).
  assert (Hin : inflight (use_entry e p d c) = e :: inflight c).
  { unfold use_entry, del_entry. cbn. by rewrite list_remove_notin. }
  assert (Hfree : free_inflight (use_entry e p d c) = fr).
  { unfold use_entry, del_entry. cbn. rewrite Hfr. apply (list_remove_mid e []); [set_solver|done]. }
  assert (Hlen : length (inflight_storage (use_entry e p d c)) = length (inflight_storage c)).
  { unfold use_entry, del_entry. cbn. by rewrite !length_alter. }
  split; rewrite ?Hin, ?Hfree, ?Hlen.
  - apply list.NoDup_app. split; [by apply list.NoDup_cons|]. split; [|done].
    intros x [->|Hx]%elem_of_cons; [done|by apply N5].
  - intros x. rewrite <- I2, Hfr. rewrite !list.elem_of_app, !elem_of_cons. tauto.
  - intros x y. rewrite use_entry_storage. case_decide as D.
    + subst x. intros (y0 & Hy & ->)%fmap_Some. cbn. rewrite (I3 _ _ Hy). unfold soft_start. cbn.
      by rewrite (bool_decide_true (e ∈ e :: inflight c)) by (by left).
    + intros Hy. rewrite (I3 _ _ Hy). f_equal. apply bool_decide_ext. rewrite elem_of_cons. naive_solver.
  - intros x y Hx. rewrite use_entry_storage. change (port_max (use_entry e p d c)) with (port_max c). case_decide as D.
    + intros (y0 & Hy & ->)%fmap_Some. cbn. done.
    + intros Hy. apply elem_of_cons in Hx as [->|Hx]; [done|]. by apply (I4 x y).
Qed.

Lemma start_inflight_ok c p d : inflight_ok c → (p < port_max c)%nat → inflight_ok (start_inflight p d c).
Proof.
  intros H Hp. unfold start_inflight. destruct (free_inflight c) as [|e fr] eqn:Hfr.
  - by destruct H.
  - destruct (use_entry_ok c e fr p d H Hfr Hp). by split.
Qed.

(** The configuration and the sinks are not concerned. *)
Lemma start_inflight_sinks p d c : sinks (start_inflight p d c) = sinks c.
Proof. unfold start_inflight. by destruct (free_inflight c). Qed.
Lemma start_inflight_id p d c : entity_id (start_inflight p d c) = entity_id c.
Proof. unfold start_inflight. by destruct (free_inflight c). Qed.
Lemma start_inflight_index p d c : entity_index (start_inflight p d c) = entity_index c.
Proof. unfold start_inflight. by destruct (free_inflight c). Qed.

Lemma start_inflight_ports p d c : port_max (start_inflight p d c) = port_max c.
Proof. unfold start_inflight. by destruct (free_inflight c). Qed.
Lemma start_inflight_srp p d c : srp_enabled (start_inflight p d c) = srp_enabled c.
Proof. unfold start_inflight. by destruct (free_inflight c). Qed.
Lemma cancel_inflight_srp q c : srp_enabled (cancel_inflight q c) = srp_enabled c.
Proof. unfold cancel_inflight. by destruct (find_inflight c q). Qed.
Lemma cancel_inflight_sinks q c : sinks (cancel_inflight q c) = sinks c.
Proof. unfold cancel_inflight. by destruct (find_inflight c q). Qed.
Lemma cancel_inflight_ports q c : port_max (cancel_inflight q c) = port_max c.
Proof. unfold cancel_inflight. by destruct (find_inflight c q). Qed.

(** ** Pure effects on a sink *)

Definition notify_timer (t : soft_timer) : soft_timer := if st_created t && negb (st_running t) then soft_start 1 t else t.
Definition notify (s : stream_input) : stream_input := s <| async_unsolicited_notification_timer ::= notify_timer |>.
Definition maybe_notify (b : bool) (s : stream_input) : stream_input :=
  s <| async_unsolicited_notification_timer ::= (λ t : soft_timer, if b then notify_timer t else t) |>.
Definition reset_timer (st : adp_milan_listener_sink_talker_state_t) (t : soft_timer) : soft_timer :=
  match st with ADP_LISTENER_SINK_TALKER_STATE_NOT_DISCOVERED => t | ADP_LISTENER_SINK_TALKER_STATE_DISCOVERED => soft_stop t end.
Definition reset_sink (s : stream_input) : stream_input :=
  s <| adp_discovery_timer ::= reset_timer (talker_state s) |> <| talker_state := ADP_LISTENER_SINK_TALKER_STATE_NOT_DISCOVERED |>.
Definition set_params (o : option acmp_pdu) (s : stream_input) : stream_input :=
  match o with
  | None => s <| stream_vlan_id := 0 |> <| stream_id := 0 |> <| stream_dest_mac := replicate 6 0 |>
  | Some pdu => s <| stream_vlan_id := p_stream_vlan_id pdu |> <| stream_id := p_stream_id pdu |>
      <| stream_dest_mac := p_stream_dest_mac pdu |>
  end.
Definition clear_srp (s : stream_input) : stream_input :=
  (notify (set_params None s)) <| srp_state := ACMP_LISTENER_SINK_SRP_STATE_NOT_REGISTERING |> <| srp_stream_status := NO_TALKER |>.
Definition unbind_sink (s : stream_input) : stream_input :=
  notify ((acmp_milan_set_stream_input_binding_params None s) <| probing_status := ACMP_PROBING_STATUS_DISABLED |>
            <| acmp_status := 0 |>).

(** The port of a sink, its probe command, and what its stream says to the
    media stack and to SRP. *)
Definition sink_port (s : stream_input) : nat := Z.to_nat (ntohs (avb_interface_index s)).
Definition probe_pdu (c : entity) (i : nat) (s : stream_input) : acmp_pdu :=
  (probe_tx_command c i s zero_pdu) <| p_sequence_id := htons (sequence_id c) |>.
Definition probe_out (c : entity) (i : nat) (s : stream_input) : output :=
  Sent (sink_port s) (AcmpMsg ACMP_PROBE_TX_COMMAND ACMP_STAT_SUCCESS (probe_pdu c i s)).
Definition connect_out (c : entity) (i : nat) (s : stream_input) (fl : Z) : list output :=
  (if srp_enabled c then [Told (LISTENER_REGISTER (sink_port s) (stream_id s))] else []) ++
  [Told (MEDIA_STACK_CONNECT i (sink_port s) (stream_dest_mac s) (stream_id s) (stream_class_b fl) fl)].
Definition disconnect_out (c : entity) (i : nat) (s : stream_input) : list output :=
  Told (MEDIA_STACK_DISCONNECT i (sink_port s) (stream_id s) (stream_class_b (ntohs (flags s)))) ::
  (if srp_enabled c then [Told (LISTENER_DEREGISTER (sink_port s) (stream_id s))] else []).

Lemma soft_start_run ms t : ms ≠ 0 → soft_start ms t = soft_start 1 t.
Proof. intros H. unfold soft_start. apply Z.eqb_neq in H. by rewrite H. Qed.
Lemma maybe_notify_eq (b : bool) (s : stream_input) : (if b then notify s else s) = maybe_notify b s.
Proof. destruct b; [done|]. unfold maybe_notify, over, over_field. by destruct s. Qed.
Lemma notify_timer_created t : st_created (notify_timer t) = st_created t.
Proof. unfold notify_timer, soft_start. by repeat case_match. Qed.
Lemma reset_sink_not s : talker_state s = ADP_LISTENER_SINK_TALKER_STATE_NOT_DISCOVERED → reset_sink s = s.
Proof. intros H. unfold reset_sink. rewrite H. unfold over, over_field. destruct s. cbn in *. by subst. Qed.

Section ops.
Context `{!Platform milan_call}.
Abbreviation EM := (M milan_call entity).
Implicit Types (w : world milan_call entity) (c : entity) (s : stream_input) (o : list output).

(** [os_random] returns a value between 0 and OS_RAND_MAX. *)
Definition random_positive : Prop := ∀ n, 0 ≤ answer n OsRandom.

(** The platform has memory. *)
Definition healthy : Prop :=
  (∀ n p, answer n (NetTxAlloc p) ≠ 0) ∧ (∀ n p m, answer n (NetTxClone p m) ≠ 0) ∧ (∀ n m, answer n (IpcAlloc m) ≠ 0).

Definition at_world c o w : Prop := w_st w = c ∧ (healthy → outputs (w_trace w) = o).

Lemma at_modify c o f Q w :
  at_world c o w → (∀ w', at_world (f c) o w' → Q tt w') → wp (modify f) Q w.
Proof. intros [<- H] HQ. apply wp_modify, HQ. by split. Qed.
Lemma at_gets {A} (f : entity → A) c o Q w : at_world c o w → Q (f c) w → wp (gets f) Q w.
Proof. intros [<- _]. done. Qed.
Lemma at_quiet call c o Q w :
  (∀ r, output_of (call, r) = None) → at_world c o w →
  (∀ n w', at_world c o w' → Q (answer n call) w') → wp (perform call) Q w.
Proof.
  intros Hq [Hc Ho] HQ. apply wp_perform, HQ. split; [done|]. intros Hh. cbn. unfold outputs in *. cbn. rewrite Hq. by apply Ho.
Qed.
Lemma at_output call x c o Q w :
  (∀ r, output_of (call, r) = Some x) → at_world c o w →
  (∀ r w', at_world c (x :: o) w' → Q r w') → wp (perform call) Q w.
Proof.
  intros Hq [Hc Ho] HQ. apply wp_perform, HQ. split; [done|]. intros Hh. cbn. unfold outputs in *. cbn. rewrite Hq. f_equal. by apply Ho.
Qed.
(** What is not known without memory. *)
Lemma at_unhealthy c o o' w : ¬ healthy → at_world c o w → at_world c o' w.
Proof. intros Hn [Hc _]. by split. Qed.

Lemma get_sink_spec i s c o Q w :
  at_world (put i s c) o w → (i < length (sinks c))%nat → Q s w → wp (get_sink i) Q w.
Proof.
  intros Hw Hi HQ. unfold get_sink. apply wp_bind. eapply at_gets; [done|]. apply wp_deref. exists s.
  split; [by apply put_lookup|done].
Qed.
Lemma set_sink_spec i f s c o Q w :
  at_world (put i s c) o w → (∀ w', at_world (put i (f s) c) o w' → Q tt w') → wp (set_sink i f) Q w.
Proof. intros Hw HQ. eapply at_modify; [done|]. intros w'. rewrite put_alter. apply HQ. Qed.
Lemma sink_timer_start_spec i k ms s c o Q w :
  at_world (put i s c) o w → u32 ms ≠ 0 →
  (∀ w', at_world (put i (on_timer k (soft_start 1) s) c) o w' → Q tt w') → wp (timer_start i k ms) Q w.
Proof.
  intros Hw Hms HQ. unfold timer_start. apply wp_bind. eapply at_quiet; [done..|]. intros _ w1 Hw1.
  eapply set_sink_spec; [done|]. intros w2 Hw2. apply HQ.
  replace (on_timer k (soft_start 1) s) with (on_timer k (soft_start (u32 ms)) s); [done|].
  by destruct k; cbn; unfold over, over_field; rewrite soft_start_run.
Qed.
Lemma sink_timer_stop_spec i k s c o Q w :
  at_world (put i s c) o w → (∀ w', at_world (put i (on_timer k soft_stop s) c) o w' → Q tt w') → wp (timer_stop i k) Q w.
Proof. apply set_sink_spec. Qed.
Lemma delay_timer_start_spec i s c o Q w :
  random_positive → at_world (put i s c) o w →
  (∀ w', at_world (put i (on_timer TMR_DELAY (soft_start 1) s) c) o w' → Q tt w') → wp (delay_timer_start i) Q w.
Proof.
  intros Hr Hw HQ. unfold delay_timer_start. apply wp_bind. eapply at_quiet; [done..|]. intros r w1 Hw1.
  eapply sink_timer_start_spec; [done| |done].
  pose proof (random_range_bounds (answer r OsRandom) 200 1000 (Hr r)). rewrite u32_small; lia.
Qed.
Lemma register_notification_spec i s c o Q w :
  at_world (put i s c) o w → (i < length (sinks c))%nat →
  (∀ w', at_world (put i (notify s) c) o w' → Q tt w') →
  wp (acmp_milan_listener_register_async_get_stream_info_notification i) Q w.
Proof.
  intros Hw Hi HQ. unfold acmp_milan_listener_register_async_get_stream_info_notification.
  apply wp_bind. eapply get_sink_spec; [done..|]. apply wp_when. unfold notify, notify_timer in HQ.
  destruct (_ && _) eqn:E.
  - eapply sink_timer_start_spec; [done..|]. intros w' Hw'. apply HQ. revert Hw'. cbn. unfold over, over_field. by rewrite E.
  - apply HQ. revert Hw. unfold over, over_field. rewrite E. by destruct s.
Qed.

Lemma reset_spec i s c o Q w :
  at_world (put i s c) o w → (i < length (sinks c))%nat →
  (∀ w', at_world (put i (reset_sink s) c) o w' → Q tt w') → wp (adp_milan_listener_sink_reset i) Q w.
Proof.
  intros Hw Hi HQ. unfold adp_milan_listener_sink_reset. apply wp_bind. eapply get_sink_spec; [done..|].
  destruct (talker_state s) eqn:E.
  - apply HQ. by rewrite reset_sink_not.
  - apply wp_bind. eapply sink_timer_stop_spec; [done|]. intros w1 Hw1. eapply set_sink_spec; [done|]. intros w2 Hw2.
    apply HQ. revert Hw2. cbn. unfold reset_sink. by rewrite E.
Qed.
Lemma set_probing_spec i st a s c o Q w :
  at_world (put i s c) o w →
  (∀ w', at_world (put i (s <| probing_status := st |> <| acmp_status := a |>) c) o w' → Q tt w') → wp (set_probing i st a) Q w.
Proof. intros Hw HQ. unfold set_probing. by eapply set_sink_spec. Qed.

Lemma set_srp_params_spec i pdu s c o Q w :
  at_world (put i s c) o w → (i < length (sinks c))%nat →
  (∀ w', at_world (put i (notify (set_params pdu s)) c) o w' → Q tt w') →
  wp (acmp_milan_set_stream_input_srp_params i pdu) Q w.
Proof.
  intros Hw Hi HQ. unfold acmp_milan_set_stream_input_srp_params. apply wp_bind. eapply set_sink_spec; [done|].
  intros w1 Hw1. eapply register_notification_spec; [done..|]. apply HQ.
Qed.
Lemma srp_state_clear_spec i s c o Q w :
  at_world (put i s c) o w → (i < length (sinks c))%nat →
  (∀ w', at_world (put i (clear_srp s) c) o w' → Q tt w') → wp (acmp_milan_listener_sink_srp_state_clear i) Q w.
Proof.
  intros Hw Hi HQ. unfold acmp_milan_listener_sink_srp_state_clear. apply wp_bind. eapply set_srp_params_spec; [done..|].
  intros w1 Hw1. eapply set_sink_spec; [done|]. apply HQ.
Qed.

(** ** IPC *)

Lemma ipc_send_spec m c o Q w :
  at_world c o w → (∀ w', at_world c (Told m :: o) w' → Q tt w') → wp (ipc_send m) Q w.
Proof.
  intros Hw HQ. unfold ipc_send. apply wp_bind. eapply at_quiet; [done..|]. intros n w1 Hw1.
  destruct (_ =? 0) eqn:E.
  - apply HQ. apply at_unhealthy with (o := o); [|done]. intros (_ & _ & H). apply (H n m). by apply Z.eqb_eq.
  - apply wp_bind. eapply at_output; [done..|]. intros r w2 Hw2. apply wp_when. destruct (_ <? 0); [|by apply HQ].
    apply wp_bind. eapply at_quiet; [done..|]. intros _ w3 Hw3. by apply wp_ret, HQ.
Qed.

Lemma get_port_spec p c o Q w : at_world c o w → (p < port_max c)%nat → Q p w → wp (get_port p) Q w.
Proof.
  intros Hw Hp HQ. unfold get_port. apply wp_bind. eapply at_gets; [done|].
  destruct (_ <? _)%nat eqn:E; [done|]. apply Nat.ltb_ge in E. lia.
Qed.

Lemma stack_connect_spec i fl s c o Q w :
  at_world (put i s c) o w → (i < length (sinks c))%nat → (sink_port s < port_max c)%nat →
  (∀ w', at_world (put i s c) (connect_out c i s fl ++ o) w' → Q ACMP_STAT_SUCCESS w') →
  wp (acmp_listener_stack_connect i fl) Q w.
Proof.
  intros Hw Hi Hp HQ. unfold acmp_listener_stack_connect. apply wp_bind. eapply at_gets; [done|]. rewrite put_lookup by done.
  apply wp_bind. eapply get_port_spec; [done..|]. apply wp_bind. eapply ipc_send_spec; [done|]. intros w1 Hw1.
  apply wp_bind. eapply at_gets; [done|]. change (srp_enabled (put i s c)) with (srp_enabled c).
  apply wp_bind, wp_when. unfold connect_out in HQ. destruct (srp_enabled c); [|by apply wp_ret, HQ].
  eapply ipc_send_spec; [done|]. intros w2 Hw2. by apply wp_ret, HQ.
Qed.
Lemma stack_disconnect_spec i s c o Q w :
  at_world (put i s c) o w → (i < length (sinks c))%nat → (sink_port s < port_max c)%nat →
  (∀ w', at_world (put i s c) (disconnect_out c i s ++ o) w' → Q ACMP_STAT_SUCCESS w') →
  wp (acmp_listener_stack_disconnect i) Q w.
Proof.
  intros Hw Hi Hp HQ. unfold acmp_listener_stack_disconnect. apply wp_bind. eapply at_gets; [done|]. rewrite put_lookup by done.
  apply wp_bind. eapply get_port_spec; [done..|]. apply wp_bind. eapply at_gets; [done|].
  change (srp_enabled (put i s c)) with (srp_enabled c). apply wp_bind, wp_when.
  unfold disconnect_out in HQ. destruct (srp_enabled c).
  - eapply ipc_send_spec; [done|]. intros w1 Hw1. apply wp_bind. eapply ipc_send_spec; [done|]. intros w2 Hw2. by apply wp_ret, HQ.
  - apply wp_bind. eapply ipc_send_spec; [done|]. intros w2 Hw2. by apply wp_ret, HQ.
Qed.
Lemma unbind_status_spec i c o Q w :
  at_world c o w → (i < length (sinks c))%nat →
  (∀ w', at_world c (Told (MEDIA_STACK_UNBIND (ntohll (entity_id c)) (entity_index c) i) :: o) w' → Q ACMP_STAT_SUCCESS w') →
  wp (acmp_listener_ipc_send_unbind_status i) Q w.
Proof.
  intros Hw Hi HQ. unfold acmp_listener_ipc_send_unbind_status. apply wp_bind. eapply at_gets; [done|].
  unfold acmp_listener_unique_valid. rewrite (proj2 (Nat.ltb_lt _ _) Hi). cbn [negb].
  apply wp_bind. eapply ipc_send_spec; [done|]. intros w1 Hw1. by apply wp_ret, HQ.
Qed.
Definition bind_status (c : entity) (i : nat) (s : stream_input) : media_stack_bind :=
  MediaStackBind (ntohll (entity_id c)) (entity_index c) i (ntohll (talker_entity_id s)) (ntohs (talker_unique_id s))
    (ntohll (controller_entity_id s))
    (if Z.land (flags s) (htons ACMP_FLAG_STREAMING_WAIT) =? 0 then ACMP_LISTENER_STREAM_STARTED else ACMP_LISTENER_STREAM_STOPPED).
Lemma bind_status_spec i s c o Q w :
  at_world (put i s c) o w → (i < length (sinks c))%nat →
  (∀ w', at_world (put i s c) (Told (MEDIA_STACK_BIND (bind_status c i s)) :: o) w' → Q 0 w') →
  wp (acmp_listener_ipc_send_bind_status i) Q w.
Proof.
  intros Hw Hi HQ. unfold acmp_listener_ipc_send_bind_status. apply wp_bind. eapply at_gets; [done|]. rewrite put_lookup by done.
  apply wp_bind. eapply ipc_send_spec; [done|]. intros w1 Hw1. by apply wp_ret, HQ.
Qed.

(** ** Frames *)

Lemma net_rx_other_spec p m c o Q w :
  at_world c o w → (∀ w', at_world c o w' → Q tt w') → wp (acmp_net_rx_other p m) Q w.
Proof.
  intros Hw HQ. unfold acmp_net_rx_other. apply wp_bind. eapply at_gets; [done|].
  repeat case_match; try (by apply HQ).
  all: apply wp_when; case_match; [|by apply HQ]; apply wp_bind; eapply at_quiet; [done..|]; intros _ w1 Hw1; by apply wp_ret, HQ.
Qed.
Lemma milan_net_tx_spec p m c o Q w :
  at_world c o w → (∀ w', at_world c (Sent p m :: o) w' → Q 0 w') → wp (avdecc_net_tx p m) Q w.
Proof.
  intros Hw HQ. unfold avdecc_net_tx. apply wp_bind. eapply at_quiet; [done..|]. intros n w1 Hw1.
  assert (Hend : ∀ w, at_world c (Sent p m :: o) w → wp (acmp_net_rx_other p m;; ret 0) Q w).
  { intros w2 Hw2. apply wp_bind. eapply net_rx_other_spec; [done|]. intros w3 Hw3. by apply wp_ret, HQ. }
  apply wp_bind. destruct (_ =? 0) eqn:E.
  - apply wp_ret, Hend. apply at_unhealthy with (o := o); [|done]. intros (_ & H & _). apply (H n p m). by apply Z.eqb_eq.
  - apply wp_bind. eapply at_output; [done..|]. intros r w2 Hw2. apply wp_when. destruct (_ <? 0); [|by apply Hend].
    apply wp_bind. eapply at_quiet; [done..|]. intros _ w3 Hw3. by apply wp_ret, Hend.
Qed.
Lemma send_packet_spec p d t st c o Q w :
  at_world c o w → (∀ w', at_world c (Sent p (AcmpMsg t st d) :: o) w' → Q 0 w') → wp (acmp_send_packet p d t st) Q w.
Proof.
  intros Hw HQ. unfold acmp_send_packet. apply wp_bind. eapply milan_net_tx_spec; [done|]. intros w1 Hw1. by apply wp_ret, HQ.
Qed.
Lemma net_tx_alloc_spec p c o Q w :
  at_world c o w → (¬ healthy → ∀ w', at_world c o w' → Q None w') → (∀ w', at_world c o w' → Q (Some zero_pdu) w') →
  wp (acmp_net_tx_alloc p) Q w.
Proof.
  intros Hw HN HS. unfold acmp_net_tx_alloc. apply wp_bind. eapply at_quiet; [done..|]. intros n w1 Hw1. apply wp_ret.
  destruct (_ =? 0) eqn:E; [|by apply HS]. apply HN; [|done]. intros (H & _). apply (H n p). by apply Z.eqb_eq.
Qed.

(** ** Inflight commands *)

Lemma inflight_del_spec e c o Q w :
  at_world c o w → e ∈ inflight c ++ free_inflight c → (∀ w', at_world (del_entry e c) o w' → Q tt w') →
  wp (inflight_del e) Q w.
Proof.
  intros Hw He HQ. unfold inflight_del. apply wp_bind. eapply at_gets; [done|]. unfold inflight_linked.
  apply list.elem_of_app in He. destruct (_ || _) eqn:E.
  - eapply at_modify; [done|]. apply HQ.
  - apply orb_false_iff in E as [E1%bool_decide_eq_false E2%bool_decide_eq_false]. by destruct He.
Qed.
Lemma stop_entry_spec e c o Q w :
  at_world c o w → (∀ w', at_world (stop_entry e c) o w' → Q tt w') → wp (inflight_timer_stop e) Q w.
Proof. intros Hw HQ. by eapply at_modify. Qed.
Lemma cancel_spec q i s c o Q w :
  at_world (put i s c) o w → inflight_ok c →
  (∀ w', at_world (put i s (cancel_inflight q c)) o w' → Q (match find_inflight c q with Some _ => 0 | None => -1 end) w') →
  wp (avdecc_inflight_cancel q) Q w.
Proof.
  intros Hw Hc HQ. unfold avdecc_inflight_cancel, avdecc_inflight_find. apply wp_bind, wp_bind. eapply at_gets; [done|].
  apply wp_ret. change (List.find (has_sequence (put i s c) q) (inflight (put i s c))) with (find_inflight c q).
  unfold cancel_inflight in HQ. destruct (find_inflight c q) as [e|] eqn:E; [|by apply wp_ret, HQ].
  apply find_some_in in E as [He _]. unfold avdecc_inflight_remove. apply wp_bind, wp_bind.
  eapply stop_entry_spec; [done|]. intros w1 Hw1. apply wp_bind. eapply inflight_del_spec; [done|by apply list.elem_of_app; left|].
  intros w2 Hw2. eapply at_modify; [done|]. intros w3 Hw3. by apply wp_ret, HQ.
Qed.

Lemma entry_timer_start_spec e ms c o Q w :
  at_world c o w →
  (∀ w', at_world (c <| inflight_storage ::= alter (λ x, x <| timeout ::= soft_start (u32 ms) |>) e |>) o w' → Q tt w') →
  wp (inflight_timer_start e ms) Q w.
Proof.
  intros Hw HQ. unfold inflight_timer_start. apply wp_bind. eapply at_quiet; [done..|]. intros _ w1 Hw1. by eapply at_modify.
Qed.

(** The probe command of a sink: it is started, and sent on the port of the
    sink; or nothing happens. *)
Lemma send_probe_spec i s c o Q w :
  at_world (put i s c) o w → (i < length (sinks c))%nat → (sink_port s < port_max c)%nat →
  (¬ healthy → ∀ w', at_world (put i s c) o w' → Q (-1) w') →
  (∀ w', at_world (put i (s <| probe_tx_seq_id := sequence_id c |>) (start_inflight (sink_port s) (probe_pdu c i s) c))
     (probe_out c i s :: o) w' → Q 0 w') →
  wp (acmp_milan_send_probe_tx_command i) Q w.
Proof.
  intros Hw Hi Hp HN HS. unfold acmp_milan_send_probe_tx_command.
  apply wp_bind. eapply get_sink_spec; [done..|]. apply wp_bind. eapply get_port_spec; [done..|]. apply wp_bind.
  eapply net_tx_alloc_spec; [done| |].
  { intros Hh w1 Hw1. apply wp_ret. by apply HN. }
  intros w1 Hw1. apply wp_bind. eapply at_gets; [done|]. apply wp_bind. eapply set_sink_spec; [done|]. intros w2 Hw2.
  unfold acmp_send_cmd. apply wp_bind. unfold avdecc_inflight_get. apply wp_bind. eapply at_gets; [done|].
  change (free_inflight (put i _ c)) with (free_inflight c). unfold start_inflight in HS.
  assert (Hend : ∀ c' w3, at_world c' o w3 →
    (∀ w', at_world (c' <| sequence_id ::= λ n, u16 (n + 1) |>) (probe_out c i s :: o) w' → Q 0 w') →
    wp (modify (λ c : entity, c <| sequence_id ::= λ n, u16 (n + 1) |>);;
        acmp_send_packet (sink_port s) (probe_pdu c i s) ACMP_PROBE_TX_COMMAND ACMP_STAT_SUCCESS) Q w3).
  { intros c' w3 Hw3 HQ. apply wp_bind. eapply at_modify; [done|]. intros w4 Hw4. by eapply send_packet_spec. }
  destruct (free_inflight c) as [|e fr] eqn:Hfr.
  - apply wp_ret, wp_bind. eapply at_gets; [done|]. apply wp_bind, wp_ret. by eapply Hend.
  - apply wp_bind. eapply inflight_del_spec; [done| |].
    { cbn. rewrite Hfr. apply list.elem_of_app. right. by left. }
    intros w3 Hw3. apply wp_ret, wp_bind. eapply at_gets; [done|].
    apply wp_bind. change (acmp_milan_get_command_timeout_ms ACMP_PROBE_TX_COMMAND <? 0) with false. cbn match.
    apply wp_bind. eapply at_modify; [done|]. intros w4 Hw4. unfold avdecc_inflight_start. apply wp_bind, wp_bind.
    eapply at_modify; [done|]. intros w5 Hw5. apply wp_bind. eapply at_modify; [done|]. intros w6 Hw6.
    apply wp_bind. eapply entry_timer_start_spec; [done|]. intros w7 Hw7. apply wp_ret, wp_ret.
    by eapply Hend.
Qed.

(** ** Commands *)

Definition bind_changes (pdu : acmp_pdu) (s : stream_input) : bool :=
  negb (flags s =? Z.land (p_flags pdu) (htons ACMP_FLAG_STREAMING_WAIT)) ||
  negb (controller_entity_id s =? p_controller_entity_id pdu).
(** The sink after a bind command that is accepted: [restart] says whether the
    binding is another one, [sent] whether its probe could be sent. *)
Definition bind_sink (restart sent : bool) (c : entity) (pdu : acmp_pdu) (s : stream_input) : stream_input :=
  let s1 := acmp_milan_set_stream_input_binding_params (Some pdu) s in
  let s2 := if restart then
              (if sent then s1 <| probe_tx_seq_id := sequence_id c |> else s1)
                <| probing_status := ACMP_PROBING_STATUS_ACTIVE |> <| acmp_status := 0 |>
            else s1 in
  maybe_notify (bind_changes pdu s) s2.
Definition bind_out (restart sent : bool) (c : entity) (i p : nat) (pdu d : acmp_pdu) (s : stream_input) : list output :=
  let s1 := acmp_milan_set_stream_input_binding_params (Some pdu) s in
  (if restart || bind_changes pdu s then [Told (MEDIA_STACK_BIND (bind_status c i s1))] else []) ++
  (if restart && sent then [probe_out c i s1] else []) ++
  [Sent p (AcmpMsg ACMP_BIND_RX_RESPONSE ACMP_STAT_SUCCESS (bind_rx_response (p_flags pdu) ACMP_STAT_SUCCESS d))].
Definition bind_entity (restart sent : bool) (c : entity) (i : nat) (pdu : acmp_pdu) (s : stream_input) : entity :=
  let s1 := acmp_milan_set_stream_input_binding_params (Some pdu) s in
  if restart && sent then start_inflight (sink_port s1) (probe_pdu c i s1) c else c.
Definition bind_refused (c : entity) (i : nat) (pdu : acmp_pdu) : bool :=
  is_listener_already_bound_to_talker_unique_id c i (p_talker_entity_id pdu) (p_talker_unique_id pdu).

Lemma bind_spec i p pdu d s c o Q w :
  at_world (put i s c) o w → (i < length (sinks c))%nat → (sink_port s < port_max c)%nat →
  let restart := acmp_milan_need_binding_restart s pdu in
  (bind_refused (put i s c) i pdu = true → ∀ w', at_world (put i s c)
     (Sent p (AcmpMsg ACMP_BIND_RX_RESPONSE ACMP_STAT_TALKER_EXCLUSIVE d) :: o) w' → Q (-1, false) w') →
  (bind_refused (put i s c) i pdu = false → ∀ sent w', (¬ healthy ∧ restart = true ∨ sent = true) →
     at_world (put i (bind_sink restart sent c pdu s) (bind_entity restart sent c i pdu s))
       (bind_out restart sent c i p pdu d s ++ o) w' →
     Q (if sent then 0 else -1, restart) w') →
  wp (acmp_milan_listener_bind i p pdu d) Q w.
Proof.
  intros Hw Hi Hp restart HR HA. unfold acmp_milan_listener_bind. apply wp_bind. eapply get_sink_spec; [done..|].
  apply wp_bind. eapply at_gets; [done|]. fold (bind_refused (put i s c) i pdu). destruct (bind_refused _ _ _).
  { apply wp_bind. eapply send_packet_spec; [done|]. intros w1 Hw1. by apply wp_ret, HR. }
  specialize (HA eq_refl). clear HR. fold restart.
  change (negb (flags s =? _)) with (negb (flags s =? Z.land (p_flags pdu) (htons ACMP_FLAG_STREAMING_WAIT))).
  apply wp_bind. eapply set_sink_spec; [done|]. intros w1 Hw1. apply wp_bind. eapply send_packet_spec; [done|]. intros w2 Hw2.
  unfold bind_sink, bind_out, bind_entity in HA.
  set (s1 := acmp_milan_set_stream_input_binding_params (Some pdu) s) in *.
  set (rsp := Sent p _) in Hw2.
  assert (Hend : ∀ s2 c2 o2 w3 rc, at_world (put i s2 c2) o2 w3 → (i < length (sinks c2))%nat →
    talker_entity_id s2 = talker_entity_id s1 → talker_unique_id s2 = talker_unique_id s1 →
    controller_entity_id s2 = controller_entity_id s1 → flags s2 = flags s1 →
    entity_id c2 = entity_id c → entity_index c2 = entity_index c →
    (∀ w', at_world (put i (maybe_notify (bind_changes pdu s) s2) c2)
       ((if restart || bind_changes pdu s then [Told (MEDIA_STACK_BIND (bind_status c i s1))] else []) ++ o2) w' →
     Q (rc, restart) w') →
    wp (when (restart || negb (flags s =? Z.land (p_flags pdu) (htons ACMP_FLAG_STREAMING_WAIT)) ||
              negb (controller_entity_id s =? p_controller_entity_id pdu))
          (let! _ := acmp_listener_ipc_send_bind_status i in ret tt);;
        when (bind_changes pdu s) (acmp_milan_listener_register_async_get_stream_info_notification i);;
        ret (rc, restart)) Q w3).
  { intros s2 c2 o2 w3 rc Hw3 Hi2 E1 E2 E3 E4 E5 E6 HQ. apply wp_bind, wp_when.
    rewrite <- orb_assoc. fold (bind_changes pdu s).
    assert (Hst : bind_status c2 i s2 = bind_status c i s1) by (unfold bind_status; by rewrite E1, E2, E3, E4, E5, E6).
    assert (Hlast : ∀ o3 w4, at_world (put i s2 c2) o3 w4 →
      (∀ w', at_world (put i (maybe_notify (bind_changes pdu s) s2) c2) o3 w' → Q (rc, restart) w') →
      wp (when (bind_changes pdu s) (acmp_milan_listener_register_async_get_stream_info_notification i);; ret (rc, restart)) Q w4).
    { intros o3 w4 Hw4 HQ4. apply wp_bind, wp_when. rewrite <- maybe_notify_eq in HQ4. destruct (bind_changes pdu s).
      - eapply register_notification_spec; [done..|]. intros w5 Hw5. by apply wp_ret, HQ4.
      - by apply wp_ret, HQ4. }
    destruct (restart || bind_changes pdu s) eqn:E.
    - apply wp_bind. eapply bind_status_spec; [done..|]. rewrite Hst. intros w4 Hw4. apply wp_ret. by eapply Hlast.
    - by eapply Hlast. }
  destruct restart eqn:Er.
  - apply wp_bind, wp_bind. eapply send_probe_spec; [done|done|done| |].
    + intros Hn w3 Hw3. apply wp_bind. eapply set_sink_spec; [done|]. intros w4 Hw4. apply wp_ret.
      eapply Hend; [exact Hw4|done..|]. intros w5 Hw5. apply (HA false); [by left|]. exact Hw5.
    + intros w3 Hw3. apply wp_bind. eapply set_sink_spec; [done|]. intros w4 Hw4. apply wp_ret.
      eapply Hend; [exact Hw4|by rewrite start_inflight_sinks|done..|by rewrite start_inflight_id|by rewrite start_inflight_index|].
      intros w5 Hw5. apply (HA true); [by right|]. exact Hw5.
  - apply wp_bind, wp_ret. eapply Hend; [done..|]. intros w5 Hw5. apply (HA true); [by right|]. rewrite <- app_assoc. exact Hw5.
Qed.

Definition unbind_rsp (s : stream_input) (d : acmp_pdu) : acmp_pdu :=
  (acmp_listener_copy_common_params (acmp_milan_set_stream_input_binding_params None s) d) <| p_connection_count := htons 0 |>.
Definition unbind_out (c : entity) (i p : nat) (s : stream_input) (d : acmp_pdu) : list output :=
  [Told (MEDIA_STACK_UNBIND (ntohll (entity_id c)) (entity_index c) i);
   Sent p (AcmpMsg ACMP_UNBIND_RX_RESPONSE ACMP_STAT_SUCCESS (unbind_rsp s d))].
Lemma unbind_spec i p d s c o Q w :
  at_world (put i s c) o w → (i < length (sinks c))%nat →
  (∀ w', at_world (put i (unbind_sink s) c) (unbind_out c i p s d ++ o) w' → Q 0 w') →
  wp (acmp_milan_listener_unbind i p d) Q w.
Proof.
  intros Hw Hi HQ. unfold acmp_milan_listener_unbind. apply wp_bind. eapply get_sink_spec; [done..|].
  apply wp_bind. eapply set_sink_spec; [done|]. intros w1 Hw1. apply wp_bind. unfold acmp_milan_send_unbind_rx_response.
  apply wp_bind. eapply get_sink_spec; [done..|]. eapply send_packet_spec; [done|]. intros w2 Hw2.
  apply wp_bind. eapply unbind_status_spec; [done|by rewrite put_length|]. intros w3 Hw3.
  apply wp_bind. eapply register_notification_spec; [done..|]. intros w4 Hw4. by apply wp_ret, HQ.
Qed.
Definition rx_state_out (p : nat) (s : stream_input) (d : acmp_pdu) : list output :=
  [Sent p (AcmpMsg ACMP_GET_RX_STATE_RESPONSE ACMP_STAT_SUCCESS (rx_state_response s d))].
Lemma get_rx_state_spec i p d s c o Q w :
  at_world (put i s c) o w → (i < length (sinks c))%nat →
  (∀ w', at_world (put i s c) (rx_state_out p s d ++ o) w' → Q 0 w') →
  wp (acmp_milan_send_get_rx_state_response i p d) Q w.
Proof.
  intros Hw Hi HQ. unfold acmp_milan_send_get_rx_state_response. apply wp_bind. eapply get_sink_spec; [done..|].
  by eapply send_packet_spec.
Qed.
End ops.
