(* ===== verification/MilanTable.v ===== *)
(** * AVDECC: the abstract listener sink of Milan

    The state machines of a sink as one table: a sink is its state, whether
    its talker is discovered, the stream that it has settled on and the talker
    stream that it is bound to.  Timers, registrations and commands in flight
    are not part of it. *)

From S2P Require Import Prelude MaapAddr Timer Milan.

Record asink := ASink {
  a_state : acmp_milan_listener_sink_sm_state_t;
  a_found : bool;
  a_stream : Z * list Z * Z;
  a_talker : Z * Z;
}.

Definition no_stream : Z * list Z * Z := (0, replicate 6 0, 0).
Definition same_talker (t u : Z * Z) : bool := (t.1 =? u.1) && (t.2 =? u.2).
Definition settled (st : acmp_milan_listener_sink_sm_state_t) : bool :=
  match st with
  | ACMP_LISTENER_SINK_SM_STATE_SETTLED_NO_RSV | ACMP_LISTENER_SINK_SM_STATE_SETTLED_RSV_OK => true
  | _ => false
  end.
Definition probing (st : acmp_milan_listener_sink_sm_state_t) : bool :=
  match st with
  | ACMP_LISTENER_SINK_SM_STATE_PRB_W_RESP | ACMP_LISTENER_SINK_SM_STATE_PRB_W_RESP2 => true
  | _ => false
  end.
Definition bound (st : acmp_milan_listener_sink_sm_state_t) : bool :=
  match st with ACMP_LISTENER_SINK_SM_STATE_UNBOUND => false | _ => true end.

(** What can happen to a sink.  [LBindLost] is a bind command whose probe the
    platform could not send. *)
Inductive alabel :=
| LBind (t : Z * Z)
| LBindLost (t : Z * Z)
| LUnbind
| LSaved (t : Z * Z)
| LDiscovered
| LDeparted
| LNoResp
| LDelay
| LRetry
| LNoTk
| LProbeOk (stream : Z * list Z * Z)
| LProbeFailed
| LRegistered
| LUnregistered.

Definition to_state (st : acmp_milan_listener_sink_sm_state_t) (a : asink) : asink :=
  ASink st (a_found a) (if settled st then a_stream a else no_stream) (a_talker a).
(** Probe again: at once when the talker is there, else when it comes. *)
Definition again (a : asink) : asink :=
  to_state (if a_found a then ACMP_LISTENER_SINK_SM_STATE_PRB_W_DELAY else ACMP_LISTENER_SINK_SM_STATE_PRB_W_AVAIL) a.

(** The ACMP machine: it does not record the discovery of the talker. *)
Definition sm_step (l : alabel) (a : asink) : asink :=
  match l, a_state a with
  | LBind t, st =>
      if bound st && same_talker (a_talker a) t then a else ASink ACMP_LISTENER_SINK_SM_STATE_PRB_W_RESP false no_stream t
  | LBindLost t, _ => ASink (a_state a) (a_found a) (a_stream a) t
  | LUnbind, _ => ASink ACMP_LISTENER_SINK_SM_STATE_UNBOUND false no_stream (0, 0)
  | LSaved t, ACMP_LISTENER_SINK_SM_STATE_UNBOUND => ASink ACMP_LISTENER_SINK_SM_STATE_PRB_W_AVAIL false (a_stream a) t
  | LSaved t, st => ASink st (a_found a) (a_stream a) t
  | LDiscovered, ACMP_LISTENER_SINK_SM_STATE_PRB_W_AVAIL => to_state ACMP_LISTENER_SINK_SM_STATE_PRB_W_DELAY a
  | LDeparted, (ACMP_LISTENER_SINK_SM_STATE_PRB_W_DELAY | ACMP_LISTENER_SINK_SM_STATE_PRB_W_RESP
               | ACMP_LISTENER_SINK_SM_STATE_PRB_W_RESP2 | ACMP_LISTENER_SINK_SM_STATE_PRB_W_RETRY) =>
      to_state ACMP_LISTENER_SINK_SM_STATE_PRB_W_AVAIL a
  | LNoResp, ACMP_LISTENER_SINK_SM_STATE_PRB_W_RESP => to_state ACMP_LISTENER_SINK_SM_STATE_PRB_W_RESP2 a
  | LNoResp, ACMP_LISTENER_SINK_SM_STATE_PRB_W_RESP2 => to_state ACMP_LISTENER_SINK_SM_STATE_PRB_W_RETRY a
  | LDelay, ACMP_LISTENER_SINK_SM_STATE_PRB_W_DELAY => to_state ACMP_LISTENER_SINK_SM_STATE_PRB_W_RESP a
  | LRetry, ACMP_LISTENER_SINK_SM_STATE_PRB_W_RETRY => again a
  | LNoTk, ACMP_LISTENER_SINK_SM_STATE_SETTLED_NO_RSV => again a
  | LProbeOk x, (ACMP_LISTENER_SINK_SM_STATE_PRB_W_RESP | ACMP_LISTENER_SINK_SM_STATE_PRB_W_RESP2) =>
      ASink ACMP_LISTENER_SINK_SM_STATE_SETTLED_NO_RSV (a_found a) x (a_talker a)
  | LProbeFailed, (ACMP_LISTENER_SINK_SM_STATE_PRB_W_RESP | ACMP_LISTENER_SINK_SM_STATE_PRB_W_RESP2) =>
      to_state ACMP_LISTENER_SINK_SM_STATE_PRB_W_RETRY a
  | LRegistered, ACMP_LISTENER_SINK_SM_STATE_SETTLED_NO_RSV => to_state ACMP_LISTENER_SINK_SM_STATE_SETTLED_RSV_OK a
  | LUnregistered, ACMP_LISTENER_SINK_SM_STATE_SETTLED_RSV_OK => again a
  | _, _ => a
  end.

(** Both machines. *)
Definition with_found (b : bool) (a : asink) : asink := ASink (a_state a) b (a_stream a) (a_talker a).
Definition astep (a : asink) (l : alabel) : asink :=
  match l with
  | LDiscovered => if bound (a_state a) then with_found true (sm_step l a) else a
  | LDeparted => with_found false (sm_step l a)
  | _ => sm_step l a
  end.
Definition asteps (a : asink) (l : list alabel) : asink := foldl astep a l.

(** A sink waits for its talker only while it is not discovered, and for the
    delay of a probe only while it is; only a settled sink has a stream. *)
Record aok (a : asink) : Prop := {
  ao_stream : settled (a_state a) = false → a_stream a = no_stream;
  ao_away : a_state a = ACMP_LISTENER_SINK_SM_STATE_UNBOUND ∨ a_state a = ACMP_LISTENER_SINK_SM_STATE_PRB_W_AVAIL → a_found a = false;
  ao_found : a_state a = ACMP_LISTENER_SINK_SM_STATE_PRB_W_DELAY → a_found a = true;
}.

Lemma aok_step a l : aok a → aok (astep a l).
Proof.
  intros [A1 A2 A3]. destruct a as [st f x t]. cbn in *.
  assert (Hx : settled st = true ∨ settled st = false ∧ x = no_stream) by (destruct (settled st); auto).
  assert (Hf : f = true ∨ f = false) by (destruct f; auto).
  assert (Ha : st ≠ ACMP_LISTENER_SINK_SM_STATE_UNBOUND ∧ st ≠ ACMP_LISTENER_SINK_SM_STATE_PRB_W_AVAIL ∨ f = false)
    by (destruct st; auto). clear A2.
  destruct l; destruct st; cbn in *; destruct Hf as [-> | ->]; cbn.
  all: try (destruct (same_talker _ _)).
  all: split; cbn; intros; destruct_or?; destruct_and?; subst; congruence || auto.
Qed.
Lemma aok_steps l a : aok a → aok (asteps a l).
Proof. revert a. induction l as [|x l IH]; intros a H; [done|]. by apply IH, aok_step. Qed.
