(* ===== verification/MilanRefine.v ===== *)
(** * AVDECC: the listener sink state machine follows the table

    What [sink_sm_run] makes of a sink, of the commands in flight and of the
    output, for every state and event. *)

From S2P Require Import Prelude MaapAddr Timer Milan MilanSm MilanListener MilanSpec MilanTable.

(** ** Abstraction *)

Definition found (s : stream_input) : bool :=
  match talker_state s with
  | ADP_LISTENER_SINK_TALKER_STATE_DISCOVERED => true
  | ADP_LISTENER_SINK_TALKER_STATE_NOT_DISCOVERED => false
  end.
Lemma found_eq s : found s = match talker_state s with
  | ADP_LISTENER_SINK_TALKER_STATE_DISCOVERED => true | ADP_LISTENER_SINK_TALKER_STATE_NOT_DISCOVERED => false end.
Proof. done. Qed.
Definition stream_of (s : stream_input) : Z * list Z * Z := (stream_id s, stream_dest_mac s, stream_vlan_id s).
Definition talker_of (s : stream_input) : Z * Z := (talker_entity_id s, talker_unique_id s).
Definition abs (s : stream_input) : asink := ASink (state s) (found s) (stream_of s) (talker_of s).

Definition pdu_stream (pdu : acmp_pdu) : Z * list Z * Z := (p_stream_id pdu, p_stream_dest_mac pdu, p_stream_vlan_id pdu).
Definition pdu_talker (pdu : acmp_pdu) : Z * Z := (p_talker_entity_id pdu, p_talker_unique_id pdu).

(** The timers of the ACMP machine run in the states that wait for them, but
    for the one that has just expired. *)
Record timers_at (k : option sink_timer) (s : stream_input) : Prop := {
  tm_retry : acmp_retry_timer s =
    SoftTimer true (bool_decide (state s = ACMP_LISTENER_SINK_SM_STATE_PRB_W_RETRY) && negb (bool_decide (k = Some TMR_RETRY)));
  tm_delay : acmp_delay_timer s =
    SoftTimer true (bool_decide (state s = ACMP_LISTENER_SINK_SM_STATE_PRB_W_DELAY) && negb (bool_decide (k = Some TMR_DELAY)));
  tm_tk : acmp_talker_registration_timer s =
    SoftTimer true (bool_decide (state s = ACMP_LISTENER_SINK_SM_STATE_SETTLED_NO_RSV) && negb (bool_decide (k = Some TMR_NO_TK)));
  tm_note : st_created (async_unsolicited_notification_timer s) = true;
}.
Definition timers_ok : stream_input → Prop := timers_at None.
Definition event_timer (ev : acmp_milan_listener_sink_sm_event_t) : option sink_timer :=
  match ev with
  | ACMP_LISTENER_SINK_SM_EVENT_TMR_RETRY => Some TMR_RETRY
  | ACMP_LISTENER_SINK_SM_EVENT_TMR_DELAY => Some TMR_DELAY
  | ACMP_LISTENER_SINK_SM_EVENT_TMR_NO_TK => Some TMR_NO_TK
  | _ => None
  end.

(** ** What one event of the ACMP machine does *)

(** The step of the table; [None] when the event has no effect. *)
Definition sm_label (c : entity) (i : nat) (s : stream_input) (ev : acmp_milan_listener_sink_sm_event_t)
    (pdu : option acmp_pdu) (status : Z) : option alabel :=
  match ev, pdu with
  | ACMP_LISTENER_SINK_SM_EVENT_RCV_BIND_RX_CMD, Some pdu =>
      if bind_refused c i pdu then None else Some (LBind (pdu_talker pdu))
  | ACMP_LISTENER_SINK_SM_EVENT_RCV_UNBIND_RX_CMD, _ => Some LUnbind
  | ACMP_LISTENER_SINK_SM_EVENT_RCV_PROBE_TX_RESP, Some pdu =>
      match probing (state s), find_inflight c (ntohs (p_sequence_id pdu)) with
      | true, Some _ => Some (if status =? ACMP_STAT_SUCCESS then LProbeOk (pdu_stream pdu) else LProbeFailed)
      | _, _ => None
      end
  | ACMP_LISTENER_SINK_SM_EVENT_SAVED_BINDING_PARAMS, _ => Some (LSaved (talker_of s))
  | ACMP_LISTENER_SINK_SM_EVENT_EVT_TK_DISCOVERED, _ => Some LDiscovered
  | ACMP_LISTENER_SINK_SM_EVENT_EVT_TK_DEPARTED, _ => Some LDeparted
  | ACMP_LISTENER_SINK_SM_EVENT_TMR_NO_RESP, _ => Some LNoResp
  | ACMP_LISTENER_SINK_SM_EVENT_TMR_DELAY, _ => Some LDelay
  | ACMP_LISTENER_SINK_SM_EVENT_TMR_RETRY, _ => Some LRetry
  | ACMP_LISTENER_SINK_SM_EVENT_TMR_NO_TK, _ => Some LNoTk
  | ACMP_LISTENER_SINK_SM_EVENT_EVT_TK_REGISTERED, _ => Some LRegistered
  | ACMP_LISTENER_SINK_SM_EVENT_EVT_TK_UNREGISTERED, _ => Some LUnregistered
  | _, _ => None
  end.
Definition opt_step (l : option alabel) (a : asink) : asink := match l with Some l => sm_step l a | None => a end.

(** Whether a step sends a probe, and the command whose answer it stops
    waiting for. *)
Definition probes (l : option alabel) (a : asink) : bool :=
  match l with
  | Some (LBind t) => negb (same_talker (a_talker a) t)
  | Some LDelay => bool_decide (a_state a = ACMP_LISTENER_SINK_SM_STATE_PRB_W_DELAY)
  | _ => false
  end.
Definition cancels (l : option alabel) (s : stream_input) (pdu : option acmp_pdu) : option Z :=
  match l with
  | Some (LBind t) => if probing (state s) && negb (same_talker (talker_of s) t) then Some (probe_tx_seq_id s) else None
  | Some LUnbind | Some LDeparted => if probing (state s) then Some (probe_tx_seq_id s) else None
  | Some (LProbeOk _) | Some LProbeFailed => (λ pdu, ntohs (p_sequence_id pdu)) <$> pdu
  | _ => None
  end.
Definition opt_cancel (q : option Z) (c : entity) : entity := match q with Some q => cancel_inflight q c | None => c end.

(** The binding as the probe command names it. *)
Definition sm_entity (l : option alabel) (c : entity) (i : nat) (s s' : stream_input) (pdu : option acmp_pdu) : entity :=
  opt_cancel (cancels l s pdu)
    (if probes l (abs s) then start_inflight (sink_port s) (probe_pdu c i s') c else c).

(** Summaries of the output: answers to controllers, streams connected and
    disconnected, probes. *)
Definition answers (o : list output) : list (nat * acmp_msg) :=
  omap (λ x, match x with
             | Sent p m => if (m_type m =? ACMP_BIND_RX_RESPONSE) || (m_type m =? ACMP_UNBIND_RX_RESPONSE) ||
                              (m_type m =? ACMP_GET_RX_STATE_RESPONSE) then Some (p, m) else None
             | _ => None end) o.
Definition streams (o : list output) : list (bool * nat * Z) :=
  omap (λ x, match x with
             | Told (MEDIA_STACK_CONNECT i _ _ id _ _) => Some (true, i, id)
             | Told (MEDIA_STACK_DISCONNECT i _ id _) => Some (false, i, id)
             | _ => None end) o.
Definition commands (o : list output) : list (nat * acmp_msg) :=
  omap (λ x, match x with Sent p m => if m_type m =? ACMP_PROBE_TX_COMMAND then Some (p, m) else None | _ => None end) o.

(** The entity but for its sinks and the commands in flight. *)
Definition config_of (c : entity) :=
  (entity_id c, entity_index c, port_max c, srp_enabled c, locked c, locking_controller_id c, interfaces c).
Definition same_rest (c c' : entity) : Prop := config_of c' = config_of c ∧ sinks c' = sinks c.

Lemma same_rest_refl c : same_rest c c.
Proof. done. Qed.
Lemma same_rest_cancel q c c' : same_rest c c' → same_rest c (cancel_inflight q c').
Proof. unfold same_rest, cancel_inflight. by destruct (find_inflight c' q). Qed.
Lemma same_rest_start p d c c' : same_rest c c' → same_rest c (start_inflight p d c').
Proof. unfold same_rest, start_inflight. by destruct (free_inflight c'). Qed.

Section post.
Context `{!Platform milan_call}.

(** The sink after the step [l] of the ACMP machine; the ADP timer and the
    registration follow. *)
Record sm_rel (l : option alabel) (s s' : stream_input) : Prop := {
  sr_abs : abs s' = opt_step l (abs s);
  sr_timers : timers_ok s';
  sr_disc : adp_discovery_timer s' = if eqb (found s) (found s') then adp_discovery_timer s else soft_stop (adp_discovery_timer s);
  sr_srp : srp_state s' = if settled (state s) && negb (settled (state s')) then ACMP_LISTENER_SINK_SRP_STATE_NOT_REGISTERING else srp_state s;
  sr_status : srp_stream_status s' = if settled (state s) && negb (settled (state s')) then NO_TALKER else srp_stream_status s;
  sr_port : avb_interface_index s' = avb_interface_index s;
  sr_adp : interface_index s' = interface_index s ∧ available_index s' = available_index s;
}.

(** What [probing_status] says in each state. *)
Definition probing_of (st : acmp_milan_listener_sink_sm_state_t) : Z :=
  match st with
  | ACMP_LISTENER_SINK_SM_STATE_UNBOUND => ACMP_PROBING_STATUS_DISABLED
  | ACMP_LISTENER_SINK_SM_STATE_PRB_W_AVAIL => ACMP_PROBING_STATUS_PASSIVE
  | ACMP_LISTENER_SINK_SM_STATE_SETTLED_NO_RSV | ACMP_LISTENER_SINK_SM_STATE_SETTLED_RSV_OK => ACMP_PROBING_STATUS_COMPLETED
  | _ => ACMP_PROBING_STATUS_ACTIVE
  end.

(** When the platform has memory, the rest of the effect. *)
Record sm_full (c : entity) (i : nat) (s : stream_input) (ev : acmp_milan_listener_sink_sm_event_t) (pdu : option acmp_pdu)
    (rsp : option (nat * acmp_pdu)) (status : Z) (l : option alabel) (s' : stream_input) (c' : entity) (o : list output) :
    Prop := {
  sf_label : l = sm_label (put i s c) i s ev pdu status;
  sf_entity : c' = sm_entity l c i s s' pdu;
  sf_seq : probe_tx_seq_id s' = if probes l (abs s) then sequence_id c else probe_tx_seq_id s;
  sf_probing : (∀ t, l = Some (LBind t) → bound (state s) = false → same_talker (talker_of s) t = false) →
    probing_status s = probing_of (state s) → probing_status s' = probing_of (state s');
  sf_streams : streams o =
    match settled (state s), settled (state s') with
    | true, false => [(false, i, stream_id s)]
    | false, true => [(true, i, stream_id s')]
    | _, _ => []
    end;
  sf_commands : commands o =
    if probes l (abs s) then [(sink_port s, AcmpMsg ACMP_PROBE_TX_COMMAND ACMP_STAT_SUCCESS (probe_pdu c i s'))] else [];
  sf_answers : match rsp with
    | Some (p, d) => ∃ m, answers o = [(p, m)] ∧ m_type m = acmp_milan_listener_get_msg_type ev + 1 ∧
        p_sequence_id (m_pdu m) = p_sequence_id d ∧ p_listener_unique_id (m_pdu m) = p_listener_unique_id d ∧
        p_controller_entity_id (m_pdu m) = p_controller_entity_id d
    | None => answers o = []
    end;
}.

Definition sm_post (i : nat) (ev : acmp_milan_listener_sink_sm_event_t) (pdu : option acmp_pdu) (rsp : option (nat * acmp_pdu))
    (status : Z) (s : stream_input) (c : entity) (o : list output) (w' : world milan_call entity) : Prop :=
  ∃ l s' c' out, at_world (put i s' c') (out ++ o) w' ∧ sm_rel l s s' ∧ inflight_ok c' ∧ same_rest c c' ∧
    (l = sm_label (put i s c) i s ev pdu status ∨ ev = ACMP_LISTENER_SINK_SM_EVENT_RCV_BIND_RX_CMD ∧ ∃ t, l = Some (LBindLost t)) ∧
    (healthy → sm_full c i s ev pdu rsp status l s' c' out).

(** A command comes with its descriptor, another frame without. *)
Definition args_ok (ev : acmp_milan_listener_sink_sm_event_t) (pdu : option acmp_pdu) (rsp : option (nat * acmp_pdu)) : Prop :=
  match ev with
  | ACMP_LISTENER_SINK_SM_EVENT_RCV_BIND_RX_CMD | ACMP_LISTENER_SINK_SM_EVENT_RCV_GET_RX_STATE
  | ACMP_LISTENER_SINK_SM_EVENT_RCV_UNBIND_RX_CMD => is_Some pdu ∧ is_Some rsp
  | ACMP_LISTENER_SINK_SM_EVENT_RCV_PROBE_TX_RESP => is_Some pdu ∧ rsp = None
  | _ => rsp = None
  end.
End post.

Ltac sm_side :=
  solve [ assumption
        | rewrite ?start_inflight_sinks, ?start_inflight_ports, ?cancel_inflight_sinks, ?cancel_inflight_ports; assumption
        | by rewrite ?cancel_inflight_sinks, ?cancel_inflight_ports, ?start_inflight_sinks, ?start_inflight_ports
        | auto using cancel_inflight_ok, start_inflight_ok ].
(** Symbolic execution of the operations of the machine. *)
Ltac sm_step1 :=
  match goal with
  | |- wp (bind _ _) _ _ => apply wp_bind
  | |- wp (ret _) _ _ => apply wp_ret
  | |- wp (when _ _) _ _ => apply wp_when
  | |- wp (get_sink _) _ _ => eapply get_sink_spec; [eassumption|sm_side|]
  | |- wp (set_sink _ _) _ _ => eapply set_sink_spec; [eassumption|]; intros ??
  | |- wp (timer_start _ _ _) _ _ => eapply sink_timer_start_spec; [eassumption|done|]; intros ??
  | |- wp (timer_stop _ _) _ _ => eapply sink_timer_stop_spec; [eassumption|]; intros ??
  | |- wp (delay_timer_start _) _ _ => eapply delay_timer_start_spec; [assumption|eassumption|]; intros ??
  | |- wp (set_probing _ _ _) _ _ => eapply set_probing_spec; [eassumption|]; intros ??
  | |- wp (adp_milan_listener_sink_reset _) _ _ => eapply reset_spec; [eassumption|sm_side|]; intros ??
  | |- wp (acmp_milan_listener_sink_srp_state_clear _) _ _ => eapply srp_state_clear_spec; [eassumption|sm_side|]; intros ??
  | |- wp (acmp_milan_set_stream_input_srp_params _ _) _ _ => eapply set_srp_params_spec; [eassumption|sm_side|]; intros ??
  | |- wp (acmp_milan_listener_register_async_get_stream_info_notification _) _ _ =>
      eapply register_notification_spec; [eassumption|sm_side|]; intros ??
  | |- wp (acmp_listener_stack_connect _ _) _ _ => eapply stack_connect_spec; [eassumption|sm_side|sm_side|]; intros ??
  | |- wp (acmp_listener_stack_disconnect _) _ _ => eapply stack_disconnect_spec; [eassumption|sm_side|sm_side|]; intros ??
  | |- wp (avdecc_inflight_cancel _) _ _ => eapply cancel_spec; [eassumption|sm_side|]; intros ??
  end.

Section sink_sm.
Context `{!Platform milan_call}.
Implicit Types (w : world milan_call entity) (c : entity) (s : stream_input) (o : list output).

(** What the sink and its entity are when the machine runs. *)
Record sm_pre (i : nat) (ev : acmp_milan_listener_sink_sm_event_t) (pdu : option acmp_pdu) (rsp : option (nat * acmp_pdu)) s c : Prop := {
  sp_random : random_positive;
  sp_sink : (i < length (sinks c))%nat;
  sp_port : (sink_port s < port_max c)%nat;
  sp_inflight : inflight_ok c;
  sp_timers : timers_at (event_timer ev) s;
  sp_stream : settled (state s) = false → stream_of s = no_stream;
  sp_away : ev ≠ ACMP_LISTENER_SINK_SM_EVENT_EVT_TK_DISCOVERED →
    state s = ACMP_LISTENER_SINK_SM_STATE_UNBOUND ∨ state s = ACMP_LISTENER_SINK_SM_STATE_PRB_W_AVAIL → found s = false;
  sp_args : args_ok ev pdu rsp;
}.

Lemma restart_eq s pdu : acmp_milan_need_binding_restart s pdu = negb (same_talker (talker_of s) (pdu_talker pdu)).
Proof. unfold acmp_milan_need_binding_restart, same_talker. cbn. by rewrite negb_andb. Qed.
Lemma same_talker_eq t u : same_talker t u = true → t = u.
Proof. unfold same_talker. intros [H1%Z.eqb_eq H2%Z.eqb_eq]%andb_true_iff. destruct t, u; cbn in *. by subst. Qed.

Lemma rcv_bind_spec i p pdu d s c o Q w :
  at_world (put i s c) o w → (i < length (sinks c))%nat → (sink_port s < port_max c)%nat →
  (bind_refused (put i s c) i pdu = true → ∀ w', at_world (put i s c)
     ([Sent p (AcmpMsg ACMP_BIND_RX_RESPONSE ACMP_STAT_TALKER_EXCLUSIVE d)] ++ o) w' → Q (-1, false) w') →
  (bind_refused (put i s c) i pdu = false → ∀ sent w', let restart := negb (same_talker (talker_of s) (pdu_talker pdu)) in
     (¬ healthy ∧ restart = true ∨ sent = true) →
     at_world (put i (bind_sink restart sent c pdu s) (bind_entity restart sent c i pdu s))
       (bind_out restart sent c i p pdu d s ++ o) w' →
     Q (if sent then 0 else -1, restart) w') →
  wp (rcv_bind_rx_cmd i (Some pdu) (Some (p, d))) Q w.
Proof.
  rewrite <- restart_eq. intros. unfold rcv_bind_rx_cmd. apply wp_bind, wp_ret, wp_bind, wp_ret. by eapply bind_spec.
Qed.
Lemma rcv_unbind_spec i p d s c o Q w :
  at_world (put i s c) o w → (i < length (sinks c))%nat →
  (∀ w', at_world (put i (unbind_sink s) c) (unbind_out c i p s d ++ o) w' → Q 0 w') →
  wp (rcv_unbind_rx_cmd i (Some (p, d))) Q w.
Proof. intros. unfold rcv_unbind_rx_cmd. apply wp_bind, wp_ret. by eapply unbind_spec. Qed.
Lemma rcv_get_spec i p d s c o Q w :
  at_world (put i s c) o w → (i < length (sinks c))%nat →
  (∀ w', at_world (put i s c) (rx_state_out p s d ++ o) w' → Q 0 w') →
  wp (rcv_get_rx_state i (Some (p, d))) Q w.
Proof. intros. unfold rcv_get_rx_state. apply wp_bind, wp_ret. by eapply get_rx_state_spec. Qed.

Lemma sm_post_intro l i ev pdu rsp status s c o w' s' c' o' out :
  at_world (put i s' c') o' w' → o' = out ++ o →
  (l = sm_label (put i s c) i s ev pdu status ∨ ev = ACMP_LISTENER_SINK_SM_EVENT_RCV_BIND_RX_CMD ∧ ∃ t, l = Some (LBindLost t)) → sm_rel l s s' → inflight_ok c' → same_rest c c' →
  (healthy → sm_full c i s ev pdu rsp status l s' c' out) → sm_post i ev pdu rsp status s c o w'.
Proof. intros H -> ?????. by exists l, s', c', out. Qed.

Lemma notify_created_if (b : bool) t : st_created (if b then notify_timer t else t) = st_created t.
Proof. destruct b; [apply notify_timer_created|done]. Qed.

#[local] Arguments put : simpl never.
#[local] Arguments same_talker : simpl never.
#[local] Arguments talker_of : simpl never.
#[local] Arguments stream_of : simpl never.
#[local] Arguments found : simpl never.
#[local] Arguments bind_refused : simpl never.
#[local] Arguments find_inflight : simpl never.

Lemma find_put i s c q : find_inflight (put i s c) q = find_inflight c q.
Proof. done. Qed.

Ltac out_tac :=
  rewrite ?app_assoc;
  first [ reflexivity
        | match goal with |- ?x :: ?o = _ => exact (eq_refl ([x] ++ o)) end
        | match goal with |- ?o = _ => exact (eq_refl ([] ++ o)) end ].
Ltac sm_more :=
  repeat first
    [ sm_step1
    | match goal with
      | |- wp (rcv_unbind_rx_cmd _ (Some _)) _ _ => eapply rcv_unbind_spec; [eassumption|sm_side|]; intros ??
      | |- wp (rcv_get_rx_state _ (Some _)) _ _ => eapply rcv_get_spec; [eassumption|sm_side|]; intros ??
      | |- wp (acmp_milan_send_probe_tx_command _) _ _ => eapply send_probe_spec; [eassumption|sm_side|sm_side|intros ???|intros ??]
      | |- wp (match talker_state ?x with _ => _ end) _ _ =>
          let t := eval cbn in (talker_state x) in change (talker_state x) with t;
          match goal with H : t = _ |- _ => rewrite H end
      | |- wp (deref _ (Some _)) _ _ => apply wp_ret
      | |- wp (if decide _ then _ else _) _ _ =>
          let D := fresh in destruct (decide _) as [D|D]; [try discriminate D|try (exfalso; apply D; reflexivity)]; clear D
      | |- wp (if match find_inflight ?c ?q with _ => _ end <? 0 then _ else _) _ _ =>
          destruct (find_inflight c q) eqn:?; [change (0 <? 0) with false|change (-1 <? 0) with true]
      | |- wp (if negb (?x =? ACMP_STAT_SUCCESS) then _ else _) _ _ => destruct (x =? ACMP_STAT_SUCCESS) eqn:?; cbn [negb]
      | |- wp (sink_probe_again _) _ _ => unfold sink_probe_again
      | |- wp (let '(_, _) := _ in _) _ _ => cbn match
      | |- wp (if _ then _ else _) _ _ => progress cbn match
      | |- wp (when _ _) _ _ => apply wp_when; cbn match
      end ].

Ltac sm_start :=
  match goal with
  | E : state ?s = _, Hpre : sm_pre ?i ?ev ?pdu ?rsp ?s ?c |- _ =>
      destruct Hpre as [Hr Hi Hp Hio [T1 T2 T3 T4] Hs Ha Hg];
      rewrite E in T1, T2, T3, Hs, Ha; cbn in Hs
  end.
Ltac sm_done L :=
  match goal with
  | H : at_world (put _ _ _) _ ?w |- sm_post _ _ _ _ _ _ _ _ ?w =>
      eapply (sm_post_intro L); [exact H|out_tac|first [by left|right; split; [reflexivity|eexists; reflexivity]]| | | |]
  end.
Ltac sm_eval :=
  cbn; rewrite ?find_put; repeat match goal with
    | H : (_ =? ACMP_STAT_SUCCESS) = _ |- _ => rewrite H; cbn
    | H : state ?s = _ |- _ => rewrite H; cbn
    | H : bind_refused _ _ _ = _ |- _ => rewrite H; cbn
    | H : same_talker _ _ = _ |- _ => rewrite H; cbn
    | H : find_inflight _ _ = _ |- _ => rewrite H; cbn
    | H : found _ = _ |- _ => rewrite H; cbn
    end.
(** The abstraction of the new sink, field by field. *)
Ltac sm_abs Hs :=
  sm_eval; unfold again, to_state, abs; sm_eval; f_equal;
  first [ reflexivity | assumption
        | symmetry; assumption
        | match goal with H : _ ≠ _ → _ → found _ = false |- _ => apply H; [done|auto] end
        | etransitivity; [|apply Hs; reflexivity]; reflexivity
        | symmetry; etransitivity; [|apply Hs; reflexivity]; reflexivity
        | symmetry; match goal with H : same_talker _ _ = true |- _ => apply (same_talker_eq _ _ H) end ].
Ltac sm_field Hs T1 T2 T3 T4 :=
  match goal with
  | |- inflight_ok _ => sm_side
  | |- same_rest _ _ => auto using same_rest_refl, same_rest_cancel, same_rest_start
  | |- abs _ = _ => sm_abs Hs
  | |- timers_ok _ => split; cbn; rewrite ?notify_timer_created, ?notify_created_if, ?notify_timer_created, ?T1, ?T2, ?T3; done
  | |- adp_discovery_timer _ = _ => unfold found; cbn; by destruct (talker_state _)
  | |- srp_state _ = _ => by sm_eval
  | |- srp_stream_status _ = _ => by sm_eval
  end.

Ltac sm_out c :=
  unfold connect_out, disconnect_out, unbind_out, bind_out, rx_state_out, probe_out, commands, streams, answers;
  rewrite ?start_inflight_srp, ?cancel_inflight_srp;
  destruct (srp_enabled c); repeat match goal with |- context [bind_changes ?p ?s] => destruct (bind_changes p s) end.
Ltac sm_full_field c :=
  match goal with
  | |- sm_label _ _ _ _ _ _ = _ => reflexivity
  | |- _ = sm_entity _ _ _ _ _ _ => unfold sm_entity, cancels, probes, sm_label, bind_entity; sm_eval; done
  | |- probe_tx_seq_id _ = _ => unfold probes, sm_label; sm_eval; done
  | |- _ → probing_status _ = _ → _ => let H := fresh in intros _ H; revert H; unfold probing_of; sm_eval; done
  | |- streams _ = _ => sm_out c; sm_eval; done
  | |- commands _ = _ => unfold probes, sm_label; sm_out c; sm_eval; done
  | |- answers _ = _ => sm_out c; done
  | |- ex _ => sm_out c; eexists; (split; [reflexivity|]); split_and!; unfold rx_state_response; repeat case_match; done
  end.
Ltac sm_bind :=
  match goal with
  | |- wp (rcv_bind_rx_cmd _ (Some _) (Some _)) _ _ =>
      let Hst := fresh "Hst" in let Hsent := fresh "Hsent" in let r := fresh "r" in let Hb := fresh "Hb" in
      eapply rcv_bind_spec; [eassumption|sm_side|sm_side|intros Hb ??|intros Hb [|] ? r Hsent ?; subst r];
        [|match goal with |- context [same_talker ?t ?u] => destruct (same_talker t u) eqn:Hst end; clear Hsent
         |match goal with |- context [same_talker ?t ?u] => destruct (same_talker t u) eqn:Hst end;
          [exfalso; clear -Hsent; destruct Hsent as [[_ ?]|?]; discriminate|]];
        unfold bind_entity in *; cbn [fst snd negb andb] in *; change (-1 <? 0) with true; change (0 <? 0) with false; cbn [orb negb]
  end.
Ltac sm_lost :=
  match goal with
  | Hn : ¬ healthy ∧ true = true ∨ false = true |- sm_post _ _ (Some ?cmd) _ _ _ _ _ _ =>
      let H := fresh in assert (H : ¬ healthy) by (by destruct Hn as [[? _]|?]); clear Hn; sm_done (Some (LBindLost (pdu_talker cmd)))
  end.
Ltac sm_post_tac :=
  match goal with
  | Hn : ¬ healthy ∧ true = true ∨ false = true |- _ => fail 1
  | |- sm_post ?i ?ev ?pdu ?rsp ?status ?s ?c _ _ => sm_done (sm_label (put i s c) i s ev pdu status) end.
Ltac sm_args Hg :=
  lazymatch type of Hg with
  | is_Some _ ∧ is_Some _ => destruct Hg as [[cmd ->] [[p d] ->]]
  | is_Some _ ∧ _ => destruct Hg as [[cmd ->] ->]
  | _ => rewrite Hg
  end.

Ltac sm_solve Hs T1 T2 T3 T4 c :=
  try (match goal with |- sm_rel _ _ _ => split end); try sm_field Hs T1 T2 T3 T4; try done;
  try (let Hh := fresh in intros Hh; try done; split); try sm_full_field c; try done.
Ltac sm_case Hs T1 T2 T3 T4 Hg c :=
  sm_args Hg; sm_more; try (sm_bind; sm_more); try sm_lost; try sm_post_tac; sm_solve Hs T1 T2 T3 T4 c.

Lemma w_delay_spec i ev pdu rsp status s c o w :
  state s = ACMP_LISTENER_SINK_SM_STATE_PRB_W_DELAY → sm_pre i ev pdu rsp s c → at_world (put i s c) o w →
  wp (let! r := sink_sm_prb_w_delay i ev pdu rsp in sink_sm_finish i r) (λ _, sm_post i ev pdu rsp status s c o) w.
Proof.
  intros E Hpre Hw. sm_start. destruct ev; cbn in Hg; unfold sink_sm_prb_w_delay, sink_sm_finish; sm_case Hs T1 T2 T3 T4 Hg c.
Qed.
Lemma w_avail_spec i ev pdu rsp status s c o w :
  state s = ACMP_LISTENER_SINK_SM_STATE_PRB_W_AVAIL → sm_pre i ev pdu rsp s c → at_world (put i s c) o w →
  wp (let! r := sink_sm_prb_w_avail i ev pdu rsp in sink_sm_finish i r) (λ _, sm_post i ev pdu rsp status s c o) w.
Proof.
  intros E Hpre Hw. sm_start. destruct ev; cbn in Hg; unfold sink_sm_prb_w_avail, sink_sm_finish; sm_case Hs T1 T2 T3 T4 Hg c.
Qed.
Lemma unbound_spec i ev pdu rsp status s c o w :
  state s = ACMP_LISTENER_SINK_SM_STATE_UNBOUND → sm_pre i ev pdu rsp s c → at_world (put i s c) o w →
  wp (let! r := sink_sm_unbound i ev pdu rsp in sink_sm_finish i r) (λ _, sm_post i ev pdu rsp status s c o) w.
Proof.
  intros E Hpre Hw. sm_start. destruct ev; cbn in Hg; unfold sink_sm_unbound, sink_sm_finish; sm_case Hs T1 T2 T3 T4 Hg c.
  intros Hz _. exfalso. specialize (Hz (pdu_talker cmd)). unfold sm_label in Hz. rewrite Hb, E in Hz.
  specialize (Hz eq_refl eq_refl). congruence.
Qed.
Lemma w_retry_spec i ev pdu rsp status s c o w :
  state s = ACMP_LISTENER_SINK_SM_STATE_PRB_W_RETRY → sm_pre i ev pdu rsp s c → at_world (put i s c) o w →
  wp (let! r := sink_sm_prb_w_retry i ev pdu rsp in sink_sm_finish i r) (λ _, sm_post i ev pdu rsp status s c o) w.
Proof.
  intros E Hpre Hw. sm_start. destruct (talker_state s) eqn:Htk.
  all: assert (Hf := found_eq s); rewrite Htk in Hf.
  all: destruct ev; cbn in Hg; unfold sink_sm_prb_w_retry, sink_sm_finish; sm_case Hs T1 T2 T3 T4 Hg c.
Qed.
Lemma settled_no_rsv_spec i ev pdu rsp status s c o w :
  state s = ACMP_LISTENER_SINK_SM_STATE_SETTLED_NO_RSV → sm_pre i ev pdu rsp s c → at_world (put i s c) o w →
  wp (let! r := sink_sm_settled_no_rsv i ev pdu rsp in sink_sm_finish i r) (λ _, sm_post i ev pdu rsp status s c o) w.
Proof.
  intros E Hpre Hw. sm_start. destruct (talker_state s) eqn:Htk.
  all: assert (Hf := found_eq s); rewrite Htk in Hf.
  all: destruct ev; cbn in Hg; unfold sink_sm_settled_no_rsv, sink_sm_finish; sm_case Hs T1 T2 T3 T4 Hg c.
Qed.
Lemma settled_rsv_ok_spec i ev pdu rsp status s c o w :
  state s = ACMP_LISTENER_SINK_SM_STATE_SETTLED_RSV_OK → sm_pre i ev pdu rsp s c → at_world (put i s c) o w →
  wp (let! r := sink_sm_settled_rsv_ok i ev pdu rsp in sink_sm_finish i r) (λ _, sm_post i ev pdu rsp status s c o) w.
Proof.
  intros E Hpre Hw. sm_start. destruct (talker_state s) eqn:Htk.
  all: assert (Hf := found_eq s); rewrite Htk in Hf.
  all: destruct ev; cbn in Hg; unfold sink_sm_settled_rsv_ok, sink_sm_finish; sm_case Hs T1 T2 T3 T4 Hg c.
Qed.
Lemma w_resp_spec st i ev pdu rsp status s c o w :
  state s = st → probing st = true → sm_pre i ev pdu rsp s c → at_world (put i s c) o w →
  wp (let! r := sink_sm_prb_w_resp st i ev pdu rsp status in sink_sm_finish i r) (λ _, sm_post i ev pdu rsp status s c o) w.
Proof.
  intros E Hst Hpre Hw. destruct st; try discriminate Hst; clear Hst; sm_start.
  all: destruct ev; cbn in Hg; unfold sink_sm_prb_w_resp, sink_sm_finish; sm_case Hs T1 T2 T3 T4 Hg c.
  all: match goal with H : find_inflight _ _ = None |- _ => unfold sm_entity, sm_label, cancel_inflight; by rewrite find_put, E, H end.
Qed.

(** One event of the machine of a sink. *)
Lemma sink_sm_run_spec i ev pdu rsp status s c o w :
  sm_pre i ev pdu rsp s c → at_world (put i s c) o w →
  wp (sink_sm_run i ev pdu rsp status) (λ _, sm_post i ev pdu rsp status s c o) w.
Proof.
  intros Hpre Hw. unfold sink_sm_run. apply wp_bind. eapply get_sink_spec; [done|apply Hpre|].
  destruct (state s) eqn:E; cbn [sink_sm_state].
  - by apply unbound_spec.
  - by apply w_avail_spec.
  - by apply w_delay_spec.
  - by apply w_resp_spec.
  - by apply w_resp_spec.
  - by apply w_retry_spec.
  - by apply settled_no_rsv_spec.
  - by apply settled_rsv_ok_spec.
Qed.

(** An event that is not a command. *)
Lemma sink_event_spec i ev s c o w :
  is_listener_command (acmp_milan_listener_get_msg_type ev) = false → ev ≠ ACMP_LISTENER_SINK_SM_EVENT_RCV_PROBE_TX_RESP →
  sm_pre i ev None None s c → at_world (put i s c) o w →
  wp (acmp_milan_listener_sink_event i ev) (λ _, sm_post i ev None None 0 s c o) w.
Proof.
  intros Hev Hne Hpre Hw. unfold acmp_milan_listener_sink_event, acmp_milan_listener_sink_sm. rewrite Hev.
  apply wp_bind. eapply at_gets; [done|]. unfold acmp_listener_unique_valid. rewrite put_length.
  rewrite (proj2 (Nat.ltb_lt _ _) (sp_sink _ _ _ _ _ _ Hpre)). cbn [negb]. by apply sink_sm_run_spec.
Qed.
End sink_sm.
