(* ===== verification/MilanEvents.v ===== *)
(** * AVDECC: the events of a Milan listener follow the table

    The invariant of sinks and commands in flight, and what each handler makes
    of the sink that it concerns. *)

From S2P Require Import Prelude MaapAddr Timer Milan MilanSm MilanListener MilanSpec MilanTable MilanRefine.

(** ** The invariant *)

Definition registering (st : acmp_milan_listener_sink_sm_state_t) : acmp_milan_listener_sink_srp_state_t :=
  match st with
  | ACMP_LISTENER_SINK_SM_STATE_SETTLED_RSV_OK => ACMP_LISTENER_SINK_SRP_STATE_REGISTERING
  | _ => ACMP_LISTENER_SINK_SRP_STATE_NOT_REGISTERING
  end.
(** A talker is registered in one state, and a stream has a status only while
    it is connected. *)
Record srp_ok (s : stream_input) : Prop := {
  sp_state : srp_state s = registering (state s);
  sp_status : settled (state s) = false → srp_stream_status s = NO_TALKER;
}.
Record sink_ok (ports : nat) (s : stream_input) : Prop := {
  so_timers : timers_ok s;
  so_disc : adp_discovery_timer s = SoftTimer true (found s);
  so_abs : aok (abs s);
  so_srp : srp_ok s;
  so_port : (sink_port s < ports)%nat;
}.
Record milan_ok (c : entity) : Prop := {
  mo_sinks : ∀ i s, sinks c !! i = Some s → sink_ok (port_max c) s;
  mo_inflight : inflight_ok c;
  mo_ports : (length (interfaces c) ≤ port_max c)%nat;
}.

(** ** The table and the invariant *)

Lemma sm_step_found l a : a_found (sm_step l a) = a_found a ∨ a_found (sm_step l a) = false.
Proof. destruct a as [st f x t], l, st; cbn; auto; destruct (same_talker _ _); auto. Qed.
Lemma sm_step_to_rsv l a :
  l ≠ LRegistered → a_state (sm_step l a) = ACMP_LISTENER_SINK_SM_STATE_SETTLED_RSV_OK →
  a_state a = ACMP_LISTENER_SINK_SM_STATE_SETTLED_RSV_OK.
Proof.
  intros Hl H. destruct a as [st f x t], l, st; cbn in *; try done.
  all: try (destruct f; discriminate H).
  all: try (destruct (same_talker _ _); discriminate H).
Qed.
Lemma sm_step_from_rsv l a :
  a_state a = ACMP_LISTENER_SINK_SM_STATE_SETTLED_RSV_OK →
  a_state (sm_step l a) = ACMP_LISTENER_SINK_SM_STATE_SETTLED_RSV_OK ∨ settled (a_state (sm_step l a)) = false.
Proof.
  intros E. destruct a as [st f x t]. cbn in E. subst st. destruct l; cbn; auto; try (destruct (same_talker _ _); cbn; auto).
  destruct f; auto.
Qed.

Lemma srp_ok_sm l s s' : sm_rel l s s' → l ≠ Some LRegistered → srp_ok s → srp_ok s'.
Proof.
  intros R Hl [S1 S2].
  assert (Hst : state s' = a_state (opt_step l (abs s))) by (rewrite <- (sr_abs _ _ _ R); done).
  split.
  - rewrite (sr_srp _ _ _ R), S1. destruct l as [l|]; cbn in Hst.
    + assert (Hne : l ≠ LRegistered) by congruence. pose proof (sm_step_to_rsv l (abs s) Hne) as H1.
      pose proof (sm_step_from_rsv l (abs s)) as H2. rewrite <- Hst in H1, H2. cbn in H1, H2.
      destruct (state s), (state s'); try done; try (specialize (H1 eq_refl); discriminate H1).
      all: destruct (H2 eq_refl) as [H3|H3]; discriminate H3.
    + rewrite Hst. by destruct (state s).
  - intros Hs. rewrite (sr_status _ _ _ R), Hs. destruct (settled (state s)) eqn:E; [done|]. by apply S2.
Qed.

(** Every step but those of discovery, which the ADP machine completes, and of
    registration. *)
Definition acmp_label (l : option alabel) : Prop :=
  match l with Some (LDiscovered | LDeparted | LRegistered | LUnregistered) => False | _ => True end.
Definition opt_list (l : option alabel) : list alabel := match l with Some l => [l] | None => [] end.
Lemma acmp_label_step l a : acmp_label l → opt_step l a = asteps a (opt_list l).
Proof. destruct l as [[]|]; done. Qed.

Lemma sink_port_eq s s' : avb_interface_index s' = avb_interface_index s → sink_port s' = sink_port s.
Proof. unfold sink_port. by intros ->. Qed.

(** A sink whose timer [k] may have expired. *)
Record sink_pre (k : option sink_timer) (ports : nat) (s : stream_input) : Prop := {
  sq_timers : timers_at k s;
  sq_disc : adp_discovery_timer s = SoftTimer true (found s);
  sq_abs : aok (abs s);
  sq_srp : srp_ok s;
  sq_port : (sink_port s < ports)%nat;
}.
Lemma sink_ok_pre n s : sink_ok n s → sink_pre None n s.
Proof. by intros []. Qed.

Lemma sink_ok_sm k n l s s' : sink_pre k n s → sm_rel l s s' → acmp_label l → sink_ok n s'.
Proof.
  intros [Q1 Q2 Q3 Q4 Q5] R Hl. pose proof R as [R1 R2 R3 R4 R5 R6 R7]. split.
  - done.
  - rewrite R3, Q2. destruct (eqb (found s) (found s')) eqn:E.
    + apply eqb_prop in E. by rewrite E.
    + apply eqb_false_iff in E. unfold soft_stop. cbn. f_equal.
      assert (Hf : found s' = a_found (opt_step l (abs s))) by by rewrite <- R1.
      destruct l as [l|]; [|by destruct E].
      destruct (sm_step_found l (abs s)) as [H|H]; cbn in Hf; rewrite H in Hf; [|by rewrite Hf].
      by destruct E.
  - rewrite R1, acmp_label_step by done. by apply aok_steps.
  - apply (srp_ok_sm l s); [done| |done]. by destruct l as [[]|].
  - by rewrite (sink_port_eq s).
Qed.

Section events.
Context `{!Platform milan_call}.
Implicit Types (w : world milan_call entity) (c : entity) (s : stream_input) (o : list output).

Lemma sm_pre_intro i ev pdu rsp s c :
  random_positive → (i < length (sinks c))%nat → inflight_ok c → sink_pre (event_timer ev) (port_max c) s → args_ok ev pdu rsp →
  sm_pre i ev pdu rsp s c.
Proof.
  intros Hr Hi Hc [Q1 Q2 Q3 Q4 Q5] Hg. split; try done.
  - intros H. by apply (ao_stream _ Q3).
  - intros _ H. by apply (ao_away _ Q3).
Qed.

(** What a handler makes of sink [i]. *)
Record h_post (i : nat) (s : stream_input) (c : entity) (L : list alabel) (s' : stream_input) (c' : entity) : Prop := {
  hp_sink : sink_ok (port_max c) s';
  hp_abs : abs s' = asteps (abs s) L;
  hp_inflight : inflight_ok c';
  hp_rest : same_rest c c';
}.

(** The streams that are connected and disconnected. *)
Definition stream_changes (i : nat) (a a' : asink) : list (bool * nat * Z) :=
  match settled (a_state a), settled (a_state a') with
  | true, false => [(false, i, (a_stream a).1.1)]
  | false, true => [(true, i, (a_stream a').1.1)]
  | _, _ => []
  end.
End events.
