(* ===== verification/MilanLive.v ===== *)
(** * AVDECC: probes in flight

    While the platform has memory and the network plays by the rules, the
    sinks that wait for the answer to a probe and the commands in flight match
    one to one. *)

From S2P Require Import Prelude MaapAddr Timer Milan MilanSm MilanListener MilanSpec MilanTable MilanRefine MilanEvents.

Definition entry_sink (x : inflight_ctx) : nat := Z.to_nat (ntohs (p_listener_unique_id (i_pdu x))).
Definition in_use (c : entity) (e : nat) (x : inflight_ctx) : Prop := e ∈ inflight c ∧ inflight_storage c !! e = Some x.

(** The entry [x] is the probe that sink [i] waits for. *)
Record matches (i : nat) (s : stream_input) (x : inflight_ctx) : Prop := {
  ma_sink : entry_sink x = i;
  ma_seq : i_sequence_id x = probe_tx_seq_id s;
  ma_retried : retried x = bool_decide (state s = ACMP_LISTENER_SINK_SM_STATE_PRB_W_RESP2);
  ma_port : i_port_id x = sink_port s;
  ma_talker : pdu_talker (i_pdu x) = talker_of s;
}.
Record live_core (c : entity) : Prop := {
  lc_entry : ∀ e x, in_use c e x → ∃ i s, sinks c !! i = Some s ∧ probing (state s) = true ∧ matches i s x;
  lc_sink : ∀ i s, sinks c !! i = Some s → probing (state s) = true → ∃ e x, in_use c e x ∧ entry_sink x = i;
  lc_seq : ∀ e f x y, in_use c e x → in_use c f y → i_sequence_id x = i_sequence_id y → e = f;
  lc_few : (length (sinks c) < length (inflight_storage c))%nat ∧ Z.of_nat (length (sinks c)) ≤ 65536;
}.
(** The next sequence number is not in use. *)
Definition fresh (c : entity) : Prop := ∀ e x, in_use c e x → i_sequence_id x ≠ sequence_id c.

Lemma in_use_fun c e x y : in_use c e x → in_use c e y → x = y.
Proof. intros [_ H1] [_ H2]. congruence. Qed.

(** ** There is always a free entry *)

Lemma live_free c : live_core c → inflight_ok c → free_inflight c ≠ [].
Proof.
  intros [L1 L2 L3 [L4 _]] [I1 I2 I3 I4] Hf. rewrite Hf, app_nil_r in I1, I2.
  set (f := λ e, match inflight_storage c !! e with Some x => entry_sink x | None => 0%nat end).
  assert (Hin : ∀ e, e ∈ inflight c → ∃ x, in_use c e x ∧ f e = entry_sink x).
  { intros e He. destruct (lookup_lt_is_Some_2 (inflight_storage c) e) as [x Hx]; [by apply I2|].
    exists x. split; [done|]. unfold f. by rewrite Hx. }
  assert (Hnd : NoDup (f <$> inflight c)).
  { apply NoDup_fmap_2_strong; [|done]. intros e g He Hg Heq.
    destruct (Hin e He) as (x & Hx & Ex), (Hin g Hg) as (y & Hy & Ey).
    destruct (L1 e x Hx) as (i & s & Hs & _ & M1), (L1 g y Hy) as (j & t & Ht & _ & M2).
    apply (L3 e g x y Hx Hy). rewrite (ma_seq _ _ _ M1), (ma_seq _ _ _ M2).
    rewrite Ex, Ey, (ma_sink _ _ _ M1), (ma_sink _ _ _ M2) in Heq. congruence. }
  assert (H1 : (length (f <$> inflight c) ≤ length (seq 0 (length (sinks c))))%nat).
  { apply submseteq_length, NoDup_submseteq; [done|]. intros i (e & -> & He)%list_elem_of_fmap.
    destruct (Hin e He) as (x & Hx & ->). destruct (L1 e x Hx) as (i & s & Hs & _ & M1). rewrite (ma_sink _ _ _ M1).
    apply elem_of_seq. apply lookup_lt_Some in Hs. lia. }
  assert (H2 : (length (seq 0 (length (inflight_storage c))) ≤ length (inflight c))%nat).
  { apply submseteq_length, NoDup_submseteq; [apply NoDup_seq|]. intros e He%elem_of_seq. apply I2. lia. }
  rewrite length_fmap, length_seq in H1. rewrite length_seq in H2. lia.
Qed.

(** ** Effects on the commands in flight *)

Definition new_entry (c : entity) (p : nat) (d : acmp_pdu) (x : inflight_ctx) : inflight_ctx :=
  ((inflight_save ACMP_PROBE_TX_COMMAND (sequence_id c) (sequence_id c) p d x) <| timeout_ms := TIMEOUT_MS |>)
    <| timeout ::= soft_start (u32 TIMEOUT_MS) |>.

Lemma start_in_use c p d e fr x0 :
  inflight_ok c → free_inflight c = e :: fr → inflight_storage c !! e = Some x0 →
  ∀ f y, in_use (start_inflight p d c) f y ↔ in_use c f y ∨ (f = e ∧ y = new_entry c p d x0).
Proof.
  intros [I1 I2 I3 I4] Hfr Hx0 f y.
  assert (He : e ∉ inflight c).
  { intros H. rewrite Hfr in I1. apply list.NoDup_app in I1 as (_ & N2 & _). apply (N2 e H). by left. }
  assert (Hin : inflight (start_inflight p d c) = e :: inflight c).
  { unfold start_inflight. rewrite Hfr. unfold use_entry, del_entry. cbn. by rewrite list_remove_notin. }
  unfold in_use. rewrite Hin. unfold start_inflight. rewrite Hfr.
  change (inflight_storage ((use_entry e p d c) <| sequence_id ::= λ n, u16 (n + 1) |>))
    with (inflight_storage (use_entry e p d c)).
  rewrite use_entry_storage, elem_of_cons. case_decide as D.
  - subst f. rewrite Hx0. cbn. split; [intros [_ [= <-]]; by right|]. intros [[? _]|[_ ->]]; [done|]. split; [by left|done].
  - split; [intros [[->|?] ?]; [done|by left]|]. intros [[??]|[-> _]]; [|done]. split; [by right|done].
Qed.

Lemma cancel_in_use c q f y :
  inflight_ok c → in_use (cancel_inflight q c) f y ↔ in_use c f y ∧ find_inflight c q ≠ Some f.
Proof.
  intros _. unfold cancel_inflight. destruct (find_inflight c q) as [e|]; [|naive_solver].
  unfold in_use, cancel_entry, del_entry, stop_entry. cbn. rewrite elem_of_list_remove, list_lookup_alter.
  case_decide as D; [subst f; naive_solver|]. naive_solver.
Qed.

(** With distinct sequence numbers, the entry that is found is the one. *)
Lemma find_in_use c q e : find_inflight c q = Some e → ∃ x, in_use c e x ∧ i_sequence_id x = q.
Proof.
  intros [H1 H2]%find_some_in. unfold has_sequence in H2. destruct (inflight_storage c !! e) as [x|] eqn:E; [|done].
  exists x. split; [done|]. apply Z.eqb_eq in H2. done.
Qed.
Lemma find_unique c e x :
  (∀ e f x y, in_use c e x → in_use c f y → i_sequence_id x = i_sequence_id y → e = f) →
  in_use c e x → find_inflight c (i_sequence_id x) = Some e.
Proof.
  intros Hu Hx. destruct (find_inflight c (i_sequence_id x)) as [f|] eqn:E.
  - destruct (find_in_use _ _ _ E) as (y & Hy & Hs). f_equal. by apply (Hu f e y x).
  - destruct Hx as [H1 H2]. unfold find_inflight in E. apply (List.find_none _ _) with (x := e) in E; [|by apply list_elem_of_In].
    unfold has_sequence in E. rewrite H2 in E. by apply Z.eqb_neq in E.
Qed.

(** ** The sinks change one at a time *)

(** What the commands in flight see of a sink. *)
Definition key (s : stream_input) := (state s, probe_tx_seq_id s, sink_port s, talker_of s).
Lemma matches_key i s s' x : key s' = key s → matches i s x → matches i s' x.
Proof. unfold key. intros [= E1 E2 E3 E4 E5] []. split; [done|by rewrite E2|by rewrite E1|by rewrite E3|]. unfold talker_of. by rewrite E4, E5. Qed.

Lemma live_key i s s' c : (i < length (sinks c))%nat → key s' = key s → live_core (put i s c) → live_core (put i s' c).
Proof.
  intros Hi Hk [L1 L2 L3 L4]. assert (Hst : state s' = state s) by (by injection Hk). split.
  - intros e x Hx. destruct (L1 e x Hx) as (j & t & Ht & Hp & M). exists j. destruct (decide (i = j)) as [<-|Hne].
    + rewrite put_lookup in Ht by done. injection Ht as <-. exists s'. rewrite put_lookup by done. rewrite Hst.
      split; [done|]. split; [done|]. by eapply matches_key.
    + rewrite put_lookup_ne in Ht by done. exists t. by rewrite put_lookup_ne.
  - intros j t. destruct (decide (i = j)) as [<-|Hne].
    + rewrite put_lookup by done. intros [= <-] Hp. apply (L2 i s); [by apply put_lookup|by rewrite <- Hst].
    + rewrite put_lookup_ne by done. intros Ht. apply (L2 j t). by rewrite put_lookup_ne.
  - exact L3.
  - by rewrite put_length in *.
Qed.

(** The entries of the other sinks stay; sink [i] has the entry [n], if any. *)
Lemma live_update i s s' c c' (n : option (nat * inflight_ctx)) :
  (i < length (sinks c))%nat → live_core (put i s c) → same_rest c c' →
  length (inflight_storage c') = length (inflight_storage c) →
  (∀ f y, in_use c' f y ↔ (in_use c f y ∧ entry_sink y ≠ i) ∨ n = Some (f, y)) →
  match n with
  | Some (e, x) => probing (state s') = true ∧ matches i s' x ∧
      ∀ f y, in_use c f y → entry_sink y ≠ i → i_sequence_id y ≠ i_sequence_id x ∧ f ≠ e
  | None => probing (state s') = false
  end → live_core (put i s' c').
Proof.
  intros Hi [L1 L2 L3 L4] [_ Hsinks] Hlen Hu Hn.
  assert (Hi' : (i < length (sinks c'))%nat) by by rewrite Hsinks.
  split.
  - intros f y Hy. apply Hu in Hy as [[Hy Hne]|En].
    + destruct (L1 f y Hy) as (j & t & Ht & Hp & M). assert (j ≠ i) by (by rewrite <- (ma_sink _ _ _ M)).
      exists j, t. rewrite put_lookup_ne, Hsinks by done. rewrite put_lookup_ne in Ht by done. done.
    + rewrite En in Hn. destruct Hn as (H1 & H2 & _). exists i, s'. by rewrite put_lookup.
  - intros j t. destruct (decide (i = j)) as [<-|Hne].
    + rewrite put_lookup by done. intros [= <-] Hp. destruct n as [[e x]|]; [|congruence]. destruct Hn as (_ & M & _).
      exists e, x. split; [|apply M]. apply Hu. by right.
    + rewrite put_lookup_ne, Hsinks by done. intros Ht Hp. destruct (L2 j t) as (e & x & Hx & Ex); [by rewrite put_lookup_ne|done|].
      exists e, x. split; [|done]. apply Hu. left. split; [done|]. congruence.
  - intros e f x y Hx Hy Heq. apply Hu in Hx as [[Hx Nx]|Nx], Hy as [[Hy Ny]|Ny].
    + by apply (L3 e f x y).
    + rewrite Ny in Hn. destruct Hn as (_ & _ & H). by destruct (H e x Hx Nx).
    + rewrite Nx in Hn. destruct Hn as (_ & _ & H). by destruct (H f y Hy Ny).
    + congruence.
  - destruct L4 as [A B]. rewrite put_length in A, B. split; rewrite put_length, Hsinks; [|done].
    change (inflight_storage (put i s' c')) with (inflight_storage c'). by rewrite Hlen.
Qed.

(** ** One event of the ACMP machine *)

Record sink_live (s : stream_input) : Prop := {
  sl_probing : probing_status s = probing_of (state s);
  sl_talker : bound (state s) = false → talker_of s = (0, 0);
}.

(** The peers: a bind command names a talker, a response answers the probe of
    the sink that it names, and a sequence number is not used again while its
    command is in flight. *)
Record peers_ok (c : entity) (i : nat) (ev : acmp_milan_listener_sink_sm_event_t) (pdu : option acmp_pdu) : Prop := {
  pe_fresh : ev = ACMP_LISTENER_SINK_SM_EVENT_RCV_BIND_RX_CMD ∨ ev = ACMP_LISTENER_SINK_SM_EVENT_TMR_DELAY → fresh c;
  pe_bind : ev = ACMP_LISTENER_SINK_SM_EVENT_RCV_BIND_RX_CMD → ∀ d, pdu = Some d → same_talker (0, 0) (pdu_talker d) = false;
  pe_answer : ev = ACMP_LISTENER_SINK_SM_EVENT_RCV_PROBE_TX_RESP → ∀ d e x, pdu = Some d →
    find_inflight c (ntohs (p_sequence_id d)) = Some e → in_use c e x → entry_sink x = i;
}.

Lemma start_length p d c : length (inflight_storage (start_inflight p d c)) = length (inflight_storage c).
Proof. unfold start_inflight, use_entry, del_entry. destruct (free_inflight c); cbn; by rewrite ?length_alter. Qed.
Lemma cancel_length q c : length (inflight_storage (cancel_inflight q c)) = length (inflight_storage c).
Proof. unfold cancel_inflight, cancel_entry, del_entry, stop_entry. destruct (find_inflight c q); cbn; by rewrite ?length_alter. Qed.

(** In the state [put i s c] a sink that does not wait has no entry, one that
    waits has one. *)
Lemma entry_matches i s c e x : (i < length (sinks c))%nat → live_core (put i s c) → in_use c e x → entry_sink x = i →
  probing (state s) = true ∧ matches i s x.
Proof.
  intros Hi L Hx Ex. destruct (lc_entry _ L e x Hx) as (j & t & Ht & Hp & M).
  assert (j = i) as -> by (by rewrite <- (ma_sink _ _ _ M)). rewrite put_lookup in Ht by done. by injection Ht as <-.
Qed.
Lemma idle_no_entry i s c e x : (i < length (sinks c))%nat → live_core (put i s c) → probing (state s) = false → in_use c e x → entry_sink x ≠ i.
Proof. intros Hi L Hp Hx Ex. destruct (entry_matches i s c e x Hi L Hx Ex) as [H _]. congruence. Qed.
Lemma wait_entry i s c : (i < length (sinks c))%nat → live_core (put i s c) → probing (state s) = true →
  ∃ e x, in_use c e x ∧ matches i s x ∧ ∀ f y, in_use c f y → (entry_sink y = i ↔ f = e).
Proof.
  intros Hi L Hp. destruct (lc_sink _ L i s) as (e & x & Hx & Ex); [by apply put_lookup|done|].
  destruct (entry_matches i s c e x Hi L Hx Ex) as [_ M]. exists e, x. split; [done|]. split; [done|].
  intros f y Hy. split.
  - intros Ey. destruct (entry_matches i s c f y Hi L Hy Ey) as [_ N].
    apply (lc_seq _ L f e y x Hy Hx). by rewrite (ma_seq _ _ _ M), (ma_seq _ _ _ N).
  - intros ->. by rewrite (in_use_fun c e y x Hy Hx).
Qed.

(** The four ways in which the machine changes the commands in flight. *)
Lemma live_idle i s s' c : (i < length (sinks c))%nat → live_core (put i s c) →
  probing (state s) = false → probing (state s') = false → live_core (put i s' c).
Proof.
  intros Hi L H1 H2. apply (live_update i s s' c c None); try done.
  intros f y. split; [|by intros [[??]|?]]. intros Hy. left. split; [done|]. by apply (idle_no_entry i s c f y).
Qed.

Lemma new_entry_matches i s' c d x0 :
  (i < length (sinks c))%nat → Z.of_nat (length (sinks c)) ≤ 65536 →
  state s' = ACMP_LISTENER_SINK_SM_STATE_PRB_W_RESP → probe_tx_seq_id s' = sequence_id c →
  d = probe_pdu c i s' → matches i s' (new_entry c (sink_port s') d x0).
Proof.
  intros Hi Hn Hst Hseq ->. split; try done.
  - unfold entry_sink, new_entry, probe_pdu, probe_tx_command, ntohs. cbn. rewrite htons_involutive by lia. lia.
  - by rewrite Hst.
Qed.

Lemma live_start i s s' c :
  (i < length (sinks c))%nat → inflight_ok c → live_core (put i s c) → fresh c →
  probing (state s) = false → state s' = ACMP_LISTENER_SINK_SM_STATE_PRB_W_RESP → probe_tx_seq_id s' = sequence_id c →
  live_core (put i s' (start_inflight (sink_port s') (probe_pdu c i s') c)).
Proof.
  intros Hi Ho L Hf Hp Hst Hseq. assert (Hn := lc_few _ L). rewrite put_length in Hn. destruct Hn as [Hn Hn2].
  assert (Ho' : inflight_ok (put i s c)) by (by destruct Ho).
  assert (Hfr := live_free _ L Ho'). change (free_inflight (put i s c)) with (free_inflight c) in Hfr.
  destruct (free_inflight c) as [|e fr] eqn:Efr; [done|].
  assert (He : (e < length (inflight_storage c))%nat) by (apply (io_all _ Ho); rewrite Efr; apply list.elem_of_app; right; by left).
  apply lookup_lt_is_Some_2 in He as [x0 Hx0]. set (d := probe_pdu c i s').
  assert (Hu := start_in_use c (sink_port s') d e fr x0 Ho Efr Hx0).
  apply (live_update i s s' c _ (Some (e, new_entry c (sink_port s') d x0))); [done|done| |by apply start_length| |].
  - apply same_rest_start, same_rest_refl.
  - intros f y. rewrite Hu. split.
    + intros [H|[-> ->]]; [left|by right]. split; [done|]. by apply (idle_no_entry i s c f y).
    + intros [[H _]|[= <- <-]]; [by left|by right].
  - split; [by rewrite Hst|]. split; [by apply new_entry_matches|]. intros f y Hy _. split; [by apply (Hf f y)|].
    intros ->. destruct Hy as [Hy _]. assert (Hnd := io_nodup _ Ho). rewrite Efr in Hnd. apply list.NoDup_app in Hnd as (_ & Hd & _).
    apply (Hd e Hy). by left.
Qed.

Lemma live_cancel i s s' c e x q :
  (i < length (sinks c))%nat → inflight_ok c → live_core (put i s c) → probing (state s) = true → probing (state s') = false →
  in_use c e x → entry_sink x = i → find_inflight c q = Some e → live_core (put i s' (cancel_inflight q c)).
Proof.
  intros Hi Ho L Hp Hp' Hx Ex Hq. destruct (wait_entry i s c Hi L Hp) as (e' & x' & Hx' & _ & Hu).
  apply (live_update i s s' c _ None); [done|done| |by apply cancel_length| |done].
  - apply same_rest_cancel, same_rest_refl.
  - intros f y. rewrite (cancel_in_use c q f y Ho), Hq. split.
    + intros [Hy Hne]. left. split; [done|]. intros Ey. apply Hne. f_equal.
      apply (Hu f y Hy) in Ey. apply (Hu e x Hx) in Ex. congruence.
    + intros [[Hy Hne]|]; [|done]. split; [done|]. intros [= <-]. by rewrite (in_use_fun c e y x Hy Hx) in Hne.
Qed.
Lemma wait_find i s c : (i < length (sinks c))%nat → live_core (put i s c) → probing (state s) = true →
  ∃ e x, in_use c e x ∧ entry_sink x = i ∧ find_inflight c (probe_tx_seq_id s) = Some e.
Proof.
  intros Hi L Hp. destruct (wait_entry i s c Hi L Hp) as (e & x & Hx & M & _). exists e, x. split; [done|]. split; [apply M|].
  rewrite <- (ma_seq _ _ _ M). apply find_unique; [|done]. exact (lc_seq _ L).
Qed.

Lemma live_restart i s s' c :
  (i < length (sinks c))%nat → inflight_ok c → live_core (put i s c) → fresh c → (sink_port s' < port_max c)%nat →
  probing (state s) = true → state s' = ACMP_LISTENER_SINK_SM_STATE_PRB_W_RESP → probe_tx_seq_id s' = sequence_id c →
  live_core (put i s' (cancel_inflight (probe_tx_seq_id s) (start_inflight (sink_port s') (probe_pdu c i s') c))).
Proof.
  intros Hi Ho L Hf Hport Hp Hst Hseq. assert (Hn := lc_few _ L). rewrite put_length in Hn. destruct Hn as [Hn Hn2].
  assert (Ho' : inflight_ok (put i s c)) by (by destruct Ho).
  assert (Hfr := live_free _ L Ho'). change (free_inflight (put i s c)) with (free_inflight c) in Hfr.
  destruct (free_inflight c) as [|e fr] eqn:Efr; [done|].
  assert (He : (e < length (inflight_storage c))%nat) by (apply (io_all _ Ho); rewrite Efr; apply list.elem_of_app; right; by left).
  apply lookup_lt_is_Some_2 in He as [x0 Hx0]. set (d := probe_pdu c i s').
  assert (Hu := start_in_use c (sink_port s') d e fr x0 Ho Efr Hx0).
  assert (Hei : ∀ y, ¬ in_use c e y).
  { intros y [Hy _]. assert (Hnd := io_nodup _ Ho). rewrite Efr in Hnd. apply list.NoDup_app in Hnd as (_ & Hd & _). apply (Hd e Hy). by left. }
  destruct (wait_entry i s c Hi L Hp) as (g & x & Hx & M & Hg).
  assert (Hfind : find_inflight (start_inflight (sink_port s') d c) (probe_tx_seq_id s) = Some g).
  { rewrite <- (ma_seq _ _ _ M). apply find_unique; [|by apply Hu; left].
    intros f1 f2 y1 y2 [H1|[-> ->]]%Hu [H2|[-> ->]]%Hu; intros Hs.
    - by apply (lc_seq _ L f1 f2 y1 y2).
    - by destruct (Hf f1 y1 H1).
    - by destruct (Hf f2 y2 H2).
    - done. }
  apply (live_update i s s' c _ (Some (e, new_entry c (sink_port s') d x0))); [done|done| |by rewrite cancel_length, start_length| |].
  - apply same_rest_cancel, same_rest_start, same_rest_refl.
  - intros f y. rewrite (cancel_in_use _ _ f y (start_inflight_ok c _ d Ho Hport)), Hfind, Hu. split.
    + intros [[H|[-> ->]] Hne]; [left|by right]. split; [done|]. intros Ey. apply Hne. f_equal. symmetry. by apply (Hg f y H).
    + intros [[H Hne]|[= <- <-]].
      * split; [by left|]. intros [= <-]. apply Hne. by apply (Hg g y H).
      * split; [by right|]. intros [= ->]. by apply (Hei x).
  - split; [by rewrite Hst|]. split; [by apply new_entry_matches|]. intros f y Hy _. split; [by apply (Hf f y)|]. intros ->. by apply (Hei y).
Qed.

(** What an event makes of the sink, as the commands in flight see it. *)
Inductive live_effect (c : entity) (i : nat) (s s' : stream_input) : entity → Prop :=
| LiveSame : key s' = key s → live_effect c i s s' c
| LiveIdle : probing (state s) = false → probing (state s') = false → live_effect c i s s' c
| LiveStart : fresh c → probing (state s) = false → state s' = ACMP_LISTENER_SINK_SM_STATE_PRB_W_RESP →
    probe_tx_seq_id s' = sequence_id c → live_effect c i s s' (start_inflight (sink_port s') (probe_pdu c i s') c)
| LiveRestart : fresh c → probing (state s) = true → state s' = ACMP_LISTENER_SINK_SM_STATE_PRB_W_RESP →
    probe_tx_seq_id s' = sequence_id c →
    live_effect c i s s' (cancel_inflight (probe_tx_seq_id s) (start_inflight (sink_port s') (probe_pdu c i s') c))
| LiveStop : probing (state s) = true → probing (state s') = false →
    live_effect c i s s' (cancel_inflight (probe_tx_seq_id s) c)
| LiveAnswer e x q : probing (state s) = true → probing (state s') = false → in_use c e x → entry_sink x = i →
    find_inflight c q = Some e → live_effect c i s s' (cancel_inflight q c).

Lemma live_effect_ok c i s s' c' :
  (i < length (sinks c))%nat → inflight_ok c → (sink_port s' < port_max c)%nat → live_effect c i s s' c' →
  live_core (put i s c) → live_core (put i s' c').
Proof.
  intros Hi Ho Hp H L. destruct H as [Hk|H1 H2|Hf H1 H2 H3|Hf H1 H2 H3|H1 H2|e x q H1 H2 H3 H4 H5].
  - by eapply live_key.
  - by eapply live_idle.
  - by eapply live_start.
  - by eapply live_restart.
  - destruct (wait_find i s c Hi L H1) as (e & x & Hx & Ex & Hf). by eapply live_cancel.
  - by eapply live_cancel.
Qed.

Lemma key_same s s' : abs s' = abs s → probe_tx_seq_id s' = probe_tx_seq_id s → sink_port s' = sink_port s → key s' = key s.
Proof.
  intros Ha H1 H2. assert (E1 : a_state (abs s') = a_state (abs s)) by by rewrite Ha.
  assert (E2 : a_talker (abs s') = a_talker (abs s)) by by rewrite Ha. cbn in E1, E2. unfold key. by rewrite E1, E2, H1, H2.
Qed.

Section live_sm.
Context `{!Platform milan_call}.
#[local] Arguments put : simpl never.
#[local] Arguments same_talker : simpl never.
#[local] Arguments talker_of : simpl never.
#[local] Arguments bind_refused : simpl never.
#[local] Arguments find_inflight : simpl never.

Lemma sm_live_effect i ev pdu rsp status l s s' c c' out :
  peers_ok c i ev pdu → ev ≠ ACMP_LISTENER_SINK_SM_EVENT_TMR_NO_RESP →
  (ev = ACMP_LISTENER_SINK_SM_EVENT_RCV_BIND_RX_CMD → bound (state s) = false → talker_of s = (0, 0)) →
  sm_rel l s s' → sm_full c i s ev pdu rsp status l s' c' out → live_effect c i s s' c'.
Proof.
  intros [P1 P2 P3] Hev Ht [R1 _ _ _ _ R6 _] [F1 -> F3 _ _ _ _].
  assert (Hport : sink_port s' = sink_port s) by by apply sink_port_eq.
  assert (Hst : state s' = a_state (opt_step l (abs s))) by by rewrite <- R1.
  unfold sm_entity. rewrite <- Hport. clear R6.
  assert (Hsame : opt_step l (abs s) = abs s → probes l (abs s) = false → cancels l s pdu = None →
    live_effect c i s s' (opt_cancel (cancels l s pdu)
      (if probes l (abs s) then start_inflight (sink_port s') (probe_pdu c i s') c else c))).
  { intros E1 E2 ->. rewrite E2 in *. apply LiveSame, key_same; [by rewrite R1|done..]. }
  subst l. destruct ev; try done; cbn in *.
  - by apply Hsame.
  - destruct (state s) eqn:E; try (by apply Hsame).
    all: apply LiveIdle; rewrite ?E, ?Hst; try done. unfold again, to_state. cbn. by destruct (found s).
  - destruct (state s) eqn:E; try (by apply Hsame). apply LiveStart; auto. by rewrite E.
  - destruct (state s) eqn:E; try (by apply Hsame).
    all: apply LiveIdle; rewrite ?E, ?Hst; try done. unfold again, to_state. cbn. by destruct (found s).
  - destruct pdu as [d|]; [|by apply Hsame]. destruct (bind_refused (put i s c) i d); [by apply Hsame|]. cbn in *.
    destruct (same_talker (talker_of s) (pdu_talker d)) eqn:E.
    + destruct (bound (state s)) eqn:Eb; [|rewrite Ht in E by done; by rewrite (P2 eq_refl d eq_refl) in E].
      cbn in *. rewrite andb_false_r in *. apply LiveSame, key_same; [by rewrite R1|done..].
    + rewrite andb_false_r in Hst. cbn in *. rewrite andb_true_r. destruct (probing (state s)) eqn:Ep; cbn.
      * apply LiveRestart; auto.
      * apply LiveStart; auto.
  - destruct pdu as [d|]; [|by apply Hsame]. destruct (probing (state s)) eqn:Ep; [|by apply Hsame].
    change (find_inflight (put i s c)) with (find_inflight c) in *.
    destruct (find_inflight c (ntohs (p_sequence_id d))) as [e|] eqn:Ef; [|by apply Hsame].
    assert (Hx : ∃ x, in_use c e x) by (apply find_in_use in Ef as (x & Hx & _); eauto). destruct Hx as [x Hx].
    assert (Hidle : probing (state s') = false) by (rewrite Hst; clear -Ep; destruct (_ =? _); cbn; by destruct (state s)).
    assert (Hc : cancels (Some (if status =? ACMP_STAT_SUCCESS then LProbeOk (pdu_stream d) else LProbeFailed)) s (Some d) =
      Some (ntohs (p_sequence_id d))) by by destruct (_ =? _).
    assert (Hn : probes (Some (if status =? ACMP_STAT_SUCCESS then LProbeOk (pdu_stream d) else LProbeFailed)) (abs s) = false)
      by by destruct (_ =? _).
    rewrite Hc, Hn. cbn. apply (LiveAnswer c i s s' e x); try done. by apply (P3 eq_refl d e x).
  - by apply Hsame.
  - destruct (probing (state s)) eqn:Ep; cbn.
    + apply LiveStop; [done|by rewrite Hst].
    + apply LiveIdle; [done|by rewrite Hst].
  - destruct (state s) eqn:E; try (by apply Hsame). apply LiveIdle; by rewrite ?E, ?Hst.
  - destruct (state s) eqn:E; cbn; try (by apply Hsame). 
    + apply LiveIdle; by rewrite ?E, ?Hst.
    + apply LiveStop; by rewrite ?E, ?Hst.
    + apply LiveStop; by rewrite ?E, ?Hst.
    + apply LiveIdle; by rewrite ?E, ?Hst.
  - destruct (state s) eqn:E; try (by apply Hsame). apply LiveIdle; by rewrite ?E, ?Hst.
  - destruct (state s) eqn:E; try (by apply Hsame).
    apply LiveIdle; rewrite ?E, ?Hst; try done. unfold again, to_state. cbn. by destruct (found s).
  - destruct (state s) eqn:E.
    1: apply LiveIdle; by rewrite ?E, ?Hst.
    all: apply Hsame; unfold abs; by rewrite ?E.
Qed.

Lemma sm_sink_live i ev pdu rsp status l s s' c c' out :
  peers_ok c i ev pdu → probing_status s = probing_of (state s) →
  (ev ≠ ACMP_LISTENER_SINK_SM_EVENT_SAVED_BINDING_PARAMS → bound (state s) = false → talker_of s = (0, 0)) →
  sm_rel l s s' → sm_full c i s ev pdu rsp status l s' c' out → sink_live s'.
Proof.
  intros [_ P2 _] Hp Ht R F. split.
  - apply (sf_probing _ _ _ _ _ _ _ _ _ _ _ F); [|done]. intros t Hl Hb. rewrite (sf_label _ _ _ _ _ _ _ _ _ _ _ F) in Hl.
    unfold sm_label in Hl. destruct ev; try done; repeat case_match; try done. injection Hl as <-.
    rewrite Ht by done. by apply P2.
  - intros Hb. assert (Ha := sr_abs _ _ _ R). rewrite (sf_label _ _ _ _ _ _ _ _ _ _ _ F) in Ha.
    assert (Ha1 : state s' = a_state (abs s')) by done. assert (Ha2 : talker_of s' = a_talker (abs s')) by done.
    rewrite Ha2. rewrite Ha1, Ha in Hb. rewrite Ha. clear Ha Ha1 Ha2 F R.
    assert (Hu : sm_label (put i s c) i s ev pdu status = Some (LSaved (talker_of s)) ∨
      (bound (state s) = false → talker_of s = (0, 0))).
    { destruct ev; try (right; by apply Ht). by left. }
    destruct Hu as [Hu|Hu]; [rewrite Hu in *; cbn in *; by destruct (state s)|].
    assert (Hl : ∀ t, sm_label (put i s c) i s ev pdu status ≠ Some (LBindLost t)).
    { intros t. unfold sm_label. by repeat case_match. }
    destruct (sm_label _ _ _ _ _ _) as [l0|]; [|by apply Hu]. revert Hb Hu Hl.
    change (state s) with (a_state (abs s)). change (talker_of s) with (a_talker (abs s)).
    generalize (abs s). clear. intros [st f x u]. cbn.
    destruct l0, st; cbn; intros ?? Hl; try (by destruct (Hl t)); repeat case_match; cbn in *; try done; auto.
Qed.
End live_sm.
