(* ===== verification/MilanHandlers.v ===== *)
(** * AVDECC: what each handler of a Milan listener does

    Every handler of MilanSm.v and MilanListener.v that concerns one sink,
    with the steps of the table that it makes, the streams that it connects or
    disconnects, and the commands in flight. *)

From S2P Require Import Prelude MaapAddr Timer Milan MilanSm MilanListener MilanSpec MilanTable MilanRefine MilanEvents MilanLive.

Definition live_at (i : nat) (s : stream_input) (c : entity) : Prop := live_core (put i s c) ∧ sink_live s.

Section handlers.
Context `{!Platform milan_call}.
Implicit Types (w : world milan_call entity) (c : entity) (s : stream_input) (o : list output).

(** The effect of a handler on sink [i]: steps of the table, which are [Lh]
    when the platform has memory; then sinks and commands in flight go on
    matching when [P] holds of the peers, and the output satisfies [A]. *)
Definition i_post (i : nat) (s : stream_input) (c : entity) (o : list output) (Lh : list alabel) (P : Prop)
    (A : list output → Prop) (w' : world milan_call entity) : Prop :=
  ∃ L s' c' out, at_world (put i s' c') (out ++ o) w' ∧ h_post i s c L s' c' ∧
    (healthy → L = Lh ∧ streams out = stream_changes i (abs s) (abs s') ∧ (P → live_at i s c → live_at i s' c') ∧ A out).
Definition silent (out : list output) : Prop := answers out = [].
(** One probe command is sent, on the port [p] and to the talker [t]. *)
Definition probed (p : nat) (t : Z * Z) (out : list output) : Prop :=
  ∃ d, commands out = [(p, AcmpMsg ACMP_PROBE_TX_COMMAND ACMP_STAT_SUCCESS d)] ∧ pdu_talker d = t.
Definition sends (l : option alabel) (s : stream_input) (out : list output) : Prop :=
  probes l (abs s) = true → probed (sink_port s) (a_talker (opt_step l (abs s))) out.

Lemma i_post_out i s c o out Lh P (A : list output → Prop) w :
  sink_ok (port_max c) s → inflight_ok c → streams out = [] → (healthy → Lh = [] ∧ A out) → at_world (put i s c) (out ++ o) w →
  i_post i s c o Lh P A w.
Proof.
  intros Hs Hc Ho HA Hw. exists [], s, c, out. split; [done|]. split; [by split|]. intros Hh. destruct (HA Hh) as [-> Ha].
  split; [done|]. split; [|done]. rewrite Ho. unfold stream_changes. by destruct (settled _).
Qed.

(** An event of the ACMP machine that is not one of discovery or registration. *)
Definition plain (ev : acmp_milan_listener_sink_sm_event_t) : Prop :=
  match ev with
  | ACMP_LISTENER_SINK_SM_EVENT_EVT_TK_DISCOVERED | ACMP_LISTENER_SINK_SM_EVENT_EVT_TK_DEPARTED
  | ACMP_LISTENER_SINK_SM_EVENT_EVT_TK_REGISTERED | ACMP_LISTENER_SINK_SM_EVENT_EVT_TK_UNREGISTERED
  | ACMP_LISTENER_SINK_SM_EVENT_TMR_NO_RESP => False
  | _ => True
  end.

Lemma sm_streams c i s ev pdu rsp status l s' c' out :
  sm_full c i s ev pdu rsp status l s' c' out → streams out = stream_changes i (abs s) (abs s').
Proof. intros F. rewrite (sf_streams _ _ _ _ _ _ _ _ _ _ _ F). done. Qed.

Lemma plain_label c i s ev pdu status l :
  plain ev → l = sm_label c i s ev pdu status ∨ ev = ACMP_LISTENER_SINK_SM_EVENT_RCV_BIND_RX_CMD ∧ (∃ t, l = Some (LBindLost t)) → acmp_label l.
Proof. intros Hp [->|[_ [t ->]]]; [|done]. unfold sm_label. destruct ev; try done; repeat case_match; done. Qed.

Lemma sm_run_post i ev pdu rsp status s c o w :
  random_positive → (i < length (sinks c))%nat → inflight_ok c → sink_pre (event_timer ev) (port_max c) s → args_ok ev pdu rsp →
  plain ev → ev ≠ ACMP_LISTENER_SINK_SM_EVENT_SAVED_BINDING_PARAMS → at_world (put i s c) o w →
  wp (sink_sm_run i ev pdu rsp status)
    (λ _, i_post i s c o (opt_list (sm_label (put i s c) i s ev pdu status)) (peers_ok c i ev pdu)
      (λ out, match rsp with
       | Some (p, d) => ∃ m, answers out = [(p, m)] ∧ m_type m = acmp_milan_listener_get_msg_type ev + 1 ∧
           p_sequence_id (m_pdu m) = p_sequence_id d ∧ p_listener_unique_id (m_pdu m) = p_listener_unique_id d ∧
           p_controller_entity_id (m_pdu m) = p_controller_entity_id d
       | None => silent out
       end ∧ sends (sm_label (put i s c) i s ev pdu status) s out)) w.
Proof.
  intros Hr Hi Hc Hs Hg Hp Hsv Hw. wp_apply sink_sm_run_spec; [by apply sm_pre_intro|done|].
  intros _ w' (l & s' & c' & out & Hw' & R & Hc' & Hrest & Hl & HF). exists (opt_list l), s', c', out.
  assert (Ha := plain_label _ _ _ _ _ _ _ Hp Hl).
  split; [done|]. split; [split; [by eapply sink_ok_sm| |done..]|].
  - rewrite (sr_abs _ _ _ R). by apply acmp_label_step.
  - intros Hh. specialize (HF Hh). split; [by rewrite (sf_label _ _ _ _ _ _ _ _ _ _ _ HF)|]. split; [by eapply sm_streams|].
    split; [|split; [apply HF|]].
    2:{ unfold sends. rewrite <- (sf_label _ _ _ _ _ _ _ _ _ _ _ HF). intros Hpr. exists (probe_pdu c i s').
        rewrite (sf_commands _ _ _ _ _ _ _ _ _ _ _ HF), Hpr. split; [done|]. by rewrite <- (sr_abs _ _ _ R). }
    intros HP [L [S1 S2]]. split.
    + apply (live_effect_ok c i s s' c'); try done.
      * rewrite (sink_port_eq s s' (sr_port _ _ _ R)). apply Hs.
      * eapply sm_live_effect; try done. by intros ->.
    + by eapply sm_sink_live.
Qed.

Lemma plain_event_post i ev s c o w :
  is_listener_command (acmp_milan_listener_get_msg_type ev) = false → args_ok ev None None →
  random_positive → (i < length (sinks c))%nat → inflight_ok c → sink_pre (event_timer ev) (port_max c) s →
  plain ev → ev ≠ ACMP_LISTENER_SINK_SM_EVENT_SAVED_BINDING_PARAMS → at_world (put i s c) o w →
  wp (acmp_milan_listener_sink_event i ev)
    (λ _, i_post i s c o (opt_list (sm_label (put i s c) i s ev None 0)) (peers_ok c i ev None)
      (λ out, silent out ∧ sends (sm_label (put i s c) i s ev None 0) s out)) w.
Proof.
  intros Hev Hg Hr Hi Hc Hs Hp Hsv Hw. unfold acmp_milan_listener_sink_event, acmp_milan_listener_sink_sm. rewrite Hev.
  apply wp_bind. eapply at_gets; [done|]. unfold acmp_listener_unique_valid. rewrite put_length.
  rewrite (proj2 (Nat.ltb_lt _ _) Hi). by apply sm_run_post.
Qed.

(** ** ACMP frames *)

(** Frames for listeners, and those that reach the machine of their sink. *)
Definition listener_frame (t : Z) : bool :=
  (t =? ACMP_PROBE_TX_RESPONSE) || (t =? ACMP_DISCONNECT_TX_RESPONSE) || (t =? ACMP_BIND_RX_COMMAND) ||
  (t =? ACMP_UNBIND_RX_COMMAND) || (t =? ACMP_GET_RX_STATE_COMMAND).
Definition acmp_sink (m : acmp_msg) : nat := Z.to_nat (ntohs (p_listener_unique_id (m_pdu m))).
Definition acmp_accepted (c : entity) (p : nat) (m : acmp_msg) : bool :=
  listener_frame (m_type m) && (p_listener_entity_id (m_pdu m) =? entity_id c) && avdecc_entity_port_valid c p.
Definition acmp_denied (c : entity) (m : acmp_msg) : bool :=
  is_listener_binding_command (m_type m) && avdecc_entity_is_locked c (p_controller_entity_id (m_pdu m)).
Definition acmp_label_of (c : entity) (p : nat) (m : acmp_msg) (s : stream_input) : option alabel :=
  if acmp_accepted c p m && negb (acmp_denied c m)
  then sm_label c (acmp_sink m) s (acmp_milan_listener_get_event (m_type m)) (Some (m_pdu m)) (m_status m) else None.

(** What is known of the type of a frame from its event. *)
Lemma event_type t :
  listener_frame t = true →
  (t = ACMP_BIND_RX_COMMAND ∨ t = ACMP_GET_RX_STATE_COMMAND ∨ t = ACMP_UNBIND_RX_COMMAND) ∨
  t = ACMP_PROBE_TX_RESPONSE ∨ t = ACMP_DISCONNECT_TX_RESPONSE.
Proof.
  unfold listener_frame. rewrite !orb_true_iff, !Z.eqb_eq. tauto.
Qed.

(** A response is prepared from the command. *)
Definition response_to (pdu : acmp_pdu) : acmp_pdu :=
  AcmpPdu 0 (p_controller_entity_id pdu) (p_talker_entity_id pdu) (p_listener_entity_id pdu) (p_talker_unique_id pdu)
    (p_listener_unique_id pdu) (replicate 6 0) 0 (p_sequence_id pdu) 0 0.
Lemma net_tx_init_spec p pdu c o Q w :
  at_world c o w → (¬ healthy → ∀ w', at_world c o w' → Q None w') → (∀ w', at_world c o w' → Q (Some (response_to pdu)) w') →
  wp (acmp_net_tx_init p pdu true) Q w.
Proof.
  intros Hw HN HS. unfold acmp_net_tx_init. apply wp_bind. eapply net_tx_alloc_spec; [done| |].
  - intros Hh w1 Hw1. by apply wp_ret, HN.
  - intros w1 Hw1. apply wp_ret. by apply HS.
Qed.
Lemma send_rsp_spec p d t st c o Q w :
  at_world c o w → (∀ w', at_world c (Sent p (AcmpMsg t st d) :: o) w' → Q 0 w') → wp (acmp_send_rsp p d t st) Q w.
Proof. apply send_packet_spec. Qed.

(** The answer to a command: one frame, on the port of the command, of the
    type that answers it and with its sequence number. *)
Definition answered (p : nat) (m : acmp_msg) (out : list output) : Prop :=
  ∃ r, answers out = [(p, r)] ∧ m_type r = m_type m + 1 ∧ p_sequence_id (m_pdu r) = p_sequence_id (m_pdu m) ∧
    p_listener_unique_id (m_pdu r) = p_listener_unique_id (m_pdu m) ∧
    p_controller_entity_id (m_pdu r) = p_controller_entity_id (m_pdu m).
Definition replies (p : nat) (m : acmp_msg) (out : list output) : Prop :=
  if is_listener_command (m_type m) then answered p m out else answers out = [].

(** The machine of the sink that a frame names. *)
Definition rcv_post (c : entity) (o : list output) (p : nat) (m : acmp_msg) (w' : world milan_call entity) : Prop :=
  let i := acmp_sink m in let ev := acmp_milan_listener_get_event (m_type m) in
  match sinks c !! i with
  | Some s => i_post i s c o
      (opt_list (if acmp_denied c m then None else sm_label c i s ev (Some (m_pdu m)) (m_status m)))
      (peers_ok c i ev (Some (m_pdu m))) (replies p m) w'
  | None => ∃ out, at_world c (out ++ o) w' ∧ (healthy → streams out = [] ∧ replies p m out)
  end.

Lemma acmp_rcv_spec p m c o w :
  random_positive → milan_ok c → listener_frame (m_type m) = true → avdecc_entity_port_valid c p = true → at_world c o w →
  wp (acmp_milan_listener_rcv (m_pdu m) (m_type m) (m_status m) p) (λ _, rcv_post c o p m) w.
Proof.
  intros Hr [Ms Mi Mp] Ht Hv Hw. unfold acmp_milan_listener_rcv. fold (acmp_sink m). set (i := acmp_sink m).
  set (ev := acmp_milan_listener_get_event (m_type m)).
  assert (Hport : (p < port_max c)%nat) by (apply Nat.ltb_lt in Hv; lia).
  unfold rcv_post. fold i. fold ev. unfold acmp_milan_listener_sink_sm. destruct (event_type _ Ht) as [Hcmd|Hrsp].
  - assert (Hty : acmp_milan_listener_get_msg_type ev = m_type m) by (unfold ev; by destruct Hcmd as [->|[->| ->]]).
    assert (Hc : is_listener_command (m_type m) = true) by by destruct Hcmd as [->|[->| ->]].
    assert (Hev : ∀ rsp, is_Some rsp → args_ok ev (Some (m_pdu m)) rsp ∧ event_timer ev = None ∧ plain ev ∧
      ev ≠ ACMP_LISTENER_SINK_SM_EVENT_SAVED_BINDING_PARAMS).
    { intros rsp Hrs. unfold ev. destruct Hcmd as [->|[->| ->]]; split_and!; try done; cbn; eauto. }
    rewrite Hty, Hc. apply wp_bind, wp_ret, wp_bind. eapply get_port_spec; [done..|]. apply wp_bind.
    eapply net_tx_init_spec; [done| |].
    + intros Hn w1 Hw1. apply wp_ret. destruct (sinks c !! i) as [s|] eqn:Es.
      * rewrite <- (put_id i s c Es) in Hw1. by apply (i_post_out i s c o []); eauto.
      * exists []. by split.
    + intros w1 Hw1. apply wp_bind. eapply at_gets; [done|]. unfold acmp_listener_unique_valid.
      assert (Hone : ∀ st, replies p m [Sent p (AcmpMsg (m_type m + 1) st (response_to (m_pdu m)))]).
      { intros st. unfold replies. rewrite Hc. exists (AcmpMsg (m_type m + 1) st (response_to (m_pdu m))).
        split; [|by split_and!]. unfold answers. cbn. by destruct Hcmd as [->|[->| ->]]. }
      destruct (sinks c !! i) as [s|] eqn:Es.
      * assert (Hi := lookup_lt_Some _ _ _ Es). rewrite (proj2 (Nat.ltb_lt _ _) Hi). cbn [negb].
        rewrite <- (put_id i s c Es) in Hw1. fold (acmp_denied c m). destruct (acmp_denied c m).
        -- apply wp_bind. eapply send_rsp_spec; [done|]. intros w2 Hw2. apply wp_ret.
           eapply (i_post_out i s c o [Sent p (AcmpMsg (m_type m + 1) ACMP_STAT_CONTROLLER_NOT_AUTHORIZED (response_to (m_pdu m)))]);
             eauto; done.
        -- destruct (Hev (Some (p, response_to (m_pdu m)))) as (G1 & G2 & G3 & G4); [done|].
           eapply wp_mono; [apply (sm_run_post i ev (Some (m_pdu m)) _ (m_status m) s c o); try done|].
           { rewrite G2. apply sink_ok_pre. eauto. }
           rewrite (put_id i s c Es). intros _ w2 (L & s' & c' & out & H1 & H2 & H3). exists L, s', c', out.
           split; [done|]. split; [done|]. intros Hh. destruct (H3 Hh) as (E1 & E2 & E3 & E4). do 3 (split; [done|]).
           unfold replies. rewrite Hc. destruct E4 as [(r & R1 & R2 & R3 & R4 & R5) _]. exists r. by rewrite R2, Hty.
      * assert (Hi : ¬ (i < length (sinks c))%nat) by (apply lookup_ge_None in Es; lia).
        rewrite (proj2 (Nat.ltb_nlt _ _) Hi). cbn [negb]. eapply send_rsp_spec; [done|]. intros w2 Hw2. by exists [Sent p
          (AcmpMsg (m_type m + 1) ACMP_STAT_LISTENER_UNKNOWN_ID (response_to (m_pdu m)))].
  - assert (Hty : is_listener_command (acmp_milan_listener_get_msg_type ev) = false) by (unfold ev; by destruct Hrsp as [->| ->]).
    assert (Hc : is_listener_command (m_type m) = false) by by destruct Hrsp as [->| ->].
    assert (Hev : args_ok ev (Some (m_pdu m)) None ∧ event_timer ev = None ∧ plain ev ∧
      ev ≠ ACMP_LISTENER_SINK_SM_EVENT_SAVED_BINDING_PARAMS).
    { unfold ev. destruct Hrsp as [->| ->]; split_and!; try done; cbn; eauto. }
    assert (Hd : acmp_denied c m = false).
    { unfold acmp_denied. by destruct Hrsp as [->| ->]. }
    destruct Hev as (G1 & G2 & G3 & G4). rewrite Hty. apply wp_bind. eapply at_gets; [done|]. unfold acmp_listener_unique_valid, replies.
    rewrite Hc, Hd. destruct (sinks c !! i) as [s|] eqn:Es.
    + assert (Hi := lookup_lt_Some _ _ _ Es). rewrite (proj2 (Nat.ltb_lt _ _) Hi). cbn [negb].
      rewrite <- (put_id i s c Es) in Hw. eapply wp_mono; [apply (sm_run_post i ev (Some (m_pdu m)) None (m_status m) s c o); try done|].
      { rewrite G2. apply sink_ok_pre. eauto. }
      rewrite (put_id i s c Es). intros _ w2 (L & s' & c' & out & H1 & H2 & H3). exists L, s', c', out.
      split; [done|]. split; [done|]. intros Hh. destruct (H3 Hh) as (E1 & E2 & E3 & [E4 _]). done.
    + assert (Hi : ¬ (i < length (sinks c))%nat) by (apply lookup_ge_None in Es; lia).
      rewrite (proj2 (Nat.ltb_nlt _ _) Hi). apply wp_ret. by exists [].
Qed.
(** ** Timeouts *)

(** The first timeout of a probe, and the second. *)
Definition timed_out (s : stream_input) : stream_input :=
  match state s with
  | ACMP_LISTENER_SINK_SM_STATE_PRB_W_RESP => s <| state := ACMP_LISTENER_SINK_SM_STATE_PRB_W_RESP2 |>
  | ACMP_LISTENER_SINK_SM_STATE_PRB_W_RESP2 =>
      notify ((on_timer TMR_RETRY (soft_start 1) s) <| acmp_status := ACMP_STAT_LISTENER_TALKER_TIMEOUT |>
        <| state := ACMP_LISTENER_SINK_SM_STATE_PRB_W_RETRY |>)
  | _ => s
  end.
Lemma set_state_same s st : state s = st → s <| state := st |> = s.
Proof. intros <-. unfold over, over_field. by destruct s. Qed.

Lemma no_resp_spec i s c o Q w :
  at_world (put i s c) o w → (i < length (sinks c))%nat →
  (∀ r w', at_world (put i (timed_out s) c) o w' → Q r w') →
  wp (acmp_milan_listener_sink_event i ACMP_LISTENER_SINK_SM_EVENT_TMR_NO_RESP) Q w.
Proof.
  intros Hw Hi HQ. unfold acmp_milan_listener_sink_event, acmp_milan_listener_sink_sm.
  change (is_listener_command (acmp_milan_listener_get_msg_type ACMP_LISTENER_SINK_SM_EVENT_TMR_NO_RESP)) with false. cbn match.
  apply wp_bind. eapply at_gets; [done|]. unfold acmp_listener_unique_valid. rewrite put_length.
  rewrite (proj2 (Nat.ltb_lt _ _) Hi). cbn [negb]. unfold sink_sm_run. apply wp_bind. eapply get_sink_spec; [done..|].
  unfold timed_out in HQ. destruct (state s) eqn:E; cbn [sink_sm_state]; apply wp_bind.
  all: try (apply wp_ret; unfold sink_sm_finish; cbn match; apply wp_bind; eapply set_sink_spec; [done|];
    intros w1 Hw1; apply wp_bind, wp_ret, wp_ret, HQ; by rewrite set_state_same in Hw1).
  - apply wp_ret. unfold sink_sm_finish. apply wp_bind. eapply set_sink_spec; [done|]. intros w1 Hw1. by apply wp_bind, wp_ret, wp_ret, HQ.
  - cbn. apply wp_bind. eapply sink_timer_start_spec; [done..|]. intros w1 Hw1. apply wp_bind. eapply set_sink_spec; [done|].
    intros w2 Hw2. apply wp_ret. unfold sink_sm_finish. apply wp_bind. eapply set_sink_spec; [done|]. intros w3 Hw3.
    apply wp_bind, wp_when. eapply register_notification_spec; [done..|]. intros w4 Hw4. by apply wp_ret, HQ.
Qed.
Lemma no_sink_spec i ev c o Q w :
  at_world c o w → sinks c !! i = None → is_listener_command (acmp_milan_listener_get_msg_type ev) = false →
  (∀ r w', at_world c o w' → Q r w') → wp (acmp_milan_listener_sink_event i ev) Q w.
Proof.
  intros Hw Hi Hev HQ. unfold acmp_milan_listener_sink_event, acmp_milan_listener_sink_sm. rewrite Hev.
  apply wp_bind. eapply at_gets; [done|]. unfold acmp_listener_unique_valid. apply lookup_ge_None in Hi.
  rewrite (proj2 (Nat.ltb_nlt _ _)) by lia. by apply wp_ret, HQ.
Qed.

Lemma timed_out_rel s : timers_ok s → (settled (state s) = false → stream_of s = no_stream) → sm_rel (Some LNoResp) s (timed_out s).
Proof.
  intros [T1 T2 T3 T4] Hs. unfold timed_out. destruct (state s) eqn:E; rewrite ?E in *.
  all: split; cbn; try rewrite eqb_reflx; rewrite ?E; try done; try (split; cbn; rewrite ?E, ?T1, ?T2, ?T3, ?notify_timer_created; done).
  all: unfold abs, to_state; cbn; rewrite ?E; try done.
  all: f_equal; apply (Hs eq_refl).
Qed.
(** The entry [e] is [x]. *)
Definition put_entry (e : nat) (x : inflight_ctx) (c : entity) : entity := c <| inflight_storage ::= <[e := x]> |>.
Lemma put_entry_alter e f x c : (put_entry e x c) <| inflight_storage ::= alter f e |> = put_entry e (f x) c.
Proof. unfold put_entry, over, over_field. cbn. f_equal. apply alter_insert_same. Qed.
Lemma put_entry_id e x c : inflight_storage c !! e = Some x → put_entry e x c = c.
Proof. intros H. unfold put_entry, over, over_field. destruct c. cbn in *. f_equal. by apply list_insert_id. Qed.
Lemma put_entry_swap i s e x c : put i s (put_entry e x c) = put_entry e x (put i s c).
Proof. done. Qed.

Lemma get_entry_spec e x c o Q w :
  at_world (put_entry e x c) o w → (e < length (inflight_storage c))%nat → Q x w → wp (get_entry e) Q w.
Proof.
  intros Hw He HQ. unfold get_entry. apply wp_bind. eapply at_gets; [done|]. apply wp_deref. exists x. split; [|done].
  unfold put_entry. cbn. by apply list_lookup_insert_eq.
Qed.
Lemma set_entry_spec e f x c o Q w :
  at_world (put_entry e x c) o w → (∀ w', at_world (put_entry e (f x) c) o w' → Q tt w') → wp (set_entry e f) Q w.
Proof. intros Hw HQ. eapply at_modify; [done|]. intros w'. rewrite put_entry_alter. apply HQ. Qed.
Lemma entry_start_spec e ms x c o Q w :
  at_world (put_entry e x c) o w →
  (∀ w', at_world (put_entry e (x <| timeout ::= soft_start (u32 ms) |>) c) o w' → Q tt w') → wp (inflight_timer_start e ms) Q w.
Proof.
  intros Hw HQ. unfold inflight_timer_start. apply wp_bind. eapply at_quiet; [done..|]. intros _ w1 Hw1.
  by eapply set_entry_spec.
Qed.
Lemma entry_restart_spec e x c o Q w :
  at_world (put_entry e x c) o w → (e < length (inflight_storage c))%nat → timeout_ms x = TIMEOUT_MS → st_created (timeout x) = true →
  (∀ w', at_world (put_entry e (x <| timeout := SoftTimer true true |>) c) o w' → Q tt w') → wp (avdecc_inflight_restart e) Q w.
Proof.
  intros Hw He Hms Ht HQ. unfold avdecc_inflight_restart. apply wp_bind. eapply get_entry_spec; [done..|].
  apply wp_bind. eapply set_entry_spec; [done|]. intros w1 Hw1. eapply entry_start_spec; [done|]. intros w2 Hw2. apply HQ.
  assert (E : soft_start (u32 (timeout_ms x)) (soft_stop (timeout x)) = SoftTimer true true).
  { rewrite Hms. destruct (timeout x) as [b r]. cbn in Ht. by subst b. }
  revert Hw2. unfold over, over_field. cbn. by rewrite E.
Qed.

Lemma put_entry_ok e x y c :
  inflight_ok c → inflight_storage c !! e = Some x → timeout y = timeout x → timeout_ms y = timeout_ms x →
  i_msg_type y = i_msg_type x → i_port_id y = i_port_id x → inflight_ok (put_entry e y c).
Proof.
  intros [I1 I2 I3 I4] Hx E1 E2 E3 E4. split; cbn; try done.
  - intros f. rewrite I2. unfold put_entry. cbn. by rewrite length_insert.
  - intros f z. unfold put_entry. cbn. destruct (decide (f = e)) as [->|Hne].
    + rewrite list_lookup_insert_eq by (by apply lookup_lt_Some in Hx). intros [= <-]. rewrite E1. by apply I3.
    + rewrite list_lookup_insert_ne by done. apply I3.
  - intros f z Hf. unfold put_entry. cbn. destruct (decide (f = e)) as [->|Hne].
    + rewrite list_lookup_insert_eq by (by apply lookup_lt_Some in Hx). intros [= <-]. rewrite E2, E3, E4. by apply (I4 e x).
    + rewrite list_lookup_insert_ne by done. by apply (I4 f z).
Qed.

Definition timed_out_at (i : nat) (c : entity) : entity := c <| sinks ::= alter timed_out i |>.
Lemma no_resp_at i c o Q w :
  at_world c o w → (∀ r w', at_world (timed_out_at i c) o w' → Q r w') →
  wp (acmp_milan_listener_sink_event i ACMP_LISTENER_SINK_SM_EVENT_TMR_NO_RESP) Q w.
Proof.
  intros Hw HQ. unfold timed_out_at in HQ. destruct (sinks c !! i) as [s|] eqn:Es.
  - assert (Hi := lookup_lt_Some _ _ _ Es). rewrite <- (put_id i s c Es) in Hw, HQ. rewrite put_alter in HQ.
    by eapply no_resp_spec.
  - eapply no_sink_spec; [done..|]. intros r w' Hw'. apply HQ. unfold over, over_field. rewrite (alter_none timed_out) by done.
    by destruct c.
Qed.

Lemma inflight_timeout_spec e x c o Q w :
  at_world (put_entry e x c) o w → (e < length (inflight_storage c))%nat → (i_port_id x < port_max c)%nat →
  i_msg_type x = ACMP_PROBE_TX_COMMAND →
  let c1 := timed_out_at (entry_sink x) c in
  (retried x = true → ∀ w', at_world (put_entry e x c1) o w' → Q AVDECC_INFLIGHT_TIMER_STOP w') →
  (retried x = false → ∀ (b : bool) out w', at_world (put_entry e (x <| retried := b |>) c1) (out ++ o) w' →
     (healthy → b = true ∧ out = [Sent (i_port_id x) (AcmpMsg ACMP_PROBE_TX_COMMAND ACMP_STAT_SUCCESS (i_pdu x))]) →
     Q AVDECC_INFLIGHT_TIMER_RESTART w') →
  wp (acmp_inflight_timeout e) Q w.
Proof.
  intros Hw He Hp Hty c1 HS HR. unfold acmp_inflight_timeout. apply wp_bind. eapply get_entry_spec; [done..|].
  fold (entry_sink x). destruct (retried x) eqn:Er.
  - apply wp_bind. rewrite Hty. cbn match. apply wp_bind. eapply no_resp_at; [done|]. intros r w1 Hw1. by apply wp_ret, wp_ret, HS.
  - apply wp_bind. eapply no_resp_at; [done|]. intros r w1 Hw1. apply wp_bind. change (timed_out_at (entry_sink x) (put_entry e x c))
      with (put_entry e x c1) in Hw1. eapply get_entry_spec; [done..|]. apply wp_bind. eapply get_port_spec; [done..|].
    apply wp_bind. eapply at_quiet; [done..|]. intros n w2 Hw2. destruct (_ =? 0) eqn:E.
    + apply wp_ret. apply (HR eq_refl false []).
      * replace (x <| retried := false |>) with x; [done|]. unfold over, over_field. destruct x. cbn in *. by subst.
      * intros (H & _). exfalso. apply (H n (i_port_id x)). by apply Z.eqb_eq.
    + apply wp_bind. eapply set_entry_spec; [done|]. intros w3 Hw3. apply wp_bind. unfold acmp_send_cmd. cbn match. rewrite Hty.
      eapply send_packet_spec; [done|]. intros w4 Hw4. apply wp_ret.
      by apply (HR eq_refl true [Sent (i_port_id x) (AcmpMsg ACMP_PROBE_TX_COMMAND ACMP_STAT_SUCCESS (i_pdu x))]).
Qed.

(** What the expiry of the timer of entry [e] makes of the entity: a command
    is sent again once, then it is dropped. *)
Definition expiry_effect (e : nat) (c c' : entity) : Prop :=
  match inflight_storage c !! e with
  | Some x =>
      if decide (e ∈ inflight c) then
        let c1 := timed_out_at (entry_sink x) c in
        if retried x then c' = cancel_entry e c1
        else ∃ b : bool, (healthy → b = true) ∧ c' = put_entry e (x <| retried := b |>) c1
      else c' = c
  | None => c' = c
  end.
Lemma stop_stopped e x (l : list inflight_ctx) :
  l !! e = Some x →
  alter (λ x, x <| timeout ::= soft_stop |>) e (<[e := x <| timeout ::= soft_stop |>]> l) = alter (λ x, x <| timeout ::= soft_stop |>) e l.
Proof.
  intros Hx. rewrite alter_insert_same. apply list_eq. intros f. rewrite list_lookup_alter. case_decide as D.
  - subst f. rewrite list_lookup_insert_eq by (by apply lookup_lt_Some in Hx). by rewrite Hx.
  - by rewrite list_lookup_insert_ne.
Qed.

Lemma inflight_expiry_spec e c o w :
  milan_ok c → at_world c o w →
  wp (inflight_timer_expiry e)
    (λ _ w', ∃ c' out, at_world c' (out ++ o) w' ∧ expiry_effect e c c' ∧ (healthy → streams out = [] ∧ silent out)) w.
Proof.
  intros [_ Mi _] Hw. unfold inflight_timer_expiry, expiry_effect. apply wp_bind. eapply at_gets; [done|].
  destruct (inflight_storage c !! e) as [x|] eqn:Hx; [|by exists c, []].
  assert (Ht := io_timer _ Mi e x Hx). rewrite Ht. cbn. apply wp_when. case_decide as D.
  2:{ rewrite bool_decide_false by done. by exists c, []. }
  rewrite bool_decide_true by done. assert (He := lookup_lt_Some _ _ _ Hx). destruct (io_entry _ Mi e x D Hx) as (E1 & E2 & E3).
  rewrite <- (put_entry_id e x c Hx) in Hw. apply wp_bind. eapply set_entry_spec; [done|]. intros w1 Hw1.
  unfold avdecc_inflight_timeout. apply wp_bind. eapply inflight_timeout_spec; [done..| |].
  - change (retried (x <| timeout ::= soft_stop |>)) with (retried x). intros Hret w2 Hw2. rewrite Hret. cbn match.
    apply wp_bind. eapply inflight_del_spec; [done|by apply list.elem_of_app; left|]. intros w3 Hw3.
    apply wp_bind. eapply at_modify; [done|]. intros w4 Hw4. eapply stop_entry_spec; [done|]. intros w5 Hw5.
    exists (cancel_entry e (timed_out_at (entry_sink x) c)), []. split; [|by intros].
    revert Hw5. unfold cancel_entry, stop_entry, del_entry, timed_out_at, put_entry, over, over_field. cbn.
    by rewrite (stop_stopped e x).
  - intros Hret b out w2 Hw2 Hb. change (retried (x <| timeout ::= soft_stop |>)) with (retried x) in Hret. rewrite Hret.
    change (AVDECC_INFLIGHT_TIMER_RESTART =? AVDECC_INFLIGHT_TIMER_STOP) with false. cbn match. apply wp_when. cbn match.
    eapply entry_restart_spec; [done..|by cbn; rewrite Ht|]. intros w3 Hw3. eexists _, out. split; [exact Hw3|]. split.
    + exists b. split; [intros Hh; by destruct (Hb Hh)|]. unfold put_entry, over, over_field. cbn. by rewrite Ht, bool_decide_true.
    + intros Hh. destruct (Hb Hh) as [_ ->]. done.
Qed.

Lemma put_entry_in_use e x y c f z :
  e ∈ inflight c → inflight_storage c !! e = Some x → in_use (put_entry e y c) f z ↔ (in_use c f z ∧ f ≠ e) ∨ (f = e ∧ z = y).
Proof.
  intros He Hx. unfold in_use, put_entry. cbn. destruct (decide (f = e)) as [->|Hne].
  - rewrite list_lookup_insert_eq by (by apply lookup_lt_Some in Hx). split.
    + intros [_ [= <-]]. by right.
    + intros [[_ ?]|[_ ->]]; done.
  - rewrite list_lookup_insert_ne by done. naive_solver.
Qed.
Lemma timed_out_at_put i s c : (i < length (sinks c))%nat → timed_out_at i (put i s c) = put i (timed_out s) c.
Proof. intros. unfold timed_out_at. apply put_alter. Qed.

Lemma timed_out_key s :
  sink_port (timed_out s) = sink_port s ∧ probe_tx_seq_id (timed_out s) = probe_tx_seq_id s ∧ talker_of (timed_out s) = talker_of s ∧
  state (timed_out s) = a_state (sm_step LNoResp (abs s)).
Proof. unfold timed_out. by destruct (state s) eqn:E; cbn; rewrite E. Qed.
Lemma timed_out_live s : sink_live s → sink_live (timed_out s).
Proof. intros [H1 H2]. unfold timed_out. destruct (state s) eqn:E; split; cbn; rewrite ?E in *; done. Qed.

(** The timeout of a probe and the sink that waits for it. *)
Lemma live_timeout e x i s c :
  inflight_ok c → live_core c → in_use c e x → sinks c !! i = Some s → entry_sink x = i →
  live_core (if retried x then put i (timed_out s) (cancel_entry e c)
             else put_entry e (x <| retried := true |>) (put i (timed_out s) c)).
Proof.
  intros Ho L Hx Hs Ex. assert (Hi := lookup_lt_Some _ _ _ Hs). rewrite <- (put_id i s c Hs) in L.
  destruct (entry_matches i s c e x Hi L Hx Ex) as [Hp M]. destruct (timed_out_key s) as (K1 & K2 & K3 & K4).
  rewrite (ma_retried _ _ _ M). case_bool_decide as D.
  - assert (Hf : find_inflight c (i_sequence_id x) = Some e) by (apply find_unique; [exact (lc_seq _ L)|done]).
    replace (cancel_entry e c) with (cancel_inflight (i_sequence_id x) c) by (unfold cancel_inflight; by rewrite Hf).
    apply (live_cancel i s (timed_out s) c e x); try done. rewrite K4. cbn. by rewrite D.
  - assert (E : state s = ACMP_LISTENER_SINK_SM_STATE_PRB_W_RESP) by (destruct (state s); done).
    change (put_entry e (x <| retried := true |>) (put i (timed_out s) c))
      with (put i (timed_out s) (put_entry e (x <| retried := true |>) c)).
    assert (K4' : state (timed_out s) = ACMP_LISTENER_SINK_SM_STATE_PRB_W_RESP2) by (rewrite K4; cbn; by rewrite E).
    destruct (wait_entry i s c Hi L Hp) as (e' & x' & Hx' & _ & Hu). assert (e' = e) as -> by (symmetry; by apply (Hu e x Hx)).
    destruct Hx as [He Hx].
    apply (live_update i s _ c _ (Some (e, x <| retried := true |>))); try done.
    + unfold put_entry. cbn. by rewrite length_insert.
    + intros f y. rewrite (put_entry_in_use e x) by done. split.
      * intros [[Hy Hne]|[-> ->]]; [left|by right]. split; [done|]. intros Ey. apply Hne. by apply (Hu f y Hy).
      * intros [[Hy Hne]|[= <- <-]]; [left|by right]. split; [done|]. intros ->. apply Hne. by apply (Hu e y Hy).
    + split; [by rewrite K4'|]. split.
      * destruct M as [M1 M2 M3 M4 M5]. split; cbn; rewrite ?K1, ?K2, ?K3; try done. by rewrite K4'.
      * intros f y Hy Hne. split; [|intros ->; apply Hne; by apply (Hu e y Hy)]. cbn. intros Heq. apply Hne, (Hu f y Hy).
        by apply (lc_seq _ L f e y x).
Qed.
End handlers.
