(* ===== verification/MilanInputs.v ===== *)
(** * AVDECC: timers, discovery, SRP and requests at a sink

    The handlers of a Milan listener other than ACMP frames and the timeout of
    commands, as steps of the table. *)

From S2P Require Import Prelude MaapAddr Timer Milan MilanSm MilanListener MilanSpec MilanTable MilanRefine MilanEvents MilanLive MilanHandlers.

Lemma sink_ext s t :
  avb_interface_index s = avb_interface_index t → talker_entity_id s = talker_entity_id t →
  controller_entity_id s = controller_entity_id t → stream_id s = stream_id t →
  talker_unique_id s = talker_unique_id t → flags s = flags t →
  stream_vlan_id s = stream_vlan_id t → stream_dest_mac s = stream_dest_mac t →
  diagnostic_counters s = diagnostic_counters t → state s = state t →
  acmp_retry_timer s = acmp_retry_timer t → acmp_delay_timer s = acmp_delay_timer t →
  acmp_talker_registration_timer s = acmp_talker_registration_timer t → talker_state s = talker_state t →
  adp_discovery_timer s = adp_discovery_timer t → srp_stream_status s = srp_stream_status t →
  srp_state s = srp_state t → msrp_accumulated_latency s = msrp_accumulated_latency t →
  failure s = failure t → async_unsolicited_notification_timer s = async_unsolicited_notification_timer t →
  probing_status s = probing_status t → acmp_status s = acmp_status t →
  probe_tx_seq_id s = probe_tx_seq_id t → interface_index s = interface_index t →
  available_index s = available_index t → s = t.
Proof. destruct s, t. cbn. by intros; subst. Qed.

(** The part of a sink that the ADP machine writes. *)
Definition set_adp (b : bool) (t : soft_timer) (ai ii : Z) (s : stream_input) : stream_input :=
  s <| talker_state := if b then ADP_LISTENER_SINK_TALKER_STATE_DISCOVERED else ADP_LISTENER_SINK_TALKER_STATE_NOT_DISCOVERED |>
    <| adp_discovery_timer := t |> <| available_index := ai |> <| interface_index := ii |>.
Lemma found_set b t ai ii s : found (set_adp b t ai ii s) = b.
Proof. unfold found, set_adp. cbn. by destruct b. Qed.
Lemma abs_set b t ai ii s : abs (set_adp b t ai ii s) = with_found b (abs s).
Proof. unfold abs. by rewrite found_set. Qed.
Lemma set_adp_id s : s = set_adp (found s) (adp_discovery_timer s) (available_index s) (interface_index s) s.
Proof. apply sink_ext; unfold set_adp, found; cbn; try reflexivity. by destruct (talker_state s). Qed.

Record sink_core (n : nat) (s : stream_input) : Prop := {
  sc_timers : timers_ok s;
  sc_srp : srp_ok s;
  sc_port : (sink_port s < n)%nat;
}.
Lemma sink_ok_set b ai ii n s : sink_core n s → aok (with_found b (abs s)) → sink_ok n (set_adp b (SoftTimer true b) ai ii s).
Proof.
  intros [[T1 T2 T3 T4] [S1 S2] Hp] Ha. split; [by split|by rewrite found_set|by rewrite abs_set|by split|done].
Qed.
Lemma sink_ok_core n s : sink_ok n s → sink_core n s.
Proof. intros []. by split. Qed.
Lemma sink_core_sm n l s s' : sink_core n s → sm_rel l s s' → l ≠ Some LRegistered → sink_core n s'.
Proof.
  intros [C1 C2 C3] R Hl. split; [apply R|by eapply srp_ok_sm|]. by rewrite (sink_port_eq s s' (sr_port _ _ _ R)).
Qed.

Section inputs.
Context `{!Platform milan_call}.
Implicit Types (w : world milan_call entity) (c : entity) (s : stream_input) (o : list output).

Definition ev_post (i : nat) (ev : acmp_milan_listener_sink_sm_event_t) s c o (w' : world milan_call entity) : Prop :=
  ∃ s' c' out, at_world (put i s' c') (out ++ o) w' ∧ sm_rel (sm_label (put i s c) i s ev None 0) s s' ∧ inflight_ok c' ∧
    same_rest c c' ∧
    (healthy → streams out = stream_changes i (abs s) (abs s') ∧ silent out ∧
      (peers_ok c i ev None → live_core (put i s c) → probing_status s = probing_of (state s) →
       (ev ≠ ACMP_LISTENER_SINK_SM_EVENT_SAVED_BINDING_PARAMS → bound (state s) = false → talker_of s = (0, 0)) →
       live_core (put i s' c') ∧ sink_live s')).

(** Events that come without a frame. *)
Definition internal (ev : acmp_milan_listener_sink_sm_event_t) : Prop :=
  match ev with
  | ACMP_LISTENER_SINK_SM_EVENT_TMR_NO_RESP | ACMP_LISTENER_SINK_SM_EVENT_RCV_BIND_RX_CMD
  | ACMP_LISTENER_SINK_SM_EVENT_RCV_PROBE_TX_RESP | ACMP_LISTENER_SINK_SM_EVENT_RCV_GET_RX_STATE
  | ACMP_LISTENER_SINK_SM_EVENT_RCV_UNBIND_RX_CMD => False
  | _ => True
  end.

Lemma internal_spec i ev s c o w :
  internal ev → sm_pre i ev None None s c → at_world (put i s c) o w →
  wp (acmp_milan_listener_sink_event i ev) (λ _, ev_post i ev s c o) w.
Proof.
  intros Hev Hpre Hw.
  wp_apply sink_event_spec; [by destruct ev|by intros ->|exact Hpre|exact Hw|].
  intros _ w' (l & s' & c' & out & Hw' & R & Hc' & Hrest & Hl & HF).
  assert (Hl' : l = sm_label (put i s c) i s ev None 0) by (destruct Hl as [?|[-> _]]; done).
  subst l. exists s', c', out. do 4 (split; [done|]). intros Hh. specialize (HF Hh). split; [by eapply sm_streams|].
  split; [apply (sf_answers _ _ _ _ _ _ _ _ _ _ _ HF)|]. intros HP L Hp Ht. split.
  - apply (live_effect_ok c i s s' c'); [apply Hpre|apply Hpre| | |done].
    + rewrite (sink_port_eq s s' (sr_port _ _ _ R)). apply Hpre.
    + eapply sm_live_effect; try done; [by intros ->|by intros ->].
  - by eapply sm_sink_live.
Qed.

(** A handler that prepares the sink before. *)
Lemma i_post_from i s s1 c o Lh P (A : list output → Prop) w :
  abs s1 = abs s → (P → live_at i s c → live_at i s1 c) → i_post i s1 c o Lh P A w → i_post i s c o Lh P A w.
Proof.
  intros Ha Hl (L & s' & c' & out & H1 & [H2 H3 H4 H5] & H6). exists L, s', c', out. split; [done|]. split.
  - split; try done. by rewrite H3, Ha.
  - intros Hh. destruct (H6 Hh) as (E1 & E2 & E3 & E4). split; [done|]. split; [by rewrite E2, Ha|]. auto.
Qed.
Lemma i_post_out_mono i s c o Lh P (A A' : list output → Prop) w :
  (∀ out, A out → A' out) → i_post i s c o Lh P A w → i_post i s c o Lh P A' w.
Proof.
  intros HA (L & s' & c' & out & H1 & H2 & H3). exists L, s', c', out. split; [done|]. split; [done|]. intros Hh.
  destruct (H3 Hh) as (F1 & F2 & F3 & F4). split_and!; auto.
Qed.
Lemma live_at_key i s s1 c : (i < length (sinks c))%nat → key s1 = key s → probing_status s1 = probing_status s → live_at i s c → live_at i s1 c.
Proof.
  intros Hi Hk Hp [L [S1 S2]]. assert (E1 : state s1 = state s) by by injection Hk.
  assert (E2 : talker_of s1 = talker_of s) by (unfold key in Hk; congruence).
  split; [by eapply live_key|]. split; [by rewrite Hp, E1|]. by rewrite E1, E2.
Qed.

(** ** Timers of the ACMP machine *)

Definition acmp_timer_event (k : sink_timer) : option acmp_milan_listener_sink_sm_event_t :=
  match k with
  | TMR_RETRY => Some ACMP_LISTENER_SINK_SM_EVENT_TMR_RETRY
  | TMR_DELAY => Some ACMP_LISTENER_SINK_SM_EVENT_TMR_DELAY
  | TMR_NO_TK => Some ACMP_LISTENER_SINK_SM_EVENT_TMR_NO_TK
  | _ => None
  end.
Definition timer_label (k : sink_timer) : list alabel :=
  match k with
  | TMR_RETRY => [LRetry] | TMR_DELAY => [LDelay] | TMR_NO_TK => [LNoTk] | TMR_NO_ADP => [LDeparted] | TMR_NOTIFICATION => []
  end.

Lemma stopped_pre k n s : sink_ok n s → acmp_timer_event k ≠ None → sink_pre (Some k) n (on_timer k soft_stop s).
Proof.
  intros [[T1 T2 T3 T4] S2 S3 [S4 S5] S6] Hk. split; try (destruct k; done).
  destruct k; try done; split; cbn; rewrite ?T1, ?T2, ?T3; unfold soft_stop; cbn; rewrite ?andb_false_r; try done.
Qed.

(** The expiry of the delay sends the probe. *)
Definition timer_out (k : sink_timer) s (out : list output) : Prop :=
  silent out ∧ (k = TMR_DELAY → state s = ACMP_LISTENER_SINK_SM_STATE_PRB_W_DELAY → probed (sink_port s) (talker_of s) out).
Lemma acmp_timer_spec i k ev s c o w :
  acmp_timer_event k = Some ev → random_positive → (i < length (sinks c))%nat → inflight_ok c → sink_ok (port_max c) s →
  at_world (put i s c) o w →
  wp (timer_stop i k;; let! _ := acmp_milan_listener_sink_event i ev in ret tt)
    (λ _, i_post i s c o (timer_label k) (peers_ok c i ev None) (timer_out k s)) w.
Proof.
  intros Hk Hr Hi Hc Hs Hw. apply wp_bind. eapply sink_timer_stop_spec; [done|]. intros w1 Hw1.
  assert (Hpre : sink_pre (Some k) (port_max c) (on_timer k soft_stop s)) by (apply stopped_pre; [done|by rewrite Hk]).
  assert (Hev : event_timer ev = Some k ∧ plain ev ∧ ev ≠ ACMP_LISTENER_SINK_SM_EVENT_SAVED_BINDING_PARAMS ∧
    is_listener_command (acmp_milan_listener_get_msg_type ev) = false ∧ args_ok ev None None).
  { destruct k; try done; injection Hk as <-; by split_and!. }
  destruct Hev as (E1 & E2 & E3 & E4 & E5). apply wp_bind.
  eapply wp_mono; [apply (plain_event_post i ev (on_timer k soft_stop s) c o); try done; by rewrite E1|].
  intros r w2 Hp. apply wp_ret. apply i_post_from with (s1 := on_timer k soft_stop s).
  { by destruct k. }
  { intros _. apply live_at_key; [done|by destruct k..]. }
  eapply (i_post_out_mono _ _ _ _ _ _ (λ out, silent out ∧ sends (sm_label (put i (on_timer k soft_stop s) c) i
    (on_timer k soft_stop s) ev None 0) (on_timer k soft_stop s) out)).
  - intros out [H1 H2]. split; [done|]. intros -> Hst. injection Hk as <-. unfold sends in H2. cbn in H2. rewrite Hst in H2.
    by apply H2.
  - replace (timer_label k) with (opt_list (sm_label (put i (on_timer k soft_stop s) c) i (on_timer k soft_stop s) ev None 0)); [done|].
    destruct k; try done; by injection Hk as <-.
Qed.

(** ** Discovery *)

#[local] Arguments acmp_milan_listener_sink_event : simpl never.

Lemma adp_peers c i ev : ev = ACMP_LISTENER_SINK_SM_EVENT_EVT_TK_DISCOVERED ∨ ev = ACMP_LISTENER_SINK_SM_EVENT_EVT_TK_DEPARTED → peers_ok c i ev None.
Proof. intros [->| ->]; split; intros; destruct_or?; done. Qed.
(** The two events of discovery in the ACMP machine, which keeps what the ADP
    machine writes. *)
Definition adp_event (there : bool) : acmp_milan_listener_sink_sm_event_t :=
  if there then ACMP_LISTENER_SINK_SM_EVENT_EVT_TK_DISCOVERED else ACMP_LISTENER_SINK_SM_EVENT_EVT_TK_DEPARTED.
Definition adp_label (there : bool) : alabel := if there then LDiscovered else LDeparted.
Record adp_mid (i : nat) s c (there : bool) s' c' (out : list output) : Prop := {
  am_core : sink_core (port_max c) s';
  am_abs : abs s' = sm_step (adp_label there) (abs s);
  am_inflight : inflight_ok c';
  am_rest : same_rest c c';
  am_port : avb_interface_index s' = avb_interface_index s;
  am_full : healthy → streams out = [] ∧ silent out ∧ (live_at i s c → live_at i s' c');
}.
Lemma adp_step_keeps there a :
  a_found (sm_step (adp_label there) a) = a_found a ∧ settled (a_state (sm_step (adp_label there) a)) = settled (a_state a) ∧
  (settled (a_state a) = false → a_stream a = no_stream → a_stream (sm_step (adp_label there) a) = no_stream).
Proof. destruct a as [st f x t], there, st; cbn; auto. Qed.

Lemma adp_event_spec there i s c o w :
  random_positive → (i < length (sinks c))%nat → inflight_ok c → sink_core (port_max c) s →
  (settled (state s) = false → stream_of s = no_stream) →
  (there = false → state s = ACMP_LISTENER_SINK_SM_STATE_UNBOUND ∨ state s = ACMP_LISTENER_SINK_SM_STATE_PRB_W_AVAIL → found s = false) →
  at_world (put i s c) o w →
  wp (acmp_milan_listener_sink_event i (adp_event there))
    (λ _ w', ∃ s' c' out, at_world (put i s' c') (out ++ o) w' ∧ adp_mid i s c there s' c' out ∧
      adp_discovery_timer s' = adp_discovery_timer s) w.
Proof.
  intros Hr Hi Hc [C1 C2 C3] Hst Haw Hw.
  assert (Hl : sm_label (put i s c) i s (adp_event there) None 0 = Some (adp_label there)) by by destruct there.
  assert (Hpre : sm_pre i (adp_event there) None None s c).
  { split; try done; [by destruct there| |by destruct there]. destruct there; [by intros|]. intros _. by apply Haw. }
  wp_apply internal_spec; [by destruct there|exact Hpre|exact Hw|].
  intros _ w' (s' & c' & out & Hw' & R & Hc' & Hrest & HF). exists s', c', out. split; [done|]. rewrite Hl in R.
  assert (Ha : abs s' = sm_step (adp_label there) (abs s)) by apply R.
  destruct (adp_step_keeps there (abs s)) as (K1 & K2 & _). rewrite <- Ha in K1, K2. cbn in K1, K2.
  split; [|by rewrite (sr_disc _ _ _ R), K1, eqb_reflx]. split; try done.
  - eapply sink_core_sm; [by split|exact R|by destruct there].
  - apply R.
  - intros Hh. destruct (HF Hh) as (F1 & F2 & F3). split; [|split; [done|]].
    + rewrite F1. unfold stream_changes. cbn. rewrite K2. by destruct (settled (state s)).
    + intros [L [S1 S2]]. apply F3; [apply adp_peers; destruct there; auto|done|done|by intros _].
Qed.

Lemma timer_run t : st_created t = true → soft_start 1 t = SoftTimer true true.
Proof. destruct t. cbn. by intros ->. Qed.

(** [valid_time] is a [u8]. *)
Definition valid_ok (v : Z) : Prop := 0 ≤ v < 256.
Lemma valid_ms v : valid_ok v → u32 (Z.max 1 v * MS_PER_S) ≠ 0.
Proof. unfold valid_ok, MS_PER_S. intros. rewrite u32_small; lia. Qed.

Definition rcv_available : adp_milan_listener_sink_event_t := ADP_MILAN_LISTENER_SINK_RCV_ADP_AVAILABLE.

(** The end of a pass of the ADP machine. *)
Lemma adp_post i s c o L b ai ii s' c' out w :
  at_world (put i (set_adp b (SoftTimer true b) ai ii s') c') (out ++ o) w → (i < length (sinks c))%nat → sink_core (port_max c) s' →
  with_found b (abs s') = asteps (abs s) L → aok (abs s) → inflight_ok c' → same_rest c c' →
  settled (state s') = settled (state s) → (healthy → streams out = [] ∧ silent out ∧ (live_at i s c → live_at i s' c')) →
  i_post i s c o L True silent w.
Proof.
  intros Hw Hi C Ha Hok Hc Hrest Hset HF. exists L, (set_adp b (SoftTimer true b) ai ii s'), c', out.
  split; [done|]. split; [split; try done|].
  - apply sink_ok_set; [done|]. rewrite Ha. by apply aok_steps.
  - by rewrite abs_set.
  - intros Hh. destruct (HF Hh) as (F1 & F2 & F3). split; [done|]. split; [|split; [|done]].
    + rewrite F1. unfold stream_changes. cbn. rewrite Hset. by destruct (settled (state s)).
    + intros _ HL. apply (live_at_key i s'); [by destruct Hrest as [_ ->]|done|done|by apply F3].
Qed.

(** A talker that is not discovered. *)
Lemma discovered_spec i v pdu s c o w :
  random_positive → valid_ok v → (i < length (sinks c))%nat → inflight_ok c → sink_ok (port_max c) s → found s = false →
  bound (state s) = true → at_world (put i s c) o w →
  wp (discovery_sm_not_discovered i rcv_available v (Some pdu))
    (λ _, i_post i s c o (if adp_milan_check_gptp c s pdu then [LDiscovered] else []) True silent) w.
Proof.
  intros Hr Hv Hi Hc Hs Hf Hb Hw. cbn. apply wp_bind, wp_ret, wp_bind. eapply get_sink_spec; [done..|]. apply wp_bind.
  eapply at_gets; [done|]. apply wp_when. change (adp_milan_check_gptp (put i s c) s pdu) with (adp_milan_check_gptp c s pdu).
  destruct (adp_milan_check_gptp c s pdu); [|by apply (i_post_out i s c o [])].
  apply wp_bind. eapply set_sink_spec; [done|]. intros w1 Hw1. apply wp_bind. unfold discovery_timer_start.
  eapply sink_timer_start_spec; [done|by apply valid_ms|]. intros w2 Hw2.
  assert (Ht : adp_discovery_timer s = SoftTimer true false) by (rewrite (so_disc _ _ Hs); by rewrite Hf).
  set (s1 := set_adp false (SoftTimer true true) (adp_available_index pdu) (adp_interface_index pdu) s).
  assert (Hw2' : at_world (put i s1 c) o w2).
  { revert Hw2. match goal with |- at_world (put i ?t c) o w2 → _ => replace t with s1; [done|] end.
    unfold s1, set_adp. apply sink_ext; cbn; try reflexivity; [|by rewrite Ht]. revert Hf. unfold found. by destruct (talker_state s). }
  assert (Ha1 : abs s1 = abs s) by (unfold s1; rewrite abs_set; unfold abs, with_found; cbn; by rewrite Hf).
  assert (C1 : sink_core (port_max c) s1) by (by apply sink_ok_core in Hs as [[] [] ?]).
  apply wp_bind. wp_apply (adp_event_spec true i s1 c o w2); try done; [apply (so_abs _ _ Hs)|].
  intros r w3 (s2 & c2 & out & Hw3 & [M1 M2 M4 M5 _ M7] & M3). eapply set_sink_spec; [done|]. intros w4 Hw4.
  assert (Ht2 : adp_discovery_timer s2 = SoftTimer true true) by by rewrite M3.
  apply (adp_post i s c o [LDiscovered] true (available_index s2) (interface_index s2) s2 c2 out w4); try done.
  - revert Hw4. match goal with |- at_world (put i ?t _) _ _ → at_world (put i ?u _) _ _ => replace u with t; [done|] end.
    unfold set_adp. by apply sink_ext; cbn.
  - rewrite M2, Ha1. cbn. by rewrite Hb.
  - apply Hs.
  - destruct (adp_step_keeps true (abs s1)) as (_ & K & _). rewrite <- M2 in K. exact K.
  - intros Hh. destruct (M7 Hh) as (F1 & F2 & F3). split; [done|]. split; [done|]. intros HL. apply F3.
    by apply (live_at_key i s s1).
Qed.

(** A talker that is discovered: it departs, it restarts, it is still there. *)
Definition adp_labels (c : entity) (s : stream_input) (ev : adp_milan_listener_sink_event_t) (pdu : adp_pdu) : list alabel :=
  if found s then
    if negb (ntohs (interface_index s) =? ntohs (adp_interface_index pdu)) then []
    else match ev with
         | ADP_MILAN_LISTENER_SINK_RCV_ADP_AVAILABLE =>
             if index_not_newer (adp_available_index pdu) (available_index s) then
               if adp_milan_check_gptp c s pdu then [LDeparted; LDiscovered] else [LDeparted]
             else []
         | ADP_MILAN_LISTENER_SINK_RCV_ADP_DEPARTING => [LDeparted]
         | _ => []
         end
  else match ev with
       | ADP_MILAN_LISTENER_SINK_RCV_ADP_AVAILABLE => if adp_milan_check_gptp c s pdu then [LDiscovered] else []
       | _ => []
       end.

(** A timer that is stopped and started again, a state that is set. *)
Lemma refresh_eq r ai s :
  adp_discovery_timer s = SoftTimer true r → found s = true →
  on_timer TMR_NO_ADP (soft_start 1) (on_timer TMR_NO_ADP soft_stop (s <| available_index := ai |>)) =
  set_adp true (SoftTimer true true) ai (interface_index s) s.
Proof.
  intros Ht Hf. apply sink_ext; unfold set_adp; cbn; try reflexivity; [|by rewrite Ht].
  revert Hf. unfold found. by destruct (talker_state s).
Qed.
Lemma leave_eq r s :
  adp_discovery_timer s = SoftTimer true r →
  (on_timer TMR_NO_ADP soft_stop s) <| talker_state := ADP_LISTENER_SINK_TALKER_STATE_NOT_DISCOVERED |> =
  set_adp false (SoftTimer true false) (available_index s) (interface_index s) s.
Proof. intros Ht. apply sink_ext; unfold set_adp; cbn; try reflexivity. by rewrite Ht. Qed.
Lemma left_eq s :
  adp_discovery_timer s = SoftTimer true false →
  s <| talker_state := ADP_LISTENER_SINK_TALKER_STATE_NOT_DISCOVERED |> =
  set_adp false (SoftTimer true false) (available_index s) (interface_index s) s.
Proof. intros Ht. by apply sink_ext; unfold set_adp; cbn. Qed.

(** The talker departs, whether the timer still runs or not. *)
Lemma departs_spec i t s c o w (Q : Z → world milan_call entity → Prop) :
  random_positive → (i < length (sinks c))%nat → inflight_ok c → sink_ok (port_max c) s → found s = true →
  at_world (put i (set_adp true t (available_index s) (interface_index s) s) c) o w →
  (∀ r w' s2 c2 out, at_world (put i s2 c2) (out ++ o) w' → adp_mid i s c false s2 c2 out →
     adp_discovery_timer s2 = t → Q r w') →
  wp (acmp_milan_listener_sink_event i ACMP_LISTENER_SINK_SM_EVENT_EVT_TK_DEPARTED) Q w.
Proof.
  intros Hr Hi Hc Hs Hf Hw HQ. set (s1 := set_adp true t _ _ s) in Hw.
  assert (Ha1 : abs s1 = abs s) by (unfold s1; by rewrite abs_set, <- Hf).
  assert (C1 : sink_core (port_max c) s1) by (by apply sink_ok_core in Hs as [[] [] ?]).
  assert (Hfd : found s1 = true) by apply found_set.
  wp_apply (adp_event_spec false i s1 c o w); try done.
  - apply (ao_stream _ (so_abs _ _ Hs)).
  - intros _ H. assert (H2 := ao_away _ (so_abs _ _ Hs) H). cbn in H2. congruence.
  - intros r w' (s2 & c2 & out & Hw' & [M1 M2 M4 M5 M6 M7] & M3). eapply HQ; [exact Hw'| |exact M3]. split; try done.
    + by rewrite M2, Ha1.
    + intros Hh. destruct (M7 Hh) as (F1 & F2 & F3). split; [done|]. split; [done|]. intros HL. apply F3.
      by apply (live_at_key i s s1).
Qed.

Lemma left_astep a : with_found false (sm_step LDeparted a) = astep a LDeparted.
Proof. done. Qed.
Lemma stay_eq t s : adp_discovery_timer s = t → found s = true → s = set_adp true t (available_index s) (interface_index s) s.
Proof. intros <- Hf. rewrite (set_adp_id s) at 1. by rewrite Hf. Qed.
Lemma stop_eq r s : adp_discovery_timer s = SoftTimer true r → found s = true →
  on_timer TMR_NO_ADP soft_stop s = set_adp true (SoftTimer true false) (available_index s) (interface_index s) s.
Proof.
  intros Ht Hf. apply sink_ext; unfold set_adp; cbn; try reflexivity; [|by rewrite Ht].
  revert Hf. unfold found. by destruct (talker_state s).
Qed.

Lemma left_spec i s c o w :
  random_positive → (i < length (sinks c))%nat → inflight_ok c → sink_ok (port_max c) s → found s = true →
  at_world (put i (set_adp true (SoftTimer true false) (available_index s) (interface_index s) s) c) o w →
  wp (let! _ := acmp_milan_listener_sink_event i ACMP_LISTENER_SINK_SM_EVENT_EVT_TK_DEPARTED in
      set_talker_state i ADP_LISTENER_SINK_TALKER_STATE_NOT_DISCOVERED)
    (λ _, i_post i s c o [LDeparted] True silent) w.
Proof.
  intros Hr Hi Hc Hs Hf Hw. apply wp_bind. eapply departs_spec; [done..|].
  intros r w1 s2 c2 out Hw1 [M1 M2 M4 M5 M6 M7] M3. eapply set_sink_spec; [done|]. intros w2 Hw2. rewrite left_eq in Hw2 by done.
  eapply adp_post; try done; [by rewrite M2|apply Hs|]. destruct (adp_step_keeps false (abs s)) as (_ & K & _).
  by rewrite <- M2 in K.
Qed.

Lemma adp_run_spec i ev v pdu s c o w :
  ev = ADP_MILAN_LISTENER_SINK_RCV_ADP_AVAILABLE ∨ ev = ADP_MILAN_LISTENER_SINK_RCV_ADP_DEPARTING →
  random_positive → valid_ok v → (i < length (sinks c))%nat → inflight_ok c → sink_ok (port_max c) s → found s = true →
  bound (state s) = true → at_world (put i s c) o w →
  wp (discovery_sm_discovered i ev v (Some pdu)) (λ _, i_post i s c o (adp_labels c s ev pdu) True silent) w.
Proof.
  intros Hev Hr Hv Hi Hc Hs Hf Hb Hw. assert (Ht : adp_discovery_timer s = SoftTimer true true) by (rewrite (so_disc _ _ Hs); by rewrite Hf).
  unfold adp_labels. rewrite Hf. destruct Hev as [->| ->]; cbn; apply wp_bind, wp_ret, wp_bind; (eapply get_sink_spec; [done..|]).
  all: destruct (negb _); [by apply (i_post_out i s c o [])|].
  2:{ apply wp_bind. eapply sink_timer_stop_spec; [done|]. intros w1 Hw1. rewrite (stop_eq true) in Hw1 by done. by apply left_spec. }
  assert (Hrefresh : ∀ s2 c2 out w2, at_world (put i s2 c2) (out ++ o) w2 → adp_discovery_timer s2 = SoftTimer true true →
    found s2 = true →
    (∀ w', at_world (put i (set_adp true (SoftTimer true true) (adp_available_index pdu) (interface_index s2) s2) c2) (out ++ o) w' →
       i_post i s c o (if index_not_newer (adp_available_index pdu) (available_index s)
                       then if adp_milan_check_gptp c s pdu then [LDeparted; LDiscovered] else [LDeparted] else []) True silent w') →
    wp (set_sink i (λ s, s <| available_index := adp_available_index pdu |>);; timer_stop i TMR_NO_ADP;; discovery_timer_start i v)
      (λ _, i_post i s c o (if index_not_newer (adp_available_index pdu) (available_index s)
                       then if adp_milan_check_gptp c s pdu then [LDeparted; LDiscovered] else [LDeparted] else []) True silent) w2).
  { intros s2 c2 out w2 Hw2 Ht2 Hf2 HQ. apply wp_bind. eapply set_sink_spec; [done|]. intros w3 Hw3.
    apply wp_bind. eapply sink_timer_stop_spec; [done|]. intros w4 Hw4. unfold discovery_timer_start.
    eapply sink_timer_start_spec; [done|by apply valid_ms|]. intros w5 Hw5. rewrite (refresh_eq true) in Hw5 by done. by apply HQ. }
  destruct (index_not_newer (adp_available_index pdu) (available_index s)) eqn:En.
  - apply wp_bind. rewrite (stay_eq (SoftTimer true true) s Ht Hf) in Hw. eapply departs_spec; [done..|].
    intros r w1 s2 c2 out Hw1 [M1 M2 M4 M5 M6 M7] M3. destruct (adp_step_keeps false (abs s)) as (K1 & K2 & K3). rewrite <- M2 in K1, K2, K3.
    cbn in K1, K2, K3. assert (Hi2 : (i < length (sinks c2))%nat) by (destruct M5 as [_ ->]; done).
    apply wp_bind. eapply get_sink_spec; [done..|]. apply wp_bind. eapply at_gets; [done|].
    assert (Hck : adp_milan_check_gptp (put i s2 c2) s2 pdu = adp_milan_check_gptp c s pdu).
    { unfold adp_milan_check_gptp. rewrite M6. destruct M5 as [E _]. unfold config_of in E.
      change (interfaces (put i s2 c2)) with (interfaces c2). by injection E as _ _ _ _ _ _ ->. }
    rewrite Hck in *. destruct (adp_milan_check_gptp c s pdu); cbn [negb].
    + apply wp_bind. wp_apply (adp_event_spec true i s2 c2 (out ++ o) w1); try done.
      { replace (port_max c2) with (port_max c); [done|]. destruct M5 as [E _]. unfold config_of in E. by injection E as _ _ -> _ _ _ _. }
      { intros Hns. rewrite K2 in Hns. apply K3; [done|]. by apply (ao_stream _ (so_abs _ _ Hs)). }
      intros r2 w2 (s3 & c3 & out2 & Hw2 & [N1 N2 N4 N5 N6 N7] & N3). rewrite app_assoc in Hw2.
      destruct (adp_step_keeps true (abs s2)) as (J1 & J2 & _). rewrite <- N2 in J1, J2. cbn in J1, J2.
      eapply Hrefresh; [exact Hw2|by rewrite N3|by rewrite J1, K1|]. intros w3 Hw3.
      apply (adp_post i s c o [LDeparted; LDiscovered] true _ _ s3 c3 (out2 ++ out) w3 Hw3); try done.
      * replace (port_max c) with (port_max c2); [done|]. destruct M5 as [E _]. unfold config_of in E. by injection E as _ _ -> _ _ _ _.
      * rewrite N2, M2. cbn. unfold abs. cbn. by destruct (state s).
      * apply Hs.
      * destruct M5 as [E1 E2], N5 as [E3 E4]. split; by rewrite ?E3, ?E4.
      * by rewrite J2.
      * intros Hh. destruct (M7 Hh) as (F1 & F2 & F3), (N7 Hh) as (G1 & G2 & G3).
        split; [unfold streams in *; by rewrite omap_app, F1, G1|].
        split; [unfold silent, answers in *; by rewrite omap_app, F2, G2|auto].
    + apply wp_bind. eapply sink_timer_stop_spec; [done|]. intros w2 Hw2. eapply set_sink_spec; [done|]. intros w3 Hw3.
      rewrite (leave_eq true) in Hw3 by done. eapply adp_post; try done; [by rewrite M2|apply Hs].
  - eapply (Hrefresh s c [] w); [done..|]. intros w3 Hw3. apply (adp_post i s c o [] true _ _ s c [] w3 Hw3); try done.
    + by apply sink_ok_core.
    + unfold abs, with_found. cbn. by rewrite Hf.
    + apply Hs.
Qed.

Lemma i_post_mono i s c o Lh (P P' : Prop) A w : (P' → P) → i_post i s c o Lh P A w → i_post i s c o Lh P' A w.
Proof.
  intros HP (L & s' & c' & out & H1 & H2 & H3). exists L, s', c', out. split; [done|]. split; [done|]. intros Hh.
  destruct (H3 Hh) as (F1 & F2 & F3 & F4). split_and!; auto.
Qed.
Lemma bound_eq s : is_bound s = bound (state s).
Proof. unfold is_bound. by destruct (state s). Qed.

(** One sink in the loop of [adp_milan_listener_rcv]. *)
Definition adp_sink_labels (c : entity) (s : stream_input) (ev : adp_milan_listener_sink_event_t) (pdu : adp_pdu) : list alabel :=
  if bound (state s) && (talker_entity_id s =? adp_entity_id pdu) then adp_labels c s ev pdu else [].
Lemma adp_sink_spec i ev v pdu s c o w :
  ev = ADP_MILAN_LISTENER_SINK_RCV_ADP_AVAILABLE ∨ ev = ADP_MILAN_LISTENER_SINK_RCV_ADP_DEPARTING →
  random_positive → valid_ok v → (i < length (sinks c))%nat → inflight_ok c → sink_ok (port_max c) s → at_world (put i s c) o w →
  wp (adp_milan_listener_rcv_sink ev pdu v i) (λ _, i_post i s c o (adp_sink_labels c s ev pdu) True silent) w.
Proof.
  intros Hev Hr Hv Hi Hc Hs Hw. unfold adp_milan_listener_rcv_sink, adp_sink_labels. apply wp_bind. eapply get_sink_spec; [done..|].
  apply wp_when. rewrite bound_eq. destruct (bound (state s)) eqn:Hb; cbn [andb]; [|by apply (i_post_out i s c o [])].
  destruct (_ =? _); [|by apply (i_post_out i s c o [])].
  apply wp_bind. unfold adp_milan_listener_sink_discovery_sm. apply wp_bind. eapply at_gets; [done|]. rewrite put_lookup by done.
  apply wp_bind. destruct (talker_state s) eqn:Et.
  - assert (Hf : found s = false) by (unfold found; by rewrite Et). unfold adp_labels. rewrite Hf. destruct Hev as [->| ->].
    + eapply wp_mono; [by apply discovered_spec|]. intros r w1 H. by apply wp_ret, wp_ret.
    + cbn. apply wp_ret, wp_ret, wp_ret. by apply (i_post_out i s c o []).
  - assert (Hf : found s = true) by (unfold found; by rewrite Et).
    eapply wp_mono; [by apply adp_run_spec|]. intros r w1 H. by apply wp_ret, wp_ret.
Qed.

(** ** The timers of a sink *)

Definition delay_fresh (k : sink_timer) (c : entity) : Prop := k = TMR_DELAY → fresh c.
Lemma timer_peers k ev i c : acmp_timer_event k = Some ev → delay_fresh k c → peers_ok c i ev None.
Proof. intros Hk Hf. split; destruct k; try done; injection Hk as <-; intros; destruct_or?; auto; done. Qed.

Lemma sink_timer_spec i k s c o w :
  random_positive → inflight_ok c → (i < length (sinks c))%nat → sink_ok (port_max c) s → at_world (put i s c) o w →
  wp (sink_timer_expiry i k)
    (λ _, i_post i s c o (if st_running (timer_of k s) then timer_label k else []) (delay_fresh k c) (timer_out k s)) w.
Proof.
  intros Hr Hc Hi Hs Hw. unfold sink_timer_expiry. apply wp_bind. eapply at_gets; [done|]. rewrite put_lookup by done.
  apply wp_when. destruct (st_running (timer_of k s)) eqn:Er.
  2:{ apply (i_post_out i s c o []); try done. intros _. split; [done|]. split; [done|]. intros -> Hst. cbn in Er.
      rewrite (tm_delay _ _ (so_timers _ _ Hs)), Hst in Er. done. }
  destruct (acmp_timer_event k) as [ev|] eqn:Ek.
  { assert (Hh : sink_timer_handler i k = (let! _ := acmp_milan_listener_sink_event i ev in ret tt)) by (destruct k; try done; by injection Ek as <-).
    rewrite Hh. eapply wp_mono; [by apply (acmp_timer_spec i k ev s c o)|]. intros r w1. apply i_post_mono. by apply timer_peers. }
  apply wp_bind. eapply sink_timer_stop_spec; [done|]. intros w1 Hw1. destruct k; try done.
  - assert (Hf : found s = true) by (cbn in Er; by rewrite (so_disc _ _ Hs) in Er).
    rewrite (stop_eq true) in Hw1 by (done || by rewrite (so_disc _ _ Hs), Hf).
    cbn. apply wp_bind. unfold adp_milan_listener_sink_discovery_sm. apply wp_bind. eapply at_gets; [done|]. rewrite put_lookup by done.
    cbn. apply wp_bind. eapply wp_mono; [by apply (left_spec i s c o w1)|]. intros r w2 H. apply wp_ret, wp_ret. apply (i_post_mono i s c o _ True); [done|].
    eapply i_post_out_mono; [|exact H]. by intros.
  - cbn. apply wp_bind. eapply at_quiet; [done..|]. intros n w2 Hw2. apply wp_ret.
    apply i_post_from with (s1 := on_timer TMR_NOTIFICATION soft_stop s); [done|intros _; by apply live_at_key|].
    apply (i_post_out i (on_timer TMR_NOTIFICATION soft_stop s) c o []); try done. by destruct Hs as [[] ? ? [] ?].
Qed.
End inputs.
