(* ===== verification/MilanRequests.v ===== *)
(** * AVDECC: SRP, streaming and saved bindings at a sink

    The handlers of SRP indications, of the streaming commands of AECP and of
    the bindings that the media stack has saved, as steps of the table. *)

From S2P Require Import Prelude MaapAddr Timer Milan MilanSm MilanListener MilanSpec MilanTable MilanRefine MilanEvents MilanLive MilanHandlers MilanInputs.

Section requests.
Context `{!Platform milan_call}.
Implicit Types (w : world milan_call entity) (c : entity) (s : stream_input) (o : list output).

Lemma sink_ok_rel n l s s' :
  adp_discovery_timer s = SoftTimer true (found s) → aok (abs s) → (sink_port s < n)%nat → sm_rel (Some l) s s' →
  astep (abs s) l = sm_step l (abs s) → srp_ok s' → sink_ok n s'.
Proof.
  intros Hd Ha Hp R Hl Hs. split; [apply R| | |done|by rewrite (sink_port_eq s s' (sr_port _ _ _ R))].
  - rewrite (sr_disc _ _ _ R), Hd. destruct (eqb (found s) (found s')) eqn:E; [apply eqb_prop in E; by rewrite E|].
    apply eqb_false_iff in E. unfold soft_stop. cbn. f_equal.
    assert (Hf : found s' = a_found (sm_step l (abs s))) by (change (found s') with (a_found (abs s')); by rewrite (sr_abs _ _ _ R)).
    destruct (sm_step_found l (abs s)) as [H|H]; rewrite H in Hf; [|by rewrite Hf]. by destruct E.
  - rewrite (sr_abs _ _ _ R). cbn. rewrite <- Hl. by apply aok_step.
Qed.
Lemma sink_ok_notify n s : sink_ok n s → sink_ok n (notify s).
Proof. intros [[T1 T2 T3 T4] H2 H3 [S1 S2] H5]. split; try done; split; try done. cbn. by rewrite notify_timer_created. Qed.

(** ** SRP *)

Definition srp_active (m : listener_status_msg) : bool := (ls_status m =? ACTIVE) || (ls_status m =? FAILED).
Definition srp_labels (s : stream_input) (m : listener_status_msg) : list alabel :=
  if settled (state s) && negb (srp_active m && negb (srp_status_matches s m)) then
    match state s with
    | ACMP_LISTENER_SINK_SM_STATE_SETTLED_NO_RSV => if srp_active m then [LRegistered] else []
    | _ => if ls_status m =? NO_TALKER then [LUnregistered] else []
    end
  else [].

Lemma settled_eq s : is_settled s = settled (state s).
Proof. unfold is_settled. by destruct (state s). Qed.

(** The two indications that the ACMP machine sees. *)
Definition srp_event (there : bool) : acmp_milan_listener_sink_sm_event_t :=
  if there then ACMP_LISTENER_SINK_SM_EVENT_EVT_TK_REGISTERED else ACMP_LISTENER_SINK_SM_EVENT_EVT_TK_UNREGISTERED.
Definition srp_label (there : bool) : alabel := if there then LRegistered else LUnregistered.
Definition srp_from (there : bool) : acmp_milan_listener_sink_sm_state_t :=
  if there then ACMP_LISTENER_SINK_SM_STATE_SETTLED_NO_RSV else ACMP_LISTENER_SINK_SM_STATE_SETTLED_RSV_OK.
Definition srp_set (there : bool) (s : stream_input) : stream_input :=
  s <| srp_state := if there then ACMP_LISTENER_SINK_SRP_STATE_REGISTERING else ACMP_LISTENER_SINK_SRP_STATE_NOT_REGISTERING |>.

Lemma srp_step_spec there i m s c o w (Q : unit → world milan_call entity → Prop) :
  random_positive → inflight_ok c → (i < length (sinks c))%nat → sink_ok (port_max c) s → state s = srp_from there →
  at_world (put i (srp_set there (srp_status_update m s)) c) o w →
  (∀ w', i_post i s c o [srp_label there] True silent w' → Q tt w') →
  wp (let! _ := acmp_milan_listener_sink_event i (srp_event there) in ret tt)
    (λ _, wp (acmp_milan_listener_register_async_get_stream_info_notification i) Q) w.
Proof.
  intros Hr Hc Hi [[T1 T2 T3 T4] S2 S3 [S4 S5] S6] Hst Hw HQ. set (s1 := srp_set there (srp_status_update m s)) in Hw.
  assert (Hpre : sm_pre i (srp_event there) None None s1 c).
  { split; try done.
    - by destruct there; split.
    - apply (ao_stream _ S3).
    - intros _. apply (ao_away _ S3).
    - by destruct there. }
  apply wp_bind. wp_apply internal_spec; [by destruct there|exact Hpre|exact Hw|].
  intros r w1 (s2 & c2 & out & Hw1 & R & Hc2 & Hrest & HF). apply wp_ret.
  assert (Hl : sm_label (put i s1 c) i s1 (srp_event there) None 0 = Some (srp_label there)) by by destruct there.
  rewrite Hl in R. eapply register_notification_spec; [done|by destruct Hrest as [_ ->]|]. intros w2 Hw2. apply HQ.
  assert (Ha : abs s2 = astep (abs s) (srp_label there)) by (rewrite (sr_abs _ _ _ R); by destruct there).
  assert (Hst1 : state s1 = srp_from there) by done.
  assert (Hst2 : state s2 = a_state (astep (abs s) (srp_label there))) by by rewrite <- Ha.
  assert (Hok : srp_ok s2).
  { destruct there.
    - assert (E : state s2 = ACMP_LISTENER_SINK_SM_STATE_SETTLED_RSV_OK) by (rewrite Hst2; cbn; by rewrite Hst).
      split; rewrite E; [|done]. rewrite (sr_srp _ _ _ R), Hst1, E. done.
    - assert (E : settled (state s2) = false ∧ registering (state s2) = ACMP_LISTENER_SINK_SRP_STATE_NOT_REGISTERING).
      { rewrite Hst2. cbn. rewrite Hst. unfold again, to_state. cbn. by destruct (found s). }
      destruct E as [E1 E2]. split; [rewrite (sr_srp _ _ _ R), E2|intros _; rewrite (sr_status _ _ _ R)]; by rewrite Hst1, E1. }
  exists [srp_label there], (notify s2), c2, out. split; [done|]. split; [split; [|done..]|].
  - apply sink_ok_notify. eapply (sink_ok_rel _ (srp_label there) s1 s2); [done|exact S3|done|done| |done]. by destruct there.
  - intros Hh. destruct (HF Hh) as (F1 & F2 & F3). split; [done|]. split; [done|]. split; [|done]. intros _ [L [G1 G2]].
    assert (L1 : live_core (put i s1 c)) by by apply (live_key i s s1).
    assert (HP : peers_ok c i (srp_event there) None) by (split; destruct there; intros; destruct_or?; done).
    destruct (F3 HP L1) as [L2 [P1 P2]]; [exact G1|intros _; exact G2|]. split; [|by split].
    apply (live_key i s2); [by destruct Hrest as [_ ->]|done|done].
Qed.

Lemma srp_spec i m s c o w :
  random_positive → inflight_ok c → (i < length (sinks c))%nat → sink_ok (port_max c) s → at_world (put i s c) o w →
  wp (acmp_milan_listener_srp_state_sm i m) (λ _, i_post i s c o (srp_labels s m) True silent) w.
Proof.
  intros Hr Hc Hi Hs Hw. unfold acmp_milan_listener_srp_state_sm, srp_labels. apply wp_bind. eapply at_gets; [done|].
  rewrite put_lookup by done. rewrite settled_eq. destruct (settled (state s)) eqn:Est; cbn [negb andb];
    [|by apply (i_post_out i s c o [])].
  fold (srp_active m). destruct (srp_active m && negb (srp_status_matches s m)) eqn:Em; cbn [negb]; [by apply (i_post_out i s c o [])|].
  apply wp_bind. eapply set_sink_spec; [done|]. intros w1 Hw1. rewrite (sp_state _ (so_srp _ _ Hs)).
  assert (Hsame : ∀ w, at_world (put i (srp_status_update m s) c) o w →
    wp (ret tt;; acmp_milan_listener_register_async_get_stream_info_notification i) (λ _, i_post i s c o [] True silent) w).
  { intros w2 Hw2. apply wp_bind, wp_ret. eapply register_notification_spec; [done..|]. intros w3 Hw3.
    apply i_post_from with (s1 := notify (srp_status_update m s)); [done|intros _; by apply live_at_key|].
    apply (i_post_out i (notify (srp_status_update m s)) c o []); try done. apply sink_ok_notify.
    destruct Hs as [[] H2 H3 [H4 H5] H6]. split; try done; split; try done. cbn. by rewrite Est. }
  destruct (state s) eqn:E; try discriminate Est; cbn [registering].
  - unfold when. destruct (srp_active m).
    + apply wp_bind, wp_bind. eapply set_sink_spec; [done|]. intros w2 Hw2. by eapply (srp_step_spec true).
    + by apply Hsame.
  - unfold when. destruct (ls_status m =? NO_TALKER).
    + apply wp_bind, wp_bind. eapply set_sink_spec; [done|]. intros w2 Hw2. by eapply (srp_step_spec false).
    + by apply Hsame.
Qed.

(** ** Streaming *)

Lemma flags_ok f n s : sink_ok n s → sink_ok n (s <| flags := f |>).
Proof. intros [[] H2 H3 [] H5]. by split. Qed.
Lemma streaming_spec (start : bool) i s c o w :
  inflight_ok c → (i < length (sinks c))%nat → sink_ok (port_max c) s → at_world (put i s c) o w →
  wp (if start then acmp_milan_start_streaming i else acmp_milan_stop_streaming i) (λ _, i_post i s c o [] True silent) w.
Proof.
  intros Hc Hi Hs Hw.
  assert (Hchange : ∀ f w, at_world (put i s c) o w →
    wp (set_sink i (λ s, s <| flags ::= f |>);;
        let! _ := acmp_listener_ipc_send_bind_status i in
        acmp_milan_listener_register_async_get_stream_info_notification i;;
        ret 1) (λ _, i_post i s c o [] True silent) w).
  { intros f w0 Hw0. apply wp_bind. eapply set_sink_spec; [done|]. intros w1 Hw1. apply wp_bind. eapply bind_status_spec; [done..|].
    intros w2 Hw2. apply wp_bind. eapply register_notification_spec; [done..|]. intros w3 Hw3. apply wp_ret.
    set (s1 := s <| flags ::= f |>) in *. apply i_post_from with (s1 := notify s1); [done|intros _; by apply live_at_key|].
    apply (i_post_out i (notify s1) c o [Told (MEDIA_STACK_BIND (bind_status c i s1))]); try done.
    apply sink_ok_notify. by apply (flags_ok (f (flags s))). }
  destruct start; [unfold acmp_milan_start_streaming|unfold acmp_milan_stop_streaming].
  all: apply wp_bind; eapply at_gets; [done|]; rewrite put_lookup by done; destruct (_ && _); [by apply Hchange|].
  all: apply wp_ret; by apply (i_post_out i s c o []).
Qed.
Lemma streaming_none (start : bool) i c o w :
  sinks c !! i = None → at_world c o w →
  wp (if start then acmp_milan_start_streaming i else acmp_milan_stop_streaming i) (λ _, at_world c o) w.
Proof.
  intros Hi Hw. destruct start; [unfold acmp_milan_start_streaming|unfold acmp_milan_stop_streaming].
  all: apply wp_bind; eapply at_gets; [done|]; by rewrite Hi.
Qed.

(** ** Saved bindings *)

Definition saved_talker (b : media_stack_bind) : Z * Z := (htonll (bind_talker_entity_id b), htons (bind_talker_stream_index b)).
Definition saved_valid (c : entity) (b : media_stack_bind) : bool :=
  (entity_id c =? htonll (bind_entity_id b)) && negb ((bind_talker_entity_id b =? 0) || (bind_controller_entity_id b =? 0)).

Lemma saved_pre b i s c :
  random_positive → inflight_ok c → (i < length (sinks c))%nat → sink_ok (port_max c) s →
  sink_pre None (port_max c) (saved_binding b s).
Proof.
  intros Hr Hc Hi [[] H2 [A1 A2 A3] [] H5]. split; try done; by split.
Qed.
Lemma saved_spec b i s c o w :
  random_positive → inflight_ok c → (i < length (sinks c))%nat → sink_ok (port_max c) s → at_world (put i s c) o w →
  bind_listener_stream_index b = i →
  wp (avdecc_ipc_rx_media_stack b)
    (λ _, i_post i s c o (if saved_valid c b then [LSaved (saved_talker b)] else []) (bound (state s) = false) silent) w.
Proof.
  intros Hr Hc Hi Hs Hw Hb. unfold avdecc_ipc_rx_media_stack, saved_valid. apply wp_bind. eapply at_gets; [done|].
  change (entity_id (put i s c)) with (entity_id c). apply wp_when. destruct (entity_id c =? _); cbn [andb]; [|by apply (i_post_out i s c o [])].
  apply wp_bind. unfold acmp_milan_listener_sink_rcv_binding_params. rewrite Hb. apply wp_bind. eapply at_gets; [done|].
  rewrite put_lookup by done. destruct (_ || _); cbn [negb]; [by apply wp_ret, wp_ret, (i_post_out i s c o [])|].
  apply wp_bind. eapply set_sink_spec; [done|]. intros w1 Hw1. set (s1 := saved_binding b s) in Hw1.
  assert (Hs1 := saved_pre b i s c Hr Hc Hi Hs). fold s1 in Hs1.
  assert (Hpre : sm_pre i ACMP_LISTENER_SINK_SM_EVENT_SAVED_BINDING_PARAMS None None s1 c) by by apply sm_pre_intro.
  change (acmp_milan_listener_sink_sm i ACMP_LISTENER_SINK_SM_EVENT_SAVED_BINDING_PARAMS None 0 0)
    with (acmp_milan_listener_sink_event i ACMP_LISTENER_SINK_SM_EVENT_SAVED_BINDING_PARAMS).
  wp_apply internal_spec; [done|exact Hpre|exact Hw1|].
  intros r w2 (s2 & c2 & out & Hw2 & R & Hc2 & Hrest & HF). apply wp_ret. cbn in R.
  assert (Hst : state s1 = state s) by done.
  exists [LSaved (saved_talker b)], s2, c2, out. split; [done|]. split; [split; [|rewrite (sr_abs _ _ _ R)|done..]|].
  - by apply (sink_ok_sm None _ (Some (LSaved (talker_of s1))) s1).
  - unfold abs. cbn. by destruct (state s).
  - intros Hh. destruct (HF Hh) as (F1 & F2 & F3). split; [done|]. split; [done|]. split; [|done]. intros Hu [L [G1 G2]].
    apply F3; [by split; intros; destruct_or?| |done|done].
    apply (live_idle i s s1 c Hi L); unfold s1; cbn; by destruct (state s).
Qed.
End requests.
