(* ===== verification/MilanRun.v ===== *)
(** * AVDECC: the events of a Milan listener follow the table

    Every event of a listener entity is steps of the table for its sinks, keeps
    the invariant, and connects and disconnects streams as the sinks settle. *)

From S2P Require Import Prelude MaapAddr Timer Milan MilanSm MilanListener MilanSpec MilanTable MilanRefine MilanEvents MilanLive MilanHandlers MilanInputs MilanRequests.

Definition live (c : entity) : Prop := live_core c ∧ ∀ i s, sinks c !! i = Some s → sink_live s.
(** The streams that sink [i] connects and disconnects, newest first. *)
Definition sink_streams (i : nat) (o : list output) : list (bool * nat * Z) := filter (λ x, x.1.2 = i) (streams o).

Lemma sink_streams_app i o o' : sink_streams i (o ++ o') = sink_streams i o ++ sink_streams i o'.
Proof. unfold sink_streams, streams. by rewrite omap_app, list.filter_app. Qed.
Lemma changes_own i j a a' : filter (λ x : bool * nat * Z, x.1.2 = j) (stream_changes i a a') = if decide (i = j) then stream_changes i a a' else [].
Proof.
  unfold stream_changes. case_decide as D; destruct (settled (a_state a)), (settled (a_state a')); try done.
  all: rewrite filter_cons; cbn; case_decide; done.
Qed.
Lemma changes_same i a : stream_changes i a a = [].
Proof. unfold stream_changes. by destruct (settled _). Qed.

Section run.
Context `{!Platform milan_call}.
Implicit Types (w : world milan_call entity) (c : entity) (s : stream_input) (o : list output).

(** What an event makes of the entity: steps [L i] of each sink. *)
Record ev_ok c (L : nat → list alabel) (c' : entity) : Prop := {
  ek_ok : milan_ok c';
  ek_length : length (sinks c') = length (sinks c);
  ek_sinks : ∀ i s, sinks c !! i = Some s → ∃ s', sinks c' !! i = Some s' ∧ abs s' = asteps (abs s) (L i);
}.
(** When the platform has memory: the steps are [Lh i s], streams are connected
    and disconnected as the sinks change, and sinks and commands in flight go
    on matching when the peers keep [P]. *)
Record ev_full c (Lh : nat → stream_input → list alabel) (P : Prop) (L : nat → list alabel) (c' : entity) (out : list output) : Prop := {
  ef_labels : ∀ i s, sinks c !! i = Some s → L i = Lh i s;
  ef_streams : ∀ i s s', sinks c !! i = Some s → sinks c' !! i = Some s' → sink_streams i out = stream_changes i (abs s) (abs s');
  ef_live : P → live c → live c';
}.

Lemma ev_ok_id c : milan_ok c → ev_ok c (λ _, []) c.
Proof. intros H. split; [done..|]. intros i s Hs. by exists s. Qed.
Lemma ev_full_id c P : ev_full c (λ _ _, []) P (λ _, []) c [].
Proof. split; [done| |done]. intros i s s' H1 H2. simplify_eq. by rewrite changes_same. Qed.

(** One more sink takes its steps. *)
Lemma ev_ok_step c L c1 i s L' s' c2 :
  ev_ok c L c1 → sinks c !! i = Some s → sinks c1 !! i = Some s → L i = [] → h_post i s c1 L' s' c2 →
  ev_ok c (λ j, if decide (j = i) then L' else L j) (put i s' c2).
Proof.
  intros [[K1 K2 K3] Kl Ks] Hs Hs1 HL [H1 H2 H3 [H4 H5]].
  assert (Hi : (i < length (sinks c2))%nat) by (rewrite H5; by apply lookup_lt_Some in Hs1).
  unfold config_of in H4. injection H4 as E1 E2 E3 E4 E5 E6 E7. split.
  - split; [|by destruct H3|by cbn; rewrite E3, E7]. intros j t. destruct (decide (i = j)) as [<-|Hne].
    + rewrite put_lookup by done. intros [= <-]. cbn. by rewrite E3.
    + rewrite put_lookup_ne, H5 by done. intros Ht. cbn. rewrite E3. eauto.
  - by rewrite put_length, H5.
  - intros j t Ht. destruct (decide (j = i)) as [->|Hne].
    + simplify_eq. exists s'. by rewrite put_lookup.
    + rewrite put_lookup_ne, H5 by done. by apply Ks.
Qed.
Lemma ev_full_step c Lh P L c1 out i s L' s' c2 out' Lh' :
  ev_ok c L c1 → ev_full c Lh P L c1 out → sinks c !! i = Some s → sinks c1 !! i = Some s → L i = [] → h_post i s c1 L' s' c2 →
  L' = Lh' → streams out' = stream_changes i (abs s) (abs s') → (P → live_at i s c1 → live_at i s' c2) →
  ev_full c (λ j t, if decide (j = i) then Lh' else Lh j t) P (λ j, if decide (j = i) then L' else L j) (put i s' c2) (out' ++ out).
Proof.
  intros [K1 Kl Ks] [F1 F2 F3] Hs Hs1 HL [H1 H2 H3 [H4 H5]] -> Hst HP.
  assert (Hi : (i < length (sinks c2))%nat) by (rewrite H5; by apply lookup_lt_Some in Hs1). split.
  - intros j t Ht. case_decide; [done|]. by apply F1.
  - intros j t t' Ht. rewrite sink_streams_app. unfold sink_streams at 1. rewrite Hst, changes_own. destruct (decide (i = j)) as [<-|Hne].
    + rewrite put_lookup by done. intros [= <-]. simplify_eq. by rewrite (F2 i s s), changes_same, app_nil_r.
    + rewrite put_lookup_ne, H5 by done. intros Ht'. by apply F2.
  - intros Hp HL0. destruct (F3 Hp HL0) as [L1 L2]. rewrite <- (put_id i s c1 Hs1) in L1.
    destruct (HP Hp) as [G1 G2]; [split; [done|by eapply L2]|]. split; [done|]. intros j t.
    destruct (decide (i = j)) as [<-|Hne].
    + rewrite put_lookup by done. by intros [= <-].
    + rewrite put_lookup_ne, H5 by done. by apply L2.
Qed.

(** ** What each event does *)

(** The steps of sink [i], which is [s]. *)
Definition labels c (ev : milan_event) (i : nat) (s : stream_input) : list alabel :=
  match ev with
  | EvAcmp p m => if decide (i = acmp_sink m) then opt_list (acmp_label_of c p m s) else []
  | EvAdp p t pdu _ =>
      if negb (avdecc_entity_port_valid c p) then []
      else if t =? ADP_ENTITY_AVAILABLE then adp_sink_labels c s ADP_MILAN_LISTENER_SINK_RCV_ADP_AVAILABLE pdu
      else if t =? ADP_ENTITY_DEPARTING then adp_sink_labels c s ADP_MILAN_LISTENER_SINK_RCV_ADP_DEPARTING pdu
      else []
  | EvListenerStatus p m =>
      if avdecc_entity_port_valid c p && bool_decide (acmp_milan_get_listener_unique_id c (ls_stream_id m) = Some i)
      then srp_labels s m else []
  | EvSavedBinding b =>
      if decide (i = bind_listener_stream_index b) then if saved_valid c b then [LSaved (saved_talker b)] else [] else []
  | EvSinkTimer j k => if decide (i = j) then if st_running (timer_of k s) then timer_label k else [] else []
  | EvInflightTimer e =>
      match inflight_storage c !! e with
      | Some x => if decide (e ∈ inflight c ∧ i = entry_sink x) then [LNoResp] else []
      | None => []
      end
  | _ => []
  end.

(** What the peers have to keep for sinks and commands in flight to match. *)
Definition peers c (ev : milan_event) : Prop :=
  match ev with
  | EvAcmp p m => acmp_accepted c p m = true →
      peers_ok c (acmp_sink m) (acmp_milan_listener_get_event (m_type m)) (Some (m_pdu m))
  | EvSavedBinding b => ∀ s, sinks c !! bind_listener_stream_index b = Some s → bound (state s) = false
  | EvSinkTimer _ k => delay_fresh k c
  | _ => True
  end.

(** An accepted command is answered once, and nothing else is; the expiry of
    the delay sends the probe. *)
Definition reply_ok c (ev : milan_event) (out : list output) : Prop :=
  match ev with
  | EvAcmp p m => if acmp_accepted c p m then replies p m out else silent out
  | EvSinkTimer i k => silent out ∧ ∀ s, sinks c !! i = Some s → timer_out k s out
  | _ => silent out
  end.

(** The values of a received frame. *)
Definition ev_valid (ev : milan_event) : Prop :=
  match ev with EvAdp _ _ _ v => valid_ok v | _ => True end.

Definition run_post c o (ev : milan_event) (w' : world milan_call entity) : Prop :=
  ∃ L c' out, at_world c' (out ++ o) w' ∧ ev_ok c L c' ∧
    (healthy → ev_full c (labels c ev) (peers c ev) L c' out ∧ reply_ok c ev out).

Lemma run_out c o ev out w :
  milan_ok c → (∀ i s, sinks c !! i = Some s → labels c ev i s = []) → (healthy → streams out = [] ∧ reply_ok c ev out) →
  at_world c (out ++ o) w → run_post c o ev w.
Proof.
  intros Hok Hl Hr Hw. exists (λ _, []), c, out. split; [done|]. split; [by apply ev_ok_id|]. intros Hh.
  destruct (Hr Hh) as [Hs Ha]. split; [|done]. split; [by intros; rewrite Hl| |done].
  intros i s s' H1 H2. simplify_eq. rewrite changes_same. unfold sink_streams. by rewrite Hs.
Qed.
Lemma run_quiet c o ev w : milan_ok c → (∀ i s, sinks c !! i = Some s → labels c ev i s = []) → reply_ok c ev [] → at_world c o w → run_post c o ev w.
Proof. intros Hok Hl Hr Hw. by apply (run_out c o ev []). Qed.
Lemma run_one c o ev i s Lh P A w :
  milan_ok c → sinks c !! i = Some s → (∀ j t, sinks c !! j = Some t → labels c ev j t = if decide (j = i) then Lh else []) →
  (peers c ev → P) → (∀ out, A out → reply_ok c ev out) → i_post i s c o Lh P A w → run_post c o ev w.
Proof.
  intros Hok Hs Hl HP HA (L & s' & c' & out & Hw & Hh & HF).
  exists (λ j, if decide (j = i) then L else []), (put i s' c'), out. split; [done|].
  split; [by apply (ev_ok_step c (λ _, []) c i s L s' c'); try done; apply ev_ok_id|]. intros Hhe.
  destruct (HF Hhe) as (F1 & F2 & F3 & F4). split; [|auto].
  destruct (ev_full_step c (λ _ _, []) (peers c ev) (λ _, []) c [] i s L s' c' out Lh) as [G1 G2 G3]; try done.
  - by apply ev_ok_id.
  - apply ev_full_id.
  - intros Hp. by apply F3, HP.
  - rewrite app_nil_r in G2. split; [|done|done]. intros j t Ht. rewrite (Hl j t Ht). by apply (G1 j t).
Qed.

Lemma milan_sink_ok c i s : milan_ok c → sinks c !! i = Some s → sink_ok (port_max c) s ∧ (i < length (sinks c))%nat.
Proof. intros H Hs. split; [by eapply H|by apply lookup_lt_Some in Hs]. Qed.

Lemma accepted_eq c p m :
  listener_frame (m_type m) = true →
  acmp_accepted c p m = (p_listener_entity_id (m_pdu m) =? entity_id c) && avdecc_entity_port_valid c p.
Proof. unfold acmp_accepted. by intros ->. Qed.
Lemma acmp_run p m c o w :
  random_positive → milan_ok c → at_world c o w → wp (acmp_net_rx p m) (λ _, run_post c o (EvAcmp p m)) w.
Proof.
  intros Hr Hok Hw. unfold acmp_net_rx. apply wp_bind. eapply at_gets; [done|]. fold (listener_frame (m_type m)).
  destruct (listener_frame (m_type m)) eqn:Et.
  2:{ eapply net_rx_other_spec; [done|]. intros w1 Hw1. apply run_quiet; try done; cbn; unfold acmp_label_of, acmp_accepted; rewrite Et.
      - intros i s _. by case_decide.
      - done. }
  apply wp_when. destruct (_ && _) eqn:Ea.
  all: assert (Hacc := accepted_eq c p m Et); rewrite Ea in Hacc.
  2:{ apply run_quiet; try done; cbn; unfold acmp_label_of; rewrite Hacc; [|done]. intros i s _. by case_decide. }
  apply andb_true_iff in Ea as [_ Ev]. apply wp_bind. eapply wp_mono; [by apply acmp_rcv_spec|]. intros r w1 Hp. apply wp_ret.
  unfold rcv_post in Hp. destruct (sinks c !! acmp_sink m) as [s|] eqn:Es.
  - eapply (run_one c o (EvAcmp p m) (acmp_sink m) s); [done|done| | | |exact Hp].
    + intros j t Ht. cbn. case_decide; [|done]. subst j. simplify_eq. unfold acmp_label_of. rewrite Hacc. cbn. by destruct (acmp_denied c m).
    + cbn. auto.
    + cbn. by rewrite Hacc.
  - destruct Hp as (out & Hw1 & HF). exists (λ _, []), c, out. split; [done|]. split; [by apply ev_ok_id|]. intros Hh.
    destruct (HF Hh) as [F1 F2]. cbn. rewrite Hacc. split; [|done]. split; [| |done].
    + intros i s Hs. cbn. case_decide; [subst i; congruence|done].
    + intros i s s' H1 H2. simplify_eq. rewrite changes_same. unfold sink_streams. by rewrite F1.
Qed.

Lemma timer_run_event i k c o w :
  random_positive → milan_ok c → at_world c o w → wp (sink_timer_expiry i k) (λ _, run_post c o (EvSinkTimer i k)) w.
Proof.
  intros Hr Hok Hw. destruct (sinks c !! i) as [s|] eqn:Es.
  - destruct (milan_sink_ok c i s Hok Es) as [Hs Hi]. assert (Hw1 := Hw). rewrite <- (put_id i s c Es) in Hw1.
    eapply wp_mono; [apply (sink_timer_spec i k s c o); try done; apply Hok|]. intros r w1 Hp.
    eapply (run_one c o (EvSinkTimer i k) i s); [done|done| | | |exact Hp]; [|done|].
    + intros j t Ht. cbn. case_decide; [|done]. by simplify_eq.
    + intros out Ho. split; [apply Ho|]. intros t Ht. by simplify_eq.
  - unfold sink_timer_expiry. apply wp_bind. eapply at_gets; [done|]. rewrite Es. apply run_quiet; try done.
    + intros j t Ht. cbn. case_decide; [|done]. congruence.
    + split; [done|]. by rewrite Es.
Qed.

(** The loop over sinks of a received advertisement. *)
Definition adp_inv c o ev pdu (l : list nat) (w' : world milan_call entity) : Prop :=
  ∃ L c' out, at_world c' (out ++ o) w' ∧ ev_ok c L c' ∧ config_of c' = config_of c ∧ NoDup l ∧
    (∀ j, j ∈ l → (j < length (sinks c))%nat ∧ sinks c' !! j = sinks c !! j ∧ L j = []) ∧
    (healthy → ev_full c (λ j s, if decide (j ∈ l) then [] else adp_sink_labels c s ev pdu) True L c' out ∧ silent out).

Lemma adp_labels_config c c' s ev pdu : config_of c' = config_of c → adp_sink_labels c' s ev pdu = adp_sink_labels c s ev pdu.
Proof. unfold config_of, adp_sink_labels, adp_labels, adp_milan_check_gptp. by intros [= _ _ _ _ _ _ ->]. Qed.

Lemma adp_loop ev v pdu c o w :
  ev = ADP_MILAN_LISTENER_SINK_RCV_ADP_AVAILABLE ∨ ev = ADP_MILAN_LISTENER_SINK_RCV_ADP_DEPARTING →
  random_positive → valid_ok v → milan_ok c → at_world c o w →
  wp (let! l := gets sinks in for_each (seq 0 (length l)) (adp_milan_listener_rcv_sink ev pdu v)) (λ _, adp_inv c o ev pdu []) w.
Proof.
  intros Hev Hr Hv Hok Hw. apply wp_bind. eapply at_gets; [done|]. apply (wp_for_each (adp_inv c o ev pdu)).
  - exists (λ _, []), c, []. split; [done|]. split; [by apply ev_ok_id|]. split; [done|]. split; [apply NoDup_seq|]. split.
    + intros j Hj%elem_of_seq. split; [lia|done].
    + intros _. split; [|done]. destruct (ev_full_id c True) as [F1 F2 F3]. split; [|done|done]. intros j s Hs.
      rewrite decide_True; [done|]. apply elem_of_seq. apply lookup_lt_Some in Hs. lia.
  - intros i l w1 (L & c1 & out & Hw1 & K & Hcfg & [Hn1 Hn2]%list.NoDup_cons & Hl & HF).
    destruct (Hl i) as (Hi & Hsame & HLi); [by left|]. apply lookup_lt_is_Some_2 in Hi as [s Hs].
    assert (Hs1 : sinks c1 !! i = Some s) by by rewrite Hsame. destruct (milan_sink_ok c1 i s (ek_ok _ _ _ K) Hs1) as [Hsok Hi].
    rewrite <- (put_id i s c1 Hs1) in Hw1. eapply wp_mono; [by apply (adp_sink_spec i ev v pdu s c1 (out ++ o)); try done; apply K|].
    intros _ w2 (L' & s' & c2 & out' & Hw2 & Hh & HF2). assert (Hrest := hp_rest _ _ _ _ _ _ Hh).
    exists (λ j, if decide (j = i) then L' else L j), (put i s' c2), (out' ++ out).
    split; [by rewrite <- app_assoc|]. split; [by apply (ev_ok_step c L c1 i s)|].
    split; [by destruct Hrest as [E _]; rewrite <- Hcfg, <- E|]. split; [done|]. split.
    + intros j Hj. assert (j ≠ i) by (by intros ->). destruct (Hl j) as (G1 & G2 & G3); [by right|]. split; [done|].
      rewrite put_lookup_ne by done. destruct Hrest as [_ ->]. split; [done|]. by rewrite decide_False.
    + intros Hhe. destruct (HF Hhe) as [F Fs], (HF2 Hhe) as (G1 & G2 & G3 & G4).
      split; [|unfold silent, answers in *; by rewrite omap_app, G4, Fs].
      destruct (ev_full_step c _ True L c1 out i s L' s' c2 out' (adp_sink_labels c s ev pdu) K F Hs Hs1 HLi Hh) as [E1 E2 E3]; try done.
      { by rewrite <- (adp_labels_config c c1). }
      split; [|done|done]. intros j t Ht. rewrite (E1 j t Ht). destruct (decide (j = i)) as [->|Hne].
      * simplify_eq. by rewrite decide_False.
      * apply decide_ext. rewrite elem_of_cons. naive_solver.
Qed.

Lemma adp_run p t pdu v c o w :
  random_positive → valid_ok v → milan_ok c → at_world c o w → wp (adp_net_rx p t pdu v) (λ _, run_post c o (EvAdp p t pdu v)) w.
Proof.
  intros Hr Hv Hok Hw. unfold adp_net_rx. apply wp_bind. eapply at_gets; [done|]. apply wp_when.
  destruct (avdecc_entity_port_valid c p) eqn:Ep; [|apply run_quiet; try done; intros; unfold labels; by rewrite Ep].
  assert (Hend : ∀ ev, (∀ i s, labels c (EvAdp p t pdu v) i s = adp_sink_labels c s ev pdu) → ∀ w', adp_inv c o ev pdu [] w' →
    run_post c o (EvAdp p t pdu v) w').
  { intros ev Hl w1 (L & c' & out & Hw1 & K & _ & _ & _ & HF). exists L, c', out. split; [done|]. split; [done|]. intros Hh.
    destruct (HF Hh) as [[F1 F2 F3] Fs]. split; [|done]. split; [|done|done]. intros i s Hs. by rewrite Hl, (F1 i s Hs). }
  unfold adp_milan_listener_rcv. destruct (t =? ADP_ENTITY_AVAILABLE) eqn:E1.
  { eapply wp_mono; [by apply adp_loop; auto|]. intros r w1. apply Hend. intros i s. unfold labels. by rewrite Ep, E1. }
  destruct (t =? ADP_ENTITY_DEPARTING) eqn:E2.
  { eapply wp_mono; [by apply adp_loop; auto|]. intros r w1. apply Hend. intros i s. unfold labels. by rewrite Ep, E1, E2. }
  apply run_quiet; try done. intros. unfold labels. by rewrite Ep, E1, E2.
Qed.

Lemma listener_id_some c id i : acmp_milan_get_listener_unique_id c id = Some i → ∃ s, sinks c !! i = Some s ∧ stream_id s = id.
Proof.
  intros H%find_some_in. destruct H as [_ H]. destruct (sinks c !! i) as [s|]; [|done]. exists s. split; [done|]. by apply Z.eqb_eq.
Qed.
Lemma srp_run p m c o w :
  random_positive → milan_ok c → at_world c o w → wp (avdecc_ipc_rx_srp p m) (λ _, run_post c o (EvListenerStatus p m)) w.
Proof.
  intros Hr Hok Hw. unfold avdecc_ipc_rx_srp. apply wp_bind. eapply at_gets; [done|].
  destruct (avdecc_entity_port_valid c p) eqn:Ep; [|apply run_quiet; try done; intros; unfold labels; by rewrite Ep]. cbn [negb].
  destruct (acmp_milan_get_listener_unique_id c (ls_stream_id m)) as [i|] eqn:Ei.
  - destruct (listener_id_some _ _ _ Ei) as (s & Hs & _). destruct (milan_sink_ok c i s Hok Hs) as [Hsok Hi].
    assert (Hw1 := Hw). rewrite <- (put_id i s c Hs) in Hw1.
    eapply wp_mono; [by apply (srp_spec i m s c o); try done; apply Hok|]. intros r w1 Hp.
    eapply (run_one c o (EvListenerStatus p m) i s); [done|done| | | |exact Hp]; try done.
    intros j t Ht. unfold labels. rewrite Ep, Ei. cbn [andb]. case_decide as D.
    + subst j. simplify_eq. by rewrite bool_decide_true.
    + rewrite bool_decide_false; [done|]. congruence.
  - apply run_quiet; try done. intros. unfold labels. rewrite Ep, Ei. by rewrite bool_decide_false.
Qed.

Lemma saved_run b c o w :
  random_positive → milan_ok c → at_world c o w → wp (avdecc_ipc_rx_media_stack b) (λ _, run_post c o (EvSavedBinding b)) w.
Proof.
  intros Hr Hok Hw. destruct (sinks c !! bind_listener_stream_index b) as [s|] eqn:Es.
  - destruct (milan_sink_ok c _ s Hok Es) as [Hs Hi]. assert (Hw1 := Hw). rewrite <- (put_id _ s c Es) in Hw1.
    eapply wp_mono; [by apply (saved_spec b (bind_listener_stream_index b) s c o); try done; apply Hok|]. intros r w1 Hp.
    eapply (run_one c o (EvSavedBinding b) (bind_listener_stream_index b) s); [done|done|done| | |exact Hp]; [|done]. cbn. intros H. by apply H.
  - assert (Hq : ∀ w', at_world c o w' → run_post c o (EvSavedBinding b) w').
    { intros w' Hw'. apply run_quiet; try done. intros j t Ht. cbn. case_decide; [|done]. congruence. }
    unfold avdecc_ipc_rx_media_stack. apply wp_bind. eapply at_gets; [done|]. apply wp_when. destruct (_ =? _); [|by apply Hq].
    apply wp_bind. unfold acmp_milan_listener_sink_rcv_binding_params. apply wp_bind. eapply at_gets; [done|]. rewrite Es.
    by apply wp_ret, wp_ret, Hq.
Qed.

Lemma streaming_run (start : bool) i c o w :
  milan_ok c → at_world c o w →
  wp (let! _ := (if start then acmp_milan_start_streaming i else acmp_milan_stop_streaming i) in ret tt)
    (λ _, run_post c o (if start then EvStartStreaming i else EvStopStreaming i)) w.
Proof.
  intros Hok Hw. apply wp_bind. destruct (sinks c !! i) as [s|] eqn:Es.
  - destruct (milan_sink_ok c i s Hok Es) as [Hs Hi]. assert (Hw1 := Hw). rewrite <- (put_id i s c Es) in Hw1.
    eapply wp_mono; [by apply (streaming_spec start i s c o); try done; apply Hok|]. intros r w1 Hp. apply wp_ret.
    eapply (run_one c o _ i s); [done|done| | | |exact Hp]; destruct start; try done.
    all: intros j t Ht; cbn; by case_decide.
  - eapply wp_mono; [by apply (streaming_none start i c o)|]. intros r w1 Hw1. apply wp_ret. destruct start; by apply run_quiet.
Qed.

(** ** The timeout of a command *)

Lemma timed_out_at_ok i c : milan_ok c → milan_ok (timed_out_at i c).
Proof.
  intros [M1 M2 M3]. split; [|by destruct M2|done]. intros j t. cbn. rewrite list_lookup_alter. case_decide as D; [|by apply M1].
  subst j. intros (s & Hs & ->)%fmap_Some. pose proof (M1 i s Hs) as Hok.
  apply (sink_ok_sm None _ (Some LNoResp) s); [by apply sink_ok_pre| |done].
  apply timed_out_rel; [apply Hok|apply (ao_stream _ (so_abs _ _ Hok))].
Qed.
Lemma timed_out_abs n s : sink_ok n s → abs (timed_out s) = astep (abs s) LNoResp.
Proof. intros Hok. apply (timed_out_rel s); [apply Hok|apply (ao_stream _ (so_abs _ _ Hok))]. Qed.
Lemma no_resp_settled a : settled (a_state (astep a LNoResp)) = settled (a_state a).
Proof. by destruct a as [[] ? ? ?]. Qed.

Lemma expiry_ok e c c' x :
  milan_ok c → inflight_storage c !! e = Some x → e ∈ inflight c → expiry_effect e c c' →
  ev_ok c (λ j, if decide (j = entry_sink x) then [LNoResp] else []) c' ∧ sinks c' = alter timed_out (entry_sink x) (sinks c).
Proof.
  intros Hok Hx He H. unfold expiry_effect in H. rewrite Hx, decide_True in H by done. set (i := entry_sink x) in *.
  assert (Hok1 := timed_out_at_ok i c Hok).
  assert (Hc : milan_ok c' ∧ sinks c' = alter timed_out i (sinks c)).
  { destruct (retried x).
    - subst c'. split; [|done]. split; [apply Hok1| |apply Hok1]. by apply cancel_entry_ok; [apply Hok1|].
    - destruct H as (b & _ & ->). split; [|done]. split; [apply Hok1| |apply Hok1]. by apply (put_entry_ok e x); [apply Hok1|..]. }
  destruct Hc as [Hok' Hs']. split; [|done]. split; [done|by rewrite Hs', length_alter|]. intros j s Hs.
  rewrite Hs', list_lookup_alter. destruct (decide (j = i)) as [->|Hne].
  - rewrite decide_True by done. rewrite Hs. exists (timed_out s). split; [done|]. by eapply timed_out_abs, Hok.
  - rewrite decide_False by done. by exists s.
Qed.
Lemma expiry_live e c c' x :
  milan_ok c → in_use c e x → expiry_effect e c c' → healthy → live c → live c'.
Proof.
  intros Hok Hx H Hh [L1 L2]. destruct (lc_entry _ L1 e x Hx) as (i & s & Hs & Hp & M).
  unfold expiry_effect in H. assert (Hx' := Hx). destruct Hx' as [He Hst]. rewrite Hst, decide_True, (ma_sink _ _ _ M) in H by done.
  assert (Hi := lookup_lt_Some _ _ _ Hs).
  assert (E : timed_out_at i c = put i (timed_out s) c) by (rewrite <- (put_id i s c Hs) at 1; by apply timed_out_at_put).
  assert (HL := live_timeout e x i s c (mo_inflight _ Hok) L1 Hx Hs (ma_sink _ _ _ M)). rewrite E in H.
  assert (Hc : live_core c' ∧ sinks c' = <[i := timed_out s]> (sinks c)).
  { destruct (retried x); [by subst c'|]. destruct H as (b & Hb & ->). by rewrite (Hb Hh). }
  destruct Hc as [Hc Hs']. split; [done|]. intros j t. rewrite Hs'. destruct (decide (i = j)) as [<-|Hne].
  - rewrite list_lookup_insert_eq by done. intros [= <-]. by eapply timed_out_live, L2.
  - rewrite list_lookup_insert_ne by done. apply L2.
Qed.

Lemma inflight_run e c o w :
  milan_ok c → at_world c o w → wp (inflight_timer_expiry e) (λ _, run_post c o (EvInflightTimer e)) w.
Proof.
  intros Hok Hw. eapply wp_mono; [by apply inflight_expiry_spec|]. intros r w1 (c' & out & Hw1 & He & HF).
  destruct (inflight_storage c !! e) as [x|] eqn:Ex.
  2:{ unfold expiry_effect in He. rewrite Ex in He. subst c'. apply (run_out c o _ out); try done. intros. cbn. by rewrite Ex. }
  destruct (decide (e ∈ inflight c)) as [D|D].
  2:{ unfold expiry_effect in He. rewrite Ex, decide_False in He by done. subst c'. apply (run_out c o _ out); try done. intros. cbn.
      rewrite Ex, decide_False; [done|]. naive_solver. }
  destruct (expiry_ok e c c' x Hok Ex D He) as [K Hs'].
  exists (λ j, if decide (j = entry_sink x) then [LNoResp] else []), c', out. split; [done|]. split; [done|]. intros Hh.
  destruct (HF Hh) as [F1 F2]. split; [|done]. split.
  - intros j s Hs. cbn. rewrite Ex. apply decide_ext. naive_solver.
  - intros j s s' Hs. rewrite Hs', list_lookup_alter. unfold sink_streams. rewrite F1. case_decide as E.
    + subst j. rewrite Hs. intros [= <-]. rewrite (timed_out_abs (port_max c)) by (by eapply Hok). unfold stream_changes. rewrite no_resp_settled.
      by destruct (settled _).
    + rewrite Hs. intros [= <-]. by rewrite changes_same.
  - intros _. by apply (expiry_live e c c' x).
Qed.

(** ** Every event *)

Lemma lock_run b k c o w :
  milan_ok c → at_world c o w → wp (modify (λ c : entity, c <| locked := b |> <| locking_controller_id := k |>)) (λ _, run_post c o (EvLock b k)) w.
Proof.
  intros Hok Hw. eapply at_modify; [done|]. intros w1 Hw1. eexists (λ _, []), _, []. split; [exact Hw1|].
  destruct Hok as [M1 [] M3]. split.
  - split; [by split|done|]. intros i s Hs. by exists s.
  - intros _. split; [|done]. split; [done| |].
    + intros i s s' H1 H2. cbn in H2. simplify_eq. by rewrite changes_same.
    + intros _ [[] L2]. split; [by split|done].
Qed.
Lemma grandmaster_run p id c o w :
  milan_ok c → at_world c o w →
  wp (modify (λ c : entity, c <| interfaces ::= alter (λ a, a <| gptp_grandmaster_id := id |>) p |>)) (λ _, run_post c o (EvGrandmaster p id)) w.
Proof.
  intros Hok Hw. eapply at_modify; [done|]. intros w1 Hw1. eexists (λ _, []), _, []. split; [exact Hw1|].
  destruct Hok as [M1 [] M3]. split.
  - split; [split; [done|done|]|done|]; [cbn; by rewrite length_alter|]. intros i s Hs. by exists s.
  - intros _. split; [|done]. split; [done| |].
    + intros i s s' H1 H2. cbn in H2. simplify_eq. by rewrite changes_same.
    + intros _ [[] L2]. split; [by split|done].
Qed.

Lemma handle_run ev c o w :
  random_positive → ev_valid ev → milan_ok c → at_world c o w → wp (milan_handle ev) (λ _, run_post c o ev) w.
Proof.
  intros Hr Hv Hok Hw. destruct ev; cbn [milan_handle].
  - by apply acmp_run.
  - by apply adp_run.
  - by apply srp_run.
  - by apply saved_run.
  - by apply (streaming_run true).
  - by apply (streaming_run false).
  - by apply timer_run_event.
  - by apply inflight_run.
  - by apply lock_run.
  - by apply grandmaster_run.
Qed.
End run.
