(* ===== verification/MilanInit.v ===== *)
(** * AVDECC: start and end of a Milan listener

    Initialisation gives an entity that satisfies the invariant, or fails with
    every timer destroyed; exit disconnects every stream and destroys every
    timer. *)

From S2P Require Import Prelude MaapAddr Timer Milan MilanSm MilanListener MilanSpec MilanTable MilanRefine MilanEvents MilanLive MilanHandlers MilanInputs MilanRequests MilanRun.

Definition with_sinks (l : list stream_input) (c : entity) : entity := c <| sinks := l |>.
Definition all_sinks (P : nat → stream_input → Prop) (l : list stream_input) : Prop := ∀ i s, l !! i = Some s → P i s.

Lemma with_sinks_id c : with_sinks (sinks c) c = c.
Proof. by destruct c. Qed.
Lemma all_sinks_alter (P P' : nat → stream_input → Prop) f i l :
  all_sinks P l → (∀ s, P i s → P' i (f s)) → (∀ j s, j ≠ i → P j s → P' j s) → all_sinks P' (alter f i l).
Proof.
  intros H Hi Hj j s. rewrite list_lookup_alter. case_decide as D.
  - subst j. intros (t & Ht & ->)%fmap_Some. by apply Hi, H.
  - intros Hs. apply Hj; [done|by apply H].
Qed.
Lemma all_sinks_mono (P P' : nat → stream_input → Prop) l : all_sinks P l → (∀ i s, P i s → P' i s) → all_sinks P' l.
Proof. intros H HP i s Hs. by apply HP, H. Qed.

Lemma alter_twice {A} (f g : A → A) i (l : list A) : alter f i (alter g i l) = alter (λ x, f (g x)) i l.
Proof. apply list_eq. intros j. rewrite !list_lookup_alter. case_decide as D; [|done]. subst j. rewrite decide_True by done. by destruct (l !! i). Qed.

(** The memory of a sink and of a command is zeroed before. *)
Definition acmp_timers_none (s : stream_input) : Prop :=
  acmp_retry_timer s = soft_none ∧ acmp_delay_timer s = soft_none ∧ acmp_talker_registration_timer s = soft_none ∧
  async_unsolicited_notification_timer s = soft_none.
Record sink_off (n : nat) (s : stream_input) : Prop := {
  off_acmp : acmp_timers_none s;
  off_adp : adp_discovery_timer s = soft_none;
  off_stream : stream_of s = no_stream;
  off_port : (sink_port s < n)%nat;
}.
Record sink_half (n : nat) (s : stream_input) : Prop := {
  half_acmp : acmp_timers_none s;
  half_adp : adp_discovery_timer s = soft_created;
  half_found : found s = false;
  half_stream : stream_of s = no_stream;
  half_port : (sink_port s < n)%nat;
}.
Record sink_new (n : nat) (s : stream_input) : Prop := {
  new_ok : sink_ok n s;
  new_live : sink_live s;
  new_state : state s = ACMP_LISTENER_SINK_SM_STATE_UNBOUND;
}.
Definition entries_off (c : entity) : Prop := ∀ e x, inflight_storage c !! e = Some x → timeout x = soft_none.
Record zeroed (c : entity) : Prop := {
  ze_sinks : all_sinks (λ _, sink_off (port_max c)) (sinks c);
  ze_entries : entries_off c;
  ze_ports : (length (interfaces c) ≤ port_max c)%nat;
}.
Definition no_timers (c : entity) : Prop :=
  all_sinks (λ _ s, acmp_timers_none s ∧ adp_discovery_timer s = soft_none) (sinks c) ∧ entries_off c.

Section init.
Context `{!Platform milan_call}.
Implicit Types (w : world milan_call entity) (c : entity) (s : stream_input) (o : list output).

(** ** Sinks *)

Lemma set_sink_at i f l c o Q w :
  at_world (with_sinks l c) o w → (∀ w', at_world (with_sinks (alter f i l) c) o w' → Q tt w') → wp (set_sink i f) Q w.
Proof. intros Hw HQ. eapply at_modify; [done|]. intros w' Hw'. by apply HQ. Qed.
Lemma get_sink_at i s l c o Q w : at_world (with_sinks l c) o w → l !! i = Some s → Q s w → wp (get_sink i) Q w.
Proof. intros Hw Hs HQ. unfold get_sink. apply wp_bind. eapply at_gets; [done|]. apply wp_deref. by exists s. Qed.
Lemma timer_create_spec i k l c o Q w :
  at_world (with_sinks l c) o w →
  (∀ rc w', rc < 0 → at_world (with_sinks l c) o w' → Q rc w') →
  (∀ rc w', 0 ≤ rc → at_world (with_sinks (alter (on_timer k (λ _, soft_created)) i l) c) o w' → Q rc w') →
  wp (timer_create i k) Q w.
Proof.
  intros Hw HN HP. unfold timer_create. apply wp_bind. eapply at_quiet; [done..|]. intros n w1 Hw1. apply wp_bind, wp_when.
  destruct (_ <? 0) eqn:E; cbn [negb].
  - apply wp_ret, HN; [by apply Z.ltb_lt|done].
  - eapply set_sink_at; [done|]. intros w2 Hw2. apply wp_ret, HP; [by apply Z.ltb_ge|done].
Qed.
(** A loop that updates the sinks [ll]. *)
Lemma sinks_loop (P P' : nat → stream_input → Prop) (f : nat → M milan_call entity unit) (g : stream_input → stream_input) ll c :
  (∀ i l o w (Q : unit → world milan_call entity → Prop), at_world (with_sinks l c) o w →
     (∀ w', at_world (with_sinks (alter g i l) c) o w' → Q tt w') → wp (f i) Q w) →
  (∀ i s, P i s → P' i (g s)) → NoDup ll →
  ∀ l o w, at_world (with_sinks l c) o w → all_sinks (λ i s, if decide (i ∈ ll) then P i s else P' i s) l →
  wp (for_each ll f) (λ _ w', ∃ l', at_world (with_sinks l' c) o w' ∧ all_sinks P' l' ∧ length l' = length l) w.
Proof.
  intros Hf Hg. induction ll as [|i ll IH]; intros Hnd l o w Hw Hl.
  - exists l. split; [done|]. split; [|done]. eapply all_sinks_mono; [exact Hl|]. intros j s Hs. cbn beta in Hs. by rewrite decide_False in Hs by (by intros ?%elem_of_nil).
  - apply list.NoDup_cons in Hnd as [Hn Hnd]. cbn [for_each]. apply wp_bind. eapply Hf; [done|]. intros w1 Hw1.
    eapply wp_mono; [apply (IH Hnd _ _ _ Hw1)|].
    + eapply all_sinks_alter; [exact Hl| |].
      * intros s. cbn beta. rewrite decide_True by by left. rewrite decide_False by done. apply Hg.
      * intros j s Hj. cbn beta. destruct (decide (j ∈ ll)); [by rewrite decide_True by by right|]. rewrite decide_False; [done|].
        by intros [?|?]%elem_of_cons.
    + intros _ w2 (l' & H1 & H2 & H3). exists l'. by rewrite H3, length_alter.
Qed.

Definition acmp_off (s : stream_input) : stream_input :=
  on_timer TMR_NOTIFICATION (λ _, soft_none) (on_timer TMR_NO_TK (λ _, soft_none)
    (on_timer TMR_DELAY (λ _, soft_none) (on_timer TMR_RETRY (λ _, soft_none) s))).
Definition acmp_created (s : stream_input) : stream_input :=
  on_timer TMR_NOTIFICATION (λ _, soft_created) (on_timer TMR_NO_TK (λ _, soft_created)
    (on_timer TMR_DELAY (λ _, soft_created) (on_timer TMR_RETRY (λ _, soft_created) s))).
Lemma destroy_acmp_spec i l c o w (Q : unit → world milan_call entity → Prop) :
  at_world (with_sinks l c) o w → (∀ w', at_world (with_sinks (alter acmp_off i l) c) o w' → Q tt w') →
  wp (acmp_milan_listener_sink_exit_timers i) Q w.
Proof.
  intros Hw HQ. unfold acmp_milan_listener_sink_exit_timers, timer_destroy. cbn [for_each].
  apply wp_bind. eapply set_sink_at; [done|]. intros w1 Hw1. apply wp_bind. eapply set_sink_at; [done|]. intros w2 Hw2.
  apply wp_bind. eapply set_sink_at; [done|]. intros w3 Hw3. apply wp_bind. eapply set_sink_at; [done|]. intros w4 Hw4.
  rewrite !alter_twice in Hw4. apply wp_ret. exact (HQ _ Hw4).
Qed.

(** The four timers are created, or none is. *)
Lemma alter_restore (h : stream_input → stream_input) (i : nat) (l : list stream_input) : (∀ s, l !! i = Some s → h s = s) → alter h i l = l.
Proof.
  intros H. apply list_eq. intros j. rewrite list_lookup_alter. case_decide as D; [|done]. subst j.
  destruct (l !! i) as [s|] eqn:E; [cbn; by rewrite H|done].
Qed.
Lemma create_acmp_spec i l c o w (Q : Z → world milan_call entity → Prop) :
  at_world (with_sinks l c) o w → (∀ s, l !! i = Some s → acmp_timers_none s) →
  (∀ rc w', rc < 0 → at_world (with_sinks l c) o w' → Q rc w') →
  (∀ w', at_world (with_sinks (alter acmp_created i l) c) o w' → Q 0 w') →
  wp (acmp_milan_listener_sink_init_timers i) Q w.
Proof.
  intros Hw Hn HF HS. unfold acmp_milan_listener_sink_init_timers. cbn [sink_timers_create].
  assert (Hfail : ∀ ks l' w', at_world (with_sinks l' c) o w' →
    (∀ w'', at_world (with_sinks (foldl (λ l k, alter (on_timer k (λ _, soft_none)) i l) l' ks) c) o w'' → at_world (with_sinks l c) o w'') →
    wp (for_each ks (timer_destroy i);; ret (-1)) Q w').
  { intros ks. induction ks as [|k ks IH]; intros l' w' Hw' Hend.
    - apply wp_bind, wp_ret. apply (wp_ret (-1)). apply HF; [done|by apply Hend].
    - cbn [for_each]. apply wp_bind, wp_bind. eapply set_sink_at; [done|]. intros w1 Hw1.
      apply (proj1 (wp_bind _ _ _ _)). apply (IH _ w1 Hw1). intros w2 Hw2. by apply Hend. }
  apply wp_bind. eapply timer_create_spec; [exact Hw| |].
  { intros rc w1 Hrc Hw1. rewrite (proj2 (Z.ltb_lt _ _) Hrc). by apply (Hfail [] l). }
  intros rc1 w1 Hr1 Hw1. rewrite (proj2 (Z.ltb_ge _ _) Hr1). apply wp_bind. eapply timer_create_spec; [exact Hw1| |].
  { intros rc w2 Hrc Hw2. rewrite (proj2 (Z.ltb_lt _ _) Hrc). apply (Hfail [TMR_RETRY] _ _ Hw2). cbn [foldl]. rewrite alter_twice.
    rewrite alter_restore; [done|]. intros s Hs. destruct (Hn s Hs) as (T1 & T2 & T3 & T4). apply sink_ext; cbn; auto. }
  intros rc2 w2 Hr2 Hw2. rewrite (proj2 (Z.ltb_ge _ _) Hr2). apply wp_bind. eapply timer_create_spec; [exact Hw2| |].
  { intros rc w3 Hrc Hw3. rewrite (proj2 (Z.ltb_lt _ _) Hrc). apply (Hfail [TMR_DELAY; TMR_RETRY] _ _ Hw3). cbn [foldl]. rewrite !alter_twice.
    rewrite alter_restore; [done|]. intros s Hs. destruct (Hn s Hs) as (T1 & T2 & T3 & T4). apply sink_ext; cbn; auto. }
  intros rc3 w3 Hr3 Hw3. rewrite (proj2 (Z.ltb_ge _ _) Hr3). apply wp_bind. eapply timer_create_spec; [exact Hw3| |].
  { intros rc w4 Hrc Hw4. rewrite (proj2 (Z.ltb_lt _ _) Hrc). apply (Hfail [TMR_NO_TK; TMR_DELAY; TMR_RETRY] _ _ Hw4). cbn [foldl].
    rewrite !alter_twice. rewrite alter_restore; [done|]. intros s Hs. destruct (Hn s Hs) as (T1 & T2 & T3 & T4). apply sink_ext; cbn; auto. }
  intros rc4 w4 Hr4 Hw4. rewrite (proj2 (Z.ltb_ge _ _) Hr4). rewrite !alter_twice in Hw4. apply wp_ret. exact (HS _ Hw4).
Qed.

(** ** The loops of initialisation *)

(** Sinks in [d] satisfy [P1], the others [P0]. *)
Definition split_sinks (P1 P0 : stream_input → Prop) (d : list nat) (l : list stream_input) : Prop :=
  all_sinks (λ i s, if decide (i ∈ d) then P1 s else P0 s) l.
Lemma split_alter P1 P0 f i d l :
  split_sinks P1 P0 d l → i ∉ d → (∀ s, P0 s → P1 (f s)) → split_sinks P1 P0 (i :: d) (alter f i l).
Proof.
  intros Hl Hi Hf. eapply all_sinks_alter; [exact Hl| |].
  - intros s. cbn beta. rewrite decide_False by done. rewrite decide_True by by left. apply Hf.
  - intros j s Hj. cbn beta. destruct (decide (j ∈ d)).
    + by rewrite decide_True by by right.
    + rewrite decide_False; [done|]. by intros [?|?]%elem_of_cons.
Qed.
Lemma split_keep P1 P0 f i d l :
  split_sinks P1 P0 d l → i ∉ d → (∀ s, P0 s → P0 (f s)) → split_sinks P1 P0 d (alter f i l).
Proof.
  intros Hl Hi Hf. eapply all_sinks_alter; [exact Hl| |done]. intros s. cbn beta. rewrite !decide_False by done. apply Hf.
Qed.
Lemma split_undo P1 P0 d l (f : nat → M milan_call entity unit) (g : stream_input → stream_input) c o w (Q : unit → world milan_call entity → Prop) :
  split_sinks P1 P0 d l → NoDup d → at_world (with_sinks l c) o w → (∀ s, P1 s → P0 (g s)) →
  (∀ i l o w (Q : unit → world milan_call entity → Prop), at_world (with_sinks l c) o w →
     (∀ w', at_world (with_sinks (alter g i l) c) o w' → Q tt w') → wp (f i) Q w) →
  (∀ l' w', at_world (with_sinks l' c) o w' → length l' = length l → all_sinks (λ _, P0) l' → Q tt w') → wp (for_each d f) Q w.
Proof.
  intros Hl Hd Hw Hg Hf HQ. eapply wp_mono; [apply (sinks_loop (λ _, P1) (λ _, P0) f g d c); try done; by intros _|].
  intros [] w1 (l' & H1 & H2 & H3). by apply (HQ l').
Qed.

Section loops.
Context (n : nat) (c : entity).

Lemma half_off s : sink_half n s → sink_off n (on_timer TMR_NO_ADP (λ _, soft_none) s).
Proof. intros []. by split. Qed.
Lemma off_half s : sink_off n s → sink_half n ((on_timer TMR_NO_ADP (λ _, soft_created) s) <| talker_state := ADP_LISTENER_SINK_TALKER_STATE_NOT_DISCOVERED |>).
Proof. intros []. by split. Qed.
Lemma off_indices s : sink_off n s → sink_off n (s <| interface_index := 0 |> <| available_index := 0 |>).
Proof. intros []. by split. Qed.

Lemma discovery_loop_spec ll : ∀ d l o w (Q : Z → world milan_call entity → Prop),
  NoDup (ll ++ d) → (∀ i, i ∈ ll → (i < length l)%nat) → split_sinks (sink_half n) (sink_off n) d l → at_world (with_sinks l c) o w →
  (∀ rc l' w', rc < 0 → at_world (with_sinks l' c) o w' → length l' = length l → all_sinks (λ _, sink_off n) l' → Q rc w') →
  (∀ l' w', at_world (with_sinks l' c) o w' → length l' = length l → split_sinks (sink_half n) (sink_off n) (reverse ll ++ d) l' → Q 0 w') →
  wp (discovery_init_loop ll d) Q w.
Proof.
  induction ll as [|i ll IH]; intros d l o w Q Hnd Hlt Hl Hw HF HS; cbn [discovery_init_loop].
  { apply wp_ret. by apply (HS l). }
  apply list.NoDup_cons in Hnd as [Hi Hnd]. assert (Hid : i ∉ d) by (intros ?; apply Hi, list.elem_of_app; by right).
  destruct (lookup_lt_is_Some_2 l i (Hlt i ltac:(by left))) as [s Hs].
  apply wp_bind. eapply get_sink_at; [done..|]. apply wp_bind. eapply set_sink_at; [done|]. intros w1 Hw1.
  assert (Hl1 := split_keep _ _ _ i d l Hl Hid off_indices).
  apply wp_bind. eapply timer_create_spec; [done| |].
  - intros rc w2 Hrc Hw2. rewrite (proj2 (Z.ltb_lt _ _) Hrc). apply wp_bind.
    eapply (split_undo (sink_half n) (sink_off n) d); [exact Hl1|by apply list.NoDup_app in Hnd as (_&_&?)|exact Hw2|apply half_off| |].
    + intros j l0 o0 w0 Q0 Hw0 HQ0. by eapply set_sink_at.
    + intros l' w3 Hw3 Hlen Hall. apply wp_ret. apply (HF (-1) l'); try done. by rewrite Hlen, length_alter.
  - intros rc w2 Hrc Hw2. rewrite (proj2 (Z.ltb_ge _ _) Hrc). apply wp_bind. eapply set_sink_at; [done|]. intros w3 Hw3.
    rewrite alter_twice in Hw3.
    assert (Hl2 := split_alter _ _ _ i d _ Hl1 Hid off_half).
    assert (Hperm : i :: ll ++ d ≡ₚ ll ++ i :: d) by apply Permutation_middle.
    eapply (IH (i :: d)); [by rewrite <- Hperm; apply list.NoDup_cons| |exact Hl2|exact Hw3| |].
    + intros j Hj. rewrite !length_alter. apply Hlt. by right.
    + intros rc' l' w4 Hrc' Hw4 Hlen Hall. apply (HF rc' l'); try done. by rewrite Hlen, !length_alter.
    + intros l' w4 Hw4 Hlen Hall. apply (HS l'); [done|by rewrite Hlen, !length_alter|].
      by rewrite reverse_cons, <- app_assoc.
Qed.

Lemma half_init s : sink_half n s → sink_half n (sink_init s).
Proof. intros []. by split. Qed.
Lemma half_new s : sink_half n s → sink_new n (acmp_created (sink_init s)).
Proof.
  intros [_ H2 H3 H4 H5]. assert (Hf : found (acmp_created (sink_init s)) = false) by exact H3.
  assert (Ha : abs (acmp_created (sink_init s)) = ASink ACMP_LISTENER_SINK_SM_STATE_UNBOUND false no_stream (0, 0)).
  { unfold abs. rewrite Hf. f_equal. exact H4. }
  split; [|by split|done]. split; [by split| | |by split|done].
  - rewrite Hf. exact H2.
  - rewrite Ha. by split.
Qed.
Lemma new_half s : sink_new n s → sink_half n (acmp_off s).
Proof.
  intros [[_ H2 [A1 A2 _] _ H5] _ Hst]. cbn in A1, A2. rewrite Hst in A1, A2.
  assert (Hf : found s = false) by (apply A2; by left). split; [done| |exact Hf|by apply A1|done].
  change (adp_discovery_timer s = soft_created). by rewrite H2, Hf.
Qed.

Lemma milan_loop_spec ll : ∀ d l o w (Q : Z → world milan_call entity → Prop),
  NoDup (ll ++ d) → (∀ i, i ∈ ll → (i < length l)%nat) → split_sinks (sink_new n) (sink_half n) d l → at_world (with_sinks l c) o w →
  (∀ rc l' w', rc < 0 → at_world (with_sinks l' c) o w' → length l' = length l → all_sinks (λ _, sink_half n) l' → Q rc w') →
  (∀ l' w', at_world (with_sinks l' c) o w' → length l' = length l → split_sinks (sink_new n) (sink_half n) (reverse ll ++ d) l' → Q 0 w') →
  wp (milan_init_loop ll d) Q w.
Proof.
  induction ll as [|i ll IH]; intros d l o w Q Hnd Hlt Hl Hw HF HS; cbn [milan_init_loop].
  { apply wp_ret. by apply (HS l). }
  apply list.NoDup_cons in Hnd as [Hi Hnd]. assert (Hid : i ∉ d) by (intros ?; apply Hi, list.elem_of_app; by right).
  destruct (lookup_lt_is_Some_2 l i (Hlt i ltac:(by left))) as [s Hs].
  apply wp_bind. eapply get_sink_at; [done..|]. apply wp_bind. eapply set_sink_at; [done|]. intros w1 Hw1.
  assert (Hl1 := split_keep _ _ _ i d l Hl Hid half_init).
  apply wp_bind. eapply create_acmp_spec; [exact Hw1| | |].
  - intros t Ht. specialize (Hl1 i t Ht). cbn beta in Hl1. rewrite decide_False in Hl1 by done. apply Hl1.
  - intros rc w2 Hrc Hw2. rewrite (proj2 (Z.ltb_lt _ _) Hrc). apply wp_bind.
    eapply (split_undo (sink_new n) (sink_half n) d); [exact Hl1|by apply list.NoDup_app in Hnd as (_&_&?)|exact Hw2|apply new_half| |].
    + intros j l0 o0 w0 Q0 Hw0 HQ0. by eapply destroy_acmp_spec.
    + intros l' w3 Hw3 Hlen Hall. apply wp_ret. apply (HF (-1) l'); try done. by rewrite Hlen, length_alter.
  - intros w2 Hw2. change (0 <? 0) with false. cbn match. rewrite alter_twice in Hw2.
    assert (Hl2 := split_alter _ _ _ i d _ Hl Hid half_new).
    assert (Hperm : i :: ll ++ d ≡ₚ ll ++ i :: d) by apply Permutation_middle.
    eapply (IH (i :: d)); [by rewrite <- Hperm; apply list.NoDup_cons| |exact Hl2|exact Hw2| |].
    + intros j Hj. rewrite !length_alter. apply Hlt. by right.
    + intros rc' l' w4 Hrc' Hw4 Hlen Hall. apply (HF rc' l'); try done. by rewrite Hlen, !length_alter.
    + intros l' w4 Hw4 Hlen Hall. apply (HS l'); [done|by rewrite Hlen, !length_alter|].
      by rewrite reverse_cons, <- app_assoc.
Qed.
End loops.

(** ** Commands *)

Definition with_storage (l : list inflight_ctx) (c : entity) : entity := c <| inflight_storage := l |>.
Definition split_entries (d : list nat) (l : list inflight_ctx) : Prop :=
  ∀ e x, l !! e = Some x → timeout x = if decide (e ∈ d) then soft_created else soft_none.
Lemma split_entries_alter b e d l :
  split_entries d l → e ∉ d → b = soft_created →
  split_entries (e :: d) (alter (λ x, x <| timeout := b |>) e l).
Proof.
  intros Hl He -> f x. rewrite list_lookup_alter. case_decide as D.
  - subst f. intros (y & _ & ->)%fmap_Some. by rewrite decide_True by by left.
  - intros Hx. rewrite (Hl f x Hx). destruct (decide (f ∈ d)); [by rewrite decide_True by by right|].
    rewrite decide_False; [done|]. by intros [?|?]%elem_of_cons.
Qed.

(** Destroying the timers of [d], or of every entry. *)
Lemma destroy_entries d : ∀ l c o w (Q : unit → world milan_call entity → Prop),
  at_world (with_storage l c) o w →
  (∀ l' w', at_world (with_storage l' c) o w' → length l' = length l →
     (∀ e x', l' !! e = Some x' → e ∈ d ∧ timeout x' = soft_none ∨ e ∉ d ∧ l !! e = Some x') → Q tt w') →
  wp (for_each d inflight_timer_destroy) Q w.
Proof.
  induction d as [|e d IH]; intros l c o w Q Hw HQ; cbn [for_each].
  - apply wp_ret. apply (HQ l); [done|done|]. intros e x Hx. right. split; [by intros ?%elem_of_nil|done].
  - apply wp_bind. eapply at_modify; [done|]. intros w1 Hw1. eapply (IH (alter (λ x, x <| timeout := soft_none |>) e l) c); [exact Hw1|].
    intros l' w2 Hw2 Hlen Hl'. apply (HQ l'); [done|by rewrite Hlen, length_alter|]. intros f x Hx.
    destruct (Hl' f x Hx) as [[H1 H2]|[H1 H2]]; [left; split; [by right|done]|]. rewrite list_lookup_alter in H2. case_decide as D.
    + subst f. apply fmap_Some in H2 as (y & Hy & ->). left. split; [by left|done].
    + right. split; [|done]. by intros [->|?]%elem_of_cons.
Qed.

Definition with_inflight (l : list inflight_ctx) (d : list nat) (c : entity) : entity :=
  c <| inflight_storage := l |> <| free_inflight := d |>.
Lemma inflight_loop_spec c ll : ∀ d l o w (Q : Z → world milan_call entity → Prop),
  NoDup (ll ++ d) → split_entries d l → at_world (with_inflight l d c) o w →
  (∀ l' d' w', at_world (with_inflight l' d' c) o w' → length l' = length l → (∀ e x, l' !! e = Some x → timeout x = soft_none) → Q (-1) w') →
  (∀ l' w', at_world (with_inflight l' (reverse ll ++ d) c) o w' → length l' = length l → split_entries (reverse ll ++ d) l' → Q 0 w') →
  wp (inflight_init_loop ll d) Q w.
Proof.
  induction ll as [|e ll IH]; intros d l o w Q Hnd Hl Hw HF HS; cbn [inflight_init_loop].
  { apply wp_ret. by apply (HS l). }
  apply list.NoDup_cons in Hnd as [Hi Hnd]. assert (Hed : e ∉ d) by (intros ?; apply Hi, list.elem_of_app; by right).
  apply wp_bind. eapply at_modify; [done|]. intros w1 Hw1. change (at_world (with_inflight l (e :: d) c) o w1) in Hw1.
  apply wp_bind. unfold inflight_timer_create. apply wp_bind. eapply at_quiet; [done..|]. intros r w2 Hw2.
  apply wp_bind, wp_when. destruct (answer r (InflightTimerCreate e) <? 0) eqn:E; cbn [negb].
  - apply wp_ret. rewrite E. apply wp_bind. change (with_inflight l (e :: d) c) with (with_storage l (with_inflight l (e :: d) c)) in Hw2.
    eapply (destroy_entries d); [exact Hw2|]. intros l' w3 Hw3 Hlen Hl'. apply wp_ret. apply (HF l' (e :: d)); [exact Hw3|done|].
    intros f x Hx. destruct (Hl' f x Hx) as [[_ ?]|[Hf Hx']]; [done|]. rewrite (Hl f x Hx'). by rewrite decide_False.
  - eapply at_modify; [done|]. intros w3 Hw3. apply wp_ret. rewrite E.
    change (at_world (with_inflight (alter (λ x, x <| timeout := soft_created |>) e l) (e :: d) c) o w3) in Hw3.
    assert (Hl2 := split_entries_alter soft_created e d l Hl Hed eq_refl).
    assert (Hperm : e :: ll ++ d ≡ₚ ll ++ e :: d) by apply Permutation_middle.
    eapply (IH (e :: d)); [by rewrite <- Hperm; apply list.NoDup_cons|exact Hl2|exact Hw3| |].
    + intros l' d' w4 Hw4 Hlen Hall. apply (HF l' d'); try done. by rewrite Hlen, length_alter.
    + intros l' w4 Hw4 Hlen Hall. apply (HS l'); [by rewrite reverse_cons, <- app_assoc|by rewrite Hlen, length_alter|].
      by rewrite reverse_cons, <- app_assoc.
Qed.

(** ** Initialisation of the entity *)

Record started (c c' : entity) : Prop := {
  st_ok : milan_ok c';
  st_new : all_sinks (λ _, sink_new (port_max c)) (sinks c');
  st_idle : inflight c' = [];
  st_sizes : length (sinks c') = length (sinks c) ∧ length (inflight_storage c') = length (inflight_storage c);
  st_config : config_of c' = config_of c;
}.

Lemma exit_entries_spec l c o w (Q : unit → world milan_call entity → Prop) :
  at_world (with_storage l c) o w →
  (∀ l' w', at_world (with_storage l' c) o w' → length l' = length l → (∀ e x, l' !! e = Some x → timeout x = soft_none) → Q tt w') →
  wp avdecc_inflight_exit Q w.
Proof.
  intros Hw HQ. unfold avdecc_inflight_exit. apply wp_bind. eapply at_gets; [done|]. eapply destroy_entries; [exact Hw|].
  intros l' w1 Hw1 Hlen Hl'. apply (HQ l'); [done..|]. intros e x Hx. destruct (Hl' e x Hx) as [[_ ?]|[Hn _]]; [done|].
  exfalso. apply Hn, elem_of_seq. apply lookup_lt_Some in Hx. change (inflight_storage (with_storage l c)) with l. lia.
Qed.
Lemma exit_discovery_spec n l c o w (P : stream_input → Prop) (Q : unit → world milan_call entity → Prop) :
  at_world (with_sinks l c) o w → all_sinks (λ _, P) l → (∀ s, P s → sink_off n (on_timer TMR_NO_ADP (λ _, soft_none) s)) →
  (∀ l' w', at_world (with_sinks l' c) o w' → length l' = length l → all_sinks (λ _, sink_off n) l' → Q tt w') →
  wp adp_milan_listener_sink_discovery_exit Q w.
Proof.
  intros Hw Hl HP HQ. unfold adp_milan_listener_sink_discovery_exit. apply wp_bind. eapply at_gets; [done|].
  eapply (split_undo P (sink_off n) (seq 0 (length l))); [|apply NoDup_seq|exact Hw|exact HP| |].
  - intros i s Hs. cbn beta. rewrite decide_True; [by eapply Hl|]. apply elem_of_seq. apply lookup_lt_Some in Hs. lia.
  - intros j l0 o0 w0 Q0 Hw0 HQ0. by eapply set_sink_at.
  - exact HQ.
Qed.

Lemma off_no_timers n c l :
  all_sinks (λ _, sink_off n) (sinks c) → (∀ e x, l !! e = Some x → timeout x = soft_none) → no_timers (with_storage l c).
Proof. intros H1 H2. split; [|done]. eapply all_sinks_mono; [exact H1|]. by intros i s []. Qed.

Lemma started_inflight c l cfg :
  inflight_storage cfg = l → length l = length (inflight_storage c) → inflight cfg = [] →
  free_inflight cfg = reverse (seq 0 (length l)) → split_entries (reverse (seq 0 (length l))) l → inflight_ok cfg.
Proof.
  intros E1 E2 E3 E4 Hl. split.
  - rewrite E3, E4. cbn. rewrite reverse_Permutation. apply NoDup_seq.
  - intros e. rewrite E3, E4, E1. cbn. rewrite elem_of_reverse, elem_of_seq. lia.
  - intros e x. rewrite E1, E3. intros Hx. rewrite (Hl e x Hx), decide_True; [by rewrite bool_decide_false by (by intros ?%elem_of_nil)|].
    apply elem_of_reverse, elem_of_seq. apply lookup_lt_Some in Hx. lia.
  - intros e x. rewrite E3. by intros ?%elem_of_nil.
Qed.

Lemma entity_init_spec c o w :
  zeroed c → at_world c o w →
  wp avdecc_entity_init (λ ok w', ∃ c', at_world c' o w' ∧ if ok then started c c' else no_timers c') w.
Proof.
  intros [Z1 Z2 Z3] Hw. set (n := port_max c). set (m := length (inflight_storage c)). set (k := length (sinks c)).
  unfold avdecc_entity_init. apply wp_bind. unfold avdecc_inflight_init. apply wp_bind. eapply at_gets; [done|]. fold m.
  apply wp_bind. eapply at_modify; [done|]. intros w1 Hw1.
  assert (Hs0 : split_entries [] (inflight_storage c)) by (intros e x Hx; rewrite decide_False by (by intros ?%elem_of_nil); eauto).
  change (at_world (with_inflight (inflight_storage c) [] c) o w1) in Hw1 || idtac.
  eapply (inflight_loop_spec c (seq 0 m) [] (inflight_storage c)); [rewrite app_nil_r; apply NoDup_seq|exact Hs0| | |].
  { revert Hw1. unfold with_inflight, over, over_field. by destruct c. }
  { intros l d w2 Hw2 Hlen Hl. cbn match. apply wp_ret. eexists. split; [exact Hw2|].
    by apply (off_no_timers n (with_inflight l d c)). }
  rewrite app_nil_r. intros l1 w2 Hw2 Hlen1 Hl1. change (0 <? 0) with false. cbn match.
  set (c1 := with_inflight l1 (reverse (seq 0 m)) c) in Hw2.
  apply wp_bind. unfold adp_milan_listener_sink_discovery_init. apply wp_bind. eapply at_gets; [done|].
  change (length (sinks c1)) with k. rewrite <- (with_sinks_id c1) in Hw2.
  assert (Hex : ∀ l c2 o w, at_world (with_sinks l c2) o w → all_sinks (λ _, sink_off n) l →
    wp (avdecc_inflight_exit;; ret false) (λ ok w', ∃ c', at_world c' o w' ∧ if ok then started c c' else no_timers c') w).
  { intros l c2 o0 w0 Hw0 Hl. apply wp_bind. change (with_sinks l c2) with (with_storage (inflight_storage c2) (with_sinks l c2)) in Hw0.
    eapply exit_entries_spec; [exact Hw0|]. intros l' w3 Hw3 _ Hl'. apply wp_ret. eexists. split; [exact Hw3|].
    by apply (off_no_timers n (with_sinks l c2)). }
  eapply (discovery_loop_spec n c1 (seq 0 k) [] (sinks c1)); [rewrite app_nil_r; apply NoDup_seq| | |exact Hw2| |].
  { intros i Hi%elem_of_seq. change (length (sinks c1)) with k. lia. }
  { intros i s Hs. cbn beta. rewrite decide_False by (by intros ?%elem_of_nil). by eapply Z1. }
  { intros rc l w3 Hrc Hw3 _ Hl. rewrite (proj2 (Z.ltb_lt _ _) Hrc). by eapply Hex. }
  rewrite app_nil_r. intros l2 w3 Hw3 Hlen2 Hl2. change (0 <? 0) with false. cbn match. change (length (sinks c1)) with k in Hlen2.
  assert (Hall2 : all_sinks (λ _, sink_half n) l2).
  { intros i s Hs. specialize (Hl2 i s Hs). cbn beta in Hl2. rewrite decide_True in Hl2; [done|].
    apply elem_of_reverse, elem_of_seq. apply lookup_lt_Some in Hs. lia. }
  apply wp_bind. unfold acmp_milan_init. apply wp_bind. eapply at_modify; [exact Hw3|]. intros w4 Hw4.
  set (c2 := c1 <| inflight := [] |>). change (at_world (with_sinks l2 c2) o w4) in Hw4.
  apply wp_bind. eapply at_gets; [done|]. change (length (sinks (with_sinks l2 c2))) with (length l2).
  eapply (milan_loop_spec n c2 (seq 0 (length l2)) [] l2); [rewrite app_nil_r; apply NoDup_seq| | |exact Hw4| |].
  { intros i Hi%elem_of_seq. lia. }
  { intros i s Hs. cbn beta. rewrite decide_False by (by intros ?%elem_of_nil). by eapply Hall2. }
  { intros rc l w5 Hrc Hw5 Hlen Hl. rewrite (proj2 (Z.ltb_lt _ _) Hrc). apply wp_bind.
    eapply (exit_discovery_spec n); [exact Hw5|exact Hl|apply half_off|]. intros l' w6 Hw6 _ Hl'. by eapply Hex. }
  rewrite app_nil_r. intros l3 w5 Hw5 Hlen3 Hl3. change (0 <? 0) with false. cbn match. apply wp_ret.
  assert (Hall3 : all_sinks (λ _, sink_new n) l3).
  { intros i s Hs. specialize (Hl3 i s Hs). cbn beta in Hl3. rewrite decide_True in Hl3; [done|].
    apply elem_of_reverse, elem_of_seq. apply lookup_lt_Some in Hs. lia. }
  eexists. split; [exact Hw5|]. split; [split| |done| |done].
  - intros i s Hs. by apply (Hall3 i s).
  - eapply (started_inflight c l1); [done|done|done| |]; cbn; rewrite Hlen1; done.
  - done.
  - exact Hall3.
  - split; [|done]. change (length l3 = k). lia.
Qed.

Lemma started_live c c' :
  started c c' → (length (sinks c) < length (inflight_storage c))%nat → Z.of_nat (length (sinks c)) ≤ 65536 → live c'.
Proof.
  intros [H1 H2 H3 [H4 H5] H6] Hf Hn. split.
  - split.
    + intros e x [He _]. rewrite H3 in He. by apply elem_of_nil in He.
    + intros i s Hs. rewrite (new_state _ _ (H2 i s Hs)). done.
    + intros e f x y [He _]. rewrite H3 in He. by apply elem_of_nil in He.
    + by rewrite H4, H5.
  - intros i s Hs. by apply (new_live _ _ (H2 i s Hs)).
Qed.

(** ** Exit *)

(** What the end of the entity says about the stream of a sink. *)
Definition end_streams (i : nat) (s : stream_input) : list (bool * nat * Z) :=
  if settled (state s) then [(false, i, stream_id s)] else [].

Definition exit_inv c o (ll : list nat) (w' : world milan_call entity) : Prop :=
  ∃ l out, at_world (with_sinks l c) (out ++ o) w' ∧ length l = length (sinks c) ∧ NoDup ll ∧
    (∀ j s, l !! j = Some s → if decide (j ∈ ll) then sinks c !! j = Some s else acmp_timers_none s) ∧
    (healthy → ∀ j s, sinks c !! j = Some s → sink_streams j out = if decide (j ∈ ll) then [] else end_streams j s).

Lemma acmp_off_none s : acmp_timers_none (acmp_off s).
Proof. done. Qed.
Lemma with_sinks_put i s l c : l !! i = Some s → with_sinks l c = put i s (with_sinks l c).
Proof. intros H. symmetry. by apply put_id. Qed.
Lemma disconnect_streams c i j s : sink_streams j (disconnect_out c i s) = if decide (i = j) then [(false, i, stream_id s)] else [].
Proof.
  unfold sink_streams, disconnect_out. destruct (srp_enabled c); cbn; rewrite ?filter_cons; cbn; by case_decide.
Qed.

Lemma exit_sink_spec c o i ll w :
  (∀ i s, sinks c !! i = Some s → (sink_port s < port_max c)%nat) → (i < length (sinks c))%nat → exit_inv c o (i :: ll) w →
  wp (let! s := get_sink i in
      when (is_settled s) (let! _ := acmp_listener_stack_disconnect i in ret tt);;
      acmp_milan_listener_sink_exit_timers i) (λ _, exit_inv c o ll) w.
Proof.
  intros Hp Hi (l & out & Hw & Hlen & [Hn Hnd]%list.NoDup_cons & Hl & HF).
  assert (Hil : (i < length l)%nat) by lia. apply lookup_lt_is_Some_2 in Hil as [s Hs].
  assert (Hsc := Hl i s Hs). rewrite decide_True in Hsc by by left.
  assert (Hnext : ∀ out' w', at_world (with_sinks l c) (out' ++ out ++ o) w' →
    (healthy → ∀ j, sink_streams j out' = if decide (i = j) then end_streams i s else []) →
    wp (acmp_milan_listener_sink_exit_timers i) (λ _, exit_inv c o ll) w').
  { intros out' w1 Hw1 Hs1. eapply destroy_acmp_spec; [exact Hw1|]. intros w2 Hw2.
    exists (alter acmp_off i l), (out' ++ out). split; [by rewrite <- app_assoc|]. split; [by rewrite length_alter|]. split; [done|]. split.
    - intros j t. rewrite list_lookup_alter. destruct (decide (i = j)) as [<-|Hne].
      + rewrite Hs. intros [= <-]. by rewrite decide_False.
      + intros Ht. specialize (Hl j t Ht). destruct (decide (j ∈ ll)); [by rewrite decide_True in Hl by by right|].
        rewrite decide_False in Hl; [done|]. intros [->|?]%elem_of_cons; done.
    - intros Hh j t Ht. rewrite sink_streams_app, (Hs1 Hh j), (HF Hh j t Ht). destruct (decide (i = j)) as [<-|Hne].
      + simplify_eq. rewrite (decide_True (P := i ∈ i :: ll)) by by left. by rewrite decide_False, app_nil_r.
      + destruct (decide (j ∈ ll)); [by rewrite decide_True by by right|]. rewrite decide_False; [done|].
        intros [->|?]%elem_of_cons; done. }
  apply wp_bind. eapply get_sink_at; [exact Hw|exact Hs|]. apply wp_bind, wp_when. rewrite settled_eq.
  unfold end_streams in Hnext. destruct (settled (state s)) eqn:E.
  - apply wp_bind. rewrite (with_sinks_put i s l c Hs) in Hw. eapply stack_disconnect_spec; [exact Hw|by apply lookup_lt_Some in Hs|by eapply Hp|].
    intros w1 Hw1. apply wp_ret. rewrite <- (with_sinks_put i s l c Hs) in Hw1. eapply Hnext; [exact Hw1|]. intros _ j.
    apply disconnect_streams.
  - apply (Hnext []); [done|]. intros _ j. by case_decide.
Qed.

Lemma entity_exit_spec c o w :
  milan_ok c → at_world c o w →
  wp avdecc_entity_exit (λ _ w', ∃ c' out, at_world c' (out ++ o) w' ∧ no_timers c' ∧
    (healthy → ∀ i s, sinks c !! i = Some s → sink_streams i out = end_streams i s)) w.
Proof.
  intros Hok Hw. assert (Hp : ∀ i s, sinks c !! i = Some s → (sink_port s < port_max c)%nat).
  { intros i s Hs. by apply (mo_sinks _ Hok i s). }
  unfold avdecc_entity_exit. apply wp_bind. unfold acmp_milan_exit. apply wp_bind. eapply at_gets; [done|].
  eapply wp_mono.
  { apply (wp_for_each (λ ll w, (∀ i, i ∈ ll → (i < length (sinks c))%nat) ∧ exit_inv c o ll w)).
    - split; [intros i Hi%elem_of_seq; lia|]. exists (sinks c), []. split; [by rewrite with_sinks_id|]. split; [done|].
      split; [apply NoDup_seq|]. split.
      + intros j s Hs. rewrite decide_True; [done|]. apply elem_of_seq. apply lookup_lt_Some in Hs. lia.
      + intros _ j s Hs. rewrite decide_True; [done|]. apply elem_of_seq. apply lookup_lt_Some in Hs. lia.
    - intros i ll w1 [Hin Hinv]. eapply wp_mono; [apply exit_sink_spec; [exact Hp|apply Hin; by left|exact Hinv]|].
      intros r w2 Hi2. split; [|done]. intros j Hj. apply Hin. by right. }
  intros _ w1 [_ (l & out & Hw1 & Hlen & _ & Hl & HF)]. apply wp_bind.
  unfold adp_milan_listener_sink_discovery_exit. apply wp_bind. eapply at_gets; [exact Hw1|].
  change (length (sinks (with_sinks l c))) with (length l).
  eapply wp_mono.
  { apply (sinks_loop (λ _ s, acmp_timers_none s) (λ _ s, acmp_timers_none s ∧ adp_discovery_timer s = soft_none)
      adp_milan_listener_sink_exit_timers (on_timer TMR_NO_ADP (λ _, soft_none)) (seq 0 (length l)) c); [|done|apply NoDup_seq|exact Hw1|].
    - intros j l0 o0 w0 Q0 Hw0 HQ0. by eapply set_sink_at.
    - intros j s Hs. cbn beta. rewrite decide_True; [|apply elem_of_seq; apply lookup_lt_Some in Hs; lia].
      specialize (Hl j s Hs). by rewrite decide_False in Hl by (by intros ?%elem_of_nil). }
  intros _ w2 (l' & Hw2 & Hl' & _). change (with_sinks l' c) with (with_storage (inflight_storage c) (with_sinks l' c)) in Hw2.
  eapply exit_entries_spec; [exact Hw2|]. intros st w3 Hw3 _ Hst. eexists _, out. split; [exact Hw3|]. split; [by split|].
  intros Hh i s Hs. rewrite (HF Hh i s Hs), decide_False; [done|]. by intros ?%elem_of_nil.
Qed.
End init.
