(* ===== verification/MilanSession.v ===== *)
(** * AVDECC: sessions of a Milan listener

    What holds in every state that a listener entity reaches from its
    initialisation, as long as its peers play by the rules. *)

From S2P Require Import Prelude MaapAddr Timer Milan MilanSm MilanListener MilanSpec MilanTable MilanRefine MilanEvents MilanLive MilanHandlers MilanInputs MilanRequests MilanRun MilanInit.

(** The stream that sink [i] has connected, after the output [o]. *)
Definition connected (i : nat) (o : list output) : option Z :=
  match hd_error (sink_streams i o) with Some (true, _, id) => Some id | _ => None end.
Definition settled_stream (s : stream_input) : option Z := if settled (state s) then Some (stream_id s) else None.

(** A step does not change the stream of a sink that stays settled. *)
Definition simple (L : list alabel) : Prop := L = [] ∨ (∃ l, L = [l]) ∨ L = [LDeparted; LDiscovered].
Lemma astep_stream a l :
  settled (a_state a) = true → settled (a_state (astep a l)) = true → a_stream (astep a l) = a_stream a.
Proof.
  destruct a as [st f x t], l, st; cbn; try done; intros _.
  all: try (destruct (same_talker _ _); done). all: by destruct f.
Qed.
Lemma simple_stream a L :
  simple L → settled (a_state a) = true → settled (a_state (asteps a L)) = true → a_stream (asteps a L) = a_stream a.
Proof.
  intros [->|[[l ->]| ->]] H; cbn; [done|by apply astep_stream|]. by destruct a as [[] f x t].
Qed.

Section session.
Context `{!Platform milan_call}.
Implicit Types (w : world milan_call entity) (c : entity) (s : stream_input) (o : list output).

Lemma labels_simple c ev i s : simple (labels c ev i s).
Proof.
  assert (Ho : ∀ l, simple (opt_list l)) by (intros [l|]; [right; left; by exists l|by left]).
  assert (Hadp : ∀ e p, simple (adp_sink_labels c s e p)).
  { intros e p. unfold adp_sink_labels, adp_labels, simple. repeat case_match; eauto. }
  assert (Hsrp : ∀ m, simple (srp_labels s m)).
  { intros m. unfold srp_labels, simple. repeat case_match; eauto. }
  assert (Htm : ∀ k, simple (timer_label k)) by (intros []; unfold simple; cbn; eauto).
  destruct ev; cbn; repeat case_match; try done; try (by left); right; left; eauto.
Qed.

Lemma connected_step c ev L c' out o i s s' :
  ev_ok c L c' → ev_full c (labels c ev) (peers c ev) L c' out → sinks c !! i = Some s → sinks c' !! i = Some s' →
  connected i o = settled_stream s → connected i (out ++ o) = settled_stream s'.
Proof.
  intros K F Hs Hs' Hc. destruct (ek_sinks _ _ _ K i s Hs) as (t & Ht & Ha). simplify_eq.
  unfold connected in *. rewrite sink_streams_app, (ef_streams _ _ _ _ _ _ F i s s' Hs Hs').
  assert (Hst := simple_stream (abs s) (L i)). rewrite (ef_labels _ _ _ _ _ _ F i s Hs), <- (ef_labels _ _ _ _ _ _ F i s Hs), <- Ha in Hst.
  rewrite (ef_labels _ _ _ _ _ _ F i s Hs) in Hst. specialize (Hst (labels_simple c ev i s)). cbn in Hst.
  unfold stream_changes, settled_stream in *. cbn.
  destruct (settled (state s)), (settled (state s')); cbn; try done. rewrite Hc. by injection (Hst eq_refl eq_refl) as ->.
Qed.

(** ** Exclusive bindings *)

Definition exclusive c : Prop :=
  ∀ i j s t, sinks c !! i = Some s → sinks c !! j = Some t → bound (state s) = true → bound (state t) = true →
    talker_of s = talker_of t → i = j.
(** A saved binding names a talker that no other sink is bound to. *)
Definition saved_exclusive c (ev : milan_event) : Prop :=
  match ev with
  | EvSavedBinding b => ∀ j t, sinks c !! j = Some t → bound (state t) = true → talker_of t = saved_talker b →
      j = bind_listener_stream_index b
  | _ => True
  end.

(** The steps that change the binding. *)
Lemma astep_talker a l :
  bound (a_state (astep a l)) = true →
  (bound (a_state a) = true ∧ a_talker (astep a l) = a_talker a) ∨ l = LBind (a_talker (astep a l)) ∨ l = LSaved (a_talker (astep a l)) ∨
  ∃ t, l = LBindLost t.
Proof.
  destruct a as [st f x t], l, st; cbn; try (by auto); try (by left); eauto.
  all: destruct (same_talker t t0) eqn:E; cbn; intros; auto.
Qed.
Lemma refused_none c i pdu j t :
  bind_refused c i pdu = false → sinks c !! j = Some t → talker_of t = pdu_talker pdu → j = i.
Proof.
  unfold bind_refused, is_listener_already_bound_to_talker_unique_id. intros H Hj Ht.
  destruct (decide (j = i)) as [|Hne]; [done|]. exfalso.
  assert (Hin : j ∈ seq 0 (length (sinks c))) by (apply elem_of_seq; apply lookup_lt_Some in Hj; lia).
  apply list_elem_of_In in Hin. apply not_true_iff_false in H. apply H, existsb_exists. exists j. split; [done|].
  rewrite Hj. unfold talker_of, pdu_talker in Ht. injection Ht as E1 E2. rewrite E1, E2, !Z.eqb_refl.
  apply Nat.eqb_neq in Hne. by rewrite Hne.
Qed.

Lemma bind_label c ev i s t : sinks c !! i = Some s → labels c ev i s = [LBind t] →
  ∀ j u, sinks c !! j = Some u → talker_of u = t → j = i.
Proof.
  intros Hs Hl j u Hu Ht. destruct ev; cbn in Hl; repeat case_match; try done.
  - unfold acmp_label_of in Hl. destruct (_ && _); [|done]. unfold sm_label in Hl. repeat case_match; try done.
    injection Hl as E. subst. by eapply refused_none.
  - unfold adp_sink_labels, adp_labels in Hl. repeat case_match; done.
  - unfold adp_sink_labels, adp_labels in Hl. repeat case_match; done.
  - unfold srp_labels in Hl. repeat case_match; done.
  - by destruct k.
Qed.
Lemma bind_event_inv c ev i s t : labels c ev i s = [LBind t] → ∃ p m, ev = EvAcmp p m ∧ i = acmp_sink m.
Proof.
  intros Hl. destruct ev; cbn in Hl; repeat case_match; try done; eauto.
  - unfold adp_sink_labels, adp_labels in Hl. repeat case_match; done.
  - unfold adp_sink_labels, adp_labels in Hl. repeat case_match; done.
  - unfold srp_labels in Hl. repeat case_match; done.
  - by destruct k.
Qed.
Lemma saved_event c ev i s t :
  labels c ev i s = [LSaved t] → ∃ b, ev = EvSavedBinding b ∧ i = bind_listener_stream_index b ∧ t = saved_talker b.
Proof.
  intros Hl. destruct ev; cbn in Hl; repeat case_match; try done.
  - unfold acmp_label_of in Hl. destruct (_ && _); [|done]. unfold sm_label in Hl. repeat case_match; try done.
    all: unfold acmp_milan_listener_get_event in *; repeat case_match; done.
  - unfold adp_sink_labels, adp_labels in Hl. repeat case_match; done.
  - unfold adp_sink_labels, adp_labels in Hl. repeat case_match; done.
  - unfold srp_labels in Hl. repeat case_match; done.
  - injection Hl as <-. eauto.
  - by destruct k.
Qed.
Lemma lost_event c ev i s t : labels c ev i s ≠ [LBindLost t].
Proof.
  intros Hl. destruct ev; cbn in Hl; repeat case_match; try done.
  - unfold acmp_label_of in Hl. destruct (_ && _); [|done]. unfold sm_label in Hl. repeat case_match; try done.
  - unfold adp_sink_labels, adp_labels in Hl. repeat case_match; done.
  - unfold adp_sink_labels, adp_labels in Hl. repeat case_match; done.
  - unfold srp_labels in Hl. repeat case_match; done.
  - by destruct k.
Qed.

Lemma simple_talker a L :
  simple L → bound (a_state (asteps a L)) = true →
  (bound (a_state a) = true ∧ a_talker (asteps a L) = a_talker a) ∨ L = [LBind (a_talker (asteps a L))] ∨
  L = [LSaved (a_talker (asteps a L))] ∨ ∃ t, L = [LBindLost t].
Proof.
  intros [->|[[l ->]| ->]] Hb.
  - by left.
  - cbn in *. destruct (astep_talker a l Hb) as [H|[H|[H|[t H]]]]; [by left|right; left; by rewrite <- H|right; right; left; by rewrite <- H|].
    right; right; right. exists t. by rewrite H.
  - left. destruct a as [[] f x t]; done.
Qed.

Lemma exclusive_step c ev L c' out :
  ev_ok c L c' → ev_full c (labels c ev) (peers c ev) L c' out → saved_exclusive c ev → exclusive c → exclusive c'.
Proof.
  intros K F Hse Hex.
  assert (Hcase : ∀ i s', sinks c' !! i = Some s' → bound (state s') = true → ∃ s, sinks c !! i = Some s ∧
    ((bound (state s) = true ∧ talker_of s = talker_of s') ∨
     (∃ p m, ev = EvAcmp p m ∧ i = acmp_sink m ∧ ∀ j u, sinks c !! j = Some u → talker_of u = talker_of s' → j = i) ∨
     (∃ b, ev = EvSavedBinding b ∧ i = bind_listener_stream_index b ∧ talker_of s' = saved_talker b))).
  { intros i s' Hs' Hb. assert (Hi : is_Some (sinks c !! i)).
    { apply lookup_lt_is_Some. rewrite <- (ek_length _ _ _ K). by apply lookup_lt_Some in Hs'. }
    destruct Hi as [s Hs]. exists s. split; [done|]. destruct (ek_sinks _ _ _ K i s Hs) as (t & Ht & Ha). simplify_eq.
    rewrite (ef_labels _ _ _ _ _ _ F i s Hs) in Ha. change (bound (a_state (abs s')) = true) in Hb. rewrite Ha in Hb.
    change (talker_of s') with (a_talker (abs s')). rewrite Ha.
    destruct (simple_talker _ _ (labels_simple c ev i s) Hb) as [[H1 H2]|[H|[H|[t H]]]].
    - left. split; [done|]. by rewrite H2.
    - right; left. destruct (bind_event_inv _ _ _ _ _ H) as (p & m & E1 & E2). exists p, m. split; [done|]. split; [done|].
      intros j u Hu Hj. by eapply bind_label.
    - right; right. destruct (saved_event _ _ _ _ _ H) as (b & E1 & E2 & E3). exists b. by rewrite <- E3.
    - by apply lost_event in H. }
  intros i j s' t' Hs' Ht' Hb Hb' Heq.
  destruct (Hcase i s' Hs' Hb) as (s & Hs & Ci), (Hcase j t' Ht' Hb') as (t & Ht & Cj).
  destruct Ci as [[B1 T1]|[(p & m & E1 & E2 & E3)|(b & E1 & E2 & E3)]], Cj as [[B2 T2]|[(p' & m' & G1 & G2 & G3)|(b' & G1 & G2 & G3)]].
  - apply (Hex i j s t); congruence.
  - apply (G3 i s Hs). congruence.
  - subst ev j. apply (Hse i s Hs); congruence.
  - symmetry. apply (E3 j t Ht). congruence.
  - congruence.
  - congruence.
  - subst ev i. symmetry. apply (Hse j t Ht); congruence.
  - congruence.
  - congruence.
Qed.

(** ** Sessions *)

Inductive session : world milan_call entity → Prop :=
| session_start w w' : zeroed (w_st w) → (length (sinks (w_st w)) < length (inflight_storage (w_st w)))%nat →
    Z.of_nat (length (sinks (w_st w))) ≤ 65536 → w_trace w = [] → avdecc_entity_init w = Done (true, w') → session w'
| session_event w w' ev : session w → ev_valid ev → peers (w_st w) ev → saved_exclusive (w_st w) ev → milan_handle ev w = Done (tt, w') → session w'.

Record session_ok w : Prop := {
  ss_ok : milan_ok (w_st w);
  ss_live : live (w_st w);
  ss_exclusive : exclusive (w_st w);
  ss_streams : ∀ i s, sinks (w_st w) !! i = Some s → connected i (outputs (w_trace w)) = settled_stream s;
}.

Lemma at_world_self w : at_world (w_st w) (outputs (w_trace w)) w.
Proof. by split. Qed.

Lemma session_invariant w : healthy → random_positive → session w → session_ok w.
Proof.
  intros Hh Hr. induction 1 as [w w' Hz Hf Hn Ht Hi|w w' ev Hse [IH1 IH2 IHx IH3] Hv Hp Hx Hev].
  - assert (H := entity_init_spec (w_st w) (outputs (w_trace w)) w Hz (at_world_self w)).
    apply (wp_result _ _ _ _ _ H) in Hi as (c' & [<- Ho] & Hst). split.
    + apply Hst.
    + by apply (started_live (w_st w)).
    + intros i j s t Hs _ Hb. by rewrite (new_state _ _ (st_new _ _ Hst i s Hs)) in Hb.
    + intros i s Hs. rewrite (Ho Hh), Ht. unfold settled_stream. by rewrite (new_state _ _ (st_new _ _ Hst i s Hs)).
  - assert (H := handle_run ev (w_st w) (outputs (w_trace w)) w Hr Hv IH1 (at_world_self w)).
    apply (wp_result _ _ _ _ _ H) in Hev as (L & c' & out & [<- Ho] & K & HF). destruct (HF Hh) as [F _]. split.
    + apply K.
    + by apply F.
    + by eapply exclusive_step.
    + intros i s' Hs'. rewrite (Ho Hh).
      assert (Hs : is_Some (sinks (w_st w) !! i)).
      { apply lookup_lt_is_Some. rewrite <- (ek_length _ _ _ K). by apply lookup_lt_Some in Hs'. }
      destruct Hs as [s Hs]. eapply connected_step; [exact K|exact F|done|done|by apply IH3].
Qed.

(** ** Expiries

    The timers that wake a sink, when nothing else happens. *)

Definition next_expiry c (i : nat) : option milan_event :=
  match sinks c !! i with
  | Some s =>
      match state s with
      | ACMP_LISTENER_SINK_SM_STATE_PRB_W_DELAY => Some (EvSinkTimer i TMR_DELAY)
      | ACMP_LISTENER_SINK_SM_STATE_PRB_W_RETRY => Some (EvSinkTimer i TMR_RETRY)
      | ACMP_LISTENER_SINK_SM_STATE_SETTLED_NO_RSV => Some (EvSinkTimer i TMR_NO_TK)
      | ACMP_LISTENER_SINK_SM_STATE_PRB_W_RESP | ACMP_LISTENER_SINK_SM_STATE_PRB_W_RESP2 =>
          EvInflightTimer <$> List.find (λ e, match inflight_storage c !! e with
                                              | Some x => (entry_sink x =? i)%nat | None => false end) (inflight c)
      | _ => None
      end
  | None => None
  end.
Fixpoint run_expiries (n i : nat) : M milan_call entity unit :=
  match n with
  | O => ret tt
  | S n =>
      let! c := gets (λ c, c) in
      match next_expiry c i with
      | Some ev => milan_handle ev;; run_expiries n i
      | None => ret tt
      end
  end.
(** The expiries that it takes to probe again. *)
Definition patience (st : acmp_milan_listener_sink_sm_state_t) : nat :=
  match st with
  | ACMP_LISTENER_SINK_SM_STATE_PRB_W_DELAY => 1
  | ACMP_LISTENER_SINK_SM_STATE_PRB_W_RETRY | ACMP_LISTENER_SINK_SM_STATE_SETTLED_NO_RSV => 2
  | ACMP_LISTENER_SINK_SM_STATE_PRB_W_RESP2 => 3
  | ACMP_LISTENER_SINK_SM_STATE_PRB_W_RESP => 4
  | _ => 0
  end.

Lemma expiry_cps n i c o w ev s l (Q : unit → world milan_call entity → Prop) :
  healthy → random_positive → milan_ok c → at_world c o w → sinks c !! i = Some s → next_expiry c i = Some ev → ev_valid ev →
  labels c ev i s = [l] →
  (∀ c' s' out w', at_world c' (out ++ o) w' → milan_ok c' → (peers c ev → live c → live c') → sinks c' !! i = Some s' →
     abs s' = astep (abs s) l → reply_ok c ev out → wp (run_expiries n i) Q w') →
  wp (run_expiries (S n) i) Q w.
Proof.
  intros Hh Hr Hok Hw Hs Hn Hv Hl HQ. cbn [run_expiries]. apply wp_bind. eapply at_gets; [done|]. rewrite Hn. apply wp_bind.
  eapply wp_mono; [by apply (handle_run ev c o w)|]. intros [] w1 (L & c' & out & Hw1 & K & HF). destruct (HF Hh) as [F HR].
  destruct (ek_sinks _ _ _ K i s Hs) as (s' & Hs' & Ha). rewrite (ef_labels _ _ _ _ _ _ F i s Hs), Hl in Ha.
  by eapply HQ; [exact Hw1|apply K|apply F|..].
Qed.

(** The probe that ends the wait. *)
Definition probes_again i s o (w' : world milan_call entity) : Prop :=
  ∃ p out out' s', outputs (w_trace w') = out' ++ out ++ o ∧ probed p (talker_of s) out' ∧
    sinks (w_st w') !! i = Some s' ∧ state s' = ACMP_LISTENER_SINK_SM_STATE_PRB_W_RESP.

Lemma delay_expires i c o0 o1 w s :
  healthy → random_positive → milan_ok c → at_world c (o1 ++ o0) w → sinks c !! i = Some s →
  state s = ACMP_LISTENER_SINK_SM_STATE_PRB_W_DELAY → wp (run_expiries 1 i) (λ _, probes_again i s o0) w.
Proof.
  intros Hh Hr Hok Hw Hs Hst. assert (Ht := tm_delay _ _ (so_timers _ _ (mo_sinks _ Hok i s Hs))). rewrite Hst in Ht.
  eapply (expiry_cps 0 i c _ w (EvSinkTimer i TMR_DELAY) s LDelay); try done.
  - unfold next_expiry. by rewrite Hs, Hst.
  - cbn. rewrite decide_True, Ht by done. done.
  - intros c' s' out w' [<- Ho] Hok' _ Hs' Ha [_ HR]. apply wp_ret.
    exists (sink_port s), o1, out, s'. split; [by rewrite (Ho Hh)|]. split; [by apply (HR s Hs)|]. split; [done|].
    change (a_state (abs s') = ACMP_LISTENER_SINK_SM_STATE_PRB_W_RESP). rewrite Ha. cbn. by rewrite Hst.
Qed.
Lemma probes_again_from i s s' o w : talker_of s' = talker_of s → probes_again i s' o w → probes_again i s o w.
Proof. intros E (p & out & out' & t & H1 & H2 & H3 & H4). exists p, out, out', t. by rewrite <- E. Qed.

(** A timer of the ACMP machine that takes the sink to the delay. *)
Lemma timer_expires k l i c o0 o1 w s :
  healthy → random_positive → milan_ok c → at_world c (o1 ++ o0) w → sinks c !! i = Some s → found s = true →
  state s = ACMP_LISTENER_SINK_SM_STATE_PRB_W_RETRY ∧ k = TMR_RETRY ∧ l = LRetry ∨
  state s = ACMP_LISTENER_SINK_SM_STATE_SETTLED_NO_RSV ∧ k = TMR_NO_TK ∧ l = LNoTk →
  wp (run_expiries 2 i) (λ _, probes_again i s o0) w.
Proof.
  intros Hh Hr Hok Hw Hs Hf Hc. destruct (so_timers _ _ (mo_sinks _ Hok i s Hs)) as [T1 T2 T3 _].
  eapply (expiry_cps 1 i c _ w (EvSinkTimer i k) s l); try done.
  - unfold next_expiry. rewrite Hs. by destruct Hc as [(-> & -> & _)|(-> & -> & _)].
  - cbn. rewrite decide_True by done. destruct Hc as [(E & -> & ->)|(E & -> & ->)]; cbn; by rewrite ?T1, ?T3, E.
  - intros c' s' out w' Hw' Hok' _ Hs' Ha _. rewrite app_assoc in Hw'.
    assert (Hst : state s' = ACMP_LISTENER_SINK_SM_STATE_PRB_W_DELAY ∧ talker_of s' = talker_of s).
    { change (a_state (abs s') = ACMP_LISTENER_SINK_SM_STATE_PRB_W_DELAY ∧ a_talker (abs s') = talker_of s). rewrite Ha.
      destruct Hc as [(E & _ & ->)|(E & _ & ->)]; cbn; rewrite E; unfold again, to_state; cbn; by rewrite Hf. }
    destruct Hst as [H1 H2]. eapply wp_mono; [by eapply delay_expires|]. intros [] w2. by apply probes_again_from.
Qed.

(** A command that times out. *)
Lemma probing_expiry c i s :
  live c → sinks c !! i = Some s → probing (state s) = true →
  ∃ e, next_expiry c i = Some (EvInflightTimer e) ∧ labels c (EvInflightTimer e) i s = [LNoResp].
Proof.
  intros [L _] Hs Hp. destruct (lc_sink _ L i s Hs Hp) as (e0 & x0 & [H1 H2] & H3).
  set (f := λ e, match inflight_storage c !! e with Some x => (entry_sink x =? i)%nat | None => false end).
  assert (Hf : ∃ e, List.find f (inflight c) = Some e).
  { destruct (List.find f (inflight c)) as [e|] eqn:E; [by exists e|].
    apply (List.find_none _ _) with (x := e0) in E; [|by apply list_elem_of_In]. unfold f in E. rewrite H2, H3, Nat.eqb_refl in E. done. }
  destruct Hf as [e He]. exists e. split.
  - unfold next_expiry. fold f. rewrite Hs, He. by destruct (state s).
  - apply find_some_in in He as [Hin Hfe]. unfold f in Hfe. cbn. destruct (inflight_storage c !! e) as [x|]; [|done].
    rewrite decide_True; [done|]. split; [done|]. symmetry. by apply Nat.eqb_eq.
Qed.
Lemma no_resp_expires n i c o0 o1 w s :
  healthy → random_positive → milan_ok c → live c → at_world c (o1 ++ o0) w → sinks c !! i = Some s → probing (state s) = true →
  (∀ c' s' o' w', milan_ok c' → live c' → at_world c' (o' ++ o0) w' → sinks c' !! i = Some s' → abs s' = astep (abs s) LNoResp →
     wp (run_expiries n i) (λ _, probes_again i s' o0) w') →
  wp (run_expiries (S n) i) (λ _, probes_again i s o0) w.
Proof.
  intros Hh Hr Hok HL Hw Hs Hp HQ. destruct (probing_expiry c i s HL Hs Hp) as (e & He & Hl).
  eapply (expiry_cps n i c _ w (EvInflightTimer e) s LNoResp); try done.
  intros c' s' out w' Hw' Hok' HL' Hs' Ha _. rewrite app_assoc in Hw'.
  eapply wp_mono; [by eapply HQ; [exact Hok'|by apply HL'|..]|]. intros [] w2. apply probes_again_from.
  change (a_talker (abs s') = talker_of s). rewrite Ha. cbn. by destruct (state s).
Qed.

Lemma patience_enough i c o w s :
  healthy → random_positive → milan_ok c → live c → at_world c o w → sinks c !! i = Some s → found s = true →
  bound (state s) = true → state s ≠ ACMP_LISTENER_SINK_SM_STATE_SETTLED_RSV_OK →
  wp (run_expiries (patience (state s)) i) (λ _, probes_again i s o) w.
Proof.
  intros Hh Hr Hok HL Hw Hs Hf Hb Hne. change o with ([] ++ o) in Hw. destruct (state s) eqn:E; try done; cbn [patience].
  - assert (Ha := so_abs _ _ (mo_sinks _ Hok i s Hs)). assert (H := ao_away _ Ha). cbn in H. rewrite E, Hf in H. by discriminate H; auto.
  - by eapply delay_expires.
  - eapply no_resp_expires; [done..|by rewrite E|]. intros c1 s1 o1 w1 Hok1 HL1 Hw1 Hs1 Ha1.
    assert (E1 : a_state (abs s1) = ACMP_LISTENER_SINK_SM_STATE_PRB_W_RESP2 ∧ a_found (abs s1) = true) by (rewrite Ha1; cbn; rewrite E; by split).
    destruct E1 as [E1 F1]. eapply no_resp_expires; [done..|by cbn in E1; rewrite E1|]. intros c2 s2 o2 w2 Hok2 HL2 Hw2 Hs2 Ha2.
    assert (E2 : a_state (abs s2) = ACMP_LISTENER_SINK_SM_STATE_PRB_W_RETRY ∧ a_found (abs s2) = true).
    { rewrite Ha2. cbn in E1, F1 |- *. rewrite E1. cbn. by rewrite F1. }
    destruct E2 as [E2 F2]. eapply (timer_expires TMR_RETRY LRetry); try done. by left.
  - eapply no_resp_expires; [done..|by rewrite E|]. intros c1 s1 o1 w1 Hok1 HL1 Hw1 Hs1 Ha1.
    assert (E1 : a_state (abs s1) = ACMP_LISTENER_SINK_SM_STATE_PRB_W_RETRY ∧ a_found (abs s1) = true) by (rewrite Ha1; cbn; rewrite E; by split).
    destruct E1 as [E1 F1]. eapply (timer_expires TMR_RETRY LRetry); try done. by left.
  - eapply (timer_expires TMR_RETRY LRetry); try done. by left.
  - eapply (timer_expires TMR_NO_TK LNoTk); try done. by right.
Qed.
End session.
