(* ===== verification/MilanProps.v ===== *)
(** * AVDECC: properties of Milan listeners

    What controllers, talkers and the media stack can rely on; each property
    is stated for the entry points of the model. *)

From S2P Require Import Prelude MaapAddr Timer Milan MilanSm MilanListener MilanSpec MilanTable MilanRefine MilanEvents MilanLive MilanHandlers MilanInputs MilanRequests MilanRun MilanInit MilanSession.

Section properties.
Context `{!Platform milan_call}.
Implicit Types (w : world milan_call entity) (c : entity) (s : stream_input) (o : list output).

(** C2: every event of a listener entity (an ACMP or ADP frame, an SRP
    indication, a saved binding, the expiry of a timer, ...) terminates without
    undefined behaviour and takes each sink through exactly the steps of the
    table that [labels] gives, and connects or disconnects the stream of a sink
    exactly when the sink becomes settled or ceases to be. *)
Theorem milan_event_refines ev w :
  random_positive → healthy → ev_valid ev → milan_ok (w_st w) →
  wp (milan_handle ev) (λ _ w', milan_ok (w_st w') ∧ ∃ out, outputs (w_trace w') = out ++ outputs (w_trace w) ∧
    ∀ i s, sinks (w_st w) !! i = Some s → ∃ s', sinks (w_st w') !! i = Some s' ∧
      abs s' = asteps (abs s) (labels (w_st w) ev i s) ∧ sink_streams i out = stream_changes i (abs s) (abs s')) w.
Proof.
  intros Hr Hh Hv Hok. eapply wp_mono; [by apply handle_run, at_world_self|].
  intros [] w' (L & c' & out & [<- Ho] & K & HF). destruct (HF Hh) as [F _]. split; [apply K|]. exists out. split; [by apply Ho|].
  intros i s Hs. destruct (ek_sinks _ _ _ K i s Hs) as (s' & Hs' & Ha). exists s'. split; [done|]. split.
  - by rewrite <- (ef_labels _ _ _ _ _ _ F i s Hs).
  - by apply F.
Qed.

(** C7: on any platform, even one without memory, the life of a listener entity
    from its initialisation through any events to its exit terminates without
    undefined behaviour and leaves no timer; with memory, every stream that was
    connected has been disconnected. *)
Theorem milan_lifecycle_safe l w :
  random_positive → Forall ev_valid l → zeroed (w_st w) → w_trace w = [] →
  wp (let! ok := avdecc_entity_init in when ok (milan_run l;; avdecc_entity_exit))
    (λ _ w', no_timers (w_st w') ∧
      (healthy → ∀ i, (i < length (sinks (w_st w)))%nat → connected i (outputs (w_trace w')) = None)) w.
Proof.
  intros Hr Hl Hz Ht. apply wp_bind. eapply wp_mono; [by apply entity_init_spec, at_world_self|].
  intros ok w1 (c1 & Hw1 & Hst). rewrite Ht in Hw1. change (outputs []) with (@nil output) in Hw1. apply wp_when. destruct ok.
  2:{ destruct Hw1 as [<- Ho]. split; [done|]. intros Hh i _. by rewrite (Ho Hh). }
  assert (Hlen := proj1 (st_sizes _ _ Hst)). apply wp_bind.
  assert (Hrun : ∀ c o w, milan_ok c → at_world c o w → (healthy → ∀ i s, sinks c !! i = Some s → connected i o = settled_stream s) →
    wp (milan_run l) (λ _ w', ∃ c' o', at_world c' o' w' ∧ milan_ok c' ∧ length (sinks c') = length (sinks c) ∧
      (healthy → ∀ i s, sinks c' !! i = Some s → connected i o' = settled_stream s)) w).
  { clear -Hr Hl. unfold milan_run. induction Hl as [|ev l Hv Hl IH]; intros c o w Hok Hw Hc; cbn [for_each].
    { apply wp_ret. by exists c, o. }
    apply wp_bind. eapply wp_mono; [by apply (handle_run ev c o w)|]. intros [] w1 (L & c' & out & Hw1 & K & HF).
    eapply wp_mono; [apply (IH c' (out ++ o) w1 (ek_ok _ _ _ K) Hw1)|].
    - intros Hh i s' Hs'. destruct (HF Hh) as [F _].
      assert (Hi : is_Some (sinks c !! i)).
      { apply lookup_lt_is_Some. rewrite <- (ek_length _ _ _ K). by apply lookup_lt_Some in Hs'. }
      destruct Hi as [s Hs]. eapply connected_step; [exact K|exact F|done|done|by apply Hc].
    - intros [] w2 (c2 & o2 & H1 & H2 & H3 & H4). exists c2, o2. by rewrite H3, (ek_length _ _ _ K). }
  eapply wp_mono; [apply (Hrun c1 [] w1 (st_ok _ _ Hst) Hw1)|].
  - intros _ i s Hs. unfold settled_stream. by rewrite (new_state _ _ (st_new _ _ Hst i s Hs)).
  - intros [] w2 (c2 & o2 & Hw2 & Hok2 & Hlen2 & Hc2). eapply wp_mono; [by apply (entity_exit_spec c2 o2 w2)|].
    intros [] w3 (c3 & out & [<- Ho] & Hn & HE). split; [done|]. intros Hh i Hi. rewrite (Ho Hh).
    rewrite <- Hlen, <- Hlen2 in Hi. apply lookup_lt_is_Some_2 in Hi as [s Hs]. specialize (Hc2 Hh i s Hs).
    unfold connected in *. rewrite sink_streams_app, (HE Hh i s Hs). unfold end_streams, settled_stream in *.
    by destruct (settled (state s)).
Qed.

(** C20: a command of a controller for this entity is answered by exactly one
    response, on the port that it came from, of the type that answers it, with
    its sequence number, listener and controller; no other event makes the
    entity answer anyone. *)
Theorem milan_commands_answered ev w :
  random_positive → healthy → ev_valid ev → milan_ok (w_st w) →
  wp (milan_handle ev) (λ _ w', ∃ out, outputs (w_trace w') = out ++ outputs (w_trace w) ∧
    match ev with
    | EvAcmp p m => if acmp_accepted (w_st w) p m && is_listener_command (m_type m) then answered p m out else answers out = []
    | _ => answers out = []
    end) w.
Proof.
  intros Hr Hh Hv Hok. eapply wp_mono; [by apply handle_run, at_world_self|].
  intros [] w' (L & c' & out & [_ Ho] & K & HF). destruct (HF Hh) as [_ R]. exists out. split; [by apply Ho|].
  unfold reply_ok, replies in R. destruct ev; try done; [|apply R].
  destruct (acmp_accepted (w_st w) p m); [|done]. by destruct (is_listener_command (m_type m)).
Qed.

(** C9: in every session with a platform that has memory and with peers that
    play by the rules, the sinks that wait for the answer to a probe and the
    commands in flight match one to one: a waiting sink has exactly one
    command, which names the sink and its talker, carries its sequence number,
    is at its first or second try as the state says, and runs its timer; and
    every command in flight is the command of a waiting sink. *)
Theorem milan_probes_match w :
  healthy → random_positive → session w →
  (∀ i s, sinks (w_st w) !! i = Some s → probing (state s) = true →
    ∃ e x, in_use (w_st w) e x ∧ matches i s x ∧ timeout x = SoftTimer true true ∧
      ∀ f y, in_use (w_st w) f y → entry_sink y = i → f = e) ∧
  (∀ e x, in_use (w_st w) e x → ∃ i s, sinks (w_st w) !! i = Some s ∧ probing (state s) = true ∧ entry_sink x = i).
Proof.
  intros Hh Hr Hs. destruct (session_invariant w Hh Hr Hs) as [[_ Hi _] [L _] _ _]. split.
  - intros i s Hsi Hp. assert (Hlt := lookup_lt_Some _ _ _ Hsi). rewrite <- (put_id i s _ Hsi) in L.
    destruct (wait_entry i s (w_st w) Hlt L Hp) as (e & x & Hx & M & Hu). exists e, x. split; [done|]. split; [done|]. split.
    + destruct Hx as [He Hx]. rewrite (io_timer _ Hi e x Hx). by rewrite bool_decide_true.
    + intros f y Hy Ey. by apply (Hu f y Hy).
  - intros e x Hx. destruct (lc_entry _ L e x Hx) as (i & s & H1 & H2 & M). exists i, s. split; [done|]. split; [done|]. apply M.
Qed.

(** C10: in every such session a sink is connected to a stream in the media stack
    exactly while it is settled, and to the stream that it settled on; and no
    two sinks are bound to the same talker stream. *)
Theorem milan_streams_connected w :
  healthy → random_positive → session w →
  (∀ i s, sinks (w_st w) !! i = Some s →
    connected i (outputs (w_trace w)) = if settled (state s) then Some (stream_id s) else None) ∧
  (∀ i j s t, sinks (w_st w) !! i = Some s → sinks (w_st w) !! j = Some t → bound (state s) = true → bound (state t) = true →
    talker_of s = talker_of t → i = j).
Proof. intros Hh Hr Hs. destruct (session_invariant w Hh Hr Hs) as [_ _ Hx Hc]. done. Qed.

(** C17: in every such session, a sink whose talker is discovered and whose
    stream is not registered probes its talker again after at most four
    expiries of its own timers and commands, if nothing else happens. *)
Theorem milan_probes_again w i s :
  healthy → random_positive → session w → sinks (w_st w) !! i = Some s → found s = true →
  state s ≠ ACMP_LISTENER_SINK_SM_STATE_SETTLED_RSV_OK →
  (1 ≤ patience (state s) ≤ 4)%nat ∧
  wp (run_expiries (patience (state s)) i) (λ _, probes_again i s (outputs (w_trace w))) w.
Proof.
  intros Hh Hr Hse Hs Hf Hne. destruct (session_invariant w Hh Hr Hse) as [Hok HL _ _].
  assert (Ha := ao_away _ (so_abs _ _ (mo_sinks _ Hok i s Hs))). cbn in Ha. rewrite Hf in Ha.
  assert (Hb : state s ≠ ACMP_LISTENER_SINK_SM_STATE_UNBOUND ∧ state s ≠ ACMP_LISTENER_SINK_SM_STATE_PRB_W_AVAIL)
    by (split; intros E; by discriminate Ha; auto).
  destruct Hb as [B1 B2]. split.
  - destruct (state s); try done; cbn; lia.
  - assert (Hb : bound (state s) = true) by by destruct (state s).
    by apply (patience_enough i (w_st w) (outputs (w_trace w)) w s).
Qed.

(** C34: a bind command for an unbound sink that names talker stream 0 of entity 0
    is accepted, and the sink waits for the answer to a probe that was never
    sent: no command is in flight for it and none of the timers of its state
    machine runs, so that none of them will wake it (only the notification
    timer may run: it is started when the controller is another one). *)
Theorem milan_bind_zero_stuck i p d cmd s w :
  random_positive → healthy → milan_ok (w_st w) → live (w_st w) → sinks (w_st w) !! i = Some s →
  state s = ACMP_LISTENER_SINK_SM_STATE_UNBOUND → pdu_talker cmd = (0, 0) → bind_refused (w_st w) i cmd = false →
  wp (sink_sm_run i ACMP_LISTENER_SINK_SM_EVENT_RCV_BIND_RX_CMD (Some cmd) (Some (p, d)) 0)
    (λ _ w', ∃ s', sinks (w_st w') !! i = Some s' ∧ state s' = ACMP_LISTENER_SINK_SM_STATE_PRB_W_RESP ∧
      (∀ e x, in_use (w_st w') e x → entry_sink x ≠ i) ∧
      ∀ k, k ≠ TMR_NOTIFICATION → st_running (timer_of k s') = false) w.
Proof.
  intros Hr Hh Hok [L HL] Hs Hst Ht Hb. assert (Hi := lookup_lt_Some _ _ _ Hs).
  assert (Hz : talker_of s = (0, 0)) by (apply (sl_talker _ (HL i s Hs)); by rewrite Hst).
  assert (Hw : at_world (put i s (w_st w)) (outputs (w_trace w)) w) by (rewrite put_id by done; by split).
  assert (Hsok := mo_sinks _ Hok i s Hs).
  eapply wp_mono; [apply (sink_sm_run_spec i _ _ _ 0 s (w_st w)); [|exact Hw]|].
  { apply sm_pre_intro; [done|done|apply Hok|by apply sink_ok_pre|by split; eauto]. }
  intros _ w' (l & s' & c' & out & [Ew _] & R & _ & Hrest & _ & HF). specialize (HF Hh).
  assert (Hl : l = Some (LBind (0, 0))).
  { rewrite (sf_label _ _ _ _ _ _ _ _ _ _ _ HF), put_id by done. unfold sm_label. by rewrite Hb, Ht. }
  subst l. assert (Hc : c' = w_st w).
  { rewrite (sf_entity _ _ _ _ _ _ _ _ _ _ _ HF). unfold sm_entity, cancels, probes. cbn [abs a_talker]. rewrite Hz, Hst. done. }
  subst c'. exists s'. rewrite Ew. split; [by apply put_lookup|].
  assert (Ha : abs s' = ASink ACMP_LISTENER_SINK_SM_STATE_PRB_W_RESP false no_stream (0, 0)).
  { rewrite (sr_abs _ _ _ R). cbn. by rewrite Hst. }
  assert (Hst' : state s' = ACMP_LISTENER_SINK_SM_STATE_PRB_W_RESP) by (change (a_state (abs s') = ACMP_LISTENER_SINK_SM_STATE_PRB_W_RESP); by rewrite Ha).
  assert (Hf' : found s' = false) by (change (a_found (abs s') = false); by rewrite Ha).
  split; [done|]. split.
  - intros e x Hx. assert (L2 := L). rewrite <- (put_id i s _ Hs) in L2. apply (idle_no_entry i s (w_st w) e x); [done|done|by rewrite Hst|exact Hx].
  - assert (H := sink_ok_sm None _ _ s s' (sink_ok_pre _ _ Hsok) R I). destruct (so_timers _ _ H) as [T1 T2 T3 _].
    intros [] Hk; cbn; rewrite ?T1, ?T2, ?T3, ?(so_disc _ _ H), ?Hst', ?Hf'; done.
Qed.
End properties.
