(* ===== verification/MilanExample.v ===== *)
(** * AVDECC: a listener entity with two sinks

    A platform with memory, an entity with two stream inputs and three command
    entries, and sessions on it: instances of the properties of MilanProps.v. *)

From S2P Require Import Prelude MaapAddr Timer Milan MilanSm MilanListener MilanSpec MilanTable MilanRefine MilanEvents MilanLive MilanHandlers MilanInputs MilanRequests MilanRun MilanInit MilanSession MilanProps.

Module Listener.
#[local] Instance platform : Platform milan_call := λ _ _, 1.

Definition off_sink : stream_input :=
  StreamInput 0 0 0 0 0 0 0 (replicate 6 0) [3; 4] ACMP_LISTENER_SINK_SM_STATE_UNBOUND soft_none soft_none soft_none
    ADP_LISTENER_SINK_TALKER_STATE_NOT_DISCOVERED soft_none 0 ACMP_LISTENER_SINK_SRP_STATE_NOT_REGISTERING 0 (replicate 8 0, 0)
    soft_none 0 0 0 0 0.
Definition off_entry : inflight_ctx := InflightCtx soft_none 0 false 0 0 0 0 zero_pdu.
Definition zero_entity : entity :=
  Entity 0x11 0 1 true false 0 [AvbInterface 0x77 0] 0 [] [] (replicate 3 off_entry) [off_sink; off_sink].
Definition power_on : world milan_call entity := World zero_entity 0 [].

Definition exec {A} (m : M milan_call entity A) (w : world milan_call entity) : world milan_call entity :=
  match m w with Done (_, w') => w' | _ => w end.

(** A bind command for sink 0, the advertisement of its talker, an answer to
    its probe, and a registration. *)
Definition bind_pdu (t : Z) : acmp_pdu := AcmpPdu 0 5 t 0x11 0 0 (replicate 6 0) 0 7 0 0.
Definition bind_event (t : Z) : milan_event := EvAcmp 0 (AcmpMsg ACMP_BIND_RX_COMMAND 0 (bind_pdu t)).
Definition available : milan_event := EvAdp 0 ADP_ENTITY_AVAILABLE (AdpPdu 0x22 1 0x77 0 0) 10.
Definition answer_pdu : acmp_pdu := AcmpPdu 0x99 5 0x22 0x11 0 0 [1; 2; 3; 4; 5; 6] 1 0 0 512.
Definition answer_event : milan_event := EvAcmp 0 (AcmpMsg ACMP_PROBE_TX_RESPONSE 0 answer_pdu).

Definition ready : world milan_call entity := exec avdecc_entity_init power_on.
Definition bound_world : world milan_call entity := exec (milan_handle (bind_event 0x22)) ready.
Definition discovered : world milan_call entity := exec (milan_handle available) bound_world.
Definition settled_world : world milan_call entity := exec (milan_handle answer_event) discovered.

Lemma platform_healthy : healthy.
Proof. done. Qed.
Lemma random_fine : random_positive.
Proof. intros n. change (0 ≤ 1). lia. Qed.
Lemma zero_fine : zeroed (w_st power_on).
Proof.
  split; [| |cbn; lia].
  - intros [|[|i]] s; cbn; try done; intros [= <-]; split; try done; by apply Nat.ltb_lt.
  - intros [|[|[|e]]] x; cbn; try done; by intros [= <-].
Qed.

Lemma ready_session : session ready.
Proof. apply (session_start power_on); [apply zero_fine|cbn; lia|cbn; lia|done|vm_compute; reflexivity]. Qed.
Lemma bound_session : session bound_world.
Proof.
  apply (session_event ready bound_world (bind_event 0x22) ready_session I); [|exact I|vm_compute; reflexivity].
  intros _. split.
  - intros _ e x [He _]. assert (E : inflight (w_st ready) = []) by (vm_compute; reflexivity). rewrite E in He. destruct (proj1 (elem_of_nil e) He).
  - intros _ d E. injection E as <-. vm_compute. reflexivity.
  - intros E. vm_compute in E. discriminate E.
Qed.
Lemma discovered_session : session discovered.
Proof.
  apply (session_event bound_world discovered available bound_session); [|exact I|exact I|vm_compute; reflexivity].
  cbn. unfold valid_ok. lia.
Qed.
Lemma settled_session : session settled_world.
Proof.
  apply (session_event discovered settled_world answer_event discovered_session I); [|exact I|vm_compute; reflexivity].
  intros _. split.
  - intros [H|H]; vm_compute in H; discriminate H.
  - intros H. vm_compute in H. discriminate H.
  - intros _ d e x E Hf [_ Hx]. injection E as <-. vm_compute in Hf. injection Hf as <-. vm_compute in Hx. injection Hx as <-.
    vm_compute. reflexivity.
Qed.
Lemma session_fine w : session w → milan_ok (w_st w) ∧ live (w_st w).
Proof. intros H. by destruct (session_invariant w platform_healthy random_fine H). Qed.

Definition sink (w : world milan_call entity) (i : nat) : stream_input := default off_sink (sinks (w_st w) !! i).

Lemma milan_event_refines_witness :
  wp (milan_handle answer_event) (λ _ w', milan_ok (w_st w') ∧ ∃ out, outputs (w_trace w') = out ++ outputs (w_trace discovered) ∧
    ∀ i s, sinks (w_st discovered) !! i = Some s → ∃ s', sinks (w_st w') !! i = Some s' ∧
      abs s' = asteps (abs s) (labels (w_st discovered) answer_event i s) ∧ sink_streams i out = stream_changes i (abs s) (abs s')) discovered.
Proof.
  apply milan_event_refines; [apply random_fine|apply platform_healthy|exact I|]. by apply session_fine, discovered_session.
Defined.

Lemma milan_lifecycle_safe_witness :
  wp (let! ok := avdecc_entity_init in when ok (milan_run [bind_event 0x22; available; answer_event];; avdecc_entity_exit))
    (λ _ w', no_timers (w_st w') ∧
      (healthy → ∀ i, (i < length (sinks (w_st power_on)))%nat → connected i (outputs (w_trace w')) = None)) power_on.
Proof.
  apply milan_lifecycle_safe; [apply random_fine| |apply zero_fine|done].
  apply list.Forall_cons_2; [exact I|]. apply list.Forall_cons_2; [unfold available; cbn; unfold valid_ok; lia|].
  apply list.Forall_cons_2; [exact I|apply list.Forall_nil_2].
Defined.

Lemma milan_commands_answered_witness :
  wp (milan_handle (bind_event 0x22)) (λ _ w', ∃ out, outputs (w_trace w') = out ++ outputs (w_trace ready) ∧
    if acmp_accepted (w_st ready) 0 (AcmpMsg ACMP_BIND_RX_COMMAND 0 (bind_pdu 0x22)) && is_listener_command ACMP_BIND_RX_COMMAND
    then answered 0 (AcmpMsg ACMP_BIND_RX_COMMAND 0 (bind_pdu 0x22)) out else answers out = []) ready.
Proof.
  apply (milan_commands_answered (bind_event 0x22) ready); [apply random_fine|apply platform_healthy|exact I|].
  by apply session_fine, ready_session.
Defined.

Lemma milan_probes_match_witness :
  probing (state (sink discovered 0)) = true ∧
  (∃ e x, in_use (w_st discovered) e x ∧ matches 0 (sink discovered 0) x ∧ timeout x = SoftTimer true true ∧
     ∀ f y, in_use (w_st discovered) f y → entry_sink y = 0%nat → f = e).
Proof.
  split; [vm_compute; reflexivity|]. destruct (milan_probes_match discovered platform_healthy random_fine discovered_session) as [H _].
  apply H; [vm_compute; reflexivity|vm_compute; reflexivity].
Defined.

Lemma milan_streams_connected_witness :
  settled (state (sink settled_world 0)) = true ∧ connected 0 (outputs (w_trace settled_world)) = Some 0x99.
Proof.
  split; [vm_compute; reflexivity|].
  destruct (milan_streams_connected settled_world platform_healthy random_fine settled_session) as [H _].
  refine (eq_trans (H 0%nat (sink settled_world 0) _) _); vm_compute; reflexivity.
Defined.

Lemma milan_probes_again_witness :
  (1 ≤ patience (state (sink discovered 0)) ≤ 4)%nat ∧
  wp (run_expiries (patience (state (sink discovered 0))) 0)
    (λ _, probes_again 0 (sink discovered 0) (outputs (w_trace discovered))) discovered.
Proof.
  apply milan_probes_again;
    [apply platform_healthy|apply random_fine|apply discovered_session|vm_compute; reflexivity|vm_compute; reflexivity|vm_compute; discriminate].
Defined.

(** Sink 0 once sink 1 is bound: otherwise sink 1, which is unbound, has talker 0
    and the command is refused. *)
Definition other_pdu : acmp_pdu := AcmpPdu 0 5 0x22 0x11 0 (htons 1) (replicate 6 0) 0 7 0 0.
Definition other_event : milan_event := EvAcmp 0 (AcmpMsg ACMP_BIND_RX_COMMAND 0 other_pdu).
Definition other_bound : world milan_call entity := exec (milan_handle other_event) ready.
Lemma other_session : session other_bound.
Proof.
  apply (session_event ready other_bound other_event ready_session I); [|exact I|vm_compute; reflexivity].
  intros _. split.
  - intros _ e x [He _]. assert (E : inflight (w_st ready) = []) by (vm_compute; reflexivity). rewrite E in He. destruct (proj1 (elem_of_nil e) He).
  - intros _ d E. injection E as <-. vm_compute. reflexivity.
  - intros E. vm_compute in E. discriminate E.
Qed.

Lemma milan_bind_zero_stuck_witness :
  wp (sink_sm_run 0 ACMP_LISTENER_SINK_SM_EVENT_RCV_BIND_RX_CMD (Some (bind_pdu 0)) (Some (0%nat, zero_pdu)) 0)
    (λ _ w', ∃ s', sinks (w_st w') !! 0%nat = Some s' ∧ state s' = ACMP_LISTENER_SINK_SM_STATE_PRB_W_RESP ∧
      (∀ e x, in_use (w_st w') e x → entry_sink x ≠ 0%nat) ∧
      ∀ k, k ≠ TMR_NOTIFICATION → st_running (timer_of k s') = false) other_bound.
Proof.
  destruct (session_fine other_bound other_session) as [Hok HL].
  apply (milan_bind_zero_stuck 0 0 zero_pdu (bind_pdu 0) (sink other_bound 0) other_bound);
    [apply random_fine|apply platform_healthy|exact Hok|exact HL|vm_compute; reflexivity..].
Defined.
End Listener.
