(* ===== verification/Tracked.v ===== *)
(** * What a computation has sent

    A component sends frames and messages by some of its platform calls.  A
    world is described by its state and by what was sent, newest first; what
    was sent is said only under a proposition [P] on the platform (it has
    memory, its queues accept messages). *)

From S2P Require Import Prelude.

Section tracked.
Context {C X O : Type} `{!Platform C} (output_of : C * Z → option O) (P : Prop).
Implicit Types (w : world C X) (c : X) (o : list O).

Definition tracked c o w : Prop := w_st w = c ∧ (P → omap output_of (w_trace w) = o).

Lemma tracked_modify c o f Q w :
  tracked c o w → (∀ w', tracked (f c) o w' → Q tt w') → wp (modify f) Q w.
Proof. intros [<- H] HQ. apply wp_modify, HQ. by split. Qed.
Lemma tracked_gets {A} (f : X → A) c o Q w : tracked c o w → Q (f c) w → wp (gets f) Q w.
Proof. intros [<- _]. done. Qed.
Lemma tracked_perform call y c o Q w :
  (∀ r, output_of (call, r) = y) → tracked c o w →
  (∀ n w', tracked c (match y with Some x => x :: o | None => o end) w' → Q (answer n call) w') → wp (perform call) Q w.
Proof.
  intros Hq [Hc Ho] HQ. apply wp_perform, HQ. split; [done|]. intros HP. cbn. rewrite Hq, (Ho HP). by destruct y.
Qed.
(** What is not known of a platform without [P]. *)
Lemma tracked_any c o o' w : ¬ P → tracked c o w → tracked c o' w.
Proof. intros Hn [Hc _]. by split. Qed.
Lemma tracked_self w : tracked (w_st w) (omap output_of (w_trace w)) w.
Proof. by split. Qed.
End tracked.
