(* ===== verification/MilanTalker.v ===== *)
(** * AVDECC: Milan talkers (avdecc/acmp_milan.c, avdecc/acmp.c, avdecc/avdecc.c)

    A talker entity in Milan mode with its stream outputs ("sources").  MAAP
    gives each source a destination address.  While a source has an address and
    a listener wants its stream (a probe was received in the last 15 seconds,
    or SRP has registered a listener), the source is declared in SRP; while a
    listener is ready, its stream is connected in the media stack.  After a
    source was withdrawn, other parameters are not declared for two LeaveAll
    periods.  Timers are the abstract timers of Timer.v, frames those of
    Milan.v. *)

From S2P Require Import Prelude MaapAddr Maap Timer Milan MilanListener.

(** ** Constants *)

Definition ACMP_STAT_TALKER_UNKNOWN_ID : Z := 2.
Definition ACMP_STAT_TALKER_DEST_MAC_FAIL : Z := 3.
Definition ACMP_STAT_TALKER_MISBEHAVING : Z := 13.
Definition ACMP_STAT_INCOMPATIBLE_REQUEST : Z := 17.
Definition ACMP_STAT_NOT_SUPPORTED : Z := 31.

Definition ACMP_MILAN_TALKER_TMR_PROBE_TX_RECEPTION_MS : Z := 15 * 1000.
(** Twice [MRP_LVATIMER_VAL_MAX] of Mrp.v. *)
Definition ACMP_MILAN_TALKER_TMR_SRP_WITHDRAW_MS : Z := 2 * 15000.
Definition ACMP_MILAN_TALKER_ASYNC_UNSOLICITED_NOTIFICATION_MS : Z := 1000.

(** [genavb_talker_stream_status_t], [genavb_talker_stream_declaration_type_t] *)
Definition NO_LISTENER : Z := 0.
Definition FAILED_LISTENER : Z := 1.
Definition ACTIVE_AND_FAILED_LISTENERS : Z := 2.
Definition ACTIVE_LISTENER : Z := 3.
Definition NO_TALKER_DECLARATION : Z := 0.
Definition TALKER_ADVERTISE : Z := 1.
Definition TALKER_FAILED : Z := 2.

Definition CFG_ACMP_DEFAULT_MAAP_BASE_RANGE_ID : Z := 1000.
Definition CFG_ACMP_DEFAULT_MAAP_COUNT_PER_RANGE : Z := 1.

Definition SR_CLASS_A : Z := 0.
Definition SR_CLASS_B : Z := 1.
Definition SR_CLASS_A_MAX_TRANSIT_TIME : Z := 2000000.
Definition SR_CLASS_B_MAX_TRANSIT_TIME : Z := 10000000.
Definition STREAM_PRESENTATION_TIME_OFFSET_INVALID : Z := 0x7FFFFFFF + 1.
Definition MRP_DEFAULT_VID : Z := htons 2.
Definition VLAN_VID_DEFAULT : Z := 0xfffe.

(** ** Data *)

(** [struct srp_talker_params] *)
Record srp_talker_params := SrpTalkerParams {
  w_stream_id : Z;
  w_vlan_id : Z;
  w_stream_dest_mac : list Z;
}.
Definition no_params : srp_talker_params := SrpTalkerParams 0 0 (replicate 6 0).

(** [struct stream_output_dynamic_desc], with the fields of the static
    [struct stream_descriptor] that are read. *)
Record stream_output := StreamOutput {
  o_avb_interface_index : Z;
  o_descriptor_index : Z;
  o_current_format : Z;
  o_stream_id : Z;
  o_stream_vlan_id : Z;
  o_stream_dest_mac : list Z;
  o_stream_class : Z;
  o_presentation_time_offset : Z;
  o_stream_start : Z;
  o_stream_stop : Z;
  o_media_reset : Z;
  o_timestamp_uncertain : Z;
  o_frame_tx : Z;
  srp_talker_declaration_type : Z;
  srp_listener_status : Z;
  probe_tx_reception_timer : soft_timer;
  srp_talker_withdraw_timer : soft_timer;
  talker_declared : bool;
  avtp_connected : bool;
  maap_started : bool;
  probe_tx_valid : bool;
  srp_talker_withdraw_in_progress : bool;
  srp_talker_withdraw_params : srp_talker_params;
  o_notification_timer : soft_timer;
  o_failure : list Z * Z;
}.
#[export] Instance eta_stream_output : Eta stream_output := λ r,
  StreamOutput (o_avb_interface_index r) (o_descriptor_index r) (o_current_format r) (o_stream_id r) (o_stream_vlan_id r)
    (o_stream_dest_mac r) (o_stream_class r) (o_presentation_time_offset r) (o_stream_start r) (o_stream_stop r)
    (o_media_reset r) (o_timestamp_uncertain r) (o_frame_tx r) (srp_talker_declaration_type r) (srp_listener_status r)
    (probe_tx_reception_timer r) (srp_talker_withdraw_timer r) (talker_declared r) (avtp_connected r) (maap_started r)
    (probe_tx_valid r) (srp_talker_withdraw_in_progress r) (srp_talker_withdraw_params r) (o_notification_timer r)
    (o_failure r).

(** The part of [struct entity] and of its context that concerns its sources;
    the MAC addresses of its AVB interfaces. *)
Record talker_entity := TalkerEntity {
  t_entity_id : Z;
  t_entity_index : Z;
  t_current_configuration : Z;
  t_port_max : nat;
  t_srp_enabled : bool;
  mac_addresses : list (list Z);
  sources : list stream_output;
}.
#[export] Instance eta_talker_entity : Eta talker_entity := λ r,
  TalkerEntity (t_entity_id r) (t_entity_index r) (t_current_configuration r) (t_port_max r) (t_srp_enabled r)
    (mac_addresses r) (sources r).

(** [struct ipc_msrp_talker_register]: its traffic specification follows from
    the format and the class.  [struct genavb_msg_media_stack_connect]: so do
    its subtype and its latency. *)
Record talker_register := TalkerRegister {
  tr_stream_id : Z;
  tr_class_b : bool;
  tr_destination_address : list Z;
  tr_vlan_id : Z;
  tr_format : Z;
}.
Record talker_connect := TalkerConnect {
  tc_dst_mac : list Z;
  tc_stream_id : Z;
  tc_format : Z;
  tc_class_b : bool;
  tc_entity_index : Z;
  tc_configuration_index : Z;
  tc_max_transit_time : Z;
  tc_vlan_id : Z;
  tc_flags : Z;
}.

(** ** The platform *)

Inductive source_timer := TMR_PROBE_TX_RECEPTION | TMR_SRP_WITHDRAW | TMR_SOURCE_NOTIFICATION.
#[export] Instance source_timer_eq_dec : EqDecision source_timer.
Proof. solve_decision. Defined.

Inductive talker_ipc :=
| TALKER_REGISTER (port : nat) (r : talker_register)
| TALKER_DEREGISTER (port : nat) (stream : Z)
| TALKER_STACK_CONNECT (i : nat) (port : nat) (k : talker_connect)
| TALKER_STACK_DISCONNECT (i : nat) (port : nat) (class stream : Z)
| MAAP_CREATE_RANGE (port range count : Z)
| MAAP_DELETE_RANGE (port range : Z).

(** Timers, the network, IPC; the handlers of the other roles of the entity,
    when a frame is looped back to them; AECP notifications. *)
Inductive talker_call :=
| SourceTimerCreate (i : nat) (k : source_timer)
| SourceTimerStart (i : nat) (k : source_timer) (ms : Z)
| TNetTxAlloc (p : nat)                  (* 0: no descriptor *)
| TNetTxClone (p : nat) (m : acmp_msg)   (* 0: no descriptor *)
| TNetTx (p : nat) (m : acmp_msg)        (* negative: error *)
| TNetTxFree (p : nat)
| ListenerRcvLoop (p : nat) (m : acmp_msg)
| ControllerRcvLoop (p : nat) (m : acmp_msg)
| TIpcAlloc (m : talker_ipc)             (* 0: no descriptor *)
| TIpcTx (m : talker_ipc)                (* negative: error *)
| TIpcFree (m : talker_ipc)
| CountersNotification (i : nat)
| OutputInfoNotification (i : nat).

Section milan_talker.
Context `{!Platform talker_call}.
Abbreviation TM := (M talker_call talker_entity).

Definition get_source (i : nat) : TM stream_output := let! l := gets sources in deref NullDeref (l !! i).
Definition set_source (i : nat) (f : stream_output → stream_output) : TM unit := modify (λ c, c <| sources ::= alter f i |>).

(** ** Timers of a source *)

Definition on_source_timer (k : source_timer) (f : soft_timer → soft_timer) (s : stream_output) : stream_output :=
  match k with
  | TMR_PROBE_TX_RECEPTION => s <| probe_tx_reception_timer ::= f |>
  | TMR_SRP_WITHDRAW => s <| srp_talker_withdraw_timer ::= f |>
  | TMR_SOURCE_NOTIFICATION => s <| o_notification_timer ::= f |>
  end.
Definition source_timer_of (k : source_timer) (s : stream_output) : soft_timer :=
  match k with
  | TMR_PROBE_TX_RECEPTION => probe_tx_reception_timer s
  | TMR_SRP_WITHDRAW => srp_talker_withdraw_timer s
  | TMR_SOURCE_NOTIFICATION => o_notification_timer s
  end.
Definition source_timer_start (i : nat) (k : source_timer) (ms : Z) : TM unit :=
  let! _ := perform (SourceTimerStart i k (u32 ms)) in set_source i (on_source_timer k (soft_start (u32 ms))).
Definition source_timer_stop (i : nat) (k : source_timer) : TM unit := set_source i (on_source_timer k soft_stop).
Definition source_timer_restart (i : nat) (k : source_timer) (ms : Z) : TM unit :=
  let! s := get_source i in
  when (st_created (source_timer_of k s)) (source_timer_stop i k;; source_timer_start i k ms).

Definition acmp_milan_talker_register_async_get_stream_info_notification (i : nat) : TM unit :=
  let! s := get_source i in
  let t := o_notification_timer s in
  when (st_created t && negb (st_running t))
    (source_timer_start i TMR_SOURCE_NOTIFICATION ACMP_MILAN_TALKER_ASYNC_UNSOLICITED_NOTIFICATION_MS).

(** ** Frames (avdecc/acmp.c, avdecc/avdecc.c) *)

Definition talker_port_valid (c : talker_entity) (p : nat) : bool := (p <? length (mac_addresses c))%nat.

(** [&avdecc->port[p]] *)
Definition talker_port (p : nat) : TM nat := let! n := gets t_port_max in if (p <? n)%nat then ret p else crash OutOfBounds.

(** [avdecc_net_tx]: a talker sends responses only, which are looped back to
    the listener or to the controller of this entity. *)
Definition talker_loop_back (p : nat) (m : acmp_msg) : TM unit :=
  let! c := gets (λ c, c) in
  if (m_type m =? ACMP_PROBE_TX_RESPONSE) || (m_type m =? ACMP_DISCONNECT_TX_RESPONSE) then
    when ((p_listener_entity_id (m_pdu m) =? t_entity_id c) && talker_port_valid c p)
      (let! _ := perform (ListenerRcvLoop p m) in ret tt)
  else
    when ((p_controller_entity_id (m_pdu m) =? t_entity_id c) && talker_port_valid c p)
      (let! _ := perform (ControllerRcvLoop p m) in ret tt).
Definition talker_net_tx (p : nat) (m : acmp_msg) : TM Z :=
  let! ok := perform (TNetTxClone p m) in
  (if ok =? 0 then ret tt
   else
     let! rc := perform (TNetTx p m) in
     when (rc <? 0) (let! _ := perform (TNetTxFree p) in ret tt));;
  talker_loop_back p m;;
  ret 0.
Definition talker_send_rsp (p : nat) (d : acmp_pdu) (msg_type status : Z) : TM Z :=
  let! rc := talker_net_tx p (AcmpMsg msg_type status d) in ret (if rc <? 0 then -1 else 0).

(** [acmp_net_tx_init] of a response. *)
Definition response_pdu (pdu : acmp_pdu) : acmp_pdu :=
  zero_pdu <| p_controller_entity_id := p_controller_entity_id pdu |> <| p_talker_entity_id := p_talker_entity_id pdu |>
    <| p_listener_entity_id := p_listener_entity_id pdu |> <| p_talker_unique_id := p_talker_unique_id pdu |>
    <| p_listener_unique_id := p_listener_unique_id pdu |> <| p_sequence_id := p_sequence_id pdu |>.
Definition talker_rsp_init (p : nat) (pdu : acmp_pdu) : TM (option acmp_pdu) :=
  let! ok := perform (TNetTxAlloc p) in ret (if ok =? 0 then None else Some (response_pdu pdu)).
Definition talker_rsp_free (p : nat) : TM unit := let! _ := perform (TNetTxFree p) in ret tt.

Definition acmp_talker_unique_valid (c : talker_entity) (i : nat) : bool := (i <? length (sources c))%nat.
Definition acmp_talker_copy_common_params (s : stream_output) (d : acmp_pdu) : acmp_pdu :=
  d <| p_stream_id := o_stream_id s |> <| p_stream_dest_mac := o_stream_dest_mac s |> <| p_stream_vlan_id := o_stream_vlan_id s |>.

(** ** IPC (avdecc/acmp.c) *)

Definition talker_ipc_send (m : talker_ipc) : TM Z :=
  let! ok := perform (TIpcAlloc m) in
  if ok =? 0 then ret (-1) else
  let! rc := perform (TIpcTx m) in
  if rc <? 0 then let! _ := perform (TIpcFree m) in ret (-1) else ret 0.

Definition source_port (s : stream_output) : nat := Z.to_nat (ntohs (o_avb_interface_index s)).

Definition register_msg (s : stream_output) (fl : Z) : talker_register :=
  TalkerRegister (o_stream_id s) (stream_class_b fl) (o_stream_dest_mac s)
    (if o_stream_vlan_id s =? 0 then VLAN_VID_DEFAULT else ntohs (o_stream_vlan_id s)) (o_current_format s).
Definition acmp_talker_declare (p i : nat) (fl : Z) : TM Z :=
  let! s := get_source i in
  let! srp := gets t_srp_enabled in
  if srp then let! p := talker_port p in talker_ipc_send (TALKER_REGISTER p (register_msg s fl)) else ret 0.
Definition acmp_talker_withdraw (p i : nat) : TM Z :=
  let! s := get_source i in
  let! srp := gets t_srp_enabled in
  if srp then let! p := talker_port p in talker_ipc_send (TALKER_DEREGISTER p (o_stream_id s)) else ret 0.

(** Class A is the high class and class B the low one. *)
Definition sr_class_max_transit_time (b : bool) : Z := if b then SR_CLASS_B_MAX_TRANSIT_TIME else SR_CLASS_A_MAX_TRANSIT_TIME.
Definition connect_msg (c : talker_entity) (s : stream_output) (fl : Z) : talker_connect :=
  TalkerConnect (o_stream_dest_mac s) (o_stream_id s) (o_current_format s) (o_stream_class s =? SR_CLASS_B) (t_entity_index c)
    (ntohs (t_current_configuration c))
    (if o_presentation_time_offset s =? STREAM_PRESENTATION_TIME_OFFSET_INVALID
     then sr_class_max_transit_time (o_stream_class s =? SR_CLASS_B) else o_presentation_time_offset s)
    (if o_stream_vlan_id s =? 0 then htons VLAN_VID_DEFAULT else o_stream_vlan_id s) fl.
Definition count_start (s : stream_output) : stream_output :=
  s <| o_media_reset := 0 |> <| o_timestamp_uncertain := 0 |> <| o_frame_tx := 0 |> <| o_stream_start ::= λ n, u32 (n + 1) |>.
Definition acmp_talker_avtp_stack_connect (p i : nat) (fl : Z) : TM Z :=
  let! s := get_source i in
  let! c := gets (λ c, c) in
  let! p := talker_port p in
  let! rc := talker_ipc_send (TALKER_STACK_CONNECT i p (connect_msg c s fl)) in
  set_source i count_start;;
  let! _ := perform (CountersNotification i) in
  ret rc.
Definition acmp_talker_avtp_stack_disconnect (p i : nat) : TM Z :=
  let! s := get_source i in
  let! p := talker_port p in
  let! rc := talker_ipc_send (TALKER_STACK_DISCONNECT i p (o_stream_class s) (o_stream_id s)) in
  set_source i (λ s, s <| o_stream_stop ::= λ n, u32 (n + 1) |>);;
  let! _ := perform (CountersNotification i) in
  ret rc.
End milan_talker.
