(* ===== verification/MilanSource.v ===== *)
(** * AVDECC: the handlers of Milan talkers

    The update of a source that declares, withdraws, connects and disconnects
    its stream (avdecc/acmp_milan.c), one function for each of its parts; ACMP
    commands, SRP and MAAP indications, timers; initialisation and exit of the
    talker's part of an entity. *)

From S2P Require Import Prelude MaapAddr Maap Timer Milan MilanListener MilanTalker.

Section milan_source.
Context `{!Platform talker_call}.
Abbreviation TM := (M talker_call talker_entity).

(** ** Update of a source *)

Definition is_invalid_mac_addr (mac : list Z) : bool := foldr Z.lor 0 mac =? 0.
Definition acmp_milan_talker_has_valid_srp_params (s : stream_output) : bool :=
  negb (is_invalid_mac_addr (o_stream_dest_mac s)) && (probe_tx_valid s || negb (srp_listener_status s =? NO_LISTENER)).
Definition acmp_milan_set_stream_output_withdraw_srp_params (valid : bool) (s : stream_output) : stream_output :=
  s <| srp_talker_withdraw_params :=
         if valid then SrpTalkerParams (o_stream_id s) (o_stream_vlan_id s) (o_stream_dest_mac s) else no_params |>.
Definition acmp_milan_redeclaring_same_talker (s : stream_output) : bool :=
  let q := srp_talker_withdraw_params s in
  (w_stream_id q =? o_stream_id s) && bool_decide (w_stream_dest_mac q = o_stream_dest_mac s) &&
  (w_vlan_id q =? o_stream_vlan_id s).
Definition has_active_listener (s : stream_output) : bool :=
  (srp_listener_status s =? ACTIVE_LISTENER) || (srp_listener_status s =? ACTIVE_AND_FAILED_LISTENERS).

(** The parts of [acmp_milan_talker_update]: [Some st] when it exits with
    status [st]. *)
Definition talker_update_withdraw (p i : nat) : TM (option Z) :=
  let! s := get_source i in
  if negb (acmp_milan_talker_has_valid_srp_params s) && talker_declared s then
    let! rc := acmp_talker_withdraw p i in
    if rc <? 0 then ret (Some ACMP_STAT_TALKER_MISBEHAVING)
    else
      set_source i (λ s, (acmp_milan_set_stream_output_withdraw_srp_params true s) <| talker_declared := false |>
        <| srp_talker_withdraw_in_progress := true |>);;
      source_timer_start i TMR_SRP_WITHDRAW ACMP_MILAN_TALKER_TMR_SRP_WITHDRAW_MS;;
      ret None
  else ret None.
Definition talker_update_disconnect (p i : nat) : TM (option Z) :=
  let! s := get_source i in
  if (negb (talker_declared s) || (srp_listener_status s =? NO_LISTENER)) && avtp_connected s then
    let! rc := acmp_talker_avtp_stack_disconnect p i in
    if rc <? 0 then ret (Some ACMP_STAT_TALKER_MISBEHAVING)
    else set_source i (λ s, s <| avtp_connected := false |>);; ret None
  else ret None.
(** After a withdrawal other parameters have to wait. *)
Definition talker_update_declare (p i : nat) : TM (option Z) :=
  let! s := get_source i in
  if talker_declared s then ret None
  else if srp_talker_withdraw_in_progress s && negb (acmp_milan_redeclaring_same_talker s) then ret (Some ACMP_STAT_SUCCESS)
  else
    when (srp_talker_withdraw_in_progress s)
      (set_source i (λ s, s <| srp_talker_withdraw_in_progress := false |>);; source_timer_stop i TMR_SRP_WITHDRAW);;
    let! rc := acmp_talker_declare p i 0 in
    if rc <? 0 then ret (Some ACMP_STAT_TALKER_MISBEHAVING)
    else
      set_source i (λ s, acmp_milan_set_stream_output_withdraw_srp_params false (s <| talker_declared := true |>));;
      ret None.
Definition talker_update_connect (p i : nat) : TM (option Z) :=
  let! s := get_source i in
  if has_active_listener s && negb (avtp_connected s) && talker_declared s then
    let! rc := acmp_talker_avtp_stack_connect p i 0 in
    if rc <? 0 then ret (Some ACMP_STAT_TALKER_MISBEHAVING)
    else set_source i (λ s, s <| avtp_connected := true |>);; ret None
  else ret None.

Definition unless_exit (m : TM (option Z)) (k : TM Z) : TM Z :=
  let! o := m in match o with Some st => ret st | None => k end.
Definition acmp_milan_talker_update (i : nat) : TM Z :=
  let! l := gets sources in
  match l !! i with
  | None => ret ACMP_STAT_TALKER_MISBEHAVING
  | Some s =>
      let p := source_port s in
      unless_exit (talker_update_withdraw p i)
        (unless_exit (talker_update_disconnect p i)
           (let! s := get_source i in
            if acmp_milan_talker_has_valid_srp_params s then
              unless_exit (talker_update_declare p i) (unless_exit (talker_update_connect p i) (ret ACMP_STAT_SUCCESS))
            else ret ACMP_STAT_SUCCESS))
  end.
Definition talker_update (i : nat) : TM unit := let! _ := acmp_milan_talker_update i in ret tt.

(** ** SRP *)

Definition acmp_milan_get_talker_unique_id (c : talker_entity) (id : Z) : option nat :=
  List.find (λ i, match sources c !! i with Some s => o_stream_id s =? id | None => false end) (seq 0 (length (sources c))).

Definition acmp_milan_talker_update_declaration (i : nat) (ty : Z) (fl : list Z * Z) : TM unit :=
  let! l := gets sources in
  match l !! i with
  | None => ret tt
  | Some _ =>
      set_source i (λ s, s <| srp_talker_declaration_type := ty |>
        <| o_failure := if ty =? TALKER_FAILED then fl else (replicate 8 0, 0) |>);;
      acmp_milan_talker_register_async_get_stream_info_notification i
  end.
Definition acmp_milan_talker_update_status (i : nat) (status : Z) : TM unit :=
  let! l := gets sources in
  match l !! i with
  | None => ret tt
  | Some _ =>
      set_source i (λ s, s <| srp_listener_status := status |>);;
      talker_update i;;
      acmp_milan_talker_register_async_get_stream_info_notification i
  end.

(** ** ACMP commands *)

Definition probe_tx_response (s : stream_output) (pdu d : acmp_pdu) : acmp_pdu :=
  acmp_talker_copy_common_params s
    (d <| p_flags ::= λ f, Z.lor (flag_off ACMP_FLAG_REGISTERING_FAILED f)
            (Z.land (p_flags pdu) (htons (Z.lor ACMP_FLAG_STREAMING_WAIT ACMP_FLAG_FAST_CONNECT))) |>
       <| p_connection_count := htons 0 |>).
Definition talker_rcv_probe_tx (p i : nat) (pdu d : acmp_pdu) : TM Z :=
  let! s := get_source i in
  if negb (Z.of_nat p =? ntohs (o_avb_interface_index s))
  then talker_send_rsp p d ACMP_PROBE_TX_RESPONSE ACMP_STAT_INCOMPATIBLE_REQUEST
  else
    source_timer_restart i TMR_PROBE_TX_RECEPTION ACMP_MILAN_TALKER_TMR_PROBE_TX_RECEPTION_MS;;
    set_source i (λ s, s <| probe_tx_valid := true |>);;
    let! s := get_source i in
    if negb (acmp_milan_talker_has_valid_srp_params s)
    then talker_send_rsp p d ACMP_PROBE_TX_RESPONSE ACMP_STAT_TALKER_DEST_MAC_FAIL
    else
      let! st := acmp_milan_talker_update i in
      let! s := get_source i in
      talker_send_rsp p (probe_tx_response s pdu d) ACMP_PROBE_TX_RESPONSE st.

Definition tx_state_response (s : stream_output) (d : acmp_pdu) : acmp_pdu :=
  let d := d <| p_listener_entity_id := 0 |> <| p_listener_unique_id := 0 |> in
  let d := if negb (srp_talker_declaration_type s =? NO_TALKER_DECLARATION) then acmp_talker_copy_common_params s d else d in
  if srp_listener_status s =? FAILED_LISTENER then d <| p_flags ::= flag_on ACMP_FLAG_REGISTERING_FAILED |> else d.

Definition is_talker_command (t : Z) : bool :=
  (t =? ACMP_PROBE_TX_COMMAND) || (t =? ACMP_DISCONNECT_TX_COMMAND) || (t =? ACMP_GET_TX_STATE_COMMAND) ||
  (t =? ACMP_GET_TX_CONNECTION_COMMAND).
Definition acmp_milan_talker_rcv (pdu : acmp_pdu) (t : Z) (p : nat) : TM Z :=
  let i := Z.to_nat (ntohs (p_talker_unique_id pdu)) in
  let! p := talker_port p in
  let! o := talker_rsp_init p pdu in
  match o with
  | None => ret (-1)
  | Some d =>
      let! c := gets (λ c, c) in
      if negb (acmp_talker_unique_valid c i) then
        if is_talker_command t && negb (t =? ACMP_GET_TX_CONNECTION_COMMAND)
        then talker_send_rsp p d (u8 (t + 1)) ACMP_STAT_TALKER_UNKNOWN_ID
        else talker_rsp_free p;; ret 0
      else if t =? ACMP_PROBE_TX_COMMAND then talker_rcv_probe_tx p i pdu d
      else if t =? ACMP_DISCONNECT_TX_COMMAND then talker_send_rsp p d ACMP_DISCONNECT_TX_RESPONSE ACMP_STAT_SUCCESS
      else if t =? ACMP_GET_TX_STATE_COMMAND then
        let! s := get_source i in
        talker_send_rsp p (tx_state_response s d) ACMP_GET_TX_STATE_RESPONSE ACMP_STAT_SUCCESS
      else if t =? ACMP_GET_TX_CONNECTION_COMMAND then talker_send_rsp p d ACMP_GET_TX_CONNECTION_RESPONSE ACMP_STAT_NOT_SUPPORTED
      else talker_rsp_free p;; ret (-1)
  end.

(** ** MAAP *)

Definition maap_range_id (i : nat) : Z := u32 (CFG_ACMP_DEFAULT_MAAP_BASE_RANGE_ID + Z.of_nat i).
Definition maap_port_id (s : stream_output) : Z := ntohs (o_avb_interface_index s).
Definition set_maap_started (i : nat) (b : bool) : TM unit := set_source i (λ s, s <| maap_started := b |>).

Fixpoint maap_stop_loop (l : list nat) : TM Z :=
  match l with
  | [] => ret 0
  | i :: l =>
      let! s := get_source i in
      if negb (maap_started s) then maap_stop_loop l
      else
        let! rc := talker_ipc_send (MAAP_DELETE_RANGE (maap_port_id s) (maap_range_id i)) in
        if rc <? 0 then ret rc else set_maap_started i false;; maap_stop_loop l
  end.
Definition acmp_milan_talkers_maap_stop : TM Z := let! n := gets (λ c, length (sources c)) in maap_stop_loop (seq 0 n).

Fixpoint maap_start_loop (l : list nat) : TM Z :=
  match l with
  | [] => ret 0
  | i :: l =>
      let! s := get_source i in
      if maap_started s then maap_start_loop l
      else
        let! rc := talker_ipc_send (MAAP_CREATE_RANGE (maap_port_id s) (maap_range_id i) CFG_ACMP_DEFAULT_MAAP_COUNT_PER_RANGE) in
        if rc <? 0 then ret rc else set_maap_started i true;; maap_start_loop l
  end.
Definition acmp_milan_talkers_maap_start : TM Z := let! n := gets (λ c, length (sources c)) in maap_start_loop (seq 0 n).

(** The source that an indication of MAAP is for. *)
Definition maap_source (c : talker_entity) (port range count : Z) : option nat :=
  let k := u32 (range - CFG_ACMP_DEFAULT_MAAP_BASE_RANGE_ID) in
  if (range <? CFG_ACMP_DEFAULT_MAAP_BASE_RANGE_ID) || (Z.of_nat (length (sources c)) <=? k) then None
  else if negb (count =? CFG_ACMP_DEFAULT_MAAP_COUNT_PER_RANGE) then None
  else match sources c !! Z.to_nat k with
       | Some s => if maap_port_id s =? port then Some (Z.to_nat k) else None
       | None => None
       end.
Definition talker_set_address (i : nat) (mac : list Z) : TM unit :=
  set_source i (λ s, s <| o_stream_dest_mac := mac |>);;
  talker_update i;;
  acmp_milan_talker_register_async_get_stream_info_notification i.
Definition acmp_milan_talker_maap_conflict (port range : Z) (mac : list Z) (count : Z) : TM unit :=
  let! c := gets (λ c, c) in
  match maap_source c port range count with Some i => talker_set_address i (replicate 6 0) | None => ret tt end.
Definition acmp_milan_talker_maap_valid (port range : Z) (mac : list Z) (count : Z) : TM unit :=
  let! c := gets (λ c, c) in
  match maap_source c port range count with Some i => talker_set_address i mac | None => ret tt end.

(** ** Timers *)

Definition source_timer_handler (i : nat) (k : source_timer) : TM unit :=
  match k with
  | TMR_PROBE_TX_RECEPTION => set_source i (λ s, s <| probe_tx_valid := false |>);; talker_update i
  | TMR_SRP_WITHDRAW => set_source i (λ s, s <| srp_talker_withdraw_in_progress := false |>);; talker_update i
  | TMR_SOURCE_NOTIFICATION => let! _ := perform (OutputInfoNotification i) in ret tt
  end.
Definition source_timer_expiry (i : nat) (k : source_timer) : TM unit :=
  let! l := gets sources in
  match l !! i with
  | None => ret tt
  | Some s => when (st_running (source_timer_of k s)) (source_timer_stop i k;; source_timer_handler i k)
  end.

(** ** Initialisation and exit *)

Definition source_timer_create (i : nat) (k : source_timer) : TM Z :=
  let! rc := perform (SourceTimerCreate i k) in
  when (negb (rc <? 0)) (set_source i (on_source_timer k (λ _, soft_created)));;
  ret rc.
Definition source_timer_destroy (i : nat) (k : source_timer) : TM unit := set_source i (on_source_timer k (λ _, soft_none)).
Fixpoint source_timers_create (i : nat) (l done : list source_timer) : TM Z :=
  match l with
  | [] => ret 0
  | k :: l =>
      let! rc := source_timer_create i k in
      if rc <? 0 then for_each done (source_timer_destroy i);; ret (-1) else source_timers_create i l (k :: done)
  end.
Definition source_timers : list source_timer := [TMR_PROBE_TX_RECEPTION; TMR_SRP_WITHDRAW; TMR_SOURCE_NOTIFICATION].
Definition acmp_milan_talker_init_timers (i : nat) : TM Z := source_timers_create i source_timers [].
Definition acmp_milan_talker_exit_timers (i : nat) : TM unit := for_each source_timers (source_timer_destroy i).

(** The 8 bytes of a stream id: the MAC address of the interface, then the
    index of the descriptor, which is in network order. *)
Fixpoint le_value (l : list Z) : Z := match l with [] => 0 | b :: l => b + 256 * le_value l end.
Definition init_stream_id (mac : list Z) (index : Z) : Z := le_value mac + Z.shiftl index 48.

Definition source_reset (s : stream_output) : stream_output :=
  s <| srp_talker_declaration_type := NO_TALKER_DECLARATION |> <| srp_listener_status := NO_LISTENER |>
    <| o_presentation_time_offset := SR_CLASS_A_MAX_TRANSIT_TIME |> <| o_stream_class := SR_CLASS_A |>
    <| o_stream_vlan_id := MRP_DEFAULT_VID |>.
Definition source_init (mac : list Z) (s : stream_output) : stream_output :=
  (acmp_milan_set_stream_output_withdraw_srp_params false (s <| o_stream_id := init_stream_id mac (o_descriptor_index s) |>))
    <| srp_talker_withdraw_in_progress := false |> <| talker_declared := false |> <| avtp_connected := false |>
    <| maap_started := false |> <| probe_tx_valid := false |>.
Fixpoint talkers_init_loop (l done : list nat) : TM Z :=
  match l with
  | [] => ret 0
  | i :: l =>
      let! s := get_source i in
      let! c := gets (λ c, c) in
      set_source i source_reset;;
      match mac_addresses c !! source_port s with
      | None => for_each done acmp_milan_talker_exit_timers;; ret (-1)
      | Some mac =>
          set_source i (source_init mac);;
          let! rc := acmp_milan_talker_init_timers i in
          if rc <? 0 then for_each done acmp_milan_talker_exit_timers;; ret (-1)
          else talkers_init_loop l (i :: done)
      end
  end.
(** The talkers of [acmp_milan_init] and [acmp_milan_exit]. *)
Definition acmp_milan_init_talkers : TM Z := let! n := gets (λ c, length (sources c)) in talkers_init_loop (seq 0 n) [].

Definition talker_exit_source (i : nat) : TM unit :=
  let! s := get_source i in
  when (talker_declared s)
    (let! _ := acmp_talker_withdraw (source_port s) i in set_source i (λ s, s <| talker_declared := false |>));;
  when (avtp_connected s)
    (let! _ := acmp_talker_avtp_stack_disconnect (source_port s) i in set_source i (λ s, s <| avtp_connected := false |>));;
  acmp_milan_talker_exit_timers i.
Definition acmp_milan_exit_talkers : TM unit :=
  let! n := gets (λ c, length (sources c)) in
  for_each (seq 0 n) talker_exit_source;;
  when (negb (n =? 0)%nat) (let! _ := acmp_milan_talkers_maap_stop in ret tt).

(** ** Entry points (avdecc/acmp.c, avdecc/avdecc.c)

    A context with one entity, a talker that is ready. *)

Definition talker_net_rx (p : nat) (m : acmp_msg) : TM unit :=
  let! c := gets (λ c, c) in
  when (is_talker_command (m_type m) && (p_talker_entity_id (m_pdu m) =? t_entity_id c) && talker_port_valid c p)
    (let! _ := acmp_milan_talker_rcv (m_pdu m) (m_type m) p in ret tt).

(** [GENAVB_MSG_TALKER_STATUS], [GENAVB_MSG_TALKER_DECLARATION_STATUS] and
    [GENAVB_MSG_MAAP_STATUS] *)
Definition talker_ipc_rx_srp (p : nat) (id : Z) (k : nat → TM unit) : TM unit :=
  let! c := gets (λ c, c) in
  if negb (talker_port_valid c p) then ret tt
  else match acmp_milan_get_talker_unique_id c id with Some i => k i | None => ret tt end.
Definition avdecc_ipc_rx_maap (status port range : Z) (mac : list Z) (count : Z) : TM unit :=
  let! c := gets (λ c, c) in
  if negb (talker_port_valid c (Z.to_nat port)) then ret tt
  else if status =? MAAP_STATUS_SUCCESS then acmp_milan_talker_maap_valid port range mac count
  else if status =? MAAP_STATUS_CONFLICT then acmp_milan_talker_maap_conflict port range mac count
  else ret tt.
Definition avdecc_local_entity_updated : TM unit :=
  let! n := gets (λ c, length (sources c)) in
  when (negb (n =? 0)%nat) (let! _ := acmp_milan_talkers_maap_start in ret tt).

(** ** Events

    [EvSetStreamInfo] stands for what AECP writes into the descriptors. *)

Inductive talker_event :=
| EvTalkerAcmp (p : nat) (m : acmp_msg)
| EvTalkerStatus (p : nat) (id status : Z)
| EvTalkerDeclaration (p : nat) (id ty : Z) (fl : list Z * Z)
| EvMaapStatus (status port range : Z) (mac : list Z) (count : Z)
| EvEntityUpdated
| EvSourceTimer (i : nat) (k : source_timer)
| EvSetStreamInfo (i : nat) (fmt offset : Z).

Definition talker_handle (ev : talker_event) : TM unit :=
  match ev with
  | EvTalkerAcmp p m => talker_net_rx p m
  | EvTalkerStatus p id status => talker_ipc_rx_srp p id (λ i, acmp_milan_talker_update_status i status)
  | EvTalkerDeclaration p id ty fl => talker_ipc_rx_srp p id (λ i, acmp_milan_talker_update_declaration i ty fl)
  | EvMaapStatus status port range mac count => avdecc_ipc_rx_maap status port range mac count
  | EvEntityUpdated => avdecc_local_entity_updated
  | EvSourceTimer i k => source_timer_expiry i k
  | EvSetStreamInfo i fmt offset =>
      set_source i (λ s, s <| o_current_format := fmt |> <| o_presentation_time_offset := offset |>)
  end.
Definition talker_run (l : list talker_event) : TM unit := for_each l talker_handle.
End milan_source.
