(* ===== verification/MilanSourceSpec.v ===== *)
(** * AVDECC: the update of a Milan talker source

    The abstract source, what its update does to it ([settle]) and what it says
    to SRP and to the media stack ([changes]); the operations of MilanTalker.v
    and MilanSource.v on source [i] of an entity, and the update as [settle]. *)

From S2P Require Import Prelude Tracked MaapAddr Maap Timer Milan MilanListener MilanTalker MilanSource.

(** ** The abstract source

    [as_withdrawn] is the address with which the source was withdrawn, while
    other ones have to wait. *)

Record asource := ASource {
  as_mac : list Z;
  as_probed : bool;
  as_listener : Z;
  as_declared : bool;
  as_withdrawn : option (list Z);
  as_connected : bool;
}.
Definition abs_source (s : stream_output) : asource :=
  ASource (o_stream_dest_mac s) (probe_tx_valid s) (srp_listener_status s) (talker_declared s)
    (if srp_talker_withdraw_in_progress s then Some (w_stream_dest_mac (srp_talker_withdraw_params s)) else None)
    (avtp_connected s).

Definition active (status : Z) : bool := (status =? ACTIVE_LISTENER) || (status =? ACTIVE_AND_FAILED_LISTENERS).
(** The source has an address and somebody wants its stream. *)
Definition wanted (a : asource) : bool :=
  negb (is_invalid_mac_addr (as_mac a)) && (as_probed a || negb (as_listener a =? NO_LISTENER)).
(** Nothing but the address with which it was withdrawn may be declared. *)
Definition may_declare (a : asource) : bool :=
  match as_withdrawn a with Some m => bool_decide (m = as_mac a) | None => true end.
Definition settle (a : asource) : asource :=
  let d := wanted a && (as_declared a || may_declare a) in
  ASource (as_mac a) (as_probed a) (as_listener a) d
    (if d then None else if as_declared a then Some (as_mac a) else as_withdrawn a)
    (d && negb (as_listener a =? NO_LISTENER) && (as_connected a || active (as_listener a))).

Inductive source_msg := MDeclare | MWithdraw | MConnect | MDisconnect.
(** Newest first. *)
Definition changes (a a' : asource) : list source_msg :=
  (if negb (as_connected a) && as_connected a' then [MConnect] else []) ++
  (if negb (as_declared a) && as_declared a' then [MDeclare] else []) ++
  (if as_connected a && negb (as_connected a') then [MDisconnect] else []) ++
  (if as_declared a && negb (as_declared a') then [MWithdraw] else []).

(** A declared source waits for nothing, and only a declared source is
    connected. *)
Record acoherent (a : asource) : Prop := {
  ac_declared : as_declared a = true → as_withdrawn a = None;
  ac_connected : as_connected a = true → as_declared a = true;
}.
Definition asettled (a : asource) : Prop := acoherent a ∧ settle a = a.

Lemma settle_coherent a : acoherent (settle a).
Proof.
  split; cbn; [by intros ->|]. intros H. apply andb_true_iff in H as [H _]. by apply andb_true_iff in H as [H _].
Qed.
Lemma settle_settled a : acoherent a → asettled (settle a).
Proof.
  intros [H1 H2]. split; [apply settle_coherent|]. unfold settle, wanted, may_declare. cbn.
  destruct a as [m p l d wd k]. cbn in *. destruct (is_invalid_mac_addr m); cbn.
  - by destruct d.
  - destruct (p || negb (l =? NO_LISTENER)); cbn; [|by destruct d]. destruct d; cbn.
    + f_equal. by destruct (negb _), k, (active l).
    + destruct wd as [m'|]; cbn; [destruct (bool_decide (m' = m)) eqn:E; cbn; rewrite ?E; cbn|];
        f_equal; by destruct (negb _), k, (active l).
Qed.

(** ** What is sent *)

Inductive talker_output := TSent (p : nat) (m : acmp_msg) | TTold (m : talker_ipc).
Definition talker_output_of (x : talker_call * Z) : option talker_output :=
  match x.1 with TNetTx p m => Some (TSent p m) | TIpcTx m => Some (TTold m) | _ => None end.

(** What a message of source [s] is in an entity [c] with SRP. *)
Definition msg_out (c : talker_entity) (i : nat) (s : stream_output) (m : source_msg) : list talker_output :=
  let p := source_port s in
  match m with
  | MDeclare => if t_srp_enabled c then [TTold (TALKER_REGISTER p (register_msg s 0))] else []
  | MWithdraw => if t_srp_enabled c then [TTold (TALKER_DEREGISTER p (o_stream_id s))] else []
  | MConnect => [TTold (TALKER_STACK_CONNECT i p (connect_msg c s 0))]
  | MDisconnect => [TTold (TALKER_STACK_DISCONNECT i p (o_stream_class s) (o_stream_id s))]
  end.
Definition msgs_out (c : talker_entity) (i : nat) (s : stream_output) (l : list source_msg) : list talker_output :=
  l ≫= msg_out c i s.

(** The source [i] is [s]. *)
Definition tput (i : nat) (s : stream_output) (c : talker_entity) : talker_entity := c <| sources ::= <[i := s]> |>.
Lemma tput_lookup i s c : (i < length (sources c))%nat → sources (tput i s c) !! i = Some s.
Proof. intros. unfold tput. cbn. by apply list_lookup_insert_eq. Qed.
Lemma tput_lookup_ne i j s c : i ≠ j → sources (tput i s c) !! j = sources c !! j.
Proof. intros. unfold tput. cbn. by apply list_lookup_insert_ne. Qed.
Lemma tput_length i s c : length (sources (tput i s c)) = length (sources c).
Proof. unfold tput. cbn. apply length_insert. Qed.
Lemma tput_id i s c : sources c !! i = Some s → tput i s c = c.
Proof. intros H. unfold tput, over, over_field. destruct c. cbn in *. f_equal. by apply list_insert_id. Qed.
Lemma tput_alter i f s c : (tput i s c) <| sources ::= alter f i |> = tput i (f s) c.
Proof.
  unfold tput, over, over_field. cbn. f_equal. apply list_eq. intros j. rewrite list_lookup_alter.
  case_decide as D; [subst j|by rewrite !list_lookup_insert_ne]. destruct (decide (i < length (sources c))%nat).
  - by rewrite !list_lookup_insert_eq.
  - rewrite !lookup_ge_None_2; rewrite ?length_insert; [done|lia..].
Qed.

(** ** Well-formed sources *)

(** The timers run as the flags say; a source that waits keeps the parameters
    that it had. *)
Record source_ok (n : nat) (s : stream_output) : Prop := {
  ts_probe : probe_tx_reception_timer s = SoftTimer true (probe_tx_valid s);
  ts_withdraw : srp_talker_withdraw_timer s = SoftTimer true (srp_talker_withdraw_in_progress s);
  ts_notification : st_created (o_notification_timer s) = true;
  ts_declared : talker_declared s = true → srp_talker_withdraw_in_progress s = false;
  ts_params : srp_talker_withdraw_in_progress s = true →
    w_stream_id (srp_talker_withdraw_params s) = o_stream_id s ∧ w_vlan_id (srp_talker_withdraw_params s) = o_stream_vlan_id s;
  ts_port : (source_port s < n)%nat;
}.

(** What an update leaves alone. *)
Definition erase (s : stream_output) : stream_output :=
  s <| talker_declared := false |> <| avtp_connected := false |> <| srp_talker_withdraw_in_progress := false |>
    <| srp_talker_withdraw_params := no_params |> <| srp_talker_withdraw_timer := soft_none |> <| o_stream_start := 0 |>
    <| o_stream_stop := 0 |> <| o_media_reset := 0 |> <| o_timestamp_uncertain := 0 |> <| o_frame_tx := 0 |>.
Definition same_source (s s' : stream_output) : Prop := erase s' = erase s.
Lemma same_source_trans s1 s2 s3 : same_source s1 s2 → same_source s2 s3 → same_source s1 s3.
Proof. unfold same_source. congruence. Qed.

Lemma redeclaring_same n s :
  source_ok n s → srp_talker_withdraw_in_progress s = true → acmp_milan_redeclaring_same_talker s = may_declare (abs_source s).
Proof.
  intros H Hp. destruct (ts_params _ _ H Hp) as [E1 E2]. unfold acmp_milan_redeclaring_same_talker, may_declare, abs_source. cbn.
  by rewrite Hp, E1, E2, !Z.eqb_refl, andb_true_r.
Qed.

Section ops.
Context `{!Platform talker_call}.
Abbreviation TM := (M talker_call talker_entity).
Implicit Types (w : world talker_call talker_entity) (c : talker_entity) (s : stream_output) (o : list talker_output).

(** The platform has memory and its queues accept messages. *)
Definition talker_healthy : Prop :=
  (∀ n p, answer n (TNetTxAlloc p) ≠ 0) ∧ (∀ n p m, answer n (TNetTxClone p m) ≠ 0) ∧
  (∀ n m, answer n (TIpcAlloc m) ≠ 0) ∧ (∀ n m, 0 ≤ answer n (TIpcTx m)).
Definition talker_world c o w : Prop := tracked talker_output_of talker_healthy c o w.
Definition talker_outputs w : list talker_output := omap talker_output_of (w_trace w).

Lemma get_source_spec i s c o Q w :
  talker_world (tput i s c) o w → (i < length (sources c))%nat → Q s w → wp (get_source i) Q w.
Proof.
  intros Hw Hi HQ. unfold get_source. apply wp_bind. eapply tracked_gets; [done|]. apply wp_deref. exists s.
  split; [by apply tput_lookup|done].
Qed.
Lemma set_source_spec i f s c o Q w :
  talker_world (tput i s c) o w → (∀ w', talker_world (tput i (f s) c) o w' → Q tt w') → wp (set_source i f) Q w.
Proof. intros Hw HQ. eapply tracked_modify; [done|]. intros w'. rewrite tput_alter. apply HQ. Qed.
Lemma quiet_spec call c o Q w :
  (∀ r, talker_output_of (call, r) = None) → talker_world c o w →
  (∀ n w', talker_world c o w' → Q (answer n call) w') → wp (perform call) Q w.
Proof. intros Hq Hw HQ. by apply (tracked_perform talker_output_of talker_healthy call None c o). Qed.
Lemma source_timer_start_spec i k ms s c o Q w :
  talker_world (tput i s c) o w → u32 ms ≠ 0 →
  (∀ w', talker_world (tput i (on_source_timer k (soft_start 1) s) c) o w' → Q tt w') → wp (source_timer_start i k ms) Q w.
Proof.
  intros Hw Hms HQ. unfold source_timer_start. apply wp_bind. eapply quiet_spec; [done..|]. intros _ w1 Hw1.
  eapply set_source_spec; [done|]. intros w2 Hw2. apply HQ. revert Hw2.
  assert (E : ∀ t, soft_start (u32 ms) t = soft_start 1 t) by (intros; unfold soft_start; by rewrite (proj2 (Z.eqb_neq _ _) Hms)).
  destruct k; cbn; unfold over, over_field; cbn; by rewrite E.
Qed.
Lemma talker_port_spec p c o Q w : talker_world c o w → (p < t_port_max c)%nat → Q p w → wp (talker_port p) Q w.
Proof.
  intros Hw Hp HQ. unfold talker_port. apply wp_bind. eapply tracked_gets; [done|]. by rewrite (proj2 (Nat.ltb_lt _ _) Hp).
Qed.

(** What is sent when the platform works, and then without error. *)
Definition sends_ok (rc : Z) (out out' : list talker_output) : Prop := talker_healthy → rc = 0 ∧ out = out'.
Lemma talker_ipc_send_spec m c o Q w :
  talker_world c o w →
  (∀ rc out w', talker_world c (out ++ o) w' → sends_ok rc out [TTold m] → Q rc w') → wp (talker_ipc_send m) Q w.
Proof.
  intros Hw HQ. unfold talker_ipc_send. apply wp_bind. eapply quiet_spec; [done..|]. intros n w1 Hw1.
  case (Z.eqb_spec (answer n (TIpcAlloc m)) 0) as [E|].
  { apply wp_ret. apply (HQ (-1) []); [done|]. intros (_ & _ & H & _). by destruct (H n m). }
  apply wp_bind. eapply (tracked_perform talker_output_of talker_healthy _ (Some (TTold m))); [done..|]. intros k w2 Hw2.
  case (Z.ltb_spec (answer k (TIpcTx m)) 0) as [E|].
  { apply wp_bind. eapply quiet_spec; [done..|]. intros _ w3 Hw3. apply wp_ret. apply (HQ (-1) [TTold m]); [done|].
    intros (_ & _ & _ & H). specialize (H k m). lia. }
  apply wp_ret. by apply (HQ 0 [TTold m]).
Qed.

Lemma declare_spec i s c o Q w :
  talker_world (tput i s c) o w → (i < length (sources c))%nat → (source_port s < t_port_max c)%nat →
  (∀ rc out w', talker_world (tput i s c) (out ++ o) w' → sends_ok rc out (msg_out c i s MDeclare) → Q rc w') →
  wp (acmp_talker_declare (source_port s) i 0) Q w.
Proof.
  intros Hw Hi Hp HQ. unfold acmp_talker_declare. apply wp_bind. eapply get_source_spec; [done..|]. apply wp_bind.
  eapply tracked_gets; [done|]. change (t_srp_enabled (tput i s c)) with (t_srp_enabled c). cbn [msg_out] in HQ.
  destruct (t_srp_enabled c); [|apply wp_ret; by apply (HQ 0 [])]. apply wp_bind. eapply talker_port_spec; [done..|].
  eapply talker_ipc_send_spec; done.
Qed.
Lemma withdraw_spec i s c o Q w :
  talker_world (tput i s c) o w → (i < length (sources c))%nat → (source_port s < t_port_max c)%nat →
  (∀ rc out w', talker_world (tput i s c) (out ++ o) w' → sends_ok rc out (msg_out c i s MWithdraw) → Q rc w') →
  wp (acmp_talker_withdraw (source_port s) i) Q w.
Proof.
  intros Hw Hi Hp HQ. unfold acmp_talker_withdraw. apply wp_bind. eapply get_source_spec; [done..|]. apply wp_bind.
  eapply tracked_gets; [done|]. change (t_srp_enabled (tput i s c)) with (t_srp_enabled c). cbn [msg_out] in HQ.
  destruct (t_srp_enabled c); [|apply wp_ret; by apply (HQ 0 [])]. apply wp_bind. eapply talker_port_spec; [done..|].
  eapply talker_ipc_send_spec; done.
Qed.
Definition count_stop s : stream_output := s <| o_stream_stop ::= λ n, u32 (n + 1) |>.
Lemma connect_spec i s c o Q w :
  talker_world (tput i s c) o w → (i < length (sources c))%nat → (source_port s < t_port_max c)%nat →
  (∀ rc out w', talker_world (tput i (count_start s) c) (out ++ o) w' → sends_ok rc out (msg_out c i s MConnect) → Q rc w') →
  wp (acmp_talker_avtp_stack_connect (source_port s) i 0) Q w.
Proof.
  intros Hw Hi Hp HQ. unfold acmp_talker_avtp_stack_connect. apply wp_bind. eapply get_source_spec; [done..|]. apply wp_bind.
  eapply tracked_gets; [done|]. apply wp_bind. eapply talker_port_spec; [done..|]. apply wp_bind.
  eapply talker_ipc_send_spec; [done|]. intros rc out w1 Hw1 Hs. apply wp_bind. eapply set_source_spec; [done|].
  intros w2 Hw2. apply wp_bind. eapply quiet_spec; [done..|]. intros _ w3 Hw3. apply wp_ret. by eapply HQ.
Qed.
Lemma disconnect_spec i s c o Q w :
  talker_world (tput i s c) o w → (i < length (sources c))%nat → (source_port s < t_port_max c)%nat →
  (∀ rc out w', talker_world (tput i (count_stop s) c) (out ++ o) w' → sends_ok rc out (msg_out c i s MDisconnect) → Q rc w') →
  wp (acmp_talker_avtp_stack_disconnect (source_port s) i) Q w.
Proof.
  intros Hw Hi Hp HQ. unfold acmp_talker_avtp_stack_disconnect. apply wp_bind. eapply get_source_spec; [done..|].
  apply wp_bind. eapply talker_port_spec; [done..|]. apply wp_bind.
  eapply talker_ipc_send_spec; [done|]. intros rc out w1 Hw1 Hs. apply wp_bind. eapply set_source_spec; [done|].
  intros w2 Hw2. apply wp_bind. eapply quiet_spec; [done..|]. intros _ w3 Hw3. apply wp_ret. by eapply HQ.
Qed.
End ops.
