(* ===== verification/MilanUpdate.v ===== *)
(** * AVDECC: the update of a Milan talker source is [settle]

    Each part of [acmp_milan_talker_update] does a part of [settle], on a
    platform that works; on any platform the update keeps the source
    well-formed. *)

From S2P Require Import Prelude Tracked MaapAddr Maap Timer Milan MilanListener MilanTalker MilanSource MilanSourceSpec.

(** ** The parts of [settle] *)

Definition part_withdraw (a : asource) : asource :=
  if negb (wanted a) && as_declared a
  then ASource (as_mac a) (as_probed a) (as_listener a) false (Some (as_mac a)) (as_connected a) else a.
Definition part_disconnect (a : asource) : asource :=
  if (negb (as_declared a) || (as_listener a =? NO_LISTENER)) && as_connected a
  then ASource (as_mac a) (as_probed a) (as_listener a) (as_declared a) (as_withdrawn a) false else a.
Definition part_declare (a : asource) : asource :=
  if negb (as_declared a) && may_declare a
  then ASource (as_mac a) (as_probed a) (as_listener a) true None (as_connected a) else a.
Definition part_connect (a : asource) : asource :=
  if active (as_listener a) && negb (as_connected a) && as_declared a
  then ASource (as_mac a) (as_probed a) (as_listener a) (as_declared a) (as_withdrawn a) true else a.
Definition parts (a : asource) : list asource :=
  let a1 := part_withdraw a in
  let a2 := part_disconnect a1 in
  if wanted a2 then [a; a1; a2; part_declare a2; part_connect (part_declare a2)] else [a; a1; a2].

(** The messages along a list of states, newest first. *)
Fixpoint changes_along (l : list asource) : list source_msg :=
  match l with
  | a :: (a' :: _) as k => changes_along k ++ changes a a'
  | _ => []
  end.

Lemma active_listener l : active l = true → (l =? NO_LISTENER) = false.
Proof.
  unfold active, ACTIVE_LISTENER, ACTIVE_AND_FAILED_LISTENERS, NO_LISTENER. intros [H|H]%orb_true_iff; apply Z.eqb_eq in H; by subst.
Qed.

(** The cases of a source. *)
Ltac bool_rewrite := repeat (match goal with H : _ = true |- _ => rewrite H | H : _ = false |- _ => rewrite H end; cbn).
Ltac source_cases a :=
  let m := fresh "m" in let p := fresh "p" in let l := fresh "l" in let d := fresh "d" in
  let x := fresh "x" in let k := fresh "k" in
  destruct a as [m p l d x k]; cbn in *; unfold parts, part_connect, part_declare, part_disconnect, part_withdraw, settle, may_declare, wanted;
  cbn; destruct (is_invalid_mac_addr m) eqn:?, p, (l =? NO_LISTENER) eqn:?, (active l) eqn:?, d, k; cbn in *; bool_rewrite; try done;
  repeat match goal with H : active ?l = true |- _ => apply active_listener in H; congruence end;
  destruct x as [m'|]; cbn; try (destruct (bool_decide (m' = m)) eqn:?); cbn; bool_rewrite.

Lemma parts_settle a : acoherent a → List.last (parts a) a = settle a ∧ changes_along (parts a) = changes a (settle a).
Proof.
  intros [H1 H2]. source_cases a.
  all: try (specialize (H1 eq_refl)); try (specialize (H2 eq_refl)); try done.
Qed.

(** Nothing changes. *)
Lemma source_changes_same a : changes a a = [].
Proof. unfold changes. by destruct (as_connected a), (as_declared a). Qed.

Section update.
Context `{!Platform talker_call}.
Implicit Types (w : world talker_call talker_entity) (c : talker_entity) (s : stream_output) (o : list talker_output).

Lemma wanted_abs s : acmp_milan_talker_has_valid_srp_params s = wanted (abs_source s).
Proof. done. Qed.
Lemma msgs_same c i s s' l : same_source s s' → msgs_out c i s' l = msgs_out c i s l.
Proof.
  intros H. unfold msgs_out. induction l as [|m l IH]; cbn; [done|]. rewrite IH. f_equal.
  assert (Hp : source_port s' = source_port s) by exact (f_equal source_port H).
  assert (Hi : o_stream_id s' = o_stream_id s) by exact (f_equal o_stream_id H).
  assert (H1 : register_msg s' 0 = register_msg s 0) by exact (f_equal (λ s, register_msg s 0) H).
  assert (H2 : connect_msg c s' 0 = connect_msg c s 0) by exact (f_equal (λ s, connect_msg c s 0) H).
  assert (H3 : o_stream_class s' = o_stream_class s) by exact (f_equal o_stream_class H).
  destruct m; unfold msg_out; by rewrite ?Hp, ?Hi, ?H1, ?H2, ?H3.
Qed.

Lemma msgs_one c i s m : msgs_out c i s [m] = msg_out c i s m.
Proof. apply app_nil_r. Qed.

(** What a part of the update does to source [i]: on a platform that works,
    [f] with its messages, and the exit [r]. *)
Definition part_post (i : nat) c s o (f : asource → asource) (r : option Z) (Q : option Z → world talker_call talker_entity → Prop) :
    Prop :=
  ∀ r' s' out w', talker_world (tput i s' c) (out ++ o) w' → same_source s s' → source_ok (t_port_max c) s' →
    (talker_healthy → r' = r ∧ abs_source s' = f (abs_source s) ∧
      out = msgs_out c i s (changes (abs_source s) (f (abs_source s)))) → Q r' w'.

Lemma part_idle i c s o f Q w :
  talker_world (tput i s c) o w → source_ok (t_port_max c) s → f (abs_source s) = abs_source s → part_post i c s o f None Q → Q None w.
Proof.
  intros Hw Hs Hf HQ. apply (HQ None s []); [done|done|done|]. intros _. by rewrite Hf, source_changes_same.
Qed.

Lemma withdraw_part i c s o Q w :
  talker_world (tput i s c) o w → (i < length (sources c))%nat → source_ok (t_port_max c) s →
  part_post i c s o part_withdraw None Q → wp (talker_update_withdraw (source_port s) i) Q w.
Proof.
  intros Hw Hi Hs HQ. unfold talker_update_withdraw. apply wp_bind. eapply get_source_spec; [done..|]. rewrite wanted_abs.
  assert (Hf : part_withdraw (abs_source s) = if negb (wanted (abs_source s)) && talker_declared s
    then ASource (o_stream_dest_mac s) (probe_tx_valid s) (srp_listener_status s) false (Some (o_stream_dest_mac s)) (avtp_connected s)
    else abs_source s) by done.
  revert Hf. destruct (negb (wanted (abs_source s)) && talker_declared s) eqn:E; intros Hf; [|by apply wp_ret, (part_idle i c s o _ Q w Hw Hs Hf)].
  apply andb_true_iff in E as [_ Ed]. apply wp_bind. eapply withdraw_spec; [done|done|apply Hs|]. intros rc out w1 Hw1 Hok.
  case (Z.ltb_spec rc 0) as [Hrc|Hrc].
  { apply wp_ret. apply (HQ _ s out); [done|done|done|]. intros [-> _]%Hok. lia. }
  apply wp_bind. eapply set_source_spec; [done|]. intros w2 Hw2. apply wp_bind. eapply source_timer_start_spec; [done|done|].
  intros w3 Hw3. apply wp_ret. eapply HQ; [exact Hw3|done| |].
  - destruct Hs as [S1 S2 S3 S4 S5 S6]. split; try done. cbn. by rewrite S2.
  - intros [_ ->]%Hok. rewrite <- msgs_one. split; [done|]. split; [by rewrite Hf|]. rewrite Hf. unfold changes. cbn. rewrite Ed.
    by destruct (avtp_connected s).
Qed.

Lemma disconnect_part i c s o Q w :
  talker_world (tput i s c) o w → (i < length (sources c))%nat → source_ok (t_port_max c) s →
  part_post i c s o part_disconnect None Q → wp (talker_update_disconnect (source_port s) i) Q w.
Proof.
  intros Hw Hi Hs HQ. unfold talker_update_disconnect. apply wp_bind. eapply get_source_spec; [done..|].
  assert (Hf : part_disconnect (abs_source s) =
    if (negb (talker_declared s) || (srp_listener_status s =? NO_LISTENER)) && avtp_connected s
    then ASource (o_stream_dest_mac s) (probe_tx_valid s) (srp_listener_status s) (talker_declared s)
      (as_withdrawn (abs_source s)) false else abs_source s) by done.
  revert Hf. destruct (_ && avtp_connected s) eqn:E; intros Hf; [|by apply wp_ret, (part_idle i c s o _ Q w Hw Hs Hf)].
  apply andb_true_iff in E as [_ Ec]. apply wp_bind. eapply disconnect_spec; [done|done|apply Hs|]. intros rc out w1 Hw1 Hok.
  assert (Hs1 : source_ok (t_port_max c) (count_stop s)) by (destruct Hs; by split).
  case (Z.ltb_spec rc 0) as [Hrc|Hrc].
  { apply wp_ret. apply (HQ _ (count_stop s) out); [done|done|done|]. intros [-> _]%Hok. lia. }
  apply wp_bind. eapply set_source_spec; [done|]. intros w2 Hw2. apply wp_ret. eapply HQ; [exact Hw2|done|by destruct Hs1|].
  intros [_ ->]%Hok. rewrite <- msgs_one. split; [done|]. split; [by rewrite Hf|]. rewrite Hf. unfold changes. cbn. rewrite Ec.
  by destruct (talker_declared s).
Qed.

Lemma connect_part i c s o Q w :
  talker_world (tput i s c) o w → (i < length (sources c))%nat → source_ok (t_port_max c) s →
  part_post i c s o part_connect None Q → wp (talker_update_connect (source_port s) i) Q w.
Proof.
  intros Hw Hi Hs HQ. unfold talker_update_connect. apply wp_bind. eapply get_source_spec; [done..|].
  assert (Hf : part_connect (abs_source s) = if has_active_listener s && negb (avtp_connected s) && talker_declared s
    then ASource (o_stream_dest_mac s) (probe_tx_valid s) (srp_listener_status s) (talker_declared s)
      (as_withdrawn (abs_source s)) true else abs_source s) by done.
  revert Hf. destruct (_ && talker_declared s) eqn:E; intros Hf; [|by apply wp_ret, (part_idle i c s o _ Q w Hw Hs Hf)].
  apply andb_true_iff in E as [[_ Ec%negb_true_iff]%andb_true_iff Ed]. apply wp_bind.
  eapply connect_spec; [done|done|apply Hs|]. intros rc out w1 Hw1 Hok.
  assert (Hs1 : source_ok (t_port_max c) (count_start s)) by (destruct Hs; by split).
  case (Z.ltb_spec rc 0) as [Hrc|Hrc].
  { apply wp_ret. apply (HQ _ (count_start s) out); [done|done|done|]. intros [-> _]%Hok. lia. }
  apply wp_bind. eapply set_source_spec; [done|]. intros w2 Hw2. apply wp_ret. eapply HQ; [exact Hw2|done|by destruct Hs1|].
  intros [_ ->]%Hok. rewrite <- msgs_one. split; [done|]. split; [by rewrite Hf|]. rewrite Hf. unfold changes. cbn. by rewrite Ec, Ed.
Qed.

(** The end of a wait, when it is for the address that was withdrawn. *)
Lemma wait_over i c s o Q w :
  talker_world (tput i s c) o w → source_ok (t_port_max c) s →
  (∀ s' w', talker_world (tput i s' c) o w' → same_source s s' → source_ok (t_port_max c) s' →
     srp_talker_withdraw_in_progress s' = false → talker_declared s' = talker_declared s → avtp_connected s' = avtp_connected s → Q tt w') →
  wp (when (srp_talker_withdraw_in_progress s)
       (set_source i (λ s, s <| srp_talker_withdraw_in_progress := false |>);; source_timer_stop i TMR_SRP_WITHDRAW)) Q w.
Proof.
  intros Hw Hs HQ. apply wp_when. destruct (srp_talker_withdraw_in_progress s) eqn:E; [|by eapply HQ].
  apply wp_bind. eapply set_source_spec; [done|]. intros w1 Hw1. eapply set_source_spec; [done|]. intros w2 Hw2.
  eapply HQ; [exact Hw2|done| |done..]. destruct Hs as [S1 S2 S3 S4 S5 S6]. split; try done. cbn. by rewrite S2.
Qed.
Definition declare_exit (a : asource) : option Z :=
  if as_declared a || may_declare a then None else Some ACMP_STAT_SUCCESS.
Lemma declare_part i c s o Q w :
  talker_world (tput i s c) o w → (i < length (sources c))%nat → source_ok (t_port_max c) s →
  part_post i c s o part_declare (declare_exit (abs_source s)) Q → wp (talker_update_declare (source_port s) i) Q w.
Proof.
  intros Hw Hi Hs HQ. unfold talker_update_declare. apply wp_bind. eapply get_source_spec; [done..|].
  destruct (talker_declared s) eqn:Ed.
  { apply wp_ret. apply (HQ None s []); [done|done|done|]. intros _. unfold declare_exit, part_declare. cbn. rewrite Ed. cbn.
    by rewrite source_changes_same. }
  assert (Hm : srp_talker_withdraw_in_progress s && negb (acmp_milan_redeclaring_same_talker s) = negb (may_declare (abs_source s))).
  { destruct (srp_talker_withdraw_in_progress s) eqn:E; [by rewrite (redeclaring_same _ _ Hs E)|]. unfold may_declare. cbn. by rewrite E. }
  rewrite Hm. destruct (may_declare (abs_source s)) eqn:Em.
  2:{ apply wp_ret. apply (HQ _ s []); [done|done|done|]. intros _. unfold declare_exit, part_declare. rewrite Em. cbn. rewrite Ed.
      cbn. by rewrite source_changes_same. }
  apply wp_bind. eapply wait_over; [done|done|]. intros s1 w1 Hw1 Hsame Hs1 E1 D1 C1. apply wp_bind.
  assert (Hp : source_port s1 = source_port s) by exact (f_equal source_port Hsame). rewrite <- Hp.
  eapply declare_spec; [done|done|apply Hs1|]. intros rc out w2 Hw2 Hok. case (Z.ltb_spec rc 0) as [Hrc|Hrc].
  { apply wp_ret. apply (HQ _ s1 out); [done|done|done|]. intros [-> _]%Hok. lia. }
  apply wp_bind. eapply set_source_spec; [done|]. intros w3 Hw3. apply wp_ret. eapply HQ; [exact Hw3|exact Hsame| |].
  - destruct Hs1 as [S1 S2 S3 S4 S5 S6]. split; try done. cbn. by rewrite E1.
  - intros [_ ->]%Hok. rewrite <- msgs_one, (msgs_same c i s s1) by done.
    assert (Hf : part_declare (abs_source s) = ASource (o_stream_dest_mac s) (probe_tx_valid s) (srp_listener_status s) true None
      (avtp_connected s)) by (unfold part_declare; rewrite Em; cbn; by rewrite Ed).
    split; [unfold declare_exit; rewrite Em; cbn; by rewrite Ed|]. rewrite Hf. split.
    + rewrite <- C1. unfold abs_source. cbn. rewrite E1.
      f_equal; [exact (f_equal o_stream_dest_mac Hsame)|exact (f_equal probe_tx_valid Hsame)|exact (f_equal srp_listener_status Hsame)].
    + unfold changes. cbn. rewrite Ed. by destruct (avtp_connected s).
Qed.

(** The update. *)
Definition update_post (i : nat) c s o (Q : Z → world talker_call talker_entity → Prop) : Prop :=
  ∀ st s' out w', talker_world (tput i s' c) (out ++ o) w' → same_source s s' → source_ok (t_port_max c) s' →
    (talker_healthy → acoherent (abs_source s) →
      st = ACMP_STAT_SUCCESS ∧ abs_source s' = settle (abs_source s) ∧
      out = msgs_out c i s (changes (abs_source s) (settle (abs_source s)))) → Q st w'.

(** Where the update is after some of its parts: [a] is what they made of the
    abstract source and [l] what they have sent, if the platform works. *)
Record so_far (i : nat) c s o (a : asource) (l : list source_msg) (s1 : stream_output) o1 w : Prop := {
  sf_world : talker_world (tput i s1 c) o1 w;
  sf_same : same_source s s1;
  sf_source : source_ok (t_port_max c) s1;
  sf_outputs : ∃ out, o1 = out ++ o ∧ (talker_healthy → abs_source s1 = a ∧ out = msgs_out c i s l);
}.
Lemma part_step i c s o a l s1 o1 w f r (m : M talker_call talker_entity (option Z)) k (Q : Z → world talker_call talker_entity → Prop) :
  so_far i c s o a l s1 o1 w →
  (∀ Q', part_post i c s1 o1 f (r (abs_source s1)) Q' → wp m Q' w) →
  (∀ s2 o2 w2, so_far i c s o (f a) (changes a (f a) ++ l) s2 o2 w2 → (talker_healthy → r a = None) → wp k Q w2) →
  (∀ st s2 o2 w2, so_far i c s o (f a) (changes a (f a) ++ l) s2 o2 w2 → (talker_healthy → r a = Some st) → Q st w2) →
  wp (unless_exit m k) Q w.
Proof.
  intros [Hw Hsame Hs (out & Eo & HF)] Hm Hk HQ. unfold unless_exit. apply wp_bind, Hm.
  intros r' s2 out2 w2 Hw2 Hsame2 Hs2 HF2.
  assert (Hso : so_far i c s o (f a) (changes a (f a) ++ l) s2 (out2 ++ o1) w2).
  { split; [done|by eapply same_source_trans|done|]. exists (out2 ++ out). split; [by rewrite Eo, app_assoc|].
    intros Hh. destruct (HF Hh) as [E1 E2], (HF2 Hh) as (_ & E3 & E4). rewrite E1 in E3, E4. split; [done|].
    rewrite E4, E2, (msgs_same c i s s1) by done. unfold msgs_out. by rewrite bind_app. }
  assert (Hr : talker_healthy → r a = r').
  { intros Hh. destruct (HF Hh) as [E1 _], (HF2 Hh) as (E2 & _). by rewrite E2, E1. }
  destruct r' as [st|].
  - by apply (HQ st s2 (out2 ++ o1) w2).
  - by apply (Hk s2 (out2 ++ o1) w2).
Qed.
Lemma so_far_update i c s o Q st s1 o1 w a l :
  update_post i c s o Q → so_far i c s o a l s1 o1 w →
  (talker_healthy → acoherent (abs_source s) →
    st = ACMP_STAT_SUCCESS ∧ a = settle (abs_source s) ∧ l = changes (abs_source s) (settle (abs_source s))) → Q st w.
Proof.
  intros HQ [Hw Hsame Hs (out & -> & HF)] H. apply (HQ st s1 out w); [done..|].
  intros Hh Ha. destruct (H Hh Ha) as (-> & Ea & El), (HF Hh) as [E1 E2]. by rewrite E1, E2, Ea, El.
Qed.

Lemma update_spec i c s o Q w :
  talker_world (tput i s c) o w → (i < length (sources c))%nat → source_ok (t_port_max c) s → update_post i c s o Q →
  wp (acmp_milan_talker_update i) Q w.
Proof.
  intros Hw Hi Hs HQ. unfold acmp_milan_talker_update. apply wp_bind. eapply tracked_gets; [done|].
  rewrite (tput_lookup i s c Hi). set (a := abs_source s).
  assert (H0 : so_far i c s o a [] s o w) by (split; [done..|]; by exists []).
  assert (Hport : ∀ b l s1 o1 w1, so_far i c s o b l s1 o1 w1 → source_port s1 = source_port s)
    by (intros b l s1 o1 w1 H; exact (f_equal source_port (sf_same _ _ _ _ _ _ _ _ _ H))).
  eapply (part_step i c s o a [] s o w part_withdraw (λ _, None)); [done|..].
  { intros Q' HQ'. by eapply withdraw_part. }
  2:{ intros st s1 o1 w1 H Hn. eapply so_far_update; [done|exact H|]. intros Hh. by specialize (Hn Hh). }
  intros s1 o1 w1 H1 _. eapply (part_step i c s o _ _ s1 o1 w1 part_disconnect (λ _, None)); [exact H1|..].
  { intros Q' HQ'. rewrite <- (Hport _ _ _ _ _ H1). eapply disconnect_part; [apply H1|done|apply H1|done]. }
  2:{ intros st s2 o2 w2 H Hn. eapply so_far_update; [done|exact H|]. intros Hh. by specialize (Hn Hh). }
  intros s2 o2 w2 H2 _. assert (H2' := H2). destruct H2' as [Hw2 _ Hs2 (out2 & _ & HF2)].
  assert (HP := parts_settle a). unfold parts in HP.
  apply wp_bind. eapply get_source_spec; [exact Hw2|done|]. rewrite wanted_abs.
  destruct (wanted (abs_source s2)) eqn:Ew.
  2:{ apply wp_ret. eapply so_far_update; [done|exact H2|]. intros Hh Ha. destruct (HF2 Hh) as [E2 _]. rewrite E2 in Ew.
      destruct (HP Ha) as [P1 P2]. rewrite Ew in P1, P2. split; [done|]. split; [done|]. fold a. rewrite <- P2. cbn. by rewrite app_nil_r. }
  eapply (part_step i c s o _ _ s2 o2 w2 part_declare declare_exit); [exact H2|..].
  { intros Q' HQ'. rewrite <- (Hport _ _ _ _ _ H2). by eapply declare_part. }
  - intros s3 o3 w3 H3 _. eapply (part_step i c s o _ _ s3 o3 w3 part_connect (λ _, None)); [exact H3|..].
    { intros Q' HQ'. rewrite <- (Hport _ _ _ _ _ H3). eapply connect_part; [apply H3|done|apply H3|done]. }
    + intros s4 o4 w4 H4 _. apply wp_ret. eapply so_far_update; [done|exact H4|]. intros Hh Ha.
      destruct (HF2 Hh) as [E2 _]. rewrite E2 in Ew. destruct (HP Ha) as [P1 P2]. rewrite Ew in P1, P2.
      split; [done|]. split; [done|]. fold a. rewrite <- P2. cbn. by rewrite !app_nil_r, ?app_assoc.
    + intros st s4 o4 w4 H Hn. eapply so_far_update; [done|exact H|]. intros Hh. by specialize (Hn Hh).
  - intros st s3 o3 w3 H3 Hr. eapply so_far_update; [done|exact H3|]. intros Hh Ha. specialize (Hr Hh).
    destruct (HF2 Hh) as [E2 _]. rewrite E2 in Ew. destruct (HP Ha) as [P1 P2]. rewrite Ew in P1, P2. cbn [last changes_along] in P1, P2.
    set (a2 := part_disconnect (part_withdraw a)) in *.
    assert (Hc : part_declare a2 = a2 ∧ st = ACMP_STAT_SUCCESS ∧ as_declared a2 = false).
    { unfold declare_exit in Hr. unfold part_declare. destruct (as_declared a2), (may_declare a2); try done.
      by injection Hr as <-. }
    destruct Hc as (Hc & -> & Hd).
    assert (Hc4 : part_connect a2 = a2) by (unfold part_connect; by rewrite Hd, andb_false_r).
    rewrite Hc, Hc4, !source_changes_same in P2. rewrite Hc, Hc4 in P1. rewrite Hc, source_changes_same.
    split; [done|]. split; [done|]. fold a. rewrite <- P2. cbn. by rewrite !app_nil_r.
Qed.
End update.
