(* ===== verification/MilanSourceRun.v ===== *)
(** * AVDECC: the events of Milan talkers as steps of a source

    Every event concerns at most one source of an entity; it changes what the
    source knows (its address, its probe, its listeners, its wait), and the
    source settles.  ACMP commands are answered. *)

From S2P Require Import Prelude Tracked MaapAddr Maap Timer Milan MilanListener MilanTalker MilanSource MilanSourceSpec MilanUpdate.

(** ** The abstract events *)

Inductive aevent :=
| AEProbe
| AEProbeEnd
| AEWaitEnd
| AEListener (status : Z)
| AEAddress (mac : list Z).
Definition learn (e : aevent) (a : asource) : asource :=
  match e with
  | AEProbe => ASource (as_mac a) true (as_listener a) (as_declared a) (as_withdrawn a) (as_connected a)
  | AEProbeEnd => ASource (as_mac a) false (as_listener a) (as_declared a) (as_withdrawn a) (as_connected a)
  | AEWaitEnd => ASource (as_mac a) (as_probed a) (as_listener a) (as_declared a) None (as_connected a)
  | AEListener l => ASource (as_mac a) (as_probed a) l (as_declared a) (as_withdrawn a) (as_connected a)
  | AEAddress m => ASource m (as_probed a) (as_listener a) (as_declared a) (as_withdrawn a) (as_connected a)
  end.
Definition source_step (e : aevent) (a : asource) : asource := settle (learn e a).

Lemma learn_coherent e a : acoherent a → acoherent (learn e a).
Proof. intros [H1 H2]. by destruct e. Qed.
Lemma source_step_settled e a : acoherent a → asettled (source_step e a).
Proof. intros H. by apply settle_settled, learn_coherent. Qed.

(** Without an address a probe changes nothing. *)
Lemma probe_without_address a :
  asettled a → wanted (learn AEProbe a) = false → source_step AEProbe a = learn AEProbe a.
Proof.
  intros [[H1 H2] Hs] Hw. unfold source_step, settle. rewrite Hw. cbn. destruct a as [m p l d x k]. unfold wanted in *. cbn in *.
  assert (Hm : is_invalid_mac_addr m = true) by (destruct (is_invalid_mac_addr m); done).
  unfold settle, wanted in Hs. cbn in Hs. rewrite Hm in Hs. cbn in Hs. injection Hs as Hd _ Hk. by rewrite <- Hd, <- Hk.
Qed.

(** What no event changes. *)
Definition identity (s : stream_output) : Z * Z * Z * Z * Z :=
  (o_avb_interface_index s, o_descriptor_index s, o_stream_id s, o_stream_vlan_id s, o_stream_class s).

Definition step_opt (e : option aevent) (a : asource) : asource := match e with Some e => source_step e a | None => a end.

Section run.
Context `{!Platform talker_call}.
Implicit Types (w : world talker_call talker_entity) (c : talker_entity) (s : stream_output) (o : list talker_output).

(** Source [i] has made step [e], after [extra] was sent. *)
Definition stepped (i : nat) c s o (e : option aevent) (extra : list talker_output) w : Prop :=
  ∃ s' out, talker_world (tput i s' c) (out ++ o) w ∧ source_ok (t_port_max c) s' ∧ identity s' = identity s ∧
    (talker_healthy → asettled (abs_source s) →
      abs_source s' = step_opt e (abs_source s) ∧
      out = extra ++ msgs_out c i s' (changes (abs_source s) (step_opt e (abs_source s)))).

Lemma stepped_same i c s o w : talker_world (tput i s c) o w → source_ok (t_port_max c) s → stepped i c s o None [] w.
Proof. intros Hw Hs. exists s, []. split_and!; [done..|]. intros _ _. cbn. by rewrite source_changes_same. Qed.

Lemma notify_spec i s c o Q w :
  talker_world (tput i s c) o w → (i < length (sources c))%nat →
  (∀ t w', st_created t = st_created (o_notification_timer s) → talker_world (tput i (s <| o_notification_timer := t |>) c) o w' → Q tt w') →
  wp (acmp_milan_talker_register_async_get_stream_info_notification i) Q w.
Proof.
  intros Hw Hi HQ. unfold acmp_milan_talker_register_async_get_stream_info_notification. apply wp_bind.
  eapply get_source_spec; [done..|]. apply wp_when. destruct (_ && _).
  - eapply source_timer_start_spec; [done|done|]. intros w1 Hw1.
    eapply (HQ (soft_start 1 (o_notification_timer s))); [|exact Hw1]. unfold soft_start. by destruct (_ && _).
  - eapply (HQ (o_notification_timer s)); [done|]. revert Hw. unfold over, over_field. cbn. by destruct s.
Qed.
Lemma source_ok_notify n s t :
  source_ok n s → st_created t = st_created (o_notification_timer s) → source_ok n (s <| o_notification_timer := t |>).
Proof. intros [S1 S2 S3 S4 S5 S6] Ht. split; try done. cbn. by rewrite Ht. Qed.

(** A source that learns something is updated. *)
Lemma learn_update i c s s1 o e w (Q : Z → world talker_call talker_entity → Prop) :
  talker_world (tput i s1 c) o w → (i < length (sources c))%nat → source_ok (t_port_max c) s1 →
  abs_source s1 = learn e (abs_source s) → identity s1 = identity s →
  (∀ st s' out w', talker_world (tput i s' c) (out ++ o) w' → source_ok (t_port_max c) s' → identity s' = identity s →
     same_source s1 s' →
     (talker_healthy → asettled (abs_source s) → st = ACMP_STAT_SUCCESS ∧ abs_source s' = source_step e (abs_source s) ∧
       out = msgs_out c i s' (changes (abs_source s) (source_step e (abs_source s)))) → Q st w') →
  wp (acmp_milan_talker_update i) Q w.
Proof.
  intros Hw Hi Hs Ha Hid HQ. eapply update_spec; [done|done|done|]. intros st s' out w1 Hw1 Hsame Hs' HF.
  apply (HQ st s' out); [done|done| |done|].
  { rewrite <- Hid. exact (f_equal identity Hsame). }
  intros Hh [Hc _]. rewrite Ha in HF. destruct (HF Hh (learn_coherent e _ Hc)) as (-> & E1 & E2). split; [done|]. split; [done|].
  rewrite E2, <- (msgs_same c i s1 s') by done. f_equal. by destruct e.
Qed.
Lemma learn_notify i c s s1 o e w :
  talker_world (tput i s1 c) o w → (i < length (sources c))%nat → source_ok (t_port_max c) s1 →
  abs_source s1 = learn e (abs_source s) → identity s1 = identity s →
  wp (talker_update i;; acmp_milan_talker_register_async_get_stream_info_notification i) (λ _, stepped i c s o (Some e) []) w.
Proof.
  intros Hw Hi Hs Ha Hid. apply wp_bind. unfold talker_update. apply wp_bind.
  eapply learn_update; [done..|]. intros st s' out w1 Hw1 Hs' Hid' _ HF. apply wp_ret.
  eapply notify_spec; [done|done|]. intros t w2 Ht Hw2. exists (s' <| o_notification_timer := t |>), out.
  split; [done|]. split; [by apply source_ok_notify|]. split; [done|]. intros Hh Hst. by apply HF.
Qed.

(** ** SRP and MAAP *)

Lemma status_spec i st c s o w :
  talker_world (tput i s c) o w → (i < length (sources c))%nat → source_ok (t_port_max c) s →
  wp (acmp_milan_talker_update_status i st) (λ _, stepped i c s o (Some (AEListener st)) []) w.
Proof.
  intros Hw Hi Hs. unfold acmp_milan_talker_update_status. apply wp_bind. eapply tracked_gets; [done|].
  rewrite (tput_lookup i s c Hi). apply wp_bind. eapply set_source_spec; [done|]. intros w1 Hw1.
  eapply learn_notify; [done|done| |done|done]. destruct Hs as [S1 S2 S3 S4 S5 S6]. by split.
Qed.
Lemma declaration_spec i ty fl c s o w :
  talker_world (tput i s c) o w → (i < length (sources c))%nat → source_ok (t_port_max c) s →
  wp (acmp_milan_talker_update_declaration i ty fl) (λ _, stepped i c s o None []) w.
Proof.
  intros Hw Hi Hs. unfold acmp_milan_talker_update_declaration. apply wp_bind. eapply tracked_gets; [done|].
  rewrite (tput_lookup i s c Hi). apply wp_bind. eapply set_source_spec; [done|]. intros w1 Hw1.
  eapply notify_spec; [done|done|]. intros t w2 Ht Hw2. eexists _, []. split; [exact Hw2|].
  split; [apply source_ok_notify; [|done]; destruct Hs; by split|]. split; [done|]. intros _ _. split; [done|].
  cbn [step_opt]. by rewrite source_changes_same.
Qed.
Lemma address_spec i mac c s o w :
  talker_world (tput i s c) o w → (i < length (sources c))%nat → source_ok (t_port_max c) s →
  wp (talker_set_address i mac) (λ _, stepped i c s o (Some (AEAddress mac)) []) w.
Proof.
  intros Hw Hi Hs. unfold talker_set_address. apply wp_bind. eapply set_source_spec; [done|]. intros w1 Hw1.
  eapply learn_notify; [done|done| |done|done]. destruct Hs as [S1 S2 S3 S4 S5 S6]. by split.
Qed.

(** ** Timers *)

Definition expiry_event (k : source_timer) : option aevent :=
  match k with TMR_PROBE_TX_RECEPTION => Some AEProbeEnd | TMR_SRP_WITHDRAW => Some AEWaitEnd | TMR_SOURCE_NOTIFICATION => None end.
Lemma stop_ok n s : source_ok n s → source_ok n (s <| o_notification_timer ::= soft_stop |>).
Proof. intros [S1 S2 S3 S4 S5 S6]. by split. Qed.
Lemma expired_update i c s s0 o e w f :
  talker_world (tput i s0 c) o w → (i < length (sources c))%nat → source_ok (t_port_max c) (f s0) →
  abs_source (f s0) = learn e (abs_source s) → identity (f s0) = identity s →
  wp (set_source i f;; talker_update i) (λ _, stepped i c s o (Some e) []) w.
Proof.
  intros Hw Hi Hs Ha Hid. apply wp_bind. eapply set_source_spec; [done|]. intros w1 Hw1. unfold talker_update. apply wp_bind.
  eapply learn_update; [done..|]. intros st s' out w2 Hw2 Hs' Hid' _ HF. apply wp_ret. exists s', out. split_and!; [done..|].
  intros Hh Hst. by apply HF.
Qed.
Lemma expired_spec i k c s o w :
  talker_world (tput i s c) o w → (i < length (sources c))%nat → source_ok (t_port_max c) s →
  wp (source_timer_stop i k;; source_timer_handler i k) (λ _, stepped i c s o (expiry_event k) []) w.
Proof.
  intros Hw Hi Hs. apply wp_bind. eapply set_source_spec; [done|]. intros w1 Hw1. destruct k; cbn [source_timer_handler expiry_event].
  3:{ apply wp_bind. eapply quiet_spec; [done|done|]. intros _ w2 Hw2. apply wp_ret.
      exists (s <| o_notification_timer ::= soft_stop |>), []. split_and!; [done|by apply stop_ok|done|].
      intros _ _. cbn [step_opt]. by rewrite source_changes_same. }
  - eapply (expired_update i c s _ o AEProbeEnd); [exact Hw1|done| |done|done].
    destruct Hs as [S1 S2 S3 S4 S5 S6]. split; try done. cbn. by rewrite S1.
  - eapply (expired_update i c s _ o AEWaitEnd); [exact Hw1|done| |done|done].
    destruct Hs as [S1 S2 S3 S4 S5 S6]. split; try done. cbn. by rewrite S2.
Qed.

(** ** ACMP commands *)

Lemma talker_send_rsp_spec p d t st c o Q w :
  talker_world c o w →
  (∀ rc out w', talker_world c (out ++ o) w' → (talker_healthy → out = [TSent p (AcmpMsg t st d)]) → Q rc w') →
  wp (talker_send_rsp p d t st) Q w.
Proof.
  intros Hw HQ. unfold talker_send_rsp, talker_net_tx. set (m := AcmpMsg t st d) in *.
  assert (Hloop : ∀ out w (Q' : unit → world talker_call talker_entity → Prop), talker_world c (out ++ o) w →
    (∀ w', talker_world c (out ++ o) w' → Q' tt w') → wp (talker_loop_back p m) Q' w).
  { intros out w1 Q' Hw1 HQ'. unfold talker_loop_back. apply wp_bind. eapply tracked_gets; [done|].
    destruct (_ || _); apply wp_when; (destruct (_ && _); [|by apply HQ']); apply wp_bind;
      (eapply quiet_spec; [done|exact Hw1|]); intros n w2 Hw2; apply wp_ret; by apply HQ'. }
  apply wp_bind, wp_bind. eapply quiet_spec; [done|done|]. intros n w1 Hw1. apply wp_bind.
  case (Z.eqb_spec (answer n (TNetTxClone p m)) 0) as [E|].
  { apply wp_ret. apply wp_bind. apply (Hloop []); [done|]. intros w2 Hw2. apply wp_ret, wp_ret. apply (HQ _ []); [done|].
    intros (_ & H & _). by destruct (H n p m). }
  apply wp_bind. eapply (tracked_perform talker_output_of talker_healthy _ (Some (TSent p m))); [done|done|]. intros k w2 Hw2.
  apply wp_when. assert (Hend : ∀ w, talker_world c ([TSent p m] ++ o) w →
    wp (talker_loop_back p m;; ret 0) (λ rc, wp (ret (if rc <? 0 then -1 else 0)) Q) w).
  { intros w3 Hw3. apply wp_bind. apply (Hloop [TSent p m]); [done|]. intros w4 Hw4. apply wp_ret, wp_ret.
    by apply (HQ _ [TSent p m]). }
  destruct (_ <? 0); [|by apply Hend]. apply wp_bind. eapply quiet_spec; [done|exact Hw2|]. intros _ w3 Hw3. apply wp_ret.
  by apply Hend.
Qed.
Lemma rsp_init_spec p pdu c o Q w :
  talker_world c o w →
  (∀ d w', talker_world c o w' → (talker_healthy → d = Some (response_pdu pdu)) → d = None ∨ d = Some (response_pdu pdu) → Q d w') →
  wp (talker_rsp_init p pdu) Q w.
Proof.
  intros Hw HQ. unfold talker_rsp_init. apply wp_bind. eapply quiet_spec; [done|done|]. intros n w1 Hw1. apply wp_ret.
  case (Z.eqb_spec (answer n (TNetTxAlloc p)) 0) as [E|]; apply HQ; auto. intros [H _]. by destruct (H n p).
Qed.

(** The answer of source [s] to a command. *)
Definition talker_reply s (p : nat) (pdu : acmp_pdu) (t : Z) : acmp_msg :=
  let d := response_pdu pdu in
  if t =? ACMP_PROBE_TX_COMMAND then
    if negb (Z.of_nat p =? ntohs (o_avb_interface_index s)) then AcmpMsg ACMP_PROBE_TX_RESPONSE ACMP_STAT_INCOMPATIBLE_REQUEST d
    else if is_invalid_mac_addr (o_stream_dest_mac s) then AcmpMsg ACMP_PROBE_TX_RESPONSE ACMP_STAT_TALKER_DEST_MAC_FAIL d
    else AcmpMsg ACMP_PROBE_TX_RESPONSE ACMP_STAT_SUCCESS (probe_tx_response s pdu d)
  else if t =? ACMP_DISCONNECT_TX_COMMAND then AcmpMsg ACMP_DISCONNECT_TX_RESPONSE ACMP_STAT_SUCCESS d
  else if t =? ACMP_GET_TX_STATE_COMMAND then AcmpMsg ACMP_GET_TX_STATE_RESPONSE ACMP_STAT_SUCCESS (tx_state_response s d)
  else AcmpMsg ACMP_GET_TX_CONNECTION_RESPONSE ACMP_STAT_NOT_SUPPORTED d.
Definition command_event s (p : nat) (t : Z) : option aevent :=
  if (t =? ACMP_PROBE_TX_COMMAND) && (Z.of_nat p =? ntohs (o_avb_interface_index s)) then Some AEProbe else None.
Definition command_source (pdu : acmp_pdu) : nat := Z.to_nat (ntohs (p_talker_unique_id pdu)).

(** A reply that changes nothing. *)
Lemma reply_only i s c o p d t st w :
  talker_world (tput i s c) o w → source_ok (t_port_max c) s →
  wp (talker_send_rsp p d t st) (λ _, stepped i c s o None [TSent p (AcmpMsg t st d)]) w.
Proof.
  intros Hw Hs. eapply talker_send_rsp_spec; [done|]. intros rc out w1 Hw1 Ho. exists s, out. split_and!; [done..|].
  intros Hh _. split; [done|]. cbn [step_opt]. by rewrite source_changes_same, (Ho Hh).
Qed.

Lemma probe_spec i p pdu s c o w :
  talker_world (tput i s c) o w → (i < length (sources c))%nat → source_ok (t_port_max c) s →
  wp (talker_rcv_probe_tx p i pdu (response_pdu pdu))
    (λ _, stepped i c s o (command_event s p ACMP_PROBE_TX_COMMAND) [TSent p (talker_reply s p pdu ACMP_PROBE_TX_COMMAND)]) w.
Proof.
  intros Hw Hi Hs. unfold talker_rcv_probe_tx. apply wp_bind. eapply get_source_spec; [done..|].
  unfold command_event, talker_reply. cbn [Z.eqb ACMP_PROBE_TX_COMMAND andb].
  destruct (Z.of_nat p =? ntohs (o_avb_interface_index s)) eqn:Ep; cbn [negb]; [|by apply reply_only].
  apply wp_bind. unfold source_timer_restart. apply wp_bind. eapply get_source_spec; [done..|]. cbn [source_timer_of].
  rewrite (ts_probe _ _ Hs). apply wp_when. cbn [st_created]. apply wp_bind. eapply set_source_spec; [done|]. intros w1 Hw1.
  eapply source_timer_start_spec; [done|done|]. intros w2 Hw2. apply wp_bind. eapply set_source_spec; [done|]. intros w3 Hw3.
  match type of Hw3 with talker_world (tput i ?t c) o w3 => set (s1 := t) in Hw3 end.
  assert (Hs1 : source_ok (t_port_max c) s1).
  { destruct Hs as [S1 S2 S3 S4 S5 S6]. split; try done. cbn. by rewrite S1. }
  apply wp_bind. eapply get_source_spec; [done..|]. rewrite wanted_abs.
  assert (Hwant : wanted (abs_source s1) = negb (is_invalid_mac_addr (o_stream_dest_mac s))) by (unfold wanted; cbn; by rewrite andb_true_r).
  rewrite Hwant. destruct (is_invalid_mac_addr (o_stream_dest_mac s)) eqn:Em; cbn [negb].
  - eapply talker_send_rsp_spec; [done|]. intros rc out w4 Hw4 Ho. exists s1, out. split_and!; [done|done|done|].
    intros Hh Ha. cbn [step_opt]. rewrite probe_without_address; [|done|exact Hwant]. split; [done|]. rewrite (Ho Hh).
    replace (changes (abs_source s) (learn AEProbe (abs_source s))) with (changes (abs_source s) (abs_source s)) by done.
    by rewrite source_changes_same.
  - apply wp_bind. eapply (learn_update i c s s1 o AEProbe); [done..|]. intros st s2 out w4 Hw4 Hs2 Hid Hsame HF.
    apply wp_bind. eapply get_source_spec; [done..|]. eapply talker_send_rsp_spec; [done|]. intros rc out2 w5 Hw5 Ho.
    exists s2, (out2 ++ out). split; [by rewrite <- app_assoc|]. split; [done|]. split; [done|]. intros Hh Ha.
    destruct (HF Hh Ha) as (-> & E1 & E2). split; [done|]. rewrite (Ho Hh), E2. cbn [step_opt app].
    assert (F : acmp_talker_copy_common_params s2 = acmp_talker_copy_common_params s)
      by exact (f_equal acmp_talker_copy_common_params Hsame).
    unfold probe_tx_response. by rewrite F.
Qed.

Lemma command_spec i p pdu t s c o w :
  talker_world (tput i s c) o w → (i < length (sources c))%nat → source_ok (t_port_max c) s → (p < t_port_max c)%nat →
  is_talker_command t = true → i = command_source pdu →
  wp (acmp_milan_talker_rcv pdu t p) (λ _, stepped i c s o (command_event s p t) [TSent p (talker_reply s p pdu t)]) w.
Proof.
  intros Hw Hi Hs Hp Ht Hpdu. unfold acmp_milan_talker_rcv. apply wp_bind. eapply talker_port_spec; [done|done|]. apply wp_bind.
  eapply rsp_init_spec; [done|]. intros d w1 Hw1 Hd [->| ->].
  { apply wp_ret. exists s, []. split_and!; [done..|]. intros Hh. by specialize (Hd Hh). }
  apply wp_bind. eapply tracked_gets; [done|]. change (Z.to_nat (ntohs (p_talker_unique_id pdu))) with (command_source pdu).
  rewrite <- Hpdu.
  assert (Hv : acmp_talker_unique_valid (tput i s c) i = true) by (unfold acmp_talker_unique_valid; rewrite tput_length; by apply Nat.ltb_lt).
  rewrite Hv. cbn [negb]. unfold is_talker_command in Ht.
  destruct (t =? ACMP_PROBE_TX_COMMAND) eqn:E0.
  { apply Z.eqb_eq in E0. subst t. by apply probe_spec. }
  unfold command_event, talker_reply. rewrite E0. cbn [andb].
  destruct (t =? ACMP_DISCONNECT_TX_COMMAND) eqn:E1; [by apply reply_only|].
  destruct (t =? ACMP_GET_TX_STATE_COMMAND) eqn:E2.
  { apply wp_bind. eapply get_source_spec; [done..|]. by apply reply_only. }
  cbn [orb] in Ht. rewrite Ht. by apply reply_only.
Qed.
(** A command for a source that does not exist. *)
Definition unknown_reply (p : nat) (pdu : acmp_pdu) (t : Z) : list talker_output :=
  if negb (t =? ACMP_GET_TX_CONNECTION_COMMAND)
  then [TSent p (AcmpMsg (u8 (t + 1)) ACMP_STAT_TALKER_UNKNOWN_ID (response_pdu pdu))] else [].
Lemma unknown_spec p pdu t c o w :
  talker_world c o w → (length (sources c) ≤ command_source pdu)%nat → (p < t_port_max c)%nat → is_talker_command t = true →
  wp (acmp_milan_talker_rcv pdu t p)
    (λ _ w', ∃ out, talker_world c (out ++ o) w' ∧ (talker_healthy → out = unknown_reply p pdu t)) w.
Proof.
  intros Hw Hi Hp Ht. unfold acmp_milan_talker_rcv. apply wp_bind. eapply talker_port_spec; [done|done|]. apply wp_bind.
  eapply rsp_init_spec; [done|]. intros d w1 Hw1 Hd [->| ->].
  { apply wp_ret. exists []. split; [done|]. intros Hh. by specialize (Hd Hh). }
  apply wp_bind. eapply tracked_gets; [done|]. change (Z.to_nat (ntohs (p_talker_unique_id pdu))) with (command_source pdu).
  assert (Hv : acmp_talker_unique_valid c (command_source pdu) = false) by by apply Nat.ltb_ge.
  rewrite Hv, Ht. unfold unknown_reply. cbn [negb andb]. destruct (t =? ACMP_GET_TX_CONNECTION_COMMAND); cbn [negb].
  - apply wp_bind. unfold talker_rsp_free. apply wp_bind. eapply quiet_spec; [done|exact Hw1|]. intros _ w2 Hw2. apply wp_ret, wp_ret.
    by exists [].
  - eapply talker_send_rsp_spec; [done|]. intros rc out w2 Hw2 Ho. by exists out.
Qed.
End run.
