(* ===== verification/MilanTalkerRun.v ===== *)
(** * AVDECC: the events of a Milan talker entity

    Each event of [talker_handle]: which source it concerns and the step that
    the source makes, what is answered, what SRP and the media stack are told. *)

From S2P Require Import Prelude Tracked MaapAddr Maap Timer Milan MilanListener MilanTalker MilanSource MilanSourceSpec MilanUpdate MilanSourceRun.

(** ** What an event asks for *)

Definition talker_accepted (c : talker_entity) (p : nat) (m : acmp_msg) : bool :=
  is_talker_command (m_type m) && (p_talker_entity_id (m_pdu m) =? t_entity_id c) && talker_port_valid c p.
(** The source that an event concerns and the step that it makes. *)
Definition event_source (c : talker_entity) (ev : talker_event) : option (nat * option aevent) :=
  match ev with
  | EvTalkerAcmp p m =>
      if talker_accepted c p m then
        (λ s, (command_source (m_pdu m), command_event s p (m_type m))) <$> sources c !! command_source (m_pdu m)
      else None
  | EvTalkerStatus p id st =>
      if talker_port_valid c p then (λ i, (i, Some (AEListener st))) <$> acmp_milan_get_talker_unique_id c id else None
  | EvTalkerDeclaration p id _ _ =>
      if talker_port_valid c p then (λ i, (i, None)) <$> acmp_milan_get_talker_unique_id c id else None
  | EvMaapStatus st port range mac count =>
      if talker_port_valid c (Z.to_nat port) then
        if st =? MAAP_STATUS_SUCCESS then (λ i, (i, Some (AEAddress mac))) <$> maap_source c port range count
        else if st =? MAAP_STATUS_CONFLICT then (λ i, (i, Some (AEAddress (replicate 6 0)))) <$> maap_source c port range count
        else None
      else None
  | EvSourceTimer i k =>
      match sources c !! i with
      | Some s => if st_running (source_timer_of k s) then Some (i, expiry_event k) else None
      | None => None
      end
  | EvSetStreamInfo i _ _ => (λ _, (i, None)) <$> sources c !! i
  | EvEntityUpdated => None
  end.
Definition source_label (c : talker_entity) (ev : talker_event) (i : nat) : option aevent :=
  match event_source c ev with Some (j, e) => if decide (j = i) then e else None | None => None end.

(** The frames sent, and the messages to SRP and to the media stack. *)
Definition talker_frames (o : list talker_output) : list (nat * acmp_msg) :=
  omap (λ x, match x with TSent p m => Some (p, m) | _ => None end) o.
Definition stream_msg (m : talker_ipc) : bool :=
  match m with MAAP_CREATE_RANGE _ _ _ | MAAP_DELETE_RANGE _ _ => false | _ => true end.
Definition stream_msgs (o : list talker_output) : list talker_ipc :=
  omap (λ x, match x with TTold m => if stream_msg m then Some m else None | _ => None end) o.
Definition event_reply (c : talker_entity) (ev : talker_event) : list (nat * acmp_msg) :=
  match ev with
  | EvTalkerAcmp p m =>
      if talker_accepted c p m then
        match sources c !! command_source (m_pdu m) with
        | Some s => [(p, talker_reply s p (m_pdu m) (m_type m))]
        | None => talker_frames (unknown_reply p (m_pdu m) (m_type m))
        end
      else []
  | _ => []
  end.

Lemma frames_app o o' : talker_frames (o ++ o') = talker_frames o ++ talker_frames o'.
Proof. apply omap_app. Qed.
Lemma stream_msgs_app o o' : stream_msgs (o ++ o') = stream_msgs o ++ stream_msgs o'.
Proof. apply omap_app. Qed.
Lemma msgs_out_app c i s l k : msgs_out c i s (l ++ k) = msgs_out c i s l ++ msgs_out c i s k.
Proof. apply bind_app. Qed.
Lemma frames_msgs c i s l : talker_frames (msgs_out c i s l) = [].
Proof.
  induction l as [|m l IH]; [done|]. change (m :: l) with ([m] ++ l). rewrite msgs_out_app, frames_app, IH, msgs_one.
  by destruct m; unfold msg_out; destruct (t_srp_enabled c).
Qed.

(** ** Well-formed entities *)

Record talker_ok (c : talker_entity) : Prop := {
  to_sources : ∀ i s, sources c !! i = Some s → source_ok (t_port_max c) s;
  to_ports : (length (mac_addresses c) ≤ t_port_max c)%nat;
}.
Definition talker_config (c : talker_entity) : Z * Z * Z * nat * bool * list (list Z) * nat :=
  (t_entity_id c, t_entity_index c, t_current_configuration c, t_port_max c, t_srp_enabled c, mac_addresses c, length (sources c)).
Definition all_settled (c : talker_entity) : Prop := ∀ i s, sources c !! i = Some s → asettled (abs_source s).

Section run.
Context `{!Platform talker_call}.
Implicit Types (w : world talker_call talker_entity) (c : talker_entity) (s : stream_output) (o : list talker_output).

(** What an event does to an entity, [out] is what it has sent. *)
Record talker_stepped c ev c' (out : list talker_output) : Prop := {
  tk_ok : talker_ok c';
  tk_config : talker_config c' = talker_config c;
  tk_sources : ∀ i s, sources c !! i = Some s → ∃ s', sources c' !! i = Some s' ∧ identity s' = identity s ∧
    (talker_healthy → asettled (abs_source s) → abs_source s' = step_opt (source_label c ev i) (abs_source s));
  tk_frames : talker_healthy → all_settled c → talker_frames out = event_reply c ev;
  tk_streams : talker_healthy → all_settled c → stream_msgs out =
    match event_source c ev with
    | Some (i, _) =>
        match sources c !! i, sources c' !! i with
        | Some s, Some s' => stream_msgs (msgs_out c i s' (changes (abs_source s) (abs_source s')))
        | _, _ => []
        end
    | None => []
    end;
}.
Definition event_post c ev o w : Prop := ∃ c' out, talker_world c' (out ++ o) w ∧ talker_stepped c ev c' out.

Lemma talker_ok_put i s c : talker_ok c → source_ok (t_port_max c) s → talker_ok (tput i s c).
Proof.
  intros [H1 H2] Hs. split; [|done]. intros j t Hj. change (t_port_max (tput i s c)) with (t_port_max c).
  destruct (decide (i = j)) as [->|Hne]; [|rewrite tput_lookup_ne in Hj by done; by eapply H1].
  rewrite tput_lookup in Hj; [by injection Hj as <-|]. apply lookup_lt_Some in Hj. by rewrite tput_length in Hj.
Qed.
Lemma label_of c ev i e : event_source c ev = Some (i, e) → source_label c ev i = e.
Proof. unfold source_label. intros ->. by rewrite decide_True. Qed.
Lemma label_other c ev i j e : event_source c ev = Some (i, e) → i ≠ j → source_label c ev j = None.
Proof. unfold source_label. intros -> H. by rewrite decide_False. Qed.

Lemma stepped_event i s c o ev e extra w :
  sources c !! i = Some s → talker_ok c → event_source c ev = Some (i, e) →
  talker_frames extra = event_reply c ev → stream_msgs extra = [] →
  stepped i c s o e extra w → event_post c ev o w.
Proof.
  intros Hs Hok He Hf Hm (s' & out & Hw & Hs' & Hid & HF). assert (Hi := lookup_lt_Some _ _ _ Hs).
  exists (tput i s' c), out. split; [done|]. split.
  - by apply talker_ok_put.
  - unfold talker_config. by rewrite tput_length.
  - intros j t Ht. destruct (decide (i = j)) as [<-|Hne].
    + rewrite Hs in Ht. injection Ht as <-. exists s'. split; [by apply tput_lookup|]. split; [done|]. rewrite (label_of _ _ _ _ He).
      intros Hh Ha. by apply HF.
    + exists t. rewrite tput_lookup_ne by done. split; [done|]. split; [done|]. intros _ _.
      by rewrite (label_other _ _ _ _ _ He Hne).
  - intros Hh Ha. destruct (HF Hh (Ha i s Hs)) as [_ ->]. by rewrite frames_app, frames_msgs, app_nil_r.
  - intros Hh Ha. rewrite He, Hs, tput_lookup by done. destruct (HF Hh (Ha i s Hs)) as [-> ->].
    by rewrite stream_msgs_app, Hm.
Qed.
(** An event that concerns no source. *)
Lemma sourceless_event c c' o ev out w :
  talker_world c' (out ++ o) w → talker_ok c' → talker_config c' = talker_config c → event_source c ev = None →
  (∀ i s, sources c !! i = Some s → ∃ s', sources c' !! i = Some s' ∧ identity s' = identity s ∧ abs_source s' = abs_source s) →
  (talker_healthy → talker_frames out = event_reply c ev ∧ stream_msgs out = []) → event_post c ev o w.
Proof.
  intros Hw Hok Hc He Hs Ho. exists c', out. split; [done|]. split; try done.
  - intros i s Hi. destruct (Hs i s Hi) as (s' & H1 & H2 & H3). exists s'. split; [done|]. split; [done|]. intros _ _.
    unfold source_label. by rewrite He, H3.
  - intros Hh _. by apply Ho.
  - intros Hh _. rewrite He. by apply Ho.
Qed.
Lemma ignored_event c o ev w :
  talker_world c o w → talker_ok c → event_source c ev = None → event_reply c ev = [] → event_post c ev o w.
Proof. intros Hw Hok He Hr. apply (sourceless_event c c o ev []); try done. eauto. Qed.

(** ** Ranges of MAAP *)

Lemma set_started_ok n b s : source_ok n s → source_ok n (s <| maap_started := b |>).
Proof. by intros []. Qed.

(** What the start or the stop of the ranges leaves alone. *)
Definition ranges_post c o w : Prop :=
  ∃ c' out, talker_world c' (out ++ o) w ∧ talker_config c' = talker_config c ∧
    talker_frames out = [] ∧ stream_msgs out = [] ∧
    ∀ i s, sources c !! i = Some s → ∃ b, sources c' !! i = Some (s <| maap_started := b |>).
Lemma ranges_same c o w : talker_world c o w → ranges_post c o w.
Proof.
  intros Hw. exists c, []. split_and!; [done..|]. intros i s Hi. exists (maap_started s). rewrite Hi. f_equal. by destruct s.
Qed.
Lemma ranges_step i s b m c o out w :
  sources c !! i = Some s → stream_msg m = false → (out = [] ∨ out = [TTold m]) →
  ranges_post (tput i (s <| maap_started := b |>) c) (out ++ o) w → ranges_post c o w.
Proof.
  intros Hs Hm Hout (c' & out' & Hw & H2 & H3 & H4 & H5). exists c', (out' ++ out). rewrite <- app_assoc.
  assert (E : talker_frames out = [] ∧ stream_msgs out = []) by (destruct Hout as [->| ->]; [done|]; cbn; by rewrite Hm).
  destruct E as [E1 E2]. split; [done|]. split.
  { rewrite H2. unfold talker_config. by rewrite tput_length. }
  split; [by rewrite frames_app, H3, E1|]. split; [by rewrite stream_msgs_app, H4, E2|]. intros j t Ht.
  destruct (decide (i = j)) as [<-|Hne].
  - rewrite Hs in Ht. injection Ht as <-. destruct (H5 i (s <| maap_started := b |>)) as [b' Hb'].
    { apply tput_lookup. by apply lookup_lt_Some in Hs. }
    by exists b'.
  - apply H5. by rewrite tput_lookup_ne.
Qed.
Lemma range_send i m b c o s w (k : M talker_call talker_entity Z) :
  sources c !! i = Some s → stream_msg m = false → talker_world c o w →
  (∀ o' w', talker_world (tput i (s <| maap_started := b |>) c) o' w' → wp k (λ _, ranges_post (tput i (s <| maap_started := b |>) c) o') w') →
  wp (let! rc := talker_ipc_send m in if rc <? 0 then ret rc else set_maap_started i b;; k) (λ _, ranges_post c o) w.
Proof.
  intros Hs Hm Hw Hk. apply wp_bind. unfold talker_ipc_send. apply wp_bind. eapply quiet_spec; [done|done|]. intros n w1 Hw1.
  destruct (_ =? 0); [apply wp_ret; cbn [Z.ltb]; apply wp_ret; by apply ranges_same|]. apply wp_bind.
  eapply (tracked_perform talker_output_of talker_healthy _ (Some (TTold m))); [done|done|]. intros k' w2 Hw2.
  assert (Hi := lookup_lt_Some _ _ _ Hs). destruct (_ <? 0).
  - apply wp_bind. eapply quiet_spec; [done|exact Hw2|]. intros _ w3 Hw3. apply wp_ret, wp_ret.
    apply (ranges_step i s (maap_started s) m c o [TTold m]); [done..|by right|].
    assert (Es : s <| maap_started := maap_started s |> = s) by by destruct s.
    rewrite Es, tput_id by done. by apply ranges_same.
  - apply wp_ret. cbn. apply wp_bind. assert (Hw2' : talker_world (tput i s c) ([TTold m] ++ o) w2) by (by rewrite tput_id).
    eapply set_source_spec; [exact Hw2'|]. intros w3 Hw3.
    eapply wp_mono; [by apply Hk|]. intros r w4. apply (ranges_step i s b m c o [TTold m]); [done..|by right].
Qed.
Lemma ranges_loop (stop : bool) l c o w :
  (∀ i, i ∈ l → (i < length (sources c))%nat) → talker_world c o w →
  wp (if stop then maap_stop_loop l else maap_start_loop l) (λ _, ranges_post c o) w.
Proof.
  revert c o w. induction l as [|i l IH]; intros c o w Hl Hw.
  { destruct stop; apply wp_ret; by apply ranges_same. }
  assert (Hi : (i < length (sources c))%nat) by (apply Hl; by left). apply lookup_lt_is_Some in Hi as [s Hs].
  assert (Hw' : talker_world (tput i s c) o w) by (by rewrite tput_id). assert (Hi := lookup_lt_Some _ _ _ Hs).
  assert (Hrec : wp (if stop then maap_stop_loop l else maap_start_loop l) (λ _, ranges_post c o) w).
  { apply IH; [|done]. intros j Hj. apply Hl. by right. }
  assert (Hput : ∀ b o' w', talker_world (tput i (s <| maap_started := b |>) c) o' w' →
    wp (if stop then maap_stop_loop l else maap_start_loop l) (λ _, ranges_post (tput i (s <| maap_started := b |>) c) o') w').
  { intros b o' w' Hw2. apply IH; [|done]. intros j Hj. rewrite tput_length. apply Hl. by right. }
  destruct stop; cbn [maap_stop_loop maap_start_loop]; apply wp_bind; (eapply get_source_spec; [done..|]).
  - destruct (negb (maap_started s)); [done|]. by apply (range_send i (MAAP_DELETE_RANGE (maap_port_id s) (maap_range_id i)) false c o s w _ Hs eq_refl Hw (Hput false)).
  - destruct (maap_started s); [done|]. by apply (range_send i (MAAP_CREATE_RANGE (maap_port_id s) (maap_range_id i) _) true c o s w _ Hs eq_refl Hw (Hput true)).
Qed.
Lemma ranges_spec (stop : bool) c o w :
  talker_world c o w →
  wp (if stop then acmp_milan_talkers_maap_stop else acmp_milan_talkers_maap_start) (λ _, ranges_post c o) w.
Proof.
  intros Hw. assert (H := ranges_loop stop (seq 0 (length (sources c))) c o w). destruct stop.
  - unfold acmp_milan_talkers_maap_stop. apply wp_bind. eapply tracked_gets; [done|]. apply H; [|done].
    intros i Hi%elem_of_seq. lia.
  - unfold acmp_milan_talkers_maap_start. apply wp_bind. eapply tracked_gets; [done|]. apply H; [|done].
    intros i Hi%elem_of_seq. lia.
Qed.

Lemma ranges_ok c c' :
  talker_ok c → talker_config c' = talker_config c →
  (∀ i s, sources c !! i = Some s → ∃ b, sources c' !! i = Some (s <| maap_started := b |>)) → talker_ok c'.
Proof.
  intros [H1 H2] Hc Hs. assert (Hp : t_port_max c' = t_port_max c ∧ mac_addresses c' = mac_addresses c ∧
    length (sources c') = length (sources c)) by by injection Hc.
  destruct Hp as (P1 & P2 & P3). split; [|by rewrite P1, P2]. intros i s Hi. rewrite P1.
  destruct (lookup_lt_is_Some_2 (sources c) i) as [t Ht]; [rewrite <- P3; by apply lookup_lt_Some in Hi|].
  destruct (Hs i t Ht) as [b Hb]. rewrite Hi in Hb. injection Hb as ->. apply set_started_ok. by eapply H1.
Qed.

(** ** Events *)

Lemma find_source c id i :
  acmp_milan_get_talker_unique_id c id = Some i → ∃ s, sources c !! i = Some s ∧ o_stream_id s = id.
Proof.
  intros H%List.find_some. destruct H as [_ H]. destruct (sources c !! i) as [s|]; [|done]. exists s. split; [done|].
  by apply Z.eqb_eq.
Qed.
Lemma maap_source_some c port range count i : maap_source c port range count = Some i → is_Some (sources c !! i).
Proof.
  unfold maap_source. destruct (_ || _); [done|]. destruct (negb _); [done|].
  destruct (sources c !! Z.to_nat _) as [s|] eqn:E; [|done]. destruct (_ =? _); [|done]. intros [= <-]. by rewrite E.
Qed.

(** An event that a handler of one source makes. *)
Lemma source_handler ev i s c o e extra (m : M talker_call talker_entity unit) w :
  sources c !! i = Some s → talker_ok c → talker_world c o w → event_source c ev = Some (i, e) →
  talker_frames extra = event_reply c ev → stream_msgs extra = [] →
  (talker_world (tput i s c) o w → (i < length (sources c))%nat → source_ok (t_port_max c) s →
     wp m (λ _, stepped i c s o e extra) w) →
  wp m (λ _, event_post c ev o) w.
Proof.
  intros Hs Hok Hw He Hf Hm H. assert (Hw' : talker_world (tput i s c) o w) by by rewrite tput_id.
  assert (Hi := lookup_lt_Some _ _ _ Hs). assert (Hso := to_sources _ Hok i s Hs).
  eapply wp_mono; [exact (H Hw' Hi Hso)|]. intros [] w1 Hst. by eapply stepped_event.
Qed.

Lemma acmp_event p m c o w :
  talker_ok c → talker_world c o w → wp (talker_net_rx p m) (λ _, event_post c (EvTalkerAcmp p m) o) w.
Proof.
  intros Hok Hw. unfold talker_net_rx. apply wp_bind. eapply tracked_gets; [done|]. apply wp_when.
  change (is_talker_command (m_type m) && (p_talker_entity_id (m_pdu m) =? t_entity_id c) && talker_port_valid c p)
    with (talker_accepted c p m).
  destruct (talker_accepted c p m) eqn:Ea.
  2:{ apply ignored_event; [done|done|by unfold event_source, event_reply; rewrite Ea|by unfold event_source, event_reply; rewrite Ea]. }
  assert (Hp : (p < t_port_max c)%nat ∧ is_talker_command (m_type m) = true).
  { unfold talker_accepted in Ea. apply andb_true_iff in Ea as [[H1 _]%andb_true_iff H2%Nat.ltb_lt]. destruct Hok. split; [lia|done]. }
  destruct Hp as [Hp Ht]. destruct (sources c !! command_source (m_pdu m)) as [s|] eqn:Es.
  - eapply (source_handler _ _ s c o (command_event s p (m_type m)) [TSent p (talker_reply s p (m_pdu m) (m_type m))]);
      [exact Es|done|done|by unfold event_source, event_reply; rewrite Ea, Es|by unfold event_source, event_reply; rewrite Ea, Es|done|]. intros Hw' Hi Hs. apply wp_bind.
    eapply wp_mono; [by apply command_spec|]. intros r w1 Hst. by apply wp_ret.
  - apply wp_bind. eapply wp_mono; [apply (unknown_spec p (m_pdu m) (m_type m) c o w Hw); [by apply lookup_ge_None|done|done]|].
    intros r w1 (out & Hw1 & Ho). apply wp_ret. apply (sourceless_event c c o _ out); [done|done|done|by unfold event_source, event_reply; rewrite Ea, Es|by eauto|].
    intros Hh. rewrite (Ho Hh). unfold event_reply. rewrite Ea, Es. split; [done|]. unfold unknown_reply. by destruct (negb _).
Qed.

Lemma talker_handle_spec ev c o w :
  talker_ok c → talker_world c o w → wp (talker_handle ev) (λ _, event_post c ev o) w.
Proof.
  intros Hok Hw. destruct ev as [p m|p id st|p id ty fl|st port range mac count| |i k|i fmt off]; cbn [talker_handle].
  - by apply acmp_event.
  - unfold talker_ipc_rx_srp. apply wp_bind. eapply tracked_gets; [done|].
    destruct (talker_port_valid c p) eqn:Ep; cbn [negb]; [|apply wp_ret; apply ignored_event; [done|done|unfold event_source; by rewrite ?Ep|done]].
    destruct (acmp_milan_get_talker_unique_id c id) as [i|] eqn:Ei.
    2:{ apply wp_ret. apply ignored_event; [done|done|unfold event_source; by rewrite ?Ep, ?Ei|done]. }
    destruct (find_source _ _ _ Ei) as (s & Hs & _).
    eapply (source_handler _ i s c o _ []); [done|done|done|by unfold event_source, event_reply; rewrite Ep, Ei|done|done|]. intros. by apply status_spec.
  - unfold talker_ipc_rx_srp. apply wp_bind. eapply tracked_gets; [done|].
    destruct (talker_port_valid c p) eqn:Ep; cbn [negb]; [|apply wp_ret; apply ignored_event; [done|done|unfold event_source; by rewrite ?Ep|done]].
    destruct (acmp_milan_get_talker_unique_id c id) as [i|] eqn:Ei.
    2:{ apply wp_ret. apply ignored_event; [done|done|unfold event_source; by rewrite ?Ep, ?Ei|done]. }
    destruct (find_source _ _ _ Ei) as (s & Hs & _).
    eapply (source_handler _ i s c o _ []); [done|done|done|by unfold event_source, event_reply; rewrite Ep, Ei|done|done|]. intros. by apply declaration_spec.
  - unfold avdecc_ipc_rx_maap. apply wp_bind. eapply tracked_gets; [done|].
    destruct (talker_port_valid c (Z.to_nat port)) eqn:Ep; cbn [negb]; [|apply wp_ret; apply ignored_event; [done|done|unfold event_source; by rewrite ?Ep|done]].
    destruct (st =? MAAP_STATUS_SUCCESS) eqn:E1; [|destruct (st =? MAAP_STATUS_CONFLICT) eqn:E2].
    3:{ apply wp_ret. apply ignored_event; [done|done|unfold event_source; by rewrite ?Ep, ?E1, ?E2|done]. }
    all: unfold acmp_milan_talker_maap_valid, acmp_milan_talker_maap_conflict; apply wp_bind; (eapply tracked_gets; [done|]);
      destruct (maap_source c port range count) as [i|] eqn:Ei;
      [|apply wp_ret; apply ignored_event; [done|done|unfold event_source; by rewrite ?Ep, ?E1, ?E2, ?Ei|done]];
      destruct (maap_source_some _ _ _ _ _ Ei) as [s Hs];
      (eapply (source_handler _ i s c o _ []); [done|done|done|by unfold event_source, event_reply; rewrite Ep, E1, ?E2, Ei|done|done|]);
      intros; by apply address_spec.
  - unfold avdecc_local_entity_updated. apply wp_bind. eapply tracked_gets; [done|]. apply wp_when.
    destruct (negb _); [|by apply ignored_event]. apply wp_bind. eapply wp_mono; [by apply (ranges_spec false)|].
    intros r w1 (c' & out & Hw1 & H2 & H3 & H4 & H5). apply wp_ret. apply (sourceless_event c c' o _ out); try done; [by eapply ranges_ok|].
    intros i s Hi. destruct (H5 i s Hi) as [b Hb]. by exists (s <| maap_started := b |>).
  - unfold source_timer_expiry. apply wp_bind. eapply tracked_gets; [done|]. destruct (sources c !! i) as [s|] eqn:Hs.
    2:{ apply wp_ret. apply ignored_event; [done|done|unfold event_source; by rewrite ?Hs|done]. }
    apply wp_when. destruct (st_running (source_timer_of k s)) eqn:Er.
    2:{ apply ignored_event; [done|done|unfold event_source; by rewrite ?Hs, ?Er|done]. }
    eapply (source_handler _ i s c o _ []); [done|done|done|by unfold event_source, event_reply; rewrite Hs, Er|done|done|]. intros. by apply expired_spec.
  - destruct (sources c !! i) as [s|] eqn:Hs.
    + eapply (source_handler _ i s c o None []); [done|done|done|by unfold event_source, event_reply; rewrite Hs|done|done|]. intros Hw' Hi Hso.
      eapply set_source_spec; [done|]. intros w1 Hw1. eexists _, []. split; [exact Hw1|]. split; [by destruct Hso|].
      split; [done|]. intros _ _. cbn [step_opt]. by rewrite source_changes_same.
    + eapply tracked_modify; [done|]. intros w1 Hw1. apply ignored_event; [|done|by unfold event_source, event_reply; rewrite Hs|done].
      revert Hw1. unfold over, over_field. cbn. rewrite alter_none by done. by destruct c.
Qed.
End run.
