(* ===== verification/MilanTalkerInit.v ===== *)
(** * AVDECC: start and end of a Milan talker

    Initialisation gives an entity whose sources are idle and well-formed, or
    fails with every timer destroyed; exit withdraws and disconnects every
    source and destroys every timer. *)

From S2P Require Import Prelude Tracked MaapAddr Maap Timer Milan MilanListener MilanTalker MilanSource MilanSourceSpec MilanUpdate MilanSourceRun MilanTalkerRun.

Definition source_timers_off (s : stream_output) : Prop :=
  probe_tx_reception_timer s = soft_none ∧ srp_talker_withdraw_timer s = soft_none ∧ o_notification_timer s = soft_none.
Definition no_source_timers (c : talker_entity) : Prop := ∀ i s, sources c !! i = Some s → source_timers_off s.

(** Before initialisation: zeroed memory, the descriptors in the order of their
    indices, on ports of the context. *)
Record source_off (n i : nat) (s : stream_output) : Prop := {
  of_timers : source_timers_off s;
  of_mac : o_stream_dest_mac s = replicate 6 0;
  of_index : o_descriptor_index s = htons (Z.of_nat i);
  of_port : (source_port s < n)%nat;
}.
Record talker_zeroed (c : talker_entity) : Prop := {
  tz_sources : ∀ i s, sources c !! i = Some s → source_off (t_port_max c) i s;
  tz_ports : (length (mac_addresses c) ≤ t_port_max c)%nat;
}.
Definition idle_source : asource := ASource (replicate 6 0) false NO_LISTENER false None false.
Record source_new (c : talker_entity) (i : nat) (s : stream_output) : Prop := {
  sn_ok : source_ok (t_port_max c) s;
  sn_abs : abs_source s = idle_source;
  sn_id : ∃ mac, mac_addresses c !! source_port s = Some mac ∧ o_stream_id s = init_stream_id mac (htons (Z.of_nat i));
  sn_vlan : o_stream_vlan_id s = MRP_DEFAULT_VID;
}.

Definition timers_set (t : soft_timer) (s : stream_output) : stream_output :=
  on_source_timer TMR_SOURCE_NOTIFICATION (λ _, t) (on_source_timer TMR_SRP_WITHDRAW (λ _, t)
    (on_source_timer TMR_PROBE_TX_RECEPTION (λ _, t) s)).

Section init.
Context `{!Platform talker_call}.
Implicit Types (w : world talker_call talker_entity) (c : talker_entity) (s : stream_output) (o : list talker_output).

(** ** Timers *)

Lemma destroy_spec i s c o (Q : unit → world talker_call talker_entity → Prop) w :
  talker_world (tput i s c) o w → (∀ w', talker_world (tput i (timers_set soft_none s) c) o w' → Q tt w') →
  wp (acmp_milan_talker_exit_timers i) Q w.
Proof.
  intros Hw HQ. unfold acmp_milan_talker_exit_timers, source_timers, source_timer_destroy. cbn [for_each].
  apply wp_bind. eapply set_source_spec; [done|]. intros w1 Hw1. apply wp_bind. eapply set_source_spec; [done|]. intros w2 Hw2.
  apply wp_bind. eapply set_source_spec; [done|]. intros w3 Hw3. apply wp_ret. exact (HQ _ Hw3).
Qed.
Lemma create_timer_spec i k s c o (Q : Z → world talker_call talker_entity → Prop) w :
  talker_world (tput i s c) o w →
  (∀ rc w', rc < 0 → talker_world (tput i s c) o w' → Q rc w') →
  (∀ rc w', 0 ≤ rc → talker_world (tput i (on_source_timer k (λ _, soft_created) s) c) o w' → Q rc w') →
  wp (source_timer_create i k) Q w.
Proof.
  intros Hw HN HP. unfold source_timer_create. apply wp_bind. eapply quiet_spec; [done..|]. intros n w1 Hw1.
  apply wp_bind, wp_when. case (Z.ltb_spec (answer n (SourceTimerCreate i k)) 0) as [E|E]; cbn [negb].
  - by apply wp_ret, HN.
  - eapply set_source_spec; [done|]. intros w2 Hw2. by apply wp_ret, HP.
Qed.
Lemma create_timers_spec i s c o (Q : Z → world talker_call talker_entity → Prop) w :
  talker_world (tput i s c) o w → source_timers_off s →
  (∀ rc s' w', rc < 0 → source_timers_off s' → talker_world (tput i s' c) o w' → Q rc w') →
  (∀ w', talker_world (tput i (timers_set soft_created s) c) o w' → Q 0 w') →
  wp (acmp_milan_talker_init_timers i) Q w.
Proof.
  intros Hw Hoff HF HS. unfold acmp_milan_talker_init_timers, source_timers. cbn [source_timers_create].
  apply wp_bind. eapply create_timer_spec; [exact Hw| |].
  { intros rc w1 Hrc Hw1. rewrite (proj2 (Z.ltb_lt _ _) Hrc). cbn [for_each]. apply wp_bind, wp_ret.
    apply (wp_ret (-1)). by apply (HF (-1) s). }
  intros rc1 w1 Hr1 Hw1. rewrite (proj2 (Z.ltb_ge _ _) Hr1). apply wp_bind. eapply create_timer_spec; [exact Hw1| |].
  { intros rc w2 Hrc Hw2. rewrite (proj2 (Z.ltb_lt _ _) Hrc). cbn [for_each]. apply wp_bind, wp_bind.
    eapply set_source_spec; [done|]. intros w3 Hw3. apply wp_ret. apply (wp_ret (-1)). eapply (HF (-1)); [done| |exact Hw3].
    by destruct Hoff as (H1 & H2 & H3). }
  intros rc2 w2 Hr2 Hw2. rewrite (proj2 (Z.ltb_ge _ _) Hr2). apply wp_bind. eapply create_timer_spec; [exact Hw2| |].
  { intros rc w3 Hrc Hw3. rewrite (proj2 (Z.ltb_lt _ _) Hrc). cbn [for_each]. apply wp_bind, wp_bind.
    eapply set_source_spec; [done|]. intros w4 Hw4. apply wp_bind. eapply set_source_spec; [done|]. intros w5 Hw5. apply wp_ret. apply (wp_ret (-1)). eapply (HF (-1)); [done| |exact Hw5].
    by destruct Hoff as (H1 & H2 & H3). }
  intros rc3 w3 Hr3 Hw3. rewrite (proj2 (Z.ltb_ge _ _) Hr3). apply wp_ret. exact (HS _ Hw3).
Qed.

(** ** Initialisation *)

Lemma tput_config i s c : talker_config (tput i s c) = talker_config c.
Proof. unfold talker_config. by rewrite tput_length. Qed.
Lemma tput_cases i s c j t :
  sources (tput i s c) !! j = Some t → (j = i ∧ t = s ∧ (i < length (sources c))%nat) ∨ (j ≠ i ∧ sources c !! j = Some t).
Proof.
  intros H. destruct (decide (j = i)) as [->|Hne]; [|right; by rewrite tput_lookup_ne in H by done].
  left. assert (Hi : (i < length (sources c))%nat) by (apply lookup_lt_Some in H; by rewrite tput_length in H).
  rewrite tput_lookup in H by done. by injection H as <-.
Qed.

(** Destroying the timers of the sources in [d]. *)
Lemma destroy_loop d : ∀ c o w,
  talker_world c o w → (∀ i, i ∈ d → (i < length (sources c))%nat) →
  (∀ i s, sources c !! i = Some s → i ∈ d ∨ source_timers_off s) →
  wp (for_each d acmp_milan_talker_exit_timers) (λ _ w', ∃ c', talker_world c' o w' ∧ no_source_timers c') w.
Proof.
  induction d as [|i d IH]; intros c o w Hw Hlt Hoff; cbn [for_each].
  { apply wp_ret. exists c. split; [done|]. intros i s Hi. destruct (Hoff i s Hi) as [H|H]; [by apply elem_of_nil in H|done]. }
  destruct (lookup_lt_is_Some_2 (sources c) i (Hlt i ltac:(by left))) as [s Hs]. apply wp_bind.
  eapply (destroy_spec i s c); [by rewrite tput_id|]. intros w1 Hw1. apply (IH _ _ _ Hw1).
  - intros j Hj. rewrite tput_length. apply Hlt. by right.
  - intros j t [(-> & -> & _)|[Hne Ht]]%tput_cases; [by right|]. destruct (Hoff j t Ht) as [[->|H]%elem_of_cons|H]; [done|by left|by right].
Qed.

Definition source_start (mac : list Z) (s : stream_output) : stream_output := timers_set soft_created (source_init mac (source_reset s)).
Lemma source_start_new c i mac s :
  source_off (t_port_max c) i s → mac_addresses c !! source_port s = Some mac → source_new c i (source_start mac s).
Proof.
  intros [_ H2 H3 H4] Hm. split; [by split| |exists mac; split; [exact Hm|cbn; by rewrite H3]|done].
  unfold abs_source, idle_source. cbn. by rewrite H2.
Qed.
(** Sources in [d] are new, the others are off. *)
Definition split_sources c0 (d : list nat) c : Prop :=
  ∀ i s, sources c !! i = Some s → if decide (i ∈ d) then source_new c0 i s else source_off (t_port_max c0) i s.

Lemma init_loop c0 l : ∀ d c o w (Q : Z → world talker_call talker_entity → Prop),
  NoDup (l ++ d) → (∀ i, i ∈ l ++ d → (i < length (sources c))%nat) → split_sources c0 d c → talker_config c = talker_config c0 →
  talker_world c o w →
  (∀ rc c' w', rc < 0 → talker_world c' o w' → no_source_timers c' → Q rc w') →
  (∀ c' w', talker_world c' o w' → talker_config c' = talker_config c0 → split_sources c0 (reverse l ++ d) c' → Q 0 w') →
  wp (talkers_init_loop l d) Q w.
Proof.
  induction l as [|i l IH]; intros d c o w Q Hnd Hlt Hsp Hc Hw HF HS; cbn [talkers_init_loop].
  { apply wp_ret. by apply (HS c). }
  apply list.NoDup_cons in Hnd as [Hi Hnd]. assert (Hid : i ∉ d) by (intros ?; apply Hi, list.elem_of_app; by right).
  assert (Hil : (i < length (sources c))%nat) by (apply Hlt; by left).
  destruct (lookup_lt_is_Some_2 (sources c) i Hil) as [s Hs]. assert (Hso := Hsp i s Hs). rewrite decide_False in Hso by done.
  assert (Hmac : mac_addresses c = mac_addresses c0) by (by injection Hc).
  assert (Hw' : talker_world (tput i s c) o w) by by rewrite tput_id.
  assert (Hfail : ∀ t w1, source_timers_off t → talker_world (tput i t c) o w1 →
    wp (for_each d acmp_milan_talker_exit_timers;; ret (-1)) Q w1).
  { intros t w1 Ht Hw1. apply wp_bind. eapply wp_mono; [apply (destroy_loop d _ o w1 Hw1)|].
    - intros j Hj. rewrite tput_length. apply Hlt. right. apply list.elem_of_app. by right.
    - intros j u [(-> & -> & _)|[Hne Hu]]%tput_cases; [by right|]. specialize (Hsp j u Hu). cbn beta in Hsp.
      destruct (decide (j ∈ d)); [by left|]. right. apply Hsp.
    - intros _ w2 (c2 & Hw2 & Hoff). apply wp_ret. by apply (HF (-1) c2). }
  apply wp_bind. eapply get_source_spec; [done..|]. apply wp_bind. eapply tracked_gets; [done|]. apply wp_bind.
  eapply set_source_spec; [done|]. intros w1 Hw1. change (mac_addresses (tput i s c)) with (mac_addresses c).
  destruct (mac_addresses c !! source_port s) as [mac|] eqn:Em.
  2:{ apply (Hfail (source_reset s)); [apply Hso|done]. }
  apply wp_bind. eapply set_source_spec; [done|]. intros w2 Hw2. apply wp_bind.
  eapply create_timers_spec; [exact Hw2|apply Hso| |].
  { intros rc t w3 Hrc Ht Hw3. rewrite (proj2 (Z.ltb_lt _ _) Hrc). by apply (Hfail t). }
  intros w3 Hw3. change (0 <? 0) with false. cbn match. change (talker_world (tput i (source_start mac s) c) o w3) in Hw3.
  assert (Hperm : i :: l ++ d ≡ₚ l ++ i :: d) by apply Permutation_middle.
  eapply (IH (i :: d)); [by rewrite <- Hperm; apply list.NoDup_cons| | | |exact Hw3|done|].
  - intros j Hj. rewrite tput_length. apply Hlt. cbn. by rewrite Hperm.
  - intros j t [(-> & -> & _)|[Hne Ht]]%tput_cases.
    + rewrite decide_True by by left. apply source_start_new; [done|]. by rewrite <- Hmac.
    + specialize (Hsp j t Ht). cbn beta in Hsp. destruct (decide (j ∈ d)); [by rewrite decide_True by by right|].
      rewrite decide_False; [done|]. by intros [?|?]%elem_of_cons.
  - by rewrite tput_config.
  - intros c' w4 Hw4 Hc4 Hsp4. apply (HS c'); [done|done|]. by rewrite reverse_cons, <- app_assoc.
Qed.

Record talker_started c c' : Prop := {
  tt_ok : talker_ok c';
  tt_config : talker_config c' = talker_config c;
  tt_new : ∀ i s, sources c' !! i = Some s → source_new c i s;
}.
Lemma init_spec c o w :
  talker_zeroed c → talker_world c o w →
  wp acmp_milan_init_talkers (λ rc w', ∃ c', talker_world c' o w' ∧
    if rc <? 0 then no_source_timers c' else talker_started c c') w.
Proof.
  intros [Hz Hp] Hw. unfold acmp_milan_init_talkers. apply wp_bind. eapply tracked_gets; [done|].
  eapply (init_loop c _ [] c); [rewrite app_nil_r; apply NoDup_seq| | |done|done| |].
  - intros i. rewrite app_nil_r, elem_of_seq. lia.
  - intros i s Hi. rewrite decide_False by (by intros ?%elem_of_nil). by apply Hz.
  - intros rc c' w' Hrc Hw' Hoff. exists c'. by rewrite (proj2 (Z.ltb_lt _ _) Hrc).
  - intros c' w' Hw' Hc Hsp. exists c'. cbn. split; [done|]. rewrite app_nil_r in Hsp.
    assert (Hnew : ∀ i s, sources c' !! i = Some s → source_new c i s).
    { intros i s Hi. specialize (Hsp i s Hi). rewrite decide_True in Hsp; [done|]. apply elem_of_reverse, elem_of_seq.
      apply lookup_lt_Some in Hi. assert (length (sources c') = length (sources c)) by (by injection Hc). lia. }
    assert (Hports : t_port_max c' = t_port_max c) by (by injection Hc).
    split; [|done|done]. split.
    + intros i s Hi. rewrite Hports. by apply (Hnew i s Hi).
    + assert (mac_addresses c' = mac_addresses c) by (by injection Hc). congruence.
Qed.

(** ** Exit *)

Definition exit_msgs (a : asource) : list source_msg :=
  (if as_connected a then [MDisconnect] else []) ++ (if as_declared a then [MWithdraw] else []).
Lemma exit_source_spec i s c o w (Q : unit → world talker_call talker_entity → Prop) :
  talker_world (tput i s c) o w → (i < length (sources c))%nat → (source_port s < t_port_max c)%nat →
  (∀ s' out w', talker_world (tput i s' c) (out ++ o) w' → source_timers_off s' → identity s' = identity s →
     (talker_healthy → out = msgs_out c i s (exit_msgs (abs_source s))) → Q tt w') →
  wp (talker_exit_source i) Q w.
Proof.
  intros Hw Hi Hp HQ. unfold talker_exit_source. apply wp_bind. eapply get_source_spec; [done..|].
  assert (Hend : ∀ t out w1, talker_world (tput i t c) (out ++ o) w1 → identity t = identity s → erase t = erase s →
    (talker_healthy → out = msgs_out c i s (if talker_declared s then [MWithdraw] else [])) →
    wp (when (avtp_connected s) (let! _ := acmp_talker_avtp_stack_disconnect (source_port s) i in
       set_source i (λ s, s <| avtp_connected := false |>));; acmp_milan_talker_exit_timers i) Q w1).
  { intros t out w1 Hw1 Hid Her Hout. assert (Hport : source_port t = source_port s) by exact (f_equal source_port Her).
    apply wp_bind, wp_when. unfold exit_msgs in HQ. destruct (avtp_connected s) eqn:Ec.
    - apply wp_bind. rewrite <- Hport. eapply disconnect_spec; [exact Hw1|done|by rewrite Hport|]. intros rc out2 w2 Hw2 Hok.
      eapply set_source_spec; [done|]. intros w3 Hw3. eapply destroy_spec; [exact Hw3|]. intros w4 Hw4.
      eapply (HQ _ (out2 ++ out)); [rewrite <- app_assoc; exact Hw4|done|exact Hid|]. intros Hh. destruct (Hok Hh) as [_ ->].
      rewrite (Hout Hh), msgs_out_app. cbn [as_connected abs_source]. rewrite Ec, msgs_one. f_equal.
      by rewrite <- !msgs_one, (msgs_same c i s t).
    - eapply destroy_spec; [exact Hw1|]. intros w2 Hw2. eapply (HQ _ out); [exact Hw2|done|exact Hid|]. intros Hh.
      rewrite (Hout Hh). cbn [as_connected abs_source]. by rewrite Ec. }
  apply wp_bind, wp_when. destruct (talker_declared s) eqn:Ed.
  - apply wp_bind. eapply withdraw_spec; [done|done|done|]. intros rc out w1 Hw1 Hok. eapply set_source_spec; [done|].
    intros w2 Hw2. eapply Hend; [exact Hw2|done|done|]. intros Hh. destruct (Hok Hh) as [_ ->]. by rewrite msgs_one.
  - by apply (Hend s [] w Hw).
Qed.
End init.
