(* ===== verification/MilanTalkerSession.v ===== *)
(** * AVDECC: sessions of a Milan talker

    What SRP and the media stack were told last about each stream, in every
    state that a talker entity reaches from its initialisation. *)

From S2P Require Import Prelude Tracked MaapAddr Maap Timer Milan MilanListener MilanTalker MilanSource MilanSourceSpec MilanUpdate MilanSourceRun MilanTalkerRun MilanTalkerInit.

(** ** What was said last *)

(** The address with which SRP was told to declare stream [id], and the one to
    which the media stack streams it; [l] is newest first. *)
Fixpoint advertised (id : Z) (l : list talker_ipc) : option (list Z) :=
  match l with
  | [] => None
  | TALKER_REGISTER _ r :: l => if tr_stream_id r =? id then Some (tr_destination_address r) else advertised id l
  | TALKER_DEREGISTER _ x :: l => if x =? id then None else advertised id l
  | _ :: l => advertised id l
  end.
Fixpoint streamed (id : Z) (l : list talker_ipc) : option (list Z) :=
  match l with
  | [] => None
  | TALKER_STACK_CONNECT _ _ k :: l => if tc_stream_id k =? id then Some (tc_dst_mac k) else streamed id l
  | TALKER_STACK_DISCONNECT _ _ _ x :: l => if x =? id then None else streamed id l
  | _ :: l => streamed id l
  end.

(** The effect of a change from a state to another one. *)
Definition told (before after : bool) (mac : list Z) (old : option (list Z)) : option (list Z) :=
  if before then (if after then old else None) else (if after then Some mac else old).
Lemma told_same b mac old : told b b mac old = old.
Proof. by destruct b. Qed.
Lemma advertised_changes c i s a l :
  advertised (o_stream_id s) (stream_msgs (msgs_out c i s (changes a (abs_source s))) ++ l) =
  if t_srp_enabled c then told (as_declared a) (talker_declared s) (o_stream_dest_mac s) (advertised (o_stream_id s) l)
  else advertised (o_stream_id s) l.
Proof.
  unfold changes, told, msgs_out. cbn [as_connected as_declared abs_source].
  destruct (as_connected a), (avtp_connected s), (as_declared a), (talker_declared s); cbn; destruct (t_srp_enabled c); cbn;
    by rewrite ?Z.eqb_refl.
Qed.
Lemma streamed_changes c i s a l :
  streamed (o_stream_id s) (stream_msgs (msgs_out c i s (changes a (abs_source s))) ++ l) =
  told (as_connected a) (avtp_connected s) (o_stream_dest_mac s) (streamed (o_stream_id s) l).
Proof.
  unfold changes, told, msgs_out. cbn [as_connected as_declared abs_source].
  destruct (as_connected a), (avtp_connected s), (as_declared a), (talker_declared s); cbn; destruct (t_srp_enabled c); cbn;
    by rewrite ?Z.eqb_refl.
Qed.
(** Other streams. *)
Definition about (id : Z) (m : talker_ipc) : bool :=
  match m with
  | TALKER_REGISTER _ r => tr_stream_id r =? id
  | TALKER_STACK_CONNECT _ _ k => tc_stream_id k =? id
  | TALKER_DEREGISTER _ x | TALKER_STACK_DISCONNECT _ _ _ x => x =? id
  | _ => false
  end.
Lemma told_other id l k :
  Forall (λ m, about id m = false) l → advertised id (l ++ k) = advertised id k ∧ streamed id (l ++ k) = streamed id k.
Proof.
  induction 1 as [|m l Hm Hl [IH1 IH2]]; [done|]. destruct m; cbn in *; rewrite ?Hm; by rewrite IH1, IH2.
Qed.
Lemma msgs_about c i s l id : o_stream_id s ≠ id → Forall (λ m, about id m = false) (stream_msgs (msgs_out c i s l)).
Proof.
  intros Hne. apply Z.eqb_neq in Hne. induction l as [|m l IH]; [done|]. change (m :: l) with ([m] ++ l).
  rewrite msgs_out_app, stream_msgs_app, msgs_one. apply Forall_app. split; [|done].
  destruct m; unfold msg_out; (destruct (t_srp_enabled c); cbn); rewrite ?Forall_singleton; done.
Qed.

(** ** Stream identifiers *)

Definition mac_wf (mac : list Z) : Prop := length mac = 6%nat ∧ Forall (λ b, 0 ≤ b < 256) mac.
Lemma le_value_bound l : Forall (λ b, 0 ≤ b < 256) l → 0 ≤ le_value l < 256 ^ Z.of_nat (length l).
Proof.
  induction 1 as [|b l Hb Hl IH]; [done|]. cbn [le_value length]. rewrite Nat2Z.inj_succ, Z.pow_succ_r by lia. nia.
Qed.
Lemma stream_id_index mac mac' x y : mac_wf mac → mac_wf mac' → init_stream_id mac x = init_stream_id mac' y → x = y.
Proof.
  intros [L1 B1%le_value_bound] [L2 B2%le_value_bound]. rewrite L1 in B1. rewrite L2 in B2. unfold init_stream_id.
  rewrite !Z.shiftl_mul_pow2 by lia. change (256 ^ Z.of_nat 6) with (2 ^ 48) in *. lia.
Qed.
Definition distinct_ids (c : talker_entity) : Prop :=
  ∀ i j s t, sources c !! i = Some s → sources c !! j = Some t → o_stream_id s = o_stream_id t → i = j.
Lemma started_distinct c c' :
  talker_started c c' → Forall mac_wf (mac_addresses c) → Z.of_nat (length (sources c)) ≤ 65536 → distinct_ids c'.
Proof.
  intros [_ Hc Hn] Hm Hlen i j s t Hs Ht Heq.
  assert (Hl : length (sources c') = length (sources c)) by by injection Hc.
  destruct (sn_id _ _ _ (Hn i s Hs)) as (m1 & M1 & E1), (sn_id _ _ _ (Hn j t Ht)) as (m2 & M2 & E2).
  rewrite E1, E2 in Heq. apply stream_id_index in Heq; [|by eapply Forall_lookup_1..].
  apply lookup_lt_Some in Hs, Ht. apply (f_equal htons) in Heq. rewrite !htons_involutive in Heq; lia.
Qed.

(** ** The invariant of a stream *)

Record stream_inv (c : talker_entity) (l : list talker_ipc) (s : stream_output) : Prop := {
  si_srp : t_srp_enabled c = true → advertised (o_stream_id s) l = if talker_declared s then Some (o_stream_dest_mac s) else None;
  si_media : streamed (o_stream_id s) l = if avtp_connected s then Some (o_stream_dest_mac s) else None;
}.

(** MAAP takes an address back before it gives another one. *)
Definition orderly_address (m old : list Z) : Prop :=
  is_invalid_mac_addr m = true ∨ is_invalid_mac_addr old = true ∨ m = old.
Definition orderly (c : talker_entity) (ev : talker_event) : Prop :=
  ∀ i s m, sources c !! i = Some s → source_label c ev i = Some (AEAddress m) → orderly_address m (o_stream_dest_mac s).

Lemma declared_wanted a : asettled a → as_declared a = true → wanted a = true ∧ as_withdrawn a = None.
Proof.
  intros [[H1 _] Hs] Hd. split; [|by apply H1]. unfold settle in Hs. apply (f_equal as_declared) in Hs. cbn in Hs.
  rewrite Hd in Hs. by apply andb_true_iff in Hs as [-> _].
Qed.
Lemma declared_address a : asettled a → as_declared a = true → is_invalid_mac_addr (as_mac a) = false.
Proof.
  intros Hs Hd. destruct (declared_wanted a Hs Hd) as [Hw _]. apply andb_true_iff in Hw as [Hw _]. by apply negb_true_iff in Hw.
Qed.
Lemma step_settled e a : asettled a → asettled (step_opt e a).
Proof. intros H. destruct e as [e|]; [|done]. by apply source_step_settled, H. Qed.
Lemma step_same_address e a :
  asettled a → (∀ m, e = Some (AEAddress m) → orderly_address m (as_mac a)) → as_declared a = true → as_declared (step_opt e a) = true →
  as_mac (step_opt e a) = as_mac a.
Proof.
  intros Ha Ho H1 H2. destruct e as [e|]; [|done]. destruct e as [| | |l|m]; try done. cbn.
  destruct (Ho m eq_refl) as [Hm|[Hm| ->]]; [|by rewrite (declared_address a) in Hm|done].
  assert (H := declared_address _ (step_settled (Some (AEAddress m)) a Ha) H2). cbn in H. congruence.
Qed.
Lemma connected_declared a : asettled a → as_connected a = true → as_declared a = true.
Proof. intros [[_ H] _]. apply H. Qed.

Lemma told_inv (b b' : bool) m m' old :
  old = (if b then Some m else None) → (b = true → b' = true → m' = m) → told b b' m' old = if b' then Some m' else None.
Proof. intros -> H. unfold told. destruct b, b'; try done. by rewrite H. Qed.

Section session.
Context `{!Platform talker_call}.
Implicit Types (w : world talker_call talker_entity) (c : talker_entity) (s : stream_output) (o : list talker_output).

Lemma config_fields c c' : talker_config c' = talker_config c → length (sources c') = length (sources c) ∧ t_srp_enabled c' = t_srp_enabled c.
Proof. by injection 1. Qed.
Lemma identity_fields s s' : identity s' = identity s → o_stream_id s' = o_stream_id s.
Proof. by injection 1. Qed.

Record streams_ok c (l : list talker_ipc) : Prop := {
  so_settled : all_settled c;
  so_distinct : distinct_ids c;
  so_streams : ∀ i s, sources c !! i = Some s → stream_inv c l s;
}.
Lemma source_before c ev c' out i s' :
  talker_stepped c ev c' out → sources c' !! i = Some s' → ∃ s, sources c !! i = Some s.
Proof.
  intros K Hs'. apply lookup_lt_is_Some. rewrite <- (proj1 (config_fields _ _ (tk_config _ _ _ _ K))). by apply lookup_lt_Some in Hs'.
Qed.
Lemma stepped_settled c ev c' out : talker_healthy → talker_stepped c ev c' out → all_settled c → all_settled c'.
Proof.
  intros Hh K Ha i s' Hs'. destruct (source_before _ _ _ _ _ _ K Hs') as [s Hs].
  destruct (tk_sources _ _ _ _ K i s Hs) as (t & Ht & _ & Hab). rewrite Hs' in Ht. injection Ht as <-.
  rewrite (Hab Hh (Ha i s Hs)). by apply step_settled, (Ha i s).
Qed.
Lemma stepped_source c ev c' out i s' :
  talker_healthy → talker_stepped c ev c' out → all_settled c → sources c' !! i = Some s' →
  ∃ s, sources c !! i = Some s ∧ o_stream_id s' = o_stream_id s ∧ abs_source s' = step_opt (source_label c ev i) (abs_source s).
Proof.
  intros Hh K Ha Hs'. destruct (source_before _ _ _ _ _ _ K Hs') as [s Hs]. exists s. split; [done|].
  destruct (tk_sources _ _ _ _ K i s Hs) as (t & Ht & Hid & Hab). rewrite Hs' in Ht. injection Ht as <-.
  split; [by apply identity_fields|]. by apply Hab, (Ha i s).
Qed.
(** What an event says of the stream of source [i]: what has changed for the
    source, or nothing when the event is for another one. *)
Lemma stepped_msgs c ev c' out i s s' :
  talker_healthy → talker_stepped c ev c' out → all_settled c → distinct_ids c →
  sources c !! i = Some s → sources c' !! i = Some s' →
  o_stream_id s' = o_stream_id s ∧
  (stream_msgs out = stream_msgs (msgs_out c i s' (changes (abs_source s) (abs_source s'))) ∨
   abs_source s' = abs_source s ∧ Forall (λ m, about (o_stream_id s) m = false) (stream_msgs out)).
Proof.
  intros Hh K Ha Hd Hs Hs'. rewrite (tk_streams _ _ _ _ K Hh Ha).
  destruct (stepped_source _ _ _ _ i s' Hh K Ha Hs') as (s0 & Hs0 & Hid & Hab). rewrite Hs in Hs0. injection Hs0 as <-.
  split; [done|]. destruct (event_source c ev) as [[j e]|] eqn:He.
  2:{ right. split; [rewrite Hab; unfold source_label; by rewrite He|done]. }
  destruct (decide (j = i)) as [->|Hne]; [left; by rewrite Hs, Hs'|]. right.
  split; [rewrite Hab; by rewrite (label_other _ _ _ _ _ He Hne)|].
  destruct (sources c !! j) as [t|] eqn:Ht; [|done]. destruct (sources c' !! j) as [t'|] eqn:Ht'; [|done].
  destruct (stepped_source _ _ _ _ j t' Hh K Ha Ht') as (t0 & Ht0 & Eid & _). rewrite Ht in Ht0. injection Ht0 as <-.
  apply msgs_about. intros Heq. apply Hne, (Hd j i t s Ht Hs). congruence.
Qed.
(** An event changes what was said of a stream as its source changes. *)
Lemma stepped_told c ev c' out o i s s' :
  talker_healthy → talker_stepped c ev c' out → all_settled c → distinct_ids c →
  sources c !! i = Some s → sources c' !! i = Some s' →
  (t_srp_enabled c = true → advertised (o_stream_id s) (stream_msgs (out ++ o)) =
     told (talker_declared s) (talker_declared s') (o_stream_dest_mac s') (advertised (o_stream_id s) (stream_msgs o))) ∧
  streamed (o_stream_id s) (stream_msgs (out ++ o)) =
    told (avtp_connected s) (avtp_connected s') (o_stream_dest_mac s') (streamed (o_stream_id s) (stream_msgs o)).
Proof.
  intros Hh K Ha Hd Hs Hs'. rewrite stream_msgs_app.
  destruct (stepped_msgs c ev c' out i s s' Hh K Ha Hd Hs Hs') as [Hid [->|[Hab Hother]]].
  - rewrite <- Hid, advertised_changes, streamed_changes. split; [by intros ->|done].
  - destruct (told_other _ _ (stream_msgs o) Hother) as [-> ->]. injection Hab as _ _ _ -> _ ->. by rewrite !told_same.
Qed.
Lemma stepped_distinct c ev c' out : talker_stepped c ev c' out → distinct_ids c → distinct_ids c'.
Proof.
  intros K Hd i j s t Hs Ht Heq. destruct (source_before _ _ _ _ _ _ K Hs) as [s0 Hs0], (source_before _ _ _ _ _ _ K Ht) as [t0 Ht0].
  destruct (tk_sources _ _ _ _ K i s0 Hs0) as (s1 & Hs1 & E1%identity_fields & _).
  destruct (tk_sources _ _ _ _ K j t0 Ht0) as (t1 & Ht1 & E2%identity_fields & _). apply (Hd i j s0 t0); congruence.
Qed.
Lemma stepped_streams c ev c' out o :
  talker_healthy → orderly c ev → talker_stepped c ev c' out → streams_ok c (stream_msgs o) → streams_ok c' (stream_msgs (out ++ o)).
Proof.
  intros Hh Hord K [Ha Hd Hi]. assert (Ha' := stepped_settled _ _ _ _ Hh K Ha).
  split; [done|by eapply stepped_distinct|]. intros i s' Hs'.
  destruct (stepped_source _ _ _ _ i s' Hh K Ha Hs') as (s & Hs & Hid & Hab). destruct (Hi i s Hs) as [I1 I2].
  assert (Hmac : talker_declared s = true → talker_declared s' = true → o_stream_dest_mac s' = o_stream_dest_mac s).
  { intros D1 D2. change (as_mac (abs_source s') = as_mac (abs_source s)). rewrite Hab.
    apply step_same_address; [by apply (Ha i s)| |done|by rewrite <- Hab]. intros m Hm. by apply (Hord i s m). }
  destruct (stepped_told c ev c' out o i s s' Hh K Ha Hd Hs Hs') as [T1 T2]. split; rewrite Hid.
  - rewrite (proj2 (config_fields _ _ (tk_config _ _ _ _ K))). intros Hsrp. rewrite T1 by done. by eapply told_inv; [apply I1|].
  - rewrite T2. eapply told_inv; [apply I2|]. intros H1 H2.
    apply Hmac; [by apply (connected_declared _ (Ha i s Hs))|by apply (connected_declared _ (Ha' i s' Hs'))].
Qed.

(** Whatever MAAP does, nothing was said last of a stream that is not declared
    or not connected. *)
Record stream_quiet (c : talker_entity) (l : list talker_ipc) (s : stream_output) : Prop := {
  sq_srp : t_srp_enabled c = true → talker_declared s = false → advertised (o_stream_id s) l = None;
  sq_media : avtp_connected s = false → streamed (o_stream_id s) l = None;
}.
Record streams_quiet c (l : list talker_ipc) : Prop := {
  qo_settled : all_settled c;
  qo_distinct : distinct_ids c;
  qo_streams : ∀ i s, sources c !! i = Some s → stream_quiet c l s;
}.
Lemma inv_quiet c l s : stream_inv c l s → stream_quiet c l s.
Proof. intros [I1 I2]. split; [intros Hs Hd; by rewrite I1, Hd|intros Hk; by rewrite I2, Hk]. Qed.
Lemma stepped_quiet c ev c' out o :
  talker_healthy → talker_stepped c ev c' out → streams_quiet c (stream_msgs o) → streams_quiet c' (stream_msgs (out ++ o)).
Proof.
  intros Hh K [Ha Hd Hi]. split; [by eapply stepped_settled|by eapply stepped_distinct|]. intros i s' Hs'.
  destruct (stepped_source _ _ _ _ i s' Hh K Ha Hs') as (s & Hs & Hid & Hab). destruct (Hi i s Hs) as [Q1 Q2].
  destruct (stepped_told c ev c' out o i s s' Hh K Ha Hd Hs Hs') as [T1 T2]. split; rewrite Hid.
  - rewrite (proj2 (config_fields _ _ (tk_config _ _ _ _ K))). intros Hsrp Hdec. rewrite T1, Hdec by done. unfold told.
    destruct (talker_declared s) eqn:E; [done|by apply Q1].
  - intros Hk. rewrite T2, Hk. unfold told. destruct (avtp_connected s) eqn:E; [done|by apply Q2].
Qed.

(** ** Sessions *)

Inductive talker_session : world talker_call talker_entity → Prop :=
| talker_session_start w w' : talker_zeroed (w_st w) → Forall mac_wf (mac_addresses (w_st w)) →
    Z.of_nat (length (sources (w_st w))) ≤ 65536 → w_trace w = [] → acmp_milan_init_talkers w = Done (0, w') → talker_session w'
| talker_session_event w w' ev : talker_session w → orderly (w_st w) ev → talker_handle ev w = Done (tt, w') → talker_session w'.

Lemma idle_settled : asettled idle_source.
Proof. split; [by split|]. vm_compute. reflexivity. Qed.
Lemma new_stream c c' i s : source_new c i s → stream_inv c' [] s.
Proof.
  intros [_ Ha _ _]. split; [intros _|]; cbn [advertised streamed stream_msgs omap list_omap].
  - by injection Ha as _ _ _ -> _ _.
  - by injection Ha as _ _ _ _ _ ->.
Qed.
Lemma started_streams c c' :
  talker_started c c' → Forall mac_wf (mac_addresses c) → Z.of_nat (length (sources c)) ≤ 65536 → streams_ok c' [].
Proof.
  intros St Hm Hl. split; [| by eapply started_distinct|].
  - intros i s Hs. rewrite (sn_abs _ _ _ (tt_new _ _ St i s Hs)). apply idle_settled.
  - intros i s Hs. by eapply new_stream, tt_new.
Qed.

Lemma talker_session_ok w :
  talker_healthy → talker_session w → talker_ok (w_st w) ∧ streams_ok (w_st w) (stream_msgs (talker_outputs w)).
Proof.
  intros Hh. induction 1 as [w w' Hz Hm Hl Ht Hi|w w' ev Hse [IH1 IH2] Hord Hev].
  - assert (H := init_spec (w_st w) _ w Hz (tracked_self talker_output_of talker_healthy w)).
    apply (wp_result _ _ _ _ _ H) in Hi as (c' & [<- Ho] & St). cbn in St. split; [apply St|].
    unfold talker_outputs. rewrite (Ho Hh), Ht. by eapply started_streams.
  - assert (H := talker_handle_spec ev (w_st w) _ w IH1 (tracked_self talker_output_of talker_healthy w)).
    apply (wp_result _ _ _ _ _ H) in Hev as (c' & out & [<- Ho] & K). split; [apply K|].
    unfold talker_outputs. rewrite (Ho Hh). by eapply stepped_streams.
Qed.

(** ** Exit *)

Definition gone c (l : list talker_ipc) (id : Z) : Prop := (t_srp_enabled c = true → advertised id l = None) ∧ streamed id l = None.
Lemma exit_gone c i s l :
  stream_quiet c l s → gone c (stream_msgs (msgs_out c i s (exit_msgs (abs_source s))) ++ l) (o_stream_id s).
Proof.
  intros [Q1 Q2]. unfold exit_msgs, gone, msgs_out. cbn [as_connected as_declared abs_source].
  destruct (avtp_connected s), (talker_declared s); cbn; destruct (t_srp_enabled c); cbn; rewrite ?Z.eqb_refl; by auto.
Qed.
Lemma gone_other c l k id : Forall (λ m, about id m = false) l → gone c k id → gone c (l ++ k) id.
Proof. intros H [G1 G2]. destruct (told_other id l k H) as [E1 E2]. split; [by rewrite E1|by rewrite E2]. Qed.

(** Where the exit is: the sources in [l] are still to be visited. *)
Definition source_ended (l : list nat) c o (i : nat) s : Prop :=
  if decide (i ∈ l) then (source_port s < t_port_max c)%nat ∧ (talker_healthy → stream_quiet c (stream_msgs o) s)
  else source_timers_off s ∧ (talker_healthy → gone c (stream_msgs o) (o_stream_id s)).
Definition ending (l : list nat) c o : Prop := ∀ i s, sources c !! i = Some s → source_ended l c o i s.
Lemma exit_loop l : ∀ c o w,
  NoDup l → (∀ i, i ∈ l → (i < length (sources c))%nat) → distinct_ids c → ending l c o → talker_world c o w →
  wp (for_each l talker_exit_source)
    (λ _ w', ∃ c' o', talker_world c' o' w' ∧ talker_config c' = talker_config c ∧
       (∀ i s', sources c' !! i = Some s' → ∃ s, sources c !! i = Some s ∧ o_stream_id s' = o_stream_id s) ∧ ending [] c' o') w.
Proof.
  induction l as [|i l IH]; intros c o w Hnd Hlt Hd He Hw; cbn [for_each]; [apply wp_ret; exists c, o; split_and!; [done..|eauto|done]|].
  apply list.NoDup_cons in Hnd as [Hi Hnd]. assert (Hil : (i < length (sources c))%nat) by (apply Hlt; by left).
  destruct (lookup_lt_is_Some_2 (sources c) i Hil) as [s Hs]. assert (Hse := He i s Hs). unfold source_ended in Hse.
  rewrite decide_True in Hse by by left. destruct Hse as [Hp Hinv]. apply wp_bind.
  eapply (exit_source_spec i s c); [by rewrite tput_id|done|done|]. intros s' out w1 Hw1 Hoff Hid Hout.
  assert (Eid := identity_fields _ _ Hid). eapply wp_mono; [apply (IH (tput i s' c) (out ++ o) w1 Hnd); [| | |done]|].
  - intros j Hj. rewrite tput_length. apply Hlt. by right.
  - intros j k t u [(-> & -> & _)|[Hj Ht]]%tput_cases [(-> & -> & _)|[Hk Hu]]%tput_cases Heq; [done|..].
    + apply (Hd i k s u); congruence.
    + apply (Hd j i t s); congruence.
    + by apply (Hd j k t u).
  - intros j t [(-> & -> & _)|[Hj Ht]]%tput_cases.
    + unfold source_ended. rewrite decide_False by done. split; [done|]. intros Hh. rewrite (Hout Hh), stream_msgs_app, Eid.
      by apply (exit_gone c i s), Hinv.
    + assert (Hne : o_stream_id s ≠ o_stream_id t) by (intros Heq; apply Hj; symmetry; by apply (Hd i j s t)).
      assert (Hte := He j t Ht). unfold source_ended in *. destruct (decide (j ∈ l)) as [Hin|Hin].
      * rewrite decide_True in Hte by by right. destruct Hte as [Hte1 Hte2]. split; [done|]. intros Hh.
        destruct (Hte2 Hh) as [Q1 Q2]. rewrite (Hout Hh), stream_msgs_app.
        destruct (told_other _ _ (stream_msgs o) (msgs_about c i s (exit_msgs (abs_source s)) _ Hne)) as [E1 E2].
        split; [by rewrite E1|by rewrite E2].
      * rewrite decide_False in Hte by (by intros [?|?]%elem_of_cons). destruct Hte as [Hte1 Hte2]. split; [done|]. intros Hh.
        rewrite (Hout Hh), stream_msgs_app. by apply gone_other; [apply msgs_about|apply Hte2].
  - intros _ w2 (c2 & o2 & Hw2 & Hc2 & Hids & He2). exists c2, o2. split; [done|]. split; [by rewrite Hc2, tput_config|]. split; [|done].
    intros j t Ht. destruct (Hids j t Ht) as (u & [(-> & -> & _)|[_ Hu]]%tput_cases & E2); [exists s; by rewrite E2|by exists u].
Qed.

Lemma exit_spec c o w :
  talker_ok c → distinct_ids c → (talker_healthy → ∀ i s, sources c !! i = Some s → stream_quiet c (stream_msgs o) s) → talker_world c o w →
  wp acmp_milan_exit_talkers (λ _ w', ∃ c' o', talker_world c' o' w' ∧ no_source_timers c' ∧
    (talker_healthy → ∀ i s, sources c !! i = Some s → gone c (stream_msgs o') (o_stream_id s))) w.
Proof.
  intros Hok Hd Hinv Hw. unfold acmp_milan_exit_talkers. apply wp_bind. eapply tracked_gets; [done|]. apply wp_bind.
  eapply wp_mono; [apply (exit_loop _ c o w); [apply NoDup_seq| |done| |done]|].
  - intros i Hi%elem_of_seq. lia.
  - intros i s Hi. unfold source_ended. rewrite decide_True.
    + split; [by apply (to_sources _ Hok i s)|]. intros Hh. by apply (Hinv Hh i).
    + apply elem_of_seq. apply lookup_lt_Some in Hi. lia.
  - intros _ w1 (c1 & o1 & Hw1 & Hc1 & Hids & He). destruct (config_fields _ _ Hc1) as [Hlen Hsrp].
    assert (Hgone : ∀ i s, sources c !! i = Some s → ∃ s1, sources c1 !! i = Some s1 ∧ o_stream_id s1 = o_stream_id s).
    { intros i s Hi. destruct (lookup_lt_is_Some_2 (sources c1) i) as [s1 Hs1]; [rewrite Hlen; by apply lookup_lt_Some in Hi|].
      exists s1. split; [done|]. destruct (Hids i s1 Hs1) as (t & Ht & E). congruence. }
    assert (Hoff : no_source_timers c1) by (intros i s1 Hs1; by apply (He i s1)).
    assert (Hend : talker_healthy → ∀ i s, sources c !! i = Some s → gone c (stream_msgs o1) (o_stream_id s)).
    { intros Hh i s Hi. destruct (Hgone i s Hi) as (s1 & Hs1 & <-). destruct (He i s1 Hs1) as [_ H]. specialize (H Hh).
      unfold gone in *. by rewrite <- Hsrp. }
    apply wp_when. destruct (negb _); [|by exists c1, o1]. apply wp_bind. eapply wp_mono; [by apply (ranges_spec true)|].
    intros r w2 (c2 & out & Hw2 & Hc2 & _ & Hm & Hs2). apply wp_ret. exists c2, (out ++ o1). split; [done|]. split.
    + intros i s2 Hi. destruct (config_fields _ _ Hc2) as [Hlen2 _].
      destruct (lookup_lt_is_Some_2 (sources c1) i) as [s1 Hs1]; [rewrite <- Hlen2; by apply lookup_lt_Some in Hi|].
      destruct (Hs2 i s1 Hs1) as [b Hb]. rewrite Hi in Hb. injection Hb as ->. by apply (Hoff i s1).
    + intros Hh i s Hi. rewrite stream_msgs_app, Hm. by apply (Hend Hh i).
Qed.
End session.
