(* ===== verification/MilanTalkerProps.v ===== *)
(** * AVDECC: properties of Milan talkers

    What SRP, the media stack and listeners can rely on; each property is
    stated for the entry points of the model. *)

From S2P Require Import Prelude Tracked MaapAddr Maap Timer Milan MilanListener MilanTalker MilanSource MilanSourceSpec MilanUpdate MilanSourceRun MilanTalkerRun MilanTalkerInit MilanTalkerSession.

(** ** While a source waits *)

(** The addresses with which SRP was told to declare stream [id], newest
    first. *)
Definition declarations (id : Z) (l : list talker_ipc) : list (list Z) :=
  omap (λ m, match m with
             | TALKER_REGISTER _ r => if tr_stream_id r =? id then Some (tr_destination_address r) else None
             | _ => None
             end) l.
Definition is_wait_end (i : nat) (ev : talker_event) : bool :=
  match ev with EvSourceTimer j TMR_SRP_WITHDRAW => (j =? i)%nat | _ => false end.

Lemma declarations_app id l k : declarations id (l ++ k) = declarations id l ++ declarations id k.
Proof. apply omap_app. Qed.
Lemma declarations_none id l : Forall (λ m, about id m = false) l → declarations id l = [].
Proof.
  induction 1 as [|m l Hm Hl IH]; [done|]. unfold declarations in *. destruct m; cbn in *; rewrite ?Hm; exact IH.
Qed.
Lemma declarations_changes c i s a :
  declarations (o_stream_id s) (stream_msgs (msgs_out c i s (changes a (abs_source s)))) =
  if t_srp_enabled c && negb (as_declared a) && talker_declared s then [o_stream_dest_mac s] else [].
Proof.
  unfold changes, msgs_out. cbn [as_connected as_declared abs_source].
  destruct (as_connected a), (avtp_connected s), (as_declared a), (talker_declared s); cbn; destruct (t_srp_enabled c); cbn;
    by rewrite ?Z.eqb_refl.
Qed.

(** A source that waits goes on waiting until it may declare. *)
Lemma wait_step e a m :
  asettled a → as_withdrawn a = Some m → e ≠ Some AEWaitEnd →
  (as_declared (step_opt e a) = false ∧ as_withdrawn (step_opt e a) = Some m) ∨
  (as_declared (step_opt e a) = true ∧ as_mac (step_opt e a) = m).
Proof.
  intros [[H1 _] Hs] Hw He. assert (Hd : as_declared a = false) by (destruct (as_declared a); [|done]; by rewrite H1 in Hw).
  destruct e as [e|]; [|by left]. cbn [step_opt]. unfold source_step, settle.
  assert (E1 : as_declared (learn e a) = false) by (by destruct e).
  assert (E2 : as_withdrawn (learn e a) = Some m) by (by destruct e). rewrite E1. cbn [orb as_declared as_withdrawn as_mac].
  destruct (wanted (learn e a) && may_declare (learn e a)) eqn:E; [right|left; by rewrite E2]. split; [done|].
  apply andb_true_iff in E as [_ E]. unfold may_declare in E. rewrite E2 in E. by apply bool_decide_eq_true in E.
Qed.

Section wait.
Context `{!Platform talker_call}.
Implicit Types (w : world talker_call talker_entity) (c : talker_entity) (s : stream_output) (o : list talker_output).

Lemma stepped_declarations c ev c' out i s s' :
  talker_healthy → talker_stepped c ev c' out → all_settled c → distinct_ids c →
  sources c !! i = Some s → sources c' !! i = Some s' →
  declarations (o_stream_id s) (stream_msgs out) =
    if t_srp_enabled c && negb (talker_declared s) && talker_declared s' then [o_stream_dest_mac s'] else [].
Proof.
  intros Hh K Ha Hd Hs Hs'. destruct (stepped_msgs c ev c' out i s s' Hh K Ha Hd Hs Hs') as [Hid [->|[Hab Hother]]].
  - by rewrite <- Hid, declarations_changes.
  - rewrite declarations_none by done. injection Hab as _ _ _ -> _ _. destruct (t_srp_enabled c), (talker_declared s); done.
Qed.
Lemma label_wait_end c ev i : source_label c ev i = Some AEWaitEnd → is_wait_end i ev = true.
Proof.
  unfold source_label. destruct (event_source c ev) as [[j e]|] eqn:He; [|done]. case_decide as D; [subst j|done]. intros ->.
  destruct ev as [p m|p id st|p id ty fl|st p r mac n| |j k|j f t]; cbn [event_source is_wait_end] in *.
  - destruct (talker_accepted c p m); [|done]. destruct (sources c !! _); [|done]. cbn in He. injection He as _ He.
    unfold command_event in He. by destruct (_ && _).
  - destruct (talker_port_valid c p); [|done]. by destruct (acmp_milan_get_talker_unique_id c id).
  - destruct (talker_port_valid c p); [|done]. by destruct (acmp_milan_get_talker_unique_id c id).
  - destruct (talker_port_valid c _); [|done]. repeat (destruct (_ =? _)); try done; by destruct (maap_source c p r n).
  - done.
  - destruct (sources c !! j); [|done]. destruct (st_running _); [|done]. destruct k; try done. injection He as ->. apply Nat.eqb_refl.
  - by destruct (sources c !! j).
Qed.

(** What was declared of a source that waited with address [m]. *)
Definition still_waits c (m : list Z) s (l : list (list Z)) : Prop :=
  Forall (λ x, is_invalid_mac_addr x = false) l ∧
  if t_srp_enabled c then as_withdrawn (abs_source s) = Some m ∧ l = [] ∨ list.last l = Some m else l = [].
Lemma waits_step c ev c' out i s m l :
  talker_healthy → talker_stepped c ev c' out → all_settled c → distinct_ids c → sources c !! i = Some s →
  is_wait_end i ev = false → still_waits c m s l →
  ∃ s', sources c' !! i = Some s' ∧ o_stream_id s' = o_stream_id s ∧
    still_waits c' m s' (declarations (o_stream_id s) (stream_msgs out) ++ l).
Proof.
  intros Hh K Ha Hd Hs Hev [Hv Hw]. destruct (tk_sources _ _ _ _ K i s Hs) as (s' & Hs' & Hid & Hab).
  specialize (Hab Hh (Ha i s Hs)). exists s'. split; [done|]. split; [by apply identity_fields|].
  rewrite (stepped_declarations c ev c' out i s s') by done.
  assert (Ha' := stepped_settled _ _ _ _ Hh K Ha i s' Hs'). split.
  - destruct (_ && talker_declared s') eqn:E; [|done]. apply andb_true_iff in E as [_ E]. constructor; [|done].
    exact (declared_address _ Ha' E).
  - rewrite (proj2 (config_fields _ _ (tk_config _ _ _ _ K))). destruct (t_srp_enabled c); [|done].
    destruct Hw as [[Hw ->]|Hw]; [|right; by rewrite list.last_app, Hw].
    assert (Hne : source_label c ev i ≠ Some AEWaitEnd) by (intros E%label_wait_end; congruence).
    rewrite app_nil_r. destruct (wait_step _ _ m (Ha i s Hs) Hw Hne) as [[H1 H2]|[H1 H2]]; rewrite <- Hab in H1, H2.
    + left. split; [done|]. cbn in H1. by rewrite H1, andb_false_r.
    + cbn in H1, H2. rewrite H1. assert (D : talker_declared s = false).
      { destruct (talker_declared s) eqn:D; [|done]. destruct (declared_wanted _ (Ha i s Hs) D) as [_ E]. congruence. }
      rewrite D. right. cbn. by rewrite H2.
Qed.
Lemma waits_run m l i : Forall (λ ev, is_wait_end i ev = false) l → talker_healthy → ∀ c s k o w,
  talker_ok c → all_settled c → distinct_ids c → sources c !! i = Some s → still_waits c m s k → talker_world c o w →
  wp (talker_run l) (λ _ w', ∃ c' s' out, talker_world c' (out ++ o) w' ∧
    still_waits c' m s' (declarations (o_stream_id s) (stream_msgs out) ++ k)) w.
Proof.
  intros Hl Hh. unfold talker_run. induction Hl as [|ev l Hev Hl IH]; intros c s k o w Hok Ha Hd Hs Hk Hw; cbn [for_each].
  { apply wp_ret. by exists c, s, []. }
  apply wp_bind. eapply wp_mono; [by apply (talker_handle_spec ev c o w)|]. intros [] w1 (c1 & out & Hw1 & K).
  destruct (waits_step c ev c1 out i s m k Hh K Ha Hd Hs Hev Hk) as (s1 & Hs1 & Hid & Hk1).
  eapply wp_mono; [eapply (IH c1 s1 _ (out ++ o) w1 (tk_ok _ _ _ _ K)); [by eapply stepped_settled|by eapply stepped_distinct|done..]|].
  intros [] w2 (c2 & s2 & out2 & Hw2 & Hk2). exists c2, s2, (out2 ++ out). rewrite <- app_assoc. split; [done|].
  rewrite stream_msgs_app, declarations_app, <- app_assoc. by rewrite Hid in Hk2.
Qed.
End wait.

Section properties.
Context `{!Platform talker_call}.
Implicit Types (w : world talker_call talker_entity) (c : talker_entity) (s : stream_output) (o : list talker_output).

(** C5: every event of a talker entity (an ACMP frame, an SRP or MAAP
    indication, the expiry of a timer, ...) terminates without undefined
    behaviour, and makes the one step of the abstract source that
    [source_label] gives: the entity stays settled, sends the frame that
    [event_reply] gives, and tells SRP and the media stack exactly what has
    changed for the source of the event. *)
Theorem talker_event_refines ev w :
  talker_healthy → talker_ok (w_st w) → all_settled (w_st w) →
  wp (talker_handle ev) (λ _ w', talker_ok (w_st w') ∧ all_settled (w_st w') ∧
    ∃ out, talker_outputs w' = out ++ talker_outputs w ∧ talker_frames out = event_reply (w_st w) ev ∧
      (∀ i s, sources (w_st w) !! i = Some s → ∃ s', sources (w_st w') !! i = Some s' ∧ identity s' = identity s ∧
         abs_source s' = step_opt (source_label (w_st w) ev i) (abs_source s) ∧
         (source_label (w_st w) ev i ≠ None →
            stream_msgs out = stream_msgs (msgs_out (w_st w) i s' (changes (abs_source s) (abs_source s'))))) ∧
      ((∀ i, source_label (w_st w) ev i = None) → stream_msgs out = [])) w.
Proof.
  intros Hh Hok Ha. eapply wp_mono; [by eapply (talker_handle_spec ev _ _ w Hok), tracked_self|].
  intros [] w' (c' & out & [<- Ho] & K). split; [apply K|]. split; [by eapply stepped_settled|]. exists out.
  split; [by apply Ho|]. split; [by apply K|].
  assert (Hsrc : ∀ i s, sources (w_st w) !! i = Some s → ∃ s', sources (w_st w') !! i = Some s' ∧ identity s' = identity s ∧
    abs_source s' = step_opt (source_label (w_st w) ev i) (abs_source s)).
  { intros i s Hs. destruct (tk_sources _ _ _ _ K i s Hs) as (s' & Hs' & Hid & Hab). exists s'. split_and!; [done..|].
    by apply Hab, (Ha i s). }
  assert (Hm := tk_streams _ _ _ _ K Hh Ha). split.
  - intros i s Hs. destruct (Hsrc i s Hs) as (s' & Hs' & Hid & Hab). exists s'. split_and!; [done..|]. intros Hl.
    rewrite Hm. unfold source_label in Hl. destruct (event_source (w_st w) ev) as [[j e]|]; [|done].
    case_decide as D; [|done]. subst j. by rewrite Hs, Hs'.
  - intros Hnone. rewrite Hm. destruct (event_source (w_st w) ev) as [[j e]|] eqn:He; [|done].
    destruct (sources (w_st w) !! j) as [s|] eqn:Hs; [|done]. destruct (Hsrc j s Hs) as (s' & -> & _ & ->).
    by rewrite Hnone, source_changes_same.
Qed.

(** C12: on any platform, even one without memory, the life of a talker entity
    from its initialisation through any events to its exit terminates without
    undefined behaviour and leaves no timer; with memory, whatever SRP, MAAP
    and the controllers have done, no stream is declared or streamed at its
    end. *)
Theorem talker_lifecycle_safe l w :
  talker_zeroed (w_st w) → Forall mac_wf (mac_addresses (w_st w)) → Z.of_nat (length (sources (w_st w))) ≤ 65536 → w_trace w = [] →
  wp (let! rc := acmp_milan_init_talkers in
      if rc <? 0 then ret None else talker_run l;; let! c := gets (λ c, c) in acmp_milan_exit_talkers;; ret (Some c))
    (λ r w', no_source_timers (w_st w') ∧
      (talker_healthy → ∀ c i s, r = Some c → sources c !! i = Some s →
         gone c (stream_msgs (talker_outputs w')) (o_stream_id s))) w.
Proof.
  intros Hz Hm Hl Ht. apply wp_bind.
  eapply wp_mono; [by eapply (init_spec (w_st w) _ w Hz), tracked_self|].
  intros rc w1 (c1 & Hw1 & Hst). rewrite Ht in Hw1. change (omap talker_output_of []) with (@nil talker_output) in Hw1.
  destruct (rc <? 0); [apply wp_ret; by destruct Hw1 as [<- _]|].
  assert (Hq1 : streams_quiet c1 []).
  { destruct (started_streams _ _ Hst Hm Hl) as [A D I]. split; [done|done|]. intros i s Hs. by apply inv_quiet, (I i). }
  assert (Hd1 := qo_distinct _ _ Hq1).
  assert (Hrun : ∀ c o w, talker_ok c → distinct_ids c → talker_world c o w → (talker_healthy → streams_quiet c (stream_msgs o)) →
    wp (talker_run l) (λ _ w', ∃ c' o', talker_world c' o' w' ∧ talker_ok c' ∧ distinct_ids c' ∧
      (talker_healthy → streams_quiet c' (stream_msgs o'))) w).
  { clear. unfold talker_run. induction l as [|ev l IH]; intros c o w Hok Hd Hw Hc; cbn [for_each].
    { apply wp_ret. by exists c, o. }
    apply wp_bind. eapply wp_mono; [by apply (talker_handle_spec ev c o w)|]. intros [] w1 (c' & out & Hw1 & K).
    apply (IH c' (out ++ o) w1 (tk_ok _ _ _ _ K)); [by eapply stepped_distinct|done|]. intros Hh. eapply stepped_quiet; eauto. }
  apply wp_bind. eapply wp_mono; [apply (Hrun c1 [] w1 (tt_ok _ _ Hst) Hd1 Hw1); auto|].
  intros [] w2 (c2 & o2 & Hw2 & Hok2 & Hd2 & Hq2). apply wp_bind. eapply tracked_gets; [done|]. apply wp_bind.
  eapply wp_mono; [apply (exit_spec c2 o2 w2 Hok2 Hd2); [intros Hh; by apply Hq2|done]|].
  intros [] w3 (c3 & o3 & [<- Ho] & Hn & HE). apply wp_ret. split; [done|]. intros Hh c i s [= <-] Hs.
  unfold talker_outputs. rewrite (Ho Hh). by eapply HE.
Qed.

(** C11: in every session with a platform that has memory, and with a MAAP
    that takes an address back before it gives another one: a source is
    declared exactly when it has an address, somebody wants its stream and it
    does not wait; SRP was told last to declare it, and with its own address,
    exactly when it is declared; the media stack streams only what is
    declared and listened to, to that address, and streams it whenever a
    listener is ready; the timers of a source run exactly as it says. *)
Theorem talker_streams w i s :
  talker_healthy → talker_session w → sources (w_st w) !! i = Some s →
  talker_declared s = acmp_milan_talker_has_valid_srp_params s && negb (srp_talker_withdraw_in_progress s) ∧
  (t_srp_enabled (w_st w) = true → advertised (o_stream_id s) (stream_msgs (talker_outputs w)) =
     if talker_declared s then Some (o_stream_dest_mac s) else None) ∧
  (∀ mac, streamed (o_stream_id s) (stream_msgs (talker_outputs w)) = Some mac →
     mac = o_stream_dest_mac s ∧ talker_declared s = true ∧ srp_listener_status s ≠ NO_LISTENER) ∧
  (talker_declared s = true → has_active_listener s = true →
     streamed (o_stream_id s) (stream_msgs (talker_outputs w)) = Some (o_stream_dest_mac s)) ∧
  probe_tx_reception_timer s = SoftTimer true (probe_tx_valid s) ∧
  srp_talker_withdraw_timer s = SoftTimer true (srp_talker_withdraw_in_progress s).
Proof.
  intros Hh Hse Hs. destruct (talker_session_ok w Hh Hse) as [Hok [Ha _ Hi]]. destruct (Hi i s Hs) as [I1 I2].
  destruct (Ha i s Hs) as [[A1 A2] Hset]. assert (So := to_sources _ Hok i s Hs).
  assert (Ed := f_equal as_declared Hset). assert (Ek := f_equal as_connected Hset). assert (Ew := f_equal as_withdrawn Hset).
  cbn in Ed, Ek, Ew, A1, A2. rewrite wanted_abs. split_and!; [|done| | |apply So|apply So].
  - destruct (wanted (abs_source s)) eqn:W; cbn in *; [|by destruct (talker_declared s)].
    destruct (talker_declared s) eqn:D; [by rewrite (ts_declared _ _ So D)|].
    destruct (srp_talker_withdraw_in_progress s) eqn:P; [done|]. unfold may_declare in Ed. cbn in Ed. by rewrite P in Ed.
  - intros mac. rewrite I2. destruct (avtp_connected s) eqn:K; [|done]. intros [= <-]. split; [done|]. split; [by apply A2|].
    intros E. rewrite E in Ek. change (NO_LISTENER =? NO_LISTENER) with true in Ek. by rewrite andb_false_r in Ek.
  - intros D L. rewrite I2. destruct (avtp_connected s) eqn:K; [done|]. exfalso. revert Ek. rewrite D, orb_true_l, andb_true_r.
    rewrite D in Ed. cbn [orb] in Ed. rewrite andb_true_r in Ed. rewrite Ed.
    assert (N : srp_listener_status s =? NO_LISTENER = false).
    { unfold has_active_listener in L. apply Z.eqb_neq. intros E. by rewrite E in L. }
    rewrite N. cbn [negb andb orb]. intros E. change (has_active_listener s = false) in E. congruence.
Qed.

(** C18: while a source waits after a withdrawal, whatever happens before the
    end of the wait: the first thing that SRP is told to declare for its
    stream, if any, has the address that was saved at the withdrawal, and what
    has no address saved is not declared at all. *)
Theorem talker_waits l i s w :
  talker_healthy → talker_ok (w_st w) → all_settled (w_st w) → distinct_ids (w_st w) →
  sources (w_st w) !! i = Some s → srp_talker_withdraw_in_progress s = true → Forall (λ ev, is_wait_end i ev = false) l →
  wp (talker_run l) (λ _ w', ∃ out, talker_outputs w' = out ++ talker_outputs w ∧
    let saved := w_stream_dest_mac (srp_talker_withdraw_params s) in
    (∀ mac, list.last (declarations (o_stream_id s) (stream_msgs out)) = Some mac → mac = saved) ∧
    (is_invalid_mac_addr saved = true → declarations (o_stream_id s) (stream_msgs out) = [])) w.
Proof.
  intros Hh Hok Ha Hd Hs Hp Hl. set (m := w_stream_dest_mac (srp_talker_withdraw_params s)).
  assert (H0 : still_waits (w_st w) m s []).
  { split; [done|]. destruct (t_srp_enabled _); [left|done]. split; [cbn; by rewrite Hp|done]. }
  eapply wp_mono; [by eapply (waits_run m l i Hl Hh _ s [] _ w Hok Ha Hd Hs H0), tracked_self|].
  intros [] w' (c' & s' & out & [_ Ho] & Hv & Hk). exists out. split; [by apply Ho|]. cbv zeta. rewrite app_nil_r in Hv, Hk.
  destruct (t_srp_enabled c'); [|by rewrite Hk]. destruct Hk as [[_ ->]|Hk]; [done|]. split.
  - intros mac E. congruence.
  - intros E. apply list.last_Some_elem_of in Hk. rewrite list.Forall_forall in Hv. by rewrite (Hv m Hk) in E.
Qed.
End properties.
