(* ===== verification/MilanPair.v ===== *)
(** * AVDECC: a Milan talker answers a Milan listener

    The probe of a sink, sent to a talker of this implementation, whose answer
    comes back to the sink. *)

From S2P Require Import Prelude Tracked MaapAddr Maap Timer Milan MilanSm MilanListener MilanSpec MilanTable MilanRefine MilanEvents MilanLive MilanHandlers MilanInputs MilanRequests MilanRun MilanInit MilanSession.
From S2P Require Import MilanTalker MilanSource MilanSourceSpec MilanUpdate MilanSourceRun MilanTalkerRun MilanTalkerInit MilanTalkerSession.

(** The command with which sink [i] of [c] probes. *)
Record probe_of (c : entity) (i : nat) (s : stream_input) (cmd : acmp_pdu) : Prop := {
  po_listener : p_listener_entity_id cmd = entity_id c;
  po_sink : p_listener_unique_id cmd = htons (Z.of_nat i);
  po_sequence : ntohs (p_sequence_id cmd) = probe_tx_seq_id s;
}.
(** What a sink sends is such a command, once its sequence number is noted. *)
Lemma probe_pdu_of c i s :
  0 ≤ sequence_id c < 65536 → probe_tx_seq_id s = sequence_id c → probe_of c i s (probe_pdu c i s).
Proof. intros H E. split; [done|done|]. rewrite E. exact (htons_involutive _ H). Qed.

Section pair.
Context `{!Platform milan_call} `{!Platform talker_call}.
Implicit Types (wl : world milan_call entity) (wt : world talker_call talker_entity).

(** The source that can answer a probe received on port [p]: the one the
    command names, when it exists, its stream is on the interface of the port
    and it has an address. *)
Definition answering (c : talker_entity) (p : nat) (cmd : acmp_pdu) : option stream_output :=
  sources c !! command_source cmd ≫= λ t,
    if (Z.of_nat p =? ntohs (o_avb_interface_index t)) && negb (is_invalid_mac_addr (o_stream_dest_mac t))
    then Some t else None.
Definition stream_of_source (t : stream_output) : Z * list Z * Z :=
  (o_stream_id t, o_stream_dest_mac t, o_stream_vlan_id t).

(** The answer of the talker: to the sink that asked, with the stream of the
    source or with the reason why there is none. *)
Lemma probe_answer p cmd c :
  talker_accepted c p (AcmpMsg ACMP_PROBE_TX_COMMAND ACMP_STAT_SUCCESS cmd) = true →
  ∃ m, event_reply c (EvTalkerAcmp p (AcmpMsg ACMP_PROBE_TX_COMMAND ACMP_STAT_SUCCESS cmd)) = [(p, m)] ∧
    m_type m = ACMP_PROBE_TX_RESPONSE ∧ p_listener_entity_id (m_pdu m) = p_listener_entity_id cmd ∧
    p_listener_unique_id (m_pdu m) = p_listener_unique_id cmd ∧ p_sequence_id (m_pdu m) = p_sequence_id cmd ∧
    match answering c p cmd with
    | Some t => m_status m = ACMP_STAT_SUCCESS ∧ pdu_stream (m_pdu m) = stream_of_source t
    | None => (m_status m =? ACMP_STAT_SUCCESS) = false
    end.
Proof.
  intros Hacc. unfold event_reply, answering. cbn [m_pdu m_type]. rewrite Hacc.
  destruct (sources c !! command_source cmd) as [t|]; cbn [mbind option_bind]; [|eexists; split; [done|by split_and!]].
  eexists. split; [done|]. unfold talker_reply. rewrite Z.eqb_refl.
  destruct (Z.of_nat p =? _); cbn [negb andb]; [|by split_and!].
  by destruct (is_invalid_mac_addr _); cbn [negb]; split_and!.
Qed.

(** The sink that gets it takes the corresponding step of its table. *)
Lemma answer_labels q i s m wl :
  healthy → random_positive → session wl → sinks (w_st wl) !! i = Some s → probing (state s) = true →
  avdecc_entity_port_valid (w_st wl) q = true → m_type m = ACMP_PROBE_TX_RESPONSE →
  probe_of (w_st wl) i s (m_pdu m) →
  labels (w_st wl) (EvAcmp q m) i s =
    [if m_status m =? ACMP_STAT_SUCCESS then LProbeOk (pdu_stream (m_pdu m)) else LProbeFailed].
Proof.
  intros Hh Hr Hse Hs Hp Hq Hty [P1 P2 P3].
  destruct (session_invariant wl Hh Hr Hse) as [HokL HL _ Hconn].
  assert (Hi : Z.of_nat i < 65536).
  { apply lookup_lt_Some in Hs. destruct HL as [[_ _ _ [_ H]] _]. lia. }
  assert (Hsink : acmp_sink m = i).
  { unfold acmp_sink. rewrite P2, htons_involutive by lia. lia. }
  cbn [labels]. rewrite Hsink, decide_True by done. unfold acmp_label_of, acmp_accepted, acmp_denied.
  rewrite Hty, P1, Z.eqb_refl, Hq. cbn [andb negb]. rewrite Hsink. unfold sm_label.
  cbn. rewrite P3, Hp.
  assert (Hlt := lookup_lt_Some _ _ _ Hs). destruct HL as [L0 _]. rewrite <- (put_id i s _ Hs) in L0.
  destruct (wait_find i s (w_st wl) Hlt L0 Hp) as (e & x & _ & _ & He). by rewrite He.
Qed.

(** C6: a sink that waits for the answer to its probe, in any session, and a
    talker of this implementation that gets the probe on one of its ports: the
    talker answers with one frame, and only the source that the probe names
    takes a step, when the port is that of its interface.  If that source
    exists, is on the interface of the port and has an address, the sink that
    receives the frame settles on its stream, address and VLAN and is
    connected to it; otherwise (no such source, another interface, no address
    yet) the frame reports an error and the sink waits to probe again, without
    a stream.  Both sides have memory for their frames. *)
Theorem probe_settles_sink p q i s cmd wl wt :
  healthy → random_positive → session wl → sinks (w_st wl) !! i = Some s → probing (state s) = true →
  probe_of (w_st wl) i s cmd → avdecc_entity_port_valid (w_st wl) q = true →
  talker_healthy → talker_ok (w_st wt) → all_settled (w_st wt) →
  talker_accepted (w_st wt) p (AcmpMsg ACMP_PROBE_TX_COMMAND ACMP_STAT_SUCCESS cmd) = true →
  wp (talker_handle (EvTalkerAcmp p (AcmpMsg ACMP_PROBE_TX_COMMAND ACMP_STAT_SUCCESS cmd)))
    (λ _ wt', ∃ m out, talker_outputs wt' = out ++ talker_outputs wt ∧ talker_frames out = [(p, m)] ∧
       (∀ j t, sources (w_st wt) !! j = Some t → ∃ t', sources (w_st wt') !! j = Some t' ∧
          abs_source t' =
            if bool_decide (j = command_source cmd) && (Z.of_nat p =? ntohs (o_avb_interface_index t))
            then source_step AEProbe (abs_source t) else abs_source t) ∧
       wp (milan_handle (EvAcmp q m))
         (λ _ wl', ∃ s', sinks (w_st wl') !! i = Some s' ∧ talker_of s' = talker_of s ∧
            match answering (w_st wt) p cmd with
            | Some t =>
                state s' = ACMP_LISTENER_SINK_SM_STATE_SETTLED_NO_RSV ∧ stream_of s' = stream_of_source t ∧
                connected i (outputs (w_trace wl')) = Some (o_stream_id t)
            | None =>
                state s' = ACMP_LISTENER_SINK_SM_STATE_PRB_W_RETRY ∧ stream_of s' = no_stream ∧
                connected i (outputs (w_trace wl')) = None
            end) wl) wt.
Proof.
  intros Hh Hr Hse Hs Hp [P1 P2 P3] Hq Hth Hok Ha Hacc.
  set (cmd_msg := AcmpMsg ACMP_PROBE_TX_COMMAND ACMP_STAT_SUCCESS cmd) in *.
  destruct (probe_answer p cmd (w_st wt) Hacc) as (m & Hm & M1 & M2 & M3 & M4 & M5).
  eapply wp_mono; [by apply (talker_handle_spec (EvTalkerAcmp p cmd_msg) (w_st wt) (talker_outputs wt) wt Hok), tracked_self|].
  intros [] wt' (c' & out & [<- Ho] & K).
  exists m, out. split; [by apply Ho|]. split; [by rewrite (tk_frames _ _ _ _ K Hth Ha)|]. split.
  { intros j t Ht. destruct (tk_sources _ _ _ _ K j t Ht) as (t' & Ht' & _ & Hab). exists t'. split; [done|].
    rewrite (Hab Hth (Ha _ t Ht)). unfold source_label, event_source. rewrite Hacc. cbn [m_pdu m_type cmd_msg].
    destruct (decide (command_source cmd = j)) as [<-|Hne].
    - rewrite Ht. cbn. rewrite decide_True, bool_decide_true by done. unfold command_event. cbn. by destruct (Z.of_nat p =? _).
    - rewrite bool_decide_false by congruence. destruct (sources (w_st wt) !! command_source cmd); [|done]. cbn.
      by rewrite decide_False. }
  assert (Hlab : labels (w_st wl) (EvAcmp q m) i s =
    [if m_status m =? ACMP_STAT_SUCCESS then LProbeOk (pdu_stream (m_pdu m)) else LProbeFailed]).
  { apply answer_labels; try done. split; congruence. }
  destruct (session_invariant wl Hh Hr Hse) as [HokL HL _ Hconn].
  eapply wp_mono; [by apply (handle_run (EvAcmp q m) (w_st wl) (outputs (w_trace wl)) wl Hr I HokL), at_world_self|].
  intros [] wl' (L & cl' & outl & [<- Hol] & KL & HF). destruct (HF Hh) as [F _].
  destruct (ek_sinks _ _ _ KL i s Hs) as (s' & Hs' & Hst). rewrite (ef_labels _ _ _ _ _ _ F i s Hs), Hlab in Hst.
  exists s'. split; [done|].
  rewrite (Hol Hh), (connected_step _ _ _ _ _ _ i s s' KL F Hs Hs' (Hconn i s Hs)). unfold settled_stream.
  destruct (answering (w_st wt) p cmd) as [t|].
  - destruct M5 as [Mst M5]. rewrite Mst, M5 in Hst. cbn in Hst. unfold astep, sm_step in Hst. cbn in Hst.
    assert (Hfin : abs s' = ASink ACMP_LISTENER_SINK_SM_STATE_SETTLED_NO_RSV (found s) (stream_of_source t) (talker_of s))
      by by destruct (state s).
    injection Hfin as E1 _ E2 E3 E4 E5 E6. unfold talker_of, stream_of, stream_of_source. rewrite E1. cbn.
    split_and!; congruence.
  - rewrite M5 in Hst. cbn in Hst. unfold astep, sm_step in Hst. cbn in Hst.
    assert (Hfin : abs s' = ASink ACMP_LISTENER_SINK_SM_STATE_PRB_W_RETRY (found s) no_stream (talker_of s))
      by by destruct (state s).
    injection Hfin as E1 _ E2 E3 E4 E5 E6. unfold talker_of, stream_of, no_stream. rewrite E1. cbn.
    split_and!; congruence.
Qed.
End pair.
