(* ===== verification/MaapTalker.v ===== *)
(** * MAAP and Milan talkers: the addresses that MAAP gives

    A talker takes the addresses of its sources from MAAP; a range of MAAP
    takes its address back before it gives another one. *)

From S2P Require Import Prelude Timer MaapAddr Maap MaapSpec MilanTalker MilanSource MilanSourceSpec MilanTalkerSession.

Definition no_address : list Z := replicate 6 0.
(** The address that a talker has after a status of MAAP. *)
Definition status_address (m : Z * maap_ipc_msg) : option (list Z) :=
  match m.2 with
  | StatusIndication st _ _ _ base =>
      if st =? MAAP_STATUS_SUCCESS then Some (mac_bytes base)
      else if st =? MAAP_STATUS_CONFLICT then Some no_address else None
  | _ => None
  end.
(** Oldest first; [a] is the address before. *)
Fixpoint statuses_orderly (a : list Z) (ms : list (Z * maap_ipc_msg)) : Prop :=
  match ms with
  | [] => True
  | m :: ms =>
      match status_address m with
      | Some b => orderly_address b a ∧ statuses_orderly b ms
      | None => statuses_orderly a ms
      end
  end.
Definition last_address (a : list Z) (ms : list (Z * maap_ipc_msg)) : list Z :=
  foldl (λ a m, default a (status_address m)) a ms.

Lemma statuses_app a ms ms' : statuses_orderly a ms → statuses_orderly (last_address a ms) ms' → statuses_orderly a (ms ++ ms').
Proof.
  revert a. induction ms as [|m ms IH]; intros a; [done|]. cbn. destruct (status_address m) as [b|]; cbn; [|apply IH].
  intros [H1 H2] H3. split; [done|]. by apply IH.
Qed.

(** The address that the talker of a range has. *)
Definition held (x : maap_range) : list Z := if send_conflict_indication (sm x) then mac_bytes (start_mac_addr x) else no_address.

(** What the talker has, from the abstract range. *)
Definition spec_held (s : spec_range) : list Z := if MaapSpec.told s then mac_bytes (addr s) else no_address.
Lemma held_abs x s : abs_range x = Some s → held x = spec_held s.
Proof. unfold abs_range. destruct (sm_phase (sm x)); [|done]. by intros [= <-]. Qed.
Lemma conflict_orderly pid x (b : bool) :
  statuses_orderly (if b then mac_bytes (start_mac_addr x) else no_address) (if b then [status_msg pid x MAAP_STATUS_CONFLICT] else []) ∧
  last_address (if b then mac_bytes (start_mac_addr x) else no_address) (if b then [status_msg pid x MAAP_STATUS_CONFLICT] else []) = no_address.
Proof. destruct b; [|done]. split; [|done]. split; [by left|done]. Qed.

Lemma step_orderly pid i x x' new :
  range_ok x → abs_range x' = spec_step (input_event i) (input_lower i) new <$> abs_range x →
  statuses_orderly (held x) (spec_messages pid i x x') ∧ last_address (held x) (spec_messages pid i x x') = held x'.
Proof.
  intros (_ & _ & _ & _ & _ & Hsm) Ha. assert (Hconf := conflict_orderly pid x (send_conflict_indication (sm x))).
  unfold abs_range at 2, sm_phase in Ha. unfold spec_messages.
  destruct (state (sm x)) eqn:S; [done|..]; cbn [fmap option_fmap option_map] in Ha; rewrite (held_abs x' _ Ha); unfold held.
  - destruct i as [i|i|i|[]|]; cbn [input_event spec_step input_lower ph] in *.
    all: unfold spec_held.
    + destruct (maap_compare_MAC _ _); [by split|exact Hconf].
    + exact Hconf.
    + exact Hconf.
    + assert (Hst : (state (sm x') = MAAP_STATE_DEFEND ↔ ∃ s, abs_range x' = Some s ∧ ph s = Defending)).
      { unfold abs_range, sm_phase. destruct (state (sm x')); cbn; split; try done; by (intros (? & [= <-] & ?) || eauto). }
      destruct (Z.to_nat (maap_probe_count (sm x))) as [|[|n]] eqn:N; cbn in Ha.
      * rewrite decide_True by (apply Hst; eauto). cbn. split; [|done]. split; [|done]. unfold orderly_address.
        destruct (send_conflict_indication (sm x)); auto.
      * rewrite decide_True by (apply Hst; eauto). cbn. split; [|done]. split; [|done]. unfold orderly_address.
        destruct (send_conflict_indication (sm x)); auto.
      * rewrite decide_False; [done|]. intros (s & Hs & Hp)%Hst. rewrite Ha in Hs. by injection Hs as <-.
    + done.
    + done.
  - destruct Hsm as (_ & _ & Hsm). rewrite Hsm in *.
    destruct i as [i|i|i|[]|]; cbn [input_event spec_step input_lower ph] in *; try done.
    all: by destruct (maap_compare_MAC _ _).
Qed.

Section statuses.
Context `{!Platform maap_call}.
Implicit Types (w : world maap_call maap_ctx).

(** Inputs of range [r] of port [p]; a timer that does not run does not
    expire. *)
Definition drive_input (r p : nat) (i : maap_input) : M maap_call maap_ctx unit :=
  let! c := gets (λ c, c) in
  when (match ranges c !! r with Some x => input_enabled i x | None => false end) (do_input r p i).
Definition drive (r p : nat) (l : list maap_input) : M maap_call maap_ctx unit := for_each l (drive_input r p).

(** C19: whatever is received and whichever timers expire, the statuses that MAAP
    sends for one of its ranges give a talker a new address only after it has
    taken the previous one back: this is what [talker_session] asks of the
    addresses. *)
Theorem maap_statuses_orderly r p l x q w :
  healthy → random_ok → ranges (w_st w) !! r = Some x → port (w_st w) !! p = Some q → range_ok x → range_port x = p →
  wp (drive r p l) (λ _ w', ∃ ms, messages (w_trace w') = rev ms ++ messages (w_trace w) ∧ statuses_orderly (held x) ms) w.
Proof.
  intros Hh Hr. revert x w. unfold drive.
  induction l as [|i l IH]; intros x w Hx Hq Hok Hp; cbn [for_each]; [apply wp_ret; by exists []|].
  apply wp_bind. unfold drive_input. apply wp_bind, wp_gets. apply wp_when. rewrite Hx. destruct (input_enabled i x) eqn:He.
  2:{ by apply IH. }
  eapply wp_mono; [by apply (input_stepped Hr p r q i x w)|]. intros [] w1 (x1 & new & [E T] & (P1 & _) & Hok1 & Ha).
  destruct (step_orderly (port_id q) i x x1 new Hok Ha) as [O1 O2]. destruct (T Hh) as [_ HT].
  eapply wp_mono; [apply (IH x1 w1)|].
  - rewrite E. apply lookup_insert_eq.
  - by rewrite E.
  - done.
  - congruence.
  - intros [] w2 (ms & Hms & HO). exists (spec_messages (port_id q) i x x1 ++ ms).
    rewrite Hms, HT, rev_app_distr, app_assoc. split; [done|]. apply statuses_app; [done|]. by rewrite O2.
Qed.
End statuses.
