(* ===== verification/MilanTalkerExample.v ===== *)
(** * AVDECC: a talker entity with two sources

    A platform with memory, an entity with two stream outputs, and a session on
    it: instances of the properties of MilanTalkerProps.v, MilanPair.v and
    MaapTalker.v. *)

From S2P Require Import Prelude Tracked MaapAddr Maap Timer MaapSpec.
From S2P Require Import Milan MilanSm MilanListener MilanSpec MilanTable MilanRefine MilanEvents MilanLive MilanHandlers MilanInputs MilanRequests MilanRun MilanInit MilanSession MilanProps MilanExample.
From S2P Require Import MilanTalker MilanSource MilanSourceSpec MilanUpdate MilanSourceRun MilanTalkerRun MilanTalkerInit MilanTalkerSession MilanTalkerProps MilanPair MaapTalker.

Module Talker.
#[local] Instance platform : Platform talker_call := λ _ _, 1.
#[local] Existing Instance Listener.platform.
#[local] Existing Instance demo_maap_platform.

Definition off_source (i : Z) : stream_output :=
  StreamOutput 0 (htons i) 0 0 0 (replicate 6 0) 0 0 0 0 0 0 0 0 0 soft_none soft_none false false false false false no_params
    soft_none (replicate 8 0, 0).
Definition interface_mac : list Z := [0; 4; 0x9f; 1; 2; 3].
Definition zero_talker : talker_entity := TalkerEntity 0x22 0 0 1 true [interface_mac] [off_source 0; off_source 1].
Definition power_on : world talker_call talker_entity := World zero_talker 0 [].

Definition exec {A} (m : M talker_call talker_entity A) (w : world talker_call talker_entity) : world talker_call talker_entity :=
  match m w with Done (_, w') => w' | _ => w end.

(** MAAP gives source 0 an address, the listener of MilanExample.v probes it,
    SRP reports a listener. *)
Definition maap_address : list Z := [0x91; 0xe0; 0xf0; 0; 1; 0].
Definition given (mac : list Z) : talker_event := EvMaapStatus MAAP_STATUS_SUCCESS 0 1000 mac 1.
Definition taken : talker_event := EvMaapStatus MAAP_STATUS_CONFLICT 0 1000 maap_address 1.
Definition probe_cmd : acmp_pdu := (probe_pdu (w_st Listener.bound_world) 0 (Listener.sink Listener.discovered 0))
  <| p_sequence_id := htons (probe_tx_seq_id (Listener.sink Listener.discovered 0)) |>.
Definition probe_event : talker_event := EvTalkerAcmp 0 (AcmpMsg ACMP_PROBE_TX_COMMAND ACMP_STAT_SUCCESS probe_cmd).
Definition source (w : world talker_call talker_entity) (i : nat) : stream_output := default (off_source 0) (sources (w_st w) !! i).

Definition ready : world talker_call talker_entity := exec acmp_milan_init_talkers power_on.
Definition stream0 : Z := o_stream_id (source ready 0).
Definition addressed : world talker_call talker_entity := exec (talker_handle (given maap_address)) ready.
Definition probed : world talker_call talker_entity := exec (talker_handle probe_event) addressed.
Definition listened_event : talker_event := EvTalkerStatus 0 stream0 ACTIVE_LISTENER.
Definition streaming : world talker_call talker_entity := exec (talker_handle listened_event) probed.
Definition probe_end : talker_event := EvSourceTimer 0 TMR_PROBE_TX_RECEPTION.
Definition waiting : world talker_call talker_entity := exec (talker_handle probe_end) probed.

Lemma talker_memory : talker_healthy.
Proof. by repeat split. Qed.
Lemma zero_talker_fine : talker_zeroed (w_st power_on).
Proof.
  split; [|cbn; lia]. intros [|[|i]] s; cbn; try done; intros [= <-]; split; try done; by apply Nat.ltb_lt.
Qed.
Lemma interface_fine : Forall mac_wf (mac_addresses (w_st power_on)).
Proof. repeat constructor; lia. Qed.

Lemma ready_talker_session : talker_session ready.
Proof.
  apply (talker_session_start power_on); [apply zero_talker_fine|apply interface_fine|cbn; lia|done|vm_compute; reflexivity].
Qed.
Lemma addressed_session : talker_session addressed.
Proof.
  apply (talker_session_event ready addressed (given maap_address) ready_talker_session); [|vm_compute; reflexivity].
  intros i s m Hs _. right. left. revert i Hs. assert (H : Forall (λ s, is_invalid_mac_addr (o_stream_dest_mac s) = true) (sources (w_st ready))).
  { vm_compute. repeat constructor. }
  intros i Hs. exact (Forall_lookup_1 _ _ i s H Hs).
Qed.
(** Events that give no address. *)
Lemma other_orderly c ev : (∀ i m, source_label c ev i ≠ Some (AEAddress m)) → orderly c ev.
Proof. intros H i s m _ E. by destruct (H i m). Qed.
Lemma probed_session : talker_session probed.
Proof.
  apply (talker_session_event addressed probed probe_event addressed_session); [|vm_compute; reflexivity].
  apply other_orderly. intros i m. unfold source_label.
  replace (event_source (w_st addressed) probe_event) with (Some (0%nat, Some AEProbe)) by (vm_compute; reflexivity).
  by destruct (decide _).
Qed.
Lemma streaming_session : talker_session streaming.
Proof.
  apply (talker_session_event probed streaming listened_event probed_session); [|vm_compute; reflexivity].
  apply other_orderly. intros i m. unfold source_label.
  replace (event_source (w_st probed) listened_event) with (Some (0%nat, Some (AEListener ACTIVE_LISTENER))) by (vm_compute; reflexivity).
  by destruct (decide _).
Qed.
Lemma waiting_session : talker_session waiting.
Proof.
  apply (talker_session_event probed waiting probe_end probed_session); [|vm_compute; reflexivity].
  apply other_orderly. intros i m. unfold source_label.
  replace (event_source (w_st probed) probe_end) with (Some (0%nat, Some AEProbeEnd)) by (vm_compute; reflexivity).
  by destruct (decide _).
Qed.
Lemma talker_session_fine w : talker_session w → talker_ok (w_st w) ∧ all_settled (w_st w) ∧ distinct_ids (w_st w).
Proof. intros H. destruct (talker_session_ok w talker_memory H) as [H1 [H2 H3 _]]. done. Qed.

Lemma talker_event_refines_witness :
  wp (talker_handle probe_event) (λ _ w', talker_ok (w_st w') ∧ all_settled (w_st w') ∧
    ∃ out, talker_outputs w' = out ++ talker_outputs addressed ∧ talker_frames out = event_reply (w_st addressed) probe_event ∧
      (∀ i s, sources (w_st addressed) !! i = Some s → ∃ s', sources (w_st w') !! i = Some s' ∧ identity s' = identity s ∧
         abs_source s' = step_opt (source_label (w_st addressed) probe_event i) (abs_source s) ∧
         (source_label (w_st addressed) probe_event i ≠ None →
            stream_msgs out = stream_msgs (msgs_out (w_st addressed) i s' (changes (abs_source s) (abs_source s'))))) ∧
      ((∀ i, source_label (w_st addressed) probe_event i = None) → stream_msgs out = [])) addressed.
Proof. apply talker_event_refines; [apply talker_memory|apply talker_session_fine, addressed_session..]. Defined.

Lemma talker_lifecycle_safe_witness :
  wp (let! rc := acmp_milan_init_talkers in
      if rc <? 0 then ret None
      else talker_run [given maap_address; probe_event; taken; listened_event];;
           let! c := gets (λ c, c) in acmp_milan_exit_talkers;; ret (Some c))
    (λ r w', no_source_timers (w_st w') ∧
      (talker_healthy → ∀ c i s, r = Some c → sources c !! i = Some s →
         gone c (stream_msgs (talker_outputs w')) (o_stream_id s))) power_on.
Proof. apply talker_lifecycle_safe; [apply zero_talker_fine|apply interface_fine|cbn; lia|done]. Defined.

Lemma talker_streams_witness :
  let id := o_stream_id (source streaming 0) in
  advertised id (stream_msgs (talker_outputs streaming)) = Some maap_address ∧
  streamed id (stream_msgs (talker_outputs streaming)) = Some maap_address.
Proof.
  intros id.
  destruct (talker_streams streaming 0 (source streaming 0) talker_memory streaming_session) as (_ & H1 & _ & H2 & _);
    [vm_compute; reflexivity|].
  split.
  - etransitivity; [apply H1; vm_compute; reflexivity|vm_compute; reflexivity].
  - etransitivity; [apply H2; vm_compute; reflexivity|vm_compute; reflexivity].
Defined.

(** Source 0 after its probe has ended: it waits, and the address that it had is
    saved. *)
Lemma talker_waits_witness :
  let l := [given [0x91; 0xe0; 0xf0; 0; 2; 0]; probe_event; listened_event; given maap_address] in
  srp_talker_withdraw_in_progress (source waiting 0) = true ∧
  wp (talker_run l) (λ _ w', ∃ out, talker_outputs w' = out ++ talker_outputs waiting ∧
    let saved := w_stream_dest_mac (srp_talker_withdraw_params (source waiting 0)) in
    (∀ mac, list.last (declarations (o_stream_id (source waiting 0)) (stream_msgs out)) = Some mac → mac = saved) ∧
    (is_invalid_mac_addr saved = true → declarations (o_stream_id (source waiting 0)) (stream_msgs out) = [])) waiting.
Proof.
  intros l. split; [vm_compute; reflexivity|].
  destruct (talker_session_fine waiting waiting_session) as (H1 & H2 & H3).
  apply (talker_waits l 0 (source waiting 0) waiting talker_memory H1 H2 H3); [vm_compute; reflexivity..|].
  repeat constructor.
Defined.

(** The probe is answered with a stream once MAAP has given the source its
    address, and refused before. *)
Lemma probe_settles_sink_witness :
  let wl := Listener.discovered in
  let s := Listener.sink wl 0 in
  answering (w_st addressed) 0 probe_cmd = Some (source addressed 0) ∧ answering (w_st ready) 0 probe_cmd = None ∧
  wp (talker_handle probe_event)
    (λ _ wt', ∃ m out, talker_outputs wt' = out ++ talker_outputs addressed ∧ talker_frames out = [(0%nat, m)] ∧
       (∀ j t, sources (w_st addressed) !! j = Some t → ∃ t', sources (w_st wt') !! j = Some t' ∧
          abs_source t' =
            if bool_decide (j = command_source probe_cmd) && (Z.of_nat 0 =? ntohs (o_avb_interface_index t))
            then source_step AEProbe (abs_source t) else abs_source t) ∧
       wp (milan_handle (EvAcmp 0 m))
         (λ _ wl', ∃ s', sinks (w_st wl') !! 0%nat = Some s' ∧ talker_of s' = talker_of s ∧
            match answering (w_st addressed) 0 probe_cmd with
            | Some t =>
                state s' = ACMP_LISTENER_SINK_SM_STATE_SETTLED_NO_RSV ∧ stream_of s' = stream_of_source t ∧
                connected 0 (outputs (w_trace wl')) = Some (o_stream_id t)
            | None =>
                state s' = ACMP_LISTENER_SINK_SM_STATE_PRB_W_RETRY ∧ stream_of s' = no_stream ∧
                connected 0 (outputs (w_trace wl')) = None
            end) wl) addressed ∧
  wp (talker_handle probe_event)
    (λ _ wt', ∃ m out, talker_outputs wt' = out ++ talker_outputs ready ∧ talker_frames out = [(0%nat, m)] ∧
       (∀ j t, sources (w_st ready) !! j = Some t → ∃ t', sources (w_st wt') !! j = Some t' ∧
          abs_source t' =
            if bool_decide (j = command_source probe_cmd) && (Z.of_nat 0 =? ntohs (o_avb_interface_index t))
            then source_step AEProbe (abs_source t) else abs_source t) ∧
       wp (milan_handle (EvAcmp 0 m))
         (λ _ wl', ∃ s', sinks (w_st wl') !! 0%nat = Some s' ∧ talker_of s' = talker_of s ∧
            match answering (w_st ready) 0 probe_cmd with
            | Some t =>
                state s' = ACMP_LISTENER_SINK_SM_STATE_SETTLED_NO_RSV ∧ stream_of s' = stream_of_source t ∧
                connected 0 (outputs (w_trace wl')) = Some (o_stream_id t)
            | None =>
                state s' = ACMP_LISTENER_SINK_SM_STATE_PRB_W_RETRY ∧ stream_of s' = no_stream ∧
                connected 0 (outputs (w_trace wl')) = None
            end) wl) ready.
Proof.
  split; [vm_compute; reflexivity|]. split; [vm_compute; reflexivity|].
  destruct (talker_session_fine addressed addressed_session) as (H1 & H2 & _).
  destruct (talker_session_fine ready ready_talker_session) as (H3 & H4 & _).
  split.
  - apply (probe_settles_sink 0 0 0 (Listener.sink Listener.discovered 0) probe_cmd Listener.discovered addressed);
      [apply Listener.platform_healthy|apply Listener.random_fine|apply Listener.discovered_session|vm_compute; reflexivity|
       vm_compute; reflexivity|split; vm_compute; reflexivity|vm_compute; reflexivity|apply talker_memory|exact H1|exact H2|
       vm_compute; reflexivity].
  - apply (probe_settles_sink 0 0 0 (Listener.sink Listener.discovered 0) probe_cmd Listener.discovered ready);
      [apply Listener.platform_healthy|apply Listener.random_fine|apply Listener.discovered_session|vm_compute; reflexivity|
       vm_compute; reflexivity|split; vm_compute; reflexivity|vm_compute; reflexivity|apply talker_memory|exact H3|exact H4|
       vm_compute; reflexivity].
Defined.

(** The range is created at its last probe: it takes its address, loses it to
    another station, and takes another one. *)
Definition other_station : maap_range_info :=
  RangeInfo (Mac 0 0 0 0 0 1) (Mac 0 4 0x9f 1 2 3) (start_mac_addr demo_range) 16 (ConflictInfo (start_mac_addr demo_range) 16).
Lemma maap_statuses_orderly_witness :
  let l := [InTimer ProbeTimer; InAnnounce other_station; InTimer ProbeTimer; InOperational; InTimer ProbeTimer; InTimer ProbeTimer] in
  wp (drive 0 0 l) (λ _ w', ∃ ms, messages (w_trace w') = rev ms ++ [] ∧ statuses_orderly (held demo_range) ms) (World demo_maap1 0 []).
Proof.
  apply (maap_statuses_orderly 0 0 _ demo_range (port_add 0 demo_port) (World demo_maap1 0 []));
    [done|apply demo_random|reflexivity|reflexivity|apply demo_range_ok|reflexivity].
Defined.
End Talker.
